(* ===== verification/_CoqProject ===== *)
-Q . S2P
Prelude.v
Text.v
Strings.v
StringEncode.v
StdMap.v
Sigslot.v
SharedPtr.v
Scoped.v
CriticalSection.v
ByteOrder.v
ByteBuffer.v
Buffer.v
TimeUtils.v
Clock.v
InetText.v
IpAddress.v
SocketAddr.v
Session.v
PhysicalSocket.v
SocketServer.v
SocketLoop.v
SocketSession.v
PosixSignals.v
WinPing.v
MessageQueue.v
MessageQueueManager.v
QueueWakeup.v
Thread.v
SignalThread.v
Stream.v
FifoBuffer.v
MemoryStream.v
StreamAdapters.v
FileOpening.v
AsyncWrite.v
ThreadRun.v
ThreadSettings.v
ThreadLife.v
Json.v
JsonText.v
JsonStyled.v
JsonOrder.v
JsonPath.v
JsonIterator.v
JsonMemory.v
JsonConvert.v
JsonReader.v
JsonComments.v
Base64.v
Sha1.v
HelpMethods.v
Logging.v
CommandAnalysis.v
InternalMessage.v
SessionManager.v
Task.v
QueueLayer.v
Sdk.v
PushHandle.v
PushManager.v
Client.v
Devices.v
Recognition.v
DeviceManage.v
Registry.v
DeviceAddress.v
