(* ===== verification/Prelude.v ===== *)
(** * A model of the vzsdk TCP protocol library

    The library (src/src/) is the client side of a protocol between a program and
    its licence-plate cameras: TCP connections carry frames, the frames carry JSON
    requests, answers and pushed records.  This development translates its code
    into Rocq functions, a file or module of the source at a time, and proves what
    makes each part correct.  This file is the root: after the overview come the
    notations, tactics and lemmas all other files share.

    ** The parts and how they work together

    A client thread calls an exported function (vzsdk/vzlprtcpsdk.cpp, DeviceManage.v),
    which finds the service of the handle in the registry (vztcpdevicemanage.cpp;
    Registry.v proves its invariant, DeviceAddress.v puts the addresses of base/ under it) and calls one of its devices (vzsdkservice.cpp,
    vziodev.cpp and its like: Devices.v, Recognition.v).  The device builds a command
    (commandanalysis.cpp, CommandAnalysis.v), makes a task of it (task.cpp, Task.v), posts
    it to the queue thread (queuelayer.cpp, QueueLayer.v) and waits.  The queue thread
    registers the task and passes the request to the asynchronous thread
    (sessionmanager.cpp, SessionManager.v), where the session of the device
    (session.cpp, Session.v) frames it and writes it to its socket.  What the
    device sends goes the other way: the session cuts the byte stream into frames,
    the queue thread offers each answer to the tasks and then to the push task
    (vzsdkpushmanager.cpp, PushManager.v), whose handles (vzsdkpushhandle.cpp,
    PushHandle.v) call the client back.  InternalMessage.v has the messages between
    the threads, Sdk.v puts the two threads together, Client.v is the state the
    client threads share and the interface [Waiting] to a task that waits.

    Below is the event layer, event/: message queues (MessageQueue.v), the manager of all
    queues (MessageQueueManager.v) and how a thread that waits for one is woken
    (QueueWakeup.v); threads, with sends between them (Thread.v), the loop they run
    (ThreadRun.v), their life from start to stop (ThreadLife.v), names, priorities and
    sleep (ThreadSettings.v); physical sockets and the loops that poll them
    (PhysicalSocket.v, SocketServer.v, SocketLoop.v), the signals of POSIX in that loop
    (PosixSignals.v) and what it all means for a session (SocketSession.v).

    The base library, base/, has byte orders (ByteOrder.v), the buffers of sessions and
    others (ByteBuffer.v, Buffer.v), time stamps and the clock (TimeUtils.v, Clock.v),
    signals and their receivers (Sigslot.v), smart pointers (SharedPtr.v, Scoped.v) and
    critical sections (CriticalSection.v), streams (Stream.v, FifoBuffer.v,
    MemoryStream.v, the asynchronous writer in AsyncWrite.v, files and adapters in
    StreamAdapters.v, opening files and pipes in FileOpening.v), worker threads
    (SignalThread.v), addresses (InetText.v, IpAddress.v, SocketAddr.v), pinging on Windows
    (WinPing.v), Base64 (Base64.v), SHA-1 and HMAC (Sha1.v), logging (Logging.v), small helpers
    (HelpMethods.v) and strings (Strings.v, StringEncode.v).

    JSON, json/, is in Json.v (values as the SDK uses them), JsonOrder.v (comparison, arrays and
    resizing), JsonPath.v, JsonIterator.v, JsonConvert.v (conversions and their
    tests), JsonMemory.v (who owns the strings), JsonText.v (FastWriter and a plain
    reader), JsonReader.v (the whole reader), JsonStyled.v and JsonComments.v (the
    styled writers).  Text.v and StdMap.v are what the code takes from the C and C++
    libraries: formatted text and [std::map].

    ** How the code is translated

    A class is a record with the members of the class, its methods are functions of
    the record, and what an operation does to anything else (signals, calls on a
    socket, messages posted) is a list of events or effects it returns.  What the
    outside gives it (results of system calls, time, what fresh memory holds, what
    a device answers) is an argument or a parameter of a section.  [outcome] below
    has the results of code that may throw or do something C++ leaves undefined:
    such behaviour is a value of the model, so that the theorems say when it does
    not occur, and the examples when it does.  Integers are [Z] with the wrap of
    their width written out; [ASSERT] is a no-op, as in a release build; sizes are
    [nat] where they cannot come near 2^32 and [Z] where they wrap.  Threads that
    share more than a queue run interleaved, action by action, as step functions
    with a scheduler as argument (Thread.v, ThreadLife.v, SignalThread.v, QueueWakeup.v,
    AsyncWrite.v, PosixSignals.v, CriticalSection.v); the queue and the
    asynchronous thread, which only exchange messages, take turns (Sdk.v).

    ** What is shown

    - Framing: whatever the reads cut the stream into, a session hands over exactly
      the frames in it; packets of one session arrive at another in order; one
      byte out of step is for ever; the heartbeat closes at the right tick
      (Session.v).
    - Requests: a request goes out as one frame, of which the socket takes what it takes and
      the rest is kept, and its answer reaches the thread that waits (Sdk.v, SessionManager.v); answers go to one place and tasks live from request to
      answer (QueueLayer.v, Task.v, SessionManager.v); what each call of the client
      sends, returns and stores (Devices.v, Recognition.v, CommandAnalysis.v).
    - Invariants: the maps of sessions, tasks and services in every reachable state
      (SessionManager.v, QueueLayer.v, Registry.v).
    - Threads: no deadlock and no endless exchange of sends, no use after deletion
      of a worker, the order of delayed messages (Thread.v, SignalThread.v,
      MessageQueue.v); no wake-up is lost (QueueWakeup.v), a thread runs until it is told to
      quit (ThreadRun.v) and only inside its object (ThreadLife.v); a handler that goes leaves no
      message behind (MessageQueueManager.v); each signal of POSIX is answered, after it came, by the
      handler it had been given last (PosixSignals.v).
    - Memory: shared objects live exactly as long as they are pointed to (SharedPtr.v),
      strings of JSON values have one owner (JsonMemory.v), pipes are closed once
      (FileOpening.v).
    - Errors: the JSON reader fails if and only if it reports errors, all of them inside the
      document (JsonReader.v); a resume tick with a record to fetch is undefined (PushHandle.v).
    - Sockets: which events a socket is polled for and what it tells its owner, and
      that the loop of Windows misses no socket although handlers close some of them
      (PhysicalSocket.v, SocketLoop.v); a session whose socket is readable is polled
      again, one whose data was sent in part is not (SocketSession.v).
    - Signals: signals and receivers know each other, so none is left to something
      destroyed, and an emission calls those that stay connected (Sigslot.v).
    - Equivalence: SHA-1 and HMAC are those of the standards, and a hash fed in pieces
      is that of the whole (Sha1.v); a clock reading on Windows is exact if readings are
      close enough (Clock.v).
    - Refinement: buffers and streams implement queues and files on every run
      (ByteBuffer.v, FifoBuffer.v, MemoryStream.v), [Flow] loses nothing, and the asynchronous
      writer writes each byte it took once and loses what its stream refuses or what comes
      after its closing (AsyncWrite.v).
    - Round trips: JSON text, plain and styled, with the reals the C library reads back, Base64, URL, XML, HTML and hex encodings, address text
      and socket storage, byte orders, the fields of white-list records.
    - Bounds: the address parser, the image copies, the parsers of plates.

    ** Fuel and bounds

    A loop of the code that is not structural has fuel; it is as much as the rounds
    the loop can make, measured on the input (characters left, bytes in the buffer,
    entries of a list), and the theorem about the loop is stated for this fuel, or
    for any fuel that is at least so large.  [JsonText.Reader_terminates],
    [Thread.sends_finish], [Stream.Flow_loses_nothing] and [InetText.inet_pton_v6_in_bounds]
    prove that the fuel is enough.

    ** Not modelled

    Pointers, locks, signals and logging have their own files; in the components that use
    them a pointer is a value, a critical section bounds an action, an emission is a call
    of the connected slot, and a log message is left out.  Not modelled are what only passes a
    call on or calls the system: the adapters of asynchronous sockets
    (base/asyncsocket.h), breaking into the debugger (base/common.cpp), starting winsock, the
    integrity level of a process, the pools of Mac OS; what the preprocessor leaves out: the maps
    behind [JSON_VALUE_USE_INTERNAL_MAP]; the templates nobody instantiates ([Dispose],
    [UseMessageData]); and the operating system itself, whose answers are arguments.
    src/third_part is third-party code. *)
From stdpp Require Export base list numbers.
From Stdlib Require Export ZArith Lia.

#[global] Open Scope Z_scope.

(** ** Machine words

    A w-bit unsigned C++ integer is a [Z] in [0, 2^w); a conversion to the type
    is [wrap w].  [i32] is the conversion to the signed 32-bit type. *)
Definition wrap (w z : Z) : Z := z mod 2 ^ w.
Definition u8 (z : Z) : Z := wrap 8 z.
Definition u16 (z : Z) : Z := wrap 16 z.
Definition u32 (z : Z) : Z := wrap 32 z.
Definition u64 (z : Z) : Z := wrap 64 z.
Definition i32 (z : Z) : Z := wrap 32 (z + 2 ^ 31) - 2 ^ 31.

Definition in_width (w z : Z) : Prop := 0 <= z < 2 ^ w.
Definition is_byte (z : Z) : Prop := in_width 8 z.
Definition is_bytes (l : list Z) : Prop := Forall is_byte l.

#[global] Instance in_width_dec w z : Decision (in_width w z).
Proof. unfold in_width. apply _. Defined.
#[global] Instance is_byte_dec z : Decision (is_byte z).
Proof. unfold is_byte. apply _. Defined.
#[global] Instance is_bytes_dec l : Decision (is_bytes l).
Proof. unfold is_bytes. apply _. Defined.

Declare Scope word_scope.
Delimit Scope word_scope with W.
Notation "x & y" := (Z.land x y) (at level 36, left associativity) : word_scope.
Notation "x || y" := (Z.lor x y) : word_scope.
Notation "x ^^ y" := (Z.lxor x y) (at level 37, left associativity) : word_scope.
Notation "x >> n" := (Z.shiftr x n) (at level 34, left associativity) : word_scope.
Notation "x << n" := (Z.shiftl x n) (at level 34, left associativity) : word_scope.

(** ** Tactics *)
Ltac unfold_words :=
  unfold u8, u16, u32, u64, i32, is_byte, in_width, wrap in *.
Ltac pow_consts :=
  change (2 ^ 0) with 1 in *; change (2 ^ 5) with 32 in *; change (2 ^ 6) with 64 in *;
  change (2 ^ 7) with 128 in *; change (2 ^ 8) with 256 in *;
  change (2 ^ 16) with 65536 in *; change (2 ^ 24) with 16777216 in *;
  change (2 ^ 40) with 1099511627776 in *; change (2 ^ 48) with 281474976710656 in *;
  change (2 ^ 56) with 72057594037927936 in *;
  change (2 ^ 31) with 2147483648 in *; change (2 ^ 32) with 4294967296 in *;
  change (2 ^ 64) with 18446744073709551616 in *.
(** Linear arithmetic with the word conversions unfolded. *)
Ltac word_lia :=
  unfold_words; pow_consts; Z.div_mod_to_equations; lia.

Ltac case_if :=
  match goal with
  | |- context [if decide ?b then _ else _] => destruct (decide b)
  | |- context [if ?b then _ else _] => destruct b eqn:?
  end.
(** Turns the boolean tests of the code into the propositions they decide. *)
Ltac propify :=
  repeat match goal with
  | H : (_ =? _) = true |- _ => apply Z.eqb_eq in H
  | H : (_ =? _) = false |- _ => apply Z.eqb_neq in H
  | H : (_ <? _) = true |- _ => apply Z.ltb_lt in H
  | H : (_ <? _) = false |- _ => apply Z.ltb_ge in H
  | H : (_ <=? _) = true |- _ => apply Z.leb_le in H
  | H : (_ <=? _) = false |- _ => apply Z.leb_gt in H
  | H : (_ =? _)%nat = true |- _ => apply Nat.eqb_eq in H
  | H : (_ =? _)%nat = false |- _ => apply Nat.eqb_neq in H
  | H : (_ <? _)%nat = true |- _ => apply Nat.ltb_lt in H
  | H : (_ <? _)%nat = false |- _ => apply Nat.ltb_ge in H
  | H : (_ <=? _)%nat = true |- _ => apply Nat.leb_le in H
  | H : (_ <=? _)%nat = false |- _ => apply Nat.leb_gt in H
  | H : (_ && _)%bool = true |- _ => apply andb_prop in H as [? ?]
  | H : (_ || _)%bool = false |- _ => apply orb_false_elim in H as [? ?]
  | H : negb _ = true |- _ => apply negb_true_iff in H
  | H : negb _ = false |- _ => apply negb_false_iff in H
  end.

(** ** Outcomes

    What a call may come to besides a value: an exception, or undefined behaviour
    (an access outside an object, a null pointer dereferenced). *)
Inductive outcome (A : Type) := Done (a : A) | Threw | Undefined.
Arguments Done {A} a.
Arguments Threw {A}.
Arguments Undefined {A}.

Definition outcome_bind {A B} (m : outcome A) (f : A -> outcome B) : outcome B :=
  match m with Done a => f a | Threw => Threw | Undefined => Undefined end.
#[global] Instance outcome_mbind : MBind outcome := fun A B f m => outcome_bind m f.
#[global] Instance outcome_mret : MRet outcome := fun A a => Done a.
#[global] Instance outcome_fmap : FMap outcome := fun A B f m => outcome_bind m (fun a => Done (f a)).
Definition lift {A} (m : option A) : outcome A :=
  match m with Some a => Done a | None => Threw end.
Definition lift_undefined {A} (m : option A) : outcome A :=
  match m with Some a => Done a | None => Undefined end.
(** Runs the outcomes that are known. *)
Ltac run := cbn [lift lift_undefined mbind outcome_mbind outcome_bind].

(** ** Words: ranges and congruences *)
Create HintDb vz.

Lemma wrap_range w z : 0 <= w -> in_width w (wrap w z).
Proof. intros. unfold in_width, wrap. apply Z.mod_pos_bound. lia. Qed.

Lemma wrap_id w z : in_width w z -> wrap w z = z.
Proof. unfold in_width, wrap. intros. apply Z.mod_small. lia. Qed.

Lemma wrap_idem w z : wrap w (wrap w z) = wrap w z.
Proof. unfold wrap. apply Z.mod_mod_divide. apply Z.divide_refl. Qed.

Lemma wrap_add_l w a b : wrap w (wrap w a + b) = wrap w (a + b).
Proof. unfold wrap. apply Zplus_mod_idemp_l. Qed.

Lemma wrap_add_r w a b : wrap w (a + wrap w b) = wrap w (a + b).
Proof. unfold wrap. apply Zplus_mod_idemp_r. Qed.

Lemma u8_range z : is_byte (u8 z).
Proof. word_lia. Qed.
Lemma u8_id z : is_byte z -> u8 z = z.
Proof. apply wrap_id. Qed.
Lemma u16_range z : in_width 16 (u16 z).
Proof. apply wrap_range. lia. Qed.
Lemma u32_range z : in_width 32 (u32 z).
Proof. apply wrap_range. lia. Qed.
Lemma u32_id z : in_width 32 z -> u32 z = z.
Proof. apply wrap_id. Qed.
Lemma u64_range z : in_width 64 (u64 z).
Proof. apply wrap_range. lia. Qed.
Lemma i32_range z : - 2 ^ 31 <= i32 z < 2 ^ 31.
Proof. word_lia. Qed.
Lemma i32_id z : - 2 ^ 31 <= z < 2 ^ 31 -> i32 z = z.
Proof. word_lia. Qed.

#[export] Hint Resolve wrap_range u8_range u16_range u32_range u64_range i32_range : vz.
#[export] Hint Resolve u8_id u32_id i32_id wrap_id : vz.

(** ** Bit operations on words *)
Lemma lor_disjoint a b k :
  0 <= k -> 0 <= b < 2 ^ k -> Z.lor (Z.shiftl a k) b = a * 2 ^ k + b.
Proof.
  intros Hk Hb. rewrite <- Z.shiftl_mul_pow2 by lia.
  symmetry. rewrite <- Z.add_lor_land.
  replace (Z.land (Z.shiftl a k) b) with 0; [lia|].
  symmetry. apply Z.bits_inj'. intros n Hn.
  rewrite Z.land_spec, Z.bits_0.
  destruct (decide (n < k)).
  - rewrite Z.shiftl_spec_low by lia. reflexivity.
  - rewrite <- (Z.mod_small b (2 ^ k)) by lia.
    rewrite Z.mod_pow2_bits_high by lia. apply andb_false_r.
Qed.

Lemma lor_disjoint_r a b k :
  0 <= k -> 0 <= b < 2 ^ k -> Z.lor b (Z.shiftl a k) = a * 2 ^ k + b.
Proof. intros. rewrite Z.lor_comm. by apply lor_disjoint. Qed.

Lemma lor_add_disjoint a b k :
  0 <= k -> 0 <= b < 2 ^ k -> Z.lor (a * 2 ^ k) b = a * 2 ^ k + b.
Proof. intros. rewrite <- Z.shiftl_mul_pow2 by lia. rewrite lor_disjoint by done. by rewrite Z.shiftl_mul_pow2. Qed.

Lemma land_ones_mod x m k :
  m = Z.ones k -> 0 <= k -> Z.land x m = x mod 2 ^ k.
Proof. intros -> ?. by apply Z.land_ones. Qed.

(** A test that holds on a range, by computation. *)
Lemma seqZ_forallb (P : Z -> bool) m n z :
  forallb P (seqZ m n) = true -> m <= z < m + n -> P z = true.
Proof.
  intros H Hz. rewrite forallb_forall in H. apply H, list_elem_of_In, elem_of_seqZ. lia.
Qed.

(** ** Lists as memory *)
Lemma is_bytes_app l1 l2 : is_bytes (l1 ++ l2) <-> is_bytes l1 /\ is_bytes l2.
Proof. apply Forall_app. Qed.

Lemma is_bytes_take n l : is_bytes l -> is_bytes (take n l).
Proof. apply Forall_take. Qed.

Lemma is_bytes_drop n l : is_bytes l -> is_bytes (drop n l).
Proof. apply Forall_drop. Qed.
#[export] Hint Resolve is_bytes_take is_bytes_drop : vz.

(** [write_at i xs l] is [l] with [xs] copied over it from index [i], what
    [memcpy(l + i, xs, |xs|)] does when the copied range is inside [l]. *)
Definition write_at {A} (i : nat) (xs l : list A) : list A :=
  take i l ++ xs ++ drop (i + length xs) l.
(** [slice i n l] is the [n] elements of [l] from index [i]. *)
Definition slice {A} (i n : nat) (l : list A) : list A := take n (drop i l).

Section memory.
Context {A : Type}.
Implicit Types l xs : list A.

Lemma length_write_at i xs l :
  (i + length xs <= length l)%nat -> length (write_at i xs l) = length l.
Proof.
  intros. unfold write_at. rewrite !length_app, length_take, length_drop. lia.
Qed.

Lemma length_slice i n l :
  (i + n <= length l)%nat -> length (slice i n l) = n.
Proof. intros. unfold slice. rewrite length_take, length_drop. lia. Qed.

Lemma take_write_at i xs l :
  (i <= length l)%nat -> take i (write_at i xs l) = take i l.
Proof.
  intros. unfold write_at. rewrite take_app_le by (rewrite length_take; lia).
  by rewrite take_take, Nat.min_id.
Qed.

Lemma slice_write_at i xs l :
  (i <= length l)%nat -> slice i (length xs) (write_at i xs l) = xs.
Proof.
  intros. unfold slice, write_at.
  rewrite drop_app_length' by (rewrite length_take; lia).
  by rewrite take_app_length.
Qed.

Lemma lookup_slice i n l j : slice i n l !! j = if decide (j < n)%nat then l !! (i + j)%nat else None.
Proof.
  unfold slice. destruct (decide (j < n)%nat); [by rewrite lookup_take_lt, lookup_drop by lia|].
  by rewrite lookup_take_ge by lia.
Qed.
Lemma lookup_write_at i xs l j : (i + length xs <= length l)%nat ->
  write_at i xs l !! j = if decide (i <= j < i + length xs)%nat then xs !! (j - i)%nat else l !! j.
Proof.
  intros Hi. unfold write_at. destruct (decide (i <= j < i + length xs)%nat) as [Hj|Hj].
  - rewrite lookup_app_r, length_take, Nat.min_l by (rewrite ?length_take; lia).
    by rewrite lookup_app_l by lia.
  - destruct (decide (j < i)%nat).
    + by rewrite lookup_app_l, lookup_take_lt by (rewrite ?length_take; lia).
    + rewrite lookup_app_r, length_take, Nat.min_l by (rewrite ?length_take; lia).
      rewrite lookup_app_r, lookup_drop by lia. f_equal. lia.
Qed.

(** Copying just past a window extends the window. *)
Lemma slice_write_end s e xs l :
  (s <= e)%nat -> (e <= length l)%nat ->
  slice s (e - s + length xs) (write_at e xs l) = slice s (e - s) l ++ xs.
Proof.
  intros. unfold slice, write_at.
  rewrite drop_app_le by (rewrite length_take; lia).
  rewrite take_app_ge by (rewrite length_drop, length_take; lia).
  rewrite length_drop, length_take.
  rewrite take_app_length' by lia. f_equal.
  by rewrite skipn_firstn_comm.
Qed.
End memory.
