(* ===== verification/Text.v ===== *)
(** * C strings and the formatted I/O the program uses

    Text is a list of bytes.  This file holds what the source takes from the C
    library: NUL-terminated strings in arrays, [strncpy], [sprintf] with [%d], [%02d] and
    [%x], and [sscanf] with [%d] and [%hx].  Nothing in it is code of the program. *)
From Stdlib Require Import Ascii String.
From S2P Require Import Prelude.

(** The bytes of a literal. *)
Definition bytes (s : string) : list Z :=
  map (fun c => Z.of_N (N_of_ascii c)) (list_ascii_of_string s).
Arguments bytes : simpl never.

(** ** NUL-terminated strings *)
Fixpoint c_str (l : list Z) : list Z :=
  match l with
  | [] => []
  | c :: l => if c =? 0 then [] else c :: c_str l
  end.

(** [strncpy(dest, src, n)], [dest] being an array of at least [n] bytes. *)
Definition strncpy (dest src : list Z) (n : nat) : list Z :=
  let s := take n (c_str src) in
  s ++ replicate (n - length s) 0 ++ drop n dest.
(** [strcpy(dest, src)]; [None] when it writes past the end of [dest]. *)
Definition strcpy (dest src : list Z) : option (list Z) :=
  let s := c_str src ++ [0] in
  if (length s <=? length dest)%nat then Some (s ++ drop (length s) dest) else None.

Definition no_nul (l : list Z) : Prop := Forall (fun c => c <> 0) l.

Lemma c_str_app l m : no_nul l -> c_str (l ++ m) = l ++ c_str m.
Proof.
  induction 1 as [|c l Hc _ IH]; simpl; [done|].
  destruct (Z.eqb_spec c 0); [done|]. by rewrite IH.
Qed.
Lemma c_str_id l : no_nul l -> c_str l = l.
Proof. intros. rewrite <- (app_nil_r l) at 1. rewrite c_str_app by done. apply app_nil_r. Qed.
Lemma c_str_no_nul l : no_nul (c_str l).
Proof. induction l as [|c l IH]; simpl; [constructor|]. destruct (Z.eqb_spec c 0); by constructor. Qed.
Lemma c_str_zeros n l : (0 < n)%nat -> c_str (replicate n 0 ++ l) = [].
Proof. by destruct n; [lia|]. Qed.

(** [strncpy] with room to spare leaves a terminated copy. *)
Lemma c_str_strncpy dest src n :
  (length (c_str src) < n)%nat -> c_str (strncpy dest src n) = c_str src.
Proof.
  intros H. unfold strncpy. rewrite take_ge by lia.
  rewrite c_str_app by apply c_str_no_nul. rewrite c_str_zeros by lia. apply app_nil_r.
Qed.
Lemma length_strncpy dest src n :
  (n <= length dest)%nat -> length (strncpy dest src n) = length dest.
Proof.
  intros. unfold strncpy. rewrite !length_app, length_replicate, length_drop, length_take. lia.
Qed.

(** ** Decimal numbers *)
Definition is_digit (c : Z) : bool := (48 <=? c) && (c <=? 57).
Definition is_space (c : Z) : bool := (c =? 32) || ((9 <=? c) && (c <=? 13)).

Fixpoint digits (fuel : nat) (n : Z) : list Z :=
  match fuel with
  | O => []
  | S fuel => if n <? 10 then [48 + n] else digits fuel (n / 10) ++ [48 + n mod 10]
  end.
Definition print_nat (n : Z) : list Z := digits (S (Z.to_nat (Z.log2 n))) n.
(** [%d] and [%02d]. *)
Definition print_d (n : Z) : list Z :=
  if n <? 0 then 45 :: print_nat (- n) else print_nat n.
Definition print_02d (n : Z) : list Z :=
  let s := print_d n in
  if (length s <? 2)%nat then 48 :: s else s.

Fixpoint scan_digits (acc : Z) (l : list Z) : Z * list Z :=
  match l with
  | [] => (acc, [])
  | c :: l' => if is_digit c then scan_digits (10 * acc + (c - 48)) l' else (acc, l)
  end.
Fixpoint skip_spaces (l : list Z) : list Z :=
  match l with
  | [] => []
  | c :: l' => if is_space c then skip_spaces l' else l
  end.
(** The conversion [%d]: a value and the rest, or a matching failure.  A number
    outside the range of int is undefined in C; it is taken modulo [2^32]. *)
Definition scan_d (l : list Z) : option (Z * list Z) :=
  let l := skip_spaces l in
  let '(neg, l) := match l with
    | 45 :: l => (true, l) | 43 :: l => (false, l) | _ => (false, l) end in
  match l with
  | c :: _ =>
    if is_digit c then
      let '(n, rest) := scan_digits 0 l in
      Some (i32 (if (neg : bool) then - n else n), rest)
    else None
  | [] => None
  end.

(** A [scanf] format: [%d], white space, and characters to match. *)
Inductive scan_item := ScanInt | ScanSpace | ScanChar (c : Z).
(** The values [sscanf] stores, in order, up to the first failure. *)
Fixpoint sscanf (l : list Z) (fmt : list scan_item) : list Z :=
  match fmt with
  | [] => []
  | ScanInt :: fmt =>
    match scan_d l with Some (n, l) => n :: sscanf l fmt | None => [] end
  | ScanSpace :: fmt => sscanf (skip_spaces l) fmt
  | ScanChar c :: fmt =>
    match l with c' :: l => if c' =? c then sscanf l fmt else [] | [] => [] end
  end.

(** ** A number that was printed is scanned back *)
Lemma log2_div_lt b n : 1 < b -> b <= n -> Z.log2 (n / b) < Z.log2 n.
Proof.
  intros Hb Hn. apply Z.log2_lt_pow2; [apply Z.div_str_pos; lia|].
  pose proof (Z.log2_spec n ltac:(lia)) as [Hlo Hhi].
  rewrite Z.pow_succ_r in Hhi by apply Z.log2_nonneg.
  apply Z.div_lt_upper_bound; [lia|]. nia.
Qed.

Lemma scan_digits_digits fuel n : forall acc rest,
  0 <= n -> (Z.to_nat (Z.log2 n) < fuel)%nat ->
  exists k, 0 < k /\ scan_digits acc (digits fuel n ++ rest) = scan_digits (acc * k + n) rest.
Proof.
  revert n. induction fuel as [|fuel IH]; intros n acc rest Hn Hf; [lia|]. cbn [digits].
  destruct (Z.ltb_spec n 10).
  - exists 10. split; [lia|]. cbn [app scan_digits]. unfold is_digit.
    destruct (Z.leb_spec 48 (48 + n)), (Z.leb_spec (48 + n) 57); try lia. cbn [andb]. f_equal. lia.
  - pose proof (log2_div_lt 10 n ltac:(lia) ltac:(lia)). pose proof (Z.log2_nonneg (n / 10)).
    destruct (IH (n / 10) acc ((48 + n mod 10) :: rest)) as (k & Hk & E);
      [apply Z.div_pos; lia|lia|].
    exists (10 * k). split; [lia|]. rewrite <- app_assoc. cbn [app]. rewrite E. cbn [scan_digits].
    pose proof (Z.mod_pos_bound n 10 ltac:(lia)). unfold is_digit.
    destruct (Z.leb_spec 48 (48 + n mod 10)), (Z.leb_spec (48 + n mod 10) 57); try lia.
    cbn [andb]. f_equal. pose proof (Z.div_mod n 10 ltac:(lia)). lia.
Qed.

Definition stops (l : list Z) : Prop := match l with c :: _ => is_digit c = false | [] => True end.
Lemma scan_digits_stop acc l : stops l -> scan_digits acc l = (acc, l).
Proof. destruct l as [|c l]; simpl; [done|]. by intros ->. Qed.

Lemma digits_head fuel n : 0 <= n -> (0 < fuel)%nat ->
  exists c l, digits fuel n = c :: l /\ is_digit c = true.
Proof.
  revert n. induction fuel as [|fuel IH]; intros n Hn Hf; [lia|]. cbn [digits].
  destruct (Z.ltb_spec n 10).
  - do 2 eexists. split; [done|]. unfold is_digit. lia.
  - destruct fuel as [|fuel].
    + do 2 eexists. split; [done|]. pose proof (Z.mod_pos_bound n 10 ltac:(lia)). unfold is_digit. lia.
    + destruct (IH (n / 10)) as (c & l & -> & ?); [apply Z.div_pos; lia|lia|].
      do 2 eexists. split; [done|]. done.
Qed.

Lemma is_digit_scan c l : is_digit c = true ->
  scan_d (c :: l) = (let '(n, rest) := scan_digits 0 (c :: l) in Some (i32 n, rest)).
Proof.
  intros H. unfold scan_d. assert (Hs : is_space c = false) by (unfold is_digit, is_space in *; lia).
  cbn [skip_spaces]. rewrite Hs.
  assert (48 <= c <= 57) as Hc by (unfold is_digit in H; lia).
  assert (c = 48 \/ c = 49 \/ c = 50 \/ c = 51 \/ c = 52 \/ c = 53 \/ c = 54 \/ c = 55 \/ c = 56 \/ c = 57)
    as Hcs by lia.
  by destruct Hcs as [->|[->|[->|[->|[->|[->|[->|[->|[->| ->]]]]]]]]].
Qed.

Lemma scan_print_nat n rest : 0 <= n < 2 ^ 31 -> stops rest ->
  scan_d (print_nat n ++ rest) = Some (n, rest).
Proof.
  intros Hn Hr. unfold print_nat. destruct (digits_head (S (Z.to_nat (Z.log2 n))) n) as (c & l & E & Hc);
    [lia|lia|].
  destruct (scan_digits_digits (S (Z.to_nat (Z.log2 n))) n 0 rest) as (k & _ & Hk); [lia|lia|].
  rewrite E in *. cbn [app] in *. rewrite is_digit_scan by done. rewrite Hk, scan_digits_stop by done.
  cbn. by rewrite i32_id by lia.
Qed.

Lemma scan_print_d n rest : 0 <= n < 2 ^ 31 -> stops rest ->
  scan_d (print_d n ++ rest) = Some (n, rest).
Proof.
  intros. unfold print_d. destruct (Z.ltb_spec n 0); [lia|]. by apply scan_print_nat.
Qed.
Lemma scan_print_02d n rest : 0 <= n < 2 ^ 31 -> stops rest ->
  scan_d (print_02d n ++ rest) = Some (n, rest).
Proof.
  intros Hn Hr. unfold print_02d. destruct (length (print_d n) <? 2)%nat; [|by apply scan_print_d].
  cbn [app]. rewrite is_digit_scan by done. cbn [scan_digits].
  pose proof (scan_print_d n rest Hn Hr) as H. revert H. unfold print_d.
  destruct (Z.ltb_spec n 0); [lia|]. unfold print_nat.
  destruct (digits_head (S (Z.to_nat (Z.log2 n))) n) as (c & l & -> & Hc); [lia|lia|].
  cbn [app]. by rewrite is_digit_scan by done.
Qed.

Lemma print_d_no_nul n : no_nul (print_d n).
Proof.
  assert (forall fuel m, 0 <= m -> no_nul (digits fuel m)) as Hd.
  { induction fuel as [|fuel IH]; intros m Hm; simpl; [constructor|].
    destruct (m <? 10); [repeat constructor; lia|]. apply Forall_app. split.
    - apply IH, Z.div_pos; lia.
    - pose proof (Z.mod_pos_bound m 10 ltac:(lia)). repeat constructor; lia. }
  unfold print_d, print_nat. destruct (Z.ltb_spec n 0); [constructor; [done|]|]; apply Hd; lia.
Qed.
Lemma print_02d_no_nul n : no_nul (print_02d n).
Proof.
  unfold print_02d. destruct (length (print_d n) <? 2)%nat; [constructor; [done|]|]; apply print_d_no_nul.
Qed.

(** ** Hexadecimal numbers *)
Definition hexit (n : Z) : Z := if n <? 10 then 48 + n else 87 + n.
Definition hexit_value (c : Z) : option Z :=
  if is_digit c then Some (c - 48)
  else if (97 <=? c) && (c <=? 102) then Some (c - 87)
  else if (65 <=? c) && (c <=? 70) then Some (c - 55)
  else None.

Fixpoint hexits (fuel : nat) (n : Z) : list Z :=
  match fuel with
  | O => []
  | S fuel => if n <? 16 then [hexit n] else hexits fuel (n / 16) ++ [hexit (n mod 16)]
  end.
(** [%x], of a value that is not negative. *)
Definition print_x (n : Z) : list Z := hexits (S (Z.to_nat (Z.log2 n))) n.

Fixpoint scan_hexits (acc : Z) (l : list Z) : Z * list Z :=
  match l with
  | [] => (acc, [])
  | c :: l' =>
    match hexit_value c with Some d => scan_hexits (16 * acc + d) l' | None => (acc, l) end
  end.
(** The conversion [%hx]: white space, a sign and the prefix 0x may come first.
    A number outside the range of unsigned short is undefined in C; it is taken
    modulo [2^16]. *)
Definition scan_hx (l : list Z) : option (Z * list Z) :=
  let l := skip_spaces l in
  let '(neg, l) := match l with
    | 45 :: l => (true, l) | 43 :: l => (false, l) | _ => (false, l) end in
  let l := match l with 48 :: 120 :: l' | 48 :: 88 :: l' => l' | _ => l end in
  match l with
  | c :: _ =>
    match hexit_value c with
    | Some _ =>
      let '(n, rest) := scan_hexits 0 l in
      Some (u16 (if (neg : bool) then - n else n), rest)
    | None => None
    end
  | [] => None
  end.

Definition stops_hex (l : list Z) : Prop :=
  match l with c :: _ => hexit_value c = None | [] => True end.

Lemma hexit_value_hexit n : 0 <= n < 16 -> hexit_value (hexit n) = Some n.
Proof.
  intros. unfold hexit, hexit_value, is_digit. destruct (Z.ltb_spec n 10).
  - replace ((48 <=? 48 + n) && (48 + n <=? 57)) with true by lia. f_equal. lia.
  - replace ((48 <=? 87 + n) && (87 + n <=? 57)) with false by lia.
    replace ((97 <=? 87 + n) && (87 + n <=? 102)) with true by lia. f_equal. lia.
Qed.

(** What [%x] prints is lower-case hexits, and no prefix. *)
Definition is_hexit (c : Z) : Prop := 48 <= c <= 57 \/ 97 <= c <= 102.
Lemma hexit_is_hexit n : 0 <= n < 16 -> is_hexit (hexit n).
Proof. unfold hexit, is_hexit. destruct (Z.ltb_spec n 10); lia. Qed.
Lemma hexits_are fuel n : 0 <= n -> Forall is_hexit (hexits fuel n).
Proof.
  revert n. induction fuel as [|fuel IH]; intros n Hn; cbn [hexits]; [constructor|].
  destruct (Z.ltb_spec n 16); [constructor; [by apply hexit_is_hexit|constructor]|].
  apply Forall_app. split; [apply IH, Z.div_pos; lia|].
  constructor; [|constructor]. apply hexit_is_hexit, Z.mod_pos_bound. lia.
Qed.
Lemma print_x_are n : 0 <= n -> Forall is_hexit (print_x n).
Proof. apply hexits_are. Qed.

Lemma scan_hexits_hexits fuel n : forall acc rest,
  0 <= n -> (Z.to_nat (Z.log2 n) < fuel)%nat ->
  exists k, 0 < k /\ scan_hexits acc (hexits fuel n ++ rest) = scan_hexits (acc * k + n) rest.
Proof.
  revert n. induction fuel as [|fuel IH]; intros n acc rest Hn Hf; [lia|]. cbn [hexits].
  destruct (Z.ltb_spec n 16).
  - exists 16. split; [lia|]. cbn [app scan_hexits]. rewrite hexit_value_hexit by lia. f_equal. lia.
  - pose proof (log2_div_lt 16 n ltac:(lia) ltac:(lia)). pose proof (Z.log2_nonneg (n / 16)).
    destruct (IH (n / 16) acc (hexit (n mod 16) :: rest)) as (k & Hk & E);
      [apply Z.div_pos; lia|lia|].
    exists (16 * k). split; [lia|]. rewrite <- app_assoc. cbn [app]. rewrite E. cbn [scan_hexits].
    rewrite hexit_value_hexit by (apply Z.mod_pos_bound; lia). f_equal.
    pose proof (Z.div_mod n 16 ltac:(lia)). lia.
Qed.
Lemma scan_hexits_stop acc l : stops_hex l -> scan_hexits acc l = (acc, l).
Proof. destruct l as [|c l]; simpl; [done|]. by intros ->. Qed.

Lemma hexits_head fuel n : 0 <= n -> (0 < fuel)%nat -> exists c l, hexits fuel n = c :: l.
Proof.
  intros Hn Hf. destruct fuel as [|fuel]; [lia|]. cbn [hexits].
  destruct (n <? 16); [by do 2 eexists|]. destruct (hexits fuel (n / 16)); by do 2 eexists.
Qed.

Lemma is_hexit_value c : is_hexit c -> exists d, hexit_value c = Some d.
Proof.
  unfold is_hexit, hexit_value, is_digit. intros H.
  destruct ((48 <=? c) && (c <=? 57)) eqn:?; [by eexists|].
  replace ((97 <=? c) && (c <=? 102)) with true by lia. by eexists.
Qed.
(** Neither a space, a sign nor a prefix is found in front of hexits. *)
Lemma scan_hx_hexits c l rest : is_hexit c -> Forall is_hexit l -> stops_hex rest ->
  hd 0 rest <> 88 -> hd 0 rest <> 120 ->
  scan_hx (c :: l ++ rest) = (let '(n, r) := scan_hexits 0 (c :: l ++ rest) in Some (u16 n, r)).
Proof.
  intros Hc Hl Hr HX Hx. unfold scan_hx.
  assert (Hs : is_space c = false) by (unfold is_hexit, is_space in *; lia).
  cbn [skip_spaces]. rewrite Hs.
  assert (E : (match c :: l ++ rest with
    | 45 :: l => (true, l) | 43 :: l => (false, l) | _ => (false, c :: l ++ rest) end) = (false, c :: l ++ rest)).
  { unfold is_hexit in Hc.
    destruct c as [|p|p]; try done. repeat (destruct p as [p|p|]; try done; try lia). }
  rewrite E. clear E.
  assert (E : match c :: l ++ rest with 48 :: 120 :: l' | 48 :: 88 :: l' => l' | _ => c :: l ++ rest end
    = c :: l ++ rest).
  { destruct (decide (c = 48)) as [->|Hn];
      [|destruct c as [|p|p]; try done; repeat (destruct p as [p|p|]; try done)].
    assert (hd 0 (l ++ rest) <> 88 /\ hd 0 (l ++ rest) <> 120) as [H1 H2].
    { destruct l as [|d l]; [done|]. apply Forall_cons_1 in Hl as [Hd _]. unfold is_hexit in Hd. cbn. lia. }
    destruct (l ++ rest) as [|d m]; [done|]. cbn in H1, H2.
    destruct d as [|p|p]; try done. repeat (destruct p as [p|p|]; try done; try lia). }
  rewrite E. clear E. destruct (is_hexit_value c Hc) as (d & ->). done.
Qed.

(** A word that was printed is scanned back. *)
Lemma scan_print_x n rest : in_width 16 n -> stops_hex rest ->
  hd 0 rest <> 88 -> hd 0 rest <> 120 -> scan_hx (print_x n ++ rest) = Some (n, rest).
Proof.
  intros Hn Hr HX Hx. unfold in_width in Hn. pose proof (print_x_are n ltac:(lia)) as Hh. unfold print_x in *.
  destruct (hexits_head (S (Z.to_nat (Z.log2 n))) n) as (c & l & E); [lia|lia|].
  destruct (scan_hexits_hexits (S (Z.to_nat (Z.log2 n))) n 0 rest) as (k & _ & Hk); [lia|lia|].
  rewrite E in *. apply Forall_cons_1 in Hh as [? ?]. cbn [app] in *.
  rewrite scan_hx_hexits by done. rewrite Hk, scan_hexits_stop by done. cbn.
  unfold u16. by rewrite wrap_id.
Qed.
Lemma print_x_cons n : 0 <= n -> exists c l, print_x n = c :: l /\ is_hexit c.
Proof.
  intros Hn. destruct (hexits_head (S (Z.to_nat (Z.log2 n))) n) as (c & l & E); [done|lia|].
  exists c, l. split; [done|]. pose proof (print_x_are n Hn) as H. unfold print_x in H.
  rewrite E in H. by apply Forall_cons_1 in H as [? _].
Qed.

(** A conversion takes something off the front of the text. *)
Lemma scan_hexits_suffix l : forall acc, snd (scan_hexits acc l) `suffix_of` l.
Proof.
  induction l as [|c l IH]; intros acc; cbn [scan_hexits]; [done|].
  destruct (hexit_value c); [|done]. by apply suffix_cons_r.
Qed.
Lemma skip_spaces_suffix l : skip_spaces l `suffix_of` l.
Proof.
  induction l as [|c l IH]; cbn [skip_spaces]; [done|]. destruct (is_space c); [by apply suffix_cons_r|done].
Qed.
Lemma scan_hx_suffix l n rest : scan_hx l = Some (n, rest) ->
  rest `suffix_of` l /\ (length rest < length l)%nat.
Proof.
  unfold scan_hx. pose proof (skip_spaces_suffix l) as H1.
  set (l1 := skip_spaces l) in *. clearbody l1.
  assert (exists neg l2, (match l1 with
    | 45 :: l => (true, l) | 43 :: l => (false, l) | _ => (false, l1) end) = (neg, l2) /\ l2 `suffix_of` l1)
    as (neg & l2 & -> & H2).
  { destruct l1 as [|[|p|p] l1]; try by do 2 eexists.
    repeat (destruct p as [p|p|]; try (do 2 eexists; split; [done|]; first [done | by apply suffix_cons_r])). }
  assert (exists l3, (match l2 with 48 :: 120 :: l' | 48 :: 88 :: l' => l' | _ => l2 end) = l3 /\ l3 `suffix_of` l2)
    as (l3 & -> & H3).
  { destruct l2 as [|[|p|p] l2]; try by eexists. destruct (decide (p = 48%positive)) as [->|Hn].
    2: { exists (Z.pos p :: l2). split; [|done]. repeat (destruct p as [p|p|]; try done). }
    destruct l2 as [|[|q|q] l2]; try by eexists.
    repeat (destruct q as [q|q|]; try (eexists; split; [done|]; first [done | by do 2 apply suffix_cons_r])). }
  destruct l3 as [|c l3]; [done|]. destruct (hexit_value c) as [d|] eqn:Ec; [|done].
  cbn [scan_hexits]. rewrite Ec. pose proof (scan_hexits_suffix l3 (16 * 0 + d)) as H4.
  destruct (scan_hexits (16 * 0 + d) l3) as [v r]. cbn [snd] in H4. intros [= _ <-].
  assert (c :: l3 `suffix_of` l) as H5 by by do 2 (etrans; [done|]).
  split; [etrans; [by apply suffix_cons_r|done]|].
  apply suffix_length in H4, H5. cbn [length] in H5. lia.
Qed.
