(* ===== verification/Strings.v ===== *)
(** * base/stringutils.h and stringutils.cpp: C string helpers

    A C string that is only read is the list of its bytes before the NUL; a
    [std::string] is the list of its bytes; an array that is written, or that need
    not be terminated, is the whole array.  [SIZE_UNKNOWN] is [None].  The case
    conversions are those of the C locale. *)
From Stdlib Require Import Ascii String.
From S2P Require Import Prelude Text.

(** ** The C library and std::string *)
Definition toupper (c : Z) : Z := if (97 <=? c) && (c <=? 122) then c - 32 else c.
Definition tolower (c : Z) : Z := if (65 <=? c) && (c <=? 90) then c + 32 else c.

(** [strncmp(s1, s2, n) == 0]. *)
Fixpoint strncmp_eq (s1 s2 : list Z) (n : nat) : bool :=
  match n with
  | O => true
  | S n =>
    match s1, s2 with
    | [], [] => true
    | c1 :: s1, c2 :: s2 => (c1 =? c2) && strncmp_eq s1 s2 n
    | _, _ => false
    end
  end.

Definition npos : option nat := None.
(** [s.find(pat)]: where [pat] occurs first. *)
Fixpoint find_str (pat s : list Z) : option nat :=
  if bool_decide (pat `prefix_of` s) then Some 0%nat
  else match s with [] => npos | _ :: s => S <$> find_str pat s end.
(** [s.find(pat, pos)]. *)
Definition find_at (pat s : list Z) (pos : nat) : option nat :=
  if (length s <? pos)%nat then npos else Nat.add pos <$> find_str pat (drop pos s).
(** [s.find_first_not_of(set)], [s.find_last_not_of(set)]. *)
Fixpoint find_first_not_of (set s : list Z) : option nat :=
  match s with
  | [] => npos
  | c :: s => if bool_decide (c ∈ set) then S <$> find_first_not_of set s else Some 0%nat
  end.
Definition find_last_not_of (set s : list Z) : option nat :=
  (fun i => (length s - 1 - i)%nat) <$> find_first_not_of set (rev s).
(** [s.substr(pos, n)] for [pos] within [s]; [s.replace(pos, n, r)]. *)
Definition substr (s : list Z) (pos n : nat) : list Z := take n (drop pos s).
Definition replace (s : list Z) (pos n : nat) (r : list Z) : list Z :=
  take pos s ++ r ++ drop (pos + n) s.

(** ** Searching and measuring *)
Fixpoint memory_check (memory : list Z) (c : Z) (count : nat) : outcome bool :=
  match count with
  | O => Done true
  | S count =>
    match memory with
    | [] => Undefined
    | b :: memory => if negb (b =? u8 c) then Done false else memory_check memory c count
    end
  end.

(** The first byte of [str] that is one of [chs]. *)
Fixpoint strchr (str chs : list Z) : option nat :=
  match str with
  | [] => None
  | c :: str => if existsb (Z.eqb c) chs then Some 0%nat else S <$> strchr str chs
  end.
Fixpoint strchrn (str : list Z) (slen : nat) (ch : Z) : option nat :=
  match slen with
  | O => None
  | S slen =>
    match str with
    | [] => None
    | c :: str => if c =? ch then Some 0%nat else S <$> strchrn str slen ch
    end
  end.

(** The byte is read before the index is compared with [buflen]. *)
Fixpoint strlenn (buffer : list Z) (buflen : nat) : outcome nat :=
  match buffer with
  | [] => Undefined
  | c :: buffer =>
    if c =? 0 then Done 0%nat
    else match buflen with O => Done 0%nat | S buflen => S <$> strlenn buffer buflen end
  end.

(** ** Bounded copies *)
Definition strcpyn (buffer : list Z) (buflen : nat) (source : list Z) (srclen : option nat)
  : outcome (list Z * nat) :=
  if (buflen =? 0)%nat then Done (buffer, 0%nat)
  else
    srclen ← (match srclen with
      | None => strlenn source (buflen - 1)
      | Some srclen => Done (if (buflen <=? srclen)%nat then (buflen - 1)%nat else srclen) end);
    if (srclen <=? length source)%nat && (srclen <? length buffer)%nat
    then Done (write_at srclen [0] (write_at 0 (take srclen source) buffer), srclen)
    else Undefined.

(** The copy into wide characters on Windows; [char] is signed, so that a byte from 128 on fills the upper half. *)
Definition widen (c : Z) : Z := u16 (if c <? 128 then c else c - 256).
Definition asccpyn (buffer : list Z) (buflen : nat) (source : list Z) (srclen : option nat) : outcome (list Z * nat) :=
  if (buflen =? 0)%nat then Done (buffer, 0%nat)
  else
    srclen ← (match srclen with
      | None => strlenn source (buflen - 1)
      | Some srclen => Done (if (buflen <=? srclen)%nat then (buflen - 1)%nat else srclen) end);
    if (srclen <=? length source)%nat && (srclen <? length buffer)%nat
    then Done (write_at srclen [0] (write_at 0 (map widen (take srclen source)) buffer), srclen)
    else Undefined.
Definition strcatn (buffer : list Z) (buflen : nat) (source : list Z) (srclen : option nat)
  : outcome (list Z * nat) :=
  if (buflen =? 0)%nat then Done (buffer, 0%nat)
  else
    bufpos ← strlenn buffer (buflen - 1);
    '(tail, n) ← strcpyn (drop bufpos buffer) (buflen - bufpos) source srclen;
    Done (take bufpos buffer ++ tail, (bufpos + n)%nat).

(** [_vsnprintf] writes at most [buflen] bytes of the formatted [text], and a NUL
    when there is room; its result is the length, or -1 when [text] is longer. *)
Definition _vsnprintf (buffer : list Z) (buflen : nat) (text : list Z) : list Z * Z :=
  if (length text <? buflen)%nat then (write_at 0 (text ++ [0]) buffer, Z.of_nat (length text))
  else (write_at 0 (take buflen text) buffer,
        if (length text =? buflen)%nat then Z.of_nat (length text) else -1).
(** [sprintfn] calls [vsprintfn]; [text] is what the format and its arguments give. *)
Definition vsprintfn (buffer : list Z) (buflen : nat) (text : list Z) : outcome (list Z * nat) :=
  if (length buffer <? buflen `min` S (length text))%nat then Undefined else
  let '(buffer, len) := _vsnprintf buffer buflen text in
  if (len <? 0) || (Z.of_nat buflen <=? len) then
    match buflen with
    | O => Undefined
    | S n => Done (write_at n [0] buffer, n)
    end
  else Done (buffer, Z.to_nat len).

(** ** Wildcards *)
Definition ASTERISK : Z := 42.
Fixpoint string_match (target pattern : list Z) {struct pattern} : bool :=
  match pattern with
  | [] => match target with [] => true | _ :: _ => false end
  | c :: pattern =>
    if c =? ASTERISK then
      match pattern with
      | [] => true
      | p :: pattern =>
        (fix scan target := match target with
         | [] => false
         | t :: target =>
           if (toupper p =? toupper t) && string_match target pattern then true
           else scan target
         end) target
      end
    else
      match target with
      | [] => false
      | t :: target => if negb (toupper c =? toupper t) then false else string_match target pattern
      end
  end.

(** ** Wide strings against ASCII *)
Fixpoint ascii_string_compare (s1 s2 : list Z) (n : nat) (transformation : Z -> Z) : Z :=
  match n with
  | O => 0
  | S n =>
    let c1 := transformation (hd 0 s1) in
    let c2 := transformation (hd 0 s2) in
    if negb (c1 =? c2) then if c1 <? c2 then -1 else 1
    else if c1 =? 0 then 0
    else ascii_string_compare (tl s1) (tl s2) n transformation
  end.

(** ** std::string helpers *)

(** [None] when the fuel runs out. *)
Fixpoint replace_substrs_loop (fuel : nat) (search rep s : list Z) (pos : nat) : option (list Z) :=
  match fuel with
  | O => None
  | S fuel =>
    match find_at search s pos with
    | None => Some s
    | Some pos =>
      replace_substrs_loop fuel search rep (replace s pos (length search) rep) (pos + length rep)
    end
  end.
Definition replace_substrs (search rep s : list Z) : option (list Z) :=
  replace_substrs_loop (S (length s)) search rep s 0.

Definition starts_with (s1 s2 : list Z) : bool := strncmp_eq s1 s2 (length s2).
Definition ends_with (s1 s2 : list Z) : bool :=
  let s1_length := length s1 in
  let s2_length := length s2 in
  if (s1_length <? s2_length)%nat then false
  else strncmp_eq (drop (s1_length - s2_length) s1) s2 s2_length.

Definition kWhitespace : list Z := [32; 10; 13; 9].
Definition string_trim (s : list Z) : list Z :=
  let first := find_first_not_of kWhitespace s in
  let last := find_last_not_of kWhitespace s in
  match first, last with
  | Some first, Some last => substr s first (last - first + 1)
  | _, _ => []
  end.

(** ** Copies fit and are terminated *)
Lemma strlenn_terminated s rest n : no_nul s ->
  strlenn (s ++ 0 :: rest) n = Done (length s `min` n)%nat.
Proof.
  intros H. revert n. induction H as [|c s Hc _ IH]; intros n; [by destruct n|]. cbn [app strlenn].
  destruct (Z.eqb_spec c 0); [done|]. destruct n as [|n]; [done|]. by rewrite IH.
Qed.

(** The source of a copy: a terminated string, or so many bytes of an array. *)
Inductive readable : list Z -> option nat -> list Z -> Prop :=
| readable_str s rest : no_nul s -> readable (s ++ 0 :: rest) None s
| readable_bytes s rest : no_nul s -> readable (s ++ rest) (Some (length s)) s.

(** What is printed into a buffer is the text as far as there is room. *)
Lemma vsprintfn_text buffer buflen text : (0 < buflen <= length buffer)%nat -> no_nul text ->
  exists buffer' n, vsprintfn buffer buflen text = Done (buffer', n) /\ c_str buffer' = take (buflen - 1) text.
Proof.
  intros Hb Ht. unfold vsprintfn, _vsnprintf. rewrite (proj2 (Nat.ltb_ge _ _)) by lia. destruct (Nat.ltb_spec (length text) buflen).
  - replace (_ || _) with false by (symmetry; apply orb_false_iff; rewrite Z.ltb_ge, Z.leb_gt; lia).
    eexists _, _. split; [done|]. unfold write_at. rewrite take_0, app_nil_l, <- app_assoc, c_str_app, take_ge by (done || lia). cbn. apply app_nil_r.
  - replace (_ || _) with true by (symmetry; apply orb_true_iff; rewrite Z.ltb_lt, Z.leb_le; destruct (Nat.eqb_spec (length text) buflen); [right|left]; lia).
    destruct buflen as [|n]; [lia|]. eexists _, _. split; [done|]. unfold write_at. rewrite take_0, app_nil_l, Nat.sub_1_r. cbn [Nat.pred].
    rewrite take_app_le, take_take, Nat.min_l by (rewrite ?length_take; lia). rewrite c_str_app by (by apply Forall_take). cbn. apply app_nil_r.
Qed.
Lemma strlenn_widen s : forall n, is_bytes s -> strlenn (map widen s) n = strlenn s n.
Proof.
  induction s as [|c s IH]; intros n Hs; [done|]. apply Forall_cons_1 in Hs as [Hc Hs]. cbn [map strlenn].
  replace (widen c =? 0) with (c =? 0); [destruct (c =? 0), n; [done..|by rewrite IH]|].
  unfold widen, is_byte, in_width in *. destruct (Z.ltb_spec c 128), (Z.eqb_spec c 0); symmetry; rewrite ?Z.eqb_eq, ?Z.eqb_neq; word_lia.
Qed.
(** It is the copy of the widened source. *)
Lemma asccpyn_widens buffer buflen source srclen : is_bytes source -> asccpyn buffer buflen source srclen = strcpyn buffer buflen (map widen source) srclen.
Proof.
  intros Hs. unfold asccpyn, strcpyn. rewrite length_map. assert (E : forall n, map widen (take n source) = take n (map widen source)) by (intros n; apply (fmap_take widen)).
  destruct srclen as [n|]; [|rewrite strlenn_widen by done; destruct (strlenn source _) as [n| |]; [|done..]]; run; by rewrite E.
Qed.
Lemma strcpyn_readable buffer buflen source srclen s :
  readable source srclen s -> (0 < buflen <= length buffer)%nat ->
  exists buffer', strcpyn buffer buflen source srclen = Done (buffer', length s `min` (buflen - 1))%nat
    /\ length buffer' = length buffer /\ drop buflen buffer' = drop buflen buffer
    /\ c_str buffer' = take (buflen - 1) s.
Proof.
  intros Hs Hb. unfold strcpyn.
  replace (buflen =? 0)%nat with false by (symmetry; apply Nat.eqb_neq; lia).
  set (n := (length s `min` (buflen - 1))%nat).
  assert (n < buflen)%nat by (unfold n; lia).
  assert (take n source = take n s /\ (n <= length source)%nat /\ no_nul s /\
    (match srclen with None => strlenn source (buflen - 1)
     | Some srclen => Done (if (buflen <=? srclen)%nat then (buflen - 1)%nat else srclen) end) = Done n)
    as (Ht & Hl & Hn & ->).
  { destruct Hs as [s rest Hn|s rest Hn]; rewrite length_app, take_app_le by lia; repeat split; try done; try lia.
    - by apply strlenn_terminated.
    - f_equal. destruct (Nat.leb_spec buflen (length s)); lia. }
  run.
  replace ((n <=? length source)%nat && (n <? length buffer)%nat) with true
    by (symmetry; apply andb_true_iff; rewrite Nat.leb_le, Nat.ltb_lt; lia).
  assert (Hlt : length (take n s) = n) by (rewrite length_take; lia).
  assert (Hw : write_at n [0] (write_at 0 (take n source) buffer) = take n s ++ 0 :: drop (n + 1) buffer).
  { rewrite Ht. unfold write_at. rewrite take_0, app_nil_l, Nat.add_0_l, Hlt. cbn [length].
    rewrite take_app_length' by done. f_equal. cbn [app]. f_equal.
    rewrite drop_app_ge by lia. rewrite drop_drop, Hlt. f_equal. lia. }
  rewrite Hw. eexists. split; [done|]. repeat split.
  - rewrite length_app, Hlt. cbn [length]. rewrite length_drop. lia.
  - rewrite drop_app_ge by lia. rewrite Hlt.
    destruct (buflen - n)%nat as [|k] eqn:E; [lia|]. cbn [drop]. rewrite drop_drop. f_equal. lia.
  - rewrite c_str_app by by apply Forall_take. cbn. rewrite app_nil_r.
    unfold n. destruct (Nat.min_spec (length s) (buflen - 1)) as [[? ->]|[? ->]]; [|done].
    by rewrite !take_ge by lia.
Qed.

Lemma strcatn_readable buffer buflen s0 source srclen s :
  readable source srclen s -> no_nul s0 -> s0 ++ [0] `prefix_of` buffer ->
  (0 < buflen <= length buffer)%nat ->
  exists buffer', strcatn buffer buflen source srclen = Done (buffer', length (s0 ++ s) `min` (buflen - 1))%nat
    /\ length buffer' = length buffer /\ drop buflen buffer' = drop buflen buffer
    /\ c_str buffer' = take (buflen - 1) (s0 ++ s).
Proof.
  intros Hs Hn [rest ->] Hb. rewrite <- app_assoc in *. cbn [app] in *. unfold strcatn.
  replace (buflen =? 0)%nat with false by (symmetry; apply Nat.eqb_neq; lia).
  rewrite strlenn_terminated by done. run. set (p := (length s0 `min` (buflen - 1))%nat).
  assert (p < buflen)%nat by (unfold p; lia).
  destruct (strcpyn_readable (drop p (s0 ++ 0 :: rest)) (buflen - p) source srclen s Hs)
    as (b' & -> & Hlen & Hdrop & Hstr); [rewrite length_drop; lia|]. run.
  rewrite length_drop in Hlen.
  assert (Hp : take p (s0 ++ 0 :: rest) = take p s0) by (rewrite take_app_le by lia; done).
  assert (Hlp : length (take p s0) = p) by (rewrite length_take; lia).
  rewrite Hp. eexists. split; [f_equal; f_equal|split; [|split]].
  - rewrite length_app. lia.
  - rewrite length_app, Hlp, Hlen. lia.
  - rewrite drop_app_ge by lia. rewrite Hlp, Hdrop, drop_drop. f_equal. lia.
  - rewrite c_str_app by by apply Forall_take. rewrite Hstr.
    destruct (Nat.min_spec (length s0) (buflen - 1)) as [[? E]|[? E]]; fold p in E; rewrite E.
    + rewrite take_ge by lia. rewrite take_app_ge by lia. f_equal. f_equal. lia.
    + replace (buflen - (buflen - 1) - 1)%nat with 0%nat by lia.
      rewrite take_app_le by lia. apply app_nil_r.
Qed.

(** ** Wildcards: the patterns the comment describes *)
Inductive glob : list Z -> list Z -> Prop :=
| glob_nil : glob [] []
| glob_char t target p pattern :
    p <> ASTERISK -> toupper p = toupper t -> glob target pattern -> glob (t :: target) (p :: pattern)
| glob_none target pattern : glob target pattern -> glob target (ASTERISK :: pattern)
| glob_more t target pattern :
    glob target (ASTERISK :: pattern) -> glob (t :: target) (ASTERISK :: pattern).

(** No asterisk follows another one. *)
Fixpoint single_asterisks (pattern : list Z) : Prop :=
  match pattern with
  | c :: (p :: _) as rest => (c = ASTERISK -> p <> ASTERISK) /\ single_asterisks rest
  | _ => True
  end.

Lemma glob_asterisk target pattern :
  glob target (ASTERISK :: pattern) <-> exists l r, target = l ++ r /\ glob r pattern.
Proof.
  split.
  - intros H. remember (ASTERISK :: pattern) as q eqn:E. revert pattern E.
    induction H as [|? ? p' ? Hp ? ? _|target pattern' Hg _|t target pattern' Hg IH]; intros q' [=]; subst.
    + by destruct Hp.
    + by exists [], target.
    + destruct (IH q' eq_refl) as (l & r & -> & ?). by exists (t :: l), r.
  - intros (l & r & -> & Hg). induction l as [|t l IH]; [by apply glob_none|by apply glob_more].
Qed.
Lemma glob_cons_inv target p pattern : p <> ASTERISK ->
  glob target (p :: pattern) ->
  exists t target', target = t :: target' /\ toupper p = toupper t /\ glob target' pattern.
Proof. intros Hp H. inversion H; subst; by eauto 6. Qed.

(** One step of the matcher at an asterisk with a pattern behind it. *)
Lemma string_match_asterisk target p pattern :
  string_match target (ASTERISK :: p :: pattern) =
  match target with
  | [] => false
  | t :: target' => ((toupper p =? toupper t) && string_match target' pattern)
      || string_match target' (ASTERISK :: p :: pattern)
  end.
Proof. destruct target as [|t target]; [done|]. cbn. by case_if. Qed.

Lemma single_asterisks_tail c pattern : single_asterisks (c :: pattern) -> single_asterisks pattern.
Proof. destruct pattern; [done|]. by intros [_ ?]. Qed.

Lemma string_match_glob n : forall pattern target,
  (length pattern <= n)%nat -> single_asterisks pattern ->
  string_match target pattern = true <-> glob target pattern.
Proof.
  induction n as [|n IH]; intros [|c pattern] target Hn Hs; cbn [length] in Hn; try lia.
  1,2: destruct target; split; try done; try (by intros; apply glob_nil); by inversion 1.
  pose proof (single_asterisks_tail _ _ Hs) as Hs'.
  destruct (decide (c = ASTERISK)) as [->|Hc].
  - destruct pattern as [|p pattern].
    + split; [|done]. intros _. apply glob_asterisk. exists target, []. rewrite app_nil_r. by repeat constructor.
    + pose proof (single_asterisks_tail _ _ Hs') as Hs''. cbn [length] in Hn.
      assert (p <> ASTERISK) as Hp by by apply Hs.
      rewrite glob_asterisk. induction target as [|t target IHt].
      * split; [done|]. intros (l & r & E & Hg). symmetry in E. apply app_nil in E as [-> ->].
        destruct (glob_cons_inv _ _ _ Hp Hg) as (? & ? & ? & _). done.
      * rewrite string_match_asterisk, orb_true_iff, andb_true_iff, Z.eqb_eq, IH, IHt by (done || lia). split.
        -- intros [[Ht Hg]|(l & r & -> & Hg)]; [exists [], (t :: target)|by exists (t :: l), r].
           split; [done|]. by constructor.
        -- intros ([|t' l] & r & E & Hg); cbn [app] in E.
           ++ subst r. destruct (glob_cons_inv _ _ _ Hp Hg) as (? & ? & [= -> ->] & ? & ?). by left.
           ++ injection E as -> ->. right. by exists l, r.
  - cbn [string_match]. replace (c =? ASTERISK) with false by (symmetry; by apply Z.eqb_neq).
    destruct target as [|t target].
    + split; [done|]. intros Hg. destruct (glob_cons_inv _ _ _ Hc Hg) as (? & ? & ? & _). done.
    + destruct (Z.eqb_spec (toupper c) (toupper t)) as [E|E]; cbn [negb].
      * rewrite IH by (done || lia). split; [by constructor|].
        intros Hg. by destruct (glob_cons_inv _ _ _ Hc Hg) as (? & ? & [= -> ->] & ? & ?).
      * split; [done|]. intros Hg. by destruct (glob_cons_inv _ _ _ Hc Hg) as (? & ? & [= -> ->] & ? & ?).
Qed.

(** ** Prefixes and suffixes *)
Lemma strncmp_eq_prefix s1 s2 : strncmp_eq s1 s2 (length s2) = true <-> s2 `prefix_of` s1.
Proof.
  revert s1. induction s2 as [|c s2 IH]; intros s1; cbn [length strncmp_eq].
  - split; intros _; [apply prefix_nil|by destruct s1].
  - destruct s1 as [|d s1]; [split; [done|]; intros H; by apply prefix_nil_inv in H|].
    cbn. rewrite andb_true_iff, Z.eqb_eq, IH. split.
    + intros [-> ?]. by apply prefix_cons.
    + intros H. split; [by apply prefix_cons_inv_1 in H|by apply prefix_cons_inv_2 in H].
Qed.
Lemma ends_with_suffix s1 s2 : ends_with s1 s2 = true <-> s2 `suffix_of` s1.
Proof.
  unfold ends_with. destruct (Nat.ltb_spec (length s1) (length s2)) as [H|H].
  - split; [done|]. intros Hs. apply suffix_length in Hs. lia.
  - rewrite strncmp_eq_prefix. split.
    + intros [k E]. exists (take (length s1 - length s2) s1).
      assert (length k = 0)%nat as Hk.
      { apply (f_equal length) in E. rewrite length_app, length_drop in E. lia. }
      destruct k; [|done]. rewrite app_nil_r in E. rewrite <- E at 2. by rewrite take_drop.
    + intros [k ->]. rewrite length_app, Nat.add_sub, drop_app_length. done.
Qed.

(** ** Trimming *)
Definition white (c : Z) : Prop := c ∈ kWhitespace.

Lemma find_first_not_of_spec s :
  match find_first_not_of kWhitespace s with
  | None => Forall white s
  | Some i => exists l c r, s = l ++ c :: r /\ length l = i /\ Forall white l /\ ~ white c
  end.
Proof.
  induction s as [|c s IH]; cbn [find_first_not_of]; [constructor|].
  case_bool_decide as Hc; [|by exists [], c, s].
  destruct (find_first_not_of kWhitespace s) as [i|]; cbn; [|by constructor].
  destruct IH as (l & d & r & -> & <- & ? & ?). exists (c :: l), d, r. repeat split; try done. by constructor.
Qed.
Lemma find_last_not_of_spec s :
  match find_last_not_of kWhitespace s with
  | None => Forall white s
  | Some i => exists l c r, s = l ++ c :: r /\ length l = i /\ Forall white r /\ ~ white c
  end.
Proof.
  unfold find_last_not_of. pose proof (find_first_not_of_spec (rev s)) as H.
  destruct (find_first_not_of kWhitespace (rev s)) as [i|]; cbn [fmap option_fmap option_map].
  - destruct H as (l & c & r & E & Hl & Hw & Hc). apply (f_equal (@rev Z)) in E.
    rewrite rev_involutive, rev_app_distr in E. cbn [rev] in E. rewrite <- app_assoc in E.
    exists (rev r), c, (rev l). repeat split; try done.
    + rewrite E, !length_app, !length_rev. cbn. lia.
    + by apply List.Forall_rev.
  - rewrite <- (rev_involutive s). by apply List.Forall_rev.
Qed.

Lemma not_white_split l c r l' c' r' :
  l ++ c :: r = l' ++ c' :: r' -> ~ white c -> Forall white r' -> (length l <= length l')%nat.
Proof.
  intros E Hc Hr. destruct (Nat.le_gt_cases (length l) (length l')) as [?|Hlt]; [done|]. exfalso.
  apply Hc. assert ((l' ++ c' :: r') !! length l = Some c) as Hl by (rewrite <- E; by apply list_lookup_middle).
  rewrite lookup_app_r in Hl by lia.
  destruct (length l - length l')%nat as [|k] eqn:Ek; [lia|]. cbn in Hl.
  by eapply Forall_lookup_1 in Hl.
Qed.

Lemma string_trim_trims s :
  exists l r, s = l ++ string_trim s ++ r /\ Forall white l /\ Forall white r /\
    forall c, (list.head (string_trim s) = Some c \/ list.last (string_trim s) = Some c) -> ~ white c.
Proof.
  unfold string_trim. pose proof (find_first_not_of_spec s) as Hf. pose proof (find_last_not_of_spec s) as Hl.
  destruct (find_first_not_of kWhitespace s) as [i|].
  2: { exists s, []. rewrite app_nil_r. repeat split; try done. by intros ? [?|?]. }
  destruct Hf as (l & c & r & E & <- & Hwl & Hc).
  destruct (find_last_not_of kWhitespace s) as [j|].
  2: { rewrite E in Hl. apply Forall_app in Hl as [_ Hl]. by apply Forall_cons_1 in Hl as [? _]. }
  destruct Hl as (l' & c' & r' & E' & <- & Hwr & Hc').
  assert (length l <= length l')%nat as Hle by (apply (not_white_split l c r l' c' r'); [congruence|done|done]).
  assert (Es : substr s (length l) (length l' - length l + 1) = drop (length l) (l' ++ [c'])).
  { unfold substr. rewrite E' at 1. rewrite !drop_app_le by lia. rewrite take_app_ge by (rewrite length_drop; lia).
    rewrite length_drop. replace (_ + 1 - _)%nat with 1%nat by lia. done. }
  rewrite Es. exists l, r'. repeat split; try done.
  - assert (El : take (length l) (l' ++ [c']) = l).
    { transitivity (take (length l) s); [rewrite E', !take_app_le by lia; done|].
      rewrite E. apply take_app_length. }
    rewrite app_assoc. rewrite <- El at 1. rewrite take_drop, <- app_assoc. exact E'.
  - intros d [Hd|Hd].
    + assert ((l' ++ [c']) !! length l = Some d) as Hi.
      { rewrite <- Hd, head_lookup, lookup_drop. f_equal. lia. }
      apply (lookup_app_l_Some _ r') in Hi. rewrite <- app_assoc in Hi. cbn [app] in Hi.
      rewrite <- E', E, list_lookup_middle in Hi by done. by injection Hi as <-.
    + rewrite drop_app_le, last_snoc in Hd by lia. by injection Hd as <-.
Qed.

(** ** Replacing *)

(** The occurrences are replaced from the left, none inside another or inside a
    replacement. *)
Inductive Replaced (search rep : list Z) : list Z -> list Z -> Prop :=
| replaced_none s : find_str search s = None -> Replaced search rep s s
| replaced_at s i r :
    find_str search s = Some i -> Replaced search rep (drop (i + length search) s) r ->
    Replaced search rep s (take i s ++ rep ++ r).

Lemma find_str_bound pat s i : find_str pat s = Some i -> (i + length pat <= length s)%nat.
Proof.
  revert i. induction s as [|c s IH]; intros i; cbn [find_str]; case_bool_decide as Hp; try done.
  1,2: intros [= <-]; by apply prefix_length in Hp.
  destruct (find_str pat s) as [j|]; [|done]. cbn. intros [= <-]. specialize (IH j eq_refl). cbn. lia.
Qed.

Lemma replace_substrs_loop_spec search rep fuel : forall front s, search <> [] -> (length s < fuel)%nat ->
  exists r, Replaced search rep s r /\
    replace_substrs_loop fuel search rep (front ++ s) (length front) = Some (front ++ r).
Proof.
  induction fuel as [|fuel IH]; intros front s Hs Hf; [lia|]. cbn [replace_substrs_loop].
  unfold find_at. replace (length (front ++ s) <? length front)%nat with false
    by (symmetry; apply Nat.ltb_ge; rewrite length_app; lia).
  rewrite drop_app_length. destruct (find_str search s) as [i|] eqn:Ef; cbn [fmap option_fmap option_map].
  2: { exists s. split; [by constructor|done]. }
  pose proof (find_str_bound _ _ _ Ef) as Hb.
  assert (0 < length search)%nat by (destruct search; [done|cbn; lia]).
  destruct (IH (front ++ take i s ++ rep) (drop (i + length search) s) Hs) as (r & Hr & El);
    [rewrite length_drop; lia|].
  exists (take i s ++ rep ++ r). split; [by constructor|].
  rewrite <- !app_assoc in El. rewrite <- El. f_equal.
  - unfold replace. rewrite take_app_ge, drop_app_ge by lia. rewrite <- !app_assoc. do 4 f_equal; lia.
  - rewrite !length_app, length_take. lia.
Qed.
Lemma replace_substrs_all search rep s : search <> [] ->
  exists r, replace_substrs search rep s = Some r /\ Replaced search rep s r.
Proof.
  intros Hs. destruct (replace_substrs_loop_spec search rep (S (length s)) [] s Hs) as (r & ? & E); [lia|].
  by exists r.
Qed.
(** An empty search string is found everywhere, and the loop goes on for ever. *)
Lemma replace_substrs_empty rep fuel s pos : (pos <= length s)%nat ->
  replace_substrs_loop fuel [] rep s pos = None.
Proof.
  revert s pos. induction fuel as [|fuel IH]; intros s pos Hp; [done|]. cbn [replace_substrs_loop].
  unfold find_at. replace (length s <? pos)%nat with false by (symmetry; apply Nat.ltb_ge; lia).
  replace (find_str [] (drop pos s)) with (Some 0%nat)
    by (destruct (drop pos s); cbn; by rewrite bool_decide_eq_true_2 by apply prefix_nil).
  cbn. apply IH. unfold replace. rewrite !length_app, length_take, length_drop. cbn. lia.
Qed.

(** The wildcard matcher is right on patterns in which no asterisk follows
    another: it accepts exactly the targets that arise from the pattern by taking
    any text for an asterisk and the other characters up to case. *)
Theorem string_match_wildcards pattern target : single_asterisks pattern ->
  string_match target pattern = true <-> glob target pattern.
Proof. by apply (string_match_glob (length pattern)). Qed.

Lemma string_match_wildcards_witness :
  single_asterisks (bytes "www.*.com") /\
  string_match (bytes "www.TEST.GOOGLE.COM") (bytes "www.*.com") = true /\
  glob (bytes "www.TEST.GOOGLE.COM") (bytes "www.*.com").
Proof.
  assert (H : single_asterisks (bytes "www.*.com")) by (vm_compute; intuition congruence).
  split; [exact H|]. split; [by vm_compute|].
  apply (string_match_wildcards (bytes "www.*.com") (bytes "www.TEST.GOOGLE.COM") H). by vm_compute.
Defined.

(** A second asterisk in a row has to be in the target itself. *)
Example double_asterisk :
  string_match (bytes "anything") (bytes "**g") = false /\ string_match (bytes "an*g") (bytes "**g") = true.
Proof. by vm_compute. Qed.
Example widened : asccpyn (replicate 4 7) 4 [65; 233; 0] None = Done ([65; 0xffe9; 0; 7], 2%nat).
Proof. by vm_compute. Qed.
