(* ===== verification/StringEncode.v ===== *)
(** * base/stringencode.h and stringencode.cpp: escapes, URLs, XML, hex, UTF-8

    Every encoder goes through the source and writes for each character a chunk,
    as long as the chunk and the NUL behind it fit; [put_all] is this loop, and
    [room] is [buflen - bufpos].  A result is the text that was written before the
    NUL; the number returned is its length.  Where the NUL lands outside the buffer
    the result is [Undefined].  [char] is signed, [unsigned long] has 32 bits. *)
From Stdlib Require Import Ascii String.
From stdpp Require Import sets.
From S2P Require Import Prelude Text Strings.

(** The loop of the encoders over the chunks. *)
Fixpoint put_all (room : nat) (chunks : list (list Z)) : list Z :=
  match chunks with
  | [] => []
  | chunk :: chunks => if (length chunk <? room)%nat then chunk ++ put_all (room - length chunk) chunks else []
  end.
(** [buffer[bufpos] = 0]. *)
Definition terminate (buflen : nat) (written : list Z) : outcome (list Z) :=
  if (buflen =? 0)%nat then Done []
  else if (length written <? buflen)%nat then Done written else Undefined.

(** ** Hexadecimal digits *)
Definition HEX : list Z := Text.bytes "0123456789abcdef".
Definition hex_char (val : Z) : Z := if val <? 16 then HEX !!! Z.to_nat val else 33.
(** Every letter counts as a digit. *)
Definition hex_value (ch : Z) : option Z :=
  if (48 <=? ch) && (ch <=? 57) then Some (ch - 48)
  else if (65 <=? ch) && (ch <=? 90) then Some (ch - 65 + 10)
  else if (97 <=? ch) && (ch <=? 122) then Some (ch - 97 + 10)
  else None.
Definition hex_pair (ch : Z) : list Z :=
  [hex_char (Z.land (Z.shiftr ch 4) 15); hex_char (Z.land ch 15)].
(** [(h1 << 4) | h2] as a byte. *)
Definition pair_value (c1 c2 : Z) : option Z :=
  h1 ← hex_value c1; h2 ← hex_value c2; Some (u8 (Z.lor (Z.shiftl h1 4) h2)).

(** ** escape, encode and their inverses *)

(** [::strchr] also finds the NUL that ends [illegal]. *)
Definition is_illegal (illegal : list Z) (ch : Z) : bool := bool_decide (ch ∈ illegal ++ [0]).
Definition escape_chunk (illegal : list Z) (esc ch : Z) : list Z :=
  if (ch =? esc) || is_illegal illegal ch then [esc; ch] else [ch].
Definition escape (buflen : nat) (source illegal : list Z) (esc : Z) : outcome (list Z) :=
  terminate buflen (put_all buflen
    (map (escape_chunk illegal esc) source)).
Fixpoint unescape_loop (room : nat) (source : list Z) (esc : Z) : list Z :=
  match source with
  | [] => []
  | ch :: source =>
    if (room <=? 1)%nat then []
    else if ch =? esc then
      match source with
      | [] => [ch]
      | ch :: source => ch :: unescape_loop (room - 1) source esc
      end
    else ch :: unescape_loop (room - 1) source esc
  end.
Definition unescape (buflen : nat) (source : list Z) (esc : Z) : outcome (list Z) :=
  terminate buflen (unescape_loop buflen source esc).

Definition encode_chunk (illegal : list Z) (esc ch : Z) : list Z :=
  if negb (ch =? esc) && negb (is_illegal illegal ch) then [ch] else esc :: hex_pair ch.
Definition encode (buflen : nat) (source illegal : list Z) (esc : Z) : outcome (list Z) :=
  terminate buflen (put_all buflen
    (map (encode_chunk illegal esc) source)).
Fixpoint decode_loop (room : nat) (source : list Z) (esc : Z) : list Z :=
  match source with
  | [] => []
  | ch :: source =>
    if (room <=? 1)%nat then []
    else
      match source with
      | c1 :: c2 :: rest =>
        match (if ch =? esc then pair_value c1 c2 else None) with
        | Some v => v :: decode_loop (room - 1) rest esc
        | None => ch :: decode_loop (room - 1) source esc
        end
      | _ => ch :: decode_loop (room - 1) source esc
      end
  end.
Definition decode (buflen : nat) (source : list Z) (esc : Z) : outcome (list Z) :=
  terminate buflen (decode_loop buflen source esc).

Definition unsafe_filename_characters : list Z := Text.bytes "\/:*?" ++ [34] ++ Text.bytes "<>|".
Definition make_char_safe_for_filename (c : Z) : Z :=
  if (c <? 32) || (127 <? c) then 95
  else if bool_decide (c ∈ [60; 62; 58; 34; 47; 92; 124; 42; 63]) then 95 else c.

(** ** URLs *)
Definition URL_UNSAFE : Z := 1.
Definition XML_UNSAFE : Z := 2.
Definition HTML_UNSAFE : Z := 2.
Definition ASCII_CLASS : list Z :=
  [1;1;1;1;1;1;1;1;1;1;1;1;1;1;1;1;1;1;1;1;1;1;1;1;1;1;1;1;1;1;1;1;
   1;0;3;1;1;1;3;2;0;0;0;1;1;0;0;1;0;0;0;0;0;0;0;0;0;0;1;1;3;1;3;1;
   1;0;0;0;0;0;0;0;0;0;0;0;0;0;0;0;0;0;0;0;0;0;0;0;0;0;0;1;1;1;1;0;
   1;0;0;0;0;0;0;0;0;0;0;0;0;0;0;0;0;0;0;0;0;0;0;0;0;0;0;1;1;1;0;1].
Definition in_class (ch class : Z) : bool :=
  (ch <? 128) && negb (Z.land (ASCII_CLASS !!! Z.to_nat ch) class =? 0).

Definition url_chunk (ch : Z) : list Z := if in_class ch URL_UNSAFE then 37 :: hex_pair ch else [ch].
Definition url_encode (buflen : nat) (source : list Z) : outcome (list Z) :=
  terminate buflen (put_all buflen (map url_chunk source)).
Fixpoint url_decode_loop (room : nat) (source : list Z) : list Z :=
  match source with
  | [] => []
  | ch :: source =>
    if (room <=? 1)%nat then []
    else if ch =? 43 then 32 :: url_decode_loop (room - 1) source
    else
      match source with
      | c1 :: c2 :: rest =>
        match (if ch =? 37 then pair_value c1 c2 else None) with
        | Some v => v :: url_decode_loop (room - 1) rest
        | None => ch :: url_decode_loop (room - 1) source
        end
      | _ => ch :: url_decode_loop (room - 1) source
      end
  end.
Definition url_decode (buflen : nat) (source : list Z) : outcome (list Z) :=
  terminate buflen (url_decode_loop buflen source).
(** A transform is asked for the size it needs with a null buffer of size 0. *)
Record Transform := mkTransform { size_needed : list Z -> nat; apply_to : nat -> list Z -> outcome (list Z) }.
(** A maximal length of 2^64 - 1 aside. *)
Definition transform (maxlen : nat) (source : list Z) (t : Transform) : outcome (list Z) := apply_to t (maxlen + 1) source.
Definition s_transform (source : list Z) (t : Transform) : outcome (list Z) := apply_to t (size_needed t source) source.
(** All but the two for URLs take the null buffer for one without room. *)
Definition sizeless (f : nat -> list Z -> outcome (list Z)) : Transform := mkTransform (fun source => match f 0%nat source with Done l => length l | _ => 0%nat end) f.
Definition url_encode_size (source : list Z) : nat := (length source * 3 + 1)%nat.
Definition url_decode_size (source : list Z) : nat := (length source + 1)%nat.
Definition s_url_encode (source : list Z) : outcome (list Z) := s_transform source (mkTransform url_encode_size url_encode).
Definition s_url_decode (source : list Z) : outcome (list Z) := s_transform source (mkTransform url_decode_size url_decode).

(** ** UTF-8 *)
Definition utf8_decode (s : list Z) : option (Z * nat) :=
  let b i := s !!! i in
  let trailer i := ((i <? length s)%nat && (Z.land (b i) 0xC0 =? 0x80)) in
  if Z.land (b 0%nat) 0x80 =? 0 then Some (b 0%nat, 1%nat)
  else if negb (trailer 1%nat) then None
  else
    let value16 := Z.land (b 1%nat) 0x3F in
    if Z.land (b 0%nat) 0xE0 =? 0xC0 then
      Some (Z.lor (Z.shiftl (Z.land (b 0%nat) 0x1F) 6) value16, 2%nat)
    else if negb (trailer 2%nat) then None
    else
      let value16 := Z.lor (Z.shiftl value16 6) (Z.land (b 2%nat) 0x3F) in
      if Z.land (b 0%nat) 0xF0 =? 0xE0 then
        Some (Z.lor (Z.shiftl (Z.land (b 0%nat) 0x0F) 12) value16, 3%nat)
      else if negb (trailer 3%nat) then None
      else
        let value16 := Z.lor (Z.shiftl value16 6) (Z.land (b 3%nat) 0x3F) in
        if Z.land (b 0%nat) 0xF8 =? 0xF0 then
          Some (Z.lor (Z.shiftl (Z.land (b 0%nat) 0x07) 18) value16, 4%nat)
        else None.
Definition utf8_encode (buflen : nat) (value : Z) : list Z :=
  let low k := Z.lor 0x80 (Z.land (Z.shiftr value k) 0x3F) in
  if (value <=? 0x7F) && (1 <=? buflen)%nat then [value]
  else if (value <=? 0x7FF) && (2 <=? buflen)%nat then [Z.lor 0xC0 (u8 (Z.shiftr value 6)); low 0]
  else if (value <=? 0xFFFF) && (3 <=? buflen)%nat then [Z.lor 0xE0 (u8 (Z.shiftr value 12)); low 6; low 0]
  else if (value <=? 0x1FFFFF) && (4 <=? buflen)%nat then
    [Z.lor 0xF0 (u8 (Z.shiftr value 18)); low 12; low 6; low 0]
  else [].

(** ** XML and HTML *)
Definition xml_chunk (ch : Z) : list Z :=
  if in_class ch XML_UNSAFE then
    if ch =? 60 then Text.bytes "&lt;"
    else if ch =? 62 then Text.bytes "&gt;"
    else if ch =? 39 then Text.bytes "&apos;"
    else if ch =? 34 then Text.bytes "&quot;"
    else Text.bytes "&amp;"
  else [ch].
Definition xml_encode (buflen : nat) (source : list Z) : outcome (list Z) :=
  terminate buflen (put_all buflen (map xml_chunk source)).

Definition html_char (ch : Z) : list Z :=
  if in_class ch HTML_UNSAFE then if ch =? 39 then Text.bytes "&#39;" else xml_chunk ch else [ch].
(** [&#%lu;]; ten characters are enough. *)
Definition numeric (val : Z) : list Z := Text.bytes "&#" ++ print_nat val ++ [59].
(** Each chunk takes at least one byte of the source. *)
Fixpoint html_chunks (fuel : nat) (source : list Z) : list (list Z) :=
  match fuel, source with
  | S fuel, ch :: rest =>
    if ch <? 128 then html_char ch :: html_chunks fuel rest
    else
      match utf8_decode source with
      | Some (val, vallen) => numeric val :: html_chunks fuel (drop vallen source)
      | None => numeric ch :: html_chunks fuel rest
      end
  | _, _ => []
  end.
Definition html_encode (buflen : nat) (source : list Z) : outcome (list Z) :=
  terminate buflen (put_all buflen (html_chunks (length source) source)).

(** [strtoul(s, &ptr, base)]: the value and what is left at [ptr]; without digits
    [ptr] is [s]. *)
Definition digit_value (base c : Z) : option Z :=
  d ← hex_value c; if d <? base then Some d else None.
Fixpoint scan_base (base acc : Z) (l : list Z) : Z * list Z :=
  match l with
  | [] => (acc, l)
  | c :: l' => match digit_value base c with Some d => scan_base base (acc * base + d) l' | None => (acc, l) end
  end.
Definition take_sign (l : list Z) : bool * list Z :=
  match l with 45 :: l => (true, l) | 43 :: l => (false, l) | _ => (false, l) end.
Definition skip_0x (base : Z) (l : list Z) : list Z :=
  match l with
  | 48 :: x :: d :: _ =>
    if (base =? 16) && ((x =? 120) || (x =? 88)) && bool_decide (is_Some (digit_value 16 d)) then drop 2 l else l
  | _ => l
  end.
Definition strtoul (base : Z) (s : list Z) : Z * list Z :=
  let '(neg, l) := take_sign (skip_spaces s) in
  let l := skip_0x base l in
  match l with
  | c :: _ =>
    match digit_value base c with
    | Some _ =>
      let '(v, rest) := scan_base base 0 l in
      (if 4294967295 <? v then 4294967295 else if neg then u32 (- v) else v, rest)
    | None => (0, s)
    end
  | [] => (0, s)
  end.

(** A character reference, [source] being what follows its [#]: the value and the
    rest; what [strtoul] reads beyond the source is taken to be a NUL. *)
Definition reference (source : list Z) : option (Z * list Z) :=
  let '(base, source) := match source with 120 :: source => (16, source) | _ => (10, source) end in
  match strtoul base source with
  | (val, 59 :: rest) => Some (val, rest)
  | _ => None
  end.
Definition after (name : string) (source : list Z) : option (list Z) :=
  if bool_decide (Text.bytes name `prefix_of` source) then Some (drop (String.length name) source) else None.
Fixpoint xml_decode_loop (fuel room : nat) (source : list Z) : list Z :=
  match fuel, source with
  | S fuel, ch :: source =>
    if (room <=? 1)%nat then []
    else
      let entity ch rest := ch :: xml_decode_loop fuel (room - 1) rest in
      if negb (ch =? 38) then entity ch source
      else match after "lt;" source with Some rest => entity 60 rest | None =>
           match after "gt;" source with Some rest => entity 62 rest | None =>
           match after "apos;" source with Some rest => entity 39 rest | None =>
           match after "quot;" source with Some rest => entity 34 rest | None =>
           match after "amp;" source with Some rest => entity 38 rest | None =>
           match source with
           | 35 :: source =>
             match reference source with
             | Some (val, rest) =>
               match utf8_encode room val with
               | [] => []
               | written => written ++ xml_decode_loop fuel (room - length written) rest
               end
             | None => []
             end
           | _ => []
           end end end end end end
  | _, _ => []
  end.
Definition xml_decode (buflen : nat) (source : list Z) : outcome (list Z) :=
  terminate buflen (xml_decode_loop (length source) buflen source).
Definition html_decode (buflen : nat) (source : list Z) : outcome (list Z) := xml_decode buflen source.

(** ** Hex dumps *)

(** [delimiter] 0 means none; [None] as a result is 0, with nothing terminated. *)
Fixpoint hex_pairs (delimiter : Z) (source : list Z) : list Z :=
  match source with
  | [] => []
  | ch :: source =>
    hex_pair ch ++ (if negb (delimiter =? 0) && (match source with [] => false | _ => true end) then [delimiter] else [])
    ++ hex_pairs delimiter source
  end.
Definition hex_encode_with_delimiter (buflen : nat) (source : list Z) (delimiter : Z) : option (list Z) :=
  let needed := if negb (delimiter =? 0) then (length source * 3)%nat else (length source * 2 + 1)%nat in
  if (buflen =? 0)%nat || (buflen <? needed)%nat then None else Some (hex_pairs delimiter source).
(** The helper for strings, whose buffer has three bytes for each of the source. *)
Definition hex_encode_string (source : list Z) (delimiter : Z) : list Z :=
  default [] (hex_encode_with_delimiter (length source * 3) source delimiter).
Fixpoint hex_decode_loop (delimiter : Z) (source : list Z) : option (list Z) :=
  match source with
  | [] => Some []
  | c1 :: c2 :: source =>
    v ← pair_value c1 c2;
    match source with
    | d :: ((_ :: _) as rest) =>
      if negb (delimiter =? 0) then if d =? delimiter then cons v <$> hex_decode_loop delimiter rest else None
      else cons v <$> hex_decode_loop delimiter source
    | _ => cons v <$> hex_decode_loop delimiter source
    end
  | _ => None
  end.
Definition hex_decode_with_delimiter (buflen : nat) (source : list Z) (delimiter : Z) : option (list Z) :=
  let needed := if negb (delimiter =? 0) then ((length source + 1) / 3)%nat else (length source / 2)%nat in
  if (buflen =? 0)%nat || (buflen <? needed)%nat then None else hex_decode_loop delimiter source.

(** ** Fields *)

(** The loops of [split] and [tokenize]; [field] is what was seen since [last]. *)
Fixpoint split_loop (source : list Z) (delimiter : Z) (field : list Z) : list (list Z) :=
  match source with
  | [] => [field]
  | c :: source =>
    if c =? delimiter then field :: split_loop source delimiter []
    else split_loop source delimiter (field ++ [c])
  end.
Definition split (source : list Z) (delimiter : Z) : list (list Z) := split_loop source delimiter [].
Fixpoint tokenize_loop (source : list Z) (delimiter : Z) (field : list Z) : list (list Z) :=
  match source with
  | [] => match field with [] => [] | _ => [field] end
  | c :: source =>
    if c =? delimiter then match field with [] => [] | _ => [field] end ++ tokenize_loop source delimiter []
    else tokenize_loop source delimiter (field ++ [c])
  end.
Definition tokenize (source : list Z) (delimiter : Z) : list (list Z) := tokenize_loop source delimiter [].
Definition tokenize_append (source : list Z) (delimiter : Z) (fields : list (list Z)) : list (list Z) :=
  fields ++ tokenize source delimiter.
(** The byte in front of the mark is not part of any field. *)
Fixpoint tokenize_marks_loop (fuel : nat) (source : list Z) (delimiter start_mark end_mark : Z) (fields : list (list Z))
  : list (list Z) :=
  match fuel with
  | O => tokenize_append source delimiter fields
  | S fuel =>
    match find_str [start_mark] source with
    | None => tokenize_append source delimiter fields
    | Some start_pos =>
      let pre_mark := if (0 <? start_pos)%nat then substr source 0 (start_pos - 1) else [] in
      let start_pos := S start_pos in
      match find_at [end_mark] source start_pos with
      | None => tokenize_append source delimiter fields
      | Some end_pos =>
        let fields := tokenize_append pre_mark delimiter fields in
        tokenize_marks_loop fuel (drop (end_pos + 1) source) delimiter start_mark end_mark
          (fields ++ [substr source start_pos (end_pos - start_pos)])
      end
    end
  end.
Definition tokenize_marks (source : list Z) (delimiter start_mark end_mark : Z) : list (list Z) :=
  tokenize_marks_loop (length source) source delimiter start_mark end_mark [].

(** ** What the loops write *)
Lemma put_all_prefix chunks : forall room, exists n, put_all room chunks = concat (take n chunks)
  /\ ((0 < room)%nat -> (length (put_all room chunks) < room)%nat)
  /\ ((length (concat chunks) < room)%nat -> n = length chunks).
Proof.
  induction chunks as [|c chunks IH]; intros room; [exists 0%nat; by cbn|]. cbn [put_all concat].
  destruct (Nat.ltb_spec (length c) room) as [Hlt|Hge].
  - destruct (IH (room - length c)%nat) as (n & E & Hl & Hn). exists (S n). cbn [take concat length]. rewrite E. split; [done|].
    rewrite E in Hl. split; intros; rewrite length_app in *; [specialize (Hl ltac:(lia)); lia|]. f_equal. apply Hn. lia.
  - exists 0%nat. split; [done|]. split; [cbn; lia|]. rewrite length_app. lia.
Qed.
Lemma terminate_done buflen l : ((0 < buflen)%nat -> (length l < buflen)%nat) ->
  terminate buflen l = Done (if (buflen =? 0)%nat then [] else l).
Proof.
  intros Hl. unfold terminate. destruct (Nat.eqb_spec buflen 0); [done|].
  by rewrite (proj2 (Nat.ltb_lt _ _)) by (apply Hl; lia).
Qed.

(** A decoder undoes the encoder that writes [chunk a] for [a] if it reads a chunk
    as [out a]. *)
Section round_trip.
Context {A : Type} (chunk out : A -> list Z) (good : A -> Prop) (decoder : nat -> nat -> list Z -> list Z).
Hypothesis decoder_nil : forall fuel room, decoder fuel room [] = [].
Hypothesis decoder_chunk : forall fuel room a rest, good a -> (length (out a) < room)%nat ->
  decoder (S fuel) room (chunk a ++ rest) = out a ++ decoder fuel (room - length (out a)) rest.

Lemma decoder_all s : forall fuel room, Forall good s -> (length s <= fuel)%nat ->
  (length (concat (map out s)) < room)%nat -> decoder fuel room (concat (map chunk s)) = concat (map out s).
Proof.
  induction s as [|a s IH]; intros fuel room Hg Hf Hr; cbn [map concat]; [apply decoder_nil|].
  destruct fuel as [|fuel]; [cbn in Hf; lia|]. apply Forall_cons_1 in Hg as [Ha Hg]. cbn [map concat] in Hr.
  rewrite length_app in Hr. rewrite decoder_chunk by (done || lia). f_equal. apply IH; [done|cbn in Hf; lia|lia].
Qed.
(** Encoding into any buffer and decoding into one that is large enough gives a
    part from the start, and all of it when the buffer was large enough. *)
Lemma encode_decode buflen s : Forall good s ->
  exists n, (forall fuel room, (length s <= fuel)%nat -> (length (concat (map out s)) < room)%nat ->
      decoder fuel room (put_all buflen (map chunk s)) = concat (map out (take n s))) /\
    ((length (concat (map chunk s)) < buflen)%nat -> n = length s).
Proof.
  intros Hg. destruct (put_all_prefix (map chunk s) buflen) as (n & -> & _ & Hn). exists n.
  rewrite firstn_map. rewrite length_map in Hn. split; [|done]. intros fuel room Hf Hr.
  apply decoder_all; [by apply Forall_take|rewrite length_take; lia|].
  rewrite <- (take_drop n s), map_app, concat_app, length_app in Hr. lia.
Qed.
End round_trip.

Lemma encoder_done buflen chunks : (0 < buflen)%nat ->
  terminate buflen (put_all buflen chunks) = Done (put_all buflen chunks) /\ (length (put_all buflen chunks) < buflen)%nat.
Proof.
  intros Hb. destruct (put_all_prefix chunks buflen) as (n & _ & Hl & _). split; [|by apply Hl].
  rewrite terminate_done by done. by rewrite (proj2 (Nat.eqb_neq _ _)) by lia.
Qed.
Lemma put_all_room buflen chunks : (length (concat chunks) < buflen)%nat -> put_all buflen chunks = concat chunks.
Proof. intros Hl. destruct (put_all_prefix chunks buflen) as (n & -> & _ & Hn). by rewrite Hn, firstn_all. Qed.
Lemma concat_singletons {A} (s : list A) : concat (map (fun c => [c]) s) = s.
Proof. induction s as [|c s IH]; [done|]. cbn. by rewrite IH. Qed.
Lemma length_concat_ge (chunk : Z -> list Z) s : (forall c, (1 <= length (chunk c))%nat) ->
  (length s <= length (concat (map chunk s)))%nat.
Proof.
  intros Hk. induction s as [|c s IH]; [cbn; lia|]. cbn [map concat length]. rewrite length_app. specialize (Hk c). lia.
Qed.
Lemma length_concat_le (chunk : Z -> list Z) k s : (forall c, (length (chunk c) <= k)%nat) ->
  (length (concat (map chunk s)) <= k * length s)%nat.
Proof.
  intros Hk. induction s as [|c s IH]; [cbn; lia|]. cbn [map concat length]. rewrite length_app. specialize (Hk c). lia.
Qed.

Lemma pair_value_hex_pair c : is_byte c -> exists c1 c2, hex_pair c = [c1; c2] /\ pair_value c1 c2 = Some c.
Proof.
  intros Hc. do 2 eexists. split; [done|].
  assert (H : forallb (fun c => bool_decide (pair_value (hex_char (Z.land (Z.shiftr c 4) 15)) (hex_char (Z.land c 15)) = Some c))
    (seqZ 0 256) = true) by (by vm_compute).
  apply (seqZ_forallb _ _ _ c) in H; [by apply bool_decide_eq_true_1 in H|]. unfold_words. lia.
Qed.

(** *** URLs *)
Lemma url_decode_chunk room c rest : is_byte c -> (1 < room)%nat ->
  url_decode_loop room (url_chunk c ++ rest) = c :: url_decode_loop (room - 1) rest.
Proof.
  intros Hc Hr. unfold url_chunk. destruct (in_class c URL_UNSAFE) eqn:E.
  - destruct (pair_value_hex_pair c Hc) as (c1 & c2 & -> & Hp). cbn [app url_decode_loop].
    rewrite (proj2 (Nat.leb_gt _ _)) by lia. change (37 =? 43) with false. change (37 =? 37) with true. cbn match. by rewrite Hp.
  - assert (c <> 43 /\ c <> 37) as [H1 H2] by (split; intros ->; by vm_compute in E).
    cbn [app url_decode_loop]. rewrite (proj2 (Nat.leb_gt _ _)), (proj2 (Z.eqb_neq _ _) H1), (proj2 (Z.eqb_neq _ _) H2) by lia.
    by destruct rest as [|? [|? ?]].
Qed.
Lemma url_decode_shorter l : forall room, (0 < room)%nat -> (length (url_decode_loop room l) < room)%nat.
Proof.
  assert (H : forall n l, (length l <= n)%nat -> forall room, (0 < room)%nat -> (length (url_decode_loop room l) < room)%nat);
    [|by eapply H].
  clear l. induction n as [|n IH]; intros l Hn room Hr; destruct l as [|c l]; [done|cbn in Hn; lia|done|].
  cbn [url_decode_loop length] in *. destruct (Nat.leb_spec room 1); [cbn; lia|].
  assert (Hl : forall m, (length m <= n)%nat -> (length (url_decode_loop (room - 1) m) < room - 1)%nat)
    by (intros; apply IH; lia).
  repeat case_match; subst; cbn [length] in *;
    match goal with |- (S (length (url_decode_loop _ ?m)) < _)%nat => specialize (Hl m); cbn [length] in Hl; lia end.
Qed.

Lemma length_url_chunks s : (length s <= length (concat (map url_chunk s)) <= 3 * length s)%nat.
Proof.
  induction s as [|c s IH]; [done|]. cbn [map concat length]. rewrite length_app.
  assert (length (url_chunk c) = 1 \/ length (url_chunk c) = 3)%nat as [-> | ->]
    by (unfold url_chunk; destruct (in_class _ _); auto); lia.
Qed.
Lemma url_decode_encode s buflen : Forall is_byte s -> exists n,
  (forall dlen, (length s < dlen)%nat -> url_decode dlen (put_all buflen (map url_chunk s)) = Done (take n s)) /\
  ((length (concat (map url_chunk s)) < buflen)%nat -> n = length s).
Proof.
  intros Hs. destruct (encode_decode url_chunk (fun c => [c]) is_byte (fun _ => url_decode_loop)) with (buflen := buflen) (s := s)
    as (n & E & Hn); try done.
  { intros _ room' a rest Ha Hl. cbn [length] in *. by rewrite url_decode_chunk. }
  exists n. split; [|done]. intros dlen Hl. unfold url_decode. rewrite terminate_done by apply url_decode_shorter.
  rewrite (proj2 (Nat.eqb_neq _ _)) by lia. rewrite concat_singletons in E.
  by rewrite (E (length s)), concat_singletons by lia.
Qed.

(** *** Escapes *)
Lemma unescape_chunk illegal esc room c rest : (1 < room)%nat ->
  unescape_loop room (escape_chunk illegal esc c ++ rest) esc
  = c :: unescape_loop (room - 1) rest esc.
Proof.
  intros Hr. unfold escape_chunk. destruct (Z.eqb_spec c esc) as [->|Hn]; cbn [orb]; [|destruct (is_illegal illegal c)];
    cbn [app unescape_loop]; rewrite (proj2 (Nat.leb_gt _ _)) by lia; rewrite ?Z.eqb_refl; try done.
  by rewrite (proj2 (Z.eqb_neq _ _) Hn).
Qed.
Lemma decode_chunk illegal esc room c rest : is_byte c -> (1 < room)%nat ->
  decode_loop room (encode_chunk illegal esc c ++ rest) esc
  = c :: decode_loop (room - 1) rest esc.
Proof.
  intros Hc Hr. unfold encode_chunk. destruct (pair_value_hex_pair c Hc) as (c1 & c2 & -> & Hp). case_if; propify.
  - cbn [app decode_loop]. rewrite (proj2 (Nat.leb_gt _ _)), (proj2 (Z.eqb_neq c esc)) by done || lia.
    by destruct rest as [|? [|? ?]].
  - cbn [app decode_loop]. rewrite (proj2 (Nat.leb_gt _ _)) by lia. by rewrite Z.eqb_refl, Hp.
Qed.
(** Only the escape character and hexadecimal digits are written beside legal
    characters. *)
Lemma encode_legal buflen source illegal esc l : Forall is_byte source ->
  encode buflen source illegal esc = Done l ->
  Forall (fun c => is_illegal illegal c = false \/ c = esc \/ c ∈ HEX) l.
Proof.
  intros Hs. unfold encode, terminate. case_if; [intros [= <-]; constructor|]. case_if; [|done]. intros [= <-].
  destruct (put_all_prefix (map (encode_chunk illegal esc) source)
    buflen) as (n & -> & _ & _). rewrite firstn_map. apply Forall_concat, List.Forall_map.
  eapply List.Forall_impl; [|apply Forall_take, Hs]. intros c Hc. unfold encode_chunk. case_if; propify.
  - constructor; [by left|constructor].
  - assert (H : forallb (fun c => forallb (fun d => bool_decide (d ∈ HEX)) (hex_pair c)) (seqZ 0 256) = true) by (by vm_compute).
    apply (seqZ_forallb _ _ _ c) in H; [|unfold_words; lia]. cbn [hex_pair forallb] in H. propify.
    repeat match goal with H : bool_decide _ = true |- _ => apply bool_decide_eq_true_1 in H end.
    repeat apply Forall_cons_2; auto.
Qed.

(** *** XML *)
Lemma after_hit name rest : after name (Text.bytes name ++ rest) = Some rest.
Proof.
  unfold after. rewrite bool_decide_eq_true_2 by (by exists rest). f_equal.
  assert (String.length name = length (Text.bytes name)) as ->
    by (unfold Text.bytes; rewrite length_map; induction name; cbn; congruence).
  apply drop_app_length.
Qed.
Ltac miss := rewrite bool_decide_eq_false_2 by (by intros [? ?]).
Lemma xml_unsafe c : is_byte c -> in_class c XML_UNSAFE = bool_decide (c ∈ [38; 60; 62; 39; 34]).
Proof.
  intros Hc. assert (H : forallb (fun c => eqb (in_class c XML_UNSAFE) (bool_decide (c ∈ [38; 60; 62; 39; 34]))) (seqZ 0 256) = true)
    by (by vm_compute). apply (seqZ_forallb _ _ _ c) in H; [by apply eqb_prop in H|unfold_words; lia].
Qed.
Lemma xml_decode_chunk fuel room c rest : is_byte c -> (1 < room)%nat ->
  xml_decode_loop (S fuel) room (xml_chunk c ++ rest) = c :: xml_decode_loop fuel (room - 1) rest.
Proof.
  intros Hc Hr. unfold xml_chunk. rewrite xml_unsafe by done. case_bool_decide as Hin.
  - apply list_elem_of_In in Hin. cbn in Hin.
    destruct Hin as [<-|[<-|[<-|[<-|[<-|[]]]]]]; cbn match; cbn [Z.eqb Pos.eqb];
      match goal with |- xml_decode_loop _ _ (?w ++ _) = _ =>
        let w' := eval vm_compute in w in change w with w' end;
      cbn [app xml_decode_loop]; rewrite (proj2 (Nat.leb_gt _ _)) by lia; cbn [Z.eqb Pos.eqb negb]; unfold after;
      repeat (miss; cbn match); by rewrite bool_decide_eq_true_2 by (by eexists).
  - cbn [app xml_decode_loop]. rewrite (proj2 (Nat.leb_gt _ _)) by lia.
    destruct (Z.eqb_spec c 38) as [->|]; [|done]. destruct Hin. by left.
Qed.

(** *** UTF-8 *)
Lemma trailer_bits x : 0 <= x < 64 ->
  (Z.land (Z.lor 0x80 x) 0xC0 =? 0x80) = true /\ Z.land (Z.lor 0x80 x) 0x3F = x.
Proof.
  intros Hx. assert (H : forallb (fun x => (Z.land (Z.lor 0x80 x) 0xC0 =? 0x80) && (Z.land (Z.lor 0x80 x) 0x3F =? x))
    (seqZ 0 64) = true) by (by vm_compute). apply (seqZ_forallb _ _ _ x) in H; [|lia].
  cbn beta in H. apply andb_prop in H as [H1 H2]. split; [done|]. by apply Z.eqb_eq.
Qed.
Definition lead_test (mark test low x : Z) : bool :=
  negb (Z.land (Z.lor mark x) 0x80 =? 0) && (Z.land (Z.lor mark x) test =? mark) && (Z.land (Z.lor mark x) low =? x).
Lemma lead2_bits x : 0 <= x < 32 -> lead_test 0xC0 0xE0 0x1F x = true.
Proof. intros Hx. apply (seqZ_forallb _ 0 32 x); [by vm_compute|lia]. Qed.
Lemma lead3_bits x : 0 <= x < 16 -> lead_test 0xE0 0xF0 0x0F x && negb (Z.land (Z.lor 0xE0 x) 0xE0 =? 0xC0) = true.
Proof.
  intros Hx. apply (seqZ_forallb (fun x => lead_test 0xE0 0xF0 0x0F x && negb (Z.land (Z.lor 0xE0 x) 0xE0 =? 0xC0)) 0 16 x);
    [by vm_compute|lia].
Qed.
Lemma lead4_bits x : 0 <= x < 8 -> lead_test 0xF0 0xF8 0x07 x && negb (Z.land (Z.lor 0xF0 x) 0xE0 =? 0xC0)
  && negb (Z.land (Z.lor 0xF0 x) 0xF0 =? 0xE0) = true.
Proof.
  intros Hx. apply (seqZ_forallb (fun x => lead_test 0xF0 0xF8 0x07 x && negb (Z.land (Z.lor 0xF0 x) 0xE0 =? 0xC0)
    && negb (Z.land (Z.lor 0xF0 x) 0xF0 =? 0xE0)) 0 8 x); [by vm_compute|lia].
Qed.
Lemma low_bits v k : 0 <= v -> 0 <= k -> Z.land (Z.shiftr v k) 0x3F = v / 2 ^ k mod 64.
Proof. intros. rewrite Z.shiftr_div_pow2 by lia. by apply (land_ones_mod _ _ 6). Qed.

(** Decides the tests on bits that the context settles. *)
Ltac known :=
  repeat match goal with
  | H : ?a = ?b |- context [?a =? ?b] => rewrite (proj2 (Z.eqb_eq a b) H)
  | H : ?a <> ?b |- context [?a =? ?b] => rewrite (proj2 (Z.eqb_neq a b) H)
  | H : ?a = _ |- context [Z.land ?x ?m] => match a with Z.land x m => rewrite H end
  | |- _ => progress (rewrite ?Z.eqb_refl; cbn [negb andb])
  end.
(** The encoding with room enough, by the length it has. *)
Definition utf8 (v : Z) : list Z := utf8_encode 4 v.
Lemma utf8_room v room : 0 <= v <= 0x1FFFFF -> (length (utf8 v) < room)%nat -> utf8_encode room v = utf8 v.
Proof.
  intros Hv. unfold utf8, utf8_encode. change (1 <=? 4)%nat with true. change (2 <=? 4)%nat with true.
  change (3 <=? 4)%nat with true. change (4 <=? 4)%nat with true. rewrite !andb_true_r.
  destruct (v <=? 0x7F), (v <=? 0x7FF), (v <=? 0xFFFF), (v <=? 0x1FFFFF); cbn [andb length]; intros Hl;
    repeat match goal with |- context [(?k <=? room)%nat] => rewrite (proj2 (Nat.leb_le k room)) by lia; cbn match end; done.
Qed.
Lemma utf8_decode_encode v rest : 0 <= v <= 0x1FFFFF -> utf8_decode (utf8 v ++ rest) = Some (v, length (utf8 v)).
Proof.
  intros Hv. unfold utf8, utf8_encode. change (1 <=? 4)%nat with true. change (2 <=? 4)%nat with true.
  change (3 <=? 4)%nat with true. change (4 <=? 4)%nat with true. rewrite !andb_true_r, !low_bits by lia.
  rewrite !Z.shiftr_div_pow2 by lia.
  assert (Hm : forall k, 0 <= k -> 0 <= v / 2 ^ k mod 64 < 64) by (intros; apply Z.mod_pos_bound; lia).
  pose proof (trailer_bits _ (Hm 0 ltac:(lia))) as [T0 E0]. pose proof (trailer_bits _ (Hm 6 ltac:(lia))) as [T6 E6].
  pose proof (trailer_bits _ (Hm 12 ltac:(lia))) as [T12 E12]. clear Hm.
  change (2 ^ 0) with 1 in *. change (2 ^ 6) with 64 in *. change (2 ^ 12) with 4096 in *. change (2 ^ 18) with 262144 in *.
  unfold utf8_decode.
  destruct (Z.leb_spec v 0x7F); [|destruct (Z.leb_spec v 0x7FF); [|destruct (Z.leb_spec v 0xFFFF)]].
  - cbn [app lookup_total list_lookup_total length]. assert (H' : (Z.land v 0x80 =? 0) = true).
    { apply (seqZ_forallb (fun v => Z.land v 0x80 =? 0) 0 128 v); [by vm_compute|lia]. }
    by rewrite H'.
  - assert (Hy : 0 <= v / 64 < 32) by (Z.div_mod_to_equations; lia). rewrite u8_id by word_lia.
    pose proof (lead2_bits _ Hy) as HL. unfold lead_test in HL. propify.
    cbn [app lookup_total list_lookup_total length Nat.ltb Nat.leb andb]. known. f_equal. f_equal.
    rewrite lor_disjoint by (Z.div_mod_to_equations; lia). Z.div_mod_to_equations. lia.
  - assert (Hy : 0 <= v / 4096 < 16) by (Z.div_mod_to_equations; lia). rewrite u8_id by word_lia.
    pose proof (lead3_bits _ Hy) as HL. unfold lead_test in HL. propify.
    cbn [app lookup_total list_lookup_total length Nat.ltb Nat.leb andb]. known. f_equal. f_equal.
    rewrite (lor_disjoint (v / 64 mod 64)), lor_disjoint by (Z.div_mod_to_equations; lia). Z.div_mod_to_equations. lia.
  - assert (Hy : 0 <= v / 262144 < 8) by (Z.div_mod_to_equations; lia). rewrite u8_id by word_lia.
    rewrite (proj2 (Z.leb_le v 0x1FFFFF)) by lia.
    pose proof (lead4_bits _ Hy) as HL. unfold lead_test in HL. propify.
    cbn [app lookup_total list_lookup_total length Nat.ltb Nat.leb andb]. known. f_equal. f_equal.
    rewrite (lor_disjoint (v / 4096 mod 64)), (lor_disjoint (_ * _ + _)), lor_disjoint by (Z.div_mod_to_equations; lia).
    Z.div_mod_to_equations. lia.
Qed.

(** *** HTML *)
Lemma scan_base_10 l : forall acc, scan_base 10 acc l = scan_digits acc l.
Proof.
  induction l as [|c l IH]; intros acc; [done|]. cbn [scan_base scan_digits]. unfold digit_value, hex_value, is_digit.
  destruct ((48 <=? c) && (c <=? 57)) eqn:E.
  - cbn [mbind option_bind]. propify. rewrite (proj2 (Z.ltb_lt _ _)) by lia. rewrite IH. f_equal. lia.
  - destruct ((65 <=? c) && (c <=? 90)) eqn:E1; [|destruct ((97 <=? c) && (c <=? 122)) eqn:E2; [|done]];
      cbn [mbind option_bind]; propify; by rewrite (proj2 (Z.ltb_ge _ _)) by lia.
Qed.
Lemma reference_numeric v rest : 0 <= v <= 0x1FFFFF -> reference (print_nat v ++ 59 :: rest) = Some (v, rest).
Proof.
  intros Hv. unfold print_nat. destruct (digits_head (S (Z.to_nat (Z.log2 v))) v) as (c & l & E & Hc); [lia|lia|].
  destruct (scan_digits_digits (S (Z.to_nat (Z.log2 v))) v 0 (59 :: rest)) as (k & _ & Hk); [lia|lia|].
  rewrite E in *. cbn [app] in *. rewrite (scan_digits_stop _ (59 :: rest)) in Hk by done. cbn [Z.mul Z.add] in Hk.
  assert (Hs : is_space c = false) by (unfold is_digit, is_space in *; lia).
  assert (Hd : is_Some (digit_value 10 c)).
  { unfold digit_value, hex_value. unfold is_digit in Hc. rewrite Hc. cbn. propify. rewrite (proj2 (Z.ltb_lt _ _)) by lia. by eexists. }
  assert (Hst : strtoul 10 (c :: l ++ 59 :: rest) = (v, 59 :: rest)).
  { unfold strtoul. cbn [skip_spaces]. rewrite Hs.
    assert (take_sign (c :: l ++ 59 :: rest) = (false, c :: l ++ 59 :: rest)) as ->
      by (unfold take_sign; unfold is_digit in Hc; repeat case_match; subst; done).
    assert (skip_0x 10 (c :: l ++ 59 :: rest) = c :: l ++ 59 :: rest) as -> by (unfold skip_0x; by repeat case_match).
    destruct Hd as [d ->]. rewrite scan_base_10, Hk. by rewrite (proj2 (Z.ltb_ge _ _)) by lia. }
  unfold reference. replace (match c :: l ++ 59 :: rest with 120 :: source => (16, source) | _ => (10, c :: l ++ 59 :: rest) end)
    with (10, c :: l ++ 59 :: rest) by (unfold is_digit in Hc; repeat case_match; subst; done). by rewrite Hst.
Qed.
Lemma utf8_nonempty v : 0 <= v <= 0x1FFFFF -> utf8 v <> [].
Proof. intros Hv E. pose proof (utf8_decode_encode v [] Hv) as H. by rewrite E in H. Qed.
Lemma xml_decode_numeric fuel room v rest : 0 <= v <= 0x1FFFFF -> (length (utf8 v) < room)%nat ->
  xml_decode_loop (S fuel) room (numeric v ++ rest) = utf8 v ++ xml_decode_loop fuel (room - length (utf8 v)) rest.
Proof.
  intros Hv Hr. pose proof (utf8_nonempty v Hv) as Hn.
  assert (1 < room)%nat by (destruct (utf8 v); [done|cbn in Hr; lia]).
  unfold numeric. rewrite <- app_assoc. change (Text.bytes "&#") with [38; 35]. cbn [app xml_decode_loop].
  rewrite (proj2 (Nat.leb_gt _ _)) by lia. change (38 =? 38) with true. cbn [negb]. unfold after. repeat (miss; cbn match).
  rewrite <- app_assoc. cbn [app]. rewrite reference_numeric, utf8_room by done. by destruct (utf8 v).
Qed.

(** What the encoder writes for a character. *)
Definition html_chunk (v : Z) : list Z := if v <? 128 then html_char v else numeric v.
Lemma utf8_ascii v : v < 128 -> utf8 v = [v].
Proof. intros. unfold utf8, utf8_encode. by rewrite (proj2 (Z.leb_le v 0x7F)) by lia. Qed.
Lemma utf8_lead v : 128 <= v <= 0x1FFFFF -> exists c l, utf8 v = c :: l /\ 128 <= c.
Proof.
  intros Hv. unfold utf8, utf8_encode. change (1 <=? 4)%nat with true. change (2 <=? 4)%nat with true.
  change (3 <=? 4)%nat with true. change (4 <=? 4)%nat with true. rewrite !andb_true_r.
  assert (Hc : forall m x, 128 <= m -> 0 <= x -> 128 <= Z.lor m x).
  { intros m x Hm Hx. pose proof (Z.lor_nonneg m x). transitivity m; [done|]. apply Z.ldiff_le; [by apply Z.lor_nonneg; lia|].
    apply Z.bits_inj_0. intros n. rewrite Z.ldiff_spec, Z.lor_spec. by destruct (Z.testbit m n), (Z.testbit x n). }
  rewrite (proj2 (Z.leb_gt v 0x7F)) by lia.
  destruct (v <=? 0x7FF); [|destruct (v <=? 0xFFFF); [|rewrite (proj2 (Z.leb_le v 0x1FFFFF)) by lia]];
    do 2 eexists; (split; [done|]); apply Hc; try lia; apply Z.mod_pos_bound; lia.
Qed.
Lemma html_chunks_utf8 vs : forall fuel, Forall (fun v => 0 <= v <= 0x1FFFFF) vs ->
  (length (concat (map utf8 vs)) <= fuel)%nat -> html_chunks fuel (concat (map utf8 vs)) = map html_chunk vs.
Proof.
  induction vs as [|v vs IH]; intros fuel Hg Hf; [by destruct fuel|]. apply Forall_cons_1 in Hg as [Hv Hg].
  cbn [map concat] in *. rewrite length_app in Hf. pose proof (utf8_nonempty v Hv) as Hn.
  destruct fuel as [|fuel]; [destruct (utf8 v); [done|cbn in Hf; lia]|].
  unfold html_chunk at 1. destruct (Z.ltb_spec v 128).
  - rewrite utf8_ascii in * by done. cbn [app html_chunks]. rewrite (proj2 (Z.ltb_lt _ _)) by done. f_equal. apply IH; [done|].
    cbn in Hf. lia.
  - destruct (utf8_lead v) as (c & l & E & Hc); [lia|]. pose proof (utf8_decode_encode v (concat (map utf8 vs)) Hv) as Hd.
    rewrite E in *. cbn [app html_chunks] in *. rewrite (proj2 (Z.ltb_ge _ _)) by lia. rewrite Hd. cbn [length drop].
    rewrite drop_app_length. f_equal. apply IH; [done|]. cbn in Hf. lia.
Qed.
Lemma html_decode_chunk fuel room v rest : 0 <= v <= 0x1FFFFF -> (length (utf8 v) < room)%nat ->
  xml_decode_loop (S fuel) room (html_chunk v ++ rest) = utf8 v ++ xml_decode_loop fuel (room - length (utf8 v)) rest.
Proof.
  intros Hv Hr. unfold html_chunk. destruct (Z.ltb_spec v 128); [|by apply xml_decode_numeric].
  assert (is_byte v) by (unfold_words; lia).
  destruct (Z.eqb_spec v 39) as [->|Hn]; [by apply (xml_decode_numeric fuel room 39)|].
  rewrite utf8_ascii in * by done. cbn [length app] in *. unfold html_char. change HTML_UNSAFE with XML_UNSAFE.
  rewrite (proj2 (Z.eqb_neq _ _) Hn). pose proof (xml_decode_chunk fuel room v rest) as Hx. unfold xml_chunk in Hx |- *.
  destruct (in_class v XML_UNSAFE); by apply Hx.
Qed.

Lemma xml_decode_written fuel room s : Forall is_byte s -> (length s < room)%nat ->
  (length (concat (map xml_chunk s)) <= fuel)%nat ->
  xml_decode_loop fuel room (concat (map xml_chunk s)) = s.
Proof.
  intros Hs Hr Hf. pose proof (decoder_all xml_chunk (fun c => [c]) is_byte xml_decode_loop) as H.
  rewrite H, concat_singletons; rewrite ?concat_singletons; try done.
  - intros [|?] ?; done.
  - intros fuel' room' a rest Ha Hl. cbn [length] in *. by rewrite xml_decode_chunk.
  - assert (length s <= length (concat (map xml_chunk s)))%nat; [|lia]. apply length_concat_ge. intros c.
    unfold xml_chunk. repeat case_if; vm_compute; lia.
Qed.
Lemma html_decode_written fuel room vs : Forall (fun v => 0 <= v <= 0x1FFFFF) vs ->
  (length (concat (map utf8 vs)) < room)%nat -> (length (concat (map html_chunk vs)) <= fuel)%nat ->
  xml_decode_loop fuel room (concat (map html_chunk vs)) = concat (map utf8 vs).
Proof.
  intros Hv Hr Hf. apply (decoder_all html_chunk utf8 (fun v => 0 <= v <= 0x1FFFFF) xml_decode_loop); try done.
  - intros [|?] ?; done.
  - intros. by apply html_decode_chunk.
  - assert (length vs <= length (concat (map html_chunk vs)))%nat; [|lia]. apply length_concat_ge. intros c.
    unfold html_chunk, html_char, xml_chunk, numeric. repeat case_if; rewrite ?length_app; vm_compute; lia.
Qed.

(** *** Hex dumps *)
Lemma hex_decode_pairs d s : Forall is_byte s -> hex_decode_loop d (hex_pairs d s) = Some s.
Proof.
  induction s as [|c s IH]; intros Hs; [done|]. apply Forall_cons_1 in Hs as [Hc Hs]. specialize (IH Hs).
  cbn [hex_pairs]. destruct (pair_value_hex_pair c Hc) as (c1 & c2 & -> & Hp). cbn [app hex_decode_loop]. rewrite Hp. cbn [mbind option_bind].
  destruct s as [|c' s]; [by rewrite andb_false_r|]. rewrite andb_true_r. cbn [hex_pairs] in *.
  destruct (Z.eqb_spec d 0) as [->|Hd]; cbn [negb app] in *.
  - unfold hex_pair in *. cbn [app] in *. by rewrite IH.
  - unfold hex_pair in *. cbn [app] in *. rewrite Z.eqb_refl, IH. done.
Qed.
Lemma length_hex_pairs d s :
  length (hex_pairs d s) = if d =? 0 then (2 * length s)%nat else (3 * length s - 1)%nat.
Proof.
  induction s as [|c s IH]; [by destruct (d =? 0)|]. cbn [hex_pairs]. unfold hex_pair. rewrite !length_app, IH. cbn [length].
  destruct (d =? 0), s; cbn [negb andb length]; lia.
Qed.

(** *** Fields *)
Fixpoint join (d : Z) (fields : list (list Z)) : list Z :=
  match fields with [] => [] | [f] => f | f :: fields => f ++ d :: join d fields end.
Definition nonempty (f : list Z) : bool := match f with [] => false | _ => true end.
Lemma join_cons d f fields : fields <> [] -> join d (f :: fields) = f ++ d :: join d fields.
Proof. by destruct fields. Qed.
Lemma split_loop_spec d s : forall field, d ∉ field ->
  split_loop s d field <> [] /\ Forall (fun f => d ∉ f) (split_loop s d field) /\
  join d (split_loop s d field) = field ++ s /\
  tokenize_loop s d field = List.filter nonempty (split_loop s d field).
Proof.
  induction s as [|c s IH]; intros field Hf; cbn [split_loop tokenize_loop].
  { rewrite app_nil_r. split; [done|]. split; [by repeat constructor|]. split; [done|]. by destruct field. }
  destruct (Z.eqb_spec c d) as [->|Hc].
  - destruct (IH [] ltac:(set_solver)) as (Hn & Ha & Hj & Ht). split; [done|]. split; [by constructor|].
    rewrite join_cons, Hj, Ht by done. split; [done|]. by destruct field.
  - destruct (IH (field ++ [c])) as (Hn & Ha & Hj & Ht); [|by rewrite Hj, Ht, <- app_assoc].
    rewrite not_elem_of_app, list_elem_of_singleton. split; congruence.
Qed.
(** Fields without the delimiter are got back from their joined text. *)
Lemma split_loop_join d fields : forall f field, d ∉ f -> Forall (fun f => d ∉ f) fields ->
  split_loop (join d (f :: fields)) d field = (field ++ f) :: fields.
Proof.
  induction fields as [|g fields IH]; intros f; (induction f as [|c f IHf]; intros field Hf Hs).
  - cbn. by rewrite app_nil_r.
  - cbn [join split_loop]. destruct (Z.eqb_spec c d) as [->|]; [set_solver|]. cbn [join] in IHf.
    rewrite IHf by set_solver. by rewrite <- app_assoc.
  - apply Forall_cons_1 in Hs as [Hg Hs]. rewrite join_cons by done. cbn [app split_loop]. rewrite Z.eqb_refl, IH by done.
    by rewrite app_nil_r.
  - rewrite join_cons in * by done. cbn [app split_loop]. destruct (Z.eqb_spec c d) as [->|]; [set_solver|].
    apply not_elem_of_cons in Hf as [_ Hf]. rewrite IHf by done. by rewrite <- app_assoc.
Qed.

(** ** The encodings *)

(** Whatever is put into a URL comes out of it: [s_url_decode] undoes
    [s_url_encode] on every byte string; with a smaller buffer the encoder still
    ends between two characters and in its buffer, and the decoder gives the
    characters that were written. *)
Theorem url_round_trip s : Forall is_byte s ->
  (exists e, s_url_encode s = Done e /\ s_url_decode e = Done s) /\
  (forall buflen, (0 < buflen)%nat -> exists e n, url_encode buflen s = Done e /\ (length e < buflen)%nat /\
     (forall dlen, (length s < dlen)%nat -> url_decode dlen e = Done (take n s))).
Proof.
  intros Hs.
  assert (H : forall buflen, exists n, (forall dlen, (length s < dlen)%nat ->
      url_decode dlen (put_all buflen (map url_chunk s)) = Done (take n s))
    /\ ((length (concat (map url_chunk s)) < buflen)%nat -> n = length s)) by (intros; by apply url_decode_encode).
  split.
  - assert (Hc := length_url_chunks s). destruct (H (url_encode_size s)) as (n & Hd & Hn). unfold url_encode_size in *.
    exists (put_all (length s * 3 + 1) (map url_chunk s)). split; [by apply encoder_done; lia|].
    unfold s_url_decode, s_transform, url_decode_size. cbn [apply_to size_needed]. rewrite Hd, Hn, firstn_all by (rewrite ?put_all_room; lia). done.
  - intros buflen Hb. destruct (H buflen) as (n & Hd & _). exists (put_all buflen (map url_chunk s)), n.
    destruct (encoder_done buflen (map url_chunk s) Hb). by split_and!.
Qed.

Lemma url_round_trip_witness :
  Forall is_byte (Text.bytes "a b%/é") /\
  ((exists e, s_url_encode (Text.bytes "a b%/é") = Done e /\ s_url_decode e = Done (Text.bytes "a b%/é")) /\
  (forall buflen, (0 < buflen)%nat -> exists e n, url_encode buflen (Text.bytes "a b%/é") = Done e /\ (length e < buflen)%nat /\
     (forall dlen, (length (Text.bytes "a b%/é") < dlen)%nat -> url_decode dlen e = Done (take n (Text.bytes "a b%/é"))))).
Proof.
  assert (H : Forall is_byte (Text.bytes "a b%/é")) by (apply (Forall_iff _ _ _ (fun _ => iff_refl _)); repeat constructor; done).
  split; [exact H|]. exact (url_round_trip (Text.bytes "a b%/é") H).
Defined.

(** Text survives XML and HTML: what [xml_encode] writes for a byte string and
    what [html_encode] writes for UTF-8 text, given room, the decoder turns back
    into the same bytes, every character beyond ASCII by way of its number. *)
Theorem markup_round_trip s vs buflen dlen : Forall is_byte s -> Forall (fun v => 0 <= v <= 0x1FFFFF) vs ->
  let text := concat (map utf8 vs) in
  (length (concat (map xml_chunk s)) < buflen -> length s < dlen ->
    exists e, xml_encode buflen s = Done e /\ xml_decode dlen e = Done s)%nat /\
  (length (concat (map html_chunk vs)) < buflen -> length text < dlen ->
    exists e, html_encode buflen text = Done e /\ html_decode dlen e = Done text)%nat.
Proof.
  intros Hs Hv text. split; intros Hb Hd.
  - exists (put_all buflen (map xml_chunk s)). split; [apply encoder_done; lia|].
    unfold xml_decode. rewrite put_all_room, xml_decode_written by done || lia. 
    unfold terminate. rewrite (proj2 (Nat.eqb_neq _ _)), (proj2 (Nat.ltb_lt _ _)) by lia. done.
  - exists (put_all buflen (map html_chunk vs)). unfold html_encode, text. rewrite html_chunks_utf8 by done || lia.
    split; [apply encoder_done; lia|]. unfold html_decode, xml_decode.
    rewrite put_all_room, html_decode_written by done || lia. fold text.
    unfold terminate. rewrite (proj2 (Nat.eqb_neq _ _)), (proj2 (Nat.ltb_lt _ _)) by lia. done.
Qed.
Lemma markup_round_trip_witness :
  (Forall is_byte (Text.bytes "<a & b>") /\ Forall (fun v => 0 <= v <= 0x1FFFFF) [38; 0xE9; 0x4E2D; 0x1F600]) /\
  (exists e, html_encode 100 (concat (map utf8 [38; 0xE9; 0x4E2D; 0x1F600])) = Done e /\
    html_decode 20 e = Done (concat (map utf8 [38; 0xE9; 0x4E2D; 0x1F600]))).
Proof.
  assert (H : Forall is_byte (Text.bytes "<a & b>")) by (repeat constructor; done).
  assert (Hv : Forall (fun v => 0 <= v <= 0x1FFFFF) [38; 0xE9; 0x4E2D; 0x1F600]) by (repeat constructor; done).
  split; [split; [exact H|exact Hv]|].
  apply (markup_round_trip (Text.bytes "<a & b>") [38; 0xE9; 0x4E2D; 0x1F600] 100 20 H Hv); vm_compute; lia.
Defined.

(** A hex dump is read back, with any delimiter. *)
Theorem hex_round_trip s d elen dlen h : Forall is_byte s -> (length s <= dlen)%nat -> (0 < dlen)%nat ->
  hex_encode_with_delimiter elen s d = Some h ->
  (length h < elen)%nat /\ hex_decode_with_delimiter dlen h d = Some s.
Proof.
  intros Hs Hl Hd. unfold hex_encode_with_delimiter, hex_decode_with_delimiter. case_if; [done|]. intros [= <-].
  rewrite length_hex_pairs, hex_decode_pairs by done. propify. destruct (Z.eqb_spec d 0); cbn [negb] in *.
  - split; [lia|]. rewrite Nat.mul_comm, Nat.div_mul by lia.
    by rewrite (proj2 (Nat.eqb_neq _ _)), (proj2 (Nat.ltb_ge _ _)) by lia.
  - split; [lia|]. assert ((3 * length s - 1 + 1) / 3 <= length s)%nat by (destruct s as [|c s]; [done|]; apply Nat.Div0.div_le_upper_bound; cbn [length]; lia).
    by rewrite (proj2 (Nat.eqb_neq _ _)), (proj2 (Nat.ltb_ge _ _)) by lia.
Qed.
(** [split] cuts the text at the delimiters and nowhere else, and [tokenize] gives
    its fields that are not empty. *)
Theorem split_spec s d :
  Forall (fun f => d ∉ f) (split s d) /\ join d (split s d) = s /\
  (forall f fields, Forall (fun f => d ∉ f) (f :: fields) -> join d (f :: fields) = s -> split s d = f :: fields) /\
  tokenize s d = List.filter nonempty (split s d).
Proof.
  destruct (split_loop_spec d s [] ltac:(set_solver)) as (_ & Ha & Hj & Ht). split_and!; try done.
  intros f fields Hf <-. apply Forall_cons_1 in Hf as [Hf Hfs]. unfold split. by rewrite split_loop_join.
Qed.
(** What was escaped, in either way, is got back whole from buffers with room. *)
Theorem escape_round_trip s illegal esc buflen dlen : Forall is_byte s -> (length s < dlen)%nat -> (3 * length s < buflen)%nat ->
  (exists e, escape buflen s illegal esc = Done e /\ unescape_loop dlen e esc = s) /\
  (exists e, encode buflen s illegal esc = Done e /\ decode_loop dlen e esc = s).
Proof.
  intros Hs Hd Hb. split.
  - pose proof (encode_decode (escape_chunk illegal esc) (fun c => [c]) is_byte
      (fun _ room l => unescape_loop room l esc) ltac:(done)) as H.
    destruct (H ltac:(intros ? ? ? ? _; apply unescape_chunk) buflen s Hs) as (n & E & Hn).
    rewrite concat_singletons in E.
    assert (Hc : (length (concat (map (escape_chunk illegal esc) s)) <= 3 * length s)%nat)
      by (apply length_concat_le; intros c; unfold escape_chunk; case_if; cbn; lia).
    eexists. split; [apply encoder_done; lia|]. by rewrite (E (length s)), concat_singletons, Hn, firstn_all by lia.
  - pose proof (encode_decode (encode_chunk illegal esc)
      (fun c => [c]) is_byte (fun _ room l => decode_loop room l esc) ltac:(done)) as H.
    destruct (H ltac:(intros ? ? ? ?; apply decode_chunk) buflen s Hs) as (n & E & Hn).
    rewrite concat_singletons in E.
    assert (Hc : (length (concat (map (encode_chunk illegal esc) s)) <= 3 * length s)%nat)
      by (apply length_concat_le; intros c; unfold encode_chunk; case_if; cbn; lia).
    eexists. split; [apply encoder_done; lia|]. by rewrite (E (length s)), concat_singletons, Hn, firstn_all by lia.
Qed.

(** ** Where the code is weaker than its encoders *)

(** The character a reference names may fill the buffer, and then the NUL lands
    behind it. *)
Example xml_decode_overruns : xml_decode 3 (Text.bytes "a&#xff;") = Undefined /\ xml_decode 4 (Text.bytes "a&#xff;") = Done [97; 195; 191].
Proof. by vm_compute. Qed.
(** Every letter is a digit, so that a dump of nonsense is accepted. *)
Example hex_decode_letters : hex_decode_with_delimiter 8 (Text.bytes "zz") 0 = Some [51].
Proof. by vm_compute. Qed.
(** The byte before a start mark is lost, a delimiter or not. *)
Example marks_drop_a_byte : tokenize_marks (Text.bytes "ab'cd' ef") 32 39 39 = [Text.bytes "a"; Text.bytes "cd"; Text.bytes "ef"].
Proof. by vm_compute. Qed.
(** A reference without digits is a NUL. *)
Example empty_reference : xml_decode 8 (Text.bytes "&#;") = Done [0].
Proof. by vm_compute. Qed.
(** With [s_transform] the encoders that do not tell the size they need give nothing. *)
Example transforms_without_size : s_transform (Text.bytes "a<b") (sizeless html_encode) = Done [] /\
  transform 20 (Text.bytes "a<b") (sizeless html_encode) = Done (Text.bytes "a&lt;b").
Proof. by vm_compute. Qed.
