(* ===== verification/StdMap.v ===== *)
(** * std::map with integer keys

    The library's ordered map, which the source iterates over in the order of its
    keys: the list of its entries, keys strictly increasing. *)
From Stdlib Require Import Sorted.
From S2P Require Import Prelude.

Section map.
Context {A : Type}.
Implicit Types m : list (Z * A).

Fixpoint find (k : Z) m : option A :=
  match m with
  | [] => None
  | (k', a) :: m => if k' =? k then Some a else find k m
  end.
(** [insert] does nothing to a key that is there. *)
Fixpoint insert (k : Z) (a : A) m : list (Z * A) :=
  match m with
  | [] => [(k, a)]
  | (k', a') :: m' =>
    if k' =? k then m else if k <? k' then (k, a) :: m else (k', a') :: insert k a m'
  end.
Fixpoint erase (k : Z) m : list (Z * A) :=
  match m with
  | [] => []
  | (k', a) :: m => if k' =? k then m else (k', a) :: erase k m
  end.
(** Assignment through a pointer to the value at a key. *)
Definition update (k : Z) (f : A -> A) m : list (Z * A) :=
  map (fun e => if e.1 =? k then (e.1, f e.2) else e) m.

Definition sorted m : Prop := StronglySorted (fun e e' => e.1 < e'.1) m.

Lemma find_In k a m : find k m = Some a -> In (k, a) m.
Proof.
  induction m as [|[k' a'] m IH]; simpl; [done|].
  destruct (Z.eqb_spec k' k) as [->|]; [intros [= ->]; by left|]. auto.
Qed.
Lemma find_above k m : Forall (fun e => k < e.1) m -> find k m = None.
Proof.
  induction 1 as [|[k' a] m Hk _ IH]; simpl in *; [done|].
  by destruct (Z.eqb_spec k' k); [lia|].
Qed.

Lemma In_insert k a m e : In e (insert k a m) -> e = (k, a) \/ In e m.
Proof.
  induction m as [|[k' a'] m IH]; simpl; [intuition|].
  destruct (k' =? k); [auto|]. destruct (k <? k'); simpl; intuition.
Qed.
Lemma In_erase k m e : In e (erase k m) -> In e m.
Proof.
  induction m as [|[k' a'] m IH]; simpl; [done|]. destruct (k' =? k); simpl; intuition.
Qed.

Lemma sorted_insert k a m : sorted m -> sorted (insert k a m).
Proof.
  induction 1 as [|[k' a'] m Hs IH Hm]; simpl; [by repeat constructor|].
  destruct (Z.eqb_spec k' k); [by constructor|]. destruct (Z.ltb_spec k k').
  - constructor; [by constructor|]. constructor; [done|].
    eapply List.Forall_impl; [|exact Hm]. simpl. lia.
  - constructor; [done|]. apply List.Forall_forall. intros e [->|He]%In_insert; simpl in *; [lia|].
    rewrite List.Forall_forall in Hm. auto.
Qed.
Lemma sorted_erase k m : sorted m -> sorted (erase k m).
Proof.
  induction 1 as [|[k' a'] m Hs IH Hm]; simpl; [constructor|].
  destruct (k' =? k); [done|]. constructor; [done|]. apply List.Forall_forall.
  intros e He%In_erase. rewrite List.Forall_forall in Hm. auto.
Qed.
Lemma sorted_update k f m : sorted m -> sorted (update k f m).
Proof.
  unfold update. induction 1 as [|[k' a'] m Hs IH Hm]; simpl; constructor; [done|].
  apply List.Forall_forall. intros e (x & <- & Hx)%in_map_iff. rewrite List.Forall_forall in Hm.
  specialize (Hm x Hx). simpl in *. destruct (k' =? k), (x.1 =? k); simpl; lia.
Qed.

Lemma find_insert k a m k' : sorted m ->
  find k' (insert k a m) =
  if k =? k' then Some (default a (find k m)) else find k' m.
Proof.
  induction 1 as [|[k1 a1] m Hs IH Hm]; simpl.
  - by destruct (k =? k').
  - destruct (Z.eqb_spec k1 k) as [->|Hne].
    + simpl. by destruct (Z.eqb_spec k k').
    + destruct (Z.ltb_spec k k1).
      * simpl. assert (find k m = None) as ->.
        { apply find_above. eapply List.Forall_impl; [|exact Hm]. simpl. lia. }
        by destruct (Z.eqb_spec k k').
      * simpl. destruct (Z.eqb_spec k1 k'), (Z.eqb_spec k k'); subst; try done; try lia; by rewrite IH.
Qed.
Lemma find_erase k m k' : sorted m ->
  find k' (erase k m) = if k =? k' then None else find k' m.
Proof.
  induction 1 as [|[k1 a1] m Hs IH Hm]; simpl; [by destruct (k =? k')|].
  destruct (Z.eqb_spec k1 k) as [->|Hne].
  - destruct (Z.eqb_spec k k') as [<-|]; [|done]. by apply find_above.
  - simpl. rewrite IH. destruct (Z.eqb_spec k1 k'), (Z.eqb_spec k k'); subst; done || lia.
Qed.
Lemma find_update k f m k' :
  find k' (update k f m) = if k =? k' then f <$> find k m else find k' m.
Proof.
  unfold update. induction m as [|[k1 a1] m IH]; simpl; [by destruct (k =? k')|].
  destruct (Z.eqb_spec k1 k) as [->|Hne]; simpl.
  - by destruct (Z.eqb_spec k k').
  - rewrite IH. destruct (Z.eqb_spec k1 k'), (Z.eqb_spec k k'); subst; done || lia.
Qed.
End map.
#[export] Hint Resolve sorted_insert sorted_erase sorted_update : vz.
