(* ===== verification/Sigslot.v ===== *)
(** * base/sigslot.h: signals and their receivers

    A signal has the list of its connections, a receiver ([has_slots]) the set of the
    signals that are connected to it; both sides hold plain pointers to the other.
    Objects are addresses in a store that all of them share.  The nine classes of each
    kind, for no argument to eight, differ in the type [A] of the arguments alone.
    The cells of a list have addresses too, since an emission keeps an iterator to
    the next cell while it calls a receiver, which may change the list.  Using a
    pointer to an object that is gone, or an iterator to a cell that is gone, is
    undefined.  The threading policy is the default, [single_threaded]: locks do nothing. *)
From stdpp Require Import gmap.
From S2P Require Import Prelude.

(** The object and the member function. *)
Record connection := mkConn { m_pobject : nat; m_pmemfun : nat }.
Definition getdest (c : connection) : nat := m_pobject c.
Definition clone (c : connection) : connection := c.
Definition duplicate (pnewdest : nat) (c : connection) : connection := mkConn pnewdest (m_pmemfun c).
Abbreviation cell := (nat * connection)%type.

Section sigslot.
Context {A : Type}.

(** [signals]: [m_connected_slots] of each living signal; [receivers]: [m_senders] of each
    living receiver; [called]: the calls that were made, in order. *)
Record Store := mkStore {
  signals : gmap nat (list cell); receivers : gmap nat (gset nat); next_cell : nat;
  called : list (nat * nat * A) }.
Definition set_signals (x : gmap nat (list cell)) (h : Store) : Store := mkStore x (receivers h) (next_cell h) (called h).
Definition set_receivers (x : gmap nat (gset nat)) (h : Store) : Store := mkStore (signals h) x (next_cell h) (called h).
Definition connections (s : nat) (h : Store) : outcome (list cell) := lift_undefined (signals h !! s).
Definition senders (d : nat) (h : Store) : outcome (gset nat) := lift_undefined (receivers h !! d).
Fixpoint each {X} (f : X -> Store -> outcome Store) (l : list X) (h : Store) : outcome Store :=
  match l with [] => Done h | x :: l => h ← f x h; each f l h end.

(** ** Receivers *)
Definition signal_connect (d s : nat) (h : Store) : outcome Store :=
  m ← senders d h; Done (set_receivers (<[d := {[s]} ∪ m]> (receivers h)) h).
Definition signal_disconnect (d s : nat) (h : Store) : outcome Store :=
  m ← senders d h; Done (set_receivers (<[d := m ∖ {[s]}]> (receivers h)) h).

(** ** Signals *)
Definition push_back (s : nat) (c : connection) (h : Store) : outcome Store :=
  l ← connections s h;
  Done (mkStore (<[s := l ++ [(next_cell h, c)]]> (signals h)) (receivers h) (S (next_cell h)) (called h)).
Definition connect (s d f : nat) (h : Store) : outcome Store :=
  h ← push_back s (mkConn d f) h; signal_connect d s h.
Definition is_empty (s : nat) (h : Store) : outcome bool :=
  l ← connections s h; Done (match l with [] => true | _ => false end).
Definition to_ (d : nat) (c : cell) : Prop := getdest c.2 = d.
#[global] Instance to_dec d c : Decision (to_ d c).
Proof. unfold to_. apply _. Defined.
Definition connected (s d : nat) (h : Store) : outcome bool :=
  l ← connections s h; Done (existsb (fun c => bool_decide (to_ d c)) l).
(** The first connection to [d], and the list without it. *)
Fixpoint erase_first (d : nat) (l : list cell) : option (list cell) :=
  match l with
  | [] => None
  | c :: l => if decide (to_ d c) then Some l else cons c <$> erase_first d l
  end.
Definition disconnect (s d : nat) (h : Store) : outcome Store :=
  l ← connections s h;
  match erase_first d l with
  | Some l => signal_disconnect d s (set_signals (<[s := l]> (signals h)) h)
  | None => Done h
  end.
Definition signal_disconnect_all (s : nat) (h : Store) : outcome Store :=
  l ← connections s h;
  h ← each (fun c h => signal_disconnect (getdest c.2) s h) l h;
  Done (set_signals (<[s := []]> (signals h)) h).
Definition slot_disconnect (s d : nat) (h : Store) : outcome Store :=
  l ← connections s h;
  Done (set_signals (<[s := filter (fun c => ~ to_ d c) l]> (signals h)) h).
Definition slot_duplicate (s oldtarget newtarget : nat) (h : Store) : outcome Store :=
  l ← connections s h;
  each (fun c h => if decide (to_ oldtarget c) then push_back s (duplicate newtarget c.2) h else Done h) l h.

(** ** Their lives; [s] and [d] are addresses of new objects *)
Definition new_signal (s : nat) (h : Store) : Store := set_signals (<[s := []]> (signals h)) h.
Definition copy_signal (s from : nat) (h : Store) : outcome Store :=
  l ← connections from h;
  each (fun c h => h ← signal_connect (getdest c.2) s h; push_back s (clone c.2) h) l (new_signal s h).
Definition delete_signal (s : nat) (h : Store) : outcome Store :=
  h ← signal_disconnect_all s h; Done (set_signals (delete s (signals h)) h).
Definition slots_disconnect_all (d : nat) (h : Store) : outcome Store :=
  m ← senders d h;
  h ← each (fun s h => slot_disconnect s d h) (elements m) h;
  Done (set_receivers (<[d := ∅]> (receivers h)) h).
Definition new_slots (d : nat) (h : Store) : Store := set_receivers (<[d := ∅]> (receivers h)) h.
Definition copy_slots (d from : nat) (h : Store) : outcome Store :=
  m ← senders from h;
  each (fun s h => h ← slot_duplicate s from d h; signal_connect d s h) (elements m) (new_slots d h).
Definition delete_slots (d : nat) (h : Store) : outcome Store :=
  h ← slots_disconnect_all d h; Done (set_receivers (delete d (receivers h)) h).

(** ** Emission

    [listener] is what the member functions do; it may need more fuel than it has. *)
Definition result : Type := option (outcome Store).
Definition and_then (r : result) (f : Store -> result) : result :=
  match r with Some (Done h) => f h | _ => r end.
Fixpoint position (c : nat) (l : list cell) : option (connection * option nat) :=
  match l with
  | [] => None
  | x :: l => if decide (x.1 = c) then Some (x.2, fst <$> head l) else position c l
  end.
Definition invoke (listener : nat -> nat -> A -> Store -> result) (c : connection) (a : A) (h : Store) : result :=
  match receivers h !! m_pobject c with
  | Some _ =>
    listener (m_pobject c) (m_pmemfun c) a
      (mkStore (signals h) (receivers h) (next_cell h) (called h ++ [(m_pobject c, m_pmemfun c, a)]))
  | None => Some Undefined
  end.
(** [it]: the iterator, [None] at the end. *)
Fixpoint emit_loop (listener : nat -> nat -> A -> Store -> result) (fuel : nat) (s : nat) (it : option nat) (a : A) (h : Store) : result :=
  match fuel with
  | O => None
  | S fuel =>
    match signals h !! s with
    | None => Some Undefined
    | Some l =>
      match it with
      | None => Some (Done h)
      | Some c =>
        match position c l with
        | None => Some Undefined
        | Some (conn, itNext) => and_then (invoke listener conn a h) (emit_loop listener fuel s itNext a)
        end
      end
    end
  end.
Definition emit (listener : nat -> nat -> A -> Store -> result) (fuel : nat) (s : nat) (a : A) (h : Store) : result :=
  match signals h !! s with
  | None => Some Undefined
  | Some l => emit_loop listener fuel s (fst <$> head l) a h
  end.

(** ** What programs do with them

    A call on what does not exist is not made, nor is one for a new object at an
    address in use; [disconnect] is called for a receiver that is connected once. *)
Inductive call :=
  | CallNewSignal (s : nat) | CallCopySignal (s from : nat) | CallDeleteSignal (s : nat)
  | CallNewSlots (d : nat) | CallCopySlots (d from : nat) | CallDeleteSlots (d : nat)
  | CallConnect (s d f : nat) | CallDisconnect (s d : nat)
  | CallSignalDisconnectAll (s : nat) | CallSlotsDisconnectAll (d : nat)
  | CallEmit (s : nat) (a : A).
Definition has_signal (s : nat) (h : Store) : bool := bool_decide (is_Some (signals h !! s)).
Definition has_receiver (d : nat) (h : Store) : bool := bool_decide (is_Some (receivers h !! d)).
Definition times_connected (s d : nat) (h : Store) : nat :=
  length (filter (to_ d) (default [] (signals h !! s))).
Definition when (b : bool) (r : outcome Store) (h : Store) : outcome Store := if b then r else Done h.
(** A call that runs no code of a receiver. *)
Definition do_quiet (c : call) (h : Store) : outcome Store :=
  match c with
  | CallNewSignal s => when (negb (has_signal s h)) (Done (new_signal s h)) h
  | CallCopySignal s from => when (negb (has_signal s h) && has_signal from h) (copy_signal s from h) h
  | CallDeleteSignal s => when (has_signal s h) (delete_signal s h) h
  | CallNewSlots d => when (negb (has_receiver d h)) (Done (new_slots d h)) h
  | CallCopySlots d from => when (negb (has_receiver d h) && has_receiver from h) (copy_slots d from h) h
  | CallDeleteSlots d => when (has_receiver d h) (delete_slots d h) h
  | CallConnect s d f => when (has_signal s h && has_receiver d h) (connect s d f h) h
  | CallDisconnect s d => when (has_signal s h && has_receiver d h && (times_connected s d h <=? 1)%nat) (disconnect s d h) h
  | CallSignalDisconnectAll s => when (has_signal s h) (signal_disconnect_all s h) h
  | CallSlotsDisconnectAll d => when (has_receiver d h) (slots_disconnect_all d h) h
  | CallEmit _ _ => Done h
  end.
Context (owner : nat -> nat -> A -> Store -> list call).
Fixpoint do_calls (fuel : nat) (l : list call) (h : Store) : result :=
  match fuel with
  | O => None
  | S fuel =>
    match l with
    | [] => Some (Done h)
    | c :: l =>
      and_then
        (match c with
         | CallEmit s a =>
           if has_signal s h then emit (fun d f a h => do_calls fuel (owner d f a h) h) fuel s a h else Some (Done h)
         | _ => Some (do_quiet c h)
         end) (do_calls fuel l)
    end
  end.
End sigslot.
Arguments Store A : clear implicits.
Arguments call A : clear implicits.

(** ** Both sides agree

    Every connection leads to a living receiver that has the signal among its
    senders, and every sender is a living signal with a connection to the receiver. *)
Section links.
Context {A : Type}.
Implicit Types h : Store A.

Definition edge h (s d : nat) : Prop := exists l c, signals h !! s = Some l /\ c ∈ l /\ to_ d c.
Definition back h (s d : nat) : Prop := exists m, receivers h !! d = Some m /\ s ∈ m.
Definition cells_ok h : Prop := forall s l, signals h !! s = Some l ->
  NoDup (map fst l) /\ Forall (fun c => c.1 < next_cell h)%nat l.
Record links h : Prop := { link_both : forall s d, edge h s d <-> back h s d; link_cells : cells_ok h }.

(** *** Updates of one side *)
Definition living h s : Prop := is_Some (signals h !! s).
Definition present h d : Prop := is_Some (receivers h !! d).
Lemma edge_insert h s l' s' d : edge (set_signals (<[s := l']> (signals h)) h) s' d <->
  (if decide (s' = s) then exists c, c ∈ l' /\ to_ d c else edge h s' d).
Proof.
  unfold edge. cbn. destruct (decide (s' = s)) as [->|].
  - rewrite lookup_insert_eq. split; [intros (l & c & [= <-] & ?); eauto|intros (c & ?); eauto].
  - by rewrite lookup_insert_ne.
Qed.
Lemma edge_living h s d : edge h s d -> living h s.
Proof. intros (l & c & E & _). by exists l. Qed.
Lemma edge_at h s l d : signals h !! s = Some l -> (edge h s d <-> exists c, c ∈ l /\ to_ d c).
Proof. intros Hl. unfold edge. rewrite Hl. split; [intros (? & c & [= <-] & ?); eauto|intros (c & ?); eauto]. Qed.
Lemma back_insert h d m s d' : back (set_receivers (<[d := m]> (receivers h)) h) s d' <->
  (if decide (d' = d) then s ∈ m else back h s d').
Proof.
  unfold back. cbn. destruct (decide (d' = d)) as [->|].
  - rewrite lookup_insert_eq. split; [by intros (? & [= <-] & ?)|eauto].
  - by rewrite lookup_insert_ne.
Qed.
Lemma back_at h d m s : receivers h !! d = Some m -> (back h s d <-> s ∈ m).
Proof. intros Hm. unfold back. rewrite Hm. split; [by intros (? & [= <-] & ?)|eauto]. Qed.
(** What keeps the objects, and makes the connections [E] of the edges and [B] of the
    back pointers. *)
Record changes h h' (E B : nat -> nat -> Prop) : Prop := {
  ch_living : forall s, living h' s <-> living h s;
  ch_present : forall d, present h' d <-> present h d;
  ch_cells : cells_ok h -> cells_ok h';
  ch_edge : forall s d, edge h' s d <-> E s d;
  ch_back : forall s d, back h' s d <-> B s d;
  ch_called : called h' = called h }.
Lemma changes_nothing h : changes h h (edge h) (back h).
Proof. by constructor. Qed.
Lemma changes_iff h h' E B E' B' : changes h h' E B -> (forall s d, E s d <-> E' s d) -> (forall s d, B s d <-> B' s d) -> changes h h' E' B'.
Proof. intros [] HE HB. constructor; try done; intros s d; [rewrite <- HE|rewrite <- HB]; auto. Qed.
Lemma changes_trans h h1 h2 E1 B1 E2 B2 : changes h h1 E1 B1 -> changes h1 h2 E2 B2 -> changes h h2 E2 B2.
Proof.
  intros [L1 P1 C1 _ _ Q1] [L2 P2 C2 E B Q2]. constructor; try done; [intros s; by rewrite L2|intros d; by rewrite P2|auto|congruence].
Qed.
Lemma living_insert h s l s' : living h s -> (is_Some (<[s := l]> (signals h) !! s') <-> living h s').
Proof. intros Hs. unfold living. destruct (decide (s' = s)) as [->|]; [rewrite lookup_insert_eq; by split|by rewrite lookup_insert_ne]. Qed.
Lemma present_insert h d m d' : present h d -> (is_Some (<[d := m]> (receivers h) !! d') <-> present h d').
Proof. intros Hs. unfold present. destruct (decide (d' = d)) as [->|]; [rewrite lookup_insert_eq; by split|by rewrite lookup_insert_ne]. Qed.
Lemma cells_insert h s l : cells_ok h -> (NoDup (map fst l) /\ Forall (fun c : cell => c.1 < next_cell h)%nat l) ->
  cells_ok (set_signals (<[s := l]> (signals h)) h).
Proof.
  intros Hc Hl s' l'. cbn. destruct (decide (s' = s)) as [->|]; [rewrite lookup_insert_eq; by intros [= <-]|rewrite lookup_insert_ne by done; apply Hc].
Qed.

Lemma signal_connect_changes d s h : present h d -> exists h', signal_connect d s h = Done h' /\
  changes h h' (edge h) (fun s' d' => back h s' d' \/ (s' = s /\ d' = d)).
Proof.
  intros [m Hm]. unfold signal_connect, senders. rewrite Hm. run. eexists. split; [done|].
  constructor; try done; [intros d'; apply (present_insert h d _ d'); (done || by exists m)|]. intros s' d'. rewrite back_insert.
  destruct (decide (d' = d)) as [->|]; [rewrite (back_at h d m), elem_of_union, elem_of_singleton by done; tauto|tauto].
Qed.
Lemma signal_disconnect_changes d s h : present h d -> exists h', signal_disconnect d s h = Done h' /\
  changes h h' (edge h) (fun s' d' => back h s' d' /\ ~ (s' = s /\ d' = d)).
Proof.
  intros [m Hm]. unfold signal_disconnect, senders. rewrite Hm. run. eexists. split; [done|].
  constructor; try done; [intros d'; apply (present_insert h d _ d'); (done || by exists m)|]. intros s' d'. rewrite back_insert.
  destruct (decide (d' = d)) as [->|]; [rewrite (back_at h d m), elem_of_difference, elem_of_singleton by done; tauto|tauto].
Qed.
Lemma fresh_cell l n c : NoDup (map fst l) /\ Forall (fun c : cell => c.1 < n)%nat l ->
  NoDup (map fst (l ++ [(n, c)])) /\ Forall (fun c : cell => c.1 < S n)%nat (l ++ [(n, c)]).
Proof.
  intros [Hn Hf]. split.
  - rewrite map_app. apply list.NoDup_app. split; [done|]. split; [|apply NoDup_singleton].
    intros x Hx ->%list_elem_of_singleton. apply list_elem_of_fmap in Hx as (y & E & Hy).
    rewrite List.Forall_forall in Hf. apply list_elem_of_In in Hy. specialize (Hf y Hy). cbn in E. lia.
  - apply Forall_app. split; [|constructor; [cbn; lia|constructor]]. eapply List.Forall_impl; [|exact Hf]. cbn. lia.
Qed.
Lemma push_back_changes s c h : living h s -> exists h', push_back s c h = Done h' /\
  changes h h' (fun s' d' => edge h s' d' \/ (s' = s /\ d' = getdest c)) (back h).
Proof.
  intros [l Hl]. unfold push_back, connections. rewrite Hl. run. eexists. split; [done|].
  constructor; try done; [intros s'; apply (living_insert h s _ s'); (done || by exists l)| |].
  - intros Hc s' l'. cbn. destruct (decide (s' = s)) as [->|].
    + rewrite lookup_insert_eq. intros [= <-]. by apply fresh_cell, Hc with s.
    + rewrite lookup_insert_ne by done. intros Hl'. destruct (Hc s' l' Hl') as [? Hf]. split; [done|].
      eapply List.Forall_impl; [|exact Hf]. cbn. lia.
  - intros s' d'. transitivity (edge (set_signals (<[s := l ++ [(next_cell h, c)]]> (signals h)) h) s' d'); [done|].
    rewrite edge_insert. destruct (decide (s' = s)) as [->|]; [|tauto]. rewrite (edge_at h s l) by done. split.
    + intros (x & [Hx| ->%list_elem_of_singleton]%elem_of_app & Ht); [eauto|right; by split].
    + intros [(x & Hx & Ht)|[_ ->]]; eexists; (split; [apply elem_of_app|]); [by left|done|right; by apply list_elem_of_singleton|done].
Qed.
Lemma slot_disconnect_changes s d h : living h s -> exists h', slot_disconnect s d h = Done h' /\
  changes h h' (fun s' d' => edge h s' d' /\ ~ (s' = s /\ d' = d)) (back h).
Proof.
  intros [l Hl]. unfold slot_disconnect, connections. rewrite Hl. run. eexists. split; [done|].
  constructor; try done; [intros s'; apply (living_insert h s _ s'); (done || by exists l)| |].
  - intros Hc. apply cells_insert; [done|]. destruct (Hc s l Hl) as [Hn Hf]. split.
    + eapply sublist_NoDup; [exact Hn|]. apply (fmap_sublist fst), sublist_filter.
    + rewrite List.Forall_forall in *. intros x Hx. apply Hf. apply list_elem_of_In in Hx.
      by apply list_elem_of_In, (list_elem_of_filter (fun c => ~ to_ d c) l x).
  - intros s' d'. rewrite edge_insert. destruct (decide (s' = s)) as [->|]; [|tauto]. rewrite (edge_at h s l) by done.
    unfold to_. split.
    + intros (c & [Hn Hc]%list_elem_of_filter & Ht). split; [eauto|]. intros [_ ->]. by apply Hn.
    + intros [(c & Hc & Ht) Hn]. exists c. split; [|done]. apply list_elem_of_filter. split; [|done]. intros E. apply Hn. split; [done|congruence].
Qed.
Lemma clear_changes s h : living h s ->
  changes h (set_signals (<[s := []]> (signals h)) h) (fun s' d' => edge h s' d' /\ s' <> s) (back h).
Proof.
  intros Hs. constructor; try done; [intros s'; apply (living_insert h s _ s'); (done || by exists l)| |].
  - intros Hc. apply cells_insert; [done|]. split; constructor.
  - intros s' d'. rewrite edge_insert. destruct (decide (s' = s)) as [->|]; [|tauto].
    split; [by intros (c & ?%not_elem_of_nil & _)|tauto].
Qed.
Lemma forget_changes d h : present h d ->
  changes h (set_receivers (<[d := ∅]> (receivers h)) h) (edge h) (fun s' d' => back h s' d' /\ d' <> d).
Proof.
  intros Hd. constructor; try done; [intros d'; apply (present_insert h d _ d'); (done || by exists m)|]. intros s' d'. rewrite back_insert.
  destruct (decide (d' = d)) as [->|]; [pose proof (not_elem_of_empty (C := gset nat) s'); tauto|tauto].
Qed.

(** *** One after the other *)
Lemma each_changes {X} (f : X -> Store A -> outcome (Store A)) (E B : list X -> nat -> nat -> Prop) l0 h0 :
  (forall done x l h, l0 = done ++ x :: l -> changes h0 h (E done) (B done) ->
    exists h', f x h = Done h' /\ changes h h' (E (done ++ [x])) (B (done ++ [x]))) ->
  forall h, changes h0 h (E []) (B []) -> exists h', each f l0 h = Done h' /\ changes h0 h' (E l0) (B l0).
Proof.
  intros Hf. assert (H : forall l done h, l0 = done ++ l -> changes h0 h (E done) (B done) ->
    exists h', each f l h = Done h' /\ changes h0 h' (E l0) (B l0)).
  { induction l as [|x l IH]; intros done h El HP; cbn [each].
    - exists h. rewrite app_nil_r in El. by subst.
    - destruct (Hf done x l h El HP) as (h1 & -> & H1). run. apply (IH (done ++ [x])); [by rewrite <- app_assoc|].
      by eapply changes_trans. }
  intros h. by apply (H l0 []).
Qed.
Definition dests (l : list cell) (d : nat) : Prop := exists c, c ∈ l /\ to_ d c.
Lemma dests_app l c d : dests (l ++ [c]) d <-> dests l d \/ d = getdest c.2.
Proof.
  unfold dests, to_. split.
  - intros (x & [Hx| ->%list_elem_of_singleton]%elem_of_app & Ht); [left; eauto|by right].
  - intros [(x & Hx & Ht)| ->]; [exists x; split; [apply elem_of_app; by left|done]|].
    exists c. split; [apply elem_of_app; right; by apply list_elem_of_singleton|done].
Qed.
Lemma dests_nil d : ~ dests [] d.
Proof. by intros (c & ?%not_elem_of_nil & _). Qed.
Lemma link_present h s l c : links h -> signals h !! s = Some l -> c ∈ l -> present h (getdest c.2).
Proof.
  intros [H _] Hl Hc. destruct (proj1 (H s (getdest c.2))) as (m & Hm & _); [by exists l, c|by exists m].
Qed.
Lemma edge_dests h s l d : signals h !! s = Some l -> (edge h s d <-> dests l d).
Proof. apply edge_at. Qed.

Lemma signal_disconnect_all_changes s h : links h -> living h s -> exists h', signal_disconnect_all s h = Done h' /\
  changes h h' (fun s' d' => edge h s' d' /\ s' <> s) (fun s' d' => back h s' d' /\ s' <> s).
Proof.
  intros Hk [l Hl]. unfold signal_disconnect_all, connections. rewrite Hl. run.
  destruct (each_changes (fun (c : cell) h => signal_disconnect (getdest c.2) s h) (fun _ => edge h)
    (fun done s' d' => back h s' d' /\ ~ (s' = s /\ dests done d')) l h) with (h := h) as (h1 & E1 & H1).
  - intros done0 c l' h1 El H1. destruct (signal_disconnect_changes (getdest c.2) s h1) as (h2 & E2 & H2).
    { apply (ch_present _ _ _ _ H1). eapply link_present; [done|done|]. rewrite El. apply elem_of_app. right. by left. }
    exists h2. split; [done|]. eapply changes_iff; [exact H2|apply (ch_edge _ _ _ _ H1)|].
    intros s' d'. cbv beta. rewrite (ch_back _ _ _ _ H1), dests_app. tauto.
  - eapply changes_iff; [apply changes_nothing|done|]. intros s' d'. pose proof (dests_nil d'). tauto.
  - rewrite E1. run. eexists. split; [done|].
    assert (Hs : living h1 s) by (apply (ch_living _ _ _ _ H1); by exists l).
    eapply changes_trans; [exact H1|]. eapply changes_iff; [by apply clear_changes|..]; intros s' d'; cbv beta.
    + by rewrite (ch_edge _ _ _ _ H1).
    + rewrite (ch_back _ _ _ _ H1), <- (link_both _ Hk). rewrite <- (edge_dests h s l d' Hl).
      destruct (decide (s' = s)) as [->|]; tauto.
Qed.
Lemma slots_disconnect_all_changes d h : links h -> present h d -> exists h', slots_disconnect_all d h = Done h' /\
  changes h h' (fun s' d' => edge h s' d' /\ d' <> d) (fun s' d' => back h s' d' /\ d' <> d).
Proof.
  intros Hk [m Hm]. unfold slots_disconnect_all, senders. rewrite Hm. run.
  destruct (each_changes (fun s h => slot_disconnect s d h) (fun done s' d' => edge h s' d' /\ ~ (d' = d /\ s' ∈ done))
    (fun _ => back h) (elements m) h) with (h := h) as (h1 & E1 & H1).
  - intros done0 s l' h1 El H1. destruct (slot_disconnect_changes s d h1) as (h2 & E2 & H2).
    { apply (ch_living _ _ _ _ H1), (edge_living h s d), (link_both _ Hk). exists m. split; [done|]. apply elem_of_elements.
      rewrite El. apply elem_of_app. right. by left. }
    exists h2. split; [done|]. eapply changes_iff; [exact H2| |apply (ch_back _ _ _ _ H1)].
    intros s' d'. cbv beta. rewrite (ch_edge _ _ _ _ H1), elem_of_app, list_elem_of_singleton. tauto.
  - eapply changes_iff; [apply changes_nothing| |done]. intros s' d'. cbv beta. pose proof (not_elem_of_nil s'). tauto.
  - rewrite E1. run. eexists. split; [done|].
    assert (Hd : present h1 d) by (apply (ch_present _ _ _ _ H1); by exists m).
    eapply changes_trans; [exact H1|]. eapply changes_iff; [by apply forget_changes|..]; intros s' d'; cbv beta.
    + rewrite (ch_edge _ _ _ _ H1), elem_of_elements. rewrite <- (back_at h d m s' Hm), <- (link_both _ Hk).
      destruct (decide (d' = d)) as [->|]; tauto.
    + by rewrite (ch_back _ _ _ _ H1).
Qed.
Lemma slot_duplicate_changes s from d h : links h -> edge h s from -> from <> d -> exists h', slot_duplicate s from d h = Done h' /\
  changes h h' (fun s' d' => edge h s' d' \/ (s' = s /\ d' = d)) (back h).
Proof.
  intros Hk He Hne. destruct He as (l & c0 & Hl & Hc0 & Ht0). unfold slot_duplicate, connections. rewrite Hl. run.
  destruct (each_changes (fun c h => if decide (to_ from c) then push_back s (duplicate d c.2) h else Done h)
    (fun done s' d' => edge h s' d' \/ (s' = s /\ d' = d /\ dests done from)) (fun _ => back h) l h) with (h := h) as (h1 & E1 & H1).
  - intros done0 c l' h1 El H1. destruct (decide (to_ from c)) as [Ht|Ht].
    + destruct (push_back_changes s (duplicate d c.2) h1) as (h2 & E2 & H2); [apply (ch_living _ _ _ _ H1); by exists l|].
      exists h2. split; [done|]. eapply changes_iff; [exact H2| |apply (ch_back _ _ _ _ H1)].
      intros s' d'. cbv beta. rewrite (ch_edge _ _ _ _ H1), dests_app. unfold to_ in Ht. cbn. rewrite Ht. tauto.
    + exists h1. split; [done|]. eapply changes_iff; [apply changes_nothing| |apply (ch_back _ _ _ _ H1)].
      intros s' d'. cbv beta. rewrite (ch_edge _ _ _ _ H1), dests_app. unfold to_ in Ht.
      assert (from <> getdest c.2) by congruence. tauto.
  - eapply changes_iff; [apply changes_nothing| |done]. intros s' d'. cbv beta. pose proof (dests_nil from). tauto.
  - exists h1. split; [done|]. eapply changes_iff; [exact H1| |done]. intros s' d'. cbv beta.
    assert (dests l from) by (by exists c0). tauto.
Qed.
(** *** Every call *)
Lemma changes_links h h' E B : links h -> changes h h' E B -> (forall s d, E s d <-> B s d) -> links h'.
Proof. intros [_ Hc] H HE. constructor; [|by apply (ch_cells _ _ _ _ H)]. intros s d. by rewrite (ch_edge _ _ _ _ H), (ch_back _ _ _ _ H). Qed.
Definition goes_well (h : Store A) (o : outcome (Store A)) : Prop := exists h', o = Done h' /\ links h' /\ called h' = called h.
Lemma well_stay h : links h -> goes_well h (Done h).
Proof. intros H. by exists h. Qed.
Lemma well_changes h o E B : links h -> (exists h', o = Done h' /\ changes h h' E B) -> (forall s d, E s d <-> B s d) -> goes_well h o.
Proof. intros Hk (h' & -> & H) HE. exists h'. split; [done|]. split; [by eapply changes_links|apply (ch_called _ _ _ _ H)]. Qed.
Lemma connect_changes s d f h : living h s -> present h d -> exists h', connect s d f h = Done h' /\
  changes h h' (fun s' d' => edge h s' d' \/ (s' = s /\ d' = d)) (fun s' d' => back h s' d' \/ (s' = s /\ d' = d)).
Proof.
  intros Hs Hd. unfold connect. destruct (push_back_changes s (mkConn d f) h Hs) as (h1 & -> & H1). run.
  destruct (signal_connect_changes d s h1) as (h2 & E2 & H2); [by apply (ch_present _ _ _ _ H1)|].
  exists h2. split; [done|]. eapply changes_trans; [exact H1|]. eapply changes_iff; [exact H2|apply (ch_edge _ _ _ _ H1)|].
  intros s' d'. cbv beta. by rewrite (ch_back _ _ _ _ H1).
Qed.
Lemma filter_others d l : length (filter (to_ d) l) = 0%nat -> filter (fun c => ~ to_ d c) l = l.
Proof.
  induction l as [|c l IH]; [done|]. rewrite !filter_cons. intros Hl. destruct (decide (to_ d c)) as [Ht|Ht]; [by cbn in Hl|].
  rewrite decide_True by done. f_equal. auto.
Qed.
Lemma erase_first_once d l : (length (filter (to_ d) l) <= 1)%nat ->
  match erase_first d l with Some l' => l' = filter (fun c => ~ to_ d c) l | None => ~ dests l d end.
Proof.
  induction l as [|c l IH]; intros Hl; cbn [erase_first]; [apply dests_nil|].
  rewrite filter_cons in Hl. rewrite filter_cons. destruct (decide (to_ d c)) as [Ht|Ht].
  - rewrite decide_False by (by intros []). symmetry. apply filter_others. cbn in Hl. lia.
  - rewrite decide_True by done. specialize (IH Hl). destruct (erase_first d l) as [l'|]; cbn; [by subst|].
    intros (x & [->|Hx]%elem_of_cons & Hd); [done|]. apply IH. by exists x.
Qed.
Lemma disconnect_well s d h : links h -> living h s -> present h d -> (times_connected s d h <= 1)%nat -> goes_well h (disconnect s d h).
Proof.
  intros Hk [l Hl] Hd Ht. unfold times_connected in Ht. rewrite Hl in Ht. unfold disconnect, connections. rewrite Hl. run.
  pose proof (erase_first_once d l Ht) as He. destruct (erase_first d l) as [l'|]; [subst l'|by apply well_stay].
  destruct (slot_disconnect_changes s d h) as (h1 & E1 & H1); [by exists l|].
  unfold slot_disconnect, connections in E1. rewrite Hl in E1. injection E1 as E1. rewrite E1.
  destruct (signal_disconnect_changes d s h1) as (h2 & E2 & H2); [by apply (ch_present _ _ _ _ H1)|].
  apply (well_changes h _ (fun s' d' => edge h s' d' /\ ~ (s' = s /\ d' = d)) (fun s' d' => back h s' d' /\ ~ (s' = s /\ d' = d)) Hk).
  - exists h2. split; [done|]. eapply changes_trans; [exact H1|]. eapply changes_iff; [exact H2|apply (ch_edge _ _ _ _ H1)|].
    intros s' d'. cbv beta. by rewrite (ch_back _ _ _ _ H1).
  - intros s' d'. cbv beta. by rewrite (link_both _ Hk).
Qed.
(** Objects that come and go. *)
Lemma edge_delete h s s' d : edge (set_signals (delete s (signals h)) h) s' d <-> edge h s' d /\ s' <> s.
Proof.
  unfold edge. cbn. destruct (decide (s' = s)) as [->|].
  - rewrite lookup_delete_eq. split; [by intros (? & ? & [=] & _)|by intros [_ []]].
  - rewrite lookup_delete_ne by done. tauto.
Qed.
Lemma back_delete h d s d' : back (set_receivers (delete d (receivers h)) h) s d' <-> back h s d' /\ d' <> d.
Proof.
  unfold back. cbn. destruct (decide (d' = d)) as [->|].
  - rewrite lookup_delete_eq. split; [by intros (? & [=] & _)|by intros [_ []]].
  - rewrite lookup_delete_ne by done. tauto.
Qed.
Lemma new_signal_links s h : links h -> ~ living h s -> links (new_signal s h) /\ changes (new_signal s h) (new_signal s h) (edge h) (back h).
Proof.
  intros Hk Hn. assert (HE : forall s' d, edge (new_signal s h) s' d <-> edge h s' d).
  { intros s' d. unfold new_signal. rewrite edge_insert. destruct (decide (s' = s)) as [->|]; [|done].
    split; [by intros (c & ?%not_elem_of_nil & _)|]. intros H%edge_living. done. }
  split; [|eapply changes_iff; [apply changes_nothing|done|done]]. constructor.
  - intros s' d. rewrite HE. exact (link_both _ Hk s' d).
  - apply cells_insert; [apply Hk|]. split; constructor.
Qed.
Lemma new_slots_links d h : links h -> ~ present h d -> links (new_slots d h).
Proof.
  intros Hk Hn. constructor; [|exact (link_cells _ Hk)]. intros s' d'. unfold new_slots. rewrite back_insert.
  destruct (decide (d' = d)) as [->|]; [|exact (link_both _ Hk s' d')]. rewrite elem_of_empty. split; [|done].
  intros He. change (edge h s' d) in He. apply (link_both _ Hk) in He as (m & Hm & _). apply Hn. by exists m.
Qed.
Lemma copy_signal_well s from h : links h -> ~ living h s -> living h from -> goes_well h (copy_signal s from h).
Proof.
  intros Hk Hn [l Hl]. unfold copy_signal, connections. rewrite Hl. run.
  destruct (new_signal_links s h Hk Hn) as [Hk1 _]. set (h0 := new_signal s h) in *.
  assert (Hs : living h0 s) by (exists []; apply lookup_insert_eq).
  assert (Hf : signals h0 !! from = Some l) by (unfold h0, new_signal; cbn; rewrite lookup_insert_ne; [done|intros ->; apply Hn; by exists l]).
  destruct (each_changes (fun (c : cell) h => h ← signal_connect (getdest c.2) s h; push_back s (clone c.2) h)
    (fun done s' d' => edge h0 s' d' \/ (s' = s /\ dests done d')) (fun done s' d' => back h0 s' d' \/ (s' = s /\ dests done d')) l h0)
    with (h := h0) as (h1 & E1 & H1).
  - intros done0 c l' h1 El H1. assert (Hc : present h0 (getdest c.2)) by (eapply link_present; [done|exact Hf|]; rewrite El; set_solver).
    destruct (signal_connect_changes (getdest c.2) s h1) as (h2 & E2 & H2); [by apply (ch_present _ _ _ _ H1)|]. rewrite E2. run.
    destruct (push_back_changes s (clone c.2) h2) as (h3 & E3 & H3); [by apply (ch_living _ _ _ _ H2), (ch_living _ _ _ _ H1)|].
    exists h3. split; [done|]. eapply changes_trans; [exact H2|]. eapply changes_iff; [exact H3|..]; intros s' d'; cbv beta.
    + rewrite (ch_edge _ _ _ _ H2), (ch_edge _ _ _ _ H1), dests_app. unfold clone. tauto.
    + rewrite (ch_back _ _ _ _ H2), (ch_back _ _ _ _ H1), dests_app. tauto.
  - eapply changes_iff; [apply changes_nothing|..]; intros s' d'; cbv beta; pose proof (dests_nil d'); tauto.
  - exists h1. split; [done|]. split; [|apply (ch_called _ _ _ _ H1)].
    eapply changes_links; [exact Hk1|exact H1|]. intros s' d'. cbv beta. by rewrite (link_both _ Hk1).
Qed.
Lemma copy_slots_well d from h : links h -> ~ present h d -> present h from -> goes_well h (copy_slots d from h).
Proof.
  intros Hk Hn [m Hm]. unfold copy_slots, senders. rewrite Hm. run.
  pose proof (new_slots_links d h Hk Hn) as Hk1. set (h0 := new_slots d h) in *.
  assert (Hd : present h0 d) by (exists ∅; apply lookup_insert_eq).
  assert (Hne : from <> d) by (intros ->; apply Hn; by exists m).
  assert (Hf : receivers h0 !! from = Some m) by (unfold h0, new_slots; cbn; by rewrite lookup_insert_ne).
  destruct (each_changes (fun s h => h ← slot_duplicate s from d h; signal_connect d s h)
    (fun done s' d' => edge h0 s' d' \/ (d' = d /\ s' ∈ done)) (fun done s' d' => back h0 s' d' \/ (d' = d /\ s' ∈ done)) (elements m) h0)
    with (h := h0) as (h1 & E1 & H1).
  - intros done0 s l' h1 El H1.
    assert (Hk2 : links h1) by (eapply changes_links; [exact Hk1|exact H1|]; intros s' d'; cbv beta; by rewrite (link_both _ Hk1)).
    assert (He : edge h1 s from).
    { apply (ch_edge _ _ _ _ H1). left. apply (link_both _ Hk1). exists m. split; [done|]. apply elem_of_elements. rewrite El. set_solver. }
    destruct (slot_duplicate_changes s from d h1 Hk2 He Hne) as (h2 & E2 & H2). rewrite E2. run.
    destruct (signal_connect_changes d s h2) as (h3 & E3 & H3); [by apply (ch_present _ _ _ _ H2), (ch_present _ _ _ _ H1)|].
    exists h3. split; [done|]. eapply changes_trans; [exact H2|]. eapply changes_iff; [exact H3|..]; intros s' d'; cbv beta.
    + rewrite (ch_edge _ _ _ _ H2), (ch_edge _ _ _ _ H1), elem_of_app, list_elem_of_singleton. tauto.
    + rewrite (ch_back _ _ _ _ H2), (ch_back _ _ _ _ H1), elem_of_app, list_elem_of_singleton. tauto.
  - eapply changes_iff; [apply changes_nothing|..]; intros s' d'; cbv beta; pose proof (not_elem_of_nil s'); tauto.
  - exists h1. split; [done|]. split; [|apply (ch_called _ _ _ _ H1)].
    eapply changes_links; [exact Hk1|exact H1|]. intros s' d'. cbv beta. by rewrite (link_both _ Hk1).
Qed.
Lemma delete_signal_well s h : links h -> living h s -> goes_well h (delete_signal s h).
Proof.
  intros Hk Hs. unfold delete_signal. destruct (signal_disconnect_all_changes s h Hk Hs) as (h1 & -> & H1). run.
  eexists. split; [done|]. split; [|apply (ch_called _ _ _ _ H1)]. constructor.
  - intros s' d'. rewrite edge_delete, (ch_edge _ _ _ _ H1). transitivity (back h1 s' d'); [|done].
    rewrite (ch_back _ _ _ _ H1), (link_both _ Hk). tauto.
  - intros s' l. cbn. intros [_ Hl]%lookup_delete_Some. by apply (ch_cells _ _ _ _ H1 (link_cells _ Hk) s').
Qed.
Lemma delete_slots_well d h : links h -> present h d -> goes_well h (delete_slots d h).
Proof.
  intros Hk Hd. unfold delete_slots. destruct (slots_disconnect_all_changes d h Hk Hd) as (h1 & -> & H1). run.
  eexists. split; [done|]. split; [|apply (ch_called _ _ _ _ H1)]. constructor.
  - intros s' d'. rewrite back_delete, (ch_back _ _ _ _ H1). transitivity (edge h1 s' d'); [done|].
    rewrite (ch_edge _ _ _ _ H1), (link_both _ Hk). tauto.
  - apply (ch_cells _ _ _ _ H1 (link_cells _ Hk)).
Qed.
Lemma when_well b o h : links h -> (b = true -> goes_well h o) -> goes_well h (when b o h).
Proof. intros Hk Ho. destruct b; [by apply Ho|by apply well_stay]. Qed.
Lemma has_signal_spec s h : has_signal s h = true <-> living h s.
Proof. apply bool_decide_eq_true. Qed.
Lemma has_receiver_spec d h : has_receiver d h = true <-> present h d.
Proof. apply bool_decide_eq_true. Qed.
Lemma do_quiet_well c h : links h -> goes_well h (do_quiet c h).
Proof.
  intros Hk. destruct c as [s|s from|s|d|d from|d|s d f|s d|s|d|s a]; cbn [do_quiet]; [..|by apply well_stay].
  all: apply when_well; [done|];
    rewrite ?andb_true_iff, ?negb_true_iff, <- ?not_true_iff_false, ?has_signal_spec, ?has_receiver_spec; intros H.
  - exists (new_signal s h). split; [done|]. split; [by apply new_signal_links|done].
  - destruct H. by apply copy_signal_well.
  - by apply delete_signal_well.
  - exists (new_slots d h). split; [done|]. split; [by apply new_slots_links|done].
  - destruct H. by apply copy_slots_well.
  - by apply delete_slots_well.
  - destruct H. eapply (well_changes h _ _ _ Hk); [by apply connect_changes|]. intros s' d'. cbv beta. by rewrite (link_both _ Hk).
  - destruct H as [[? ?] ?%Nat.leb_le]. by apply disconnect_well.
  - eapply (well_changes h _ _ _ Hk); [by apply signal_disconnect_all_changes|]. intros s' d'. cbv beta. by rewrite (link_both _ Hk).
  - eapply (well_changes h _ _ _ Hk); [by apply slots_disconnect_all_changes|]. intros s' d'. cbv beta. by rewrite (link_both _ Hk).
Qed.
End links.

(** ** Emissions *)
Section emission.
Context {A : Type}.
Implicit Types h : Store A.

Definition leaves_links (r : option (outcome (Store A))) : Prop :=
  match r with Some (Done h) => links h | _ => True end.
Lemma and_then_links r f : leaves_links r -> (forall h, links h -> leaves_links (f h)) -> leaves_links (and_then r f).
Proof. intros Hr Hf. destruct r as [[h| |]|]; try done. by apply Hf. Qed.
Lemma called_links h (l : list (nat * nat * A)) : links h -> links (mkStore (signals h) (receivers h) (next_cell h) l).
Proof. intros [H1 H2]. by constructor. Qed.
Lemma emit_loop_links listener fuel : (forall d f a h, links h -> leaves_links (listener d f a h)) ->
  forall s it a h, links h -> leaves_links (emit_loop listener fuel s it a h).
Proof.
  intros Hl. induction fuel as [|fuel IH]; intros s it a h Hk; [done|]. cbn [emit_loop].
  destruct (signals h !! s) as [l|]; [|done]. destruct it as [c|]; [|done].
  destruct (position c l) as [[conn itNext]|]; [|done]. apply and_then_links; [|auto].
  unfold invoke. destruct (receivers h !! m_pobject conn); [|done]. by apply Hl, called_links.
Qed.
Lemma do_calls_links owner fuel : forall l h, links h -> leaves_links (do_calls owner fuel l h).
Proof.
  induction fuel as [|fuel IH]; intros l h Hk; [done|]. cbn [do_calls]. destruct l as [|c l]; [done|].
  apply and_then_links; [|by auto].
  assert (Hq : leaves_links (Some (do_quiet c h))) by (destruct (do_quiet_well c h Hk) as (h' & -> & H & _); exact H).
  destruct c as [| | | | | | | | | |s a]; try exact Hq. destruct (has_signal s h); [|done].
  unfold emit. destruct (signals h !! s) as [l'|]; [|done]. apply emit_loop_links; [|done]. intros d f a' h' Hk'. by apply IH.
Qed.

(** *** What a receiver may do while it is called

    It may remove itself and have any new objects made and connected to other signals;
    the signal that is being emitted and its other receivers stay. *)
Definition gentle (s d : nat) (c : call A) : Prop :=
  match c with
  | CallDeleteSignal s' | CallSignalDisconnectAll s' => s' <> s
  | CallDeleteSlots d' | CallSlotsDisconnectAll d' | CallDisconnect _ d' => d' = d
  | CallConnect s' _ _ => s' <> s
  | CallCopySlots _ _ | CallEmit _ _ => False
  | _ => True
  end.
(** The list of [s] is the same, but for [d]. *)
Definition same_list (s d : nat) (l : list cell) h : Prop :=
  signals h !! s = Some l \/ signals h !! s = Some (filter (fun c => ~ to_ d c) l).
Lemma each_keep {X} (f : X -> Store A -> outcome (Store A)) (P : Store A -> Prop) l :
  (forall x h h', f x h = Done h' -> P h -> P h') -> forall h h', each f l h = Done h' -> P h -> P h'.
Proof.
  intros Hf. induction l as [|x l IH]; intros h h'; cbn [each]; [by intros [= <-]|].
  destruct (f x h) as [h1| |] eqn:E; try done. cbn. intros E' HP. eapply IH; [exact E'|]. by eapply Hf.
Qed.
Lemma filter_twice d (l : list cell) : filter (fun c => ~ to_ d c) (filter (fun c => ~ to_ d c) l) = filter (fun c => ~ to_ d c) l.
Proof.
  induction l as [|c l IH]; [done|]. rewrite filter_cons. destruct (decide (~ to_ d c)) as [H|H]; [|done].
  rewrite filter_cons, decide_True by done. by f_equal.
Qed.
Lemma slot_disconnect_same s d s' l h h' : slot_disconnect s' d h = Done h' -> same_list s d l h -> same_list s d l h'.
Proof.
  unfold slot_disconnect, connections. destruct (signals h !! s') as [l'|] eqn:Hl'; [|done]. intros [= <-] Hs.
  unfold same_list in *. cbn. destruct (decide (s = s')) as [->|]; [|by rewrite lookup_insert_ne].
  rewrite lookup_insert_eq. rewrite Hl' in Hs. right. f_equal. destruct Hs as [[= ->]|[= ->]]; [done|apply filter_twice].
Qed.
Lemma signal_disconnect_signals d s h h' : signal_disconnect d s h = Done h' -> signals h' = signals h.
Proof. unfold signal_disconnect, senders. destruct (receivers h !! d); [|done]. by intros [= <-]. Qed.
Lemma signal_connect_signals d s h h' : signal_connect d s h = Done h' -> signals h' = signals h.
Proof. unfold signal_connect, senders. destruct (receivers h !! d); [|done]. by intros [= <-]. Qed.
Lemma push_back_other s s' c h h' : s' <> s -> push_back s' c h = Done h' -> signals h' !! s = signals h !! s.
Proof.
  intros Hne. unfold push_back, connections. destruct (signals h !! s'); [|done]. intros [= <-]. cbn. by rewrite lookup_insert_ne.
Qed.
Lemma slots_disconnect_all_same s d l h h' : slots_disconnect_all d h = Done h' -> same_list s d l h -> same_list s d l h'.
Proof.
  unfold slots_disconnect_all, senders. destruct (receivers h !! d); [|done]. run.
  destruct (each _ _ h) as [h1| |] eqn:E; try done. run. intros [= <-] Hs. change (same_list s d l h1).
  eapply each_keep; [|exact E|exact Hs]. intros s' h2 h3. apply slot_disconnect_same.
Qed.
Lemma signal_disconnect_all_other s s' h h' : s' <> s -> signal_disconnect_all s' h = Done h' -> signals h' !! s = signals h !! s.
Proof.
  intros Hne. unfold signal_disconnect_all, connections. destruct (signals h !! s') as [l'|]; [|done]. run.
  destruct (each _ l' h) as [h1| |] eqn:E; try done. run. intros [= <-]. cbn. rewrite lookup_insert_ne by done.
  refine (each_keep _ (fun h2 => signals h2 !! s = signals h !! s) l' _ h h1 E eq_refl).
  intros x h2 h3 E3 <-. by erewrite signal_disconnect_signals.
Qed.
Lemma disconnect_same s d s' l h h' : (times_connected s' d h <= 1)%nat -> disconnect s' d h = Done h' -> same_list s d l h -> same_list s d l h'.
Proof.
  intros Ht E Hs. unfold disconnect, connections in E. unfold times_connected in Ht.
  destruct (signals h !! s') as [l'|] eqn:Hl'; [|done]. cbn in E, Ht. pose proof (erase_first_once d l' Ht) as He.
  destruct (erase_first d l') as [l''|]; [subst l''|by injection E as <-].
  apply signal_disconnect_signals in E. unfold same_list. rewrite E.
  apply (slot_disconnect_same s d s' l h); [|done]. unfold slot_disconnect, connections. by rewrite Hl'.
Qed.
Lemma gentle_same s d c l h h' : gentle s d c -> do_quiet c h = Done h' -> is_Some (signals h !! s) -> same_list s d l h -> same_list s d l h'.
Proof.
  intros Hg E Hs Hl. assert (Hkeep : signals h' !! s = signals h !! s -> same_list s d l h') by (intros E'; unfold same_list; by rewrite E').
  assert (Hold : forall s', has_signal s' h = false -> s' <> s) by (intros s' H%bool_decide_eq_false_1 ->; done).
  destruct c as [s'|s' from|s'|d'|d' from|d'|s' d' f|s' d'|s'|d'|s' a]; cbn [gentle do_quiet] in *; try done; unfold when in E.
  - destruct (has_signal s' h) eqn:Hn; cbn in E; injection E as <-; apply Hkeep; [done|]. cbn. rewrite lookup_insert_ne by auto. done.
  - destruct (has_signal s' h) eqn:Hn; cbn in E; [by injection E as <-; apply Hkeep|].
    destruct (has_signal from h); [|by injection E as <-; apply Hkeep]. apply Hkeep. unfold copy_signal in E.
    destruct (connections from h) as [l'| |]; try done. cbn [mbind outcome_mbind outcome_bind] in E.
    refine (each_keep _ (fun h2 => signals h2 !! s = signals h !! s) l' _ _ h' E _).
    + intros x h2 h3 E3 <-. destruct (signal_connect _ s' h2) as [h4| |] eqn:E4; try done. cbn in E3.
      rewrite (push_back_other s s' _ _ _ (Hold s' Hn) E3). by erewrite signal_connect_signals.
    + cbn. rewrite lookup_insert_ne by auto. done.
  - destruct (has_signal s' h); [|by injection E as <-]. unfold delete_signal in E.
    destruct (signal_disconnect_all s' h) as [h1| |] eqn:E1; try done. injection E as <-. apply Hkeep. cbn.
    rewrite lookup_delete_ne by done. by eapply signal_disconnect_all_other.
  - destruct (has_receiver d' h); injection E as <-; by apply Hkeep.
  - subst d'. destruct (has_receiver d h); [|by injection E as <-]. unfold delete_slots in E.
    destruct (slots_disconnect_all d h) as [h1| |] eqn:E1; try done. injection E as <-.
    change (same_list s d l h1). by eapply slots_disconnect_all_same.
  - destruct (has_signal s' h && has_receiver d' h); [|by injection E as <-]. apply Hkeep. unfold connect in E.
    destruct (push_back s' _ h) as [h1| |] eqn:E1; try done. cbn in E. erewrite signal_connect_signals by exact E. by eapply push_back_other.
  - subst d'. destruct (has_signal s' h && has_receiver d h) eqn:Hb; [|by injection E as <-]. cbn in E.
    destruct (Nat.leb_spec (times_connected s' d h) 1); [|by injection E as <-]. by eapply disconnect_same.
  - destruct (has_signal s' h); [|by injection E as <-]. apply Hkeep. by eapply signal_disconnect_all_other.
  - subst d'. destruct (has_receiver d h); [|by injection E as <-]. by eapply slots_disconnect_all_same.
Qed.
(** *** The loop *)
Definition calls_of (a : A) (l : list cell) : list (nat * nat * A) := map (fun c => (m_pobject c.2, m_pmemfun c.2, a)) l.
Lemma position_at l1 c rest : NoDup (map fst (l1 ++ c :: rest)) -> position c.1 (l1 ++ c :: rest) = Some (c.2, fst <$> head rest).
Proof.
  induction l1 as [|x l1 IH]; cbn [app map position]; intros Hn; apply list.NoDup_cons in Hn as [Hx Hn].
  - by rewrite decide_True.
  - rewrite decide_False; [by apply IH|]. intros E. apply Hx. rewrite E, map_app. apply elem_of_app. right. by left.
Qed.
Lemma filter_unconnected d l : ~ dests l d -> filter (fun c => ~ to_ d c) l = l.
Proof.
  intros H. apply filter_others. destruct (filter (to_ d) l) as [|c l'] eqn:E; [done|]. exfalso. apply H.
  assert (Hc : c ∈ filter (to_ d) l) by (rewrite E; by left). apply list_elem_of_filter in Hc as [? ?]. by exists c.
Qed.
Lemma programs_gentle owner fuel s d f a : (forall c h, c ∈ owner d f a h -> gentle s d c) ->
  forall l h0 h, (forall c, c ∈ l -> c ∈ owner d f a h0) -> (length l < fuel)%nat -> links h -> forall l0, is_Some (signals h !! s) -> same_list s d l0 h ->
  exists h', do_calls owner fuel l h = Some (Done h') /\ links h' /\ called h' = called h /\ is_Some (signals h' !! s) /\ same_list s d l0 h'.
Proof.
  intros Hg. induction fuel as [|fuel IH]; intros l h0 h Hl Hf Hk l0 Hs Hsame; [lia|]. cbn [do_calls].
  destruct l as [|c l]; [by exists h|]. cbn in Hf.
  assert (Hc : gentle s d c) by (apply (Hg c h0), Hl; by left).
  destruct (do_quiet_well c h Hk) as (h1 & E1 & Hk1 & Ec1).
  pose proof (gentle_same s d c l0 h h1 Hc E1 Hs Hsame) as Hs1.
  assert (Hlive : is_Some (signals h1 !! s)) by (destruct Hs1 as [-> | ->]; by eexists).
  destruct (IH l h0 h1) with (l0 := l0) as (h' & E' & ? & Ec & ? & ?); [|lia|done..|].
  { intros x Hx. apply Hl. by right. }
  exists h'. split_and!; try done; [|congruence].
  destruct c; try (rewrite E1; exact E'); done.
Qed.
Lemma emit_loop_gentle owner pfuel s a :
  (forall d f a c h, c ∈ owner d f a h -> gentle s d c) -> (forall d f a h, length (owner d f a h) < pfuel)%nat ->
  forall rest fuel l1 h, (length rest < fuel)%nat -> links h -> signals h !! s = Some (l1 ++ rest) ->
  NoDup (map (fun c : cell => getdest c.2) rest) ->
  exists h', emit_loop (fun d f a h => do_calls owner pfuel (owner d f a h) h) fuel s (fst <$> head rest) a h = Some (Done h') /\
    links h' /\ called h' = called h ++ calls_of a rest.
Proof.
  intros Hg Hlen. induction rest as [|c rest IH]; intros fuel l1 h Hf Hk Hs Hn; (destruct fuel as [|fuel]; [cbn in Hf; lia|]); cbn [emit_loop head fmap option_fmap option_map]; rewrite Hs.
  { exists h. by rewrite app_nil_r. }
  rewrite position_at by (apply (link_cells _ Hk s _ Hs)). cbn in Hf.
  assert (Hp : present h (getdest c.2)) by (eapply link_present; [done|exact Hs|]; apply elem_of_app; right; by left).
  destruct Hp as [m Hm]. unfold invoke. unfold getdest in Hm. rewrite Hm.
  set (h0 := mkStore _ _ _ _). assert (Hk0 : links h0) by by apply called_links.
  destruct (programs_gentle owner pfuel s (m_pobject c.2) (m_pmemfun c.2) a (fun c0 h => Hg _ _ _ c0 h) (owner (m_pobject c.2) (m_pmemfun c.2) a h0) h0 h0)
    with (l0 := l1 ++ c :: rest) as (h1 & E1 & Hk1 & Ec1 & _ & Hs1); [done|apply Hlen|done|by eexists|by left|].
  rewrite E1. cbn [and_then]. apply list.NoDup_cons in Hn as [Hc Hn].
  assert (Hs2 : exists l2, signals h1 !! s = Some (l2 ++ rest)).
  { destruct Hs1 as [-> | ->]; [exists (l1 ++ [c]); by rewrite <- app_assoc|].
    exists (filter (fun c0 => ~ to_ (m_pobject c.2) c0) l1). f_equal. rewrite list.filter_app, filter_cons, decide_False by (intros H; by apply H).
    f_equal. apply filter_unconnected. intros (x & Hx & Ht). apply Hc. apply list_elem_of_fmap. exists x. split; [symmetry; exact Ht|done]. }
  destruct Hs2 as [l2 Hs2]. destruct (IH fuel l2 h1) as (h' & E' & ? & Ec); [lia|done..|].
  exists h'. split; [done|]. split; [done|]. rewrite Ec, Ec1. cbn. by rewrite <- app_assoc.
Qed.

(** C34. Whatever programs do with signals and receivers, in whatever order and from
    within emissions, at the end every connection of a living signal is to a living
    receiver that knows the signal, and the other way round: neither side keeps a
    pointer to an object that is gone. *)
Theorem links_are_mutual owner fuel program (h : Store A) :
  do_calls owner fuel program (mkStore ∅ ∅ 0 []) = Some (Done h) ->
  (forall s l c, signals h !! s = Some l -> c ∈ l -> exists m, receivers h !! getdest c.2 = Some m /\ s ∈ m) /\
  (forall d m s, receivers h !! d = Some m -> s ∈ m -> exists l c, signals h !! s = Some l /\ c ∈ l /\ getdest c.2 = d).
Proof.
  intros E. assert (H0 : links (mkStore (A := A) ∅ ∅ 0 [])).
  { constructor; [|by intros s l; cbn; rewrite lookup_empty].
    intros s d. split; [intros (l & c & E0 & _)|intros (m & E0 & _)]; cbn in E0; by rewrite lookup_empty in E0. }
  pose proof (do_calls_links owner fuel program _ H0) as Hk. rewrite E in Hk. destruct Hk as [Hb _]. split.
  - intros s l c Hl Hc. apply Hb. by exists l, c.
  - intros d m s Hm Hs. apply Hb. by exists m.
Qed.
(** An emission calls every receiver that is connected, once each and in the order
    of the connections, although receivers may remove themselves and change
    everything but the signal's other connections while they are called; nothing
    undefined happens, and enough fuel is one round for each connection. *)
Theorem emission_calls_each owner fuel s a l (h : Store A) :
  links h -> signals h !! s = Some l -> NoDup (map (fun c : cell => getdest c.2) l) ->
  (forall d f a c h, c ∈ owner d f a h -> gentle s d c) ->
  (length l < fuel)%nat -> (forall d f a h, length (owner d f a h) < fuel)%nat ->
  exists h', do_calls owner (S fuel) [CallEmit s a] h = Some (Done h') /\
    called h' = called h ++ map (fun c => (m_pobject c.2, m_pmemfun c.2, a)) l /\ links h'.
Proof.
  intros Hk Hl Hn Hg Hf Hp. cbn [do_calls]. unfold has_signal. rewrite bool_decide_eq_true_2 by by eexists.
  unfold emit. rewrite Hl.
  destruct (emit_loop_gentle owner fuel s a Hg Hp l fuel [] h Hf Hk Hl Hn) as (h' & E & ? & ?).
  rewrite E. cbn [and_then]. destruct fuel as [|fuel]; [lia|]. by exists h'.
Qed.
End emission.

(** ** Examples *)
Section demo.
Definition was (d f : nat) (a : Z) : nat * nat * Z := (d, f, a).
(** One signal, 1, with three receivers; the second ends itself when it is called, the
    first makes a copy of the signal. *)
Definition demo_owner (d f : nat) (a : Z) (h : Store Z) : list (call Z) :=
  match d with 10%nat => [CallCopySignal 2 1] | 11%nat => [CallDeleteSlots 11; CallNewSlots 13] | _ => [] end.
Definition demo_connect : list (call Z) :=
  [CallNewSignal 1; CallNewSlots 10; CallNewSlots 11; CallNewSlots 12; CallConnect 1 10 0; CallConnect 1 11 0; CallConnect 1 12 5].
Definition empty_store : Store Z := mkStore ∅ ∅ 0 [].
Definition store_of (r : option (outcome (Store Z))) : Store Z := match r with Some (Done h) => h | _ => empty_store end.
Definition demo_program : list (call Z) := demo_connect ++ [CallEmit 1 7; CallDeleteSlots 12; CallEmit 1 8].
Definition demo_end : Store Z := store_of (do_calls demo_owner 20 demo_program empty_store).
Lemma links_are_mutual_witness :
  called demo_end = [was 10 0 7; was 11 0 7; was 12 5 7; was 10 0 8] /\
  (forall s l c, signals demo_end !! s = Some l -> c ∈ l -> exists m, receivers demo_end !! getdest c.2 = Some m /\ s ∈ m).
Proof.
  split; [by vm_compute|].
  assert (E : do_calls demo_owner 20 demo_program (mkStore ∅ ∅ 0 []) = Some (Done demo_end)) by (vm_compute; reflexivity).
  exact (proj1 (links_are_mutual demo_owner 20 demo_program demo_end E)).
Defined.
Definition demo_connected : Store Z := store_of (do_calls demo_owner 20 demo_connect empty_store).
Lemma demo_links : links demo_connected.
Proof.
  assert (H : leaves_links (do_calls demo_owner 20 demo_connect empty_store)).
  { apply do_calls_links. constructor; [|by intros s l; cbn; rewrite lookup_empty].
    intros s d. split; [intros (l & c & E0 & _)|intros (m & E0 & _)]; cbn in E0; by rewrite lookup_empty in E0. }
  unfold demo_connected. destruct (do_calls _ _ _ _) as [[h| |]|] eqn:E; [exact H|exfalso; vm_compute in E; discriminate..].
Qed.
Lemma demo_gentle d f a c h : c ∈ demo_owner d f a h -> gentle 1 d c.
Proof.
  unfold demo_owner. destruct (decide (d = 10%nat)) as [->|]; [by intros ->%list_elem_of_singleton|].
  destruct (decide (d = 11%nat)) as [->|]; [by intros [->|[->|?%not_elem_of_nil]%elem_of_cons]%elem_of_cons|].
  do 12 (destruct d as [|d]; [try done; by intros ?%not_elem_of_nil|]). by intros ?%not_elem_of_nil.
Qed.
Lemma demo_short d f a h : (length (demo_owner d f a h) < 9)%nat.
Proof. unfold demo_owner. do 12 (destruct d as [|d]; [cbn; lia|]). cbn. lia. Qed.
Lemma emission_calls_each_witness :
  exists h', do_calls demo_owner 10 [CallEmit 1 7] demo_connected = Some (Done h') /\
    called h' = [was 10 0 7; was 11 0 7; was 12 5 7] /\ links h'.
Proof.
  assert (Hl : signals demo_connected !! 1%nat = Some [(0, mkConn 10 0); (1, mkConn 11 0); (2, mkConn 12 5)]%nat) by by vm_compute.
  destruct (emission_calls_each demo_owner 9 1 7 _ demo_connected demo_links Hl) as (h' & E & Ec & Hk);
    [by apply (bool_decide_unpack _); vm_compute|exact demo_gentle|cbn; lia|exact demo_short|].
  exists h'. split; [exact E|]. split; [rewrite Ec; by vm_compute|exact Hk].
Defined.
(** A receiver that is connected twice and disconnected once forgets the signal:
    when it ends a connection to it is left, and the next emission calls it. *)
Example connected_twice :
  match (h ← connect 1 10 0 (new_slots 10 (new_signal 1 empty_store)); h ← connect 1 10 1 h; h ← disconnect 1 10 h; delete_slots 10 h) with
  | Done h => signals h !! 1%nat = Some [(1, mkConn 10 1)]%nat /\ receivers h !! 10%nat = None /\
      emit (fun _ _ _ h => Some (Done h)) 9 1 7 h = Some Undefined
  | _ => False
  end.
Proof. by vm_compute. Qed.
(** A receiver that ends the next one leaves the emission with an iterator to
    nothing. *)
Example next_receiver_gone :
  do_calls (fun d f a h => match d with 10%nat => [CallDeleteSlots 11] | _ => [] end) 20 (demo_connect ++ [CallEmit 1 7]) empty_store = Some Undefined.
Proof. by vm_compute. Qed.
(** A receiver connected during an emission is called in it, unless the last one
    connects it. *)
Example connected_meanwhile :
  let calls owner := called (store_of (do_calls owner 20 (demo_connect ++ [CallNewSlots 13; CallEmit 1 7]) empty_store)) in
  calls (fun d f a h => match d with 10%nat => [CallConnect 1 13 2] | _ => [] end) = [was 10 0 7; was 11 0 7; was 12 5 7; was 13 2 7] /\
  calls (fun d f a h => match d with 12%nat => [CallConnect 1 13 2] | _ => [] end) = [was 10 0 7; was 11 0 7; was 12 5 7].
Proof. by vm_compute. Qed.
End demo.
