(* ===== verification/SharedPtr.v ===== *)
(** * base/shared_ptr.h: shared pointers

    A pointer is the address of its object, [px], and that of the counter it shares, [pn];
    objects and counters are addresses in a store.  Objects have no shared pointers of their
    own, as their destructors would release them, and a program has one thread, as the counter is
    a plain [long]; [lost_or_twice] is what two threads do.  Using a counter that is gone, or deleting an
    object that is gone, is undefined.  A pointer is handed an object once
    ([ASSERT] in [reset], and what the comments ask for). *)
From stdpp Require Import gmap.
From S2P Require Import Prelude.

Record shared_ptr := mkPtr { px : option nat; pn : option nat }.
#[global] Instance shared_ptr_eq_dec : EqDecision shared_ptr.
Proof. solve_decision. Defined.
Definition null : shared_ptr := mkPtr None None.
(** [pointers]: the variables; [objects]: the objects that live; [deleted]: those that were deleted, in
    order; [handed]: those that some pointer was given. *)
Record Store := mkStore {
  pointers : gmap nat shared_ptr; counters : gmap nat Z; objects : gset nat; deleted : list nat; handed : gset nat;
  next_counter : nat }.
Definition set_pointers (x : gmap nat shared_ptr) (h : Store) : Store :=
  mkStore x (counters h) (objects h) (deleted h) (handed h) (next_counter h).
Definition set_counters (x : gmap nat Z) (n : nat) (h : Store) : Store :=
  mkStore (pointers h) x (objects h) (deleted h) (handed h) n.
Definition pointer (x : nat) (h : Store) : outcome shared_ptr := lift_undefined (pointers h !! x).
Definition set_pointer (x : nat) (q : shared_ptr) (h : Store) : Store := set_pointers (<[x := q]> (pointers h)) h.

(** ** The counter *)
Definition count_use_count (pn : option nat) (h : Store) : outcome Z :=
  match pn with None => Done 0 | Some c => lift_undefined (counters h !! c) end.
(** [acquire]: the pointer to the counter after it. *)
Definition count_acquire (p pn : option nat) (h : Store) : outcome (option nat * Store) :=
  match p with
  | None => Done (pn, h)
  | Some _ =>
    match pn with
    | None => Done (Some (next_counter h), set_counters (<[next_counter h := 1]> (counters h)) (S (next_counter h)) h)
    | Some c => n ← lift_undefined (counters h !! c); Done (pn, set_counters (<[c := n + 1]> (counters h)) (next_counter h) h)
    end
  end.
Definition delete_object (p : option nat) (h : Store) : outcome Store :=
  match p with
  | None => Done h
  | Some o =>
    if decide (o ∈ objects h) then
      Done (mkStore (pointers h) (counters h) (objects h ∖ {[o]}) (deleted h ++ [o]) (handed h) (next_counter h))
    else Undefined
  end.
Definition delete_counter (c : nat) (h : Store) : Store := set_counters (delete c (counters h)) (next_counter h) h.
Definition count_release (p pn : option nat) (h : Store) : outcome Store :=
  match pn with
  | None => Done h
  | Some c =>
    n ← lift_undefined (counters h !! c);
    let h := set_counters (<[c := n - 1]> (counters h)) (next_counter h) h in
    if n - 1 =? 0 then h ← delete_object p h; Done (delete_counter c h) else Done h
  end.

(** ** The pointer *)
Definition acquire (p pn : option nat) (h : Store) : outcome (shared_ptr * Store) :=
  '(pn, h) ← count_acquire p pn h; Done (mkPtr p pn, h).
Definition release (q : shared_ptr) (h : Store) : outcome Store := count_release (px q) (pn q) h.
Definition shared_ptr_null (x : nat) (h : Store) : outcome Store := Done (set_pointer x null h).
Definition hand (o : nat) (h : Store) : Store :=
  mkStore (pointers h) (counters h) (objects h) (deleted h) ({[o]} ∪ handed h) (next_counter h).
Definition shared_ptr_new (x o : nat) (h : Store) : outcome Store :=
  '(q, h) ← acquire (Some o) None (hand o h); Done (set_pointer x q h).
(** The constructor for the casts. *)
Definition shared_ptr_alias (x y : nat) (p : option nat) (h : Store) : outcome Store :=
  r ← pointer y h; '(q, h) ← acquire p (pn r) h; Done (set_pointer x q h).
Definition shared_ptr_copy (x y : nat) (h : Store) : outcome Store :=
  r ← pointer y h; '(q, h) ← acquire (px r) (pn r) h; Done (set_pointer x q h).
(** The argument is a copy, with which [x] is swapped, and which is destroyed. *)
Definition assign (x y : nat) (h : Store) : outcome Store :=
  r ← pointer y h; '(q, h) ← acquire (px r) (pn r) h;
  old ← pointer x h; release old (set_pointer x q h).
Definition destroy (x : nat) (h : Store) : outcome Store :=
  q ← pointer x h; h ← release q h; Done (set_pointers (delete x (pointers h)) h).
Definition reset (x : nat) (h : Store) : outcome Store :=
  q ← pointer x h; h ← release q h; Done (set_pointer x null h).
Definition reset_to (x o : nat) (h : Store) : outcome Store :=
  h ← reset x h; '(q, h) ← acquire (Some o) None (hand o h); Done (set_pointer x q h).
Definition swap (x y : nat) (h : Store) : outcome Store :=
  q ← pointer x h; r ← pointer y h; Done (set_pointer y q (set_pointer x r h)).
Definition use_count (x : nat) (h : Store) : outcome Z := q ← pointer x h; count_use_count (pn q) h.
Definition unique (x : nat) (h : Store) : outcome bool := n ← use_count x h; Done (n =? 1).
Definition operator_bool (x : nat) (h : Store) : outcome bool := n ← use_count x h; Done (0 <? n).
Definition get (x : nat) (h : Store) : outcome (option nat) := q ← pointer x h; Done (px q).
Definition static_pointer_cast (x y : nat) (h : Store) : outcome Store := p ← get y h; shared_ptr_alias x y p h.
(** [is_a]: whether the object is of the type. *)
Definition dynamic_pointer_cast (is_a : bool) (x y : nat) (h : Store) : outcome Store :=
  p ← get y h;
  match (if is_a : bool then p else None) with Some _ => shared_ptr_alias x y p h | None => shared_ptr_null x h end.

(** ** What programs do with them

    A call on a variable that does not exist, or for a new one at an address in use, is not made,
    nor is one that hands over an object that is gone or was handed over before. *)
Inductive call :=
  | CallNewObject (o : nat) | CallNull (x : nat) | CallNew (x o : nat) | CallCopy (x y : nat) | CallAssign (x y : nat)
  | CallDestroy (x : nat) | CallReset (x : nat) | CallResetTo (x o : nat) | CallSwap (x y : nat)
  | CallStaticCast (x y : nat) | CallDynamicCast (is_a : bool) (x y : nat).
Definition is_variable (x : nat) (h : Store) : bool := bool_decide (is_Some (pointers h !! x)).
Definition is_raw (o : nat) (h : Store) : bool := bool_decide ((o ∈ objects h) /\ (o ∉ handed h)).
Definition when (b : bool) (r : outcome Store) (h : Store) : outcome Store := if b then r else Done h.
Definition new_object (o : nat) (h : Store) : outcome Store :=
  Done (mkStore (pointers h) (counters h) ({[o]} ∪ objects h) (deleted h) (handed h) (next_counter h)).
Definition do_call (c : call) (h : Store) : outcome Store :=
  match c with
  | CallNewObject o => when (bool_decide ((o ∉ objects h) /\ (o ∉ handed h))) (new_object o h) h
  | CallNull x => when (negb (is_variable x h)) (shared_ptr_null x h) h
  | CallNew x o => when (negb (is_variable x h) && is_raw o h) (shared_ptr_new x o h) h
  | CallCopy x y => when (negb (is_variable x h) && is_variable y h) (shared_ptr_copy x y h) h
  | CallAssign x y => when (is_variable x h && is_variable y h) (assign x y h) h
  | CallDestroy x => when (is_variable x h) (destroy x h) h
  | CallReset x => when (is_variable x h) (reset x h) h
  | CallResetTo x o => when (is_variable x h && is_raw o h) (reset_to x o h) h
  | CallSwap x y => when (is_variable x h && is_variable y h) (swap x y h) h
  | CallStaticCast x y => when (negb (is_variable x h) && is_variable y h) (static_pointer_cast x y h) h
  | CallDynamicCast is_a x y => when (negb (is_variable x h) && is_variable y h) (dynamic_pointer_cast is_a x y h) h
  end.
Fixpoint do_calls (l : list call) (h : Store) : outcome Store :=
  match l with [] => Done h | c :: l => h ← do_call c h; do_calls l h end.
Definition Store_new : Store := mkStore ∅ ∅ ∅ [] ∅ 0.

(** ** The counters count *)
Definition values (h : Store) : list shared_ptr := (map_to_list (pointers h)).*2.
Definition users (c : nat) (L : list shared_ptr) : nat := length (filter (fun q => pn q = Some c) L).
(** The pointers there are, variables and temporaries, are those in [L]. *)
Record ok (L : list shared_ptr) (h : Store) : Prop := {
  ok_value : forall q, q ∈ L -> q = null \/ exists o c n, q = mkPtr (Some o) (Some c) /\ counters h !! c = Some n /\
    o ∈ objects h /\ o ∈ handed h;
  ok_pair : forall q r, q ∈ L -> r ∈ L -> (px q = px r <-> pn q = pn r);
  ok_count : forall c n, counters h !! c = Some n -> n = Z.of_nat (users c L) /\ 0 < n;
  ok_fresh : forall c, is_Some (counters h !! c) -> (c < next_counter h)%nat;
  ok_owned : forall o, o ∈ handed h -> o ∈ objects h -> exists q, q ∈ L /\ px q = Some o;
  ok_once : NoDup (deleted h);
  ok_gone : forall o, o ∈ deleted h -> (o ∉ objects h) /\ o ∈ handed h;
  ok_deleted : forall o, o ∈ handed h -> o ∉ objects h -> o ∈ deleted h }.
Lemma users_perm c L L' : L ≡ₚ L' -> users c L = users c L'.
Proof. intros H. unfold users. by rewrite H. Qed.
Lemma ok_perm L L' h : L ≡ₚ L' -> ok L h -> ok L' h.
Proof.
  intros HP [H1 H2 H3 H4 H5 H6 H7 H8]. split; try done.
  - intros q Hq. apply H1. by rewrite HP.
  - intros q r Hq Hr. apply H2; by rewrite HP.
  - intros c n Hc. rewrite <- (users_perm c L L' HP). auto.
  - intros o Ho Hl. destruct (H5 o Ho Hl) as (q & Hq & Hp). exists q. by rewrite <- HP.
Qed.
Lemma ok_same L h h' : counters h' = counters h -> objects h' = objects h -> deleted h' = deleted h -> handed h' = handed h ->
  next_counter h' = next_counter h -> ok L h -> ok L h'.
Proof. intros E1 E2 E3 E4 E5 [H1 H2 H3 H4 H5 H6 H7 H8]. split; rewrite ?E1, ?E2, ?E3, ?E4, ?E5; done. Qed.
Lemma users_cons c q L : users c (q :: L) = if decide (pn q = Some c) then S (users c L) else users c L.
Proof. unfold users. rewrite filter_cons. by case_decide. Qed.
Lemma users_null c L : (forall q, q ∈ L -> pn q <> Some c) -> users c L = 0%nat.
Proof.
  induction L as [|q L IH]; intros H; [done|]. rewrite users_cons, decide_False by (apply H; by left).
  apply IH. intros r Hr. apply H. by right.
Qed.
Lemma users_zero c L q : users c L = 0%nat -> q ∈ L -> pn q <> Some c.
Proof.
  induction L as [|r L IH]; intros H Hq; [by apply not_elem_of_nil in Hq|]. rewrite users_cons in H. case_decide as E; [done|].
  apply elem_of_cons in Hq as [->|Hq]; [done|by apply IH].
Qed.
(** A counter in use is there. *)
Lemma ok_counter L h q c : ok L h -> q ∈ L -> pn q = Some c -> exists n, counters h !! c = Some n.
Proof. intros Hok Hq Hp. destruct (ok_value L h Hok q Hq) as [->|(o & c' & n & -> & Hc & _)]; [done|]. injection Hp as ->. by exists n. Qed.

Lemma acquire_ok L h q : ok L h -> q ∈ L -> exists h', acquire (px q) (pn q) h = Done (q, h') /\ ok (q :: L) h' /\ pointers h' = pointers h.
Proof.
  intros Hok Hq. pose proof Hok as [H1 H2 H3 H4 H5 H6 H7 H8]. unfold acquire, count_acquire.
  destruct (H1 q Hq) as [->|(o & c & n & -> & Hc & Ho & Hh)]; cbn [px pn]; run.
  - exists h. split; [done|split; [|done]]. split; try done.
    + intros r [->|Hr]%elem_of_cons; [by left|auto].
    + intros r s Hr Hs. apply H2; (apply elem_of_cons in Hr as [->|Hr]; [|done]) || (apply elem_of_cons in Hs as [->|Hs]; [|done]); done.
    + intros o Ho Hl. destruct (H5 o Ho Hl) as (r & Hr & Hp). exists r. split; [by right|done].
  - rewrite Hc. run. eexists. split; [done|split; [|done]]. split; cbn -[users]; try done.
    + intros r Hr. assert (Hr' : r ∈ L) by (apply elem_of_cons in Hr as [->|Hr]; done).
      destruct (H1 r Hr') as [->|(o' & c' & n' & -> & Hc' & Ho' & Hh')]; [by left|right].
      destruct (decide (c' = c)) as [->|Hne]; [exists o', c, (n + 1)|exists o', c', n']; by rewrite ?lookup_insert_eq, ?lookup_insert_ne.
    + intros r s Hr Hs. apply H2; (apply elem_of_cons in Hr as [->|Hr]; [|done]) || (apply elem_of_cons in Hs as [->|Hs]; [|done]); done.
    + intros c' n' Hc'. rewrite users_cons. cbn [pn]. destruct (decide (c' = c)) as [->|Hne].
      * rewrite lookup_insert_eq in Hc'. injection Hc' as <-. rewrite decide_True by done. destruct (H3 c n Hc) as [-> ?]. lia.
      * rewrite lookup_insert_ne in Hc' by done. rewrite decide_False by (intros [= ->]; done). auto.
    + intros c' Hc'. destruct (decide (c' = c)) as [->|Hne]; [apply H4; by exists n|]. rewrite lookup_insert_ne in Hc' by done. auto.
    + intros o' Ho' Hl. destruct (H5 o' Ho' Hl) as (r & Hr & Hp). exists r. split; [by right|done].
Qed.
Lemma release_ok L h q : ok (q :: L) h -> exists h', release q h = Done h' /\ ok L h' /\ pointers h' = pointers h.
Proof.
  intros Hok. pose proof Hok as [H1 H2 H3 H4 H5 H6 H7 H8]. unfold release, count_release.
  assert (Hsub : forall r, r ∈ L -> r ∈ q :: L) by (intros r Hr; by right).
  destruct (H1 q) as [->|(o & c & n & -> & Hc & Ho & Hh)]; [by left| |]; cbn [px pn].
  - exists h. split; [done|split; [|done]]. split; try done; auto.
    + intros o Ho Hl. destruct (H5 o Ho Hl) as (r & [->|Hr]%elem_of_cons & Hp); [done|by exists r].
  - rewrite Hc. run. destruct (H3 c n Hc) as [Hn Hpos]. rewrite users_cons, decide_True in Hn by done.
    destruct (Z.eqb_spec (n - 1) 0) as [Hz|Hz].
    + assert (Hu : users c L = 0%nat) by lia. unfold delete_object, delete_counter. cbn [objects set_counters]. rewrite decide_True by done.
      run. eexists. split; [done|split; [|done]]. cbn.
      assert (Hother : forall r, r ∈ L -> px r <> Some o).
      { intros r Hr Hp. apply (users_zero c L r Hu Hr). apply (H2 r (mkPtr (Some o) (Some c))); [by right|by left|done]. }
      split; cbn -[users].
      * intros r Hr. destruct (H1 r (Hsub r Hr)) as [->|(o' & c' & n' & -> & Hc' & Ho' & Hh')]; [by left|right].
        assert (c' <> c) by (intros ->; by apply (users_zero c L _ Hu Hr)).
        assert (o' <> o) by (intros ->; by apply (Hother _ Hr)).
        exists o', c', n'. rewrite lookup_delete_ne, lookup_insert_ne by done. split_and!; try done. apply elem_of_difference.
        split; [done|]. by intros ?%elem_of_singleton.
      * auto.
      * intros c' n' Hc'. destruct (decide (c' = c)) as [->|Hne]; [by rewrite lookup_delete_eq in Hc'|].
        rewrite lookup_delete_ne, lookup_insert_ne in Hc' by done. specialize (H3 c' n' Hc').
        rewrite users_cons, decide_False in H3 by (intros [= ->]; done). done.
      * intros c' Hc'. destruct (decide (c' = c)) as [->|Hne]; [apply H4; by exists n|].
        rewrite lookup_delete_ne, lookup_insert_ne in Hc' by done. auto.
      * intros o' Ho' [Hl Hne]%elem_of_difference. destruct (H5 o' Ho' Hl) as (r & [->|Hr]%elem_of_cons & Hp); [|by exists r].
        injection Hp as ->. exfalso. apply Hne. by apply elem_of_singleton.
      * apply list.NoDup_app. split; [done|]. split; [|apply NoDup_singleton].
        intros o' Ho' ->%list_elem_of_singleton. by destruct (H7 o Ho').
      * intros o' [Hd| ->%list_elem_of_singleton]%elem_of_app; [destruct (H7 o' Hd); split; [|done]|split; [|done]].
        -- by intros [? _]%elem_of_difference.
        -- intros [_ Hx]%elem_of_difference. apply Hx. by apply elem_of_singleton.
      * intros o' Ho' Hl. apply elem_of_app. destruct (decide (o' = o)) as [->|Hne]; [right; by apply list_elem_of_singleton|left].
        apply H8; [done|]. intros Hin. apply Hl, elem_of_difference. split; [done|]. by intros ?%elem_of_singleton.
    + eexists. split; [done|split; [|done]]. assert (Hu : (0 < users c L)%nat) by lia.
      assert (Hex : exists r, r ∈ L /\ pn r = Some c).
      { unfold users in Hu. destruct (filter _ L) as [|r l] eqn:E; [cbn in Hu; lia|]. exists r.
        assert (Hr : r ∈ filter (fun q => pn q = Some c) L) by (rewrite E; by left). apply list_elem_of_filter in Hr as [? ?]. done. }
      split; cbn -[users]; try done; auto.
      * intros r Hr. destruct (H1 r (Hsub r Hr)) as [->|(o' & c' & n' & -> & Hc' & Ho' & Hh')]; [by left|right].
        destruct (decide (c' = c)) as [->|Hne]; [exists o', c, (n - 1)|exists o', c', n']; by rewrite ?lookup_insert_eq, ?lookup_insert_ne.
      * intros c' n' Hc'. destruct (decide (c' = c)) as [->|Hne].
        -- rewrite lookup_insert_eq in Hc'. injection Hc' as <-. lia.
        -- rewrite lookup_insert_ne in Hc' by done. specialize (H3 c' n' Hc'). rewrite users_cons, decide_False in H3 by (intros [= ->]; done). done.
      * intros c' Hc'. destruct (decide (c' = c)) as [->|Hne]; [apply H4; by exists n|]. rewrite lookup_insert_ne in Hc' by done. auto.
      * intros o' Ho' Hl. destruct (H5 o' Ho' Hl) as (r & [->|Hr]%elem_of_cons & Hp); [|by exists r]. injection Hp as ->.
        destruct Hex as (r & Hr & Hpn). exists r. split; [done|]. apply (H2 r (mkPtr (Some o') (Some c))); [by right|by left|done].
Qed.

(** *** Variables *)
Definition invariant (h : Store) : Prop := ok (values h) h.
Lemma values_at x q h : pointers h !! x = Some q -> exists rest, values h ≡ₚ q :: rest /\
  forall h', pointers h' = pointers h ->
    (forall r, values (set_pointer x r h') ≡ₚ r :: rest) /\ values (set_pointers (delete x (pointers h')) h') = rest.
Proof.
  intros Hx. exists ((map_to_list (delete x (pointers h))).*2). split.
  - unfold values. rewrite <- (insert_delete_id (pointers h) x q Hx) at 1. by rewrite map_to_list_insert by apply lookup_delete_eq.
  - intros h' E. unfold values, set_pointer. cbn [pointers set_pointers]. rewrite E. split; [|done]. intros r.
    rewrite <- insert_delete_eq. by rewrite map_to_list_insert by apply lookup_delete_eq.
Qed.
Lemma values_new x h r : pointers h !! x = None -> values (set_pointer x r h) ≡ₚ r :: values h.
Proof. intros Hx. unfold values, set_pointer. cbn [pointers set_pointers]. by rewrite map_to_list_insert. Qed.
Lemma value_of_variable x q h : pointers h !! x = Some q -> q ∈ values h.
Proof. intros Hx. destruct (values_at x q h Hx) as (rest & -> & _). by left. Qed.
Lemma variable_of_value q h : q ∈ values h -> exists x, pointers h !! x = Some q.
Proof. unfold values. intros ([x q'] & -> & Hx)%list_elem_of_fmap. exists x. by apply elem_of_map_to_list. Qed.
Lemma invariant_from L h h' m : ok L h -> h' = set_pointers m h -> values h' ≡ₚ L -> invariant h'.
Proof. intros Hok -> HP. apply (ok_perm L); [done|]. by apply (ok_same L h). Qed.
(** A new variable with a value, another value at a variable, and a variable less. *)
Lemma store_new L h x q : pointers h !! x = None -> L = values h -> ok (q :: L) h -> invariant (set_pointer x q h).
Proof. intros Hx -> Hok. apply (invariant_from _ h _ (<[x := q]> (pointers h)) Hok); [done|]. by apply values_new. Qed.

Lemma raw_value L h o : ok L h -> o ∉ handed h -> forall q, q ∈ L -> px q <> Some o.
Proof. intros Hok Ho q Hq. destruct (ok_value L h Hok q Hq) as [->|(o' & c & n & -> & _ & _ & Hh)]; [done|]. intros [= ->]. done. Qed.
Lemma acquire_new_ok L h o : ok L h -> o ∈ objects h -> o ∉ handed h ->
  exists q h', acquire (Some o) None (hand o h) = Done (q, h') /\ ok (q :: L) h' /\ pointers h' = pointers h.
Proof.
  intros Hok Ho Hh. pose proof Hok as [H1 H2 H3 H4 H5 H6 H7 H8]. unfold acquire, count_acquire. run. eexists _, _. split; [done|split; [|done]].
  set (c := next_counter h). assert (Hc : counters h !! c = None).
  { destruct (counters h !! c) as [n|] eqn:E; [|done]. pose proof (H4 c ltac:(by exists n)). subst c. lia. }
  assert (Hno : forall q, q ∈ L -> pn q <> Some c).
  { intros q Hq Hp. destruct (ok_counter L h q c Hok Hq Hp). congruence. }
  change (next_counter (hand o h)) with c. change (counters (hand o h)) with (counters h).
  split; cbn -[users].
  - intros q [->|Hq]%elem_of_cons.
    + right. exists o, c, 1. rewrite lookup_insert_eq. split_and!; try done. apply elem_of_union. left. by apply elem_of_singleton.
    + destruct (H1 q Hq) as [->|(o' & c' & n & -> & Hc' & Ho' & Hh')]; [by left|right]. exists o', c', n.
      rewrite lookup_insert_ne by congruence. split_and!; try done. by apply elem_of_union; right.
  - intros q r [->|Hq]%elem_of_cons [->|Hr]%elem_of_cons; cbn [px pn]; [done| | |by apply H2].
    + split; intros E; exfalso; [by apply (raw_value L h o Hok Hh r)|by apply (Hno r)].
    + split; intros E; exfalso; [by apply (raw_value L h o Hok Hh q)|by apply (Hno q)].
  - intros c' n Hc'. rewrite users_cons. cbn [pn]. destruct (decide (c' = c)) as [->|Hne].
    + rewrite lookup_insert_eq in Hc'. injection Hc' as <-. rewrite decide_True, users_null by done. lia.
    + rewrite lookup_insert_ne in Hc' by done. rewrite decide_False by congruence. auto.
  - intros c' Hc'. destruct (decide (c' = c)) as [->|Hne]; [lia|]. rewrite lookup_insert_ne in Hc' by done. specialize (H4 c' Hc'). lia.
  - intros o' [->%elem_of_singleton|Hh']%elem_of_union Hl; [by exists (mkPtr (Some o) (Some c)); split; [left|]|].
    destruct (H5 o' Hh' Hl) as (q & Hq & Hp). exists q. split; [by right|done].
  - done.
  - intros o' Hd. destruct (H7 o' Hd). split; [done|]. by apply elem_of_union; right.
  - intros o' [->%elem_of_singleton|Hh']%elem_of_union Hl; [done|auto].
Qed.
Definition fine (r : outcome Store) : Prop := exists h, r = Done h /\ invariant h.
Lemma fine_alias x y h r : invariant h -> pointers h !! x = None -> pointers h !! y = Some r ->
  fine ('(q, h) ← acquire (px r) (pn r) h; Done (set_pointer x q h)).
Proof.
  intros Hi Hx Hy. destruct (acquire_ok _ h r Hi (value_of_variable y r h Hy)) as (h' & -> & Hok & Hp). run.
  eexists. split; [done|]. apply (store_new (values h)); [by rewrite Hp|unfold values; by rewrite Hp|done].
Qed.
Lemma ok_null L h : ok L h -> ok (null :: L) h.
Proof.
  intros [H1 H2 H3 H4 H5 H6 H7 H8]. split; try done.
  - intros q [->|Hq]%elem_of_cons; [by left|auto].
  - intros q r [->|Hq]%elem_of_cons [->|Hr]%elem_of_cons; [done| | |by apply H2].
    + destruct (H1 r Hr) as [->|(o & c & n & -> & _)]; done.
    + destruct (H1 q Hq) as [->|(o & c & n & -> & _)]; done.
  - intros o Ho Hl. destruct (H5 o Ho Hl) as (q & Hq & Hp). exists q. split; [by right|done].
Qed.
Lemma fine_null x h : invariant h -> pointers h !! x = None -> fine (shared_ptr_null x h).
Proof. intros Hi Hx. eexists. split; [done|]. apply (store_new (values h)); [done|done|by apply ok_null]. Qed.
Lemma fine_release x h q : invariant h -> pointers h !! x = Some q ->
  exists h' rest, release q h = Done h' /\ ok rest h' /\ pointers h' = pointers h /\
    (forall r, values (set_pointer x r h') ≡ₚ r :: rest) /\ values (set_pointers (delete x (pointers h')) h') = rest.
Proof.
  intros Hi Hx. destruct (values_at x q h Hx) as (rest & HP & Hrest).
  destruct (release_ok rest h q (ok_perm _ _ _ HP Hi)) as (h' & E & Hok & Hp). exists h', rest.
  destruct (Hrest h' Hp) as [? ?]. done.
Qed.
Lemma fine_reset x h q : invariant h -> pointers h !! x = Some q -> fine (reset x h) /\
  forall h', reset x h = Done h' -> pointers h' = <[x := null]> (pointers h).
Proof.
  intros Hi Hx. destruct (fine_release x h q Hi Hx) as (h' & rest & E & Hok & Hp & Hset & _). unfold reset, pointer. rewrite Hx. run. rewrite E. run.
  split; [|intros h1 [= <-]; cbn; by rewrite Hp]. eexists. split; [done|].
  apply (invariant_from (null :: rest) h' _ (<[x := null]> (pointers h')) (ok_null _ _ Hok)); [done|apply Hset].
Qed.
Lemma handed_release q h h' : release q h = Done h' -> handed h' = handed h /\ (forall o, o ∉ handed h -> o ∈ objects h -> px q <> Some o -> o ∈ objects h').
Proof.
  unfold release, count_release, delete_object. destruct (pn q) as [c|]; [|by intros [= <-]]. destruct (counters h !! c) as [n|]; [|done]. run.
  destruct (n - 1 =? 0); [|by intros [= <-]]. destruct (px q) as [o|]; run; [|by intros [= <-]]. case_decide; run; [|done].
  intros [= <-]. split; [done|]. cbn. intros o' _ Ho Hne. apply elem_of_difference. split; [done|]. intros ->%elem_of_singleton. done.
Qed.
Lemma do_call_fine c h : invariant h -> fine (do_call c h).
Proof.
  intros Hi. assert (Hstay : fine (Done h)) by by exists h.
  assert (Hvar : forall x, is_variable x h = true -> exists q, pointers h !! x = Some q).
  { intros x Hx. unfold is_variable in Hx. apply bool_decide_eq_true in Hx as [q Hq]. by exists q. }
  assert (Hfree : forall x, negb (is_variable x h) = true -> pointers h !! x = None).
  { intros x Hx%negb_true_iff. unfold is_variable in Hx. apply bool_decide_eq_false in Hx. by apply eq_None_not_Some. }
  assert (Hraw : forall o, is_raw o h = true -> o ∈ objects h /\ o ∉ handed h).
  { intros o Ho. unfold is_raw in Ho. by apply bool_decide_eq_true in Ho. }
  destruct c as [o|x|x o|x y|x y|x|x|x o|x y|x y|is_a x y]; cbn [do_call]; unfold when;
    match goal with |- fine (if ?b then _ else _) => destruct b eqn:Eb; [|done] end;
    try (apply andb_prop in Eb as [E1 E2]).
  - apply bool_decide_eq_true in Eb as [Ho Hh]. eexists. split; [done|]. unfold invariant, values. cbn [pointers].
    destruct Hi as [H1 H2 H3 H4 H5 H6 H7 H8]. split; cbn -[users]; try done.
    + intros q Hq. destruct (H1 q Hq) as [->|(o' & c & n & -> & Hc & Ho' & Hh')]; [by left|right]. exists o', c, n. split_and!; try done.
      by apply elem_of_union; right.
    + intros o' Hh' [->%elem_of_singleton|Hl]%elem_of_union; [done|auto].
    + intros o' Hd. destruct (H7 o' Hd) as [Hn Hh']. split; [|done]. by intros [->%elem_of_singleton|?]%elem_of_union.
    + intros o' Hh' Hl. apply H8; [done|]. intros Hin. by apply Hl, elem_of_union; right.
  - apply fine_null; auto.
  - destruct (Hraw o E2) as [Ho Hh]. destruct (acquire_new_ok _ h o Hi Ho Hh) as (q & h' & E & Hok & Hp). unfold shared_ptr_new. rewrite E. run.
    eexists. split; [done|]. apply (store_new (values h)); [rewrite Hp; auto|unfold values; by rewrite Hp|done].
  - destruct (Hvar y E2) as [r Hr]. unfold shared_ptr_copy, pointer. rewrite Hr. run. apply (fine_alias x y); auto.
  - destruct (Hvar x E1) as [old Hx], (Hvar y E2) as [r Hr]. unfold assign, pointer. rewrite Hr. run.
    destruct (acquire_ok _ h r Hi (value_of_variable y r h Hr)) as (h' & -> & Hok & Hp). run. rewrite Hp, Hx. run.
    destruct (values_at x old h Hx) as (rest & HP & Hrest). destruct (Hrest h' Hp) as [Hset _].
    destruct (release_ok (r :: rest) (set_pointer x r h') old) as (h2 & E & Hok2 & Hp2).
    { apply (ok_perm (r :: values h)); [rewrite HP; apply perm_swap|]. by apply (ok_same _ h'). }
    rewrite E. eexists. split; [done|]. unfold invariant. apply (ok_perm (r :: rest)); [|done].
    unfold values. rewrite Hp2. symmetry. exact (Hset r).
  - destruct (Hvar x Eb) as [q Hx]. destruct (fine_release x h q Hi Hx) as (h' & rest & E & Hok & Hp & _ & Hdel).
    unfold destroy, pointer. rewrite Hx. run. rewrite E. run. eexists. split; [done|].
    apply (invariant_from rest h' _ (delete x (pointers h')) Hok); [done|by rewrite Hdel].
  - destruct (Hvar x Eb) as [q Hx]. by apply (fine_reset x h q).
  - destruct (Hvar x E1) as [q Hx], (Hraw o E2) as [Ho Hh]. destruct (fine_reset x h q Hi Hx) as [(h1 & E & Hi1) Hp1].
    unfold reset_to. rewrite E. run. specialize (Hp1 h1 E).
    assert (Hraw1 : o ∈ objects h1 /\ o ∉ handed h1).
    { unfold reset, pointer in E. rewrite Hx in E. cbn [lift_undefined mbind outcome_mbind outcome_bind] in E.
      destruct (release q h) as [h2| |] eqn:Er; try discriminate E. injection E as <-. destruct (handed_release q h h2 Er) as [Hh2 Ho2].
      cbn. rewrite Hh2. split; [|done]. apply Ho2; [done|done|]. by apply (raw_value _ h o Hi Hh), (value_of_variable x). }
    destruct Hraw1 as [Ho1 Hh1]. destruct (acquire_new_ok _ h1 o Hi1 Ho1 Hh1) as (r & h2 & -> & Hok & Hp2). run. eexists. split; [done|].
    assert (Hx1 : pointers h1 !! x = Some null) by (rewrite Hp1; apply lookup_insert_eq).
    destruct (values_at x null h1 Hx1) as (rest & HP & Hrest). destruct (Hrest h2 Hp2) as [Hset _].
    apply (invariant_from (r :: rest) h2 _ (<[x := r]> (pointers h2))); [|done|apply Hset].
    destruct (release_ok (r :: rest) h2 null) as (h3 & [= <-] & Hok3 & _); [|done].
    apply (ok_perm (r :: values h1)); [rewrite HP; apply perm_swap|done].
  - destruct (Hvar x E1) as [q Hx], (Hvar y E2) as [r Hy]. unfold swap, pointer. rewrite Hx, Hy. run. eexists. split; [done|].
    destruct (decide (x = y)) as [<-|Hne].
    + assert (q = r) as -> by congruence. apply (invariant_from (values h) h _ (<[x := r]> (<[x := r]> (pointers h))) Hi); [done|].
      unfold values, set_pointer. cbn [pointers set_pointers]. rewrite !(insert_id (pointers h)) by done. done.
    + apply (invariant_from (values h) h _ (<[y := q]> (<[x := r]> (pointers h))) Hi); [done|].
      destruct (values_at x q h Hx) as (rest & HP & Hrest). destruct (Hrest h eq_refl) as [Hset _].
      assert (Hy' : pointers (set_pointer x r h) !! y = Some r) by (cbn; by rewrite lookup_insert_ne).
      destruct (values_at y r (set_pointer x r h) Hy') as (rest' & HP' & Hrest'). destruct (Hrest' _ eq_refl) as [Hset' _].
      rewrite Hset', HP. rewrite Hset in HP'. by apply Permutation_cons_inv in HP' as <-.
  - destruct (Hvar y E2) as [r Hr]. unfold static_pointer_cast, get, shared_ptr_alias, pointer. rewrite !Hr. run. apply (fine_alias x y); auto.
  - destruct (Hvar y E2) as [r Hr]. unfold dynamic_pointer_cast, get, shared_ptr_alias, pointer. rewrite Hr. run.
    destruct is_a; [|apply fine_null; auto]. destruct (px r) as [o|] eqn:Epx; [|apply fine_null; auto].
    rewrite <- Epx. apply (fine_alias x y); auto.
Qed.
Lemma new_invariant : invariant Store_new.
Proof.
  assert (Hv : values Store_new = []) by (unfold values; cbn [pointers Store_new]; by rewrite map_to_list_empty).
  unfold invariant. rewrite Hv. split; cbn -[users].
  - intros q Hq. by apply not_elem_of_nil in Hq.
  - intros q r Hq. by apply not_elem_of_nil in Hq.
  - intros c n Hc. by rewrite lookup_empty in Hc.
  - intros c [n Hn]. by rewrite lookup_empty in Hn.
  - intros o Ho. by apply not_elem_of_empty in Ho.
  - constructor.
  - intros o Ho. by apply not_elem_of_nil in Ho.
  - intros o Ho. by apply not_elem_of_empty in Ho.
Qed.
Lemma do_calls_fine l : forall h, invariant h -> fine (do_calls l h).
Proof.
  induction l as [|c l IH]; intros h Hi; [by exists h|]. cbn [do_calls]. destruct (do_call_fine c h Hi) as (h' & -> & Hi'). run. by apply IH.
Qed.

(** The pointers to [o]. *)
Definition pointers_to (o : nat) (h : Store) : nat := length (filter (fun q => px q = Some o) (values h)).
Lemma users_are_pointers L h q o c : ok L h -> q ∈ L -> px q = Some o -> pn q = Some c ->
  forall L', (forall r, r ∈ L' -> r ∈ L) -> users c L' = length (filter (fun r => px r = Some o) L').
Proof.
  intros Hok Hq Hpx Hpn. induction L' as [|r L' IH]; intros Hsub; [done|]. rewrite users_cons, filter_cons.
  assert (Hr : px r = Some o <-> pn r = Some c) by (rewrite <- Hpx, <- Hpn; apply (ok_pair L h Hok); [apply Hsub; by left|done]).
  rewrite IH by (intros s Hs; apply Hsub; by right). repeat case_decide; tauto || done.
Qed.
Lemma use_count_pointers h x q o : invariant h -> pointers h !! x = Some q -> px q = Some o ->
  use_count x h = Done (Z.of_nat (pointers_to o h)).
Proof.
  intros Hi Hx Ho. pose proof (value_of_variable x q h Hx) as Hq. unfold use_count, pointer. rewrite Hx. run.
  destruct (ok_value _ h Hi q Hq) as [->|(o' & c & n & -> & Hc & _)]; [done|]. cbn [px] in Ho. injection Ho as ->.
  cbn [count_use_count pn]. rewrite Hc. cbn. f_equal. destruct (ok_count _ h Hi c n Hc) as [-> _]. f_equal.
  by apply (users_are_pointers (values h) h (mkPtr (Some o) (Some c)) o c).
Qed.
(** C36. Whatever a program of one thread does with shared pointers to objects that own no
    shared pointers themselves, with the constructor for casts used by the casts only (what it
    does otherwise, and what two threads do, is in the examples below): nothing that is gone is
    used, no object is deleted twice, an object that was handed to a pointer lives exactly as long as
    some pointer points to it, and [use_count] is the number of those. *)
Theorem objects_live_while_pointed_to calls :
  exists h, do_calls calls Store_new = Done h /\ NoDup (deleted h) /\
    (forall o, o ∈ handed h ->
      (o ∈ objects h <-> exists x q, pointers h !! x = Some q /\ px q = Some o) /\ (o ∈ objects h <-> o ∉ deleted h)) /\
    (forall x q o, pointers h !! x = Some q -> px q = Some o -> use_count x h = Done (Z.of_nat (pointers_to o h))).
Proof.
  destruct (do_calls_fine calls Store_new new_invariant) as (h & E & Hi). exists h. split; [done|]. split; [apply Hi|].
  split; [|intros x q o; by apply use_count_pointers]. intros o Ho. split; split.
  - intros Hl. destruct (ok_owned _ h Hi o Ho Hl) as (q & Hq & Hp). destruct (variable_of_value q h Hq) as (x & Hx). by exists x, q.
  - intros (x & q & Hx & Hp). destruct (ok_value _ h Hi q (value_of_variable x q h Hx)) as [->|(o' & c & n & -> & _ & Hl & _)]; [done|].
    by injection Hp as ->.
  - intros Hl Hd. by destruct (ok_gone _ h Hi o Hd).
  - intros Hd. destruct (decide (o ∈ objects h)) as [|Hn]; [done|]. by destruct (Hd (ok_deleted _ h Hi o Ho Hn)).
Qed.

(** ** Examples *)
(** The constructor for casts with a null pointer shares a counter it does not count in. *)
Example null_alias_steals :
  (h ← do_calls [CallNewObject 7; CallNew 1 7] Store_new; h ← shared_ptr_alias 2 1 None h; do_calls [CallDestroy 2; CallDestroy 1] h) = Undefined.
Proof. vm_compute. reflexivity. Qed.

(** *** Two threads

    The counter is a plain [long]: [--( *pn)] loads and stores, and the test loads again.
    Each of two threads lets go of the last but one and the last pointer to an object. *)
Record Race := mkRace { counter : Z; loaded : Z * Z; place : nat * nat; deletions : nat }.
Definition thread_step (second : bool) (r : Race) : Race :=
  let at_ := if second then (place r).2 else (place r).1 in
  let next := fun p => if second then ((place r).1, S p) else (S p, (place r).2) in
  match at_ with
  | 0%nat => mkRace (counter r) (if second then ((loaded r).1, counter r) else (counter r, (loaded r).2)) (next 0%nat) (deletions r)
  | 1%nat => mkRace ((if second then (loaded r).2 else (loaded r).1) - 1) (loaded r) (next 1%nat) (deletions r)
  | 2%nat => mkRace (counter r) (loaded r) (next 2%nat) (if counter r =? 0 then S (deletions r) else deletions r)
  | _ => r
  end.
Definition run_threads (schedule : list bool) : nat := deletions (foldl (fun r b => thread_step b r) (mkRace 2 (0, 0) (0, 0)%nat 0) schedule).
Example lost_or_twice :
  run_threads [false; false; false; true; true; true] = 1%nat /\
  run_threads [false; true; false; true; false; true] = 0%nat /\
  run_threads [false; false; true; true; false; true] = 2%nat.
Proof. vm_compute. done. Qed.
