(* ===== verification/Scoped.v ===== *)
(** * base/scoped_ptr.h, base/scoped_ref_ptr.h: owning pointers

    [scoped_ptr], of which [scoped_array] and [scoped_ptr_malloc] differ in how they delete, owns its object
    alone; [scoped_refptr] shares an object that counts its references itself.  Pointers are variables, objects
    addresses; deleting or counting at an address where no object lives is undefined. *)
From stdpp Require Import gmap.
From S2P Require Import Prelude.

(** ** scoped_ptr *)
(** [pointers]: the variables there are; [taken]: the addresses of all objects so far. *)
Record Heap := mkHeap { pointers : gmap nat (option nat); objects : gset nat; deleted : list nat; taken : gset nat }.
Definition set_ptr (x : nat) (p : option nat) (h : Heap) : Heap := mkHeap (<[x := p]> (pointers h)) (objects h) (deleted h) (taken h).
Definition ptr (x : nat) (h : Heap) : outcome (option nat) := lift_undefined (pointers h !! x).
Definition delete_object (p : option nat) (h : Heap) : outcome Heap :=
  match p with
  | None => Done h
  | Some o => if decide (o ∈ objects h) then Done (mkHeap (pointers h) (objects h ∖ {[o]}) (deleted h ++ [o]) (taken h)) else Undefined
  end.
Definition scoped_ptr_new (x : nat) (p : option nat) (h : Heap) : outcome Heap := Done (set_ptr x p h).
Definition destroy (x : nat) (h : Heap) : outcome Heap :=
  p ← ptr x h; h ← delete_object p h; Done (mkHeap (delete x (pointers h)) (objects h) (deleted h) (taken h)).
Definition reset (x : nat) (p : option nat) (h : Heap) : outcome Heap :=
  obj ← ptr x h; if decide (obj = p) then Done h else delete_object obj (set_ptr x p h).
Definition swap (x y : nat) (h : Heap) : outcome Heap := p ← ptr x h; q ← ptr y h; Done (set_ptr x q (set_ptr y p h)).
Definition release (x : nat) (h : Heap) : outcome (option nat * Heap) := tmp ← ptr x h; Done (tmp, set_ptr x None h).
(** [accept], and what is stored through the address it gives. *)
Definition accept (x : nat) (p : option nat) (h : Heap) : outcome Heap :=
  q ← ptr x h; h ← (match q with Some _ => h ← delete_object q h; Done (set_ptr x None h) | None => Done h end); Done (set_ptr x p h).
Definition use (x : nat) (p : option nat) (h : Heap) : outcome Heap := _ ← ptr x h; Done (set_ptr x p h).

(** A pointer is given objects that live and that no pointer has. *)
Inductive call :=
  | CallNewObject (o : nat) | CallNew (x : nat) (p : option nat) | CallDestroy (x : nat) | CallReset (x : nat) (p : option nat) | CallSwap (x y : nat)
  | CallRelease (x : nat) | CallAccept (x : nat) (p : option nat) | CallUse (x : nat) (p : option nat).
Definition is_variable (x : nat) (h : Heap) : bool := bool_decide (is_Some (pointers h !! x)).
Definition is_raw (p : option nat) (h : Heap) : bool :=
  match p with None => true | Some o => bool_decide (o ∈ objects h) && bool_decide (map_Forall (fun _ q => q <> Some o) (pointers h)) end.
Definition legal (c : call) (h : Heap) : bool :=
  match c with
  | CallNewObject o => bool_decide (o ∉ taken h)
  | CallNew x p => negb (is_variable x h) && is_raw p h
  | CallDestroy x | CallRelease x => is_variable x h
  | CallReset x p => is_variable x h && (bool_decide (pointers h !! x = Some p) || is_raw p h)
  | CallSwap x y => is_variable x h && is_variable y h
  | CallAccept x p | CallUse x p => is_variable x h && is_raw p h
  end.
Definition do_call (c : call) (h : Heap) : outcome Heap :=
  match c with
  | CallNewObject o => Done (mkHeap (pointers h) ({[o]} ∪ objects h) (deleted h) ({[o]} ∪ taken h))
  | CallNew x p => scoped_ptr_new x p h
  | CallDestroy x => destroy x h
  | CallReset x p => reset x p h
  | CallSwap x y => swap x y h
  | CallRelease x => '(_, h) ← release x h; Done h
  | CallAccept x p => accept x p h
  | CallUse x p => use x p h
  end.
Fixpoint do_calls (l : list call) (h : Heap) : outcome Heap :=
  match l with [] => Done h | c :: l => if legal c h then h ← do_call c h; do_calls l h else do_calls l h end.
Definition Heap_new : Heap := mkHeap ∅ ∅ [] ∅.

(** A pointer's object lives and is its alone, and what is deleted does not come back. *)
Record owns (m : gmap nat (option nat)) (h : Heap) : Prop := {
  owns_live : forall x o, m !! x = Some (Some o) -> o ∈ objects h;
  owns_alone : forall x y o, m !! x = Some (Some o) -> m !! y = Some (Some o) -> x = y;
  owns_taken : objects h ⊆ taken h;
  owns_once : NoDup (deleted h);
  owns_gone : forall o, o ∈ deleted h -> (o ∉ objects h) /\ o ∈ taken h }.
Lemma ptr_set x p h y : pointers (set_ptr x p h) !! y = if decide (y = x) then Some p else pointers h !! y.
Proof. cbn. case_decide; [subst; apply lookup_insert_eq|by apply lookup_insert_ne]. Qed.
(** Deleting what no pointer in [m] has. *)
Lemma delete_object_owns m p h : owns m h -> (forall o, p = Some o -> o ∈ objects h) -> (forall x, m !! x <> Some p \/ p = None) ->
  exists h', delete_object p h = Done h' /\ owns m h' /\ pointers h' = pointers h.
Proof.
  intros [H1 H2 H3 H4 H5] Hp Hm. destruct p as [o|]; [|by exists h]. cbn. rewrite decide_True by (by apply Hp). eexists. split; [done|]. split; [|done]. split; cbn.
  - intros x o' Hx. apply elem_of_difference. split; [by eapply H1|]. intros ->%elem_of_singleton. by destruct (Hm x).
  - done.
  - set_solver.
  - apply list.NoDup_app. split; [done|]. split; [|apply NoDup_singleton]. intros o' Ho' ->%list_elem_of_singleton. destruct (H5 o Ho'). by specialize (Hp o eq_refl).
  - intros o' [Hd| ->%list_elem_of_singleton]%elem_of_app; [destruct (H5 o' Hd); split; [|done]|split; [|set_solver]]; set_solver.
Qed.
Lemma owns_weaken m m' h : owns m h -> (forall x o, m' !! x = Some (Some o) -> m !! x = Some (Some o)) -> owns m' h.
Proof. intros [H1 H2 H3 H4 H5] Hm. split; eauto. Qed.
Lemma owns_insert m x p h : owns m h -> (forall o, p = Some o -> o ∈ objects h /\ forall y, y <> x -> m !! y <> Some (Some o)) -> owns (<[x := p]> m) h.
Proof.
  intros [H1 H2 H3 H4 H5] Hp. split; try done.
  - intros y o [[<- ->]|[Hn Hy]]%lookup_insert_Some; [by apply Hp|eauto].
  - intros y z o [[<- ->]|[Hn Hy]]%lookup_insert_Some [[<- E]|[Hn' Hz]]%lookup_insert_Some; [done|exfalso|exfalso|eauto].
    + by apply (proj2 (Hp o eq_refl) z); [congruence|].
    + subst p. by apply (proj2 (Hp o eq_refl) y); [congruence|].
Qed.
Lemma is_raw_spec p h : is_raw p h = true -> forall o, p = Some o -> o ∈ objects h /\ forall y, pointers h !! y <> Some (Some o).
Proof.
  intros Hr o ->. apply andb_prop in Hr as [H1%bool_decide_eq_true H2%bool_decide_eq_true]. split; [done|]. intros y Hy. by apply (H2 y (Some o) Hy).
Qed.
Lemma is_variable_spec x h : is_variable x h = true -> exists p, pointers h !! x = Some p.
Proof. by intros [p Hp]%bool_decide_eq_true; exists p. Qed.
Definition ok (h : Heap) : Prop := owns (pointers h) h.
(** The object a pointer has is no other's. *)
Lemma held_elsewhere x p h : ok h -> pointers h !! x = Some p -> forall y, delete x (pointers h) !! y <> Some p \/ p = None.
Proof.
  intros [_ H2 _ _ _] Hx y. destruct p as [o|]; [left|by right]. intros [Hn Hy]%lookup_delete_Some. by apply Hn, (H2 x y o).
Qed.
Lemma delete_held x p h m : ok h -> pointers h !! x = Some p -> (forall y o, m !! y = Some (Some o) -> delete x (pointers h) !! y = Some (Some o)) ->
  exists h', delete_object p h = Done h' /\ owns m h' /\ pointers h' = pointers h /\ (forall o, p <> Some o -> o ∈ objects h -> o ∈ objects h').
Proof.
  intros Hok Hx Hm. destruct (delete_object_owns (delete x (pointers h)) p h) as (h' & E & Ho & Hp).
  - apply (owns_weaken (pointers h)); [done|]. by intros y o [_ ?]%lookup_delete_Some.
  - intros o ->. by apply (owns_live _ _ Hok x).
  - by apply held_elsewhere.
  - exists h'. split; [done|]. split; [by apply (owns_weaken _ _ _ Ho)|]. split; [done|]. intros o Hne Hin. destruct p as [o'|]; cbn in E; [|by injection E as <-].
    case_decide; [|done]. injection E as <-. cbn. apply elem_of_difference. split; [done|]. by intros ->%elem_of_singleton.
Qed.
Lemma set_ptr_delete_object x p q h : delete_object q (set_ptr x p h) = (h ← delete_object q h; Done (set_ptr x p h)).
Proof. destruct q as [o|]; [|done]. cbn. by case_decide. Qed.
Lemma replace_ok x p q h : ok h -> pointers h !! x = Some q -> p <> q -> is_raw p h = true ->
  exists h', (h ← delete_object q h; Done (set_ptr x p h)) = Done h' /\ ok h'.
Proof.
  intros Hok Hx Hne Hr. destruct (delete_held x q h (delete x (pointers h)) Hok Hx) as (h' & -> & Ho & Hp & Hin); [done|]. run. eexists. split; [done|].
  unfold ok. cbn. rewrite Hp, <- insert_delete_eq. pose proof (is_raw_spec p h Hr) as Hs. apply (owns_insert _ x p).
  - destruct Ho as [H1 H2 H3 H4 H5]. by split.
  - intros o ->. destruct (Hs o eq_refl) as [H1 H2]. split; [cbn; apply Hin; [congruence|done]|]. intros y _ [_ Hy]%lookup_delete_Some. by apply (H2 y).
Qed.
Lemma clear_ok x q h : ok h -> pointers h !! x = Some q -> exists h', (h ← delete_object q h; Done (set_ptr x None h)) = Done h' /\ ok h' /\
  (forall p, is_raw p h = true -> q <> p -> is_raw p h' = true).
Proof.
  intros Hok Hx. destruct (delete_held x q h (delete x (pointers h)) Hok Hx) as (h' & -> & Ho & Hp & Hin); [done|]. run. eexists. split; [done|]. split.
  - unfold ok. cbn. rewrite Hp, <- insert_delete_eq. apply owns_insert; [by destruct Ho; split|done].
  - intros [o|] Hr Hne; [|done]. destruct (is_raw_spec _ _ Hr o eq_refl) as [H1 H2]. unfold is_raw. cbn. rewrite !bool_decide_eq_true_2; [done| |by apply Hin].
    rewrite Hp. intros y p' [[<- <-]|[Hn Hy]]%lookup_insert_Some; [done|]. intros ->. by apply (H2 y).
Qed.
Lemma take_raw_ok x p h : ok h -> is_raw p h = true -> ok (set_ptr x p h).
Proof.
  intros Hok Hr. apply (owns_insert _ x p) in Hok; [by destruct Hok; split|]. intros o ->. destruct (is_raw_spec _ _ Hr o eq_refl) as [H1 H2]. auto.
Qed.
Lemma swap_ok x y p q h : ok h -> pointers h !! x = Some p -> pointers h !! y = Some q -> ok (set_ptr x q (set_ptr y p h)).
Proof.
  intros [H1 H2 H3 H4 H5] Hx Hy. set (f := fun z => if decide (z = x) then y else if decide (z = y) then x else z).
  assert (Hf : forall z, pointers (set_ptr x q (set_ptr y p h)) !! z = pointers h !! f z).
  { intros z. rewrite !ptr_set. subst f. cbn. repeat case_decide; congruence. }
  assert (Hinj : forall z w, f z = f w -> z = w) by (intros z w; subst f; cbn; repeat case_decide; congruence).
  split; try done.
  - intros z o Hz. rewrite Hf in Hz. by eapply H1.
  - intros z w o Hz Hw. rewrite Hf in Hz, Hw. eauto.
Qed.
Lemma do_call_scoped c h : ok h -> legal c h = true -> exists h', do_call c h = Done h' /\ ok h'.
Proof.
  intros Hok Hl. destruct c as [o|x p|x|x p|x y|x|x p|x p]; cbn [legal do_call] in *.
  - apply bool_decide_eq_true in Hl. eexists. split; [done|]. destruct Hok as [H1 H2 H3 H4 H5]. split; cbn; try done.
    + intros x o' Hx. apply elem_of_union. right. by eapply H1.
    + set_solver.
    + intros o' Ho'. destruct (H5 o' Ho'). split; [|set_solver]. intros [->%elem_of_singleton|?]%elem_of_union; [set_solver|done].
  - apply andb_prop in Hl as [_ Hr]. eexists. split; [done|]. by apply take_raw_ok.
  - apply is_variable_spec in Hl as [p Hx]. unfold destroy, ptr. rewrite Hx. run.
    destruct (delete_held x p h (delete x (pointers h)) Hok Hx) as (h' & -> & Ho & Hp & _); [done|]. run. eexists. split; [done|]. unfold ok. cbn. rewrite Hp. by destruct Ho; split.
  - apply andb_prop in Hl as [[q Hx]%is_variable_spec Hr]. unfold reset, ptr. rewrite Hx. run. destruct (decide (q = p)) as [->|Hne]; [by exists h|].
    rewrite set_ptr_delete_object. apply (replace_ok x p q); [done|done|congruence|]. apply orb_prop in Hr as [Hr|Hr]; [|done]. apply bool_decide_eq_true in Hr. congruence.
  - apply andb_prop in Hl as [[p Hx]%is_variable_spec [q Hy]%is_variable_spec]. unfold swap, ptr. rewrite Hx, Hy. run. eexists. split; [done|]. by apply (swap_ok x y p q).
  - apply is_variable_spec in Hl as [p Hx]. unfold release, ptr. rewrite Hx. run. eexists. split; [done|]. apply (owns_insert _ x None) in Hok; [by destruct Hok; split|done].
  - apply andb_prop in Hl as [[q Hx]%is_variable_spec Hr]. unfold accept, ptr. rewrite Hx. run. destruct q as [o|]; run; [|eexists; split; [done|by apply take_raw_ok]].
    destruct (clear_ok x (Some o) h Hok Hx) as (h' & -> & Hok' & Hr'). run. eexists. split; [done|]. apply take_raw_ok; [done|]. apply Hr'; [done|].
    intros <-. by apply (proj2 (is_raw_spec _ _ Hr o eq_refl) x).
  - apply andb_prop in Hl as [[q Hx]%is_variable_spec Hr]. unfold use, ptr. rewrite Hx. run. eexists. split; [done|]. by apply take_raw_ok.
Qed.
Lemma do_calls_scoped l : forall h, ok h -> exists h', do_calls l h = Done h' /\ ok h'.
Proof.
  induction l as [|c l IH]; intros h Hok; [by exists h|]. cbn. destruct (legal c h) eqn:El; [|by apply IH].
  destruct (do_call_scoped c h Hok El) as (h1 & -> & Hok1). run. by apply IH.
Qed.
(** Whatever programs do with scoped pointers: nothing gone is deleted, nothing twice, and every pointer's object lives
    and is no other pointer's. *)
Theorem scoped_pointers_own l : exists h, do_calls l Heap_new = Done h /\ NoDup (deleted h) /\
  (forall x o, pointers h !! x = Some (Some o) -> (o ∈ objects h) /\ forall y, pointers h !! y = Some (Some o) -> y = x).
Proof.
  destruct (do_calls_scoped l Heap_new) as (h & E & [H1 H2 H3 H4 H5]).
  - split; cbn; first [done|apply NoDup_nil_2|by intros o ?%not_elem_of_nil|by intros x o; rewrite lookup_empty|by intros x y o; rewrite lookup_empty].
  - exists h. split; [done|]. split; [done|]. intros x o Hx. split; [by eapply H1|]. intros y Hy. by eapply H2.
Qed.
(** What is stored through the address [use] gives takes the place of an object that nobody deletes then. *)
Example use_forgets : exists h, do_calls [CallNewObject 1; CallNewObject 2; CallNew 7 (Some 1%nat); CallUse 7 (Some 2%nat); CallDestroy 7] Heap_new = Done h /\
  deleted h = [2%nat] /\ (1%nat ∈ objects h).
Proof. eexists. split; [vm_compute; reflexivity|]. split; [reflexivity|]. vm_compute. done. Qed.

(** ** scoped_refptr

    [counts]: the count of each object that lives.  [outside]: the references that code holds without a [scoped_refptr], one entry each. *)
Record Counted := mkCounted { refptrs : gmap nat (option nat); counts : gmap nat Z; outside : list nat; used : gset nat }.
Definition set_refptr (x : nat) (p : option nat) (h : Counted) : Counted := mkCounted (<[x := p]> (refptrs h)) (counts h) (outside h) (used h).
Definition set_counts (m : gmap nat Z) (h : Counted) : Counted := mkCounted (refptrs h) m (outside h) (used h).
Definition set_outside (l : list nat) (h : Counted) : Counted := mkCounted (refptrs h) (counts h) l (used h).
Definition refptr (x : nat) (h : Counted) : outcome (option nat) := lift_undefined (refptrs h !! x).
(** [if (ptr_) ptr_->AddRef()] and [if (ptr_) ptr_->Release()], which deletes the object that has no reference left. *)
Definition AddRef (p : option nat) (h : Counted) : outcome Counted :=
  match p with None => Done h | Some o => n ← lift_undefined (counts h !! o); Done (set_counts (<[o := n + 1]> (counts h)) h) end.
Definition Release (p : option nat) (h : Counted) : outcome Counted :=
  match p with
  | None => Done h
  | Some o => n ← lift_undefined (counts h !! o); Done (set_counts (if n - 1 =? 0 then delete o (counts h) else <[o := n - 1]> (counts h)) h)
  end.
Definition scoped_refptr_null (x : nat) (h : Counted) : outcome Counted := Done (set_refptr x None h).
Definition scoped_refptr_new (x : nat) (p : option nat) (h : Counted) : outcome Counted := h ← AddRef p h; Done (set_refptr x p h).
Definition scoped_refptr_copy (x y : nat) (h : Counted) : outcome Counted := p ← refptr y h; scoped_refptr_new x p h.
Definition scoped_refptr_delete (x : nat) (h : Counted) : outcome Counted :=
  p ← refptr x h; h ← Release p h; Done (mkCounted (delete x (refptrs h)) (counts h) (outside h) (used h)).
(** The caller has the reference then. *)
Definition scoped_refptr_release (x : nat) (h : Counted) : outcome Counted :=
  p ← refptr x h; Done (set_outside (match p with Some o => [o] | None => [] end ++ outside h) (set_refptr x None h)).
Definition assign_raw (x : nat) (p : option nat) (h : Counted) : outcome Counted :=
  h ← AddRef p h; q ← refptr x h; h ← Release q h; Done (set_refptr x p h).
Definition assign (x y : nat) (h : Counted) : outcome Counted := p ← refptr y h; assign_raw x p h.
Definition swap_raw (x : nat) (pp : option nat) (h : Counted) : outcome (option nat * Counted) := p ← refptr x h; Done (p, set_refptr x pp h).
Definition swap_refptr (x y : nat) (h : Counted) : outcome Counted := q ← refptr y h; '(p, h) ← swap_raw x q h; Done (set_refptr y p h).
Inductive ref_call :=
  | RefNewObject (o : nat) | RefNull (x : nat) | RefNew (x o : nat) | RefCopy (x y : nat) | RefDelete (x : nat) | RefRelease (x : nat)
  | RefAssign (x y : nat) | RefAssignRaw (x : nat) (p : option nat) | RefSwap (x y : nat) | RefAddRef (o : nat) | RefDrop (o : nat).
(** Code uses an object while it has a reference to it, or before it has had one. *)
Definition is_refptr (x : nat) (h : Counted) : bool := bool_decide (is_Some (refptrs h !! x)).
Definition lives (o : nat) (h : Counted) : bool := bool_decide (is_Some (counts h !! o)).
Definition ref_legal (c : ref_call) (h : Counted) : bool :=
  match c with
  | RefNewObject o => bool_decide (o ∉ used h)
  | RefNull x => negb (is_refptr x h)
  | RefNew x o => negb (is_refptr x h) && lives o h
  | RefCopy x y => negb (is_refptr x h) && is_refptr y h
  | RefDelete x | RefRelease x => is_refptr x h
  | RefAssign x y | RefSwap x y => is_refptr x h && is_refptr y h
  | RefAssignRaw x p => is_refptr x h && match p with Some o => lives o h | None => true end
  | RefAddRef o => lives o h
  | RefDrop o => bool_decide (o ∈ outside h)
  end.
Fixpoint remove_one (o : nat) (l : list nat) : list nat := match l with [] => [] | x :: l => if (x =? o)%nat then l else x :: remove_one o l end.
Definition ref_do (c : ref_call) (h : Counted) : outcome Counted :=
  match c with
  | RefNewObject o => Done (mkCounted (refptrs h) (<[o := 0]> (counts h)) (outside h) ({[o]} ∪ used h))
  | RefNull x => scoped_refptr_null x h
  | RefNew x o => scoped_refptr_new x (Some o) h
  | RefCopy x y => scoped_refptr_copy x y h
  | RefDelete x => scoped_refptr_delete x h
  | RefRelease x => scoped_refptr_release x h
  | RefAssign x y => assign x y h
  | RefAssignRaw x p => assign_raw x p h
  | RefSwap x y => swap_refptr x y h
  | RefAddRef o => h ← AddRef (Some o) h; Done (set_outside (o :: outside h) h)
  | RefDrop o => h ← Release (Some o) h; Done (set_outside (remove_one o (outside h)) h)
  end.
Fixpoint ref_run (l : list ref_call) (h : Counted) : outcome Counted :=
  match l with [] => Done h | c :: l => if ref_legal c h then h ← ref_do c h; ref_run l h else ref_run l h end.
Definition Counted_new : Counted := mkCounted ∅ ∅ [] ∅.

(** *** The counts count *)
Definition is_to (o : nat) (p : option nat) : nat := if decide (p = Some o) then 1 else 0.
Definition refs_to (o : nat) (L : list (option nat)) : nat := length (filter (fun p => p = Some o) L).
(** All references: those in [L]. *)
Record counted (L : list (option nat)) (h : Counted) : Prop := {
  counted_n : forall o n, counts h !! o = Some n -> n = Z.of_nat (refs_to o L);
  counted_live : forall o, Some o ∈ L -> is_Some (counts h !! o);
  counted_used : forall o, is_Some (counts h !! o) -> o ∈ used h }.
Definition refs (h : Counted) : list (option nat) := (map_to_list (refptrs h)).*2 ++ map Some (outside h).
Lemma refs_to_cons o p L : refs_to o (p :: L) = (is_to o p + refs_to o L)%nat.
Proof. unfold refs_to, is_to. rewrite filter_cons. by case_decide. Qed.
Lemma refs_to_zero o L : refs_to o L = 0%nat -> Some o ∉ L.
Proof.
  induction L as [|p L IH]; [by intros _ ?%not_elem_of_nil|]. rewrite refs_to_cons. unfold is_to. case_decide; [lia|]. intros Hz [E|Hin]%elem_of_cons; [congruence|].
  by apply IH; [lia|].
Qed.
Lemma counted_perm L L' h : L ≡ₚ L' -> counted L h -> counted L' h.
Proof.
  intros HP [H1 H2 H3]. split; [|intros o; rewrite <- HP; apply H2|done]. intros o n Hn. rewrite (H1 o n Hn). unfold refs_to. by rewrite HP.
Qed.
Lemma AddRef_ok L p h : counted L h -> (forall o, p = Some o -> is_Some (counts h !! o)) ->
  exists h', AddRef p h = Done h' /\ counted (p :: L) h' /\ refptrs h' = refptrs h /\ outside h' = outside h.
Proof.
  intros [H1 H2 H3] Hp. destruct p as [o|].
  - destruct (Hp o eq_refl) as [n Hn]. unfold AddRef. rewrite Hn. run. eexists. split; [done|]. split; [|done]. split; cbn -[refs_to].
    + intros o' n' [[<- <-]|[Hne Ho']]%lookup_insert_Some; rewrite refs_to_cons; unfold is_to; case_decide; try congruence.
      * rewrite (H1 o n Hn). lia.
      * by apply H1.
    + intros o' [E|Ho']%elem_of_cons; [injection E as ->; rewrite lookup_insert_eq; by eexists|]. destruct (decide (o' = o)) as [->|Hne]; [rewrite lookup_insert_eq; by eexists|].
      rewrite lookup_insert_ne by done. by apply H2.
    + intros o' Ho'. destruct (decide (o' = o)) as [->|Hne]; [apply H3; by eexists|]. rewrite lookup_insert_ne in Ho' by done. by apply H3.
  - exists h. split; [done|]. split; [|done]. split; [|intros o [?|?]%elem_of_cons; [done|by apply H2]|done]. intros o n Hn. rewrite refs_to_cons. by apply H1.
Qed.
Lemma Release_ok L p h : counted (p :: L) h -> exists h', Release p h = Done h' /\ counted L h' /\ refptrs h' = refptrs h /\ outside h' = outside h.
Proof.
  intros [H1 H2 H3]. destruct p as [o|].
  - destruct (H2 o) as [n Hn]; [by left|]. unfold Release. rewrite Hn. run. eexists. split; [done|]. split; [|done].
    pose proof (H1 o n Hn) as En. rewrite refs_to_cons in En. unfold is_to in En. rewrite decide_True in En by done.
    assert (Hother : forall o' n', o' <> o -> counts h !! o' = Some n' -> n' = Z.of_nat (refs_to o' L)).
    { intros o' n' Hne Ho'. rewrite (H1 o' n' Ho'), refs_to_cons. unfold is_to. by rewrite decide_False by congruence. }
    destruct (Z.eqb_spec (n - 1) 0) as [Ez|Ez]; split; cbn -[refs_to].
    + intros o' n' [Hne Ho']%lookup_delete_Some. by apply Hother.
    + intros o' Ho'. destruct (decide (o' = o)) as [->|Hne]; [exfalso; by apply (refs_to_zero o L); [lia|]|]. rewrite lookup_delete_ne by done. apply H2. by right.
    + intros o' [n' [Hne Ho']%lookup_delete_Some]. apply H3. by eexists.
    + intros o' n' [[<- <-]|[Hne Ho']]%lookup_insert_Some; [lia|by apply Hother].
    + intros o' Ho'. destruct (decide (o' = o)) as [->|Hne]; [rewrite lookup_insert_eq; by eexists|]. rewrite lookup_insert_ne by done. apply H2. by right.
    + intros o' Ho'. destruct (decide (o' = o)) as [->|Hne]; [apply H3; by eexists|]. rewrite lookup_insert_ne in Ho' by done. by apply H3.
  - exists h. split; [done|]. split; [|done]. split; [|intros o ?; apply H2; by right|done]. intros o n Hn. by rewrite (H1 o n Hn), refs_to_cons.
Qed.
Definition others (x : nat) (h : Counted) : list (option nat) := (map_to_list (delete x (refptrs h))).*2 ++ map Some (outside h).
Lemma refs_set x p h : refs (set_refptr x p h) ≡ₚ p :: others x h.
Proof. unfold refs, others. cbn. rewrite <- insert_delete_eq, map_to_list_insert by apply lookup_delete_eq. done. Qed.
Lemma refs_at x q h : refptrs h !! x = Some q -> refs h ≡ₚ q :: others x h.
Proof.
  intros Hx. rewrite <- (refs_set x q h). unfold refs. cbn. by rewrite insert_id.
Qed.
Lemma others_new x h : refptrs h !! x = None -> others x h = refs h.
Proof. intros Hx. unfold others, refs. by rewrite delete_id. Qed.
Lemma others_same x h h' : refptrs h' = refptrs h -> outside h' = outside h -> others x h' = others x h.
Proof. unfold others. by intros -> ->. Qed.
Lemma refs_same h h' : refptrs h' = refptrs h -> outside h' = outside h -> refs h' = refs h.
Proof. unfold refs. by intros -> ->. Qed.
Lemma counted_counts L h h' : counts h' = counts h -> used h' = used h -> counted L h -> counted L h'.
Proof. intros E1 E2 [H1 H2 H3]. split; rewrite ?E1, ?E2; done. Qed.
Definition ref_ok (h : Counted) : Prop := counted (refs h) h.
Lemma is_refptr_spec x h : is_refptr x h = true -> exists p, refptrs h !! x = Some p.
Proof. by intros [p Hp]%bool_decide_eq_true; exists p. Qed.
Lemma is_refptr_none x h : negb (is_refptr x h) = true -> refptrs h !! x = None.
Proof. intros H%negb_true_iff%bool_decide_eq_false. by apply eq_None_not_Some. Qed.
Lemma held_lives h x o : ref_ok h -> refptrs h !! x = Some (Some o) -> is_Some (counts h !! o).
Proof. intros Hok Hx. apply (counted_live _ _ Hok). rewrite (refs_at x _ h Hx). by left. Qed.
(** A new variable. *)
Lemma refptr_new_ok x p h : ref_ok h -> refptrs h !! x = None -> (forall o, p = Some o -> is_Some (counts h !! o)) ->
  exists h', scoped_refptr_new x p h = Done h' /\ ref_ok h'.
Proof.
  intros Hok Hx Hp. unfold scoped_refptr_new. destruct (AddRef_ok _ p h Hok Hp) as (h1 & -> & Hc & E1 & E2). run. eexists. split; [done|].
  apply (counted_perm (p :: refs h)); [|by apply (counted_counts _ h1)]. symmetry. rewrite refs_set, (others_same x h h1 E1 E2). by rewrite others_new.
Qed.
Lemma assign_raw_ok x p h : ref_ok h -> is_Some (refptrs h !! x) -> (forall o, p = Some o -> is_Some (counts h !! o)) ->
  exists h', assign_raw x p h = Done h' /\ ref_ok h'.
Proof.
  intros Hok [q Hx] Hp. unfold assign_raw. destruct (AddRef_ok _ p h Hok Hp) as (h1 & -> & Hc & E1 & E2). run. unfold refptr. rewrite E1, Hx. run.
  destruct (Release_ok (p :: others x h) q h1) as (h2 & -> & Hc2 & E3 & E4); [eapply counted_perm; [|exact Hc]; rewrite (refs_at x q h Hx); apply perm_swap|].
  run. eexists. split; [done|]. apply (counted_perm (p :: others x h)); [|by apply (counted_counts _ h2)]. symmetry. rewrite refs_set. f_equiv. by rewrite (others_same x h h2); [|congruence..].
Qed.
Lemma remove_one_perm o l : o ∈ l -> l ≡ₚ o :: remove_one o l.
Proof.
  induction l as [|x l IH]; [by intros ?%not_elem_of_nil|]. cbn. destruct (Nat.eqb_spec x o) as [->|Hne]; [done|].
  intros [->|Hin]%elem_of_cons; [done|]. rewrite (IH Hin) at 1. apply perm_swap.
Qed.
Lemma swap_refptr_ok x y h : ref_ok h -> is_Some (refptrs h !! x) -> is_Some (refptrs h !! y) -> exists h', swap_refptr x y h = Done h' /\ ref_ok h'.
Proof.
  intros Hok [p Hx] [q Hy]. unfold swap_refptr, swap_raw, refptr. rewrite Hy. run. rewrite Hx. run. eexists. split; [done|].
  apply (counted_perm (refs h)); [|by apply (counted_counts _ h)]. rewrite refs_set. destruct (decide (x = y)) as [->|Hne].
  - assert (p = q) as -> by congruence. rewrite (refs_at y q h Hy). unfold others. cbn. by rewrite delete_insert_eq.
  - rewrite (refs_at x p h Hx). f_equiv. unfold others. cbn. rewrite delete_insert_ne by done.
    rewrite <- (insert_delete_id (delete x (refptrs h)) y q) at 1 by (by rewrite lookup_delete_ne).
    rewrite map_to_list_insert by apply lookup_delete_eq. rewrite <- (insert_delete_eq (delete y (refptrs h)) x q), map_to_list_insert by apply lookup_delete_eq.
    cbn. by rewrite delete_delete.
Qed.
Lemma ref_do_ok_counted c h : ref_ok h -> ref_legal c h = true -> exists h', ref_do c h = Done h' /\ ref_ok h'.
Proof.
  intros Hok Hl. destruct c as [o|x|x o|x y|x|x|x y|x p|x y|o|o]; cbn [ref_legal ref_do] in *;
    repeat match goal with H : _ && _ = true |- _ => apply andb_prop in H as [? ?] end.
  - apply bool_decide_eq_true in Hl. eexists. split; [done|]. destruct Hok as [H1 H2 H3]. split; cbn -[refs_to].
    + intros o' n [[<- <-]|[Hne Ho']]%lookup_insert_Some; [|by apply H1]. change (refs _) with (refs h).
      destruct (refs_to o (refs h)) as [|k] eqn:Ek; [done|]. exfalso. apply Hl, H3, H2. unfold refs_to in Ek.
      destruct (filter (fun p => p = Some o) (refs h)) as [|p l] eqn:Ef; [done|]. assert (Hp : p ∈ filter (fun p => p = Some o) (refs h)) by (rewrite Ef; by left).
      by apply list_elem_of_filter in Hp as [-> ?].
    + intros o' Ho'. destruct (decide (o' = o)) as [->|Hne]; [rewrite lookup_insert_eq; by eexists|]. rewrite lookup_insert_ne by done. by apply H2.
    + intros o' Ho'. apply elem_of_union. destruct (decide (o' = o)) as [->|Hne]; [left; by apply elem_of_singleton|right]. rewrite lookup_insert_ne in Ho' by done. by apply H3.
  - apply is_refptr_none in Hl. by apply (refptr_new_ok x None h).
  - apply refptr_new_ok; [done|by apply is_refptr_none|]. intros o' [= <-]. by apply bool_decide_eq_true in H0.
  - apply is_refptr_spec in H0 as [p Hy]. unfold scoped_refptr_copy, refptr. rewrite Hy. run. apply refptr_new_ok; [done|by apply is_refptr_none|].
    intros o ->. by apply (held_lives h y).
  - apply is_refptr_spec in Hl as [p Hx]. unfold scoped_refptr_delete, refptr. rewrite Hx. run.
    destruct (Release_ok (others x h) p h) as (h1 & -> & Hc & E1 & E2); [by apply (counted_perm (refs h)); [apply refs_at|]|]. run. eexists. split; [done|].
    unfold ref_ok, refs. cbn. rewrite E1, E2. by apply (counted_counts _ h1).
  - apply is_refptr_spec in Hl as [p Hx]. unfold scoped_refptr_release, refptr. rewrite Hx. run. eexists. split; [done|].
    set (h1 := set_outside _ _). assert (Hr : refs h1 ≡ₚ None :: match p with Some o => [Some o] | None => [] end ++ others x h).
    { subst h1. destruct p as [o|]; unfold refs; cbn; rewrite <- insert_delete_eq, map_to_list_insert by apply lookup_delete_eq; cbn; [|done].
      f_equiv. unfold others. by rewrite Permutation_middle. }
    eapply counted_perm; [by symmetry|]. apply (counted_counts _ h); [done|done|]. destruct p as [o|]; cbn.
    + destruct (AddRef_ok (Some o :: others x h) None h) as (h2 & [= <-] & H & _); [by apply (counted_perm (refs h)); [apply refs_at|]|done|done].
    + by apply (counted_perm (refs h)); [apply refs_at|].
  - apply is_refptr_spec in H0 as [p Hy]. unfold assign, refptr. rewrite Hy. run. apply assign_raw_ok; [done|by apply bool_decide_eq_true in H|].
    intros o ->. by apply (held_lives h y).
  - apply assign_raw_ok; [done|by apply bool_decide_eq_true in H|]. intros o ->. by apply bool_decide_eq_true in H0.
  - apply swap_refptr_ok; [done|by apply bool_decide_eq_true in H|by apply bool_decide_eq_true in H0].
  - destruct (AddRef_ok _ (Some o) h Hok) as (h1 & -> & Hc & E1 & E2); [intros o' [= <-]; by apply bool_decide_eq_true in Hl|]. run. eexists. split; [done|].
    apply (counted_perm (Some o :: refs h)); [|by apply (counted_counts _ h1)]. unfold refs. cbn. rewrite E1, E2. by rewrite Permutation_middle.
  - apply bool_decide_eq_true in Hl. destruct (Release_ok ((map_to_list (refptrs h)).*2 ++ map Some (remove_one o (outside h))) (Some o) h) as (h1 & -> & Hc & E1 & E2).
    { apply (counted_perm (refs h)); [|done]. unfold refs. rewrite (remove_one_perm o (outside h)) at 1 by done. cbn. by rewrite <- Permutation_middle. }
    run. eexists. split; [done|]. unfold ref_ok, refs. cbn. rewrite E1, E2. by apply (counted_counts _ h1).
Qed.
Lemma ref_run_ok_counted l : forall h, ref_ok h -> exists h', ref_run l h = Done h' /\ ref_ok h'.
Proof.
  induction l as [|c l IH]; intros h Hok; [by exists h|]. cbn. destruct (ref_legal c h) eqn:El; [|by apply IH].
  destruct (ref_do_ok_counted c h Hok El) as (h1 & -> & Hok1). run. by apply IH.
Qed.
(** Whatever programs do with references: nothing gone is used, an object with a reference lives, and its count is the number of its references. *)
Theorem references_are_counted l : exists h, ref_run l Counted_new = Done h /\
  (forall x o, refptrs h !! x = Some (Some o) -> is_Some (counts h !! o)) /\
  (forall o n, counts h !! o = Some n -> n = Z.of_nat (refs_to o (refs h))).
Proof.
  destruct (ref_run_ok_counted l Counted_new) as (h & E & Hok).
  - split; cbn; [by intros o n|by intros o ?%not_elem_of_nil|by intros o [? ?]].
  - exists h. split; [done|]. split; [|apply (counted_n _ _ Hok)]. intros x o. by apply held_lives.
Qed.
