(* ===== verification/CriticalSection.v ===== *)
(** * base/criticalsection.h: locks and scopes

    A critical section is a recursive mutex, and in a debug build remembers the thread that entered it last.  Threads run
    programs of nested scopes, interleaved step by step; a number they share is read and written in separate
    steps, as an increment through a pointer is.  [AtomicOps] is a scope around such an addition.  Leaving a section that the thread is not in is undefined. *)
From S2P Require Import Prelude.

(** The owner with the number of its entries, and [thread_]. *)
Record CriticalSection := mkCrit { owner : option (nat * nat); thread_ : option nat }.
Definition CriticalSection_new : CriticalSection := mkCrit None None.
(** [None] while the thread waits. *)
Definition Enter (t : nat) (c : CriticalSection) : option CriticalSection :=
  match owner c with
  | None => Some (mkCrit (Some (t, 1%nat)) (Some t))
  | Some (u, n) => if decide (u = t) then Some (mkCrit (Some (t, S n)) (Some t)) else None
  end.
Definition TryEnter (t : nat) (c : CriticalSection) : bool * CriticalSection :=
  match Enter t c with Some c => (true, c) | None => (false, c) end.
Definition Leave (t : nat) (c : CriticalSection) : outcome CriticalSection :=
  match owner c with
  | Some (u, S n) => if decide (u = t) then Done (mkCrit (if (n =? 0)%nat then None else Some (t, n)) None) else Undefined
  | _ => Undefined
  end.
Definition CurrentThreadIsOwner (t : nat) (c : CriticalSection) : bool := bool_decide (thread_ c = Some t).

(** What a thread runs: the ends of scopes come from the destructors. *)
Inductive program :=
  | End
  | CritScope (body next : program)
  | TryCritScope (body next : program)
  | Add (d : Z) (next : program).
(** [AtomicOps::Increment] and [Decrement] on POSIX. *)
Definition Increment (next : program) : program := CritScope (Add 1 End) next.
Definition Decrement (next : program) : program := CritScope (Add (-1) End) next.
Inductive item := Run (p : program) | Left | Store (v : Z).
(** [added]: the sum of what the additions were to add. *)
Record System := mkSystem { crit : CriticalSection; i_ : Z; added : Z; threads : list (list item) }.
Definition set_thread (t : nat) (l : list item) (s : System) : System := mkSystem (crit s) (i_ s) (added s) (<[t := l]> (threads s)).
Definition set_crit (c : CriticalSection) (s : System) : System := mkSystem c (i_ s) (added s) (threads s).
(** [None] when the thread waits or is at its end. *)
Definition step (t : nat) (s : System) : option (outcome System) :=
  match threads s !! t with
  | None | Some [] => None
  | Some (x :: l) =>
    match x with
    | Run End => Some (Done (set_thread t l s))
    | Run (CritScope b p) => c ← Enter t (crit s); Some (Done (set_thread t (Run b :: Left :: Run p :: l) (set_crit c s)))
    | Run (TryCritScope b p) =>
      let '(locked_, c) := TryEnter t (crit s) in
      Some (Done (set_thread t (if locked_ then Run b :: Left :: Run p :: l else Run p :: l) (set_crit c s)))
    | Run (Add d p) => Some (Done (mkSystem (crit s) (i_ s) (added s + d) (<[t := Store (i_ s + d) :: Run p :: l]> (threads s))))
    | Left => Some (c ← Leave t (crit s); Done (set_thread t l (set_crit c s)))
    | Store v => Some (Done (mkSystem (crit s) v (added s) (<[t := l]> (threads s))))
    end
  end.
Inductive reachable (ps : list program) : System -> Prop :=
  | reach_start : reachable ps (mkSystem CriticalSection_new 0 0 (map (fun p => [Run p]) ps))
  | reach_step s t s' : reachable ps s -> step t s = Some (Done s') -> reachable ps s'.
(** Additions are made inside scopes. *)
Fixpoint guarded (inside : bool) (p : program) : bool :=
  match p with
  | End => true
  | CritScope b p | TryCritScope b p => guarded true b && guarded inside p
  | Add _ p => inside && guarded inside p
  end.

(** ** One thread at a time *)
#[global] Instance program_eq_dec : EqDecision program.
Proof. solve_decision. Defined.
#[global] Instance item_eq_dec : EqDecision item.
Proof. solve_decision. Defined.
Definition entries (l : list item) : nat := length (filter (fun x => x = Left) l).
Lemma entries_cons x l : entries (x :: l) = ((if decide (x = Left) then 1 else 0) + entries l)%nat.
Proof. unfold entries. rewrite filter_cons. by case_decide. Qed.
Fixpoint guarded_items (l : list item) : Prop :=
  match l with
  | [] => True
  | Run p :: l => guarded (negb (entries l =? 0)%nat) p = true /\ guarded_items l
  | Left :: l => guarded_items l
  | Store _ :: l => False
  end.
(** With what is to be stored. *)
Definition guarded_thread (sum : Z) (l : list item) : Prop :=
  match l with Store v :: l => v = sum /\ entries l <> 0%nat /\ guarded_items l | _ => guarded_items l end.
Definition held (t : nat) (c : CriticalSection) : nat := match owner c with Some (u, n) => if decide (u = t) then n else 0%nat | None => 0%nat end.
Record ok (s : System) : Prop := {
  ok_guarded : forall t l, threads s !! t = Some l -> guarded_thread (added s) l;
  ok_entries : forall t l, threads s !! t = Some l -> entries l = held t (crit s);
  ok_owner : forall u n, owner (crit s) = Some (u, n) -> n <> 0%nat /\ (u < length (threads s))%nat;
  ok_sum : i_ s = added s \/ exists t v l, threads s !! t = Some (Store v :: l) }.
Lemma held_one t u c : held t c <> 0%nat -> held u c <> 0%nat -> t = u.
Proof. unfold held. destruct (owner c) as [[w n]|]; [|done]. repeat case_decide; congruence. Qed.
Lemma Enter_held t c c' : Enter t c = Some c' -> held t c' = S (held t c) /\ (forall u, u <> t -> held u c' = held u c) /\ exists n, owner c' = Some (t, S n).
Proof.
  unfold Enter, held. destruct (owner c) as [[w n]|]; [case_decide; [subst|done]|]; intros [= <-]; cbn; rewrite decide_True by done; (split; [done|]; split; [|by eexists]);
    intros u Hu; rewrite ?decide_False by congruence; done.
Qed.
Lemma Leave_held t c : held t c <> 0%nat -> exists c', Leave t c = Done c' /\ S (held t c') = held t c /\ (forall u, u <> t -> held u c' = held u c) /\
  (forall u n, owner c' = Some (u, n) -> n <> 0%nat /\ u = t).
Proof.
  unfold Leave, held. destruct (owner c) as [[w [|n]]|]; cbn; [intros Hh; exfalso; apply Hh; by destruct (decide _)| |by intros Hh; exfalso; apply Hh].
  destruct (decide (w = t)) as [->|]; [intros _|by intros Hh; exfalso; apply Hh].
  eexists. split; [done|]. destruct n; cbn; (split; [by rewrite ?decide_True by done|]); (split; [intros u Hu; by rewrite ?decide_False by congruence|]); [done|].
  by intros u n' [= <- <-].
Qed.
Lemma guarded_items_thread sum l : guarded_items l -> guarded_thread sum l.
Proof. by destruct l as [|[p| |v] l]. Qed.
(** A step of thread [t] that changes nothing shared but the section. *)
Lemma thread_ok t x l l' c s : ok s -> threads s !! t = Some (x :: l) -> (forall v, x <> Store v) -> guarded_items l' -> entries l' = held t c ->
  (forall u, u <> t -> held u c = held u (crit s)) -> (forall u n, owner c = Some (u, n) -> n <> 0%nat /\ (u = t \/ owner (crit s) = Some (u, n))) ->
  ok (set_thread t l' (set_crit c s)).
Proof.
  intros [H1 H2 H3 H4] Ht Hx Hg He Hh Ho. pose proof (lookup_lt_Some _ _ _ Ht) as Hlt. split; cbn.
  - intros u k [(<- & <- & _)|[Hn Hu]]%list_lookup_insert_Some; [by apply guarded_items_thread|by eapply H1].
  - intros u k [(<- & <- & _)|[Hn Hu]]%list_lookup_insert_Some; [done|]. rewrite Hh by done. by apply H2.
  - intros u n Hu. rewrite length_insert. destruct (Ho u n Hu) as [Hn [->|Hc]]; [done|]. split; [done|]. by apply (H3 u n).
  - destruct H4 as [->|(u & v & k & Hu)]; [by left|right]. exists u, v, k. rewrite list_lookup_insert_ne; [done|]. intros ->. rewrite Ht in Hu. injection Hu as -> _. by apply (Hx v).
Qed.
Lemma step_fine_section t s r : ok s -> step t s = Some r -> exists s', r = Done s' /\ ok s'.
Proof.
  intros Hok E. pose proof Hok as [H1 H2 H3 H4]. unfold step in E. destruct (threads s !! t) as [[|x l]|] eqn:Ht; try done.
  pose proof (H1 t _ Ht) as Hg. pose proof (H2 t _ Ht) as He. rewrite entries_cons in He. pose proof (lookup_lt_Some _ _ _ Ht) as Hlt.
  assert (Hsame : forall l', guarded_items l' -> entries l' = held t (crit s) -> (forall v, x <> Store v) -> ok (set_thread t l' s)).
  { intros l' Hg' He' Hx. replace s with (set_crit (crit s) s) at 1 by (by destruct s). eapply thread_ok; eauto. intros u n Hu. split; [by apply (H3 u n)|by right]. }
  destruct x as [[|b p|b p|d p]| |v]; cbn in Hg; try rewrite decide_False in He by done; cbn in He.
  - injection E as <-. eexists. split; [done|]. apply Hsame; [by destruct Hg|done|done].
  - destruct (Enter t (crit s)) as [c|] eqn:Ec; [|done]. injection E as <-. eexists. split; [done|]. destruct (Enter_held _ _ _ Ec) as (Hh & Hu & n & Hn). eapply thread_ok; eauto.
    + cbn -[entries]. rewrite !entries_cons. cbn. destruct Hg as [[Hb Hp]%andb_prop Hg]. by split_and!.
    + rewrite !entries_cons. cbn. by rewrite Hh, He.
    + rewrite Hn. intros u m [= <- <-]. split; [done|by left].
  - destruct Hg as [[Hb Hp]%andb_prop Hg]. unfold TryEnter in E. destruct (Enter t (crit s)) as [c|] eqn:Ec; injection E as <-; eexists; (split; [done|]).
    + destruct (Enter_held _ _ _ Ec) as (Hh & Hu & n & Hn). eapply thread_ok; eauto.
      * cbn -[entries]. rewrite !entries_cons. cbn. by split_and!.
      * rewrite !entries_cons. cbn. by rewrite Hh, He.
      * rewrite Hn. intros u m [= <- <-]. split; [done|by left].
    + replace (set_crit (crit s) s) with s by (by destruct s). apply Hsame; [|by rewrite entries_cons|done]. by split.
  - injection E as <-. eexists. split; [done|]. destruct Hg as [[Hin Hp]%andb_prop Hg]. rewrite He in Hin. apply negb_true_iff, Nat.eqb_neq in Hin.
    assert (Hone : forall u v k, threads s !! u = Some (Store v :: k) -> False).
    { intros u v k Hu. pose proof (H1 u _ Hu) as (_ & Hk & _). pose proof (H2 u _ Hu) as Hk2. rewrite entries_cons, decide_False in Hk2 by done. cbn in Hk2. rewrite Hk2 in Hk.
      assert (u = t) as -> by (by apply (held_one u t (crit s))). congruence. }
    destruct H4 as [H4|(u & v & k & Hu)]; [|by destruct (Hone u v k)]. split; cbn.
    + intros u k [(<- & <- & _)|[Hn Hu]]%list_lookup_insert_Some.
      * cbn -[entries]. rewrite H4, entries_cons, decide_False by done. cbn -[entries]. rewrite He in *. by split_and!.
      * specialize (H1 u k Hu). destruct k as [|[p'| |v] k]; try done. by destruct (Hone u v k).
    + intros u k [(<- & <- & _)|[Hn Hu]]%list_lookup_insert_Some; [by rewrite !entries_cons, !decide_False by done|by apply H2].
    + intros u n Hu. rewrite length_insert. by apply (H3 u n).
    + right. eexists t, _, _. by apply list_lookup_insert_eq.
  - rewrite decide_True in He by done. cbn in He. destruct (Leave_held t (crit s)) as (c & Ec & Hh & Hu & Ho); [lia|]. rewrite Ec in E. injection E as <-. eexists. split; [done|].
    eapply thread_ok; eauto; [lia|]. intros u n Hn. destruct (Ho u n Hn) as [? ->]. split; [done|by left].
  - injection E as <-. eexists. split; [done|]. destruct Hg as (-> & Hin & Hg). rewrite He in Hin. split; cbn.
    + intros u k [(<- & <- & _)|[Hn Hu]]%list_lookup_insert_Some; [by apply guarded_items_thread|by eapply H1].
    + intros u k [(<- & <- & _)|[Hn Hu]]%list_lookup_insert_Some; [done|by apply H2].
    + intros u n Hu. rewrite length_insert. by apply (H3 u n).
    + by left.
Qed.
Lemma start_ok_section ps : Forall (fun p => guarded false p = true) ps -> ok (mkSystem CriticalSection_new 0 0 (map (fun p => [Run p]) ps)).
Proof.
  intros Hp. assert (H : forall t l, map (fun p => [Run p]) ps !! t = Some l -> exists p, l = [Run p] /\ guarded false p = true).
  { intros t l Hl. apply list_lookup_fmap_Some in Hl as (p & -> & Hl). exists p. split; [done|]. by apply (Forall_lookup_1 _ _ _ _ Hp Hl). }
  split; cbn.
  - intros t l (p & -> & Hg)%H. by split.
  - by intros t l (p & -> & Hg)%H.
  - done.
  - by left.
Qed.
Lemma may_step t x l s : threads s !! t = Some (x :: l) -> Enter t (crit s) <> None -> step t s <> None.
Proof.
  intros Ht He. unfold step. rewrite Ht. destruct x as [[|b p|b p|d p]| |v]; try done.
  - by destruct (Enter t (crit s)).
  - by destruct (TryEnter t (crit s)).
Qed.
Lemma some_step s t x l : ok s -> threads s !! t = Some (x :: l) -> exists t, step t s <> None.
Proof.
  intros Hok Ht. destruct (owner (crit s)) as [[u n]|] eqn:Eo.
  - destruct (ok_owner s Hok u n Eo) as [Hn Hu]. destruct (lookup_lt_is_Some_2 _ _ Hu) as [k Hk]. pose proof (ok_entries s Hok u k Hk) as He.
    unfold held in He. rewrite Eo, decide_True in He by done. destruct k as [|y k]; [by cbn in He; subst n|]. exists u. apply (may_step u y k); [done|].
    unfold Enter. by rewrite Eo, decide_True.
  - exists t. apply (may_step t x l); [done|]. unfold Enter. by rewrite Eo.
Qed.
(** Threads whose programs add to the number only inside scopes, however they run: at most one is inside the section, none leaves it without being
    inside, one can always go on until all are at their ends, and then no addition was lost. *)
Theorem scopes_exclude ps s : Forall (fun p => guarded false p = true) ps -> reachable ps s ->
  (forall t r, step t s = Some r -> r <> Undefined) /\
  (forall t u l k, threads s !! t = Some l -> threads s !! u = Some k -> entries l <> 0%nat -> entries k <> 0%nat -> t = u) /\
  ((exists t x l, threads s !! t = Some (x :: l)) -> exists t, step t s <> None) /\
  ((forall t l, threads s !! t = Some l -> l = []) -> i_ s = added s).
Proof.
  intros Hp Hr. assert (Hok : ok s).
  { induction Hr as [|s t s' _ IH E]; [by apply start_ok_section|]. by destruct (step_fine_section t s _ IH E) as (s1 & [= ->] & ?). }
  split_and!.
  - intros t r E. by destruct (step_fine_section t s r Hok E) as (s' & -> & _).
  - intros t u l k Hl Hk. rewrite (ok_entries s Hok t l Hl), (ok_entries s Hok u k Hk). apply held_one.
  - intros (t & x & l & Ht). by eapply some_step.
  - intros Hend. destruct (ok_sum s Hok) as [E|(t & v & l & Ht)]; [done|]. by apply Hend in Ht.
Qed.

(** ** Examples *)
(** Two threads that count up and down. *)
Fixpoint run_all (ts : list nat) (s : System) : option System :=
  match ts with [] => Some s | t :: ts => match step t s with Some (Done s) => run_all ts s | _ => None end end.
Definition counters : list program := [Increment (Increment End); Decrement End].
Definition start (ps : list program) : System := mkSystem CriticalSection_new 0 0 (map (fun p => [Run p]) ps).
Lemma run_reachable_section ps ts : forall s s', reachable ps s -> run_all ts s = Some s' -> reachable ps s'.
Proof.
  induction ts as [|t ts IH]; intros s s' Hr E; [by injection E as <-|]. cbn in E. destruct (step t s) as [[s1| |]|] eqn:Es; try done. eapply IH; [|done]. by eapply reach_step.
Qed.
Lemma scopes_exclude_witness : exists s, run_all [0; 0; 0; 0; 0; 0; 1; 1; 1; 1; 0; 0; 0; 0; 0; 0; 0; 1; 1; 1]%nat (start counters) = None /\
  run_all [0; 0; 0; 0; 0; 1; 1; 1; 1; 1; 1; 0; 0; 0; 0; 0; 0]%nat (start counters) = Some s /\ i_ s = added s /\ i_ s = 1.
Proof.
  destruct (run_all [0; 0; 0; 0; 0; 1; 1; 1; 1; 1; 1; 0; 0; 0; 0; 0; 0]%nat (start counters)) as [s|] eqn:E; [|vm_compute in E; discriminate E].
  exists s. split; [vm_compute; reflexivity|]. split; [reflexivity|].
  assert (Hr : reachable counters s) by (eapply run_reachable_section; [apply reach_start|exact E]).
  destruct (scopes_exclude counters s ltac:(by repeat constructor) Hr) as (_ & _ & _ & H). vm_compute in E. injection E as <-. split; [|reflexivity].
  apply H. intros t l Hl. by destruct t as [|[|t]]; cbn in Hl; simplify_eq.
Defined.
(** Behind the inner of two scopes the thread still has the section and no longer counts as its owner. *)
Example inner_scope_forgets_owner :
  match run_all [0; 0; 0; 0]%nat (start [CritScope (CritScope End End) End]) with
  | Some s => owner (crit s) = Some (0%nat, 1%nat) /\ CurrentThreadIsOwner 0 (crit s) = false | None => False end.
Proof. vm_compute. done. Qed.
