(* ===== verification/ByteOrder.v ===== *)
(** * base/byteorder.h: big- and little-endian integers in memory

    Memory is a list of bytes; [Set8]/[Get8] are the only accesses.  The byte
    order of the machine the library runs on is the parameter [host_big] of the
    class [Host], and [host_bytes]/[host_value] are the C++ object
    representation of an unsigned integer on that machine, so the conversions
    [HostToNetwork..]/[NetworkToHost..] are verified for both kinds of host. *)
From S2P Require Import Prelude.

Class Host := host_big : bool.

(** ** Object representation *)
Fixpoint le_bytes (n : nat) (v : Z) : list Z :=
  match n with
  | O => []
  | S n => u8 v :: le_bytes n (Z.shiftr v 8)
  end.
Fixpoint le_val (l : list Z) : Z :=
  match l with
  | [] => 0
  | b :: l => b + 256 * le_val l
  end.
Definition be_bytes (n : nat) (v : Z) : list Z := reverse (le_bytes n v).
Definition be_val (l : list Z) : Z := le_val (reverse l).

Section object.
Context {H : Host}.
Definition host_bytes (n : nat) (v : Z) : list Z :=
  if host_big then be_bytes n v else le_bytes n v.
Definition host_value (l : list Z) : Z :=
  if host_big then be_val l else le_val l.
End object.

(** ** The accessors of byteorder.h *)
Section accessors.
Open Scope word_scope.

Definition Set8 (memory : list Z) (offset : nat) (v : Z) : list Z :=
<[offset := u8 v]> memory.
Definition Get8 (memory : list Z) (offset : nat) : Z := memory !!! offset.

Definition SetBE16 (memory : list Z) (v : Z) : list Z :=
let memory := Set8 memory 0 (v >> 8) in
Set8 memory 1 (v >> 0).
Definition SetBE32 (memory : list Z) (v : Z) : list Z :=
let memory := Set8 memory 0 (v >> 24) in
let memory := Set8 memory 1 (v >> 16) in
let memory := Set8 memory 2 (v >> 8) in
Set8 memory 3 (v >> 0).
Definition SetBE64 (memory : list Z) (v : Z) : list Z :=
let memory := Set8 memory 0 (v >> 56) in
let memory := Set8 memory 1 (v >> 48) in
let memory := Set8 memory 2 (v >> 40) in
let memory := Set8 memory 3 (v >> 32) in
let memory := Set8 memory 4 (v >> 24) in
let memory := Set8 memory 5 (v >> 16) in
let memory := Set8 memory 6 (v >> 8) in
Set8 memory 7 (v >> 0).

Definition GetBE16 (memory : list Z) : Z :=
u16 ((Get8 memory 0 << 8) || (Get8 memory 1 << 0)).
Definition GetBE32 (memory : list Z) : Z :=
u32 (Get8 memory 0 << 24) || u32 (Get8 memory 1 << 16)
  || u32 (Get8 memory 2 << 8) || u32 (Get8 memory 3 << 0).
Definition GetBE64 (memory : list Z) : Z :=
u64 (Get8 memory 0 << 56) || u64 (Get8 memory 1 << 48)
  || u64 (Get8 memory 2 << 40) || u64 (Get8 memory 3 << 32)
  || u64 (Get8 memory 4 << 24) || u64 (Get8 memory 5 << 16)
  || u64 (Get8 memory 6 << 8) || u64 (Get8 memory 7 << 0).

Definition SetLE16 (memory : list Z) (v : Z) : list Z :=
let memory := Set8 memory 0 (v >> 0) in
Set8 memory 1 (v >> 8).
Definition SetLE32 (memory : list Z) (v : Z) : list Z :=
let memory := Set8 memory 0 (v >> 0) in
let memory := Set8 memory 1 (v >> 8) in
let memory := Set8 memory 2 (v >> 16) in
Set8 memory 3 (v >> 24).
Definition SetLE64 (memory : list Z) (v : Z) : list Z :=
let memory := Set8 memory 0 (v >> 0) in
let memory := Set8 memory 1 (v >> 8) in
let memory := Set8 memory 2 (v >> 16) in
let memory := Set8 memory 3 (v >> 24) in
let memory := Set8 memory 4 (v >> 32) in
let memory := Set8 memory 5 (v >> 40) in
let memory := Set8 memory 6 (v >> 48) in
Set8 memory 7 (v >> 56).

Definition GetLE16 (memory : list Z) : Z :=
u16 ((Get8 memory 0 << 0) || (Get8 memory 1 << 8)).
Definition GetLE32 (memory : list Z) : Z :=
u32 (Get8 memory 0 << 0) || u32 (Get8 memory 1 << 8)
  || u32 (Get8 memory 2 << 16) || u32 (Get8 memory 3 << 24).
Definition GetLE64 (memory : list Z) : Z :=
u64 (Get8 memory 0 << 0) || u64 (Get8 memory 1 << 8)
  || u64 (Get8 memory 2 << 16) || u64 (Get8 memory 3 << 24)
  || u64 (Get8 memory 4 << 32) || u64 (Get8 memory 5 << 40)
  || u64 (Get8 memory 6 << 48) || u64 (Get8 memory 7 << 56).

End accessors.

(** ** Host order conversions *)
Section host.
Context {H : Host}.

Definition IsHostBigEndian : bool := 0 =? Get8 (host_bytes 4 1) 0.

Definition HostToNetwork16 (n : Z) : Z := host_value (SetBE16 (replicate 2 0) n).
Definition HostToNetwork32 (n : Z) : Z := host_value (SetBE32 (replicate 4 0) n).
Definition HostToNetwork64 (n : Z) : Z := host_value (SetBE64 (replicate 8 0) n).
Definition NetworkToHost16 (n : Z) : Z := GetBE16 (host_bytes 2 n).
Definition NetworkToHost32 (n : Z) : Z := GetBE32 (host_bytes 4 n).
Definition NetworkToHost64 (n : Z) : Z := GetBE64 (host_bytes 8 n).
End host.

(** ** Lemmas on the object representation *)
Lemma length_le_bytes n v : length (le_bytes n v) = n.
Proof. revert v. induction n; intros; simpl; auto. Qed.
Lemma length_be_bytes n v : length (be_bytes n v) = n.
Proof. unfold be_bytes. by rewrite length_reverse, length_le_bytes. Qed.
Lemma length_host_bytes `{Host} n v : length (host_bytes n v) = n.
Proof. unfold host_bytes. case_if; auto using length_le_bytes, length_be_bytes. Qed.

Lemma le_bytes_is_bytes n v : is_bytes (le_bytes n v).
Proof. revert v. induction n as [|n IH]; intros v; simpl; constructor; [apply u8_range|apply IH]. Qed.
Lemma be_bytes_is_bytes n v : is_bytes (be_bytes n v).
Proof. apply Forall_reverse, le_bytes_is_bytes. Qed.
Lemma host_bytes_is_bytes `{Host} n v : is_bytes (host_bytes n v).
Proof. unfold host_bytes. case_if; auto using le_bytes_is_bytes, be_bytes_is_bytes. Qed.

Lemma le_val_bytes n v : le_val (le_bytes n v) = v mod 2 ^ (8 * Z.of_nat n).
Proof.
  revert v. induction n as [|n IH]; intros v.
  - simpl. by rewrite Z.mod_1_r.
  - cbn [le_bytes le_val]. rewrite IH.
    replace (8 * Z.of_nat (S n)) with (8 + 8 * Z.of_nat n) by lia.
    rewrite Z.pow_add_r by lia. rewrite Z.rem_mul_r by lia.
    rewrite Z.shiftr_div_pow2 by lia. reflexivity.
Qed.

Lemma le_val_bound l : is_bytes l -> 0 <= le_val l < 2 ^ (8 * Z.of_nat (length l)).
Proof.
  induction 1 as [|b l Hb _ IH]; cbn [le_val length]; [done|].
  replace (8 * Z.of_nat (S (length l))) with (8 + 8 * Z.of_nat (length l)) by lia.
  rewrite Z.pow_add_r by lia. word_lia.
Qed.

Lemma le_bytes_val l : is_bytes l -> le_bytes (length l) (le_val l) = l.
Proof.
  induction 1 as [|b l Hb _ IH]; cbn [le_val le_bytes length]; [done|].
  f_equal; [word_lia|].
  rewrite Z.shiftr_div_pow2 by lia.
  replace ((b + 256 * le_val l) / 2 ^ 8) with (le_val l); [done|].
  word_lia.
Qed.

Lemma be_bytes_1 v : is_byte v -> be_bytes 1 v = [v].
Proof. intros. unfold be_bytes. cbn. by rewrite u8_id. Qed.

Lemma be_val_bytes n v : be_val (be_bytes n v) = v mod 2 ^ (8 * Z.of_nat n).
Proof. unfold be_val, be_bytes. rewrite reverse_involutive. apply le_val_bytes. Qed.
Lemma be_val_bound l : is_bytes l -> 0 <= be_val l < 2 ^ (8 * Z.of_nat (length l)).
Proof.
  intros. unfold be_val. rewrite <- length_reverse. by apply le_val_bound, Forall_reverse.
Qed.
Lemma be_bytes_val l : is_bytes l -> be_bytes (length l) (be_val l) = l.
Proof.
  intros. unfold be_val, be_bytes. rewrite <- (length_reverse l).
  rewrite le_bytes_val by by apply Forall_reverse. apply reverse_involutive.
Qed.

Lemma host_value_bytes `{Host} n v :
  host_value (host_bytes n v) = v mod 2 ^ (8 * Z.of_nat n).
Proof.
  unfold host_value, host_bytes. case_if; auto using le_val_bytes, be_val_bytes.
Qed.
Lemma host_bytes_value `{Host} n l :
  is_bytes l -> length l = n -> host_bytes n (host_value l) = l.
Proof.
  intros ? <-. unfold host_value, host_bytes. case_if; auto using le_bytes_val, be_bytes_val.
Qed.

Lemma le_bytes_mod n v : le_bytes n (v mod 2 ^ (8 * Z.of_nat n)) = le_bytes n v.
Proof.
  rewrite <- (le_val_bytes n v). rewrite <- (length_le_bytes n v) at 1.
  apply le_bytes_val, le_bytes_is_bytes.
Qed.
Lemma be_bytes_mod n v : be_bytes n (v mod 2 ^ (8 * Z.of_nat n)) = be_bytes n v.
Proof. unfold be_bytes. by rewrite le_bytes_mod. Qed.

(** ** What the accessors do to memory *)
Ltac cells m :=
  repeat match type of m with list _ => destruct m as [|? m]; cbn [length] in *; try lia end.

Ltac by_cells :=
  unfold SetBE16, SetBE32, SetBE64, SetLE16, SetLE32, SetLE64, Set8, write_at,
    be_bytes; cbn [le_bytes take drop app length];
  unfold reverse; cbn [rev_append rev app length Nat.add]; rewrite ?Z.shiftr_shiftr by lia;
  rewrite ?Z.shiftr_0_r; reflexivity.

Lemma SetBE16_spec m v : (2 <= length m)%nat -> SetBE16 m v = write_at 0 (be_bytes 2 v) m.
Proof. destruct m as [|? [|? m]]; cbn [length]; try lia. intros _. by_cells. Qed.
Lemma SetLE16_spec m v : (2 <= length m)%nat -> SetLE16 m v = write_at 0 (le_bytes 2 v) m.
Proof. destruct m as [|? [|? m]]; cbn [length]; try lia. intros _. by_cells. Qed.
Lemma SetBE32_spec m v : (4 <= length m)%nat -> SetBE32 m v = write_at 0 (be_bytes 4 v) m.
Proof. destruct m as [|? [|? [|? [|? m]]]]; cbn [length]; try lia. intros _. by_cells. Qed.
Lemma SetLE32_spec m v : (4 <= length m)%nat -> SetLE32 m v = write_at 0 (le_bytes 4 v) m.
Proof. destruct m as [|? [|? [|? [|? m]]]]; cbn [length]; try lia. intros _. by_cells. Qed.
Lemma SetBE64_spec m v : (8 <= length m)%nat -> SetBE64 m v = write_at 0 (be_bytes 8 v) m.
Proof.
  destruct m as [|? [|? [|? [|? [|? [|? [|? [|? m]]]]]]]]; cbn [length]; try lia.
  intros _. by_cells.
Qed.
Lemma SetLE64_spec m v : (8 <= length m)%nat -> SetLE64 m v = write_at 0 (le_bytes 8 v) m.
Proof.
  destruct m as [|? [|? [|? [|? [|? [|? [|? [|? m]]]]]]]]; cbn [length]; try lia.
  intros _. by_cells.
Qed.

Lemma lor_add x y k :
  0 <= k -> x mod 2 ^ k = 0 -> 0 <= y < 2 ^ k -> Z.lor x y = x + y.
Proof.
  intros Hk Hx Hy. pose proof (Z.div_mod x (2 ^ k)) as E.
  rewrite Hx, Z.add_0_r in E. rewrite E by lia.
  rewrite (Z.mul_comm (2 ^ k)). by apply lor_add_disjoint.
Qed.
Lemma lor_add_hi x y k :
  0 <= k -> y mod 2 ^ k = 0 -> 0 <= x < 2 ^ k -> Z.lor x y = x + y.
Proof. intros. rewrite Z.lor_comm, (lor_add y x k) by done. lia. Qed.

Ltac is_bytes_inv :=
  repeat match goal with
  | H : is_bytes (_ :: _) |- _ => apply Forall_cons_1 in H; destruct H as [? H]
  | H : Forall is_byte (_ :: _) |- _ => apply Forall_cons_1 in H; destruct H as [? H]
  end.

Ltac get_arith :=
  unfold be_val, reverse, Get8; rewrite ?firstn_cons, ?firstn_O; cbn [rev_append rev app le_val];
  repeat match goal with
  | |- context [(?l !!! ?i)] => let b := eval cbn in (l !!! i) in change (l !!! i) with b
  end;
  rewrite ?Z.shiftl_mul_pow2, ?Z.shiftl_0_r by lia;
  repeat match goal with
  | |- context [u32 (?x * ?y)] => rewrite (wrap_id 32 (x * y) : _ -> u32 (x * y) = x * y) by word_lia
  | |- context [u64 (?x * ?y)] => rewrite (wrap_id 64 (x * y) : _ -> u64 (x * y) = x * y) by word_lia
  | H : is_byte ?x |- context [u32 ?x] => rewrite (wrap_id 32 x : _ -> u32 x = x) by word_lia
  | H : is_byte ?x |- context [u64 ?x] => rewrite (wrap_id 64 x : _ -> u64 x = x) by word_lia
  end.
(** Turns the disjoint or-ed bytes of a goal into a sum, [lor] being the lemma for
    the order the bytes come in. *)
Ltac lor_sum lor :=
  repeat match goal with
  | |- context [Z.lor ?x ?y] =>
    lazymatch x with context [Z.lor] => fail | _ => idtac end;
    first
    [ rewrite (lor x y 8) by word_lia | rewrite (lor x y 16) by word_lia
    | rewrite (lor x y 24) by word_lia | rewrite (lor x y 32) by word_lia
    | rewrite (lor x y 40) by word_lia | rewrite (lor x y 48) by word_lia
    | rewrite (lor x y 56) by word_lia ]
  end.

Lemma GetBE16_spec m :
  is_bytes m -> (2 <= length m)%nat -> GetBE16 m = be_val (take 2 m).
Proof.
  destruct m as [|a [|b m]]; cbn [length]; try lia. intros Hm _. is_bytes_inv.
  unfold GetBE16. get_arith. lor_sum lor_add. word_lia.
Qed.
Lemma GetLE16_spec m :
  is_bytes m -> (2 <= length m)%nat -> GetLE16 m = le_val (take 2 m).
Proof.
  destruct m as [|a [|b m]]; cbn [length]; try lia. intros Hm _. is_bytes_inv.
  unfold GetLE16. get_arith. lor_sum lor_add_hi. word_lia.
Qed.
Lemma GetBE32_spec m :
  is_bytes m -> (4 <= length m)%nat -> GetBE32 m = be_val (take 4 m).
Proof.
  destruct m as [|a [|b [|c [|d m]]]]; cbn [length]; try lia. intros Hm _. is_bytes_inv.
  unfold GetBE32. get_arith.
  lor_sum lor_add. word_lia.
Qed.
Lemma GetLE32_spec m :
  is_bytes m -> (4 <= length m)%nat -> GetLE32 m = le_val (take 4 m).
Proof.
  destruct m as [|a [|b [|c [|d m]]]]; cbn [length]; try lia. intros Hm _. is_bytes_inv.
  unfold GetLE32. get_arith.
  lor_sum lor_add_hi. word_lia.
Qed.
Lemma GetBE64_spec m :
  is_bytes m -> (8 <= length m)%nat -> GetBE64 m = be_val (take 8 m).
Proof.
  destruct m as [|a [|b [|c [|d [|e [|f [|g [|h m]]]]]]]]; cbn [length]; try lia.
  intros Hm _. is_bytes_inv. unfold GetBE64. get_arith.
  lor_sum lor_add. word_lia.
Qed.
Lemma GetLE64_spec m :
  is_bytes m -> (8 <= length m)%nat -> GetLE64 m = le_val (take 8 m).
Proof.
  destruct m as [|a [|b [|c [|d [|e [|f [|g [|h m]]]]]]]]; cbn [length]; try lia.
  intros Hm _. is_bytes_inv. unfold GetLE64. get_arith.
  lor_sum lor_add_hi. word_lia.
Qed.

(** ** Reading back what was stored *)
Lemma write_at_0_is_bytes xs m : is_bytes xs -> is_bytes m -> is_bytes (write_at 0 xs m).
Proof.
  intros. unfold write_at, is_bytes. rewrite !Forall_app. auto using Forall_drop.
Qed.
Lemma take_write_at_0 (xs m : list Z) n : length xs = n -> take n (write_at 0 xs m) = xs.
Proof. intros <-. unfold write_at. rewrite firstn_O. cbn [app]. apply take_app_length. Qed.
Lemma length_write_at_0 (xs m : list Z) n :
  (n <= length m)%nat -> length xs = n -> length (write_at 0 xs m) = length m.
Proof. intros. apply length_write_at. lia. Qed.

Definition accessor_laws (n : nat) (set : list Z -> Z -> list Z) (get : list Z -> Z) : Prop :=
  forall m v, is_bytes m -> (n <= length m)%nat -> in_width (8 * Z.of_nat n) v ->
  get (set m v) = v /\ length (set m v) = length m /\ drop n (set m v) = drop n m.

Lemma set_frame n (bytes : list Z) m :
  length bytes = n -> (n <= length m)%nat ->
  length (write_at 0 bytes m) = length m /\ drop n (write_at 0 bytes m) = drop n m.
Proof.
  intros <- ?. split; [apply length_write_at; lia|].
  unfold write_at. rewrite firstn_O. cbn [app Nat.add]. apply drop_app_length.
Qed.

Lemma be_accessor_laws n set get :
  (forall m v, (n <= length m)%nat -> set m v = write_at 0 (be_bytes n v) m) ->
  (forall m, is_bytes m -> (n <= length m)%nat -> get m = be_val (take n m)) ->
  accessor_laws n set get.
Proof.
  intros Hset Hget m v Hm Hlen Hv. rewrite Hset by done.
  destruct (set_frame n (be_bytes n v) m) as [Hl Hd]; auto using length_be_bytes.
  split; [|done]. rewrite Hget; [|by auto using write_at_0_is_bytes, be_bytes_is_bytes|lia].
  rewrite take_write_at_0 by apply length_be_bytes.
  rewrite be_val_bytes. by apply Z.mod_small.
Qed.

Lemma le_accessor_laws n set get :
  (forall m v, (n <= length m)%nat -> set m v = write_at 0 (le_bytes n v) m) ->
  (forall m, is_bytes m -> (n <= length m)%nat -> get m = le_val (take n m)) ->
  accessor_laws n set get.
Proof.
  intros Hset Hget m v Hm Hlen Hv. rewrite Hset by done.
  destruct (set_frame n (le_bytes n v) m) as [Hl Hd]; auto using length_le_bytes.
  split; [|done]. rewrite Hget; [|by auto using write_at_0_is_bytes, le_bytes_is_bytes|lia].
  rewrite take_write_at_0 by apply length_le_bytes.
  rewrite le_val_bytes. by apply Z.mod_small.
Qed.

(** Every [Set]/[Get] pair of byteorder.h round-trips its integer type and
    touches no byte past it. *)
Theorem accessors_roundtrip :
  accessor_laws 2 SetBE16 GetBE16 /\ accessor_laws 2 SetLE16 GetLE16 /\
  accessor_laws 4 SetBE32 GetBE32 /\ accessor_laws 4 SetLE32 GetLE32 /\
  accessor_laws 8 SetBE64 GetBE64 /\ accessor_laws 8 SetLE64 GetLE64.
Proof.
  split_and!.
  - apply be_accessor_laws; auto using SetBE16_spec, GetBE16_spec.
  - apply le_accessor_laws; auto using SetLE16_spec, GetLE16_spec.
  - apply be_accessor_laws; auto using SetBE32_spec, GetBE32_spec.
  - apply le_accessor_laws; auto using SetLE32_spec, GetLE32_spec.
  - apply be_accessor_laws; auto using SetBE64_spec, GetBE64_spec.
  - apply le_accessor_laws; auto using SetLE64_spec, GetLE64_spec.
Qed.

(** ** The host conversions, on either kind of host *)
Section host_lemmas.
Context `{Host}.

Lemma IsHostBigEndian_spec : IsHostBigEndian = host_big.
Proof. unfold IsHostBigEndian, host_bytes. by destruct host_big. Qed.

Lemma be_write_all n v : write_at 0 (be_bytes n v) (replicate n 0) = be_bytes n v.
Proof.
  unfold write_at. rewrite firstn_O, length_be_bytes. cbn [app Nat.add].
  rewrite drop_ge by (rewrite length_replicate; lia). apply app_nil_r.
Qed.

(** The object representation of [HostToNetwork32(v)] is [v], big end first. *)
Lemma bytes_HostToNetwork16 v : host_bytes 2 (HostToNetwork16 v) = be_bytes 2 v.
Proof.
  unfold HostToNetwork16. rewrite SetBE16_spec by done. rewrite be_write_all.
  apply host_bytes_value; auto using be_bytes_is_bytes, length_be_bytes.
Qed.
Lemma bytes_HostToNetwork32 v : host_bytes 4 (HostToNetwork32 v) = be_bytes 4 v.
Proof.
  unfold HostToNetwork32. rewrite SetBE32_spec by done. rewrite be_write_all.
  apply host_bytes_value; auto using be_bytes_is_bytes, length_be_bytes.
Qed.
Lemma bytes_HostToNetwork64 v : host_bytes 8 (HostToNetwork64 v) = be_bytes 8 v.
Proof.
  unfold HostToNetwork64. rewrite SetBE64_spec by done. rewrite be_write_all.
  apply host_bytes_value; auto using be_bytes_is_bytes, length_be_bytes.
Qed.

Lemma NetworkToHost16_value l :
  is_bytes l -> length l = 2%nat -> NetworkToHost16 (host_value l) = be_val l.
Proof.
  intros. unfold NetworkToHost16. rewrite host_bytes_value by done.
  rewrite GetBE16_spec by (done || lia). by rewrite take_ge by lia.
Qed.
Lemma NetworkToHost32_value l :
  is_bytes l -> length l = 4%nat -> NetworkToHost32 (host_value l) = be_val l.
Proof.
  intros. unfold NetworkToHost32. rewrite host_bytes_value by done.
  rewrite GetBE32_spec by (done || lia). by rewrite take_ge by lia.
Qed.
Lemma NetworkToHost64_value l :
  is_bytes l -> length l = 8%nat -> NetworkToHost64 (host_value l) = be_val l.
Proof.
  intros. unfold NetworkToHost64. rewrite host_bytes_value by done.
  rewrite GetBE64_spec by (done || lia). by rewrite take_ge by lia.
Qed.

Lemma NetworkToHost32_HostToNetwork32 v :
  in_width 32 v -> NetworkToHost32 (HostToNetwork32 v) = v.
Proof.
  intros Hv. unfold NetworkToHost32. rewrite bytes_HostToNetwork32.
  rewrite GetBE32_spec by auto using be_bytes_is_bytes.
  rewrite take_ge by by rewrite length_be_bytes.
  rewrite be_val_bytes. by apply Z.mod_small.
Qed.
End host_lemmas.

(** ** Arrays of big-endian words of [k] bytes *)
Definition be_words (k : nat) (ws : list Z) : list Z := concat (map (be_bytes k) ws).

Lemma le_val_app l m : le_val (l ++ m) = le_val l + 2 ^ (8 * Z.of_nat (length l)) * le_val m.
Proof.
  induction l as [|b l IH]; cbn [app le_val length]; [lia|]. rewrite IH.
  replace (8 * Z.of_nat (S (length l))) with (8 + 8 * Z.of_nat (length l)) by lia.
  rewrite Z.pow_add_r by lia. change (2 ^ 8) with 256. lia.
Qed.
Lemma be_val_app l m : be_val (l ++ m) = be_val l * 2 ^ (8 * Z.of_nat (length m)) + be_val m.
Proof. unfold be_val. rewrite reverse_app, le_val_app, length_reverse. lia. Qed.

Section be_words.
Variable k : nat.
Implicit Types ws : list Z.

Lemma length_be_words ws : length (be_words k ws) = (k * length ws)%nat.
Proof.
  induction ws as [|w ws IH]; [cbn; lia|]. unfold be_words in *. cbn [map concat length].
  rewrite length_app, IH, length_be_bytes. lia.
Qed.
Lemma be_words_app l m : be_words k (l ++ m) = be_words k l ++ be_words k m.
Proof. unfold be_words. by rewrite map_app, concat_app. Qed.
Lemma be_words_is_bytes ws : is_bytes (be_words k ws).
Proof.
  induction ws as [|w ws IH]; [constructor|]. unfold be_words in *. cbn [map concat].
  apply is_bytes_app. split; [apply be_bytes_is_bytes|done].
Qed.
Lemma write_be_words i w ws : (i < length ws)%nat ->
  write_at (k * i) (be_bytes k w) (be_words k ws) = be_words k (write_at i [w] ws).
Proof.
  intros Hi. rewrite <- (take_drop i ws) at 1. unfold write_at. rewrite !be_words_app.
  assert (Hl : length (be_words k (take i ws)) = (k * i)%nat) by (rewrite length_be_words, length_take; lia).
  rewrite take_app_length' by done. f_equal. rewrite length_be_bytes, drop_app_ge by lia. rewrite Hl.
  destruct (drop i ws) as [|w' ws'] eqn:E; [apply (f_equal length) in E; rewrite length_drop in E; cbn in E; lia|].
  replace (k * i + k - k * i)%nat with k by lia. cbn [length].
  rewrite <- drop_drop, E. unfold be_words. cbn [map concat]. rewrite app_nil_r.
  by rewrite drop_app_length' by by rewrite length_be_bytes.
Qed.
Lemma slice_be_words i w ws : ws !! i = Some w -> slice (k * i) k (be_words k ws) = be_bytes k w.
Proof.
  intros Hx. pose proof (lookup_lt_Some _ _ _ Hx). rewrite <- (take_drop_middle ws i w Hx), be_words_app.
  unfold slice. rewrite drop_app_length' by (rewrite length_be_words, length_take; lia).
  unfold be_words. cbn [map concat]. by rewrite take_app_length' by by rewrite length_be_bytes.
Qed.
Lemma be_val_words w ws : in_width (8 * Z.of_nat k) w ->
  be_val (be_words k (w :: ws)) = w * 2 ^ (8 * Z.of_nat (k * length ws)) + be_val (be_words k ws).
Proof.
  intros Hw. change (be_words k (w :: ws)) with (be_bytes k w ++ be_words k ws).
  rewrite be_val_app, length_be_words, be_val_bytes. by rewrite Z.mod_small.
Qed.
(** Every array of [k * n] bytes is one of [n] words. *)
Lemma be_words_exist n : forall l, is_bytes l -> length l = (k * n)%nat ->
  exists ws, l = be_words k ws /\ length ws = n /\ Forall (in_width (8 * Z.of_nat k)) ws.
Proof.
  induction n as [|n IH]; intros l Hb Hl.
  { exists []. destruct l; [by repeat constructor|cbn in Hl; lia]. }
  destruct (IH (drop k l)) as (ws & E & Hn & Hw); [by apply is_bytes_drop|rewrite length_drop; lia|].
  assert (length (take k l) = k) as Ht by (rewrite length_take; lia).
  exists (be_val (take k l) :: ws). split; [|split; [cbn; lia|]].
  - change (be_words k (be_val (take k l) :: ws)) with (be_bytes k (be_val (take k l)) ++ be_words k ws).
    rewrite <- E, <- Ht at 1. rewrite be_bytes_val by by apply is_bytes_take. symmetry. apply take_drop.
  - constructor; [|done]. unfold in_width. pose proof (be_val_bound (take k l) (is_bytes_take _ _ Hb)) as H.
    by rewrite Ht in H.
Qed.
End be_words.

(** A little-endian host, for the concrete runs. *)
Definition little_endian : Host := false.
