(* ===== verification/ByteBuffer.v ===== *)
(** * base/bytebuffer.{h,cpp}: the growable read/write buffer

    [ByteBuffer] is the class' state.  [bytes_] is the allocated array, [start_]
    the read position and [end_] the write position in it; [contents] is the
    abstract queue of unread bytes the operations implement.  [new char[n]]
    leaves its bytes indeterminate: they come from the parameter [garbage].
    Pointers to results are results here, so the null-pointer guards
    ([if (!val) return false]) have no counterpart. *)
From S2P Require Import Prelude ByteOrder.

Inductive ByteOrder := ORDER_NETWORK | ORDER_HOST.
#[global] Instance ByteOrder_eq_dec : EqDecision ByteOrder.
Proof. solve_decision. Defined.

Record ByteBuffer := mkByteBuffer {
  bytes_ : list Z;
  size_ : nat;
  start_ : nat;
  end_ : nat;
  version_ : Z;
  byte_order_ : ByteOrder }.

(** The indeterminate value of cell [i] of an array of [n] chars. *)
Class Heap := garbage : nat -> nat -> Z.

Record ReadPosition := mkReadPosition { pos_start_ : nat; pos_version_ : Z }.

Definition DEFAULT_SIZE : nat := 4096.

Section operations.
Context {HO : Host} {HP : Heap}.

Definition new_array (n : nat) : list Z := map (fun i => u8 (garbage n i)) (seq 0 n).

Definition Construct (bytes : option (list Z)) (len : nat) (order : ByteOrder) : ByteBuffer :=
  match bytes with
  | Some bs => mkByteBuffer (write_at 0 (take len bs) (new_array len)) len 0 len 0 order
  | None => mkByteBuffer (new_array len) len 0 0 0 order
  end.
Definition ByteBuffer_new : ByteBuffer := Construct None DEFAULT_SIZE ORDER_NETWORK.
Definition ByteBuffer_new_order (order : ByteOrder) : ByteBuffer := Construct None DEFAULT_SIZE order.
Definition ByteBuffer_from (bytes : list Z) (len : nat) (order : ByteOrder) : ByteBuffer :=
  Construct (Some bytes) len order.

Definition Data (b : ByteBuffer) : list Z := drop (start_ b) (bytes_ b).
Definition Length (b : ByteBuffer) : nat := (end_ b - start_ b)%nat.
Definition Capacity (b : ByteBuffer) : nat := (size_ b - start_ b)%nat.

Definition ReadBytes (b : ByteBuffer) (len : nat) : option (list Z * ByteBuffer) :=
  if (Length b <? len)%nat then None
  else Some (take len (Data b),
             mkByteBuffer (bytes_ b) (size_ b) (start_ b + len) (end_ b) (version_ b) (byte_order_ b)).

Definition ReadString (b : ByteBuffer) (val : list Z) (len : nat) : option (list Z * ByteBuffer) :=
  if (Length b <? len)%nat then None
  else Some (val ++ take len (Data b),
             mkByteBuffer (bytes_ b) (size_ b) (start_ b + len) (end_ b) (version_ b) (byte_order_ b)).

Definition is_network (b : ByteBuffer) : bool := bool_decide (byte_order_ b = ORDER_NETWORK).

Definition ReadUInt8 (b : ByteBuffer) : option (Z * ByteBuffer) :=
  '(v, b) ← ReadBytes b 1; Some (host_value v, b).
Definition ReadUInt16 (b : ByteBuffer) : option (Z * ByteBuffer) :=
  '(v, b') ← ReadBytes b 2;
  let v := host_value v in
  Some (if is_network b then NetworkToHost16 v else v, b').
Definition ReadUInt24 (b : ByteBuffer) : option (Z * ByteBuffer) :=
  let v := host_bytes 4 0 in
  let read_into := if (is_network b || IsHostBigEndian)%bool then 1%nat else 0%nat in
  '(r, b') ← ReadBytes b 3;
  let v := host_value (write_at read_into r v) in
  Some (if is_network b then NetworkToHost32 v else v, b').
Definition ReadUInt32 (b : ByteBuffer) : option (Z * ByteBuffer) :=
  '(v, b') ← ReadBytes b 4;
  let v := host_value v in
  Some (if is_network b then NetworkToHost32 v else v, b').
Definition ReadUInt64 (b : ByteBuffer) : option (Z * ByteBuffer) :=
  '(v, b') ← ReadBytes b 8;
  let v := host_value v in
  Some (if is_network b then NetworkToHost64 v else v, b').

Definition Resize (b : ByteBuffer) (size : nat) : ByteBuffer :=
  let len := Nat.min (end_ b - start_ b) size in
  let live := slice (start_ b) len (bytes_ b) in
  let '(bytes, size') :=
    if (size <=? size_ b)%nat then (write_at 0 live (bytes_ b), size_ b)
    else let size' := Nat.max size (3 * size_ b / 2) in
         (write_at 0 live (new_array size'), size') in
  mkByteBuffer bytes size' 0 len (i32 (version_ b + 1)) (byte_order_ b).

(** Returns the offset of the reserved bytes in the new [bytes_]. *)
Definition ReserveWriteBuffer (b : ByteBuffer) (len : nat) : nat * ByteBuffer :=
  let b := if (Capacity b <? Length b + len)%nat then Resize b (Length b + len) else b in
  let start := end_ b in
  (start, mkByteBuffer (bytes_ b) (size_ b) (start_ b) (end_ b + len) (version_ b) (byte_order_ b)).

Definition WriteBytes (b : ByteBuffer) (val : list Z) : ByteBuffer :=
  let '(dst, b) := ReserveWriteBuffer b (length val) in
  mkByteBuffer (write_at dst val (bytes_ b)) (size_ b) (start_ b) (end_ b) (version_ b) (byte_order_ b).

Definition WriteUInt8 (b : ByteBuffer) (val : Z) : ByteBuffer := WriteBytes b (host_bytes 1 val).
Definition WriteUInt16 (b : ByteBuffer) (val : Z) : ByteBuffer :=
  let v := if is_network b then HostToNetwork16 val else val in
  WriteBytes b (host_bytes 2 v).
Definition WriteUInt24 (b : ByteBuffer) (val : Z) : ByteBuffer :=
  let v := if is_network b then HostToNetwork32 val else val in
  let start := if (is_network b || IsHostBigEndian)%bool then 1%nat else 0%nat in
  WriteBytes b (slice start 3 (host_bytes 4 v)).
Definition WriteUInt32 (b : ByteBuffer) (val : Z) : ByteBuffer :=
  let v := if is_network b then HostToNetwork32 val else val in
  WriteBytes b (host_bytes 4 v).
Definition WriteUInt64 (b : ByteBuffer) (val : Z) : ByteBuffer :=
  let v := if is_network b then HostToNetwork64 val else val in
  WriteBytes b (host_bytes 8 v).
Definition WriteString (b : ByteBuffer) (val : list Z) : ByteBuffer := WriteBytes b val.

Definition Consume (b : ByteBuffer) (size : nat) : bool * ByteBuffer :=
  if (Length b <? size)%nat then (false, b)
  else (true, mkByteBuffer (bytes_ b) (size_ b) (start_ b + size) (end_ b) (version_ b) (byte_order_ b)).

Definition GetReadPosition (b : ByteBuffer) : ReadPosition := mkReadPosition (start_ b) (version_ b).
Definition SetReadPosition (b : ByteBuffer) (p : ReadPosition) : bool * ByteBuffer :=
  if negb (pos_version_ p =? version_ b) then (false, b)
  else (true, mkByteBuffer (bytes_ b) (size_ b) (pos_start_ p) (end_ b) (version_ b) (byte_order_ b)).

Definition Clear (b : ByteBuffer) : ByteBuffer :=
  mkByteBuffer (replicate (size_ b) 0) (size_ b) 0 0 (i32 (version_ b + 1)) (byte_order_ b).
End operations.

Arguments WriteBytes : simpl never.
Arguments Resize : simpl never.
Arguments ReadBytes : simpl never.
Arguments Consume : simpl never.

(** ** Abstraction and invariant *)
Definition contents (b : ByteBuffer) : list Z := slice (start_ b) (end_ b - start_ b) (bytes_ b).

Record wf (b : ByteBuffer) : Prop := {
  wf_size : length (bytes_ b) = size_ b;
  wf_start : (start_ b <= end_ b)%nat;
  wf_end : (end_ b <= size_ b)%nat;
  wf_bytes : is_bytes (bytes_ b);
  wf_version : - 2 ^ 31 <= version_ b < 2 ^ 31 }.

Lemma length_contents b : wf b -> length (contents b) = Length b.
Proof. intros []. unfold contents, Length. apply length_slice. lia. Qed.

Lemma contents_is_bytes b : wf b -> is_bytes (contents b).
Proof. intros []. unfold contents, slice. auto with vz. Qed.

Section correct.
Context {HO : Host} {HP : Heap}.

Lemma length_new_array n : length (new_array n) = n.
Proof. unfold new_array. by rewrite length_map, length_seq. Qed.
Lemma new_array_is_bytes n : is_bytes (new_array n).
Proof. unfold new_array, is_bytes. apply Forall_map, Forall_true. intros. apply u8_range. Qed.

Lemma write_at_is_bytes i xs l : is_bytes xs -> is_bytes l -> is_bytes (write_at i xs l).
Proof.
  intros. unfold write_at, is_bytes. rewrite !Forall_app.
  auto using Forall_drop, Forall_take.
Qed.

Lemma Construct_None_wf n o : wf (Construct None n o).
Proof.
  constructor; simpl; rewrite ?length_new_array; auto using new_array_is_bytes; lia.
Qed.
Lemma Construct_None_contents n o : contents (Construct None n o) = [].
Proof. reflexivity. Qed.

Lemma Construct_Some_wf bs o :
  is_bytes bs -> wf (Construct (Some bs) (length bs) o).
Proof.
  intros. constructor; simpl; try lia.
  - rewrite take_ge by lia. rewrite length_write_at; rewrite length_new_array; lia.
  - apply write_at_is_bytes; auto using new_array_is_bytes with vz.
Qed.
Lemma Construct_Some_contents bs o :
  contents (Construct (Some bs) (length bs) o) = bs.
Proof.
  unfold contents. simpl. rewrite take_ge by lia. rewrite Nat.sub_0_r.
  apply slice_write_at. lia.
Qed.

(** [Resize] keeps the oldest unread bytes that fit in the requested size. *)
Lemma Resize_wf b n : wf b -> wf (Resize b n).
Proof.
  intros []. unfold Resize. destruct (Nat.leb_spec n (size_ b)); constructor; simpl;
    rewrite ?length_write_at; rewrite ?length_slice, ?length_new_array; try lia; try word_lia;
    apply write_at_is_bytes; unfold slice; auto using new_array_is_bytes with vz.
Qed.
Lemma Resize_contents b n : wf b -> contents (Resize b n) = take n (contents b).
Proof.
  intros []. set (len := Nat.min (end_ b - start_ b) n).
  assert (Hl : length (slice (start_ b) len (bytes_ b)) = len)
    by (apply length_slice; lia).
  assert (Hc : take n (contents b) = slice (start_ b) len (bytes_ b)).
  { unfold contents, slice. rewrite take_take. f_equal. lia. }
  rewrite Hc. unfold Resize, contents. fold len.
  destruct (Nat.leb_spec n (size_ b)); simpl; rewrite Nat.sub_0_r;
    rewrite <- Hl at 1; apply slice_write_at; lia.
Qed.
Lemma Resize_capacity b n : (n <= size_ (Resize b n))%nat /\ start_ (Resize b n) = 0%nat.
Proof. unfold Resize. destruct (Nat.leb_spec n (size_ b)); simpl; lia. Qed.

(** The buffer [ReserveWriteBuffer] leaves before moving [end_]. *)
Definition grown (b : ByteBuffer) (len : nat) : ByteBuffer :=
  if (Capacity b <? Length b + len)%nat then Resize b (Length b + len) else b.

Lemma grown_spec b len :
  wf b -> wf (grown b len) /\ contents (grown b len) = contents b /\
          (end_ (grown b len) + len <= size_ (grown b len))%nat.
Proof.
  intros Hb. pose proof Hb as []. unfold grown.
  destruct (Nat.ltb_spec (Capacity b) (Length b + len)) as [Hlt|Hge].
  - split_and!; [by apply Resize_wf| |].
    + rewrite Resize_contents by done. apply take_ge.
      rewrite length_contents by done. lia.
    + destruct (Resize_capacity b (Length b + len)) as [Hs _].
      assert (end_ (Resize b (Length b + len)) = Length b); [|lia].
      unfold Resize, Length. destruct (_ <=? _)%nat; simpl; lia.
  - split_and!; auto. unfold Capacity, Length in *. lia.
Qed.

Lemma WriteBytes_unfold b val :
  WriteBytes b val =
  let g := grown b (length val) in
  mkByteBuffer (write_at (end_ g) val (bytes_ g)) (size_ g) (start_ g)
    (end_ g + length val) (version_ g) (byte_order_ g).
Proof. reflexivity. Qed.

Lemma WriteBytes_wf b val : wf b -> is_bytes val -> wf (WriteBytes b val).
Proof.
  intros Hb Hv. destruct (grown_spec b (length val) Hb) as ([] & _ & Hroom).
  rewrite WriteBytes_unfold. constructor; simpl; auto; try lia.
  - rewrite length_write_at; lia.
  - by apply write_at_is_bytes.
Qed.
Lemma WriteBytes_contents b val :
  wf b -> contents (WriteBytes b val) = contents b ++ val.
Proof.
  intros Hb. destruct (grown_spec b (length val) Hb) as ([] & <- & Hroom).
  rewrite WriteBytes_unfold. unfold contents. simpl.
  replace (_ + length val - _)%nat with
    ((end_ (grown b (length val)) - start_ (grown b (length val))) + length val)%nat by lia.
  apply slice_write_end; lia.
Qed.
Lemma WriteBytes_order b val : byte_order_ (WriteBytes b val) = byte_order_ b.
Proof.
  rewrite WriteBytes_unfold. unfold grown, Resize. simpl. by repeat case_if.
Qed.

Lemma take_Data b n : wf b -> (n <= Length b)%nat -> take n (Data b) = take n (contents b).
Proof.
  intros [] ?. unfold Data, contents, slice, Length in *. rewrite take_take. f_equal. lia.
Qed.

Lemma advance_spec b n b' :
  wf b -> (n <= Length b)%nat ->
  b' = mkByteBuffer (bytes_ b) (size_ b) (start_ b + n) (end_ b) (version_ b) (byte_order_ b) ->
  wf b' /\ contents b' = drop n (contents b).
Proof.
  intros [] Hn ->. unfold Length in *. split.
  - constructor; simpl; auto; lia.
  - unfold contents, slice. simpl. rewrite skipn_firstn_comm, drop_drop. f_equal. lia.
Qed.

Lemma ReadBytes_spec b n :
  wf b ->
  if (Length b <? n)%nat then ReadBytes b n = None
  else exists b', ReadBytes b n = Some (take n (contents b), b') /\ wf b' /\
         contents b' = drop n (contents b) /\ byte_order_ b' = byte_order_ b.
Proof.
  intros Hb. unfold ReadBytes. destruct (Nat.ltb_spec (Length b) n) as [|Hn]; [done|].
  eexists. rewrite take_Data by done. split; [reflexivity|].
  destruct (advance_spec b n _ Hb Hn eq_refl). auto.
Qed.

(** [ReadBytes] on a buffer that starts with [l]. *)
Lemma ReadBytes_app b l rest :
  wf b -> contents b = l ++ rest ->
  exists b', ReadBytes b (length l) = Some (l, b') /\ wf b' /\ contents b' = rest /\
    byte_order_ b' = byte_order_ b.
Proof.
  intros Hb Hc. pose proof (ReadBytes_spec b (length l) Hb) as Hr.
  pose proof (length_contents b Hb) as Hlen. rewrite Hc, length_app in Hlen.
  destruct (Nat.ltb_spec (Length b) (length l)); [lia|].
  rewrite Hc, take_app_length, drop_app_length in Hr. done.
Qed.
End correct.

(** ** Typed fields *)
Inductive field :=
  | F8 (v : Z) | F16 (v : Z) | F24 (v : Z) | F32 (v : Z) | F64 (v : Z)
  | FStr (s : list Z).

Definition field_ok (f : field) : Prop :=
  match f with
  | F8 v => in_width 8 v | F16 v => in_width 16 v | F24 v => in_width 24 v
  | F32 v => in_width 32 v | F64 v => in_width 64 v | FStr s => is_bytes s
  end.

Section fields.
Context {HO : Host} {HP : Heap}.

(** The bytes of an [n]-byte integer in a buffer of order [o]. *)
Definition order_bytes (o : ByteOrder) (n : nat) (v : Z) : list Z :=
  match o with ORDER_NETWORK => be_bytes n v | ORDER_HOST => host_bytes n v end.
Definition field_bytes (o : ByteOrder) (f : field) : list Z :=
  match f with
  | F8 v => order_bytes o 1 v | F16 v => order_bytes o 2 v | F24 v => order_bytes o 3 v
  | F32 v => order_bytes o 4 v | F64 v => order_bytes o 8 v | FStr s => s
  end.

Definition write_field (b : ByteBuffer) (f : field) : ByteBuffer :=
  match f with
  | F8 v => WriteUInt8 b v | F16 v => WriteUInt16 b v | F24 v => WriteUInt24 b v
  | F32 v => WriteUInt32 b v | F64 v => WriteUInt64 b v | FStr s => WriteString b s
  end.
(** Reads a field of the type (for a string, the length) of [f]. *)
Definition read_field (b : ByteBuffer) (f : field) : option (field * ByteBuffer) :=
  match f with
  | F8 _ => '(v, b) ← ReadUInt8 b; Some (F8 v, b)
  | F16 _ => '(v, b) ← ReadUInt16 b; Some (F16 v, b)
  | F24 _ => '(v, b) ← ReadUInt24 b; Some (F24 v, b)
  | F32 _ => '(v, b) ← ReadUInt32 b; Some (F32 v, b)
  | F64 _ => '(v, b) ← ReadUInt64 b; Some (F64 v, b)
  | FStr s => '(v, b) ← ReadString b [] (length s); Some (FStr v, b)
  end.
Definition write_fields (b : ByteBuffer) (fs : list field) : ByteBuffer := foldl write_field b fs.
Fixpoint read_fields (b : ByteBuffer) (fs : list field) : option (list field * ByteBuffer) :=
  match fs with
  | [] => Some ([], b)
  | f :: fs =>
    '(v, b) ← read_field b f;
    '(vs, b) ← read_fields b fs;
    Some (v :: vs, b)
  end.

Lemma length_order_bytes o n v : length (order_bytes o n v) = n.
Proof. destruct o; [apply length_be_bytes|apply length_host_bytes]. Qed.
Lemma order_bytes_is_bytes o n v : is_bytes (order_bytes o n v).
Proof. destruct o; [apply be_bytes_is_bytes|apply host_bytes_is_bytes]. Qed.
Lemma field_bytes_is_bytes o f : field_ok f -> is_bytes (field_bytes o f).
Proof. destruct f; simpl; auto using order_bytes_is_bytes. Qed.

Lemma slice_be_bytes_24 v : slice 1 3 (be_bytes 4 v) = be_bytes 3 v.
Proof. reflexivity. Qed.
Lemma slice_host_bytes_24 v :
  slice (if IsHostBigEndian then 1 else 0)%nat 3 (host_bytes 4 v) = host_bytes 3 v.
Proof. rewrite IsHostBigEndian_spec. unfold host_bytes. by destruct host_big. Qed.

Lemma order_bytes_1 o v : order_bytes o 1 v = host_bytes 1 v.
Proof. destruct o; [|done]. unfold order_bytes, host_bytes. by destruct host_big. Qed.

Lemma is_network_spec b : is_network b = true <-> byte_order_ b = ORDER_NETWORK.
Proof. apply bool_decide_eq_true. Qed.
Lemma is_network_false b : is_network b = false -> byte_order_ b = ORDER_HOST.
Proof. unfold is_network. intros E%bool_decide_eq_false. by destruct (byte_order_ b). Qed.

Ltac by_order b :=
  destruct (is_network b) eqn:Eo;
  [ apply is_network_spec in Eo | apply is_network_false in Eo ].

Lemma write_field_bytes b f : write_field b f = WriteBytes b (field_bytes (byte_order_ b) f).
Proof.
  destruct f; simpl; try done.
  - unfold WriteUInt8. by rewrite order_bytes_1.
  - unfold WriteUInt16. by_order b; rewrite Eo; simpl; by rewrite ?bytes_HostToNetwork16.
  - unfold WriteUInt24. by_order b; rewrite Eo; simpl.
    + by rewrite bytes_HostToNetwork32, slice_be_bytes_24.
    + by rewrite slice_host_bytes_24.
  - unfold WriteUInt32. by_order b; rewrite Eo; simpl; by rewrite ?bytes_HostToNetwork32.
  - unfold WriteUInt64. by_order b; rewrite Eo; simpl; by rewrite ?bytes_HostToNetwork64.
Qed.

Lemma write_field_spec b f :
  wf b -> field_ok f ->
  wf (write_field b f) /\ byte_order_ (write_field b f) = byte_order_ b /\
  contents (write_field b f) = contents b ++ field_bytes (byte_order_ b) f.
Proof.
  intros. rewrite write_field_bytes.
  split_and!; auto using WriteBytes_wf, WriteBytes_order, WriteBytes_contents, field_bytes_is_bytes.
Qed.


(** The integer read back from the bytes of [v], whatever the order. *)
Lemma order_value_16 o v : in_width 16 v ->
  (if bool_decide (o = ORDER_NETWORK) then NetworkToHost16 (host_value (order_bytes o 2 v))
   else host_value (order_bytes o 2 v)) = v.
Proof.
  intros. destruct o; simpl.
  - rewrite NetworkToHost16_value by auto using be_bytes_is_bytes, length_be_bytes.
    rewrite be_val_bytes. by apply Z.mod_small.
  - rewrite host_value_bytes. by apply Z.mod_small.
Qed.
Lemma order_value_32 o v : in_width 32 v ->
  (if bool_decide (o = ORDER_NETWORK) then NetworkToHost32 (host_value (order_bytes o 4 v))
   else host_value (order_bytes o 4 v)) = v.
Proof.
  intros. destruct o; simpl.
  - rewrite NetworkToHost32_value by auto using be_bytes_is_bytes, length_be_bytes.
    rewrite be_val_bytes. by apply Z.mod_small.
  - rewrite host_value_bytes. by apply Z.mod_small.
Qed.
Lemma order_value_64 o v : in_width 64 v ->
  (if bool_decide (o = ORDER_NETWORK) then NetworkToHost64 (host_value (order_bytes o 8 v))
   else host_value (order_bytes o 8 v)) = v.
Proof.
  intros. destruct o; simpl.
  - rewrite NetworkToHost64_value by auto using be_bytes_is_bytes, length_be_bytes.
    rewrite be_val_bytes. by apply Z.mod_small.
  - rewrite host_value_bytes. by apply Z.mod_small.
Qed.
Lemma order_value_24 o v : in_width 24 v ->
  let off := if (bool_decide (o = ORDER_NETWORK) || IsHostBigEndian)%bool then 1%nat else 0%nat in
  let m := write_at off (order_bytes o 3 v) (host_bytes 4 0) in
  (if bool_decide (o = ORDER_NETWORK) then NetworkToHost32 (host_value m) else host_value m) = v.
Proof.
  intros Hv. rewrite IsHostBigEndian_spec.
  assert (Hz : u8 (Z.shiftr (Z.shiftr (Z.shiftr v 8) 8) 8) = 0).
  { rewrite !Z.shiftr_shiftr, Z.shiftr_div_pow2 by lia. word_lia. }
  assert (H0 : host_bytes 4 0 = replicate 4 0).
  { unfold host_bytes. by destruct host_big. }
  assert (Hbe : write_at 1 (be_bytes 3 v) (replicate 4 0) = be_bytes 4 v).
  { unfold be_bytes. cbn. unfold reverse. cbn. by rewrite Hz. }
  assert (Hle : write_at 0 (le_bytes 3 v) (replicate 4 0) = le_bytes 4 v).
  { cbn. by rewrite Hz. }
  cbv zeta. rewrite H0.
  destruct o; [rewrite bool_decide_true by done | rewrite bool_decide_false by done];
    cbn [orb order_bytes].
  - rewrite Hbe, NetworkToHost32_value by auto using be_bytes_is_bytes, length_be_bytes.
    rewrite be_val_bytes. apply Z.mod_small. word_lia.
  - assert (Hm : write_at (if host_big then 1 else 0)%nat (host_bytes 3 v) (replicate 4 0)
      = host_bytes 4 v) by (unfold host_bytes; by destruct host_big).
    rewrite Hm, host_value_bytes. apply Z.mod_small. word_lia.
Qed.

Lemma read_field_spec b f rest :
  wf b -> field_ok f -> contents b = field_bytes (byte_order_ b) f ++ rest ->
  exists b', read_field b f = Some (f, b') /\ wf b' /\ contents b' = rest /\
    byte_order_ b' = byte_order_ b.
Proof.
  intros Hb Hf Hc. destruct (ReadBytes_app b _ rest Hb Hc) as (b' & Hr & Hb').
  exists b'. split; [|done].
  destruct f; simpl in *; rewrite ?length_order_bytes in Hr.
  - unfold ReadUInt8. rewrite Hr. simpl. rewrite order_bytes_1, host_value_bytes.
    by rewrite Z.mod_small.
  - unfold ReadUInt16, is_network. rewrite Hr. simpl. by rewrite order_value_16.
  - unfold ReadUInt24, is_network. rewrite Hr. simpl. by rewrite order_value_24.
  - unfold ReadUInt32, is_network. rewrite Hr. simpl. by rewrite order_value_32.
  - unfold ReadUInt64, is_network. rewrite Hr. simpl. by rewrite order_value_64.
  - unfold ReadString. unfold ReadBytes in Hr.
    destruct (Length b <? length s)%nat; [done|]. simpl. congruence.
Qed.

Lemma write_fields_spec fs b :
  wf b -> Forall field_ok fs ->
  wf (write_fields b fs) /\ byte_order_ (write_fields b fs) = byte_order_ b /\
  contents (write_fields b fs) = contents b ++ concat (map (field_bytes (byte_order_ b)) fs).
Proof.
  revert b. induction fs as [|f fs IH]; intros b Hb Hfs.
  { simpl. split_and!; auto. by rewrite app_nil_r. }
  change (write_fields b (f :: fs)) with (write_fields (write_field b f) fs).
  cbn [map concat].
  apply Forall_cons_1 in Hfs as [Hf Hfs].
  destruct (write_field_spec b f Hb Hf) as (Hb' & Ho & Hc).
  destruct (IH _ Hb' Hfs) as (? & Ho' & Hc').
  split_and!; auto; [congruence|]. rewrite Hc', Hc, Ho. by rewrite <- app_assoc.
Qed.

Lemma read_fields_spec fs b rest :
  wf b -> Forall field_ok fs ->
  contents b = concat (map (field_bytes (byte_order_ b)) fs) ++ rest ->
  exists b', read_fields b fs = Some (fs, b') /\ wf b' /\ contents b' = rest.
Proof.
  revert b. induction fs as [|f fs IH]; intros b Hb Hfs Hc; simpl in *; [eauto|].
  apply Forall_cons_1 in Hfs as [Hf Hfs]. rewrite <- app_assoc in Hc.
  destruct (read_field_spec b f _ Hb Hf Hc) as (b1 & Hr & Hb1 & Hc1 & Ho).
  rewrite <- Ho in Hc1. destruct (IH b1 Hb1 Hfs Hc1) as (b2 & Hr2 & ?).
  exists b2. rewrite Hr. simpl. by rewrite Hr2.
Qed.

(** ByteBuffer round trip: on a buffer of either byte order and on either kind
    of host, typed fields written in any number and of any mix of types are
    read back, in order and unchanged, from behind what was in the buffer. *)
Theorem fields_roundtrip b fs :
  wf b -> Forall field_ok fs -> contents b = [] ->
  exists b', read_fields (write_fields b fs) fs = Some (fs, b') /\ wf b' /\ contents b' = [].
Proof.
  intros Hb Hfs Hc. destruct (write_fields_spec fs b Hb Hfs) as (Hw & Ho & Hc').
  apply read_fields_spec; auto. rewrite Hc', Hc, Ho. by rewrite app_nil_r.
Qed.
End fields.

(** ** The buffer as a queue of bytes *)
Inductive op :=
  | OpWrite (bs : list Z) | OpRead (n : nat) | OpConsume (n : nat)
  | OpResize (n : nat) | OpClear.
Definition op_ok (o : op) : Prop := match o with OpWrite bs => is_bytes bs | _ => True end.

(** The specification: a plain queue; the output of a successful read is its
    bytes, of a refused one [None]. *)
Definition queue_op (q : list Z) (o : op) : option (list Z) * list Z :=
  match o with
  | OpWrite bs => (None, q ++ bs)
  | OpRead n => if (length q <? n)%nat then (None, q) else (Some (take n q), drop n q)
  | OpConsume n => if (length q <? n)%nat then (None, q) else (Some [], drop n q)
  | OpResize n => (None, take n q)
  | OpClear => (None, [])
  end.

Section queue.
Context {HO : Host} {HP : Heap}.

Definition run_op (b : ByteBuffer) (o : op) : option (list Z) * ByteBuffer :=
  match o with
  | OpWrite bs => (None, WriteBytes b bs)
  | OpRead n => match ReadBytes b n with Some (l, b) => (Some l, b) | None => (None, b) end
  | OpConsume n => let '(ok, b) := Consume b n in (if ok then Some [] else None, b)
  | OpResize n => (None, Resize b n)
  | OpClear => (None, Clear b)
  end.
Definition run_ops (b : ByteBuffer) (os : list op) : ByteBuffer :=
  foldl (fun b o => (run_op b o).2) b os.

Lemma Consume_spec b n :
  wf b ->
  if (Length b <? n)%nat then Consume b n = (false, b)
  else exists b', Consume b n = (true, b') /\ wf b' /\ contents b' = drop n (contents b).
Proof.
  intros Hb. unfold Consume. destruct (Nat.ltb_spec (Length b) n) as [|Hn]; [done|].
  eexists. split; [reflexivity|]. by apply (advance_spec b n).
Qed.

Lemma Clear_spec b : wf b -> wf (Clear b) /\ contents (Clear b) = [].
Proof.
  intros []. split; [|done]. constructor; simpl; try lia; try word_lia.
  - apply length_replicate.
  - apply Forall_replicate. word_lia.
Qed.

(** Every operation of the buffer refines the same operation of the queue. *)
Lemma run_op_refines b o :
  wf b -> op_ok o ->
  queue_op (contents b) o = ((run_op b o).1, contents (run_op b o).2) /\ wf (run_op b o).2.
Proof.
  intros Hb Ho. destruct o as [bs|n|n|n|]; simpl.
  - by rewrite WriteBytes_contents; auto using WriteBytes_wf.
  - rewrite length_contents by done. pose proof (ReadBytes_spec b n Hb) as Hr.
    destruct (_ <? _)%nat; [by rewrite Hr|]. destruct Hr as (b' & -> & ? & Hc & _).
    simpl. by rewrite Hc.
  - rewrite length_contents by done. pose proof (Consume_spec b n Hb) as Hr.
    destruct (_ <? _)%nat; [by rewrite Hr|]. destruct Hr as (b' & -> & ? & Hc).
    simpl. by rewrite Hc.
  - by rewrite Resize_contents; auto using Resize_wf.
  - destruct (Clear_spec b Hb) as [? ->]. auto.
Qed.

Lemma run_ops_wf b os : wf b -> Forall op_ok os -> wf (run_ops b os).
Proof.
  intros Hb Hos. revert b Hb. induction Hos as [|o os Ho _ IH]; intros b Hb; [done|].
  apply IH. by apply run_op_refines.
Qed.

(** The outputs of a run, and the same for the specification. *)
Fixpoint outputs (b : ByteBuffer) (os : list op) : list (option (list Z)) :=
  match os with
  | [] => []
  | o :: os => (run_op b o).1 :: outputs (run_op b o).2 os
  end.
Fixpoint queue_run (q : list Z) (os : list op) : list (option (list Z)) * list Z :=
  match os with
  | [] => ([], q)
  | o :: os =>
    let '(out, q) := queue_op q o in
    let '(outs, q) := queue_run q os in (out :: outs, q)
  end.

(** C9. The growing array with its three indices is a byte queue: every run of
    writes, reads, skips, resizes and clears answers as the queue does, on
    short and refused reads too, and keeps the representation well-formed. *)
Theorem ByteBuffer_refines_queue b os :
  wf b -> Forall op_ok os ->
  queue_run (contents b) os = (outputs b os, contents (run_ops b os)) /\ wf (run_ops b os).
Proof.
  intros Hb Hos. revert b Hb. induction Hos as [|o os Ho _ IH]; intros b Hb; [done|].
  destruct (run_op_refines b o Hb Ho) as [Hq Hb']. destruct (IH _ Hb') as [Hr Hw].
  cbn [queue_run outputs]. rewrite Hq, Hr. done.
Qed.

(** ** Remembered read positions *)

(** Whether an operation moves the stored bytes, and how often a run does. *)
Definition moves (b : ByteBuffer) (o : op) : bool :=
  match o with
  | OpWrite bs => (Capacity b <? Length b + length bs)%nat
  | OpResize _ | OpClear => true
  | OpRead _ | OpConsume _ => false
  end.
Fixpoint run_moves (b : ByteBuffer) (os : list op) : nat :=
  match os with
  | [] => 0
  | o :: os => (if moves b o then 1 else 0) + run_moves (run_op b o).2 os
  end.
Definition written (os : list op) : list Z :=
  concat (map (fun o => match o with OpWrite bs => bs | _ => [] end) os).

Lemma run_moves_le b os : (run_moves b os <= length os)%nat.
Proof.
  revert b. induction os as [|o os IH]; intros b; simpl; [lia|].
  specialize (IH (run_op b o).2). destruct (moves b o); lia.
Qed.

Lemma run_op_version b o :
  wf b -> version_ (run_op b o).2 = i32 (version_ b + if moves b o then 1 else 0).
Proof.
  intros []. assert (Hid : i32 (version_ b + 0) = version_ b) by word_lia.
  destruct o as [bs|n|n|n|]; cbn [run_op moves fst snd]; rewrite ?Hid.
  - rewrite WriteBytes_unfold. unfold grown, Resize. simpl.
    repeat case_if; simpl; congruence.
  - unfold ReadBytes. by destruct (_ <? _)%nat.
  - unfold Consume. by destruct (_ <? _)%nat.
  - unfold Resize. by destruct (_ <=? _)%nat.
  - done.
Qed.

Lemma run_ops_version b os :
  wf b -> Forall op_ok os ->
  version_ (run_ops b os) = i32 (version_ b + Z.of_nat (run_moves b os)).
Proof.
  intros Hb Hos. revert b Hb. induction Hos as [|o os Ho _ IH]; intros b Hb.
  - destruct Hb. simpl. word_lia.
  - change (run_ops b (o :: os)) with (run_ops (run_op b o).2 os).
    cbn [run_moves]. rewrite IH by by apply run_op_refines.
    rewrite run_op_version by done. destruct (moves b o); word_lia.
Qed.

(** An operation that moves nothing leaves every byte from a start [s] on,
    possibly extended. *)
Lemma run_op_still b o s :
  wf b -> op_ok o -> moves b o = false -> (s <= start_ b)%nat ->
  let b' := (run_op b o).2 in
  (s <= start_ b')%nat /\
  slice s (end_ b' - s) (bytes_ b') = slice s (end_ b - s) (bytes_ b) ++ written [o].
Proof.
  intros [] Ho Hm Hs b'. subst b'.
  destruct o as [bs|n|n|n|]; cbn [moves] in Hm; try done;
    cbn [run_op fst snd written map concat]; rewrite ?app_nil_r.
  - rewrite WriteBytes_unfold. unfold grown. rewrite Hm. simpl. split; [done|].
    replace (end_ b + length bs - s)%nat with (end_ b - s + length bs)%nat by lia.
    apply Nat.ltb_ge in Hm. unfold Capacity, Length in Hm. apply slice_write_end; lia.
  - unfold ReadBytes. destruct (_ <? _)%nat; simpl; split; auto; lia.
  - unfold Consume. destruct (_ <? _)%nat; simpl; split; auto; lia.
Qed.

Lemma run_ops_still b os s :
  wf b -> Forall op_ok os -> run_moves b os = 0%nat -> (s <= start_ b)%nat ->
  let b' := run_ops b os in
  (s <= start_ b')%nat /\
  slice s (end_ b' - s) (bytes_ b') = slice s (end_ b - s) (bytes_ b) ++ written os.
Proof.
  intros Hb Hos. revert b Hb. induction Hos as [|o os Ho _ IH]; intros b Hb Hm Hs b'; subst b'.
  { simpl. by rewrite app_nil_r. }
  change (run_ops b (o :: os)) with (run_ops (run_op b o).2 os).
  cbn [run_moves] in Hm. destruct (moves b o) eqn:Em; [lia|].
  destruct (run_op_still b o s Hb Ho Em Hs) as [Hs' Hsl].
  destruct (IH (run_op b o).2) as [? IHs]; [by apply run_op_refines|lia|done|].
  split; [done|]. rewrite IHs, Hsl, <- app_assoc. unfold written. cbn. by rewrite app_nil_r.
Qed.

(** Restoring a remembered read position, after any run of fewer than 2^32
    operations, succeeds exactly when the run moved no bytes, and then the
    buffer holds again everything it held, followed by all that was written
    since; a refused restore leaves the buffer alone. *)
Theorem SetReadPosition_restores b os :
  wf b -> Forall op_ok os -> Z.of_nat (length os) < 2 ^ 32 ->
  let b' := run_ops b os in
  let '(ok, b'') := SetReadPosition b' (GetReadPosition b) in
  ok = (run_moves b os =? 0)%nat /\
  (if ok then wf b'' /\ contents b'' = contents b ++ written os else b'' = b').
Proof.
  intros Hb Hos Hlen b'. pose proof (run_moves_le b os) as Hle.
  pose proof (run_ops_version b os Hb Hos) as Hv.
  pose proof (run_ops_wf b os Hb Hos) as Hb'. fold b' in Hv, Hb'.
  unfold SetReadPosition, GetReadPosition. simpl.
  destruct (Nat.eqb_spec (run_moves b os) 0) as [Hm|Hm].
  - replace (version_ b =? version_ b') with true
      by (symmetry; apply Z.eqb_eq; destruct Hb; rewrite Hv, Hm; word_lia).
    simpl. destruct (run_ops_still b os (start_ b) Hb Hos Hm (le_n _)) as [Hst Hsl].
    fold b' in Hst. split_and!; auto.
    destruct Hb, Hb'. constructor; simpl; auto; lia.
  - replace (version_ b =? version_ b') with false
      by (symmetry; apply Z.eqb_neq; destruct Hb; rewrite Hv; word_lia).
    done.
Qed.
End queue.

(** ** Concrete runs *)
Definition zero_heap : Heap := fun _ _ => 0.

Definition demo_fields : list field :=
  [F16 0x5A56; F24 70000; FStr [1; 2; 3]; F64 (2 ^ 63 + 5); F8 9; F32 (2 ^ 32 - 1)].
Lemma fields_roundtrip_witness :
  let b := ByteBuffer_new_order (HP := zero_heap) ORDER_HOST in
  exists b', read_fields (HO := little_endian)
      (write_fields (HO := little_endian) (HP := zero_heap) b demo_fields) demo_fields
    = Some (demo_fields, b') /\ wf b' /\ contents b' = [].
Proof.
  intros b. apply (fields_roundtrip (HO := little_endian) (HP := zero_heap)).
  - apply Construct_None_wf.
  - repeat constructor; cbn; unfold is_byte, in_width; lia.
  - vm_compute. reflexivity.
Defined.

(** Four bytes of capacity, which the write exceeds. *)
Definition demo_buffer : ByteBuffer := ByteBuffer_from (HP := zero_heap) [1; 2; 3; 4] 4 ORDER_NETWORK.
Lemma demo_buffer_wf : wf demo_buffer.
Proof. apply Construct_Some_wf. repeat constructor; unfold is_byte, in_width; lia. Qed.
Definition demo_ops : list op :=
  [OpWrite [7; 8; 9]; OpRead 5; OpConsume 10; OpResize 1; OpRead 1; OpClear; OpRead 1].
Lemma ByteBuffer_refines_queue_witness :
  let b := demo_buffer in
  outputs (HP := zero_heap) b demo_ops = [None; Some [1; 2; 3; 4; 7]; None; None; Some [8]; None; None] /\
  queue_run (contents b) demo_ops =
    (outputs (HP := zero_heap) b demo_ops, contents (run_ops (HP := zero_heap) b demo_ops)) /\
  wf (run_ops (HP := zero_heap) b demo_ops).
Proof.
  intros b. split; [vm_compute; reflexivity|].
  apply (ByteBuffer_refines_queue (HP := zero_heap)); [apply demo_buffer_wf|].
  repeat constructor; cbn; unfold is_byte, in_width; lia.
Defined.

Lemma SetReadPosition_restores_witness :
  let b := demo_buffer in
  let os := [OpRead 2; OpWrite []; OpConsume 2] in
  let b' := run_ops (HP := zero_heap) b os in
  let '(ok, b'') := SetReadPosition b' (GetReadPosition b) in
  ok = (run_moves (HP := zero_heap) b os =? 0)%nat /\
  (if ok then wf b'' /\ contents b'' = contents b ++ written os else b'' = b').
Proof.
  intros b os. apply (SetReadPosition_restores (HP := zero_heap)).
  - apply demo_buffer_wf.
  - repeat constructor.
  - vm_compute. reflexivity.
Defined.
