(* ===== verification/Buffer.v ===== *)
(** * base/buffer.h: a block of bytes

    The array has [capacity_] cells, of which the first [length_] are the content.  What a new array holds is a
    parameter.  [length_] is not set before [Construct] reads it, so it is [None] until then. *)
From S2P Require Import Prelude.

Section buffer.
(** The cells of [new char[n]]. *)
Variable new_cells : nat -> list Z.
Hypothesis length_new_cells : forall n, length (new_cells n) = n.
Record Buffer := mkBuffer { data_ : list Z; length_ : option nat; capacity_ : nat }.
Definition content (b : Buffer) : list Z := take (default 0%nat (length_ b)) (data_ b).

Definition SetCapacity (capacity : nat) (b : Buffer) : outcome Buffer :=
  if (capacity_ b <? capacity)%nat then
    match length_ b with
    | None => Undefined
    | Some n =>
      let data := new_cells capacity in
      if (n <=? length (data_ b))%nat && (n <=? capacity)%nat
      then Done (mkBuffer (write_at 0 (take n (data_ b)) data) (length_ b) capacity) else Undefined
    end
  else Done b.
Definition SetLength (length : nat) (b : Buffer) : outcome Buffer :=
  b ← SetCapacity length b; Done (mkBuffer (data_ b) (Some length) (capacity_ b)).
(** [memcpy] from elsewhere to the index [i]. *)
Definition copy_in (i : nat) (data : list Z) (b : Buffer) : outcome Buffer :=
  if (i + length data <=? length (data_ b))%nat then Done (mkBuffer (write_at i data (data_ b)) (length_ b) (capacity_ b)) else Undefined.
Definition SetData (data : list Z) (b : Buffer) : outcome Buffer := b ← SetLength (length data) b; copy_in 0 data b.
Definition AppendData (data : list Z) (b : Buffer) : outcome Buffer :=
  match length_ b with
  | None => Undefined
  | Some old_length => b ← SetLength (old_length + length data) b; copy_in old_length data b
  end.
Definition Construct (data : list Z) (capacity : nat) (b : Buffer) : outcome Buffer :=
  SetData data (mkBuffer (new_cells capacity) (length_ b) capacity).
(** The constructors; [Buffer b] and the assignment copy. *)
Definition uninitialized : Buffer := mkBuffer [] None 0.
Definition Buffer_new : outcome Buffer := Construct [] 0 uninitialized.
Definition Buffer_data (data : list Z) (capacity : nat) : outcome Buffer := Construct data capacity uninitialized.
Definition Buffer_copy (buf : Buffer) : outcome Buffer := Construct (content buf) (length (content buf)) uninitialized.
Definition assign (buf b : Buffer) : outcome Buffer := Construct (content buf) (length (content buf)) b.
Definition equals (b buf : Buffer) : bool := bool_decide (length_ b = length_ buf) && bool_decide (content b = content buf).
(** To another buffer: what that one has then, and this one. *)
Definition TransferTo (b : Buffer) : outcome (Buffer * Buffer) :=
  b' ← Construct [] 0 (mkBuffer [] (length_ b) (capacity_ b)); Done (b, b').

(** ** A buffer is a list of bytes *)
Definition ok (b : Buffer) : Prop := length (data_ b) = capacity_ b /\ exists n, length_ b = Some n /\ (n <= capacity_ b)%nat.
Definition holds (b : Buffer) (l : list Z) : Prop := ok b /\ content b = l.
Lemma length_content_buffer b n : ok b -> length_ b = Some n -> length (content b) = n.
Proof. intros (Hd & m & Hm & Hle) Hn. unfold content. rewrite Hn. cbn. rewrite length_take. assert (m = n) by congruence. lia. Qed.
Lemma SetCapacity_holds n b l : holds b l -> exists b', SetCapacity n b = Done b' /\ holds b' l /\ (n <= capacity_ b')%nat /\ length_ b' = length_ b.
Proof.
  intros [Hok <-]. pose proof Hok as (Hd & m & Hm & Hle). unfold SetCapacity. destruct (Nat.ltb_spec (capacity_ b) n) as [Hlt|Hge].
  - rewrite Hm, Hd. destruct (Nat.leb_spec m (capacity_ b)), (Nat.leb_spec m n); try lia. cbn [andb]. eexists. split; [done|]. cbn. split; [|done].
    assert (Hlen : length (take m (data_ b)) = m) by (rewrite length_take; lia).
    split; [split; cbn|].
    + rewrite length_write_at; [apply length_new_cells|]. rewrite Hlen, length_new_cells. lia.
    + exists m. split; [done|lia].
    + unfold content. cbn [data_ length_]. rewrite Hm. unfold default, id, write_at. rewrite take_0, app_nil_l, take_app_le by lia.
      by rewrite take_take, Nat.min_id.
  - exists b. split; [done|]. split; [done|]. split; [lia|done].
Qed.
Lemma SetLength_holds n b l : holds b l -> exists b', SetLength n b = Done b' /\ ok b' /\ length_ b' = Some n /\ (n <= capacity_ b')%nat /\
  take (length l) (data_ b') = l.
Proof.
  intros Hb. pose proof Hb as [Hok _]. unfold SetLength. destruct (SetCapacity_holds n b l Hb) as (b1 & -> & [Hok1 Hc1] & Hcap & Hl). run. eexists. split; [done|].
  destruct Hok1 as (Hd1 & m & Hm & Hle). split; [split; [done|by exists n]|]. split; [done|]. split; [done|]. cbn.
  unfold content in Hc1. rewrite Hm in Hc1. unfold default, id in Hc1. assert (Hlen : length l = m) by (rewrite <- Hc1, length_take; lia).
  by rewrite Hlen.
Qed.
Lemma AppendData_holds data b l : holds b l -> exists b', AppendData data b = Done b' /\ holds b' (l ++ data).
Proof.
  intros Hb. pose proof Hb as [Hok Hc]. pose proof Hok as (Hd & m & Hm & Hle). unfold AppendData. rewrite Hm.
  assert (Hlen : length l = m) by (rewrite <- Hc; by apply length_content_buffer).
  destruct (SetLength_holds (m + length data) b l Hb) as (b1 & -> & (Hd1 & k & Hk & Hle1) & Hl1 & Hcap1 & Ht1). run. unfold copy_in.
  destruct (Nat.leb_spec (m + length data) (length (data_ b1))); [|lia]. eexists. split; [done|]. split.
  - split; cbn; [rewrite length_write_at by lia; done|]. exists k. by rewrite Hl1, <- Hk.
  - unfold content. cbn [data_ length_]. rewrite Hl1. unfold default, id. rewrite Hlen in Ht1. unfold write_at. rewrite Ht1, app_assoc.
    rewrite take_app_le by (rewrite length_app; lia). apply take_ge. rewrite length_app. lia.
Qed.
Lemma SetData_holds data b l : holds b l -> exists b', SetData data b = Done b' /\ holds b' data.
Proof.
  intros Hb. unfold SetData. destruct (SetLength_holds (length data) b l Hb) as (b1 & -> & (Hd1 & k & Hk & Hle1) & Hl1 & Hcap1 & _). run. unfold copy_in. cbn [Nat.add].
  destruct (Nat.leb_spec (length data) (length (data_ b1))); [|lia]. eexists. split; [done|]. split.
  - split; cbn; [rewrite length_write_at by lia; done|]. exists k. by rewrite Hl1, <- Hk.
  - unfold content. cbn [data_ length_]. rewrite Hl1. unfold default, id, write_at. rewrite take_0, app_nil_l.
    rewrite take_app_le by lia. by apply take_ge.
Qed.
Lemma Construct_holds data capacity b : (length data <= capacity)%nat -> exists b', Construct data capacity b = Done b' /\ holds b' data.
Proof.
  intros Hle. unfold Construct, SetData, SetLength, SetCapacity. cbn [capacity_]. destruct (Nat.ltb_spec capacity (length data)); [lia|]. run.
  unfold copy_in. cbn [data_ Nat.add]. rewrite length_new_cells. destruct (Nat.leb_spec (length data) capacity); [|lia]. eexists. split; [done|]. split.
  - split; cbn; [rewrite length_write_at by (rewrite length_new_cells; lia); apply length_new_cells|]. by exists (length data).
  - unfold content. cbn [data_ length_]. unfold default, id, write_at. rewrite take_0, app_nil_l. rewrite take_app_le by lia. by apply take_ge.
Qed.

(** What programs do with a buffer and data from elsewhere, and the same on lists. *)
Inductive call := CallSetData (l : list Z) | CallAppend (l : list Z) | CallShorten (n : nat) | CallReserve (n : nat) | CallAssign (l : list Z) | CallTransfer.
Definition do_call (c : call) (b : Buffer) : outcome Buffer :=
  match c with
  | CallSetData l => SetData l b
  | CallAppend l => AppendData l b
  | CallShorten n => match length_ b with Some m => if (n <=? m)%nat then SetLength n b else Done b | None => Done b end
  | CallReserve n => SetCapacity n b
  | CallAssign l => buf ← Buffer_data l (length l); assign buf b
  | CallTransfer => '(_, b) ← TransferTo b; Done b
  end.
Definition do_spec (c : call) (l : list Z) : list Z :=
  match c with
  | CallSetData l' | CallAssign l' => l' | CallAppend l' => l ++ l' | CallShorten n => take n l | CallReserve _ => l | CallTransfer => [] end.
Fixpoint do_calls (cs : list call) (b : Buffer) : outcome Buffer :=
  match cs with [] => Done b | c :: cs => b ← do_call c b; do_calls cs b end.
Lemma do_call_holds c b l : holds b l -> exists b', do_call c b = Done b' /\ holds b' (do_spec c l).
Proof.
  intros Hb. pose proof Hb as [Hok Hc]. pose proof Hok as (Hd & m & Hm & Hle). destruct c as [l'|l'|n|n|l'|]; cbn [do_call do_spec].
  - by apply (SetData_holds l' b l).
  - by apply AppendData_holds.
  - rewrite Hm. assert (Hlen : length l = m) by (rewrite <- Hc; by apply length_content_buffer). destruct (Nat.leb_spec n m).
    + destruct (SetLength_holds n b l Hb) as (b1 & -> & Hok1 & Hl1 & Hcap1 & Ht1). exists b1. split; [done|]. split; [done|].
      unfold content. rewrite Hl1. cbn. rewrite <- Ht1, take_take. f_equal. lia.
    + exists b. split; [done|]. split; [done|]. rewrite take_ge by lia. done.
  - destruct (SetCapacity_holds n b l Hb) as (b1 & -> & Hb1 & _). by exists b1.
  - destruct (Construct_holds l' (length l') uninitialized) as (b1 & E1 & [_ Hc1]); [done|]. unfold Buffer_data. rewrite E1. run. unfold assign. rewrite Hc1.
    by apply Construct_holds.
  - unfold TransferTo. destruct (Construct_holds [] 0 (mkBuffer [] (length_ b) (capacity_ b))) as (b1 & -> & Hb1); [done|]. run. by exists b1.
Qed.
Lemma do_calls_holds cs b l : holds b l -> exists b', do_calls cs b = Done b' /\ holds b' (foldl (fun l c => do_spec c l) l cs).
Proof.
  revert b l. induction cs as [|c cs IH]; intros b l Hb; [by exists b|]. cbn [do_calls foldl].
  destruct (do_call_holds c b l Hb) as (b1 & -> & Hb1). run. by apply IH.
Qed.

(** ** The theorem *)
(** On every run of settings, appends, shortenings, reservations, assignments and transfers of a constructed buffer
    the content is that of a list of bytes, and no call reads or writes outside the array. *)
Theorem Buffer_is_bytes data capacity cs : (length data <= capacity)%nat ->
  exists b, Buffer_data data capacity = Done b /\
    exists b', do_calls cs b = Done b' /\ content b' = foldl (fun l c => do_spec c l) data cs.
Proof.
  intros Hle. destruct (Construct_holds data capacity uninitialized Hle) as (b & E & Hb). exists b. split; [exact E|].
  destruct (do_calls_holds cs b data Hb) as (b' & E' & _ & Hc). by exists b'.
Qed.
End buffer.

(** Examples, with arrays of zeros. *)
Example append_grows :
  (b ← Buffer_data (fun n => replicate n 0) [1; 2; 3] 3; do_calls (fun n => replicate n 0) [CallAppend [4; 5]; CallShorten 4; CallReserve 9; CallAppend [6]] b)
  = Done (mkBuffer [1; 2; 3; 4; 6; 0; 0; 0; 0] (Some 5%nat) 9).
Proof. vm_compute. reflexivity. Qed.
(** A capacity below the length: [SetCapacity] copies [length_] bytes before [length_] has a value. *)
Example capacity_below_length : Buffer_data (fun n => replicate n 0) [1; 2; 3] 2 = Undefined.
Proof. reflexivity. Qed.
(** Shortening and then lengthening gives the bytes of the array back, not new ones. *)
Example lengthened_again :
  (b ← Buffer_data (fun n => replicate n 0) [1; 2; 3] 3; b ← SetLength (fun n => replicate n 0) 0 b; b ← SetLength (fun n => replicate n 0) 2 b; Done (content b))
  = Done [1; 2].
Proof. reflexivity. Qed.
