(* ===== verification/TimeUtils.v ===== *)
(** * base/timeutils.{h,cpp}: 32-bit millisecond time stamps that wrap

    A time stamp is a [uint32].  The clock itself ([TimeNanos]) is an input: the
    functions that read it take the nanosecond count as an argument.  Both the
    [EFFICIENT_IMPLEMENTATION] branch, which is compiled, and the reference
    branch beside it are translated. *)
From S2P Require Import Prelude.

Definition LAST : Z := 0xFFFFFFFF.
Definition HALF : Z := 0x80000000.
Definition kNumNanosecsPerMillisec : Z := 1000000000 / 1000.
Definition kJan1970AsNtpMillisecs : Z := 2208988800000.

Definition Time (nanos : Z) : Z := u32 (nanos / kNumNanosecsPerMillisec).

(** The [ASSERT]s of [TimeAfter] are its precondition. *)
Definition TimeAfter_pre (elapsed : Z) : Prop := 0 <= elapsed /\ u32 elapsed < HALF.
Definition TimeAfter (now elapsed : Z) : Z := u32 (now + elapsed).

Definition TimeIsBetween (earlier middle later : Z) : bool :=
  if earlier <=? later then (earlier <=? middle) && (middle <=? later)
  else negb ((later <? middle) && (middle <? earlier)).

Definition TimeIsLaterOrEqual (earlier later : Z) : bool :=
  let diff := i32 (later - earlier) in
  (0 <=? diff) && (u32 diff <? HALF).
Definition TimeIsLaterOrEqual_ref (earlier later : Z) : bool :=
  TimeIsBetween earlier later (u32 (earlier + HALF)).

Definition TimeIsLater (earlier later : Z) : bool :=
  let diff := i32 (later - earlier) in
  (0 <? diff) && (u32 diff <? HALF).
Definition TimeIsLater_ref (earlier later : Z) : bool :=
  negb (TimeIsBetween later earlier (u32 (later + HALF))).

Definition TimeDiff (later earlier : Z) : Z := i32 (later - earlier).
Definition TimeDiff_ref (later earlier : Z) : Z :=
  if TimeIsBetween earlier later (u32 (earlier + HALF)) then
    if earlier <=? later then i32 (u32 (later - earlier))
    else i32 (u32 (later + (LAST - earlier) + 1))
  else
    if later <=? earlier then i32 (- i32 (u32 (earlier - later)))
    else i32 (- i32 (u32 (earlier + (LAST - later) + 1))).

Definition TimeMax (ts1 ts2 : Z) : Z := if TimeIsLaterOrEqual ts1 ts2 then ts2 else ts1.
Definition TimeMin (ts1 ts2 : Z) : Z := if TimeIsLaterOrEqual ts1 ts2 then ts1 else ts2.
Definition TimeSince (now earlier : Z) : Z := TimeDiff now earlier.
Definition TimeUntil (now later : Z) : Z := TimeDiff later now.
Definition UnixTimestampNanosecsToNtpMillisecs (unix_ts_ns : Z) : Z :=
  Z.quot unix_ts_ns kNumNanosecsPerMillisec + kJan1970AsNtpMillisecs.

Abbreviation stamp := (in_width 32).

Ltac time_cases :=
  repeat match goal with
  | |- context [?a <=? ?b] => destruct (Z.leb_spec a b)
  | |- context [?a <? ?b] => destruct (Z.ltb_spec a b)
  end; cbn [andb negb].
Ltac time_solve := time_cases; try reflexivity; exfalso; word_lia.

(** Between two stamps less than half the range apart, on whichever side of
    the wrap they lie, the comparisons are those of the unwrapped times. *)
Theorem time_compare_sound t d :
  stamp t -> - HALF < d < HALF ->
  let t' := u32 (t + d) in
  TimeIsLater t t' = (0 <? d) /\ TimeIsLaterOrEqual t t' = (0 <=? d) /\
  TimeDiff t' t = d /\ TimeUntil t t' = d /\ TimeSince t' t = d.
Proof.
  intros Ht Hd t'. assert (Hdiff : i32 (t' - t) = d).
  { subst t'. unfold HALF in *. word_lia. }
  unfold TimeIsLater, TimeIsLaterOrEqual, TimeUntil, TimeSince, TimeDiff.
  rewrite Hdiff. unfold HALF in *. split_and!; auto; time_solve.
Qed.

(** The compiled comparisons are antisymmetric and total except for two stamps
    exactly half the range apart, of which neither is later. *)
Theorem time_compare_total t1 t2 :
  stamp t1 -> stamp t2 ->
  TimeIsLaterOrEqual t1 t2 = negb (TimeIsLater t2 t1) \/ u32 (t2 - t1) = HALF.
Proof.
  intros. unfold TimeIsLater, TimeIsLaterOrEqual, HALF.
  destruct (decide (u32 (t2 - t1) = 0x80000000)); [by right|left]. time_solve.
Qed.

(** The efficient and the reference implementations agree, [TimeIsLater] and
    [TimeDiff] everywhere and [TimeIsLaterOrEqual] except on stamps exactly half
    the range apart, where the reference says yes and the compiled code no. *)
Theorem efficient_equals_reference earlier later :
  stamp earlier -> stamp later ->
  TimeIsLater earlier later = TimeIsLater_ref earlier later /\
  TimeDiff later earlier = TimeDiff_ref later earlier /\
  TimeIsLaterOrEqual earlier later =
    TimeIsLaterOrEqual_ref earlier later && negb (u32 (later - earlier) =? HALF).
Proof.
  intros.
  unfold TimeIsLater, TimeIsLater_ref, TimeDiff, TimeDiff_ref, TimeIsLaterOrEqual,
    TimeIsLaterOrEqual_ref, TimeIsBetween, HALF, LAST in *.
  split_and!.
  - time_solve.
  - time_cases; try reflexivity; word_lia.
  - destruct (Z.eqb_spec (u32 (later - earlier)) 0x80000000); time_solve.
Qed.

(** ** Concrete runs, across the wrap of the clock *)
Lemma time_compare_sound_witness :
  let t := 2 ^ 32 - 5 in
  TimeIsLater t (u32 (t + 10)) = true /\ TimeIsLaterOrEqual t (u32 (t + 10)) = true /\
  TimeDiff (u32 (t + 10)) t = 10 /\ TimeUntil t (u32 (t + 10)) = 10 /\ TimeSince (u32 (t + 10)) t = 10.
Proof. apply (time_compare_sound (2 ^ 32 - 5) 10); vm_compute; intuition congruence. Defined.
Lemma efficient_equals_reference_witness :
  let '(a, b) := (7, HALF + 7) in
  TimeIsLater a b = TimeIsLater_ref a b /\ TimeDiff b a = TimeDiff_ref b a /\
  TimeIsLaterOrEqual a b = TimeIsLaterOrEqual_ref a b && negb (u32 (b - a) =? HALF).
Proof. apply (efficient_equals_reference 7 (HALF + 7)); vm_compute; intuition congruence. Defined.
