(* ===== verification/Clock.v ===== *)
(** * base/timeutils.cpp: reading the clock

    [TimeNanos] on POSIX and on Windows, where the 32-bit milliseconds of
    [timeGetTime] are extended by counting their wraps.  [last_timegettime] and
    [num_wrap_timegettime] are shared by all threads, which execute the three accesses
    to them one at a time; a call that nobody disturbs is [TimeNanos_win].  Last come the file times of base/win32.cpp. *)
From S2P Require Import Prelude TimeUtils.

Definition kNumNanosecsPerSec : Z := 1000000000.
Definition kNumMicrosecsPerSec : Z := 1000000.
(** [clock_gettime]: seconds and nanoseconds. *)
Definition TimeNanos_posix (tv_sec tv_nsec : Z) : Z := u64 (kNumNanosecsPerSec * tv_sec + tv_nsec).

(** Mac OS: the ticks, with the fraction that makes nanoseconds of them, whose terms have 32 bits. *)
Definition TimeNanos_mach (mach_absolute_time numer denom : Z) : Z := u64 (mach_absolute_time * numer) / denom.

(** ** Windows *)
Record WinClock := mkWinClock { last_timegettime : Z; num_wrap_timegettime : Z }.
Definition clock_start : WinClock := mkWinClock 0 0.
(** What a call has done: nothing, the exchange, the count. *)
Inductive reading := Entered | Exchanged (now old : Z) | Counted (now : Z) | Returned (ticks : Z).
(** [now] is what [timeGetTime] gives when it is called. *)
Definition clock_step (now : Z) (r : reading) (c : WinClock) : reading * WinClock :=
  match r with
  | Entered => (Exchanged now (last_timegettime c), mkWinClock now (num_wrap_timegettime c))
  | Exchanged now old =>
    if (now <? old) && ((0xf0000000 <? old) && (now <? 0x0fffffff))
    then (Counted now, mkWinClock (last_timegettime c) (num_wrap_timegettime c + 1))
    else (Counted now, c)
  | Counted now =>
    (Returned (u64 ((now + Z.shiftl (num_wrap_timegettime c) 32) * kNumNanosecsPerMillisec)), c)
  | Returned ticks => (Returned ticks, c)
  end.
Definition TimeNanos_win (now : Z) (c : WinClock) : Z * WinClock :=
  let '(r, c) := clock_step now Entered c in
  let '(r, c) := clock_step now r c in
  let '(r, c) := clock_step now r c in
  (match r with Returned ticks => ticks | _ => 0 end, c).
(** Readings one after the other. *)
Fixpoint readings (nows : list Z) (c : WinClock) : list Z :=
  match nows with
  | [] => []
  | now :: nows => let '(ticks, c) := TimeNanos_win now c in ticks :: readings nows c
  end.

(** ** The time of day *)
Definition kFileTimeToUnixTimeEpochOffset : Z := 116444736000000000.
(** [FILETIME] in its two words; the difference is unsigned, [long] has 32 bits. *)
Definition gettimeofday (dwLowDateTime dwHighDateTime : Z) : Z * Z :=
  let QuadPart := dwLowDateTime + Z.shiftl dwHighDateTime 32 in
  let micros := u64 (QuadPart - kFileTimeToUnixTimeEpochOffset) / 10 in
  (i32 (Z.quot micros kNumMicrosecsPerSec), i32 (Z.rem micros kNumMicrosecsPerSec)).

(** [gmtime]: the broken-down time, or none if there is no such; the clock that cannot be read gives 1970.  The time and the microseconds. *)
Definition CurrentTmTime {tm : Type} (gmtime : Z -> option tm) (now : option (Z * Z)) (result : tm) : tm * Z :=
  let '(tv_sec, tv_usec) := default (0, 0) now in (default result (gmtime tv_sec), tv_usec).

(** ** What the clock promises *)
Definition MAX_GAP : Z := 2 ^ 28.
(** True times in milliseconds, no two successive ones 3.1 days or more apart. *)
Fixpoint spaced (before : Z) (times : list Z) : Prop :=
  match times with
  | [] => True
  | t :: times => before <= t < before + MAX_GAP /\ spaced t times
  end.
Lemma TimeNanos_win_spec before t c : 0 <= before <= t -> t < before + MAX_GAP ->
  c = mkWinClock (before mod 2 ^ 32) (before / 2 ^ 32) ->
  TimeNanos_win (t mod 2 ^ 32) c = (u64 (t * kNumNanosecsPerMillisec), mkWinClock (t mod 2 ^ 32) (t / 2 ^ 32)).
Proof.
  intros Hb Ht ->. unfold MAX_GAP in Ht. unfold TimeNanos_win, clock_step. cbn [last_timegettime num_wrap_timegettime].
  assert (H : (t / 2 ^ 32 = before / 2 ^ 32 /\ before mod 2 ^ 32 <= t mod 2 ^ 32) \/
    (t / 2 ^ 32 = before / 2 ^ 32 + 1 /\ t mod 2 ^ 32 < before mod 2 ^ 32 /\ 0xf0000000 < before mod 2 ^ 32 /\ t mod 2 ^ 32 < 0x0fffffff)).
  { change (2 ^ 28) with 268435456 in Ht. word_lia. }
  assert (E : t = t mod 2 ^ 32 + Z.shiftl (t / 2 ^ 32) 32) by (rewrite Z.shiftl_mul_pow2 by lia; pose proof (Z.div_mod t (2 ^ 32)); lia).
  destruct H as [[Eq Hle]|(Eq & H1 & H2 & H3)].
  - rewrite (proj2 (Z.ltb_ge _ _)) by done. cbn [andb num_wrap_timegettime last_timegettime]. rewrite <- Eq, <- E. done.
  - rewrite !(proj2 (Z.ltb_lt _ _)) by done. cbn [andb num_wrap_timegettime last_timegettime]. rewrite <- Eq, <- E. done.
Qed.
(** On Windows successive readings give the true time in nanoseconds through
    any number of wraps of the 32-bit counter, when the first is made before the first
    wrap and no two are 2^28 ms (3.1 days) apart. *)
Theorem readings_exact first times : 0 <= first < 2 ^ 32 -> spaced first times ->
  Forall (fun t => t * kNumNanosecsPerMillisec < 2 ^ 64) (first :: times) ->
  readings (map (fun t => t mod 2 ^ 32) (first :: times)) clock_start = map (fun t => t * kNumNanosecsPerMillisec) (first :: times).
Proof.
  intros Hf Hs Hb.
  assert (Hrest : forall times before, 0 <= before -> spaced before times -> Forall (fun t => t * kNumNanosecsPerMillisec < 2 ^ 64) times ->
    readings (map (fun t => t mod 2 ^ 32) times) (mkWinClock (before mod 2 ^ 32) (before / 2 ^ 32)) = map (fun t => t * kNumNanosecsPerMillisec) times).
  { clear. induction times as [|t times IH]; intros before Hb Hs Hm; [done|]. cbn [map readings].
    destruct Hs as [Ht Hs]. apply Forall_cons_1 in Hm as [Hm Hms].
    rewrite (TimeNanos_win_spec before t _) by (done || lia). rewrite IH by (done || lia). f_equal.
    apply wrap_id. split; [change kNumNanosecsPerMillisec with 1000000; lia|done]. }
  apply Forall_cons_1 in Hb as [Hm Hms]. cbn [map readings]. rewrite Z.mod_small by done.
  assert (E : TimeNanos_win first clock_start = (u64 (first * kNumNanosecsPerMillisec), mkWinClock (first mod 2 ^ 32) (first / 2 ^ 32))).
  { unfold TimeNanos_win, clock_step, clock_start. cbn [last_timegettime num_wrap_timegettime].
    rewrite (proj2 (Z.ltb_ge _ _)) by lia. cbn [andb last_timegettime num_wrap_timegettime].
    rewrite Z.mod_small, Z.div_small by done. cbn. by rewrite Z.add_0_r. }
  rewrite E. rewrite Hrest by (done || lia). f_equal. apply wrap_id. split; [change kNumNanosecsPerMillisec with 1000000; lia|done].
Qed.
Definition demo_times : list Z := map (fun i => 4294000000 + i * 200000000) (seqZ 1 40).
Lemma readings_exact_witness :
  readings (map (fun t => t mod 2 ^ 32) (4294000000 :: demo_times)) clock_start
  = map (fun t => t * kNumNanosecsPerMillisec) (4294000000 :: demo_times).
Proof.
  apply readings_exact; [done|vm_compute; repeat split; congruence|]. apply (bool_decide_unpack _). by vm_compute.
Defined.

(** After 3.2 days without a reading a wrap is missed and the clock goes back. *)
Example missed_wrap : readings [0xefffffff; 1] clock_start = [4026531839 * 1000000; 1000000].
Proof. by vm_compute. Qed.
(** A thread that comes between another's exchange and its count is given a time
    49 days in the past. *)
Example reading_between :
  let c := mkWinClock 0xffffffff 0 in
  let '(a, c) := clock_step 1 Entered c in
  let '(b, c) := TimeNanos_win 2 c in
  let '(a, c) := clock_step 1 a c in
  let '(a, c) := clock_step 1 a c in
  b = 2 * 1000000 /\ a = Returned ((2 ^ 32 + 1) * 1000000).
Proof. by vm_compute. Qed.

(** The time of the system comes out as seconds and microseconds until 2038. *)
Lemma gettimeofday_unix u : 0 <= u < 2 ^ 31 * kNumMicrosecsPerSec ->
  let ft := 10 * u + kFileTimeToUnixTimeEpochOffset in
  gettimeofday (ft mod 2 ^ 32) (ft / 2 ^ 32) = (u / kNumMicrosecsPerSec, u mod kNumMicrosecsPerSec).
Proof.
  intros Hu ft. unfold gettimeofday. rewrite Z.shiftl_mul_pow2 by lia.
  replace (ft mod 2 ^ 32 + ft / 2 ^ 32 * 2 ^ 32) with ft by (pose proof (Z.div_mod ft (2 ^ 32) ltac:(lia)); lia).
  unfold ft. replace (10 * u + kFileTimeToUnixTimeEpochOffset - kFileTimeToUnixTimeEpochOffset) with (u * 10) by lia.
  unfold kNumMicrosecsPerSec in *. unfold u64. rewrite wrap_id, Z.div_mul by (unfold in_width; lia). rewrite Z.quot_div_nonneg, Z.rem_mod_nonneg by lia.
  pose proof (Z.mod_pos_bound u 1000000 ltac:(lia)). assert (0 <= u / 1000000 < 2 ^ 31) by (split; [apply Z.div_pos; lia|apply Z.div_lt_upper_bound; lia]).
  rewrite !i32_id by lia. done.
Qed.

(** The product does not wrap for years; then the clock is exact, and does not go back. *)
Lemma TimeNanos_mach_exact t numer denom : 0 <= t -> 0 < numer < 2 ^ 32 -> 0 < denom < 2 ^ 32 -> t * numer < 2 ^ 64 ->
  TimeNanos_mach t numer denom * denom <= t * numer < (TimeNanos_mach t numer denom + 1) * denom.
Proof.
  intros Ht Hn Hd Hm. unfold TimeNanos_mach, u64. rewrite wrap_id by (unfold in_width; nia). pose proof (Z.div_mod (t * numer) denom ltac:(lia)). pose proof (Z.mod_pos_bound (t * numer) denom ltac:(lia)). nia.
Qed.
(** With the billion thirty-three-millionths of the PowerPC it wraps, and goes back, after ten minutes. *)
Example mach_wraps : TimeNanos_mach (33333335 * 553) 1000000000 33333335 = 553000000000 /\ TimeNanos_mach (33333335 * 554) 1000000000 33333335 = 597705458.
Proof. by vm_compute. Qed.

(** ** File times (base/win32.cpp)

    Tenths of microseconds in 64 unsigned bits; [time_t] has 64 signed bits.  The file time of 1970 is what the system makes of that date. *)
Definition RATIO : Z := 10000000.
Definition i64 (z : Z) : Z := wrap 64 (z + 2 ^ 63) - 2 ^ 63.
Section file_time.
Context (base_ul : Z).
Definition FileTimeToUnixTime (ft : Z) : Z := i64 (u64 (ft - base_ul) / RATIO).
Definition UnixTimeToFileTime (ut : Z) : Z := u64 (base_ul + u64 (ut * RATIO)).
(** Times since 1970 that a file time can hold come back. *)
Lemma file_time_round_trip ut : 0 <= base_ul -> 0 <= ut -> base_ul + ut * RATIO < 2 ^ 64 -> FileTimeToUnixTime (UnixTimeToFileTime ut) = ut.
Proof.
  unfold FileTimeToUnixTime, UnixTimeToFileTime, RATIO. intros Hb Hu Hm. unfold u64. rewrite (wrap_id 64 (ut * 10000000)) by (unfold in_width; lia). rewrite (wrap_id 64 (base_ul + _)) by (unfold in_width; lia).
  rewrite Z.add_simpl_l, wrap_id by (unfold in_width; lia). rewrite Z.div_mul by lia. unfold i64. assert (0 <= ut < 2 ^ 63) by (change (2 ^ 64) with 18446744073709551616 in Hm; lia). rewrite wrap_id by (unfold in_width; lia). lia.
Qed.
End file_time.
Example file_time_of_2038 : FileTimeToUnixTime kFileTimeToUnixTimeEpochOffset (UnixTimeToFileTime kFileTimeToUnixTimeEpochOffset 2147483648) = 2147483648.
Proof. by apply file_time_round_trip. Qed.
(** The second before 1970 comes back as a time in the year 60425. *)
Example file_time_before_1970 : FileTimeToUnixTime kFileTimeToUnixTimeEpochOffset (UnixTimeToFileTime kFileTimeToUnixTimeEpochOffset (-1)) = 1844674407369.
Proof. by vm_compute. Qed.
