(* ===== verification/InetText.v ===== *)
(** * base/win32.cpp: IP addresses as text

    [inet_ntop] and [inet_pton] as the library has them for Windows, which
    base/nethelpers.cpp calls there.  An address is its bytes in network order, 4
    or 16 of them; text to be read is a C string, text to be written goes into an
    array at a cursor.  Pointers are valid; a write outside an array is
    [Undefined].  The loops have fuel for as many rounds as they can make. *)
From Stdlib Require Import Ascii String.
From S2P Require Import Prelude Text ByteOrder Strings.

(** The values of the Windows headers. *)
Definition AF_UNSPEC : Z := 0.
Definition AF_INET : Z := 2.
Definition AF_INET6 : Z := 23.
Definition INET_ADDRSTRLEN : nat := 22.
Definition INET6_ADDRSTRLEN : nat := 65.

Definition COLON : Z := 58.
Definition DOT : Z := 46.

(** [*cursor++ = c], and [cursor += sprintfn(cursor, size, ..)], the format giving
    [text]. *)
Definition putc (c : Z) (st : list Z * nat) : outcome (list Z * nat) :=
  let '(dst, cursor) := st in
  if (cursor <? length dst)%nat then Done (<[cursor := c]> dst, S cursor) else Undefined.
Definition put_text (size : nat) (text : list Z) (st : list Z * nat) : outcome (list Z * nat) :=
  let '(dst, cursor) := st in
  '(tail, n) ← vsprintfn (drop cursor dst) size text;
  Done (take cursor dst ++ tail, (cursor + n)%nat).

Section inet.
Context {HO : Host}.

(** ** inet_ntop *)
Definition dotted (src : list Z) : list Z :=
  print_d (src !!! 0%nat) ++ [DOT] ++ print_d (src !!! 1%nat) ++ [DOT]
  ++ print_d (src !!! 2%nat) ++ [DOT] ++ print_d (src !!! 3%nat).

Definition inet_ntop_v4 (src dst : list Z) (size : nat) : outcome (option (list Z)) :=
  if (size <? INET_ADDRSTRLEN)%nat then Done None
  else '(dst, _) ← vsprintfn dst size (dotted src); Done (Some dst).

Definition as_short (src : list Z) (i : nat) : Z := host_value (slice (2 * i) 2 src).
Definition run_array_size : nat := 8.

(** The runs of zeros: [runpos], [max] and [maxpos] after the first loop. *)
Fixpoint mark_runs (shorts : list Z) (i current max maxpos : Z) : list Z * Z * Z :=
  match shorts with
  | [] => ([], max, maxpos)
  | s :: shorts =>
    if s =? 0 then
      let '(max', maxpos') := if max <? current then (current, i) else (max, maxpos) in
      let '(runpos, m, p) := mark_runs shorts (i + 1) (current + 1) max' maxpos' in
      (current :: runpos, m, p)
    else
      let '(runpos, m, p) := mark_runs shorts (i + 1) 1 max maxpos in
      (-1 :: runpos, m, p)
  end.
(** The second loop, from the last mark to the first; it keeps the longest run. *)
Fixpoint keep_run (runpos : list Z) (i tmpmax : Z) : list Z * Z :=
  match runpos with
  | [] => ([], tmpmax)
  | r :: runpos =>
    let '(runpos, tmpmax) := keep_run runpos (i + 1) tmpmax in
    if tmpmax <? i then (-1 :: runpos, tmpmax)
    else if r =? -1 then (r :: runpos, -1)
    else (r :: runpos, tmpmax)
  end.
Definition runs_of (as_shorts : list Z) : list Z * Z * Z :=
  let '(runpos, max, maxpos) := mark_runs as_shorts 0 1 1 (-1) in
  (if 1 <? max then fst (keep_run runpos 0 maxpos) else runpos, max, maxpos).

(** The last loop of [inet_ntop_v6]. *)
Fixpoint print_shorts (fuel : nat) (src runpos : list Z) (max : Z) (i : nat) (st : list Z * nat)
  : outcome (list Z * nat) :=
  match fuel with
  | O => Done st
  | S fuel =>
    if (run_array_size <=? i)%nat then Done st
    else
      if (runpos !!! i) =? -1 then
        st ← put_text (INET6_ADDRSTRLEN - st.2) (print_x (NetworkToHost16 (as_short src i))) st;
        st ← (if negb (i =? 7)%nat && negb ((runpos !!! S i) =? 1) then putc COLON st else Done st);
        print_shorts fuel src runpos max (S i) st
      else if (runpos !!! i) =? 1 then
        st ← putc COLON st;
        st ← putc COLON st;
        print_shorts fuel src runpos max (S (i + Z.to_nat (max - 1))) st
      else print_shorts fuel src runpos max (S i) st
  end.

Definition inet_ntop_v6 (src dst : list Z) (size : nat) : outcome (option (list Z)) :=
  if (size <? INET6_ADDRSTRLEN)%nat then Done None
  else
    let '(runpos, max, maxpos) := runs_of (as_short src <$> seq 0 run_array_size) in
    if ((runpos !!! 0%nat) =? 1)
       && ((maxpos =? 5) || ((maxpos =? 4) && (as_short src 5 =? 65535)))
    then
      st ← putc COLON (dst, 0%nat);
      st ← putc COLON st;
      '(dst, cursor) ← (if maxpos =? 4 then put_text (INET6_ADDRSTRLEN - 2) (bytes "ffff:") st else Done st);
      r ← inet_ntop_v4 (drop 12 src) (drop cursor dst) (INET6_ADDRSTRLEN - cursor);
      Done (Some (match r with Some tail => take cursor dst ++ tail | None => dst end))
    else
      st ← print_shorts run_array_size src runpos max 0 (dst, 0%nat);
      Done (Some (fst st)).

(** [None] is a null result; otherwise the array that was written. *)
Definition inet_ntop (af : Z) (src dst : list Z) (size : nat) : outcome (option (list Z)) :=
  if af =? AF_INET then inet_ntop_v4 src dst size
  else if af =? AF_INET6 then inet_ntop_v6 src dst size
  else Done None.

(** ** inet_pton *)

(** [remaining] is [kIpv4AddressSize - found]; [None] is the result 0. *)
Definition kIpv4AddressSize : nat := 4.
Fixpoint inet_pton_v4_loop (remaining : nat) (result src_pos : list Z) : option (list Z) :=
  match src_pos with
  | [] => if (remaining =? 0)%nat then Some result else None
  | c :: _ =>
    if negb (is_digit c) then None
    else
      let '(value, end_pos) := scan_digits 0 src_pos in
      if 255 <? value then None
      else match remaining with
      | O => None
      | S remaining =>
        match end_pos with
        | [] => inet_pton_v4_loop remaining (result ++ [value]) []
        | c :: rest => if c =? DOT then inet_pton_v4_loop remaining (result ++ [value]) rest else None
        end
      end
  end.
Definition inet_pton_v4 (src : list Z) : option (list Z) :=
  inet_pton_v4_loop kIpv4AddressSize [] src.

Definition count_colons (l : list Z) : nat := length (filter (fun c => c = COLON) l).

(** The loop of [inet_pton_v6]: [cursor] is [addr_cursor] as an index of the
    eight shorts of [an_addr], which it may precede. *)
Fixpoint inet_pton_v6_loop (fuel : nat) (readcursor an_addr : list Z) (cursor : Z) (seencompressed : bool)
  : outcome (option (list Z * list Z * Z)) :=
  match fuel with
  | O => Undefined
  | S fuel =>
    match readcursor with
    | [] => Done (Some (readcursor, an_addr, cursor))
    | c :: next =>
      if negb (cursor <? 8) then Done (Some (readcursor, an_addr, cursor))
      else if c =? COLON then
        if hd 0 next =? COLON then
          if seencompressed then Done None
          else match tl next with
          | [] => inet_pton_v6_loop fuel [] an_addr 8 seencompressed
          | coloncounter =>
            inet_pton_v6_loop fuel coloncounter an_addr (8 - (Z.of_nat (count_colons coloncounter) + 1)) true
          end
        else inet_pton_v6_loop fuel next an_addr cursor seencompressed
      else
        match scan_hx readcursor with
        | None => Done None
        | Some (word, rest) =>
          if cursor <? 0 then Undefined
          else
            let an_addr := write_at (2 * Z.to_nat cursor) (host_bytes 2 (HostToNetwork16 word)) an_addr in
            if (hd 0 rest =? COLON) || (match rest with [] => true | _ => false end)
            then inet_pton_v6_loop fuel rest an_addr (cursor + 1) seencompressed
            else Done None
        end
    end
  end.

Definition inet_pton_v6 (src : list Z) : outcome (option (list Z)) :=
  if existsb (Z.eqb 120) src then Done None
  else
    let an_addr := replicate 16 0 in
    let addrstart := drop 2 src in
    if (hd 0 src =? COLON) && (hd 0 (tl src) =? COLON) && (match addrstart with [] => false | _ => true end)
       && bool_decide (is_Some (strchr addrstart [DOT]))
    then
      let v4start : option (list Z * list Z) :=
        match strchr addrstart [COLON; COLON] with
        | Some colon =>
          '(a_short, rest) ← scan_hx addrstart;
          if negb (a_short =? 65535) || negb (length addrstart - length rest =? 4)%nat then None
          else Some (write_at 10 [255; 255] an_addr, drop (S colon) addrstart)
        | None => Some (an_addr, addrstart)
        end in
      Done ('(an_addr, addrstart) ← v4start;
            v4 ← inet_pton_v4 addrstart;
            Some (write_at 12 v4 an_addr))
    else
      r ← inet_pton_v6_loop (S (length src)) src an_addr 0 false;
      match r with
      | None => Done None
      | Some (readcursor, an_addr, cursor) =>
        if (match readcursor with [] => false | _ => true end) || (cursor <? 8) then Done None
        else Done (Some an_addr)
      end.

(** The result, and what is stored at [dst] when it is 1. *)
Definition inet_pton (af : Z) (src : list Z) : outcome (Z * option (list Z)) :=
  if (af =? AF_INET) || (af =? AF_INET6) then
    r ← (if af =? AF_INET then Done (inet_pton_v4 src) else inet_pton_v6 src);
    Done (match r with Some _ => 1 | None => 0 end, r)
  else Done (-1, None).
End inet.

(** ** Examples *)
Definition ntop_text (af : Z) (src : list Z) : outcome (option (list Z)) :=
  outcome_bind (inet_ntop (HO := little_endian) af src (replicate 65 0) 65) (fun r => Done (c_str <$> r)).
(** The bytes of eight words. *)
Definition v6 (ws : list Z) : list Z := be_words 2 ws.
Example ntop_examples :
  ntop_text AF_INET [192; 168; 0; 1] = Done (Some (bytes "192.168.0.1")) /\
  ntop_text AF_INET6 (v6 [8193; 3512; 0; 0; 1; 0; 0; 1]) = Done (Some (bytes "2001:db8::1:0:0:1")) /\
  ntop_text AF_INET6 (v6 [0; 0; 0; 0; 0; 65535; 49320; 1]) = Done (Some (bytes "::ffff:192.168.0.1")) /\
  ntop_text AF_INET6 (v6 [0; 0; 0; 0; 0; 0; 0; 0]) = Done (Some (bytes "::")) /\
  ntop_text AF_INET6 (v6 [1; 0; 2; 0; 3; 4; 5; 6]) = Done (Some (bytes "1::2::3:4:5:6")).
Proof. by vm_compute. Qed.

(** ** Writing into a zeroed array *)

(** What an array of [n] zeros holds after [text] was written, with the cursor
    behind it. *)
Definition written (n : nat) (text : list Z) : list Z * nat :=
  (text ++ replicate (n - length text) 0, length text).

Lemma vsprintfn_zeros n size text : (length text < size <= n)%nat ->
  vsprintfn (replicate n 0) size text = Done (text ++ replicate (n - length text) 0, length text).
Proof.
  intros H. unfold vsprintfn, _vsnprintf. rewrite length_replicate.
  replace (n <? size `min` S (length text))%nat with false by (symmetry; apply Nat.ltb_ge; lia).
  replace (length text <? size)%nat with true by (symmetry; apply Nat.ltb_lt; lia).
  replace ((Z.of_nat (length text) <? 0) || (Z.of_nat size <=? Z.of_nat (length text))) with false
    by (symmetry; apply orb_false_iff; rewrite Z.ltb_ge, Z.leb_gt; lia).
  rewrite Nat2Z.id. do 2 f_equal. unfold write_at. rewrite take_0, app_nil_l, length_app, drop_replicate.
  rewrite <- app_assoc. cbn [length app]. f_equal.
  destruct (n - length text)%nat as [|k] eqn:E; [lia|]. cbn [replicate]. f_equal. f_equal. lia.
Qed.

Lemma putc_written n c text : (length text < n)%nat ->
  putc c (written n text) = Done (written n (text ++ [c])).
Proof.
  intros H. unfold putc, written. rewrite length_app, length_replicate.
  replace (_ <? _)%nat with true by (symmetry; apply Nat.ltb_lt; lia).
  rewrite length_app. cbn [length]. rewrite Nat.add_1_r. do 2 f_equal.
  destruct (n - length text)%nat as [|k] eqn:E; [lia|]. cbn [replicate].
  replace (n - S (length text))%nat with k by lia.
  rewrite <- app_assoc. cbn [app]. rewrite <- (Nat.add_0_r (length text)) at 1. by rewrite insert_app_r.
Qed.
Lemma put_text_written n size text more : (length more < size)%nat -> (length text + size <= n)%nat ->
  put_text size more (written n text) = Done (written n (text ++ more)).
Proof.
  intros Hm Hs. unfold put_text, written. rewrite drop_app_length, take_app_length.
  rewrite vsprintfn_zeros by lia. run. rewrite length_app, <- app_assoc. by rewrite Nat.sub_add_distr.
Qed.

(** ** Dotted addresses *)
Lemma length_print_byte b : is_byte b -> (length (print_d b) <= 3)%nat.
Proof.
  intros H. apply Nat.leb_le, (seqZ_forallb (fun b => (length (print_d b) <=? 3)%nat) 0 256); [by vm_compute|].
  word_lia.
Qed.

Lemma length_dotted src : length src = 4%nat -> is_bytes src -> (length (dotted src) <= 15)%nat.
Proof.
  intros Hl Hb. do 4 (destruct src as [|? src]; [done|]). destruct src; [|done].
  unfold dotted. cbn [lookup_total list_lookup_total]. rewrite !length_app. cbn [length].
  repeat (apply Forall_cons_1 in Hb as [? Hb]; pose proof (length_print_byte _ H); clear H). lia.
Qed.

Section v4.
Context {HO : Host}.

Lemma inet_ntop_v4_zeros src n size : length src = 4%nat -> is_bytes src ->
  (INET_ADDRSTRLEN <= size <= n)%nat ->
  inet_ntop_v4 src (replicate n 0) size =
  Done (Some (dotted src ++ replicate (n - length (dotted src)) 0)).
Proof.
  intros Hl Hb Hn. unfold inet_ntop_v4, INET_ADDRSTRLEN in *.
  replace (size <? 22)%nat with false by (symmetry; apply Nat.ltb_ge; lia).
  pose proof (length_dotted src Hl Hb). by rewrite vsprintfn_zeros by lia.
Qed.
End v4.

Lemma pton_v4_number k result b rest : is_byte b ->
  inet_pton_v4_loop (S k) result (print_d b ++ rest) =
  match rest with
  | [] => inet_pton_v4_loop k (result ++ [b]) []
  | c :: rest' =>
    if is_digit c then inet_pton_v4_loop (S k) result (print_d b ++ rest)
    else if c =? DOT then inet_pton_v4_loop k (result ++ [b]) rest' else None
  end.
Proof.
  intros Hb. destruct (match rest with [] => true | c :: _ => negb (is_digit c) end) eqn:Hr.
  2: { destruct rest as [|c rest]; [done|]. apply negb_false_iff in Hr. by rewrite Hr. }
  assert (stops rest) as Hs by (destruct rest as [|c rest]; [done|]; by apply negb_true_iff in Hr).
  unfold is_byte, in_width in Hb. unfold print_d. destruct (Z.ltb_spec b 0); [lia|]. unfold print_nat.
  destruct (digits_head (S (Z.to_nat (Z.log2 b))) b) as (c & l & E & Hc); [lia|lia|].
  destruct (scan_digits_digits (S (Z.to_nat (Z.log2 b))) b 0 rest) as (k' & _ & Hk); [lia|lia|].
  rewrite E in *. cbn [app] in *. cbn [inet_pton_v4_loop]. rewrite Hc, Hk, scan_digits_stop by done.
  cbn [negb]. rewrite Z.mul_0_l, Z.add_0_l. destruct (Z.ltb_spec 255 b); [lia|].
  destruct rest as [|d rest]; [done|]. apply negb_true_iff in Hr. by rewrite Hr.
Qed.

Lemma pton_v4_dot k result b rest : is_byte b ->
  inet_pton_v4_loop (S k) result (print_d b ++ DOT :: rest) = inet_pton_v4_loop k (result ++ [b]) rest.
Proof. intros. by rewrite pton_v4_number. Qed.

Lemma inet_pton_v4_dotted src : length src = 4%nat -> is_bytes src ->
  inet_pton_v4 (dotted src) = Some src.
Proof.
  intros Hl Hb. do 4 (destruct src as [|? src]; [done|]). destruct src; [|done].
  repeat (apply Forall_cons_1 in Hb as [? Hb]).
  unfold dotted, inet_pton_v4, kIpv4AddressSize. cbn [lookup_total list_lookup_total].
  cbn [app]. rewrite !pton_v4_dot by done.
  rewrite <- (app_nil_r (print_d z2)), pton_v4_number by done. done.
Qed.

(** ** Reading the words of an address *)
Fixpoint join_words (ws : list Z) : list Z :=
  match ws with
  | [] => []
  | [w] => print_x w
  | w :: ws => print_x w ++ COLON :: join_words ws
  end.
Lemma join_words_cons w w' ws :
  join_words (w :: w' :: ws) = print_x w ++ COLON :: join_words (w' :: ws).
Proof. done. Qed.
Definition words (ws : list Z) : Prop := Forall (in_width 16) ws.
Definition plain (c : Z) : Prop := is_hexit c \/ c = COLON.

Lemma words_nonneg w ws : words (w :: ws) -> 0 <= w /\ in_width 16 w /\ words ws.
Proof. intros [H ?]%Forall_cons_1. split; [apply H|done]. Qed.

Lemma join_words_plain ws : words ws -> Forall plain (join_words ws).
Proof.
  induction ws as [|w ws IH]; intros Hw; [constructor|].
  destruct (words_nonneg _ _ Hw) as (Hn & _ & Hw').
  assert (Forall plain (print_x w)) as Hp.
  { apply (List.Forall_impl _ (P := is_hexit)); [by left|by apply print_x_are]. }
  destruct ws as [|w' ws]; [done|]. apply Forall_app. split; [done|]. constructor; [by right|by apply IH].
Qed.
Lemma join_words_head w ws : words (w :: ws) ->
  exists c l, join_words (w :: ws) = c :: l /\ is_hexit c.
Proof.
  intros (Hn & _ & _)%words_nonneg. destruct (print_x_cons w Hn) as (c & l & E & Hc).
  destruct ws; cbn [join_words]; rewrite E; by do 2 eexists.
Qed.
Lemma length_join_words ws : words ws -> (2 * length ws - 1 <= length (join_words ws))%nat.
Proof.
  induction ws as [|w ws IH]; intros Hw; [cbn; lia|].
  destruct (words_nonneg _ _ Hw) as (Hn & _ & Hw'). specialize (IH Hw').
  destruct (print_x_cons w Hn) as (c & l & E & _). destruct ws as [|w' ws].
  - cbn [join_words]. rewrite E. cbn. lia.
  - rewrite join_words_cons, E, length_app. cbn [length] in *. lia.
Qed.

Lemma count_colons_app l m : count_colons (l ++ m) = (count_colons l + count_colons m)%nat.
Proof. unfold count_colons. by rewrite list.filter_app, length_app. Qed.
Lemma count_colons_hexits l : Forall is_hexit l -> count_colons l = 0%nat.
Proof.
  induction 1 as [|c l Hc _ IH]; [done|]. unfold count_colons in *. rewrite filter_cons_False; [done|].
  intros ->. unfold is_hexit, COLON in Hc. lia.
Qed.
Lemma count_colons_join ws : words ws -> count_colons (join_words ws) = (length ws - 1)%nat.
Proof.
  induction ws as [|w ws IH]; intros Hw; [done|].
  destruct (words_nonneg _ _ Hw) as (Hn & _ & Hw'). specialize (IH Hw').
  pose proof (count_colons_hexits _ (print_x_are w Hn)) as E.
  destruct ws as [|w' ws]; [done|]. rewrite join_words_cons, count_colons_app, E.
  unfold count_colons in *. rewrite filter_cons_True by done. cbn [length] in *. lia.
Qed.

Lemma length_v6 ws : length (v6 ws) = (2 * length ws)%nat.
Proof. apply length_be_words. Qed.
Lemma v6_app l m : v6 (l ++ m) = v6 l ++ v6 m.
Proof. apply be_words_app. Qed.
Lemma v6_write i w ws : (i < length ws)%nat ->
  write_at (2 * i) (be_bytes 2 w) (v6 ws) = v6 (write_at i [w] ws).
Proof. apply write_be_words. Qed.
Lemma write_at_cons (i : nat) (w : Z) ws ms : (i < length ms)%nat ->
  write_at (S i) ws (write_at i [w] ms) = write_at i (w :: ws) ms.
Proof.
  intros Hi. unfold write_at. cbn [length].
  rewrite take_app_ge by (rewrite length_take; lia). rewrite length_take, Nat.min_l by lia.
  replace (S i - i)%nat with 1%nat by lia. rewrite <- !app_assoc. cbn [app take]. rewrite take_0. cbn [app].
  f_equal. f_equal. f_equal.
  rewrite drop_app_ge by (rewrite length_take; lia). rewrite length_take, Nat.min_l by lia.
  replace (S i + length ws - i)%nat with (S (length ws)) by lia. cbn [drop]. rewrite drop_drop. f_equal. lia.
Qed.

Definition ends_word (rest : list Z) : Prop := match rest with [] => True | c :: _ => c = COLON end.

Section parse.
Context {HO : Host}.
Implicit Types ms ws rest : list Z.

Lemma pton_word fuel w rest addr cur seen : in_width 16 w -> ends_word rest -> (cur < 8)%nat ->
  inet_pton_v6_loop (S fuel) (print_x w ++ rest) addr (Z.of_nat cur) seen =
  inet_pton_v6_loop fuel rest (write_at (2 * cur) (be_bytes 2 w) addr) (Z.of_nat (S cur)) seen.
Proof.
  intros Hw Hr Hc. assert (0 <= w) as Hn by apply Hw.
  assert (Hs : scan_hx (print_x w ++ rest) = Some (w, rest)).
  { apply scan_print_x; [done|..]; destruct rest as [|c rest]; try done; by rewrite Hr. }
  destruct (print_x_cons w Hn) as (c & l & E & Hh). rewrite E in *. cbn [app] in *. cbn [inet_pton_v6_loop].
  replace (Z.of_nat cur <? 8) with true by lia. cbn [negb].
  replace (c =? COLON) with false by (unfold is_hexit, COLON in *; lia).
  rewrite Hs. replace (Z.of_nat cur <? 0) with false by lia.
  rewrite bytes_HostToNetwork16, Nat2Z.id.
  assert ((hd 0 rest =? COLON) || match rest with [] => true | _ :: _ => false end = true) as ->.
  { destruct rest as [|d rest]; [done|]. cbn. rewrite Hr. done. }
  f_equal. lia.
Qed.
Lemma pton_colon fuel c rest addr cur seen : is_hexit c -> (cur < 8)%nat ->
  inet_pton_v6_loop (S fuel) (COLON :: c :: rest) addr (Z.of_nat cur) seen =
  inet_pton_v6_loop fuel (c :: rest) addr (Z.of_nat cur) seen.
Proof.
  intros Hc Hu. cbn [inet_pton_v6_loop hd]. replace (Z.of_nat cur <? 8) with true by lia.
  cbn [negb]. by replace (c =? COLON) with false by (unfold is_hexit, COLON in *; lia).
Qed.

(** The words before the end of the text or a pair of colons. *)
Lemma pton_words ws : forall fuel ms cur seen rest, ws <> [] -> words ws -> length ms = 8%nat ->
  (cur + length ws <= 8)%nat -> ends_word rest ->
  inet_pton_v6_loop (2 * length ws - 1 + fuel) (join_words ws ++ rest) (v6 ms) (Z.of_nat cur) seen =
  inet_pton_v6_loop fuel rest (v6 (write_at cur ws ms)) (Z.of_nat (cur + length ws)) seen.
Proof.
  induction ws as [|w ws IH]; intros fuel ms cur seen rest Hne Hw Hm Hc Hr; [done|].
  destruct (words_nonneg _ _ Hw) as (_ & Hw16 & Hw'). destruct ws as [|w' ws].
  - cbn [length Nat.mul Nat.add Nat.sub join_words]. rewrite pton_word by (done || cbn in Hc; lia).
    rewrite v6_write by (cbn in Hc; lia). by rewrite Nat.add_1_r.
  - destruct (join_words_head w' ws Hw') as (c & l & E & Hh).
    specialize (IH fuel (write_at cur [w] ms) (S cur) seen rest).
    rewrite join_words_cons, <- app_assoc. cbn [app]. rewrite E in *. cbn [app] in *.
    replace (2 * length (w :: w' :: ws) - 1 + fuel)%nat
      with (S (S (2 * length (w' :: ws) - 1 + fuel))) by (cbn; lia).
    rewrite pton_word by (done || cbn in Hc; lia). rewrite v6_write by (cbn in Hc; lia).
    rewrite pton_colon by (done || cbn in Hc; lia).
    rewrite IH by (done || (rewrite length_write_at; cbn in *; lia) || (cbn in *; lia)).
    rewrite write_at_cons by (cbn in Hc; lia). do 2 f_equal. cbn. lia.
Qed.

Lemma plain_no_x l : Forall plain l -> existsb (Z.eqb 120) l = false.
Proof.
  induction 1 as [|c l Hc _ IH]; [done|]. cbn [existsb]. rewrite IH. unfold plain, is_hexit, COLON in Hc. lia.
Qed.
Lemma plain_no_dot l : Forall plain l -> strchr l [DOT] = None.
Proof.
  induction 1 as [|c l Hc _ IH]; [done|]. cbn [strchr existsb]. rewrite IH.
  replace ((c =? DOT) || false) with false by (unfold plain, is_hexit, COLON, DOT in *; lia). done.
Qed.
(** Without a dot the text is left to the loop. *)
Lemma inet_pton_v6_plain src : Forall plain src ->
  inet_pton_v6 src =
  (r ← inet_pton_v6_loop (S (length src)) src (v6 (replicate 8 0)) 0 false;
   match r with
   | None => Done None
   | Some (readcursor, an_addr, cursor) =>
     if (match readcursor with [] => false | _ => true end) || (cursor <? 8) then Done None
     else Done (Some an_addr)
   end).
Proof.
  intros Hp. unfold inet_pton_v6. rewrite plain_no_x by done.
  rewrite plain_no_dot by by apply Forall_drop. by rewrite bool_decide_eq_false_2, andb_false_r by by intros [].
Qed.

Lemma pton_full ws : words ws -> length ws = 8%nat -> inet_pton_v6 (join_words ws) = Done (Some (v6 ws)).
Proof.
  intros Hw Hl. rewrite inet_pton_v6_plain by by apply join_words_plain.
  pose proof (length_join_words ws Hw).
  replace (S (length (join_words ws)))
    with (2 * length ws - 1 + S (length (join_words ws) - (2 * length ws - 1)))%nat by lia.
  pose proof (pton_words ws (S (length (join_words ws) - (2 * length ws - 1))) (replicate 8 0) 0 false []) as E.
  rewrite app_nil_r in E. change (Z.of_nat 0) with 0 in E.
  rewrite E by (done || lia || (by intros ->)). rewrite Hl. run. cbn.
  do 2 f_equal. f_equal. unfold write_at. rewrite drop_ge by (cbn; lia). by rewrite app_nil_r.
Qed.

Lemma pton_gap fuel suf addr cur : words suf -> (cur < 8)%nat -> (length suf < 8)%nat ->
  inet_pton_v6_loop (S fuel) (COLON :: COLON :: join_words suf) addr (Z.of_nat cur) false =
  inet_pton_v6_loop fuel (join_words suf) addr (Z.of_nat (8 - length suf))
    (match suf with [] => false | _ => true end).
Proof.
  intros Hw Hc Hs. cbn [inet_pton_v6_loop hd tl]. replace (Z.of_nat cur <? 8) with true by lia.
  cbn [negb]. rewrite Z.eqb_refl. destruct suf as [|w suf]; [done|].
  pose proof (count_colons_join _ Hw) as Hn.
  destruct (join_words_head w suf Hw) as (c & l & E & _). rewrite E in *. rewrite Hn.
  f_equal. cbn [length] in *. lia.
Qed.
Lemma pton_end fuel ms seen :
  inet_pton_v6_loop (S fuel) [] (v6 ms) (Z.of_nat 8) seen = Done (Some ([], v6 ms, 8)).
Proof. done. Qed.

Lemma two_writes (pre suf : list Z) : (length pre + length suf <= 8)%nat ->
  write_at (8 - length suf) suf (write_at 0 pre (replicate 8 0)) =
  pre ++ replicate (8 - length pre - length suf) 0 ++ suf.
Proof.
  intros H. unfold write_at. rewrite take_0, app_nil_l, Nat.add_0_l, drop_replicate.
  rewrite take_app_ge, take_replicate, Nat.min_l by lia.
  rewrite drop_ge by (rewrite length_app, length_replicate; lia).
  rewrite app_nil_r, <- app_assoc. do 3 f_equal. lia.
Qed.

Lemma pton_compressed pre suf : words pre -> words suf -> (length pre + length suf < 8)%nat ->
  inet_pton_v6 (join_words pre ++ COLON :: COLON :: join_words suf) =
  Done (Some (v6 (pre ++ replicate (8 - length pre - length suf) 0 ++ suf))).
Proof.
  intros Hp Hs Hl. rewrite inet_pton_v6_plain.
  2: { apply Forall_app. split; [by apply join_words_plain|]. do 2 (constructor; [by right|]). by apply join_words_plain. }
  set (src := join_words pre ++ COLON :: COLON :: join_words suf).
  assert (E : forall fuel, inet_pton_v6_loop (2 * length pre - 1 + (S (2 * length suf - 1 + S fuel))) src
      (v6 (replicate 8 0)) (Z.of_nat 0) false =
    Done (Some ([], v6 (pre ++ replicate (8 - length pre - length suf) 0 ++ suf), 8))).
  { intros fuel. unfold src. rewrite <- two_writes by lia.
    assert (Hpre : inet_pton_v6_loop (2 * length pre - 1 + S (2 * length suf - 1 + S fuel))
       (join_words pre ++ COLON :: COLON :: join_words suf) (v6 (replicate 8 0)) (Z.of_nat 0) false =
       inet_pton_v6_loop (S (2 * length suf - 1 + S fuel)) (COLON :: COLON :: join_words suf)
         (v6 (write_at 0 pre (replicate 8 0))) (Z.of_nat (length pre)) false).
    { destruct pre as [|w pre]; [done|]. by rewrite pton_words by (done || lia). }
    rewrite Hpre, pton_gap by (done || lia). destruct suf as [|w suf].
    { unfold write_at at 2. rewrite app_nil_l, take_drop. reflexivity. }
    rewrite <- (app_nil_r (join_words (w :: suf))).
    rewrite pton_words by (done || (rewrite length_write_at; cbn in *; lia) || (cbn in *; lia)).
    replace (8 - length (w :: suf) + length (w :: suf))%nat with 8%nat by (cbn in *; lia). done. }
  pose proof (length_join_words pre Hp). pose proof (length_join_words suf Hs).
  assert (exists fuel, S (length src) = 2 * length pre - 1 + (S (2 * length suf - 1 + S fuel)))%nat as [fuel ->].
  { exists (length src - (2 * length pre - 1) - (2 * length suf - 1) - 1)%nat.
    unfold src. rewrite length_app. cbn [length]. lia. }
  change 0 with (Z.of_nat 0) at 2. rewrite E. done.
Qed.
End parse.

(** ** What [inet_ntop_v6] prints *)

(** The loop as a list of the words and colons it prints. *)
Inductive item := Word (i : nat) | Colon.
#[global] Instance item_eq_dec : EqDecision item.
Proof. solve_decision. Defined.
Fixpoint layout (fuel : nat) (runpos : list Z) (max : Z) (i : nat) : list item :=
  match fuel with
  | O => []
  | S fuel =>
    if (run_array_size <=? i)%nat then []
    else if (runpos !!! i) =? -1 then
      Word i :: (if negb (i =? 7)%nat && negb ((runpos !!! S i) =? 1) then [Colon] else [])
      ++ layout fuel runpos max (S i)
    else if (runpos !!! i) =? 1 then
      Colon :: Colon :: layout fuel runpos max (S (i + Z.to_nat (max - 1)))
    else layout fuel runpos max (S i)
  end.
Definition render (ws : list Z) (l : list item) : list Z :=
  concat (map (fun x => match x with Word i => print_x (ws !!! i) | Colon => [COLON] end) l).

(** [n] words from the [a]-th, with colons between them. *)
Fixpoint words_items (a n : nat) : list item :=
  match n with
  | O => []
  | 1%nat => [Word a]
  | S n => Word a :: Colon :: words_items (S a) n
  end.

(** The zeros of an address: none next to another, and more than one. *)
Fixpoint adjacent_zeros (ws : list Z) : bool :=
  match ws with
  | w :: (w' :: _) as rest => ((w =? 0) && (w' =? 0)) || adjacent_zeros rest
  | _ => false
  end.
Definition isolated_zeros (ws : list Z) : bool :=
  negb (adjacent_zeros ws) && (2 <=? length (filter (fun w : Z => w = 0%Z) ws))%nat.

(** What is printed depends on which words are zero only: there are 256 cases. *)
Definition zero_or_one (w : Z) : Z := if w =? 0 then 0 else 1.
Fixpoint patterns (n : nat) : list (list Z) :=
  match n with
  | O => [[]]
  | S n => let l := patterns n in map (cons 0) l ++ map (cons 1) l
  end.

Definition full_layout (ws : list Z) : bool :=
  let '(runpos, max, _) := runs_of ws in
  bool_decide (layout run_array_size runpos max 0 = words_items 0 8).
Definition gap_layout (ws : list Z) (p k : nat) : bool :=
  let '(runpos, max, _) := runs_of ws in
  (0 <? k)%nat && (p + k <=? 8)%nat
  && bool_decide (layout run_array_size runpos max 0
       = words_items 0 p ++ [Colon; Colon] ++ words_items (p + k) (8 - p - k))
  && forallb (Z.eqb 0) (slice p k ws).
Definition v4_layout (ws : list Z) : bool :=
  let '(runpos, max, maxpos) := runs_of ws in
  implb ((runpos !!! 0%nat) =? 1)
    (implb (maxpos =? 5) (forallb (Z.eqb 0) (take 6 ws)) && implb (maxpos =? 4) (forallb (Z.eqb 0) (take 5 ws))).

Lemma layouts_checked :
  forallb (fun ws => v4_layout ws && (isolated_zeros ws || full_layout ws
    || existsb (fun p => existsb (gap_layout ws p) (seq 0 9)) (seq 0 9))) (patterns 8) = true.
Proof. by vm_compute. Qed.

Lemma zero_or_one_zero w : (zero_or_one w =? 0) = (w =? 0).
Proof. unfold zero_or_one. by destruct (w =? 0) eqn:E; rewrite ?E. Qed.
Lemma zero_eqb_or_one w : (0 =? zero_or_one w) = (0 =? w).
Proof. rewrite !(Z.eqb_sym 0). apply zero_or_one_zero. Qed.
Lemma mark_runs_pattern ws : forall i current max maxpos,
  mark_runs (map zero_or_one ws) i current max maxpos = mark_runs ws i current max maxpos.
Proof.
  induction ws as [|w ws IH]; intros i current max maxpos; [done|]. cbn [map mark_runs].
  rewrite zero_or_one_zero. destruct (w =? 0); [destruct (max <? current)|]; by rewrite IH.
Qed.
Lemma runs_of_pattern ws : runs_of (map zero_or_one ws) = runs_of ws.
Proof. unfold runs_of. by rewrite mark_runs_pattern. Qed.
Lemma zeros_pattern ws : forallb (Z.eqb 0) (map zero_or_one ws) = forallb (Z.eqb 0) ws.
Proof. induction ws as [|w ws IH]; [done|]. cbn [map forallb]. by rewrite zero_eqb_or_one, IH. Qed.
Lemma isolated_zeros_pattern ws : isolated_zeros (map zero_or_one ws) = isolated_zeros ws.
Proof.
  unfold isolated_zeros. f_equal; [f_equal|].
  - induction ws as [|w [|w' ws] IH]; [done..|].
    transitivity (((zero_or_one w =? 0) && (zero_or_one w' =? 0)) || adjacent_zeros (map zero_or_one (w' :: ws))); [done|].
    by rewrite IH, !zero_or_one_zero.
  - f_equal. induction ws as [|w ws IH]; [done|]. cbn [map].
    pose proof (zero_or_one_zero w) as E. destruct (decide (w = 0)) as [->|Hw].
    + rewrite !filter_cons_True by done. cbn. by rewrite IH.
    + rewrite !filter_cons_False; [done|done|]. apply Z.eqb_neq. rewrite E. by apply Z.eqb_neq.
Qed.
Lemma full_layout_pattern ws : full_layout (map zero_or_one ws) = full_layout ws.
Proof. unfold full_layout. by rewrite runs_of_pattern. Qed.
Lemma gap_layout_pattern ws p k : gap_layout (map zero_or_one ws) p k = gap_layout ws p k.
Proof.
  unfold gap_layout, slice. rewrite runs_of_pattern. destruct (runs_of ws) as [[? ?] ?].
  by rewrite <- fmap_drop, <- fmap_take, zeros_pattern.
Qed.
Lemma v4_layout_pattern ws : v4_layout (map zero_or_one ws) = v4_layout ws.
Proof.
  unfold v4_layout. rewrite runs_of_pattern. destruct (runs_of ws) as [[? ?] ?].
  by rewrite <- !fmap_take, !zeros_pattern.
Qed.

Lemma pattern_in ws : In (map zero_or_one ws) (patterns (length ws)).
Proof.
  induction ws as [|w ws IH]; cbn [map length patterns]; [by left|]. apply in_or_app.
  assert (zero_or_one w = 0 \/ zero_or_one w = 1) as [-> | ->]
    by (unfold zero_or_one; destruct (w =? 0); auto); [left|right]; by apply in_map.
Qed.

Lemma layout_cases ws : length ws = 8%nat ->
  v4_layout ws = true /\
  (isolated_zeros ws = false -> full_layout ws = true \/ exists p k, gap_layout ws p k = true).
Proof.
  intros Hl. pose proof (pattern_in ws) as Hin. rewrite Hl in Hin.
  pose proof (proj1 (forallb_forall _ _) layouts_checked _ Hin) as Hc. cbv beta in Hc.
  apply andb_prop in Hc as [Hv Hc].
  rewrite v4_layout_pattern in Hv. split; [done|]. intros Hi.
  rewrite isolated_zeros_pattern, Hi, full_layout_pattern in Hc. cbn [orb] in Hc.
  apply orb_prop in Hc as [Hc|Hc]; [by left|right].
  apply existsb_exists in Hc as (p & _ & Hc). apply existsb_exists in Hc as (k & _ & Hc).
  exists p, k. by rewrite <- gap_layout_pattern.
Qed.

(** The items print the words they stand for. *)
Lemma render_words ws : forall n a, (a + n <= length ws)%nat ->
  render ws (words_items a n) = join_words (slice a n ws).
Proof.
  induction n as [|n IH]; intros a Ha; [done|]. unfold slice in *.
  destruct (nth_lookup_or_length ws a 0) as [Hw|]; [|lia]. set (w := nth a ws 0) in *.
  rewrite (drop_S ws w a) by done. cbn [take].
  assert (ws !!! a = w) as Et by by apply list_lookup_total_correct.
  destruct n as [|n].
  - unfold render. cbn. by rewrite Et, app_nil_r.
  - specialize (IH (S a) ltac:(lia)).
    destruct (nth_lookup_or_length ws (S a) 0) as [Hw'|]; [|lia].
    rewrite (drop_S ws _ (S a) Hw') in *. cbn [take] in *. rewrite join_words_cons, <- IH.
    cbn [words_items]. unfold render. cbn [map concat app]. by rewrite Et.
Qed.
Lemma render_app ws l m : render ws (l ++ m) = render ws l ++ render ws m.
Proof. unfold render. by rewrite map_app, concat_app. Qed.

Lemma length_hexits fuel k n : 0 <= n < 16 ^ (Z.of_nat k + 1) -> (length (hexits fuel n) <= S k)%nat.
Proof.
  revert n k. induction fuel as [|fuel IH]; intros n k Hn; cbn [hexits length]; [lia|].
  destruct (Z.ltb_spec n 16); [cbn; lia|]. destruct k as [|k]; [cbn in Hn; lia|].
  rewrite length_app. cbn [length]. specialize (IH (n / 16) k).
  rewrite Nat2Z.inj_succ, Z.add_succ_l, Z.pow_succ_r in Hn by lia.
  pose proof (Z.div_pos n 16 ltac:(lia) ltac:(lia)).
  pose proof (Z.div_lt_upper_bound n 16 (16 ^ (Z.of_nat k + 1)) ltac:(lia) ltac:(lia)).
  lia.
Qed.

Section print.
Context {HO : Host}.
Variable ws : list Z.
Hypothesis Hw : words ws.
Hypothesis Hl : length ws = 8%nat.

Lemma word_width i : in_width 16 (ws !!! i).
Proof.
  destruct (decide (i < length ws)%nat) as [Hi|Hi].
  - apply lookup_lt_is_Some in Hi as [w Hi]. rewrite (list_lookup_total_correct _ _ _ Hi).
    exact (Forall_lookup_1 _ _ _ _ Hw Hi).
  - rewrite list_lookup_total_alt, lookup_ge_None_2 by lia. by vm_compute.
Qed.
Lemma length_print_word i : (length (print_x (ws !!! i)) <= 4)%nat.
Proof. apply length_hexits. pose proof (word_width i) as H. exact H. Qed.

Lemma slice_v6 i : (i < 8)%nat -> slice (2 * i) 2 (v6 ws) = be_bytes 2 (ws !!! i).
Proof.
  intros Hi. destruct (lookup_lt_is_Some_2 ws i ltac:(lia)) as [w Hx].
  rewrite (list_lookup_total_correct _ _ _ Hx). by apply slice_be_words.
Qed.
Lemma NetworkToHost16_word i : (i < 8)%nat -> NetworkToHost16 (as_short (v6 ws) i) = ws !!! i.
Proof.
  intros Hi. unfold as_short. rewrite slice_v6 by done.
  rewrite NetworkToHost16_value by auto using be_bytes_is_bytes, length_be_bytes.
  rewrite be_val_bytes. by apply (wrap_id 16), word_width.
Qed.
(** Zero and 0xFFFF are the same in either byte order. *)
Lemma as_short_eqb i s : (i < 8)%nat -> s = 0 \/ s = 65535 ->
  (as_short (v6 ws) i =? s) = ((ws !!! i) =? s).
Proof.
  intros Hi Hs. pose proof (NetworkToHost16_word i Hi) as Hn.
  assert (as_short (v6 ws) i = s <-> ws !!! i = s) as E.
  { split; intros E.
    - rewrite <- Hn, E. unfold NetworkToHost16, host_bytes. destruct host_big, Hs as [-> | ->]; by vm_compute.
    - unfold as_short. rewrite slice_v6, E by done. unfold host_value.
      destruct host_big, Hs as [-> | ->]; by vm_compute. }
  destruct (Z.eqb_spec (as_short (v6 ws) i) s), (Z.eqb_spec (ws !!! i) s); tauto.
Qed.
Lemma runs_of_v6 : runs_of (as_short (v6 ws) <$> seq 0 run_array_size) = runs_of ws.
Proof.
  rewrite <- runs_of_pattern, <- (runs_of_pattern ws). f_equal.
  apply list_eq. intros i. rewrite !list_lookup_fmap.
  destruct (decide (i < 8)%nat) as [Hi|Hi].
  - rewrite lookup_seq_lt by done. destruct (lookup_lt_is_Some_2 ws i ltac:(lia)) as [w Hx].
    rewrite Hx. cbn [fmap option_fmap option_map]. f_equal. unfold zero_or_one. rewrite Nat.add_0_l.
    rewrite as_short_eqb by auto. by rewrite (list_lookup_total_correct _ _ _ Hx).
  - rewrite lookup_seq_ge by (unfold run_array_size; lia). by rewrite (lookup_ge_None_2 ws) by lia.
Qed.

Lemma print_shorts_layout runpos max n fuel : forall i text, (65 <= n)%nat ->
  (length text + 5 * fuel < 65)%nat ->
  print_shorts fuel (v6 ws) runpos max i (written n text) =
  Done (written n (text ++ render ws (layout fuel runpos max i))).
Proof.
  induction fuel as [|fuel IH]; intros i text Hn Ht; cbn [print_shorts layout].
  { by rewrite app_nil_r. }
  destruct (Nat.leb_spec run_array_size i) as [_|Hi]; [by rewrite app_nil_r|]. unfold run_array_size in Hi.
  destruct ((runpos !!! i) =? -1); [|destruct ((runpos !!! i) =? 1)].
  - pose proof (length_print_word i). cbn [written snd]. fold (written n text).
    rewrite NetworkToHost16_word by done.
    rewrite put_text_written by (unfold INET6_ADDRSTRLEN; lia). run.
    destruct (negb (i =? 7)%nat && negb ((runpos !!! S i) =? 1)).
    + rewrite putc_written by (rewrite length_app; lia). run.
      rewrite IH by (rewrite ?length_app; cbn [length]; lia). rewrite <- !app_assoc. done.
    + run. rewrite IH by (rewrite ?length_app; cbn [length]; lia). rewrite <- !app_assoc. done.
  - rewrite putc_written by lia. run. rewrite putc_written by (rewrite length_app; cbn [length]; lia). run.
    rewrite IH by (rewrite ?length_app; cbn [length]; lia). rewrite <- !app_assoc. done.
  - apply IH; lia.
Qed.
End print.

(** ** The two ways an IPv4 address is embedded *)
Definition numeral (c : Z) : Prop := is_digit c = true \/ c = DOT.
Lemma print_byte_digits b : is_byte b -> forallb is_digit (print_d b) = true.
Proof.
  intros H. apply (seqZ_forallb (fun b => forallb is_digit (print_d b)) 0 256); [by vm_compute|]. word_lia.
Qed.
Lemma dotted_numeral b : length b = 4%nat -> is_bytes b -> Forall numeral (dotted b).
Proof.
  intros Hl Hb. do 4 (destruct b as [|? b]; [done|]). destruct b; [|done].
  assert (forall b, is_byte b -> Forall numeral (print_d b)) as Hd.
  { intros b H. apply List.Forall_forall. intros c Hc. left.
    by apply (proj1 (forallb_forall _ _) (print_byte_digits b H)). }
  repeat (apply Forall_cons_1 in Hb as [? Hb]).
  unfold dotted. cbn [lookup_total list_lookup_total].
  repeat first [apply Forall_app; split | by apply Hd | by repeat constructor; right].
Qed.
(** What a printed address is made of. *)
Definition address_char (c : Z) : Prop := plain c \/ numeral c.
Lemma plain_address l : Forall plain l -> Forall address_char l.
Proof. apply List.Forall_impl. by left. Qed.
Lemma dotted_address b : length b = 4%nat -> is_bytes b -> Forall address_char (dotted b).
Proof. intros Hl Hb. eapply List.Forall_impl; [|by apply dotted_numeral]. by right. Qed.
Lemma address_no_nul l : Forall address_char l -> no_nul l.
Proof.
  apply List.Forall_impl. unfold address_char, plain, numeral, is_hexit, is_digit, COLON, DOT. intros. lia.
Qed.
Lemma no_nul_dotted b : length b = 4%nat -> is_bytes b -> no_nul (dotted b).
Proof. intros. by apply address_no_nul, dotted_address. Qed.
Lemma dotted_has_dot b : is_Some (strchr (dotted b) [DOT]).
Proof.
  assert (forall l r, is_Some (strchr (l ++ DOT :: r) [DOT])) as H; [|apply H].
  induction l as [|c l IH]; intros r; [by eexists|]. cbn [app strchr]. case_if; [by eexists|].
  destruct (IH r) as [i ->]. by eexists.
Qed.
Lemma numeral_no_colon l : Forall numeral l -> strchr l [COLON; COLON] = None.
Proof.
  induction 1 as [|c l Hc _ IH]; [done|]. cbn [strchr existsb]. rewrite IH.
  replace ((c =? COLON) || ((c =? COLON) || false)) with false
    by (unfold numeral, is_digit, COLON, DOT in *; lia). done.
Qed.
Lemma numeral_no_x l : Forall numeral l -> existsb (Z.eqb 120) l = false.
Proof.
  induction 1 as [|c l Hc _ IH]; [done|]. cbn [existsb]. rewrite IH.
  unfold numeral, is_digit, DOT in Hc. lia.
Qed.

Section embedded.
Context {HO : Host}.
Variable b : list Z.
Hypothesis Hl : length b = 4%nat.
Hypothesis Hb : is_bytes b.

Lemma dotted_cons : exists c l, dotted b = c :: l.
Proof.
  destruct (dotted b) as [|c l] eqn:E; [|by do 2 eexists].
  pose proof (dotted_has_dot b) as [? H]. by rewrite E in H.
Qed.
Lemma pton_compatible :
  inet_pton_v6 (COLON :: COLON :: dotted b) = Done (Some (replicate 12 0 ++ b)).
Proof.
  pose proof (dotted_numeral b Hl Hb) as Hn. unfold inet_pton_v6. cbn [existsb drop hd tl]. rewrite drop_0.
  rewrite numeral_no_x by done. rewrite Z.eqb_refl.
  destruct dotted_cons as (c & l & E). rewrite bool_decide_eq_true_2 by apply dotted_has_dot.
  rewrite numeral_no_colon by done. cbn [mbind option_bind]. rewrite inet_pton_v4_dotted by done.
  rewrite E. cbn [andb orb mbind option_bind].
  change (120 =? COLON) with false. cbn [orb]. do 2 f_equal. unfold write_at.
  rewrite drop_ge by (rewrite length_replicate; lia). by rewrite app_nil_r.
Qed.
Lemma pton_mapped :
  inet_pton_v6 (COLON :: COLON :: bytes "ffff:" ++ dotted b)
  = Done (Some (replicate 10 0 ++ [255; 255] ++ b)).
Proof.
  pose proof (dotted_numeral b Hl Hb) as Hn. unfold inet_pton_v6.
  change (bytes "ffff:") with [102; 102; 102; 102; COLON]. cbn [existsb drop hd tl app].
  rewrite numeral_no_x by done. rewrite Z.eqb_refl. change (120 =? COLON) with false. cbn [orb andb].
  change (120 =? 102) with false. cbn [orb].
  assert (exists i, strchr (102 :: 102 :: 102 :: 102 :: COLON :: dotted b) [DOT] = Some i) as [i Hi].
  { cbn. destruct (dotted_has_dot b) as [i ->]. by eexists. }
  rewrite Hi, bool_decide_eq_true_2 by by eexists.
  assert (strchr (102 :: 102 :: 102 :: 102 :: COLON :: dotted b) [COLON; COLON] = Some 4%nat) as -> by done.
  assert (scan_hx (102 :: 102 :: 102 :: 102 :: COLON :: dotted b) = Some (65535, COLON :: dotted b)) as Hs by done.
  rewrite Hs. cbn [mbind option_bind]. change (65535 =? 65535) with true. cbn [negb orb].
  cbn [length].
  replace (S (S (S (S (S (length (dotted b)))))) - S (length (dotted b)))%nat with 4%nat by lia.
  cbn [drop Nat.eqb negb mbind option_bind]. rewrite drop_0, inet_pton_v4_dotted by done. cbn [mbind option_bind].
  do 2 f_equal. unfold write_at. rewrite Hl. by rewrite app_nil_r.
Qed.
End embedded.

(** No IPv4 address begins with hexits and a colon. *)
Lemma pton_v4_colon l m : Forall is_hexit l -> inet_pton_v4 (l ++ COLON :: m) = None.
Proof.
  intros Hh. unfold inet_pton_v4, kIpv4AddressSize.
  assert (exists v d e, scan_digits 0 (l ++ COLON :: m) = (v, d :: e) /\ d <> DOT) as (v & d & e & E & Hd).
  { generalize 0 as acc. induction Hh as [|c l Hc _ IH]; intros acc; cbn [app scan_digits].
    - by exists acc, COLON, m.
    - destruct (is_digit c) eqn:?; [apply IH|]. exists acc, c, (l ++ COLON :: m). split; [done|].
      unfold is_hexit, DOT in *. lia. }
  cbn [inet_pton_v4_loop]. destruct (l ++ COLON :: m) as [|c r]; [done|].
  destruct (is_digit c); [|done]. cbn [negb]. rewrite E. destruct (255 <? v); [done|].
  by rewrite (proj2 (Z.eqb_neq d DOT) Hd).
Qed.

(** ** Round trips *)
Lemma zeros_replicate l : forallb (Z.eqb 0) l = true -> l = replicate (length l) 0.
Proof.
  intros H. symmetry. apply replicate_as_elem_of. split; [done|]. intros x Hx.
  apply list_elem_of_In in Hx. pose proof (proj1 (forallb_forall _ _) H x Hx) as E. cbv beta in E. lia.
Qed.

Section round_trip.
Context {HO : Host}.
Variable ws : list Z.
Hypothesis Hw : words ws.
Hypothesis Hl : length ws = 8%nat.

(** A text that the parsers read as the address, and only as an IPv6 address. *)
Definition text_of (text : list Z) : Prop :=
  Forall address_char text /\ inet_pton_v4 text = None /\ inet_pton_v6 text = Done (Some (v6 ws)).

Lemma plain_layout_text runpos max maxpos :
  runs_of ws = (runpos, max, maxpos) -> isolated_zeros ws = false ->
  text_of (render ws (layout run_array_size runpos max 0)).
Proof.
  intros Hr Hi. destruct (proj2 (layout_cases ws Hl) Hi) as [Hf|(p & k & Hg)].
  - unfold full_layout in Hf. rewrite Hr in Hf. apply bool_decide_eq_true_1 in Hf.
    rewrite Hf, render_words by lia. unfold slice. rewrite drop_0, take_ge by lia. split; [|split].
    + by apply plain_address, join_words_plain.
    + destruct ws as [|w [|w' ws']]; [done..|]. destruct (words_nonneg _ _ Hw) as (? & _ & _).
      rewrite join_words_cons. by apply pton_v4_colon, print_x_are.
    + by apply pton_full.
  - unfold gap_layout in Hg. rewrite Hr in Hg. repeat (apply andb_prop in Hg as [Hg ?]). propify.
    apply bool_decide_eq_true_1 in H0. rewrite H0, !render_app, !render_words by lia.
    change (render ws [Colon; Colon]) with [COLON; COLON]. cbn [app].
    unfold slice at 1. rewrite drop_0. unfold slice at 1. rewrite (take_ge (drop _ _)) by (rewrite length_drop; lia).
    assert (words (take p ws)) as Hpre by by apply Forall_take.
    assert (words (drop (p + k) ws)) as Hsuf by by apply Forall_drop.
    split; [|split].
    + apply plain_address, Forall_app. split; [by apply join_words_plain|].
      do 2 (constructor; [by right|]). by apply join_words_plain.
    + destruct (take p ws) as [|w [|w' ws']]; [by apply (pton_v4_colon [])|..];
        destruct (words_nonneg _ _ Hpre) as (? & _ & _).
      * by apply pton_v4_colon, print_x_are.
      * rewrite join_words_cons, <- app_assoc. by apply pton_v4_colon, print_x_are.
    + rewrite pton_compressed by (done || (rewrite length_take, length_drop; lia)).
      do 3 f_equal. rewrite length_take, length_drop.
      apply zeros_replicate in H. rewrite length_slice in H by lia.
      replace (8 - p `min` length ws - (length ws - (p + k)))%nat with k by lia.
      rewrite <- H. unfold slice. rewrite <- drop_drop, take_drop. by rewrite take_drop.
Qed.

Lemma v6_zeros k : forallb (Z.eqb 0) (take k ws) = true -> (k <= 8)%nat ->
  v6 ws = replicate (2 * k) 0 ++ v6 (drop k ws).
Proof.
  intros Hz Hk. apply zeros_replicate in Hz. rewrite length_take, Nat.min_l in Hz by lia.
  rewrite <- (take_drop k ws) at 1. rewrite v6_app, Hz. f_equal. clear.
  induction k as [|k IH]; [done|]. replace (2 * S k)%nat with (S (S (2 * k))) by lia.
  cbn [replicate]. rewrite <- IH. done.
Qed.
Lemma v6_is_bytes l : is_bytes (v6 l).
Proof. apply be_words_is_bytes. Qed.
Lemma embedded_v4 : length (drop 12 (v6 ws)) = 4%nat /\ is_bytes (drop 12 (v6 ws)).
Proof. rewrite length_drop, length_v6. split; [lia|]. apply is_bytes_drop, v6_is_bytes. Qed.

(** The embedded address printed behind [front]. *)
Lemma ntop_v4_behind n front : (length front <= 43)%nat -> (65 <= n)%nat ->
  (let '(dst, cursor) := written n front in
   r ← inet_ntop_v4 (drop 12 (v6 ws)) (drop cursor dst) (INET6_ADDRSTRLEN - cursor);
   Done (Some (match r with Some tail => take cursor dst ++ tail | None => dst end))) =
  (let text := front ++ dotted (drop 12 (v6 ws)) in
   Done (Some (text ++ replicate (n - length text) 0))).
Proof.
  intros Ht Hn. unfold written, INET6_ADDRSTRLEN. rewrite drop_app_length.
  destruct embedded_v4. rewrite inet_ntop_v4_zeros by (done || (unfold INET_ADDRSTRLEN; lia)). run.
  rewrite take_app_length, length_app, <- app_assoc. by rewrite Nat.sub_add_distr.
Qed.

Lemma compatible_text : forallb (Z.eqb 0) (take 6 ws) = true ->
  text_of ([COLON; COLON] ++ dotted (drop 12 (v6 ws))).
Proof.
  intros Hz. destruct embedded_v4. split; [|split].
  - do 2 (constructor; [by left; right|]). by apply dotted_address.
  - by apply (pton_v4_colon []).
  - cbn [app]. rewrite pton_compatible by done. do 2 f_equal. rewrite (v6_zeros 6 Hz) by lia.
    by rewrite drop_app_length' by done.
Qed.
Lemma mapped_text : forallb (Z.eqb 0) (take 5 ws) = true -> ws !!! 5%nat = 65535 ->
  text_of (([COLON; COLON] ++ bytes "ffff:") ++ dotted (drop 12 (v6 ws))).
Proof.
  intros Hz Hf. destruct embedded_v4. split; [|split].
  - apply Forall_app. split; [|by apply dotted_address]. apply plain_address.
    apply List.Forall_forall. unfold plain, is_hexit, COLON. intros c Hc. cbv in Hc. lia.
  - by apply (pton_v4_colon []).
  - rewrite <- app_assoc. cbn [app]. rewrite pton_mapped by done. do 2 f_equal.
    rewrite (v6_zeros 5 Hz) by lia. destruct (lookup_lt_is_Some_2 ws 5 ltac:(lia)) as [w Hx].
    rewrite (list_lookup_total_correct _ _ _ Hx) in Hf. subst w. rewrite (drop_S ws 65535 5 Hx).
    change (v6 (65535 :: drop 6 ws)) with ([255; 255] ++ v6 (drop 6 ws)).
    rewrite !app_assoc, drop_app_length' by done. done.
Qed.

Lemma inet_ntop_v6_text n size : isolated_zeros ws = false -> (INET6_ADDRSTRLEN <= size <= n)%nat ->
  exists text, inet_ntop_v6 (v6 ws) (replicate n 0) size = Done (Some (text ++ replicate (n - length text) 0))
    /\ text_of text.
Proof.
  intros Hi Hs. unfold INET6_ADDRSTRLEN in Hs. unfold inet_ntop_v6.
  replace (size <? INET6_ADDRSTRLEN)%nat with false by (symmetry; apply Nat.ltb_ge; unfold INET6_ADDRSTRLEN; lia).
  rewrite runs_of_v6 by done. destruct (runs_of ws) as [[runpos max] maxpos] eqn:Hr.
  pose proof (proj1 (layout_cases ws Hl)) as Hv. unfold v4_layout in Hv. rewrite Hr in Hv.
  replace (replicate n 0, 0%nat) with (written n []) by (unfold written; cbn; by rewrite Nat.sub_0_r).
  rewrite as_short_eqb by auto.
  destruct ((runpos !!! 0%nat) =? 1); cbn [andb implb] in *;
    [destruct (Z.eqb_spec maxpos 5) as [->|H5]; [|destruct (Z.eqb_spec maxpos 4) as [->|H4];
      [destruct (Z.eqb_spec (ws !!! 5%nat) 65535) as [Hf|Hf]|]]|]; cbn [orb andb implb] in *.
  1: { do 2 (rewrite putc_written by (cbn; lia); run). cbn [app]. change (5 =? 4) with false. cbn match. run.
       eexists. split; [apply (ntop_v4_behind n [COLON; COLON]); cbn; lia|].
       apply compatible_text. by rewrite andb_true_r in Hv. }
  1: { do 2 (rewrite putc_written by (cbn; lia); run). cbn [app]. change (4 =? 4) with true. cbn match.
       assert (length (bytes "ffff:") = 5)%nat as H5' by done.
       rewrite put_text_written by (unfold INET6_ADDRSTRLEN; cbn [length]; lia). run.
       eexists. split; [apply (ntop_v4_behind n ([COLON; COLON] ++ bytes "ffff:")); rewrite ?length_app; cbn [length]; lia|].
       by apply mapped_text. }
  all: eexists; rewrite print_shorts_layout by (done || (cbn; lia)); run;
    split; [done|]; by eapply plain_layout_text.
Qed.
End round_trip.

(** ** The reader stays inside the address *)
Lemma count_colons_cons c l : count_colons (c :: l) = ((if decide (c = COLON) then 1 else 0) + count_colons l)%nat.
Proof. unfold count_colons. rewrite filter_cons. by case_decide. Qed.
Lemma count_colons_suffix l m : l `suffix_of` m -> (count_colons l <= count_colons m)%nat.
Proof. intros [k ->]. rewrite count_colons_app. lia. Qed.

Lemma pton_loop_defined {HO : Host} fuel : forall l addr cur seen,
  (length l < fuel)%nat -> (count_colons l <= 9)%nat -> 0 <= cur ->
  inet_pton_v6_loop fuel l addr cur seen <> Undefined.
Proof.
  induction fuel as [|fuel IH]; intros l addr cur seen Hf Hc Hu; [lia|]. cbn [inet_pton_v6_loop].
  destruct l as [|c l]; [done|]. cbn [length] in Hf. rewrite count_colons_cons in Hc.
  destruct (negb (cur <? 8)); [done|]. destruct (Z.eqb_spec c COLON) as [->|Hn].
  - rewrite decide_True in Hc by done. destruct (Z.eqb_spec (hd 0 l) COLON) as [Hh|Hh].
    2: { apply IH; lia. }
    destruct seen; [done|]. destruct l as [|d l]; [done|]. cbn in Hh. subst d. cbn [tl length] in *.
    rewrite count_colons_cons, decide_True in Hc by done.
    destruct l as [|d l]; apply IH; cbn [length] in *; lia.
  - rewrite decide_False in Hc by done.
    destruct (scan_hx (c :: l)) as [[word rest]|] eqn:Es; [|done].
    apply scan_hx_suffix in Es as [Hs Hl]. apply count_colons_suffix in Hs.
    rewrite count_colons_cons, decide_False in Hs by done. cbn [length] in Hl.
    replace (cur <? 0) with false by lia. destruct (_ || _); [|done]. apply IH; lia.
Qed.

Section properties.
Context {HO : Host}.

(** An IPv4 address that [inet_ntop] writes into a zeroed array of enough room
    is what [inet_pton] reads back. *)
Theorem inet_v4_round_trip b n size :
  length b = 4%nat -> is_bytes b -> (INET_ADDRSTRLEN <= size <= n)%nat ->
  exists dst, inet_ntop AF_INET b (replicate n 0) size = Done (Some dst) /\ length dst = n /\
    inet_pton AF_INET (c_str dst) = Done (1, Some b).
Proof.
  intros Hl Hb Hs. pose proof (length_dotted b Hl Hb).
  exists (dotted b ++ replicate (n - length (dotted b)) 0). split; [|split].
  - by apply inet_ntop_v4_zeros.
  - rewrite length_app, length_replicate. unfold INET_ADDRSTRLEN in Hs. lia.
  - rewrite c_str_app by by apply no_nul_dotted. unfold INET_ADDRSTRLEN in Hs.
    destruct (n - length (dotted b))%nat as [|k] eqn:E; [lia|].
    change (c_str (replicate (S k) 0)) with (@nil Z). rewrite app_nil_r.
    unfold inet_pton. rewrite Z.eqb_refl. run. by rewrite inet_pton_v4_dotted.
Qed.

(** An IPv6 address that [inet_ntop] writes is what [inet_pton] reads back,
    whether it is printed in full, with a run of zeros left out, or with an
    embedded IPv4 address; except that it must not have two zero words that no
    other zero stands next to unless a longer run is there. *)
Theorem inet_v6_round_trip ws n size :
  words ws -> length ws = 8%nat -> isolated_zeros ws = false -> (INET6_ADDRSTRLEN <= size <= n)%nat ->
  exists dst, inet_ntop AF_INET6 (v6 ws) (replicate n 0) size = Done (Some dst) /\
    inet_pton AF_INET6 (c_str dst) = Done (1, Some (v6 ws)).
Proof.
  intros Hw Hl Hi Hs. destruct (inet_ntop_v6_text ws Hw Hl n size Hi Hs) as (text & E & Hn%address_no_nul & _ & Hp).
  exists (text ++ replicate (n - length text) 0). split; [exact E|].
  rewrite c_str_app by done. replace (c_str (replicate _ 0)) with (@nil Z) by (by destruct (n - length text)%nat).
  rewrite app_nil_r. cbn. by rewrite Hp.
Qed.

(** Reading an IPv6 address writes nothing outside the address when the text
    has at most nine colons, and always comes to an end. *)
Theorem inet_pton_v6_in_bounds src : (count_colons src <= 9)%nat -> inet_pton_v6 src <> Undefined.
Proof.
  intros Hc. unfold inet_pton_v6. destruct (existsb _ src); [done|]. destruct (_ && _); [done|].
  pose proof (pton_loop_defined (S (length src)) src (replicate 16 0) 0 false ltac:(lia) Hc ltac:(lia)) as H.
  destruct (inet_pton_v6_loop _ _ _ _ _) as [[[[? ?] ?]|]| |]; try done. run. by case_if.
Qed.
End properties.

Lemma inet_v4_round_trip_witness :
  length [192; 168; 0; 255] = 4%nat /\ (22 <= 65 <= 70)%nat /\
  exists dst, inet_ntop (HO := little_endian) AF_INET [192; 168; 0; 255] (replicate 70 0) 65 = Done (Some dst) /\
    length dst = 70%nat /\ inet_pton (HO := little_endian) AF_INET (c_str dst) = Done (1, Some [192; 168; 0; 255]).
Proof.
  split; [done|]. split; [lia|].
  apply (@inet_v4_round_trip little_endian [192; 168; 0; 255] 70 65);
    [done|by apply (bool_decide_unpack _); vm_compute|unfold INET_ADDRSTRLEN; lia].
Defined.
Lemma inet_v6_round_trip_witness :
  isolated_zeros [8193; 0; 1; 0; 0; 3512; 255; 65535] = false /\
  exists dst, inet_ntop (HO := little_endian) AF_INET6 (v6 [8193; 0; 1; 0; 0; 3512; 255; 65535]) (replicate 65 0) 65
      = Done (Some dst) /\
    inet_pton (HO := little_endian) AF_INET6 (c_str dst) = Done (1, Some (v6 [8193; 0; 1; 0; 0; 3512; 255; 65535])).
Proof.
  split; [done|].
  apply (@inet_v6_round_trip little_endian [8193; 0; 1; 0; 0; 3512; 255; 65535] 65 65);
    [repeat constructor; word_lia|done|done|unfold INET6_ADDRSTRLEN; lia].
Defined.
Lemma inet_pton_v6_in_bounds_witness :
  (count_colons (bytes "1:2::3") <= 9)%nat /\ inet_pton_v6 (HO := little_endian) (bytes "1:2::3") <> Undefined.
Proof.
  assert (H : (count_colons (bytes "1:2::3") <= 9)%nat) by (vm_compute; lia).
  split; [exact H|]. by apply (@inet_pton_v6_in_bounds little_endian).
Defined.

(** What the reader makes of some texts that are not addresses: a write in front of
    the address, and results that are accepted. *)
Definition reads (text : string) : outcome (option (list Z)) :=
  inet_pton_v6 (HO := little_endian) (bytes text).
Example pton_examples :
  reads "::1:2:3:4:5:6:7:8:9" = Undefined /\
  reads "1::2::3:4:5:6" = Done None /\
  reads "1:2:3:4:5:6:7::8:9" = Done (Some (v6 [1; 2; 3; 4; 5; 6; 8; 9])) /\
  reads ":1:2:3:4:5:6:7:8" = Done (Some (v6 [1; 2; 3; 4; 5; 6; 7; 8])) /\
  reads "0X1::-1" = Done (Some (v6 [1; 0; 0; 0; 0; 0; 0; 65535])) /\
  reads "::ffffz:1.2.3.4" = Done (Some (replicate 10 0 ++ [255; 255; 1; 2; 3; 4])) /\
  inet_pton_v4 (bytes "1.2.3.4.") = Some [1; 2; 3; 4].
Proof. by vm_compute. Qed.
