(* ===== verification/IpAddress.v ===== *)
(** * base/ipaddress.h and ipaddress.cpp: IP addresses

    An [IPAddress] is a family and the 16 bytes of the union, in network order; an
    [in_addr] is 4 bytes and an [in6_addr] 16.  Integers a comparison or a hash
    makes of them are in host order, as the machine reads the memory. *)
From Stdlib Require Import Ascii String.
From S2P Require Import Prelude Text ByteOrder Strings InetText.

Record IPAddress := mkIPAddress { family_ : Z; u_ : list Z }.
#[global] Instance IPAddress_eq_dec : EqDecision IPAddress.
Proof. solve_decision. Defined.

(** [ip4] and [ip6] of the union. *)
Definition ipv4_address (ip : IPAddress) : list Z := take 4 (u_ ip).
Definition ipv6_address (ip : IPAddress) : list Z := take 16 (u_ ip).

Definition INADDR_ANY : Z := 0.
Definition INADDR_LOOPBACK : Z := 2130706433.
Definition in6addr_any : list Z := replicate 16 0.
Definition in6addr_loopback : list Z := replicate 15 0 ++ [1].

(** [memcmp(a, b, n) < 0] for arrays of [n] bytes, and [<] of std::string. *)
Fixpoint bytes_lt (a b : list Z) : bool :=
  match a, b with
  | x :: a, y :: b => (x <? y) || ((x =? y) && bytes_lt a b)
  | [], _ :: _ => true
  | _, [] => false
  end.

Section ip.
Context {HO : Host}.

(** [s_addr], and the [i]-th of the [uint32]s of an [in6_addr]. *)
Definition s_addr (ip4 : list Z) : Z := host_value ip4.
Definition v6_as_int (ip6 : list Z) (i : nat) : Z := host_value (slice (4 * i) 4 ip6).

(** ** Constructors *)
Definition IPAddress_unspec : IPAddress := mkIPAddress AF_UNSPEC (replicate 16 0).
Definition IPAddress_v4 (ip4 : list Z) : IPAddress := mkIPAddress AF_INET (write_at 0 ip4 (replicate 16 0)).
Definition IPAddress_v6 (ip6 : list Z) : IPAddress := mkIPAddress AF_INET6 ip6.
Definition IPAddress_int (ip_in_host_byte_order : Z) : IPAddress :=
  IPAddress_v4 (host_bytes 4 (HostToNetwork32 ip_in_host_byte_order)).

Definition v4AddressAsHostOrderInteger (ip : IPAddress) : Z :=
  if family_ ip =? AF_INET then NetworkToHost32 (s_addr (ipv4_address ip)) else 0.
Definition Size (ip : IPAddress) : Z :=
  if family_ ip =? AF_INET then 4 else if family_ ip =? AF_INET6 then 16 else 0.

(** ** Comparison *)
Definition ip_eq (a b : IPAddress) : bool :=
  if negb (family_ a =? family_ b) then false
  else if family_ a =? AF_INET then bool_decide (ipv4_address a = ipv4_address b)
  else if family_ a =? AF_INET6 then bool_decide (ipv6_address a = ipv6_address b)
  else family_ a =? AF_UNSPEC.
Definition ip_lt (a b : IPAddress) : bool :=
  if negb (family_ a =? family_ b) then
    if family_ a =? AF_UNSPEC then true
    else if (family_ a =? AF_INET) && (family_ b =? AF_INET6) then true
    else false
  else if family_ a =? AF_INET then
    NetworkToHost32 (s_addr (ipv4_address a)) <? NetworkToHost32 (s_addr (ipv4_address b))
  else if family_ a =? AF_INET6 then bytes_lt (ipv6_address a) (ipv6_address b)
  else false.
Definition ip_gt (a b : IPAddress) : bool := negb (ip_eq a b) && negb (ip_lt a b).

(** ** Text *)
Definition ToString (ip : IPAddress) : outcome (list Z) :=
  if negb (family_ ip =? AF_INET) && negb (family_ ip =? AF_INET6) then Done []
  else
    let src := if family_ ip =? AF_INET6 then ipv6_address ip else ipv4_address ip in
    r ← inet_ntop (family_ ip) src (replicate INET6_ADDRSTRLEN 0) INET6_ADDRSTRLEN;
    Done (match r with Some buf => c_str buf | None => [] end).

Definition IPFromString (str : list Z) : outcome (bool * IPAddress) :=
  '(r4, addr) ← inet_pton AF_INET (c_str str);
  if r4 =? 0 then
    '(r6, addr6) ← inet_pton AF_INET6 (c_str str);
    if r6 =? 0 then Done (false, IPAddress_unspec)
    else Done (true, IPAddress_v6 (default [] addr6))
  else Done (true, IPAddress_v4 (default [] addr)).

(** ** Prefixes *)
Definition prefix (l : list Z) : list Z := l ++ replicate (16 - length l) 0.
Definition kULAPrefix : list Z := prefix [252; 0].
Definition kV4MappedPrefix : list Z := prefix [0; 0; 0; 0; 0; 0; 0; 0; 0; 0; 255; 255; 0].
Definition k6To4Prefix : list Z := prefix [32; 2; 0].
Definition kTeredoPrefix : list Z := prefix [32; 1; 0; 0].
Definition kV4CompatibilityPrefix : list Z := prefix [0].
Definition kSiteLocalPrefix : list Z := prefix [254; 192; 0].
Definition k6BonePrefix : list Z := prefix [63; 254; 0].

Definition IPIsHelper (ip : IPAddress) (tomatch : list Z) (length : Z) : bool :=
  let n := Z.to_nat (length >> 3)%W in
  bool_decide (take n (ipv6_address ip) = take n tomatch).
Definition IPIs6Bone (ip : IPAddress) : bool := IPIsHelper ip k6BonePrefix 16.
Definition IPIs6To4 (ip : IPAddress) : bool := IPIsHelper ip k6To4Prefix 16.
Definition IPIsSiteLocal (ip : IPAddress) : bool :=
  let addr := ipv6_address ip in
  ((addr !!! 0%nat) =? 254) && ((((addr !!! 1%nat) & 192)%W) =? 192).
Definition IPIsULA (ip : IPAddress) : bool :=
  ((((ipv6_address ip !!! 0%nat) & 254)%W) =? 252).
Definition IPIsTeredo (ip : IPAddress) : bool := IPIsHelper ip kTeredoPrefix 32.
Definition IPIsV4Compatibility (ip : IPAddress) : bool := IPIsHelper ip kV4CompatibilityPrefix 96.
Definition IPIsV4Mapped (ip : IPAddress) : bool := IPIsHelper ip kV4MappedPrefix 96.

(** ** Kinds of addresses *)
Definition IPIsAny (ip : IPAddress) : bool :=
  if family_ ip =? AF_INET then ip_eq ip (IPAddress_int INADDR_ANY)
  else if family_ ip =? AF_INET6 then ip_eq ip (IPAddress_v6 in6addr_any)
  else false.
Definition IPIsLoopback (ip : IPAddress) : bool :=
  if family_ ip =? AF_INET then ip_eq ip (IPAddress_int INADDR_LOOPBACK)
  else if family_ ip =? AF_INET6 then ip_eq ip (IPAddress_v6 in6addr_loopback)
  else false.
Definition IsPrivateV4 (ip : Z) : bool :=
  ((ip >> 24)%W =? 127) || ((ip >> 24)%W =? 10)
  || ((ip >> 20)%W =? Z.lor (172 << 4)%W 1)
  || ((ip >> 16)%W =? Z.lor (192 << 8)%W 168)
  || ((ip >> 16)%W =? Z.lor (169 << 8)%W 254).
Definition IPIsPrivate (ip : IPAddress) : bool :=
  if family_ ip =? AF_INET then IsPrivateV4 (v4AddressAsHostOrderInteger ip)
  else if family_ ip =? AF_INET6 then
    (((ipv6_address ip !!! 0%nat) =? 254) && ((ipv6_address ip !!! 1%nat) =? 128)) || IPIsLoopback ip
  else false.
Definition IPIsUnspec (ip : IPAddress) : bool := family_ ip =? AF_UNSPEC.

(** ** Embedded IPv4 addresses *)
Definition ExtractMappedAddress (in6 : list Z) : list Z := slice 12 4 in6.
Definition Normalized (ip : IPAddress) : IPAddress :=
  if negb (family_ ip =? AF_INET6) then ip
  else if negb (IPIsV4Mapped ip) then ip
  else IPAddress_v4 (ExtractMappedAddress (ipv6_address ip)).
Definition AsIPv6Address (ip : IPAddress) : IPAddress :=
  if negb (family_ ip =? AF_INET) then ip
  else IPAddress_v6 (write_at 12 (ipv4_address ip) kV4MappedPrefix).

(** ** Hashing, truncating, counting *)
Definition HashIP (ip : IPAddress) : Z :=
  if family_ ip =? AF_INET then s_addr (ipv4_address ip)
  else if family_ ip =? AF_INET6 then
    let v := v6_as_int (ipv6_address ip) in (v 0%nat ^^ v 1%nat ^^ v 2%nat ^^ v 3%nat)%W
  else 0.

(** The loop over the four words of an IPv6 address, from the [i]-th. *)
Fixpoint truncate_words (n : nat) (i position : nat) (inner_mask : Z) (v6addr : list Z) : list Z :=
  match n with
  | O => v6addr
  | S n =>
    let v6addr :=
      if (i =? position)%nat then
        let host_order_inner := NetworkToHost32 (v6_as_int v6addr i) in
        write_at (4 * i) (host_bytes 4 (HostToNetwork32 (host_order_inner & inner_mask)%W)) v6addr
      else if (position <? i)%nat then write_at (4 * i) (host_bytes 4 0) v6addr
      else v6addr in
    truncate_words n (S i) position inner_mask v6addr
  end.
Definition TruncateIP (ip : IPAddress) (length : Z) : IPAddress :=
  if length <? 0 then IPAddress_unspec
  else if family_ ip =? AF_INET then
    if 31 <? length then ip
    else if length =? 0 then IPAddress_int INADDR_ANY
    else
      let mask := i32 (u32 (4294967295 << (32 - length))%W) in
      let host_order_ip := NetworkToHost32 (s_addr (ipv4_address ip)) in
      IPAddress_v4 (host_bytes 4 (HostToNetwork32 (host_order_ip & u32 mask)%W))
  else if family_ ip =? AF_INET6 then
    if 127 <? length then ip
    else if length =? 0 then IPAddress_v6 in6addr_any
    else
      let position := length / 32 in
      let inner_length := 32 - (length - position * 32) in
      let inner_mask := u32 (4294967295 << inner_length)%W in
      IPAddress_v6 (truncate_words 4 0 (Z.to_nat position) inner_mask (ipv6_address ip))
  else IPAddress_unspec.

(** The first of the words [i], [i+1], .. that is not all ones, among [n]. *)
Fixpoint full_words (n i : nat) (v6addr : list Z) : nat :=
  match n with
  | O => i
  | S n => if negb (v6_as_int v6addr i =? 4294967295) then i else full_words n (S i) v6addr
  end.
(** The number of zeros at the low end; negating the least [int32] wraps. *)
Definition trailing_zeroes (word_to_count : Z) : Z :=
  let word := (word_to_count & u32 (i32 (- i32 word_to_count)))%W in
  let zeroes := 32 in
  let zeroes := if negb (word =? 0) then zeroes - 1 else zeroes in
  let zeroes := if negb ((word & 65535)%W =? 0) then zeroes - 16 else zeroes in
  let zeroes := if negb ((word & 16711935)%W =? 0) then zeroes - 8 else zeroes in
  let zeroes := if negb ((word & 252645135)%W =? 0) then zeroes - 4 else zeroes in
  let zeroes := if negb ((word & 858993459)%W =? 0) then zeroes - 2 else zeroes in
  if negb ((word & 1431655765)%W =? 0) then zeroes - 1 else zeroes.
Definition CountIPMaskBits (mask : IPAddress) : Z :=
  let counted :=
    if family_ mask =? AF_INET then Some (NetworkToHost32 (s_addr (ipv4_address mask)), 0)
    else if family_ mask =? AF_INET6 then
      let i := full_words 4 0 (ipv6_address mask) in
      Some (if (i <? 4)%nat then NetworkToHost32 (v6_as_int (ipv6_address mask) i) else 0, Z.of_nat i * 32)
    else None in
  match counted with
  | None => 0
  | Some (word_to_count, bits) =>
    if word_to_count =? 0 then bits else bits + (32 - trailing_zeroes word_to_count)
  end.

Definition IPAddressPrecedence (ip : IPAddress) : Z :=
  if family_ ip =? AF_INET then 30
  else if family_ ip =? AF_INET6 then
    if IPIsLoopback ip then 60
    else if IPIsULA ip then 50
    else if IPIsV4Mapped ip then 30
    else if IPIs6To4 ip then 20
    else if IPIsTeredo ip then 10
    else if IPIsV4Compatibility ip || IPIsSiteLocal ip || IPIs6Bone ip then 1
    else 40
  else 0.

(** ** What the resolver returns *)

(** The [ai_family] and [ai_addr] of an [addrinfo]; a [sockaddr] is its family and
    the address in it. *)
Record addrinfo := mk_addrinfo { ai_family : Z; ai_addr : option (Z * list Z) }.
Definition IPFromAddrInfo (info : option addrinfo) : option IPAddress :=
  info ← info;
  '(sa_family, addr) ← ai_addr info;
  if sa_family =? AF_INET then Some (IPAddress_v4 (take 4 addr))
  else if sa_family =? AF_INET6 then Some (IPAddress_v6 (take 16 addr))
  else None.

(** [getaddrinfo] is the system's: its result for a name and the family of the
    hints, and the list it makes. *)
Definition ResolveHostname (getaddrinfo : list Z -> Z -> Z * list addrinfo) (hostname : list Z) (family : Z)
  : Z * list IPAddress :=
  let '(ret, result) := getaddrinfo (c_str hostname) AF_INET in
  if negb (ret =? 0) then (ret, [])
  else (0, omap (fun cursor =>
    if (family =? AF_UNSPEC) || (ai_family cursor =? family) then IPFromAddrInfo (Some cursor) else None) result).
End ip.

(** ** Examples *)
Definition example_ip (text : string) : IPAddress :=
  match IPFromString (HO := little_endian) (bytes text) with Done (_, ip) => ip | _ => IPAddress_unspec end.
Example address_examples :
  ToString (HO := little_endian) (example_ip "2001:db8::1") = Done (bytes "2001:db8::1") /\
  ToString (HO := little_endian) (Normalized (example_ip "::ffff:10.1.2.3")) = Done (bytes "10.1.2.3") /\
  ToString (HO := little_endian) (TruncateIP (HO := little_endian) (example_ip "2001:db8:aaaa:bbbb::1") 40)
    = Done (bytes "2001:db8:aa00::") /\
  CountIPMaskBits (HO := little_endian) (example_ip "255.255.240.0") = 20 /\
  CountIPMaskBits (HO := little_endian) (example_ip "255.0.255.0") = 24 /\
  IPIsPrivate (HO := little_endian) (example_ip "169.254.3.4") = true /\
  IPIsLoopback (HO := little_endian) (example_ip "127.0.0.2") = false /\
  IPAddressPrecedence (HO := little_endian) (example_ip "2002::1") = 20.
Proof. by vm_compute. Qed.

(** ** Addresses the class makes *)
Record ip_wf (ip : IPAddress) : Prop := {
  wf_bytes : is_bytes (u_ ip);
  wf_size : length (u_ ip) = 16%nat;
  wf_family : (family_ ip = AF_UNSPEC /\ u_ ip = replicate 16 0)
    \/ (family_ ip = AF_INET /\ drop 4 (u_ ip) = replicate 12 0)
    \/ family_ ip = AF_INET6 }.

(** The address as a number, and its place in the order. *)
Definition ip_bytes (ip : IPAddress) : list Z := if family_ ip =? AF_INET then ipv4_address ip else ipv6_address ip.
Definition ip_value (ip : IPAddress) : Z := be_val (ip_bytes ip).
Definition ip_width (ip : IPAddress) : Z := 8 * Z.of_nat (length (ip_bytes ip)).
Definition ip_rank (ip : IPAddress) : Z :=
  if family_ ip =? AF_UNSPEC then 0 else if family_ ip =? AF_INET then 1 else 2.
Definition ip_key (ip : IPAddress) : Z := ip_rank ip * 2 ^ 128 + ip_value ip.

Lemma be_val_cons c l : be_val (c :: l) = c * 2 ^ (8 * Z.of_nat (length l)) + be_val l.
Proof. change (c :: l) with ([c] ++ l). rewrite be_val_app. unfold be_val at 1. cbn. f_equal. f_equal. lia. Qed.

Lemma bytes_lt_val a b : is_bytes a -> is_bytes b -> length a = length b ->
  bytes_lt a b = (be_val a <? be_val b).
Proof.
  intros Ha. revert b. induction Ha as [|x a Hx Ha IH]; intros [|y b] Hb Hl; try done.
  apply Forall_cons_1 in Hb as [Hy Hb]. injection Hl as Hl. cbn [bytes_lt].
  rewrite IH by done. rewrite !be_val_cons, Hl.
  pose proof (be_val_bound a Ha) as Ba. pose proof (be_val_bound b Hb) as Bb. rewrite Hl in Ba.
  set (p := 2 ^ (8 * Z.of_nat (length b))) in *.
  destruct (Z.ltb_spec x y); cbn [orb].
  - symmetry. apply Z.ltb_lt. nia.
  - destruct (Z.eqb_spec x y) as [->|]; cbn [andb].
    + destruct (Z.ltb_spec (be_val a) (be_val b)); symmetry; [apply Z.ltb_lt|apply Z.ltb_ge]; lia.
    + symmetry. apply Z.ltb_ge. nia.
Qed.
Lemma be_val_inj a b : is_bytes a -> is_bytes b -> length a = length b -> be_val a = be_val b -> a = b.
Proof.
  intros Ha Hb Hl E. rewrite <- (be_bytes_val a Ha), <- (be_bytes_val b Hb). by rewrite E, Hl.
Qed.

Section wf.
Context {HO : Host}.

Lemma IPAddress_v4_wf b : is_bytes b -> length b = 4%nat -> ip_wf (IPAddress_v4 b).
Proof.
  intros Hb Hl. unfold IPAddress_v4. split; cbn [u_ family_].
  - apply write_at_0_is_bytes; [done|]. by apply Forall_replicate.
  - rewrite length_write_at; [done|]. rewrite Hl. cbn. lia.
  - right. left. split; [done|]. unfold write_at. rewrite Hl. cbn. rewrite drop_app_ge by lia. rewrite Hl. done.
Qed.
Lemma IPAddress_v6_wf b : is_bytes b -> length b = 16%nat -> ip_wf (IPAddress_v6 b).
Proof. split; [done|done|]. by do 2 right. Qed.
Lemma IPAddress_unspec_wf : ip_wf IPAddress_unspec.
Proof. split; [by repeat constructor|done|]. by left. Qed.
Lemma IPAddress_int_wf n : ip_wf (IPAddress_int n).
Proof.
  unfold IPAddress_int. rewrite bytes_HostToNetwork32.
  apply IPAddress_v4_wf; auto using be_bytes_is_bytes, length_be_bytes.
Qed.
Lemma ipv4_of b : length b = 4%nat -> ipv4_address (IPAddress_v4 b) = b.
Proof. intros Hl. unfold ipv4_address, IPAddress_v4, write_at. cbn [u_]. cbn. by rewrite take_app_length'. Qed.
Lemma ipv6_of b : length b = 16%nat -> ipv6_address (IPAddress_v6 b) = b.
Proof. intros Hl. unfold ipv6_address, IPAddress_v6. cbn [u_]. by rewrite take_ge by lia. Qed.

Lemma ip_bytes_are ip : ip_wf ip -> is_bytes (ip_bytes ip) /\
  length (ip_bytes ip) = if family_ ip =? AF_INET then 4%nat else 16%nat.
Proof.
  intros [Hb Hs _]. unfold ip_bytes, ipv4_address, ipv6_address.
  destruct (family_ ip =? AF_INET); (split; [by apply is_bytes_take|rewrite length_take; lia]).
Qed.
Lemma ip_value_bound ip : ip_wf ip -> 0 <= ip_value ip < 2 ^ 128.
Proof.
  intros Hw. destruct (ip_bytes_are ip Hw) as [Hb Hl]. pose proof (be_val_bound _ Hb) as H. rewrite Hl in H.
  unfold ip_value. destruct (family_ ip =? AF_INET); cbn in *; lia.
Qed.
Lemma host_value_v4 ip : ip_wf ip -> family_ ip = AF_INET ->
  NetworkToHost32 (s_addr (ipv4_address ip)) = ip_value ip.
Proof.
  intros Hw Hf. destruct (ip_bytes_are ip Hw) as [Hb Hl]. unfold ip_value, ip_bytes in *. rewrite Hf in *.
  cbn in *. by apply NetworkToHost32_value.
Qed.
Lemma ip_ext a b : ip_wf a -> ip_wf b -> family_ a = family_ b -> ip_bytes a = ip_bytes b -> a = b.
Proof.
  intros [_ Ha Fa] [_ Hb Fb] Hf E. destruct a as [fa ua], b as [fb ub]. cbn in *. subst fb. f_equal.
  unfold ip_bytes, ipv4_address, ipv6_address in E. cbn in E.
  destruct (Z.eqb_spec fa AF_INET) as [->|Hn].
  - destruct Fa as [[? _]|[[_ Fa]|?]]; try done. destruct Fb as [[? _]|[[_ Fb]|?]]; try done.
    rewrite <- (take_drop 4 ua), <- (take_drop 4 ub). by rewrite E, Fa, Fb.
  - by rewrite !take_ge in E by lia.
Qed.

(** The order and the equality are those of the keys, and no two addresses have
    the same key. *)
Lemma ip_key_inj a b : ip_wf a -> ip_wf b -> ip_key a = ip_key b -> a = b.
Proof.
  intros Ha Hb E. pose proof (ip_value_bound a Ha). pose proof (ip_value_bound b Hb).
  unfold ip_key in E.
  assert (0 <= ip_rank a <= 2 /\ 0 <= ip_rank b <= 2) as [? ?]
    by (unfold ip_rank; repeat case_if; lia).
  assert (ip_rank a = ip_rank b /\ ip_value a = ip_value b) as [Er Ev] by lia.
  assert (family_ a = family_ b) as Hf.
  { destruct Ha as [_ _ Fa], Hb as [_ _ Fb]. unfold ip_rank in Er.
    destruct Fa as [[Ea _]|[[Ea _]|Ea]], Fb as [[Eb _]|[[Eb _]|Eb]]; rewrite Ea, Eb in *; done. }
  apply ip_ext; try done. destruct (ip_bytes_are a Ha) as [? La], (ip_bytes_are b Hb) as [? Lb].
  apply be_val_inj; try done. by rewrite La, Lb, Hf.
Qed.
Lemma ip_lt_key a b : ip_wf a -> ip_wf b -> ip_lt a b = (ip_key a <? ip_key b).
Proof.
  intros Ha Hb. pose proof (ip_value_bound a Ha). pose proof (ip_value_bound b Hb).
  pose proof (host_value_v4 a Ha). pose proof (host_value_v4 b Hb).
  destruct (ip_bytes_are a Ha) as [Ba La], (ip_bytes_are b Hb) as [Bb Lb].
  unfold ip_lt, ip_key, ip_rank, ip_value, ip_bytes in *. destruct Ha as [_ _ Fa], Hb as [_ _ Fb].
  destruct Fa as [[Ea Ua]|[[Ea _]|Ea]], Fb as [[Eb Ub]|[[Eb _]|Eb]]; rewrite Ea, Eb in *; cbn [Z.eqb negb] in *;
    unfold AF_UNSPEC, AF_INET, AF_INET6 in *; cbn [Z.eqb Pos.eqb negb andb] in *.
  all: try (symmetry; first [apply Z.ltb_lt | apply Z.ltb_ge]; lia).
  - unfold ipv6_address. rewrite Ua, Ub. done.
  - rewrite H1, H2 by done. apply eq_true_iff_eq. rewrite !Z.ltb_lt. lia.
  - rewrite bytes_lt_val by (done || lia). apply eq_true_iff_eq. rewrite !Z.ltb_lt. lia.
Qed.
Lemma ip_eq_iff a b : ip_wf a -> ip_wf b -> ip_eq a b = true <-> a = b.
Proof.
  intros Ha Hb. split.
  - unfold ip_eq. destruct (Z.eqb_spec (family_ a) (family_ b)) as [Hf|]; [|done]. cbn [negb]. intros E.
    apply ip_ext; try done. unfold ip_bytes. rewrite <- Hf. destruct (family_ a =? AF_INET) eqn:E4.
    + by apply bool_decide_eq_true_1 in E.
    + destruct (family_ a =? AF_INET6) eqn:E6; [by apply bool_decide_eq_true_1 in E|].
      unfold ipv6_address. destruct Ha as [_ _ Fa], Hb as [_ _ Fb]. apply Z.eqb_eq in E.
      destruct Fa as [[_ ->]|[[Ea _]|Ea]]; [|by rewrite Ea in E..].
      rewrite E in Hf. destruct Fb as [[_ ->]|[[Eb _]|Eb]]; [done|by rewrite Eb in Hf..].
  - intros <-. unfold ip_eq. rewrite Z.eqb_refl. cbn [negb]. rewrite !bool_decide_eq_true_2 by done.
    destruct Ha as [_ _ [[-> _]|[[-> _]| ->]]]; done.
Qed.
Lemma ip_eq_key a b : ip_wf a -> ip_wf b -> ip_eq a b = (ip_key a =? ip_key b).
Proof.
  intros Ha Hb. apply eq_true_iff_eq. rewrite ip_eq_iff, Z.eqb_eq by done.
  split; [by intros ->|by apply ip_key_inj].
Qed.
End wf.

(** ** Text *)

(** An IPv6 address whose text can be read back. *)
Definition readable_v6 (b : list Z) : Prop :=
  exists ws, b = v6 ws /\ length ws = 8%nat /\ words ws /\ isolated_zeros ws = false.
(** An address with a text that is read as this address. *)
Definition ip_readable (ip : IPAddress) : Prop :=
  family_ ip = AF_INET \/ (family_ ip = AF_INET6 /\ readable_v6 (u_ ip)).

Section text.
Context {HO : Host}.

Lemma c_str_zero_tail text n : no_nul text -> c_str (text ++ replicate n 0) = text.
Proof. intros H. rewrite c_str_app by done. destruct n; apply app_nil_r. Qed.

Lemma v4_text ip : ip_wf ip -> family_ ip = AF_INET ->
  ToString ip = Done (dotted (ipv4_address ip)) /\ inet_pton_v4 (dotted (ipv4_address ip)) = Some (ipv4_address ip).
Proof.
  intros Hw Hf. destruct (ip_bytes_are ip Hw) as [Hb Hl]. unfold ip_bytes in *. rewrite Hf in *. cbn in Hb, Hl.
  split; [|by apply inet_pton_v4_dotted]. unfold ToString. rewrite Hf.
  change (negb (AF_INET =? AF_INET) && negb (AF_INET =? AF_INET6)) with false.
  change (AF_INET =? AF_INET6) with false. cbn match.
  change (inet_ntop AF_INET ?s ?d ?n) with (inet_ntop_v4 s d n).
  rewrite inet_ntop_v4_zeros by (done || (unfold INET_ADDRSTRLEN, INET6_ADDRSTRLEN; lia)). run.
  by rewrite c_str_zero_tail by by apply no_nul_dotted.
Qed.
Lemma v6_text ip : ip_wf ip -> family_ ip = AF_INET6 -> readable_v6 (u_ ip) ->
  exists text, ToString ip = Done text /\ Forall address_char text /\ inet_pton_v4 text = None /\
    inet_pton_v6 text = Done (Some (u_ ip)).
Proof.
  intros [Hb Hs _] Hf (ws & E & Hl & Hw & Hi).
  destruct (inet_ntop_v6_text ws Hw Hl INET6_ADDRSTRLEN INET6_ADDRSTRLEN Hi) as (text & Et & Hn & H4 & H6); [lia|].
  exists text. rewrite E. repeat split; try done. unfold ToString. rewrite Hf. cbn [negb andb].
  change (negb (AF_INET6 =? AF_INET) && negb (AF_INET6 =? AF_INET6)) with false.
  change (AF_INET6 =? AF_INET6) with true. cbn match. unfold ipv6_address. rewrite take_ge, E by lia.
  change (inet_ntop AF_INET6 ?s ?d ?n) with (inet_ntop_v6 s d n). rewrite Et. run.
  by rewrite c_str_zero_tail by by apply address_no_nul.
Qed.

(** The readers of an address: the first IPv4, the second IPv6. *)
Lemma inet_pton_AF_INET text r : inet_pton_v4 text = r ->
  inet_pton AF_INET text = Done (match r with Some _ => 1 | None => 0 end, r).
Proof. by intros <-. Qed.
Lemma inet_pton_AF_INET6 text r : inet_pton_v6 text = Done r ->
  inet_pton AF_INET6 text = Done (match r with Some _ => 1 | None => 0 end, r).
Proof. intros E. unfold inet_pton. change (AF_INET6 =? AF_INET) with false. cbn match. by rewrite E. Qed.
Lemma IPFromString_v4 text b : no_nul text -> inet_pton_v4 text = Some b ->
  IPFromString text = Done (true, IPAddress_v4 b).
Proof. intros Hn E. unfold IPFromString. rewrite c_str_id by done. by rewrite (inet_pton_AF_INET _ _ E). Qed.
Lemma IPFromString_v6 text b : no_nul text -> inet_pton_v4 text = None -> inet_pton_v6 text = Done (Some b) ->
  IPFromString text = Done (true, IPAddress_v6 b).
Proof.
  intros Hn E4 E6. unfold IPFromString. rewrite c_str_id by done. rewrite (inet_pton_AF_INET _ _ E4). run.
  by rewrite (inet_pton_AF_INET6 _ _ E6).
Qed.

Lemma ip_text_readable ip : ip_wf ip -> ip_readable ip ->
  exists text, ToString ip = Done text /\ Forall address_char text /\ IPFromString text = Done (true, ip).
Proof.
  intros Hw [Hf|[Hf Hr]].
  - destruct (v4_text ip Hw Hf) as [E E4]. exists (dotted (ipv4_address ip)).
    destruct (ip_bytes_are ip Hw) as [Hb Hl]. unfold ip_bytes in Hb, Hl. rewrite Hf in Hb, Hl.
    pose proof (dotted_address _ Hl Hb) as Hd. repeat split; [done|done|].
    rewrite (IPFromString_v4 _ _ (address_no_nul _ Hd) E4). do 2 f_equal. apply ip_ext; try done.
    + by apply IPAddress_v4_wf.
    + unfold ip_bytes. rewrite Hf. cbn. apply ipv4_of. unfold ipv4_address. rewrite length_take.
      destruct Hw as [_ -> _]. done.
  - destruct (v6_text ip Hw Hf Hr) as (text & E & Hn & E4 & E6). exists text.
    repeat split; [done|done|]. rewrite (IPFromString_v6 _ _ (address_no_nul _ Hn) E4 E6). do 2 f_equal.
    destruct ip as [f u]. cbn in *. by rewrite Hf.
Qed.
End text.

(** ** Masks and prefixes of bits *)
Lemma land_high_mask w k : in_width 32 w -> 0 <= k <= 32 ->
  Z.land w (u32 (Z.shiftl 4294967295 k)) = w / 2 ^ k * 2 ^ k.
Proof.
  intros Hw Hk. rewrite <- Z.shiftr_div_pow2, <- Z.shiftl_mul_pow2 by lia.
  apply Z.bits_inj'. intros n Hn. rewrite Z.land_spec, Z.shiftl_spec by done.
  unfold u32, wrap. change 4294967295 with (Z.ones 32).
  destruct (Z.lt_ge_cases n k).
  - rewrite (Z.testbit_neg_r (Z.shiftr w k)) by lia. rewrite Z.mod_pow2_bits_low by lia.
    rewrite Z.shiftl_spec_low by lia. apply andb_false_r.
  - rewrite Z.shiftr_spec by lia. replace (n - k + k) with n by lia.
    destruct (Z.lt_ge_cases n 32).
    + rewrite Z.mod_pow2_bits_low, Z.shiftl_spec, Z.ones_spec_low by lia. apply andb_true_r.
    + rewrite Z.mod_pow2_bits_high by lia. rewrite andb_false_r.
      unfold in_width in Hw. rewrite <- (Z.mod_small w (2 ^ 32)) by lia. by rewrite Z.mod_pow2_bits_high by lia.
Qed.

(** Clearing low bits of a number made of a high part, one word and a low part. *)
Lemma truncate_parts hi w low s k : 0 <= s -> 0 <= k <= 32 -> 0 <= low < 2 ^ s ->
  (hi * 2 ^ (s + 32) + w * 2 ^ s + low) / 2 ^ (s + k) * 2 ^ (s + k) = hi * 2 ^ (s + 32) + (w / 2 ^ k * 2 ^ k) * 2 ^ s.
Proof.
  intros Hs Hk Hl. rewrite !Z.pow_add_r by lia.
  rewrite <- Z.div_div by (try apply Z.pow_nonzero; lia).
  replace ((hi * (2 ^ s * 2 ^ 32) + w * 2 ^ s + low) / 2 ^ s) with (hi * 2 ^ 32 + w).
  2: { apply (Z.div_unique _ _ _ low); lia. }
  replace (2 ^ 32) with (2 ^ (32 - k) * 2 ^ k) by (rewrite <- Z.pow_add_r by lia; f_equal; lia).
  replace ((hi * (2 ^ (32 - k) * 2 ^ k) + w) / 2 ^ k) with (hi * 2 ^ (32 - k) + w / 2 ^ k); [lia|].
  rewrite Z.mul_assoc, Z.div_add_l by (apply Z.pow_nonzero; lia). done.
Qed.

Section truncate.
Context {HO : Host}.

Lemma v6_as_int_word qs i q : qs !! i = Some q -> in_width 32 q ->
  NetworkToHost32 (v6_as_int (be_words 4 qs) i) = q.
Proof.
  intros Hq Hw. unfold v6_as_int. rewrite (slice_be_words 4 i q) by done.
  rewrite NetworkToHost32_value by auto using be_bytes_is_bytes, length_be_bytes.
  rewrite be_val_bytes. by apply Z.mod_small.
Qed.
Lemma host_bytes_zero n : host_bytes n 0 = be_bytes n 0.
Proof.
  unfold host_bytes. destruct host_big; [done|].
  assert (forall n, le_bytes n 0 = replicate n 0) as E by (clear; intros n; induction n as [|n IH]; cbn; [done|by f_equal]).
  unfold be_bytes. by rewrite !E, reverse_replicate.
Qed.
Lemma truncate_quads qs p mask : length qs = 4%nat -> Forall (in_width 32) qs -> (p < 4)%nat ->
  truncate_words 4 0 p mask (be_words 4 qs) =
  be_words 4 (take p qs ++ [Z.land (qs !!! p) mask] ++ replicate (3 - p) 0).
Proof.
  intros Hl Hw Hp. do 4 (destruct qs as [|? qs]; [done|]). destruct qs; [|done].
  repeat (apply Forall_cons_1 in Hw as [? Hw]).
  destruct p as [|[|[|[|p]]]]; [..|lia]; cbn [truncate_words Nat.eqb Nat.ltb Nat.leb].
  all: rewrite ?bytes_HostToNetwork32, ?host_bytes_zero.
  - rewrite (v6_as_int_word _ 0 z) by done. rewrite !write_be_words by (cbn; lia). done.
  - rewrite (v6_as_int_word _ 1 z0) by done. rewrite !write_be_words by (cbn; lia). done.
  - rewrite (v6_as_int_word _ 2 z1) by done. rewrite !write_be_words by (cbn; lia). done.
  - rewrite (v6_as_int_word _ 3 z2) by done. rewrite !write_be_words by (cbn; lia). done.
Qed.

Lemma be_val_quads a b c d : Forall (in_width 32) [a; b; c; d] ->
  be_val (be_words 4 [a; b; c; d]) = a * 2 ^ 96 + b * 2 ^ 64 + c * 2 ^ 32 + d.
Proof.
  intros Hw. repeat (apply Forall_cons_1 in Hw as [? Hw]).
  rewrite !be_val_words by done. change (be_val (be_words 4 [])) with 0.
  cbn [length Nat.mul Nat.add Z.of_nat Z.mul Pos.of_succ_nat Pos.succ Pos.mul]. lia.
Qed.
Lemma truncate_quads_value qs p k mask : length qs = 4%nat -> Forall (in_width 32) qs -> (p < 4)%nat ->
  0 <= k <= 32 -> mask = u32 (Z.shiftl 4294967295 k) ->
  let s := 32 * (3 - Z.of_nat p) in
  be_val (truncate_words 4 0 p mask (be_words 4 qs)) = be_val (be_words 4 qs) / 2 ^ (s + k) * 2 ^ (s + k).
Proof.
  intros Hl Hw Hp Hk -> s. rewrite truncate_quads by done.
  do 4 (destruct qs as [|? qs]; [done|]). destruct qs; [|done].
  rewrite (be_val_quads z z0 z1 z2) by done. pose proof Hw as Hw'.
  repeat (apply Forall_cons_1 in Hw' as [? Hw']).
  assert (forall w, in_width 32 w -> in_width 32 (w / 2 ^ k * 2 ^ k)) as Hd.
  { intros w Hx. unfold in_width in *. assert (0 < 2 ^ k) by (apply Z.pow_pos_nonneg; lia).
    pose proof (Z.mul_div_le w (2 ^ k) ltac:(lia)). pose proof (Z.div_pos w (2 ^ k) ltac:(lia) ltac:(lia)). nia. }
  destruct p as [|[|[|[|p]]]]; [..|lia]; cbn [take app replicate Nat.sub lookup_total list_lookup_total];
    rewrite land_high_mask by done; rewrite be_val_quads by
      (repeat (apply List.Forall_cons; [first [done | by apply Hd | word_lia]|]); apply List.Forall_nil).
  1: pose proof (truncate_parts 0 z (z0 * 2 ^ 64 + z1 * 2 ^ 32 + z2) 96 k) as E.
  2: pose proof (truncate_parts z z0 (z1 * 2 ^ 32 + z2) 64 k) as E.
  3: pose proof (truncate_parts (z * 2 ^ 32 + z0) z1 z2 32 k) as E.
  4: pose proof (truncate_parts (z * 2 ^ 64 + z0 * 2 ^ 32 + z1) z2 0 0 k) as E.
  all: specialize (E ltac:(lia) Hk ltac:(unfold in_width in *; lia)).
  1: change s with 96. 2: change s with 64. 3: change s with 32. 4: change s with 0.
  all: match type of E with ?n / _ * _ = _ =>
    match goal with |- _ = ?m / _ * _ => replace m with n by lia end end; rewrite E; lia.
Qed.
End truncate.

Section properties.
Context {HO : Host}.

Lemma ip_value_v4 b : length b = 4%nat -> ip_value (IPAddress_v4 b) = be_val b.
Proof. intros Hl. unfold ip_value, ip_bytes. cbn [family_ IPAddress_v4]. by rewrite ipv4_of. Qed.
Lemma ip_value_v6 b : length b = 16%nat -> ip_value (IPAddress_v6 b) = be_val b.
Proof. intros Hl. unfold ip_value, ip_bytes. cbn [family_ IPAddress_v6]. by rewrite ipv6_of. Qed.
Lemma ip_value_int n : in_width 32 n -> ip_value (IPAddress_int n) = n.
Proof.
  intros Hn. unfold IPAddress_int. rewrite bytes_HostToNetwork32, ip_value_v4, be_val_bytes by done.
  by apply Z.mod_small.
Qed.
Lemma ip_width_v4 ip : ip_wf ip -> family_ ip = AF_INET -> ip_width ip = 32.
Proof. intros Hw Hf. unfold ip_width. destruct (ip_bytes_are ip Hw) as [_ ->]. by rewrite Hf. Qed.
Lemma ip_width_v6 ip : ip_wf ip -> family_ ip = AF_INET6 -> ip_width ip = 128.
Proof. intros Hw Hf. unfold ip_width. destruct (ip_bytes_are ip Hw) as [_ ->]. by rewrite Hf. Qed.
Lemma ip_value_width ip : ip_wf ip -> 0 <= ip_value ip < 2 ^ ip_width ip.
Proof. intros Hw. apply be_val_bound, (ip_bytes_are ip Hw). Qed.

Lemma TruncateIP_v4 ip n : ip_wf ip -> family_ ip = AF_INET -> 0 <= n ->
  family_ (TruncateIP ip n) = AF_INET /\
  ip_value (TruncateIP ip n) = ip_value ip / 2 ^ Z.max 0 (32 - n) * 2 ^ Z.max 0 (32 - n).
Proof.
  intros Hw Hf Hn. pose proof (ip_value_width ip Hw) as Hb. rewrite ip_width_v4 in Hb by done.
  unfold TruncateIP. rewrite Hf. replace (n <? 0) with false by lia. cbn [Z.eqb Pos.eqb AF_INET].
  change (AF_INET =? AF_INET) with true. cbn match. destruct (Z.ltb_spec 31 n).
  { split; [done|]. replace (Z.max 0 (32 - n)) with 0 by lia. rewrite Z.div_1_r. lia. }
  destruct (Z.eqb_spec n 0) as [->|].
  { split; [done|]. rewrite ip_value_int by done. change (Z.max 0 (32 - 0)) with 32.
    rewrite Z.div_small by lia. done. }
  split; [done|]. rewrite Z.max_r by lia. rewrite bytes_HostToNetwork32, ip_value_v4, be_val_bytes by done.
  rewrite host_value_v4 by done.
  replace (u32 (i32 (u32 (Z.shiftl 4294967295 (32 - n))))) with (u32 (Z.shiftl 4294967295 (32 - n)))
    by (generalize (Z.shiftl 4294967295 (32 - n)) as x; intros x; word_lia).
  rewrite land_high_mask by (unfold in_width; lia). apply Z.mod_small.
  assert (0 < 2 ^ (32 - n)) by (apply Z.pow_pos_nonneg; lia).
  pose proof (Z.mul_div_le (ip_value ip) (2 ^ (32 - n)) ltac:(lia)).
  pose proof (Z.div_pos (ip_value ip) (2 ^ (32 - n)) ltac:(lia) ltac:(lia)). cbn. nia.
Qed.
Lemma TruncateIP_v6 ip n : ip_wf ip -> family_ ip = AF_INET6 -> 0 <= n ->
  family_ (TruncateIP ip n) = AF_INET6 /\
  ip_value (TruncateIP ip n) = ip_value ip / 2 ^ Z.max 0 (128 - n) * 2 ^ Z.max 0 (128 - n).
Proof.
  intros Hw Hf Hn. pose proof (ip_value_width ip Hw) as Hb. rewrite ip_width_v6 in Hb by done.
  unfold TruncateIP. rewrite Hf. replace (n <? 0) with false by lia.
  change (AF_INET6 =? AF_INET) with false. change (AF_INET6 =? AF_INET6) with true. cbn match.
  destruct (Z.ltb_spec 127 n).
  { split; [done|]. replace (Z.max 0 (128 - n)) with 0 by lia. rewrite Z.div_1_r. lia. }
  destruct (Z.eqb_spec n 0) as [->|].
  { split; [done|]. rewrite ip_value_v6 by done. change (Z.max 0 (128 - 0)) with 128.
    rewrite Z.div_small by lia. done. }
  split; [done|]. rewrite Z.max_r by lia.
  assert (Hi : ip_value ip = be_val (ipv6_address ip)) by (unfold ip_value, ip_bytes; by rewrite Hf).
  destruct (ip_bytes_are ip Hw) as [Hbb Hll]. unfold ip_bytes in Hbb, Hll. rewrite Hf in Hbb, Hll.
  destruct (be_words_exist 4 4 (ipv6_address ip)) as (qs & E & Hq & Hqw); [done|done|].
  assert (0 <= n / 32 < 4) as Hp by (Z.div_mod_to_equations; lia).
  rewrite Hi, E. rewrite truncate_quads by (done || lia).
  rewrite ip_value_v6 by (rewrite length_be_words, !length_app, length_take, length_replicate; cbn [length]; lia).
  rewrite <- truncate_quads by (done || lia).
  rewrite (truncate_quads_value qs _ (32 - (n - n / 32 * 32))) by (done || lia || (Z.div_mod_to_equations; lia)).
  replace (32 * (3 - Z.of_nat (Z.to_nat (n / 32))) + (32 - (n - n / 32 * 32))) with (128 - n) by lia. done.
Qed.

(** The operators on addresses are one strict total order and its equality: they
    compare the keys, IPv4 before IPv6, and equal keys are equal addresses. *)
Theorem ip_order a b : ip_wf a -> ip_wf b ->
  ip_lt a b = (ip_key a <? ip_key b) /\ ip_gt a b = (ip_key b <? ip_key a) /\
  ip_eq a b = (ip_key a =? ip_key b) /\ (ip_eq a b = true <-> a = b).
Proof.
  intros Ha Hb. split; [by apply ip_lt_key|]. split; [|split; [by apply ip_eq_key|by apply ip_eq_iff]].
  unfold ip_gt. rewrite ip_lt_key, ip_eq_key by done. apply eq_true_iff_eq.
  rewrite andb_true_iff, !negb_true_iff, Z.eqb_neq, Z.ltb_ge, Z.ltb_lt. lia.
Qed.

(** The text of an address is read back as the address. *)
Theorem ip_text_round_trip ip : ip_wf ip -> ip_readable ip ->
  exists text, ToString ip = Done text /\ IPFromString text = Done (true, ip).
Proof. intros Hw Hr. destruct (ip_text_readable ip Hw Hr) as (text & ? & _ & ?). by exists text. Qed.

(** Truncating an address to some bits keeps its family and that many leading
    bits, and clears the others. *)
Theorem TruncateIP_keeps_prefix ip n : ip_wf ip -> family_ ip <> AF_UNSPEC -> 0 <= n ->
  family_ (TruncateIP ip n) = family_ ip /\
  let k := Z.max 0 (ip_width ip - n) in ip_value (TruncateIP ip n) = ip_value ip / 2 ^ k * 2 ^ k.
Proof.
  intros Hw Hf Hn. destruct (wf_family _ Hw) as [[? _]|[[E _]|E]]; [done|..]; rewrite E.
  - rewrite ip_width_v4 by done. by apply TruncateIP_v4.
  - rewrite ip_width_v6 by done. by apply TruncateIP_v6.
Qed.

Lemma mask_bits_checked :
  forallb (fun n => CountIPMaskBits (IPAddress_v6 (be_bytes 16 (2 ^ 128 - 2 ^ (128 - n)))) =? n) (seqZ 0 129) = true /\
  forallb (fun n => CountIPMaskBits (IPAddress_v4 (be_bytes 4 (2 ^ 32 - 2 ^ (32 - n)))) =? n) (seqZ 0 33) = true.
Proof.
  unfold CountIPMaskBits, full_words, v6_as_int, s_addr, NetworkToHost32, host_value, host_bytes.
  destruct host_big; by vm_compute.
Qed.

(** Of a network mask of [n] leading ones the bits are counted right. *)
Theorem CountIPMaskBits_of_masks n : 0 <= n <= 128 ->
  CountIPMaskBits (IPAddress_v6 (be_bytes 16 (2 ^ 128 - 2 ^ (128 - n)))) = n /\
  (n <= 32 -> CountIPMaskBits (IPAddress_v4 (be_bytes 4 (2 ^ 32 - 2 ^ (32 - n)))) = n).
Proof.
  intros Hn. destruct mask_bits_checked as [H6 H4]. split; [|intros ?]; apply Z.eqb_eq.
  - apply (seqZ_forallb _ _ _ n H6). lia.
  - apply (seqZ_forallb _ _ _ n H4). lia.
Qed.

(** The ranges that count as private. *)
Lemma IsPrivateV4_ranges ip : in_width 32 ip ->
  IsPrivateV4 ip = true <->
  2130706432 <= ip < 2147483648 \/ 167772160 <= ip < 184549376 \/ 2886729728 <= ip < 2887778304
  \/ 3232235520 <= ip < 3232301056 \/ 2851995648 <= ip < 2852061184.
Proof.
  intros Hw. unfold IsPrivateV4. rewrite !Z.shiftr_div_pow2 by lia.
  change (Z.lor (Z.shiftl 172 4) 1) with 2753. change (Z.lor (Z.shiftl 192 8) 168) with 49320.
  change (Z.lor (Z.shiftl 169 8) 254) with 43518. unfold in_width in Hw.
  rewrite !orb_true_iff, !Z.eqb_eq. change (2 ^ 24) with 16777216. change (2 ^ 20) with 1048576.
  change (2 ^ 16) with 65536. Z.div_mod_to_equations. lia.
Qed.

(** An IPv4 address mapped into IPv6 is recognised and given back. *)
Lemma Normalized_AsIPv6Address ip : ip_wf ip -> family_ ip = AF_INET ->
  IPIsV4Mapped (AsIPv6Address ip) = true /\ Normalized (AsIPv6Address ip) = ip.
Proof.
  intros Hw Hf. destruct (ip_bytes_are ip Hw) as [Hb Hl]. unfold ip_bytes in *. rewrite Hf in *.
  change (AF_INET =? AF_INET) with true in *. cbn match in *.
  unfold AsIPv6Address. rewrite Hf. change (negb (AF_INET =? AF_INET)) with false. cbn match.
  set (b := ipv4_address ip) in *. set (l := write_at 12 b kV4MappedPrefix).
  assert (El : l = take 12 kV4MappedPrefix ++ b) by (unfold l, write_at; rewrite Hl; apply (f_equal (app _)); apply app_nil_r).
  assert (length l = 16%nat) as Hl16 by (rewrite El, length_app, Hl; done).
  assert (Hm : IPIsV4Mapped (IPAddress_v6 l) = true).
  { unfold IPIsV4Mapped, IPIsHelper. rewrite ipv6_of by done. apply bool_decide_eq_true_2.
    change (Z.to_nat (Z.shiftr 96 3)) with 12%nat. rewrite El. by rewrite take_app_length' by done. }
  split; [done|]. unfold Normalized. change (negb (family_ (IPAddress_v6 l) =? AF_INET6)) with false.
  cbn match. rewrite Hm. cbn [negb]. rewrite ipv6_of by done. unfold ExtractMappedAddress, slice. rewrite El.
  rewrite drop_app_length' by done. rewrite take_ge by lia. apply ip_ext; [by apply IPAddress_v4_wf|done|done|].
  unfold ip_bytes. rewrite Hf. change (family_ (IPAddress_v4 b)) with AF_INET.
  change (AF_INET =? AF_INET) with true. cbn match. by apply ipv4_of.
Qed.
End properties.

Definition demo_v6 : IPAddress := IPAddress_v6 (v6 [8193; 3512; 0; 0; 1; 65535; 0; 2]).
Lemma demo_v6_wf : ip_wf demo_v6.
Proof. apply IPAddress_v6_wf; [by apply (bool_decide_unpack _); vm_compute|done]. Qed.
Lemma ip_order_witness :
  ip_lt (HO := little_endian) (IPAddress_v4 [10; 0; 0; 1]) (IPAddress_v4 [10; 0; 1; 0]) = true /\
  ip_gt (HO := little_endian) demo_v6 (IPAddress_v4 [10; 0; 0; 1]) = (ip_key (IPAddress_v4 [10; 0; 0; 1]) <? ip_key demo_v6).
Proof.
  split; [by vm_compute|].
  apply (@ip_order little_endian demo_v6 (IPAddress_v4 [10; 0; 0; 1]));
    [exact demo_v6_wf|apply IPAddress_v4_wf; [by apply (bool_decide_unpack _); vm_compute|done]].
Defined.
Lemma TruncateIP_keeps_prefix_witness :
  u_ (TruncateIP (HO := little_endian) demo_v6 70) = v6 [8193; 3512; 0; 0; 0; 0; 0; 0] /\
  ip_value (TruncateIP (HO := little_endian) demo_v6 70) = ip_value demo_v6 / 2 ^ 58 * 2 ^ 58.
Proof.
  split; [by vm_compute|].
  apply (@TruncateIP_keeps_prefix little_endian demo_v6 70 demo_v6_wf); [done|lia].
Defined.
