(* ===== verification/SocketAddr.v ===== *)
(** * base/socketaddress.h and socketaddress.cpp: addresses and ports

    A socket address holds a name, an [IPAddress], a port and a scope; the
    operating system's [sockaddr_in] and [sockaddr_storage] are arrays of bytes
    with the layout of the Windows headers, the integers in them in the byte order
    the system wants.  [ASSERT] does nothing in a release build; [size_t] and
    [unsigned long] have 32 bits. *)
From Stdlib Require Import Ascii String.
From S2P Require Import Prelude Text ByteOrder Strings InetText IpAddress.

(** ** The C and C++ library *)

(** [strtoul(s, NULL, 10)]. *)
Definition strtoul (s : list Z) : Z :=
  let s := skip_spaces s in
  let '(neg, s) := match s with
    | 45 :: s => (true, s) | 43 :: s => (false, s) | _ => (false, s) end in
  let v := fst (scan_digits 0 s) in
  if 4294967295 <? v then 4294967295 else if (neg : bool) then u32 (- v) else v.
(** [s.find(c, pos)] and [s.rfind(c)]. *)
Definition find_char (c : Z) (s : list Z) (pos : nat) : option nat := find_at [c] s pos.
Definition rfind_char (c : Z) (s : list Z) : option nat :=
  (fun i => (length s - 1 - i)%nat) <$> find_str [c] (rev s).

(** ** SocketAddress *)
Record SocketAddress := mkSocketAddress {
  hostname_ : list Z; ip_ : IPAddress; port_ : Z; scope_id_ : Z; literal_ : bool }.

Definition LBRACKET : Z := 91.
Definition RBRACKET : Z := 93.

Section socket_address.
Context {HO : Host}.

Definition Clear : SocketAddress := mkSocketAddress [] IPAddress_unspec 0 0 false.

(** The three ways to set the IP. *)
Definition SetIP (a : SocketAddress) (ip : IPAddress) : SocketAddress :=
  mkSocketAddress [] ip (port_ a) 0 false.
Definition SetIP_int (a : SocketAddress) (ip_as_host_order_integer : Z) : SocketAddress :=
  SetIP a (IPAddress_int ip_as_host_order_integer).
Definition SetIP_name (a : SocketAddress) (hostname : list Z) : outcome SocketAddress :=
  '(literal, ip) ← IPFromString hostname;
  Done (mkSocketAddress hostname (if (literal : bool) then ip else IPAddress_unspec) (port_ a) 0 literal).
Definition SetResolvedIP (a : SocketAddress) (ip : IPAddress) : SocketAddress :=
  mkSocketAddress (hostname_ a) ip (port_ a) 0 (literal_ a).
Definition SetResolvedIP_int (a : SocketAddress) (ip_as_host_order_integer : Z) : SocketAddress :=
  SetResolvedIP a (IPAddress_int ip_as_host_order_integer).
Definition SetPort (a : SocketAddress) (port : Z) : SocketAddress :=
  mkSocketAddress (hostname_ a) (ip_ a) (u16 port) (scope_id_ a) (literal_ a).
Definition SetScopeID (a : SocketAddress) (id : Z) : SocketAddress :=
  mkSocketAddress (hostname_ a) (ip_ a) (port_ a) id (literal_ a).

(** The constructors; what [port_] holds before [SetPort] does not matter. *)
Definition SocketAddress_name (hostname : list Z) (port : Z) : outcome SocketAddress :=
  a ← SetIP_name Clear hostname; Done (SetPort a port).
Definition SocketAddress_int (ip_as_host_order_integer port : Z) : SocketAddress :=
  SetPort (SetIP_int Clear ip_as_host_order_integer) port.
Definition SocketAddress_ip (ip : IPAddress) (port : Z) : SocketAddress := SetPort (SetIP Clear ip) port.

Definition IsNil (a : SocketAddress) : bool :=
  bool_decide (hostname_ a = []) && IPIsUnspec (ip_ a) && (0 =? port_ a).
Definition IsComplete (a : SocketAddress) : bool := negb (IPIsAny (ip_ a)) && negb (0 =? port_ a).
Definition ip (a : SocketAddress) : Z := v4AddressAsHostOrderInteger (ip_ a).
Definition IsAnyIP (a : SocketAddress) : bool := IPIsAny (ip_ a).
Definition IsLoopbackIP (a : SocketAddress) : bool :=
  IPIsLoopback (ip_ a) || (IPIsAny (ip_ a) && bool_decide (c_str (hostname_ a) = bytes "localhost")).
Definition IsPrivateIP (a : SocketAddress) : bool := IPIsPrivate (ip_ a).
Definition IsUnresolvedIP (a : SocketAddress) : bool :=
  IPIsUnspec (ip_ a) && negb (literal_ a) && negb (bool_decide (hostname_ a = [])).

(** ** Text *)
Definition HostAsURIString (a : SocketAddress) : outcome (list Z) :=
  if negb (literal_ a) && negb (bool_decide (hostname_ a = [])) then Done (hostname_ a)
  else
    text ← ToString (ip_ a);
    if family_ (ip_ a) =? AF_INET6 then Done ([LBRACKET] ++ text ++ [RBRACKET]) else Done text.
Definition PortAsString (a : SocketAddress) : list Z := print_nat (port_ a).
Definition AddressToString (a : SocketAddress) : outcome (list Z) :=
  host ← HostAsURIString a; Done (host ++ [COLON] ++ print_nat (port_ a)).

(** [at(0)] throws when there is no first character; the result, and the address
    afterwards. *)
Definition FromString (a : SocketAddress) (str : list Z) : outcome (bool * SocketAddress) :=
  match str with
  | [] => Threw
  | first :: _ =>
    if first =? LBRACKET then
      match rfind_char RBRACKET str with
      | Some closebracket =>
        match find_char COLON str closebracket with
        | Some colon =>
          if (closebracket <? colon)%nat then
            let a := SetPort a (strtoul (c_str (drop (colon + 1) str))) in
            a ← SetIP_name a (substr str 1 (closebracket - 1));
            Done (true, a)
          else Done (false, a)
        | None => Done (false, a)
        end
      | None => Done (true, a)
      end
    else
      match find_char COLON str 0 with
      | None => Done (false, a)
      | Some pos =>
        let a := SetPort a (strtoul (c_str (drop (pos + 1) str))) in
        a ← SetIP_name a (substr str 0 pos);
        Done (true, a)
      end
  end.

(** ** Comparison *)
Definition EqualIPs (a addr : SocketAddress) : bool :=
  ip_eq (ip_ a) (ip_ addr) && (negb (IPIsAny (ip_ a)) || bool_decide (hostname_ a = hostname_ addr)).
Definition EqualPorts (a addr : SocketAddress) : bool := port_ a =? port_ addr.
Definition addr_eq (a addr : SocketAddress) : bool := EqualIPs a addr && EqualPorts a addr.
Definition addr_lt (a addr : SocketAddress) : bool :=
  if ip_lt (ip_ a) (ip_ addr) then true
  else if ip_lt (ip_ addr) (ip_ a) then false
  else if IsAnyIP addr && bytes_lt (hostname_ a) (hostname_ addr) then true
  else if IsAnyIP addr && bytes_lt (hostname_ addr) (hostname_ a) then false
  else port_ a <? port_ addr.
Definition Hash (a : SocketAddress) : Z :=
  let h := 0 in
  let h := Z.lxor h (HashIP (ip_ a)) in
  Z.lxor h (u32 (Z.lor (port_ a) (Z.shiftl (port_ a) 16))).

(** ** The system's addresses *)

(** [sockaddr_in]: family, port, address and 8 bytes of padding. *)
Definition sizeof_sockaddr_in : nat := 16.
Definition sizeof_sockaddr_in6 : nat := 28.
Definition sizeof_sockaddr_storage : nat := 128.
Definition set_family (m : list Z) (family : Z) : list Z := write_at 0 (host_bytes 2 family) m.
Definition set_sin_port (m : list Z) (port : Z) : list Z := write_at 2 (host_bytes 2 (HostToNetwork16 port)) m.
Definition sin_family (m : list Z) : Z := host_value (slice 0 2 m).
Definition sin_port (m : list Z) : Z := host_value (slice 2 2 m).
Definition sin_addr (m : list Z) : list Z := slice 4 4 m.
Definition sin6_addr (m : list Z) : list Z := slice 8 16 m.
Definition sin6_scope_id (m : list Z) : Z := host_value (slice 24 4 m).

Definition ToSockAddr (a : SocketAddress) : list Z :=
  let saddr := replicate sizeof_sockaddr_in 0 in
  if negb (family_ (ip_ a) =? AF_INET) then set_family saddr AF_UNSPEC
  else
    let saddr := set_family saddr AF_INET in
    let saddr := set_sin_port saddr (port_ a) in
    if IPIsAny (ip_ a) then write_at 4 (host_bytes 4 INADDR_ANY) saddr
    else write_at 4 (ipv4_address (ip_ a)) saddr.
Definition FromSockAddr (a : SocketAddress) (saddr : list Z) : bool * SocketAddress :=
  if negb (sin_family saddr =? AF_INET) then (false, a)
  else
    let a := SetIP_int a (NetworkToHost32 (s_addr (sin_addr saddr))) in
    let a := SetPort a (NetworkToHost16 (sin_port saddr)) in
    (true, mkSocketAddress (hostname_ a) (ip_ a) (port_ a) (scope_id_ a) false).

(** The array and the size that counts. *)
Definition ToSockAddrStorageHelper (ip : IPAddress) (port scope_id : Z) : list Z * nat :=
  let addr := set_family (replicate sizeof_sockaddr_storage 0) (family_ ip) in
  if family_ ip =? AF_INET6 then
    let addr := write_at 8 (ipv6_address ip) addr in
    let addr := set_sin_port addr port in
    (write_at 24 (host_bytes 4 scope_id) addr, sizeof_sockaddr_in6)
  else if family_ ip =? AF_INET then
    let addr := write_at 4 (ipv4_address ip) addr in
    (set_sin_port addr port, sizeof_sockaddr_in)
  else (addr, 0%nat).
Definition ToDualStackSockAddrStorage (a : SocketAddress) : list Z * nat :=
  ToSockAddrStorageHelper (AsIPv6Address (ip_ a)) (port_ a) (scope_id_ a).
Definition ToSockAddrStorage (a : SocketAddress) : list Z * nat :=
  ToSockAddrStorageHelper (ip_ a) (port_ a) (scope_id_ a).
Definition SocketAddressFromSockAddrStorage (addr : list Z) : option SocketAddress :=
  if sin_family addr =? AF_INET then
    Some (SocketAddress_ip (IPAddress_v4 (sin_addr addr)) (NetworkToHost16 (sin_port addr)))
  else if sin_family addr =? AF_INET6 then
    Some (SetScopeID (SocketAddress_ip (IPAddress_v6 (sin6_addr addr)) (NetworkToHost16 (sin_port addr)))
      (i32 (sin6_scope_id addr)))
  else None.

(** ** Helpers *)
Definition IPToString (ip : Z) : list Z :=
  print_nat (Z.land (Z.shiftr ip 24) 255) ++ [DOT]
  ++ print_nat (Z.land (Z.shiftr ip 16) 255) ++ [DOT]
  ++ print_nat (Z.land (Z.shiftr ip 8) 255) ++ [DOT]
  ++ print_nat (Z.land (Z.shiftr ip 0) 255).
Definition StringToIP_int (hostname : list Z) : option Z :=
  addr ← inet_pton_v4 (c_str hostname); Some (NetworkToHost32 (s_addr addr)).
Definition StringToIP (hostname : list Z) : Z := default 0 (StringToIP_int hostname).
Definition StringToIP_address (hostname : list Z) : outcome (option IPAddress) :=
  '(r4, addr4) ← inet_pton AF_INET (c_str hostname);
  if 0 <? r4 then Done (option_map IPAddress_v4 addr4)
  else
    '(r6, addr6) ← inet_pton AF_INET6 (c_str hostname);
    if 0 <? r6 then Done (option_map IPAddress_v6 addr6) else Done None.
Definition EmptySocketAddressWithFamily (family : Z) : SocketAddress :=
  if family =? AF_INET then SocketAddress_ip (IPAddress_int INADDR_ANY) 0
  else if family =? AF_INET6 then SocketAddress_ip (IPAddress_v6 in6addr_any) 0
  else Clear.

(** ** AsyncResolver *)
Record AsyncResolver := mkAsyncResolver {
  addr_ : SocketAddress; addresses_ : list IPAddress; error_ : Z }.
Definition DoWork (getaddrinfo : list Z -> Z -> Z * list addrinfo) (r : AsyncResolver) : AsyncResolver :=
  let '(error, addresses) :=
    ResolveHostname getaddrinfo (c_str (hostname_ (addr_ r))) (family_ (ip_ (addr_ r))) in
  mkAsyncResolver (addr_ r) addresses error.
Definition OnWorkDone (r : AsyncResolver) : AsyncResolver :=
  match addresses_ r with
  | ip :: _ => mkAsyncResolver (SetIP (addr_ r) ip) (addresses_ r) (error_ r)
  | [] => r
  end.
End socket_address.

(** ** The order of strings *)
Lemma bytes_lt_irrefl a : bytes_lt a a = false.
Proof. induction a as [|x a IH]; [done|]. cbn [bytes_lt]. rewrite Z.ltb_irrefl, IH. apply andb_false_r. Qed.
Lemma bytes_lt_trans a : forall b c, bytes_lt a b = true -> bytes_lt b c = true -> bytes_lt a c = true.
Proof.
  induction a as [|x a IH]; intros [|y b] [|z c]; cbn [bytes_lt]; try done.
  rewrite !orb_true_iff, !andb_true_iff, !Z.ltb_lt, !Z.eqb_eq.
  intros [?|[-> ?]] [?|[-> ?]]; [left; lia|by left|by left|right]. split; [done|by eapply IH].
Qed.
Lemma bytes_lt_total a : forall b, bytes_lt a b = false -> bytes_lt b a = false -> a = b.
Proof.
  induction a as [|x a IH]; intros [|y b]; cbn [bytes_lt]; try done.
  rewrite !orb_false_iff, !andb_false_iff, !Z.ltb_ge, !Z.eqb_neq. intros [? [?|Ha]] [? [?|Hb]]; try lia.
  assert (x = y) as -> by lia. f_equal. by apply IH.
Qed.
Lemma bytes_lt_asym a b : bytes_lt a b = true -> bytes_lt b a = false.
Proof.
  intros H. destruct (bytes_lt b a) eqn:E; [|done].
  by rewrite <- (bytes_lt_irrefl a), (bytes_lt_trans a b a).
Qed.

(** ** Finding a character *)
Lemma find_str_char c l r : c ∉ l -> find_str [c] (l ++ c :: r) = Some (length l).
Proof.
  intros Hc. induction l as [|d l IH]; cbn [app find_str length].
  - rewrite bool_decide_eq_true_2; [done|]. by apply prefix_cons, prefix_nil.
  - apply not_elem_of_cons in Hc as [? Hc]. rewrite bool_decide_eq_false_2.
    + by rewrite IH.
    + intros H'. by apply prefix_cons_inv_1 in H'.
Qed.
Lemma find_char_first c l r : c ∉ l -> find_char c (l ++ c :: r) 0 = Some (length l).
Proof. intros Hc. unfold find_char, find_at. rewrite drop_0, find_str_char by done. done. Qed.
Lemma rfind_char_last c l r : c ∉ r -> rfind_char c (l ++ c :: r) = Some (length l).
Proof.
  intros Hc. unfold rfind_char. rewrite rev_app_distr. cbn [rev]. rewrite <- app_assoc. cbn [app].
  rewrite find_str_char by (intros H; apply Hc; rewrite list_elem_of_In in *; by apply in_rev).
  cbn [fmap option_fmap option_map]. rewrite length_rev, length_app. cbn [length]. f_equal. lia.
Qed.

Lemma print_nat_digits n : 0 <= n -> Forall (fun c => is_digit c = true) (print_nat n).
Proof.
  assert (forall fuel n, 0 <= n -> Forall (fun c => is_digit c = true) (digits fuel n)) as H; [|apply H].
  induction fuel as [|fuel IH]; intros m Hm; cbn [digits]; [constructor|].
  destruct (Z.ltb_spec m 10).
  - constructor; [|constructor]. unfold is_digit. lia.
  - apply Forall_app. split; [apply IH, Z.div_pos; lia|]. constructor; [|constructor].
    pose proof (Z.mod_pos_bound m 10 ltac:(lia)). unfold is_digit. lia.
Qed.
Lemma strtoul_print n : 0 <= n < 2 ^ 32 -> strtoul (c_str (print_nat n)) = n.
Proof.
  intros Hn. rewrite c_str_id.
  2: { eapply List.Forall_impl; [|by apply print_nat_digits; lia]. cbv beta. unfold is_digit. intros. lia. }
  unfold strtoul, print_nat. destruct (digits_head (S (Z.to_nat (Z.log2 n))) n) as (c & l & E & Hc); [lia|lia|].
  destruct (scan_digits_digits (S (Z.to_nat (Z.log2 n))) n 0 []) as (k & _ & Hk); [lia|lia|].
  rewrite app_nil_r in Hk. rewrite E in *.
  assert (is_space c = false) as Hs by (unfold is_digit, is_space in *; lia). cbn [skip_spaces]. rewrite Hs.
  assert (Em : (match c :: l with 45 :: s => (true, s) | 43 :: s => (false, s) | _ => (false, c :: l) end) = (false, c :: l)).
  { unfold is_digit in Hc. destruct c as [|p|p]; try done. repeat (destruct p as [p|p|]; try done; try lia). }
  rewrite Em, Hk. cbn [scan_digits fst]. destruct (Z.ltb_spec 4294967295 (0 * k + n)); lia.
Qed.

(** ** Addresses in use *)
Record addr_wf (a : SocketAddress) : Prop := {
  wf_ip : ip_wf (ip_ a);
  wf_port : in_width 16 (port_ a);
  wf_scope : - 2 ^ 31 <= scope_id_ a < 2 ^ 31 }.

Section properties.
Context {HO : Host}.

(** *** Order *)

(** What the order looks at: the IP, the name if the IP is the any address, and the
    port. *)
Definition order_name (a : SocketAddress) : list Z := if IsAnyIP a then hostname_ a else [].

Lemma ip_cases x y : ip_wf x -> ip_wf y ->
  (ip_lt x y = true /\ ip_lt y x = false /\ ip_eq x y = false /\ (ip_key x < ip_key y))
  \/ (ip_lt x y = false /\ ip_lt y x = true /\ ip_eq x y = false /\ (ip_key y < ip_key x))
  \/ (ip_lt x y = false /\ ip_lt y x = false /\ ip_eq x y = true /\ ip_key x = ip_key y /\ x = y).
Proof.
  intros Hx Hy. rewrite !ip_lt_key, ip_eq_key by done.
  destruct (Z.lt_trichotomy (ip_key x) (ip_key y)) as [?|[E|?]]; [left|right; right|right; left].
  1,3: lia. repeat split; [lia..|done|by apply ip_key_inj].
Qed.
Lemma addr_lt_lex a b : ip_wf (ip_ a) -> ip_wf (ip_ b) ->
  addr_lt a b = (ip_key (ip_ a) <? ip_key (ip_ b)) || ((ip_key (ip_ a) =? ip_key (ip_ b))
    && (bytes_lt (order_name a) (order_name b)
        || (bool_decide (order_name a = order_name b) && (port_ a <? port_ b)))).
Proof.
  intros Ha Hb. unfold addr_lt, order_name, IsAnyIP.
  destruct (ip_cases _ _ Ha Hb) as [(E1 & E2 & _ & ?)|[(E1 & E2 & _ & ?)|(E1 & E2 & _ & _ & Ei)]];
    rewrite ?E1, ?E2.
  { by replace (ip_key (ip_ a) <? ip_key (ip_ b)) with true by lia. }
  { replace (ip_key (ip_ a) <? ip_key (ip_ b)) with false by lia.
    by replace (ip_key (ip_ a) =? ip_key (ip_ b)) with false by lia. }
  rewrite <- Ei, Z.ltb_irrefl, Z.eqb_refl. cbn [orb andb]. destruct (IPIsAny (ip_ a)); cbn [andb]; [|done].
  destruct (bytes_lt (hostname_ a) (hostname_ b)) eqn:H1; [done|]. cbn [orb].
  destruct (bytes_lt (hostname_ b) (hostname_ a)) eqn:H2.
  - rewrite bool_decide_eq_false_2; [done|]. intros E'. by rewrite E', bytes_lt_irrefl in H2.
  - by rewrite (bool_decide_eq_true_2 (hostname_ a = hostname_ b)) by by apply bytes_lt_total.
Qed.
Lemma addr_eq_lex a b : ip_wf (ip_ a) -> ip_wf (ip_ b) ->
  addr_eq a b = (ip_key (ip_ a) =? ip_key (ip_ b)) && bool_decide (order_name a = order_name b) && (port_ a =? port_ b).
Proof.
  intros Ha Hb. unfold addr_eq, EqualIPs, EqualPorts, order_name, IsAnyIP.
  destruct (ip_cases _ _ Ha Hb) as [(_ & _ & -> & ?)|[(_ & _ & -> & ?)|(_ & _ & -> & _ & Ei)]];
    [by replace (ip_key (ip_ a) =? ip_key (ip_ b)) with false by lia..|].
  rewrite <- Ei, Z.eqb_refl. cbn [andb]. by destruct (IPIsAny (ip_ a)).
Qed.

(** Of two socket addresses exactly one of less, equal and greater holds, and
    less is transitive. *)
Theorem addr_order a b c : ip_wf (ip_ a) -> ip_wf (ip_ b) -> ip_wf (ip_ c) ->
  addr_eq a b = negb (addr_lt a b) && negb (addr_lt b a) /\
  (addr_lt a b = true -> addr_lt b a = false) /\
  (addr_lt a b = true -> addr_lt b c = true -> addr_lt a c = true).
Proof.
  intros Ha Hb Hc. rewrite addr_eq_lex, !addr_lt_lex by done.
  generalize (ip_key (ip_ a)) (ip_key (ip_ b)) (ip_key (ip_ c)). intros ka kb kc.
  generalize (order_name a) (order_name b) (order_name c). intros na nb nc.
  rewrite (bool_decide_ext (nb = na) (na = nb)) by done.
  assert (Hn : (na = nb /\ bytes_lt na nb = false /\ bytes_lt nb na = false)
    \/ (na <> nb /\ bytes_lt na nb = negb (bytes_lt nb na))).
  { destruct (decide (na = nb)) as [<-|Hn]; [left; by rewrite bytes_lt_irrefl|right]. split; [done|].
    destruct (bytes_lt na nb) eqn:H1; [by rewrite (bytes_lt_asym _ _ H1)|].
    destruct (bytes_lt nb na) eqn:H2; [done|]. by destruct Hn; apply bytes_lt_total. }
  split; [|split].
  - destruct Hn as [(-> & -> & _)|[Hne ->]]; [rewrite bool_decide_eq_true_2 by done|
      rewrite bool_decide_eq_false_2 by done; destruct (bytes_lt nb na)]; cbn [negb orb andb]; lia.
  - destruct Hn as [(-> & -> & _)|[Hne ->]]; [rewrite bool_decide_eq_true_2 by done|
      rewrite bool_decide_eq_false_2 by done; destruct (bytes_lt nb na)]; cbn [negb orb andb]; lia.
  - clear Hn. rewrite !orb_true_iff, !andb_true_iff, !orb_true_iff, !andb_true_iff, !Z.ltb_lt, !Z.eqb_eq,
      !bool_decide_eq_true.
    intros [?|[-> [H1|[-> H1]]]] [?|[-> [H2|[-> H2]]]]; auto; try (left; lia).
    + right. split; [done|]. left. by apply (bytes_lt_trans _ nb).
    + right. split; [done|]. right. split; [done|lia].
Qed.

(** Addresses that compare equal have the same hash. *)
Theorem equal_addresses_hash a b : ip_wf (ip_ a) -> ip_wf (ip_ b) -> addr_eq a b = true -> Hash a = Hash b.
Proof.
  intros Ha Hb. unfold addr_eq, EqualIPs, EqualPorts, Hash.
  rewrite !andb_true_iff, Z.eqb_eq. intros [[E _] ->]. apply ip_eq_iff in E; [|done..]. by rewrite E.
Qed.

(** Unresolved names play no part in the comparison. *)
Lemma unresolved_equal a b : IsUnresolvedIP a = true -> IsUnresolvedIP b = true ->
  addr_eq a b = (port_ a =? port_ b).
Proof.
  unfold IsUnresolvedIP, IPIsUnspec. rewrite !andb_true_iff, !Z.eqb_eq. intros [[Ha _] _] [[Hb _] _].
  unfold addr_eq, EqualIPs, EqualPorts, ip_eq, IPIsAny. rewrite Ha, Hb. done.
Qed.

(** *** Text *)
Lemma SetIP_name_readable a text ip : IPFromString text = Done (true, ip) ->
  SetIP_name a text = Done (mkSocketAddress text ip (port_ a) 0 true).
Proof. intros E. unfold SetIP_name. by rewrite E. Qed.

Lemma digits_not_in c l : is_digit c = false -> Forall (fun c => is_digit c = true) l -> c ∉ l.
Proof. intros Hc Hl Hin. rewrite List.Forall_forall in Hl. apply list_elem_of_In, Hl in Hin. congruence. Qed.
Lemma numeral_not_colon l : Forall numeral l -> COLON ∉ l.
Proof.
  intros Hl Hin. rewrite List.Forall_forall in Hl. apply list_elem_of_In, Hl in Hin.
  unfold numeral, is_digit, COLON, DOT in Hin. lia.
Qed.

Lemma FromString_v4 a b port : length b = 4%nat -> is_bytes b -> in_width 16 port ->
  FromString a (dotted b ++ COLON :: print_nat port) =
  Done (true, mkSocketAddress (dotted b) (IPAddress_v4 b) port 0 true).
Proof.
  intros Hl Hb Hp. unfold in_width in Hp. pose proof (dotted_numeral b Hl Hb) as Hn. unfold FromString.
  destruct (dotted_cons b) as (c & l & E). rewrite E in *. cbn [app].
  replace (c =? LBRACKET) with false.
  2: { apply Forall_cons_1 in Hn as [Hc _]. unfold numeral, is_digit, DOT, LBRACKET in *. lia. }
  change (c :: l ++ COLON :: print_nat port) with ((c :: l) ++ COLON :: print_nat port). rewrite <- E in *.
  rewrite find_char_first by by apply numeral_not_colon. unfold substr. rewrite drop_0, take_app_length.
  rewrite (SetIP_name_readable _ _ (IPAddress_v4 b)) by (apply IPFromString_v4; [by apply no_nul_dotted|by apply inet_pton_v4_dotted]).
  run. do 3 f_equal. cbn [port_ SetPort]. rewrite drop_app_ge by lia.
  replace (length (dotted b) + 1 - length (dotted b))%nat with 1%nat by lia. cbn [drop].
  rewrite drop_0, strtoul_print by lia. unfold u16. by apply wrap_id.
Qed.
Lemma FromString_v6 a text ip port : RBRACKET ∉ text -> IPFromString text = Done (true, ip) -> in_width 16 port ->
  FromString a (LBRACKET :: text ++ RBRACKET :: COLON :: print_nat port) =
  Done (true, mkSocketAddress text ip port 0 true).
Proof.
  intros Ht E Hp. unfold in_width in Hp. unfold FromString. rewrite Z.eqb_refl.
  change (LBRACKET :: text ++ RBRACKET :: COLON :: print_nat port)
    with ((LBRACKET :: text) ++ RBRACKET :: COLON :: print_nat port).
  assert (Forall (fun c => is_digit c = true) (print_nat port)) as Hd by (apply print_nat_digits; lia).
  rewrite rfind_char_last by (apply not_elem_of_cons; split; [done|by apply digits_not_in]).
  unfold find_char, find_at. rewrite drop_app_length.
  replace (length ((LBRACKET :: text) ++ RBRACKET :: COLON :: print_nat port) <? length (LBRACKET :: text))%nat
    with false by (symmetry; apply Nat.ltb_ge; rewrite length_app; lia).
  change (find_str [COLON] (RBRACKET :: COLON :: print_nat port)) with (find_str [COLON] ([RBRACKET] ++ COLON :: print_nat port)).
  rewrite find_str_char by (apply not_elem_of_cons; split; [done|apply not_elem_of_nil]).
  cbn [fmap option_fmap option_map length]. set (n := length text).
  replace (S n <? S n + 1)%nat with true by (symmetry; apply Nat.ltb_lt; lia).
  unfold substr. cbn [app drop Nat.sub]. rewrite drop_0, Nat.sub_0_r. unfold n. rewrite take_app_length.
  rewrite (SetIP_name_readable _ _ ip) by done. run. do 3 f_equal. cbn [port_ SetPort].
  replace (S (length text) + 1 + 1)%nat with (S (length text + 2)) by lia. cbn [drop].
  rewrite drop_app_ge by lia. replace (length text + 2 - length text)%nat with 2%nat by lia. cbn [drop].
  rewrite drop_0, strtoul_print by lia. unfold u16. by apply wrap_id.
Qed.

(** The text of an address whose IP is known is read back: the IP and the port
    are the address's, the name is the text of the IP. *)
Theorem address_text_round_trip a a0 : addr_wf a -> ip_readable (ip_ a) -> (literal_ a = true \/ hostname_ a = []) ->
  exists text host, AddressToString a = Done text /\ ToString (ip_ a) = Done host /\
    FromString a0 text = Done (true, mkSocketAddress host (ip_ a) (port_ a) 0 true).
Proof.
  intros [Hw Hp _] Hr Hh. destruct (ip_text_readable _ Hw Hr) as (host & Eh & Hc & Ef).
  assert (negb (literal_ a) && negb (bool_decide (hostname_ a = [])) = false) as Hn
    by (destruct Hh as [-> | ->]; [done|apply andb_false_r]).
  unfold AddressToString, HostAsURIString. rewrite Hn, Eh. run. destruct Hr as [Hf|[Hf _]]; rewrite Hf.
  - change (AF_INET =? AF_INET6) with false. cbn match. run. exists (host ++ [COLON] ++ print_nat (port_ a)), host.
    split; [done|]. split; [done|]. cbn [app]. destruct (v4_text _ Hw Hf) as [E4 _]. rewrite Eh in E4.
    injection E4 as ->. destruct (ip_bytes_are _ Hw) as [Hb Hl]. unfold ip_bytes in Hb, Hl. rewrite Hf in Hb, Hl.
    rewrite FromString_v4 by done. do 3 f_equal.
    rewrite (IPFromString_v4 _ (ipv4_address (ip_ a))) in Ef
      by (done || (by apply inet_pton_v4_dotted) || (by apply address_no_nul)).
    by injection Ef.
  - change (AF_INET6 =? AF_INET6) with true. cbn match. run.
    exists (LBRACKET :: host ++ RBRACKET :: COLON :: print_nat (port_ a)), host.
    split; [cbn [app]; by rewrite <- app_assoc|]. split; [done|]. apply FromString_v6; [|done|done].
    intros Hin%list_elem_of_In. rewrite List.Forall_forall in Hc. apply Hc in Hin.
    unfold address_char, plain, numeral, is_hexit, is_digit, COLON, DOT, RBRACKET in Hin. lia.
Qed.

(** *** The system's addresses *)
Lemma AF_bytes f : f = AF_UNSPEC \/ f = AF_INET \/ f = AF_INET6 -> host_value (host_bytes 2 f) = f.
Proof. intros Hf. rewrite host_value_bytes. by destruct Hf as [-> |[-> | ->]]. Qed.
Lemma port_bytes p : in_width 16 p -> NetworkToHost16 (host_value (host_bytes 2 (HostToNetwork16 p))) = p.
Proof.
  intros Hp. rewrite bytes_HostToNetwork16.
  rewrite NetworkToHost16_value by auto using be_bytes_is_bytes, length_be_bytes.
  rewrite be_val_bytes. by apply Z.mod_small.
Qed.
Lemma scope_bytes s : - 2 ^ 31 <= s < 2 ^ 31 -> i32 (host_value (host_bytes 4 s)) = s.
Proof.
  intros Hs. rewrite host_value_bytes. change (8 * Z.of_nat 4) with 32.
  assert (i32 (s mod 2 ^ 32) = i32 s) as -> by word_lia. by apply i32_id.
Qed.

(** Two fields that do not overlap are read back. *)
Lemma slice_write_other {A} (i n j : nat) (xs m : list A) : (i + n <= j)%nat \/ (j + length xs <= i)%nat ->
  (j + length xs <= length m)%nat -> slice i n (write_at j xs m) = slice i n m.
Proof.
  intros Hd Hm. apply list_eq. intros k. unfold slice, write_at.
  destruct (decide (k < n)%nat) as [Hk|Hk]; [|by rewrite !lookup_take_ge by lia].
  rewrite !lookup_take_lt, !lookup_drop by done. destruct Hd as [Hd|Hd].
  - rewrite lookup_app_l by (rewrite length_take; lia). by rewrite lookup_take_lt by lia.
  - rewrite lookup_app_r by (rewrite length_take; lia). rewrite length_take, Nat.min_l by lia.
    rewrite lookup_app_r by lia. rewrite lookup_drop. f_equal. lia.
Qed.
Lemma slice_write_same {A} (i n : nat) (xs m : list A) : length xs = n -> (i <= length m)%nat ->
  slice i n (write_at i xs m) = xs.
Proof. intros <-. apply slice_write_at. Qed.
(** The sizes of arrays that were written to. *)
Ltac sizes :=
  first [ rewrite length_write_at by sizes; sizes
        | rewrite ?length_host_bytes, ?length_replicate;
          unfold sizeof_sockaddr_storage, sizeof_sockaddr_in; lia ].
Ltac fields :=
  unfold set_family, set_sin_port, sin_family, sin_port, sin_addr, sin6_addr, sin6_scope_id;
  repeat first [ rewrite slice_write_same by sizes | rewrite slice_write_other by sizes ].

(** A socket address written to the system's storage is read back with its IP,
    its port and, for IPv6, its scope; the size is that of the family's structure. *)
Theorem storage_round_trip a : addr_wf a -> family_ (ip_ a) <> AF_UNSPEC ->
  snd (ToSockAddrStorage a) = (if family_ (ip_ a) =? AF_INET6 then sizeof_sockaddr_in6 else sizeof_sockaddr_in) /\
  SocketAddressFromSockAddrStorage (fst (ToSockAddrStorage a)) =
  Some (mkSocketAddress [] (ip_ a) (port_ a) (if family_ (ip_ a) =? AF_INET6 then scope_id_ a else 0) false).
Proof.
  intros [Hw Hp Hs] Hf. pose proof (ip_bytes_are _ Hw) as [Hb Hl]. unfold ip_bytes in Hb, Hl.
  unfold ToSockAddrStorage, ToSockAddrStorageHelper, SocketAddressFromSockAddrStorage.
  destruct (wf_family _ Hw) as [[? _]|[[E _]|E]]; [done|..]; rewrite E in *; cbn [fst snd].
  - change (AF_INET =? AF_INET6) with false. change (AF_INET =? AF_INET) with true in *. cbn match in *. cbn [fst snd].
    split; [done|]. fields. rewrite AF_bytes by auto. rewrite Z.eqb_refl. rewrite port_bytes by done.
    unfold SocketAddress_ip, SetIP, SetPort, Clear. cbn. f_equal. f_equal; [|by apply wrap_id].
    apply ip_ext; [by apply IPAddress_v4_wf|done|done|]. unfold ip_bytes. rewrite E. by apply ipv4_of.
  - change (AF_INET6 =? AF_INET6) with true. change (AF_INET6 =? AF_INET) with false in *. cbn match in *. cbn [fst snd].
    split; [done|]. fields. rewrite AF_bytes by auto. change (AF_INET6 =? AF_INET) with false. rewrite Z.eqb_refl.
    rewrite port_bytes, scope_bytes by done. unfold SocketAddress_ip, SetIP, SetPort, SetScopeID, Clear. cbn.
    f_equal. f_equal; [|by apply wrap_id]. destruct (ip_ a) as [f u], Hw as [_ Hu _]. cbn in *. subst f.
    unfold IPAddress_v6. f_equal. unfold ipv6_address. apply take_ge. cbn. lia.
Qed.

(** The older structure holds IPv4 addresses only. *)
Lemma ToSockAddr_v4 a a0 : addr_wf a -> family_ (ip_ a) = AF_INET ->
  FromSockAddr a0 (ToSockAddr a) = (true, mkSocketAddress [] (ip_ a) (port_ a) 0 false).
Proof.
  intros [Hw Hp Hs] E. pose proof (ip_bytes_are _ Hw) as [Hb Hl]. unfold ip_bytes in Hb, Hl.
  rewrite E in *. change (AF_INET =? AF_INET) with true in *. cbn match in *.
  assert (Ha : ToSockAddr a = write_at 4 (ipv4_address (ip_ a))
    (set_sin_port (set_family (replicate sizeof_sockaddr_in 0) AF_INET) (port_ a))).
  { unfold ToSockAddr. rewrite E. cbn [negb]. change (negb (AF_INET =? AF_INET)) with false. cbn match.
    destruct (IPIsAny (ip_ a)) eqn:Ei; [|done]. unfold IPIsAny in Ei. rewrite E in Ei. cbn match in Ei.
    change (AF_INET =? AF_INET) with true in Ei. cbn match in Ei.
    apply ip_eq_iff in Ei; [|done|apply IPAddress_int_wf]. rewrite Ei. unfold IPAddress_int.
    rewrite bytes_HostToNetwork32, ipv4_of by done. by rewrite host_bytes_zero. }
  unfold FromSockAddr. rewrite Ha. fields. rewrite AF_bytes by auto. rewrite Z.eqb_refl. cbn [negb].
  rewrite port_bytes by done. rewrite (NetworkToHost32_value (ipv4_address (ip_ a))) by done.
  unfold SetIP_int, SetIP, SetPort. cbn. f_equal. f_equal; [|by apply wrap_id].
  apply ip_ext; [apply IPAddress_int_wf|done|done|]. unfold ip_bytes. rewrite E. unfold IPAddress_int.
  change (family_ (IPAddress_v4 _)) with AF_INET. change (AF_INET =? AF_INET) with true. cbn match.
  rewrite bytes_HostToNetwork32, ipv4_of by done. rewrite <- Hl. by apply be_bytes_val.
Qed.

(** *** The helpers with 32-bit addresses *)
Lemma IPToString_dotted n : in_width 32 n -> IPToString n = dotted (be_bytes 4 n).
Proof.
  intros Hn. unfold in_width in Hn. unfold IPToString, dotted.
  assert (forall k, 0 <= Z.land (Z.shiftr n k) 255) as Hp by (intros k; apply Z.land_nonneg; lia).
  assert (forall m, 0 <= m -> print_nat m = print_d m) as Hd by (intros m ?; unfold print_d; by destruct (Z.ltb_spec m 0); [lia|]).
  rewrite !Hd by apply Hp. unfold be_bytes. cbn [le_bytes]. unfold reverse. cbn [rev_append lookup_total list_lookup_total].
  rewrite !Z.shiftr_shiftr by lia.
  assert (forall x, u8 x = Z.land x 255) as Hu by (intros x; symmetry; by apply (land_ones_mod x 255 8)).
  by rewrite !Hu.
Qed.

(** An IPv4 address as an integer is given back by the text it is printed as. *)
Theorem StringToIP_of_IPToString n : in_width 32 n ->
  StringToIP_int (IPToString n) = Some n /\ StringToIP (IPToString n) = n.
Proof.
  intros Hn. assert (StringToIP_int (IPToString n) = Some n) as E; [|split; [done|]].
  - unfold StringToIP_int. rewrite IPToString_dotted by done.
    assert (is_bytes (be_bytes 4 n) /\ length (be_bytes 4 n) = 4%nat) as [Hb Hl]
      by auto using be_bytes_is_bytes, length_be_bytes.
    rewrite c_str_id by by apply no_nul_dotted. rewrite inet_pton_v4_dotted by done. cbn [mbind option_bind]. f_equal.
    unfold s_addr. rewrite NetworkToHost32_value by done. rewrite be_val_bytes. by apply Z.mod_small.
  - unfold StringToIP. by rewrite E.
Qed.
End properties.

(** ** The theorems on concrete addresses *)
Definition demo_address : SocketAddress := mkSocketAddress [] demo_v6 8131 3 false.
Lemma demo_address_wf : addr_wf demo_address.
Proof. split; [exact demo_v6_wf|cbn; word_lia|cbn; lia]. Qed.
Lemma addr_order_witness :
  let a := SocketAddress_ip (IPAddress_v4 [10; 0; 0; 1]) 80 in
  addr_lt (HO := little_endian) a demo_address = true /\
  (addr_lt (HO := little_endian) a demo_address = true -> addr_lt (HO := little_endian) demo_address a = false).
Proof.
  intros a. split; [by vm_compute|].
  apply (@addr_order little_endian a demo_address a);
    [apply IPAddress_v4_wf; [by apply (bool_decide_unpack _); vm_compute|done]|exact demo_v6_wf
    |apply IPAddress_v4_wf; [by apply (bool_decide_unpack _); vm_compute|done]].
Defined.
Lemma address_text_round_trip_witness :
  AddressToString (HO := little_endian) demo_address = Done (bytes "[2001:db8::1:ffff:0:2]:8131") /\
  exists text host, AddressToString (HO := little_endian) demo_address = Done text /\
    ToString (HO := little_endian) demo_v6 = Done host /\
    FromString (HO := little_endian) Clear text = Done (true, mkSocketAddress host demo_v6 8131 0 true).
Proof.
  split; [by vm_compute|].
  apply (@address_text_round_trip little_endian demo_address Clear demo_address_wf);
    [right; split; [done|]|by right].
  exists [8193; 3512; 0; 0; 1; 65535; 0; 2]. split; [done|]. split; [done|]. split; [repeat constructor; word_lia|done].
Defined.
Lemma storage_round_trip_witness :
  SocketAddressFromSockAddrStorage (HO := little_endian) (fst (ToSockAddrStorage (HO := little_endian) demo_address))
  = Some (mkSocketAddress [] demo_v6 8131 3 false).
Proof. apply (@storage_round_trip little_endian demo_address demo_address_wf). done. Defined.
