(* ===== verification/Session.v ===== *)
(** * vzsdk/session.{h,cpp}: one TCP connection to a device

    A [Session] frames packets on a byte stream: 'V' 'Z', a type byte, a number
    byte, a 32-bit big-endian size and the data.  The operations are state
    passing; what a session does to the outside (the signals it raises, the
    calls on its socket and on the thread) is the list of [event]s it returns.
    What the outside gives it, the results of [Recv] and [Send] and the time, are
    arguments.  [ASSERT] is the no-op of a release build. *)
From S2P Require Import Prelude ByteOrder ByteBuffer TimeUtils.

Definition PACKET_TYPE_HEARTBEAT : Z := 0x01.
Definition PACKET_TYPE_BINARY : Z := 0x02.
Definition PACKET_TYPE_JSON : Z := 0x00.
Definition DEFAULT_TEMP_BUFFER_SIZE : nat := 1024.
Definition PARSE_PACKET_FORMAT_ERROR : Z := -1.
Definition PARSE_PACKET_NEED_MORE_DATA : Z := 0.
Definition HEADER_SIZE : nat := 8.
Definition HEADER_V : Z := 86.
Definition HEADER_Z : Z := 90.
Definition DEFAULT_HEADBEAT_TIMEOUT : Z := 2 * 1000.
Definition SOCKET_ERROR : Z := -1.

(** [Socket::ConnState] of base/socket.h. *)
Inductive ConnState := CS_CLOSED | CS_CONNECTING | CS_CONNECTED.
#[global] Instance ConnState_eq_dec : EqDecision ConnState.
Proof. solve_decision. Defined.

(** What a session sees of its socket: the state, and whether the session's
    slots are still connected to the socket's four signals. *)
Record Socket := mkSocket { sock_state : ConnState; sock_signals : bool }.

Record Session := mkSession {
  async_socket_ : option Socket;
  read_buffer_ : ByteBuffer;
  write_buffer_ : ByteBuffer;
  session_id_ : Z;
  connect_id_ : Z;
  ms_start_ : Z }.

Inductive event :=
  | SessionPacketEvent (data : list Z) (packet_type : Z)
  | SessionConnectedEvent (connect_id : Z)
  | SessionCloseEvent (code connect_id : Z)
  | PostDelayedHeartbeat (cmsDelay : Z)
  | SocketConnect
  | SocketClose
  | SocketSend (data : list Z)
  | LogPacketTypeError.

Section session.
Context {HO : Host} {HP : Heap}.

(** The constructor; [unequal] is the static [unequal_session_id_]. *)
Definition Session_new (unequal session_id : Z) : Session * Z :=
  let '(id, unequal) :=
    if session_id =? 0 then (u32 (unequal + 1), u32 (unequal + 1))
    else (u32 session_id, unequal) in
  (mkSession None ByteBuffer_new ByteBuffer_new id 0 0, unequal).

Definition set_socket (s : Session) (k : option Socket) : Session :=
  mkSession k (read_buffer_ s) (write_buffer_ s) (session_id_ s) (connect_id_ s) (ms_start_ s).
Definition set_read_buffer (s : Session) (b : ByteBuffer) : Session :=
  mkSession (async_socket_ s) b (write_buffer_ s) (session_id_ s) (connect_id_ s) (ms_start_ s).
Definition set_write_buffer (s : Session) (b : ByteBuffer) : Session :=
  mkSession (async_socket_ s) (read_buffer_ s) b (session_id_ s) (connect_id_ s) (ms_start_ s).
Definition set_ms_start (s : Session) (t : Z) : Session :=
  mkSession (async_socket_ s) (read_buffer_ s) (write_buffer_ s) (session_id_ s) (connect_id_ s) t.
Definition set_connect_id (s : Session) (c : Z) : Session :=
  mkSession (async_socket_ s) (read_buffer_ s) (write_buffer_ s) (session_id_ s) c (ms_start_ s).

Definition GetState (s : Session) : ConnState :=
  match async_socket_ s with Some k => sock_state k | None => CS_CLOSED end.

Definition InitSocket (s : Session) : Session :=
  set_socket s (Some (mkSocket CS_CLOSED true)).
Definition UinitSocket (s : Session) : Session :=
  match async_socket_ s with
  | Some k =>
    if bool_decide (sock_state k = CS_CLOSED) then s
    else set_socket s (Some (mkSocket (sock_state k) false))
  | None => s
  end.

(** [after] is the state the socket is in when [Connect] returns. *)
Definition Start (s : Session) (connect_id : Z) (after : ConnState) : bool * Session * list event :=
  let s := set_connect_id s connect_id in
  match async_socket_ s with
  | Some _ => (false, s, [])
  | None =>
    let s := InitSocket s in
    (true, set_socket s (Some (mkSocket after true)), [SocketConnect])
  end.

Definition Stop (s : Session) : Session * list event :=
  let s := UinitSocket s in
  match async_socket_ s with
  | Some k =>
    if bool_decide (sock_state k = CS_CLOSED) then (s, [])
    else (set_socket s (Some (mkSocket CS_CLOSED (sock_signals k))), [SocketClose])
  | None => (s, [])
  end.

Definition OnHandleInputPacket (now : Z) (s : Session) (data : list Z) (packet_type : Z)
    : Session * list event :=
  if packet_type =? PACKET_TYPE_HEARTBEAT then (set_ms_start s now, [])
  else if packet_type =? PACKET_TYPE_JSON then (s, [SessionPacketEvent data packet_type])
  else if packet_type =? PACKET_TYPE_BINARY then (s, [SessionPacketEvent data packet_type])
  else (s, [LogPacketTypeError]).

(** The C library's ntohl. *)
Definition ntohl (n : Z) : Z := be_val (host_bytes 4 n).

(** The loop of [ProcessPacketProtocol]: its value, [*read_size], the session
    and the events.  Every turn moves [offset] forward, so [data_size] turns
    are enough; [None] is running out of fuel. *)
Fixpoint ProcessPacketProtocol_loop (fuel : nat) (now : Z) (s : Session) (data : list Z)
    (data_size offset read_size : nat) : option (Z * nat * Session * list event) :=
  match fuel with
  | O => None
  | S fuel =>
    if negb (offset <? data_size)%nat then Some (i32 (Z.of_nat offset), read_size, s, [])
    else if (data_size - offset <? HEADER_SIZE)%nat then
      Some (PARSE_PACKET_NEED_MORE_DATA, read_size, s, [])
    else if negb ((data !!! offset =? HEADER_V) && (data !!! (offset + 1)%nat =? HEADER_Z)) then
      Some (PARSE_PACKET_NEED_MORE_DATA, read_size, s, [])
    else
      let offset := (offset + 2)%nat in
      let packet_type := data !!! offset in
      let offset := S offset in
      let packet_number := data !!! offset in
      let offset := S offset in
      let packet_size := ntohl (host_value (slice offset 4 data)) in
      let offset := (offset + 4)%nat in
      if packet_size <=? Z.of_nat (data_size - offset) then
        let '(s, evs) :=
          OnHandleInputPacket now s (slice offset (Z.to_nat packet_size) data) packet_type in
        let offset := (offset + Z.to_nat packet_size)%nat in
        '(ret, read_size, s, evs') ←
          ProcessPacketProtocol_loop fuel now s data data_size offset offset;
        Some (ret, read_size, s, evs ++ evs')
      else Some (PARSE_PACKET_NEED_MORE_DATA, read_size, s, [])
  end.
Definition ProcessPacketProtocol (now : Z) (s : Session) (data : list Z) (data_size : nat) :=
  ProcessPacketProtocol_loop (S data_size) now s data data_size 0 0.

(** The loop of [ProcessInput]. *)
Fixpoint ProcessInput_loop (fuel : nat) (now : Z) (s : Session) : option (Session * list event) :=
  match fuel with
  | O => None
  | S fuel =>
    let data_size := Length (read_buffer_ s) in
    if (data_size =? 0)%nat then Some (s, [])
    else
      '(process_size, read_size, s, evs) ←
        ProcessPacketProtocol now s (Data (read_buffer_ s)) data_size;
      let s := if (read_size =? 0)%nat then s
               else set_read_buffer s (Consume (read_buffer_ s) read_size).2 in
      if process_size =? PARSE_PACKET_NEED_MORE_DATA then Some (s, evs)
      else '(s, evs') ← ProcessInput_loop fuel now s; Some (s, evs ++ evs')
  end.
Definition ProcessInput (now : Z) (s : Session) : option (Session * list event) :=
  ProcessInput_loop 2 now s.

(** [OnReadEvent] reads until [Recv] reports an error; [recvs] are the
    successful reads before it. *)
Fixpoint OnReadEvent (now : Z) (s : Session) (recvs : list (list Z)) : option (Session * list event) :=
  match recvs with
  | [] => Some (s, [])
  | chunk :: recvs =>
    let s := set_read_buffer s (WriteBytes (read_buffer_ s) chunk) in
    '(s, evs) ← ProcessInput now s;
    '(s, evs') ← OnReadEvent now s recvs;
    Some (s, evs ++ evs')
  end.

(** [send_size] is what the socket's [Send] returns. *)
Definition TryToWriteData (s : Session) (send_size : Z) : Session * list event :=
  match async_socket_ s with
  | None => (s, [])
  | Some k =>
    if (negb (bool_decide (sock_state k = CS_CONNECTED))
        || (Length (write_buffer_ s) =? 0)%nat)%bool then (s, [])
    else
      let data := take (Length (write_buffer_ s)) (Data (write_buffer_ s)) in
      if send_size =? SOCKET_ERROR then (s, [SocketSend data])
      else (set_write_buffer s (Consume (write_buffer_ s) (Z.to_nat send_size)).2,
            [SocketSend data])
  end.
Definition OnWriteEvent (s : Session) (send_size : Z) : Session * list event :=
  TryToWriteData s send_size.

Definition AsyncWrite (s : Session) (data : option (list Z)) (data_size packet_type : Z)
    (send_size : Z) : Session * list event :=
  let w := write_buffer_ s in
  let w := WriteUInt8 w HEADER_V in
  let w := WriteUInt8 w HEADER_Z in
  let w := WriteUInt8 w packet_type in
  let w := WriteUInt8 w 0 in
  let w := WriteUInt32 w data_size in
  let w := match data with
           | Some data => WriteBytes w (take (Z.to_nat data_size) data)
           | None => w
           end in
  TryToWriteData (set_write_buffer s w) send_size.
Definition WriteHeartbeat (s : Session) (send_size : Z) : Session * list event :=
  AsyncWrite s None 0 PACKET_TYPE_HEARTBEAT send_size.

Definition OnCloseEvent (s : Session) (code : Z) : Session * list event :=
  let s := UinitSocket s in
  (s, [SessionCloseEvent code (connect_id_ s)]).

Definition AsyncWaitNextHeadrtbeatEvent (now : Z) (s : Session) : Session * list event :=
  let '(s, timeout, evs) :=
    if ms_start_ s =? 0 then (set_ms_start s now, false, [])
    else if DEFAULT_HEADBEAT_TIMEOUT * 3 <? TimeDiff now (ms_start_ s) then
      let '(s, evs) := OnCloseEvent s 0 in (s, true, evs)
    else (s, false, []) in
  if (timeout : bool) then (s, evs)
  else (s, evs ++ [PostDelayedHeartbeat DEFAULT_HEADBEAT_TIMEOUT]).

Definition OnConnectEvent (now : Z) (s : Session) : Session * list event :=
  let '(s', evs) := AsyncWaitNextHeadrtbeatEvent now s in
  (s', SessionConnectedEvent (connect_id_ s) :: evs).

(** The delayed message the session posts to itself. *)
Definition OnMessage (now : Z) (s : Session) (send_size : Z) : Session * list event :=
  let '(s, evs) := WriteHeartbeat s send_size in
  let '(s, evs') := AsyncWaitNextHeadrtbeatEvent now s in
  (s, evs ++ evs').
End session.

Arguments ProcessPacketProtocol : simpl never.
Arguments ProcessInput : simpl never.

(** ** The framing, as a specification *)
Definition packet : Type := list Z * Z.

(** The bytes of a packet on the wire, [number] being its number byte. *)
Definition frame (number : Z) (p : packet) : list Z :=
  [HEADER_V; HEADER_Z; p.2; number] ++ be_bytes 4 (Z.of_nat (length p.1)) ++ p.1.

Definition packet_ok (p : packet) : Prop :=
  is_bytes p.1 /\ is_byte p.2 /\ Z.of_nat (length p.1) < 2 ^ 32.

(** The complete packet at the head of a stream and the stream after it. *)
Definition head_frame (l : list Z) : option (packet * list Z) :=
  if (length l <? 8)%nat then None
  else if negb ((l !!! 0%nat =? HEADER_V) && (l !!! 1%nat =? HEADER_Z)) then None
  else
    let n := be_val (slice 4 4 l) in
    if n <=? Z.of_nat (length l - 8)
    then Some ((slice 8 (Z.to_nat n) l, l !!! 2%nat), drop (8 + Z.to_nat n) l)
    else None.

(** [deframes l ps r]: the stream [l] is the packets [ps] followed by [r], which
    does not start with a complete packet. *)
Inductive deframes : list Z -> list packet -> list Z -> Prop :=
  | deframes_stop l : head_frame l = None -> deframes l [] l
  | deframes_step l p l' ps r :
      head_frame l = Some (p, l') -> deframes l' ps r -> deframes l (p :: ps) r.

Lemma head_frame_shorter l p l' : head_frame l = Some (p, l') -> (length l' + 8 <= length l)%nat.
Proof.
  unfold head_frame. repeat case_if; try discriminate. intros [= <- <-]. propify.
  rewrite length_drop. lia.
Qed.

Lemma deframes_total l : exists ps r, deframes l ps r.
Proof.
  induction l as [l IH] using (induction_ltof1 _ length). unfold ltof in IH.
  destruct (head_frame l) as [[p l']|] eqn:E; [|eauto using deframes].
  destruct (IH l') as (ps & r & ?); [apply head_frame_shorter in E; lia|].
  eauto using deframes.
Qed.

Lemma deframes_det l ps r : deframes l ps r -> forall ps' r', deframes l ps' r' -> ps' = ps /\ r' = r.
Proof.
  induction 1 as [l Hl|l p l' ps r Hl _ IH]; intros ps' r' H';
    inversion H' as [? Hl'|? p2 l2 ps2 r2 Hl' Hd]; subst; try congruence; auto.
  rewrite Hl in Hl'. simplify_eq. by destruct (IH _ _ Hd) as [-> ->].
Qed.

Lemma head_frame_suffix l p l' :
  head_frame l = Some (p, l') -> l' = drop (length l - length l') l.
Proof.
  unfold head_frame. repeat case_if; try discriminate. intros [= <- <-]. propify.
  rewrite length_drop. f_equal. lia.
Qed.

Lemma deframes_nil ps r : deframes [] ps r -> ps = [] /\ r = [].
Proof. inversion 1 as [|? ? ? ? ? Hf]; subst; [done|]. discriminate. Qed.

Lemma deframes_rest l ps r : deframes l ps r -> head_frame r = None.
Proof. by induction 1. Qed.

Lemma slice_app_l {A} i n (l m : list A) : (i + n <= length l)%nat -> slice i n (l ++ m) = slice i n l.
Proof.
  intros. unfold slice. rewrite drop_app_le by lia. apply take_app_le.
  rewrite length_drop. lia.
Qed.

Lemma head_frame_app l m p l' :
  head_frame l = Some (p, l') -> head_frame (l ++ m) = Some (p, l' ++ m).
Proof.
  unfold head_frame. rewrite length_app.
  destruct (Nat.ltb_spec (length l) 8); [discriminate|].
  destruct (Nat.ltb_spec (length l + length m) 8); [lia|].
  rewrite !lookup_total_app_l by lia. case_if; [discriminate|].
  rewrite slice_app_l by lia.
  destruct (Z.leb_spec (be_val (slice 4 4 l)) (Z.of_nat (length l - 8))); [|discriminate].
  destruct (Z.leb_spec (be_val (slice 4 4 l)) (Z.of_nat (length l + length m - 8))); [|lia].
  intros [= <- <-]. rewrite slice_app_l by lia. by rewrite drop_app_le by lia.
Qed.

Lemma deframes_app l m ps r ps' r' :
  deframes l ps r -> deframes (r ++ m) ps' r' -> deframes (l ++ m) (ps ++ ps') r'.
Proof.
  intros H. revert ps' r'. induction H as [l Hl|l p l' ps r Hl _ IH]; intros ps' r' H'; simpl; [done|].
  eapply deframes_step; [by apply head_frame_app|]. auto.
Qed.

Lemma length_frame n p : length (frame n p) = (8 + length p.1)%nat.
Proof. unfold frame. rewrite !length_app, length_be_bytes. reflexivity. Qed.

Lemma head_frame_frame n p l :
  packet_ok p -> head_frame (frame n p ++ l) = Some (p, l).
Proof.
  destruct p as [d t]. intros (Hd & Ht & Hlen). simpl in Hd, Ht, Hlen. unfold head_frame.
  rewrite length_app, length_frame. simpl fst.
  destruct (Nat.ltb_spec (8 + length d + length l) 8); [lia|].
  assert (Hs : slice 4 4 (frame n (d, t) ++ l) = be_bytes 4 (Z.of_nat (length d))) by reflexivity.
  rewrite Hs, be_val_bytes, Z.mod_small by (simpl Z.of_nat; lia).
  assert (Hat : (frame n (d, t) ++ l) !!! 0%nat = HEADER_V /\
    (frame n (d, t) ++ l) !!! 1%nat = HEADER_Z /\ (frame n (d, t) ++ l) !!! 2%nat = t) by done.
  destruct Hat as (-> & -> & ->). rewrite !Z.eqb_refl. cbn [negb andb].
  destruct (Z.leb_spec (Z.of_nat (length d)) (Z.of_nat (8 + length d + length l - 8))); [|lia].
  rewrite Nat2Z.id.
  assert (Hdrop : drop 8 (frame n (d, t) ++ l) = d ++ l) by reflexivity.
  unfold slice. rewrite Hdrop, take_app_length.
  rewrite <- drop_drop, Hdrop, drop_app_length. reflexivity.
Qed.

Lemma deframes_frames nums ps :
  Forall packet_ok ps -> length nums = length ps ->
  deframes (concat (zip_with frame nums ps)) ps [].
Proof.
  intros Hps. revert nums. induction Hps as [|p ps Hp _ IH]; intros [|n nums] Hl; try discriminate.
  - by constructor.
  - simpl in *. eapply deframes_step; [by apply head_frame_frame|]. apply IH. lia.
Qed.

(** ** The receiving side implements the framing *)
Section receive.
Context {HO : Host} {HP : Heap}.

(** Handing over packets in order. *)
Fixpoint deliver (now : Z) (s : Session) (ps : list packet) : Session * list event :=
  match ps with
  | [] => (s, [])
  | p :: ps =>
    let '(s, evs) := OnHandleInputPacket now s p.1 p.2 in
    let '(s, evs') := deliver now s ps in
    (s, evs ++ evs')
  end.

Lemma deliver_app now s ps ps' :
  deliver now s (ps ++ ps') =
  let '(s1, e1) := deliver now s ps in
  let '(s2, e2) := deliver now s1 ps' in (s2, e1 ++ e2).
Proof.
  revert s. induction ps as [|p ps IH]; intros s; simpl.
  { by destruct (deliver now s ps'). }
  destruct (OnHandleInputPacket now s p.1 p.2) as [s1 e1]. rewrite IH.
  destruct (deliver now s1 ps) as [s2 e2]. destruct (deliver now s2 ps') as [s3 e3].
  by rewrite app_assoc.
Qed.

(** The rest of the session is not touched by handing over packets. *)
Lemma handle_read_buffer now s b d t :
  OnHandleInputPacket now (set_read_buffer s b) d t =
  (set_read_buffer (OnHandleInputPacket now s d t).1 b, (OnHandleInputPacket now s d t).2).
Proof. unfold OnHandleInputPacket. by repeat case_if. Qed.
Lemma deliver_read_buffer now s b ps :
  deliver now (set_read_buffer s b) ps =
  (set_read_buffer (deliver now s ps).1 b, (deliver now s ps).2).
Proof.
  revert s. induction ps as [|p ps IH]; intros s; simpl; [done|].
  rewrite handle_read_buffer. destruct (OnHandleInputPacket now s p.1 p.2) as [s1 e1]. simpl.
  rewrite IH. by destruct (deliver now s1 ps).
Qed.
Lemma handle_keeps now s d t : read_buffer_ (OnHandleInputPacket now s d t).1 = read_buffer_ s.
Proof. unfold OnHandleInputPacket. by repeat case_if. Qed.
Lemma deliver_keeps now s ps : read_buffer_ (deliver now s ps).1 = read_buffer_ s.
Proof.
  revert s. induction ps as [|p ps IH]; intros s; simpl; [done|].
  pose proof (handle_keeps now s p.1 p.2). destruct (OnHandleInputPacket now s p.1 p.2) as [s1 e1].
  specialize (IH s1). destruct (deliver now s1 ps). simpl in *. congruence.
Qed.

Lemma deliver_write_buffer now s ps : write_buffer_ (deliver now s ps).1 = write_buffer_ s.
Proof.
  revert s. induction ps as [|p ps IH]; intros s; simpl; [done|].
  assert (write_buffer_ (OnHandleInputPacket now s p.1 p.2).1 = write_buffer_ s)
    by (unfold OnHandleInputPacket; by repeat case_if).
  destruct (OnHandleInputPacket now s p.1 p.2) as [s1 e1].
  specialize (IH s1). destruct (deliver now s1 ps). simpl in *. congruence.
Qed.

Lemma ntohl_host_value l : is_bytes l -> length l = 4%nat -> ntohl (host_value l) = be_val l.
Proof. intros. unfold ntohl. by rewrite host_bytes_value. Qed.

(** One turn of the parsing loop on the unread [drop offset l]. *)
Lemma loop_turn fuel now s data n off rs :
  is_bytes data -> (n <= length data)%nat -> (off < n)%nat ->
  ProcessPacketProtocol_loop (S fuel) now s data n off rs =
  match head_frame (drop off (take n data)) with
  | None => Some (PARSE_PACKET_NEED_MORE_DATA, rs, s, [])
  | Some (p, l') =>
    let '(s, evs) := OnHandleInputPacket now s p.1 p.2 in
    let off' := (n - length l')%nat in
    '(ret, rs, s, evs') ← ProcessPacketProtocol_loop fuel now s data n off' off';
    Some (ret, rs, s, evs ++ evs')
  end.
Proof.
  intros Hb Hn Hoff. cbn [ProcessPacketProtocol_loop].
  destruct (Nat.ltb_spec off n); [|lia]. cbn [negb]. unfold head_frame, HEADER_SIZE.
  rewrite length_drop, length_take, Nat.min_l by lia.
  destruct (Nat.ltb_spec (n - off) 8) as [|H8]; [done|].
  assert (Hat : forall i, (i < 8)%nat -> drop off (take n data) !!! i = data !!! (off + i)%nat).
  { intros i Hi. rewrite lookup_total_drop, lookup_total_take_lt by lia. done. }
  assert (Hsl : forall i k, (i + k <= n - off)%nat ->
    slice i k (drop off (take n data)) = slice (off + i) k data).
  { intros i k Hik. unfold slice. rewrite drop_drop, skipn_firstn_comm, take_take. f_equal. lia. }
  rewrite !Hat, Nat.add_0_r by lia. case_if; [done|].
  replace (S (S (off + 2))) with (off + 4)%nat by lia.
  assert (Hsz : ntohl (host_value (slice (off + 4) 4 data)) = be_val (slice 4 4 (drop off (take n data)))).
  { rewrite Hsl by lia. apply ntohl_host_value; [unfold slice; auto with vz|].
    apply length_slice. lia. }
  rewrite Hsz. set (sz := be_val _).
  assert (Hsz0 : 0 <= sz).
  { pose proof (be_val_bound (slice 4 4 (drop off (take n data)))) as Hbd.
    subst sz. unfold slice in *. apply Hbd. auto with vz. }
  replace (off + 4 + 4)%nat with (off + 8)%nat by lia.
  replace (n - (off + 8))%nat with (n - off - 8)%nat by lia.
  destruct (Z.leb_spec sz (Z.of_nat (n - off - 8))) as [Hsize|]; [|done].
  rewrite Hsl by lia. cbn [fst snd].
  rewrite !length_drop, length_take, Nat.min_l by lia.
  replace (n - (n - off - (8 + Z.to_nat sz)))%nat with (off + 8 + Z.to_nat sz)%nat by lia.
  reflexivity.
Qed.

Lemma loop_spec l ps r :
  deframes l ps r ->
  forall fuel now s data n off rs,
  is_bytes data -> (n <= length data)%nat -> (off <= n)%nat -> l = drop off (take n data) ->
  (n - off < fuel)%nat ->
  ProcessPacketProtocol_loop fuel now s data n off rs =
  Some (if bool_decide (r = []) then i32 (Z.of_nat n) else PARSE_PACKET_NEED_MORE_DATA,
        if bool_decide (ps = []) then rs else (n - length r)%nat,
        (deliver now s ps).1, (deliver now s ps).2).
Proof.
  induction 1 as [l Hl|l p l' ps r Hl Hd IH]; intros fuel now s data n off rs Hb Hn Hoff -> Hf;
    (destruct fuel as [|fuel]; [lia|]).
  - destruct (decide (off = n)) as [->|].
    + rewrite bool_decide_true by (apply drop_ge; rewrite length_take; lia).
      cbn [ProcessPacketProtocol_loop]. by rewrite Nat.ltb_irrefl.
    + rewrite bool_decide_false.
      * rewrite loop_turn by (done || lia). by rewrite Hl.
      * intros E%(f_equal length). rewrite length_drop, length_take in E. simpl in E. lia.
  - assert (off <> n).
    { intros ->. apply head_frame_shorter in Hl. rewrite length_drop, length_take in Hl. lia. }
    pose proof (head_frame_shorter _ _ _ Hl) as Hsh. rewrite length_drop, length_take in Hsh.
    rewrite loop_turn by (done || lia). rewrite Hl. cbn [deliver].
    destruct (OnHandleInputPacket now s p.1 p.2) as [s1 e1]. cbv zeta.
    rewrite (IH fuel now s1); auto; try lia.
    + cbn [mbind option_bind]. rewrite (bool_decide_false (p :: ps = [])) by discriminate.
      destruct (deliver now s1 ps) as [s2 e2]. cbn [fst snd].
      destruct ps; [|done]. inversion Hd; by subst.
    + pose proof (head_frame_suffix _ _ _ Hl) as E. rewrite length_drop, length_take, drop_drop in E.
      rewrite E at 1. f_equal. lia.
Qed.

Lemma deframes_rest_short l ps r : deframes l ps r -> (length r <= length l)%nat.
Proof.
  induction 1 as [|l p l' ps r Hl _ IH]; [done|]. apply head_frame_shorter in Hl. lia.
Qed.
Lemma deframes_suffix l ps r : deframes l ps r -> r = drop (length l - length r) l.
Proof.
  induction 1 as [l|l p l' ps r Hl Hd IH]; [by rewrite Nat.sub_diag|].
  pose proof (head_frame_suffix _ _ _ Hl) as E. pose proof (head_frame_shorter _ _ _ Hl).
  pose proof (deframes_rest_short _ _ _ Hd).
  rewrite IH at 1. rewrite E at 2. rewrite drop_drop. f_equal. lia.
Qed.

(** The loop run on the unread bytes of a well-formed buffer. *)
Lemma ProcessPacketProtocol_spec now s ps r :
  let b := read_buffer_ s in
  wf b -> deframes (contents b) ps r ->
  ProcessPacketProtocol now s (Data b) (Length b) =
  Some (if bool_decide (r = []) then i32 (Z.of_nat (Length b)) else PARSE_PACKET_NEED_MORE_DATA,
        if bool_decide (ps = []) then 0%nat else (Length b - length r)%nat,
        (deliver now s ps).1, (deliver now s ps).2).
Proof.
  intros b Hb Hd. unfold ProcessPacketProtocol.
  eapply loop_spec; [exact Hd|..]; try lia.
  - destruct Hb. unfold Data. auto with vz.
  - destruct Hb. unfold Data, Length. rewrite length_drop. lia.
  - rewrite drop_0. unfold contents, Data, slice, Length. done.
Qed.

(** [ProcessInput] always returns, having handed over every complete packet of
    the buffer in order and left exactly the incomplete rest in it. *)
Lemma ProcessInput_spec now s ps r :
  wf (read_buffer_ s) -> deframes (contents (read_buffer_ s)) ps r ->
  exists b', wf b' /\ contents b' = r /\
    ProcessInput now s = Some (set_read_buffer (deliver now s ps).1 b', (deliver now s ps).2).
Proof.
  intros Hb Hd. unfold ProcessInput. cbn [ProcessInput_loop].
  pose proof (length_contents _ Hb) as Hlen.
  pose proof (deframes_rest_short _ _ _ Hd) as Hshort.
  pose proof (deframes_suffix _ _ _ Hd) as Hsuf. rewrite Hlen in Hsuf, Hshort.
  destruct (Nat.eqb_spec (Length (read_buffer_ s)) 0) as [H0|H0].
  { (* nothing to parse *)
    rewrite H0 in Hlen. apply length_zero_iff_nil in Hlen. rewrite Hlen in Hd.
    apply deframes_nil in Hd as [-> ->].
    exists (read_buffer_ s). split_and!; [done..|]. simpl. by destruct s. }
  rewrite (ProcessPacketProtocol_spec now s ps r Hb Hd). cbn [mbind option_bind].
  pose proof (deliver_keeps now s ps) as Hkeep.
  destruct (deliver now s ps) as [s1 e1]. cbn [fst snd] in *.
  (* after the turn the buffer holds [r] *)
  assert (exists b', wf b' /\ contents b' = r /\
    (if (if bool_decide (ps = []) then 0 else Length (read_buffer_ s) - length r)%nat =? 0
     then s1 else set_read_buffer s1 (Consume (read_buffer_ s1)
       (if bool_decide (ps = []) then 0 else Length (read_buffer_ s) - length r)%nat).2)%nat
    = set_read_buffer s1 b') as (b' & Hb' & Hc' & ->).
  { rewrite Hkeep. destruct (decide (ps = [])) as [->|Hps].
    - rewrite bool_decide_true by done. inversion Hd; subst.
      exists (read_buffer_ s). split_and!; auto. simpl. rewrite <- Hkeep. by destruct s1.
    - rewrite bool_decide_false by done.
      assert (length r < Length (read_buffer_ s))%nat.
      { inversion Hd as [|? ? ? ? ? Hf Hd']; subst; [done|].
        apply head_frame_shorter in Hf. apply deframes_rest_short in Hd'. lia. }
      destruct (Nat.eqb_spec (Length (read_buffer_ s) - length r) 0); [lia|].
      pose proof (Consume_spec (read_buffer_ s) (Length (read_buffer_ s) - length r) Hb) as Hcons.
      destruct (Nat.ltb_spec (Length (read_buffer_ s)) (Length (read_buffer_ s) - length r)); [lia|].
      destruct Hcons as (b' & -> & ? & Hc). exists b'. split_and!; auto.
      by rewrite Hc, <- Hsuf. }
  exists b'. split_and!; auto. case_if; [done|].
  (* everything was consumed, so the second turn only sees an empty buffer *)
  destruct (decide (r = [])) as [->|Hr]; [|by rewrite bool_decide_false in Heqb].
  cbn [ProcessInput_loop]. replace (Length (read_buffer_ (set_read_buffer s1 b'))) with 0%nat.
  - simpl. by rewrite app_nil_r.
  - simpl. by rewrite <- (length_contents b' Hb'), Hc'.
Qed.

Lemma set_read_buffer_set s b b' : set_read_buffer (set_read_buffer s b) b' = set_read_buffer s b'.
Proof. done. Qed.

(** Between two reads the buffer of a session holds no complete packet. *)
Record session_ok (s : Session) : Prop := {
  ok_read : wf (read_buffer_ s);
  ok_parsed : head_frame (contents (read_buffer_ s)) = None;
  ok_write : wf (write_buffer_ s) }.

(** A ready socket read in any number of pieces: the packets handed over are
    those of the whole stream so far, and the rest stays buffered. *)
Lemma OnReadEvent_spec now s recvs ps r :
  session_ok s -> Forall is_bytes recvs ->
  deframes (contents (read_buffer_ s) ++ concat recvs) ps r ->
  exists b', wf b' /\ contents b' = r /\
    OnReadEvent now s recvs = Some (set_read_buffer (deliver now s ps).1 b', (deliver now s ps).2).
Proof.
  intros Hok Hrecvs. revert s ps r Hok.
  induction Hrecvs as [|chunk recvs Hchunk _ IH]; intros s ps r [Hb Hp Hw] Hd.
  { cbn [concat] in Hd. rewrite app_nil_r in Hd.
    destruct (deframes_det _ _ _ (deframes_stop _ Hp) _ _ Hd) as [-> ->].
    exists (read_buffer_ s). split_and!; auto. simpl. by destruct s. }
  cbn [concat OnReadEvent] in *. rewrite app_assoc in Hd.
  set (s0 := set_read_buffer s (WriteBytes (read_buffer_ s) chunk)).
  assert (Hb0 : wf (read_buffer_ s0)) by by apply WriteBytes_wf.
  assert (Hc0 : contents (read_buffer_ s0) = contents (read_buffer_ s) ++ chunk)
    by by apply WriteBytes_contents.
  destruct (deframes_total (contents (read_buffer_ s0))) as (ps1 & r1 & Hd1).
  destruct (ProcessInput_spec now s0 ps1 r1 Hb0 Hd1) as (b1 & Hb1 & Hc1 & ->).
  cbn [mbind option_bind]. unfold s0. rewrite deliver_read_buffer. cbn [fst snd].
  rewrite set_read_buffer_set. set (s1 := set_read_buffer (deliver now s ps1).1 b1).
  rewrite Hc0 in Hd1.
  destruct (deframes_total (r1 ++ concat recvs)) as (ps2 & r2 & Hd2).
  destruct (deframes_det _ _ _ (deframes_app _ _ _ _ _ _ Hd1 Hd2) _ _ Hd) as [-> ->].
  destruct (IH s1 ps2 r2) as (b2 & Hb2 & Hc2 & ->).
  { constructor; simpl; auto.
    - rewrite Hc1. by eapply deframes_rest.
    - by rewrite deliver_write_buffer. }
  { simpl. by rewrite Hc1. }
  exists b2. split_and!; auto. cbn [mbind option_bind]. unfold s1.
  rewrite deliver_read_buffer, deliver_app. cbn [fst snd].
  destruct (deliver now s ps1) as [s2 e2]. cbn [fst snd]. by destruct (deliver now s2 ps2).
Qed.
End receive.

(** ** What the receiver and the sender promise *)
Section protocol.
Context {HO : Host} {HP : Heap}.

(** What handing over one packet raises. *)
Definition packet_events (p : packet) : list event :=
  if p.2 =? PACKET_TYPE_HEARTBEAT then []
  else if (p.2 =? PACKET_TYPE_JSON) || (p.2 =? PACKET_TYPE_BINARY)
  then [SessionPacketEvent p.1 p.2] else [LogPacketTypeError].

Lemma deliver_events now s ps : (deliver now s ps).2 = flat_map packet_events ps.
Proof.
  revert s. induction ps as [|[d t] ps IH]; intros s; [done|]. cbn [deliver flat_map fst snd].
  assert ((OnHandleInputPacket now s d t).2 = packet_events (d, t)) as He.
  { unfold OnHandleInputPacket, packet_events. cbn [fst snd].
    repeat case_if; cbn [orb] in *; try done; congruence. }
  destruct (OnHandleInputPacket now s d t) as [s1 e1]. specialize (IH s1).
  destruct (deliver now s1 ps). simpl in *. congruence.
Qed.

(** A sequence of read events, each at its time and with its own reads. *)
Fixpoint read_run (s : Session) (reads : list (Z * list (list Z))) : option (Session * list event) :=
  match reads with
  | [] => Some (s, [])
  | (now, recvs) :: reads =>
    '(s, evs) ← OnReadEvent now s recvs;
    '(s, evs') ← read_run s reads;
    Some (s, evs ++ evs')
  end.
Definition read_bytes (reads : list (Z * list (list Z))) : list Z := concat (flat_map snd reads).

Lemma OnReadEvent_ok now s recvs ps r :
  session_ok s -> Forall is_bytes recvs ->
  deframes (contents (read_buffer_ s) ++ concat recvs) ps r ->
  exists s', OnReadEvent now s recvs = Some (s', flat_map packet_events ps) /\
    session_ok s' /\ contents (read_buffer_ s') = r.
Proof.
  intros Hok Hrecvs Hd. pose proof (deframes_rest _ _ _ Hd) as Hr.
  destruct (OnReadEvent_spec now s recvs ps r Hok Hrecvs Hd) as (b' & Hb' & Hc' & ->).
  rewrite deliver_events. eexists. split; [done|]. split; [|done].
  constructor; simpl; auto.
  - by rewrite Hc'.
  - rewrite deliver_write_buffer. by destruct Hok.
Qed.

(** A run of read events hands over the packets of the whole stream. *)
Lemma read_run_spec s reads ps r :
  session_ok s -> Forall (fun re => Forall is_bytes re.2) reads ->
  deframes (contents (read_buffer_ s) ++ read_bytes reads) ps r ->
  exists s', read_run s reads = Some (s', flat_map packet_events ps) /\
    session_ok s' /\ contents (read_buffer_ s') = r.
Proof.
  intros Hok Hreads. revert s ps r Hok.
  induction Hreads as [|[now recvs] reads Hre _ IH]; intros s ps r Hok Hd.
  { unfold read_bytes in Hd. cbn in Hd. rewrite app_nil_r in Hd.
    destruct (deframes_det _ _ _ (deframes_stop _ (ok_parsed _ Hok)) _ _ Hd) as [-> ->]. eauto. }
  unfold read_bytes in Hd. cbn [flat_map snd] in Hd. rewrite concat_app, app_assoc in Hd.
  destruct (deframes_total (contents (read_buffer_ s) ++ concat recvs)) as (ps1 & r1 & Hd1).
  destruct (OnReadEvent_ok now s recvs ps1 r1 Hok Hre Hd1) as (s1 & Hrun & Hok1 & Hc1).
  destruct (deframes_total (r1 ++ read_bytes reads)) as (ps2 & r2 & Hd2).
  destruct (deframes_det _ _ _ (deframes_app _ _ _ _ _ _ Hd1 Hd2) _ _ Hd) as [-> ->].
  destruct (IH s1 ps2 r2 Hok1) as (s2 & Hrun2 & Hok2 & Hc2); [by rewrite Hc1|].
  exists s2. cbn [read_run]. rewrite Hrun. cbn [mbind option_bind]. rewrite Hrun2.
  cbn [mbind option_bind]. by rewrite flat_map_app.
Qed.

(** C2. Receiving refines the framing: however the network cuts the byte stream
    into read events and reads, the session raises the events of the packets
    of the stream, in order, each once and as soon as it is complete, and
    keeps exactly the unfinished rest. *)
Theorem session_receives_stream s reads ps r :
  session_ok s -> Forall (fun re => Forall is_bytes re.2) reads ->
  deframes (contents (read_buffer_ s) ++ read_bytes reads) ps r ->
  exists s', read_run s reads = Some (s', flat_map packet_events ps) /\
    session_ok s' /\ contents (read_buffer_ s') = r.
Proof.
  apply read_run_spec.
Qed.

(** A stream that lost its framing: a full header that is not 'V' 'Z'. *)
Definition desynced (l : list Z) : Prop :=
  (8 <= length l)%nat /\ ~ (l !!! 0%nat = HEADER_V /\ l !!! 1%nat = HEADER_Z).

Lemma desynced_head l m : desynced l -> head_frame (l ++ m) = None.
Proof.
  intros [Hl Hvz]. unfold head_frame. rewrite length_app.
  destruct (Nat.ltb_spec (length l + length m) 8); [done|].
  rewrite !lookup_total_app_l by lia.
  destruct (Z.eqb_spec (l !!! 0%nat) HEADER_V); [|done].
  destruct (Z.eqb_spec (l !!! 1%nat) HEADER_Z); [|done]. tauto.
Qed.

(** No resynchronisation: once a bad header is at the head of the read buffer,
    nothing that arrives later is ever handed over or dropped, whatever it
    holds; the buffer only grows. *)
Theorem desync_is_permanent s reads :
  session_ok s -> desynced (contents (read_buffer_ s)) ->
  Forall (fun re => Forall is_bytes re.2) reads ->
  exists s', read_run s reads = Some (s', []) /\
    contents (read_buffer_ s') = contents (read_buffer_ s) ++ read_bytes reads.
Proof.
  intros Hok Hbad Hreads.
  destruct (read_run_spec s reads [] (contents (read_buffer_ s) ++ read_bytes reads))
    as (s' & ? & _ & ?); eauto.
  apply deframes_stop. by apply desynced_head.
Qed.

(** *** Sending *)

(** What the socket's [Send] may return, and the bytes it then took. *)
Definition send_result (n : Z) (evs : list event) : Prop :=
  match evs with
  | [SocketSend data] => n = SOCKET_ERROR \/ 0 <= n <= Z.of_nat (length data)
  | _ => True
  end.
Definition accepted (n : Z) (evs : list event) : list Z :=
  match evs with
  | [SocketSend data] => if n =? SOCKET_ERROR then [] else take (Z.to_nat n) data
  | _ => []
  end.

(** [sends s ps bs s']: from [s] to [s'] the session was asked to write the
    packets [ps], heartbeats included, its socket turned writable any number of
    times, and the socket took the bytes [bs]. *)
Inductive sends : Session -> list packet -> list Z -> Session -> Prop :=
  | sends_nil s : sends s [] [] s
  | sends_packet s p n s1 evs ps bs s2 :
      packet_ok p ->
      AsyncWrite s (Some p.1) (Z.of_nat (length p.1)) p.2 n = (s1, evs) ->
      send_result n evs -> sends s1 ps bs s2 ->
      sends s (p :: ps) (accepted n evs ++ bs) s2
  | sends_heartbeat s n s1 evs ps bs s2 :
      WriteHeartbeat s n = (s1, evs) -> send_result n evs -> sends s1 ps bs s2 ->
      sends s (([], PACKET_TYPE_HEARTBEAT) :: ps) (accepted n evs ++ bs) s2
  | sends_writable s n s1 evs ps bs s2 :
      OnWriteEvent s n = (s1, evs) -> send_result n evs -> sends s1 ps bs s2 ->
      sends s ps (accepted n evs ++ bs) s2.

Definition writer_ok (s : Session) : Prop :=
  wf (write_buffer_ s) /\ byte_order_ (write_buffer_ s) = ORDER_NETWORK.

Lemma Consume_order b n : byte_order_ (Consume b n).2 = byte_order_ b.
Proof. unfold Consume. by destruct (_ <? _)%nat. Qed.

Lemma TryToWriteData_spec s n s1 evs :
  writer_ok s -> TryToWriteData s n = (s1, evs) -> send_result n evs ->
  writer_ok s1 /\ contents (write_buffer_ s) = accepted n evs ++ contents (write_buffer_ s1).
Proof.
  intros [Hw Ho] Ht Hn. unfold TryToWriteData in Ht.
  destruct (async_socket_ s) as [k|]; [|by simplify_eq].
  destruct (_ || _)%bool; [by simplify_eq|].
  destruct (Z.eqb_spec n SOCKET_ERROR) as [->|Hne]; [by simplify_eq|].
  rewrite take_Data in Ht by (done || lia). rewrite take_ge in Ht by by rewrite length_contents.
  injection Ht as <- <-. cbn [send_result accepted] in *.
  destruct Hn as [|Hn]; [done|]. rewrite length_contents in Hn by done.
  destruct (Z.eqb_spec n SOCKET_ERROR); [done|].
  pose proof (Consume_spec (write_buffer_ s) (Z.to_nat n) Hw) as Hc.
  destruct (Nat.ltb_spec (Length (write_buffer_ s)) (Z.to_nat n)); [lia|].
  destruct Hc as (b' & E & Hb' & Hc'). unfold set_write_buffer, writer_ok. cbn [write_buffer_].
  rewrite Consume_order, E. cbn [snd]. rewrite Hc'. by rewrite take_drop.
Qed.

(** Queueing a packet appends its frame. *)
Lemma AsyncWrite_spec s d t n s1 evs (data : option (list Z)) :
  writer_ok s -> packet_ok (d, t) -> default [] data = d ->
  AsyncWrite s data (Z.of_nat (length d)) t n = (s1, evs) -> send_result n evs ->
  writer_ok s1 /\
  contents (write_buffer_ s) ++ frame 0 (d, t) = accepted n evs ++ contents (write_buffer_ s1).
Proof.
  intros [Hw Ho] (Hd & Ht & Hlen) Hdata Ha Hn. cbn [fst snd] in *.
  unfold AsyncWrite in Ha. set (b := write_buffer_ s) in *.
  pose proof (write_fields_spec [F8 HEADER_V; F8 HEADER_Z; F8 t; F8 0; F32 (Z.of_nat (length d))] b Hw)
    as (Hw1 & Ho1 & Hc1).
  { repeat constructor; cbn [field_ok]; unfold is_byte, in_width, HEADER_V, HEADER_Z in *; lia. }
  cbn [write_fields foldl write_field] in Hw1, Ho1, Hc1.
  set (b1 := WriteUInt32 _ _) in *.
  set (b2 := match data with Some data => _ | None => _ end) in Ha.
  assert (Hb2 : writer_ok (set_write_buffer s b2) /\ contents b2 = contents b1 ++ d).
  { subst b2. destruct data as [dd|]; simpl in Hdata; subst d.
    - rewrite Nat2Z.id, take_ge by lia. unfold writer_ok. cbn [write_buffer_ set_write_buffer].
      split_and!; auto using WriteBytes_wf, WriteBytes_contents.
      rewrite WriteBytes_order. congruence.
    - rewrite app_nil_r. unfold writer_ok. cbn. split_and!; auto. congruence. }
  destruct Hb2 as [Hok2 Hc2].
  destruct (TryToWriteData_spec _ _ _ _ Hok2 Ha Hn) as [Hok Hc].
  split; [done|]. rewrite <- Hc. cbn [write_buffer_ set_write_buffer].
  rewrite Hc2, Hc1, Ho. rewrite <- app_assoc. f_equal.
  unfold frame. cbn [map concat field_bytes fst snd order_bytes].
  rewrite app_nil_r, !be_bytes_1; [by rewrite <- !app_assoc|..];
    unfold is_byte, in_width, HEADER_V, HEADER_Z in *; lia.
Qed.

(** The same, exactly: a connected session offers its socket all that is queued and
    the new frame, and keeps what the socket did not take; another only queues. *)
Definition connected (s : Session) : bool := bool_decide (GetState s = CS_CONNECTED).
Definition can_take (n : Z) (out : list Z) : Prop := n = SOCKET_ERROR \/ 0 <= n <= Z.of_nat (length out).
Definition took (n : Z) (out : list Z) : list Z := if n =? SOCKET_ERROR then [] else take (Z.to_nat n) out.

Lemma TryToWriteData_exact s n :
  wf (write_buffer_ s) -> contents (write_buffer_ s) <> [] ->
  let out := contents (write_buffer_ s) in
  (TryToWriteData s n).2 = (if connected s then [SocketSend out] else []) /\
  (TryToWriteData s n).1 = set_write_buffer s (write_buffer_ (TryToWriteData s n).1).
Proof.
  intros Hw Hne out. unfold TryToWriteData, connected, GetState.
  destruct (async_socket_ s) as [k|] eqn:Ek; [|by destruct s].
  destruct (Nat.eqb_spec (Length (write_buffer_ s)) 0) as [Hz|_].
  { exfalso. rewrite <- length_contents in Hz by done. by destruct (contents (write_buffer_ s)). }
  case_bool_decide; cbn [negb orb]; [|by destruct s].
  rewrite take_Data by (done || lia). rewrite take_ge by by rewrite length_contents.
  destruct (n =? SOCKET_ERROR); by destruct s.
Qed.

Lemma AsyncWrite_exact s d t n s1 evs :
  writer_ok s -> packet_ok (d, t) ->
  let out := contents (write_buffer_ s) ++ frame 0 (d, t) in
  can_take n out ->
  AsyncWrite s (Some d) (Z.of_nat (length d)) t n = (s1, evs) ->
  evs = (if connected s then [SocketSend out] else []) /\
  s1 = set_write_buffer s (write_buffer_ s1) /\ writer_ok s1 /\
  out = (if connected s then took n out else []) ++ contents (write_buffer_ s1).
Proof.
  intros Hok Hp out Hn Ha.
  assert (Hout : contents (write_buffer_ s) ++ frame 0 (d, t) = out) by done.
  assert (Hev : evs = (if connected s then [SocketSend out] else []) /\
    s1 = set_write_buffer s (write_buffer_ s1)).
  { revert Ha. unfold AsyncWrite. set (b := write_buffer_ s) in *.
    destruct Hok as [Hw Ho]. destruct Hp as (Hd & Ht & Hlen). cbn [fst snd] in *.
    pose proof (write_fields_spec [F8 HEADER_V; F8 HEADER_Z; F8 t; F8 0; F32 (Z.of_nat (length d))] b Hw)
      as (Hw1 & Ho1 & Hc1).
    { repeat constructor; cbn [field_ok]; unfold is_byte, in_width, HEADER_V, HEADER_Z in *; lia. }
    cbn [write_fields foldl write_field] in Hw1, Ho1, Hc1. set (b1 := WriteUInt32 _ _) in *.
    rewrite Nat2Z.id, take_ge by lia. intros Ha.
    assert (Hc : contents (WriteBytes b1 d) = out).
    { rewrite WriteBytes_contents, Hc1 by done. fold b in Ho. rewrite Ho, <- app_assoc. unfold out. f_equal.
      unfold frame. cbn [map concat field_bytes fst snd order_bytes].
      rewrite app_nil_r, !be_bytes_1; [by rewrite <- !app_assoc|..];
        unfold is_byte, in_width, HEADER_V, HEADER_Z in *; lia. }
    destruct (TryToWriteData_exact (set_write_buffer s (WriteBytes b1 d)) n) as (E2 & E1).
    - by apply WriteBytes_wf.
    - cbn [set_write_buffer write_buffer_]. rewrite Hc. unfold out, frame.
      by destruct (contents b).
    - rewrite Ha in E1, E2. cbn [fst snd set_write_buffer write_buffer_] in E1, E2.
      rewrite Hc in E2. by split. }
  destruct Hev as [-> Hs1]. split; [done|]. split; [done|].
  destruct (AsyncWrite_spec s d t n s1 _ (Some d) Hok Hp eq_refl Ha) as [Hw1 Hc]; [by destruct (connected s)|].
  split; [done|]. rewrite <- Hout at 1. rewrite Hc. by destruct (connected s).
Qed.

Definition frames (ps : list packet) : list Z := concat (map (frame 0) ps).
Lemma deframes_concat ps : Forall packet_ok ps -> deframes (frames ps) ps [].
Proof.
  unfold frames. induction 1 as [|p ps Hp _ IH]; [by constructor|].
  cbn [map concat]. eapply deframes_step; [by apply head_frame_frame|done].
Qed.

(** What the socket took plus what is still queued is what was queued before
    plus the frames of the packets written since. *)
Lemma sends_spec s ps bs s' :
  sends s ps bs s' -> writer_ok s ->
  writer_ok s' /\ Forall packet_ok ps /\
  contents (write_buffer_ s) ++ frames ps = bs ++ contents (write_buffer_ s').
Proof.
  induction 1 as [s|s [d t] n s1 evs ps bs s2 Hp Ha Hn Hs IH
                 |s n s1 evs ps bs s2 Ha Hn Hs IH|s n s1 evs ps bs s2 Ha Hn Hs IH]; intros Hok.
  - split_and!; auto. by rewrite app_nil_r.
  - destruct (AsyncWrite_spec s d t n s1 evs (Some d) Hok Hp eq_refl Ha Hn) as [Hok1 Hc].
    destruct (IH Hok1) as (Hok2 & Hps & Hc2). split_and!; auto.
    unfold frames in *. cbn [map concat]. rewrite app_assoc, Hc, <- !app_assoc. by f_equal.
  - assert (Hp : packet_ok ([], PACKET_TYPE_HEARTBEAT)).
    { split_and!; [by constructor|done|simpl; lia]. }
    destruct (AsyncWrite_spec s [] PACKET_TYPE_HEARTBEAT n s1 evs None Hok Hp eq_refl Ha Hn)
      as [Hok1 Hc].
    destruct (IH Hok1) as (Hok2 & Hps & Hc2). split_and!; auto.
    unfold frames in *. cbn [map concat]. rewrite app_assoc, Hc, <- !app_assoc. by f_equal.
  - destruct (TryToWriteData_spec s n s1 evs Hok Ha Hn) as [Hok1 Hc].
    destruct (IH Hok1) as (Hok2 & Hps & Hc2). split_and!; auto.
    by rewrite Hc, <- !app_assoc, Hc2.
Qed.

Definition drained (s : Session) : bool := bool_decide (contents (write_buffer_ s) = []).

(** C3. End to end: packets written by one session and carried by a reliable byte
    stream, however [Send] splits the bytes and however the reads of the other
    session group them, are handed over there in order, without loss,
    duplication or invention: a prefix of what was written, and all of it once
    the sender's buffer has drained. *)
Theorem packets_end_to_end sender ps bs sender' receiver reads :
  writer_ok sender -> contents (write_buffer_ sender) = [] ->
  sends sender ps bs sender' ->
  session_ok receiver -> contents (read_buffer_ receiver) = [] ->
  Forall (fun re => Forall is_bytes re.2) reads -> read_bytes reads = bs ->
  exists receiver' got,
    read_run receiver reads = Some (receiver', flat_map packet_events got) /\
    got `prefix_of` ps /\ (drained sender' = true -> got = ps).
Proof.
  intros Hw Hempty Hs Hr Hre Hreads Hbytes.
  destruct (sends_spec _ _ _ _ Hs Hw) as (Hw' & Hps & Hc). rewrite Hempty in Hc. cbn [app] in Hc.
  destruct (deframes_total bs) as (got & r & Hd).
  destruct (read_run_spec receiver reads got r) as (receiver' & Hrun & _); auto.
  { by rewrite Hre, Hbytes. }
  exists receiver', got. split; [done|].
  destruct (deframes_total (r ++ contents (write_buffer_ sender'))) as (more & r' & Hd').
  pose proof (deframes_app _ _ _ _ _ _ Hd Hd') as Hall. rewrite <- Hc in Hall.
  destruct (deframes_det _ _ _ (deframes_concat ps Hps) _ _ Hall) as [<- _].
  split; [by eexists|]. intros Hdr%bool_decide_eq_true. rewrite Hdr, app_nil_r in Hd'.
  destruct (deframes_det _ _ _ (deframes_stop _ (deframes_rest _ _ _ Hd)) _ _ Hd') as [-> _].
  by rewrite app_nil_r.
Qed.

(** *** Heartbeats *)

(** The session's timer messages, run until one does not rearm the timer. *)
Definition rearms (evs : list event) : bool :=
  existsb (fun e => match e with PostDelayedHeartbeat _ => true | _ => false end) evs.
Definition closes (evs : list event) : list event :=
  List.filter (fun e => match e with SessionCloseEvent _ _ => true | _ => false end) evs.
Fixpoint timer_run (s : Session) (ticks : list (Z * Z)) : Session * list event * list (Z * Z) :=
  match ticks with
  | [] => (s, [], [])
  | (now, send_size) :: ticks =>
    let '(s, evs) := OnMessage now s send_size in
    if rearms evs then
      let '(s, evs', rest) := timer_run s ticks in (s, evs ++ evs', rest)
    else (s, evs, ticks)
  end.

Lemma TryToWriteData_keeps s n :
  let s' := (TryToWriteData s n).1 in
  ms_start_ s' = ms_start_ s /\ connect_id_ s' = connect_id_ s /\
  rearms (TryToWriteData s n).2 = false /\ closes (TryToWriteData s n).2 = [].
Proof.
  unfold TryToWriteData. destruct (async_socket_ s); [|done].
  by repeat case_if.
Qed.

Lemma closes_app e1 e2 : closes (e1 ++ e2) = closes e1 ++ closes e2.
Proof. apply List.filter_app. Qed.
Lemma rearms_app e1 e2 : rearms (e1 ++ e2) = rearms e1 || rearms e2.
Proof. apply existsb_app. Qed.

(** One timer message, [d] ms after the last heartbeat. *)
Lemma OnMessage_tick t d n s :
  stamp t -> t <> 0 -> ms_start_ s = t -> 0 <= d < 2 ^ 31 ->
  let '(s', evs) := OnMessage (u32 (t + d)) s n in
  ms_start_ s' = t /\ connect_id_ s' = connect_id_ s /\
  (if d <=? 6000 then rearms evs = true /\ closes evs = []
   else rearms evs = false /\ closes evs = [SessionCloseEvent 0 (connect_id_ s)]).
Proof.
  intros Ht Ht0 Hms Hd. unfold OnMessage, WriteHeartbeat, AsyncWrite.
  match goal with |- context [TryToWriteData ?x n] =>
    pose proof (TryToWriteData_keeps x n) as (H1 & H2 & H3 & H4);
    destruct (TryToWriteData x n) as [s1 e1] end.
  cbn [fst snd ms_start_ connect_id_ set_write_buffer] in *.
  unfold AsyncWaitNextHeadrtbeatEvent. rewrite H1, Hms.
  destruct (Z.eqb_spec t 0); [done|].
  assert (Hdiff : TimeDiff (u32 (t + d)) t = d) by (unfold TimeDiff; word_lia).
  rewrite Hdiff. unfold DEFAULT_HEADBEAT_TIMEOUT.
  destruct (Z.ltb_spec (2 * 1000 * 3) d); destruct (Z.leb_spec d 6000); try lia.
  - unfold OnCloseEvent. rewrite rearms_app, closes_app, H3, H4.
    unfold UinitSocket. destruct (async_socket_ s1); cbn; repeat case_if; cbn;
      rewrite ?H1, ?H2, ?Hms; done.
  - rewrite rearms_app, closes_app, H3, H4. rewrite ?H1, ?H2, ?Hms. done.
Qed.

(** A timer message [dn.1] ms after [t], whose [Send] returns [dn.2]. *)
Definition tick_at (t : Z) (dn : Z * Z) : Z * Z := (u32 (t + dn.1), dn.2).

(** A silent peer is detected, and only a silent one: as long as the timer
    finds the last heartbeat at most 6000 ms old the session keeps its timer
    armed and does not close; the first timer message that finds it older
    raises one close event and is the last. *)
Theorem heartbeat_timeout t s (ds : list (Z * Z)) :
  stamp t -> t <> 0 -> ms_start_ s = t ->
  Forall (fun dn => 0 <= dn.1 < 2 ^ 31) ds ->
  forall fresh late,
  ds = fresh ++ late -> Forall (fun dn => dn.1 <= 6000) fresh ->
  match late with
  | [] =>
    let '(s', evs, rest) := timer_run s (map (tick_at t) ds) in closes evs = [] /\ rest = []
  | d :: late =>
    6000 < d.1 ->
    let '(s', evs, rest) := timer_run s (map (tick_at t) ds) in
    closes evs = [SessionCloseEvent 0 (connect_id_ s)] /\ rest = map (tick_at t) late
  end.
Proof.
  intros Ht Ht0 Hms Hds fresh late -> Hfresh. revert s Hms.
  induction Hfresh as [|[d n] fresh Hd _ IH]; intros s Hms.
  - destruct late as [|[d n] late]; [done|]. intros Hlate.
    apply Forall_cons_1 in Hds as [Hd _]. cbn [fst] in Hd, Hlate.
    cbn [app map timer_run tick_at fst snd].
    pose proof (OnMessage_tick t d n s Ht Ht0 Hms Hd) as Hm.
    destruct (OnMessage _ s n) as [s1 e1]. destruct (Z.leb_spec d 6000); [lia|].
    destruct Hm as (_ & _ & -> & Hc). done.
  - cbn [app] in Hds. apply Forall_cons_1 in Hds as [Hd' Hds]. cbn [fst] in *.
    specialize (IH Hds). cbn [app map timer_run tick_at fst snd].
    pose proof (OnMessage_tick t d n s Ht Ht0 Hms Hd') as Hm.
    destruct (OnMessage _ s n) as [s1 e1]. destruct (Z.leb_spec d 6000); [|lia].
    destruct Hm as (Hms1 & Hcid & -> & Hc). specialize (IH s1 Hms1).
    destruct late as [|d' late]; [|intros Hlate; specialize (IH Hlate)];
      destruct (timer_run s1 _) as [[s2 e2] rest];
      rewrite closes_app, Hc; destruct IH as [-> ->]; by rewrite ?Hcid.
Qed.
End protocol.

(** ** Concrete runs *)

(** A connected session, and bytes of a frame read in three pieces. *)
Definition demo_session : Session :=
  (Start (Session_new (HP := zero_heap) 1 0).1 9 CS_CONNECTED).1.2.
Definition demo_packet : packet := ([123; 125; 0], PACKET_TYPE_JSON).
Definition demo_reads : list (Z * list (list Z)) :=
  [(10, [[86; 90; 0; 0]; [0; 0; 0; 3; 123]]); (20, [[125; 0]])].

Lemma demo_session_ok : session_ok demo_session.
Proof. constructor; [apply Construct_None_wf|vm_compute; reflexivity|apply Construct_None_wf]. Qed.
Lemma demo_reads_ok : Forall (fun re => Forall is_bytes re.2) demo_reads.
Proof. apply (bool_decide_unpack _). vm_compute. exact I. Qed.
Lemma demo_packet_ok : packet_ok demo_packet.
Proof.
  split; [|split]; [apply (bool_decide_unpack _); vm_compute; exact I|..];
    unfold is_byte, in_width; vm_compute; intuition congruence.
Qed.

Lemma session_receives_stream_witness :
  exists s', read_run (HO := little_endian) (HP := zero_heap) demo_session demo_reads =
      Some (s', [SessionPacketEvent [123; 125; 0] PACKET_TYPE_JSON]) /\
    session_ok s' /\ contents (read_buffer_ s') = [].
Proof.
  apply (session_receives_stream (HO := little_endian) (HP := zero_heap)
           demo_session demo_reads [demo_packet] []).
  - apply demo_session_ok.
  - apply demo_reads_ok.
  - eapply deframes_step; [vm_compute; reflexivity|]. apply deframes_stop. reflexivity.
Defined.

(** A session whose first eight bytes were not a header. *)
Definition lost_session : Session :=
  set_read_buffer demo_session (ByteBuffer_from (HP := zero_heap) [86; 0; 1; 2; 3; 4; 5; 6] 8 ORDER_NETWORK).
Lemma desync_is_permanent_witness :
  exists s', read_run (HO := little_endian) (HP := zero_heap) lost_session demo_reads = Some (s', []) /\
    contents (read_buffer_ s') = contents (read_buffer_ lost_session) ++ read_bytes demo_reads.
Proof.
  apply (desync_is_permanent (HO := little_endian) (HP := zero_heap)).
  - constructor; [|vm_compute; reflexivity|apply Construct_None_wf].
    apply Construct_Some_wf. apply (bool_decide_unpack _). vm_compute. exact I.
  - split; [vm_compute; lia|]. intros [_ E]. discriminate E.
  - apply demo_reads_ok.
Defined.

(** A packet of whose frame the socket first takes five bytes, and a heartbeat,
    with which it takes the rest. *)
Definition write_packet : Session * list event :=
  AsyncWrite (HO := little_endian) (HP := zero_heap) demo_session (Some demo_packet.1)
    (Z.of_nat (length demo_packet.1)) demo_packet.2 5.
Definition write_heartbeat : Session * list event :=
  WriteHeartbeat (HO := little_endian) (HP := zero_heap) write_packet.1 14.
Definition demo_wire : list Z := accepted 5 write_packet.2 ++ accepted 14 write_heartbeat.2 ++ [].
Lemma demo_sends :
  sends (HO := little_endian) (HP := zero_heap) demo_session
    [demo_packet; ([], PACKET_TYPE_HEARTBEAT)] demo_wire write_heartbeat.1.
Proof.
  unfold demo_wire.
  apply (sends_packet demo_session demo_packet 5 write_packet.1 write_packet.2).
  - apply demo_packet_ok.
  - rewrite <- surjective_pairing. exact eq_refl.
  - vm_compute. right. intuition congruence.
  - apply (sends_heartbeat write_packet.1 14 write_heartbeat.1 write_heartbeat.2).
    + rewrite <- surjective_pairing. exact eq_refl.
    + vm_compute. right. intuition congruence.
    + apply sends_nil.
Qed.

Lemma packets_end_to_end_witness :
  drained write_heartbeat.1 = true /\
  exists receiver' got,
    read_run (HO := little_endian) (HP := zero_heap) demo_session
      [(10, [take 7 demo_wire; drop 7 demo_wire])] = Some (receiver', flat_map packet_events got) /\
    got `prefix_of` [demo_packet; ([], PACKET_TYPE_HEARTBEAT)] /\
    (drained write_heartbeat.1 = true -> got = [demo_packet; ([], PACKET_TYPE_HEARTBEAT)]).
Proof.
  split; [vm_compute; reflexivity|].
  apply (packets_end_to_end (HO := little_endian) (HP := zero_heap) demo_session _ demo_wire).
  - split; [apply Construct_None_wf|reflexivity].
  - vm_compute. reflexivity.
  - apply demo_sends.
  - apply demo_session_ok.
  - vm_compute. reflexivity.
  - apply (bool_decide_unpack _). vm_compute. exact I.
  - vm_compute. reflexivity.
Defined.

Lemma heartbeat_timeout_witness :
  let s := set_ms_start demo_session 4294967000 in
  let ds := [(2000, 8); (6000, 8); (6001, 8); (7000, 8)] in
  let '(s', evs, rest) :=
    timer_run (HO := little_endian) (HP := zero_heap) s (map (tick_at 4294967000) ds) in
  closes evs = [SessionCloseEvent 0 (connect_id_ s)] /\ rest = map (tick_at 4294967000) [(7000, 8)].
Proof.
  intros s ds.
  refine (heartbeat_timeout (HO := little_endian) (HP := zero_heap) 4294967000 s ds _ _ _ _
            [(2000, 8); (6000, 8)] [(6001, 8); (7000, 8)] eq_refl _ _).
  - vm_compute. intuition congruence.
  - lia.
  - reflexivity.
  - repeat constructor; cbn; lia.
  - repeat constructor; cbn; lia.
  - cbn. lia.
Defined.
