(* ===== verification/PhysicalSocket.v ===== *)
(** * event/physicalsocketserver.cpp: one socket of the operating system

    [PhysicalSocket] and its subclass [SocketDispatcher], for Linux and for Windows.
    Every system call is logged with its arguments and answered from a tape: the
    value it returns, the error the system has afterwards and what it wrote to its
    out arguments.  What a method does to the socket server and to the listeners of
    the socket's signals is logged too; SocketServer.v carries it out.  The
    virtual [Create] and [Close] are those of [SocketDispatcher].  [ASSERT] does
    nothing; the log file and the debug texts are left out. *)
From Stdlib Require Import Ascii String.
From S2P Require Import Prelude Text ByteOrder InetText IpAddress SocketAddr.
From S2P Require Import Session.
#[local] Open Scope Z_scope.

Inductive platform := LINUX | WIN32.
#[global] Instance platform_eq_dec : EqDecision platform.
Proof. solve_decision. Defined.

(** The error numbers of the system's headers that the code names. *)
Class Errno := {
  EWOULDBLOCK : Z; EAGAIN : Z; EINPROGRESS : Z; EALREADY : Z; ENOTCONN : Z; EINVAL : Z;
  EBADF : Z; ECONNRESET : Z }.
Definition errno_linux : Errno := Build_Errno 11 11 115 114 107 22 9 104.
Definition errno_windows : Errno := Build_Errno 10035 11 10036 10037 10057 22 9 10054.

(** [enum DispatcherEvent]. *)
Definition DE_READ : Z := 0x0001.
Definition DE_WRITE : Z := 0x0002.
Definition DE_CONNECT : Z := 0x0004.
Definition DE_CLOSE : Z := 0x0008.
Definition DE_ACCEPT : Z := 0x0010.
Definition has (ff event : Z) : bool := negb (Z.land ff event =? 0).

Definition INVALID_SOCKET : Z := -1.
Definition SOCK_STREAM : Z := 1.
Definition SOCK_DGRAM : Z := 2.

(** [Socket::Option], and the names the system has for them. *)
Inductive Option := OPT_DONTFRAGMENT | OPT_RCVBUF | OPT_SNDBUF | OPT_NODELAY | OPT_IPV6_V6ONLY.
Inductive sockopt := IP_DONTFRAGMENT | IP_MTU_DISCOVER | IP_MTU | SO_RCVBUF | SO_SNDBUF | TCP_NODELAY | SO_TYPE | SO_ERROR.
Inductive level := IPPROTO_IP | SOL_SOCKET | IPPROTO_TCP.
#[global] Instance Option_eq_dec : EqDecision Option.
Proof. solve_decision. Defined.
Definition IP_PMTUDISC_DONT : Z := 0.
Definition IP_PMTUDISC_DO : Z := 2.
Definition MSG_NOSIGNAL : Z := 0x4000.
Definition MSG_PEEK : Z := 2.

(** [id_], [signal_close_] and [signal_err_] are members of the dispatcher for Windows. *)
Record PhysicalSocket := mkPhysicalSocket {
  s_ : Z; enabled_events_ : Z; udp_ : bool; error_ : Z; state_ : ConnState; resolver_ : option Z;
  id_ : Z; signal_close_ : bool; signal_err_ : Z }.

Record sysret := mkRet { ret : Z; err : Z; out : list Z }.
Inductive effect :=
  | SysSocket (family type : Z)
  | SysBind (s : Z) (addr : list Z * nat)
  | SysConnect (s : Z) (addr : list Z * nat)
  | SysSend (s : Z) (data : list Z) (flags : Z)
  | SysSendTo (s : Z) (data : list Z) (flags : Z) (addr : list Z * nat)
  | SysRecv (s : Z) (length flags : Z)
  | SysRecvFrom (s : Z) (length : Z)
  | SysListen (s backlog : Z)
  | SysAccept (s : Z)
  | SysClose (s : Z)
  | SysNonBlocking (s : Z)
  | SysGetName (s : Z) (peer : bool)
  | SysGetOption (s : Z) (l : level) (o : sockopt)
  | SysSetOption (s : Z) (l : level) (o : sockopt) (value : Z)
  | ResolverStart (resolver : Z) (addr : SocketAddress)
  | ResolverDestroy (resolver : Z)
  | AddDispatcher
  | RemoveDispatcher
  | WrapAccepted (s : Z)
  | SignalConnectEvent
  | SignalReadEvent
  | SignalWriteEvent
  | SignalCloseEvent (err : Z).

(** A method runs on its socket, the tape, the system's error number and the
    static [next_id_]. *)
Record Env := mkEnv { sock : PhysicalSocket; tape : list sysret; errno : Z; next_id_ : Z }.
Definition method (A : Type) : Type := Env -> A * Env * list effect.
#[global] Instance method_ret : MRet method := fun A a e => (a, e, []).
#[global] Instance method_bind : MBind method := fun A B f m e =>
  let '(a, e, l) := m e in let '(b, e, l') := f a e in (b, e, l ++ l').
Definition get {A} (f : PhysicalSocket -> A) : method A := fun e => (f (sock e), e, []).
Definition modify (f : PhysicalSocket -> PhysicalSocket) : method unit :=
  fun e => ((), mkEnv (f (sock e)) (tape e) (errno e) (next_id_ e), []).
Definition emit (x : effect) : method unit := fun e => ((), e, [x]).
(** A system call; a tape that has run out fails every call. *)
Definition call (x : effect) : method sysret := fun e =>
  match tape e with
  | r :: t => (r, mkEnv (sock e) t (err r) (next_id_ e), [x])
  | [] => (mkRet (-1) (errno e) [], e, [x])
  end.
Definition when (b : bool) (m : method unit) : method unit := if b then m else mret ().

Definition set_s (x : Z) (p : PhysicalSocket) : PhysicalSocket :=
  mkPhysicalSocket x (enabled_events_ p) (udp_ p) (error_ p) (state_ p) (resolver_ p) (id_ p) (signal_close_ p) (signal_err_ p).
Definition set_enabled (x : Z) (p : PhysicalSocket) : PhysicalSocket :=
  mkPhysicalSocket (s_ p) x (udp_ p) (error_ p) (state_ p) (resolver_ p) (id_ p) (signal_close_ p) (signal_err_ p).
Definition set_udp (x : bool) (p : PhysicalSocket) : PhysicalSocket :=
  mkPhysicalSocket (s_ p) (enabled_events_ p) x (error_ p) (state_ p) (resolver_ p) (id_ p) (signal_close_ p) (signal_err_ p).
Definition set_error (x : Z) (p : PhysicalSocket) : PhysicalSocket :=
  mkPhysicalSocket (s_ p) (enabled_events_ p) (udp_ p) x (state_ p) (resolver_ p) (id_ p) (signal_close_ p) (signal_err_ p).
Definition set_state (x : ConnState) (p : PhysicalSocket) : PhysicalSocket :=
  mkPhysicalSocket (s_ p) (enabled_events_ p) (udp_ p) (error_ p) x (resolver_ p) (id_ p) (signal_close_ p) (signal_err_ p).
Definition set_resolver (x : option Z) (p : PhysicalSocket) : PhysicalSocket :=
  mkPhysicalSocket (s_ p) (enabled_events_ p) (udp_ p) (error_ p) (state_ p) x (id_ p) (signal_close_ p) (signal_err_ p).
Definition set_id (x : Z) (p : PhysicalSocket) : PhysicalSocket :=
  mkPhysicalSocket (s_ p) (enabled_events_ p) (udp_ p) (error_ p) (state_ p) (resolver_ p) x (signal_close_ p) (signal_err_ p).
Definition set_signal_close (x : bool) (err : Z) (p : PhysicalSocket) : PhysicalSocket :=
  mkPhysicalSocket (s_ p) (enabled_events_ p) (udp_ p) (error_ p) (state_ p) (resolver_ p) (id_ p) x err.
Definition enable (events : Z) : method unit :=
  modify (fun p => set_enabled (Z.lor (enabled_events_ p) events) p).
Definition disable (events : Z) : method unit :=
  modify (fun p => set_enabled (Z.ldiff (enabled_events_ p) events) p).

Section physical_socket.
Context {HO : Host} {EN : Errno} (pf : platform).

Definition IsBlockingError (e : Z) : bool := (e =? EWOULDBLOCK) || (e =? EAGAIN) || (e =? EINPROGRESS).
Definition UpdateLastError : method unit :=
  fun e => ((), mkEnv (set_error (errno e) (sock e)) (tape e) (errno e) (next_id_ e), []).
(** The object when the constructor has run; [udp] is what the member happens to
    hold, for a socket [s] it is the answer of [getsockopt]. *)
Definition PhysicalSocket_new (s : Z) (udp : bool) : PhysicalSocket :=
  mkPhysicalSocket s (if s =? INVALID_SOCKET then 0 else Z.lor DE_READ DE_WRITE) udp 0
    (if s =? INVALID_SOCKET then CS_CLOSED else CS_CONNECTED) None 0 false 0.

Definition PhysicalSocket_Close : method Z :=
  s ← get s_;
  if s =? INVALID_SOCKET then mret 0
  else
    r ← call (SysClose s);
    UpdateLastError;;
    modify (set_s INVALID_SOCKET);;
    modify (set_state CS_CLOSED);;
    modify (set_enabled 0);;
    resolver ← get resolver_;
    match resolver with
    | Some p => emit (ResolverDestroy p);; modify (set_resolver None)
    | None => mret ()
    end;;
    mret (ret r).
Definition Close : method Z :=
  s ← get s_;
  if s =? INVALID_SOCKET then mret 0
  else
    when (bool_decide (pf = WIN32)) (modify (set_id 0);; modify (fun p => set_signal_close false (signal_err_ p) p));;
    emit RemoveDispatcher;;
    PhysicalSocket_Close.

Definition PhysicalSocket_Create (family type : Z) : method bool :=
  Close;;
  r ← call (SysSocket family type);
  modify (set_s (ret r));;
  modify (set_udp (SOCK_DGRAM =? type));;
  UpdateLastError;;
  when (SOCK_DGRAM =? type) (modify (set_enabled (Z.lor DE_READ DE_WRITE)));;
  mret (negb (ret r =? INVALID_SOCKET)).
Definition Initialize : method bool :=
  s ← get s_;
  match pf with
  | LINUX => emit AddDispatcher;; call (SysNonBlocking s);; mret true
  | WIN32 => call (SysNonBlocking s);; emit AddDispatcher;; mret true
  end.
(** [do { id_ = ++next_id_; } while (id_ == 0)]. *)
Definition take_id : method unit := fun e =>
  let n := i32 (next_id_ e + 1) in
  let n := if n =? 0 then 1 else n in
  ((), mkEnv (set_id n (sock e)) (tape e) (errno e) n, []).
Definition Create (family type : Z) : method bool :=
  created ← PhysicalSocket_Create family type;
  if (created : bool) then
    Initialize;;
    when (bool_decide (pf = WIN32)) take_id;;
    mret true
  else mret false.
Definition Create_type (type : Z) : method bool := Create AF_INET type.

Definition GetAddress (peer : bool) : method SocketAddress :=
  s ← get s_;
  r ← call (SysGetName s peer);
  mret (if 0 <=? ret r then default Clear (SocketAddressFromSockAddrStorage (out r)) else Clear).
Definition GetLocalAddress : method SocketAddress := GetAddress false.
Definition GetRemoteAddress : method SocketAddress := GetAddress true.
Definition Bind (bind_addr : SocketAddress) : method Z :=
  s ← get s_;
  r ← call (SysBind s (ToSockAddrStorage bind_addr));
  UpdateLastError;;
  mret (ret r).

Definition DoConnect (connect_addr : SocketAddress) : method Z :=
  s ← get s_;
  created ← (if s =? INVALID_SOCKET then Create (family_ (ip_ connect_addr)) SOCK_STREAM else mret true);
  if negb created then mret SOCKET_ERROR
  else
    s ← get s_;
    r ← call (SysConnect s (ToSockAddrStorage connect_addr));
    UpdateLastError;;
    error ← get error_;
    if ret r =? 0 then
      modify (set_state CS_CONNECTED);; enable (Z.lor DE_READ DE_WRITE);; mret 0
    else if IsBlockingError error then
      modify (set_state CS_CONNECTING);; enable DE_CONNECT;; enable (Z.lor DE_READ DE_WRITE);; mret 0
    else mret SOCKET_ERROR.
(** [resolver] is the address of the new resolver. *)
Definition Connect (resolver : Z) (addr : SocketAddress) : method Z :=
  state ← get state_;
  if negb (bool_decide (state = CS_CLOSED)) then modify (set_error EALREADY);; mret SOCKET_ERROR
  else if IsUnresolvedIP addr then
    modify (set_resolver (Some resolver));;
    emit (ResolverStart resolver addr);;
    modify (set_state CS_CONNECTING);;
    mret 0
  else DoConnect addr.
(** The slot of the resolver's [SignalWorkDone]; [r] is the resolver. *)
Definition OnResolveResult (thread : Z) (r : AsyncResolver) : method unit :=
  resolver ← get resolver_;
  if negb (bool_decide (resolver = Some thread)) then mret ()
  else
    error ← (if SocketAddr.error_ r =? 0 then DoConnect (SocketAddr.addr_ r) else Close;; mret (SocketAddr.error_ r));
    when (negb (error =? 0)) (modify (set_error error);; emit (SignalCloseEvent error)).

Definition flags : Z := match pf with LINUX => MSG_NOSIGNAL | WIN32 => 0 end.
(** What [Send] and [SendTo] do with the result of the system. *)
Definition sent_result (r : sysret) : method Z :=
  UpdateLastError;;
  error ← get error_;
  when ((ret r <? 0) && IsBlockingError error) (enable DE_WRITE);;
  mret (ret r).
Definition Send (pv : list Z) : method Z :=
  s ← get s_;
  r ← call (SysSend s pv flags);
  sent_result r.
Definition SendTo (buffer : list Z) (addr : SocketAddress) : method Z :=
  s ← get s_;
  r ← call (SysSendTo s buffer flags (ToSockAddrStorage addr));
  sent_result r.
(** What [Recv] and [RecvFrom] do with it; a result carries the bytes received. *)
Definition received_result (r : sysret) : method (Z * list Z) :=
  UpdateLastError;;
  error ← get error_;
  udp ← get udp_;
  when (udp || (0 <=? ret r) || IsBlockingError error) (enable DE_READ);;
  mret (ret r, out r).
Definition Recv (length : Z) : method (Z * list Z) :=
  s ← get s_;
  r ← call (SysRecv s length 0);
  if (ret r =? 0) && negb (length =? 0) then
    enable DE_READ;;
    modify (set_error EWOULDBLOCK);;
    mret (SOCKET_ERROR, [])
  else received_result r.
(** [out] is the address the system stored, and then the data. *)
Definition RecvFrom (length : Z) : method (Z * list Z * option SocketAddress) :=
  s ← get s_;
  r ← call (SysRecvFrom s length);
  '(n, l) ← received_result r;
  mret (n, drop sizeof_sockaddr_storage l,
    if 0 <=? n then SocketAddressFromSockAddrStorage (take sizeof_sockaddr_storage l) else None).

Definition Listen (backlog : Z) : method Z :=
  s ← get s_;
  r ← call (SysListen s backlog);
  UpdateLastError;;
  when (ret r =? 0) (modify (set_state CS_CONNECTING);; enable DE_ACCEPT);;
  mret (ret r).
(** The socket accepted, which the server wraps, and its address. *)
Definition Accept : method (option (Z * option SocketAddress)) :=
  s ← get s_;
  r ← call (SysAccept s);
  UpdateLastError;;
  if ret r =? INVALID_SOCKET then mret None
  else
    enable DE_ACCEPT;;
    emit (WrapAccepted (ret r));;
    mret (Some (ret r, SocketAddressFromSockAddrStorage (out r))).

Definition TranslateOption (opt : Option) : option (level * sockopt) :=
  match opt with
  | OPT_DONTFRAGMENT => Some (IPPROTO_IP, match pf with WIN32 => IP_DONTFRAGMENT | LINUX => IP_MTU_DISCOVER end)
  | OPT_RCVBUF => Some (SOL_SOCKET, SO_RCVBUF)
  | OPT_SNDBUF => Some (SOL_SOCKET, SO_SNDBUF)
  | OPT_NODELAY => Some (IPPROTO_TCP, TCP_NODELAY)
  | OPT_IPV6_V6ONLY => None
  end.
Definition int_out (r : sysret) : Z := match out r with v :: _ => v | [] => 0 end.
(** The result with what is in [*value] afterwards. *)
Definition GetOption (opt : Option) (value : Z) : method (Z * Z) :=
  match TranslateOption opt with
  | None => mret (-1, value)
  | Some (l, o) =>
    s ← get s_;
    r ← call (SysGetOption s l o);
    let value := if ret r =? -1 then value else int_out r in
    mret (ret r,
      if negb (ret r =? -1) && bool_decide (opt = OPT_DONTFRAGMENT) && bool_decide (pf = LINUX)
      then if negb (value =? IP_PMTUDISC_DONT) then 1 else 0 else value)
  end.
Definition SetOption (opt : Option) (value : Z) : method Z :=
  match TranslateOption opt with
  | None => mret (-1)
  | Some (l, o) =>
    let value :=
      if bool_decide (opt = OPT_DONTFRAGMENT) && bool_decide (pf = LINUX)
      then if negb (value =? 0) then IP_PMTUDISC_DO else IP_PMTUDISC_DONT else value in
    s ← get s_;
    r ← call (SysSetOption s l o value);
    mret (ret r)
  end.

(** [WinPing]: a ping of the address with so many bytes; [None] is a ping object
    that is not valid. *)
Inductive PingResult := PING_FAIL | PING_INVALID_PARAMS | PING_TOO_LARGE | PING_TIMEOUT | PING_SUCCESS.
Definition PACKET_MAXIMUMS : list Z := [65535; 32000; 17914; 8166; 4352; 2002; 1492; 1006; 508; 296; 68; 0].
Definition IP_HEADER_SIZE : Z := 20.
Definition IPV6_HEADER_SIZE : Z := 40.
Definition ICMP_HEADER_SIZE : Z := 8.
(** The loop over the levels: the size a packet gets through with, or the failure. *)
Fixpoint probe (ping : Z -> PingResult) (header_size : Z) (levels : list Z) : option (option Z) :=
  match levels with
  | level :: ((next :: _) as rest) =>
    if 0 <? next then
      match ping (level - header_size) with
      | PING_FAIL => None
      | PING_TOO_LARGE => probe ping header_size rest
      | _ => Some (Some level)
      end
    else Some None
  | _ => Some None
  end.
Definition EstimateMTU (pinger : option (IPAddress -> Z -> PingResult)) (mtu : Z) : method (Z * Z) :=
  addr ← GetRemoteAddress;
  if IsAnyIP addr then modify (set_error ENOTCONN);; mret (-1, mtu)
  else
    match pf with
    | WIN32 =>
      match pinger with
      | None => modify (set_error EINVAL);; mret (-1, mtu)
      | Some ping =>
        let header_size := ICMP_HEADER_SIZE
          + (if family_ (ip_ addr) =? AF_INET6 then IPV6_HEADER_SIZE
             else if family_ (ip_ addr) =? AF_INET then IP_HEADER_SIZE else 0) in
        match probe (ping (ip_ addr)) header_size PACKET_MAXIMUMS with
        | None => modify (set_error EINVAL);; mret (-1, mtu)
        | Some None => mret (-1, mtu)
        | Some (Some level) => mret (0, level)
        end
      end
    | LINUX =>
      s ← get s_;
      r ← call (SysGetOption s IPPROTO_IP IP_MTU);
      if ret r <? 0 then UpdateLastError;; mret (ret r, mtu) else mret (0, u16 (int_out r))
    end.

(** ** What the server asks of a dispatcher *)

(** Linux: [recv] with [MSG_PEEK] tells a closed descriptor from a readable one. *)
Definition IsDescriptorClosed : method bool := fun e =>
  let '(r, e, l) := call (SysRecv (s_ (sock e)) 1 MSG_PEEK) e in
  (if 0 <? ret r then false
   else if ret r =? 0 then true
   else (errno e =? EBADF) || (errno e =? ECONNRESET), e, l).
Definition GetRequestedEvents : method Z := get enabled_events_.
Definition OnPreEvent (ff : Z) : method unit :=
  when (has ff DE_CONNECT) (modify (set_state CS_CONNECTED));;
  match pf with
  | LINUX => when (has ff DE_CLOSE) (modify (set_state CS_CLOSED))
  | WIN32 => mret ()
  end.
(** The parts of [OnEvent]; between them the listeners run. *)
Definition on_connect : method unit := disable DE_CONNECT;; emit SignalConnectEvent.
Definition on_accept : method unit := disable DE_ACCEPT;; emit SignalReadEvent.
Definition on_read : method unit := disable DE_READ;; emit SignalReadEvent.
Definition on_write : method unit := disable DE_WRITE;; emit SignalWriteEvent.
Definition on_close (err : Z) : method unit :=
  match pf with
  | LINUX => modify (set_enabled 0);; emit (SignalCloseEvent err)
  | WIN32 => modify (set_signal_close true err)
  end.
(** Windows: the close that was noted is signalled when nothing is left to read. *)
Definition CheckSignalClose : method bool :=
  noted ← get signal_close_;
  if negb noted then mret false
  else
    s ← get s_;
    r ← call (SysRecv s 1 MSG_PEEK);
    if 0 <? ret r then mret false
    else
      modify (set_state CS_CLOSED);;
      modify (fun p => set_signal_close false (signal_err_ p) p);;
      code ← get signal_err_;
      emit (SignalCloseEvent code);;
      mret true.
Definition FD_READ : Z := 1.
Definition FD_WRITE : Z := 2.
Definition FD_ACCEPT : Z := 8.
Definition FD_CONNECT : Z := 16.
Definition FD_CLOSE : Z := 32.
Definition FlagsToEvents (events : Z) : Z :=
  let ffFD := FD_CLOSE in
  let ffFD := if has events DE_READ then Z.lor ffFD FD_READ else ffFD in
  let ffFD := if has events DE_WRITE then Z.lor ffFD FD_WRITE else ffFD in
  let ffFD := if has events DE_CONNECT then Z.lor ffFD FD_CONNECT else ffFD in
  if has events DE_ACCEPT then Z.lor ffFD FD_ACCEPT else ffFD.
End physical_socket.

(** ** A socket and its place among the dispatchers

    [reg] says whether the socket is in the list of dispatchers; removing one that
    is not is undefined. *)
Definition reg_step (reg : bool) (x : effect) : option bool :=
  match x with
  | AddDispatcher => Some true
  | RemoveDispatcher => if reg then Some false else None
  | _ => Some reg
  end.
Fixpoint reg_run (reg : bool) (l : list effect) : option bool :=
  match l with [] => Some reg | x :: l => reg ← reg_step reg x; reg_run reg l end.
Definition spec {A} (P : bool -> PhysicalSocket -> Prop) (m : method A) (Q : A -> bool -> PhysicalSocket -> Prop) : Prop :=
  forall e reg, P reg (sock e) ->
  exists reg', reg_run reg (m e).2 = Some reg' /\ Q (m e).1.1 reg' (sock (m e).1.2).

Lemma reg_run_app l l' : forall reg, reg_run reg (l ++ l') = reg' ← reg_run reg l; reg_run reg' l'.
Proof.
  induction l as [|x l IH]; intros reg; [done|]. cbn [app reg_run]. destruct (reg_step reg x); [apply IH|done].
Qed.
Section triples.
Context {A B : Type}.
Implicit Types (P : bool -> PhysicalSocket -> Prop) (m : method A).
Lemma spec_bind P m (f : A -> method B) Q R :
  spec P m Q -> (forall a, spec (Q a) (f a) R) -> spec P (m ≫= f) R.
Proof.
  intros Hm Hf e reg HP. destruct (Hm e reg HP) as (reg1 & E1 & HQ).
  unfold mbind, method_bind. destruct (m e) as [[a e1] l1]. cbn [fst snd] in *.
  destruct (Hf a e1 reg1 HQ) as (reg2 & E2 & HR). destruct (f a e1) as [[b e2] l2]. cbn [fst snd] in *.
  exists reg2. split; [|done]. rewrite reg_run_app, E1. done.
Qed.
Lemma spec_ret P (a : A) (Q : A -> bool -> PhysicalSocket -> Prop) : (forall reg p, P reg p -> Q a reg p) -> spec P (mret a) Q.
Proof. intros H e reg HP. exists reg. split; [done|]. by apply H. Qed.
Lemma spec_get P (g : PhysicalSocket -> A) : spec P (get g) (fun a reg p => P reg p /\ a = g p).
Proof. intros e reg HP. by exists reg. Qed.
Lemma spec_weaken P P' m (Q Q' : A -> bool -> PhysicalSocket -> Prop) :
  (forall reg p, P reg p -> P' reg p) -> spec P' m Q' -> (forall a reg p, Q' a reg p -> Q a reg p) -> spec P m Q.
Proof. intros HP Hm HQ e reg H. destruct (Hm e reg (HP _ _ H)) as (reg' & E & HQ'). exists reg'. split; [done|]. by apply HQ. Qed.
Lemma spec_pre P P' m (Q : A -> bool -> PhysicalSocket -> Prop) :
  (forall reg p, P reg p -> P' reg p) -> spec P' m Q -> spec P m Q.
Proof. intros HP Hm. by eapply spec_weaken. Qed.
Lemma spec_post P m (Q Q' : A -> bool -> PhysicalSocket -> Prop) :
  (forall a reg p, Q' a reg p -> Q a reg p) -> spec P m Q' -> spec P m Q.
Proof. intros HQ Hm. by eapply spec_weaken. Qed.
End triples.
Lemma spec_modify P f Q : (forall reg p, P reg p -> Q reg (f p)) -> spec P (modify f) (fun _ => Q).
Proof. intros H e reg HP. exists reg. split; [done|]. by apply H. Qed.
Lemma spec_emit P x Q : (forall reg p, P reg p -> exists reg', reg_step reg x = Some reg' /\ Q reg' p) -> spec P (emit x) (fun _ => Q).
Proof. intros H e reg HP. destruct (H _ _ HP) as (reg' & E & HQ). exists reg'. split; [|done]. cbn. by rewrite E. Qed.
Lemma spec_call P x : (forall reg, reg_step reg x = Some reg) -> spec P (call x) (fun _ => P).
Proof.
  intros H e reg HP. exists reg. unfold call. destruct (tape e) as [|r t]; cbn; by rewrite H.
Qed.
Lemma spec_when P b m Q : spec P m (fun _ => Q) -> (b = false -> forall reg p, P reg p -> Q reg p) -> spec P (when b m) (fun _ => Q).
Proof. intros Hm Hf. destruct b; [done|]. apply spec_ret. by apply Hf. Qed.

(** What holds of the list and [s_] and stays so; being in the list exactly while
    open is one such thing. *)
Definition on_s (P : bool -> Z -> Prop) (reg : bool) (p : PhysicalSocket) : Prop := P reg (s_ p).
Definition stays {A} (P : bool -> Z -> Prop) (m : method A) : Prop := spec (on_s P) m (fun _ => on_s P).
Definition consistent (reg : bool) (s : Z) : Prop := reg = negb (s =? INVALID_SOCKET).
Definition keeps {A} (m : method A) : Prop := stays consistent m.

Section stays.
Context (P : bool -> Z -> Prop).
Lemma stays_bind {A B} (m : method A) (f : A -> method B) : stays P m -> (forall a, stays P (f a)) -> stays P (m ≫= f).
Proof. intros Hm Hf. by eapply spec_bind. Qed.
Lemma stays_ret {A} (a : A) : stays P (mret a).
Proof. by apply spec_ret. Qed.
Lemma stays_get {A} (g : PhysicalSocket -> A) : stays P (get g).
Proof. eapply spec_weaken; [done|apply spec_get|]. by intros a reg p [? _]. Qed.
Lemma stays_modify f : (forall p, s_ (f p) = s_ p) -> stays P (modify f).
Proof. intros H. apply spec_modify. intros reg p. unfold on_s. by rewrite H. Qed.
Lemma stays_emit x : (forall reg, reg_step reg x = Some reg) -> stays P (emit x).
Proof. intros H. apply spec_emit. intros reg p ?. exists reg. by rewrite H. Qed.
Lemma stays_call x : (forall reg, reg_step reg x = Some reg) -> stays P (call x).
Proof. apply spec_call. Qed.
Lemma stays_when b m : stays P m -> stays P (when b m).
Proof. intros H. by apply spec_when. Qed.
Lemma stays_UpdateLastError : stays P UpdateLastError.
Proof. intros e reg H. by exists reg. Qed.
End stays.
Create HintDb keeps.
#[export] Hint Resolve stays_ret stays_get stays_UpdateLastError : keeps.
(** Goes through a method that leaves [s_] and the list alone. *)
Ltac keep :=
  unfold keeps;
  repeat match goal with
  | |- stays _ (_ ≫= _) => apply stays_bind; [|intros ?]
  | |- stays _ (when _ _) => apply stays_when
  | |- stays _ (if ?b then _ else _) => destruct b
  | |- stays _ (match ?x with _ => _ end) => destruct x
  | |- stays _ (modify _) => apply stays_modify; intros ?; reflexivity
  | |- stays _ (emit _) => apply stays_emit; intros ?; reflexivity
  | |- stays _ (call _) => apply stays_call; intros ?; reflexivity
  | |- stays _ _ => solve [auto with keeps nocore]
  | |- stays _ (enable _) => unfold enable
  | |- stays _ (disable _) => unfold disable
  end.

Ltac as_stays P := match goal with |- spec _ ?m _ => change (stays P m) end.
Section keeps.
Context {HO : Host} {EN : Errno} (pf : platform).
Definition gone : bool -> Z -> Prop := fun reg s => reg = false /\ s = INVALID_SOCKET.

Lemma spec_PhysicalSocket_Close : spec (on_s (fun reg _ => reg = false)) PhysicalSocket_Close (fun _ => on_s gone).
Proof.
  unfold PhysicalSocket_Close. eapply spec_bind; [apply spec_get|]. intros s. destruct (Z.eqb_spec s INVALID_SOCKET) as [->|_].
  - apply spec_ret. intros reg p [? ?]. by split.
  - apply (spec_pre _ (on_s (fun reg _ => reg = false))); [by intros reg p [? _]|].
    eapply spec_bind; [by apply spec_call|]. intros r.
    eapply spec_bind; [apply stays_UpdateLastError|]. intros [].
    eapply spec_bind; [apply spec_modify with (Q := on_s gone); by intros reg p ?|]. intros [].
    as_stays gone. keep.
Qed.
Lemma spec_Close : spec (on_s consistent) (Close pf) (fun _ => on_s gone).
Proof.
  unfold Close. eapply spec_bind; [apply spec_get|]. intros s. destruct (Z.eqb_spec s INVALID_SOCKET) as [->|Hs].
  - apply spec_ret. intros reg p [Hc E]. unfold on_s, consistent in Hc. split; [|done]. by rewrite <- E in Hc.
  - set (open := fun (reg : bool) (_ : Z) => reg = true).
    apply (spec_pre _ (on_s open)); [|clear Hs].
    { intros reg p [Hc E]. unfold on_s, consistent in Hc. by rewrite <- E, (proj2 (Z.eqb_neq _ _)) in Hc. }
    eapply spec_bind; [apply (stays_when open); keep|]. intros [].
    eapply spec_bind; [apply spec_emit with (Q := on_s (fun reg _ => reg = false))|intros []; apply spec_PhysicalSocket_Close].
    intros reg p ->. by exists false.
Qed.
Lemma keeps_Close : keeps (Close pf).
Proof. eapply spec_post; [|apply spec_Close]. intros a reg p [-> E]. unfold on_s, consistent. by rewrite E. Qed.
Lemma spec_PhysicalSocket_Create family type : spec (on_s consistent) (PhysicalSocket_Create pf family type)
  (fun created => on_s (fun reg s => reg = false /\ created = negb (s =? INVALID_SOCKET))).
Proof.
  unfold PhysicalSocket_Create. eapply spec_bind; [apply spec_Close|]. intros ret0.
  apply (spec_pre _ (on_s (fun reg _ => reg = false))); [by intros reg p [? _]|].
  eapply spec_bind; [by apply spec_call|]. intros r.
  set (Q := fun (reg : bool) (s : Z) => reg = false /\ s = ret r).
  eapply spec_bind; [apply spec_modify with (Q := on_s Q); by intros reg p ?|]. intros [].
  eapply spec_post with (Q' := fun created => on_s (fun reg s => Q reg s /\ created = negb (ret r =? INVALID_SOCKET))).
  2: { eapply spec_bind; [apply (stays_modify Q); done|]. intros [].
    eapply spec_bind; [apply (stays_UpdateLastError Q)|]. intros [].
    eapply spec_bind; [apply (stays_when Q); keep|]. intros []. by apply spec_ret. }
  intros created reg p [[-> E] ->]. unfold on_s. by rewrite E.
Qed.
Lemma spec_Initialize : spec (on_s (fun _ s => s <> INVALID_SOCKET)) (Initialize pf)
  (fun _ => on_s (fun reg s => consistent reg s /\ s <> INVALID_SOCKET)).
Proof.
  intros [p t n i] reg Hs. unfold on_s in Hs. cbn [sock] in Hs. unfold Initialize, emit, call, get, mbind, method_bind, mret, method_ret.
  destruct pf, t; cbn; exists true; (split; [done|]); unfold on_s, consistent; cbn [sock]; (split; [|done]); by rewrite (proj2 (Z.eqb_neq _ _)).
Qed.
Lemma spec_Create family type : spec (on_s consistent) (Create pf family type)
  (fun created reg p => on_s consistent reg p /\ negb (s_ p =? INVALID_SOCKET) = created).
Proof.
  unfold Create. eapply spec_bind; [apply spec_PhysicalSocket_Create|]. intros [].
  - eapply spec_bind; [eapply spec_pre; [|apply spec_Initialize]|intros b].
    + intros reg p [_ E]. unfold on_s. by destruct (Z.eqb_spec (s_ p) INVALID_SOCKET).
    + set (open := fun reg s => consistent reg s /\ s <> INVALID_SOCKET).
      eapply spec_post with (Q' := fun created reg p => on_s open reg p /\ created = true).
      { intros created reg p [[Hc Hs] ->]. split; [done|]. by rewrite (proj2 (Z.eqb_neq _ _)). }
      eapply spec_bind; [apply (stays_when open); intros e reg H; by exists reg|]. intros []. by apply spec_ret.
  - apply spec_ret. intros reg p [-> E]. unfold on_s, consistent. by rewrite <- E.
Qed.
Lemma keeps_Create family type : keeps (Create pf family type).
Proof. eapply spec_post; [|apply spec_Create]. by intros created reg p [? _]. Qed.

Lemma keeps_DoConnect addr : keeps (DoConnect pf addr).
Proof. unfold DoConnect. keep. apply keeps_Create. Qed.
Lemma keeps_Connect resolver addr : keeps (Connect pf resolver addr).
Proof. unfold Connect. keep. apply keeps_DoConnect. Qed.
Lemma keeps_OnResolveResult thread r : keeps (OnResolveResult pf thread r).
Proof. unfold OnResolveResult. keep; [apply keeps_DoConnect|apply keeps_Close]. Qed.
Lemma keeps_Send data : keeps (Send pf data).
Proof. unfold Send, sent_result. keep. Qed.
Lemma keeps_SendTo data addr : keeps (SendTo pf data addr).
Proof. unfold SendTo, sent_result. keep. Qed.
Lemma keeps_Recv length : keeps (Recv length).
Proof. unfold Recv, received_result. keep. Qed.
Lemma keeps_RecvFrom length : keeps (RecvFrom length).
Proof. unfold RecvFrom, received_result. keep. Qed.
Lemma keeps_GetAddress peer : keeps (GetAddress peer).
Proof. unfold GetAddress. keep. Qed.
Lemma keeps_Bind addr : keeps (Bind addr).
Proof. unfold Bind. keep. Qed.
Lemma keeps_Listen backlog : keeps (Listen backlog).
Proof. unfold Listen. keep. Qed.
Lemma keeps_Accept : keeps Accept.
Proof. unfold Accept. keep. Qed.
Lemma keeps_GetOption opt value : keeps (GetOption pf opt value).
Proof. unfold GetOption. keep. Qed.
Lemma keeps_SetOption opt value : keeps (SetOption pf opt value).
Proof. unfold SetOption. keep. Qed.
Lemma keeps_EstimateMTU ping mtu : keeps (EstimateMTU pf ping mtu).
Proof. unfold EstimateMTU, GetRemoteAddress, GetAddress. keep. Qed.
Lemma keeps_OnPreEvent ff : keeps (OnPreEvent pf ff).
Proof. unfold OnPreEvent. keep. Qed.
Lemma keeps_on_event err : keeps on_connect /\ keeps on_accept /\ keeps on_read /\ keeps on_write /\ keeps (on_close pf err).
Proof. unfold on_connect, on_accept, on_read, on_write, on_close. split_and!; keep. Qed.
Lemma keeps_CheckSignalClose : keeps CheckSignalClose.
Proof. unfold CheckSignalClose. keep. Qed.
Lemma keeps_IsDescriptorClosed : keeps IsDescriptorClosed.
Proof. intros [p [|r t] n i] reg H; by exists reg. Qed.
End keeps.

(** ** Sockets that are not polled

    A [PhysicalSocket] on its own, as [CreateSocket] makes it, has the methods above but for [Create] and [Close]. *)
Definition unpolled_Create (family type : Z) : method bool :=
  PhysicalSocket_Close;;
  r ← call (SysSocket family type);
  modify (set_s (ret r));;
  modify (set_udp (SOCK_DGRAM =? type));;
  UpdateLastError;;
  when (SOCK_DGRAM =? type) (modify (set_enabled (Z.lor DE_READ DE_WRITE)));;
  mret (negb (ret r =? INVALID_SOCKET)).
(** On the new object; [false]: it was deleted. *)
Definition CreateSocket (family type : Z) : method bool :=
  created ← unpolled_Create family type;
  if created : bool then mret true else (PhysicalSocket_Close;; mret false).
Definition CreateSocket_type (type : Z) : method bool := CreateSocket AF_INET type.
Lemma CreateSocket_done family type udp t n i r : ret r <> INVALID_SOCKET ->
  CreateSocket family type (mkEnv (PhysicalSocket_new INVALID_SOCKET udp) (r :: t) n i) =
  (true, mkEnv (mkPhysicalSocket (ret r) (if SOCK_DGRAM =? type then 3 else 0) (SOCK_DGRAM =? type) (err r) CS_CLOSED None 0 false 0) t (err r) i, [SysSocket family type]).
Proof.
  intros Hr. unfold CreateSocket, unpolled_Create, PhysicalSocket_Close, PhysicalSocket_new, call, get, modify, UpdateLastError, when, mbind, method_bind, mret, method_ret.
  destruct (SOCK_DGRAM =? type); cbn; rewrite (proj2 (Z.eqb_neq _ _) Hr); done.
Qed.
(** When the system gives no socket nothing is left open; the error is the system's. *)
Lemma CreateSocket_refused family type udp t n i r : ret r = INVALID_SOCKET ->
  exists e, CreateSocket family type (mkEnv (PhysicalSocket_new INVALID_SOCKET udp) (r :: t) n i) = (false, e, [SysSocket family type]) /\ errno e = err r.
Proof.
  intros Hr. unfold CreateSocket, unpolled_Create, PhysicalSocket_Close, PhysicalSocket_new, call, get, modify, UpdateLastError, when, mbind, method_bind, mret, method_ret.
  destruct (SOCK_DGRAM =? type); cbn; rewrite Hr; by eexists.
Qed.

(** ** A socket that is closed while its address is resolved

    When the socket was closed before, [Close] does nothing at all: the resolver goes on,
    and its result opens and connects the socket that the owner closed. *)
Section closed_while_resolving.
#[local] Existing Instance little_endian.
#[local] Existing Instance errno_linux.
Example close_does_not_stop_resolving :
  let name := SocketAddress_name (Text.bytes "camera.local"%string) 8131 in
  match name with
  | Done addr =>
    let resolved := mkAsyncResolver (SetIP addr (IPAddress_v4 [10; 0; 0; 1])) [] 0 in
    let '(_, e, l) := (Connect LINUX 5 addr;; Close LINUX;; OnResolveResult LINUX 5 resolved)
      (mkEnv (PhysicalSocket_new INVALID_SOCKET false) [mkRet 7 0 []; mkRet 0 0 []; mkRet 0 0 []] 0 0) in
    s_ (sock e) = 7 /\ state_ (sock e) = CS_CONNECTED /\ nth_error l 0 = Some (ResolverStart 5 addr) /\
    nth_error l 1 = Some (SysSocket AF_INET SOCK_STREAM) /\ length l = 5%nat
  | _ => False
  end.
Proof. by vm_compute. Qed.
(** A connect that fails after the address was resolved is reported as error -1,
    whatever the error of the system. *)
Example resolved_connect_error :
  let '(_, e, l) := OnResolveResult LINUX 5 (mkAsyncResolver (SocketAddress_ip (IPAddress_v4 [10; 0; 0; 1]) 8131) [] 0)
    (mkEnv (set_resolver (Some 5) (PhysicalSocket_new 7 false)) [mkRet (-1) 111 []] 0 0) in
  error_ (sock e) = -1 /\ nth_error l 1 = Some (SignalCloseEvent (-1)).
Proof. by vm_compute. Qed.
End closed_while_resolving.
