(* ===== verification/SocketServer.v ===== *)
(** * event/physicalsocketserver.cpp: the server that polls the sockets

    [PhysicalSocketServer] keeps the dispatchers, of which the first, number 0, is
    its own [Signaler]; the others are sockets and files.  [Wait] asks the system
    which of them are ready and runs their events: with [select] on Linux, with one
    event for all sockets on Windows, where every running loop has its index on
    [iterators_] so that [Remove] can correct it.  What the owner of a dispatcher
    does when it is signalled is the parameter [listener].  What the system
    answers is an argument, call by call on the tape of the sockets and round by
    round for [Wait]; rounds that run out are a [Wait] that still waits.  [Remove] of a
    dispatcher that is not in the list erases [end()], which is undefined. *)
From stdpp Require Import gmap.
From S2P Require Import Prelude ByteOrder SocketAddr.
From S2P Require Import Session PhysicalSocket.

(** A file descriptor and [flags_], what it is polled for. *)
Inductive Dispatcher := SocketDispatcher (p : PhysicalSocket) | FileDispatcher (fd flags : Z).
(** What happened, in order: what a dispatcher did, and what the server did to it. *)
Inductive happening :=
  | Did (d : nat) (x : effect) | Added (d : nat) | Removed (d : nat)
  | Polled (d : nat) | EventSelect (s events : Z) | Waits (cms : Z)
  | Selects (fds : Z) (reads writes : gset Z) (timeout : option (Z * Z)).

(** [fSignaled_] of the signaler; its byte is in the pipe, or its event set, exactly
    when it is true.  An element of [iterators_] is the variable pointed to. *)
Record Server := mkServer {
  objects : gmap nat Dispatcher; dispatchers_ : list nat; iterators_ : list nat; fWait_ : bool; fSignaled_ : bool;
  tape_ : list sysret; errno_ : Z; next : Z; history : list happening }.
Definition signal_wakeup_ : nat := 0.

Definition set_objects (x : gmap nat Dispatcher) (w : Server) : Server :=
  mkServer x (dispatchers_ w) (iterators_ w) (fWait_ w) (fSignaled_ w) (tape_ w) (errno_ w) (next w) (history w).
Definition set_lists (l i : list nat) (w : Server) : Server :=
  mkServer (objects w) l i (fWait_ w) (fSignaled_ w) (tape_ w) (errno_ w) (next w) (history w).
Definition set_iterators (i : list nat) (w : Server) : Server := set_lists (dispatchers_ w) i w.
Definition set_wait (x : bool) (w : Server) : Server :=
  mkServer (objects w) (dispatchers_ w) (iterators_ w) x (fSignaled_ w) (tape_ w) (errno_ w) (next w) (history w).
Definition set_signaled (x : bool) (w : Server) : Server :=
  mkServer (objects w) (dispatchers_ w) (iterators_ w) (fWait_ w) x (tape_ w) (errno_ w) (next w) (history w).
Definition happens (x : happening) (w : Server) : Server :=
  mkServer (objects w) (dispatchers_ w) (iterators_ w) (fWait_ w) (fSignaled_ w) (tape_ w) (errno_ w) (next w) (history w ++ [x]).

Definition Add (d : nat) (w : Server) : Server :=
  if decide (d ∈ dispatchers_ w) then w
  else happens (Added d) (set_lists (dispatchers_ w ++ [d]) (iterators_ w) w).
Fixpoint index_of (d : nat) (l : list nat) : option nat :=
  match l with
  | [] => None
  | x :: l => if decide (x = d) then Some 0%nat else S <$> index_of d l
  end.
Definition corrected (index : nat) (it : nat) : nat := if (index <? it)%nat then pred it else it.
Definition Remove (d : nat) (w : Server) : outcome Server :=
  match index_of d (dispatchers_ w) with
  | None => Undefined
  | Some index =>
    Done (happens (Removed d)
      (set_lists (delete index (dispatchers_ w)) (map (corrected index) (iterators_ w)) w))
  end.
(** [Signal] of the signaler. *)
Definition WakeUp (w : Server) : Server := set_signaled true w.

Section server.
Context {HO : Host} {EN : Errno} (pf : platform).
(** The owner of [d], called with the signal. *)
Context (listener : nat -> effect -> Server -> outcome Server).

(** What a method of the dispatcher [d] did, carried out. *)
Definition perform (d : nat) (x : effect) (w : Server) : outcome Server :=
  match x with
  | AddDispatcher => Done (Add d w)
  | RemoveDispatcher => Remove d w
  | SignalConnectEvent | SignalReadEvent | SignalWriteEvent | SignalCloseEvent _ => listener d x (happens (Did d x) w)
  | _ => Done (happens (Did d x) w)
  end.
Fixpoint perform_all (d : nat) (l : list effect) (w : Server) : outcome Server :=
  match l with [] => Done w | x :: l => w ← perform d x w; perform_all d l w end.
Definition store (d : nat) (e : Env) (w : Server) : Server :=
  mkServer (<[d := SocketDispatcher (sock e)]> (objects w)) (dispatchers_ w) (iterators_ w)
    (fWait_ w) (fSignaled_ w) (tape e) (errno e) (next_id_ e) (history w).
(** Runs a method on the socket [d]; a file or an object that is gone has none. *)
Definition run {A} (d : nat) (m : method A) (w : Server) : outcome (A * Server) :=
  match objects w !! d with
  | Some (SocketDispatcher p) =>
    let '(a, e, l) := m (mkEnv p (tape_ w) (errno_ w) (next w)) in
    w ← perform_all d l (store d e w); Done (a, w)
  | _ => Undefined
  end.
(** A call of the system that belongs to no socket. *)
Definition syscall (d : nat) (x : effect) (w : Server) : sysret * Server :=
  match tape_ w with
  | r :: t => (r, happens (Did d x) (mkServer (objects w) (dispatchers_ w) (iterators_ w) (fWait_ w) (fSignaled_ w) t (err r) (next w) (history w)))
  | [] => (mkRet (-1) (errno_ w) [], happens (Did d x) w)
  end.

(** ** Creating sockets; [d] is the address of the new object *)
Definition CreateAsyncSocket (d : nat) (udp : bool) (family type : Z) (w : Server) : outcome (option nat * Server) :=
  let w := set_objects (<[d := SocketDispatcher (PhysicalSocket_new INVALID_SOCKET udp)]> (objects w)) w in
  '(created, w) ← run d (Create pf family type) w;
  if created : bool then Done (Some d, w) else Done (None, set_objects (delete d (objects w)) w).
Definition WrapSocket (d : nat) (s : Z) (udp : bool) (w : Server) : outcome (option nat * Server) :=
  let w := set_objects (<[d := SocketDispatcher (PhysicalSocket_new s udp)]> (objects w)) w in
  '(_, w) ← run d (Initialize pf) w;
  Done (Some d, w).
(** [~SocketDispatcher]. *)
Definition delete_socket (d : nat) (w : Server) : outcome Server :=
  '(_, w) ← run d (Close pf) w;
  Done (set_objects (delete d (objects w)) w).
(** [set_readable(true)] in the constructor works on what [flags_] happens to hold. *)
Definition CreateFile (d : nat) (fd flags : Z) (w : Server) : Server :=
  happens (Did d (SysNonBlocking fd)) (Add d (set_objects (<[d := FileDispatcher fd (Z.lor flags DE_READ)]> (objects w)) w)).
Definition delete_file (d : nat) (w : Server) : outcome Server :=
  w ← Remove d w; Done (set_objects (delete d (objects w)) w).
Definition set_flag (d : nat) (event : Z) (value : bool) (w : Server) : outcome Server :=
  match objects w !! d with
  | Some (FileDispatcher fd flags) =>
    Done (set_objects (<[d := FileDispatcher fd (if value then Z.lor flags event else Z.ldiff flags event)]> (objects w)) w)
  | _ => Undefined
  end.
Definition set_readable (d : nat) (value : bool) := set_flag d DE_READ value.
Definition set_writable (d : nat) (value : bool) := set_flag d DE_WRITE value.

(** ** The events of a dispatcher *)
Definition requested (d : nat) (w : Server) : Z :=
  if decide (d = signal_wakeup_) then match pf with LINUX => DE_READ | WIN32 => 0 end
  else match objects w !! d with
       | Some (SocketDispatcher p) => enabled_events_ p | Some (FileDispatcher _ flags) => flags | None => 0 end.
Definition pre_event (d : nat) (ff : Z) (w : Server) : outcome Server :=
  if decide (d = signal_wakeup_) then Done (set_signaled false w)
  else match objects w !! d with
       | Some (SocketDispatcher _) => '(_, w) ← run d (OnPreEvent pf ff) w; Done w
       | Some (FileDispatcher _ _) => Done w
       | None => Undefined
       end.
Definition file_event (d : nat) (b : bool) (x : effect) (w : Server) : outcome Server :=
  if b then listener d x (happens (Did d x) w) else Done w.
Definition id_of (d : nat) (w : Server) : Z :=
  match objects w !! d with Some (SocketDispatcher p) => id_ p | _ => 0 end.
(** A part of [OnEvent] of a socket; on Windows, but for [DE_READ], it is left out when
    the object has become another socket. *)
Definition part {A} (d : nat) (b : bool) (same : Server -> bool) (m : method A) (w : Server) : outcome Server :=
  if b && same w then '(_, w) ← run d m w; Done w else Done w.
Definition on_event (d : nat) (ff err : Z) (w : Server) : outcome Server :=
  if decide (d = signal_wakeup_) then Done (set_wait false w)
  else
    match objects w !! d with
    | Some (SocketDispatcher p) =>
      let same := fun w => match pf with LINUX => true | WIN32 => id_of d w =? id_ p end in
      w ← part d (has ff DE_CONNECT) same on_connect w;
      w ← part d (has ff DE_ACCEPT) same on_accept w;
      w ← part d (has ff DE_READ) (fun _ => true) on_read w;
      w ← part d (has ff DE_WRITE) same on_write w;
      part d (has ff DE_CLOSE) same (on_close pf err) w
    | Some (FileDispatcher _ _) =>
      w ← file_event d (has ff DE_READ) SignalReadEvent w;
      w ← file_event d (has ff DE_WRITE) SignalWriteEvent w;
      file_event d (has ff DE_CLOSE) (SignalCloseEvent err) w
    | None => Undefined
    end.
Definition deliver (d : nat) (ff err : Z) (w : Server) : outcome Server :=
  if ff =? 0 then Done w else w ← pre_event d ff w; on_event d ff err w.

End server.

(** ** Linux: [select]

    [wakeup_fd] is the read end of the signaler's pipe. *)
Section wait.
Context {HO : Host} {EN : Errno} (listener : nat -> effect -> Server -> outcome Server) (wakeup_fd : Z).
Definition FD_SETSIZE : Z := 1024.
Definition EINTR : Z := 4.
Definition descriptor (d : nat) (w : Server) : Z :=
  if decide (d = signal_wakeup_) then wakeup_fd
  else match objects w !! d with
       | Some (SocketDispatcher p) => s_ p | Some (FileDispatcher fd _) => fd | None => INVALID_SOCKET end.
(** [FD_SET] of a number outside the set writes outside it. *)
Definition FD_SET (b : bool) (fd : Z) (set : gset Z) : outcome (gset Z) :=
  if b then if (0 <=? fd) && (fd <? FD_SETSIZE) then Done ({[fd]} ∪ set) else Undefined else Done set.
Fixpoint gather_linux (process_io : bool) (l : list nat) (w : Server) (fdmax : Z) (reads writes : gset Z)
    : outcome (Z * gset Z * gset Z) :=
  match l with
  | [] => Done (fdmax, reads, writes)
  | d :: l =>
    if negb process_io && negb (bool_decide (d = signal_wakeup_)) then gather_linux process_io l w fdmax reads writes
    else
      let fd := descriptor d w in
      let ff := requested LINUX d w in
      reads ← FD_SET (has ff (Z.lor DE_READ DE_ACCEPT)) fd reads;
      writes ← FD_SET (has ff (Z.lor DE_WRITE DE_CONNECT)) fd writes;
      gather_linux process_io l w (Z.max fdmax fd) reads writes
  end.
Definition closed (d : nat) (w : Server) : outcome (bool * Server) :=
  match objects w !! d with
  | Some (SocketDispatcher _) => if decide (d = signal_wakeup_) then Done (false, w) else run listener d IsDescriptorClosed w
  | _ => Done (false, w)
  end.
(** What [select] found for one dispatcher, turned into events. *)
Definition ready (d : nat) (reads writes : gset Z) (w : Server) : outcome (Z * Z * Server) :=
  let fd := descriptor d w in
  let '(errcode, w) :=
    if bool_decide (fd ∈ reads) || bool_decide (fd ∈ writes) then
      let '(r, w) := syscall d (SysGetOption fd SOL_SOCKET SO_ERROR) w in
      (if ret r <? 0 then 0 else int_out r, w)
    else (0, w) in
  '(ff, w) ←
    (if decide (fd ∈ reads) then
       if has (requested LINUX d w) DE_ACCEPT then Done (DE_ACCEPT, w)
       else if negb (errcode =? 0) then Done (DE_CLOSE, w)
       else '(gone, w) ← closed d w; Done (if gone : bool then DE_CLOSE else DE_READ, w)
     else Done (0, w));
  let ff :=
    if decide (fd ∈ writes) then
      if has (requested LINUX d w) DE_CONNECT then Z.lor ff (if errcode =? 0 then DE_CONNECT else DE_CLOSE)
      else Z.lor ff DE_WRITE
    else ff in
  Done (ff, errcode, w).
(** The loop over the dispatchers, from index [i] on; a dispatcher added meanwhile is
    seen too.  [None] is a loop that needs more than [fuel] rounds. *)
Fixpoint dispatch_linux (fuel i : nat) (reads writes : gset Z) (w : Server) : option (outcome (gset Z * gset Z * Server)) :=
  match fuel with
  | O => None
  | S fuel =>
    match dispatchers_ w !! i with
    | None => Some (Done (reads, writes, w))
    | Some d =>
      let fd := descriptor d w in
      match (w ← Done (happens (Polled d) w); '(ff, errcode, w) ← ready d reads writes w; deliver LINUX listener d ff errcode w) with
      | Done w => dispatch_linux fuel (S i) (reads ∖ {[fd]}) (writes ∖ {[fd]}) w
      | Threw => Some Threw
      | Undefined => Some Undefined
      end
    end
  end.

(** [struct timeval]: seconds and microseconds. *)
Definition timeval_of (cms : Z) : Z * Z := (Z.quot cms 1000, Z.rem cms 1000 * 1000).
Definition stop_time (now wait : Z * Z) : Z * Z :=
  let sec := now.1 + wait.1 in
  let usec := now.2 + wait.2 in
  if 1000000 <=? usec then (sec + 1, usec - 1000000) else (sec, usec).
Definition time_left (stop now : Z * Z) : Z * Z :=
  if (now.1 <? stop.1) || ((stop.1 =? now.1) && (now.2 <? stop.2)) then
    let sec := stop.1 - now.1 in
    let usec := stop.2 - now.2 in
    if usec <? 0 then (sec - 1, usec + 1000000) else (sec, usec)
  else (0, 0).
(** What [select] returns, the error, the descriptors that are ready, and the time
    when their events have been handled. *)
Record select_round := mkSelect { count : Z; sel_errno : Z; sel_reads : gset Z; sel_writes : gset Z; after : Z * Z }.
(** [select] leaves the sets as they are when it fails. *)
Fixpoint wait_linux (fuel : nat) (process_io : bool) (stop : option (Z * Z)) (timeout : option (Z * Z))
    (reads writes : gset Z) (rounds : list select_round) (w : Server) : option (outcome (bool * Server)) :=
  if negb (fWait_ w) then Some (Done (true, w))
  else
    match rounds with
    | [] => None
    | r :: rounds =>
      match gather_linux process_io (dispatchers_ w) w (-1) reads writes with
      | Done (fdmax, reads, writes) =>
        let w := happens (Selects (fdmax + 1) reads writes timeout) w in
        let timeout := s ← stop; Some (time_left s (after r)) in
        if count r <? 0 then
          if negb (sel_errno r =? EINTR) then Some (Done (false, w))
          else wait_linux fuel process_io stop timeout reads writes rounds w
        else if count r =? 0 then Some (Done (true, w))
        else
          o ← dispatch_linux fuel 0 (reads ∩ sel_reads r) (writes ∩ sel_writes r) w;
          match o with
          | Done (reads, writes, w) => wait_linux fuel process_io stop timeout reads writes rounds w
          | Threw => Some Threw
          | Undefined => Some Undefined
          end
      | Threw => Some Threw
      | Undefined => Some Undefined
      end
    end.
Definition kForever : Z := -1.
Definition Wait_linux (fuel : nat) (cmsWait : Z) (process_io : bool) (now : Z * Z) (rounds : list select_round) (w : Server)
    : option (outcome (bool * Server)) :=
  let timeout := if cmsWait =? kForever then None else Some (timeval_of cmsWait) in
  wait_linux fuel process_io (t ← timeout; Some (stop_time now t)) timeout ∅ ∅ rounds (set_wait true w).

(** ** Windows: one event for all sockets *)
Definition GetSocket (d : nat) (w : Server) : Z :=
  if decide (d = signal_wakeup_) then INVALID_SOCKET
  else match objects w !! d with Some (SocketDispatcher p) => s_ p | _ => INVALID_SOCKET end.
Definition check_signal_close (d : nat) (w : Server) : outcome (bool * Server) :=
  if decide (d = signal_wakeup_) then Done (false, w) else run listener d CheckSignalClose w.
(** The loop that prepares the sockets.  The first element of [iterators_] is its
    [i]; [owners] are the dispatchers with an event of their own. *)
Fixpoint gather_win (fuel : nat) (process_io : bool) (owners : list nat) (w : Server) : option (outcome (list nat * Server)) :=
  match fuel, iterators_ w with
  | S fuel, i :: its =>
    match dispatchers_ w !! i with
    | None => Some (Done (owners, set_iterators its w))
    | Some d =>
      let w := set_iterators (S i :: its) w in
      if negb process_io && negb (bool_decide (d = signal_wakeup_)) then gather_win fuel process_io owners w
      else
        let s := GetSocket d w in
        match check_signal_close d w with
        | Done (true, w) => gather_win fuel process_io owners w
        | Done (false, w) =>
          if negb (s =? INVALID_SOCKET)
          then gather_win fuel process_io owners (happens (EventSelect s (FlagsToEvents (requested WIN32 d w))) w)
          else gather_win fuel process_io (owners ++ [d]) w
        | Threw => Some Threw
        | Undefined => Some Undefined
        end
    end
  | _, _ => None
  end.
(** [WSAEnumNetworkEvents]: its result, and as [out] the events and the errors of
    [FD_CONNECT] and [FD_CLOSE]. *)
Definition network_events (r : sysret) : Z * Z :=
  let events := nth 0 (out r) 0 in
  let ff := if has events FD_READ then DE_READ else 0 in
  let ff := if has events FD_WRITE then Z.lor ff DE_WRITE else ff in
  let '(ff, errcode) :=
    if has events FD_CONNECT then
      if nth 1 (out r) 0 =? 0 then (Z.lor ff DE_CONNECT, 0) else (Z.lor ff DE_CLOSE, nth 1 (out r) 0)
    else (ff, 0) in
  let ff := if has events FD_ACCEPT then Z.lor ff DE_ACCEPT else ff in
  if has events FD_CLOSE then (Z.lor ff DE_CLOSE, nth 2 (out r) 0) else (ff, errcode).
Definition poll (d : nat) (w : Server) : sysret * Server :=
  match tape_ w with
  | r :: t => (r, happens (Polled d) (mkServer (objects w) (dispatchers_ w) (iterators_ w) (fWait_ w) (fSignaled_ w) t (err r) (next w) (history w)))
  | [] => (mkRet (-1) (errno_ w) [], happens (Polled d) w)
  end.
Definition visit (d : nat) (w : Server) : outcome Server :=
  if GetSocket d w =? INVALID_SOCKET then Done w
  else
    let '(r, w) := poll d w in
    if ret r =? 0 then let '(ff, errcode) := network_events r in deliver WIN32 listener d ff errcode w else Done w.
(** The loop over the dispatchers: [iterators_] starts with [end] and [i]. *)
Fixpoint dispatch_win (fuel : nat) (w : Server) : option (outcome Server) :=
  match fuel, iterators_ w with
  | S fuel, last :: i :: its =>
    if (i <? last)%nat then
      match visit (dispatchers_ w !!! i) (set_iterators (last :: S i :: its) w) with
      | Done w => dispatch_win fuel w
      | Threw => Some Threw
      | Undefined => Some Undefined
      end
    else Some (Done (set_iterators its w))
  | _, _ => None
  end.
Definition dispatch_sockets (fuel : nat) (w : Server) : option (outcome Server) :=
  dispatch_win fuel (set_iterators (length (dispatchers_ w) :: 0%nat :: iterators_ w) w).

(** The answer of [WSAWaitForMultipleEvents], and the milliseconds since [Wait] began. *)
Inductive win_wait := WSA_WAIT_FAILED | WSA_WAIT_TIMEOUT | WSA_WAIT_EVENT (index : nat).
Record win_round := mkWinRound { dw : win_wait; elapsed : Z }.
Definition signalled (fuel index : nat) (process_io : bool) (owners : list nat) (w : Server) : option (outcome Server) :=
  match index with
  | S index =>
    match owners !! index with
    | Some d => Some (w ← pre_event WIN32 listener d 0 w; on_event WIN32 listener d 0 0 w)
    | None => Some Undefined
    end
  | O => if process_io then dispatch_sockets fuel w else Some (Done w)
  end.
Fixpoint wait_win (fuel : nat) (cmsWait cmsElapsed : Z) (process_io : bool) (rounds : list win_round) (w : Server)
    : option (outcome (bool * Server)) :=
  if negb (fWait_ w) then Some (Done (true, w))
  else
    match rounds with
    | [] => None
    | r :: rounds =>
      o ← gather_win fuel process_io [] (set_iterators (0%nat :: iterators_ w) w);
      match o with
      | Done (owners, w) =>
        let cmsNext := if cmsWait =? kForever then cmsWait else Z.max 0 (cmsWait - cmsElapsed) in
        let w := happens (Waits cmsNext) w in
        match dw r with
        | WSA_WAIT_FAILED => Some (Done (false, w))
        | WSA_WAIT_TIMEOUT => Some (Done (true, w))
        | WSA_WAIT_EVENT index =>
          o ← signalled fuel index process_io owners w;
          match o with
          | Done w =>
            if negb (fWait_ w) then Some (Done (true, w))
            else if negb (cmsWait =? kForever) && (cmsWait <=? elapsed r) then Some (Done (true, w))
            else wait_win fuel cmsWait (elapsed r) process_io rounds w
          | Threw => Some Threw
          | Undefined => Some Undefined
          end
        end
      | Threw => Some Threw
      | Undefined => Some Undefined
      end
    end.
Definition Wait_win (fuel : nat) (cmsWait : Z) (process_io : bool) (rounds : list win_round) (w : Server)
    : option (outcome (bool * Server)) :=
  wait_win fuel cmsWait 0 process_io rounds (set_wait true w).
End wait.

(** ** What the owners of sockets do

    An owner that is called with a signal answers with a program: calls on any
    sockets and files, with whatever arguments, among them new ones at free
    addresses and the end of others.  A call on what does not exist is not made.
    The methods signal nothing while they are called. *)
Inductive client_call :=
  | CallCreateAsyncSocket (d : nat) (udp : bool) (family type : Z)
  | CallDelete (d : nat)
  | CallCreate (d : nat) (family type : Z)
  | CallClose (d : nat)
  | CallBind (d : nat) (addr : SocketAddress)
  | CallConnect (d : nat) (resolver : Z) (addr : SocketAddress)
  | CallSend (d : nat) (data : list Z)
  | CallSendTo (d : nat) (data : list Z) (addr : SocketAddress)
  | CallRecv (d : nat) (length : Z)
  | CallRecvFrom (d : nat) (length : Z)
  | CallListen (d : nat) (backlog : Z)
  | CallAccept (d accepted : nat) (udp : bool)
  | CallSetOption (d : nat) (opt : Option) (value : Z)
  | CallCreateFile (d : nat) (fd flags : Z)
  | CallDeleteFile (d : nat)
  | CallSetFlag (d : nat) (event : Z) (value : bool)
  | CallWakeUp.

Section client.
Context {HO : Host} {EN : Errno} (pf : platform).
Definition quiet : nat -> effect -> Server -> outcome Server := fun _ _ w => Done w.
Definition free (d : nat) (w : Server) : bool :=
  negb (bool_decide (d = signal_wakeup_)) && match objects w !! d with None => true | Some _ => false end.
Definition on_socket {A} (d : nat) (m : method A) (w : Server) : outcome Server :=
  match objects w !! d with Some (SocketDispatcher _) => '(_, w) ← run quiet d m w; Done w | _ => Done w end.
Definition do_call (c : client_call) (w : Server) : outcome Server :=
  match c with
  | CallCreateAsyncSocket d udp family type =>
    if free d w then ('(_, w) ← CreateAsyncSocket pf quiet d udp family type w; Done w) else Done w
  | CallDelete d =>
    match objects w !! d with Some (SocketDispatcher _) => delete_socket pf quiet d w | _ => Done w end
  | CallCreate d family type => on_socket d (Create pf family type) w
  | CallClose d => on_socket d (Close pf) w
  | CallBind d addr => on_socket d (Bind addr) w
  | CallConnect d resolver addr => on_socket d (Connect pf resolver addr) w
  | CallSend d data => on_socket d (Send pf data) w
  | CallSendTo d data addr => on_socket d (SendTo pf data addr) w
  | CallRecv d length => on_socket d (Recv length) w
  | CallRecvFrom d length => on_socket d (RecvFrom length) w
  | CallListen d backlog => on_socket d (Listen backlog) w
  | CallAccept d accepted udp =>
    match objects w !! d with
    | Some (SocketDispatcher _) =>
      if free accepted w then
        '(a, w) ← run quiet d Accept w;
        match (a : option (Z * option SocketAddress)) with
        | Some (s, _) => if s =? INVALID_SOCKET then Done w else ('(_, w) ← WrapSocket pf quiet accepted s udp w; Done w)
        | None => Done w
        end
      else Done w
    | _ => Done w
    end
  | CallSetOption d opt value => on_socket d (SetOption pf opt value) w
  | CallCreateFile d fd flags =>
    if bool_decide (pf = LINUX) && free d w then Done (CreateFile d fd flags w) else Done w
  | CallDeleteFile d =>
    match objects w !! d with Some (FileDispatcher _ _) => delete_file d w | _ => Done w end
  | CallSetFlag d event value =>
    match objects w !! d with Some (FileDispatcher _ _) => set_flag d event value w | _ => Done w end
  | CallWakeUp => Done (WakeUp w)
  end.
Fixpoint do_calls (l : list client_call) (w : Server) : outcome Server :=
  match l with [] => Done w | c :: l => w ← do_call c w; do_calls l w end.
Definition listener_of (owner : nat -> effect -> Server -> list client_call) (d : nat) (x : effect) (w : Server) : outcome Server :=
  do_calls (owner d x w) w.
(** Nobody ends the object whose signal is being handled. *)
Definition polite (owner : nat -> effect -> Server -> list client_call) : Prop :=
  forall d x w, (CallDelete d ∉ owner d x w) /\ (CallDeleteFile d ∉ owner d x w).
End client.
