(* ===== verification/SocketLoop.v ===== *)
(** * event/physicalsocketserver.cpp: what the server keeps true

    A socket is in the list of dispatchers exactly while it is open, whatever the
    owners do when they are called; so no call of [Remove] is undefined, and the loop over
    the sockets of Windows, which owners may change while it runs, misses none of
    them. *)
From stdpp Require Import gmap.
From S2P Require Import Prelude ByteOrder InetText IpAddress SocketAddr.
From S2P Require Import Session PhysicalSocket SocketServer.

Section server_ok.
Context {HO : Host} {EN : Errno} (pf : platform).

(** ** The invariant *)
Record server_ok (w : Server) : Prop := {
  ok_nodup : NoDup (dispatchers_ w);
  ok_wakeup : signal_wakeup_ ∈ dispatchers_ w;
  ok_signaler : objects w !! signal_wakeup_ = None;
  ok_objects : forall d, d ∈ dispatchers_ w -> d <> signal_wakeup_ -> is_Some (objects w !! d);
  ok_socket : forall d p, objects w !! d = Some (SocketDispatcher p) -> consistent (bool_decide (d ∈ dispatchers_ w)) (s_ p);
  ok_file : forall d fd flags, objects w !! d = Some (FileDispatcher fd flags) -> pf = LINUX /\ d ∈ dispatchers_ w }.

Lemma index_of_Some d l i : index_of d l = Some i -> l !! i = Some d.
Proof.
  revert i. induction l as [|x l IH]; intros i; [done|]. cbn [index_of].
  destruct (decide (x = d)) as [->|]; [by intros [= <-]|].
  destruct (index_of d l) as [j|]; [|done]. intros [= <-]. by apply IH.
Qed.
Lemma index_of_elem d l : d ∈ l -> is_Some (index_of d l).
Proof.
  induction l as [|x l IH]; intros H; [by apply not_elem_of_nil in H|]. cbn [index_of].
  destruct (decide (x = d)); [by eexists|]. apply elem_of_cons in H as [->|H]; [done|].
  destruct (IH H) as [j ->]. by eexists.
Qed.
Lemma elem_of_delete (l : list nat) i d x : NoDup l -> l !! i = Some d -> (x ∈ delete i l <-> x ∈ l /\ x <> d).
Proof.
  intros Hn Hi. rewrite delete_take_drop. pose proof (take_drop_middle l i d Hi) as E. revert E.
  generalize (take i l) (drop (S i) l). intros a b <-.
  apply list.NoDup_app in Hn as (_ & H1 & H2). apply list.NoDup_cons in H2 as [H2 _].
  rewrite !elem_of_app, elem_of_cons. split.
  - intros [H|H]; (split; [by auto|]); intros ->; [|done]. apply (H1 _ H). by left.
  - intros [[H|[->|H]] Hx]; auto. done.
Qed.
Lemma NoDup_delete (l : list nat) i : NoDup l -> NoDup (delete i l).
Proof. intros H. eapply sublist_NoDup; [done|apply sublist_delete]. Qed.

(** ** What happens to the lists under a running loop

    The loop has its index in front of [todo], the dispatchers it will still come to;
    behind them are the new ones. *)
Definition polled (h : list happening) : list nat := omap (fun x => match x with Polled d => Some d | _ => None end) h.
Definition looping (pre todo new its : list nat) (w : Server) : Prop :=
  dispatchers_ w = pre ++ todo ++ new /\ iterators_ w = (length pre + length todo)%nat :: length pre :: its /\ NoDup (dispatchers_ w).
Definition tracks (w w' : Server) : Prop :=
  exists h, history w' = history w ++ h /\ polled h = [] /\
  forall pre todo new its, looping pre todo new its w ->
  exists pre' todo' new' its', looping pre' todo' new' its' w' /\ todo' `sublist_of` todo /\
    (forall d, d ∈ todo -> d ∈ todo' \/ Removed d ∈ h).
Lemma tracks_same w w' h : dispatchers_ w' = dispatchers_ w -> iterators_ w' = iterators_ w -> history w' = history w ++ h ->
  polled h = [] -> tracks w w'.
Proof.
  intros Ed Ei Eh Hp. exists h. split; [done|]. split; [done|]. intros pre todo new its (? & ? & ?).
  exists pre, todo, new, its. unfold looping. rewrite Ed, Ei. split; [done|]. split; [done|]. by left.
Qed.
Lemma tracks_trans w1 w2 w3 : tracks w1 w2 -> tracks w2 w3 -> tracks w1 w3.
Proof.
  intros (h1 & E1 & P1 & H1) (h2 & E2 & P2 & H2). exists (h1 ++ h2). split; [by rewrite E2, E1, app_assoc|].
  split; [unfold polled in *; by rewrite omap_app, P1, P2|].
  intros pre todo new its Hl. destruct (H1 _ _ _ _ Hl) as (pre1 & todo1 & new1 & its1 & Hl1 & Hs1 & Ha1).
  destruct (H2 _ _ _ _ Hl1) as (pre2 & todo2 & new2 & its2 & Hl2 & Hs2 & Ha2).
  exists pre2, todo2, new2, its2. split; [done|]. split; [by transitivity todo1|]. intros d Hd.
  rewrite elem_of_app. destruct (Ha1 d Hd) as [Hd1|?]; [|auto]. destruct (Ha2 d Hd1); auto.
Qed.
Lemma tracks_Add d w : tracks w (Add d w).
Proof.
  unfold Add. destruct (decide (d ∈ dispatchers_ w)) as [|Hd]; [by eapply tracks_same with (h := []); rewrite ?app_nil_r|].
  exists [Added d]. split; [done|]. split; [done|]. intros pre todo new its (Ed & Ei & Hn).
  exists pre, todo, (new ++ [d]), its. split; [|by split; [|left]]. unfold looping, happens, set_lists. cbn.
  split; [by rewrite Ed, <- !app_assoc|]. split; [done|].
  apply list.NoDup_app. split; [done|]. split; [|apply NoDup_singleton].
  intros x Hx ->%list_elem_of_singleton. done.
Qed.
Lemma delete_split (pre todo new : list nat) i :
  delete i (pre ++ todo ++ new) =
  if (i <? length pre)%nat then delete i pre ++ todo ++ new
  else if (i <? length pre + length todo)%nat then pre ++ delete (i - length pre)%nat todo ++ new
  else pre ++ todo ++ delete (i - length pre - length todo)%nat new.
Proof.
  rewrite !delete_take_drop. destruct (Nat.ltb_spec i (length pre)); [|destruct (Nat.ltb_spec i (length pre + length todo))].
  - rewrite take_app_le, drop_app_le by lia. by rewrite <- app_assoc.
  - rewrite take_app_ge, drop_app_ge by lia. rewrite take_app_le, drop_app_le by lia. rewrite <- !app_assoc.
    replace (S i - length pre)%nat with (S (i - length pre))%nat by lia. done.
  - rewrite take_app_ge, drop_app_ge by lia. rewrite take_app_ge, drop_app_ge by lia. rewrite <- !app_assoc.
    replace (S i - length pre - length todo)%nat with (S (i - length pre - length todo))%nat by lia. done.
Qed.
Lemma tracks_Remove d w w' : Remove d w = Done w' -> tracks w w'.
Proof.
  unfold Remove. destruct (index_of d (dispatchers_ w)) as [i|] eqn:Hi; [|done]. intros [= <-]. apply index_of_Some in Hi.
  exists [Removed d]. split; [done|]. split; [done|]. intros pre todo new its (Ed & Ei & Hn).
  pose proof (NoDup_delete _ i Hn) as Hn'. pose proof (lookup_lt_Some _ _ _ Hi) as Hb.
  unfold looping, happens, set_lists. cbn. rewrite Ed in *. rewrite Ei. rewrite delete_split in *. rewrite !length_app in Hb.
  cbn [map]. unfold corrected at 1 2. destruct (Nat.ltb_spec i (length pre)); [|destruct (Nat.ltb_spec i (length pre + length todo))].
  - exists (delete i pre), todo, new, (map (corrected i) its). rewrite length_delete by (apply lookup_lt_is_Some; lia).
    rewrite (proj2 (Nat.ltb_lt _ _)) by lia. split; [split; [done|split; [|done]; f_equal; [lia|f_equal; lia]]|]. split; [done|]. by left.
  - exists pre, (delete (i - length pre)%nat todo), new, (map (corrected i) its).
    rewrite length_delete by (apply lookup_lt_is_Some; lia).
    split; [split; [done|split; [|done]; f_equal; lia]|]. split; [apply sublist_delete|]. intros x Hx.
    rewrite lookup_app_r, lookup_app_l in Hi by lia. apply list.NoDup_app in Hn as (_ & _ & Hn).
    apply list.NoDup_app in Hn as (Hn & _). destruct (decide (x = d)) as [->|]; [right; by apply list_elem_of_singleton|].
    left. by apply (elem_of_delete todo _ d).
  - exists pre, todo, (delete (i - length pre - length todo)%nat new), (map (corrected i) its).
    split; [split; [done|split; [|done]]|]; [f_equal|split; [done|by left]].
Qed.

(** ** Methods *)
Definition kind (d : nat) (w : Server) : option bool :=
  (fun o => match o with SocketDispatcher _ => true | FileDispatcher _ _ => false end) <$> objects w !! d.
Lemma kind_socket d w : kind d w = Some true <-> exists p, objects w !! d = Some (SocketDispatcher p).
Proof. unfold kind. destruct (objects w !! d) as [[p|]|]; cbn; split; try done; [by eexists|by intros [? [=]]|by intros [? [=]]]. Qed.
Lemma Add_effect d w : NoDup (dispatchers_ w) -> let w' := Add d w in
  objects w' = objects w /\ NoDup (dispatchers_ w') /\ (forall x, x ∈ dispatchers_ w' <-> x ∈ dispatchers_ w \/ x = d).
Proof.
  intros Hn. unfold Add. destruct (decide (d ∈ dispatchers_ w)) as [Hd|Hd]; cbn.
  - split_and!; [done|done|]. intros x. split; [auto|]. by intros [?| ->].
  - split_and!; [done| |intros x; by rewrite elem_of_app, list_elem_of_singleton].
    apply list.NoDup_app. split; [done|]. split; [|apply NoDup_singleton]. by intros x Hx ->%list_elem_of_singleton.
Qed.
Lemma Remove_effect d w : NoDup (dispatchers_ w) -> d ∈ dispatchers_ w -> exists w', Remove d w = Done w' /\
  objects w' = objects w /\ NoDup (dispatchers_ w') /\ (forall x, x ∈ dispatchers_ w' <-> x ∈ dispatchers_ w /\ x <> d).
Proof.
  intros Hn Hd. unfold Remove. destruct (index_of_elem d _ Hd) as [i Hi]. rewrite Hi. eexists. split; [done|]. cbn.
  split; [done|]. split; [by apply NoDup_delete|]. intros x. by apply elem_of_delete, index_of_Some.
Qed.
(** An effect that does not concern the list. *)
Definition plain (x : effect) : Prop := forall reg, reg_step reg x = Some reg.
Lemma plain_cases x : x = AddDispatcher \/ x = RemoveDispatcher \/ plain x.
Proof. destruct x; auto; right; right; by intros reg. Qed.
Lemma perform_quiet d x w : plain x -> perform quiet d x w = Done (happens (Did d x) w).
Proof. intros H. destruct x; try done; [by specialize (H false)|by specialize (H false)]. Qed.
Lemma tracks_happens x w : polled [x] = [] -> tracks w (happens x w).
Proof. intros H. by apply tracks_same with (h := [x]). Qed.
Lemma perform_all_quiet d l : forall w reg, NoDup (dispatchers_ w) ->
  reg_run (bool_decide (d ∈ dispatchers_ w)) l = Some reg ->
  exists w', perform_all quiet d l w = Done w' /\ objects w' = objects w /\ NoDup (dispatchers_ w') /\
    bool_decide (d ∈ dispatchers_ w') = reg /\ (forall x, x <> d -> (x ∈ dispatchers_ w' <-> x ∈ dispatchers_ w)) /\ tracks w w'.
Proof.
  induction l as [|x l IH]; intros w reg Hn Hr; cbn [perform_all reg_run] in *.
  { exists w. injection Hr as <-. split_and!; try done. by apply tracks_same with (h := []); rewrite ?app_nil_r. }
  assert (Hstep : forall w1 reg1, perform quiet d x w = Done w1 -> objects w1 = objects w -> NoDup (dispatchers_ w1) ->
    reg_step (bool_decide (d ∈ dispatchers_ w)) x = Some reg1 -> bool_decide (d ∈ dispatchers_ w1) = reg1 ->
    (forall y, y <> d -> (y ∈ dispatchers_ w1 <-> y ∈ dispatchers_ w)) -> tracks w w1 -> exists w',
    (w ← perform quiet d x w; perform_all quiet d l w) = Done w' /\ objects w' = objects w /\ NoDup (dispatchers_ w') /\
    bool_decide (d ∈ dispatchers_ w') = reg /\ (forall y, y <> d -> (y ∈ dispatchers_ w' <-> y ∈ dispatchers_ w)) /\ tracks w w').
  { intros w1 reg1 E1 Eo Hn1 Er Ed Ho Ht. rewrite Er in Hr. cbn [mbind option_bind] in Hr. rewrite <- Ed in Hr.
    destruct (IH w1 reg Hn1 Hr) as (w' & E' & Eo' & Hn' & Ed' & Ho' & Ht'). exists w'. rewrite E1. cbn.
    split_and!; [done|congruence|done|done|intros y Hy; by rewrite Ho', Ho|by eapply tracks_trans]. }
  destruct (plain_cases x) as [->|[->|Hx]].
  - destruct (Add_effect d w Hn) as (Eo & Hn1 & Ha).
    eapply Hstep; [done|done|done|done|apply bool_decide_eq_true_2, Ha; by right|intros y Hy; rewrite Ha; tauto|apply tracks_Add].
  - cbn in Hr. destruct (bool_decide_reflect (d ∈ dispatchers_ w)) as [Hd|]; [|done].
    destruct (Remove_effect d w Hn Hd) as (w1 & E1 & Eo & Hn1 & Ha).
    eapply Hstep; [done|done|done|done|apply bool_decide_eq_false_2; rewrite Ha; tauto|intros y Hy; rewrite Ha; tauto|by eapply tracks_Remove].
  - eapply Hstep; [by apply perform_quiet|done|done|apply Hx|done|done|by apply tracks_happens].
Qed.

(** The invariant but for what it says of the socket [d]. *)
Record ok_but (d : nat) (w : Server) : Prop := {
  but_nodup : NoDup (dispatchers_ w);
  but_wakeup : signal_wakeup_ ∈ dispatchers_ w;
  but_signaler : objects w !! signal_wakeup_ = None;
  but_objects : forall x, x ∈ dispatchers_ w -> x <> signal_wakeup_ -> x <> d -> is_Some (objects w !! x);
  but_socket : forall x p, x <> d -> objects w !! x = Some (SocketDispatcher p) -> consistent (bool_decide (x ∈ dispatchers_ w)) (s_ p);
  but_file : forall x fd flags, x <> d -> objects w !! x = Some (FileDispatcher fd flags) -> pf = LINUX /\ x ∈ dispatchers_ w }.
Lemma ok_is_but d w : server_ok w -> ok_but d w.
Proof. intros [? ? ? ? ? ?]. constructor; eauto. Qed.
Lemma but_is_ok d p w : ok_but d w -> objects w !! d = Some (SocketDispatcher p) ->
  consistent (bool_decide (d ∈ dispatchers_ w)) (s_ p) -> server_ok w.
Proof.
  intros [H1 H2 H3 H4 H5 H6] Hd Hc. constructor; try done.
  - intros x Hx H0. destruct (decide (x = d)) as [->|]; [by eexists|auto].
  - intros x q Hx. destruct (decide (x = d)) as [->|]; [|auto]. by replace q with p by congruence.
  - intros x fd flags Hx. destruct (decide (x = d)) as [->|]; [congruence|eauto].
Qed.
Lemma but_insert d p w : ok_but d w -> d <> signal_wakeup_ -> ok_but d (set_objects (<[d := SocketDispatcher p]> (objects w)) w).
Proof.
  intros [H1 H2 H3 H4 H5 H6] Hd. constructor; cbn; try done.
  - by rewrite lookup_insert_ne.
  - intros x ? ? ?. rewrite lookup_insert_ne by done. auto.
  - intros x q ?. rewrite lookup_insert_ne by done. auto.
  - intros x fd flags ?. rewrite lookup_insert_ne by done. eauto.
Qed.
(** The object is gone and not in the list. *)
Lemma but_delete d w : ok_but d w -> d ∉ dispatchers_ w -> server_ok (set_objects (delete d (objects w)) w).
Proof.
  intros [H1 H2 H3 H4 H5 H6] Hd. constructor; cbn; try done.
  - destruct (decide (d = signal_wakeup_)) as [->|]; [apply lookup_delete_eq|by rewrite lookup_delete_ne].
  - intros x Hx H0. assert (x <> d) by (by intros ->). rewrite lookup_delete_ne by done. auto.
  - intros x q. destruct (decide (x = d)) as [->|]; [by rewrite lookup_delete_eq|]. rewrite lookup_delete_ne by done. auto.
  - intros x fd flags. destruct (decide (x = d)) as [->|]; [by rewrite lookup_delete_eq|]. rewrite lookup_delete_ne by done. eauto.
Qed.
Lemma kind_insert x d o w : kind x (set_objects (<[d := o]> (objects w)) w) =
  if decide (x = d) then Some (match o with SocketDispatcher _ => true | FileDispatcher _ _ => false end) else kind x w.
Proof.
  unfold kind. cbn. destruct (decide (x = d)) as [->|]; [by rewrite lookup_insert_eq|by rewrite lookup_insert_ne].
Qed.
Lemma run_quiet_spec {A} P (m : method A) (Q : A -> bool -> PhysicalSocket -> Prop) d w p : spec P m Q ->
  ok_but d w -> objects w !! d = Some (SocketDispatcher p) -> P (bool_decide (d ∈ dispatchers_ w)) p ->
  exists a w' p', run quiet d m w = Done (a, w') /\ ok_but d w' /\ objects w' !! d = Some (SocketDispatcher p') /\
    Q a (bool_decide (d ∈ dispatchers_ w')) p' /\ tracks w w' /\ forall x, kind x w' = kind x w.
Proof.
  intros Hm Hok Hd HP. unfold run. rewrite Hd.
  destruct (Hm (mkEnv p (tape_ w) (errno_ w) (next w)) _ HP) as (reg & Hr & HQ).
  destruct (m _) as [[a e] l]. cbn [fst snd] in *.
  assert (d <> signal_wakeup_) as H0 by (intros ->; rewrite (but_signaler _ _ Hok) in Hd; done).
  assert (Hs : ok_but d (store d e w)) by (destruct (but_insert d (sock e) w Hok H0); by constructor).
  assert (Hk : forall x, kind x (store d e w) = kind x w).
  { intros x. change (kind x (store d e w)) with (kind x (set_objects (<[d := SocketDispatcher (sock e)]> (objects w)) w)).
    rewrite kind_insert. destruct (decide (x = d)) as [->|]; [|done]. unfold kind. by rewrite Hd. }
  destruct (perform_all_quiet d l (store d e w) reg) as (w' & E & Eo & Hn & <- & Ho & Ht); [apply (but_nodup _ _ Hs)|done|].
  rewrite E. cbn. exists a, w', (sock e). split; [done|].
  assert (Hlook : objects w' !! d = Some (SocketDispatcher (sock e))) by (rewrite Eo; apply lookup_insert_eq).
  split_and!; [|done|done| |intros x; rewrite <- Hk; unfold kind; by rewrite Eo].
  - destruct Hs as [_ S2 S3 S4 S5 S6]. constructor; rewrite ?Eo; try done.
    + by apply Ho.
    + intros x Hx H1 Hxd. apply S4; [by apply Ho|done|done].
    + intros x q Hx Hq. rewrite <- (bool_decide_ext _ _ (symmetry (Ho x Hx))). auto.
    + intros x fd flags Hx Hf. destruct (S6 x fd flags Hx Hf) as [? ?]. split; [done|]. by apply Ho.
  - eapply tracks_trans; [|done]. by apply tracks_same with (h := []); rewrite ?app_nil_r.
Qed.
(** A method that keeps the socket consistent keeps the invariant. *)
Lemma run_quiet_ok {A} (m : method A) d w : keeps m -> server_ok w -> kind d w = Some true ->
  exists a w', run quiet d m w = Done (a, w') /\ server_ok w' /\ tracks w w' /\ forall x, kind x w' = kind x w.
Proof.
  intros Hm Hok (p & Hd)%kind_socket.
  destruct (run_quiet_spec _ m _ d w p Hm) as (a & w' & p' & E & Hb & Hl & HQ & Ht & Hk);
    [by apply ok_is_but|done|by apply (ok_socket _ Hok)|].
  exists a, w'. split_and!; try done. by eapply but_is_ok.
Qed.

(** ** What an owner does *)
Definition advances (w : Server) (o : outcome Server) (kept : nat -> Prop) : Prop :=
  exists w', o = Done w' /\ server_ok w' /\ tracks w w' /\ forall x, kept x -> is_Some (kind x w) -> kind x w' = kind x w.
Lemma tracks_refl w : tracks w w.
Proof. by apply tracks_same with (h := []); rewrite ?app_nil_r. Qed.
Lemma advances_stay w kept : server_ok w -> advances w (Done w) kept.
Proof. intros H. exists w. split_and!; try done. apply tracks_refl. Qed.
Lemma free_spec d w : free d w = true -> d <> signal_wakeup_ /\ objects w !! d = None.
Proof.
  unfold free. intros [H1 H2]%andb_prop. apply negb_true_iff, bool_decide_eq_false_1 in H1. by destruct (objects w !! d).
Qed.
Lemma free_unlisted d w : server_ok w -> d <> signal_wakeup_ -> objects w !! d = None -> d ∉ dispatchers_ w.
Proof. intros H H0 Hd Hin. destruct (ok_objects _ H d Hin H0) as [? E]. congruence. Qed.
Lemma on_socket_ok {A} d (m : method A) w kept : keeps m -> server_ok w -> advances w (on_socket d m w) kept.
Proof.
  intros Hm Hok. unfold on_socket. destruct (objects w !! d) as [[p|fd flags]|] eqn:Hd; [|by apply advances_stay..].
  destruct (run_quiet_ok m d w Hm Hok) as (a & w' & E & Hok' & Ht & Hk); [apply kind_socket; by eexists|].
  rewrite E. cbn. exists w'. by split_and!.
Qed.
Lemma CreateAsyncSocket_ok d udp family type w kept : server_ok w -> free d w = true ->
  advances w ('(_, w) ← CreateAsyncSocket pf quiet d udp family type w; Done w) kept.
Proof.
  intros Hok (H0 & Hd)%free_spec. unfold CreateAsyncSocket.
  set (w0 := set_objects (<[d := SocketDispatcher (PhysicalSocket_new INVALID_SOCKET udp)]> (objects w)) w).
  assert (Hn : d ∉ dispatchers_ w) by by apply free_unlisted.
  assert (Hok0 : ok_but d w0) by (apply but_insert; [by apply ok_is_but|done]).
  assert (Hl : objects w0 !! d = Some (SocketDispatcher (PhysicalSocket_new INVALID_SOCKET udp))) by apply lookup_insert_eq.
  destruct (run_quiet_spec _ (Create pf family type) _ d w0 _ (spec_Create pf family type) Hok0 Hl) as
    (created & w1 & p & E & Hb & Hp & (Hc & Hs) & Ht & Hk).
  { unfold on_s, consistent. by rewrite bool_decide_eq_false_2. }
  assert (Ht' : tracks w w1) by (eapply tracks_trans; [|done]; by apply tracks_same with (h := []); rewrite ?app_nil_r).
  assert (Hk' : forall x, x <> d -> kind x w1 = kind x w).
  { intros x Hx. rewrite Hk. unfold w0. rewrite kind_insert. by rewrite decide_False. }
  assert (Hnone : kind d w = None) by (unfold kind; by rewrite Hd).
  rewrite E. cbn. destruct created; cbn.
  - exists w1. split_and!; [done|by eapply but_is_ok|done|]. intros x _ Hx. apply Hk'. intros ->. rewrite Hnone in Hx. by destruct Hx.
  - eexists. split; [done|]. unfold on_s, consistent in Hc. rewrite Hs in Hc.
    assert (Hout : d ∉ dispatchers_ w1) by (by apply (bool_decide_eq_false_1 (d ∈ dispatchers_ w1))).
    split_and!; [by apply but_delete|eapply tracks_trans; [done|]; by apply tracks_same with (h := []); rewrite ?app_nil_r|].
    intros x _ Hx. assert (x <> d) as Hxd by (intros ->; rewrite Hnone in Hx; by destruct Hx). rewrite <- Hk' by done. unfold kind. cbn.
    by rewrite lookup_delete_ne.
Qed.

Lemma tracks_lists w w' : dispatchers_ w' = dispatchers_ w -> iterators_ w' = iterators_ w -> history w' = history w -> tracks w w'.
Proof. intros ? ? E. apply tracks_same with (h := []); rewrite ?app_nil_r; done. Qed.
Lemma delete_socket_ok d w : server_ok w -> kind d w = Some true ->
  advances w (delete_socket pf quiet d w) (fun x => x <> d).
Proof.
  intros Hok (p & Hd)%kind_socket. unfold delete_socket.
  destruct (run_quiet_spec _ (Close pf) _ d w p (spec_Close pf)) as (a & w1 & p' & E & Hb & Hp & [Hg _] & Ht & Hk);
    [by apply ok_is_but|done|by apply (ok_socket _ Hok)|].
  rewrite E. cbn. eexists. split; [done|]. apply bool_decide_eq_false_1 in Hg.
  split_and!; [by apply but_delete|eapply tracks_trans; [done|by apply tracks_lists]|].
  intros x Hx _. rewrite <- Hk. unfold kind. cbn. by rewrite lookup_delete_ne.
Qed.
Lemma WrapSocket_ok d s udp w kept : server_ok w -> free d w = true -> s <> INVALID_SOCKET ->
  advances w ('(_, w) ← WrapSocket pf quiet d s udp w; Done w) kept.
Proof.
  intros Hok (H0 & Hd)%free_spec Hs. unfold WrapSocket.
  set (w0 := set_objects (<[d := SocketDispatcher (PhysicalSocket_new s udp)]> (objects w)) w).
  assert (Hok0 : ok_but d w0) by (apply but_insert; [by apply ok_is_but|done]).
  assert (Hl : objects w0 !! d = Some (SocketDispatcher (PhysicalSocket_new s udp))) by apply lookup_insert_eq.
  destruct (run_quiet_spec _ (Initialize pf) _ d w0 _ (spec_Initialize pf) Hok0 Hl Hs) as (b & w1 & p & E & Hb & Hp & [Hc _] & Ht & Hk).
  rewrite E. cbn. exists w1. split_and!; [done|by eapply but_is_ok|eapply tracks_trans; [|done]; by apply tracks_lists|].
  intros x _ Hx. rewrite Hk. unfold w0. rewrite kind_insert, decide_False; [done|]. intros ->.
  unfold kind in Hx. rewrite Hd in Hx. by destruct Hx.
Qed.
Lemma advances_bind w o f kept : advances w o kept ->
  (forall w', o = Done w' -> server_ok w' -> (forall x, kept x -> is_Some (kind x w) -> kind x w' = kind x w) -> advances w' (f w') kept) ->
  advances w (w ← o; f w) kept.
Proof.
  intros (w1 & -> & Hok & Ht & Hk) Hf. destruct (Hf w1 eq_refl Hok Hk) as (w2 & E & Hok2 & Ht2 & Hk2). exists w2.
  split_and!; [done|done|by eapply tracks_trans|]. intros x Hx Hs. rewrite Hk2 by (rewrite ?Hk; done). by apply Hk.
Qed.
Lemma advances_then w w1 o kept : advances w (Done w1) kept -> (server_ok w1 -> advances w1 o kept) -> advances w o kept.
Proof. intros H Ho. apply (advances_bind w (Done w1) (fun _ => o) kept H). intros w' [= <-] Hok _. by apply Ho. Qed.
Lemma CreateFile_ok d fd flags w kept : server_ok w -> pf = LINUX -> free d w = true -> advances w (Done (CreateFile d fd flags w)) kept.
Proof.
  intros Hok Hpf (H0 & Hd)%free_spec. eexists. split; [done|]. unfold CreateFile.
  set (w0 := set_objects (<[d := FileDispatcher fd (Z.lor flags DE_READ)]> (objects w)) w).
  destruct (Add_effect d w0 (ok_nodup _ Hok)) as (Eo & Hn & Ha). change (dispatchers_ w0) with (dispatchers_ w) in Ha.
  assert (Hk : forall x, x <> d -> objects (Add d w0) !! x = objects w !! x) by (intros; rewrite Eo; by apply lookup_insert_ne).
  assert (Hl : objects (Add d w0) !! d = Some (FileDispatcher fd (Z.lor flags DE_READ))) by (rewrite Eo; apply lookup_insert_eq).
  split_and!.
  - constructor; cbn.
    + done.
    + apply Ha. left. apply (ok_wakeup _ Hok).
    + rewrite Hk by done. apply (ok_signaler _ Hok).
    + intros x Hx Hx0. destruct (decide (x = d)) as [->|Hxd]; [by eexists|]. rewrite Hk by done.
      apply Ha in Hx as [Hx| ->]; [|done]. by apply (ok_objects _ Hok).
    + intros x p Hx. destruct (decide (x = d)) as [->|Hxd]; [congruence|]. rewrite Hk in Hx by done.
      rewrite (bool_decide_ext _ (x ∈ dispatchers_ w)) by (rewrite Ha; tauto). by apply (ok_socket _ Hok).
    + intros x fd' flags' Hx. split; [done|]. apply Ha. destruct (decide (x = d)) as [->|Hxd]; [by right|]. rewrite Hk in Hx by done.
      left. by apply (ok_file _ Hok x fd' flags').
  - eapply tracks_trans; [|by apply tracks_happens]. eapply tracks_trans; [|apply tracks_Add]. by apply tracks_lists.
  - intros x _ [k Hx]. unfold kind in *. cbn. rewrite Hk; [done|]. intros ->. rewrite Hd in Hx. done.
Qed.
Lemma delete_file_ok d w : server_ok w -> kind d w = Some false -> advances w (delete_file d w) (fun x => x <> d).
Proof.
  intros Hok Hk. assert (Hf : exists fd flags, objects w !! d = Some (FileDispatcher fd flags)).
  { unfold kind in Hk. destruct (objects w !! d) as [[|fd flags]|]; try done. by exists fd, flags. }
  destruct Hf as (fd & flags & Hf). destruct (ok_file _ Hok d fd flags Hf) as [Hpf Hd].
  unfold delete_file. destruct (Remove_effect d w (ok_nodup _ Hok) Hd) as (w1 & E & Eo & Hn & Ha). rewrite E. cbn.
  eexists. split; [done|].
  assert (Hout : d ∉ dispatchers_ w1) by (rewrite Ha; tauto).
  assert (d <> signal_wakeup_) as H0 by (intros ->; rewrite (ok_signaler _ Hok) in Hf; done).
  split_and!; [apply but_delete; [|done]|eapply tracks_trans; [by eapply tracks_Remove|by apply tracks_lists]|].
  - constructor; rewrite ?Eo; try done.
    + apply Ha. split; [apply (ok_wakeup _ Hok)|congruence].
    + apply (ok_signaler _ Hok).
    + intros x [Hx _]%Ha Hx0 _. by apply (ok_objects _ Hok).
    + intros x p Hx Hp. rewrite (bool_decide_ext _ (x ∈ dispatchers_ w)) by (rewrite Ha; tauto). by apply (ok_socket _ Hok).
    + intros x fd' flags' Hx Hp. split; [done|]. apply Ha. split; [|done]. by apply (ok_file _ Hok x fd' flags').
  - intros x Hx _. unfold kind. cbn. by rewrite lookup_delete_ne, Eo.
Qed.
Lemma set_flag_ok d event value w kept : server_ok w -> kind d w = Some false -> advances w (set_flag d event value w) kept.
Proof.
  intros Hok Hk. unfold set_flag, kind in *. destruct (objects w !! d) as [[|fd flags]|] eqn:Hd; try done.
  eexists. split; [done|]. set (o := FileDispatcher fd _).
  assert (forall x, kind x (set_objects (<[d := o]> (objects w)) w) = kind x w) as Hkind.
  { intros x. rewrite kind_insert. destruct (decide (x = d)) as [->|]; [|done]. unfold kind. by rewrite Hd. }
  split_and!; [|by apply tracks_lists|by intros; apply Hkind].
  destruct Hok as [H1 H2 H3 H4 H5 H6]. constructor; cbn; try done.
  - rewrite lookup_insert_ne; [done|]. by intros ->; congruence.
  - intros x Hx H0. destruct (decide (x = d)) as [->|]; [rewrite lookup_insert_eq; by eexists|]. rewrite lookup_insert_ne by done. auto.
  - intros x p. destruct (decide (x = d)) as [->|]; [by rewrite lookup_insert_eq|]. rewrite lookup_insert_ne by done. auto.
  - intros x f' g'. destruct (decide (x = d)) as [->|]; [intros _; by apply (H6 d fd flags)|]. rewrite lookup_insert_ne by done. eauto.
Qed.

Lemma do_call_ok c w : server_ok w -> advances w (do_call pf c w) (fun x => c <> CallDelete x /\ c <> CallDeleteFile x).
Proof.
  intros Hok. destruct c; cbn [do_call]; try (apply on_socket_ok; [|done]);
    eauto using keeps_Create, keeps_Close, keeps_Bind, keeps_Connect, keeps_Send, keeps_SendTo, keeps_Recv, keeps_RecvFrom,
      keeps_Listen, keeps_SetOption.
  - destruct (free d w) eqn:Hf; [by apply CreateAsyncSocket_ok|by apply advances_stay].
  - destruct (objects w !! d) as [[p|]|] eqn:Hd; [|by apply advances_stay..].
    destruct (delete_socket_ok d w Hok) as (w' & E & ? & ? & Hk); [apply kind_socket; by eexists|].
    exists w'. split_and!; [done..|]. intros x [Hx _]. apply Hk. congruence.
  - destruct (objects w !! d) as [[p|]|] eqn:Hd; [|by apply advances_stay..].
    destruct (free accepted w) eqn:Hf; [|by apply advances_stay].
    destruct (run_quiet_ok Accept d w keeps_Accept Hok) as (a & w1 & E & Hok1 & Ht1 & Hk1); [apply kind_socket; by eexists|].
    rewrite E. cbn.
    assert (Ha : advances w (Done w1) (fun x => CallAccept d accepted udp <> CallDelete x /\ CallAccept d accepted udp <> CallDeleteFile x))
      by (exists w1; split_and!; done).
    destruct a as [[s addr]|]; [|done]. destruct (Z.eqb_spec s INVALID_SOCKET); [done|].
    eapply advances_then; [done|]. intros _. apply WrapSocket_ok; [done| |done]. apply free_spec in Hf as [H0 Hn]. unfold free.
    rewrite bool_decide_eq_false_2 by done. cbn. specialize (Hk1 accepted). unfold kind in Hk1. rewrite Hn in Hk1.
    by destruct (objects w1 !! accepted).
  - destruct (bool_decide_reflect (pf = LINUX)); cbn [andb]; [|by apply advances_stay].
    destruct (free d w) eqn:Hf; [by apply CreateFile_ok|by apply advances_stay].
  - destruct (objects w !! d) as [[|fd flags]|] eqn:Hd; [by apply advances_stay| |by apply advances_stay].
    destruct (delete_file_ok d w Hok) as (w' & E & ? & ? & Hk); [unfold kind; by rewrite Hd|].
    exists w'. split_and!; [done..|]. intros x [_ Hx]. apply Hk. congruence.
  - destruct (objects w !! d) as [[|fd flags]|] eqn:Hd; [by apply advances_stay| |by apply advances_stay].
    apply set_flag_ok; [done|]. unfold kind. by rewrite Hd.
  - eexists. split; [done|]. split_and!; [by destruct Hok; constructor|by apply tracks_lists|done].
Qed.
Lemma do_calls_ok l : forall w kept, server_ok w -> (forall x, kept x -> (CallDelete x ∉ l) /\ (CallDeleteFile x ∉ l)) ->
  advances w (do_calls pf l w) kept.
Proof.
  induction l as [|c l IH]; intros w kept Hok Hl; cbn [do_calls]; [by apply advances_stay|].
  destruct (do_call_ok c w Hok) as (w1 & E & Hok1 & Ht & Hk). apply advances_bind.
  - exists w1. split_and!; try done. intros x Hx. apply Hk. destruct (Hl x Hx) as [[H1 _]%not_elem_of_cons [H2 _]%not_elem_of_cons]. split; congruence.
  - intros w2 E2 Hok2 _. apply IH; [done|]. intros x Hx. by destruct (Hl x Hx) as [[_ H1]%not_elem_of_cons [_ H2]%not_elem_of_cons].
Qed.

(** ** The events *)
Context (owner : nat -> effect -> Server -> list client_call) (Hpolite : polite owner).
Lemma listener_ok d x w : server_ok w -> advances w (listener_of pf owner d x w) (eq d).
Proof. intros Hok. apply do_calls_ok; [done|]. intros ? <-. apply Hpolite. Qed.
Lemma happens_ok x w : server_ok w -> server_ok (happens x w).
Proof. intros [? ? ? ? ? ?]. by constructor. Qed.
Lemma advances_happens x w o kept : polled [x] = [] -> server_ok w -> advances (happens x w) o kept -> advances w o kept.
Proof.
  intros Hx Hok (w' & E & Hok' & Ht & Hk). exists w'. split_and!; [done|done| |done].
  eapply tracks_trans; [by apply tracks_happens|done].
Qed.
Lemma perform_all_listener d l : forall w, Forall plain l -> server_ok w -> advances w (perform_all (listener_of pf owner) d l w) (eq d).
Proof.
  induction l as [|x l IH]; intros w Hl Hok; cbn [perform_all]; [by apply advances_stay|]. apply Forall_cons_1 in Hl as [Hx Hl].
  apply advances_bind; [|by auto].
  assert (Hl' : advances w (listener_of pf owner d x (happens (Did d x) w)) (eq d))
    by (apply (advances_happens (Did d x)); [done|done|by apply listener_ok, happens_ok]).
  assert (Hd : advances w (Done (happens (Did d x) w)) (eq d))
    by (apply (advances_happens (Did d x)); [done|done|by apply advances_stay, happens_ok]).
  destruct x; try done; by specialize (Hx false).
Qed.
Definition plainly {A} (m : method A) : Prop := forall e, Forall plain (m e).2.
Lemma plain_run l reg : Forall plain l -> reg_run reg l = Some reg.
Proof. induction 1 as [|x l Hx _ IH]; [done|]. cbn. by rewrite Hx. Qed.
Lemma run_listener {A} (m : method A) d w : keeps m -> plainly m -> server_ok w -> kind d w = Some true ->
  exists a w', run (listener_of pf owner) d m w = Done (a, w') /\ server_ok w' /\ tracks w w' /\ kind d w' = Some true.
Proof.
  intros Hm Hp Hok (p & Hd)%kind_socket. unfold run. rewrite Hd.
  destruct (Hm (mkEnv p (tape_ w) (errno_ w) (next w)) _ (ok_socket _ Hok d p Hd)) as (reg & Hr & HQ).
  pose proof (Hp (mkEnv p (tape_ w) (errno_ w) (next w))) as Hpl. destruct (m _) as [[a e] l]. cbn [fst snd] in *.
  rewrite plain_run in Hr by done. injection Hr as <-.
  assert (H0 : d <> signal_wakeup_) by (intros ->; rewrite (ok_signaler _ Hok) in Hd; done).
  assert (Hs : server_ok (store d e w)).
  { eapply (but_is_ok d (sock e)); [|apply lookup_insert_eq|done].
    destruct (but_insert d (sock e) w (ok_is_but d w Hok) H0). by constructor. }
  assert (Hk : kind d (store d e w) = Some true) by (apply kind_socket; eexists; apply lookup_insert_eq).
  destruct (perform_all_listener d l (store d e w) Hpl Hs) as (w' & E & Hok' & Ht & Hk').
  rewrite E. cbn. exists a, w'. split_and!; [done|done|eapply tracks_trans; [|done]; by apply tracks_lists|].
  rewrite Hk' by (rewrite ?Hk; done || by eexists). done.
Qed.

Lemma plainly_bind {A B} (m : method A) (f : A -> method B) : plainly m -> (forall a, plainly (f a)) -> plainly (m ≫= f).
Proof.
  intros Hm Hf e. unfold mbind, method_bind. specialize (Hm e). destruct (m e) as [[a e1] l1].
  specialize (Hf a e1). destruct (f a e1) as [[b e2] l2]. by apply Forall_app.
Qed.
Lemma plainly_call x : plain x -> plainly (call x).
Proof. intros H e. unfold call. by destruct (tape e); repeat constructor. Qed.
Lemma plainly_emit x : plain x -> plainly (emit x).
Proof. intros H e. by repeat constructor. Qed.
Lemma plainly_none {A} (m : method A) : (forall e, (m e).2 = []) -> plainly m.
Proof. intros H e. by rewrite H. Qed.
Ltac plainly :=
  repeat match goal with
  | |- plainly (_ ≫= _) => apply plainly_bind; [|intros ?]
  | |- plainly (match ?x with _ => _ end) => destruct x
  | |- plainly (call _) => by apply plainly_call; intros ?
  | |- plainly (emit _) => by apply plainly_emit; intros ?
  | |- plainly _ => by apply plainly_none
  end.
Lemma plainly_OnPreEvent ff : plainly (OnPreEvent pf ff).
Proof. unfold OnPreEvent, when. plainly. Qed.
Lemma plainly_on_event err : plainly on_connect /\ plainly on_accept /\ plainly on_read /\ plainly on_write /\ plainly (on_close pf err).
Proof. unfold on_connect, on_accept, on_read, on_write, on_close, disable. split_and!; plainly. Qed.
Lemma plainly_CheckSignalClose : plainly CheckSignalClose.
Proof. unfold CheckSignalClose. plainly. Qed.
Lemma run_advances {A} (m : method A) d w : keeps m -> plainly m -> server_ok w -> kind d w = Some true ->
  advances w ('(_, w) ← run (listener_of pf owner) d m w; Done w) (eq d).
Proof.
  intros Hm Hp Hok Hk. destruct (run_listener m d w Hm Hp Hok Hk) as (a & w' & E & ? & ? & Hk'). rewrite E. exists w'.
  split_and!; try done. by intros ? <- _; rewrite Hk'.
Qed.
Lemma part_ok {A} d b same (m : method A) w : keeps m -> plainly m -> server_ok w -> kind d w = Some true ->
  advances w (part (listener_of pf owner) d b same m w) (eq d).
Proof. intros. unfold part. destruct (b && same w); [by apply run_advances|by apply advances_stay]. Qed.
Lemma then_socket d w o f : kind d w = Some true -> advances w o (eq d) ->
  (forall w', server_ok w' -> kind d w' = Some true -> advances w' (f w') (eq d)) -> advances w (w ← o; f w) (eq d).
Proof.
  intros Hk Ho Hf. apply advances_bind; [done|]. intros w' _ Hok Hk'. apply Hf; [done|].
  rewrite Hk'; [done|done|]. rewrite Hk. by eexists.
Qed.
Lemma file_event_ok d b x w : server_ok w -> advances w (file_event (listener_of pf owner) d b x w) (eq d).
Proof.
  intros Hok. unfold file_event. destruct b; [|by apply advances_stay].
  apply (advances_happens (Did d x)); [done|done|by apply listener_ok, happens_ok].
Qed.
Lemma plain_state w w' : objects w' = objects w -> dispatchers_ w' = dispatchers_ w -> iterators_ w' = iterators_ w ->
  history w' = history w -> server_ok w -> advances w (Done w') (eq 0%nat).
Proof.
  intros Eo Ed Ei Eh [? ? ? ? ? ?]. exists w'. split_and!; [done|constructor; by rewrite ?Eo, ?Ed|by apply tracks_lists|].
  intros x _ _. unfold kind. by rewrite Eo.
Qed.
Lemma pre_event_ok d ff w : server_ok w -> d ∈ dispatchers_ w -> advances w (pre_event pf (listener_of pf owner) d ff w) (eq d).
Proof.
  intros Hok Hd. unfold pre_event. destruct (decide (d = signal_wakeup_)) as [->|H0]; [by apply plain_state|].
  destruct (ok_objects _ Hok d Hd H0) as [[p|] E]; rewrite E; [|by apply advances_stay].
  apply run_advances; [apply keeps_OnPreEvent|apply plainly_OnPreEvent|done|apply kind_socket; by eexists].
Qed.
Lemma on_event_ok d ff err w : server_ok w -> d = signal_wakeup_ \/ is_Some (kind d w) ->
  advances w (on_event pf (listener_of pf owner) d ff err w) (eq d).
Proof.
  intros Hok Hd. unfold on_event. destruct (decide (d = signal_wakeup_)) as [->|H0]; [by apply plain_state|].
  destruct Hd as [|Hk]; [done|]. unfold kind in Hk.
  destruct (objects w !! d) as [[p|]|] eqn:E; [| |by destruct Hk].
  - assert (Hk' : kind d w = Some true) by (unfold kind; by rewrite E). clear Hk.
    destruct (keeps_on_event pf err) as (K1 & K2 & K3 & K4 & K5), (plainly_on_event err) as (P1 & P2 & P3 & P4 & P5).
    apply then_socket; [done|by apply part_ok|]. intros w1 Hok1 Hk1.
    apply then_socket; [done|by apply part_ok|]. intros w2 Hok2 Hk2.
    apply then_socket; [done|by apply part_ok|]. intros w3 Hok3 Hk3.
    apply then_socket; [done|by apply part_ok|]. intros w4 Hok4 Hk4. by apply part_ok.
  - repeat (apply advances_bind; [by apply file_event_ok|intros ? _ ? _]). by apply file_event_ok.
Qed.
Lemma deliver_ok d ff err w : server_ok w -> d ∈ dispatchers_ w -> advances w (deliver pf (listener_of pf owner) d ff err w) (eq d).
Proof.
  intros Hok Hd. unfold deliver. destruct (ff =? 0); [by apply advances_stay|].
  apply advances_bind; [by apply pre_event_ok|]. intros w' _ Hok' Hk. apply on_event_ok; [done|].
  destruct (decide (d = signal_wakeup_)) as [|H0]; [by left|right].
  destruct (ok_objects _ Hok d Hd H0) as [o Ho]. assert (is_Some (kind d w)) by (unfold kind; rewrite Ho; by eexists).
  by rewrite Hk.
Qed.
End server_ok.

(** ** Windows: the loop over the sockets *)
Section windows.
Context {HO : Host} {EN : Errno} (owner : nat -> effect -> Server -> list client_call) (Hpolite : polite owner).
Definition listener : nat -> effect -> Server -> outcome Server := listener_of WIN32 owner.

Lemma open_socket d w : server_ok WIN32 w -> d ∈ dispatchers_ w -> d <> signal_wakeup_ -> GetSocket d w <> INVALID_SOCKET.
Proof.
  intros Hok Hd H0. unfold GetSocket. rewrite decide_False by done.
  destruct (ok_objects _ _ Hok d Hd H0) as [[p|fd flags] E]; rewrite E.
  - intros Hs. pose proof (ok_socket _ _ Hok d p E) as Hc. unfold consistent in Hc.
    rewrite bool_decide_eq_true_2, Hs in Hc by done. done.
  - by destruct (ok_file _ _ Hok d fd flags E).
Qed.
(** The rounds of the loop: what was polled is taken from what was to do. *)
Lemma dispatch_win_ok fuel : forall pre todo new its w, server_ok WIN32 w -> looping pre todo new its w -> (length todo < fuel)%nat ->
  exists w' h, dispatch_win listener fuel w = Some (Done w') /\ server_ok WIN32 w' /\ history w' = history w ++ h /\
    polled h `sublist_of` todo /\ (forall d, d ∈ todo -> d = signal_wakeup_ \/ d ∈ polled h \/ Removed d ∈ h).
Proof.
  induction fuel as [|fuel IH]; intros pre todo new its w Hok Hl Hf; [lia|]. destruct Hl as (Ed & Ei & Hn). cbn [dispatch_win]. rewrite Ei.
  destruct todo as [|d todo]; cbn [length] in *.
  { rewrite Nat.add_0_r, Nat.ltb_irrefl. exists (set_iterators its w), []. split; [done|].
    split; [by destruct Hok; constructor|]. split; [by rewrite app_nil_r|]. split; [done|]. by intros d Hd%not_elem_of_nil. }
  rewrite (proj2 (Nat.ltb_lt _ _)) by lia.
  assert (Hd : dispatchers_ w !!! length pre = d) by (rewrite Ed; apply list_lookup_total_middle; done).
  rewrite Hd. set (w0 := set_iterators _ w).
  assert (Hok0 : server_ok WIN32 w0) by (by destruct Hok; constructor).
  assert (Hin : d ∈ dispatchers_ w0) by (cbn; rewrite Ed; set_solver).
  assert (Hl0 : looping (pre ++ [d]) todo new its w0).
  { unfold looping, w0. cbn. rewrite Ed, <- app_assoc, length_app. cbn. split; [done|]. split; [f_equal; [lia|f_equal; lia]|]. by rewrite Ed in Hn. }
  assert (Hv : exists w1 h1, visit listener d w0 = Done w1 /\ server_ok WIN32 w1 /\ history w1 = history w0 ++ h1 /\
    polled h1 = (if decide (d = signal_wakeup_) then [] else [d]) /\
    exists pre' todo' new' its', looping pre' todo' new' its' w1 /\ todo' `sublist_of` todo /\
      (forall x, x ∈ todo -> x ∈ todo' \/ Removed x ∈ h1)).
  { unfold visit. destruct (decide (d = signal_wakeup_)) as [->|H0].
    - exists w0, []. split_and!; try done; [by rewrite app_nil_r|]. exists (pre ++ [signal_wakeup_]), todo, new, its.
      split_and!; [done|done|by left].
    - rewrite (proj2 (Z.eqb_neq _ _)) by (by apply open_socket).
      destruct (poll d w0) as [r w1] eqn:Ep.
      assert (H1 : server_ok WIN32 w1 /\ history w1 = history w0 ++ [Polled d] /\ looping (pre ++ [d]) todo new its w1 /\ d ∈ dispatchers_ w1).
      { unfold poll in Ep. destruct (tape_ w0) as [|r0 t]; injection Ep as <- <-; split_and!; try done; by destruct Hok0; constructor. }
      destruct H1 as (Hok1 & Eh1 & Hl1 & Hd1). destruct (ret r =? 0).
      + destruct (network_events r) as [ff errcode].
        destruct (deliver_ok WIN32 owner Hpolite d ff errcode w1 Hok1 Hd1) as (w2 & E2 & Hok2 & (h2 & Eh2 & Hp2 & Ht2) & _).
        exists w2, (Polled d :: h2). split_and!; [done|done|by rewrite Eh2, Eh1, <- app_assoc|change (d :: polled h2 = [d]); by rewrite Hp2|].
        destruct (Ht2 _ _ _ _ Hl1) as (pre' & todo' & new' & its' & Hl' & Hs' & Ha').
        exists pre', todo', new', its'. split_and!; [done|done|]. intros x Hx. rewrite elem_of_cons. destruct (Ha' x Hx); auto.
      + exists w1, [Polled d]. split_and!; [done|done|done|done|]. exists (pre ++ [d]), todo, new, its. split_and!; [done|done|by left]. }
  destruct Hv as (w1 & h1 & E1 & Hok1 & Eh1 & Hp1 & pre' & todo' & new' & its' & Hl1 & Hs1 & Ha1). rewrite E1.
  destruct (IH pre' todo' new' its' w1 Hok1 Hl1) as (w' & h & E & Hok' & Eh & Hp & Ha); [apply sublist_length in Hs1; lia|].
  exists w', (h1 ++ h). split_and!; [done|done|by rewrite Eh, Eh1, <- app_assoc| |].
  - unfold polled in *. rewrite omap_app, Hp1. destruct (decide (d = signal_wakeup_)); cbn.
    + by constructor; transitivity todo'.
    + by constructor; transitivity todo'.
  - intros x Hx. unfold polled in *. rewrite omap_app, !elem_of_app, Hp1. apply elem_of_cons in Hx as [->|Hx].
    + destruct (decide (d = signal_wakeup_)); [by left|right; left; left; by left].
    + destruct (Ha1 x Hx) as [Hx'|?]; [|auto]. destruct (Ha x Hx') as [?|[?|?]]; auto.
Qed.
End windows.

(** ** Linux: the same for [select], and the preparation on Windows *)
Section loops.
Context {HO : Host} {EN : Errno} (owner : nat -> effect -> Server -> list client_call) (Hpolite : polite owner).

Lemma syscall_ok pf d x w : server_ok pf w -> server_ok pf (syscall d x w).2 /\ dispatchers_ (syscall d x w).2 = dispatchers_ w.
Proof. intros Hok. unfold syscall. destruct (tape_ w); cbn; (split; [by destruct Hok; constructor|done]). Qed.
Lemma plainly_IsDescriptorClosed : plainly IsDescriptorClosed.
Proof. intros [p [|r t] n i]; by repeat constructor. Qed.
Lemma closed_ok d w : server_ok LINUX w -> exists b w', closed (listener_of LINUX owner) d w = Done (b, w') /\
  server_ok LINUX w' /\ (d ∈ dispatchers_ w -> d ∈ dispatchers_ w').
Proof.
  intros Hok. unfold closed. destruct (objects w !! d) as [[p|fd flags]|] eqn:Hd; [|by eauto..].
  destruct (decide (d = signal_wakeup_)); [by eauto|]. unfold run. rewrite Hd. unfold IsDescriptorClosed, call.
  destruct (tape_ w) as [|r t] eqn:Et; cbn; eexists _, _; (split; [done|]); (split; [|done]).
  - eapply (but_is_ok LINUX d p); [|apply lookup_insert_eq|apply (ok_socket _ _ Hok d p Hd)].
    destruct (but_insert LINUX d p w (ok_is_but LINUX d w Hok) n). by constructor.
  - eapply (but_is_ok LINUX d p); [|apply lookup_insert_eq|apply (ok_socket _ _ Hok d p Hd)].
    destruct (but_insert LINUX d p w (ok_is_but LINUX d w Hok) n). by constructor.
Qed.
Local Ltac given := cbn; do 3 eexists; (split; [reflexivity|split; [done|by auto]]).
Lemma ready_ok wakeup_fd d reads writes w : server_ok LINUX w -> d ∈ dispatchers_ w -> exists ff errcode w',
  ready (listener_of LINUX owner) wakeup_fd d reads writes w = Done (ff, errcode, w') /\ server_ok LINUX w' /\ d ∈ dispatchers_ w'.
Proof.
  intros Hok Hd. unfold ready. set (fd := descriptor wakeup_fd d w).
  destruct (if bool_decide (fd ∈ reads) || bool_decide (fd ∈ writes) then _ else _) as [errcode w1] eqn:E.
  assert (Hok1 : server_ok LINUX w1 /\ d ∈ dispatchers_ w1).
  { destruct (bool_decide (fd ∈ reads) || bool_decide (fd ∈ writes)); [|by injection E as <- <-].
    pose proof (syscall_ok LINUX d (SysGetOption fd SOL_SOCKET SO_ERROR) w Hok) as [? Ed].
    destruct (syscall d _ w) as [r w2]. injection E as <- <-. cbn in *. by rewrite Ed. }
  clear E. destruct Hok1 as [Hok1 Hd1].
  destruct (decide (fd ∈ reads)); [|given].
  destruct (has _ DE_ACCEPT); [given|]. destruct (negb (errcode =? 0)); [given|].
  destruct (closed_ok d w1 Hok1) as (b & w2 & Ec & Hok2 & Hd2). rewrite Ec. given.
Qed.
Lemma dispatch_linux_ok wakeup_fd fuel : forall i reads writes w, server_ok LINUX w ->
  dispatch_linux (listener_of LINUX owner) wakeup_fd fuel i reads writes w = None \/
  exists reads' writes' w', dispatch_linux (listener_of LINUX owner) wakeup_fd fuel i reads writes w = Some (Done (reads', writes', w')) /\
    server_ok LINUX w'.
Proof.
  induction fuel as [|fuel IH]; intros i reads writes w Hok; [by left|]. cbn [dispatch_linux].
  destruct (dispatchers_ w !! i) as [d|] eqn:Hd; [|right; eauto 6]. apply list_elem_of_lookup_2 in Hd.
  set (w0 := happens (Polled d) w). assert (Hok0 : server_ok LINUX w0) by by apply happens_ok.
  destruct (ready_ok wakeup_fd d reads writes w0 Hok0 Hd) as (ff & errcode & w1 & E & Hok1 & Hd1).
  destruct (deliver_ok LINUX owner Hpolite d ff errcode w1 Hok1 Hd1) as (w2 & E2 & Hok2 & _).
  run. rewrite E. run. rewrite E2. by apply IH.
Qed.
Lemma check_signal_close_ok d w : server_ok WIN32 w -> d ∈ dispatchers_ w -> exists b w',
  check_signal_close (listener_of WIN32 owner) d w = Done (b, w') /\ server_ok WIN32 w'.
Proof.
  intros Hok Hd. unfold check_signal_close. destruct (decide (d = signal_wakeup_)) as [|H0]; [by eauto|].
  destruct (ok_objects _ _ Hok d Hd H0) as [[p|fd flags] E]; [|by destruct (ok_file _ _ Hok d fd flags E)].
  destruct (run_listener WIN32 owner Hpolite CheckSignalClose d w) as (a & w' & ? & ? & _);
    [apply keeps_CheckSignalClose|apply plainly_CheckSignalClose|done|apply kind_socket; by eexists|by eauto].
Qed.
Lemma gather_win_ok fuel : forall process_io owners w, server_ok WIN32 w ->
  gather_win (listener_of WIN32 owner) fuel process_io owners w = None \/
  exists owners' w', gather_win (listener_of WIN32 owner) fuel process_io owners w = Some (Done (owners', w')) /\ server_ok WIN32 w'.
Proof.
  assert (Hits : forall its w, server_ok WIN32 w -> server_ok WIN32 (set_iterators its w)) by (intros its w []; by constructor).
  induction fuel as [|fuel IH]; intros process_io owners w Hok; [by left|]. cbn [gather_win].
  destruct (iterators_ w) as [|i its]; [by left|]. destruct (dispatchers_ w !! i) as [d|] eqn:Hd; [|right; eauto].
  apply list_elem_of_lookup_2 in Hd. destruct (negb process_io && negb (bool_decide (d = signal_wakeup_))); [auto|].
  destruct (check_signal_close_ok d (set_iterators (S i :: its) w) (Hits _ _ Hok) Hd) as (b & w' & E & Hok'). rewrite E.
  destruct b; [auto|]. destruct (negb _); [|auto]. apply IH. by apply happens_ok.
Qed.
End loops.

(** ** Every state of a server *)
Definition PhysicalSocketServer_new (tape : list sysret) (err next : Z) : Server :=
  mkServer ∅ [signal_wakeup_] [] false false tape err next [Added signal_wakeup_].
Section reachable.
Context {HO : Host} {EN : Errno} (pf : platform).
Inductive reachable : Server -> Prop :=
  | reach_new tape err next : reachable (PhysicalSocketServer_new tape err next)
  | reach_calls l w w' : reachable w -> do_calls pf l w = Done w' -> reachable w'
  | reach_wait b its w : reachable w -> reachable (set_wait b (set_iterators its w))
  | reach_linux owner wakeup_fd fuel i reads writes w reads' writes' w' : reachable w -> pf = LINUX -> polite owner ->
      dispatch_linux (listener_of pf owner) wakeup_fd fuel i reads writes w = Some (Done (reads', writes', w')) -> reachable w'
  | reach_gather owner fuel process_io w owners w' : reachable w -> pf = WIN32 -> polite owner ->
      gather_win (listener_of pf owner) fuel process_io [] w = Some (Done (owners, w')) -> reachable w'
  | reach_win owner fuel w w' : reachable w -> pf = WIN32 -> polite owner -> (length (dispatchers_ w) < fuel)%nat ->
      dispatch_sockets (listener_of pf owner) fuel w = Some (Done w') -> reachable w'.
Lemma server_new_ok tape err next : server_ok pf (PhysicalSocketServer_new tape err next).
Proof.
  constructor; cbn.
  - apply NoDup_singleton.
  - by apply list_elem_of_singleton.
  - apply lookup_empty.
  - by intros d ->%list_elem_of_singleton.
  - intros d p. by rewrite lookup_empty.
  - intros d fd flags. by rewrite lookup_empty.
Qed.
End reachable.
Lemma dispatch_sockets_ok {HO : Host} {EN : Errno} owner fuel w : polite owner -> server_ok WIN32 w -> (length (dispatchers_ w) < fuel)%nat ->
  exists w' h, dispatch_sockets (listener_of WIN32 owner) fuel w = Some (Done w') /\ server_ok WIN32 w' /\ history w' = history w ++ h /\
    polled h `sublist_of` dispatchers_ w /\
    (forall d, d ∈ dispatchers_ w -> d = signal_wakeup_ \/ d ∈ polled h \/ Removed d ∈ h).
Proof.
  intros Hp Hok Hf. unfold dispatch_sockets.
  set (w0 := set_iterators _ w). assert (Hok0 : server_ok WIN32 w0) by (by destruct Hok; constructor).
  apply (dispatch_win_ok owner Hp fuel [] (dispatchers_ w) [] (iterators_ w) w0 Hok0); [|done].
  unfold looping, w0. cbn. rewrite app_nil_r. split_and!; [done|done|apply (ok_nodup _ _ Hok)].
Qed.
Lemma server_reachable_ok {HO : Host} {EN : Errno} pf w : reachable pf w -> server_ok pf w.
Proof.
  induction 1 as [tape err next|l w w' _ Hok E|b its w _ Hok|owner wfd fuel i r wr w r' wr' w' _ Hok -> Hp E
    |owner fuel pio w owners w' _ Hok -> Hp E|owner fuel w w' _ Hok -> Hp Hf E].
  - apply server_new_ok.
  - destruct (do_calls_ok pf l w (fun _ => False) Hok) as (w1 & E1 & Hok1 & _); [done|]. congruence.
  - by destruct Hok; constructor.
  - destruct (dispatch_linux_ok owner Hp wfd fuel i r wr w Hok) as [E1|(? & ? & w1 & E1 & Hok1)]; congruence.
  - destruct (gather_win_ok owner Hp fuel pio [] w Hok) as [E1|(? & w1 & E1 & Hok1)]; congruence.
  - destruct (dispatch_sockets_ok owner fuel w Hp Hok Hf) as (w1 & h & E1 & Hok1 & _). congruence.
Qed.

(** ** The theorems *)

(** C24. In every state of a server the list of dispatchers has each open socket once
    and no closed one, whatever the owners of sockets did when they were signalled,
    so that no program of calls makes [Remove] erase what is not there. *)
Theorem open_sockets_are_dispatchers {HO : Host} {EN : Errno} pf w : reachable pf w ->
  NoDup (dispatchers_ w) /\
  (forall d p, objects w !! d = Some (SocketDispatcher p) -> (d ∈ dispatchers_ w <-> s_ p <> INVALID_SOCKET)) /\
  (forall l, exists w', do_calls pf l w = Done w').
Proof.
  intros Hok%server_reachable_ok. split; [apply (ok_nodup _ _ Hok)|]. split.
  - intros d p Hd. pose proof (ok_socket _ _ Hok d p Hd) as Hc. unfold consistent in Hc.
    destruct (Z.eqb_spec (s_ p) INVALID_SOCKET) as [E|E]; cbn in Hc.
    + apply bool_decide_eq_false_1 in Hc. by split.
    + apply bool_decide_eq_true_1 in Hc. by split.
  - intros l. destruct (do_calls_ok pf l w (fun _ => False) Hok) as (w' & E & _); [done|]. by exists w'.
Qed.
(** C23. On Windows one pass over the sockets polls, in order and once, each socket
    that is open when it starts and that no owner closes before its turn, although
    owners may open and close any sockets while it runs and end any but the one
    whose signal they are handling ([polite]: [OnEvent] goes on to use that one);
    sockets that are opened meanwhile wait for the next pass.  The pass ends, and
    nothing undefined happens. *)
Theorem every_open_socket_is_polled {HO : Host} {EN : Errno} owner fuel w :
  polite owner -> reachable WIN32 w -> (length (dispatchers_ w) < fuel)%nat ->
  exists w' h, dispatch_sockets (listener_of WIN32 owner) fuel w = Some (Done w') /\ history w' = history w ++ h /\
    polled h `sublist_of` dispatchers_ w /\
    (forall d p, objects w !! d = Some (SocketDispatcher p) -> s_ p <> INVALID_SOCKET -> d ∈ polled h \/ Removed d ∈ h).
Proof.
  intros Hp Hok%server_reachable_ok Hf. destruct (dispatch_sockets_ok owner fuel w Hp Hok Hf) as (w' & h & E & _ & Eh & Hs & Ha).
  exists w', h. split_and!; try done. intros d p Hd Hs'. pose proof (ok_socket _ _ Hok d p Hd) as Hc. unfold consistent in Hc.
  rewrite (proj2 (Z.eqb_neq _ _)) in Hc by done. apply bool_decide_eq_true_1 in Hc.
  destruct (Ha d Hc) as [-> |]; [|done]. by rewrite (ok_signaler _ _ Hok) in Hd.
Qed.

(** ** On concrete sockets *)
Section demo.
#[local] Existing Instance little_endian.
Definition demo_peer : SocketAddress := SocketAddress_ip (IPAddress_v4 [10; 0; 0; 1]) 8131.
Definition demo_open : list client_call :=
  mjoin (map (fun d => [CallCreateAsyncSocket d false AF_INET SOCK_STREAM; CallConnect d 0 demo_peer]) [1; 2; 3]%nat).
(** What the system answers when a socket is opened as [s] and its connect gives [r]. *)
Definition opening (s r error : Z) : list sysret := [mkRet s 0 []; mkRet 0 0 []; mkRet r error []].
Definition value {A} (d : A) (o : outcome A) : A := match o with Done a => a | _ => d end.

End demo.

Section demo_windows.
#[local] Existing Instance little_endian.
#[local] Existing Instance errno_windows.
(** Three sockets are readable, and the owner of the second closes the first two and
    opens a fourth. *)
Definition closer (d : nat) (x : effect) (w : Server) : list client_call :=
  match d, x with 2%nat, SignalReadEvent => [CallClose 1; CallClose 2; CallCreateAsyncSocket 4 false AF_INET SOCK_STREAM] | _, _ => [] end.
Lemma closer_polite : polite closer.
Proof.
  intros d x w. unfold closer. destruct d as [|[|[|d]]], x; split;
    repeat (apply not_elem_of_cons; split; [done|]); apply not_elem_of_nil.
Qed.
Definition readable : sysret := mkRet 0 0 [FD_READ; 0; 0].
Definition demo_new : Server :=
  PhysicalSocketServer_new (opening 7 0 0 ++ opening 8 0 0 ++ opening 9 0 0
    ++ [readable; readable; mkRet 0 0 []; mkRet 0 0 []] ++ opening 10 0 0 ++ [readable]) 0 0.
Definition demo_windows : Server := value demo_new (do_calls WIN32 demo_open demo_new).
Lemma demo_reachable_windows : reachable WIN32 demo_windows.
Proof. eapply (reach_calls _ demo_open demo_new); [apply reach_new|]. by vm_compute. Qed.
Lemma open_sockets_are_dispatchers_witness :
  dispatchers_ demo_windows = [0; 1; 2; 3]%nat /\ NoDup (dispatchers_ demo_windows) /\
  (forall l, exists w', do_calls WIN32 l demo_windows = Done w').
Proof.
  destruct (open_sockets_are_dispatchers WIN32 demo_windows demo_reachable_windows) as (Hn & _ & Hd).
  split; [by vm_compute|]. split; [exact Hn|exact Hd].
Defined.
Lemma every_open_socket_is_polled_witness :
  polite closer /\ (length (dispatchers_ demo_windows) < 5)%nat /\
  exists w' h, dispatch_sockets (listener_of WIN32 closer) 5 demo_windows = Some (Done w') /\
    history w' = history demo_windows ++ h /\ polled h `sublist_of` dispatchers_ demo_windows.
Proof.
  assert (Hf : (length (dispatchers_ demo_windows) < 5)%nat) by (vm_compute; lia).
  split; [exact closer_polite|]. split; [exact Hf|].
  destruct (every_open_socket_is_polled closer 5 demo_windows closer_polite demo_reachable_windows Hf)
    as (w' & h & E & Eh & Hs & _).
  exists w', h. split; [exact E|]. split; [exact Eh|exact Hs].
Defined.
Example closed_and_opened_meanwhile :
  option_map (fun o => let w := value demo_new o in (dispatchers_ w, polled (history w)))
    (dispatch_sockets (listener_of WIN32 closer) 5 demo_windows)
  = Some ([0; 3; 4], [1; 2; 3])%nat.
Proof. by vm_compute. Qed.

End demo_windows.

Section demo_linux.
#[local] Existing Instance little_endian.
#[local] Existing Instance errno_linux.
(** Linux: the second socket is still connecting.  The owner of the first closes it and
    opens another, which gets its number, 8, and is told at once that it is
    connected, since 8 was ready. *)
Definition demo_linux (rest : list sysret) : Server :=
  let w := PhysicalSocketServer_new (opening 7 0 0 ++ opening 8 (-1) 115 ++ opening 9 0 0 ++ rest) 0 0 in
  value w (do_calls LINUX demo_open w).
Definition replacer (d : nat) (x : effect) (w : Server) : list client_call :=
  match d, x with
  | 1%nat, SignalReadEvent => [CallClose 2; CallCreateAsyncSocket 4 false AF_INET SOCK_STREAM; CallConnect 4 0 demo_peer]
  | _, _ => [] end.
Example reused_descriptor_connects :
  let w := demo_linux ([mkRet 0 0 [0]; mkRet 1 0 []; mkRet 0 0 []] ++ opening 8 (-1) 115 ++ [mkRet 0 0 [0]]) in
  match dispatch_linux (listener_of LINUX replacer) 3 9 0 {[7]} {[8]} w with
  | Some (Done (_, _, w')) =>
    list.last (history w') = Some (Did 4 SignalConnectEvent) /\
    match objects w' !! 4%nat with Some (SocketDispatcher p) => state_ p = CS_CONNECTED /\ error_ p = 115 | _ => False end
  | _ => False
  end.
Proof. by vm_compute. Qed.
(** The first socket closes itself, so that the loop passes over the second, whose bit
    stays in the set; the third closes the second; and [select] is asked about 8,
    which is no descriptor any more. *)
Definition quitter (d : nat) (x : effect) (w : Server) : list client_call :=
  match d, x with 1%nat, SignalReadEvent => [CallClose 1] | 3%nat, SignalReadEvent => [CallClose 2] | _, _ => [] end.
Example closed_descriptor_selected :
  let w := demo_linux (concat (replicate 9 [mkRet 0 0 [0]; mkRet 1 0 []; mkRet 0 0 []])) in
  match Wait_linux (listener_of LINUX quitter) 3 9 kForever true (0, 0)
    [mkSelect 3 0 {[7; 8; 9]} ∅ (0, 0); mkSelect (-1) 9 ∅ ∅ (0, 0)] w with
  | Some (Done (result, w')) =>
    result = false /\ dispatchers_ w' = [0; 3]%nat /\
    list.last (history w') = Some (Selects 10 {[3; 8]} {[9]} None)
  | _ => False
  end.
Proof. by vm_compute. Qed.
End demo_linux.
