(* ===== verification/SocketSession.v ===== *)
(** * vzsdk/session.cpp on event/physicalsocketserver.cpp: a session and its socket

    The handlers of a session as they run on a physical socket: the loop of
    [Session::OnReadEvent] with the calls of [Recv] it makes, [TryToWriteData] with
    its [Send].  The question is what the socket is polled for afterwards, since
    [SocketDispatcher::OnEvent] takes an event out of [enabled_events_] before it is
    signalled, and only a call of [Recv] or [Send] puts it back. *)
From S2P Require Import Prelude ByteOrder ByteBuffer.
From S2P Require Import Session.
From S2P Require Import PhysicalSocket.

Section socket_session.
Context {HO : Host} {HP : Heap} {EN : Errno} (pf : platform).

(** The loop goes on as long as [Recv] gives something: [fuel] is the number of its
    calls. *)
Fixpoint OnReadEvent_recv (fuel : nat) (now : Z) (s : Session) (e : Env) : option (Session * Env * list event) :=
  match fuel with
  | O => None
  | S fuel =>
    let '(recv_size, temp_buffer, e, _) := Recv (Z.of_nat DEFAULT_TEMP_BUFFER_SIZE) e in
    if recv_size =? SOCKET_ERROR then Some (s, e, [])
    else
      let s := set_read_buffer s (WriteBytes (read_buffer_ s) (take (Z.to_nat recv_size) temp_buffer)) in
      '(s, evs) ← ProcessInput now s;
      '(s, e, evs') ← OnReadEvent_recv fuel now s e;
      Some (s, e, evs ++ evs')
  end.
Definition TryToWriteData_send (s : Session) (e : Env) : Session * Env * list event :=
  match async_socket_ s with
  | None => (s, e, [])
  | Some _ =>
    if negb (bool_decide (state_ (sock e) = CS_CONNECTED)) || (Length (write_buffer_ s) =? 0)%nat then (s, e, [])
    else
      let data := take (Length (write_buffer_ s)) (Data (write_buffer_ s)) in
      let '(send_size, e, _) := Send pf data e in
      if send_size =? SOCKET_ERROR then (s, e, [SocketSend data])
      else (set_write_buffer s (Consume (write_buffer_ s) (Z.to_nat send_size)).2, e, [SocketSend data])
  end.

Lemma has_lor a b : has b b = true -> has (Z.lor a b) b = true.
Proof.
  unfold has. rewrite Z.land_lor_distr_l, Z.land_diag. intros H. apply negb_true_iff, Z.eqb_neq in H.
  apply negb_true_iff, Z.eqb_neq. intros [_ E]%Z.lor_eq_0_iff. done.
Qed.
(** What ends a read event: nothing more to read, or the end of the stream. *)
Definition drained (r : sysret) : Prop := ret r = 0 \/ (ret r = SOCKET_ERROR /\ IsBlockingError (err r) = true).
Definition chunk_ret (c : list Z * Z) : sysret := mkRet (Z.of_nat (length c.1)) c.2 c.1.
Definition chunk_ok (c : list Z * Z) : Prop := is_bytes c.1 /\ (0 < length c.1 <= DEFAULT_TEMP_BUFFER_SIZE)%nat.

Lemma Recv_chunk c p t n i : chunk_ok c -> exists p', Recv (Z.of_nat DEFAULT_TEMP_BUFFER_SIZE) (mkEnv p (chunk_ret c :: t) n i) =
  ((Z.of_nat (length c.1), c.1), mkEnv p' t c.2 i, [SysRecv (s_ p) (Z.of_nat DEFAULT_TEMP_BUFFER_SIZE) 0]).
Proof.
  intros [_ Hc]. unfold Recv, received_result, call, get, UpdateLastError, when, enable, modify, mbind, method_bind, mret, method_ret.
  cbn [sock tape chunk_ret ret err out]. rewrite (proj2 (Z.eqb_neq _ _)) by lia. cbn [andb app sock tape errno next_id_].
  destruct (_ || _ || _); by eexists.
Qed.
Lemma Recv_drained r p t n i : drained r -> exists p' buf, Recv (Z.of_nat DEFAULT_TEMP_BUFFER_SIZE) (mkEnv p (r :: t) n i) =
  ((SOCKET_ERROR, buf), mkEnv p' t (err r) i, [SysRecv (s_ p) (Z.of_nat DEFAULT_TEMP_BUFFER_SIZE) 0]) /\
  has (enabled_events_ p') DE_READ = true.
Proof.
  intros Hr. unfold Recv, received_result, call, get, UpdateLastError, when, enable, modify, mbind, method_bind, mret, method_ret.
  cbn -[Z.lor Z.of_nat has IsBlockingError]. destruct Hr as [E|[E Hb]]; rewrite E; cbn -[Z.lor Z.of_nat has IsBlockingError].
  - do 2 eexists. split; [done|]. by apply has_lor.
  - rewrite Hb, orb_true_r. do 2 eexists. split; [done|]. by apply has_lor.
Qed.
Lemma OnReadEvent_recv_spec now last rest : drained last -> forall chunks fuel s e s' evs, Forall chunk_ok chunks ->
  tape e = map chunk_ret chunks ++ last :: rest -> (length chunks < fuel)%nat ->
  OnReadEvent now s (map fst chunks) = Some (s', evs) ->
  exists e', OnReadEvent_recv fuel now s e = Some (s', e', evs) /\ has (enabled_events_ (sock e')) DE_READ = true /\ tape e' = rest.
Proof.
  intros Hlast. induction chunks as [|c chunks IH]; intros fuel s [p t n i] s' evs Hc Et Hf Hr;
    (destruct fuel as [|fuel]; [cbn in Hf; lia|]); cbn [tape map app] in Et; subst t; cbn [OnReadEvent_recv].
  - injection Hr as <- <-. destruct (Recv_drained last p rest n i Hlast) as (p' & buf & -> & Hh).
    rewrite Z.eqb_refl. by eexists.
  - apply Forall_cons_1 in Hc as [Hc Hcs]. destruct (Recv_chunk c p (map chunk_ret chunks ++ last :: rest) n i Hc) as (p' & ->).
    destruct Hc as [_ Hl]. rewrite (proj2 (Z.eqb_neq _ _)) by (unfold SOCKET_ERROR; lia).
    rewrite Nat2Z.id, firstn_all. cbn [map OnReadEvent] in Hr.
    destruct (ProcessInput now _) as [[s1 evs1]|]; [|done]. cbn [mbind option_bind] in *.
    destruct (OnReadEvent now s1 (map fst chunks)) as [[s2 evs2]|] eqn:E2; [|done]. injection Hr as <- <-.
    destruct (IH fuel s1 (mkEnv p' (map chunk_ret chunks ++ last :: rest) c.2 i) s2 evs2 Hcs eq_refl) as (e' & -> & Hh & Ht);
      [cbn in Hf; lia|done|]. by exists e'.
Qed.

(** C25. When a socket is readable the session takes what has arrived, however the
    system hands it out, and its events are those of the packets in it; afterwards the
    socket is polled for reading again, also at the end of the stream, where this
    is how the close is noticed. *)
Theorem read_event_rearms now chunks last rest fuel s e : session_ok s -> Forall chunk_ok chunks -> drained last ->
  tape e = map chunk_ret chunks ++ last :: rest -> (length chunks < fuel)%nat ->
  exists s' e' evs, OnReadEvent_recv fuel now s e = Some (s', e', evs) /\ session_ok s' /\
    OnReadEvent now s (map fst chunks) = Some (s', evs) /\ has (enabled_events_ (sock e')) DE_READ = true /\ tape e' = rest.
Proof.
  intros Hs Hc Hd Et Hf. assert (Hb : Forall is_bytes (map fst chunks)).
  { apply List.Forall_map. eapply List.Forall_impl; [|exact Hc]. by intros c [? _]. }
  destruct (deframes_total (contents (read_buffer_ s) ++ concat (map fst chunks))) as (ps & r & Hf').
  destruct (OnReadEvent_ok now s (map fst chunks) ps r Hs Hb Hf') as (s' & E & Hok & _).
  destruct (OnReadEvent_recv_spec now last rest Hd chunks fuel s e s' (flat_map packet_events ps) Hc Et Hf E) as (e' & E' & Hh & Ht).
  by exists s', e', (flat_map packet_events ps).
Qed.
(** C26. A send that takes only a part of the data leaves the socket unpolled for
    writing: the rest stays in the buffer of the session, and no event of the socket
    will ever ask for it.  Only a send that blocks is taken up again. *)
Theorem partial_send_stalls s e r rest : wf (write_buffer_ s) -> is_Some (async_socket_ s) -> state_ (sock e) = CS_CONNECTED ->
  contents (write_buffer_ s) <> [] -> has (enabled_events_ (sock e)) DE_WRITE = false -> tape e = r :: rest ->
  exists s' e', TryToWriteData_send s e = (s', e', [SocketSend (contents (write_buffer_ s))]) /\
    (0 <= ret r < Z.of_nat (length (contents (write_buffer_ s))) ->
      contents (write_buffer_ s') = drop (Z.to_nat (ret r)) (contents (write_buffer_ s)) /\ contents (write_buffer_ s') <> [] /\
      has (enabled_events_ (sock e')) DE_WRITE = false) /\
    (ret r = SOCKET_ERROR -> IsBlockingError (err r) = true -> s' = s /\ has (enabled_events_ (sock e')) DE_WRITE = true).
Proof.
  intros Hw [k Hk] Hst Hne Hoff Et. destruct e as [p t n i]. cbn [sock tape] in *. subst t. unfold TryToWriteData_send. rewrite Hk.
  cbn [sock]. rewrite bool_decide_eq_true_2 by done. cbn [negb orb]. pose proof (length_contents _ Hw) as Hlen.
  rewrite (proj2 (Nat.eqb_neq _ _)) by (destruct (contents (write_buffer_ s)); [done|cbn in Hlen; lia]).
  rewrite take_Data, take_ge by (done || lia).
  unfold Send, sent_result, call, get, UpdateLastError, when, enable, modify, mbind, method_bind, mret, method_ret. cbn [sock tape].
  set (b := (ret r <? 0) && IsBlockingError _).
  destruct (Z.eqb_spec (ret r) SOCKET_ERROR) as [Er|Er].
  - destruct b eqn:Eb; cbn; (rewrite Er; cbn); do 2 eexists; (split; [done|]).
    + split; [intros [? _]; exfalso; unfold SOCKET_ERROR in *; lia|]. intros _ _. split; [done|]. by apply has_lor.
    + split; [intros [? _]; exfalso; unfold SOCKET_ERROR in *; lia|]. intros _ Hb. subst b. rewrite Er in Eb. cbn in Eb. by rewrite Hb in Eb.
  - assert (Hcase : 0 <= ret r \/ ret r < 0) by lia. destruct Hcase as [Hr|Hr].
    + subst b. rewrite (proj2 (Z.ltb_ge _ _)) by done. cbn. rewrite (proj2 (Z.eqb_neq _ _)) by done.
      do 2 eexists. split; [done|]. split; [|done]. intros Hlt.
      pose proof (Consume_spec (write_buffer_ s) (Z.to_nat (ret r)) Hw) as HC.
      rewrite (proj2 (Nat.ltb_ge _ _)) in HC by lia. destruct HC as (b' & EC & Hwb & Hcb). cbn. rewrite EC. cbn.
      split; [done|]. split; [|done]. rewrite Hcb. intros E. apply (f_equal length) in E. rewrite length_drop in E. cbn in E. lia.
    + destruct b; cbn; (rewrite (proj2 (Z.eqb_neq _ _)) by done); do 2 eexists; (split; [done|]); (split; [intros [? _]; exfalso; lia|done]).
Qed.
End socket_session.

(** ** On a connected session *)
Section demo.
#[local] Existing Instance little_endian.
#[local] Existing Instance zero_heap.
#[local] Existing Instance errno_linux.
Definition connected_socket (events : Z) : PhysicalSocket := set_enabled events (PhysicalSocket_new 7 false).
Definition demo_chunks : list (list Z * Z) := [([86; 90; 0; 0], 0); ([0; 0; 0; 3; 123; 125; 0], 0)].
Lemma read_event_rearms_witness :
  let e := mkEnv (connected_socket DE_WRITE) (map chunk_ret demo_chunks ++ [mkRet (-1) 11 []]) 0 0 in
  exists s' e', OnReadEvent_recv 5 10 demo_session e = Some (s', e', [SessionPacketEvent [123; 125; 0] PACKET_TYPE_JSON]) /\
    has (enabled_events_ (sock e')) DE_READ = true.
Proof.
  intros e. assert (Hd : drained (mkRet (-1) 11 [])) by (right; by vm_compute).
  assert (Hc : Forall chunk_ok demo_chunks).
  { repeat constructor; try (unfold_words; lia); cbn; lia. }
  destruct (read_event_rearms 10 demo_chunks (mkRet (-1) 11 []) [] 5 demo_session e demo_session_ok Hc Hd eq_refl)
    as (s' & e' & evs & E & _ & Er & Hh & _); [cbn; lia|].
  assert (Hevs : evs = [SessionPacketEvent [123; 125; 0] PACKET_TYPE_JSON]) by (apply (f_equal (option_map snd)) in Er; vm_compute in Er |- *; by injection Er).
  exists s', e'. rewrite Hevs in E. split; [exact E|exact Hh].
Defined.
(** A session with a packet to send, of which the system takes five bytes. *)
Definition waiting_session : Session := (AsyncWrite demo_session (Some demo_packet.1) 3 demo_packet.2 SOCKET_ERROR).1.
Lemma partial_send_stalls_witness :
  let e := mkEnv (connected_socket DE_READ) [mkRet 5 0 []] 0 0 in
  exists s' e', TryToWriteData_send LINUX waiting_session e = (s', e', [SocketSend (contents (write_buffer_ waiting_session))]) /\
    contents (write_buffer_ s') = [0; 0; 3; 123; 125; 0] /\ has (enabled_events_ (sock e')) DE_WRITE = false.
Proof.
  intros e. assert (Hw : wf (write_buffer_ waiting_session)).
  { constructor; [by vm_compute|vm_compute; lia|vm_compute; lia| |vm_compute; split; congruence].
    apply (bool_decide_unpack _). by vm_compute. }
  destruct (partial_send_stalls LINUX waiting_session e (mkRet 5 0 []) [] Hw) as (s' & e' & E & Hp & _);
    [by eexists|done|by vm_compute|done|done|].
  destruct Hp as (Hc & _ & Hh); [split; vm_compute; congruence|]. exists s', e'. split; [exact E|]. split; [|exact Hh].
  rewrite Hc. by vm_compute.
Defined.
End demo.
