(* ===== verification/PosixSignals.v ===== *)
(** * event/physicalsocketserver.cpp: POSIX signals in the polling loop

    A signal sets a flag and writes a byte to a pipe; the loop of [Wait], which polls
    the pipe like a socket, reads bytes and calls the handlers of the flags that are
    set.  Signals arrive at any moment, on any thread, also between the steps of the
    loop, so a state is what the two share, and the loop is at one of four places.
    The list of dispatchers is that of SocketServer.v; one server has handlers, as the
    header of the code demands. *)
From stdpp Require Import gmap.
From S2P Require Import Prelude.

Definition kNumPosixSignals : nat := 128.
(** What the system does with a signal, and what the client asks for: [SIG_DFL],
    [SIG_IGN], or a function. *)
Inductive disposition := SIG_DFL | SIG_IGN | GlobalSignalHandler.
Inductive request := Default | Ignored | Function (handler : nat).
(** A call of [SetPosixSignalHandler]; [ok] is the answer of [sigaction]. *)
Record call := mkCall { signum : nat; handler : request; ok : bool }.
(** What happened: a signal was delivered, the loop called a function for one or
    found none, and a function was given to a signal or taken from it. *)
Inductive happening :=
  | Delivered (signum : nat) | Handled (signum handler : nat) | Unhandled (signum : nat)
  | Assigned (signum : nat) (handler : option nat).
(** The loop: in [select]; before the test of a flag; before it is cleared; before its
    handler is looked up.  The last three are inside [OnEvent]. *)
Inductive place := Selecting | Testing (signum : nat) | Clearing (signum : nat) | Calling (signum : nat).

(** [signal_dispatcher_]: its address and its [handlers_]; [pipe]: the bytes in it;
    [writing]: signal handlers that have set their flag and not yet written;
    [at_]: the place of the loop, and the dispatcher whose [OnEvent] runs. *)
Record Server := mkServer {
  received_signal_ : gset nat; pipe : nat; writing : nat; dispositions : gmap nat disposition;
  signal_dispatcher_ : option (nat * gmap nat nat); next_address : nat; at_ : place; running : nat; history : list happening }.
Definition set_flags (x : gset nat) (w : Server) : Server :=
  mkServer x (pipe w) (writing w) (dispositions w) (signal_dispatcher_ w) (next_address w) (at_ w) (running w) (history w).
Definition set_pipe (p n : nat) (w : Server) : Server :=
  mkServer (received_signal_ w) p n (dispositions w) (signal_dispatcher_ w) (next_address w) (at_ w) (running w) (history w).
Definition set_disposition (k : nat) (d : disposition) (w : Server) : Server :=
  mkServer (received_signal_ w) (pipe w) (writing w) (<[k := d]> (dispositions w)) (signal_dispatcher_ w) (next_address w) (at_ w) (running w) (history w).
Definition set_dispatcher (d : option (nat * gmap nat nat)) (n : nat) (w : Server) : Server :=
  mkServer (received_signal_ w) (pipe w) (writing w) (dispositions w) d n (at_ w) (running w) (history w).
Definition go_to (p : place) (w : Server) : Server :=
  mkServer (received_signal_ w) (pipe w) (writing w) (dispositions w) (signal_dispatcher_ w) (next_address w) p (running w) (history w).
Definition run_dispatcher (d : nat) (w : Server) : Server :=
  mkServer (received_signal_ w) (pipe w) (writing w) (dispositions w) (signal_dispatcher_ w) (next_address w) (at_ w) d (history w).
Definition happens (x : happening) (w : Server) : Server :=
  mkServer (received_signal_ w) (pipe w) (writing w) (dispositions w) (signal_dispatcher_ w) (next_address w) (at_ w) (running w) (history w ++ [x]).

(** ** Setting handlers *)
Definition InstallSignal (signum : nat) (d : disposition) (ok : bool) (w : Server) : bool * Server :=
  if ok then (true, set_disposition signum d w) else (false, w).
Definition HasHandlers (handlers_ : gmap nat nat) : bool := negb (bool_decide (handlers_ = ∅)).
Definition clear_handler (signum : nat) (w : Server) : Server :=
  let w := happens (Assigned signum None) w in
  match signal_dispatcher_ w with
  | Some (d, handlers_) =>
    let handlers_ := delete signum handlers_ in
    set_dispatcher (if HasHandlers handlers_ then Some (d, handlers_) else None) (next_address w) w
  | None => w
  end.
Definition set_handler (signum h : nat) (w : Server) : Server :=
  let w := happens (Assigned signum (Some h)) w in
  match signal_dispatcher_ w with
  | Some (d, handlers_) => set_dispatcher (Some (d, <[signum := h]> handlers_)) (next_address w) w
  | None => set_dispatcher (Some (next_address w, {[signum := h]})) (S (next_address w)) w
  end.
Definition SetPosixSignalHandler (c : call) (w : Server) : bool * Server :=
  match handler c with
  | Function h => InstallSignal (signum c) GlobalSignalHandler (ok c) (set_handler (signum c) h w)
  | r =>
    let '(installed, w) := InstallSignal (signum c) (match r with Default => SIG_DFL | _ => SIG_IGN end) (ok c) w in
    if installed : bool then (true, clear_handler (signum c) w) else (false, w)
  end.
Definition do_calls (l : list call) (w : Server) : Server := foldl (fun w c => snd (SetPosixSignalHandler c w)) w l.

(** ** The steps

    [capacity] of the pipe, which does not block; [user]: the calls the function [h]
    makes when it is given a signal. *)
Section steps.
Context (capacity : nat) (user : nat -> nat -> list call).
Inductive action := Deliver (signum : nat) | Write | Loop | Client (c : call).
(** The two halves of [OnPosixSignalReceived]. *)
Definition set_flag (signum : nat) (w : Server) : Server :=
  if (kNumPosixSignals <=? signum)%nat then w
  else happens (Delivered signum) (set_pipe (pipe w) (S (writing w)) (set_flags ({[signum]} ∪ received_signal_ w) w)).
Definition write_byte (w : Server) : option Server :=
  match writing w with
  | O => None
  | S n => Some (set_pipe (if (pipe w <? capacity)%nat then S (pipe w) else pipe w) n w)
  end.
(** [OnPreEvent] reads up to 16 bytes; then the loop of [OnEvent].  Its object may be
    gone when it looks for a handler. *)
Definition OnPreEvent (w : Server) : Server := set_pipe (pipe w - 16) (writing w) w.
Definition IsSignalSet (signum : nat) (w : Server) : bool := bool_decide (signum ∈ received_signal_ w).
Definition ClearSignal (signum : nat) (w : Server) : Server := set_flags (received_signal_ w ∖ {[signum]}) w.
Definition call_handler (signum : nat) (w : Server) : outcome Server :=
  match signal_dispatcher_ w with
  | Some (d, handlers_) =>
    if decide (d = running w) then
      match handlers_ !! signum with
      | None => Done (happens (Unhandled signum) w)
      | Some h => Done (do_calls (user h signum) (happens (Handled signum h) w))
      end
    else Undefined
  | None => Undefined
  end.
Definition loop_step (w : Server) : option (outcome Server) :=
  match at_ w with
  | Selecting =>
    match signal_dispatcher_ w, pipe w with
    | Some (d, _), S _ => Some (Done (go_to (Testing 0) (run_dispatcher d (OnPreEvent w))))
    | _, _ => None
    end
  | Testing k =>
    if (kNumPosixSignals <=? k)%nat then Some (Done (go_to Selecting w))
    else if IsSignalSet k w then Some (Done (go_to (Clearing k) w)) else Some (Done (go_to (Testing (S k)) w))
  | Clearing k => Some (Done (go_to (Calling k) (ClearSignal k w)))
  | Calling k => Some (w ← call_handler k w; Done (go_to (Testing (S k)) w))
  end.
(** Calls of the client are made by the thread of the loop, between two rounds. *)
Definition step (a : action) (w : Server) : option (outcome Server) :=
  match a with
  | Deliver k => match dispositions w !! k with Some GlobalSignalHandler => Some (Done (set_flag k w)) | _ => None end
  | Write => Done <$> write_byte w
  | Loop => loop_step w
  | Client c => match at_ w with Selecting => Some (Done (snd (SetPosixSignalHandler c w))) | _ => None end
  end.
Definition PhysicalSocketServer_new : Server := mkServer ∅ 0 0 ∅ None 0 Selecting 0 [].
Inductive reachable : Server -> Prop :=
  | reachable_new : reachable PhysicalSocketServer_new
  | reachable_step a w w' : reachable w -> step a w = Some (Done w') -> reachable w'.
Fixpoint exec (l : list action) (w : Server) : option (outcome Server) :=
  match l with
  | [] => Some (Done w)
  | a :: l => match step a w with Some (Done w) => exec l w | r => r end
  end.
End steps.

(** ** No signal is missed *)
(** Whether a delivery of [k] has not been answered since. *)
Definition pending (k : nat) (h : list happening) : bool :=
  foldl (fun b x => match x with
    | Delivered j => if decide (j = k) then true else b
    | Handled j _ | Unhandled j => if decide (j = k) then false else b
    | Assigned _ _ => b end) false h.
Lemma pending_app k h x : pending k (h ++ [x]) =
  match x with Delivered j => if decide (j = k) then true else pending k h
             | Handled j _ | Unhandled j => if decide (j = k) then false else pending k h
             | Assigned _ _ => pending k h end.
Proof. unfold pending. by rewrite foldl_app. Qed.
Definition answer (k : nat) (x : happening) : Prop := (exists h, x = Handled k h) \/ x = Unhandled k.
Lemma pending_answered k l1 l2 : pending k (l1 ++ Delivered k :: l2) = false ->
  exists l3 x l4, l2 = l3 ++ x :: l4 /\ answer k x.
Proof.
  induction l2 as [|x l2 IH] using rev_ind; [rewrite pending_app; by case_decide|].
  rewrite app_comm_cons, app_assoc, pending_app. intros H.
  assert (Hbefore : pending k (l1 ++ Delivered k :: l2) = false -> exists l3 y l4, l2 ++ [x] = l3 ++ y :: l4 /\ answer k y).
  { intros (l3 & y & l4 & -> & Hy)%IH. exists l3, y, (l4 ++ [x]). by rewrite <- app_assoc. }
  destruct x as [j|j h|j|j h]; try case_decide as E; try discriminate H; subst; auto.
  - exists l2, (Handled k h), []. split; [done|left; by eexists].
  - exists l2, (Unhandled k), []. split; [done|by right].
Qed.
(** Giving functions to signals answers nothing. *)
Definition assignment (x : happening) : Prop := exists k o, x = Assigned k o.
Lemma pending_assignments k h l : Forall assignment l -> pending k (h ++ l) = pending k h.
Proof.
  intros Hl. revert h. induction Hl as [|x l (j & o & ->) _ IH]; intros h; [by rewrite app_nil_r|].
  rewrite cons_middle, app_assoc, IH. apply pending_app.
Qed.

(** *** By which function *)
(** The function the signal [k] was given last. *)
Definition last_assigned (k : nat) (h : list happening) : option nat :=
  foldl (fun o x => match x with Assigned j f => if decide (j = k) then f else o | _ => o end) None h.
Lemma last_assigned_app k h x : last_assigned k (h ++ [x]) =
  match x with Assigned j f => if decide (j = k) then f else last_assigned k h | _ => last_assigned k h end.
Proof. unfold last_assigned. by rewrite foldl_app. Qed.
(** What the loop does for [k] after [h]. *)
Definition answer_after (k : nat) (h : list happening) : happening :=
  match last_assigned k h with Some f => Handled k f | None => Unhandled k end.
Definition right_answers (h : list happening) : Prop :=
  forall k l1 x l2, h = l1 ++ x :: l2 -> answer k x -> x = answer_after k l1.
Definition handlers_of (w : Server) : gmap nat nat :=
  match signal_dispatcher_ w with Some (_, handlers_) => handlers_ | None => ∅ end.
Record answers_ok (w : Server) : Prop := {
  ans_handlers : forall k, handlers_of w !! k = last_assigned k (history w);
  ans_right : right_answers (history w) }.
Lemma right_answers_app h x : right_answers h -> (forall k, answer k x -> x = answer_after k h) -> right_answers (h ++ [x]).
Proof.
  intros Hh Hx k l1 y l2 E Hy. destruct l2 as [|z l2 _] using rev_ind.
  - apply app_inj_tail in E as [-> ->]. by apply Hx.
  - rewrite app_comm_cons, app_assoc in E. apply app_inj_tail in E as [-> _]. by eapply Hh.
Qed.
Lemma happens_answers x w : (forall k o, x <> Assigned k o) -> (forall k, answer k x -> x = answer_after k (history w)) ->
  answers_ok w -> answers_ok (happens x w).
Proof.
  intros Hn Hx [H1 H2]. split; [|by apply right_answers_app].
  intros k. cbn [happens history]. rewrite last_assigned_app. rewrite <- H1. destruct x as [j|j h|j|j o]; try done. by destruct (Hn j o).
Qed.
Lemma assigned_answers k o w d n : answers_ok w ->
  match d with Some (_, hs) => hs | None => ∅ end = partial_alter (fun _ => o) k (handlers_of w) ->
  answers_ok (set_dispatcher d n (happens (Assigned k o) w)).
Proof.
  intros [H1 H2] E. split.
  - intros j. cbn [set_dispatcher happens history]. rewrite last_assigned_app. unfold handlers_of. cbn [set_dispatcher signal_dispatcher_].
    rewrite E. case_decide as Ej; [subst; apply lookup_partial_alter_eq|]. by rewrite lookup_partial_alter_ne.
  - apply right_answers_app; [done|]. by intros j [[h [=]]|[=]].
Qed.
Lemma SetPosixSignalHandler_answers c w : answers_ok w -> answers_ok (SetPosixSignalHandler c w).2.
Proof.
  intros H. assert (Hset : forall h, answers_ok (set_handler (signum c) h w)).
  { intros h. unfold set_handler. cbn [happens signal_dispatcher_].
    destruct (signal_dispatcher_ w) as [[d hs]|] eqn:Ed; apply assigned_answers; unfold handlers_of; rewrite ?Ed; done. }
  assert (Hclear : forall w, answers_ok w -> answers_ok (clear_handler (signum c) w)).
  { clear. intros w H. unfold clear_handler. cbn [happens signal_dispatcher_].
    destruct (signal_dispatcher_ w) as [[d hs]|] eqn:Ed.
    - apply assigned_answers; [done|]. unfold handlers_of, HasHandlers. rewrite Ed. case_bool_decide as E; [|done]. exact (eq_sym E).
    - replace (happens (Assigned (signum c) None) w) with (set_dispatcher None (next_address w) (happens (Assigned (signum c) None) w))
        by (destruct w; cbn in *; by subst).
      apply assigned_answers; [done|]. unfold handlers_of. rewrite Ed. symmetry. exact (delete_empty (M := gmap nat) (signum c)). }
  unfold SetPosixSignalHandler, InstallSignal. destruct (handler c), (ok c); cbn [snd]; auto.
  - apply Hclear. by destruct H.
  - apply Hclear. by destruct H.
  - destruct (Hset handler0). by split.
Qed.
Lemma do_calls_answers l : forall w, answers_ok w -> answers_ok (do_calls l w).
Proof.
  induction l as [|c l IH]; intros w Hw; [done|]. cbn [do_calls foldl]. by apply IH, SetPosixSignalHandler_answers.
Qed.

(** The loop will still look at the flag of [k] in this round. *)
Definition ahead (p : place) (k : nat) : Prop :=
  match p with Selecting => False | Testing i | Clearing i => (i <= k)%nat | Calling i => (i < k)%nat end.
Definition in_range (p : place) : Prop :=
  match p with Selecting => True | Testing i => (i <= kNumPosixSignals)%nat | Clearing i | Calling i => (i < kNumPosixSignals)%nat end.
Record invariant (w : Server) : Prop := {
  inv_place : in_range (at_ w);
  inv_pending : forall k, pending k (history w) = true -> k ∈ received_signal_ w \/ at_ w = Calling k;
  inv_flag : forall k, k ∈ received_signal_ w -> (k < kNumPosixSignals)%nat /\ ((0 < pipe w)%nat \/ (0 < writing w)%nat \/ ahead (at_ w) k) }.

(** What the calls of the client leave alone. *)
Definition same_signals (w w' : Server) : Prop :=
  received_signal_ w' = received_signal_ w /\ pipe w' = pipe w /\ writing w' = writing w /\ at_ w' = at_ w /\
  exists l, Forall assignment l /\ history w' = history w ++ l.
Lemma same_signals_refl w w' : received_signal_ w' = received_signal_ w -> pipe w' = pipe w -> writing w' = writing w ->
  at_ w' = at_ w -> history w' = history w -> same_signals w w'.
Proof. intros. split_and!; [done..|]. exists []. split; [constructor|by rewrite app_nil_r]. Qed.
Lemma same_signals_assigned w w' k o : received_signal_ w' = received_signal_ w -> pipe w' = pipe w -> writing w' = writing w ->
  at_ w' = at_ w -> history w' = history w ++ [Assigned k o] -> same_signals w w'.
Proof. intros. split_and!; [done..|]. exists [Assigned k o]. split; [|done]. repeat constructor. by eexists _, _. Qed.
Lemma SetPosixSignalHandler_same c w : same_signals w (SetPosixSignalHandler c w).2.
Proof.
  unfold SetPosixSignalHandler, set_handler, clear_handler, InstallSignal.
  destruct (handler c), (ok c); cbn; try (by apply same_signals_refl); destruct (signal_dispatcher_ w) as [[d hs]|];
    by eapply same_signals_assigned.
Qed.
Lemma do_calls_same l : forall w, same_signals w (do_calls l w).
Proof.
  induction l as [|c l IH]; intros w; [by apply same_signals_refl|]. cbn [do_calls foldl].
  pose proof (SetPosixSignalHandler_same c w) as (F & P & W & A & h & Hh & H).
  destruct (IH (SetPosixSignalHandler c w).2) as (F' & P' & W' & A' & h' & Hh' & H'). unfold do_calls in *.
  split_and!; [congruence..|]. exists (h ++ h'). split; [by apply Forall_app|]. by rewrite H', H, app_assoc.
Qed.
Lemma same_invariant w w' : same_signals w w' -> invariant w -> invariant w'.
Proof.
  intros (F & P & W & A & l & Hl & H) [I1 I2 I3]. split; rewrite ?F, ?P, ?W, ?A; [done| |done].
  intros k. rewrite H, pending_assignments by done. apply I2.
Qed.

Section proofs.
Context (capacity : nat) (user : nat -> nat -> list call) (Hcap : (0 < capacity)%nat).
Abbreviation step := (step capacity user).
Abbreviation exec := (exec capacity user).
Lemma set_flag_invariant k w : invariant w -> invariant (set_flag k w).
Proof.
  intros [I1 I2 I3]. unfold set_flag. destruct (Nat.leb_spec kNumPosixSignals k) as [|Hk]; [done|]. split; [done|..]; cbn -[pending].
  - intros j. rewrite pending_app. case_decide as E; [subst; left; apply elem_of_union; left; by apply elem_of_singleton|].
    intros [?|?]%I2; [left; by apply elem_of_union; right|by right].
  - intros j [->%elem_of_singleton|Hj]%elem_of_union; [split; [done|right; left; lia]|].
    destruct (I3 j Hj) as [? _]. split; [done|right; left; lia].
Qed.
Lemma write_byte_invariant w w' : write_byte capacity w = Some w' -> invariant w -> invariant w'.
Proof.
  unfold write_byte. destruct (writing w) as [|n]; [done|]. intros [= <-] [I1 I2 I3]. split; [done..|]; cbn -[pending Nat.ltb].
  intros k Hk. destruct (I3 k Hk) as [? _]. split; [done|left]. destruct (Nat.ltb_spec (pipe w) capacity); lia.
Qed.
Lemma answered_invariant k x w w' : answer k x -> at_ w = Calling k -> same_signals (happens x w) w' -> invariant w ->
  invariant (go_to (Testing (S k)) w').
Proof.
  intros Hx Ha (F & P & W & A & l & Hl & H) [I1 I2 I3]. rewrite Ha in *. split; cbn -[pending]; rewrite ?F, ?P, ?W; cbn -[pending].
  - exact I1.
  - intros j. rewrite H, pending_assignments by done. cbn [happens history]. rewrite pending_app. destruct Hx as [[h ->]| ->]; case_decide as E; try done; intros [?|[= ->]]%I2; by auto.
  - intros j Hj. destruct (I3 j Hj) as [? [?|[?|?]]]; auto.
Qed.
Lemma loop_step_invariant w w' : loop_step user w = Some (Done w') -> invariant w -> invariant w'.
Proof.
  unfold loop_step. intros E I. pose proof I as [I1 I2 I3]. destruct (at_ w) as [|k|k|k] eqn:Ea.
  - destruct (signal_dispatcher_ w) as [[d hs]|], (pipe w) as [|n] eqn:Ep; try discriminate E. injection E as <-. split; cbn -[pending].
    + unfold kNumPosixSignals. lia.
    + intros j Hj. left. by destruct (I2 j Hj).
    + intros j Hj. destruct (I3 j Hj) as [? _]. split; [done|]. right. right. lia.
  - destruct (Nat.leb_spec kNumPosixSignals k) as [Hk|Hk]; [injection E as <-|unfold IsSignalSet in E; case_bool_decide as Hf; injection E as <-]; split; cbn -[pending]; try done.
    + intros j Hj. left. by destruct (I2 j Hj).
    + intros j Hj. destruct (I3 j Hj) as [? [?|[?|?]]]; split; auto. cbn in *. lia.
    + intros j Hj. left. by destruct (I2 j Hj).
    + intros j Hj. left. by destruct (I2 j Hj).
    + intros j Hj. destruct (I3 j Hj) as [? [?|[?|Ht]]]; split; auto. right. right. cbn in Ht.
      destruct (decide (j = k)) as [->|]; [done|lia].
  - injection E as <-. split; cbn -[pending]; [done|..].
    + intros j Hj. destruct (decide (j = k)) as [->|]; [by right|]. left. destruct (I2 j Hj) as [?|?]; [by apply elem_of_difference; split; [|intros ->%elem_of_singleton]|congruence].
    + intros j [Hj Hne]%elem_of_difference. destruct (I3 j Hj) as [? [?|[?|Ht]]]; split; auto. right. right. cbn in Ht. set_unfold. lia.
  - unfold call_handler in E. destruct (signal_dispatcher_ w) as [[d hs]|]; [|discriminate E]. case_decide; [|discriminate E].
    destruct (hs !! k) as [h|]; injection E as <-.
    + apply (answered_invariant k (Handled k h) w); [left; by eexists|done|apply do_calls_same|done].
    + apply (answered_invariant k (Unhandled k) w); [by right|done|by apply same_signals_refl|done].
Qed.
Lemma step_invariant a w w' : step a w = Some (Done w') -> invariant w -> invariant w'.
Proof.
  destruct a as [k| | |c]; cbn [PosixSignals.step].
  - destruct (dispositions w !! k) as [[]|]; try done. intros [= <-]. apply set_flag_invariant.
  - destruct (write_byte capacity w) as [w1|] eqn:E; [|done]. intros [= <-]. by apply write_byte_invariant.
  - apply loop_step_invariant.
  - destruct (at_ w); try done. intros [= <-]. apply same_invariant, SetPosixSignalHandler_same.
Qed.
Lemma reachable_signals_ok w : reachable capacity user w -> invariant w.
Proof. induction 1 as [|a w w' _ IH E]; [|by eapply step_invariant]. split; [done|..]; cbn; [done|set_solver]. Qed.

Lemma kept_answers w w' : signal_dispatcher_ w' = signal_dispatcher_ w -> history w' = history w -> answers_ok w -> answers_ok w'.
Proof. intros D H [H1 H2]. split; unfold handlers_of in *; by rewrite ?D, ?H. Qed.
Lemma call_handler_answers k w w' : call_handler user k w = Done w' -> answers_ok w -> answers_ok w'.
Proof.
  unfold call_handler. intros E Hw. destruct (signal_dispatcher_ w) as [[d hs]|] eqn:Ed; [|done]. case_decide; [|done].
  pose proof (ans_handlers w Hw k) as Hk. unfold handlers_of in Hk. rewrite Ed in Hk.
  destruct (hs !! k) as [h|]; injection E as <-; [apply do_calls_answers|]; (apply happens_answers; [done| |done]);
    intros j [[f [= -> ->]]|[= ->]]; unfold answer_after; by rewrite <- Hk.
Qed.
Lemma step_answers a w w' : step a w = Some (Done w') -> answers_ok w -> answers_ok w'.
Proof.
  intros E Hw. destruct a as [k| | |c]; cbn [PosixSignals.step] in E.
  - destruct (dispositions w !! k) as [[]|]; try done. injection E as <-. unfold set_flag. case_match; [done|].
    apply happens_answers; [done|by intros j [[h [=]]|[=]]|by apply (kept_answers w)].
  - unfold write_byte in E. destruct (writing w); [done|]. injection E as <-. by apply (kept_answers w).
  - unfold loop_step in E. destruct (at_ w).
    + destruct (signal_dispatcher_ w) as [[d hs]|] eqn:Ed, (pipe w); try discriminate E. injection E as <-. by apply (kept_answers w).
    + repeat case_match; injection E as <-; by apply (kept_answers w).
    + injection E as <-. by apply (kept_answers w).
    + destruct (call_handler user signum0 w) as [w1| |] eqn:Ec; try done. injection E as <-.
      apply (kept_answers w1); [done..|]. by eapply call_handler_answers.
  - destruct (at_ w); try done. injection E as <-. by apply SetPosixSignalHandler_answers.
Qed.
Lemma reachable_answers w : reachable capacity user w -> answers_ok w.
Proof.
  induction 1 as [|a w w' _ IH E]; [|by eapply step_answers]. split; [done|]. intros k [|? ?] x l2; done.
Qed.

(** *** The loop comes to rest *)
(** Steps that are left to what has arrived: a round of the loop is 385 at most. *)
Definition rank (p : place) : nat :=
  match p with
  | Selecting => 0 | Testing i => 3 * (kNumPosixSignals - i) + 1
  | Clearing i => 3 * (kNumPosixSignals - i) | Calling i => 3 * (kNumPosixSignals - i) - 1 end.
Definition measure (w : Server) : nat := 387 * writing w + 386 * pipe w + rank (at_ w).
(** Functions that set handlers, if anything, and clear none. *)
Definition sets (c : call) : Prop := match handler c with Function _ => True | _ => False end.
Definition running_lives (w : Server) : Prop := at_ w = Selecting \/ exists hs, signal_dispatcher_ w = Some (running w, hs).
Lemma do_calls_sets l : forall w hs, Forall sets l -> signal_dispatcher_ w = Some (running w, hs) ->
  exists hs', signal_dispatcher_ (do_calls l w) = Some (running (do_calls l w), hs').
Proof.
  induction l as [|c l IH]; intros w hs Hl Hw; [by exists hs|].
  pose proof (Forall_inv Hl) as Hc. unfold sets in Hc. cbn [do_calls foldl]. destruct (handler c) as [| |h] eqn:Eh; try done.
  apply (IH _ (<[signum c := h]> hs) (Forall_inv_tail Hl)).
  unfold SetPosixSignalHandler. rewrite Eh. unfold set_handler, InstallSignal. cbn [happens signal_dispatcher_]. rewrite Hw. by destruct (ok c).
Qed.
Context (Hsets : forall h k, Forall sets (user h k)).
Definition internal (a : action) : Prop := a = Write \/ a = Loop.
Lemma internal_step a w r : internal a -> in_range (at_ w) -> running_lives w -> step a w = Some r ->
  exists w', r = Done w' /\ (measure w' < measure w)%nat /\ running_lives w'.
Proof.
  unfold measure. intros [-> | ->] Hr Hl E; cbn [PosixSignals.step] in E.
  - unfold write_byte in E. destruct (writing w) as [|n]; [done|]. injection E as <-. eexists. split; [done|]. split; [|exact Hl].
    cbn -[Nat.mul Nat.ltb rank]. destruct (Nat.ltb_spec (pipe w) capacity); lia.
  - unfold loop_step in E. destruct (at_ w) as [|k|k|k] eqn:Ea.
    + destruct (signal_dispatcher_ w) as [[d hs]|] eqn:Ed, (pipe w) as [|n] eqn:Ep; try discriminate E. injection E as <-.
      eexists. split; [done|]. split; [|by right; exists hs]. unfold OnPreEvent. rewrite Ep.
      cbn -[Nat.mul Nat.sub rank]. change (rank (Testing 0)) with 385%nat. lia.
    + destruct Hl as [|[hs Hd]]; [congruence|].
      destruct (Nat.leb_spec kNumPosixSignals k) as [Hk|Hk]; [|destruct (IsSignalSet k w)]; injection E as <-; eexists; (split; [done|]);
        (split; [|first [by left|right; by exists hs]]); cbn -[Nat.mul Nat.sub kNumPosixSignals]; lia.
    + destruct Hl as [|[hs Hd]]; [congruence|]. injection E as <-. eexists. split; [done|]. split; [|right; by exists hs].
      cbn -[Nat.mul Nat.sub kNumPosixSignals]. cbn [in_range] in Hr. lia.
    + destruct Hl as [|[hs Hd]]; [congruence|]. unfold call_handler in E. rewrite Hd, decide_True in E by done.
      destruct (hs !! k) as [h|]; injection E as <-; eexists; (split; [done|]).
      * destruct (do_calls_same (user h k) (happens (Handled k h) w)) as (_ & P & W & _ & _).
        destruct (do_calls_sets (user h k) (happens (Handled k h) w) hs (Hsets h k) Hd) as [hs' Hd'].
        split; [|right; by exists hs']. cbn [go_to pipe writing at_ rank]. rewrite P, W. cbn [happens pipe writing]. unfold in_range in Hr. lia.
      * split; [|right; by exists hs]. cbn [happens go_to pipe writing at_ rank]. unfold in_range in Hr. lia.
Qed.
Lemma other_step_lives a w w' : ~ internal a -> running_lives w -> step a w = Some (Done w') -> running_lives w'.
Proof.
  intros Ha Hl E. destruct a as [k| | |c]; cbn [PosixSignals.step] in E; try (exfalso; apply Ha; by (left + right)).
  - destruct (dispositions w !! k) as [[]|]; try done. injection E as <-. unfold set_flag. by destruct (_ <=? _)%nat.
  - destruct (at_ w) eqn:Ea; try done. injection E as <-. left. by destruct (SetPosixSignalHandler_same c w) as (_ & _ & _ & -> & _).
Qed.
Lemma reachable_lives w : reachable capacity user w -> running_lives w.
Proof.
  induction 1 as [|a w w' Hr IH E]; [by left|]. destruct a as [k| | |c].
  - apply (other_step_lives (Deliver k) w); [by intros [H|H]|exact IH|exact E].
  - destruct (internal_step Write w _ ltac:(by left) (inv_place _ (reachable_signals_ok _ Hr)) IH E) as (w1 & [= <-] & _ & H). done.
  - destruct (internal_step Loop w _ ltac:(by right) (inv_place _ (reachable_signals_ok _ Hr)) IH E) as (w1 & [= <-] & _ & H). done.
  - apply (other_step_lives (Client c) w); [by intros [H|H]|exact IH|exact E].
Qed.
Lemma exec_internal l : forall w r, Forall internal l -> reachable capacity user w -> exec l w = Some r ->
  exists w', r = Done w' /\ reachable capacity user w' /\ (length l + measure w' <= measure w)%nat.
Proof.
  induction l as [|a l IH]; intros w r Hl Hr E; cbn [PosixSignals.exec] in E.
  - injection E as <-. by exists w.
  - destruct (step a w) as [r1|] eqn:E1; [|done].
    destruct (internal_step a w r1 (Forall_inv Hl) (inv_place _ (reachable_signals_ok _ Hr)) (reachable_lives w Hr) E1) as (w1 & -> & Hm & _).
    destruct (IH w1 r (Forall_inv_tail Hl) (reachable_step _ _ _ _ _ Hr E1) E) as (w' & -> & Hr' & Hm'). exists w'. split_and!; [done..|].
    cbn [length]. lia.
Qed.
Lemma stuck_answers w : reachable capacity user w -> step Write w = None -> step Loop w = None -> is_Some (signal_dispatcher_ w) ->
  forall k, pending k (history w) = false.
Proof.
  intros Hr H1 H2 [[d hs] Hd] k. destruct (reachable_signals_ok _ Hr) as [_ I2 I3]. cbn [PosixSignals.step] in *.
  unfold write_byte in H1. destruct (writing w) eqn:Ew; [|done].
  unfold loop_step in H2. destruct (at_ w) eqn:Ea; [|by repeat case_match|done|done].
  rewrite Hd in H2. destruct (pipe w) eqn:Ep; [|done].
  destruct (pending k (history w)) eqn:Ek; [|done]. destruct (I2 k Ek) as [Hf|Hf]; [|done].
  destruct (I3 k Hf) as [_ [?|[?|[]]]]; lia.
Qed.
End proofs.

(** C27. Whatever signals arrive at whatever moments, also while their functions run, if
    these functions, when they set handlers at all, set functions and clear none: when no
    more signals arrive, the loop comes to rest within a number of steps that the state
    bounds, never using a dispatcher that is gone.  Then, if the client has not cleared
    all handlers, each signal that was delivered was answered afterwards: the function
    that it had been given last by then was called with it, or it had none. *)
Theorem signals_are_handled capacity user w schedule r :
  (0 < capacity)%nat -> (forall h k, Forall sets (user h k)) -> reachable capacity user w ->
  Forall internal schedule -> exec capacity user schedule w = Some r ->
  exists w', r = Done w' /\ (length schedule <= measure w)%nat /\
    (step capacity user Write w' = None -> step capacity user Loop w' = None -> is_Some (signal_dispatcher_ w') ->
     forall k l1 l2, history w' = l1 ++ Delivered k :: l2 ->
     exists l3 l4, l2 = l3 ++ answer_after k (l1 ++ Delivered k :: l3) :: l4).
Proof.
  intros Hcap Hsets Hr Hl E. destruct (exec_internal capacity user Hcap Hsets schedule w r Hl Hr E) as (w' & -> & Hr' & Hm).
  exists w'. split; [done|]. split; [lia|]. intros H1 H2 Hd k l1 l2 Hh.
  destruct (pending_answered k l1 l2) as (l3 & x & l4 & -> & Hx).
  { rewrite <- Hh. by apply (stuck_answers capacity user Hcap). }
  exists l3, l4. do 2 f_equal. eapply (ans_right w' (reachable_answers capacity user w' Hr')); [|exact Hx].
  rewrite Hh. by rewrite <- app_assoc.
Qed.

(** ** Examples *)
(** Signal 15 has the function 1; it arrives twice. *)
Definition demo_setup : list action := [Client (mkCall 15 (Function 1) true); Deliver 15; Write; Deliver 15].
Definition no_calls (h k : nat) : list call := [].
Definition demo_state : Server :=
  match exec 4096 no_calls demo_setup PhysicalSocketServer_new with Some (Done w) => w | _ => PhysicalSocketServer_new end.
Lemma signals_exec_reachable capacity user l : forall w w', reachable capacity user w -> exec capacity user l w = Some (Done w') ->
  reachable capacity user w'.
Proof.
  induction l as [|a l IH]; intros w w' Hr E; cbn [exec] in E; [by injection E as <-|].
  destruct (step capacity user a w) as [[w1| |]|] eqn:E1; try done. apply (IH w1); [by eapply reachable_step|done].
Qed.
Lemma loops_internal n : Forall internal (replicate n Loop).
Proof. induction n; [constructor|]. constructor; [by right|done]. Qed.
Definition demo_schedule : list action := Write :: replicate 132 Loop.
Lemma signals_are_handled_witness :
  exists w', exec 4096 no_calls demo_schedule demo_state = Some (Done w') /\ (133 <= measure demo_state)%nat /\
    (step 4096 no_calls Write w' = None -> step 4096 no_calls Loop w' = None -> is_Some (signal_dispatcher_ w') ->
     forall k l1 l2, history w' = l1 ++ Delivered k :: l2 ->
     exists l3 l4, l2 = l3 ++ answer_after k (l1 ++ Delivered k :: l3) :: l4).
Proof.
  destruct (exec 4096 no_calls demo_schedule demo_state) as [r|] eqn:E; [|vm_compute in E; discriminate E].
  destruct (signals_are_handled 4096 no_calls demo_state demo_schedule r) as (w' & -> & Hm & H).
  - apply Nat.ltb_lt. vm_compute. reflexivity.
  - intros h k. constructor.
  - apply (signals_exec_reachable 4096 no_calls demo_setup PhysicalSocketServer_new); [constructor|vm_compute; reflexivity].
  - constructor; [by left|exact (loops_internal 132)].
  - exact E.
  - exists w'. split; [done|]. split; [exact Hm|exact H].
Defined.
(** It was handled once, after both. *)
Example two_deliveries_one_call :
  match exec 4096 no_calls demo_schedule demo_state with
  | Some (Done w) => history w = [Assigned 15 (Some 1%nat); Delivered 15; Delivered 15; Handled 15 1] /\ at_ w = Selecting /\ pipe w = 0%nat
  | _ => False
  end.
Proof. vm_compute. done. Qed.
(** A function that resets its own signal, the only one with a handler, deletes the
    dispatcher whose [OnEvent] called it; the next flag is looked up in what is gone. *)
Definition resets (h k : nat) : list call := if (h =? 1)%nat then [mkCall k Default true] else [].
Example reset_in_handler :
  exec 4096 resets ([Client (mkCall 12 (Function 2) true); Client (mkCall 10 (Function 1) true);
    Deliver 12; Write; Client (mkCall 12 Default true); Deliver 10; Write] ++ replicate 18 Loop) PhysicalSocketServer_new =
  Some Undefined.
Proof. vm_compute. done. Qed.
(** When the system refuses, the handler stays although the call fails. *)
Example refused_handler_stays :
  let r := SetPosixSignalHandler (mkCall 9 (Function 1) false) PhysicalSocketServer_new in
  r.1 = false /\ signal_dispatcher_ r.2 = Some (0%nat, {[9%nat := 1%nat]}).
Proof. vm_compute. done. Qed.
