(* ===== verification/WinPing.v ===== *)
(** * base/winping.cpp: pinging on Windows

    [WinPing] loads the ICMP functions of a system library, opens handles with them and sends echo requests from buffers that it
    keeps and that only grow.  What the library has and what it answers are arguments; [PhysicalSocket.EstimateMTU] takes its pings from here.
    Reading [hping6_] before it was set is undefined. *)
From S2P Require Import Prelude InetText IpAddress PhysicalSocket.

Inductive handle := INVALID_HANDLE_VALUE | Handle (h : Z).
#[global] Instance handle_eq_dec : EqDecision handle.
Proof. solve_decision. Defined.
(** The functions that are found; those that open give a handle. *)
Record Dll := mkDll { IcmpCreateFile : option handle; IcmpCloseHandle : bool; IcmpSendEcho : bool; Icmp6CreateFile : option handle; Icmp6SendEcho2 : bool }.
(** [hping6_] is [None] until it is set; [reply_] is the size of the buffer. *)
Record WinPing := mkWinPing { hping_ : handle; hping6_ : option handle; close_ : bool; send_ : bool; send6_ : bool;
  data_ : list Z; dlen_ : Z; reply_ : Z; rlen_ : Z; valid_ : bool }.
Record EchoRequest := mkEchoRequest { IcmpHandle : handle; DestinationAddress : list Z; RequestData : list Z; RequestSize : Z;
  Flags : Z; Ttl : Z; ReplyBuffer : Z; ReplyLength : Z; Timeout_ : Z }.
Definition IP_PACKET_TOO_BIG : Z := 11009.
Definition IP_REQ_TIMED_OUT : Z := 11010.
Definition IP_FLAG_DF : Z := 2.

(** ** Whether the host has IPv6 (base/nethelpers.cpp, base/win32.cpp)

    [GetOsVersion] has lost its body.  The enumeration of protocols is asked again while the buffer is too small; [None]: it still is. *)
Definition GetOsVersion : option (Z * Z) := None.
Definition kWindows2000 : Z := 5.
Definition kWindowsVista : Z := 6.
Definition IsWindowsVistaOrLater (version : option (Z * Z)) : bool := match version with Some (major, _) => kWindowsVista <=? major | None => false end.
Definition IsWindowsXpOrLater (version : option (Z * Z)) : bool :=
  match version with Some (major, minor) => (kWindowsVista <=? major) || ((major =? kWindows2000) && (1 <=? minor)) | None => false end.
Inductive enumeration := WSAENOBUFS | SOCKET_ERROR | Protocols (iAddressFamily : list Z).
Fixpoint WSCEnumProtocols (answers : list enumeration) : option enumeration :=
  match answers with [] => None | WSAENOBUFS :: answers => WSCEnumProtocols answers | a :: _ => Some a end.
Definition HasIPv6Enabled (pf : platform) (version : option (Z * Z)) (answers : list enumeration) : option bool :=
  match pf with
  | LINUX => Some true
  | WIN32 =>
    if IsWindowsVistaOrLater version then Some true else if negb (IsWindowsXpOrLater version) then Some false
    else ret ← WSCEnumProtocols answers; Some (match ret with Protocols l => existsb (fun f => f =? AF_INET6) l | _ => false end)
  end.

Section winping.
(** The size of a pointer; what an echo request returns with the error it leaves; the error before it. *)
Context (sizeof_pointer : Z) (echo : EchoRequest -> Z * Z) (GetLastError : Z).
Definition sizeof_ICMP_ECHO_REPLY : Z := 16 + 3 * sizeof_pointer.
Definition sizeof_ICMPV6_ECHO_REPLY : Z := 36.
Definition ReplySize (data_size family : Z) : Z :=
  if family =? AF_INET then u32 (sizeof_ICMP_ECHO_REPLY + Z.max 8 data_size)
  else if family =? AF_INET6 then u32 (sizeof_ICMPV6_ECHO_REPLY + data_size + 8 + 2 * sizeof_pointer) else 0.

Definition WinPing_new (dll : option Dll) (ipv6 : bool) : WinPing :=
  let rlen := ReplySize 0 AF_INET in
  let fails h h6 c s s6 := mkWinPing h h6 c s s6 [] 0 0 0 false in
  match dll with
  | None => fails INVALID_HANDLE_VALUE None false false false
  | Some d =>
    match IcmpCreateFile d, IcmpCloseHandle d, IcmpSendEcho d with
    | Some INVALID_HANDLE_VALUE, true, true => fails INVALID_HANDLE_VALUE None true true false
    | Some h, true, true =>
      if ipv6 then
        match Icmp6CreateFile d, Icmp6SendEcho2 d with
        | Some h6, true => mkWinPing h (Some h6) true true true [] 0 rlen rlen true
        | _, s6 => fails h None true true s6
        end
      else mkWinPing h None true true false [] 0 rlen rlen true
    | _, c, s => fails INVALID_HANDLE_VALUE None c s false
    end
  end.
(** The handles that are closed. *)
Definition delete_WinPing (p : WinPing) : outcome (list handle) :=
  let closed h := if bool_decide (h <> INVALID_HANDLE_VALUE) && close_ p then [h] else [] in
  h6 ← lift_undefined (hping6_ p); Done (closed (hping_ p) ++ closed h6).

(** [result == 0]: which error it was. *)
Definition PingResult_of (answer : Z * Z) : PingResult :=
  if answer.1 =? 0 then
    if answer.2 =? IP_PACKET_TOO_BIG then PING_TOO_LARGE else if answer.2 =? IP_REQ_TIMED_OUT then PING_TIMEOUT else PING_FAIL
  else PING_SUCCESS.
Definition grow (data_size reply_size : Z) (p : WinPing) : WinPing :=
  let (data, dlen) := if dlen_ p <? data_size then (replicate (Z.to_nat data_size) 122, data_size) else (data_ p, dlen_ p) in
  let (reply, rlen) := if rlen_ p <? reply_size then (reply_size, reply_size) else (reply_ p, rlen_ p) in
  mkWinPing (hping_ p) (hping6_ p) (close_ p) (send_ p) (send6_ p) data dlen reply rlen (valid_ p).
Record call := mkCall { to : IPAddress; data_size : Z; timeout : Z; ttl : Z; allow_fragments : bool }.
(** With the request that was sent, if one was. *)
Definition Ping (c : call) (p : WinPing) : outcome ((PingResult * option EchoRequest) * WinPing) :=
  if (data_size c =? 0) || (timeout c =? 0) || (ttl c =? 0) then Done (PING_INVALID_PARAMS, None, p)
  else
    let flags := if allow_fragments c then 0 else IP_FLAG_DF in
    let reply_size := ReplySize (data_size c) (family_ (to c)) in
    let p := grow (data_size c) reply_size p in
    let request h size := mkEchoRequest h (u_ (to c)) (data_ p) size flags (ttl c) (reply_ p) reply_size (timeout c) in
    let sent q := Done (PingResult_of (echo q), Some q, p) in
    if family_ (to c) =? AF_INET then if send_ p then sent (request (hping_ p) (u16 (data_size c))) else Undefined
    else if family_ (to c) =? AF_INET6 then
      h6 ← lift_undefined (hping6_ p); if send6_ p then sent (request h6 (u16 (wrap 16 (data_size c + 2 ^ 15) - 2 ^ 15))) else Undefined
    else Done (PingResult_of (0, GetLastError), None, p).
Fixpoint pings (l : list call) (p : WinPing) : outcome (list (PingResult * option EchoRequest) * WinPing) :=
  match l with [] => Done ([], p) | c :: l => '(r, p) ← Ping c p; '(rs, p) ← pings l p; Done (r :: rs, p) end.

(** ** The buffers fit *)
Context (Hpointer : 0 <= sizeof_pointer <= 8).
Definition plain_call (c : call) : Prop := 0 <= data_size c < 2 ^ 16.
(** Requests over IPv6 need its handle. *)
Definition addressable (p : WinPing) (c : call) : Prop := family_ (to c) = AF_INET6 -> is_Some (hping6_ p).
Record ready (p : WinPing) : Prop := {
  ready_data : data_ p = replicate (Z.to_nat (dlen_ p)) 122 /\ 0 <= dlen_ p;
  ready_reply : reply_ p = rlen_ p;
  ready_send : send_ p = true /\ (is_Some (hping6_ p) -> send6_ p = true) }.
Definition fits (c : call) (r : PingResult * option EchoRequest) : Prop :=
  match r.2 with
  | Some q => RequestSize q = data_size c /\ take (Z.to_nat (data_size c)) (RequestData q) = replicate (Z.to_nat (data_size c)) 122 /\
      ReplyLength q <= ReplyBuffer q /\ Z.max 8 (data_size c) < ReplyLength q /\ DestinationAddress q = u_ (to c) /\
      (Flags q = IP_FLAG_DF <-> allow_fragments c = false) /\ r.1 = PingResult_of (echo q)
  | None => data_size c = 0 \/ timeout c = 0 \/ ttl c = 0 \/ (family_ (to c) <> AF_INET /\ family_ (to c) <> AF_INET6)
  end.
Lemma WinPing_new_ready dll v6 : valid_ (WinPing_new dll v6) = true -> ready (WinPing_new dll v6).
Proof.
  unfold WinPing_new. destruct dll as [[[[|h]|] [|] [|] c6 s6]|]; cbn; try done. destruct v6; [destruct c6 as [h6|], s6|]; cbn; try done; intros _; (split; cbn; [done|done|]);
    (split; [done|]); try done; by intros [? ?].
Qed.
Lemma grow_ready d r p : 0 <= d -> ready p -> ready (grow d r p) /\ d <= dlen_ (grow d r p) /\ r <= reply_ (grow d r p) /\ hping6_ (grow d r p) = hping6_ p.
Proof.
  intros Hd [[H1 H1'] H2 [H3 H4]]. unfold grow. destruct (Z.ltb_spec (dlen_ p) d), (Z.ltb_spec (rlen_ p) r); cbn; (split; [split; cbn; auto; try lia|]); repeat split; lia || auto.
Qed.
Lemma ReplySize_enough d f : 0 <= d < 2 ^ 16 -> f = AF_INET \/ f = AF_INET6 -> Z.max 8 d < ReplySize d f.
Proof.
  intros Hd Hf. unfold ReplySize, sizeof_ICMP_ECHO_REPLY, sizeof_ICMPV6_ECHO_REPLY. destruct Hf as [->| ->]; cbn [Z.eqb Pos.eqb AF_INET AF_INET6]; unfold u32; rewrite wrap_id by (unfold in_width; lia); lia.
Qed.
Lemma Ping_ready c p : plain_call c -> addressable p c -> ready p -> exists r p', Ping c p = Done (r, p') /\ ready p' /\ hping6_ p' = hping6_ p /\ fits c r.
Proof.
  intros Hd Ha Hp. unfold Ping. destruct ((data_size c =? 0) || (timeout c =? 0) || (ttl c =? 0)) eqn:E0.
  { exists (PING_INVALID_PARAMS, None), p. split_and!; [done..|]. rewrite !orb_true_iff, !Z.eqb_eq in E0. unfold fits. cbn. tauto. }
  destruct Hd as [Hd Hd2]. destruct (grow_ready _ (ReplySize (data_size c) (family_ (to c))) p Hd Hp) as (Hg & Hs & Hr & H6).
  set (g := grow _ _ p) in *. destruct Hg as [[G1 G1'] G2 [G3 G4]] eqn:Eg. clear Eg. rewrite G3.
  assert (Hfit : forall h, family_ (to c) = AF_INET \/ family_ (to c) = AF_INET6 ->
    let q := mkEchoRequest h (u_ (to c)) (data_ g) (data_size c) (if allow_fragments c then 0 else IP_FLAG_DF) (ttl c) (reply_ g) (ReplySize (data_size c) (family_ (to c))) (timeout c) in
    fits c (PingResult_of (echo q), Some q)).
  { intros h Hf q. unfold fits. cbn. rewrite G1, take_replicate, Nat.min_l by lia. split_and!; try done; [by apply ReplySize_enough|]. by destruct (allow_fragments c). }
  assert (Hu : u16 (data_size c) = data_size c /\ u16 (wrap 16 (data_size c + 2 ^ 15) - 2 ^ 15) = data_size c).
  { unfold u16, wrap. split; [by apply Z.mod_small|]. rewrite Zminus_mod_idemp_l. rewrite Z.add_simpl_r. by apply Z.mod_small. }
  destruct Hu as [-> ->]. destruct (Z.eqb_spec (family_ (to c)) AF_INET) as [E4|E4]; [|destruct (Z.eqb_spec (family_ (to c)) AF_INET6) as [E6|E6]].
  - eexists _, g. split; [done|]. split; [done|]. split; [done|]. apply Hfit. by left.
  - destruct (Ha E6) as [h6 Eh]. rewrite H6, Eh. cbn. rewrite G4 by (rewrite H6, Eh; by eexists). eexists _, g. split; [done|]. split; [done|]. split; [congruence|]. apply Hfit. by right.
  - eexists _, g. split; [done|]. split; [done|]. split; [done|]. unfold fits. cbn. tauto.
Qed.
Lemma pings_ready l : forall p, Forall plain_call l -> Forall (addressable p) l -> ready p ->
  exists rs p', pings l p = Done (rs, p') /\ ready p' /\ hping6_ p' = hping6_ p /\ Forall2 fits l rs.
Proof.
  induction l as [|c l IH]; intros p Hl Ha Hp; [by eexists [], p|]. apply Forall_cons_1 in Hl as [Hc Hl]. apply Forall_cons_1 in Ha as [Hac Ha].
  destruct (Ping_ready c p Hc Hac Hp) as (r & p1 & E1 & Hp1 & H6 & Hf). destruct (IH p1 Hl) as (rs & p2 & E2 & Hp2 & H6' & Hfs); [|done|].
  { eapply Forall_impl; [|exact Ha]. intros c1. unfold addressable. by rewrite H6. }
  exists (r :: rs), p2. cbn. rewrite E1. cbn. rewrite E2. split; [done|]. split; [done|]. split; [congruence|]. by constructor.
Qed.
End winping.

(** A pinger that came up valid, asked for pings of less than 64 KB one after the other, over IPv6 only if that is enabled: each sends exactly its
    data, all within its buffer, and has room for the reply the system asks for, and its result is what the answer says. *)
Theorem pings_fit sizeof_pointer echo GetLastError dll v6 l : 0 <= sizeof_pointer <= 8 ->
  valid_ (WinPing_new sizeof_pointer dll v6) = true -> Forall plain_call l -> Forall (addressable (WinPing_new sizeof_pointer dll v6)) l ->
  exists rs p, pings sizeof_pointer echo GetLastError l (WinPing_new sizeof_pointer dll v6) = Done (rs, p) /\ Forall2 (fits echo) l rs.
Proof.
  intros Hs Hv Hl Ha. destruct (pings_ready sizeof_pointer echo GetLastError Hs l _ Hl Ha) as (rs & p & E & _ & _ & Hf); [by apply WinPing_new_ready|]. by exists rs, p.
Qed.

(** ** Examples *)
Definition demo_dll : Dll := mkDll (Some (Handle 1)) true true (Some (Handle 2)) true.
Definition demo_ip : IPAddress := IPAddress_v4 [10; 0; 0; 1].
(** Answers requests of up to 1472 bytes. *)
Definition demo_echo (q : EchoRequest) : Z * Z := if RequestSize q <=? 1472 then (1, 0) else (0, IP_PACKET_TOO_BIG).
Definition demo_calls : list call := map (fun n => mkCall demo_ip n 10000 1 false) [65507; 4324; 1464].
Lemma pings_fit_witness : exists rs p, pings 8 demo_echo 0 demo_calls (WinPing_new 8 (Some demo_dll) true) = Done (rs, p) /\ Forall2 (fits demo_echo) demo_calls rs.
Proof.
  apply pings_fit; [done|reflexivity| |].
  - repeat constructor; done.
  - repeat constructor; intros [=].
Defined.
Example pings_find_size : match pings 8 demo_echo 0 demo_calls (WinPing_new 8 (Some demo_dll) true) with
  | Done (rs, p) => rs.*1 = [PING_TOO_LARGE; PING_TOO_LARGE; PING_SUCCESS] /\ dlen_ p = 65507 /\ delete_WinPing p = Done [Handle 1; Handle 2] | _ => False end.
Proof. vm_compute. done. Qed.
(** Without IPv6 the destructor looks at a handle that was never set. *)
Example handle_never_set dll : delete_WinPing (WinPing_new 8 dll false) = Undefined.
Proof. destruct dll as [[[[|h]|] [|] [|] c6 s6]|]; done. Qed.
(** A request of 64 KB is sent empty. *)
Example ping_size_wraps : match Ping 8 demo_echo 0 (mkCall demo_ip 65536 10000 1 false) (WinPing_new 8 (Some demo_dll) true) with
  | Done ((_, Some q), _) => RequestSize q = 0 | _ => False end.
Proof. vm_compute. done. Qed.
(** Whatever the system, the pinger is told that it has no IPv6; Windows XP asks the system for its protocols. *)
Example never_ipv6 answers : HasIPv6Enabled WIN32 GetOsVersion answers = Some false /\
  HasIPv6Enabled WIN32 (Some (5, 1)) [WSAENOBUFS; Protocols [AF_INET; AF_INET6]] = Some true.
Proof. done. Qed.
