(* ===== verification/MessageQueue.v ===== *)
(** * event/messagequeue.{h,cpp}: the message queue of a thread

    [MessageQueue] holds posted messages in [msgq_] (FIFO) and delayed ones in
    [dmsgq_].  Handlers and message data are type parameters; a null pointer is
    [None].  The standard library's [std::priority_queue] is kept as the list of
    its elements from [top()] on, by [operator<]; the order in which its
    container is laid out, which the library does not fix, is never observed
    except in the [removed] list of [Clear].  Time is an argument.  A thread that
    waits in [Get] gives up the lock: the list [waits] says, for each call of
    [SocketServer::Wait], what it returned, the time when it did, and what other
    threads had done to the queue. *)
From stdpp Require Import sorting.
From S2P Require Import Prelude TimeUtils.

Definition kForever : Z := -1.
Definition kMaxMsgLatency : Z := 150.
Definition MQID_ANY : Z := u32 (-1).
Definition MQID_DISPOSE : Z := u32 (-2).

Section queue.
Context {Handler Data : Type} `{EqDecision Handler}.

Record Message := mkMessage {
  phandler : option Handler;
  message_id : Z;
  pdata : option Data;
  ts_sensitive : Z }.
Definition Message_null : Message := mkMessage None 0 None 0.

Definition Match (m : Message) (handler : option Handler) (id : Z) : bool :=
  (bool_decide (handler = None) || bool_decide (handler = phandler m))
  && ((id =? MQID_ANY) || (id =? message_id m)).

Record DelayedMessage := mkDelayed {
  cmsDelay_ : Z; msTrigger_ : Z; num_ : Z; msg_ : Message }.

(** [operator<]: the lesser is the one that triggers later. *)
Definition dm_lt (a b : DelayedMessage) : bool :=
  (msTrigger_ b <? msTrigger_ a) || ((msTrigger_ b =? msTrigger_ a) && (num_ b <? num_ a)).

Record MessageQueue := mkQueue {
  fStop_ : bool;
  fPeekKeep_ : bool;
  msgPeek_ : Message;
  active_ : bool;
  msgq_ : list Message;
  dmsgq_ : list DelayedMessage;
  dmsgq_next_num_ : Z }.
Definition MessageQueue_new : MessageQueue := mkQueue false false Message_null false [] [] 0.

(** [priority_queue::push]: in front of the elements less than the new one. *)
Fixpoint pq_push (d : DelayedMessage) (q : list DelayedMessage) : list DelayedMessage :=
  match q with
  | [] => [d]
  | e :: q' => if dm_lt e d then d :: q else e :: pq_push d q'
  end.

Definition set_msgq (q : MessageQueue) (l : list Message) : MessageQueue :=
  mkQueue (fStop_ q) (fPeekKeep_ q) (msgPeek_ q) (active_ q) l (dmsgq_ q) (dmsgq_next_num_ q).
Definition set_peek (q : MessageQueue) (keep : bool) (m : Message) : MessageQueue :=
  mkQueue (fStop_ q) keep m (active_ q) (msgq_ q) (dmsgq_ q) (dmsgq_next_num_ q).
Definition set_stop (q : MessageQueue) (b : bool) : MessageQueue :=
  mkQueue b (fPeekKeep_ q) (msgPeek_ q) (active_ q) (msgq_ q) (dmsgq_ q) (dmsgq_next_num_ q).
Definition set_queues (q : MessageQueue) (l : list Message) (d : list DelayedMessage) : MessageQueue :=
  mkQueue (fStop_ q) (fPeekKeep_ q) (msgPeek_ q) (active_ q) l d (dmsgq_next_num_ q).

Definition Quit (q : MessageQueue) : MessageQueue := set_stop q true.
Definition IsQuitting (q : MessageQueue) : bool := fStop_ q.
Definition Restart (q : MessageQueue) : MessageQueue := set_stop q false.
Definition queue_size (q : MessageQueue) : nat :=
  (length (msgq_ q) + length (dmsgq_ q) + if fPeekKeep_ q then 1 else 0)%nat.
Definition queue_empty (q : MessageQueue) : bool := (queue_size q =? 0)%nat.

Definition EnsureActive (q : MessageQueue) : MessageQueue :=
  if active_ q then q
  else mkQueue (fStop_ q) (fPeekKeep_ q) (msgPeek_ q) true (msgq_ q) (dmsgq_ q) (dmsgq_next_num_ q).

Definition Post (now : Z) (q : MessageQueue) (phandler : option Handler) (id : Z)
    (pdata : option Data) (time_sensitive : bool) : MessageQueue :=
  if fStop_ q then q
  else
    let q := EnsureActive q in
    let msg := mkMessage phandler id pdata
      (if time_sensitive then u32 (now + kMaxMsgLatency) else 0) in
    set_msgq q (msgq_ q ++ [msg]).

Definition DoDelayPost (q : MessageQueue) (cmsDelay tstamp : Z) (phandler : option Handler)
    (id : Z) (pdata : option Data) : MessageQueue :=
  if fStop_ q then q
  else
    let q := EnsureActive q in
    let msg := mkMessage phandler id pdata 0 in
    let dmsg := mkDelayed cmsDelay tstamp (dmsgq_next_num_ q) msg in
    mkQueue (fStop_ q) (fPeekKeep_ q) (msgPeek_ q) (active_ q) (msgq_ q)
      (pq_push dmsg (dmsgq_ q)) (u32 (dmsgq_next_num_ q + 1)).
Definition PostDelayed (now : Z) (q : MessageQueue) (cmsDelay : Z) (phandler : option Handler)
    (id : Z) (pdata : option Data) : MessageQueue :=
  DoDelayPost q cmsDelay (TimeAfter now cmsDelay) phandler id pdata.
Definition PostAt (now : Z) (q : MessageQueue) (tstamp : Z) (phandler : option Handler)
    (id : Z) (pdata : option Data) : MessageQueue :=
  DoDelayPost q (TimeUntil now tstamp) tstamp phandler id pdata.

Definition GetDelay (now : Z) (q : MessageQueue) : Z :=
  match msgq_ q, dmsgq_ q with
  | _ :: _, _ => 0
  | [], top :: _ => let delay := TimeUntil now (msTrigger_ top) in if delay <? 0 then 0 else delay
  | [], [] => kForever
  end.

(** The triggered messages of [dmsgq_] move to [msgq_]; also [cmsDelayNext]. *)
Fixpoint promote (msCurrent : Z) (l : list Message) (d : list DelayedMessage)
    : list Message * list DelayedMessage * Z :=
  match d with
  | [] => (l, [], kForever)
  | top :: d' =>
    if TimeIsLater msCurrent (msTrigger_ top)
    then (l, d, TimeDiff (msTrigger_ top) msCurrent)
    else promote msCurrent (l ++ [msg_ top]) d'
  end.

(** Pulls the first message that is not a dispose message; [*pmsg] starts as [m]. *)
Fixpoint pull (m : Message) (l : list Message) : bool * Message * list Message :=
  match l with
  | [] => (false, m, [])
  | front :: l =>
    if MQID_DISPOSE =? message_id front then pull Message_null l else (true, front, l)
  end.

(** How long [Get] asks the socket server to wait. *)
Definition wait_time (cmsWait cmsElapsed cmsDelayNext : Z) : Z :=
  if cmsWait =? kForever then cmsDelayNext
  else
    let cmsNext := Z.max 0 (cmsWait - cmsElapsed) in
    if negb (cmsDelayNext =? kForever) && (cmsDelayNext <? cmsNext) then cmsDelayNext else cmsNext.

(** A call of [Wait]: from the time asked for to its value, the time when it
    returned and what others did to the queue meanwhile. *)
Definition wait : Type := Z -> bool * Z * (MessageQueue -> MessageQueue).

(** The loop of [Get]; [None] while it still waits. *)
Fixpoint Get_loop (q : MessageQueue) (pmsg : Message) (cmsWait msStart msCurrent cmsElapsed : Z)
    (waits : list wait) : option (bool * Message * MessageQueue) :=
  let '(l, d, cmsDelayNext) := promote msCurrent (msgq_ q) (dmsgq_ q) in
  let '(got, pmsg, l) := pull pmsg l in
  let q := set_queues q l d in
  if (got : bool) then Some (true, pmsg, q)
  else if fStop_ q then Some (false, pmsg, q)
  else match waits with
  | [] => None
  | w :: waits =>
    let '(ok, now, others) := w (wait_time cmsWait cmsElapsed cmsDelayNext) in
    let q := others q in
    if negb ok then Some (false, pmsg, q)
    else
      let cmsElapsed := TimeDiff now msStart in
      if negb (cmsWait =? kForever) && (cmsWait <=? cmsElapsed) then Some (false, pmsg, q)
      else Get_loop q pmsg cmsWait msStart now cmsElapsed waits
  end.
Definition Get (now : Z) (q : MessageQueue) (pmsg : Message) (cmsWait : Z) (waits : list wait)
    : option (bool * Message * MessageQueue) :=
  if fPeekKeep_ q then Some (true, msgPeek_ q, set_peek q false (msgPeek_ q))
  else Get_loop q pmsg cmsWait now now 0 waits.

Definition Peek (now : Z) (q : MessageQueue) (pmsg : Message) (cmsWait : Z) (waits : list wait)
    : option (bool * Message * MessageQueue) :=
  if fPeekKeep_ q then Some (true, msgPeek_ q, q)
  else
    '(got, pmsg, q) ← Get now q pmsg cmsWait waits;
    if (got : bool) then Some (true, pmsg, set_peek q true pmsg) else Some (false, pmsg, q).

(** The queue after [Clear], and what it appends to [*removed]. *)
Definition Clear (q : MessageQueue) (phandler : option Handler) (id : Z)
    : MessageQueue * list Message :=
  let hit m := Match m phandler id in
  let peeked := fPeekKeep_ q && hit (msgPeek_ q) in
  let q' := if peeked then set_peek q false (msgPeek_ q) else q in
  (set_queues q' (List.filter (fun m => negb (hit m)) (msgq_ q))
     (List.filter (fun d => negb (hit (msg_ d))) (dmsgq_ q)),
   (if peeked then [msgPeek_ q] else [])
   ++ List.filter hit (msgq_ q)
   ++ List.filter hit (map msg_ (dmsgq_ q))).

(** ** Delayed messages *)

(** [a] is in front of [b]: it triggers earlier, or at the same time and was
    posted earlier. *)
Definition before (a b : DelayedMessage) : Prop := dm_lt b a = true.

Lemma before_spec a b :
  before a b <-> msTrigger_ a < msTrigger_ b \/ (msTrigger_ a = msTrigger_ b /\ num_ a < num_ b).
Proof. unfold before, dm_lt. lia. Qed.

Record delayed_ok (q : MessageQueue) : Prop := {
  dm_sorted : StronglySorted before (dmsgq_ q);
  dm_fresh : Forall (fun d => num_ d < dmsgq_next_num_ q) (dmsgq_ q) }.

Lemma pq_push_In d e l : In e (pq_push d l) <-> e = d \/ In e l.
Proof.
  induction l as [|x l IH]; simpl; [by intuition|].
  destruct (dm_lt x d); simpl; rewrite ?IH; intuition congruence.
Qed.

Lemma pq_push_length d l : length (pq_push d l) = S (length l).
Proof. induction l as [|x l IH]; simpl; [done|]. destruct (dm_lt x d); simpl; congruence. Qed.

Lemma pq_push_sorted d l :
  StronglySorted before l -> Forall (fun e => num_ e < num_ d) l ->
  StronglySorted before (pq_push d l).
Proof.
  induction 1 as [|e l Hs IH He]; intros Hn; simpl; [by repeat constructor|].
  apply Forall_cons_1 in Hn as [Hne Hn]. destruct (dm_lt e d) eqn:E.
  - constructor; [by constructor|]. constructor; [exact E|].
    eapply List.Forall_impl; [|exact He]. intros x Hx. apply before_spec.
    assert (before d e) as Hd by exact E. rewrite before_spec in Hd, Hx. lia.
  - constructor; auto. apply List.Forall_forall. intros x [->|Hx]%pq_push_In.
    + apply before_spec. unfold dm_lt in E. lia.
    + rewrite List.Forall_forall in He. auto.
Qed.

Lemma filter_none {A} (P : A -> bool) l : (forall x, In x l -> P x = false) -> List.filter P l = [].
Proof.
  induction l as [|x l IH]; intros H; [done|]. simpl. rewrite H by by left.
  apply IH. intros. apply H. by right.
Qed.

Lemma filter_all {A} (P : A -> bool) l : (forall x, In x l -> P x = true) -> List.filter P l = l.
Proof.
  induction l as [|x l IH]; intros H; [done|]. simpl. rewrite H by by left.
  f_equal. apply IH. intros. apply H. by right.
Qed.

Definition triggers_at (t : Z) (l : list DelayedMessage) : list DelayedMessage :=
  List.filter (fun e => msTrigger_ e =? t) l.

(** Messages of one trigger time stay in the order they were pushed. *)
Lemma pq_push_trigger t d l :
  StronglySorted before l -> Forall (fun e => num_ e < num_ d) l ->
  triggers_at t (pq_push d l) = triggers_at t l ++ triggers_at t [d].
Proof.
  unfold triggers_at. induction 1 as [|e l Hs IH He]; intros Hn; simpl; [done|].
  apply Forall_cons_1 in Hn as [Hne Hn]. destruct (dm_lt e d) eqn:E.
  - assert (Hlt : msTrigger_ d < msTrigger_ e) by (unfold dm_lt in E; lia).
    simpl. destruct (Z.eqb_spec (msTrigger_ d) t); [|by rewrite app_nil_r].
    destruct (Z.eqb_spec (msTrigger_ e) t); [lia|].
    rewrite (filter_none _ l); [done|]. intros x Hx. rewrite List.Forall_forall in He.
    specialize (He x Hx). rewrite before_spec in He. lia.
  - simpl in *. destruct (Z.eqb_spec (msTrigger_ e) t); by rewrite IH.
Qed.

(** A post of a delayed message: its trigger time, handler, id and data. *)
Definition post : Type := Z * (option Handler * Z * option Data).
Definition post_msg (p : post) : Message :=
  let '(_, (h, id, dat)) := p in mkMessage h id dat 0.
Definition run_post (q : MessageQueue) (p : post) : MessageQueue :=
  let '(t, (h, id, dat)) := p in DoDelayPost q 0 t h id dat.
Definition run_posts (q : MessageQueue) (ps : list post) : MessageQueue := foldl run_post q ps.

Lemma DoDelayPost_ok q delay t h id dat :
  delayed_ok q -> fStop_ q = false -> 0 <= dmsgq_next_num_ q < 2 ^ 32 - 1 ->
  let q' := DoDelayPost q delay t h id dat in
  delayed_ok q' /\ fStop_ q' = false /\ dmsgq_next_num_ q' = dmsgq_next_num_ q + 1 /\
  dmsgq_ q' = pq_push (mkDelayed delay t (dmsgq_next_num_ q) (mkMessage h id dat 0)) (dmsgq_ q).
Proof.
  intros [Hs Hf] Hstop Hn q'. subst q'. unfold DoDelayPost, EnsureActive. rewrite Hstop.
  assert (Hu : u32 (dmsgq_next_num_ q + 1) = dmsgq_next_num_ q + 1) by word_lia.
  assert (Hfresh : forall d, num_ d = dmsgq_next_num_ q ->
    Forall (fun e => num_ e < dmsgq_next_num_ q + 1) (pq_push d (dmsgq_ q))).
  { intros d Hd. apply List.Forall_forall. intros x [->|Hx]%pq_push_In; [lia|].
    rewrite List.Forall_forall in Hf. specialize (Hf x Hx). simpl in Hf. lia. }
  destruct (active_ q); cbn; rewrite Hu; split_and!; auto; constructor; cbn; auto using pq_push_sorted.
Qed.

Definition to_post (d : DelayedMessage) : post :=
  (msTrigger_ d, (phandler (msg_ d), message_id (msg_ d), pdata (msg_ d))).
Definition posted (d : DelayedMessage) : Prop := post_msg (to_post d) = msg_ d.

Lemma run_posts_spec ps q :
  delayed_ok q -> fStop_ q = false -> Forall posted (dmsgq_ q) ->
  0 <= dmsgq_next_num_ q -> dmsgq_next_num_ q + Z.of_nat (length ps) < 2 ^ 32 ->
  let q' := run_posts q ps in
  delayed_ok q' /\ Forall posted (dmsgq_ q') /\
  msgq_ q' = msgq_ q /\ fPeekKeep_ q' = fPeekKeep_ q /\
  length (dmsgq_ q') = (length (dmsgq_ q) + length ps)%nat /\
  forall t, map to_post (triggers_at t (dmsgq_ q')) =
    map to_post (triggers_at t (dmsgq_ q)) ++ List.filter (fun p => p.1 =? t) ps.
Proof.
  revert q. induction ps as [|[t [[h id] dat]] ps IH]; intros q Hok Hstop Hpost H0 Hlen.
  { split_and!; auto. intros t. simpl. by rewrite app_nil_r. }
  cbn [length] in Hlen |- *.
  destruct (DoDelayPost_ok q 0 t h id dat Hok Hstop) as (Hok' & Hstop' & Hnum & Hq); [lia|].
  change (run_posts q ((t, (h, id, dat)) :: ps)) with (run_posts (DoDelayPost q 0 t h id dat) ps).
  assert (Hkeep : msgq_ (DoDelayPost q 0 t h id dat) = msgq_ q /\
    fPeekKeep_ (DoDelayPost q 0 t h id dat) = fPeekKeep_ q).
  { unfold DoDelayPost, EnsureActive. rewrite Hstop. by destruct (active_ q). }
  destruct (IH _ Hok' Hstop') as (Hok2 & Hpost2 & Hl & Hp & Hn & Ht); [|lia..|].
  { rewrite Hq. apply List.Forall_forall. intros x [->|Hx]%pq_push_In; [done|].
    rewrite List.Forall_forall in Hpost. auto. }
  split_and!; [done|done|by destruct Hkeep as [<- _]|by destruct Hkeep as [_ <-]| |].
  { rewrite Hn, Hq, pq_push_length. lia. }
  intros t'.
  rewrite Ht, Hq. destruct Hok. rewrite pq_push_trigger by done.
  rewrite map_app, <- app_assoc. f_equal. unfold triggers_at. simpl.
  by destruct (t =? t').
Qed.

(** ** What is ready *)
Definition due (now : Z) (d : DelayedMessage) : bool := negb (TimeIsLater now (msTrigger_ d)).

(** All pending triggers lie within half the range of the clock and none has
    wrapped relative to it, so stamps compare as times. *)
Definition epoch (now : Z) (q : MessageQueue) : Prop :=
  Forall (fun d => stamp (msTrigger_ d) /\ - HALF < msTrigger_ d - now < HALF) (dmsgq_ q).

Lemma epoch_later now t :
  stamp now -> stamp t -> - HALF < t - now < HALF -> TimeIsLater now t = (now <? t).
Proof.
  intros. unfold TimeIsLater, HALF in *.
  assert (i32 (t - now) = t - now) as -> by word_lia.
  destruct (Z.ltb_spec now t), (Z.ltb_spec 0 (t - now)); try lia; cbn [andb].
  apply Z.ltb_lt. word_lia.
Qed.

(** In an epoch the due messages are a prefix of the queue. *)
Lemma promote_epoch now l q :
  stamp now -> StronglySorted before (dmsgq_ q) -> epoch now q ->
  (promote now l (dmsgq_ q)).1 =
  (l ++ map msg_ (List.filter (due now) (dmsgq_ q)),
   List.filter (fun d => negb (due now d)) (dmsgq_ q)).
Proof.
  intros Hnow Hs He. unfold epoch in He. revert l He.
  induction Hs as [|top d Hs IH Htop]; intros l He; cbn [promote]; [by rewrite app_nil_r|].
  apply Forall_cons_1 in He as [[Ht Hw] He].
  assert (Hdue : forall x, stamp (msTrigger_ x) /\ - HALF < msTrigger_ x - now < HALF ->
    due now x = negb (now <? msTrigger_ x)).
  { intros x []. unfold due. by rewrite epoch_later. }
  cbn [List.filter]. rewrite (Hdue top) by done. rewrite epoch_later by done.
  destruct (Z.ltb_spec now (msTrigger_ top)) as [Hlt|Hge]; cbn [negb fst map].
  - assert (Hlate : forall x, In x d -> due now x = false).
    { intros x Hx. rewrite List.Forall_forall in Htop, He.
      specialize (Htop x Hx). rewrite before_spec in Htop. rewrite Hdue by auto.
      destruct (Z.ltb_spec now (msTrigger_ x)); [done|lia]. }
    rewrite (filter_none (due now) d) by done. cbn [map]. rewrite app_nil_r.
    do 2 f_equal. symmetry. apply filter_all. intros x Hx. by rewrite Hlate.
  - rewrite IH by done. by rewrite <- app_assoc.
Qed.

(** The messages [Get] can deliver at the time [now], in order. *)
Definition is_dispose (m : Message) : bool := MQID_DISPOSE =? message_id m.
Definition ready (now : Z) (q : MessageQueue) : list Message :=
  List.filter (fun m => negb (is_dispose m)) (msgq_ q ++ map msg_ (List.filter (due now) (dmsgq_ q))).

Lemma pull_spec m l :
  match List.filter (fun m => negb (is_dispose m)) l with
  | [] => exists m', pull m l = (false, m', [])
  | m' :: rest => exists l', pull m l = (true, m', l') /\
      List.filter (fun m => negb (is_dispose m)) l' = rest
  end.
Proof.
  revert m. induction l as [|x l IH]; intros m; [by eexists|]. cbn [List.filter pull].
  change (MQID_DISPOSE =? message_id x) with (is_dispose x).
  destruct (is_dispose x); cbn [negb]; [apply IH|by eexists].
Qed.

(** Successive [Get]s at one time, until one would block. *)
Fixpoint drain (fuel : nat) (now : Z) (q : MessageQueue) : list Message :=
  match fuel with
  | O => []
  | S fuel =>
    match Get now q Message_null kForever [] with
    | Some (true, m, q) => m :: drain fuel now q
    | _ => []
    end
  end.

Lemma filter_not_due now d :
  List.filter (due now) (List.filter (fun d => negb (due now d)) d) = [].
Proof. apply filter_none. intros x [_ Hx]%List.filter_In. by apply negb_true_iff. Qed.

Lemma StronglySorted_filter P (d : list DelayedMessage) :
  StronglySorted before d -> StronglySorted before (List.filter P d).
Proof.
  induction 1 as [|x d Hs IH Hx]; simpl; [constructor|]. destruct (P x); [|done].
  constructor; [done|]. apply List.Forall_forall. intros y [Hy _]%List.filter_In.
  rewrite List.Forall_forall in Hx. auto.
Qed.
Lemma epoch_filter now q P :
  epoch now q ->
  Forall (fun d => stamp (msTrigger_ d) /\ - HALF < msTrigger_ d - now < HALF) (List.filter P (dmsgq_ q)).
Proof.
  intros He. apply List.Forall_forall. intros y [Hy _]%List.filter_In.
  unfold epoch in He. rewrite List.Forall_forall in He. auto.
Qed.

Lemma Get_ready now q pmsg cmsWait waits :
  stamp now -> StronglySorted before (dmsgq_ q) -> epoch now q -> fPeekKeep_ q = false ->
  match ready now q with
  | m :: rest => exists q', Get now q pmsg cmsWait waits = Some (true, m, q') /\
      ready now q' = rest /\ StronglySorted before (dmsgq_ q') /\ epoch now q' /\
      fPeekKeep_ q' = false
  | [] => waits = [] ->
      match Get now q pmsg cmsWait waits with
      | Some (got, _, _) => got = false /\ fStop_ q = true
      | None => fStop_ q = false
      end
  end.
Proof.
  intros Hnow Hs He Hp. unfold Get. rewrite Hp.
  pose proof (promote_epoch now (msgq_ q) q Hnow Hs He) as Hpr.
  pose proof (pull_spec pmsg (msgq_ q ++ map msg_ (List.filter (due now) (dmsgq_ q)))) as Hpull.
  fold (ready now q) in Hpull.
  destruct waits as [|w waits]; cbn [Get_loop];
    destruct (promote now (msgq_ q) (dmsgq_ q)) as [[l d] nx]; cbn [fst] in Hpr;
    injection Hpr as -> ->; destruct (ready now q) as [|m rest].
  - intros _. destruct Hpull as [m' ->]. cbn. by destruct (fStop_ q).
  - destruct Hpull as (l' & -> & Hl'). eexists. split; [done|]. unfold ready. cbn.
    rewrite filter_not_due, app_nil_r. split_and!; auto using StronglySorted_filter, epoch_filter.
    by apply epoch_filter.
  - done.
  - destruct Hpull as (l' & -> & Hl'). eexists. split; [done|]. unfold ready. cbn.
    rewrite filter_not_due, app_nil_r. split_and!; auto using StronglySorted_filter, epoch_filter.
    by apply epoch_filter.
Qed.

Lemma drain_ready fuel now q :
  stamp now -> StronglySorted before (dmsgq_ q) -> epoch now q -> fPeekKeep_ q = false ->
  (length (ready now q) <= fuel)%nat -> drain fuel now q = ready now q.
Proof.
  intros Hnow. revert q. induction fuel as [|fuel IH]; intros q Hs He Hp Hlen.
  { by destruct (ready now q); [|simpl in Hlen; lia]. }
  cbn [drain]. pose proof (Get_ready now q Message_null kForever [] Hnow Hs He Hp) as Hg.
  destruct (ready now q) as [|m rest].
  - specialize (Hg eq_refl). destruct (Get _ _ _ _ _) as [[[[] m] q']|]; [|done..].
    by destruct Hg.
  - destruct Hg as (q' & -> & Hr & Hs' & He' & Hp'). f_equal. rewrite IH; auto.
    rewrite Hr. simpl in Hlen. lia.
Qed.

Lemma StronglySorted_to_post d :
  StronglySorted before d -> StronglySorted (fun a b => a.1 <= b.1) (map to_post d).
Proof.
  induction 1 as [|x d Hs IH Hx]; simpl; constructor; [done|].
  apply List.Forall_forall. intros p (y & <- & Hy)%in_map_iff. simpl.
  rewrite List.Forall_forall in Hx. specialize (Hx y Hy). rewrite before_spec in Hx. lia.
Qed.

Lemma filter_comm {A} (P Q : A -> bool) l :
  List.filter P (List.filter Q l) = List.filter Q (List.filter P l).
Proof.
  induction l as [|x l IH]; [done|]. simpl.
  destruct (Q x) eqn:EQ, (P x) eqn:EP; simpl; rewrite ?EQ, ?EP, IH; done.
Qed.
Lemma filter_to_post t d :
  List.filter (fun p => p.1 =? t) (map to_post d) = map to_post (triggers_at t d).
Proof.
  unfold triggers_at. induction d as [|x d IH]; [done|]. simpl.
  destruct (msTrigger_ x =? t); simpl; by rewrite IH.
Qed.

(** ** What the queue promises *)

(** C6. Delivery order within one epoch of the 32-bit clock: from a fresh queue,
    whatever is posted with delays or at times, if all trigger times lie within
    half the clock's range of now and none wraps around, is delivered, once due,
    by successive [Get]s sorted by trigger time, messages of one trigger time in
    the order they were posted, and nothing else is.  Across a wrap the order is
    another one ([wrapped_trigger_blocks]). *)
Theorem delayed_delivery_order now ps fuel :
  stamp now -> Z.of_nat (length ps) < 2 ^ 32 ->
  Forall (fun p => stamp p.1 /\ - HALF < p.1 - now < HALF /\ p.2.1.2 <> MQID_DISPOSE) ps ->
  (length ps <= fuel)%nat ->
  exists order : list post,
    drain fuel now (run_posts MessageQueue_new ps) = map post_msg order /\
    StronglySorted (fun a b => a.1 <= b.1) order /\
    Forall (fun p => p.1 <= now) order /\
    forall t, List.filter (fun p => p.1 =? t) order =
      if t <=? now then List.filter (fun p => p.1 =? t) ps else [].
Proof.
  intros Hnow Hlen Hps Hfuel. set (q := run_posts MessageQueue_new ps).
  destruct (run_posts_spec ps MessageQueue_new) as (Hok & Hpost & Hl & Hp & Hn & Ht);
    [by constructor; constructor|done|by constructor|done|done|].
  fold q in Hok, Hpost, Hl, Hp, Hn, Ht. cbn in Hl, Hp, Hn, Ht.
  (* every pending message was posted *)
  assert (Hin : forall d, In d (dmsgq_ q) -> In (to_post d) ps).
  { intros d Hd. assert (In (to_post d) (List.filter (fun p => p.1 =? msTrigger_ d) ps)) as Hf.
    { rewrite <- Ht. apply in_map, List.filter_In. by rewrite Z.eqb_refl. }
    by apply List.filter_In in Hf as [? _]. }
  assert (He : epoch now q).
  { apply List.Forall_forall. intros d Hd. rewrite List.Forall_forall in Hps.
    destruct (Hps _ (Hin d Hd)) as (? & ? & _). done. }
  assert (Hready : ready now q = map msg_ (List.filter (due now) (dmsgq_ q))).
  { unfold ready. rewrite Hl. apply filter_all. intros m (d & <- & [Hd _]%List.filter_In)%in_map_iff.
    rewrite List.Forall_forall in Hps. destruct (Hps _ (Hin d Hd)) as (_ & _ & Hid).
    apply negb_true_iff, Z.eqb_neq. intros E. by apply Hid. }
  destruct Hok as [Hs _]. exists (map to_post (List.filter (due now) (dmsgq_ q))). split_and!.
  - rewrite drain_ready by (done || (rewrite Hready, length_map;
      pose proof (List.filter_length_le (due now) (dmsgq_ q)); unfold post in *; lia)).
    rewrite Hready, map_map. apply List.map_ext_in. intros d [Hd _]%List.filter_In.
    rewrite List.Forall_forall in Hpost. symmetry. by apply Hpost.
  - apply StronglySorted_to_post, StronglySorted_filter, Hs.
  - apply List.Forall_forall. intros p (d & <- & [Hd Hdue]%List.filter_In)%in_map_iff. simpl.
    unfold epoch in He. rewrite List.Forall_forall in He. destruct (He d Hd).
    unfold due in Hdue. rewrite epoch_later in Hdue by done. lia.
  - intros t. rewrite filter_to_post. unfold triggers_at. rewrite filter_comm.
    change (List.filter (fun x => msTrigger_ x =? t) (dmsgq_ q)) with (triggers_at t (dmsgq_ q)).
    assert (Hdt : forall x, In x (triggers_at t (dmsgq_ q)) -> due now x = (t <=? now)).
    { intros x [Hx Heq%Z.eqb_eq]%List.filter_In. unfold epoch in He.
      rewrite List.Forall_forall in He. destruct (He x Hx). unfold due.
      rewrite epoch_later by done. lia. }
    destruct (t <=? now); [rewrite filter_all by done; apply Ht|by rewrite filter_none].
Qed.

(** Nothing is lost or invented by [Clear]: it returns exactly the pending
    messages that match, in queue order, and keeps exactly the others in
    theirs. *)
Definition pending (q : MessageQueue) : list Message :=
  (if fPeekKeep_ q then [msgPeek_ q] else []) ++ msgq_ q ++ map msg_ (dmsgq_ q).

Lemma filter_map_msg (P : Message -> bool) d :
  List.filter P (map msg_ d) = map msg_ (List.filter (fun d => P (msg_ d)) d).
Proof. induction d as [|x d IH]; simpl; [done|]. destruct (P (msg_ x)); simpl; by rewrite IH. Qed.

(** [Clear] removes exactly the messages of the handler and id, in the order in
    which they were pending, and keeps the others, their order and that of the
    delayed ones. *)
Theorem Clear_partitions q h id :
  let '(q', removed) := Clear q h id in
  removed = List.filter (fun m => Match m h id) (pending q) /\
  pending q' = List.filter (fun m => negb (Match m h id)) (pending q) /\
  (StronglySorted before (dmsgq_ q) -> StronglySorted before (dmsgq_ q')) /\
  fStop_ q' = fStop_ q /\ dmsgq_next_num_ q' = dmsgq_next_num_ q.
Proof.
  unfold Clear. cbv zeta. unfold pending.
  rewrite !List.filter_app, !filter_map_msg.
  split_and!; try (by destruct (fPeekKeep_ q), (Match _ _ _)).
  - destruct (fPeekKeep_ q), (Match (msgPeek_ q) h id) eqn:E; cbn; by rewrite ?E.
  - destruct (fPeekKeep_ q) eqn:Ep, (Match (msgPeek_ q) h id) eqn:E; cbn; rewrite ?E, ?Ep; done.
  - intros Hs. destruct (fPeekKeep_ q), (Match (msgPeek_ q) h id); cbn; by apply StronglySorted_filter.
Qed.

(** A stopped queue refuses new messages, but never blocks and still hands out
    every message that was ready when it stopped, in order, before [Get]
    returns false. *)
Theorem Quit_delivers_ready now q :
  stamp now -> StronglySorted before (dmsgq_ q) -> epoch now q -> fPeekKeep_ q = false ->
  let s := Quit q in
  (forall t h id dat ts, Post t s h id dat ts = s) /\
  (forall delay t h id dat, DoDelayPost s delay t h id dat = s) /\
  (forall pmsg cmsWait waits,
    match ready now q with
    | m :: rest => exists q', Get now s pmsg cmsWait waits = Some (true, m, q') /\
        ready now q' = rest /\ fStop_ q' = true
    | [] => exists m q', Get now s pmsg cmsWait waits = Some (false, m, q') /\ fStop_ q' = true
    end).
Proof.
  intros Hnow Hs He Hp s. split_and!; [done|done|]. intros pmsg cmsWait waits.
  unfold Get. cbn [s Quit set_stop fPeekKeep_]. rewrite Hp.
  pose proof (promote_epoch now (msgq_ q) q Hnow Hs He) as Hpr.
  pose proof (pull_spec pmsg (msgq_ q ++ map msg_ (List.filter (due now) (dmsgq_ q)))) as Hpull.
  fold (ready now q) in Hpull.
  destruct waits as [|w waits]; cbn [Get_loop s Quit set_stop msgq_ dmsgq_];
    destruct (promote now (msgq_ q) (dmsgq_ q)) as [[l d] nx]; cbn [fst] in Hpr;
    injection Hpr as -> ->; destruct (ready now q) as [|m rest];
    first [ destruct Hpull as (l' & -> & <-); eexists; split; [done|];
            unfold ready; cbn; by rewrite filter_not_due, app_nil_r
          | destruct Hpull as [m' ->]; by do 2 eexists ].
Qed.

(** [Get] with a bound returns without a message only because the queue was
    stopped, because waiting failed, or after at least the time asked for;
    without a bound it never times out. *)
Theorem Get_timeout now q pmsg cmsWait (waits : list wait) m q' :
  (forall w t, In w waits -> (w t).1.1 = true) ->
  Get now q pmsg cmsWait waits = Some (false, m, q') -> fStop_ q' = false ->
  cmsWait <> kForever /\
  exists w t, In w waits /\ cmsWait <= TimeDiff (w t).1.2 now.
Proof.
  intros Hok. unfold Get. destruct (fPeekKeep_ q); [discriminate|].
  assert (Hgen : forall ws q pmsg cur el, incl ws waits ->
    Get_loop q pmsg cmsWait now cur el ws = Some (false, m, q') -> fStop_ q' = false ->
    cmsWait <> kForever /\ exists w t, In w waits /\ cmsWait <= TimeDiff (w t).1.2 now);
    [|intros Hg Hst; exact (Hgen _ _ _ _ _ (incl_refl _) Hg Hst)].
  induction ws as [|w ws IH]; intros q0 pm cur el Hincl; cbn [Get_loop];
    destruct (promote _ _ _) as [[l d] nx]; destruct (pull _ _) as [[[] pm'] l'];
    try discriminate; destruct (fStop_ (set_queues q0 l' d)) eqn:Est;
    try discriminate; try (intros [= <- <-]; congruence).
  pose proof (Hok w (wait_time cmsWait el nx)) as Hw.
  destruct (w (wait_time cmsWait el nx)) as [[ok now'] others] eqn:Ew. cbn [fst snd] in *.
  rewrite Hw by by apply Hincl; left. cbn [negb].
  destruct (Z.eqb_spec cmsWait kForever), (Z.leb_spec cmsWait (TimeDiff now' now));
    cbn [negb andb]; try (apply IH; intros x Hx; apply Hincl; by right).
  intros _ _. split; [done|]. exists w, (wait_time cmsWait el nx). rewrite Ew.
  split; [apply Hincl; by left|done].
Qed.

Lemma blocked now q top d pmsg cmsWait :
  fPeekKeep_ q = false -> fStop_ q = false -> msgq_ q = [] -> dmsgq_ q = top :: d ->
  TimeIsLater now (msTrigger_ top) = true -> Get now q pmsg cmsWait [] = None.
Proof.
  intros Hp Hst Hl Hd Hlater. unfold Get. rewrite Hp. cbn [Get_loop].
  rewrite Hl, Hd. cbn [promote]. rewrite Hlater. cbn [pull]. cbn. by rewrite Hst.
Qed.

(** [operator<] compares raw trigger times.  So when the clock is about to wrap,
    a message [B] due after the wrap, whose stamp is numerically small, is put
    in front of a message [A] due before it and holds it up: between the time
    when [A] is due and the wrap, [Get] finds nothing to deliver. *)
Theorem wrapped_trigger_blocks now a b (A B : option Handler * Z * option Data) now' pmsg cmsWait :
  stamp now -> 0 <= a -> now + a <= now' < 2 ^ 32 -> 2 ^ 32 <= now + b -> b < HALF ->
  let q := PostDelayed now (PostDelayed now MessageQueue_new a A.1.1 A.1.2 A.2) b B.1.1 B.1.2 B.2 in
  Exists (fun d => due now' d = true /\ post_msg (0, A) = msg_ d) (dmsgq_ q) /\
  Get now' q pmsg cmsWait [] = None.
Proof.
  intros Hnow Ha Hn' Hb HbH q. destruct A as [[ha ia] da], B as [[hb ib] db].
  unfold PostDelayed, TimeAfter in q. unfold stamp, HALF in *.
  assert (Ea : u32 (now + a) = now + a) by word_lia.
  assert (Eb : u32 (now + b) = now + b - 2 ^ 32) by word_lia.
  assert (Hq : dmsgq_ q = [mkDelayed b (now + b - 2 ^ 32) 1 (mkMessage hb ib db 0);
                           mkDelayed a (now + a) 0 (mkMessage ha ia da 0)]).
  { subst q. cbn. rewrite Ea, Eb. unfold dm_lt. cbn [msTrigger_ num_].
    by destruct (Z.ltb_spec (now + b - 2 ^ 32) (now + a)); [|lia]. }
  split.
  - rewrite Hq. apply Exists_cons_tl, Exists_cons_hd. split; [|done]. unfold due. cbn [msTrigger_].
    apply negb_true_iff. unfold TimeIsLater.
    assert (i32 (now + a - now') <= 0) by word_lia.
    by destruct (Z.ltb_spec 0 (i32 (now + a - now'))); [lia|].
  - eapply blocked; [done|done|done|exact Hq|]. cbn [msTrigger_]. unfold TimeIsLater.
    assert (i32 (now + b - 2 ^ 32 - now') = now + b - now') as -> by word_lia.
    assert (u32 (now + b - now') = now + b - now') as -> by word_lia.
    unfold HALF. lia.
Qed.
End queue.

(** ** Concrete runs: handlers and data are numbers *)
Lemma delayed_delivery_order_witness :
  let ps : list (@post Z Z) :=
    [(140, (Some 1, 7, None)); (120, (Some 2, 8, Some 5)); (140, (Some 3, 9, None)); (200, (None, 1, None))] in
  exists order : list (@post Z Z),
    drain 4 150 (run_posts MessageQueue_new ps) = map post_msg order /\
    StronglySorted (fun a b => a.1 <= b.1) order /\
    Forall (fun p => p.1 <= 150) order /\
    forall t, List.filter (fun p => p.1 =? t) order =
      if t <=? 150 then List.filter (fun p => p.1 =? t) ps else [].
Proof.
  intros ps. apply delayed_delivery_order.
  - vm_compute. intuition congruence.
  - vm_compute. reflexivity.
  - repeat constructor; vm_compute; intuition congruence.
  - cbn. lia.
Defined.

Definition demo_queue : @MessageQueue Z Z :=
  mkQueue false false Message_null true [mkMessage (Some 1) 7 None 0]
    [mkDelayed 5 90 0 (mkMessage (Some 2) 8 None 0); mkDelayed 5 110 1 (mkMessage (Some 2) 9 None 0)] 2.
Lemma Quit_delivers_ready_witness :
  let s := Quit demo_queue in
  (forall t h id dat ts, Post t s h id dat ts = s) /\
  (forall delay t h id dat, DoDelayPost s delay t h id dat = s) /\
  (forall pmsg cmsWait waits,
    exists q', Get 100 s pmsg cmsWait waits = Some (true, mkMessage (Some 1) 7 None 0, q') /\
      ready 100 q' = [mkMessage (Some 2) 8 None 0] /\ fStop_ q' = true).
Proof.
  refine (Quit_delivers_ready 100 demo_queue _ _ _ _).
  - vm_compute. intuition congruence.
  - repeat constructor.
  - repeat constructor; vm_compute; intuition congruence.
  - reflexivity.
Defined.

(** A thread that asks to wait 20 ms and is woken after 25. *)
Definition quiet (now' : Z) : @wait Z Z := fun _ => (true, now', fun q => q).
Lemma Get_timeout_witness :
  let waits := [quiet 110; quiet 125] in
  20 <> kForever /\ exists w t, In w waits /\ 20 <= TimeDiff (w t).1.2 100.
Proof.
  intros waits.
  apply (Get_timeout 100 (MessageQueue_new (Handler := Z) (Data := Z)) Message_null 20 waits
           Message_null MessageQueue_new); [|vm_compute; reflexivity|reflexivity].
  intros w t [<-|[<-|[]]]; reflexivity.
Defined.

Lemma wrapped_trigger_blocks_witness :
  let now := 2 ^ 32 - 100 in
  let q := PostDelayed now (PostDelayed now MessageQueue_new 10 (Some 1) 7 None) 200 (Some 1) 8 (Some 3) in
  Exists (fun d => due (2 ^ 32 - 50) d = true /\ mkMessage (Some 1) 7 None 0 = msg_ d) (dmsgq_ q) /\
  Get (2 ^ 32 - 50) q Message_null kForever [] = None.
Proof.
  apply (wrapped_trigger_blocks (Data := Z) (2 ^ 32 - 100) 10 200 (Some 1, 7, None) (Some 1, 8, Some 3));
    vm_compute; intuition congruence.
Defined.
