(* ===== verification/MessageQueueManager.v ===== *)
(** * event/messagequeue.cpp and messagehandler.cpp: all queues of the process

    The manager has the queues that were ever posted to; a handler that ends makes it
    clear its messages from all of them.  Queues are addresses.  The manager is made
    with the first queue and deleted with the last; calling a queue that is gone is
    undefined.  A [Get] that waits is here the [Get]s it is made of. *)
From stdpp Require Import gmap.
From S2P Require Import Prelude MessageQueue.

Section manager.
Context {Handler Data : Type} `{EqDecision Handler}.
Abbreviation MessageQueue := (@MessageQueue Handler Data).
Abbreviation Message := (@Message Handler Data).

(** [instance_]: the manager's [message_queues_]; [queues]: those that live. *)
Record System := mkSystem { instance_ : option (list nat); queues : gmap nat MessageQueue }.
Definition System_new : System := mkSystem None ∅.
Definition set_queue (i : nat) (q : MessageQueue) (s : System) : System := mkSystem (instance_ s) (<[i := q]> (queues s)).

(** ** The manager *)
Definition Instance (s : System) : list nat := default [] (instance_ s).
Definition IsInitialized (s : System) : bool := match instance_ s with Some _ => true | None => false end.
Definition AddInternal (i : nat) (s : System) : System := mkSystem (Some (Instance s ++ [i])) (queues s).
Definition Add (i : nat) (s : System) : System := AddInternal i s.
Fixpoint erase_queue (i : nat) (l : list nat) : list nat :=
  match l with [] => [] | j :: l => if decide (j = i) then l else j :: erase_queue i l end.
Definition RemoveInternal (i : nat) (l : list nat) (s : System) : System :=
  let message_queues_ := erase_queue i l in
  mkSystem (match message_queues_ with [] => None | _ => Some message_queues_ end) (queues s).
Definition Remove (i : nat) (s : System) : System :=
  match instance_ s with None => s | Some l => RemoveInternal i l s end.
Fixpoint ClearInternal (handler : option Handler) (l : list nat) (s : System) : outcome System :=
  match l with
  | [] => Done s
  | i :: l =>
    q ← lift_undefined (queues s !! i);
    ClearInternal handler l (set_queue i (Clear q handler MQID_ANY).1 s)
  end.
Definition Manager_Clear (handler : option Handler) (s : System) : outcome System :=
  match instance_ s with None => Done s | Some l => ClearInternal handler l s end.
(** [~MessageHandler]. *)
Definition delete_handler (h : Handler) (s : System) : outcome System := Manager_Clear (Some h) s.

(** ** The queues *)
Definition queue (i : nat) (s : System) : outcome MessageQueue := lift_undefined (queues s !! i).
Definition new_queue (i : nat) (s : System) : System := set_queue i MessageQueue_new s.
(** [EnsureActive] of a post tells the manager. *)
Definition posted (i : nat) (before after : MessageQueue) (s : System) : System :=
  let s := set_queue i after s in if negb (active_ before) && active_ after then Add i s else s.
Definition queue_Post (i : nat) (now : Z) (h : option Handler) (id : Z) (d : option Data) (time_sensitive : bool) (s : System) : outcome System :=
  q ← queue i s; Done (posted i q (Post now q h id d time_sensitive) s).
Definition queue_DoDelayPost (i : nat) (cmsDelay tstamp : Z) (h : option Handler) (id : Z) (d : option Data) (s : System) : outcome System :=
  q ← queue i s; Done (posted i q (DoDelayPost q cmsDelay tstamp h id d) s).
Definition queue_Clear (i : nat) (h : option Handler) (id : Z) (s : System) : outcome System :=
  q ← queue i s; Done (set_queue i (Clear q h id).1 s).
(** [~MessageQueue]. *)
Definition delete_queue (i : nat) (s : System) : outcome System :=
  q ← queue i s;
  let s := if active_ q then set_queue i (Clear q None MQID_ANY).1 (Remove i s) else s in
  Done (mkSystem (instance_ s) (delete i (queues s))).

(** ** What programs do

    A call on a queue that is gone, or for a new one at an address in use, is not made. *)
Inductive call :=
  | CallNew (i : nat) | CallDelete (i : nat) | CallPost (i : nat) (now : Z) (h : option Handler) (id : Z) (d : option Data) (ts : bool)
  | CallDelayPost (i : nat) (cmsDelay tstamp : Z) (h : option Handler) (id : Z) (d : option Data)
  | CallClear (i : nat) (h : option Handler) (id : Z) | CallQuit (i : nat) | CallRestart (i : nat)
  | CallGet (i : nat) (now : Z) | CallPeek (i : nat) (now : Z) | CallDeleteHandler (h : Handler).
Definition lives (i : nat) (s : System) : bool := bool_decide (is_Some (queues s !! i)).
Definition when (b : bool) (r : outcome System) (s : System) : outcome System := if b then r else Done s.
Definition changed (i : nat) (f : MessageQueue -> MessageQueue) (s : System) : outcome System := q ← queue i s; Done (set_queue i (f q) s).
Definition got (r : option (bool * Message * MessageQueue)) (q : MessageQueue) : MessageQueue := match r with Some (_, _, q) => q | None => q end.
Definition do_call (c : call) (s : System) : outcome System :=
  match c with
  | CallNew i => when (negb (lives i s)) (Done (new_queue i s)) s
  | CallDelete i => when (lives i s) (delete_queue i s) s
  | CallPost i now h id d ts => when (lives i s) (queue_Post i now h id d ts s) s
  | CallDelayPost i c t h id d => when (lives i s) (queue_DoDelayPost i c t h id d s) s
  | CallClear i h id => when (lives i s) (queue_Clear i h id s) s
  | CallQuit i => when (lives i s) (changed i Quit s) s
  | CallRestart i => when (lives i s) (changed i Restart s) s
  | CallGet i now => when (lives i s) (changed i (fun q => got (Get now q Message_null 0 []) q) s) s
  | CallPeek i now => when (lives i s) (changed i (fun q => got (Peek now q Message_null 0 []) q) s) s
  | CallDeleteHandler h => delete_handler h s
  end.
Fixpoint do_calls (l : list call) (s : System) : outcome System :=
  match l with [] => Done s | c :: l => s ← do_call c s; do_calls l s end.

(** ** No queue is forgotten *)
Record invariant (s : System) : Prop := {
  inv_listed : forall i, i ∈ Instance s <-> exists q, queues s !! i = Some q /\ active_ q = true;
  inv_once : NoDup (Instance s);
  inv_used : instance_ s <> Some [];
  inv_quiet : forall i q, queues s !! i = Some q -> active_ q = false -> pending q = [] }.

Lemma Clear_facts (q : MessageQueue) h id : pending (Clear q h id).1 = List.filter (fun m => negb (Match m h id)) (pending q) /\
  active_ (Clear q h id).1 = active_ q.
Proof.
  pose proof (Clear_partitions q h id) as H. unfold Clear in *. cbv zeta in *. cbn [fst] in *. split; [apply H|].
  by destruct (fPeekKeep_ q && Match (msgPeek_ q) h id).
Qed.
Lemma pending_nil (q : MessageQueue) : pending q = [] <-> fPeekKeep_ q = false /\ msgq_ q = [] /\ dmsgq_ q = [].
Proof.
  unfold pending. split; [|by intros (-> & -> & ->)]. intros [H1 [H2 H3]%app_nil]%app_nil. destruct (fPeekKeep_ q); [done|].
  apply map_eq_nil in H3. done.
Qed.
(** What a call does to a queue that nobody posts to. *)
Definition quiet_change (q q' : MessageQueue) : Prop := active_ q' = active_ q /\ (active_ q = false -> pending q = [] -> pending q' = []).
Lemma Get_loop_quiet q m cmsWait t1 t2 t3 : quiet_change q (got (Get_loop q m cmsWait t1 t2 t3 []) q).
Proof.
  cbn [Get_loop]. destruct (promote t2 (msgq_ q) (dmsgq_ q)) as [[l d] n] eqn:Ep. destruct (pull m l) as [[g m'] l'] eqn:El. cbv zeta.
  assert (H : pending q = [] -> l' = [] /\ d = []).
  { intros (_ & Hm & Hd)%pending_nil. rewrite Hm, Hd in Ep. cbn in Ep. injection Ep as <- <- _. cbn in El. by injection El as _ _ <-. }
  assert (Hq : quiet_change q (set_queues q l' d)).
  { split; [done|]. intros _ Hp. destruct (H Hp) as [-> ->]. apply pending_nil in Hp as (Hk & _ & _). by apply pending_nil. }
  destruct g; cbn [got]; [done|]. destruct (fStop_ (set_queues q l' d)); [exact Hq|by split].
Qed.
Lemma Get_quiet now q m : quiet_change q (got (Get now q m 0 []) q).
Proof.
  unfold Get. destruct (fPeekKeep_ q) eqn:E; [|apply Get_loop_quiet]. split; [done|]. intros _ (Hk & _)%pending_nil. congruence.
Qed.
Lemma Peek_quiet now q m : quiet_change q (got (Peek now q m 0 []) q).
Proof.
  unfold Peek. destruct (fPeekKeep_ q) eqn:E; [by split|]. pose proof (Get_quiet now q m) as H.
  destruct (Get now q m 0 []) as [[[g m'] q']|] eqn:Eg; cbn [mbind option_bind got] in *; [|done]. destruct g; [|exact H]. split; [apply H|].
  intros _ Hp. exfalso. pose proof Hp as (_ & Hm & Hd)%pending_nil. unfold Get in Eg. rewrite E in Eg. cbn [Get_loop] in Eg. rewrite Hm, Hd in Eg.
  cbn in Eg. destruct (fStop_ q); discriminate Eg.
Qed.
Lemma set_queue_ok i q q' s : invariant s -> queues s !! i = Some q -> quiet_change q q' -> invariant (set_queue i q' s).
Proof.
  intros [H1 H2 H3 H4] Hq [Ha Hp]. split; cbn; [|done|done|].
  - intros j. rewrite (H1 j). destruct (decide (j = i)) as [->|Hne]; [rewrite lookup_insert_eq, Hq|by rewrite lookup_insert_ne].
    split; intros (x & [= <-] & Hx); eexists; (split; [done|congruence]).
  - intros j x. destruct (decide (j = i)) as [->|Hne]; [rewrite lookup_insert_eq; intros [= <-]|rewrite lookup_insert_ne by done; apply H4].
    intros Hf. apply Hp; [congruence|]. apply (H4 i); [done|congruence].
Qed.
(** A post leaves the queue alone or makes it active. *)
Lemma posted_ok i q q' s : invariant s -> queues s !! i = Some q -> q' = q \/ active_ q' = true -> invariant (posted i q q' s).
Proof.
  intros Hi Hq Hq'. unfold posted. pose proof Hi as [H1 H2 H3 H4]. destruct (active_ q) eqn:Ea; cbn [negb andb].
  - apply (set_queue_ok i q); [done|done|]. destruct Hq' as [->|Hq']; [by split|]. split; congruence.
  - destruct (active_ q') eqn:Ea'.
    + split; cbn; [|..].
      * intros j. rewrite elem_of_app, list_elem_of_singleton, (H1 j). destruct (decide (j = i)) as [->|Hne].
        -- rewrite lookup_insert_eq. split; [intros _; by exists q'|by right].
        -- rewrite lookup_insert_ne by done. split; [by intros [?|?]|by left].
      * apply list.NoDup_app. split; [done|]. split; [|apply NoDup_singleton]. intros j Hj ->%list_elem_of_singleton.
        apply H1 in Hj as (x & Hx & Hax). congruence.
      * intros [= [_ Hx]%app_nil]. discriminate Hx.
      * intros j x. destruct (decide (j = i)) as [->|Hne]; [rewrite lookup_insert_eq; intros [= <-]; congruence|].
        rewrite lookup_insert_ne by done. apply H4.
    + destruct Hq' as [->|?]; [|done]. by apply (set_queue_ok i q).
Qed.

Lemma erase_queue_elem i l : NoDup l -> forall j, j ∈ erase_queue i l <-> j ∈ l /\ j <> i.
Proof.
  induction 1 as [|x l Hx Hl IH]; intros j; cbn; [by split; [intros ?%not_elem_of_nil|intros [?%not_elem_of_nil _]]|].
  case_decide as E.
  - subst. rewrite elem_of_cons. split; [intros Hj; split; [by right|by intros ->]|by intros [[->|?] ?]].
  - rewrite !elem_of_cons, IH. split; [intros [->|[? ?]]; auto|intros [[->|?] ?]; auto].
Qed.
Lemma erase_queue_NoDup i l : NoDup l -> NoDup (erase_queue i l).
Proof.
  induction 1 as [|x l Hx Hl IH]; cbn; [constructor|]. case_decide; [done|]. constructor; [|done].
  intros [? _]%(erase_queue_elem i l Hl). contradiction.
Qed.
Lemma Instance_Remove i s : NoDup (Instance s) -> Instance (Remove i s) = erase_queue i (Instance s).
Proof.
  intros Hn. unfold Remove, RemoveInternal, Instance. destruct (instance_ s) as [l|] eqn:El; [|by rewrite El]. cbn. by destruct (erase_queue i l).
Qed.
Lemma delete_queue_ok i s q : invariant s -> queues s !! i = Some q -> exists s', delete_queue i s = Done s' /\ invariant s'.
Proof.
  intros [H1 H2 H3 H4] Hq. unfold delete_queue, queue. rewrite Hq. run. eexists. split; [done|].
  assert (Hdel : forall j x, delete i (queues s) !! j = Some x <-> queues s !! j = Some x /\ j <> i).
  { intros j x. rewrite lookup_delete_Some. intuition congruence. }
  destruct (active_ q) eqn:Ea; cbn [instance_ queues set_queue].
  - pose proof (Instance_Remove i s H2) as HI. assert (Hqs : queues (Remove i s) = queues s) by (unfold Remove; by destruct (instance_ s)).
    rewrite Hqs, delete_insert_eq. split.
    + intros j. change (Instance _) with (Instance (Remove i s)). rewrite HI, erase_queue_elem, (H1 j) by done. cbn.
      split; [intros ((x & Hx & Hax) & Hne); exists x; by rewrite Hdel|intros (x & [Hx Hne]%Hdel & Hax); split; [by exists x|done]].
    + change (Instance _) with (Instance (Remove i s)). rewrite HI. by apply erase_queue_NoDup.
    + cbn. unfold Remove, RemoveInternal. destruct (instance_ s) as [l|] eqn:El; [cbn|by rewrite El]. by destruct (erase_queue i l).
    + cbn. intros j x [Hx Hne]%Hdel. by apply (H4 j).
  - split; cbn; [|done|done|].
    + intros j. rewrite (H1 j). split; intros (x & Hx & Hax).
      * exists x. rewrite Hdel. split; [split; [done|congruence]|done].
      * apply Hdel in Hx as [Hx _]. by exists x.
    + intros j x [Hx Hne]%Hdel. by apply (H4 j).
Qed.
Lemma ClearInternal_spec h l : forall s, NoDup l -> (forall i, i ∈ l -> is_Some (queues s !! i)) ->
  exists s', ClearInternal h l s = Done s' /\ instance_ s' = instance_ s /\
    forall i, queues s' !! i = if decide (i ∈ l) then (fun q => (Clear q h MQID_ANY).1) <$> queues s !! i else queues s !! i.
Proof.
  induction l as [|x l IH]; intros s Hn Hl; cbn [ClearInternal]; [by exists s|]. apply list.NoDup_cons in Hn as [Hx Hn].
  destruct (Hl x) as [q Hq]; [by left|]. rewrite Hq. run. set (s1 := set_queue x _ s).
  assert (Hs1 : forall i, queues s1 !! i = if decide (i = x) then Some (Clear q h MQID_ANY).1 else queues s !! i).
  { intros i. cbn. case_decide as E; [subst; by rewrite lookup_insert_eq|by rewrite lookup_insert_ne]. }
  destruct (IH s1 Hn) as (s' & E & HI & HQ).
  { intros i Hi. rewrite Hs1. case_decide; [by eexists|]. apply Hl. by right. }
  exists s'. split_and!; [done|done|]. intros i. rewrite HQ, Hs1. destruct (decide (i = x)) as [->|Hne].
  - rewrite decide_False by done. rewrite decide_True by (by left). by rewrite Hq.
  - destruct (decide (i ∈ l)) as [Hi|Hi]; [rewrite decide_True by (by right); done|rewrite decide_False; [done|]]. by intros [?|?]%elem_of_cons.
Qed.
(** [delete_handler] clears every queue: one that is not listed has nothing. *)
Lemma delete_handler_spec h s : invariant s -> exists s', delete_handler h s = Done s' /\ invariant s' /\
  (forall i, queues s' !! i = None <-> queues s !! i = None) /\
  forall i q, queues s !! i = Some q -> exists q', queues s' !! i = Some q' /\
    pending q' = List.filter (fun m => negb (bool_decide (phandler m = Some h))) (pending q).
Proof.
  intros Hi. pose proof Hi as [H1 H2 H3 H4].
  assert (HC : exists s', delete_handler h s = Done s' /\ instance_ s' = instance_ s /\
    forall i, queues s' !! i = if decide (i ∈ Instance s) then (fun q => (Clear q (Some h) MQID_ANY).1) <$> queues s !! i else queues s !! i).
  { unfold delete_handler, Manager_Clear. destruct (instance_ s) as [l|] eqn:El.
    - assert (Hl : Instance s = l) by (unfold Instance; by rewrite El). rewrite Hl in *.
      destruct (ClearInternal_spec (Some h) l s) as (s' & E & HI & HQ); [done|intros i (q & Hq & _)%H1; by exists q|].
      exists s'. split; [done|split; [congruence|done]].
    - exists s. split; [done|split; [by rewrite El|]]. intros i. unfold Instance. rewrite El. by rewrite decide_False by apply not_elem_of_nil. }
  destruct HC as (s' & E & HI & HQ). exists s'. split; [done|].
  assert (HA : forall i q', queues s' !! i = Some q' -> exists q, queues s !! i = Some q /\ active_ q = active_ q' /\
    (pending q = [] -> pending q' = [])).
  { intros i q' Hq'. rewrite HQ in Hq'. case_decide; [|by exists q']. destruct (queues s !! i) as [q|]; [|done]. assert (q' = (Clear q (Some h) MQID_ANY).1) as -> by (cbn in *; congruence). exists q.
    destruct (Clear_facts q (Some h) MQID_ANY) as [Hp Ha]. split_and!; [done|done|]. intros Hn. cbv beta. rewrite Hp, Hn. done. }
  assert (HN : forall i, queues s' !! i = None <-> queues s !! i = None).
  { intros i. rewrite HQ. case_decide; [|done]. by destruct (queues s !! i). }
  split; [|split; [done|]].
  - split.
    + intros i. unfold Instance. rewrite HI. fold (Instance s). rewrite (H1 i). split.
      * intros (q & Hq & Ha). destruct (queues s' !! i) as [q'|] eqn:Eq'; [|apply HN in Eq'; congruence].
        destruct (HA i q' Eq') as (q0 & Hq0 & Ha0 & _). exists q'. split; [done|]. congruence.
      * intros (q' & Hq' & Ha'). destruct (HA i q' Hq') as (q & Hq & Ha & _). exists q. split; [done|congruence].
    + unfold Instance. by rewrite HI.
    + by rewrite HI.
    + intros i q' Hq' Ha'. destruct (HA i q' Hq') as (q & Hq & Ha & Hp). apply Hp, (H4 i); [done|congruence].
  - intros i q Hq. rewrite HQ, Hq. case_decide as Hin.
    + eexists. split; [done|]. rewrite (proj1 (Clear_facts q (Some h) MQID_ANY)). apply List.filter_ext. intros m. unfold Match.
      rewrite bool_decide_eq_false_2 by done. cbn [orb]. rewrite andb_true_r. f_equal. apply bool_decide_ext. by split.
    + exists q. split; [done|]. destruct (active_ q) eqn:Ea; [exfalso; apply Hin, H1; by exists q|]. by rewrite (H4 i q Hq Ea).
Qed.
Lemma manager_call_ok c s : invariant s -> exists s', do_call c s = Done s' /\ invariant s'.
Proof.
  intros Hi. assert (Hstay : exists s', Done s = Done s' /\ invariant s') by by exists s.
  assert (Hlive : forall i, lives i s = true -> exists q, queues s !! i = Some q).
  { intros i Hl. unfold lives in Hl. by apply bool_decide_eq_true in Hl as [q ?]; exists q. }
  destruct c as [i|i|i now h id d ts|i c t h id d|i h id|i|i|i now|i now|h]; cbn [do_call]; unfold when;
    try match goal with |- exists s', (if ?b then _ else _) = _ /\ _ => destruct b eqn:Eb; [|done] end.
  - eexists. split; [done|]. apply negb_true_iff in Eb. unfold lives in Eb. apply bool_decide_eq_false in Eb. apply eq_None_not_Some in Eb.
    destruct Hi as [H1 H2 H3 H4]. split; cbn; [|done|done|].
    + intros j. rewrite (H1 j). destruct (decide (j = i)) as [->|Hne]; [rewrite lookup_insert_eq, Eb|by rewrite lookup_insert_ne].
      split; [by intros (q & ? & _)|by intros (q & [= <-] & ?)].
    + intros j q. destruct (decide (j = i)) as [->|Hne]; [rewrite lookup_insert_eq; by intros [= <-]|rewrite lookup_insert_ne by done; apply H4].
  - destruct (Hlive i Eb) as [q Hq]. by apply (delete_queue_ok i s q).
  - destruct (Hlive i Eb) as [q Hq]. unfold queue_Post, queue. rewrite Hq. run. eexists. split; [done|]. apply (posted_ok i q); [done|done|].
    unfold Post. destruct (fStop_ q); [by left|right]. cbn. unfold EnsureActive. by destruct (active_ q) eqn:Ea.
  - destruct (Hlive i Eb) as [q Hq]. unfold queue_DoDelayPost, queue. rewrite Hq. run. eexists. split; [done|]. apply (posted_ok i q); [done|done|].
    unfold DoDelayPost. destruct (fStop_ q); [by left|right]. cbn. unfold EnsureActive. by destruct (active_ q) eqn:Ea.
  - destruct (Hlive i Eb) as [q Hq]. unfold queue_Clear, queue. rewrite Hq. run. eexists. split; [done|]. apply (set_queue_ok i q); [done|done|].
    destruct (Clear_facts q h id) as [Hp Ha]. split; [done|]. intros _ Hn. by rewrite Hp, Hn.
  - destruct (Hlive i Eb) as [q Hq]. unfold changed, queue. rewrite Hq. run. eexists. split; [done|]. by apply (set_queue_ok i q).
  - destruct (Hlive i Eb) as [q Hq]. unfold changed, queue. rewrite Hq. run. eexists. split; [done|]. by apply (set_queue_ok i q).
  - destruct (Hlive i Eb) as [q Hq]. unfold changed, queue. rewrite Hq. run. eexists. split; [done|]. apply (set_queue_ok i q); [done|done|apply Get_quiet].
  - destruct (Hlive i Eb) as [q Hq]. unfold changed, queue. rewrite Hq. run. eexists. split; [done|]. apply (set_queue_ok i q); [done|done|apply Peek_quiet].
  - destruct (delete_handler_spec h s Hi) as (s' & E & Hi' & _). by exists s'.
Qed.
Lemma manager_calls_ok l : forall s, invariant s -> exists s', do_calls l s = Done s' /\ invariant s'.
Proof.
  induction l as [|c l IH]; intros s Hi; [by exists s|]. cbn [do_calls]. destruct (manager_call_ok c s Hi) as (s' & -> & Hi'). run. by apply IH.
Qed.
Lemma System_new_ok : invariant System_new.
Proof.
  split; cbn; [|constructor|done|].
  - intros i. split; [by intros ?%not_elem_of_nil|]. intros (q & Hq & _). by rewrite lookup_empty in Hq.
  - intros i q Hq. by rewrite lookup_empty in Hq.
Qed.

(** C37. Whatever queues were made, used and deleted before: the manager exists exactly while some living
    queue was posted to, and when a handler ends no queue that lives keeps a
    message for it, all other messages stay, in order, and no queue that is gone is touched. *)
Theorem ended_handler_is_forgotten calls :
  exists s, do_calls calls System_new = Done s /\
    (IsInitialized s = true <-> exists i q, queues s !! i = Some q /\ active_ q = true) /\
    forall h, exists s', delete_handler h s = Done s' /\ (forall i, queues s' !! i = None <-> queues s !! i = None) /\
      forall i q, queues s !! i = Some q -> exists q', queues s' !! i = Some q' /\
        pending q' = List.filter (fun m => negb (bool_decide (phandler m = Some h))) (pending q).
Proof.
  destruct (manager_calls_ok calls System_new System_new_ok) as (s & E & Hi). exists s. split; [done|]. split.
  - destruct Hi as [H1 _ H3 _]. unfold IsInitialized. unfold Instance in H1. destruct (instance_ s) as [[|i l]|] eqn:El; [done| |].
    + split; [intros _|done]. destruct (proj1 (H1 i)) as (q & Hq & Ha); [by left|]. by exists i, q.
    + split; [done|]. intros (i & q & Hq & Ha). exfalso. apply (not_elem_of_nil i), H1. by exists q.
  - intros h. destruct (delete_handler_spec h s Hi) as (s' & Es & _ & HN & HQ). by exists s'.
Qed.
End manager.

(** A message that was taken out before is still dispatched. *)
Example dispatched_after_its_handler :
  let posted := CallPost 1 0 (Some 5) 7 (Some tt) false in
  match do_calls (Handler := Z) (Data := unit) [CallNew 1; posted; CallGet 1 0; posted; CallDeleteHandler 5] System_new with
  | Done s => pending <$> queues s !! 1%nat = Some [] | _ => False end.
Proof. vm_compute. done. Qed.
