(* ===== verification/QueueWakeup.v ===== *)
(** * event/messagequeue.cpp on event/physicalsocketserver.cpp: wake-ups

    A thread that has taken all messages out of its queue waits in its socket server until another one posts a message or
    tells it to quit; the one that posts signals the server, by a byte in a pipe or by an event.  Producers and the thread run
    interleaved, step by step: what a critical section or a system call does is one step, but the lock of the queue, which is held over two.  The thread
    waits without a time limit and only for the signal.  Last comes which server a queue has. *)
From S2P Require Import Prelude.

Section wakeup.
Context {Msg : Type}.
Inductive platform := LINUX | WIN32.

(** Where a producer is in [Post] or [Quit]. *)
Inductive action := Post (m : Msg) | Pushing (m : Msg) | Waking (locked : bool) | Quit.
(** Where the thread is: taking messages, testing [fStop_], and in [Wait]. *)
Inductive place := Checking | Testing | Entering | Looping | Selecting | Resetting | Handling | Ended.
(** [fSignaled_] on Windows is the state of the event; [pushed]: all messages that came into the queue; [log]: those dispatched. *)
Record System := mkSystem { msgq_ : list Msg; fStop_ : bool; crit_ : option nat; fSignaled_ : bool; pipe_ : nat; fWait_ : bool;
  pc : place; producers : list (list action); pushed : list Msg; log : list Msg }.
Definition set_producer (t : nat) (l : list action) (s : System) : System :=
  mkSystem (msgq_ s) (fStop_ s) (crit_ s) (fSignaled_ s) (pipe_ s) (fWait_ s) (pc s) (<[t := l]> (producers s)) (pushed s) (log s).
Definition set_crit (c : option nat) (s : System) : System :=
  mkSystem (msgq_ s) (fStop_ s) c (fSignaled_ s) (pipe_ s) (fWait_ s) (pc s) (producers s) (pushed s) (log s).
Definition set_stop (s : System) : System :=
  mkSystem (msgq_ s) true (crit_ s) (fSignaled_ s) (pipe_ s) (fWait_ s) (pc s) (producers s) (pushed s) (log s).
Definition set_signal (x : bool) (n : nat) (s : System) : System :=
  mkSystem (msgq_ s) (fStop_ s) (crit_ s) x n (fWait_ s) (pc s) (producers s) (pushed s) (log s).
Definition push (m : Msg) (s : System) : System :=
  mkSystem (msgq_ s ++ [m]) (fStop_ s) (crit_ s) (fSignaled_ s) (pipe_ s) (fWait_ s) (pc s) (producers s) (pushed s ++ [m]) (log s).
Definition go (p : place) (s : System) : System :=
  mkSystem (msgq_ s) (fStop_ s) (crit_ s) (fSignaled_ s) (pipe_ s) (fWait_ s) p (producers s) (pushed s) (log s).
Definition set_wait (x : bool) (s : System) : System :=
  mkSystem (msgq_ s) (fStop_ s) (crit_ s) (fSignaled_ s) (pipe_ s) x (pc s) (producers s) (pushed s) (log s).
Definition dispatch (m : Msg) (q : list Msg) (s : System) : System :=
  mkSystem q (fStop_ s) (crit_ s) (fSignaled_ s) (pipe_ s) (fWait_ s) (pc s) (producers s) (pushed s) (log s ++ [m]).

Definition Signal (pf : platform) (s : System) : System :=
  match pf with LINUX => if fSignaled_ s then s else set_signal true (S (pipe_ s)) s | WIN32 => set_signal true (pipe_ s) s end.
(** Up to 4 bytes are read. *)
Definition OnPreEvent (pf : platform) (s : System) : System :=
  match pf with LINUX => if fSignaled_ s then set_signal false (pipe_ s - 4) s else s | WIN32 => set_signal false (pipe_ s) s end.
Definition readable (pf : platform) (s : System) : bool := match pf with LINUX => negb (pipe_ s =? 0)%nat | WIN32 => fSignaled_ s end.

(** [None]: the producer waits for the lock or is done. *)
Definition producer_step (pf : platform) (t : nat) (s : System) : option System :=
  match producers s !! t with
  | None | Some [] => None
  | Some (a :: l) =>
    match a with
    | Post m => Some (set_producer t (if fStop_ s then l else Pushing m :: l) s)
    | Pushing m => match crit_ s with None => Some (set_producer t (Waking true :: l) (set_crit (Some t) (push m s))) | Some _ => None end
    | Waking locked => let s := set_producer t l (Signal pf s) in Some (if locked then set_crit None s else s)
    | Quit => Some (set_producer t (Waking false :: l) (set_stop s))
    end
  end.
Definition thread_step (pf : platform) (s : System) : option System :=
  match pc s with
  | Checking => match crit_ s with Some _ => None | None => Some (match msgq_ s with m :: q => dispatch m q s | [] => go Testing s end) end
  | Testing => Some (go (if fStop_ s then Ended else Entering) s)
  | Entering => Some (go Looping (set_wait true s))
  | Looping => Some (go (if fWait_ s then Selecting else Checking) s)
  | Selecting => if readable pf s then Some (go Resetting s) else None
  | Resetting => Some (go Handling (OnPreEvent pf s))
  | Handling => Some (go Looping (set_wait false s))
  | Ended => None
  end.
(** Step [0] is the thread's, the others are those of the producers. *)
Definition step (pf : platform) (i : nat) (s : System) : option System := match i with O => thread_step pf s | S t => producer_step pf t s end.
Definition start (ps : list (list action)) : System := mkSystem [] false None false 0 false Checking ps [] [].
(** Runs that a schedule makes; a step that is not possible is passed over. *)
Inductive run (pf : platform) : nat -> System -> System -> Prop :=
  | run_stop s : run pf 0 s s
  | run_step n i s s' s'' : step pf i s = Some s' -> run pf n s' s'' -> run pf (S n) s s''.
Definition fresh (a : action) : bool := match a with Post _ | Quit => true | _ => false end.

(** ** What stays true *)
Definition signal_due (s : System) : Prop := fSignaled_ s = true \/ exists t b l, producers s !! t = Some (Waking b :: l).
(** The thread goes on to wait for a signal if nothing changes; it has found the queue empty, and has passed the test of [fStop_]. *)
Definition passed_queue (s : System) : Prop := match pc s with Testing | Entering | Selecting => True | Looping => fWait_ s = true | _ => False end.
Definition passed_stop (s : System) : Prop := match pc s with Entering | Selecting => True | Looping => fWait_ s = true | _ => False end.
Record ok (pf : platform) (s : System) : Prop := {
  ok_pipe : pf = LINUX -> pipe_ s = if fSignaled_ s then 1%nat else 0%nat;
  ok_lock : forall t, crit_ s = Some t -> exists l, producers s !! t = Some (Waking true :: l);
  ok_lock_held : forall t l, producers s !! t = Some (Waking true :: l) -> crit_ s = Some t;
  ok_later : forall t a l, producers s !! t = Some (a :: l) -> forallb fresh l = true;
  ok_reset : pc s = Resetting -> fSignaled_ s = true;
  ok_wait : pc s = Selecting -> fWait_ s = true;
  ok_queue : passed_queue s -> msgq_ s <> [] -> signal_due s;
  ok_stop : passed_stop s -> fStop_ s = true -> signal_due s;
  ok_log : pushed s = log s ++ msgq_ s;
  ok_ended : pc s = Ended -> fStop_ s = true }.
Lemma Signal_due pf s : fSignaled_ (Signal pf s) = true.
Proof. destruct pf; cbn; [|done]. by destruct (fSignaled_ s) eqn:E. Qed.
Lemma Signal_pipe s : pipe_ s = (if fSignaled_ s then 1 else 0)%nat -> pipe_ (Signal LINUX s) = 1%nat.
Proof. intros H. cbn. destruct (fSignaled_ s) eqn:E; [done|]. cbn. by rewrite H. Qed.
Lemma Signal_same pf s : msgq_ (Signal pf s) = msgq_ s /\ fStop_ (Signal pf s) = fStop_ s /\ crit_ (Signal pf s) = crit_ s /\ fWait_ (Signal pf s) = fWait_ s /\
  pc (Signal pf s) = pc s /\ producers (Signal pf s) = producers s /\ pushed (Signal pf s) = pushed s /\ log (Signal pf s) = log s.
Proof. destruct pf; cbn; [|done]. by destruct (fSignaled_ s). Qed.
Lemma later_fresh a l : forallb fresh (a :: l) = true -> fresh a = true /\ forallb fresh l = true.
Proof. intros H. by apply andb_prop in H. Qed.
(** The lists of the other producers. *)
Lemma ok_later_set pf t a l l' s : ok pf s -> producers s !! t = Some (a :: l) -> (l' = l \/ exists b, l' = b :: l) ->
  forall u b k, <[t := l']> (producers s) !! u = Some (b :: k) -> forallb fresh k = true.
Proof.
  intros Hok Ht Hl u b k [(<- & -> & _)|[_ Hu]]%list_lookup_insert_Some; [|by eapply (ok_later _ _ Hok)]. pose proof (ok_later _ _ Hok t a l Ht) as Hf.
  destruct Hl as [<-|[c [= -> ->]]]; [|done]. by apply later_fresh in Hf as [_ ?].
Qed.
Lemma producer_step_ok pf t s s' : ok pf s -> producer_step pf t s = Some s' -> ok pf s'.
Proof.
  intros Hok E. pose proof Hok as [Hp Hl Hh Hf Hr Hw Hq Hs Hg He]. unfold producer_step in E. destruct (producers s !! t) as [[|a l]|] eqn:Ht; try done.
  pose proof (lookup_lt_Some _ _ _ Ht) as Hlt. pose proof (Hf t a l Ht) as Hfl.
  assert (Hdue : forall l', (forall b, a <> Waking b) -> signal_due s -> signal_due (set_producer t l' s)).
  { intros l' Ha [Hd|(u & b & k & Hu)]; [by left|right]. exists u, b, k. cbn. rewrite list_lookup_insert_ne; [done|]. intros ->. rewrite Ht in Hu. injection Hu as -> _. by apply (Ha b). }
  assert (Hother : forall l' u k, (forall k, l' <> Waking true :: k) -> <[t := l']> (producers s) !! u = Some (Waking true :: k) -> u <> t /\ producers s !! u = Some (Waking true :: k)).
  { intros l' u k Hl' [(<- & Hk & _)|[Hn Hu]]%list_lookup_insert_Some; [by destruct (Hl' k)|done]. }
  assert (Hnot : forall k, l <> Waking true :: k) by (intros k ->; by apply later_fresh in Hfl as [? _]).
  destruct a as [m|m|b|].
  - injection E as <-. set (l' := if fStop_ s then l else Pushing m :: l). assert (Hl' : forall k, l' <> Waking true :: k) by (unfold l'; destruct (fStop_ s); [done|by intros k [=]]).
    split; cbn; auto.
    + intros u Hu. destruct (Hl u Hu) as [k Hk]. exists k. rewrite list_lookup_insert_ne; [done|]. intros ->. congruence.
    + intros u k Hu. apply Hother in Hu as [_ Hu]; [by apply (Hh u k)|done].
    + eapply ok_later_set; [done|done|]. unfold l'. destruct (fStop_ s); eauto.
  - destruct (crit_ s) eqn:Ec; [done|]. injection E as <-. assert (Hd : signal_due (set_producer t (Waking true :: l) (set_crit (Some t) (push m s)))).
    { right. eexists t, _, _. cbn. by apply list_lookup_insert_eq. }
    split; cbn; auto.
    + intros u [= <-]. eexists. by apply list_lookup_insert_eq.
    + intros u k [(<- & _ & _)|[Hn Hu]]%list_lookup_insert_Some; [done|]. by pose proof (Hh u k Hu).
    + eapply ok_later_set; [done|done|]. eauto.
    + by rewrite Hg, app_assoc.
  - destruct (Signal_same pf s) as (S1 & S2 & S3 & S4 & S5 & S6 & S7 & S8). set (s1 := set_producer t l (Signal pf s)) in *.
    assert (Hs1 : forall c, ok pf (set_crit c s1) <-> (forall u, c = Some u -> exists k, <[t := l]> (producers s) !! u = Some (Waking true :: k)) /\
      (forall u k, <[t := l]> (producers s) !! u = Some (Waking true :: k) -> c = Some u)).
    { intros c. split; [intros [_ H1 H2 _ _ _ _ _ _ _]; cbn in H1, H2; rewrite S6 in H1, H2; auto|]. intros [H1 H2]. split; cbn; rewrite ?S6; auto; try (intros _ _; left; apply Signal_due).
      - intros ->. by rewrite Signal_due, Signal_pipe by auto.
      - eapply ok_later_set; eauto.
      - intros _. apply Signal_due.
      - rewrite S5, S4. auto.
      - by rewrite S7, S8, S1.
      - rewrite S5, S2. auto. }
    destruct b; injection E as <-.
    + apply Hs1. split; [done|]. intros u k Hu. apply Hother in Hu as [Hn Hu]; [|done]. pose proof (Hh u k Hu). pose proof (Hh t l Ht). congruence.
    + replace s1 with (set_crit (crit_ s) s1) by (unfold s1; rewrite <- S3; by destruct (Signal pf s)). apply Hs1. split.
      * intros u Hu. destruct (Hl u Hu) as [k Hk]. exists k. rewrite list_lookup_insert_ne; [done|]. intros ->. congruence.
      * intros u k Hu. apply Hother in Hu as [_ Hu]; [by apply (Hh u k)|done].
  - injection E as <-. assert (Hd : signal_due (set_producer t (Waking false :: l) (set_stop s))).
    { right. eexists t, _, _. cbn. by apply list_lookup_insert_eq. }
    split; cbn; auto.
    + intros u Hu. destruct (Hl u Hu) as [k Hk]. exists k. rewrite list_lookup_insert_ne; [done|]. intros ->. congruence.
    + intros u k Hu. apply Hother in Hu as [_ Hu]; [by apply (Hh u k)|by intros k' [=]].
    + eapply ok_later_set; [done|done|]. eauto.
Qed.
Lemma thread_step_ok pf s s' : ok pf s -> thread_step pf s = Some s' -> ok pf s'.
Proof.
  intros [Hp Hl Hh Hf Hr Hw Hq Hs Hg He] E. unfold thread_step, passed_queue, passed_stop in *. destruct (pc s) eqn:Ep; try done.
  - destruct (crit_ s) eqn:Ec; [done|]. injection E as <-.
    destruct (msgq_ s) as [|m q] eqn:Em; split; cbn; rewrite ?Ec, ?Em; auto; try (unfold passed_queue, passed_stop; cbn; rewrite ?Ep; done). by rewrite Hg, <- app_assoc.
  - injection E as <-. destruct (fStop_ s) eqn:Es; split; cbn; auto; try done. congruence.
  - injection E as <-. split; cbn; auto; try done.
  - injection E as <-. destruct (fWait_ s) eqn:Ew; split; cbn; auto; try done.
  - destruct (readable pf s) eqn:Er; [|done]. injection E as <-. split; cbn; auto; try done. intros _. destruct pf; cbn in Er; [|done]. rewrite Hp in Er by done. by destruct (fSignaled_ s).
  - injection E as <-. specialize (Hr eq_refl). assert (Hsame : forall s1, s1 = OnPreEvent pf s -> ok pf (go Handling s1)); [|by apply Hsame].
    intros s1 ->. destruct pf; cbn; [rewrite Hr|]; split; cbn; auto; try done. intros _. rewrite Hp, Hr by done. done.
  - injection E as <-. split; cbn; auto; try done.
Qed.

(** ** Every run ends *)
Definition weight (a : action) : nat := match a with Post _ => 24 | Pushing _ => 23 | Quit => 22 | Waking _ => 21 end.
Fixpoint weights (l : list action) : nat := match l with [] => 0 | a :: l => weight a + weights l end.
Fixpoint work (l : list (list action)) : nat := match l with [] => 0 | k :: l => weights k + work l end.
Definition distance (s : System) : nat :=
  match pc s with Ended => 0 | Resetting => 1 | Selecting => 2 | Looping => if fWait_ s then 3 else 7 | Entering => 4 | Testing => 5 | Checking => 6 | Handling => 8 end.
(** A signal is worth a round of the thread. *)
Definition measure (s : System) : nat := work (producers s) + (if fSignaled_ s then 20 else 0) + length (msgq_ s) + distance s.
Lemma work_insert t l k : forall L, L !! t = Some l -> (work (<[t := k]> L) + weights l = work L + weights k)%nat.
Proof.
  induction t as [|t IH]; intros [|x L] Hx; try done; [injection Hx as ->; change (<[0%nat := k]> (l :: L)) with (k :: L); cbn; lia|].
  specialize (IH L Hx). change (<[S t := k]> (x :: L)) with (x :: <[t := k]> L). cbn [work]. lia.
Qed.
Lemma producer_step_less pf t s s' : producer_step pf t s = Some s' -> (measure s' < measure s)%nat.
Proof.
  unfold producer_step. destruct (producers s !! t) as [[|a l]|] eqn:Ht; try done. intros E. pose proof (fun k => work_insert t _ k _ Ht) as Hw. cbn [weights] in Hw. destruct a as [m|m|b|]; cbn [weight] in Hw.
  - injection E as <-. unfold measure, distance. cbn [producers fSignaled_ msgq_ pc fWait_ set_producer]. specialize (Hw (if fStop_ s then l else Pushing m :: l)). destruct (fStop_ s); cbn [weights weight] in Hw; lia.
  - destruct (crit_ s); [done|]. injection E as <-. unfold measure, distance. cbn [producers fSignaled_ msgq_ pc fWait_ set_producer set_crit push]. rewrite length_app. specialize (Hw (Waking true :: l)). cbn [weights weight length] in *. lia.
  - assert (H : (measure (set_producer t l (Signal pf s)) < measure s)%nat).
    { unfold measure, distance. cbn [producers fSignaled_ msgq_ pc fWait_ set_producer]. destruct (Signal_same pf s) as (-> & _ & _ & -> & -> & -> & _). specialize (Hw l). destruct (fSignaled_ (Signal pf s)) eqn:Es, (fSignaled_ s); lia. }
    destruct b; injection E as <-; exact H.
  - injection E as <-. unfold measure, distance. cbn [producers fSignaled_ msgq_ pc fWait_ set_producer set_stop]. specialize (Hw (Waking false :: l)). cbn [weights weight] in *. lia.
Qed.
Lemma thread_step_less pf s s' : ok pf s -> thread_step pf s = Some s' -> (measure s' < measure s)%nat.
Proof.
  intros Hok E. unfold thread_step in E. unfold measure, distance. destruct (pc s) eqn:Ep; try done.
  - destruct (crit_ s); [done|]. destruct (msgq_ s) eqn:Em; injection E as <-; cbn; rewrite ?Ep, ?Em; cbn; lia.
  - injection E as <-. cbn. destruct (fStop_ s); lia.
  - injection E as <-. cbn. lia.
  - injection E as <-. cbn. destruct (fWait_ s); lia.
  - destruct (readable pf s); [|done]. injection E as <-. cbn. lia.
  - injection E as <-. pose proof (ok_reset _ _ Hok Ep) as Hr. destruct pf; cbn; rewrite ?Hr; cbn; lia.
  - injection E as <-. cbn. lia.
Qed.
Lemma step_ok_wakeup pf i s s' : ok pf s -> step pf i s = Some s' -> ok pf s' /\ (measure s' < measure s)%nat.
Proof.
  intros Hok E. destruct i as [|t]; [split; [by eapply thread_step_ok|by eapply thread_step_less]|split; [by eapply producer_step_ok|by eapply producer_step_less]].
Qed.

(** ** Where it ends *)
Definition posts (l : list action) : list Msg := omap (fun a => match a with Post m | Pushing m => Some m | _ => None end) l.
Definition pending (l : list (list action)) : list Msg := concat (map posts l).
Lemma pending_insert t l k : forall L, L !! t = Some l -> pending (<[t := k]> L) ++ posts l ≡ₚ pending L ++ posts k.
Proof.
  induction t as [|t IH]; intros [|x L] Hx; try done; unfold pending in *.
  - change (<[0%nat := k]> (x :: L)) with (k :: L). cbn. injection Hx as ->. rewrite (Permutation_app_comm (posts k)), (Permutation_app_comm (posts l)), <- !app_assoc. by rewrite (Permutation_app_comm (posts k)).
  - change (<[S t := k]> (x :: L)) with (x :: <[t := k]> L). cbn. rewrite <- !app_assoc. by rewrite (IH L Hx).
Qed.
(** Until someone quits, no message is dropped. *)
Definition all_pushed (ps : list (list action)) (s : System) : Prop := fStop_ s = false -> pushed s ++ pending (producers s) ≡ₚ pending ps.
Lemma step_pushed pf ps i s s' : all_pushed ps s -> step pf i s = Some s' -> all_pushed ps s'.
Proof.
  unfold all_pushed. intros H E. destruct i as [|t]; cbn [step] in E.
  - unfold thread_step in E. destruct (pc s); try done; try (injection E as <-; done).
    + destruct (crit_ s); [done|]. by destruct (msgq_ s); injection E as <-.
    + destruct (readable pf s); [|done]. by injection E as <-.
    + injection E as <-. destruct pf; cbn; [|done]. by destruct (fSignaled_ s).
  - unfold producer_step in E. destruct (producers s !! t) as [[|a l]|] eqn:Ht; try done. pose proof (fun k => pending_insert t _ k _ Ht) as Hi. destruct a as [m|m|b|].
    + injection E as <-. cbn. intros Hs. rewrite Hs. specialize (Hi (Pushing m :: l)). apply Permutation_app_inv_r in Hi. by rewrite Hi, H.
    + destruct (crit_ s); [done|]. injection E as <-. cbn. intros Hs. rewrite <- (H Hs). specialize (Hi (Waking true :: l)). cbn in Hi.
      rewrite <- app_assoc. apply Permutation_app_head. rewrite <- Permutation_middle in Hi. change (posts l) with (posts l) in Hi.
      apply (Permutation_app_inv_r (posts l)). by rewrite <- Hi.
    + destruct (Signal_same pf s) as (_ & E2 & _ & _ & _ & E6 & E7 & _). assert (Hx : fStop_ (set_producer t l (Signal pf s)) = false -> pushed (set_producer t l (Signal pf s)) ++ pending (producers (set_producer t l (Signal pf s))) ≡ₚ pending ps).
      { cbn. rewrite E2, E6, E7. intros Hs. specialize (Hi l). apply Permutation_app_inv_r in Hi. by rewrite Hi, H. }
      by destruct b; injection E as <-.
    + by injection E as <-.
Qed.
Lemma at_rest_ok pf s : ok pf s -> (forall i, step pf i s = None) -> Forall (fun l => l = []) (producers s) /\ (if fStop_ s then pc s = Ended else pc s = Selecting /\ msgq_ s = []).
Proof.
  intros Hok Hn. assert (Hw : forall t b l, producers s !! t <> Some (Waking b :: l)).
  { intros t b l Ht. specialize (Hn (S t)). cbn in Hn. unfold producer_step in Hn. by rewrite Ht in Hn. }
  assert (Hc : crit_ s = None). { destruct (crit_ s) as [t|] eqn:Ec; [|done]. destruct (ok_lock _ _ Hok t Ec) as [l Hl]. by destruct (Hw t true l). }
  assert (Hno : ~ (readable pf s = false /\ signal_due s)).
  { intros [Hr [Hs|(t & b & l & Ht)]]; [|by destruct (Hw t b l)]. destruct pf; cbn in Hr; [|congruence]. rewrite (ok_pipe _ _ Hok eq_refl), Hs in Hr. done. }
  split.
  - apply Forall_lookup. intros t l Ht. destruct l as [|a l]; [done|]. specialize (Hn (S t)). cbn in Hn. unfold producer_step in Hn. rewrite Ht, Hc in Hn. by destruct a.
  - specialize (Hn 0%nat). cbn in Hn. unfold thread_step in Hn. rewrite Hc in Hn. destruct (pc s) eqn:Ep; try done.
    + destruct (readable pf s) eqn:Er; [done|]. destruct (fStop_ s) eqn:Es.
      * exfalso. apply Hno. split; [done|]. apply (ok_stop _ _ Hok); [by unfold passed_stop; rewrite Ep|done].
      * split; [done|]. destruct (msgq_ s) eqn:Em; [done|]. exfalso. apply Hno. split; [done|]. apply (ok_queue _ _ Hok); [by unfold passed_queue; rewrite Ep|by rewrite Em].
    + by rewrite (ok_ended _ _ Hok Ep).
Qed.
Lemma start_ok_wakeup pf ps : Forall (fun l => forallb fresh l = true) ps -> ok pf (start ps) /\ all_pushed ps (start ps).
Proof.
  intros Hf. assert (Hx : forall t a l, ps !! t = Some (a :: l) -> fresh a = true /\ forallb fresh l = true).
  { intros t a l Ht. pose proof (Forall_lookup_1 _ _ _ _ Hf Ht) as H. by apply andb_prop in H. }
  split; [split; cbn; try done|by intros _].
  - intros t l Ht. by apply Hx in Ht as [? _].
  - intros t a l Ht. by apply Hx in Ht as [_ ?].
Qed.
Lemma run_ok_wakeup pf ps n s s' : run pf n s s' -> ok pf s -> all_pushed ps s -> ok pf s' /\ all_pushed ps s' /\ (n + measure s' <= measure s)%nat.
Proof.
  induction 1 as [s|n i s s1 s2 E _ IH]; intros Hok Hp; [by auto|]. destruct (step_ok_wakeup pf i s s1 Hok E) as [Hok1 Hm]. destruct (IH Hok1 (step_pushed pf ps i s s1 Hp E)) as (? & ? & ?). split_and!; [done|done|lia].
Qed.
(** C28. Whatever several threads post and however they and the thread of the queue run interleaved, on Linux and on Windows: the run ends; what was dispatched and what is left in the
    queue is what came in, in order; and when nothing can go on, all have done their calls, and the thread has ended if it was told to quit, and otherwise waits behind an
    empty queue, having dispatched all that was posted. *)
Theorem no_wakeup_is_lost pf ps n s : Forall (fun l => forallb fresh l = true) ps -> run pf n (start ps) s ->
  (n <= measure (start ps))%nat /\ pushed s = log s ++ msgq_ s /\
  ((forall i, step pf i s = None) -> Forall (fun l => l = []) (producers s) /\
     (if fStop_ s then pc s = Ended else pc s = Selecting /\ msgq_ s = [] /\ log s ≡ₚ pending ps)).
Proof.
  intros Hf Hr. destruct (start_ok_wakeup pf ps Hf) as [Hok Hp]. destruct (run_ok_wakeup pf ps n _ s Hr Hok Hp) as (Hok' & Hp' & Hm). split; [lia|]. split; [by apply (ok_log _ _ Hok')|].
  intros Hn. destruct (at_rest_ok pf s Hok' Hn) as [He Hend]. split; [done|]. destruct (fStop_ s) eqn:Es; [done|]. destruct Hend as [H1 H2]. split_and!; [done|done|].
  specialize (Hp' Es). rewrite (ok_log _ _ Hok'), H2, app_nil_r in Hp'. rewrite <- Hp'. replace (pending (producers s)) with (@nil Msg); [by rewrite app_nil_r|].
  clear -He. induction He as [|l L -> _ IH]; [done|]. by unfold pending in *.
Qed.
End wakeup.

(** ** The server of a queue *)
Section servers.
Context {Server : Type}.
(** [told]: the calls of [SetMessageQueue], with the queue or with null. *)
Record QueueServer := mkQueueServer { ss_ : option Server; default_ss_ : option Server; told : list (Server * bool) }.
Definition SetMessageQueue (queue : bool) (w : QueueServer) : outcome QueueServer :=
  match ss_ w with Some ss => Done (mkQueueServer (ss_ w) (default_ss_ w) (told w ++ [(ss, queue)])) | None => Undefined end.
(** [new_server]: the one made if none is supplied. *)
Definition QueueServer_new (ss : option Server) (new_server : Server) : outcome QueueServer :=
  SetMessageQueue true (match ss with Some _ => mkQueueServer ss None [] | None => mkQueueServer (Some new_server) (Some new_server) [] end).
Definition set_socketserver (ss : option Server) (w : QueueServer) : outcome QueueServer :=
  SetMessageQueue true (mkQueueServer (match ss with Some _ => ss | None => default_ss_ w end) (default_ss_ w) (told w)).
Definition delete_QueueServer (w : QueueServer) : outcome QueueServer := match ss_ w with Some _ => SetMessageQueue false w | None => Done w end.
(** Scopes one in another, around nothing. *)
Fixpoint SocketServerScope (l : list (option Server)) (w : QueueServer) : outcome QueueServer :=
  match l with
  | [] => Done w
  | ss :: l => let old_ss_ := ss_ w in w ← set_socketserver ss w; w ← SocketServerScope l w; set_socketserver old_ss_ w
  end.
(** After the scopes the queue has the server it had, if each scope names one or the queue has one of its own. *)
Lemma scopes_restore l : forall w, ss_ w <> None -> (default_ss_ w = None -> Forall (fun ss => ss <> None) l) ->
  exists w', SocketServerScope l w = Done w' /\ ss_ w' = ss_ w /\ default_ss_ w' = default_ss_ w.
Proof.
  induction l as [|ss l IH]; intros w Hs Hd; [by exists w|]. cbn [SocketServerScope]. destruct (ss_ w) as [old|] eqn:Eo; [|done].
  assert (H : exists w1, set_socketserver ss w = Done w1 /\ ss_ w1 <> None /\ default_ss_ w1 = default_ss_ w).
  { unfold set_socketserver, SetMessageQueue; cbn. destruct ss as [ss|]; [by eexists|]. destruct (default_ss_ w) as [d|] eqn:Ed; [by eexists|]. specialize (Hd eq_refl). by inversion Hd. }
  destruct H as (w1 & -> & H1 & H2). cbn. destruct (IH w1 H1) as (w2 & -> & H3 & H4); [rewrite H2; intros H; specialize (Hd H); by inversion Hd|]. cbn.
  eexists. split; [unfold set_socketserver, SetMessageQueue; cbn; done|]. cbn. by rewrite H4, H2.
Qed.
End servers.

(** ** Examples *)
(** A queue that was given its server has no other to go back to; and a server that is replaced is not told. *)
Example no_server_to_go_back_to : (w ← QueueServer_new (Some 1) 0; set_socketserver None w) = Undefined.
Proof. done. Qed.
Example replaced_server_not_told : (w ← QueueServer_new (Some 1) 0; w ← set_socketserver (Some 2) w; w ← delete_QueueServer w; Done (told w)) = Done [(1, true); (2, true); (2, false)].
Proof. done. Qed.
Fixpoint run_schedule {Msg} (pf : platform) (schedule : list nat) (s : @System Msg) : System :=
  match schedule with [] => s | i :: schedule => run_schedule pf schedule (default s (step pf i s)) end.
Lemma run_schedule_run {Msg} pf schedule : forall s : @System Msg, exists n, run pf n s (run_schedule pf schedule s).
Proof.
  induction schedule as [|i l IH]; intros s; [exists 0%nat; constructor|]. cbn. destruct (step pf i s) as [s1|] eqn:E; cbn; [|apply IH]. destruct (IH s1) as [n Hn]. exists (S n). by eapply run_step.
Qed.
Definition demo_producers : list (list (@action Z)) := [[Post 1; Post 2]; [Post 3]].
(** The thread tests the queue, message 1 comes, and the thread goes on to wait. *)
Definition demo_schedule : list nat := [0; 1; 1; 0; 0; 0; 0; 1; 2; 2; 0; 0; 0; 0; 2; 0; 0; 0; 1; 1; 1; 0; 0; 0; 0; 0; 0; 0; 0; 0; 0; 0; 0; 0; 0; 0; 0; 0; 0; 0]%nat.
Lemma no_wakeup_is_lost_witness : let s := run_schedule LINUX demo_schedule (start demo_producers) in
  msgq_ s = [] /\ log s ≡ₚ [1; 2; 3] /\ log s = [1; 3; 2].
Proof.
  intros s. destruct (run_schedule_run LINUX demo_schedule (start demo_producers)) as [n Hr].
  destruct (no_wakeup_is_lost LINUX demo_producers n s) as (_ & _ & H); [by repeat constructor|exact Hr|]. assert (Hrest : forall i, step LINUX i s = None) by (intros [|[|[|t]]]; vm_compute; reflexivity).
  assert (Hstop : fStop_ s = false) by (vm_compute; reflexivity). assert (Hlog : log s = [1; 3; 2]) by (vm_compute; reflexivity).
  clearbody s. destruct (H Hrest) as [_ H']. rewrite Hstop in H'. destruct H' as (_ & H1 & H2). by split_and!.
Defined.
(** A message that passes the test of [fStop_] just before another thread quits stays in the queue for ever. *)
Example message_left_behind : let s := run_schedule WIN32 [1; 2; 2; 0; 0; 1; 1]%nat (start [[Post 1]; [Quit]]) in
  pc s = Ended /\ msgq_ s = [1].
Proof. vm_compute. done. Qed.
