(* ===== verification/Thread.v ===== *)
(** * event/thread.cpp: messages sent between threads

    [Thread::Send] queues a message on another thread, wakes it, and waits until
    its handler has run there; a thread that waits serves the messages sent to it
    meanwhile.  The threads run interleaved: a state is what the threads share and
    a stack of activities for each, and [step i] is the next action of thread [i],
    [None] when it is blocked.  An action is what runs under one lock or reads or
    writes one shared variable; [crit_] is released more often than in the code,
    so the model has every interleaving of the code and some more.

    [T] are the threads that exist, [fStop_] those whose queue was told to quit.
    What a handler does with a message is a finite program of sends and clears,
    which the message carries along.  The address of the local [ready] of a [Send]
    is a number.  A wake-up that was not waited for is remembered, as
    [SocketServer::WakeUp] does. *)
From stdpp Require Import functions finite gmap.
From S2P Require Import Prelude MessageQueue.

Section thread.
Context {T : Type} `{Finite T} {Handler Data : Type} `{EqDecision Handler}.
Variable fStop_ : T -> bool.
Abbreviation Msg := (@Message Handler Data).

(** What a handler does: return, send a message whose handler does [body], or
    clear messages from a thread's queue; then go on. *)
Inductive prog :=
  | Return
  | SendMsg (target : T) (msg : Msg) (body k : prog)
  | ClearMsgs (target : T) (handler : option Handler) (id : Z) (k : prog).

Record SendMessage := mkSend { smsg_thread : T; smsg_msg : Msg; smsg_body : prog; smsg_ready : nat }.

(** Where a thread is. *)
Inductive frame :=
  (** in a handler *)
  | Run (p : prog)
  (** in [Send]: before the wake-up, at the test of the loop, and in its [Wait] *)
  | SendWake (target : T) (ready : nat) (k : prog)
  | SendLoop (ready : nat) (waited : bool) (k : prog)
  | SendWait (ready : nat) (waited : bool) (k : prog)
  (** in [ReceiveSends]: before the lock, in the loop, in the handler, and after
      [ready] was set *)
  | Receive
  | ReceiveLoop
  | Serving (smsg : SendMessage)
  | Served (smsg : SendMessage)
  (** in [Get]: before [ReceiveSends], at the posted messages, and in its [Wait] *)
  | Get
  | GetPosted
  | GetWait.

Record System := mkSystem {
  sendlist_ : T -> list SendMessage;
  has_sends_ : T -> bool;
  wakeup : T -> bool;
  posted : T -> list prog;
  ready_ : gset nat;
  next_ : nat;
  stack : T -> list frame }.

(** ** Updates *)
Definition set_stack (i : T) (l : list frame) (s : System) : System :=
  mkSystem (sendlist_ s) (has_sends_ s) (wakeup s) (posted s) (ready_ s) (next_ s) (<[i := l]> (stack s)).
Definition set_wakeup (i : T) (b : bool) (s : System) : System :=
  mkSystem (sendlist_ s) (has_sends_ s) (<[i := b]> (wakeup s)) (posted s) (ready_ s) (next_ s) (stack s).
Definition set_sends (i : T) (l : list SendMessage) (b : bool) (s : System) : System :=
  mkSystem (<[i := l]> (sendlist_ s)) (<[i := b]> (has_sends_ s)) (wakeup s) (posted s) (ready_ s) (next_ s) (stack s).
Definition set_posted (i : T) (l : list prog) (s : System) : System :=
  mkSystem (sendlist_ s) (has_sends_ s) (wakeup s) (<[i := l]> (posted s)) (ready_ s) (next_ s) (stack s).
Definition set_ready (r : nat) (s : System) : System :=
  mkSystem (sendlist_ s) (has_sends_ s) (wakeup s) (posted s) ({[r]} ∪ ready_ s) (next_ s) (stack s).
Definition fresh_ready (s : System) : System :=
  mkSystem (sendlist_ s) (has_sends_ s) (wakeup s) (posted s) (ready_ s) (S (next_ s)) (stack s).
Definition WakeUp (i : T) : System -> System := set_wakeup i true.

(** ** Thread::Clear, under the lock: the senders are released *)
Definition release (s : System) (m : SendMessage) : System := WakeUp (smsg_thread m) (set_ready (smsg_ready m) s).
Definition Clear (i : T) (handler : option Handler) (id : Z) (s : System) : System :=
  let '(gone, kept) := (filter (fun m => Match (smsg_msg m) handler id = true) (sendlist_ s i),
                        filter (fun m => Match (smsg_msg m) handler id = false) (sendlist_ s i)) in
  foldl release (set_sends i kept (has_sends_ s i) s) gone.
#[local] Arguments Clear : simpl never.

(** ** Steps *)
Definition step (i : T) (s : System) : option System :=
  match stack s i with
  | [] => None
  | Run Return :: st => Some (set_stack i st s)
  | Run (SendMsg t msg body k) :: st =>
    if fStop_ t then Some (set_stack i (Run k :: st) s)
    else if decide (t = i) then Some (set_stack i (Run body :: Run k :: st) s)
    else
      let smsg := mkSend i msg body (next_ s) in
      Some (set_stack i (SendWake t (next_ s) k :: st)
        (set_sends t (sendlist_ s t ++ [smsg]) true (fresh_ready s)))
  | Run (ClearMsgs t handler id k) :: st => Some (set_stack i (Run k :: st) (Clear t handler id s))
  | SendWake t r k :: st => Some (set_stack i (SendLoop r false k :: st) (WakeUp t s))
  | SendLoop r waited k :: st =>
    if decide (r ∈ ready_ s) then
      Some (set_stack i (Run k :: st) (if waited then WakeUp i s else s))
    else Some (set_stack i (Receive :: SendWait r waited k :: st) s)
  | SendWait r waited k :: st =>
    if wakeup s i then Some (set_stack i (SendLoop r true k :: st) (set_wakeup i false s)) else None
  | Receive :: st => Some (set_stack i (if has_sends_ s i then ReceiveLoop :: st else st) s)
  | ReceiveLoop :: st =>
    match sendlist_ s i with
    | [] => Some (set_stack i st (set_sends i [] false s))
    | smsg :: l =>
      Some (set_stack i (Run (smsg_body smsg) :: Serving smsg :: st) (set_sends i l (has_sends_ s i) s))
    end
  | Serving smsg :: st => Some (set_stack i (Served smsg :: st) (set_ready (smsg_ready smsg) s))
  | Served smsg :: st => Some (set_stack i (ReceiveLoop :: st) (WakeUp (smsg_thread smsg) s))
  | Get :: st => Some (set_stack i (Receive :: GetPosted :: st) s)
  | GetPosted :: st =>
    match posted s i with
    | [] => Some (set_stack i (GetWait :: st) s)
    | p :: l => Some (set_stack i (Run p :: Get :: st) (set_posted i l s))
    end
  | GetWait :: st =>
    if wakeup s i then Some (set_stack i (Get :: st) (set_wakeup i false s)) else None
  end.

(** Every thread that was not told to quit is in its message loop, with programs
    posted to it; nothing was sent yet. *)
Definition initial (programs : T -> list prog) : System :=
  mkSystem (fun _ => []) (fun _ => false) (fun _ => false) programs ∅ 0
    (fun i => if fStop_ i then [] else [Get]).
Inductive reachable (programs : T -> list prog) : System -> Prop :=
  | reachable_initial : reachable programs (initial programs)
  | reachable_step s i s' : reachable programs s -> step i s = Some s' -> reachable programs s'.

(** Everything is done: no message is left and every thread waits for a new one. *)
Definition all_done (s : System) : Prop := forall i,
  stack s i = (if fStop_ i then [] else [GetWait]) /\ sendlist_ s i = [] /\
  (fStop_ i = false -> posted s i = [] /\ wakeup s i = false).

(** ** Clear in terms of what it leaves *)
Definition gone (i : T) handler id (s : System) : list SendMessage :=
  filter (fun m => Match (smsg_msg m) handler id = true) (sendlist_ s i).
Definition kept (i : T) handler id (s : System) : list SendMessage :=
  filter (fun m => Match (smsg_msg m) handler id = false) (sendlist_ s i).

Lemma release_all l : forall s,
  stack (foldl release s l) = stack s /\ posted (foldl release s l) = posted s
  /\ next_ (foldl release s l) = next_ s /\ sendlist_ (foldl release s l) = sendlist_ s
  /\ has_sends_ (foldl release s l) = has_sends_ s
  /\ (forall j, wakeup (foldl release s l) j = true <-> wakeup s j = true \/ exists m, m ∈ l /\ smsg_thread m = j)
  /\ (forall r, r ∈ ready_ (foldl release s l) <-> r ∈ ready_ s \/ exists m, m ∈ l /\ smsg_ready m = r).
Proof.
  induction l as [|m l IH]; intros s; cbn [foldl].
  - repeat split; try done; try (by left); by intros [?|(? & []%not_elem_of_nil & _)].
  - destruct (IH (release s m)) as (-> & -> & -> & -> & -> & Hw & Hr). repeat split; try done.
    + rewrite Hw. cbn. intros [Hj|(m' & ? & ?)]; [|right; exists m'; split; [by right|done]].
      destruct (decide (smsg_thread m = j)) as [<-|Hn]; [right; exists m; split; [by left|done]|].
      rewrite fn_lookup_insert_ne in Hj by done. by left.
    + rewrite Hw. cbn. intros Hj. destruct (decide (smsg_thread m = j)) as [<-|Hn].
      * left. by rewrite fn_lookup_insert.
      * rewrite fn_lookup_insert_ne by done. destruct Hj as [?|(m' & Hm & ?)]; [by left|].
        apply elem_of_cons in Hm as [->|?]; [done|]. right. by exists m'.
    + rewrite Hr. cbn. rewrite elem_of_union, elem_of_singleton. intros [[->|?]|(m' & ? & ?)]; [|by left|].
      * right. exists m. split; [by left|done].
      * right. exists m'. split; [by right|done].
    + rewrite Hr. cbn. rewrite elem_of_union, elem_of_singleton. intros [?|(m' & Hm & ?)]; [by left; right|].
      apply elem_of_cons in Hm as [->|?]; [by left; left|]. right. by exists m'.
Qed.

Lemma Clear_effect i handler id s : let s' := Clear i handler id s in
  stack s' = stack s /\ posted s' = posted s /\ next_ s' = next_ s
  /\ sendlist_ s' = <[i := kept i handler id s]> (sendlist_ s)
  /\ (forall j, has_sends_ s' j = has_sends_ s j)
  /\ (forall j, wakeup s' j = true <-> wakeup s j = true \/ exists m, m ∈ gone i handler id s /\ smsg_thread m = j)
  /\ (forall r, r ∈ ready_ s' <-> r ∈ ready_ s \/ exists m, m ∈ gone i handler id s /\ smsg_ready m = r).
Proof.
  intros s'. destruct (release_all (gone i handler id s)
    (set_sends i (kept i handler id s) (has_sends_ s i) s)) as (? & ? & ? & ? & Hh & ? & ?).
  repeat (split; [done|]). split; [|done]. intros j. unfold s', Clear.
  change (foldl release _ _) with
    (foldl release (set_sends i (kept i handler id s) (has_sends_ s i) s) (gone i handler id s)).
  rewrite Hh. cbn. destruct (decide (i = j)) as [<-|Hn]; [by rewrite fn_lookup_insert|by rewrite fn_lookup_insert_ne].
Qed.

(** ** Runs end *)
Fixpoint pot (p : prog) : nat :=
  match p with
  | Return => 1
  | SendMsg _ _ body k => 28 + pot body + pot k
  | ClearMsgs _ _ _ k => 1 + pot k
  end.
Definition weight (f : frame) : nat :=
  match f with
  | Run p => pot p
  | SendWake _ _ k => 17 + pot k
  | SendLoop _ _ k => 10 + pot k
  | SendWait _ _ k => 6 + pot k
  | Receive => 3 | ReceiveLoop => 2 | Serving _ => 10 | Served _ => 9
  | Get => 5 | GetPosted => 1 | GetWait => 0
  end.
Definition total {A} (f : A -> nat) (l : list A) : nat := sum_list_with f l.
Definition over_threads (f : T -> nat) : nat := total f (enum T).
Definition entry (m : SendMessage) : nat := 9 + pot (smsg_body m).
Definition measure (s : System) : nat :=
  over_threads (fun i => total weight (stack s i)) +
  over_threads (fun i => total entry (sendlist_ s i)) +
  over_threads (fun i => if wakeup s i then 6%nat else 0%nat) +
  over_threads (fun i => total (fun p => (5 + pot p)%nat) (posted s i)).

Lemma total_cons {A} (f : A -> nat) x l : total f (x :: l) = (f x + total f l)%nat.
Proof. done. Qed.
Lemma total_snoc {A} (f : A -> nat) l x : total f (l ++ [x]) = (total f l + f x)%nat.
Proof. unfold total. rewrite sum_list_with_app. cbn. lia. Qed.
Lemma total_ext {A} (f g : A -> nat) l : (forall x, x ∈ l -> f x = g x) -> total f l = total g l.
Proof.
  induction l as [|x l IH]; intros E; [done|]. unfold total in *. cbn. rewrite (E x) by by left.
  rewrite IH; [done|]. intros y ?. apply E. by right.
Qed.
Lemma over_threads_insert {A} (g : A -> nat) (h : T -> A) i x :
  (over_threads (fun j => g ((<[i := x]> h) j)) + g (h i) = over_threads (fun j => g (h j)) + g x)%nat.
Proof.
  unfold over_threads. pose proof (elem_of_enum i) as Hi. pose proof (NoDup_enum T) as Hn. revert Hi Hn.
  generalize (enum T) as l. induction l as [|j l IH]; intros Hi Hn; [by apply not_elem_of_nil in Hi|].
  inversion Hn as [|? ? Hj Hn' Ea]; subst; clear Hn; rename Hn' into Hn. unfold total in *. cbn. destruct (decide (i = j)) as [<-|Hne].
  - rewrite fn_lookup_insert.
    assert (sum_list_with (fun j => g ((<[i := x]> h) j)) l = sum_list_with (fun j => g (h j)) l) as ->; [|lia].
    apply total_ext. intros y Hy. rewrite fn_lookup_insert_ne; [done|]. by intros <-.
  - rewrite fn_lookup_insert_ne by done. apply elem_of_cons in Hi as [->|Hi]; [done|]. specialize (IH Hi Hn). lia.
Qed.

Lemma measure_stack i l s : (measure (set_stack i l s) + total weight (stack s i) = measure s + total weight l)%nat.
Proof.
  unfold measure, set_stack, set_wakeup, set_sends, set_posted. cbn [stack sendlist_ wakeup posted].
  pose proof (over_threads_insert (total weight) (stack s) i l).
  lia.
Qed.
Lemma measure_wakeup i b s :
  (measure (set_wakeup i b s) + (if wakeup s i then 6 else 0) = measure s + (if b then 6 else 0))%nat.
Proof.
  unfold measure, set_stack, set_wakeup, set_sends, set_posted. cbn [stack sendlist_ wakeup posted].
  pose proof (over_threads_insert (fun b : bool => if b then 6%nat else 0%nat) (wakeup s) i b).
  lia.
Qed.
Lemma measure_sends i l b s :
  (measure (set_sends i l b s) + total entry (sendlist_ s i) = measure s + total entry l)%nat.
Proof.
  unfold measure, set_stack, set_wakeup, set_sends, set_posted. cbn [stack sendlist_ wakeup posted].
  pose proof (over_threads_insert (total entry) (sendlist_ s) i l).
  lia.
Qed.
Lemma measure_posted i l s :
  (measure (set_posted i l s) + total (fun p => 5 + pot p) (posted s i)
   = measure s + total (fun p => 5 + pot p) l)%nat.
Proof.
  unfold measure, set_stack, set_wakeup, set_sends, set_posted. cbn [stack sendlist_ wakeup posted].
  pose proof (over_threads_insert (total (fun p => (5 + pot p)%nat)) (posted s) i l).
  lia.
Qed.
Lemma measure_ready r s : measure (set_ready r s) = measure s.
Proof. done. Qed.
Lemma measure_fresh s : measure (fresh_ready s) = measure s.
Proof. done. Qed.
Lemma measure_WakeUp i s : (measure (WakeUp i s) <= measure s + 6)%nat.
Proof. pose proof (measure_wakeup i true s). unfold WakeUp. destruct (wakeup s i); lia. Qed.
Lemma measure_release1 m s : (measure (release s m) <= measure s + 6)%nat.
Proof. exact (measure_WakeUp (smsg_thread m) (set_ready (smsg_ready m) s)). Qed.
Lemma measure_release l : forall s, (measure (foldl release s l) <= measure s + total entry l)%nat.
Proof.
  induction l as [|m l IH]; intros s; cbn [foldl]; [lia|]. specialize (IH (release s m)).
  pose proof (measure_release1 m s). rewrite total_cons. unfold entry at 1. lia.
Qed.
Lemma measure_Clear i handler id s : (measure (Clear i handler id s) <= measure s)%nat.
Proof.
  unfold Clear. fold (gone i handler id s) (kept i handler id s).
  pose proof (measure_release (gone i handler id s) (set_sends i (kept i handler id s) (has_sends_ s i) s)).
  pose proof (measure_sends i (kept i handler id s) (has_sends_ s i) s).
  assert (total entry (gone i handler id s) + total entry (kept i handler id s) = total entry (sendlist_ s i))%nat; [|lia].
  clear. unfold gone, kept. induction (sendlist_ s i) as [|m l IH]; [done|].
  rewrite !filter_cons. destruct (Match (smsg_msg m) handler id); repeat case_decide; try done; rewrite !total_cons; lia.
Qed.

(** The cases of a step. *)
Ltac step_cases f Hs :=
  destruct f as [[|t msg body k|t handler id k]|t r k|r w k|r w k| | |m|m| | |];
  repeat (case_match; try done); injection Hs as <-.

Lemma step_decreases i s s' : step i s = Some s' -> (measure s' < measure s)%nat.
Proof.
  unfold step. intros Hs. destruct (stack s i) as [|f st] eqn:Hst; [done|]. step_cases f Hs.
  all: match goal with Hst : stack ?s ?i = _ |- (measure (set_stack ?i ?l ?s0) < _)%nat =>
    pose proof (measure_stack i l s0) as Hm;
    first [rewrite (proj1 (Clear_effect _ _ _ s)) in Hm | change (stack s0 i) with (stack s i) in Hm | idtac];
    rewrite Hst in Hm; rewrite ?total_cons in Hm; cbn [weight pot] in Hm end; try lia.
  all: repeat match goal with
  | Hm : context [measure (WakeUp ?j ?s)] |- _ => pose proof (measure_WakeUp j s); generalize dependent (measure (WakeUp j s))
  | Hm : context [measure (set_wakeup ?j ?b ?s)] |- _ => pose proof (measure_wakeup j b s); generalize dependent (measure (set_wakeup j b s))
  | Hm : context [measure (set_sends ?j ?l ?b ?s)] |- _ => pose proof (measure_sends j l b s); generalize dependent (measure (set_sends j l b s))
  | Hm : context [measure (set_posted ?j ?l ?s)] |- _ => pose proof (measure_posted j l s); generalize dependent (measure (set_posted j l s))
  | Hm : context [measure (Clear ?j ?h ?id ?s)] |- _ => pose proof (measure_Clear j h id s); generalize dependent (measure (Clear j h id s))
  end; intros.
  all: repeat match goal with
  | E : wakeup _ _ = _, Hx : context [wakeup _ _] |- _ => rewrite E in Hx; clear E
  | E : sendlist_ _ _ = _, Hx : context [total entry (sendlist_ _ _)] |- _ => rewrite E in Hx; clear E
  | E : posted _ _ = _, Hx : context [total _ (posted _ _)] |- _ => rewrite E in Hx; clear E
  end.
  all: change (sendlist_ (fresh_ready ?s)) with (sendlist_ s) in *;
    rewrite ?measure_fresh, ?measure_ready, ?total_snoc, ?total_cons in *; unfold entry in *;
    cbn [smsg_body] in *; lia.
Qed.

(** ** The shape of a stack *)
Definition loop_frame (f : frame) : bool := match f with Get | GetPosted | GetWait => true | _ => false end.
Definition receive_frame (f : frame) : bool :=
  match f with Receive | ReceiveLoop | Serving _ | Served _ => true | _ => false end.
Definition run_frame (f : frame) : bool :=
  match f with Run _ | SendWake _ _ _ | SendLoop _ _ _ | SendWait _ _ _ => true | _ => false end.
(** What may lie on what: a [ReceiveSends] on the wait it was called for, a handler
    on what called it. *)
Definition on_top (f g : frame) : bool :=
  match g with
  | SendWait _ _ _ | GetPosted => receive_frame f
  | Run _ | Serving _ | Get => run_frame f
  | _ => false
  end.
Fixpoint shaped (l : list frame) : Prop :=
  match l with
  | [] => False
  | f :: l => match l with [] => loop_frame f = true | g :: _ => on_top f g = true /\ shaped l end
  end.

(** The [ready] of a [Send] that has not returned. *)
Definition pending (f : frame) : option nat :=
  match f with SendWake _ r _ | SendLoop r _ _ | SendWait r _ _ => Some r | _ => None end.
(** Sends are nested in the order they began. *)
Fixpoint nested (l : list frame) : Prop :=
  match l with
  | [] => True
  | f :: l => (forall r m, pending f = Some r -> Serving m ∈ l -> (smsg_ready m < r)%nat) /\ nested l
  end.
(** A [Send] that waits although its message was handled will be told: [P] says
    that a wake-up is there or is coming; a nested [Send] that waited passes on
    the one it took. *)
Fixpoint told (ready : gset nat) (P : Prop) (l : list frame) : Prop :=
  match l with
  | [] => True
  | SendWait r waited _ :: l => (r ∈ ready -> P) /\ told ready (P \/ waited = true) l
  | SendLoop _ waited _ :: l => told ready (P \/ waited = true) l
  | _ :: l => told ready P l
  end.
(** A thread about to wait. *)
Definition parked (f : frame) : bool :=
  match f with SendWait _ _ _ | GetPosted | GetWait => true | _ => false end.

Definition send_coming (s : System) (i : T) : Prop :=
  wakeup s i = true \/ exists j r k st, stack s j = SendWake i r k :: st.
Definition ready_coming (s : System) (i : T) : Prop :=
  wakeup s i = true \/ exists j m st, stack s j = Served m :: st /\ smsg_thread m = i.
(** A message that was queued and not finished. *)
Definition in_flight (s : System) (m : SendMessage) : Prop :=
  (exists t, m ∈ sendlist_ s t) \/ exists j, Serving m ∈ stack s j.
Definition message_of (s : System) (m : SendMessage) : Prop :=
  in_flight s m \/ exists j, Served m ∈ stack s j.

Record invariant (s : System) : Prop := {
  inv_stopped : forall i, fStop_ i = true -> stack s i = [] /\ sendlist_ s i = [];
  inv_shape : forall i, fStop_ i = false -> shaped (stack s i);
  inv_flag : forall i, sendlist_ s i <> [] -> has_sends_ s i = true;
  inv_parked : forall i f st, stack s i = f :: st -> parked f = true -> sendlist_ s i <> [] -> send_coming s i;
  inv_told : forall i, told (ready_ s) (ready_coming s i) (stack s i);
  inv_nested : forall i, nested (stack s i);
  inv_fresh : (forall i f r, f ∈ stack s i -> pending f = Some r -> (r < next_ s)%nat) /\
    (forall m, message_of s m -> (smsg_ready m < next_ s)%nat);
  inv_owner : forall i f m, f ∈ stack s i -> pending f = Some (smsg_ready m) -> message_of s m -> smsg_thread m = i;
  inv_answer : forall i f r, f ∈ stack s i -> pending f = Some r -> r ∉ ready_ s ->
    exists m, smsg_ready m = r /\ in_flight s m;
  inv_posted : forall i, GetWait ∈ stack s i -> posted s i = [] }.

(** ** A state with no step is done *)
Lemma no_step i s : step i s = None ->
  stack s i = [] \/ wakeup s i = false /\
    ((exists r w k st, stack s i = SendWait r w k :: st) \/ exists st, stack s i = GetWait :: st).
Proof.
  unfold step. destruct (stack s i) as [|f st] eqn:Hst; [by left|]. intros Hs. right.
  destruct f as [[|t msg body k|t handler id k]|t r k|r w k|r w k| | |m|m| | |]; repeat (case_match; try done); try done.
  - split; [done|]. left. by eauto 10.
  - split; [done|]. right. by eauto.
Qed.

Lemma shaped_GetWait st : shaped (GetWait :: st) -> st = [].
Proof. destruct st as [|g st]; [done|]. intros [Ho _]. by destruct g. Qed.

Lemma stuck_all_done s : invariant s -> (forall i, step i s = None) -> all_done s.
Proof.
  intros Hinv Hstuck.
  assert (Hw : forall i f st, stack s i = f :: st -> wakeup s i = false /\ parked f = true).
  { intros i f st E. destruct (no_step i s (Hstuck i)) as [E'|[? [(r & w & k & st' & E')|[st' E']]]];
      rewrite E in E'; [done|injection E' as -> _..]; done. }
  assert (Hlist : forall i, sendlist_ s i = []).
  { intros i. destruct (sendlist_ s i) as [|m l] eqn:El; [done|exfalso].
    destruct (fStop_ i) eqn:Ef; [destruct (inv_stopped _ Hinv i Ef) as [_ E]; congruence|].
    pose proof (inv_shape _ Hinv i Ef) as Hsh. destruct (stack s i) as [|f st] eqn:E; [done|].
    destruct (Hw i f st E) as [Hwf Hp].
    destruct (inv_parked _ Hinv i f st E Hp) as [?|(j & r & k & st' & Ej)]; [by rewrite El|congruence|].
    destruct (Hw j _ _ Ej) as [_ ?]. done. }
  assert (Hnone : forall d r i w k st, (next_ s - r <= d)%nat -> stack s i = SendWait r w k :: st -> False).
  { induction d as [|d IH]; intros r i w k st Hd E.
    - assert (r < next_ s)%nat; [|lia]. eapply (proj1 (inv_fresh _ Hinv)); [rewrite E; by left|done].
    - assert (r ∉ ready_ s) as Hr.
      { intros Hin. pose proof (inv_told _ Hinv i) as Ht. rewrite E in Ht. destruct Ht as [Ht _].
        destruct (Hw i _ _ E) as [Hwf _]. destruct (Ht Hin) as [?|(j & m & st' & Ej & _)]; [congruence|].
        destruct (Hw j _ _ Ej) as [_ ?]. done. }
      destruct (inv_answer _ Hinv i (SendWait r w k) r) as (m & <- & [[t Hm]|[j Hm]]);
        [rewrite E; by left|done|done|by rewrite Hlist in Hm; apply elem_of_nil in Hm|].
      destruct (no_step j s (Hstuck j)) as [Ej|[_ [(r' & w' & k' & st' & Ej)|[st' Ej]]]]; rewrite Ej in Hm.
      + by apply elem_of_nil in Hm.
      + apply elem_of_cons in Hm as [?|Hm]; [done|]. pose proof (inv_nested _ Hinv j) as Hn. rewrite Ej in Hn.
        destruct Hn as [Hn _]. specialize (Hn r' m eq_refl Hm).
        apply (IH r' j w' k' st'); [lia|done].
      + destruct (fStop_ j) eqn:Ef; [destruct (inv_stopped _ Hinv j Ef); congruence|].
        pose proof (inv_shape _ Hinv j Ef) as Hsh. rewrite Ej in Hsh. apply shaped_GetWait in Hsh as ->.
        apply elem_of_cons in Hm as [?|Hm]; [done|]. by apply elem_of_nil in Hm. }
  intros i. destruct (fStop_ i) eqn:Ef.
  { destruct (inv_stopped _ Hinv i Ef) as [E1 E2]. done. }
  pose proof (inv_shape _ Hinv i Ef) as Hsh.
  destruct (no_step i s (Hstuck i)) as [Ei|[Hwf [(r & w & k & st & Ei)|[st Ei]]]].
  - by rewrite Ei in Hsh.
  - exfalso. by eapply (Hnone (next_ s)); [|exact Ei]; lia.
  - rewrite Ei in Hsh. apply shaped_GetWait in Hsh as ->. split; [done|]. split; [done|]. intros _. split; [|done].
    apply (inv_posted _ Hinv). rewrite Ei. by left.
Qed.

(** ** Every step keeps the invariant *)
Ltac at_thread j i :=
  destruct (decide (i = j)) as [<-|];
  [rewrite ?fn_lookup_insert in *|rewrite ?fn_lookup_insert_ne in * by done].
Ltac open_step :=
  match goal with Hs : step ?i ?s = Some _ |- _ =>
    unfold step in Hs; destruct (stack s i) as [|f st] eqn:Hst; [done|] end.

Lemma step_running i s s' : invariant s -> step i s = Some s' -> fStop_ i = false /\ shaped (stack s i).
Proof.
  intros Hinv Hs. destruct (fStop_ i) eqn:Ef.
  - destruct (inv_stopped _ Hinv i Ef) as [E _]. unfold step in Hs. by rewrite E in Hs.
  - split; [done|]. by apply (inv_shape _ Hinv).
Qed.
Lemma step_stack i s s' : step i s = Some s' -> exists l, stack s' = <[i := l]> (stack s).
Proof.
  intros Hs. open_step. step_cases f Hs; eexists; try done.
  cbn. by rewrite (proj1 (Clear_effect _ _ _ s)).
Qed.
Lemma step_ready i s s' q : step i s = Some s' -> q ∈ ready_ s -> q ∈ ready_ s'.
Proof.
  intros Hs Hq. open_step. step_cases f Hs; try done; cbn; [|set_solver].
  destruct (Clear_effect t handler id s) as (_ & _ & _ & _ & _ & _ & H'). apply H'. by left.
Qed.
Lemma step_next i s s' : step i s = Some s' -> (next_ s <= next_ s')%nat.
Proof.
  intros Hs. open_step. step_cases f Hs; try done; cbn; [lia|].
  destruct (Clear_effect t handler id s) as (_ & _ & -> & _). lia.
Qed.

Lemma shape_step i s s' : invariant s -> step i s = Some s' -> forall j, fStop_ j = false -> shaped (stack s' j).
Proof.
  intros Hinv Hs j Hj. pose proof (inv_shape _ Hinv j Hj) as Hold.
  destruct (step_running i s s' Hinv Hs) as [_ Hi]. open_step.
  step_cases f Hs; cbn [stack set_stack]; rewrite ?(proj1 (Clear_effect _ _ _ s)); cbn [stack WakeUp set_wakeup];
    at_thread j i; try done; rewrite ?Hst in *.
  all: destruct st as [|g st]; cbn [shaped on_top loop_frame receive_frame run_frame] in *; try done;
    try (destruct Hi as [Ho ?]; by destruct g).
  all: try (destruct st as [|h st]; cbn in *; by intuition).
Qed.

(** Where the messages of the new state come from. *)
Lemma elem_kept i handler id s m : m ∈ kept i handler id s -> m ∈ sendlist_ s i.
Proof. unfold kept. rewrite list_elem_of_filter. tauto. Qed.
Lemma kept_or_gone i handler id s m :
  m ∈ sendlist_ s i -> m ∈ kept i handler id s \/ m ∈ gone i handler id s.
Proof.
  intros Hm. unfold kept, gone. rewrite !list_elem_of_filter.
  destruct (Match (smsg_msg m) handler id); auto.
Qed.
Lemma elem_gone i handler id s m : m ∈ gone i handler id s -> m ∈ sendlist_ s i.
Proof. unfold gone. rewrite list_elem_of_filter. tauto. Qed.

Lemma sendlist_step i s s' : step i s = Some s' -> forall j m, m ∈ sendlist_ s' j ->
  m ∈ sendlist_ s j \/ (fStop_ j = false /\ smsg_thread m = i /\ smsg_ready m = next_ s /\ next_ s' = S (next_ s)
    /\ exists q k st, stack s' i = SendWake j q k :: st).
Proof.
  intros Hs j q. open_step. step_cases f Hs; cbn; try (by left).
  - at_thread t j; [|by left]. rewrite elem_of_app, list_elem_of_singleton.
    intros [?| ->]; [by left|right].
    repeat split; try done. do 3 eexists. by rewrite ?fn_lookup_insert.
  - destruct (Clear_effect t handler id s) as (_ & _ & _ & -> & _). at_thread t j; [|by left].
    intros Hq. left. by eapply elem_kept.
  - at_thread i j; [|by left]. by intros ?%elem_of_nil.
  - at_thread i j; [|by left]. intros Hq. left. rewrite H0. by right.
Qed.

(** Where its frames come from. *)
Ltac stack_step :=
  cbn [stack set_stack WakeUp set_wakeup set_sends set_posted set_ready fresh_ready];
  rewrite ?(proj1 (Clear_effect _ _ _ _));
  cbn [stack set_stack WakeUp set_wakeup set_sends set_posted set_ready fresh_ready].

Lemma pending_step i s s' j g q : step i s = Some s' -> g ∈ stack s' j -> pending g = Some q ->
  (exists g', g' ∈ stack s j /\ pending g' = Some q) \/ (j = i /\ q = next_ s /\ next_ s' = S (next_ s)).
Proof.
  intros Hs. open_step. step_cases f Hs; stack_step; at_thread i j; try (by left; eauto).
  all: rewrite Hst, ?elem_of_cons; intros Hg Hq; cbn in *.
  all: try (left; exists g; rewrite ?elem_of_cons; split; [tauto|done]).
  all: repeat match goal with Hg : _ \/ _ |- _ => destruct Hg as [->|Hg] end; try done; cbn in Hq; try injection Hq as <-.
  all: try (right; by repeat split).
  all: left; first [ exists g; split; [right; exact Hg|exact Hq] | eexists; split; [left|done] ].
Qed.

Lemma Serving_step i s s' j q : step i s = Some s' -> Serving q ∈ stack s' j ->
  Serving q ∈ stack s j \/ (j = i /\ q ∈ sendlist_ s i).
Proof.
  intros Hs. open_step. step_cases f Hs; stack_step; at_thread i j; try (by left; eauto).
  all: rewrite Hst, ?elem_of_cons; intros Hq;
    repeat match goal with Hq : _ \/ _ |- _ => destruct Hq as [Hq|Hq]; [done || injection Hq as ->|] end; auto.
Qed.
Lemma Served_step i s s' j q : step i s = Some s' -> Served q ∈ stack s' j ->
  Served q ∈ stack s j \/ (j = i /\ Serving q ∈ stack s i).
Proof.
  intros Hs. open_step. step_cases f Hs; stack_step; at_thread i j; try (by left; eauto).
  all: rewrite Hst, ?elem_of_cons; intros Hq;
    repeat match goal with Hq : _ \/ _ |- _ => destruct Hq as [Hq|Hq]; [done || injection Hq as ->|] end; auto.
Qed.
Lemma GetWait_step i s s' j : step i s = Some s' -> GetWait ∈ stack s' j ->
  GetWait ∈ stack s j \/ (j = i /\ posted s i = []).
Proof.
  intros Hs. open_step. step_cases f Hs; stack_step; at_thread i j; try (by left; eauto).
  all: rewrite Hst, ?elem_of_cons; intros Hq;
    repeat match goal with Hq : _ \/ _ |- _ => destruct Hq as [Hq|Hq]; [done || injection Hq as ->|] end; auto.
Qed.

(** What becomes of a message in flight, and of a message at all. *)
Lemma in_flight_step i s s' x : step i s = Some s' -> in_flight s x -> in_flight s' x \/ smsg_ready x ∈ ready_ s'.
Proof.
  intros Hs [[t' Hm]|[j Hm]].
  - open_step. step_cases f Hs; try (left; left; exists t'; exact Hm).
    + left. left. exists t'. cbn. at_thread t t'; [|done]. apply elem_of_app. by left.
    + destruct (Clear_effect t handler id s) as (_ & _ & _ & Hl & _ & _ & Hr). cbn.
      destruct (decide (t = t')) as [<-|Hn].
      * destruct (kept_or_gone t handler id s x Hm) as [?|Hg].
        -- left. left. exists t. cbn. rewrite Hl. by rewrite fn_lookup_insert.
        -- right. apply Hr. right. by exists x.
      * left. left. exists t'. cbn. rewrite Hl. by rewrite fn_lookup_insert_ne.
    + left. left. exists t'. cbn. at_thread i t'; [|done]. by rewrite H0 in Hm.
    + destruct (decide (i = t')) as [<-|Hn].
      * rewrite H0 in Hm. apply elem_of_cons in Hm as [->|Hm].
        -- left. right. exists i. cbn. rewrite fn_lookup_insert. right. by left.
        -- left. left. exists i. cbn. by rewrite fn_lookup_insert.
      * left. left. exists t'. cbn. by rewrite fn_lookup_insert_ne.
  - destruct (decide (i = j)) as [<-|Hn].
    + open_step. apply elem_of_cons in Hm as [<-|Hm].
      * injection Hs as <-. right. cbn. set_solver.
      * step_cases f Hs; left; right; exists i; stack_step; rewrite fn_lookup_insert; try done; by repeat right.
    + left. right. exists j. destruct (step_stack i s s' Hs) as [l ->]. by rewrite fn_lookup_insert_ne.
Qed.
Lemma message_step i s s' m : step i s = Some s' -> message_of s' m ->
  message_of s m \/ (smsg_thread m = i /\ smsg_ready m = next_ s /\ next_ s' = S (next_ s)).
Proof.
  intros Hs [[[j Hm]|[j Hm]]|[j Hm]].
  - destruct (sendlist_step i s s' Hs j m Hm) as [?|(_ & ? & ? & ? & _)]; [|by right].
    left. left. left. by exists j.
  - left. left. destruct (Serving_step i s s' j m Hs Hm) as [?|[-> ?]]; [right|left]; eauto.
  - left. destruct (Served_step i s s' j m Hs Hm) as [?|[-> ?]]; [right; eauto|]. left. right. eauto.
Qed.

Section preservation.
Variables (i : T) (s s' : System).
Hypothesis Hinv : invariant s.
Hypothesis Hs : step i s = Some s'.

Lemma stopped_step j : fStop_ j = true -> stack s' j = [] /\ sendlist_ s' j = [].
Proof.
  intros Hj. destruct (inv_stopped _ Hinv j Hj) as [Es El]. destruct (step_running i s s' Hinv Hs) as [Hi _].
  split.
  - destruct (step_stack i s s' Hs) as [l ->]. rewrite fn_lookup_insert_ne; [done|]. intros ->. congruence.
  - destruct (sendlist_ s' j) as [|m l] eqn:E; [done|]. exfalso.
    destruct (sendlist_step i s s' Hs j m) as [Hm|[? _]]; [rewrite E; by left| |congruence].
    rewrite El in Hm. by apply elem_of_nil in Hm.
Qed.
Lemma flag_step j : sendlist_ s' j <> [] -> has_sends_ s' j = true.
Proof.
  pose proof (inv_flag _ Hinv j) as Hf. open_step. step_cases f Hs; cbn; try done.
  - at_thread t j; done.
  - destruct (Clear_effect t handler id s) as (_ & _ & _ & -> & -> & _). at_thread t j; [|done].
    intros Hk. apply Hf. intros E. apply Hk. unfold kept. by rewrite E.
  - at_thread i j; done.
  - at_thread i j; [|done]. intros _. apply Hf. congruence.
Qed.
Lemma posted_step j : GetWait ∈ stack s' j -> posted s' j = [].
Proof.
  intros Hg. assert (posted s' j = [] \/ posted s' j = posted s j \/ (j = i /\ posted s i <> [])) as Hp.
  { clear Hg. open_step. step_cases f Hs; cbn; auto.
    - destruct (Clear_effect t handler id s) as (_ & -> & _). auto.
    - at_thread i j; auto. }
  destruct (GetWait_step i s s' j Hs Hg) as [Hold|[-> E]].
  - pose proof (inv_posted _ Hinv j Hold) as E. destruct Hp as [?|[?|[-> ?]]]; congruence.
  - destruct Hp as [?|[?|[_ ?]]]; congruence.
Qed.
Lemma fresh_step :
  (forall j f q, f ∈ stack s' j -> pending f = Some q -> (q < next_ s')%nat) /\
  (forall m, message_of s' m -> (smsg_ready m < next_ s')%nat).
Proof.
  pose proof (step_next i s s' Hs). destruct (inv_fresh _ Hinv) as [Hf Hm]. split.
  - intros j f q Hin Hq. destruct (pending_step i s s' j f q Hs Hin Hq) as [(g & Hg & Hq')|(_ & -> & ->)]; [|lia].
    specialize (Hf j g q Hg Hq'). lia.
  - intros m Hin. destruct (message_step i s s' m Hs Hin) as [Hold|(_ & -> & ->)]; [|lia].
    specialize (Hm m Hold). lia.
Qed.
Lemma owner_step j f m :
  f ∈ stack s' j -> pending f = Some (smsg_ready m) -> message_of s' m -> smsg_thread m = j.
Proof.
  destruct (inv_fresh _ Hinv) as [Hf Hm]. intros Hin Hq Hmsg.
  destruct (pending_step i s s' j f _ Hs Hin Hq) as [(g & Hg & Hq')|(-> & Er & _)];
    destruct (message_step i s s' m Hs Hmsg) as [Hold|(Ht & Er' & _)].
  - by eapply (inv_owner _ Hinv).
  - specialize (Hf j g _ Hg Hq'). lia.
  - specialize (Hm m Hold). lia.
  - done.
Qed.
Lemma answer_step j f q : f ∈ stack s' j -> pending f = Some q -> q ∉ ready_ s' ->
  exists m, smsg_ready m = q /\ in_flight s' m.
Proof.
  intros Hin Hq Hr. destruct (pending_step i s s' j f q Hs Hin Hq) as [(g & Hg & Hq')|(-> & -> & Hn)].
  - destruct (inv_answer _ Hinv j g q Hg Hq') as (m & <- & Hm).
    { intros Hin'. apply Hr. by apply (step_ready i s s'). }
    exists m. split; [done|]. by destruct (in_flight_step i s s' m Hs Hm).
  - clear f Hin Hq Hr. open_step. step_cases f Hs; cbn in Hn; try lia.
    + eexists. split; [|left; exists t; cbn; rewrite fn_lookup_insert; apply elem_of_app; right; by left]. done.
    + destruct (Clear_effect t handler id s) as (_ & _ & E & _). lia.
Qed.
Lemma nested_step j : nested (stack s' j).
Proof.
  pose proof (inv_nested _ Hinv j) as Hn. destruct (inv_fresh _ Hinv) as [_ Hm].
  open_step. step_cases f Hs; stack_step; at_thread i j; try done.
  all: rewrite Hst in Hn; cbn [nested pending] in *; intuition (try done).
  all: repeat match goal with
  | H : Some _ = Some _ |- _ => injection H as <-
  | H : _ ∈ _ :: _ |- _ => apply elem_of_cons in H as [?|H]; [try done|]
  end; eauto.
  all: apply Hm; left; right; eexists; rewrite Hst; by right.
Qed.

Definition takes_wakeup (l : list frame) : bool :=
  match l with SendWait _ _ _ :: _ | GetWait :: _ => true | _ => false end.
Lemma wakeup_step j : (j = i -> takes_wakeup (stack s i) = false) -> wakeup s j = true -> wakeup s' j = true.
Proof.
  intros Hj Hw. open_step. step_cases f Hs; cbn; try done.
  - destruct (Clear_effect t handler id s) as (_ & _ & _ & _ & _ & Hw' & _). apply Hw'. by left.
  - at_thread t j; done.
  - at_thread i j; done.
  - at_thread i j; [by specialize (Hj eq_refl)|done].
  - at_thread (smsg_thread m) j; done.
  - at_thread i j; [by specialize (Hj eq_refl)|done].
Qed.
Lemma send_coming_step j : j <> i -> send_coming s j -> send_coming s' j.
Proof.
  intros Hj [Hw|(j' & q & k' & st' & E)].
  - left. by apply wakeup_step.
  - destruct (decide (j' = i)) as [->|Hn].
    + left. unfold step in Hs. rewrite E in Hs. injection Hs as <-. cbn. by rewrite fn_lookup_insert.
    + right. exists j', q, k', st'. destruct (step_stack i s s' Hs) as [l ->]. by rewrite fn_lookup_insert_ne.
Qed.
Lemma parked_step j g st' : stack s' j = g :: st' -> parked g = true -> sendlist_ s' j <> [] -> send_coming s' j.
Proof.
  intros E Hp Hl. destruct (decide (j = i)) as [->|Hn].
  - pose proof (inv_flag _ Hinv i) as Hf. destruct (step_running i s s' Hinv Hs) as [_ Hsh].
    pose proof (inv_parked _ Hinv i) as Hpk. open_step.
    step_cases f Hs; revert E Hl; stack_step; rewrite fn_lookup_insert; intros E Hl; try (injection E as <- <-; done).
    + subst st. destruct Hsh as [Ho _]. by destruct g.
    + exfalso. apply Hl. cbn in *. destruct (sendlist_ s i); [done|]. specialize (Hf ltac:(done)). congruence.
    + cbn in Hl. by rewrite fn_lookup_insert in Hl.
    + injection E as <- <-. cbn in *. destruct (Hpk GetPosted st) as [?|(j & q & k & st' & E)]; try done; [by left|].
      right. exists j, q, k, st'. cbn. rewrite fn_lookup_insert_ne; [done|]. intros <-. congruence.
  - destruct (step_stack i s s' Hs) as [l El]. pose proof E as E'. rewrite El, fn_lookup_insert_ne in E' by done.
    destruct (sendlist_ s' j) as [|m l'] eqn:Em; [done|].
    destruct (sendlist_step i s s' Hs j m) as [Hm|(_ & _ & _ & _ & q & k & st & Es)]; [rewrite Em; by left|..].
    + apply send_coming_step; [done|]. apply (inv_parked _ Hinv j g st' E' Hp). intros E0.
      rewrite E0 in Hm. by apply elem_of_nil in Hm.
    + right. by exists i, q, k, st.
Qed.

(** *** Who is told *)
Lemma told_true ready (P : Prop) l : P -> told ready P l.
Proof.
  revert P. induction l as [|f l IH]; intros P HP; [done|]. destruct f; cbn; auto.
Qed.
Lemma told_mono ready ready' (P Q : Prop) l : (P -> Q) ->
  (forall f q, f ∈ l -> pending f = Some q -> q ∈ ready' -> q ∈ ready \/ Q) ->
  told ready P l -> told ready' Q l.
Proof.
  revert P Q. induction l as [|f l IH]; intros P Q HPQ Hr Ht; [done|].
  assert (forall P' Q' : Prop, (P' -> Q') -> (Q -> Q') -> told ready P' l -> told ready' Q' l) as Hl.
  { intros P' Q' HPQ' HQ'. apply IH; [done|]. intros g q Hg Hq Hin.
    destruct (Hr g q) as [?|?]; [by right|done|done|by left|right; by apply HQ']. }
  destruct f; cbn in *; try (by apply (Hl P Q)); try (eapply Hl; [..|exact Ht]; tauto).
  destruct Ht as [Ht1 Ht2]. split; [|eapply Hl; [..|exact Ht2]; tauto].
  intros Hin. destruct (Hr (SendWait ready0 waited k) ready0) as [?|?]; [by left|done|done|auto|done].
Qed.

Lemma ready_coming_step j : (j = i -> takes_wakeup (stack s i) = false) -> ready_coming s j -> ready_coming s' j.
Proof.
  intros Hj [Hw|(j' & q & st' & E & Hq)].
  - left. by apply wakeup_step.
  - destruct (decide (j' = i)) as [->|Hn].
    + left. unfold step in Hs. rewrite E in Hs. injection Hs as <-. cbn. rewrite Hq. by rewrite fn_lookup_insert.
    + right. exists j', q, st'. destruct (step_stack i s s' Hs) as [l ->]. by rewrite fn_lookup_insert_ne.
Qed.

(** The flags that a step sets belong to threads that it wakes. *)
Lemma new_ready j f q : f ∈ stack s j -> pending f = Some q -> q ∈ ready_ s' -> q ∈ ready_ s \/ ready_coming s' j.
Proof.
  intros Hin Hp Hq. destruct (decide (q ∈ ready_ s)) as [?|Hn]; [by left|right].
  pose proof (inv_owner _ Hinv j f) as Ho. revert Hs. unfold step.
  destruct (stack s i) as [|g st] eqn:Hst; [done|]. intros Hs'.
  step_cases g Hs'; cbn in Hq; try done.
  - destruct (Clear_effect t handler id s) as (_ & _ & _ & _ & _ & Hw & Hr). apply Hr in Hq as [?|(m & Hm & <-)]; [done|].
    left. cbn. apply Hw. right. exists m. split; [done|]. apply Ho; [done|done|]. left. left. exists t.
    by apply elem_gone in Hm.
  - apply elem_of_union in Hq as [Hq%elem_of_singleton|?]; [subst q|done].
    right. exists i, m, st. cbn. rewrite fn_lookup_insert. split; [done|].
    apply Ho; [done|done|]. left. right. exists i. rewrite Hst. by left.
Qed.

Lemma told_step_other j : j <> i -> told (ready_ s') (ready_coming s' j) (stack s' j).
Proof.
  intros Hj. pose proof (inv_told _ Hinv j) as Ht.
  assert (stack s' j = stack s j) as -> by (destruct (step_stack i s s' Hs) as [l ->]; by rewrite fn_lookup_insert_ne).
  eapply told_mono; [by apply ready_coming_step| |exact Ht]. intros f q. apply new_ready.
Qed.
(** The frames below the one that moves. *)
Lemma told_below f st (P : Prop) : stack s i = f :: st -> (P -> ready_coming s' i) ->
  told (ready_ s) P st -> told (ready_ s') (ready_coming s' i) st.
Proof.
  intros E HP Ht. eapply told_mono; [exact HP| |exact Ht].
  intros g q Hg. apply new_ready. rewrite E. by right.
Qed.
Lemma told_step_self : told (ready_ s') (ready_coming s' i) (stack s' i).
Proof.
  pose proof (inv_told _ Hinv i) as Ht. destruct (step_running i s s' Hinv Hs) as [_ Hsh].
  pose proof told_below as Hb. pose proof (ready_coming_step i) as Hc.
  pose proof Hs as Hs0. unfold step in Hs0. destruct (stack s i) as [|f st] eqn:Hst; [done|].
  specialize (fun P => Hb f st P eq_refl). cbn [told takes_wakeup] in *.
  assert (Hsame : match f with SendLoop _ _ _ | SendWait _ _ _ | GetWait => False | _ => True end ->
    told (ready_ s') (ready_coming s' i) st).
  { intros Hf. apply (Hb (ready_coming s i)); [|by destruct f]. apply Hc. intros _. by destruct f. }
  step_cases f Hs0; stack_step; rewrite fn_lookup_insert; cbn [told] in *;
    change (stack (set_stack ?i ?l ?s)) with (<[i := l]> (stack s)) in *; try (by apply Hsame).
  - eapply told_mono; [..|by apply Hsame]; auto.
  - apply told_true. left. cbn. by rewrite fn_lookup_insert.
  - apply (Hb (ready_coming s i \/ false = true)); [|done]. intros [?|?]; [by apply Hc|done].
  - split; [done|]. eapply told_mono; [..|exact Ht]; [|by left]. intros [?|?]; [left; by apply Hc|by right].
  - apply told_true. by right.
  - by apply shaped_GetWait in Hsh as ->.
Qed.

Lemma invariant_step : invariant s'.
Proof.
  split.
  - apply stopped_step.
  - by apply (shape_step i s).
  - apply flag_step.
  - apply parked_step.
  - intros j. destruct (decide (j = i)) as [->|]; [apply told_step_self|by apply told_step_other].
  - apply nested_step.
  - apply fresh_step.
  - apply owner_step.
  - apply answer_step.
  - apply posted_step.
Qed.
End preservation.

Lemma initial_invariant programs : invariant (initial programs).
Proof.
  assert (Hnone : forall i f, f ∈ stack (initial programs) i -> f = Get).
  { intros i f. cbn. destruct (fStop_ i); [by intros ?%elem_of_nil|]. by intros ?%list_elem_of_singleton. }
  assert (Hmsg : forall m, ~ message_of (initial programs) m).
  { intros m [[[t Hm]|[j Hm]]|[j Hm]]; [by apply elem_of_nil in Hm|by apply Hnone in Hm..]. }
  split; cbn; try done.
  - intros i Hi. by rewrite Hi.
  - intros i Hi. by rewrite Hi.
  - intros i. by destruct (fStop_ i).
  - intros i. destruct (fStop_ i); [done|]. cbn. by repeat split.
  - split; [intros i f q Hf Hq; apply Hnone in Hf as ->; done|]. intros m Hm. by apply Hmsg in Hm.
  - intros i f m _ _ Hm. by apply Hmsg in Hm.
  - intros i f q Hf Hq. by apply Hnone in Hf as ->.
  - intros i Hi. by apply Hnone in Hi.
Qed.
Lemma reachable_invariant programs s : reachable programs s -> invariant s.
Proof. induction 1 as [|s i s' _ IH Hs]; [apply initial_invariant|by apply (invariant_step i s s')]. Qed.

(** ** Runs under a schedule *)
Fixpoint exec (schedule : list T) (s : System) : option System :=
  match schedule with
  | [] => Some s
  | i :: schedule => match step i s with Some s => exec schedule s | None => None end
  end.
Lemma exec_reachable programs schedule : forall s s', reachable programs s -> exec schedule s = Some s' ->
  reachable programs s' /\ (length schedule + measure s' <= measure s)%nat.
Proof.
  induction schedule as [|i schedule IH]; intros s s' Hr He; cbn in He.
  - injection He as <-. split; [done|]. cbn. lia.
  - destruct (step i s) as [s1|] eqn:Hs; [|done]. pose proof (step_decreases i s s1 Hs).
    destruct (IH s1 s') as [? ?]; [by eapply reachable_step|done|]. split; [done|]. cbn [length]. lia.
Qed.

(** C7. Sends between threads neither deadlock nor go on for ever: whatever the
    order in which the threads run, and whatever their handlers send in turn, also
    back to a thread that waits, the number of steps is bounded, and when no
    thread can go on every message was handled or cleared, every [Send] has
    returned and every thread waits for new messages. *)
Theorem sends_finish programs schedule s :
  exec schedule (initial programs) = Some s ->
  (length schedule <= measure (initial programs))%nat /\
  ((forall i, step i s = None) -> all_done s).
Proof.
  intros He. destruct (exec_reachable programs schedule _ s (reachable_initial programs) He) as [Hr Hm].
  split; [lia|]. apply stuck_all_done. by eapply reachable_invariant.
Qed.
End thread.

(** ** Two threads that send to each other *)
Definition demo_message : @Message unit unit := mkMessage (Some tt) 1 None 0.
Definition demo_programs : bool -> list (@prog bool unit unit) := fun i =>
  [SendMsg (negb i) demo_message (SendMsg i demo_message Return Return) Return].
Definition demo_initial := initial (fun _ : bool => false) demo_programs.
(** Each thread steps when it can, the first one first. *)
Fixpoint greedy (fuel : nat) (s : @System bool unit unit) : list bool :=
  match fuel with
  | O => []
  | S fuel =>
    match step (fun _ => false) true s with
    | Some s' => true :: greedy fuel s'
    | None => match step (fun _ => false) false s with Some s' => false :: greedy fuel s' | None => [] end
    end
  end.
Definition demo_schedule : list bool := greedy 200 demo_initial.
Definition demo_final := default demo_initial (exec (fun _ => false) demo_schedule demo_initial).

Lemma sends_finish_witness :
  exec (fun _ => false) demo_schedule demo_initial = Some demo_final /\
  (40 < length demo_schedule <= measure demo_initial)%nat /\ all_done (fun _ => false) demo_final.
Proof.
  assert (He : exec (fun _ => false) demo_schedule demo_initial = Some demo_final) by (vm_compute; reflexivity).
  destruct (sends_finish (fun _ => false) demo_programs demo_schedule demo_final He) as [Hb Hd].
  split; [exact He|]. split; [split; [vm_compute; lia|exact Hb]|].
  apply Hd. intros []; vm_compute; reflexivity.
Defined.

(** A thread that has served a message still wakes the sender's thread object,
    whose [Send] may have returned by then: with an [AutoThread] of that [Send]
    the object no longer exists. *)
Definition early_programs : bool -> list (@prog bool unit unit) := fun i =>
  if i then [SendMsg false demo_message Return Return] else [].
Definition early_schedule : list bool := repeat true 5 ++ repeat false 5 ++ [true; true].
Example woken_after_return :
  exists s m, exec (fun _ => false) early_schedule (initial (fun _ => false) early_programs) = Some s /\
    stack s false = [Served m; GetPosted] /\ smsg_thread m = true /\ stack s true = [Get].
Proof. do 2 eexists. split; [vm_compute; reflexivity|]. split; [vm_compute; reflexivity|]. by split; vm_compute. Qed.
