(* ===== verification/SignalThread.v ===== *)
(** * base/signalthread.h and signalthread.cpp: an object with a worker thread

    A [SignalThread] lives between the main thread, on which its methods and its
    messages run, and the worker; it deletes itself when its reference count
    drops to zero.  The two threads run interleaved, and an action of the model is
    what runs under the critical section [cs_] without blocking; where the main
    thread waits for the worker, or is inside the handlers of [SignalWorkDone], it
    has a frame on [frames].  What the subclass overrides, [DoWork], [OnWorkStart],
    [OnWorkStop] and [OnWorkDone], does not call back into the object, and nobody
    posts to the worker.  [ASSERT] does nothing. *)
From S2P Require Import Prelude.

Inductive State := kInit | kRunning | kReleasing | kComplete | kStopping.
#[global] Instance State_eq_dec : EqDecision State.
Proof. solve_decision. Defined.

(** The worker's operating system thread: none, in [DoWork], behind the [EnterExit]
    of [Run], and ended but not joined. *)
Inductive WorkerStatus := NotRunning | InWork | Leaving | Exited.
#[global] Instance WorkerStatus_eq_dec : EqDecision WorkerStatus.
Proof. solve_decision. Defined.

(** Where the main thread is inside the object: in the [worker_.Stop()] of
    [Destroy] and of [OnMessage], in [SignalWorkDone], and in the destructor. *)
Inductive Frame := DestroyJoin | DoneJoin (do_delete : bool) | Handler (do_delete : bool) | Deleting.

(** [main_] says that the pointer is not null, [cs_] how often the main thread
    holds the critical section, [posted] how many [ST_MSG_WORKER_DONE] are in its
    queue; [started_] and [fStop_] are the worker's.  [let_go] remembers that the
    client has given up the object. *)
Record SignalThread := mkSignalThread {
  main_ : bool; state_ : State; refcount_ : Z; cs_ : nat; posted : nat;
  worker : WorkerStatus; started_ : bool; fStop_ : bool;
  frames : list Frame; alive : bool; let_go : bool }.
#[global] Instance SignalThread_eq_dec : EqDecision SignalThread.
Proof. intros [] []. unfold Decision. repeat decide equality. Defined.

Definition set_state (x : State) (s : SignalThread) : SignalThread :=
  mkSignalThread (main_ s) x (refcount_ s) (cs_ s) (posted s) (worker s) (started_ s) (fStop_ s) (frames s) (alive s) (let_go s).
Definition set_refcount (n : Z) (s : SignalThread) : SignalThread :=
  mkSignalThread (main_ s) (state_ s) n (cs_ s) (posted s) (worker s) (started_ s) (fStop_ s) (frames s) (alive s) (let_go s).
Definition set_cs (n : nat) (s : SignalThread) : SignalThread :=
  mkSignalThread (main_ s) (state_ s) (refcount_ s) n (posted s) (worker s) (started_ s) (fStop_ s) (frames s) (alive s) (let_go s).
Definition set_posted (n : nat) (s : SignalThread) : SignalThread :=
  mkSignalThread (main_ s) (state_ s) (refcount_ s) (cs_ s) n (worker s) (started_ s) (fStop_ s) (frames s) (alive s) (let_go s).
Definition set_worker (w : WorkerStatus) (started : bool) (s : SignalThread) : SignalThread :=
  mkSignalThread (main_ s) (state_ s) (refcount_ s) (cs_ s) (posted s) w started (fStop_ s) (frames s) (alive s) (let_go s).
Definition set_frames (l : list Frame) (s : SignalThread) : SignalThread :=
  mkSignalThread (main_ s) (state_ s) (refcount_ s) (cs_ s) (posted s) (worker s) (started_ s) (fStop_ s) l (alive s) (let_go s).
Definition set_main (b : bool) (s : SignalThread) : SignalThread :=
  mkSignalThread b (state_ s) (refcount_ s) (cs_ s) (posted s) (worker s) (started_ s) (fStop_ s) (frames s) (alive s) (let_go s).
Definition cut_loose (s : SignalThread) : SignalThread :=
  mkSignalThread (main_ s) (state_ s) (refcount_ s) (cs_ s) (posted s) (worker s) (started_ s) (fStop_ s) (frames s) (alive s) true.
Definition kill (s : SignalThread) : SignalThread :=
  mkSignalThread (main_ s) (state_ s) (refcount_ s) (cs_ s) 0 (worker s) (started_ s) (fStop_ s) (frames s) false (let_go s).

(** ** The worker as a Thread *)
Definition Quit (s : SignalThread) : SignalThread :=
  mkSignalThread (main_ s) (state_ s) (refcount_ s) (cs_ s) (posted s) (worker s) (started_ s) true (frames s) (alive s) (let_go s).
Definition worker_Start (s : SignalThread) : SignalThread :=
  if started_ s then s else set_worker InWork true s.
(** [Join]; [None] while the thread runs. *)
Definition worker_Join (s : SignalThread) : option SignalThread :=
  if started_ s then if decide (worker s = Exited) then Some (set_worker NotRunning false s) else None
  else Some s.

(** ** EnterExit *)
Definition enter (s : SignalThread) : SignalThread := set_cs (S (cs_ s)) (set_refcount (refcount_ s + 1) s).
Definition release (s : SignalThread) : SignalThread := set_refcount (refcount_ s - 1) s.
(** The destructor of [EnterExit] on the main thread; [delete t_] joins the worker. *)
Definition exit (s : SignalThread) : SignalThread :=
  let s := release s in
  let d := refcount_ s =? 0 in
  let s := set_cs (pred (cs_ s)) s in
  if d then set_frames (Deleting :: frames s) (Quit s) else s.

(** ** Methods of the client *)
Definition SignalThread_new : SignalThread :=
  mkSignalThread true kInit 1 0 0 NotRunning false false [] true false.

Definition Start (s : SignalThread) : SignalThread :=
  let s := enter s in
  exit (match state_ s with
    | kInit | kComplete => worker_Start (set_state kRunning s)
    | _ => s
    end).
Definition Destroy (wait : bool) (s : SignalThread) : SignalThread :=
  let s := enter s in
  match state_ s with
  | kInit | kComplete => exit (release s)
  | kRunning | kReleasing =>
    let s := Quit (set_state kStopping s) in
    if wait then set_frames (DestroyJoin :: frames s) (set_cs (pred (cs_ s)) s) else exit s
  | kStopping => exit s
  end.
Definition Release (s : SignalThread) : SignalThread :=
  let s := enter s in
  exit (match state_ s with
    | kComplete => release s
    | kRunning => set_state kReleasing s
    | _ => s
    end).

(** What the worker is told when it asks whether to go on; [None] while the main
    thread holds the critical section. *)
Definition ContinueWork (s : SignalThread) : option bool :=
  if (cs_ s =? 0)%nat then Some (negb (fStop_ s)) else None.

(** ** Messages *)
Definition OnMessage (s : SignalThread) : SignalThread :=
  let s := enter s in
  let '(s, do_delete) := match state_ s with
    | kRunning => (set_state kComplete s, false)
    | _ => (s, true)
    end in
  if decide (state_ s = kStopping) then exit (if do_delete : bool then release s else s)
  else set_frames (DoneJoin do_delete :: frames s) (Quit s).
Definition OnMainThreadDestroyed (s : SignalThread) : SignalThread := set_posted 0 (set_main false s).

(** The main thread goes on in the frame it is in. *)
Definition resume (s : SignalThread) : option SignalThread :=
  match frames s with
  | [] => None
  | DestroyJoin :: st =>
    s ← worker_Join s;
    Some (exit (release (set_cs (S (cs_ s)) (set_frames st s))))
  | DoneJoin do_delete :: st => s ← worker_Join s; Some (set_frames (Handler do_delete :: st) s)
  | Handler do_delete :: st =>
    let s := set_frames st s in
    Some (exit (if do_delete then release (cut_loose s) else s))
  | Deleting :: st => s ← worker_Join s; Some (kill (set_frames st s))
  end.

(** The end of [Run]: the message is posted under the lock; then the thread ends,
    which touches its [Thread] object, a member of the [SignalThread]. *)
Definition Run (s : SignalThread) : option SignalThread :=
  match worker s with
  | InWork =>
    if (cs_ s =? 0)%nat then Some (set_worker Leaving (started_ s) (if main_ s then set_posted (S (posted s)) s else s))
    else None
  | Leaving => Some (set_worker Exited (started_ s) s)
  | _ => None
  end.

(** ** Steps *)
Inductive Call := CallStart | CallDestroy (wait : bool) | CallRelease.
#[global] Instance Call_eq_dec : EqDecision Call.
Proof. solve_decision. Defined.
Inductive Action := Client (c : Call) | Dispatch | Resume | MainDestroyed | Worker.

Definition call (c : Call) (s : SignalThread) : SignalThread :=
  match c with
  | CallStart => Start s
  | CallDestroy wait => cut_loose (Destroy wait s)
  | CallRelease => Release (if decide (state_ s = kComplete) then cut_loose s else s)
  end.
(** [None] when the action cannot happen now, [Undefined] when it uses the object
    after its deletion; an [EnterExit] of the worker on a count of zero would delete
    it a second time. *)
Definition step (a : Action) (s : SignalThread) : option (outcome SignalThread) :=
  let use (s' : option SignalThread) :=
    s' ← s'; Some (if alive s then Done s' else Undefined) in
  match a with
  | Client c =>
    match frames s with
    | [] | Handler _ :: _ => if main_ s then use (Some (call c s)) else None
    | _ => None
    end
  | Dispatch =>
    match frames s, posted s with
    | [], S n => if main_ s then use (Some (OnMessage (set_posted n s))) else None
    | _, _ => None
    end
  | Resume => use (resume s)
  | MainDestroyed =>
    match frames s with
    | [] => if main_ s then Some (Done (OnMainThreadDestroyed s)) else None
    | _ => None
    end
  | Worker => if decide (worker s = InWork /\ refcount_ s = 0) then Some Undefined else use (Run s)
  end.

(** What the threads do by themselves. *)
Definition internal (a : Action) : bool := match a with Dispatch | Resume | Worker => true | _ => false end.
(** What the client may do: nothing after it let go of the object, and no waiting
    for a worker that it started from the same handler of [SignalWorkDone], or
    after a [Release]. *)
Definition legal (s : SignalThread) (a : Action) : bool :=
  match a with
  | Client c =>
    negb (let_go s) &&
    (bool_decide (c <> CallDestroy true) || bool_decide (frames s = []) || bool_decide (state_ s = kComplete))
  | _ => true
  end.
Inductive reachable : SignalThread -> Prop :=
| reachable_new : reachable SignalThread_new
| reachable_step s a s' : reachable s -> legal s a = true -> step a s = Some (Done s') -> reachable s'.

(** ** The invariant *)
Definition working (s : SignalThread) : Prop :=
  started_ s = true /\
  ((worker s = InWork /\ posted s = 0%nat) \/
   ((worker s = Leaving \/ worker s = Exited) /\ posted s = if main_ s then 1%nat else 0%nat)).
Definition idle (s : SignalThread) : Prop := worker s = NotRunning /\ started_ s = false /\ posted s = 0%nat.
(** The object outside its methods. *)
Definition at_rest (s : SignalThread) : Prop :=
  if alive s then
    refcount_ s = 1 /\ cs_ s = 0%nat /\
    match state_ s with
    | kInit | kComplete => idle s /\ let_go s = false
    | kRunning | kReleasing => working s /\ let_go s = false
    | kStopping => working s /\ let_go s = true
    end
  else idle s /\ let_go s = true.
(** In [SignalWorkDone]; the worker that a handler started waits for the lock. *)
Definition signalling (do_delete : bool) (s : SignalThread) : Prop :=
  cs_ s = 1%nat /\ posted s = 0%nat /\
  if do_delete then
    refcount_ s = 2 /\ idle s /\
    ((state_ s = kReleasing /\ let_go s = false) \/ (state_ s = kStopping /\ let_go s = true))
  else
    (state_ s = kComplete /\ idle s /\ refcount_ s = if let_go s then 1 else 2) \/
    (refcount_ s = 2 /\ started_ s = true /\ worker s = InWork /\
     (((state_ s = kRunning \/ state_ s = kReleasing) /\ let_go s = false) \/ (state_ s = kStopping /\ let_go s = true))).
Definition invariant (s : SignalThread) : Prop :=
  match frames s with
  | [] => at_rest s
  | [f] =>
    alive s = true /\ main_ s = true /\
    match f with
    | DestroyJoin => refcount_ s = 2 /\ cs_ s = 0%nat /\ state_ s = kStopping /\ working s /\ let_go s = true
    | DoneJoin do_delete =>
      refcount_ s = 2 /\ cs_ s = 1%nat /\ posted s = 0%nat /\ state_ s = (if do_delete then kReleasing else kComplete) /\
      started_ s = true /\ (worker s = Leaving \/ worker s = Exited) /\ let_go s = false
    | Handler do_delete => signalling do_delete s
    | Deleting =>
      refcount_ s = 0 /\ cs_ s = 0%nat /\ let_go s = true /\
      if started_ s then worker s = Leaving \/ worker s = Exited else worker s = NotRunning
    end
  | _ => False
  end.

(** The states that satisfy the invariant, one by one. *)
Ltac cases_of_invariant :=
  unfold invariant, at_rest, signalling, working, idle in *; cbn in *;
  repeat match goal with
  | H : _ /\ _ |- _ => destruct H
  | H : _ \/ _ |- _ => destruct H
  | H : False |- _ => destruct H
  | H : context [if ?b then _ else _] |- _ => is_var b; destruct b; cbn in H
  | H : context [match ?x with kInit => _ | kRunning => _ | kReleasing => _ | kComplete => _ | kStopping => _ end] |- _ =>
    is_var x; destruct x
  end; simplify_eq.
Ltac try_cases :=
  cbn; repeat match goal with |- _ /\ _ => split end;
  first [ done | lia | left; try_cases | right; try_cases ].

Lemma invariant_new : invariant SignalThread_new.
Proof. try_cases. Qed.
Lemma worker_invariant_step s a o : invariant s -> legal s a = true -> step a s = Some o ->
  exists s', o = Done s' /\ invariant s'.
Proof.
  destruct s as [m x n k p w b f l v g], a as [c| | | |]; intros Hi Hl Hs.
  all: destruct l as [|[|d|d|] [|? ?]]; try done.
  all: try (destruct d); revert Hl Hs; cases_of_invariant.
  all: try (destruct c as [|[]|]).
  all: lazy; intros Hl Hs; try done; try (destruct m; [|done]); simplify_eq.
  all: try (eexists; split; [done|]; unfold invariant, at_rest, signalling, working, idle; lazy; try_cases).
Qed.
Lemma worker_reachable_invariant s : reachable s -> invariant s.
Proof.
  induction 1 as [|s a s' _ IH Hl Hs]; [apply invariant_new|].
  by destruct (worker_invariant_step s a _ IH Hl Hs) as (? & [= <-] & ?).
Qed.

(** ** What the threads do by themselves ends *)
Definition rank (s : SignalThread) : nat :=
  (match worker s with InWork => 8 | Leaving => 1 | _ => 0 end + 5 * posted s
   + match frames s with [] => 0 | (DestroyJoin | DoneJoin _) :: _ => 3 | Handler _ :: _ => 2 | Deleting :: _ => 1 end)%nat.
Lemma internal_rank s a s' : invariant s -> internal a = true -> step a s = Some (Done s') -> (rank s' < rank s)%nat.
Proof.
  destruct s as [m x n k p w b f l v g], a as [c| | | |]; intros Hi Ha Hs; try done; clear Ha.
  all: destruct l as [|[|d|d|] [|? ?]]; try done.
  all: try (destruct d); revert Hs; cases_of_invariant.
  all: intros Hs; lazy in Hs; try done; try (destruct m; try done); simplify_eq; unfold rank; cbn; lia.
Qed.

(** Nothing happens by itself any more. *)
Definition quiet (s : SignalThread) : Prop := forall a, internal a = true -> step a s = None.
Lemma quiet_states s : invariant s -> main_ s = true -> quiet s ->
  frames s = [] /\ (alive s = false \/ (let_go s = false /\ (state_ s = kInit \/ state_ s = kComplete))).
Proof.
  intros Hi Hm Hq. pose proof (Hq Dispatch eq_refl) as Hd. pose proof (Hq Resume eq_refl) as Hr.
  pose proof (Hq Worker eq_refl) as Hw. clear Hq.
  destruct s as [m x n k p w b f l v g]. cbn in Hm. subst m. revert Hd Hr Hw.
  destruct l as [|[|d|d|] [|? ?]]; try done.
  all: try (destruct d); cases_of_invariant.
  all: intros Hd Hr Hw; lazy in Hd; lazy in Hr; lazy in Hw; try done; try_cases.
Qed.

(** C8. Under two conditions on the client, a worker object is never used or deleted
    again after its deletion, what its threads do by themselves comes to an end,
    and then, while the main thread lives, the object is deleted if the client let
    go of it, and can be started or destroyed if not; the main thread never waits
    for ever.  The conditions ([legal]): the client makes no call after it let go
    of the object, and inside a handler of [SignalWorkDone] it does not destroy
    and wait once it has released or restarted the object there (what happens
    then is [released_then_destroyed] and [destroy_in_handler_blocks]). *)
Theorem deleted_exactly_when_let_go s : reachable s ->
  (forall a, legal s a = true -> step a s <> Some Undefined) /\
  (forall a s', internal a = true -> step a s = Some (Done s') -> (rank s' < rank s)%nat) /\
  (main_ s = true -> quiet s ->
    frames s = [] /\ (alive s = false \/ (let_go s = false /\ (state_ s = kInit \/ state_ s = kComplete)))).
Proof.
  intros Hi%worker_reachable_invariant. split; [|split].
  - intros a Hl Hs. by destruct (worker_invariant_step s a _ Hi Hl Hs) as (? & ? & _).
  - intros a s'. by apply internal_rank.
  - by apply quiet_states.
Qed.

(** ** Runs *)
Fixpoint exec (l : list Action) (s : SignalThread) : option SignalThread :=
  match l with
  | [] => Some s
  | a :: l => match step a s with Some (Done s) => exec l s | _ => None end
  end.
Fixpoint all_legal (l : list Action) (s : SignalThread) : bool :=
  match l with
  | [] => true
  | a :: l => legal s a && match step a s with Some (Done s) => all_legal l s | _ => false end
  end.
Lemma worker_exec_reachable l : forall s s', reachable s -> all_legal l s = true -> exec l s = Some s' -> reachable s'.
Proof.
  induction l as [|a l IH]; intros s s' Hr Hl He; cbn in *; [by injection He as <-|].
  apply andb_true_iff in Hl as [Ha Hl]. destruct (step a s) as [[s1| |]|] eqn:Hs; try done.
  apply (IH s1); try done. by eapply reachable_step.
Qed.

(** Started, released while it works, and then destroyed. *)
Definition released_run : list Action :=
  [Client CallStart; Client CallRelease; Worker; Client (CallDestroy true); Worker; Resume; Resume].
Definition released : SignalThread := default SignalThread_new (exec released_run SignalThread_new).
Lemma deleted_exactly_when_let_go_witness :
  alive released = false /\ (forall a, legal released a = true -> step a released <> Some Undefined) /\
  (frames released = [] /\ (alive released = false \/
    (let_go released = false /\ (state_ released = kInit \/ state_ released = kComplete)))).
Proof.
  assert (Hr : reachable released).
  { apply (worker_exec_reachable released_run SignalThread_new); [constructor|by vm_compute|by vm_compute]. }
  destruct (deleted_exactly_when_let_go released Hr) as (Hu & _ & Hq).
  split; [by vm_compute|]. split; [exact Hu|]. apply Hq; [by vm_compute|].
  intros [c| | | |] Ha; try done; by vm_compute.
Defined.

(** ** What the code does for other orders of calls *)

(** A worker that is started again is told at once to stop: the queue was told to
    quit when the first run was joined, and [Start] does not take this back. *)
Definition one_run : list Action := [Client CallStart; Worker; Dispatch; Worker; Resume; Resume].
Example restarted_worker_is_told_to_stop :
  (ContinueWork <$> exec [Client CallStart] SignalThread_new) = Some (Some true) /\
  (ContinueWork <$> exec (one_run ++ [Client CallStart]) SignalThread_new) = Some (Some false).
Proof. by vm_compute. Qed.

(** Destroying, with a wait, from the handler of [SignalWorkDone] a released object
    takes the count below zero: the object is never deleted. *)
Definition leaking_run : list Action :=
  [Client CallStart; Client CallRelease; Worker; Dispatch; Worker; Resume; Client (CallDestroy true); Resume; Resume].
Example released_then_destroyed :
  ((fun s => (refcount_ s, alive s, frames s)) <$> exec leaking_run SignalThread_new) = Some (-1, true, []).
Proof. by vm_compute. Qed.

(** Starting and then destroying with a wait from that handler blocks both threads:
    the main thread waits with the lock that the worker needs to end. *)
Definition blocking_run : list Action :=
  [Client CallStart; Worker; Dispatch; Worker; Resume; Client CallStart; Client (CallDestroy true)].
Example destroy_in_handler_blocks :
  ((fun s => (step Worker s, step Resume s, ContinueWork s, frames s)) <$> exec blocking_run SignalThread_new)
  = Some (None, None, None, [DestroyJoin; Handler false]).
Proof. by vm_compute. Qed.
