(* ===== verification/Stream.v ===== *)
(** * base/stream.h and stream.cpp: the stream interface and what is built on it

    A stream is read and written in pieces, and each call may succeed in part, block,
    end or fail.  The class [Stream] is the abstract class of the code; [WriteAll],
    [ReadAll], [ReadLine] and [Flow] are defined on the interface, the adapters on
    the stream they adapt.  [Source] and [Sink] say what a stream must promise for
    them to be right; the streams of the other files discharge it.  A result carries
    what its out arguments hold in this case.  Sizes do not come near 2^32; the
    loops have fuel, and the theorems say how much is enough. *)
From Stdlib Require Import Ascii String.
From S2P Require Import Prelude Text.

Inductive StreamState := SS_CLOSED | SS_OPENING | SS_OPEN.
Inductive StreamResult (A : Type) := SR_ERROR (error : option Z) | SR_SUCCESS (a : A) | SR_BLOCK | SR_EOS.
Arguments SR_ERROR {A} error.
Arguments SR_SUCCESS {A} a.
Arguments SR_BLOCK {A}.
Arguments SR_EOS {A}.
#[global] Instance StreamState_eq_dec : EqDecision StreamState.
Proof. solve_decision. Defined.
#[global] Instance StreamResult_eq_dec `{EqDecision A} : EqDecision (StreamResult A).
Proof. solve_decision. Defined.
(** The [StreamEvent]s. *)
Definition SE_OPEN : Z := 1.
Definition SE_READ : Z := 2.
Definition SE_WRITE : Z := 4.
Definition SE_CLOSE : Z := 8.

Definition succeeded {A} (r : StreamResult A) : bool := match r with SR_SUCCESS _ => true | _ => false end.
(** The result without what was read or written. *)
Definition code {A} (r : StreamResult A) : StreamResult unit :=
  match r with SR_ERROR e => SR_ERROR e | SR_SUCCESS _ => SR_SUCCESS tt | SR_BLOCK => SR_BLOCK | SR_EOS => SR_EOS end.

(** [Read s n] reads at most [n] bytes, [Write s data] writes a prefix of [data]. *)
Class Stream (S : Type) := {
  GetState : S -> StreamState;
  Read : S -> nat -> StreamResult (list Z) * S;
  Write : S -> list Z -> StreamResult nat * S;
  Close : S -> S }.
(** The optional operations; [None] is the result [false]. *)
Class Seekable (S : Type) := {
  SetPosition : S -> nat -> option S;
  GetPosition : S -> option nat;
  GetSize : S -> option nat;
  GetAvailable : S -> option nat }.

(** ** StreamInterface *)
Section interface.
Context {S : Type} `{Stream S}.

Fixpoint WriteAll (fuel : nat) (s : S) (data : list Z) (total_written : nat)
  : option (StreamResult unit * nat * S) :=
  match data with
  | [] => Some (SR_SUCCESS tt, total_written, s)
  | _ :: _ =>
    match fuel with
    | O => None
    | Datatypes.S fuel =>
      let '(result, s) := Write s data in
      match result with
      | SR_SUCCESS current_written =>
        WriteAll fuel s (drop current_written data) (total_written + current_written)
      | _ => Some (code result, total_written, s)
      end
    end
  end.
Fixpoint ReadAll (fuel : nat) (s : S) (buffer_len : nat) (buffer : list Z)
  : option (StreamResult unit * list Z * S) :=
  if (length buffer <? buffer_len)%nat then
    match fuel with
    | O => None
    | Datatypes.S fuel =>
      let '(result, s) := Read s (buffer_len - length buffer) in
      match result with
      | SR_SUCCESS data => ReadAll fuel s buffer_len (buffer ++ data)
      | _ => Some (code result, buffer, s)
      end
    end
  else Some (SR_SUCCESS tt, buffer, s).

(** The loop of [ReadLine], and what it makes of the result. *)
Fixpoint ReadLine_loop (fuel : nat) (s : S) (line : list Z) : option (StreamResult unit * list Z * S) :=
  match fuel with
  | O => None
  | Datatypes.S fuel =>
    let '(result, s) := Read s 1 in
    match result with
    | SR_SUCCESS data =>
      let ch := hd 0 data in
      if ch =? 10 then Some (code result, line, s) else ReadLine_loop fuel s (line ++ [ch])
    | _ => Some (code result, line, s)
    end
  end.
Definition ReadLine (fuel : nat) (s : S) : option (StreamResult unit * list Z * S) :=
  '(result, line, s) ← ReadLine_loop fuel s [];
  Some (match line with [] => result | _ => SR_SUCCESS tt end, line, s).
End interface.

(** ** Flow

    [pending] is what the buffer holds: at first what an earlier call left, at the
    end what [data_len] tells the caller to keep. *)
Section flow.
Context {S T : Type} `{Stream S, Stream T}.

(** Reads until the buffer is full ([Some false]), the source ends ([Some true]),
    or something else happens ([None], with the result). *)
Fixpoint fill (fuel : nat) (source : S) (buffer_len : nat) (pending : list Z)
  : option (S * list Z * (bool + StreamResult unit)) :=
  if (length pending <? buffer_len)%nat then
    match fuel with
    | O => None
    | Datatypes.S fuel =>
      let '(result, source) := Read source (buffer_len - length pending) in
      match result with
      | SR_EOS => Some (source, pending, inl true)
      | SR_SUCCESS data => fill fuel source buffer_len (pending ++ data)
      | _ => Some (source, pending, inr (code result))
      end
    end
  else Some (source, pending, inl false).
(** Writes until the buffer is empty or a write does not succeed. *)
Fixpoint drain (fuel : nat) (pending : list Z) (sink : T) : option (StreamResult unit * list Z * T) :=
  match pending with
  | [] => Some (SR_SUCCESS tt, [], sink)
  | _ :: _ =>
    match fuel with
    | O => None
    | Datatypes.S fuel =>
      let '(result, sink) := Write sink pending in
      match result with
      | SR_SUCCESS count => drain fuel (drop count pending) sink
      | _ => Some (code result, pending, sink)
      end
    end
  end.
Fixpoint Flow (fuel : nat) (source : S) (buffer_len : nat) (pending : list Z) (sink : T)
  : option (StreamResult unit * S * list Z * T) :=
  match fuel with
  | O => None
  | Datatypes.S fuel' =>
    '(source, pending, end_of_stream) ← fill fuel source buffer_len pending;
    match end_of_stream with
    | inr result => Some (result, source, pending, sink)
    | inl end_of_stream =>
      '(result, pending, sink) ← drain fuel pending sink;
      if negb (succeeded result) then Some (result, source, pending, sink)
      else if (end_of_stream : bool) then Some (SR_SUCCESS tt, source, [], sink)
      else Flow fuel' source buffer_len [] sink
    end
  end.
(** With the default [data_len], a null pointer: nothing is pending at the start, and
    of what was read and not written nobody is told. *)
Definition Flow_default (fuel : nat) (source : S) (buffer_len : nat) (sink : T) : option (StreamResult unit * S * T) :=
  '(result, source, _, sink) ← Flow fuel source buffer_len [] sink; Some (result, source, sink).
End flow.

(** ** NullStream *)
Definition NullStream : Type := unit.
#[global] Instance NullStream_stream : Stream NullStream := {
  GetState _ := SS_OPEN;
  Read s _ := (SR_ERROR (Some (-1)), s);
  Write s data := (SR_SUCCESS (length data), s);
  Close s := s }.

(** ** StringStream *)
Record StringStream := mkStringStream { str_ : list Z; read_pos_ : nat; read_only_ : bool }.
Definition StringStream_new (str : list Z) (read_only : bool) : StringStream := mkStringStream str 0 read_only.
Definition StringStream_Read (s : StringStream) (buffer_len : nat) : StreamResult (list Z) * StringStream :=
  let available := (buffer_len `min` (length (str_ s) - read_pos_ s))%nat in
  if (available =? 0)%nat then (SR_EOS, s)
  else (SR_SUCCESS (slice (read_pos_ s) available (str_ s)),
        mkStringStream (str_ s) (read_pos_ s + available) (read_only_ s)).
Definition StringStream_Write (s : StringStream) (data : list Z) : StreamResult nat * StringStream :=
  if read_only_ s then (SR_ERROR (Some (-1)), s)
  else (SR_SUCCESS (length data), mkStringStream (str_ s ++ data) (read_pos_ s) (read_only_ s)).
Definition StringStream_SetPosition (s : StringStream) (position : nat) : option StringStream :=
  if (length (str_ s) <? position)%nat then None else Some (mkStringStream (str_ s) position (read_only_ s)).
#[global] Instance StringStream_stream : Stream StringStream := {
  GetState _ := SS_OPEN; Read := StringStream_Read; Write := StringStream_Write; Close s := s }.
#[global] Instance StringStream_seekable : Seekable StringStream := {
  SetPosition := StringStream_SetPosition;
  GetPosition s := Some (read_pos_ s);
  GetSize s := Some (length (str_ s));
  GetAvailable s := Some (length (str_ s) - read_pos_ s)%nat }.

(** ** StreamTap *)
Section tap.
Context {S T : Type} `{Stream S, Stream T}.
Record StreamTap := mkStreamTap { tapped : S; tap_ : T; tap_result_ : StreamResult unit; tap_error_ : Z }.
Definition StreamTap_new (stream : S) (tap : T) : StreamTap := mkStreamTap stream tap (SR_SUCCESS tt) 0.
(** What passes is also written to the tap, as long as this succeeds. *)
Definition tap_data (fuel : nat) (data : list Z) (s : StreamTap) : option StreamTap :=
  if succeeded (tap_result_ s) then
    '(result, _, tap) ← WriteAll fuel (tap_ s) data 0;
    Some (mkStreamTap (tapped s) tap result
      (match result with SR_ERROR (Some e) => e | _ => tap_error_ s end))
  else Some s.
Definition StreamTap_Read (fuel : nat) (s : StreamTap) (buffer_len : nat)
  : option (StreamResult (list Z) * StreamTap) :=
  let '(res, stream) := Read (tapped s) buffer_len in
  let s := mkStreamTap stream (tap_ s) (tap_result_ s) (tap_error_ s) in
  match res with
  | SR_SUCCESS data => s ← tap_data fuel data s; Some (res, s)
  | _ => Some (res, s)
  end.
Definition StreamTap_Write (fuel : nat) (s : StreamTap) (data : list Z) : option (StreamResult nat * StreamTap) :=
  let '(res, stream) := Write (tapped s) data in
  let s := mkStreamTap stream (tap_ s) (tap_result_ s) (tap_error_ s) in
  match res with
  | SR_SUCCESS written => s ← tap_data fuel (take written data) s; Some (res, s)
  | _ => Some (res, s)
  end.
Definition GetTapResult (s : StreamTap) : StreamResult unit * Z := (tap_result_ s, tap_error_ s).
End tap.
Arguments StreamTap : clear implicits.

(** ** StreamSegment *)
Section segment.
Context {S : Type} `{Stream S, Seekable S}.
(** [None] is [SIZE_UNKNOWN]. *)
Record StreamSegment := mkStreamSegment { stream_ : S; start_ : option nat; pos_ : nat; length_ : option nat }.
Definition StreamSegment_new (stream : S) (length : option nat) : StreamSegment :=
  mkStreamSegment stream (GetPosition stream) 0 length.
Definition StreamSegment_Read (s : StreamSegment) (buffer_len : nat) : StreamResult (list Z) * StreamSegment :=
  let read buffer_len :=
    let '(result, stream) := Read (stream_ s) buffer_len in
    (result, mkStreamSegment stream (start_ s)
      (match result with SR_SUCCESS data => pos_ s + length data | _ => pos_ s end)%nat (length_ s)) in
  match length_ s with
  | None => read buffer_len
  | Some length =>
    if (length <=? pos_ s)%nat then (SR_EOS, s) else read (buffer_len `min` (length - pos_ s))%nat
  end.
Definition StreamSegment_SetPosition (s : StreamSegment) (position : nat) : option StreamSegment :=
  start ← start_ s;
  if (match length_ s with Some length => length <? position | None => false end)%nat then None
  else
    stream ← SetPosition (stream_ s) (start + position);
    Some (mkStreamSegment stream (start_ s) position (length_ s)).
Definition StreamSegment_GetPosition (s : StreamSegment) : option nat :=
  start ← start_ s;
  position ← GetPosition (stream_ s);
  Some (position - start)%nat.
Definition StreamSegment_GetSize (s : StreamSegment) : option nat :=
  size ← GetSize (stream_ s);
  let size := match start_ s with Some start => (size - start)%nat | None => size end in
  Some (match length_ s with Some length => size `min` length | None => size end)%nat.
Definition StreamSegment_GetAvailable (s : StreamSegment) : option nat :=
  size ← GetAvailable (stream_ s);
  Some (match length_ s with Some length => size `min` (length - pos_ s) | None => size end)%nat.
#[global] Instance StreamSegment_stream : Stream StreamSegment := {
  GetState s := GetState (stream_ s);
  Read := StreamSegment_Read;
  Write s data := let '(result, stream) := Write (stream_ s) data in
    (result, mkStreamSegment stream (start_ s) (pos_ s) (length_ s));
  Close s := mkStreamSegment (Close (stream_ s)) (start_ s) (pos_ s) (length_ s) }.
#[global] Instance StreamSegment_seekable : Seekable StreamSegment := {
  SetPosition := StreamSegment_SetPosition; GetPosition := StreamSegment_GetPosition;
  GetSize := StreamSegment_GetSize; GetAvailable := StreamSegment_GetAvailable }.
End segment.
Arguments StreamSegment : clear implicits.

(** ** What a stream promises

    [content s] is what is left to be read, [written s] what was written so far. *)
Class Source (S : Type) `{Stream S} (ok : S -> Prop) (content : S -> list Z) := {
  Read_source : forall s n, ok s -> (0 < n)%nat ->
    let '(result, s') := Read s n in
    ok s' /\ match result with
    | SR_SUCCESS data => data <> [] /\ (length data <= n)%nat /\ content s = data ++ content s'
    | SR_EOS => content s = [] /\ content s' = []
    | _ => content s' = content s
    end }.
(** A source that never blocks or fails while there is something to read. *)
Class Ready (S : Type) `{Stream S} (ok : S -> Prop) (content : S -> list Z) :=
  Read_ready : forall s n, ok s -> (0 < n)%nat -> content s <> [] -> succeeded (fst (Read s n)) = true.
Class Sink (S : Type) `{Stream S} (ok : S -> Prop) (written : S -> list Z) := {
  Write_sink : forall s data, ok s -> data <> [] ->
    let '(result, s') := Write s data in
    ok s' /\ match result with
    | SR_SUCCESS n => (1 <= n <= length data)%nat /\ written s' = written s ++ take n data
    | _ => written s' = written s
    end }.

(** ** Reading and writing it all *)
Section write_all.
Context {S : Type} `{HS : Stream S} {ok : S -> Prop} {written : S -> list Z} `{!Sink S ok written}.

Lemma WriteAll_prefix fuel : forall s data total, ok s -> (length data <= fuel)%nat ->
  exists result n s', WriteAll fuel s data total = Some (result, (total + n)%nat, s') /\ ok s'
    /\ (n <= length data)%nat /\ written s' = written s ++ take n data
    /\ (succeeded result = true -> n = length data).
Proof.
  induction fuel as [|fuel IH]; intros s data total Hok Hf; destruct data as [|c data].
  1, 3: exists (SR_SUCCESS tt), 0%nat, s; rewrite Nat.add_0_r, take_0, app_nil_r; by repeat split.
  - cbn in Hf. lia.
  - cbn [WriteAll]. pose proof (Write_sink s (c :: data) Hok ltac:(done)) as Hw.
    destruct (Write s (c :: data)) as [[e|n| |] s1], Hw as [Hok1 Hw];
      try (eexists _, 0%nat, s1; rewrite Nat.add_0_r, take_0, app_nil_r;
           split; [done|split; [done|split; [lia|split; [done|done]]]]).
    destruct Hw as [Hn Hw].
    destruct (IH s1 (drop n (c :: data)) (total + n)%nat Hok1) as (r & m & s2 & -> & Hok2 & Hm & Hw2 & Hr);
      [rewrite length_drop; cbn in *; lia|]. rewrite length_drop in Hm, Hr.
    exists r, (n + m)%nat, s2. split; [do 3 f_equal; lia|]. split; [done|]. split; [lia|].
    split; [|intros ?; rewrite Hr by done; lia].
    rewrite Hw2, Hw, <- app_assoc. f_equal. rewrite take_drop_commute.
    transitivity (take n (take (n + m) (c :: data)) ++ drop n (take (n + m) (c :: data))); [|apply take_drop].
    by rewrite take_take, Nat.min_l by lia.
Qed.
End write_all.

Section read_all.
Context {S : Type} `{HS : Stream S} {ok : S -> Prop} {content : S -> list Z} `{!Source S ok content}.

Lemma ReadAll_prefix fuel : forall s n buffer, ok s -> (length buffer <= n)%nat -> (length (content s) < fuel)%nat ->
  exists result data s', ReadAll fuel s n buffer = Some (result, buffer ++ data, s') /\ ok s'
    /\ content s = data ++ content s' /\ (length (buffer ++ data) <= n)%nat
    /\ (succeeded result = true <-> length (buffer ++ data) = n)
    /\ (result = SR_EOS -> content s' = []).
Proof.
  induction fuel as [|fuel IH]; intros s n buffer Hok Hb Hf; [lia|]. cbn [ReadAll].
  destruct (Nat.ltb_spec (length buffer) n) as [Hlt|Hge].
  - pose proof (Read_source s (n - length buffer) Hok ltac:(lia)) as Hr.
    destruct (Read s (n - length buffer)) as [[e|d| |] s1], Hr as [Hok1 Hr].
    2: { destruct Hr as (Hd & Hl & Hc). assert (0 < length d)%nat by (by destruct d; [|cbn; lia]).
      destruct (IH s1 n (buffer ++ d)) as (r & d' & s2 & -> & Hok2 & Hc2 & Hl2 & Hr2 & He2); [done|rewrite length_app; lia| |].
      { rewrite Hc, length_app in Hf. lia. }
      rewrite <- app_assoc in *. exists r, (d ++ d'), s2. by rewrite Hc, Hc2, <- app_assoc. }
    all: eexists _, [], s1; rewrite app_nil_r.
    all: split; [done|split; [done|]];
      match type of Hr with _ /\ _ => destruct Hr as [-> ->] | _ => rewrite Hr end;
      (split; [done|split; [lia|split; [split; [done|lia]|done]]]).
  - exists (SR_SUCCESS tt), [], s. rewrite app_nil_r. repeat split; try done; lia.
Qed.

Lemma ReadLine_loop_reads `{!Ready S ok content} line : forall fuel s rest acc, ok s ->
  content s = line ++ 10 :: rest -> 10 ∉ line -> (length line < fuel)%nat ->
  exists s', ReadLine_loop fuel s acc = Some (SR_SUCCESS tt, acc ++ line, s') /\ ok s' /\ content s' = rest.
Proof.
  induction line as [|c line IH]; intros fuel s rest acc Hok Hc Hn Hf; (destruct fuel as [|fuel]; [cbn in Hf; lia|]).
  all: cbn [ReadLine_loop]; pose proof (Read_source s 1 Hok ltac:(lia)) as Hr;
    pose proof (Read_ready s 1 Hok ltac:(lia) ltac:(by rewrite Hc)) as Hs;
    destruct (Read s 1) as [[e|d| |] s1]; try done; destruct Hr as [Hok1 (Hd & Hl & Hcd)];
    destruct d as [|c1 [|? ?]]; [done| |cbn in Hl; lia]; cbn [hd].
  - rewrite Hc in Hcd. cbn in Hcd. injection Hcd as <- Hrest. exists s1. rewrite app_nil_r. by rewrite Z.eqb_refl.
  - rewrite Hc in Hcd. cbn in Hcd. injection Hcd as <- Hrest. apply not_elem_of_cons in Hn as [Hc10 Hn].
    destruct (Z.eqb_spec c 10); [congruence|].
    destruct (IH fuel s1 rest (acc ++ [c])) as (s' & -> & ? & ?); [done|done|done|cbn in Hf; lia|].
    exists s'. by rewrite <- app_assoc.
Qed.
End read_all.

(** ** Flow *)
Section flow_keeps.
Context {S T : Type} `{HS : Stream S, HT : Stream T} {okS : S -> Prop} {content : S -> list Z}
  {okT : T -> Prop} {written : T -> list Z} `{!Source S okS content, !Sink T okT written}.

Lemma fill_reads fuel : forall s n pending, okS s -> (length (content s) < fuel)%nat ->
  exists s' data e, fill fuel s n pending = Some (s', pending ++ data, e) /\ okS s' /\ content s = data ++ content s'
    /\ match e with
       | inl true => content s' = []
       | inl false => (n <= length (pending ++ data))%nat
       | inr r => succeeded r = false
       end.
Proof.
  induction fuel as [|fuel IH]; intros s n pending Hok Hf; [lia|]. cbn [fill].
  destruct (Nat.ltb_spec (length pending) n) as [Hlt|Hge];
    [|exists s, [], (inl false); rewrite app_nil_r; repeat split; done || lia].
  pose proof (Read_source s (n - length pending) Hok ltac:(lia)) as Hr.
  destruct (Read s (n - length pending)) as [[e|d| |] s1], Hr as [Hok1 Hr].
  2: { destruct Hr as (Hd & Hl & Hc). assert (0 < length d)%nat by (by destruct d; [|cbn; lia]).
    destruct (IH s1 n (pending ++ d)) as (s2 & d' & e & -> & Hok2 & Hc2 & He); [done|rewrite Hc, length_app in Hf; lia|].
    rewrite <- app_assoc in *. exists s2, (d ++ d'), e. by rewrite Hc, Hc2, <- app_assoc. }
  all: eexists s1, [], _; rewrite app_nil_r; split; [done|split; [done|]]; try done.
  by destruct Hr as [-> ->].
Qed.
Lemma drain_writes fuel : forall pending t, okT t -> (length pending <= fuel)%nat ->
  exists r rest t', drain fuel pending t = Some (r, rest, t') /\ okT t'
    /\ written t' ++ rest = written t ++ pending /\ (succeeded r = true <-> rest = []).
Proof.
  induction fuel as [|fuel IH]; intros pending t Hok Hf; destruct pending as [|c pending].
  1, 3: exists (SR_SUCCESS tt), [], t; by repeat split.
  - cbn in Hf. lia.
  - cbn [drain]. pose proof (Write_sink t (c :: pending) Hok ltac:(done)) as Hw.
    destruct (Write t (c :: pending)) as [[e|n| |] t1], Hw as [Hok1 Hw];
      try (eexists _, (c :: pending), t1; split; [done|split; [done|split; [by rewrite Hw|done]]]).
    destruct Hw as [Hn Hw].
    destruct (IH (drop n (c :: pending)) t1 Hok1) as (r & rest & t2 & -> & Hok2 & Hw2 & Hr);
      [rewrite length_drop; cbn in *; lia|].
    exists r, rest, t2. split; [done|]. split; [done|]. split; [|done].
    by rewrite Hw2, Hw, <- app_assoc, take_drop.
Qed.

Lemma Flow_keeps fuel : forall s n pending t, okS s -> okT t -> (0 < n)%nat ->
  (length (pending ++ content s) < fuel)%nat ->
  exists r s' rest t', Flow fuel s n pending t = Some (r, s', rest, t') /\ okS s' /\ okT t'
    /\ written t' ++ rest ++ content s' = written t ++ pending ++ content s
    /\ (succeeded r = true -> rest = [] /\ content s' = []).
Proof.
  induction fuel as [|fuel IH]; intros s n pending t HokS HokT Hn Hf; [lia|]. cbn [Flow].
  rewrite length_app in Hf.
  destruct (fill_reads (Datatypes.S fuel) s n pending HokS) as (s1 & d & e & -> & Hok1 & Hc & He); [lia|].
  cbn [mbind option_bind]. rewrite Hc, length_app in Hf. destruct e as [eos|r].
  2: { exists r, s1, (pending ++ d), t. split; [done|]. split; [done|]. split; [done|]. rewrite Hc, !app_assoc.
    split; [done|]. by rewrite He. }
  destruct (drain_writes (Datatypes.S fuel) (pending ++ d) t HokT) as (r & rest & t1 & -> & Hokt1 & Hw & Hr);
    [rewrite length_app; lia|]. cbn [mbind option_bind].
  destruct (succeeded r) eqn:Er; cbn [negb].
  - pose proof (proj1 Hr eq_refl) as Erest. subst rest. rewrite app_nil_r in Hw. destruct eos.
    + exists (SR_SUCCESS tt), s1, [], t1. split; [done|]. split; [done|]. split; [done|].
      split; [|done]. rewrite Hw, Hc. cbn [app]. by rewrite !app_assoc.
    + rewrite length_app in He.
      destruct (IH s1 n [] t1 Hok1 Hokt1 Hn) as (r' & s2 & rest & t2 & -> & ? & ? & Hk & ?); [cbn; lia|].
      exists r', s2, rest, t2. split; [done|]. split; [done|]. split; [done|]. split; [|done].
      rewrite Hk, Hw, Hc. cbn [app]. by rewrite !app_assoc.
  - exists r, s1, rest, t1. split; [done|]. split; [done|]. split; [done|]. split; [|by rewrite Er].
    rewrite app_assoc, Hw, Hc. by rewrite !app_assoc.
Qed.
End flow_keeps.

(** ** The streams of this file keep the promises *)
Definition StringStream_ok (s : StringStream) : Prop := (read_pos_ s <= length (str_ s))%nat.
Definition StringStream_content (s : StringStream) : list Z := drop (read_pos_ s) (str_ s).
#[global] Instance StringStream_source : Source StringStream StringStream_ok StringStream_content.
Proof.
  split. intros [str pos ro] n Hok Hn. unfold StringStream_ok, StringStream_content in *. cbn -[take drop] in *.
  unfold StringStream_Read. cbn -[take drop Nat.min]. case_if; propify; cbn -[take drop].
  - split; [done|]. by rewrite drop_ge by lia.
  - split; [lia|]. unfold slice. split; [|split].
    + intros Hl%(f_equal length). rewrite length_take, length_drop in Hl. cbn in Hl. lia.
    + rewrite length_take. lia.
    + by rewrite <- (drop_drop str), take_drop.
Qed.
#[global] Instance StringStream_ready : Ready StringStream StringStream_ok StringStream_content.
Proof.
  intros [str pos ro] n Hok Hn Hc. unfold StringStream_ok, StringStream_content in *. cbn -[take drop] in *.
  unfold StringStream_Read. cbn -[take drop Nat.min]. case_if; propify; [|done].
  destruct Hc. apply drop_ge. lia.
Qed.
#[global] Instance StringStream_sink : Sink StringStream StringStream_ok str_.
Proof.
  split. intros [str pos ro] d Hok Hd. unfold StringStream_ok in *. cbn in *. unfold StringStream_Write. cbn.
  assert (0 < length d)%nat by (by destruct d; [|cbn; lia]).
  destruct ro; cbn; [done|]. rewrite length_app. split; [lia|]. split; [lia|]. by rewrite firstn_all.
Qed.

(** A segment of a source is the source of what lies in it. *)
Section segment_source.
Context {S : Type} `{HS : Stream S, HK : Seekable S} {ok : S -> Prop} {content : S -> list Z} `{!Source S ok content}.
Definition segment_ok (s : StreamSegment S) : Prop := ok (stream_ s).
Definition segment_content (s : StreamSegment S) : list Z :=
  match length_ s with Some length => take (length - pos_ s) (content (stream_ s)) | None => content (stream_ s) end.
#[global] Instance StreamSegment_source : Source (StreamSegment S) segment_ok segment_content.
Proof.
  split. intros [s start pos len] n Hok Hn. unfold segment_ok, segment_content in *. cbn -[take drop] in *.
  unfold StreamSegment_Read. cbn -[take drop Nat.min]. destruct len as [len|].
  - destruct (Nat.leb_spec len pos) as [Hle|Hlt]; cbn -[take].
    { split; [done|]. by replace (len - pos)%nat with 0%nat by lia. }
    pose proof (Read_source s (n `min` (len - pos)) Hok ltac:(lia)) as Hr.
    destruct (Read s (n `min` (len - pos))) as [[e|d| |] s1], Hr as [Hok1 Hr]; cbn -[take] in *; (split; [done|]);
      try (by rewrite Hr); try (destruct Hr as [-> ->]; by rewrite take_nil).
    destruct Hr as (Hd & Hl & Hc). split; [done|]. split; [lia|].
    rewrite Hc, take_app_ge by lia. do 2 f_equal. lia.
  - pose proof (Read_source s n Hok Hn) as Hr. by destruct (Read s n) as [[e|d| |] s1].
Qed.
End segment_source.

(** ** Theorems *)
Section theorems.
Context {S T : Type} `{HS : Stream S, HT : Stream T} {okS : S -> Prop} {content : S -> list Z}
  {okT : T -> Prop} {written : T -> list Z} `{!Source S okS content, !Sink T okT written}.

(** C12. [Flow] ends, and loses, duplicates and reorders nothing, whatever the
    streams answer: what the sink got, what stays in the buffer and what is left in
    the source are in this order what there was before; after a success all of it
    is in the sink. *)
Theorem Flow_loses_nothing source n pending sink : okS source -> okT sink -> (0 < n)%nat ->
  exists result source' rest sink',
    Flow (1 + length (pending ++ content source)) source n pending sink = Some (result, source', rest, sink') /\
    written sink' ++ rest ++ content source' = written sink ++ pending ++ content source /\
    (succeeded result = true -> written sink' = written sink ++ pending ++ content source).
Proof.
  intros HokS HokT Hn.
  destruct (Flow_keeps (1 + length (pending ++ content source)) source n pending sink HokS HokT Hn)
    as (r & s' & rest & t' & Hf & _ & _ & Hk & Hr); [lia|].
  exists r, s', rest, t'. split; [exact Hf|]. split; [exact Hk|]. intros H'. destruct (Hr H') as [-> E].
  by rewrite <- Hk, E, app_nil_r.
Qed.
End theorems.

(** A line is read up to its end. *)
Lemma ReadLine_reads {S : Type} `{HS : Stream S} {ok : S -> Prop} {content : S -> list Z}
  `{!Source S ok content, !Ready S ok content} s line rest :
  ok s -> content s = line ++ 10 :: rest -> 10 ∉ line ->
  exists s', ReadLine (1 + length line) s = Some (SR_SUCCESS tt, line, s') /\ ok s' /\ content s' = rest.
Proof.
  intros Hok Hc Hn. unfold ReadLine.
  destruct (ReadLine_loop_reads line (1 + length line) s rest [] Hok Hc Hn) as (s' & -> & ? & ?); [lia|].
  exists s'. split; [|done]. by destruct line.
Qed.

Definition demo_source : StringStream := StringStream_new (bytes "the source") true.
Definition demo_sink : StringStream := StringStream_new (bytes "had: ") false.
Lemma Flow_loses_nothing_witness :
  exists result source' rest sink',
    Flow (1 + length (bytes "left over, " ++ StringStream_content demo_source)) demo_source 4 (bytes "left over, ") demo_sink
    = Some (result, source', rest, sink') /\
    str_ sink' ++ rest ++ StringStream_content source'
    = str_ demo_sink ++ bytes "left over, " ++ StringStream_content demo_source /\
    (succeeded result = true ->
      str_ sink' = str_ demo_sink ++ bytes "left over, " ++ StringStream_content demo_source).
Proof.
  apply (Flow_loses_nothing demo_source 4 (bytes "left over, ") demo_sink); unfold StringStream_ok; cbn; lia.
Defined.
Example Flow_example :
  (fun '(r, _, rest, sink) => (r, rest, str_ sink)) <$> Flow 22 demo_source 4 (bytes "left over, ") demo_sink
  = Some (SR_SUCCESS tt, [], bytes "had: left over, the source").
Proof. by vm_compute. Qed.
