(* ===== verification/FifoBuffer.v ===== *)
(** * base/stream.cpp 812-1020: FifoBuffer, a ring buffer

    The bytes from [read_position_] on, around the end of the array, are the data
    and then the room.  The specification is a queue of bounded size; every
    operation refines it, the events posted to the owner's thread included.  An
    array fresh from [new] holds arbitrary bytes, which [new_char] stands for.
    [size_t] has 32 bits; sums that involve an argument wrap. *)
From S2P Require Import Prelude Stream.

Record FifoBuffer := mkFifoBuffer {
  state_ : StreamState; buffer_ : list Z; buffer_length_ : nat; data_length_ : nat; read_position_ : nat;
  events : list Z }.

Definition size_add (a b : nat) : nat := Z.to_nat (u32 (Z.of_nat a + Z.of_nat b)).
Definition size_sub (a b : nat) : nat := Z.to_nat (u32 (Z.of_nat a - Z.of_nat b)).

(** [PostEvent(owner_, event, 0)]. *)
Definition PostEvent (event : Z) (b : FifoBuffer) : FifoBuffer :=
  mkFifoBuffer (state_ b) (buffer_ b) (buffer_length_ b) (data_length_ b) (read_position_ b) (events b ++ [event]).
Definition set_data (data_length read_position : nat) (b : FifoBuffer) : FifoBuffer :=
  mkFifoBuffer (state_ b) (buffer_ b) (buffer_length_ b) data_length read_position (events b).
Definition set_buffer (buffer : list Z) (b : FifoBuffer) : FifoBuffer :=
  mkFifoBuffer (state_ b) buffer (buffer_length_ b) (data_length_ b) (read_position_ b) (events b).

Section fifo.
Variable new_char : nat -> list Z.

Definition FifoBuffer_new (size : nat) : FifoBuffer := mkFifoBuffer SS_OPEN (new_char size) size 0 0 [].

Definition GetBuffered (b : FifoBuffer) : nat := data_length_ b.
Definition GetWriteRemaining (b : FifoBuffer) : nat := (buffer_length_ b - data_length_ b)%nat.
Definition SetCapacity (b : FifoBuffer) (size : nat) : bool * FifoBuffer :=
  if (size <? data_length_ b)%nat then (false, b)
  else if negb (size =? buffer_length_ b)%nat then
    let buffer := new_char size in
    let copy := data_length_ b in
    let tail_copy := (copy `min` (buffer_length_ b - read_position_ b))%nat in
    let buffer := write_at 0 (slice (read_position_ b) tail_copy (buffer_ b)) buffer in
    let buffer := write_at tail_copy (slice 0 (copy - tail_copy) (buffer_ b)) buffer in
    (true, mkFifoBuffer (state_ b) buffer size (data_length_ b) 0 (events b))
  else (true, b).

Definition ReadOffsetLocked (b : FifoBuffer) (bytes offset : nat) : StreamResult (list Z) :=
  if (data_length_ b <=? offset)%nat then if decide (state_ b = SS_CLOSED) then SR_EOS else SR_BLOCK
  else
    let available := (data_length_ b - offset)%nat in
    let read_position := ((read_position_ b + offset) mod buffer_length_ b)%nat in
    let copy := (bytes `min` available)%nat in
    let tail_copy := (copy `min` (buffer_length_ b - read_position))%nat in
    SR_SUCCESS (slice read_position tail_copy (buffer_ b) ++ slice 0 (copy - tail_copy) (buffer_ b)).
Definition WriteOffsetLocked (b : FifoBuffer) (data : list Z) (offset : nat) : StreamResult nat * FifoBuffer :=
  if decide (state_ b = SS_CLOSED) then (SR_EOS, b)
  else if (buffer_length_ b <=? size_add (data_length_ b) offset)%nat then (SR_BLOCK, b)
  else
    let available := size_sub (buffer_length_ b - data_length_ b) offset in
    let write_position := (size_add (read_position_ b + data_length_ b) offset mod buffer_length_ b)%nat in
    let copy := (length data `min` available)%nat in
    let tail_copy := (copy `min` (buffer_length_ b - write_position))%nat in
    let buffer := write_at write_position (take tail_copy data) (buffer_ b) in
    let buffer := write_at 0 (slice tail_copy (copy - tail_copy) data) buffer in
    (SR_SUCCESS copy, set_buffer buffer b).
Definition ReadOffset := ReadOffsetLocked.
Definition WriteOffset := WriteOffsetLocked.

Definition Fifo_Read (b : FifoBuffer) (bytes : nat) : StreamResult (list Z) * FifoBuffer :=
  let was_writable := (data_length_ b <? buffer_length_ b)%nat in
  let result := ReadOffsetLocked b bytes 0 in
  match result with
  | SR_SUCCESS data =>
    let copy := length data in
    let b := set_data (data_length_ b - copy) ((read_position_ b + copy) mod buffer_length_ b)%nat b in
    (result, if negb was_writable && (0 <? copy)%nat then PostEvent SE_WRITE b else b)
  | _ => (result, b)
  end.
Definition Fifo_Write (b : FifoBuffer) (data : list Z) : StreamResult nat * FifoBuffer :=
  let was_readable := (0 <? data_length_ b)%nat in
  let '(result, b) := WriteOffsetLocked b data 0 in
  match result with
  | SR_SUCCESS copy =>
    let b := set_data (data_length_ b + copy) (read_position_ b) b in
    (result, if negb was_readable && (0 <? copy)%nat then PostEvent SE_READ b else b)
  | _ => (result, b)
  end.
Definition Fifo_Close (b : FifoBuffer) : FifoBuffer :=
  mkFifoBuffer SS_CLOSED (buffer_ b) (buffer_length_ b) (data_length_ b) (read_position_ b) (events b).

(** The bytes that the pointer and the size of [GetReadData] stand for. *)
Definition GetReadData (b : FifoBuffer) : list Z :=
  let size := if (read_position_ b + data_length_ b <=? buffer_length_ b)%nat then data_length_ b
              else (buffer_length_ b - read_position_ b)%nat in
  slice (read_position_ b) size (buffer_ b).
(** A remainder modulo zero is undefined. *)
Definition ConsumeReadData (b : FifoBuffer) (size : nat) : outcome FifoBuffer :=
  let was_writable := (data_length_ b <? buffer_length_ b)%nat in
  if (buffer_length_ b =? 0)%nat then Undefined
  else
    let b := set_data (size_sub (data_length_ b) size) (size_add (read_position_ b) size mod buffer_length_ b)%nat b in
    Done (if negb was_writable && (0 <? size)%nat then PostEvent SE_WRITE b else b).
(** The offset and the size of the room that is handed out; [None] is null. *)
Definition GetWriteBuffer (b : FifoBuffer) : outcome (option (nat * nat) * FifoBuffer) :=
  if decide (state_ b = SS_CLOSED) then Done (None, b)
  else
    let b := if (data_length_ b =? 0)%nat then set_data 0 0 b else b in
    if (buffer_length_ b =? 0)%nat then Undefined
    else
      let write_position := ((read_position_ b + data_length_ b) mod buffer_length_ b)%nat in
      let size := if (read_position_ b <? write_position)%nat || (data_length_ b =? 0)%nat
                  then (buffer_length_ b - write_position)%nat else (read_position_ b - write_position)%nat in
      Done (Some (write_position, size), b).
Definition ConsumeWriteBuffer (b : FifoBuffer) (size : nat) : FifoBuffer :=
  let was_readable := (0 <? data_length_ b)%nat in
  let b := set_data (size_add (data_length_ b) size) (read_position_ b) b in
  if negb was_readable && (0 <? size)%nat then PostEvent SE_READ b else b.

#[global] Instance FifoBuffer_stream : Stream FifoBuffer := {
  GetState := state_; Read := Fifo_Read; Write := Fifo_Write; Close := Fifo_Close }.

(** ** The specification: a bounded queue

    [room] are the cells behind the data, which [WriteOffset] may fill before
    [ConsumeWriteBuffer] makes data of them. *)
Record Queue := mkQueue { contents : list Z; room : list Z; closed : bool; posted : list Z }.

Inductive Op :=
  | OpRead (bytes : nat) | OpWrite (data : list Z) | OpReadOffset (bytes offset : nat)
  | OpWriteOffset (data : list Z) (offset : nat) | OpConsumeRead (size : nat) | OpConsumeWrite (size : nat)
  | OpSetCapacity (size : nat) | OpClose | OpGetBuffered | OpGetWriteRemaining.
Inductive Out := OutRead (r : StreamResult (list Z)) | OutWrite (r : StreamResult nat) | OutBool (b : bool)
  | OutSize (n : nat) | OutNone.

Definition fifo_op (op : Op) (b : FifoBuffer) : outcome (Out * FifoBuffer) :=
  match op with
  | OpRead n => let '(r, b) := Fifo_Read b n in Done (OutRead r, b)
  | OpWrite data => let '(r, b) := Fifo_Write b data in Done (OutWrite r, b)
  | OpReadOffset n offset => Done (OutRead (ReadOffset b n offset), b)
  | OpWriteOffset data offset => let '(r, b) := WriteOffset b data offset in Done (OutWrite r, b)
  | OpConsumeRead n => b ← ConsumeReadData b n; Done (OutNone, b)
  | OpConsumeWrite n => Done (OutNone, ConsumeWriteBuffer b n)
  | OpSetCapacity n => let '(r, b) := SetCapacity b n in Done (OutBool r, b)
  | OpClose => Done (OutNone, Fifo_Close b)
  | OpGetBuffered => Done (OutSize (GetBuffered b), b)
  | OpGetWriteRemaining => Done (OutSize (GetWriteRemaining b), b)
  end.

Definition event (happens : bool) (e : Z) (q : Queue) : list Z := posted q ++ (if happens then [e] else []).
(** The first [n] bytes leave; their cells are room again. *)
Definition take_out (n : nat) (q : Queue) : Queue :=
  mkQueue (drop n (contents q)) (room q ++ take n (contents q)) (closed q)
    (event (bool_decide (room q = []) && (0 <? n)%nat) SE_WRITE q).
(** The first [n] cells of the room become data. *)
Definition put_in (n : nat) (q : Queue) : Queue :=
  mkQueue (contents q ++ take n (room q)) (drop n (room q)) (closed q)
    (event (bool_decide (contents q = []) && (0 <? n)%nat) SE_READ q).
Definition set_room (cells : list Z) (q : Queue) : Queue := mkQueue (contents q) cells (closed q) (posted q).

Definition queue_op (op : Op) (q : Queue) : Out * Queue :=
  let empty : forall A, StreamResult A := fun A => if closed q then SR_EOS else SR_BLOCK in
  match op with
  | OpRead n =>
    match contents q with
    | [] => (OutRead (empty _), q)
    | _ => (OutRead (SR_SUCCESS (take n (contents q))), take_out (n `min` length (contents q))%nat q)
    end
  | OpReadOffset n offset =>
    match drop offset (contents q) with
    | [] => (OutRead (empty _), q)
    | data => (OutRead (SR_SUCCESS (take n data)), q)
    end
  | OpWrite data =>
    if closed q then (OutWrite SR_EOS, q)
    else match room q with
    | [] => (OutWrite SR_BLOCK, q)
    | _ =>
      let copy := (length data `min` length (room q))%nat in
      (OutWrite (SR_SUCCESS copy), put_in copy (set_room (write_at 0 (take copy data) (room q)) q))
    end
  | OpWriteOffset data offset =>
    if closed q then (OutWrite SR_EOS, q)
    else match drop offset (room q) with
    | [] => (OutWrite SR_BLOCK, q)
    | cells =>
      let copy := (length data `min` length cells)%nat in
      (OutWrite (SR_SUCCESS copy), set_room (write_at offset (take copy data) (room q)) q)
    end
  | OpConsumeRead n => (OutNone, take_out n q)
  | OpConsumeWrite n => (OutNone, put_in n q)
  | OpSetCapacity n =>
    if (n <? length (contents q))%nat then (OutBool false, q)
    else (OutBool true,
      if (n =? length (contents q) + length (room q))%nat then q
      else set_room (drop (length (contents q)) (new_char n)) q)
  | OpClose => (OutNone, mkQueue (contents q) (room q) true (posted q))
  | OpGetBuffered => (OutSize (length (contents q)), q)
  | OpGetWriteRemaining => (OutSize (length (room q)), q)
  end.
(** What the code asserts, and sizes that an array can have. *)
Definition allowed (op : Op) (q : Queue) : Prop :=
  match op with
  | OpConsumeRead n => (n <= length (contents q))%nat /\ contents q ++ room q <> []
  | OpConsumeWrite n => (n <= length (room q))%nat
  | OpSetCapacity n => Z.of_nat n < 2 ^ 30
  | OpWriteOffset _ offset => Z.of_nat offset < 2 ^ 31
  | _ => True
  end.
End fifo.

(** ** Reading and writing around the end of the array *)
Lemma mod_around x n : (x < n + n)%nat -> (x mod n)%nat = if decide (x < n)%nat then x else (x - n)%nat.
Proof.
  intros Hx. destruct (decide (x < n)%nat); [by apply Nat.mod_small|].
  replace x with ((x - n) + 1 * n)%nat at 1 by lia. rewrite Nat.Div0.mod_add. apply Nat.mod_small. lia.
Qed.

Definition cells_from (position : nat) (buffer : list Z) : list Z := drop position buffer ++ take position buffer.
Lemma length_cells position l : length (cells_from position l) = length l.
Proof. unfold cells_from. rewrite length_app, length_drop, length_take. lia. Qed.
Lemma lookup_cells position l i : (position < length l)%nat -> (i < length l)%nat ->
  cells_from position l !! i = l !! ((position + i) mod length l)%nat.
Proof.
  intros Hp Hi. rewrite mod_around by lia. unfold cells_from.
  destruct (decide (position + i < length l)%nat).
  - by rewrite lookup_app_l, lookup_drop by (rewrite length_drop; lia).
  - rewrite lookup_app_r by (rewrite length_drop; lia). rewrite length_drop, lookup_take_lt by lia. f_equal. lia.
Qed.
Ltac by_lookup := repeat case_decide; try lia; try done; try (f_equal; lia).

Lemma read_around position l i n : (position < length l)%nat -> (i + n <= length l)%nat ->
  let p := ((position + i) mod length l)%nat in
  let t := (n `min` (length l - p))%nat in
  slice p t l ++ slice 0 (n - t) l = slice i n (cells_from position l).
Proof.
  intros Hp Hi p t.
  assert (Hpm : (p < length l)%nat) by (apply Nat.mod_upper_bound; lia).
  assert (Hpv : (p = position + i \/ p + length l = position + i)%nat).
  { unfold p. rewrite mod_around by lia. case_decide; lia. }
  apply list_eq. intros j. rewrite lookup_slice. destruct (decide (j < n)%nat) as [Hj|Hj].
  - rewrite lookup_cells by lia. rewrite mod_around by lia. destruct (decide (j < t)%nat).
    + rewrite lookup_app_l, lookup_slice by (rewrite length_slice; lia). by_lookup.
    + rewrite lookup_app_r, length_slice, lookup_slice by (rewrite ?length_slice; lia). by_lookup.
  - apply lookup_ge_None. rewrite length_app, !length_slice by lia. lia.
Qed.
Lemma write_around position l i d : (position < length l)%nat -> (i + length d <= length l)%nat ->
  let p := ((position + i) mod length l)%nat in
  let t := (length d `min` (length l - p))%nat in
  let l' := write_at 0 (slice t (length d - t) d) (write_at p (take t d) l) in
  length l' = length l /\ cells_from position l' = write_at i d (cells_from position l).
Proof.
  intros Hp Hi p t l'.
  assert (Hpm : (p < length l)%nat) by (apply Nat.mod_upper_bound; lia).
  assert (Hpv : (p = position + i \/ p + length l = position + i)%nat).
  { unfold p. rewrite mod_around by lia. case_decide; lia. }
  assert (length (take t d) = t) as Ht by (rewrite length_take; lia).
  assert (length (slice t (length d - t) d) = length d - t)%nat as Hs by (rewrite length_slice; lia).
  assert (length (write_at p (take t d) l) = length l) as Hl1 by (rewrite length_write_at; lia).
  assert (length l' = length l) as Hl by (unfold l'; rewrite length_write_at; lia).
  split; [exact Hl|]. apply list_eq. intros j. destruct (decide (j < length l)%nat) as [Hj|Hj].
  - rewrite lookup_cells, Hl by lia. rewrite mod_around by lia.
    unfold l'. rewrite !lookup_write_at by (rewrite ?length_cells; lia). rewrite Ht, Hs.
    rewrite (lookup_cells position l) by lia. rewrite (mod_around (position + j)) by lia.
    rewrite lookup_slice. repeat case_decide; try lia; try done; rewrite ?lookup_take_lt by lia; f_equal; lia.
  - rewrite !lookup_ge_None_2; [done|..]; rewrite ?length_write_at, length_cells; rewrite ?length_cells; lia.
Qed.
Lemma cells_advance position l n : (position < length l)%nat -> (n <= length l)%nat ->
  cells_from ((position + n) mod length l) l = drop n (cells_from position l) ++ take n (cells_from position l).
Proof.
  intros Hp Hn. unfold cells_from. rewrite mod_around by lia. case_decide.
  - rewrite drop_app_le, take_app_le by (rewrite length_drop; lia).
    rewrite drop_drop, <- app_assoc. f_equal. rewrite <- (take_drop position (take (position + n) l)).
    by rewrite take_take, Nat.min_l, skipn_firstn_comm, Nat.add_comm, Nat.add_sub by lia.
  - rewrite drop_app_ge, take_app_ge by (rewrite length_drop; lia). rewrite !length_drop.
    replace (n - (length l - position))%nat with (position + n - length l)%nat by lia.
    rewrite take_take, Nat.min_l by lia. rewrite app_assoc. f_equal.
    transitivity (drop (position + n - length l) (take position l ++ drop position l)); [by rewrite take_drop|].
    rewrite drop_app_le by (rewrite length_take; lia). done.
Qed.

Lemma slice_within t n (l : list Z) : (t <= n)%nat -> slice t (n - t) (take n l) = slice t (n - t) l.
Proof. intros Ht. unfold slice. rewrite skipn_firstn_comm, take_take. by rewrite Nat.min_id. Qed.
Lemma write_at_behind d i (xs l : list Z) : (d + i + length xs <= length l)%nat ->
  take d (write_at (d + i) xs l) = take d l /\ drop d (write_at (d + i) xs l) = write_at i xs (drop d l).
Proof.
  intros Hl. unfold write_at. split.
  - rewrite take_app_le by (rewrite length_take; lia). rewrite take_take. f_equal. lia.
  - rewrite drop_app_le by (rewrite length_take; lia).
    rewrite skipn_firstn_comm, drop_drop, Nat.add_assoc. do 2 f_equal. lia.
Qed.

Lemma size_add_id a b : Z.of_nat a + Z.of_nat b < 2 ^ 32 -> size_add a b = (a + b)%nat.
Proof. intros. unfold size_add. rewrite u32_id by word_lia. lia. Qed.
Lemma size_sub_id a b : Z.of_nat a < 2 ^ 31 -> (b <= a)%nat -> size_sub a b = (a - b)%nat.
Proof. intros. unfold size_sub. rewrite u32_id by word_lia. lia. Qed.

(** ** The buffer as a queue *)
Record fifo_ok (b : FifoBuffer) : Prop := {
  ok_length : length (buffer_ b) = buffer_length_ b;
  ok_data : (data_length_ b <= buffer_length_ b)%nat;
  ok_position : (read_position_ b < buffer_length_ b)%nat \/ (buffer_length_ b = 0%nat /\ read_position_ b = 0%nat);
  ok_size : Z.of_nat (buffer_length_ b) < 2 ^ 30 }.
Definition cells (b : FifoBuffer) : list Z := cells_from (read_position_ b) (buffer_ b).
Definition queue_of (b : FifoBuffer) : Queue :=
  mkQueue (take (data_length_ b) (cells b)) (drop (data_length_ b) (cells b))
    (bool_decide (state_ b = SS_CLOSED)) (events b).

Section refinement.
Variables (b : FifoBuffer).
Hypothesis (Hok : fifo_ok b).

Lemma length_all_cells : length (cells b) = buffer_length_ b.
Proof. unfold cells. by rewrite length_cells, (ok_length _ Hok). Qed.
Lemma length_queued : length (contents (queue_of b)) = data_length_ b.
Proof. cbn. rewrite length_take, length_all_cells. pose proof (ok_data _ Hok). lia. Qed.
Lemma length_room : length (room (queue_of b)) = (buffer_length_ b - data_length_ b)%nat.
Proof. cbn. by rewrite length_drop, length_all_cells. Qed.

Lemma ReadOffset_spec n offset :
  ReadOffsetLocked b n offset =
  match drop offset (contents (queue_of b)) with
  | [] => if closed (queue_of b) then SR_EOS else SR_BLOCK
  | data => SR_SUCCESS (take n data)
  end.
Proof.
  pose proof length_queued as Hc. pose proof (ok_data _ Hok). unfold ReadOffsetLocked.
  destruct (Nat.leb_spec (data_length_ b) offset) as [Hle|Hlt].
  - rewrite drop_ge by lia. cbn [closed queue_of]. case_bool_decide; by case_decide.
  - destruct (drop offset (contents (queue_of b))) as [|c data] eqn:Ed.
    { apply (f_equal length) in Ed. rewrite length_drop in Ed. cbn in Ed, Hc. lia. }
    f_equal. rewrite <- Ed. destruct (ok_position _ Hok) as [Hp|[? ?]]; [|lia].
    rewrite <- (ok_length _ Hok) in *. rewrite read_around by lia. unfold slice, cells. cbn.
    by rewrite skipn_firstn_comm, take_take.
Qed.
Lemma WriteOffset_spec data offset : Z.of_nat offset < 2 ^ 31 -> exists b', WriteOffsetLocked b data offset =
    (if closed (queue_of b) then SR_EOS else
     match drop offset (room (queue_of b)) with
     | [] => SR_BLOCK
     | free => SR_SUCCESS (length data `min` length free)%nat
     end, b') /\ fifo_ok b' /\ data_length_ b' = data_length_ b /\ read_position_ b' = read_position_ b /\
    queue_of b' = if closed (queue_of b) then queue_of b else
      set_room (write_at offset (take (length data `min` (length (room (queue_of b)) - offset)) data) (room (queue_of b)))
        (queue_of b).
Proof.
  intros Ho. pose proof length_room as Hr. pose proof (ok_data _ Hok). pose proof (ok_size _ Hok).
  unfold WriteOffsetLocked.
  change (closed (queue_of b)) with (bool_decide (state_ b = SS_CLOSED)).
  destruct (decide (state_ b = SS_CLOSED)) as [Hs|Hs];
    [rewrite bool_decide_eq_true_2 by done; by exists b|rewrite bool_decide_eq_false_2 by done].
  rewrite size_add_id by lia. destruct (Nat.leb_spec (buffer_length_ b) (data_length_ b + offset)) as [Hle|Hlt].
  - exists b. rewrite drop_ge by lia. split; [done|]. split; [done|]. split; [done|]. split; [done|].
    rewrite Hr. replace (buffer_length_ b - data_length_ b - offset)%nat with 0%nat by lia.
    rewrite Nat.min_0_r, take_0. unfold write_at. cbn [length app]. rewrite Nat.add_0_r, take_drop. by destruct (queue_of b).
  - destruct (ok_position _ Hok) as [Hp|[? ?]]; [|lia].
    rewrite !size_add_id, size_sub_id by lia. set (copy := (length data `min` _)%nat).
    destruct (drop offset (room (queue_of b))) as [|c free] eqn:Ed.
    { apply (f_equal length) in Ed. rewrite length_drop in Ed. cbn [length] in Ed. lia. }
    rewrite <- Ed. rewrite length_drop, Hr. fold copy.
    assert (Hcopy : (copy <= length data /\ data_length_ b + offset + copy <= buffer_length_ b)%nat) by (unfold copy; lia).
    assert (Hlc : length (take copy data) = copy) by (rewrite length_take; lia).
    destruct (write_around (read_position_ b) (buffer_ b) (data_length_ b + offset) (take copy data)) as [Hl Hc];
      [rewrite (ok_length _ Hok); lia|rewrite Hlc, (ok_length _ Hok); lia|].
    rewrite Hlc, (ok_length _ Hok), Nat.add_assoc, take_take, (Nat.min_l _ copy) in Hl, Hc by lia.
    rewrite slice_within in Hl, Hc by lia. eexists. split; [done|].
    split; [by constructor; cbn; auto|]. split; [done|]. split; [done|].
    unfold queue_of, set_room, cells. cbn -[take drop]. rewrite Hc.
    destruct (write_at_behind (data_length_ b) offset (take copy data) (cells b)) as [Ht Hd];
      [rewrite length_all_cells; lia|]. fold (cells b).
    rewrite Ht, Hd. f_equal.
Qed.

Lemma room_empty : bool_decide (room (queue_of b) = []) = negb (data_length_ b <? buffer_length_ b)%nat.
Proof.
  pose proof length_room as Hr. pose proof (ok_data _ Hok).
  destruct (Nat.ltb_spec (data_length_ b) (buffer_length_ b)); cbn [negb].
  - apply bool_decide_eq_false_2. intros E. rewrite E in Hr. cbn in Hr. lia.
  - apply bool_decide_eq_true_2. apply nil_length_inv. lia.
Qed.
Lemma contents_empty : bool_decide (contents (queue_of b) = []) = negb (0 <? data_length_ b)%nat.
Proof.
  pose proof length_queued as Hc. destruct (Nat.ltb_spec 0 (data_length_ b)); cbn [negb].
  - apply bool_decide_eq_false_2. intros E. rewrite E in Hc. cbn in Hc. lia.
  - apply bool_decide_eq_true_2. apply nil_length_inv. lia.
Qed.
Lemma PostEvent_ok (c : bool) e b' : fifo_ok b' -> let b2 := if c then PostEvent e b' else b' in
  fifo_ok b2 /\ queue_of b2 = mkQueue (contents (queue_of b')) (room (queue_of b')) (closed (queue_of b')) (event c e (queue_of b')).
Proof.
  intros [? ? ? ?]. destruct c; [by repeat split|]. split; [by repeat split|]. cbn. by rewrite app_nil_r.
Qed.

Lemma advance n : (n <= data_length_ b)%nat -> buffer_length_ b <> 0%nat ->
  let b' := set_data (data_length_ b - n) ((read_position_ b + n) mod buffer_length_ b)%nat b in
  let b2 := if negb (data_length_ b <? buffer_length_ b)%nat && (0 <? n)%nat then PostEvent SE_WRITE b' else b' in
  fifo_ok b2 /\ queue_of b2 = take_out n (queue_of b).
Proof.
  intros Hn H0 b' b2. pose proof length_queued as Hc. destruct Hok as [Hl Hd Hp Hs].
  assert (Hok' : fifo_ok b').
  { constructor; cbn; try done; [lia|]. left. by apply Nat.mod_upper_bound. }
  unfold b2. destruct (PostEvent_ok (negb (data_length_ b <? buffer_length_ b)%nat && (0 <? n)%nat) SE_WRITE b' Hok') as [? ->].
  split; [done|]. unfold take_out. rewrite room_empty. unfold event. cbn [posted queue_of].
  assert (Hadv : cells b' = drop n (cells b) ++ take n (cells b)).
  { unfold cells. cbn. rewrite <- Hl. apply cells_advance; lia. }
  pose proof length_all_cells as Ha. f_equal; cbn [contents room queue_of]; rewrite Hadv; cbn [data_length_ b' set_data].
  - rewrite take_app_le by (rewrite length_drop; lia). symmetry. apply skipn_firstn_comm.
  - rewrite drop_app_le, drop_drop by (rewrite length_drop; lia).
    rewrite take_take, Nat.min_l by lia. do 2 f_equal. lia.
Qed.
Lemma extend n : (n <= buffer_length_ b - data_length_ b)%nat ->
  let b' := set_data (data_length_ b + n) (read_position_ b) b in
  let b2 := if negb (0 <? data_length_ b)%nat && (0 <? n)%nat then PostEvent SE_READ b' else b' in
  fifo_ok b2 /\ queue_of b2 = put_in n (queue_of b).
Proof.
  intros Hn b' b2. destruct Hok as [Hl Hd Hp Hs].
  assert (Hok' : fifo_ok b') by (constructor; cbn; try done; lia).
  unfold b2. destruct (PostEvent_ok (negb (0 <? data_length_ b)%nat && (0 <? n)%nat) SE_READ b' Hok') as [? ->].
  split; [done|]. unfold put_in. rewrite contents_empty. unfold event. cbn [posted queue_of].
  f_equal; cbn [contents room queue_of].
  - unfold cells. cbn. by rewrite take_take_drop.
  - unfold cells. cbn. by rewrite drop_drop.
Qed.
End refinement.

Section operations.
Variable new_char : nat -> list Z.
Hypothesis length_new_char : forall n, length (new_char n) = n.
Variable b : FifoBuffer.
Hypothesis Hok : fifo_ok b.

Ltac give := do 2 eexists; split; [reflexivity|split; [assumption|]].
(** What an operation must do: succeed, keep the invariant, and be the queue's. *)
Definition refines (op : Op) : Prop := exists o b',
  fifo_op new_char op b = Done (o, b') /\ fifo_ok b' /\ queue_op new_char op (queue_of b) = (o, queue_of b').

Lemma set_room_same q l : room q = l -> set_room l q = q.
Proof. intros <-. by destruct q. Qed.
Lemma Read_refines n : refines (OpRead n).
Proof.
  unfold refines. cbn [fifo_op queue_op]. unfold Fifo_Read. rewrite (ReadOffset_spec b Hok), drop_0.
  pose proof (length_queued b Hok) as Hc. pose proof (ok_data _ Hok).
  destruct (contents (queue_of b)) as [|c l] eqn:Ec.
  { destruct (closed (queue_of b)); by give. }
  rewrite <- Ec in *. cbn [length] in *.
  assert (Hl : length (take n (contents (queue_of b))) = (n `min` length (contents (queue_of b)))%nat) by apply length_take.
  destruct (advance b Hok (length (take n (contents (queue_of b))))) as [Hok' Hq]; [lia| |].
  { intros E. rewrite Ec in Hc. cbn in Hc. lia. }
  do 2 eexists. split; [done|]. split; [exact Hok'|]. by rewrite Hq, Hl.
Qed.
Lemma Write_refines data : refines (OpWrite data).
Proof.
  unfold refines. cbn [fifo_op queue_op]. unfold Fifo_Write.
  destruct (WriteOffset_spec b Hok data 0 ltac:(lia)) as (b1 & -> & Hok1 & Hd1 & Hp1 & Hq1).
  rewrite drop_0, Nat.sub_0_r in *. pose proof (length_room b Hok) as Hr.
  destruct (closed (queue_of b)) eqn:Hcl; [exists (OutWrite SR_EOS), b1; by rewrite Hq1|].
  destruct (room (queue_of b)) as [|c l] eqn:Er.
  { exists (OutWrite SR_BLOCK), b1. rewrite Hq1. cbn [length write_at] in *.
    rewrite Nat.min_0_r, take_0 in *. split; [done|]. split; [done|]. f_equal. symmetry. by apply set_room_same. }
  rewrite <- Er in *. set (copy := (length data `min` length (room (queue_of b)))%nat) in *.
  rewrite <- Hd1. destruct (extend b1 Hok1 copy) as [Hok2 Hq2].
  { pose proof (length_room b1 Hok1) as Hr1. rewrite Hq1 in Hr1. cbn [room set_room] in Hr1.
    rewrite length_write_at in Hr1 by (rewrite length_take; lia). lia. }
  do 2 eexists. split; [done|]. split; [exact Hok2|]. by rewrite Hq2, Hq1.
Qed.
Lemma WriteOffset_refines data offset : Z.of_nat offset < 2 ^ 31 -> refines (OpWriteOffset data offset).
Proof.
  intros Ho. unfold refines. cbn [fifo_op queue_op]. unfold WriteOffset.
  destruct (WriteOffset_spec b Hok data offset Ho) as (b1 & -> & Hok1 & _ & _ & Hq1).
  do 2 eexists. split; [done|]. split; [exact Hok1|]. rewrite Hq1.
  destruct (closed (queue_of b)); [done|].
  destruct (drop offset (room (queue_of b))) as [|c l] eqn:Er; f_equal.
  - apply (f_equal length) in Er. rewrite length_drop in Er. cbn [length] in Er. rewrite Er, Nat.min_0_r, take_0.
    symmetry. apply set_room_same. unfold write_at. cbn [app length]. by rewrite Nat.add_0_r, take_drop.
  - rewrite <- Er. by rewrite (length_drop (room (queue_of b)) offset).
Qed.
Lemma SetCapacity_refines n : Z.of_nat n < 2 ^ 30 -> refines (OpSetCapacity n).
Proof.
  intros Hn. unfold refines. cbn [fifo_op queue_op]. unfold SetCapacity.
  rewrite (length_queued b Hok), (length_room b Hok). pose proof (ok_data _ Hok).
  destruct (Nat.ltb_spec n (data_length_ b)); [by give|].
  replace (data_length_ b + (buffer_length_ b - data_length_ b))%nat with (buffer_length_ b) by lia.
  destruct (Nat.eqb_spec n (buffer_length_ b)) as [E|E]; cbn [negb]; [by give|].
  pose proof (ok_length _ Hok) as Hl. do 2 eexists. split; [done|].
  set (t := (data_length_ b `min` (buffer_length_ b - read_position_ b))%nat).
  set (buf := write_at t _ _).
  assert (Hbuf : buf = take (data_length_ b) (cells b) ++ drop (data_length_ b) (new_char n)).
  { destruct (ok_position _ Hok) as [Hp|[Hz Hp0]].
    - pose proof (read_around (read_position_ b) (buffer_ b) 0 (data_length_ b)) as Hr. cbn zeta in Hr.
      rewrite Hl, Nat.add_0_r, Nat.mod_small in Hr by lia. specialize (Hr Hp ltac:(lia)). fold t in Hr.
      change (slice 0 (data_length_ b) _) with (take (data_length_ b) (cells b)) in Hr. rewrite <- Hr.
      assert (t <= buffer_length_ b - read_position_ b /\ t <= data_length_ b)%nat by (unfold t; lia).
      assert (length (slice (read_position_ b) t (buffer_ b)) = t) as Ht by (rewrite length_slice; lia).
      assert (length (slice 0 (data_length_ b - t) (buffer_ b)) = data_length_ b - t)%nat as Ht2 by (rewrite length_slice; lia).
      unfold buf, write_at. rewrite Ht, Ht2, take_0. cbn [app Nat.add].
      rewrite take_app_length', drop_app_ge by lia.
      rewrite Ht, drop_drop, <- app_assoc. do 3 f_equal. lia.
    - assert (buffer_ b = []) as Eb by (apply nil_length_inv; lia). assert (data_length_ b = 0%nat) as Ed by lia.
      unfold buf, t, cells. by rewrite Eb, Hz, Hp0, Ed. }
  assert (Hcells : cells (mkFifoBuffer (state_ b) buf n (data_length_ b) 0 (events b))
    = take (data_length_ b) (cells b) ++ drop (data_length_ b) (new_char n)).
  { unfold cells, cells_from at 1. cbn. by rewrite app_nil_r. }
  assert (Hlt : length (take (data_length_ b) (cells b)) = data_length_ b) by apply (length_queued b Hok).
  split; [constructor; cbn [buffer_ buffer_length_ data_length_ read_position_]|].
  - rewrite Hbuf, length_app, Hlt, length_drop, length_new_char. lia.
  - lia.
  - lia.
  - done.
  - f_equal. unfold set_room, queue_of. rewrite Hcells. cbn [data_length_ state_ events contents closed posted].
    by rewrite take_app_length', drop_app_length' by done.
Qed.
Lemma op_refines op : allowed op (queue_of b) -> refines op.
Proof.
  destruct op as [n|data|n offset|data offset|n|n|n| | |]; intros Ha; cbn [allowed] in Ha.
  - apply Read_refines.
  - apply Write_refines.
  - unfold refines. cbn [fifo_op queue_op]. unfold ReadOffset. rewrite (ReadOffset_spec b Hok).
    do 2 eexists. split; [done|]. split; [done|].
    by destruct (drop offset (contents (queue_of b))).
  - by apply WriteOffset_refines.
  - unfold refines. cbn [fifo_op queue_op]. unfold ConsumeReadData. rewrite (length_queued b Hok) in Ha.
    destruct Ha as [Ha Hne]. pose proof (length_all_cells b Hok) as Hl. cbn [contents room queue_of] in Hne.
    rewrite take_drop in Hne. pose proof (ok_size _ Hok). pose proof (ok_data _ Hok).
    destruct (Nat.eqb_spec (buffer_length_ b) 0) as [E|E]; [destruct Hne; apply nil_length_inv; lia|].
    destruct (ok_position _ Hok) as [Hp|[? ?]]; [|lia]. rewrite size_sub_id, size_add_id by lia.
    destruct (advance b Hok n Ha E) as [Hok' Hq]. run. do 2 eexists. split; [done|]. split; [exact Hok'|]. by rewrite Hq.
  - unfold refines. cbn [fifo_op queue_op]. unfold ConsumeWriteBuffer. rewrite (length_room b Hok) in Ha.
    pose proof (ok_size _ Hok). pose proof (ok_data _ Hok). rewrite size_add_id by lia.
    destruct (extend b Hok n Ha) as [Hok' Hq]. do 2 eexists. split; [done|]. split; [exact Hok'|]. by rewrite Hq.
  - by apply SetCapacity_refines.
  - unfold refines. cbn. do 2 eexists. split; [done|]. split; [by destruct Hok|]. done.
  - unfold refines. cbn [fifo_op queue_op]. rewrite (length_queued b Hok). by give.
  - unfold refines. cbn [fifo_op queue_op]. rewrite (length_room b Hok). by give.
Qed.
End operations.

(** ** Runs *)
Section runs.
Variable new_char : nat -> list Z.
Hypothesis length_new_char : forall n, length (new_char n) = n.

Fixpoint fifo_run (ops : list Op) (b : FifoBuffer) : outcome (list Out * FifoBuffer) :=
  match ops with
  | [] => Done ([], b)
  | op :: ops =>
    '(o, b) ← fifo_op new_char op b;
    '(l, b) ← fifo_run ops b;
    Done (o :: l, b)
  end.
Fixpoint queue_run (ops : list Op) (q : Queue) : list Out * Queue :=
  match ops with
  | [] => ([], q)
  | op :: ops =>
    let '(o, q) := queue_op new_char op q in
    let '(l, q) := queue_run ops q in
    (o :: l, q)
  end.
Fixpoint all_allowed (ops : list Op) (q : Queue) : Prop :=
  match ops with
  | [] => True
  | op :: ops => allowed op q /\ all_allowed ops (snd (queue_op new_char op q))
  end.
Lemma new_ok size : Z.of_nat size < 2 ^ 30 -> fifo_ok (FifoBuffer_new new_char size) /\
  queue_of (FifoBuffer_new new_char size) = mkQueue [] (new_char size) false [].
Proof.
  intros Hs. split.
  - constructor; cbn; [apply length_new_char|lia|lia|done].
  - unfold queue_of, cells, cells_from. cbn. by rewrite app_nil_r.
Qed.

(** C10. A ring buffer is a queue of bounded size: whatever is read, written, peeked
    at, written ahead, consumed or resized in whatever order, within what the code
    asserts, every call returns what the queue returns, and the events posted are
    those for a queue that stops being full or empty. *)
Theorem FifoBuffer_refines_queue size ops :
  Z.of_nat size < 2 ^ 30 -> all_allowed ops (mkQueue [] (new_char size) false []) ->
  exists outs b, fifo_run ops (FifoBuffer_new new_char size) = Done (outs, b) /\
    queue_run ops (mkQueue [] (new_char size) false []) = (outs, queue_of b).
Proof.
  intros Hs. destruct (new_ok size Hs) as [Hok <-]. revert Hok. generalize (FifoBuffer_new new_char size).
  induction ops as [|op ops IH]; intros b Hok Ha; [by exists [], b|]. destruct Ha as [Ha Has].
  destruct (op_refines new_char length_new_char b Hok op Ha) as (o & b1 & Hf & Hok1 & Hq).
  cbn [fifo_run queue_run]. rewrite Hf, Hq in *. destruct (IH b1 Hok1 Has) as (outs & b2 & Hf2 & Hq2).
  exists (o :: outs), b2. run. by rewrite Hf2, Hq2.
Qed.
End runs.

Definition zeros (n : nat) : list Z := replicate n 0.
Definition demo_ops : list Op :=
  [OpWrite [1; 2; 3]; OpRead 2; OpWrite [4; 5; 6; 7]; OpReadOffset 9 1; OpWrite [8]; OpConsumeRead 2;
   OpWriteOffset [9] 1; OpWriteOffset [8] 0; OpConsumeWrite 2; OpGetBuffered; OpSetCapacity 6; OpClose; OpRead 6; OpRead 1].
Lemma FifoBuffer_refines_queue_witness :
  exists outs b, fifo_run zeros demo_ops (FifoBuffer_new zeros 4) = Done (outs, b) /\
    queue_run zeros demo_ops (mkQueue [] (zeros 4) false []) = (outs, queue_of b).
Proof.
  apply (FifoBuffer_refines_queue zeros (fun n => length_replicate n 0) 4 demo_ops); [done|].
  vm_compute. repeat split; try lia; done.
Defined.
Example demo_outs :
  fst (queue_run zeros demo_ops (mkQueue [] (zeros 4) false [])) =
  [OutWrite (SR_SUCCESS 3%nat); OutRead (SR_SUCCESS [1; 2]); OutWrite (SR_SUCCESS 3%nat); OutRead (SR_SUCCESS [4; 5; 6]);
   OutWrite SR_BLOCK; OutNone; OutWrite (SR_SUCCESS 1%nat); OutWrite (SR_SUCCESS 1%nat); OutNone; OutSize 4; OutBool true;
   OutNone; OutRead (SR_SUCCESS [5; 6; 8; 9]); OutRead SR_EOS].
Proof. by vm_compute. Qed.

(** ** The buffer as a source and a sink *)
Section laws.
Variable b : FifoBuffer.
Hypothesis Hok : fifo_ok b.

(** The block that [GetReadData] hands out is the front of the data. *)
Lemma GetReadData_front : exists n, GetReadData b = take n (contents (queue_of b)) /\
  (contents (queue_of b) <> [] -> (0 < n)%nat).
Proof.
  pose proof (length_queued b Hok) as Hc. pose proof (ok_data _ Hok). pose proof (ok_length _ Hok) as Hl.
  unfold GetReadData. set (size := if (_ <=? _)%nat then _ else _). exists size.
  assert (Hs : (size <= data_length_ b /\ read_position_ b + size <= buffer_length_ b)%nat).
  { unfold size. destruct (ok_position _ Hok). all: case_if; propify; lia. }
  split.
  - destruct (ok_position _ Hok) as [Hp|[Hz Hp]].
    + pose proof (read_around (read_position_ b) (buffer_ b) 0 size) as Hr. cbn zeta in Hr.
      rewrite Hl, Nat.add_0_r, Nat.mod_small, Nat.min_l, Nat.sub_diag in Hr by lia. specialize (Hr Hp ltac:(lia)).
      change (slice 0 0 (buffer_ b)) with (@nil Z) in Hr. rewrite app_nil_r in Hr. rewrite Hr. cbn [contents queue_of].
      rewrite take_take, Nat.min_l by lia. done.
    + replace size with 0%nat by lia. by rewrite take_0.
  - intros Hne. assert (0 < data_length_ b)%nat.
    { destruct (contents (queue_of b)); [done|]. cbn in Hc. lia. }
    unfold size. destruct (ok_position _ Hok). all: case_if; propify; lia.
Qed.
(** What is written into the block that [GetWriteBuffer] hands out and then
    consumed is appended to the data. *)
Lemma GetWriteBuffer_appends position size b' data :
  GetWriteBuffer b = Done (Some (position, size), b') -> (length data <= size)%nat ->
  let b2 := ConsumeWriteBuffer (set_buffer (write_at position data (buffer_ b')) b') (length data) in
  fifo_ok b2 /\ contents (queue_of b2) = contents (queue_of b) ++ data.
Proof.
  intros Hg Hd b2. unfold GetWriteBuffer in Hg. destruct (decide (state_ b = SS_CLOSED)) as [|Hs]; [done|].
  set (b0 := if (data_length_ b =? 0)%nat then set_data 0 0 b else b) in Hg.
  destruct (Nat.eqb_spec (buffer_length_ b0) 0) as [|Hz]; [done|]. injection Hg as Hpos Hsize <-.
  assert (Hok0 : fifo_ok b0 /\ data_length_ b0 = data_length_ b /\ contents (queue_of b0) = contents (queue_of b)).
  { unfold b0. destruct (Nat.eqb_spec (data_length_ b) 0) as [E|E]; [|done]. split; [|by rewrite E; cbn; rewrite E].
    destruct Hok. constructor; cbn; lia. }
  destruct Hok0 as (Hok0 & Ed & Ec). rewrite <- Ec. clearbody b0. clear Ec Ed Hs Hok b.
  destruct (ok_position _ Hok0) as [Hp|[? ?]]; [|lia]. pose proof (ok_data _ Hok0) as Hdl. pose proof (ok_length _ Hok0) as Hl.
  rewrite mod_around in Hpos, Hsize by lia.
  assert (Hfit : (position + length data <= buffer_length_ b0 /\ data_length_ b0 + length data <= buffer_length_ b0)%nat).
  { repeat case_decide; subst position; revert Hsize; case_if; propify; intros <-; try lia.
    all: match goal with H : (_ || _)%bool = true |- _ => apply orb_true_iff in H as [?|?]; propify; lia end. }
  destruct (write_around (read_position_ b0) (buffer_ b0) (data_length_ b0) data) as [Hlw Hcw]; [lia|lia|].
  rewrite Hl, mod_around, Hpos, Nat.min_l, Nat.sub_diag, firstn_all in Hlw, Hcw by lia.
  change (slice _ 0 data) with (@nil Z) in *. unfold write_at at 1 in Hcw. unfold write_at at 1 in Hlw.
  cbn [take app length Nat.add] in Hlw, Hcw. rewrite take_0, drop_0 in Hlw, Hcw. cbn [app] in Hlw, Hcw.
  set (b1 := set_buffer (write_at position data (buffer_ b0)) b0) in *.
  assert (Hok1 : fifo_ok b1) by (destruct Hok0; constructor; cbn; auto).
  unfold b2, ConsumeWriteBuffer. pose proof (ok_size _ Hok0). rewrite size_add_id by (cbn; lia).
  destruct (extend b1 Hok1 (length data)) as [Hok2 Hq2]; [cbn; lia|]. split; [exact Hok2|]. rewrite Hq2.
  assert (Hcells : cells b1 = write_at (data_length_ b0 + 0) data (cells b0)) by (rewrite Nat.add_0_r; exact Hcw).
  destruct (write_at_behind (data_length_ b0) 0 data (cells b0)) as [Ht Hr]; [rewrite (length_all_cells b0 Hok0); lia|].
  cbn [contents put_in room queue_of]. change (data_length_ b1) with (data_length_ b0). rewrite Hcells, Ht, Hr.
  f_equal. unfold write_at. cbn [take app]. rewrite take_0. cbn [app]. by rewrite take_app_length.
Qed.
End laws.

Ltac outputs Hq Hq2 :=
  pose proof (f_equal snd Hq) as Hq2; cbn [snd] in Hq2; apply (f_equal fst) in Hq; cbn [fst] in Hq; injection Hq as <-.
#[global] Instance FifoBuffer_source : Source FifoBuffer fifo_ok (fun b => contents (queue_of b)).
Proof.
  split. intros b n Hok Hn. destruct (Read_refines zeros b Hok n) as (o & b' & Hf & Hok' & Hq).
  cbn [fifo_op queue_op] in Hf, Hq. cbn [Read FifoBuffer_stream].
  destruct (Fifo_Read b n) as [r b1]. injection Hf as <- <-. revert Hq. generalize (queue_of b) (queue_of b1). intros q q1 Hq. split; [done|].
  destruct (contents q) as [|c l] eqn:Ec.
  - outputs Hq Hq2. rewrite <- Hq2, Ec. by destruct (closed q).
  - rewrite <- Ec in Hq |- *. outputs Hq Hq2. rewrite <- Hq2. cbn [contents take_out].
    split; [intros E; apply (f_equal length) in E; rewrite length_take, Ec in E; cbn in E; lia|].
    split; [rewrite length_take; lia|]. rewrite <- (take_drop n (contents q)) at 1. f_equal.
    destruct (Nat.le_ge_cases n (length (contents q))); [by rewrite Nat.min_l|].
    by rewrite Nat.min_r, !drop_ge by lia.
Qed.
#[global] Instance FifoBuffer_ready : Ready FifoBuffer fifo_ok (fun b => contents (queue_of b)).
Proof.
  intros b n Hok Hn Hc. destruct (Read_refines zeros b Hok n) as (o & b' & Hf & _ & Hq).
  cbn [fifo_op queue_op] in Hf, Hq. cbn [Read FifoBuffer_stream].
  destruct (Fifo_Read b n) as [r b1]. injection Hf as <- <-. revert Hc Hq. generalize (queue_of b) (queue_of b1). intros q q1 Hc Hq. by destruct (contents q); [|outputs Hq Hq2].
Qed.
#[global] Instance FifoBuffer_sink : Sink FifoBuffer fifo_ok (fun b => contents (queue_of b)).
Proof.
  split. intros b data Hok Hd. destruct (Write_refines zeros b Hok data) as (o & b' & Hf & Hok' & Hq).
  cbn [fifo_op queue_op] in Hf, Hq. cbn [Write FifoBuffer_stream].
  destruct (Fifo_Write b data) as [r b1]. injection Hf as <- <-. revert Hq. generalize (queue_of b) (queue_of b1). intros q q1 Hq. split; [done|].
  destruct (closed q); [outputs Hq Hq2; by rewrite <- Hq2|].
  destruct (room q) as [|c l] eqn:Er; [outputs Hq Hq2; by rewrite <- Hq2|].
  rewrite <- Er in Hq. set (copy := (length data `min` length (room q))%nat) in Hq.
  assert (Hcopy : (1 <= copy <= length data)%nat /\ (copy <= length (room q))%nat).
  { unfold copy. rewrite Er. destruct data; [done|]. cbn [length]. lia. }
  outputs Hq Hq2. split; [lia|]. rewrite <- Hq2. cbn [contents put_in set_room room]. f_equal.
  unfold write_at. rewrite take_0. cbn [app]. rewrite take_app_le by (rewrite length_take; lia).
  by rewrite take_take, Nat.min_id.
Qed.
