(* ===== verification/MemoryStream.v ===== *)
(** * base/stream.cpp 648-810: streams in memory

    [MemoryStream] grows its array, [ExternalMemoryStream] has the array it was
    given; both inherit everything else from [MemoryStreamBase].  The specification
    is a file: its bytes, a position, and how long it may get.  [new] does not fail
    and gives an array of arbitrary bytes, [new_char]. *)
From Stdlib Require Import Ascii String.
From S2P Require Import Prelude Text Stream.

(** [external] says which class it is, for the virtual [DoReserve]. *)
Record MemoryStream := mkMemoryStream {
  external : bool; buffer_ : list Z; buffer_length_ : nat; data_length_ : nat; seek_position_ : nat }.

Section memory.
Variable new_char : nat -> list Z.

Definition MemoryStream_new : MemoryStream := mkMemoryStream false [] 0 0 0.
Definition ExternalMemoryStream_new : MemoryStream := mkMemoryStream true [] 0 0 0.
(** For an external stream the caller's array itself becomes the buffer. *)
Definition SetData (m : MemoryStream) (data : list Z) : MemoryStream :=
  let length := length data in
  mkMemoryStream (external m) (if external m then data else write_at 0 data (new_char length)) length length 0.

Definition DoReserve (m : MemoryStream) (size : nat) : StreamResult unit * MemoryStream :=
  if (size <=? buffer_length_ m)%nat then (SR_SUCCESS tt, m)
  else if external m then (SR_EOS, m)
  else
    let new_buffer := write_at 0 (take (data_length_ m) (buffer_ m)) (new_char size) in
    (SR_SUCCESS tt, mkMemoryStream (external m) new_buffer size (data_length_ m) (seek_position_ m)).
Definition ReserveSize (m : MemoryStream) (size : nat) : bool * MemoryStream :=
  let '(result, m) := DoReserve m size in (succeeded result, m).

Definition Memory_Read (m : MemoryStream) (bytes : nat) : StreamResult (list Z) * MemoryStream :=
  if (data_length_ m <=? seek_position_ m)%nat then (SR_EOS, m)
  else
    let available := (data_length_ m - seek_position_ m)%nat in
    let bytes := if (available <? bytes)%nat then available else bytes in
    (SR_SUCCESS (slice (seek_position_ m) bytes (buffer_ m)),
     mkMemoryStream (external m) (buffer_ m) (buffer_length_ m) (data_length_ m) (seek_position_ m + bytes)).
Definition new_buffer_length (m : MemoryStream) (bytes : nat) : nat :=
  (Z.to_nat (Z.lor (Z.of_nat (seek_position_ m + bytes)) 255 + 1) `max` (buffer_length_ m * 2))%nat.
Definition Memory_Write (m : MemoryStream) (data : list Z) : StreamResult nat * MemoryStream :=
  let store (m : MemoryStream) :=
    let available := (buffer_length_ m - seek_position_ m)%nat in
    let bytes := if (available <? length data)%nat then available else length data in
    let seek_position := (seek_position_ m + bytes)%nat in
    (SR_SUCCESS bytes,
     mkMemoryStream (external m) (write_at (seek_position_ m) (take bytes data) (buffer_ m)) (buffer_length_ m)
       (if (data_length_ m <? seek_position)%nat then seek_position else data_length_ m) seek_position) in
  if (buffer_length_ m - seek_position_ m =? 0)%nat then
    let '(result, m) := DoReserve m (new_buffer_length m (length data)) in
    match result with
    | SR_SUCCESS _ => store m
    | SR_ERROR e => (SR_ERROR e, m)
    | SR_BLOCK => (SR_BLOCK, m)
    | SR_EOS => (SR_EOS, m)
    end
  else store m.
Definition Memory_SetPosition (m : MemoryStream) (position : nat) : option MemoryStream :=
  if (data_length_ m <? position)%nat then None
  else Some (mkMemoryStream (external m) (buffer_ m) (buffer_length_ m) (data_length_ m) position).

#[global] Instance MemoryStream_stream : Stream MemoryStream := {
  GetState _ := SS_OPEN; Read := Memory_Read; Write := Memory_Write; Close m := m }.
#[global] Instance MemoryStream_seekable : Seekable MemoryStream := {
  SetPosition := Memory_SetPosition;
  GetPosition m := Some (seek_position_ m);
  GetSize m := Some (data_length_ m);
  GetAvailable m := Some (data_length_ m - seek_position_ m)%nat }.
End memory.

(** ** The specification: a file *)
Record File := mkFile { bytes : list Z; position : nat; limit : option nat }.
Definition file_write (data : list Z) (f : File) : StreamResult unit * nat * File :=
  let n := match limit f with
    | None => length data
    | Some limit => (length data `min` (limit - position f))%nat end in
  (if (n =? length data)%nat then SR_SUCCESS tt else SR_EOS, n,
   mkFile (take (position f) (bytes f) ++ take n data ++ drop (position f + n) (bytes f)) (position f + n) (limit f)).
Definition file_read (n : nat) (f : File) : StreamResult (list Z) * File :=
  match drop (position f) (bytes f) with
  | [] => (SR_EOS, f)
  | rest => (SR_SUCCESS (take n rest), mkFile (bytes f) (position f + n `min` length rest) (limit f))
  end.

Inductive Op := OpWriteAll (data : list Z) | OpRead (n : nat) | OpSetPosition (position : nat) | OpGetPosition
  | OpGetSize | OpGetAvailable | OpReserve (size : nat) | OpSetData (data : list Z).
Inductive Out := OutWrite (r : StreamResult unit) (n : nat) | OutRead (r : StreamResult (list Z)) | OutBool (b : bool)
  | OutSize (n : option nat) | OutNone.
Section ops.
Variable new_char : nat -> list Z.
Definition memory_op (op : Op) (m : MemoryStream) : option (Out * MemoryStream) :=
  let _ := MemoryStream_stream new_char in
  match op with
  | OpWriteAll data => '(r, n, m) ← WriteAll (length data) m data 0; Some (OutWrite r n, m)
  | OpRead n => let '(r, m) := Read m n in Some (OutRead r, m)
  | OpSetPosition p =>
    Some (match SetPosition m p with Some m => (OutBool true, m) | None => (OutBool false, m) end)
  | OpGetPosition => Some (OutSize (GetPosition m), m)
  | OpGetSize => Some (OutSize (GetSize m), m)
  | OpGetAvailable => Some (OutSize (GetAvailable m), m)
  | OpReserve size => let '(r, m) := ReserveSize new_char m size in Some (OutBool r, m)
  | OpSetData data => Some (OutNone, SetData new_char m data)
  end.
Definition file_op (op : Op) (f : File) : Out * File :=
  match op with
  | OpWriteAll data => let '(r, n, f) := file_write data f in (OutWrite r n, f)
  | OpRead n => let '(r, f) := file_read n f in (OutRead r, f)
  | OpSetPosition p =>
    if (length (bytes f) <? p)%nat then (OutBool false, f) else (OutBool true, mkFile (bytes f) p (limit f))
  | OpGetPosition => (OutSize (Some (position f)), f)
  | OpGetSize => (OutSize (Some (length (bytes f))), f)
  | OpGetAvailable => (OutSize (Some (length (bytes f) - position f)%nat), f)
  | OpReserve size => (OutBool (match limit f with Some limit => (size <=? limit)%nat | None => true end), f)
  | OpSetData data =>
    (OutNone, mkFile data 0 (match limit f with Some _ => Some (length data) | None => None end))
  end.
End ops.

(** ** The array as a file *)
Record memory_ok (m : MemoryStream) : Prop := {
  ok_seek : (seek_position_ m <= data_length_ m)%nat;
  ok_data : (data_length_ m <= buffer_length_ m)%nat;
  ok_length : length (buffer_ m) = buffer_length_ m }.
Definition file_of (m : MemoryStream) : File :=
  mkFile (take (data_length_ m) (buffer_ m)) (seek_position_ m) (if external m then Some (buffer_length_ m) else None).

(** The first [n] bytes of [data] overwrite what is at the position. *)
Definition put (n : nat) (data : list Z) (f : File) : File :=
  mkFile (take (position f) (bytes f) ++ take n data ++ drop (position f + n) (bytes f)) (position f + n) (limit f).
Lemma put_0 data f : (position f <= length (bytes f))%nat -> put 0 data f = f.
Proof. intros Hp. destruct f as [b p l]. unfold put. cbn [bytes position limit] in *.
  rewrite Nat.add_0_r, take_0. cbn [app]. by rewrite take_drop.
Qed.
Lemma put_put n k data f : (position f <= length (bytes f))%nat -> (n <= length data)%nat ->
  put k (drop n data) (put n data f) = put (n + k) data f.
Proof.
  intros Hp Hn. destruct f as [b p l]. unfold put. cbn [bytes position limit] in *.
  rewrite Nat.add_assoc. f_equal.
  assert (Hl : length (take p b ++ take n data) = (p + n)%nat) by (rewrite length_app, !length_take; lia).
  rewrite (app_assoc _ _ (drop (p + n) b)). rewrite take_app_length' by lia.
  rewrite drop_app_ge by lia. rewrite Hl, drop_drop. replace (p + n + (p + n + k - (p + n)))%nat with (p + n + k)%nat by lia.
  rewrite <- !app_assoc. f_equal. rewrite app_assoc. f_equal.
  rewrite take_drop_commute. transitivity (take n (take (n + k) data) ++ drop n (take (n + k) data)); [|apply take_drop].
  by rewrite take_take, Nat.min_l by lia.
Qed.
Lemma file_write_put data f :
  let n := match limit f with None => length data | Some limit => (length data `min` (limit - position f))%nat end in
  file_write data f = (if (n =? length data)%nat then SR_SUCCESS tt else SR_EOS, n, put n data f).
Proof. done. Qed.

Section refinement.
Variable new_char : nat -> list Z.
Hypothesis length_new_char : forall n, length (new_char n) = n.
#[local] Existing Instance MemoryStream_stream.

Lemma length_file m : memory_ok m -> length (bytes (file_of m)) = data_length_ m.
Proof. intros [? ? ?]. cbn. rewrite length_take. lia. Qed.

Lemma DoReserve_spec m size : memory_ok m -> exists r m', DoReserve new_char m size = (r, m') /\
  memory_ok m' /\ file_of m' = file_of m /\ external m' = external m /\
  if external m then m' = m /\ r = if (size <=? buffer_length_ m)%nat then SR_SUCCESS tt else SR_EOS
  else r = SR_SUCCESS tt /\ (size <= buffer_length_ m')%nat.
Proof.
  intros Hok. unfold DoReserve. destruct (Nat.leb_spec size (buffer_length_ m)) as [Hs|Hs].
  { do 2 eexists. split; [done|]. split; [done|]. split; [done|]. split; [done|]. by destruct (external m). }
  destruct (external m) eqn:Ee; [by do 2 eexists|]. destruct Hok as [Hk Hd Hl]. do 2 eexists. split; [done|].
  assert (Ht : length (take (data_length_ m) (buffer_ m)) = data_length_ m) by (rewrite length_take; lia).
  split; [constructor; cbn; [lia|lia|rewrite length_write_at, length_new_char; [done|rewrite length_new_char; lia]]|].
  split; [|split; [done|split; [done|cbn; lia]]].
  unfold file_of. cbn [external data_length_ buffer_ seek_position_ buffer_length_]. rewrite Ee. f_equal.
  unfold write_at. rewrite take_0. cbn [app]. by rewrite take_app_length'.
Qed.

(** The bytes that fit behind the position are stored. *)
Definition store (data : list Z) (m : MemoryStream) : MemoryStream :=
  let n := (length data `min` (buffer_length_ m - seek_position_ m))%nat in
  mkMemoryStream (external m) (write_at (seek_position_ m) (take n data) (buffer_ m)) (buffer_length_ m)
    (data_length_ m `max` (seek_position_ m + n)) (seek_position_ m + n).
Lemma store_put data m : memory_ok m ->
  memory_ok (store data m) /\
  file_of (store data m) = put (length data `min` (buffer_length_ m - seek_position_ m)) data (file_of m).
Proof.
  intros [Hk Hd Hl]. unfold store. set (n := (length data `min` _)%nat).
  assert (Hn : (n <= length data /\ seek_position_ m + n <= buffer_length_ m)%nat) by (unfold n; lia).
  assert (Ht : length (take n data) = n) by (rewrite length_take; lia). clearbody n.
  split; [constructor; cbn; [lia|lia|rewrite length_write_at; lia]|].
  unfold file_of, put. cbn [external data_length_ buffer_ seek_position_ buffer_length_ bytes position limit]. f_equal.
  unfold write_at. rewrite Ht, take_take, Nat.min_l by lia.
  rewrite skipn_firstn_comm, app_assoc. rewrite take_app_ge by (rewrite length_app, length_take; lia).
  rewrite length_app, length_take, Ht, Nat.min_l, <- app_assoc by lia. do 3 f_equal. lia.
Qed.
Lemma le_lor x y : 0 <= y -> x <= Z.lor x y.
Proof.
  intros Hy. assert (Z.lor x y - x = Z.ldiff (Z.lor x y) x) as E.
  { apply Z.sub_nocarry_ldiff. apply Z.bits_inj'. intros k Hk. rewrite Z.ldiff_spec, Z.lor_spec, Z.bits_0.
    by destruct (Z.testbit x k). }
  assert (0 <= Z.ldiff (Z.lor x y) x); [|lia]. apply Z.ldiff_nonneg.
  destruct (Z.lt_ge_cases x 0); [by right|left]. by apply Z.lor_nonneg.
Qed.
Lemma new_buffer_length_room m n : (0 < n)%nat -> (seek_position_ m < new_buffer_length m n)%nat.
Proof.
  intros Hn. unfold new_buffer_length. pose proof (le_lor (Z.of_nat (seek_position_ m + n)) 255). lia.
Qed.
Lemma Write_spec m data : memory_ok m -> data <> [] ->
  if external m && (buffer_length_ m <=? seek_position_ m)%nat then Memory_Write new_char m data = (SR_EOS, m)
  else exists n m', Memory_Write new_char m data = (SR_SUCCESS n, m') /\ memory_ok m' /\ external m' = external m /\
    file_of m' = put n data (file_of m) /\ (1 <= n <= length data)%nat /\
    (external m = true -> n = length data `min` (buffer_length_ m - seek_position_ m))%nat.
Proof.
  intros Hok Hd. assert (0 < length data)%nat by (by destruct data; [|cbn; lia]). unfold Memory_Write.
  assert (Hstore : forall m', memory_ok m' -> (seek_position_ m' < buffer_length_ m')%nat -> file_of m' = file_of m ->
    external m' = external m -> (external m = true -> buffer_length_ m' = buffer_length_ m) ->
    exists n m2, (let available := (buffer_length_ m' - seek_position_ m')%nat in
      let bytes := if (available <? length data)%nat then available else length data in
      let seek_position := (seek_position_ m' + bytes)%nat in
      (SR_SUCCESS bytes, mkMemoryStream (external m') (write_at (seek_position_ m') (take bytes data) (buffer_ m')) (buffer_length_ m')
       (if (data_length_ m' <? seek_position)%nat then seek_position else data_length_ m') seek_position)) = (SR_SUCCESS n, m2) /\
      memory_ok m2 /\ external m2 = external m /\ file_of m2 = put n data (file_of m) /\ (1 <= n <= length data)%nat /\
    (external m = true -> n = length data `min` (buffer_length_ m - seek_position_ m))%nat).
  { intros m' Hok' Hs Hf He Hl. destruct (store_put data m' Hok') as [Hok2 Hf2]. rewrite Hf in Hf2.
    assert (seek_position_ m' = seek_position_ m) as Es by (apply (f_equal position Hf)).
    exists (length data `min` (buffer_length_ m' - seek_position_ m'))%nat, (store data m').
    split; [|split; [done|split; [done|split; [done|split; [lia|]]]]].
    - cbn zeta. replace (if (_ <? length data)%nat then _ else length data)
        with (length data `min` (buffer_length_ m' - seek_position_ m'))%nat by (case_if; propify; lia).
      f_equal. unfold store. f_equal. case_if; propify; lia.
    - intros E. by rewrite (Hl E), Es. }
  destruct (Nat.eqb_spec (buffer_length_ m - seek_position_ m) 0) as [E|E].
  - rewrite (proj2 (Nat.leb_le _ _)) by lia. rewrite andb_true_r.
    destruct (DoReserve_spec m (new_buffer_length m (length data)) Hok) as (r & m' & -> & Hok' & Hf & He & Hr).
    pose proof (new_buffer_length_room m (length data) ltac:(done)).
    assert (seek_position_ m' = seek_position_ m) as Es by (apply (f_equal position Hf)).
    destruct (external m).
    + destruct Hr as [-> ->]. destruct (Nat.leb_spec (new_buffer_length m (length data)) (buffer_length_ m)); [lia|done].
    + destruct Hr as [-> Hr]. apply Hstore; done || lia.
  - rewrite (proj2 (Nat.leb_gt _ _)) by lia. rewrite andb_false_r. apply Hstore; done || lia.
Qed.

Lemma put_in_file m n data : memory_ok m -> (n <= length data)%nat ->
  forall m', file_of m' = put n data (file_of m) -> seek_position_ m' = (seek_position_ m + n)%nat.
Proof. intros _ _ m' Hf. exact (f_equal position Hf). Qed.
Lemma WriteAll_file fuel : forall m data total, memory_ok m -> (length data <= fuel)%nat ->
  exists m', let '(r, n, f) := file_write data (file_of m) in
    WriteAll (H := MemoryStream_stream new_char) fuel m data total = Some (r, (total + n)%nat, m') /\
    memory_ok m' /\ external m' = external m /\ file_of m' = f.
Proof.
  induction fuel as [|fuel IH]; intros m data total Hok Hf; rewrite file_write_put; (destruct data as [|c data]; cycle 1).
  1: { cbn in Hf. lia. }
  2: {
    cbn [WriteAll]. change (Write m (c :: data)) with (Memory_Write new_char m (c :: data)).
    pose proof (Write_spec m (c :: data) Hok ltac:(done)) as Hw. cbn [limit file_of position].
    destruct (external m && (buffer_length_ m <=? seek_position_ m)%nat) eqn:Ee.
    - apply andb_true_iff in Ee as [Ee Hle]. propify. rewrite Hw, Ee. exists m.
      replace (buffer_length_ m - seek_position_ m)%nat with 0%nat by lia.
      rewrite Nat.min_0_r, Nat.add_0_r. split; [done|]. split; [done|]. split; [done|]. symmetry. apply put_0.
      rewrite (length_file m Hok). apply (ok_seek _ Hok).
    - destruct Hw as (n & m1 & -> & Hok1 & He1 & Hf1 & Hn & Hlim).
      destruct (IH m1 (drop n (c :: data)) (total + n)%nat Hok1) as (m2 & Hm2); [rewrite length_drop; cbn in *; lia|].
      rewrite file_write_put in Hm2. destruct Hm2 as (-> & Hok2 & He2 & Hf2).
      assert (Hlf : limit (file_of m1) = limit (file_of m)) by by rewrite Hf1.
      assert (Hpf : position (file_of m1) = (position (file_of m) + n)%nat) by by rewrite Hf1.
      rewrite Hlf, Hpf, Hf1, put_put in Hf2 by (rewrite ?(length_file m Hok); apply (ok_seek _ Hok) || lia).
      rewrite Hlf, Hpf, length_drop in *. cbn [limit position file_of] in *.
      exists m2. destruct (external m).
      + specialize (Hlim eq_refl).
        replace (n + (length (c :: data) - n) `min` (buffer_length_ m - (seek_position_ m + n)))%nat
          with (length (c :: data) `min` (buffer_length_ m - seek_position_ m))%nat in Hf2 by lia.
        split; [|split; [done|split; [congruence|done]]]. f_equal. f_equal. f_equal; [|lia].
        repeat case_if; propify; done || lia.
      + replace (n + (length (c :: data) - n))%nat with (length (c :: data)) in Hf2 by lia.
        split; [|split; [done|split; [congruence|done]]]. rewrite !Nat.eqb_refl. do 3 f_equal. lia. }
  all: exists m; cbn [WriteAll length]; assert (Hz : forall o : option nat,
      match o with Some l => (0 `min` (l - position (file_of m)))%nat | None => 0%nat end = 0%nat) by (by intros []);
    rewrite Hz, Nat.add_0_r; split; [done|]; split; [done|]; split; [done|]; symmetry; apply put_0;
    rewrite (length_file m Hok); apply (ok_seek _ Hok).
Qed.

Lemma op_is_file_op op m : memory_ok m -> exists o m',
  memory_op new_char op m = Some (o, m') /\ memory_ok m' /\ file_op op (file_of m) = (o, file_of m').
Proof.
  intros Hok. pose proof (length_file m Hok) as Hlf. destruct op as [data|n|p| | | |size|data]; cbn [memory_op file_op].
  - destruct (WriteAll_file (length data) m data 0 Hok) as (m' & Hw); [lia|].
    destruct (file_write data (file_of m)) as [[r n] f]. destruct Hw as (-> & Hok' & _ & <-). by do 2 eexists.
  - cbn [Read MemoryStream_stream]. unfold Memory_Read, file_read. pose proof (ok_seek _ Hok). pose proof (ok_data _ Hok).
    destruct (Nat.leb_spec (data_length_ m) (seek_position_ m)) as [Hle|Hlt].
    + do 2 eexists. split; [done|]. split; [done|]. by rewrite drop_ge by (rewrite Hlf; done).
    + destruct (drop (position (file_of m)) (bytes (file_of m))) as [|c rest] eqn:Ed.
      { apply (f_equal length) in Ed. rewrite length_drop, Hlf in Ed. cbn in Ed. lia. }
      rewrite <- Ed. rewrite length_drop, Hlf. cbn [position file_of bytes].
      replace (if (_ <? n)%nat then _ else n) with (n `min` (data_length_ m - seek_position_ m))%nat by (case_if; propify; lia).
      do 2 eexists. split; [done|]. split; [destruct Hok; constructor; cbn; lia|]. unfold slice.
      by rewrite skipn_firstn_comm, take_take.
  - cbn [SetPosition MemoryStream_seekable]. unfold Memory_SetPosition. rewrite Hlf.
    destruct (Nat.ltb_spec (data_length_ m) p); do 2 eexists; (split; [done|]; split; [|done]); [done|].
    destruct Hok. constructor; cbn; lia.
  - by do 2 eexists.
  - rewrite Hlf. by do 2 eexists.
  - rewrite Hlf. by do 2 eexists.
  - unfold ReserveSize. destruct (DoReserve_spec m size Hok) as (r & m' & -> & Hok' & Hf & _ & Hr).
    do 2 eexists. split; [done|]. split; [done|]. rewrite Hf. f_equal. f_equal. cbn [limit file_of].
    destruct (external m); [destruct Hr as [_ ->]; by case_if|by destruct Hr as [-> _]].
  - do 2 eexists. split; [done|]. split.
    + constructor; cbn; [lia|lia|]. case_if; [done|]. rewrite length_write_at; rewrite length_new_char; lia.
    + f_equal. unfold file_of, SetData. cbn [external data_length_ buffer_ seek_position_ buffer_length_ limit].
      destruct (external m); f_equal; [by rewrite firstn_all|].
      unfold write_at. rewrite take_0. cbn [app]. by rewrite take_app_length.
Qed.
End refinement.

(** ** Runs *)
Section runs.
Variable new_char : nat -> list Z.
Hypothesis length_new_char : forall n, length (new_char n) = n.

Fixpoint memory_run (ops : list Op) (m : MemoryStream) : option (list Out * MemoryStream) :=
  match ops with
  | [] => Some ([], m)
  | op :: ops =>
    '(o, m) ← memory_op new_char op m;
    '(l, m) ← memory_run ops m;
    Some (o :: l, m)
  end.
Fixpoint file_run (ops : list Op) (f : File) : list Out * File :=
  match ops with
  | [] => ([], f)
  | op :: ops => let '(o, f) := file_op op f in let '(l, f) := file_run ops f in (o :: l, f)
  end.

(** C11. A memory stream is a file: whatever is written, read, sought, measured,
    reserved or set in whatever order, every call returns what the file returns.
    The growing one takes everything; the one in an external array takes what fits
    and then reports the end. *)
Theorem MemoryStream_is_a_file ops (ext : bool) :
  let m := if ext then ExternalMemoryStream_new else MemoryStream_new in
  exists outs m', memory_run ops m = Some (outs, m') /\
    file_run ops (mkFile [] 0 (if ext then Some 0%nat else None)) = (outs, file_of m').
Proof.
  intros m. assert (Hok : memory_ok m) by (unfold m; destruct ext; constructor; cbn; lia).
  replace (mkFile [] 0 (if ext then Some 0%nat else None)) with (file_of m) by (unfold m; by destruct ext).
  revert Hok. generalize m. clear m. induction ops as [|op ops IH]; intros m Hok; [by exists [], m|].
  destruct (op_is_file_op new_char length_new_char op m Hok) as (o & m1 & Hm & Hok1 & Hf).
  destruct (IH m1 Hok1) as (outs & m2 & Hm2 & Hf2). exists (o :: outs), m2. cbn [memory_run file_run].
  rewrite Hm, Hf. cbn [mbind option_bind]. by rewrite Hm2, Hf2.
Qed.
End runs.

Definition demo_char (n : nat) : list Z := replicate n 7.
Definition demo_file_ops : list Op :=
  [OpWriteAll (Text.bytes "hello"); OpSetPosition 1; OpWriteAll (Text.bytes "appy"); OpReserve 300; OpWriteAll (Text.bytes "!");
   OpSetPosition 9; OpSetPosition 0; OpRead 4; OpGetAvailable; OpRead 9; OpRead 9].
Lemma MemoryStream_is_a_file_witness :
  exists outs m', memory_run demo_char demo_file_ops MemoryStream_new = Some (outs, m') /\
    file_run demo_file_ops (mkFile [] 0 None) = (outs, file_of m').
Proof. apply (MemoryStream_is_a_file demo_char (fun n => length_replicate n 7) demo_file_ops false). Defined.
Example demo_file :
  fst (file_run demo_file_ops (mkFile [] 0 None)) =
  [OutWrite (SR_SUCCESS tt) 5; OutBool true; OutWrite (SR_SUCCESS tt) 4; OutBool true; OutWrite (SR_SUCCESS tt) 1;
   OutBool false; OutBool true; OutRead (SR_SUCCESS (Text.bytes "happ")); OutSize (Some 2%nat);
   OutRead (SR_SUCCESS (Text.bytes "y!")); OutRead SR_EOS].
Proof. by vm_compute. Qed.
Example demo_external :
  fst (file_run [OpSetData (Text.bytes "four"); OpSetPosition 2; OpWriteAll (Text.bytes "lks")] (mkFile [] 0 (Some 0%nat))) =
  [OutNone; OutBool true; OutWrite SR_EOS 2].
Proof. by vm_compute. Qed.

(** ** The stream as a source and a sink *)
#[global] Instance MemoryStream_source new_char :
  @Source MemoryStream (MemoryStream_stream new_char) memory_ok (fun m => drop (seek_position_ m) (bytes (file_of m))).
Proof.
  split. intros m n Hok Hn. cbn [Read MemoryStream_stream]. unfold Memory_Read.
  pose proof (ok_seek _ Hok). pose proof (ok_data _ Hok). pose proof (ok_length _ Hok).
  cbn [file_of bytes]. destruct (Nat.leb_spec (data_length_ m) (seek_position_ m)) as [Hle|Hlt].
  - split; [done|]. by rewrite drop_ge by (rewrite length_take; lia).
  - replace (if (_ <? n)%nat then _ else n) with (n `min` (data_length_ m - seek_position_ m))%nat by (case_if; propify; lia).
    split; [destruct Hok; constructor; cbn; lia|]. cbn [seek_position_ data_length_ buffer_]. unfold slice.
    split; [|split].
    + intros E%(f_equal length). rewrite length_take, length_drop in E. cbn in E. lia.
    + rewrite length_take. lia.
    + rewrite !skipn_firstn_comm. set (k := (data_length_ m - seek_position_ m)%nat).
      replace (data_length_ m - (seek_position_ m + n `min` k))%nat with (k - n `min` k)%nat by lia.
      rewrite <- (drop_drop (buffer_ m)), <- skipn_firstn_comm.
      rewrite <- (take_drop (n `min` k) (take k (drop (seek_position_ m) (buffer_ m)))) at 1.
      rewrite take_take. do 2 f_equal. lia.
Qed.
#[global] Instance MemoryStream_sink new_char (length_new_char : forall n, length (new_char n) = n) :
  @Sink MemoryStream (MemoryStream_stream new_char) memory_ok (fun m => take (seek_position_ m) (bytes (file_of m))).
Proof.
  split. intros m data Hok Hd. cbn [Write MemoryStream_stream].
  pose proof (Write_spec new_char length_new_char m data Hok Hd) as Hw.
  destruct (external m && (buffer_length_ m <=? seek_position_ m)%nat); [by rewrite Hw|].
  destruct Hw as (n & m' & -> & Hok' & _ & Hf & Hn & _). split; [done|]. split; [done|].
  rewrite (put_in_file m n data Hok (proj2 Hn) m' Hf), Hf. unfold put. cbn [bytes position].
  pose proof (ok_seek _ Hok). rewrite app_assoc, take_app_length'; [done|].
  rewrite length_app, !length_take. change (position (file_of m)) with (seek_position_ m).
  pose proof (length_file m Hok) as Hl. cbn [bytes file_of] in Hl. rewrite length_take in Hl. cbn [position file_of bytes].
  rewrite ?length_take. lia.
Qed.
