(* ===== verification/StreamAdapters.v ===== *)
(** * base/stream.cpp: streams on files, logging adapters and references

    [FileStream] on the files of the C library, which is the class [CFile]; the adapter that logs what
    passes through it, with the log as the list of what it is told; owned and attached streams; and the
    references that share a stream between threads. *)
From stdpp Require Import gmap.
From Stdlib Require Import Ascii String.
From S2P Require Import Prelude Text Stream.

(** ** FileStream *)
(** The functions of the C library on an open file; a size or position that is not got is [None]. *)
Class CFile (F : Type) := {
  fread : F -> nat -> list Z * F;
  feof : F -> bool;
  fwrite : F -> list Z -> nat * F;
  fseek : F -> Z -> option F;
  ftell : F -> option Z;
  fflush : F -> bool * F;
  fsize : F -> option nat;
  flock : F -> bool -> bool * F;
  setvbuf_none : F -> bool * F;
  errno : F -> Z }.
Section file.
Context {F : Type} `{CFile F}.
Variable fopen : list Z -> list Z -> option F.
Variable open_errno : Z.
Definition FileStream : Type := option F.
Definition FileStream_new : FileStream := None.
(** [fclose]: what the file holds is left to the system. *)
Definition FileStream_Close (s : FileStream) : FileStream := None.
(** The value, the error if there is one, and the stream. *)
Definition Open (filename mode : list Z) (s : FileStream) : bool * option Z * FileStream :=
  match fopen (c_str filename) (c_str mode) with
  | Some f => (true, None, Some f)
  | None => (false, Some open_errno, FileStream_Close s)
  end.
Definition DisableBuffering (s : FileStream) : bool * FileStream :=
  match s with None => (false, s) | Some f => let '(b, f) := setvbuf_none f in (b, Some f) end.
Definition FileStream_GetState (s : FileStream) : StreamState := match s with None => SS_CLOSED | Some _ => SS_OPEN end.
Definition FileStream_Read (s : FileStream) (buffer_len : nat) : StreamResult (list Z) * FileStream :=
  match s with
  | None => (SR_EOS, s)
  | Some f =>
    let '(data, f) := fread f buffer_len in
    if (length data =? 0)%nat && (0 <? buffer_len)%nat then (if feof f then SR_EOS else SR_ERROR (Some (errno f)), Some f)
    else (SR_SUCCESS data, Some f)
  end.
Definition FileStream_Write (s : FileStream) (data : list Z) : StreamResult nat * FileStream :=
  match s with
  | None => (SR_EOS, s)
  | Some f =>
    let '(result, f) := fwrite f data in
    if (result =? 0)%nat && (0 <? length data)%nat then (SR_ERROR (Some (errno f)), Some f) else (SR_SUCCESS result, Some f)
  end.
(** The position is cast to [int]. *)
Definition FileStream_SetPosition (s : FileStream) (position : nat) : option FileStream :=
  match s with None => None | Some f => Some <$> fseek f (i32 (Z.of_nat position)) end.
Definition FileStream_GetPosition (s : FileStream) : option nat :=
  f ← s; p ← ftell f; if p <? 0 then None else Some (Z.to_nat p).
Definition FileStream_GetSize (s : FileStream) : option nat := f ← s; fsize f.
Definition FileStream_GetAvailable (s : FileStream) : option nat :=
  size ← FileStream_GetSize s; p ← FileStream_GetPosition s; Some (Z.to_nat (u64 (Z.of_nat size - Z.of_nat p))).
Definition FileStream_ReserveSize (s : FileStream) (size : nat) : bool := true.
Definition FileStream_Flush (s : FileStream) : bool * FileStream :=
  match s with None => (false, s) | Some f => let '(b, f) := fflush f in (b, Some f) end.
Definition TryLock (s : FileStream) : bool * FileStream :=
  match s with None => (false, s) | Some f => let '(b, f) := flock f true in (b, Some f) end.
Definition Unlock (s : FileStream) : bool * FileStream :=
  match s with None => (false, s) | Some f => let '(b, f) := flock f false in (b, Some f) end.
#[global] Instance FileStream_stream : Stream FileStream := {
  GetState := FileStream_GetState; Read := FileStream_Read; Write := FileStream_Write; Close := FileStream_Close }.
#[global] Instance FileStream_seekable : Seekable FileStream := {
  SetPosition := FileStream_SetPosition; GetPosition := FileStream_GetPosition;
  GetSize := FileStream_GetSize; GetAvailable := FileStream_GetAvailable }.
End file.
Arguments FileStream : clear implicits.

(** What the C standard says of reading and writing: [rest f] is what is left to read, [done f] what was written. *)
Class CFile_laws (F : Type) `{CFile F} (good : F -> Prop) (rest done : F -> list Z) := {
  fread_law : forall f n, good f -> let '(data, f') := fread f n in
    good f' /\ (length data <= n)%nat /\ rest f = data ++ rest f' /\ (data = [] -> feof f' = true -> rest f = []);
  fwrite_law : forall f data, good f -> let '(n, f') := fwrite f data in
    good f' /\ (n <= length data)%nat /\ done f' = done f ++ take n data }.
Section file_laws.
Context {F : Type} `{CFile F} {good : F -> Prop} {rest done : F -> list Z} `{!CFile_laws F good rest done}.
Definition file_ok (s : FileStream F) : Prop := match s with Some f => good f | None => True end.
Definition file_content (s : FileStream F) : list Z := match s with Some f => rest f | None => [] end.
Definition file_written (s : FileStream F) : list Z := match s with Some f => done f | None => [] end.
#[global] Instance FileStream_source : Source (FileStream F) file_ok file_content.
Proof.
  split. intros [f|] n Hok Hn; cbn -[Nat.ltb Nat.eqb]; [|split; [exact I|split; reflexivity]]. pose proof (fread_law f n Hok) as Hr.
  destruct (fread f n) as [data f'] eqn:E. destruct Hr as (Hg & Hl & Hc & He).
  destruct (Nat.ltb_spec 0 n); [|lia]. destruct data as [|c data]; cbn -[Nat.ltb].
  - destruct (feof f') eqn:Ef; (split; [exact Hg|]); cbn in *; [|symmetry; exact Hc]. specialize (He eq_refl eq_refl). rewrite He in Hc. split; [exact He|symmetry; exact Hc].
  - split; [exact Hg|]. split; [discriminate|]. split; [exact Hl|exact Hc].
Qed.
#[global] Instance FileStream_sink : Sink (FileStream F) file_ok file_written.
Proof.
  split. intros [f|] data Hok Hd; cbn -[Nat.ltb Nat.eqb]; [|split; [exact I|reflexivity]]. pose proof (fwrite_law f data Hok) as Hr.
  destruct (fwrite f data) as [n f'] eqn:E. destruct Hr as (Hg & Hl & Hc).
  destruct data as [|c data]; [congruence|]. cbn [length Nat.ltb Nat.leb andb]. rewrite andb_true_r. destruct (Nat.eqb_spec n 0) as [->|Hn].
  - split; [exact Hg|]. cbn in *. rewrite app_nil_r in Hc. exact Hc.
  - split; [exact Hg|]. split; [cbn in Hl; lia|exact Hc].
Qed.
End file_laws.
(** A file in memory keeps the laws: what is written goes behind what is there, and is read from the front. *)
Record MemFile := mkMemFile { to_read : list Z; wrote : list Z; at_end : bool }.
#[local] Instance MemFile_cfile : CFile MemFile := {
  fread f n := (take n (to_read f), mkMemFile (drop n (to_read f)) (wrote f) (length (to_read f) <? n)%nat);
  feof := at_end;
  fwrite f data := (length data, mkMemFile (to_read f) (wrote f ++ data) (at_end f));
  fseek f p := None; ftell f := None; fflush f := (true, f); fsize f := None; flock f b := (true, f); setvbuf_none f := (true, f); errno f := 0 }.
#[local] Instance MemFile_laws : CFile_laws MemFile (fun _ => True) to_read wrote.
Proof.
  split; [intros f n _|intros f data _]; cbn.
  - split; [done|]. rewrite length_take, take_drop. split; [lia|]. split; [done|]. intros He Hf. apply Nat.ltb_lt in Hf.
    destruct (to_read f) as [|c l]; [done|]. destruct n; [cbn in Hf; lia|discriminate He].
  - split; [done|]. split; [done|]. by rewrite firstn_all.
Qed.

(** ** LoggingAdapter *)
(** What the log is told: the bytes of a call of [LogMultiline], [None] at the end of the data, or a line of text. *)
Inductive logged := Multiline (input : bool) (data : option (list Z)) | Says (text : list Z).
Section logging.
Context {S : Type} `{HS : Stream S}.
Record LoggingAdapter := mkLogging { adapted : S; label_ : list Z; log_ : list logged }.
Definition log (l : list logged) (s : LoggingAdapter) : LoggingAdapter := mkLogging (adapted s) (label_ s) (log_ s ++ l).
Definition set_adapted (x : S) (s : LoggingAdapter) : LoggingAdapter := mkLogging x (label_ s) (log_ s).
Definition set_label (label : list Z) (s : LoggingAdapter) : LoggingAdapter := mkLogging (adapted s) (bytes "[" ++ label ++ bytes "]") (log_ s).
Definition LoggingAdapter_new (stream : S) (label : list Z) : LoggingAdapter := set_label label (mkLogging stream [] []).
Definition Logging_Read (s : LoggingAdapter) (buffer_len : nat) : StreamResult (list Z) * LoggingAdapter :=
  let '(result, x) := Read (adapted s) buffer_len in
  let s := set_adapted x s in
  match result with SR_SUCCESS data => (result, log [Multiline true (Some data)] s) | _ => (result, s) end.
Definition Logging_Write (s : LoggingAdapter) (data : list Z) : StreamResult nat * LoggingAdapter :=
  let '(result, x) := Write (adapted s) data in
  let s := set_adapted x s in
  match result with SR_SUCCESS n => (result, log [Multiline false (Some (take n data))] s) | _ => (result, s) end.
Definition Logging_Close (s : LoggingAdapter) : LoggingAdapter :=
  set_adapted (Close (adapted s)) (log [Multiline false None; Multiline true None; Says (label_ s ++ bytes " Closed locally")] s).
(** The signal is passed on. *)
Definition Logging_OnEvent (events err : Z) (s : LoggingAdapter) : LoggingAdapter :=
  if negb (Z.land events SE_OPEN =? 0) then log [Says (label_ s ++ bytes " Open")] s
  else if negb (Z.land events SE_CLOSE =? 0)
  then log [Multiline false None; Multiline true None; Says (label_ s ++ bytes " Closed with error: " ++ print_d err)] s
  else s.
#[global] Instance LoggingAdapter_stream : Stream LoggingAdapter := {
  GetState s := GetState (adapted s); Read := Logging_Read; Write := Logging_Write; Close := Logging_Close }.
End logging.
Arguments LoggingAdapter : clear implicits.
(** What was logged of one direction. *)
Definition logged_data (input : bool) (l : list logged) : list Z :=
  concat (map (fun x => match x with Multiline i (Some d) => if Bool.eqb i input then d else [] | _ => [] end) l).
Arguments logged_data : simpl never.
Lemma logged_data_app input l m : logged_data input (l ++ m) = logged_data input l ++ logged_data input m.
Proof. unfold logged_data. by rewrite map_app, concat_app. Qed.
Section logging_laws.
Context {S : Type} `{HS : Stream S} {ok : S -> Prop} {content written : S -> list Z}.
(** The adapter reads and writes what the stream does. *)
#[global] Instance LoggingAdapter_source `{!Source S ok content} : Source (LoggingAdapter S) (ok ∘ adapted) (content ∘ adapted).
Proof.
  split. intros s n Hok Hn. cbn. unfold Logging_Read. pose proof (Read_source (adapted s) n Hok Hn) as Hr.
  by destruct (Read (adapted s) n) as [[e|d| |] x].
Qed.
#[global] Instance LoggingAdapter_sink `{!Sink S ok written} : Sink (LoggingAdapter S) (ok ∘ adapted) (written ∘ adapted).
Proof.
  split. intros s data Hok Hd. cbn. unfold Logging_Write. pose proof (Write_sink (adapted s) data Hok Hd) as Hw.
  by destruct (Write (adapted s) data) as [[e|d| |] x].
Qed.
(** The log has all that went through: the source is what was logged as read and what is left, the sink grew by what was logged as
    written. *)
Lemma log_Read `{!Source S ok content} input s n : ok (adapted s) -> (0 < n)%nat -> logged_data true (log_ s) ++ content (adapted s) = input ->
  logged_data true (log_ (Logging_Read s n).2) ++ content (adapted (Logging_Read s n).2) = input.
Proof.
  intros Hok Hn H. unfold Logging_Read. pose proof (Read_source (adapted s) n Hok Hn) as Hr.
  destruct (Read (adapted s) n) as [[e|d| |] x]; cbn in *; destruct Hr as [_ Hr]; [by rewrite Hr| |by rewrite Hr|destruct Hr as [Ha Hb]; by rewrite Hb, <- Ha].
  rewrite logged_data_app. destruct Hr as (_ & _ & Hr). rewrite Hr in H. unfold logged_data at 2. cbn. by rewrite app_nil_r, <- app_assoc.
Qed.
Lemma log_Write `{!Sink S ok written} output s data : ok (adapted s) -> data <> [] -> written (adapted s) = output ++ logged_data false (log_ s) ->
  written (adapted (Logging_Write s data).2) = output ++ logged_data false (log_ (Logging_Write s data).2).
Proof.
  intros Hok Hn H. unfold Logging_Write. pose proof (Write_sink (adapted s) data Hok Hn) as Hr.
  destruct (Write (adapted s) data) as [[e|d| |] x]; cbn in *; destruct Hr as [_ Hr]; [by rewrite Hr| |by rewrite Hr..].
  destruct Hr as (_ & Hr). rewrite Hr, H, logged_data_app. unfold logged_data at 3. cbn. by rewrite app_nil_r, <- app_assoc.
Qed.
End logging_laws.

(** ** StreamReference

    References are numbers.  The threads of a program run interleaved: [Release] counts down under the lock and deletes
    afterwards, so a reference that is going may be between the two. *)
Record Refs := mkRefs { references : gset nat; ref_count_ : Z; deleting : nat; stream_alive : bool; count_alive : bool }.
Definition StreamReference_new (r : nat) : Refs := mkRefs {[r]} 1 0 true true.
(** [AddReference] through a living reference; the new one connects to the events of the stream. *)
Definition NewReference (r' : nat) (s : Refs) : outcome Refs :=
  if stream_alive s && count_alive s then Done (mkRefs ({[r']} ∪ references s) (ref_count_ s + 1) (deleting s) (stream_alive s) (count_alive s)) else Undefined.
(** The destructor up to the test of [ref_count]. *)
Definition StreamReference_delete (r : nat) (s : Refs) : outcome Refs :=
  if count_alive s then
    let n := ref_count_ s - 1 in
    Done (mkRefs (references s ∖ {[r]}) n (if n =? 0 then Datatypes.S (deleting s) else deleting s) (stream_alive s) (count_alive s))
  else Undefined.
(** [delete stream_; delete this]. *)
Definition Release_delete (s : Refs) : outcome Refs :=
  if stream_alive s && count_alive s then Done (mkRefs (references s) (ref_count_ s) (pred (deleting s)) false false) else Undefined.
Inductive ref_step := AddRef (r r' : nat) | DropRef (r : nat) | FinishDrop.
(** What programs may do: use references that live. *)
Definition ref_legal (a : ref_step) (s : Refs) : bool :=
  match a with
  | AddRef r r' => bool_decide (r ∈ references s) && bool_decide (r' ∉ references s)
  | DropRef r => bool_decide (r ∈ references s)
  | FinishDrop => (0 <? deleting s)%nat
  end.
Definition ref_do (a : ref_step) (s : Refs) : outcome Refs :=
  match a with AddRef _ r' => NewReference r' s | DropRef r => StreamReference_delete r s | FinishDrop => Release_delete s end.
Fixpoint ref_run (l : list ref_step) (s : Refs) : outcome Refs :=
  match l with [] => Done s | a :: l => if ref_legal a s then s ← ref_do a s; ref_run l s else ref_run l s end.
Record refs_ok (s : Refs) : Prop := {
  refs_count : ref_count_ s = Z.of_nat (size (references s));
  refs_used : references s <> ∅ -> deleting s = 0%nat /\ stream_alive s = true /\ count_alive s = true;
  refs_done : references s = ∅ -> (deleting s = 1%nat /\ stream_alive s = true /\ count_alive s = true) \/
    (deleting s = 0%nat /\ stream_alive s = false /\ count_alive s = false) }.
Lemma ref_do_ok a s : refs_ok s -> ref_legal a s = true -> exists s', ref_do a s = Done s' /\ refs_ok s'.
Proof.
  intros [H1 H2 H3] Hl. destruct a as [r r'|r|]; cbn [ref_legal ref_do] in *.
  - apply andb_prop in Hl as [Hr%bool_decide_eq_true Hr'%bool_decide_eq_true]. destruct H2 as (Hd & Hs & Hc); [intros He; rewrite He in Hr; by apply not_elem_of_empty in Hr|].
    unfold NewReference. rewrite Hs, Hc. cbn [andb]. eexists. split; [done|]. split; cbn; [|done|].
    + rewrite size_union, size_singleton by set_solver. lia.
    + intros He. exfalso. assert (Hin : r' ∈ {[r']} ∪ references s) by (apply elem_of_union; left; by apply elem_of_singleton). rewrite He in Hin. by apply not_elem_of_empty in Hin.
  - apply bool_decide_eq_true in Hl. destruct H2 as (Hd & Hs & Hc); [intros He; rewrite He in Hl; by apply not_elem_of_empty in Hl|].
    assert (Hsz : size (references s) = Datatypes.S (size (references s ∖ {[r]}))).
    { rewrite (union_difference_L {[r]} (references s)) at 1 by set_solver.
      rewrite size_union, size_singleton by set_solver. done. }
    unfold StreamReference_delete. rewrite Hc. cbv zeta. eexists. split; [done|]. split; cbn.
    + lia.
    + intros Hne. split; [|done]. destruct (Z.eqb_spec (ref_count_ s - 1) 0) as [E|]; [|done]. exfalso. apply Hne.
      apply leibniz_equiv, size_empty_inv. lia.
    + intros He. left. split; [|done]. rewrite He, size_empty in Hsz. destruct (Z.eqb_spec (ref_count_ s - 1) 0); lia.
  - apply Nat.ltb_lt in Hl. destruct (decide (references s = ∅)) as [He|He]; [|destruct (H2 He); lia].
    destruct (H3 He) as [(Hd & Hs & Hc)|(Hd & _)]; [|lia]. unfold Release_delete. rewrite Hs, Hc. eexists. split; [done|].
    split; cbn; [done|done|]. intros _. right. by rewrite Hd.
Qed.
(** However threads copy and drop references, nothing that is gone is used, and the stream is deleted once, after the last one. *)
Theorem stream_lives_with_references l r : exists s, ref_run l (StreamReference_new r) = Done s /\
  (references s <> ∅ -> stream_alive s = true) /\ (references s = ∅ -> deleting s = 0%nat -> stream_alive s = false).
Proof.
  assert (H : forall l s, refs_ok s -> exists s', ref_run l s = Done s' /\ refs_ok s').
  { intros l0. induction l0 as [|a l0 IH]; intros s Hs; [by exists s|]. cbn [ref_run]. destruct (ref_legal a s) eqn:El; [|by apply IH].
    destruct (ref_do_ok a s Hs El) as (s1 & -> & Hs1). run. by apply IH. }
  destruct (H l (StreamReference_new r)) as (s & E & [H1 H2 H3]).
  - split; cbn; [by rewrite size_singleton|done|]. intros He. exfalso. assert (Hin : r ∈ ({[r]} : gset nat)) by (by apply elem_of_singleton). rewrite He in Hin. by apply not_elem_of_empty in Hin.
  - exists s. split; [done|]. split; [intros Hr; by apply H2|]. intros Hr Hd. destruct (H3 Hr) as [(Hd' & _)|(_ & Hs & _)]; [lia|done].
Qed.

(** ** StreamAdapterInterface

    An adapter and the streams there are; [connected]: those whose events go to the adapter. *)
Record Adapter := mkAdapter { adapter_stream : option nat; owned_ : bool }.
Record Streams := mkStreams { living : gset nat; connected : gset nat }.
Definition connect (x : option nat) (w : Streams) : Streams :=
  match x with Some i => mkStreams (living w) ({[i]} ∪ connected w) | None => w end.
Definition disconnect (x : option nat) (w : Streams) : outcome Streams :=
  match x with
  | Some i => if decide (i ∈ living w) then Done (mkStreams (living w) (connected w ∖ {[i]})) else Undefined
  | None => Done w
  end.
Definition delete_stream (x : option nat) (w : Streams) : outcome Streams :=
  match x with
  | Some i => if decide (i ∈ living w) then Done (mkStreams (living w ∖ {[i]}) (connected w ∖ {[i]})) else Undefined
  | None => Done w
  end.
Definition StreamAdapter_new (x : option nat) (owned : bool) (w : Streams) : Adapter * Streams := (mkAdapter x owned, connect x w).
Definition Attach (x : option nat) (owned : bool) (a : Adapter) (w : Streams) : outcome (Adapter * Streams) :=
  w ← disconnect (adapter_stream a) w;
  w ← (if owned_ a then delete_stream (adapter_stream a) w else Done w);
  match x with
  | Some i => if decide (i ∈ living w) then Done (mkAdapter x owned, connect x w) else Undefined
  | None => Done (mkAdapter x owned, w)
  end.
Definition Detach (a : Adapter) (w : Streams) : outcome (option nat * Adapter * Streams) :=
  w ← disconnect (adapter_stream a) w; Done (adapter_stream a, mkAdapter None (owned_ a), w).
(** The adapter's own end takes its connections away. *)
Definition delete_adapter (a : Adapter) (w : Streams) : outcome Streams :=
  w ← (if owned_ a then delete_stream (adapter_stream a) w else Done w); Done (mkStreams (living w) ∅).
Definition adapter_ok (a : Adapter) (w : Streams) : Prop :=
  match adapter_stream a with Some i => i ∈ living w /\ connected w = {[i]} | None => connected w = ∅ end.
Lemma Attach_ok i owned a w : adapter_ok a w -> i ∈ living w -> adapter_stream a <> Some i ->
  exists w', Attach (Some i) owned a w = Done (mkAdapter (Some i) owned, w') /\ adapter_ok (mkAdapter (Some i) owned) w' /\
    living w' = match adapter_stream a with Some j => if owned_ a then living w ∖ {[j]} else living w | None => living w end.
Proof.
  intros Ha Hi Hne. unfold Attach, adapter_ok in *. destruct (adapter_stream a) as [j|]; cbn [disconnect].
  - destruct Ha as [Hj Hc]. rewrite decide_True by done. run. destruct (owned_ a); cbn [delete_stream living].
    + rewrite decide_True by done. run. cbn [living]. rewrite decide_True by set_solver. eexists. split; [done|]. cbn. rewrite Hc. split; [|done].
      split; [set_solver|]. set_solver.
    + run. cbn [living]. rewrite decide_True by done. eexists. split; [done|]. cbn. rewrite Hc. split; [|done]. split; [done|]. set_solver.
  - run. destruct (owned_ a); cbn [delete_stream]; run; rewrite decide_True by done; eexists; (split; [done|]); cbn; rewrite Ha; (split; [|done]);
      (split; [done|set_solver]).
Qed.
Lemma Detach_ok a w : adapter_ok a w -> exists w', Detach a w = Done (adapter_stream a, mkAdapter None (owned_ a), w') /\
  adapter_ok (mkAdapter None (owned_ a)) w' /\ living w' = living w.
Proof.
  intros Ha. unfold Detach, adapter_ok in *. destruct (adapter_stream a) as [j|]; cbn [disconnect]; [|run; by eexists].
  destruct Ha as [Hj Hc]. rewrite decide_True by done. run. eexists. split; [done|]. cbn. rewrite Hc. split; [set_solver|done].
Qed.
(** A stream that is attached again is deleted first. *)
Example attached_again : Attach (Some 1%nat) true (mkAdapter (Some 1%nat) true) (mkStreams {[1%nat]} {[1%nat]}) = Undefined.
Proof. vm_compute. reflexivity. Qed.
