(* ===== verification/FileOpening.v ===== *)
(** * base/stream.cpp, base/win32.cpp, base/vzfile.cpp: opening files and pipes

    [FileStream] as it opens on Windows, where the name goes through a conversion that is not there; streams on pipes, with the
    pipes that were closed in order; and the files [CVzFile] writes and reads as a whole.  What the system gives for a name is a parameter. *)
From Stdlib Require Import Ascii String.
From S2P Require Import Prelude Text Stream StreamAdapters.

(** ** FileStream on Windows *)
(** The body is commented out. *)
Definition Utf8ToWindowsFilename (utf8 : list Z) : option (list Z) := None.
Section windows.
Context {F : Type}.
Variable MultiByteToWideChar : list Z -> list Z.
Variable wfopen : list Z -> list Z -> option F.
Variable wfsopen : list Z -> list Z -> Z -> option F.
Variable open_errno : Z.
Definition ToUtf16 (utf8 : list Z) : list Z := MultiByteToWideChar utf8.
(** The value, the error if there is one, and the stream, which was closed first. *)
Definition Open_win (filename mode : list Z) (s : FileStream F) : bool * option Z * FileStream F :=
  match Utf8ToWindowsFilename filename with
  | Some wfilename =>
    match wfopen wfilename (ToUtf16 (c_str mode)) with Some f => (true, None, Some f) | None => (false, Some open_errno, FileStream_Close s) end
  | None => (false, Some (-1), FileStream_Close s)
  end.
Definition OpenShare_win (filename mode : list Z) (shflag : Z) (s : FileStream F) : bool * option Z * FileStream F :=
  match Utf8ToWindowsFilename filename with
  | Some wfilename =>
    match wfsopen wfilename (ToUtf16 (c_str mode)) shflag with Some f => (true, None, Some f) | None => (false, Some open_errno, FileStream_Close s) end
  | None => (false, Some (-1), FileStream_Close s)
  end.
(** No file is ever opened there, whatever the system would give. *)
Lemma never_opens_win filename mode shflag s :
  Open_win filename mode s = (false, Some (-1), None) /\ OpenShare_win filename mode shflag s = (false, Some (-1), None).
Proof. done. Qed.
End windows.
(** Elsewhere the sharing flag is left out. *)
Definition OpenShare {F} (fopen : list Z -> list Z -> option F) (open_errno : Z) (filename mode : list Z) (shflag : Z) (s : FileStream F) : bool * option Z * FileStream F :=
  Open fopen open_errno filename mode s.
Definition GetSize_of (stat : list Z -> option nat) (filename : list Z) : option nat := stat (c_str filename).

(** ** POpenStream *)
Section pipes.
Context {P : Type}.
(** A command that runs can be told from every other by its pipe. *)
Variable popen : list Z -> list Z -> nat -> option P.
Variable pclose : P -> Z.
Variable open_errno : Z.
(** [closed]: the pipes given to [pclose]. *)
Record POpenStream := mkPOpen { file_ : FileStream P; wait_status_ : Z; closed : list P }.
Definition POpenStream_new : POpenStream := mkPOpen None (-1) [].
Definition GetWaitStatus (s : POpenStream) : Z := wait_status_ s.
Definition DoClose (p : P) (s : POpenStream) : POpenStream := mkPOpen (file_ s) (pclose p) (closed s ++ [p]).
Definition POpen_Close (s : POpenStream) : POpenStream :=
  match file_ s with Some p => let s := DoClose p s in mkPOpen None (wait_status_ s) (closed s) | None => s end.
Definition POpen_Open (subcommand mode : list Z) (n : nat) (s : POpenStream) : bool * option Z * POpenStream :=
  let s := POpen_Close s in
  match popen (c_str subcommand) (c_str mode) n with
  | Some p => (true, None, mkPOpen (Some p) (wait_status_ s) (closed s))
  | None => (false, Some open_errno, s)
  end.
Definition POpen_OpenShare (subcommand mode : list Z) (shflag : Z) (n : nat) (s : POpenStream) : bool * option Z * POpenStream := POpen_Open subcommand mode n s.
(** The destructor of the base class finds the file closed. *)
Definition delete_POpenStream (s : POpenStream) : POpenStream := POpen_Close (POpen_Close s).
(** What is done with a stream: opening, with or without sharing, and closing; the [n]-th call. *)
Inductive pipe_call := CallOpen (subcommand mode : list Z) | CallOpenShare (subcommand mode : list Z) (shflag : Z) | CallClose.
Definition pipe_step (n : nat) (c : pipe_call) (s : POpenStream) : list P * POpenStream :=
  match c with
  | CallOpen cmd mode => let s := (POpen_Open cmd mode n s).2 in (option_list (file_ s), s)
  | CallOpenShare cmd mode shflag => let s := (POpen_OpenShare cmd mode shflag n s).2 in (option_list (file_ s), s)
  | CallClose => ([], POpen_Close s)
  end.
(** With all pipes that were opened. *)
Fixpoint pipe_steps (n : nat) (l : list pipe_call) (s : POpenStream) : list P * POpenStream :=
  match l with [] => ([], s) | c :: l => let '(opened, s) := pipe_step n c s in let '(more, s) := pipe_steps (S n) l s in (opened ++ more, s) end.
Definition all_pipes (s : POpenStream) : list P := closed s ++ option_list (file_ s).
Lemma Close_all s : closed (POpen_Close s) = all_pipes s /\ file_ (POpen_Close s) = None.
Proof. unfold POpen_Close, all_pipes. destruct (file_ s) as [p|] eqn:E; cbn; [done|]. by rewrite app_nil_r. Qed.
Lemma Open_all cmd mode n s : all_pipes (POpen_Open cmd mode n s).2 = all_pipes s ++ option_list (file_ (POpen_Open cmd mode n s).2).
Proof.
  destruct (Close_all s) as [H1 H2]. unfold POpen_Open. destruct (popen _ _ n); cbn; unfold all_pipes at 1; cbn; [by rewrite H1|by rewrite H1, H2].
Qed.
Lemma steps_all l : forall n s, all_pipes (pipe_steps n l s).2 = all_pipes s ++ (pipe_steps n l s).1.
Proof.
  induction l as [|c l IH]; intros n s; [cbn; by rewrite app_nil_r|]. cbn [pipe_steps]. destruct (pipe_step n c s) as [opened s1] eqn:E.
  assert (H : all_pipes s1 = all_pipes s ++ opened).
  { destruct c as [cmd mode|cmd mode shflag|]; injection E as <- <-; [apply Open_all|apply Open_all|]. destruct (Close_all s) as [H1 H2]. unfold all_pipes at 1. by rewrite H1, H2. }
  specialize (IH (S n) s1). destruct (pipe_steps (S n) l s1) as [more s2]. cbn in *. by rewrite IH, H, app_assoc.
Qed.
(** Whatever is opened and closed in whatever order, when the stream is gone each pipe that was opened was closed once, in this order, and the status is that of the last one. *)
Theorem pipes_closed_once n l : let '(opened, s) := pipe_steps n l POpenStream_new in
  closed (delete_POpenStream s) = opened /\ file_ (delete_POpenStream s) = None /\ forall p, file_ s = Some p -> GetWaitStatus (delete_POpenStream s) = pclose p.
Proof.
  pose proof (steps_all l n POpenStream_new) as H. destruct (pipe_steps n l POpenStream_new) as [opened s]. cbn in H. unfold delete_POpenStream. destruct (Close_all s) as [H1 H2].
  assert (E : POpen_Close (POpen_Close s) = POpen_Close s) by (unfold POpen_Close at 1; by rewrite H2). rewrite E. split_and!; [by rewrite H1|done|].
  intros p Hp. unfold POpen_Close. by rewrite Hp.
Qed.
End pipes.

(** ** CVzFile *)
Section vzfile.
Context {F : Type} `{CFile F}.
Variable fopen : list Z -> list Z -> option F.
(** The value, and the file that was written, which is closed. *)
Definition write_whole (mode filepath data : list Z) : bool * option F :=
  match fopen (c_str filepath) mode with
  | None => (false, None)
  | Some fp => let '(num, fp) := fwrite fp data in (0 <? i32 (Z.of_nat num), Some fp)
  end.
Definition WriteFile (filepath pData : list Z) : bool * option F := write_whole (bytes "wb+") filepath pData.
Definition WriteTxtFile (filepath pText : list Z) : bool * option F := write_whole (bytes "w+") filepath (c_str pText).
(** The text is not terminated. *)
Definition ReadTextFile (filepath : list Z) (max_len : nat) : bool * list Z :=
  match fopen (c_str filepath) (bytes "r") with
  | None => (false, [])
  | Some fp => let '(data, fp) := fread fp max_len in (0 <? i32 (Z.of_nat (length data)), data)
  end.
End vzfile.
(** A text of some bytes is in the file when the system takes it. *)
Lemma WriteFile_done {F} `{CFile F} (fopen : list Z -> list Z -> option F) filepath data fp fp' : fopen (c_str filepath) (bytes "wb+") = Some fp ->
  fwrite fp data = (length data, fp') -> 0 < Z.of_nat (length data) < 2 ^ 31 -> WriteFile fopen filepath data = (true, Some fp').
Proof.
  intros E1 E2 Hl. unfold WriteFile, write_whole. rewrite E1, E2. f_equal. apply Z.ltb_lt. rewrite i32_id; lia.
Qed.
(** A disk with room for [room] more bytes. *)
Record FullDisk := mkDisk { room : nat; on_disk : list Z }.
#[local] Instance FullDisk_cfile : CFile FullDisk := {
  fread f n := (take n (on_disk f), f); feof f := true; fwrite f data := (length (take (room f) data), mkDisk (room f - length data) (on_disk f ++ take (room f) data));
  fseek f p := None; ftell f := None; fflush f := (true, f); fsize f := None; flock f b := (true, f); setvbuf_none f := (true, f); errno f := 28 }.
(** An image that is cut short counts as saved, and an empty text as failed. *)
Example short_write_succeeds : WriteFile (fun _ _ => Some (mkDisk 2 [])) (bytes "a.jpg") [1; 2; 3; 4] = (true, Some (mkDisk 0 [1; 2])) /\
  WriteTxtFile (fun _ _ => Some (mkDisk 2 [])) (bytes "a.txt") [] = (false, Some (mkDisk 2 [])).
Proof. done. Qed.
