(* ===== verification/AsyncWrite.v ===== *)
(** * base/stream.cpp: AsyncWriteStream

    Data are appended to a buffer, and a thread that is told so by a message writes them to
    the stream; [Flush], [Close] and the destructor write them themselves.  The client's thread
    and the writing thread run interleaved: a step is what happens under one lock.  The stream
    takes as many bytes of what it is given as the step says, and none once it is closed; the result
    of [WriteAll] is not looked at, so nobody is told of the rest.  The queue of the writing thread is the number of messages for this object in it. *)
From S2P Require Import Prelude.

Section async.
Context {Byte : Type}.
(** Where the client's thread is: elsewhere; in [Write], which has to post or not; in [ClearBufferAndWrite] with what it
    took, before what it does next. *)
Inductive continuation := ThenFlush | ThenClose | ThenDelete.
Inductive client := Elsewhere | Posting | Taking (k : continuation) | Putting (to_write : list Byte) (k : continuation)
  | Ending (k : continuation).
(** [writer]: what the writing thread took in [ClearBufferAndWrite]; [accepted]: what [Write] took, in order;
    [flushes]: calls of [Flush] of the stream; [lost]: what was written to the stream after it was closed;
    [refused]: what the open stream did not take. *)
Record AsyncWriteStream := mkAsync {
  buffer_ : list Byte; closed_ : bool; alive : bool; posted : nat; at_ : client; writer : option (list Byte);
  stream_ : list Byte; flushes : nat; accepted : list Byte; lost : list Byte; refused : list Byte }.
Definition set_buffer (b : list Byte) (s : AsyncWriteStream) : AsyncWriteStream :=
  mkAsync b (closed_ s) (alive s) (posted s) (at_ s) (writer s) (stream_ s) (flushes s) (accepted s) (lost s) (refused s).
Definition go_to (c : client) (s : AsyncWriteStream) : AsyncWriteStream :=
  mkAsync (buffer_ s) (closed_ s) (alive s) (posted s) c (writer s) (stream_ s) (flushes s) (accepted s) (lost s) (refused s).
Definition set_posted (n : nat) (s : AsyncWriteStream) : AsyncWriteStream :=
  mkAsync (buffer_ s) (closed_ s) (alive s) n (at_ s) (writer s) (stream_ s) (flushes s) (accepted s) (lost s) (refused s).
Definition set_writer (w : option (list Byte)) (s : AsyncWriteStream) : AsyncWriteStream :=
  mkAsync (buffer_ s) (closed_ s) (alive s) (posted s) (at_ s) w (stream_ s) (flushes s) (accepted s) (lost s) (refused s).
(** [stream_->WriteAll] of [l], of which an open stream takes [n] bytes. *)
Definition put (n : nat) (l : list Byte) (s : AsyncWriteStream) : AsyncWriteStream :=
  if closed_ s
  then mkAsync (buffer_ s) (closed_ s) (alive s) (posted s) (at_ s) (writer s) (stream_ s) (flushes s) (accepted s) (lost s ++ l) (refused s)
  else mkAsync (buffer_ s) (closed_ s) (alive s) (posted s) (at_ s) (writer s) (stream_ s ++ take n l) (flushes s) (accepted s) (lost s)
    (refused s ++ drop n l).
Definition accept (l : list Byte) (s : AsyncWriteStream) : AsyncWriteStream :=
  mkAsync (buffer_ s ++ l) (closed_ s) (alive s) (posted s) (at_ s) (writer s) (stream_ s) (flushes s) (accepted s ++ l) (lost s) (refused s).
Definition finish (k : continuation) (s : AsyncWriteStream) : AsyncWriteStream :=
  match k with
  | ThenFlush => mkAsync (buffer_ s) (closed_ s) (alive s) (posted s) Elsewhere (writer s) (stream_ s) (S (flushes s)) (accepted s) (lost s) (refused s)
  | ThenClose => mkAsync (buffer_ s) true (alive s) (posted s) Elsewhere (writer s) (stream_ s) (flushes s) (accepted s) (lost s) (refused s)
  | ThenDelete => mkAsync (buffer_ s) (closed_ s) false (posted s) Elsewhere (writer s) (stream_ s) (flushes s) (accepted s) (lost s) (refused s)
  end.
(** [opened]: the stream is there and is not closed. *)
Definition AsyncWriteStream_new (opened : bool) : AsyncWriteStream := mkAsync [] (negb opened) true 0 Elsewhere None [] 0 [] [] [].

(** ** The steps *)
Definition is_nil (l : list Byte) : bool := match l with [] => true | _ => false end.
Definition Write (data : list Byte) (s : AsyncWriteStream) : AsyncWriteStream :=
  if closed_ s then s
  else go_to (if is_nil (buffer_ s) then Posting else Elsewhere) (accept data s).
Definition Flush (s : AsyncWriteStream) : AsyncWriteStream := if closed_ s then s else go_to (Taking ThenFlush) s.
(** [Clear] takes the messages for this object out of the queue. *)
Definition Close (s : AsyncWriteStream) : AsyncWriteStream := if closed_ s then s else go_to (Taking ThenClose) (set_posted 0 s).
Definition delete_stream (s : AsyncWriteStream) : AsyncWriteStream := go_to (Taking ThenDelete) (set_posted 0 s).
(** [n]: what the stream takes, if the step writes to it. *)
Inductive action := CallWrite (data : list Byte) | CallFlush | CallClose | CallDelete | Client (n : nat) | Writer (n : nat).
Definition client_step (n : nat) (s : AsyncWriteStream) : option AsyncWriteStream :=
  match at_ s with
  | Elsewhere => None
  | Posting => Some (go_to Elsewhere (set_posted (S (posted s)) s))
  | Taking k => Some (go_to (Putting (buffer_ s) k) (set_buffer [] s))
  | Putting l k => Some (go_to (Ending k) (put n l s))
  | Ending k => Some (finish k s)
  end.
(** [OnMessage]. *)
Definition writer_step (n : nat) (s : AsyncWriteStream) : option (outcome AsyncWriteStream) :=
  match writer s with
  | Some l => Some (if alive s then Done (set_writer None (put n l s)) else Undefined)
  | None =>
    match posted s with
    | O => None
    | S m => Some (if alive s then Done (set_writer (Some (buffer_ s)) (set_posted m (set_buffer [] s))) else Undefined)
    end
  end.
Definition when_free (s : AsyncWriteStream) (s' : AsyncWriteStream) : option (outcome AsyncWriteStream) :=
  match at_ s with Elsewhere => if alive s then Some (Done s') else None | _ => None end.
Definition step (a : action) (s : AsyncWriteStream) : option (outcome AsyncWriteStream) :=
  match a with
  | CallWrite data => when_free s (Write data s)
  | CallFlush => when_free s (Flush s)
  | CallClose => when_free s (Close s)
  | CallDelete => when_free s (delete_stream s)
  | Client n => Done <$> client_step n s
  | Writer n => writer_step n s
  end.
Fixpoint exec (l : list action) (s : AsyncWriteStream) : option (outcome AsyncWriteStream) :=
  match l with
  | [] => Some (Done s)
  | a :: l => match step a s with Some (Done s) => exec l s | r => r end
  end.

(** ** Nothing is lost *)
Definition in_writer (s : AsyncWriteStream) : list Byte := default [] (writer s).
Definition in_client (s : AsyncWriteStream) : list Byte := match at_ s with Putting l _ => l | _ => [] end.
Definition in_stream (s : AsyncWriteStream) : list Byte := stream_ s ++ lost s ++ refused s.
(** The client writes the buffer itself, or has to tell the writing thread of it. *)
Definition told (s : AsyncWriteStream) : Prop :=
  (0 < posted s)%nat \/ at_ s = Posting \/ exists k, at_ s = Taking k.
(** The client is past the first half of [ClearBufferAndWrite]. *)
Definition taken (s : AsyncWriteStream) : bool := match at_ s with Putting _ _ | Ending _ => true | _ => false end.
Record ok (s : AsyncWriteStream) : Prop := {
  ok_all : in_stream s ++ in_writer s ++ in_client s ++ buffer_ s ≡ₚ accepted s;
  ok_told : buffer_ s <> [] -> told s;
  ok_empty : closed_ s = true \/ alive s = false \/ taken s = true -> buffer_ s = [];
  ok_open : closed_ s = false -> lost s = [] }.
(** As long as only the writing thread writes, also the order is kept. *)
Definition ordered (s : AsyncWriteStream) : Prop :=
  stream_ s ++ in_writer s ++ buffer_ s `sublist_of` accepted s /\
  (refused s = [] -> stream_ s ++ in_writer s ++ buffer_ s = accepted s) /\
  (at_ s = Elsewhere \/ at_ s = Posting) /\ (closed_ s = true -> buffer_ s = [] /\ in_writer s = []).
Definition only_writes (a : action) : Prop := match a with CallWrite _ | Client _ | Writer _ => True | _ => False end.

Lemma when_free_Done s s' s1 : when_free s s' = Some (Done s1) -> at_ s = Elsewhere /\ alive s = true /\ s1 = s'.
Proof. unfold when_free. destruct (at_ s); try done. destruct (alive s); [|done]. by intros [= <-]. Qed.
Lemma put_fields n l s :
  buffer_ (put n l s) = buffer_ s /\ closed_ (put n l s) = closed_ s /\ alive (put n l s) = alive s /\ posted (put n l s) = posted s /\
  at_ (put n l s) = at_ s /\ writer (put n l s) = writer s /\ accepted (put n l s) = accepted s /\
  in_stream (put n l s) ≡ₚ in_stream s ++ l /\ (closed_ s = false -> lost (put n l s) = lost s).
Proof.
  unfold put, in_stream. destruct (closed_ s) eqn:E; cbn; rewrite ?E; repeat (split; [done|]); split; try done.
  - rewrite <- !app_assoc. do 2 apply Permutation_app_head. apply Permutation_app_comm.
  - rewrite <- (take_drop n l) at 3. generalize (take n l) (drop n l). intros l1 l2. by solve_Permutation.
Qed.
Lemma step_ordered a s s' : only_writes a -> step a s = Some (Done s') -> ordered s -> ordered s'.
Proof.
  intros Ha E (Ho & He & Hat & Hc). destruct a as [data| | | |n|n]; try done; cbn [step] in E.
  - apply when_free_Done in E as (Hel & _ & ->). unfold Write. destruct (closed_ s) eqn:Ec.
    { split; [done|]. split; [done|]. split; [by left|]. by rewrite Ec. }
    unfold ordered, in_writer in *. cbn. rewrite Ec. split; [|split; [|split; [|done]]].
    + rewrite !app_assoc. apply sublist_app; [|done]. by rewrite <- app_assoc.
    + intros Hr. rewrite <- (He Hr). by rewrite !app_assoc.
    + destruct (is_nil (buffer_ s)); auto.
  - unfold client_step in E. destruct Hat as [Hat|Hat]; rewrite Hat in E; [done|]. injection E as <-. by split_and!; auto.
  - unfold writer_step, in_writer in *. destruct (writer s) as [l|] eqn:Ew.
    + destruct (alive s); [|done]. injection E as <-. unfold put. destruct (closed_ s) eqn:Ec; unfold ordered, in_writer in *; cbn in *.
      * destruct (Hc eq_refl) as [Hb ->]. by rewrite Hb in *.
      * split_and!; [|intros Hr|done..].
        -- etransitivity; [|exact Ho]. rewrite <- app_assoc. apply sublist_app; [done|]. apply sublist_app; [apply sublist_take|done].
        -- apply app_eq_nil in Hr as [Hr Hd]. rewrite <- (He Hr). rewrite <- (take_drop n l) at 2. rewrite Hd, app_nil_r. by rewrite app_assoc.
    + destruct (posted s); [done|]. destruct (alive s); [|done]. injection E as <-. unfold ordered, in_writer in *. cbn in *.
    rewrite app_nil_r. split_and!; [done..|]. intros Hn. by split; [|apply Hc].
Qed.
Lemma taking_ok n k s : at_ s = Elsewhere -> ok s -> ok (go_to (Taking k) (set_posted n s)).
Proof.
  intros He [H1 H2 H3 H4]. unfold in_client in H1. rewrite He in H1.
  split; [done|intros _; right; right; by exists k| |done]. intros [?|[?|[=]]]; auto.
Qed.
Lemma async_step_ok a s s' : step a s = Some (Done s') -> ok s -> ok s'.
Proof.
  intros E Hs. pose proof Hs as [H1 H2 H3 H4]. destruct a as [data| | | |n|n]; cbn [step] in E.
  - apply when_free_Done in E as (He & Hal & ->). unfold Write. destruct (closed_ s) eqn:Ec; [exact Hs|]. unfold in_client, told in *. rewrite He in H1, H2. split; cbn.
    + rewrite <- H1. unfold in_client, in_writer, in_stream. cbn. destruct (is_nil (buffer_ s)); cbn; by rewrite !app_assoc.
    + intros _. unfold told. cbn. destruct (is_nil (buffer_ s)) eqn:En; [right; by left|]. left.
      assert (Hb : buffer_ s <> []) by (intros Hn; by rewrite Hn in En). by destruct (H2 Hb) as [Hp|[Hp|[k Hp]]].
    + unfold taken. cbn. rewrite Ec, Hal. intros [?|[?|Hp]]; [done..|]. by destruct (is_nil (buffer_ s)).
    + by rewrite Ec.
  - apply when_free_Done in E as (He & Hal & ->). unfold Flush. destruct (closed_ s); [exact Hs|]. by apply (taking_ok (posted s)).
  - apply when_free_Done in E as (He & Hal & ->). unfold Close. destruct (closed_ s); [exact Hs|]. by apply taking_ok.
  - apply when_free_Done in E as (He & Hal & ->). unfold delete_stream. by apply taking_ok.
  - unfold client_step in E. destruct (at_ s) as [| |k|l k|k] eqn:Ea; [done| | | |]; injection E as <-; unfold in_client, taken in H1, H3; rewrite Ea in H1, H3.
    + split; [done|intros _; left; cbn; lia| |done]. intros [?|[?|[=]]]; auto.
    + split; [|done..]. cbn. rewrite <- H1. unfold in_writer, in_stream. cbn. by rewrite app_nil_r.
    + destruct (put_fields n l s) as (Pb & Pc & Pa & Pp & Pat & Pw & Pac & Pin & Po).
      assert (Hb : buffer_ s = []) by auto. split.
      * change (in_stream (put n l s) ++ in_writer (put n l s) ++ [] ++ buffer_ (put n l s) ≡ₚ accepted (put n l s)).
        rewrite Pin, Pb, Pac, <- H1, Hb. unfold in_writer. rewrite Pw. cbn. rewrite !app_nil_r, <- app_assoc.
        apply Permutation_app_head, Permutation_app_comm.
      * cbn. rewrite Pb, Hb. done.
      * cbn. by rewrite Pb.
      * cbn. rewrite Pc. intros Hc. rewrite (Po Hc). auto.
    + assert (Hb : buffer_ s = []) by auto. rewrite Hb in H1.
      destruct k; (split; [cbn; by rewrite Hb|cbn; by rewrite Hb|by cbn|done || by intros [=]]).
  - unfold writer_step in E. destruct (writer s) as [l|] eqn:Ew.
    + destruct (alive s) eqn:Eal; [|done]. injection E as <-. destruct (put_fields n l s) as (Pb & Pc & Pa & Pp & Pat & Pw & Pac & Pin & Po).
      unfold in_writer, in_client, told, taken in *. rewrite Ew in H1. split.
      * change (in_stream (put n l s) ++ [] ++ in_client (put n l s) ++ buffer_ (put n l s) ≡ₚ accepted (put n l s)).
        unfold in_client. rewrite Pin, Pb, Pac, Pat, <- H1. cbn. by rewrite <- app_assoc.
      * cbn. unfold told. cbn. by rewrite Pb, Pp, Pat.
      * cbn. unfold taken. cbn. by rewrite Pb, Pc, Pa, Pat, Eal.
      * cbn. rewrite Pc. intros Hc. rewrite (Po Hc). auto.
    + destruct (posted s) as [|m]; [done|]. destruct (alive s) eqn:Eal; [|done]. injection E as <-. split; [|done..].
      cbn. unfold in_writer, in_client, in_stream in *. cbn. rewrite <- H1, Ew. cbn. rewrite app_nil_r. by rewrite (Permutation_app_comm (buffer_ s)).
Qed.
Lemma async_new_ok opened : ok (AsyncWriteStream_new opened).
Proof. by split. Qed.
Lemma exec_ok l : forall s s', exec l s = Some (Done s') -> ok s -> ok s'.
Proof.
  induction l as [|a l IH]; intros s s' E Hs; cbn [exec] in E; [by injection E as <-|].
  destruct (step a s) as [[s1| |]|] eqn:E1; try done. by eapply IH, async_step_ok.
Qed.
Lemma exec_ordered l : forall s s', Forall only_writes l -> exec l s = Some (Done s') -> ordered s -> ordered s'.
Proof.
  induction l as [|a l IH]; intros s s' Hl E Hs; cbn [exec] in E; [by injection E as <-|].
  destruct (step a s) as [[s1| |]|] eqn:E1; try done.
  exact (IH s1 s' (Forall_inv_tail Hl) E (step_ordered a s s1 (Forall_inv Hl) E1 Hs)).
Qed.
(** Nothing is left to do: no message is in the queue, and neither thread is inside the stream. *)
Definition at_rest (s : AsyncWriteStream) : Prop := posted s = 0%nat /\ at_ s = Elsewhere /\ writer s = None.
Lemma at_rest_empty s : ok s -> at_rest s -> buffer_ s = [] /\ in_writer s = [] /\ in_client s = [].
Proof.
  intros [H1 H2 H3 H4] (Hp & Ha & Hw). unfold in_writer, in_client. rewrite Ha, Hw. split; [|done].
  destruct (buffer_ s) eqn:Eb; [done|]. destruct H2 as [?|[?|[k ?]]]; [done|lia|congruence..].
Qed.

(** C38. Whatever the order in which the two threads run and whatever the stream takes: what [Write] accepted
    is, each byte once, in the stream, in the buffer, on its way, or lost, which is what was written after the
    stream was closed and what it did not take.  When nothing is left to do, the stream is open and it took all
    it was given, all of it is in the stream.  If only the writing thread writes, what is in the stream is there in
    order, and if the stream took all it was given, without a gap. *)
Theorem accepted_data_are_written opened schedule s :
  exec schedule (AsyncWriteStream_new opened) = Some (Done s) ->
  (stream_ s ++ lost s ++ refused s) ++ in_writer s ++ in_client s ++ buffer_ s ≡ₚ accepted s /\
  (at_rest s -> closed_ s = false -> refused s = [] -> stream_ s ≡ₚ accepted s) /\
  (Forall only_writes schedule -> stream_ s `sublist_of` accepted s /\
    (refused s = [] -> stream_ s `prefix_of` accepted s /\ (at_rest s -> stream_ s = accepted s))).
Proof.
  intros E. pose proof (exec_ok _ _ _ E (async_new_ok opened)) as Hok. destruct (Hok) as [H1 H2 H3 H4].
  split; [done|split].
  - intros Hr Hc Hf. destruct (at_rest_empty s Hok Hr) as (Hb & Hw & Ha). unfold in_stream in H1.
    by rewrite Hb, Hw, Ha, H4, Hf, !app_nil_r in H1.
  - intros Hl. destruct (exec_ordered _ _ _ Hl E) as (Ho & He & _); [by split_and!; auto|].
    split; [etransitivity; [by apply sublist_inserts_r|exact Ho]|]. intros Hf. specialize (He Hf). split; [by exists (in_writer s ++ buffer_ s)|].
    intros Hr. destruct (at_rest_empty s Hok Hr) as (Hb & Hw & _). by rewrite Hb, Hw, !app_nil_r in He.
Qed.
End async.

(** ** Examples *)
(** The stream takes what it is given, and the run shows the last part; the same run with a stream that takes
    one byte of the second piece. *)
Definition demo_run (n : nat) : list action :=
  [CallWrite [1; 2]; Client 0; CallWrite [3; 5]; Writer 0; CallWrite [4]; Client 0; Writer 9; Writer 0; Writer n].
Lemma accepted_data_are_written_witness :
  (exists s, exec (demo_run 9) (AsyncWriteStream_new true) = Some (Done s) /\ stream_ s = [1; 2; 3; 5; 4] /\
    ((stream_ s ++ lost s ++ refused s) ++ in_writer s ++ in_client s ++ buffer_ s ≡ₚ accepted s) /\ (at_rest s -> stream_ s = accepted s)) /\
  (exists s, exec (demo_run 0) (AsyncWriteStream_new true) = Some (Done s) /\ stream_ s = [1; 2; 3; 5] /\ refused s = [4] /\
    stream_ s `sublist_of` accepted s).
Proof.
  split.
  - eexists. split; [vm_compute; reflexivity|]. split; [reflexivity|].
    destruct (accepted_data_are_written true (demo_run 9)
      (mkAsync [] false true 0 Elsewhere None [1; 2; 3; 5; 4] 0 [1; 2; 3; 5; 4] [] [])) as (H1 & _ & H3); [vm_compute; reflexivity|].
    split; [exact H1|]. destruct H3 as [_ H3]; [repeat constructor|]. apply (H3 eq_refl).
  - eexists. split; [vm_compute; reflexivity|]. split; [reflexivity|]. split; [reflexivity|].
    destruct (accepted_data_are_written true (demo_run 0)
      (mkAsync [] false true 0 Elsewhere None [1; 2; 3; 5] 0 [1; 2; 3; 5; 4] [] [4])) as (_ & _ & H3); [vm_compute; reflexivity|].
    apply H3. repeat constructor.
Defined.
(** A flush that comes between the two halves of [ClearBufferAndWrite] writes later data first. *)
Example flush_overtakes :
  match exec [CallWrite [1]; Client 9; Writer 9; CallWrite [2]; Client 9; CallFlush; Client 9; Client 9; Writer 9] (AsyncWriteStream_new true) with
  | Some (Done s) => stream_ s = [2; 1] | _ => False end.
Proof. vm_compute. reflexivity. Qed.
(** [Close] neither waits for the writing thread: what that thread has taken is written to a closed stream. *)
Example closed_while_writing :
  match exec [CallWrite [1]; Client 9; Writer 9; CallClose; Client 9; Client 9; Client 9; Writer 9] (AsyncWriteStream_new true) with
  | Some (Done s) => stream_ s = [] /\ lost s = [1] | _ => False end.
Proof. vm_compute. split; reflexivity. Qed.
(** Nor does the destructor: the writing thread then uses what is gone. *)
Example deleted_while_writing :
  exec [CallWrite [1]; Client 9; Writer 9; CallDelete; Client 9; Client 9; Client 9; Writer 9] (AsyncWriteStream_new true) = Some Undefined.
Proof. vm_compute. reflexivity. Qed.
(** A stream that fails loses data of which [Write] reported success, and [Flush] reports success too. *)
Example failed_write_is_lost :
  match exec [CallWrite [1; 2]; Client 0; CallFlush; Client 0; Client 1; Client 0] (AsyncWriteStream_new true) with
  | Some (Done s) => stream_ s = [1] /\ refused s = [2] /\ flushes s = 1%nat | _ => False end.
Proof. vm_compute. repeat split. Qed.
