(* ===== verification/ThreadRun.v ===== *)
(** * event/thread.cpp: ProcessMessages

    The loop every thread of the SDK runs: take a message out of the queue, call its handler, and
    so on until the queue was told to quit or the time is over.  What a handler does to
    the thread's own queue is a list of calls, which may depend on all that was
    handled before.  A round is a turn of the loop: the time when its [Get] begins, the messages other
    threads have sent by then (Thread.v has the senders), the waits of this [Get] and the time after its
    handler.  What is sent while [Get] waits is received after the wait, so what its handlers do
    to the queue is part of what others do in that wait. *)
From S2P Require Import Prelude TimeUtils MessageQueue.

Section thread_run.
Context {Handler Data : Type} `{EqDecision Handler}.
Abbreviation MessageQueue := (@MessageQueue Handler Data).
Abbreviation Message := (@Message Handler Data).

(** What a handler does to the queue of its thread. *)
Inductive queue_call :=
  | CallPost (now : Z) (h : option Handler) (id : Z) (d : option Data) (ts : bool)
  | CallDelayPost (cmsDelay tstamp : Z) (h : option Handler) (id : Z) (d : option Data)
  | CallClear (h : option Handler) (id : Z)
  | CallQuit | CallRestart.
Definition queue_step (q : MessageQueue) (c : queue_call) : MessageQueue :=
  match c with
  | CallPost now h id d ts => Post now q h id d ts
  | CallDelayPost delay stamp h id d => DoDelayPost q delay stamp h id d
  | CallClear h id => (Clear q h id).1
  | CallQuit => Quit q
  | CallRestart => Restart q
  end.
(** What handlers were called for: a message another thread sent, or one of the queue. *)
Inductive handled := Received (m : Message) | Dispatched (m : Message).
Definition dispatched (log : list handled) : list Message :=
  omap (fun x => match x with Dispatched m => Some m | Received _ => None end) log.
Variable OnMessage : list handled -> Handler -> Message -> list queue_call.
(** [log]: what was handled before. *)
Definition Dispatch (log : list handled) (pmsg : Message) (q : MessageQueue) : outcome MessageQueue :=
  match phandler pmsg with None => Undefined | Some h => Done (foldl queue_step q (OnMessage log h pmsg)) end.
Fixpoint ReceiveSends (log : list handled) (sent : list Message) (q : MessageQueue) : outcome (MessageQueue * list handled) :=
  match sent with
  | [] => Done (q, log)
  | m :: sent => q ← Dispatch log m q; ReceiveSends (log ++ [Received m]) sent q
  end.

Record round := mkRound { begins : Z; sent : list Message; waits : list (@wait Handler Data); ends : Z }.
(** [Get] of a thread. *)
Definition Thread_Get (r : round) (log : list handled) (q : MessageQueue) (pmsg : Message) (cmsWait : Z)
    : outcome (option (bool * Message * MessageQueue) * list handled) :=
  if fPeekKeep_ q then Done (Get (begins r) q pmsg cmsWait (waits r), log)
  else
    '(q, log) ← ReceiveSends log (sent r) q;
    Done (Get (begins r) q pmsg cmsWait (waits r), log).
(** [None] while the thread still runs. *)
Fixpoint ProcessMessages_loop (rounds : list round) (cmsLoop msEnd cmsNext : Z) (q : MessageQueue) (log : list handled)
    : option (outcome (bool * MessageQueue * list handled)) :=
  match rounds with
  | [] => None
  | r :: rounds =>
    match Thread_Get r log q Message_null cmsNext with
    | Done (None, _) => None
    | Done (Some (false, _, q), log) => Some (Done (negb (IsQuitting q), q, log))
    | Done (Some (true, msg, q), log) =>
      match Dispatch log msg q with
      | Done q =>
        let log := log ++ [Dispatched msg] in
        if cmsLoop =? kForever then ProcessMessages_loop rounds cmsLoop msEnd cmsNext q log
        else
          let cmsNext := TimeUntil (ends r) msEnd in
          if cmsNext <? 0 then Some (Done (true, q, log)) else ProcessMessages_loop rounds cmsLoop msEnd cmsNext q log
      | Threw => Some Threw
      | Undefined => Some Undefined
      end
    | Threw => Some Threw
    | Undefined => Some Undefined
    end
  end.
Definition ProcessMessages (now : Z) (rounds : list round) (cmsLoop : Z) (q : MessageQueue) :=
  ProcessMessages_loop rounds cmsLoop (if cmsLoop =? kForever then 0 else TimeAfter now cmsLoop) cmsLoop q [].
Definition Thread_Run (rounds : list round) (q : MessageQueue) := ProcessMessages 0 rounds kForever q.
(** A thread on Windows that uses COM: what it runs, and whether COM is left again; [hr] is what [CoInitializeEx] says. *)
Definition SUCCEEDED (hr : Z) : bool := 0 <=? i32 hr.
Definition ComThread_Run (hr : Z) (rounds : list round) (q : MessageQueue) :=
  if SUCCEEDED hr then (fun r => (r, true)) <$> Thread_Run rounds q else Some (Done (false, q, []), false).

(** ** A queue that was told to quit *)
(** The first delayed message that is left is not due at [now]. *)
Definition first_waits (now : Z) (d : list (@DelayedMessage Handler Data)) : Prop :=
  match d with [] => True | x :: _ => TimeIsLater now (msTrigger_ x) = true end.
Lemma promote_app now (d : list (@DelayedMessage Handler Data)) : forall l, exists due rest n, promote now l d = (l ++ map msg_ due, rest, n) /\
  d = due ++ rest /\ first_waits now rest.
Proof.
  induction d as [|x d IH]; intros l; cbn [promote]; [exists [], [], kForever; by rewrite app_nil_r|].
  destruct (TimeIsLater now (msTrigger_ x)) eqn:E.
  - exists [], (x :: d). eexists. by rewrite app_nil_r.
  - destruct (IH (l ++ [msg_ x])) as (due & rest & n & -> & -> & Hw). exists (x :: due), rest, n. by rewrite <- app_assoc.
Qed.
Lemma pull_app (m : Message) l : exists skipped, Forall (fun m => is_dispose m = true) skipped /\
  match pull m l with (true, m', rest) => l = skipped ++ m' :: rest /\ is_dispose m' = false | (false, _, rest) => l = skipped /\ rest = [] end.
Proof.
  revert m. induction l as [|x l IH]; intros m; cbn [pull]; [by exists []|].
  change (MQID_DISPOSE =? message_id x) with (is_dispose x). destruct (is_dispose x) eqn:E; [|by exists []].
  destruct (IH Message_null) as (sk & Hs & Hp). exists (x :: sk). split; [by constructor|].
  destruct (pull _ l) as [[[] m'] rest]; [destruct Hp as [-> ?]|destruct Hp as [-> ->]]; done.
Qed.
Definition kept (q : MessageQueue) : list Message := List.filter (fun m => negb (is_dispose m)) (pending q).
Lemma pending_queues (q : MessageQueue) l d : fPeekKeep_ q = false -> pending (set_queues q l d) = l ++ map msg_ d.
Proof. unfold pending. cbn. by intros ->. Qed.
(** A [Get] of a queue that was told to quit returns at once: with the message that is next, or with nothing, when
    nothing but delayed messages is left, of which the first is not due. *)
Lemma Get_stopped now (q : MessageQueue) m cmsWait waits : fStop_ q = true ->
  match Get now q m cmsWait waits with
  | Some (true, m', q') => fStop_ q' = true /\ exists skipped, pending q = skipped ++ m' :: pending q' /\ Forall (fun m => is_dispose m = true) skipped
  | Some (false, _, q') => fStop_ q' = true /\ fPeekKeep_ q' = false /\ msgq_ q' = [] /\ first_waits now (dmsgq_ q') /\
      exists skipped, pending q = skipped ++ pending q' /\ Forall (fun m => is_dispose m = true) skipped
  | None => False
  end.
Proof.
  intros Hs. unfold Get. destruct (fPeekKeep_ q) eqn:Ek; [by split; [|exists []; unfold pending; cbn; rewrite Ek]|].
  assert (HG : forall ws, Get_loop q m cmsWait now now 0 ws =
    let '(l, d, n) := promote now (msgq_ q) (dmsgq_ q) in let '(got, m', l) := pull m l in Some (got, m', set_queues q l d)).
  { intros [|w ws]; cbn [Get_loop]; destruct (promote _ _ _) as [[l d] n]; destruct (pull m l) as [[[] m'] l']; cbn; by rewrite ?Hs. }
  rewrite HG. destruct (promote_app now (dmsgq_ q) (msgq_ q)) as (due & rest & n & -> & Hd & Hfirst). cbv zeta.
  destruct (pull_app m (msgq_ q ++ map msg_ due)) as (sk & Hsk & Hp). assert (HP : pending q = (msgq_ q ++ map msg_ due) ++ map msg_ rest) by (unfold pending; rewrite Ek, Hd, map_app; cbn [app]; by rewrite app_assoc).
  destruct (pull m _) as [[[] m'] l'].
  - destruct Hp as [Hl _]. split; [done|]. exists sk. split; [|done]. by rewrite pending_queues, HP, Hl, <- app_assoc.
  - destruct Hp as [Hl ->]. split_and!; [done..|]. exists sk. split; [|done]. by rewrite pending_queues, HP, Hl.
Qed.
(** What handlers do to a stopped queue only takes messages away. *)
Definition restarts (c : queue_call) : bool := match c with CallRestart => true | _ => false end.
Definition clears (c : queue_call) : bool := match c with CallClear _ _ => true | _ => false end.
Lemma filter_sublist {A} (P : A -> bool) l : List.filter P l `sublist_of` l.
Proof. induction l as [|x l IH]; cbn; [constructor|]. destruct (P x); by constructor. Qed.
Lemma queue_step_stopped q c : fStop_ q = true -> restarts c = false ->
  fStop_ (queue_step q c) = true /\ pending (queue_step q c) `sublist_of` pending q /\ (clears c = false -> pending (queue_step q c) = pending q).
Proof.
  intros Hs Hr. destruct c as [now h id d ts|dl st h id d|h id| |]; cbn [queue_step]; try done; unfold Post, DoDelayPost; rewrite ?Hs; try done.
  pose proof (Clear_partitions q h id) as HC. destruct (Clear q h id) as [q' gone] eqn:E. destruct HC as (_ & Hp & _ & Hf & _). cbn [fst].
  rewrite Hf, Hp. split; [done|]. split; [apply filter_sublist|done].
Qed.
Lemma foldl_stopped cs : forall q, fStop_ q = true -> Forall (fun c => restarts c = false) cs ->
  fStop_ (foldl queue_step q cs) = true /\ pending (foldl queue_step q cs) `sublist_of` pending q /\
  (Forall (fun c => clears c = false) cs -> pending (foldl queue_step q cs) = pending q).
Proof.
  induction cs as [|c cs IH]; intros q Hs Hr; [done|]. apply Forall_cons_1 in Hr as [Hc Hr]. cbn [foldl].
  destruct (queue_step_stopped q c Hs Hc) as (Hs' & Hp & He). destruct (IH _ Hs' Hr) as (Hs2 & Hp2 & He2). split; [done|]. split; [by etrans|].
  intros HF. apply Forall_cons_1 in HF as [Hn Hcs]. by rewrite He2, He.
Qed.
Lemma foldl_peek cs : forall q, fPeekKeep_ q = false -> fPeekKeep_ (foldl queue_step q cs) = false.
Proof.
  induction cs as [|c cs IH]; intros q Hk; [done|]. apply IH. destruct c as [now h id d ts|dl st h id d|h id| |]; cbn [queue_step]; try done.
  - unfold Post, EnsureActive. by destruct (fStop_ q), (active_ q).
  - unfold DoDelayPost, EnsureActive. by destruct (fStop_ q), (active_ q).
  - unfold Clear. by rewrite Hk.
Qed.
Definition never_restarts : Prop := forall log h m, Forall (fun c => restarts c = false) (OnMessage log h m).
Definition never_clears : Prop := forall log h m, Forall (fun c => clears c = false) (OnMessage log h m).
Lemma sublist_Forall {A} (P : A -> Prop) k l : k `sublist_of` l -> Forall P l -> Forall P k.
Proof. induction 1; intros HF; [done|inversion HF; subst; constructor; auto|inversion HF; subst; auto]. Qed.
Definition has_handler (m : Message) : Prop := phandler m <> None.
(** Receiving what was sent only takes messages away from a stopped queue. *)
Lemma ReceiveSends_stopped sent : never_restarts -> forall q log, fStop_ q = true -> fPeekKeep_ q = false -> Forall has_handler sent ->
  exists q', ReceiveSends log sent q = Done (q', log ++ map Received sent) /\ fStop_ q' = true /\
    pending q' `sublist_of` pending q /\ (never_clears -> pending q' = pending q).
Proof.
  intros Hnr. induction sent as [|m sent IH]; intros q log Hs Hk Hh; cbn [ReceiveSends].
  { exists q. by rewrite app_nil_r. }
  apply Forall_cons_1 in Hh as [Hm Hh]. unfold Dispatch, has_handler in *. destruct (phandler m) as [h|]; [|done]. run.
  destruct (foldl_stopped (OnMessage log h m) q Hs (Hnr _ _ _)) as (Hs2 & Hsub & Heq).
  assert (Hk2 : fPeekKeep_ (foldl queue_step q (OnMessage log h m)) = false) by by apply foldl_peek.
  destruct (IH _ (log ++ [Received m]) Hs2 Hk2 Hh) as (q' & -> & Hs' & Hsub' & Heq'). exists q'.
  rewrite <- app_assoc. split_and!; [done|done|by etrans|]. intros Hnc. rewrite Heq', Heq; auto.
Qed.
(** The messages [l] of [before] were dispatched, [after] are left, and nothing else but messages to be disposed of was there. *)
Definition only_disposed (before after l : list Message) : Prop :=
  exists disposed, before ≡ₚ l ++ disposed ++ after /\ Forall (fun m => is_dispose m = true) disposed.
(** A turn of the loop of a stopped queue. *)
Lemma Thread_Get_stopped r log q : never_restarts -> fStop_ q = true -> Forall has_handler (sent r) ->
  exists got m q' new, Thread_Get r log q Message_null kForever = Done (Some (got, m, q'), log ++ new) /\ dispatched new = [] /\ fStop_ q' = true /\
  if (got : bool)
  then exists skipped, skipped ++ m :: pending q' `sublist_of` pending q /\ Forall (fun m => is_dispose m = true) skipped /\
    (never_clears -> pending q = skipped ++ m :: pending q')
  else fPeekKeep_ q' = false /\ msgq_ q' = [] /\ first_waits (begins r) (dmsgq_ q') /\
    (never_clears -> exists skipped, pending q = skipped ++ pending q' /\ Forall (fun m => is_dispose m = true) skipped).
Proof.
  intros Hnr Hs Hh. unfold Thread_Get.
  assert (Hq : exists q0 new, (if fPeekKeep_ q then Done (q, log) else ReceiveSends log (sent r) q) = Done (q0, log ++ new) /\
    dispatched new = [] /\ fStop_ q0 = true /\ pending q0 `sublist_of` pending q /\ (never_clears -> pending q0 = pending q)).
  { destruct (fPeekKeep_ q) eqn:Ek; [exists q, []; by rewrite app_nil_r|].
    destruct (ReceiveSends_stopped (sent r) Hnr q log Hs Ek Hh) as (q0 & -> & H). exists q0, (map Received (sent r)).
    split; [done|]. split; [|done]. generalize (sent r). intros l. by induction l. }
  destruct Hq as (q0 & new & E & Hnew & Hs0 & Hsub & Heq).
  assert (Eg : (if fPeekKeep_ q then Done (Get (begins r) q Message_null kForever (waits r), log)
    else '(q, log) ← ReceiveSends log (sent r) q; Done (Get (begins r) q Message_null kForever (waits r), log)) =
    Done (Get (begins r) q0 Message_null kForever (waits r), log ++ new)).
  { destruct (fPeekKeep_ q); [injection E as -> E; by rewrite <- E|]. rewrite E. by run. }
  rewrite Eg. clear Eg. pose proof (Get_stopped (begins r) q0 Message_null kForever (waits r) Hs0) as HG.
  destruct (Get _ _ _ _ _) as [[[[] m] q1]|]; [| |done].
  - destruct HG as (Hs1 & sk & Hp & Hsk). exists true, m, q1, new. split_and!; [done..|]. exists sk. rewrite <- Hp. split_and!; [done..|].
    intros Hnc. by rewrite <- Heq.
  - destruct HG as (Hs1 & Hk & Hq & Hf & sk & Hp & Hsk). exists false, m, q1, new. split_and!; [done..|].
    intros Hnc. exists sk. by rewrite <- Heq.
Qed.
Lemma loop_stopped rounds msEnd : never_restarts -> forall q log, fStop_ q = true -> Forall has_handler (pending q) ->
  Forall (fun r => Forall has_handler (sent r)) rounds -> (length (pending q) < length rounds)%nat ->
  exists q' new r, ProcessMessages_loop rounds kForever msEnd kForever q log = Some (Done (false, q', log ++ new)) /\
    dispatched new `sublist_of` pending q /\ (never_clears -> only_disposed (pending q) (pending q') (dispatched new)) /\
    fPeekKeep_ q' = false /\ msgq_ q' = [] /\ rounds !! length (dispatched new) = Some r /\ first_waits (begins r) (dmsgq_ q').
Proof.
  intros Hnr. induction rounds as [|r rounds IH]; intros q log Hs Hh Hsent Hlen; [cbn in Hlen; lia|]. cbn [ProcessMessages_loop].
  apply Forall_cons_1 in Hsent as [Hr Hsent].
  destruct (Thread_Get_stopped r log q Hnr Hs Hr) as (got & m & q1 & new & -> & Hnew & Hs1 & HG). destruct got.
  - destruct HG as (sk & Hp & Hsk & He). pose proof (sublist_Forall _ _ _ Hp Hh) as Hh1.
    apply Forall_app in Hh1 as [_ Hh1]. apply Forall_cons_1 in Hh1 as [Hm Hh1]. unfold Dispatch, has_handler in Hm |- *.
    destruct (phandler m) as [h|]; [|done].
    destruct (foldl_stopped (OnMessage (log ++ new) h m) q1 Hs1 (Hnr _ _ _)) as (Hs2 & Hsub & Heq). cbn [Z.eqb].
    pose proof (sublist_length _ _ Hp) as Hl1. rewrite length_app in Hl1. cbn in Hlen, Hl1. pose proof (sublist_length _ _ Hsub) as Hl2.
    destruct (IH (foldl queue_step q1 (OnMessage (log ++ new) h m)) ((log ++ new) ++ [Dispatched m]) Hs2)
      as (q' & more & r' & -> & Hl & Hd & H1 & H2 & H3 & H4); [by eapply sublist_Forall|done|lia|].
    exists q', (new ++ Dispatched m :: more), r'.
    assert (Edis : dispatched (new ++ Dispatched m :: more) = m :: dispatched more) by (unfold dispatched in *; by rewrite omap_app, Hnew).
    rewrite Edis, <- !app_assoc. split_and!; try done.
    + etrans; [|exact Hp]. apply sublist_inserts_l. constructor. by etrans.
    + intros Hnc. destruct (Hd Hnc) as (dis & Hperm & Hdis). rewrite (Heq (Hnc _ _ _)) in Hperm. exists (sk ++ dis). split; [|by apply Forall_app].
      rewrite (He Hnc), Hperm, <- Permutation_middle. cbn. constructor. rewrite !app_assoc. do 2 f_equiv. apply Permutation_app_comm.
  - destruct HG as (Hk & Hq & Hf & He). exists q1, new, r. unfold IsQuitting. rewrite Hs1, Hnew.
    split_and!; try done; [apply sublist_nil_l|]. intros Hnc. destruct (He Hnc) as (sk & Hp & Hsk). exists sk. by rewrite Hp.
Qed.
(** A loop without end that does end had its queue stopped, if no wait failed. *)
Definition waits_succeed (r : round) : Prop := forall w t, In w (waits r) -> (w t).1.1 = true.
Lemma loop_forever rounds msEnd : forall q log b q' log', Forall waits_succeed rounds ->
  ProcessMessages_loop rounds kForever msEnd kForever q log = Some (Done (b, q', log')) -> b = false /\ fStop_ q' = true.
Proof.
  induction rounds as [|r rounds IH]; intros q log b q' log' Hw E; [done|]. apply Forall_cons_1 in Hw as [Hr Hw]. cbn [ProcessMessages_loop] in E.
  destruct (Thread_Get r log q Message_null kForever) as [[[[[[] m] q1]|] log1]| |] eqn:ET; try done.
  - destruct (Dispatch log1 m q1) as [q2| |]; try done. cbn [Z.eqb] in E. by apply (IH q2 (log1 ++ [Dispatched m]) b q' log').
  - injection E as <- <- <-. unfold IsQuitting. destruct (fStop_ q1) eqn:Es; [done|]. exfalso.
    assert (exists q0, Get (begins r) q0 Message_null kForever (waits r) = Some (false, m, q1)) as [q0 EG].
    { unfold Thread_Get in ET. destruct (fPeekKeep_ q); [injection ET as ET _; by exists q|].
      destruct (ReceiveSends log (sent r) q) as [[q0 log0]| |]; try done. injection ET as ET _. by exists q0. }
    by destruct (Get_timeout (begins r) q0 Message_null kForever (waits r) m q1 Hr EG Es) as [? _].
Qed.

(** C39. A thread runs until its queue is told to quit, and no longer.  If no wait fails it ends only stopped.
    Once it is told to quit, and if handlers never restart the queue and every message has a handler, it ends with
    the turn after the messages it still dispatches, whatever the clock says and whatever handlers post and
    other threads send.  These messages were in the queue, each is dispatched once and in order, and what is left
    is delayed messages of which the first is not due when the last [Get] begins; if handlers clear nothing,
    all the others were dispatched or disposed of. *)
Theorem thread_runs_until_quit rounds q :
  (forall b q' log, Forall waits_succeed rounds -> Thread_Run rounds q = Some (Done (b, q', log)) -> b = false /\ fStop_ q' = true) /\
  (never_restarts -> fStop_ q = true -> Forall has_handler (pending q) -> Forall (fun r => Forall has_handler (sent r)) rounds ->
   (length (pending q) < length rounds)%nat ->
   exists q' log r, Thread_Run rounds q = Some (Done (false, q', log)) /\ dispatched log `sublist_of` pending q /\
     (never_clears -> only_disposed (pending q) (pending q') (dispatched log)) /\ fPeekKeep_ q' = false /\ msgq_ q' = [] /\
     rounds !! length (dispatched log) = Some r /\ first_waits (begins r) (dmsgq_ q')).
Proof.
  split.
  - intros b q' log Hw E. by apply (loop_forever rounds 0 q [] b q' log).
  - intros Hnr Hs Hh Hsent Hlen. destruct (loop_stopped rounds 0 Hnr q [] Hs Hh Hsent Hlen) as (q' & log & r & H). by exists q', log, r.
Qed.
End thread_run.

(** ** Examples *)
(** A handler that answers each message with another one to its own thread. *)
Definition echo (log : list (@handled Z unit)) (h : Z) (m : @Message Z unit) : list (@queue_call Z unit) :=
  [CallPost 0 (Some h) 9 None false].
Definition plain_round (sent : list (@Message Z unit)) : @round Z unit := mkRound 50 sent [] 0.
(** Two messages, two delayed ones of which one is due, and one that another thread sends. *)
Definition demo_rounds : list (@round Z unit) := plain_round [mkMessage (Some 3) 4 None 0] :: replicate 4 (plain_round []).
Lemma thread_runs_until_quit_witness :
  let q := Quit (DoDelayPost (DoDelayPost (Post 0 (Post 0 MessageQueue_new (Some 1) 5 None false) (Some 2) 6 None false)
    0 60 (Some 1) 8 None) 0 40 (Some 1) 7 None) in
  exists q' log r, Thread_Run echo demo_rounds q = Some (Done (false, q', log)) /\
    dispatched log `sublist_of` pending q /\ map message_id (dispatched log) = [5; 6; 7] /\
    only_disposed (pending q) (pending q') (dispatched log) /\
    demo_rounds !! length (dispatched log) = Some r /\ first_waits (begins r) (dmsgq_ q') /\ length (dmsgq_ q') = 1%nat.
Proof.
  intros q. destruct (proj2 (thread_runs_until_quit echo demo_rounds q)) as (q' & log & r & E & Hl & Hd & _ & _ & Hr & Hf).
  - intros log h m. by repeat constructor.
  - reflexivity.
  - by repeat constructor.
  - by repeat constructor.
  - vm_compute. lia.
  - exists q', log, r. split; [exact E|]. split; [exact Hl|].
    assert (Hc : map message_id (dispatched log) = [5; 6; 7] /\ length (dmsgq_ q') = 1%nat) by (vm_compute in E; by injection E as <- <-).
    split; [apply Hc|]. split; [apply Hd; intros l h m; by repeat constructor|]. split; [exact Hr|]. split; [exact Hf|apply Hc].
Defined.
(** A message without a handler is dispatched to a null pointer. *)
Example posted_to_nobody :
  Thread_Run echo [plain_round []] (Post 0 MessageQueue_new None 5 None false) = Some Undefined.
Proof. vm_compute. reflexivity. Qed.
(** A wait that fails ends the thread although nobody told it to quit. *)
Example failed_wait_ends :
  match Thread_Run (Handler := Z) (Data := unit) echo [mkRound 0 [] [fun _ => (false, 0, fun q => q)] 0] MessageQueue_new with
  | Some (Done (b, _, log)) => b = true /\ log = [] | _ => False end.
Proof. vm_compute. done. Qed.
(** With a bound: past the end of the time the loop returns true also when the queue was told to quit. *)
Example quit_and_late :
  match ProcessMessages (fun _ (_ : Z) _ => [CallQuit]) 0 [mkRound 0 [] [] 50] 10 (Post 0 (@MessageQueue_new Z unit) (Some 1) 5 None false) with
  | Some (Done (b, q, _)) => b = true /\ IsQuitting q = true | _ => False end.
Proof. vm_compute. done. Qed.
(** What another thread sends is handled before the queue is looked at, and can tell the thread to quit. *)
Example quit_by_a_sender :
  match ProcessMessages (fun _ (_ : Z) _ => [CallQuit]) 0 [plain_round [mkMessage (Some 3) 4 None 0]] kForever (@MessageQueue_new Z unit) with
  | Some (Done (b, q, log)) => b = false /\ log = [Received (mkMessage (Some 3) 4 None 0)] | _ => False end.
Proof. vm_compute. done. Qed.
