(* ===== verification/ThreadSettings.v ===== *)
(** * event/thread.cpp: names, priorities and sleeping

    What a thread is told before it starts.  The text that [%p] gives for an address is that of the C library: with 0x on
    Linux, 16 digits on 64-bit Windows. *)
From Stdlib Require Import String.
From S2P Require Import Prelude Text Strings.

Inductive platform := LINUX | WIN32.
Inductive ThreadPriority := PRIORITY_IDLE | PRIORITY_NORMAL | PRIORITY_ABOVE_NORMAL | PRIORITY_HIGH.
Record Settings := mkSettings { name_ : list Z; priority_ : ThreadPriority; started_ : bool }.

(** The buffer has 16 bytes, of which [fresh] is what was in them. *)
Definition SetName (fresh name : list Z) (obj : option (list Z)) (t : Settings) : outcome (bool * Settings) :=
  if started_ t then Done (false, t)
  else
    match obj with
    | None => Done (true, mkSettings name (priority_ t) (started_ t))
    | Some p => '(buf, _) ← vsprintfn fresh 16 (bytes " 0x" ++ p); Done (true, mkSettings (name ++ c_str buf) (priority_ t) (started_ t))
    end.
(** What the system is asked for a thread that runs already. *)
Definition THREAD_PRIORITY (priority : ThreadPriority) : Z :=
  match priority with PRIORITY_NORMAL => 0 | PRIORITY_HIGH => 2 | PRIORITY_ABOVE_NORMAL => 1 | PRIORITY_IDLE => -15 end.
Definition SetPriority (pf : platform) (SetThreadPriority : Z -> bool) (priority : ThreadPriority) (t : Settings) : bool * Settings :=
  let set := (true, mkSettings (name_ t) priority (started_ t)) in
  match pf with
  | WIN32 => if started_ t && negb (SetThreadPriority (THREAD_PRIORITY priority)) then (false, t) else set
  | LINUX => if started_ t then (false, t) else set
  end.
(** [nanosleep] takes seconds and nanoseconds. *)
Definition timespec (milliseconds : Z) : Z * Z := (Z.quot milliseconds 1000, i32 (Z.rem milliseconds 1000 * 1000000)).
Definition SleepMs (pf : platform) (nanosleep : Z * Z -> Z) (milliseconds : Z) : bool :=
  match pf with WIN32 => true | LINUX => nanosleep (timespec milliseconds) =? 0 end.

(** ** What they do *)
(** The address is appended as far as it fits into 15 characters behind what comes before it. *)
Lemma SetName_appends fresh name p t : length fresh = 16%nat -> no_nul p -> started_ t = false ->
  SetName fresh name (Some p) t = Done (true, mkSettings (name ++ take 15 (bytes " 0x" ++ p)) (priority_ t) false).
Proof.
  intros Hf Hp Hs. unfold SetName. rewrite Hs.
  assert (Hn : no_nul (bytes " 0x" ++ p)) by (apply Forall_app; split; [|done]; repeat constructor; done).
  destruct (vsprintfn_text fresh 16 (bytes " 0x" ++ p)) as (buf & n & -> & E); [lia|done|]. cbn [mbind outcome_mbind outcome_bind]. by rewrite E.
Qed.
(** A duration that is not negative is asked for exactly. *)
Lemma timespec_exact ms : 0 <= ms < 2 ^ 31 -> let '(s, ns) := timespec ms in s * 1000000000 + ns = ms * 1000000 /\ 0 <= ns < 1000000000.
Proof.
  intros Hms. unfold timespec. rewrite Z.quot_div_nonneg, Z.rem_mod_nonneg by lia. pose proof (Z.mod_pos_bound ms 1000 ltac:(lia)). pose proof (Z.div_mod ms 1000 ltac:(lia)).
  rewrite i32_id by lia. lia.
Qed.
Definition new_settings : Settings := mkSettings [] PRIORITY_NORMAL false.
(** On 64-bit Linux the last digits of an address do not fit, so that the names of different objects can be the same. *)
Example names_collide : forall obj, In obj ["0x7ffd12345670"; "0x7ffd12345678"]%string ->
  SetName (replicate 16 7) (bytes "worker") (Some (bytes obj)) new_settings = Done (true, mkSettings (bytes "worker 0x0x7ffd123456") PRIORITY_NORMAL false).
Proof. intros obj [<-|[<-|[]]]; by vm_compute. Qed.
