(* ===== verification/ThreadLife.v ===== *)
(** * event/thread.cpp: the life of threads

    [Thread] objects, the threads of the operating system they stand for, and the
    current [Thread] of each of those.  All run interleaved; [Start] stores to its object after the new
    thread runs, and [Stop] and the destructor wait for a thread to end.  Threads of the operating
    system are numbered as they are created, objects are addresses.  A thread runs either
    [ProcessMessages] until its queue is told to quit (ThreadRun.v) or a [Runnable], which comes to an end by itself.
    The system never fails to make a thread, so [Start] succeeds where it tries. *)
From stdpp Require Import gmap.
From S2P Require Import Prelude.

(** How the object was made. *)
Inductive kind := Plain | Wrapped | Auto.
#[global] Instance kind_eq_dec : EqDecision kind.
Proof. solve_decision. Defined.
(** [thread_]: the operating system's thread; [runnable_]: it runs a [Runnable]; [creator]: the thread that made the object. *)
Record Thread := mkThread {
  started_ : bool; fStop_ : bool; owned_ : bool; delete_self_when_complete_ : bool; thread_ : nat; runnable_ : bool;
  creator : nat; kind_ : kind }.
Inductive body := Foreign | InPreRun (t : nat) | Running (t : nat) | Ended.
(** Where a thread is: in [Start] before the store to [started_], or in the [Join] of [Stop] or of the destructor. *)
Inductive place := Elsewhere | Starting (t : nat) | Joining (t : nat) (deletes : bool).
#[global] Instance place_eq_dec : EqDecision place.
Proof. solve_decision. Defined.
Record OS := mkOS { body_ : body; at_ : place; current : option nat }.
Record System := mkSystem { threads : gmap nat Thread; os : list OS }.

Definition set_threads (m : gmap nat Thread) (s : System) : System := mkSystem m (os s).
Definition set_thread (t : nat) (th : Thread) (s : System) : System := set_threads (<[t := th]> (threads s)) s.
Definition set_os (i : nat) (o : OS) (s : System) : System := mkSystem (threads s) (<[i := o]> (os s)).
Definition set_started (b : bool) (th : Thread) : Thread :=
  mkThread b (fStop_ th) (owned_ th) (delete_self_when_complete_ th) (thread_ th) (runnable_ th) (creator th) (kind_ th).
Definition Quit (th : Thread) : Thread :=
  mkThread (started_ th) true (owned_ th) (delete_self_when_complete_ th) (thread_ th) (runnable_ th) (creator th) (kind_ th).
Definition Release (th : Thread) : Thread :=
  mkThread (started_ th) (fStop_ th) (owned_ th) true (thread_ th) (runnable_ th) (creator th) (kind_ th).
Definition set_handle (j : nat) (runnable : bool) (th : Thread) : Thread :=
  mkThread (started_ th) (fStop_ th) (owned_ th) (delete_self_when_complete_ th) j runnable (creator th) (kind_ th).
Definition go_to (p : place) (o : OS) : OS := mkOS (body_ o) p (current o).
Definition SetCurrentThread (t : option nat) (o : OS) : OS := mkOS (body_ o) (at_ o) t.
Definition set_body (b : body) (o : OS) : OS := mkOS b (at_ o) (current o).

Definition Thread_new (i : nat) (k : kind) : Thread := mkThread false false true false 0 false i k.

(** ** Starting and stopping *)
(** [Start] up to the new thread: it begins in [PreRun]. *)
Definition Start (i t : nat) (o : OS) (th : Thread) (runnable : bool) (s : System) : System :=
  if negb (owned_ th) then s
  else if started_ th then s
  else
    let j := length (os s) in
    mkSystem (<[t := set_handle j runnable th]> (threads s)) (<[i := go_to (Starting t) o]> (os s) ++ [mkOS (InPreRun t) Elsewhere None]).
(** [Stop], up to the waiting in [Join]; and the destructor. *)
Definition delete_object (t : nat) (s : System) : System := set_threads (delete t (threads s)) s.
Definition Stop (i t : nat) (o : OS) (th : Thread) (deletes : bool) (s : System) : System :=
  let s := set_thread t (Quit th) s in
  if started_ th then set_os i (go_to (Joining t deletes) o) s
  else if deletes then delete_object t s else s.
(** The rest of [Start] and [Join]. *)
Definition resume (i : nat) (o : OS) (s : System) : option (outcome System) :=
  match at_ o with
  | Elsewhere => None
  | Starting t =>
    Some (match threads s !! t with Some th => Done (set_os i (go_to Elsewhere o) (set_thread t (set_started true th) s)) | None => Undefined end)
  | Joining t deletes =>
    match threads s !! t with
    | None => Some Undefined
    | Some th =>
      match os s !! thread_ th with
      | Some (mkOS Ended _ _) =>
        let s := set_os i (go_to Elsewhere o) (set_thread t (set_started false th) s) in
        Some (Done (if deletes then delete_object t s else s))
      | _ => None
      end
    end
  end.
(** [PreRun] up to [Run], and from its return. *)
Definition PreRun (j : nat) (o : OS) (s : System) : option (outcome System) :=
  match at_ o, body_ o with
  | Elsewhere, InPreRun t =>
    Some (match threads s !! t with
      | Some _ => Done (set_os j (SetCurrentThread (Some t) (set_body (Running t) o)) s)
      | None => Undefined end)
  | Elsewhere, Running t =>
    match threads s !! t with
    | None => Some Undefined
    | Some th =>
      if fStop_ th || runnable_ th then
        let s := set_os j (set_body Ended o) s in
        Some (Done (if delete_self_when_complete_ th then delete_object t s else s))
      else None
    end
  | _, _ => None
  end.

(** ** The current thread *)
Definition is_current (t : nat) (o : OS) : bool := bool_decide (current o = Some t).
(** [WrapCurrentThread], with what [new] gives it, and [UnwrapCurrentThread]. *)
Definition WrapCurrentThread (i t : nat) (o : OS) (s : System) : System :=
  match current o with
  | Some _ => s
  | None => set_os i (SetCurrentThread (Some t) o) (set_thread t (mkThread true false false false i false i Wrapped) s)
  end.
Definition UnwrapCurrentThread (i : nat) (o : OS) (s : System) : outcome System :=
  match current o with
  | None => Done s
  | Some t =>
    match threads s !! t with
    | None => Undefined
    | Some th => Done (if owned_ th then s else delete_object t (set_os i (SetCurrentThread None o) s))
    end
  end.
Definition AutoThread_new (i t : nat) (o : OS) (s : System) : System :=
  let s := set_thread t (Thread_new i Auto) s in
  match current o with None => set_os i (SetCurrentThread (Some t) o) s | Some _ => s end.
Definition delete_AutoThread (i t : nat) (o : OS) (s : System) : System :=
  delete_object t (if is_current t o then set_os i (SetCurrentThread None o) s else s).

(** ** Steps *)
Inductive call :=
  | CallNew (t : nat) | CallStart (t : nat) (runnable : bool) | CallRelease (t : nat) | CallQuit (t : nat)
  | CallStop (t : nat) | CallDelete (t : nat) | CallWrap (t : nat) | CallUnwrap | CallAutoNew (t : nat) | CallAutoDelete (t : nat).
Definition with_thread (t : nat) (f : Thread -> System) (s : System) : outcome System :=
  match threads s !! t with Some th => Done (f th) | None => Undefined end.
Definition do_call (i : nat) (c : call) (o : OS) (s : System) : outcome System :=
  match c with
  | CallNew t => Done (set_thread t (Thread_new i Plain) s)
  | CallStart t r => with_thread t (fun th => Start i t o th r s) s
  | CallRelease t => with_thread t (fun th => set_thread t (Release th) s) s
  | CallQuit t => with_thread t (fun th => set_thread t (Quit th) s) s
  | CallStop t => with_thread t (fun th => Stop i t o th false s) s
  | CallDelete t => with_thread t (fun th => Stop i t o th true s) s
  | CallWrap t => Done (WrapCurrentThread i t o s)
  | CallUnwrap => UnwrapCurrentThread i o s
  | CallAutoNew t => Done (AutoThread_new i t o s)
  | CallAutoDelete t => Done (delete_AutoThread i t o s)
  end.
Inductive action := Call (i : nat) (c : call) | Resume (i : nat) | Body (j : nat).
(** A thread makes calls when it runs and is not inside a call. *)
Definition free (o : OS) : bool :=
  match at_ o, body_ o with Elsewhere, (Foreign | Running _) => true | _, _ => false end.
Definition step (a : action) (s : System) : option (outcome System) :=
  match a with
  | Call i c => o ← os s !! i; if free o then Some (do_call i c o s) else None
  | Resume i => o ← os s !! i; resume i o s
  | Body j => o ← os s !! j; PreRun j o s
  end.
(** A [Thread] object is used by the thread that made it, an [AutoThread] as a local variable, and
    new objects are elsewhere than those that live.  [Release] is left out: see below. *)
Definition mine (i t : nat) (k : kind) (s : System) : bool :=
  match threads s !! t with Some th => bool_decide (creator th = i /\ kind_ th = k) | None => false end.
Definition legal (a : action) (s : System) : bool :=
  match a with
  | Call i (CallNew t | CallWrap t | CallAutoNew t) => bool_decide (threads s !! t = None)
  | Call i (CallStart t _ | CallQuit t | CallStop t | CallDelete t) => mine i t Plain s
  | Call i (CallAutoDelete t) => mine i t Auto s
  | Call _ (CallRelease _) => false
  | _ => true
  end.
(** From [n] threads that are there without the library. *)
Definition System_new (n : nat) : System := mkSystem ∅ (replicate n (mkOS Foreign Elsewhere None)).
Inductive reachable (n : nat) : System -> Prop :=
  | reach_new : reachable n (System_new n)
  | reach_step s a s' : reachable n s -> legal a s = true -> step a s = Some (Done s') -> reachable n s'.

(** ** The invariant *)
Definition inside (t : nat) (o : OS) : Prop := body_ o = InPreRun t \/ body_ o = Running t.
Definition starts (t : nat) (s : System) : Prop := exists i o, os s !! i = Some o /\ at_ o = Starting t.
Record ok (s : System) : Prop := {
  (** the thread of an object is inside it until it ends, and comes after the thread that made it *)
  ok_inside : forall j o t, os s !! j = Some o -> inside t o ->
    exists th, threads s !! t = Some th /\ thread_ th = j /\ kind_ th = Plain /\
      (started_ th = true \/ starts t s);
  ok_started : forall t th, threads s !! t = Some th -> kind_ th = Plain ->
    started_ th = true \/ starts t s ->
    exists o, os s !! thread_ th = Some o /\ (body_ o = Ended \/ inside t o) /\ (creator th < thread_ th)%nat;
  (** what a thread waits for *)
  ok_starting : forall i o t, os s !! i = Some o -> at_ o = Starting t ->
    exists th, threads s !! t = Some th /\ creator th = i /\ kind_ th = Plain /\ started_ th = false;
  ok_joining : forall i o t d, os s !! i = Some o -> at_ o = Joining t d ->
    exists th, threads s !! t = Some th /\ creator th = i /\ kind_ th = Plain /\ started_ th = true /\ fStop_ th = true;
  ok_elsewhere : forall i o, os s !! i = Some o -> body_ o = Ended \/ (exists t, body_ o = InPreRun t) -> at_ o = Elsewhere;
  (** current threads *)
  ok_current : forall i o t, os s !! i = Some o -> body_ o <> Ended -> current o = Some t ->
    exists th, threads s !! t = Some th /\ match kind_ th with Plain => body_ o = Running t | _ => creator th = i end;
  ok_running : forall i o t, os s !! i = Some o -> body_ o = Running t -> current o = Some t;
  ok_prerun : forall i o t, os s !! i = Some o -> body_ o = InPreRun t -> current o = None;
  ok_owned : forall t th, threads s !! t = Some th -> owned_ th = bool_decide (kind_ th <> Wrapped) /\ delete_self_when_complete_ th = false }.

Ltac os_case H := apply list_lookup_insert_Some in H as [(? & ? & ?)|[? H]]; [subst|].
(** An update of the state of one thread that keeps where it is. *)
Lemma starts_insert t i o o' s : os s !! i = Some o -> (at_ o' = Starting t <-> at_ o = Starting t) -> starts t (set_os i o' s) <-> starts t s.
Proof.
  intros Hi Ha. pose proof (lookup_lt_Some _ _ _ Hi) as Hl. split; intros (j & x & Hj & Hx).
  - cbn in Hj. os_case Hj; [exists j, o; split; [done|tauto]|by exists j, x].
  - destruct (decide (j = i)) as [->|Hn].
    + exists i, o'. cbn. rewrite list_lookup_insert_eq by done. split; [done|]. apply Ha. congruence.
    + exists j, x. cbn. by rewrite list_lookup_insert_ne.
Qed.
Lemma starts_thread t m s : starts t (set_threads m s) <-> starts t s.
Proof. done. Qed.

(** An object that is made, and one whose queue is told to quit. *)
Lemma ok_new t th s : ok s -> threads s !! t = None -> (kind_ th = Plain -> started_ th = false) ->
  owned_ th = bool_decide (kind_ th <> Wrapped) -> delete_self_when_complete_ th = false -> ok (set_thread t th s).
Proof.
  intros [H1 H2 H3 H4 H5 H6 H7 H8 H9] Ht Hk Ho Hd.
  assert (Hne : forall t' x, threads s !! t' = Some x -> t <> t') by (intros t' x Hx ->; congruence).
  split; cbn; try done.
  - intros j o t' Hj Hi. destruct (H1 j o t' Hj Hi) as (x & Hx & ?). exists x. by rewrite lookup_insert_ne by (by eapply Hne).
  - intros t' x. destruct (decide (t' = t)) as [->|Hn]; [|rewrite lookup_insert_ne by done; apply H2].
    rewrite lookup_insert_eq. intros [= <-] Hp [?|(i & oc & Hc & Hat)]; [specialize (Hk Hp); congruence|]. destruct (H3 _ _ _ Hc Hat) as (x & Hx & _). congruence.
  - intros i o t' Hi Hat. destruct (H3 i o t' Hi Hat) as (x & Hx & ?). exists x. by rewrite lookup_insert_ne by (by eapply Hne).
  - intros i o t' d Hi Hat. destruct (H4 i o t' d Hi Hat) as (x & Hx & ?). exists x. by rewrite lookup_insert_ne by (by eapply Hne).
  - intros i o t' Hi Hb Hc. destruct (H6 i o t' Hi Hb Hc) as (x & Hx & ?). exists x. by rewrite lookup_insert_ne by (by eapply Hne).
  - intros t' x. destruct (decide (t' = t)) as [->|Hn]; [|rewrite lookup_insert_ne by done; apply H9].
    rewrite lookup_insert_eq. by intros [= <-].
Qed.
Lemma ok_quit t th s : ok s -> threads s !! t = Some th -> ok (set_thread t (Quit th) s).
Proof.
  intros [H1 H2 H3 H4 H5 H6 H7 H8 H9] Ht.
  assert (HT : forall (P Q : Thread -> Prop), (forall x, P x -> Q x) -> (P th -> Q (Quit th)) -> forall t',
    (exists x, threads s !! t' = Some x /\ P x) -> exists x, <[t := Quit th]> (threads s) !! t' = Some x /\ Q x).
  { intros P Q HPQ Hth t' (x & Hx & HP). destruct (decide (t' = t)) as [->|Hn].
    - rewrite lookup_insert_eq. exists (Quit th). split; [done|]. apply Hth. congruence.
    - exists x. rewrite lookup_insert_ne by done. auto. }
  split; cbn; try done.
  - intros j o t' Hj Hi. eapply HT; [| |exact (H1 j o t' Hj Hi)]; done.
  - intros t' x. destruct (decide (t' = t)) as [->|Hn]; [|rewrite lookup_insert_ne by done; apply H2].
    rewrite lookup_insert_eq. intros [= <-]. exact (H2 t th Ht).
  - intros i o t' Hi Hat. eapply HT; [| |exact (H3 i o t' Hi Hat)]; done.
  - intros i o t' d Hi Hat. eapply HT; [| |exact (H4 i o t' d Hi Hat)]; [done|]. cbn. tauto.
  - intros i o t' Hi Hb Hc. eapply HT; [| |exact (H6 i o t' Hi Hb Hc)]; done.
  - intros t' x. destruct (decide (t' = t)) as [->|Hn]; [|rewrite lookup_insert_ne by done; apply H9].
    rewrite lookup_insert_eq. intros [= <-]. exact (H9 t th Ht).
Qed.
(** An object nobody knows is deleted. *)
Definition unknown (t : nat) (s : System) : Prop := forall j o, os s !! j = Some o ->
  ~ inside t o /\ at_ o <> Starting t /\ (forall d, at_ o <> Joining t d) /\ (body_ o <> Ended -> current o <> Some t).
Lemma ok_delete t s : ok s -> unknown t s -> ok (delete_object t s).
Proof.
  intros [H1 H2 H3 H4 H5 H6 H7 H8 H9] Hu. split; cbn; try done.
  - intros j o t' Hj Hi. destruct (decide (t' = t)) as [->|Hn]; [by destruct (Hu j o Hj)|]. rewrite lookup_delete_ne by done. eauto.
  - intros t' x. rewrite lookup_delete_Some. intros [_ Hx]. by apply H2.
  - intros i o t' Hi Hat. destruct (decide (t' = t)) as [->|Hn]; [by destruct (Hu i o Hi) as (_ & ? & _)|]. rewrite lookup_delete_ne by done. eauto.
  - intros i o t' d Hi Hat. destruct (decide (t' = t)) as [->|Hn]; [destruct (Hu i o Hi) as (_ & _ & Hd & _); by destruct (Hd d)|].
    rewrite lookup_delete_ne by done. eauto.
  - intros i o t' Hi Hb Hc. destruct (decide (t' = t)) as [->|Hn]; [by destruct (Hu i o Hi) as (_ & _ & _ & Hd); destruct (Hd Hb)|].
    rewrite lookup_delete_ne by done. eauto.
  - intros t' x. rewrite lookup_delete_Some. intros [_ Hx]. by apply (H9 t').
Qed.

(** A change of one thread of the operating system that starts nothing. *)
Definition current_ok (i : nat) (o : OS) (s : System) : Prop :=
  (forall t, body_ o <> Ended -> current o = Some t ->
    exists th, threads s !! t = Some th /\ match kind_ th with Plain => body_ o = Running t | _ => creator th = i end) /\
  (forall t, body_ o = Running t -> current o = Some t) /\ (forall t, body_ o = InPreRun t -> current o = None).
Definition joining_ok (i : nat) (o : OS) (s : System) : Prop := forall t d, at_ o = Joining t d ->
  exists th, threads s !! t = Some th /\ creator th = i /\ kind_ th = Plain /\ started_ th = true /\ fStop_ th = true.
Lemma ok_set_os i o o' s : ok s -> os s !! i = Some o -> (forall t, at_ o' = Starting t <-> at_ o = Starting t) -> joining_ok i o' s ->
  (body_ o' = Ended \/ (exists t, body_ o' = InPreRun t) -> at_ o' = Elsewhere) ->
  (forall t, inside t o' -> inside t o) -> (forall t, body_ o = Ended \/ inside t o -> body_ o' = Ended \/ inside t o') ->
  current_ok i o' s -> ok (set_os i o' s).
Proof.
  intros [H1 H2 H3 H4 H5 H6 H7 H8 H9] Hi Hst Hj He Hin Hout (Hc1 & Hc2 & Hc3). pose proof (lookup_lt_Some _ _ _ Hi) as Hl.
  assert (HS : forall t, starts t (set_os i o' s) <-> starts t s) by (intros t; by apply (starts_insert t i o)).
  split; cbn [threads os set_os]; try done.
  - intros j x t Hx Ht. os_case Hx; [destruct (H1 _ o t Hi) as (th & ?); [auto|]|destruct (H1 j x t Hx Ht) as (th & ?)]; exists th; by rewrite HS.
  - intros t th Ht Hk Hs. rewrite HS in Hs. destruct (H2 t th Ht Hk Hs) as (x & Hx & Hb & Hlt). destruct (decide (thread_ th = i)) as [E|Hn].
    + exists o'. rewrite E, list_lookup_insert_eq by done. split_and!; [done| |by rewrite <- E]. apply Hout. congruence.
    + exists x. by rewrite list_lookup_insert_ne.
  - intros j x t Hx Ha. os_case Hx; [apply (H3 _ o); [done|by apply Hst]|by apply (H3 j x)].
  - intros j x t d Hx Ha. os_case Hx; [by apply (Hj t d)|by apply (H4 j x t d)].
  - intros j x Hx Hb. os_case Hx; [by apply He|by apply (H5 j x)].
  - intros j x t Hx Hb Hc. os_case Hx; [by apply Hc1|by apply (H6 j x)].
  - intros j x t Hx Hb. os_case Hx; [by apply Hc2|by apply (H7 j x)].
  - intros j x t Hx Hb. os_case Hx; [by apply (Hc3 t)|by apply (H8 j x t)].
Qed.
Lemma ok_current_ok i o s : ok s -> os s !! i = Some o -> current_ok i o s.
Proof. intros [_ _ _ _ _ H6 H7 H8 _] Hi. split_and!; eauto. Qed.
Lemma free_place o : free o = true -> at_ o = Elsewhere /\ (body_ o = Foreign \/ exists t, body_ o = Running t).
Proof. unfold free. destruct (at_ o), (body_ o); try done; eauto. Qed.
Lemma free_not_early o : free o = true -> body_ o <> Ended /\ forall t, body_ o <> InPreRun t.
Proof. intros (_ & Hb)%free_place. by destruct Hb as [->|[t ->]]. Qed.
Lemma ok_join i o t th d s : ok s -> os s !! i = Some o -> free o = true -> threads s !! t = Some th -> creator th = i -> kind_ th = Plain ->
  started_ th = true -> fStop_ th = true -> ok (set_os i (go_to (Joining t d) o) s).
Proof.
  intros Hok Hi Hf Ht Hc Hk Hs Hq. pose proof (free_place o Hf) as [Ha _]. destruct (free_not_early o Hf) as [Hb1 Hb2].
  apply (ok_set_os i o); try done; cbn; [intros; rewrite Ha; done| |intros [?|[t' ?]]; [done|by destruct (Hb2 t')]|exact (ok_current_ok i o s Hok Hi)].
  intros t' d' [= <- <-]. by exists th.
Qed.
(** One that keeps its place and its body gets another current thread. *)
Lemma ok_set_current i o s c : ok s -> os s !! i = Some o -> current_ok i (SetCurrentThread c o) s -> ok (set_os i (SetCurrentThread c o) s).
Proof.
  intros Hok Hi Hc. apply (ok_set_os i o); try done; cbn; [intros t d; apply (ok_joining s Hok i o t d Hi)|by apply (ok_elsewhere s Hok i o)].
Qed.
(** [Start] makes a thread. *)
Lemma lookup_snoc {A} (l : list A) x k y : (l ++ [x]) !! k = Some y <-> l !! k = Some y \/ (k = length l /\ y = x).
Proof.
  rewrite lookup_app_Some, list_lookup_singleton_Some. split; [|intros [Hk|[-> ->]]; [by left|right; split; [done|split; [lia|done]]]].
  intros [?|(? & ? & ->)]; [by left|right; split; [lia|done]].
Qed.
Lemma not_started_inside s i o t th : ok s -> os s !! i = Some o -> at_ o = Elsewhere -> threads s !! t = Some th -> creator th = i ->
  started_ th = false -> ~ starts t s /\ (forall j x, os s !! j = Some x -> ~ inside t x).
Proof.
  intros Hok Hi Ha Ht Hc Hs. assert (Hn : ~ starts t s).
  { intros (k & x & Hk & Hx). destruct (ok_starting s Hok k x t Hk Hx) as (th' & Ht' & Hc' & _). congruence. }
  split; [done|]. intros j x Hj Hx. destruct (ok_inside s Hok j x t Hj Hx) as (th' & Ht' & _ & _ & [?|?]); [congruence|done].
Qed.
Lemma ok_start i o t th r s : ok s -> os s !! i = Some o -> free o = true -> threads s !! t = Some th -> creator th = i -> kind_ th = Plain ->
  started_ th = false -> ok (Start i t o th r s).
Proof.
  intros Hok Hi Hf Ht Hc Hk Hs. destruct (free_place o Hf) as [Ha _], (free_not_early o Hf) as [Hb1 Hb2].
  destruct (not_started_inside s i o t th Hok Hi Ha Ht Hc Hs) as [Hns Hni]. pose proof (lookup_lt_Some _ _ _ Hi) as Hl.
  destruct Hok as [H1 H2 H3 H4 H5 H6 H7 H8 H9]. unfold Start. rewrite (proj1 (H9 t th Ht)), Hk, Hs. cbn [negb bool_decide]. cbv zeta.
  set (j := length (os s)). set (o' := go_to (Starting t) o). rewrite bool_decide_eq_true_2 by done. cbn [negb].
  assert (HO : forall k x, (<[i:=o']> (os s) ++ [mkOS (InPreRun t) Elsewhere None]) !! k = Some x ->
    (k = j /\ x = mkOS (InPreRun t) Elsewhere None) \/ (k = i /\ x = o') \/ (k <> i /\ os s !! k = Some x)).
  { intros k x [Hx|[-> ->]]%lookup_snoc; [|left; by rewrite length_insert]. right. os_case Hx; [by left|right; by split]. }
  assert (HI : forall k x, os s !! k = Some x -> exists x', (<[i:=o']> (os s) ++ [mkOS (InPreRun t) Elsewhere None]) !! k = Some x' /\ body_ x' = body_ x).
  { intros k x Hx. destruct (decide (k = i)) as [->|Hn].
    - exists o'. split; [|cbn; congruence]. apply lookup_snoc. left. by apply list_lookup_insert_eq.
    - exists x. split; [|done]. apply lookup_snoc. left. by rewrite list_lookup_insert_ne. }
  assert (HS : forall t', t' <> t -> starts t' (mkSystem (<[t:=set_handle j r th]> (threads s)) (<[i:=o']> (os s) ++ [mkOS (InPreRun t) Elsewhere None])) <-> starts t' s).
  { intros t' Hn. split; intros (k & x & Hx & Hat).
    - cbn in Hx. apply HO in Hx as [[-> ->]|[[-> ->]|[Hx1 Hx]]]; [done|cbn in Hat; congruence|by exists k, x].
    - exists k, x. split; [|done]. cbn. apply lookup_snoc. left. rewrite list_lookup_insert_ne; [done|]. intros ->. congruence. }
  assert (HT : forall (P : Thread -> Prop) t', t' <> t -> (exists x, threads s !! t' = Some x /\ P x) -> exists x, <[t := set_handle j r th]> (threads s) !! t' = Some x /\ P x).
  { intros P t' Hn (x & Hx & HP). exists x. by rewrite lookup_insert_ne. }
  split; cbn [threads os].
  - intros k x t' Hx Hin. apply HO in Hx as [[-> ->]|[[-> ->]|[Hx1 Hx]]].
    + destruct Hin as [[= <-]|[=]]. exists (set_handle j r th). rewrite lookup_insert_eq. split_and!; [done..|]. right. exists i, o'. split; [|done].
      apply lookup_snoc. left. by apply list_lookup_insert_eq.
    + assert (Hn : t' <> t) by (intros ->; exact (Hni i o Hi Hin)). apply HT; [done|]. destruct (H1 i o t' Hi Hin) as (y & Hy). exists y. by rewrite HS.
    + assert (Hn : t' <> t) by (intros ->; exact (Hni k x Hx Hin)). apply HT; [done|]. destruct (H1 k x t' Hx Hin) as (y & Hy). exists y. by rewrite HS.
  - intros t' x Hx Hkx Hst. destruct (decide (t' = t)) as [->|Hn].
    + rewrite lookup_insert_eq in Hx. injection Hx as <-. exists (mkOS (InPreRun t) Elsewhere None). split_and!; [|right; by left|cbn; lia].
      apply lookup_snoc. right. by rewrite length_insert.
    + rewrite lookup_insert_ne in Hx by done. rewrite HS in Hst by done. destruct (H2 t' x Hx Hkx Hst) as (y & Hy & Hb & Hlt).
      destruct (HI _ _ Hy) as (y' & Hy' & Eb). exists y'. split; [done|]. split; [|done]. unfold inside. by rewrite Eb.
  - intros k x t' Hx Hat. apply HO in Hx as [[-> ->]|[[-> ->]|[Hx1 Hx]]]; [done| |].
    + injection Hat as <-. exists (set_handle j r th). by rewrite lookup_insert_eq.
    + apply HT; [|by apply (H3 k x)]. intros ->. apply Hns. by exists k, x.
  - intros k x t' d Hx Hat. apply HO in Hx as [[-> ->]|[[-> ->]|[Hx1 Hx]]]; [done..|].
    apply HT; [|by apply (H4 k x t' d)]. intros ->. destruct (H4 k x t d Hx Hat) as (y & Hy & _ & _ & ? & _). congruence.
  - intros k x Hx Hb. apply HO in Hx as [[-> ->]|[[-> ->]|[Hx1 Hx]]]; [done| |by apply (H5 k x)].
    exfalso. destruct Hb as [?|[t' ?]]; [done|by destruct (Hb2 t')].
  - intros k x t' Hx Hb Hcu. apply HO in Hx as [[-> ->]|[[-> ->]|[Hx1 Hx]]]; [done| |].
    + destruct (H6 i o t' Hi Hb Hcu) as (y & Hy & Hyk). destruct (decide (t' = t)) as [->|Hn]; [|apply HT; [done|by exists y]].
      exfalso. assert (y = th) as -> by congruence. rewrite Hk in Hyk. apply (Hni i o Hi). by right.
    + destruct (H6 k x t' Hx Hb Hcu) as (y & Hy & Hyk). destruct (decide (t' = t)) as [->|Hn]; [|apply HT; [done|by exists y]].
      exfalso. assert (y = th) as -> by congruence. rewrite Hk in Hyk. apply (Hni k x Hx). by right.
  - intros k x t' Hx Hb. apply HO in Hx as [[-> ->]|[[-> ->]|[Hx1 Hx]]]; [done|by apply (H7 i o)|by apply (H7 k x)].
  - intros k x t' Hx Hb. apply HO in Hx as [[-> ->]|[[-> ->]|[Hx1 Hx]]]; [done|by apply (H8 i o t')|by apply (H8 k x t')].
  - intros t' x. destruct (decide (t' = t)) as [->|Hn]; [|rewrite lookup_insert_ne by done; apply H9].
    rewrite lookup_insert_eq. intros [= <-]. exact (H9 t th Ht).
Qed.
Lemma ok_store_started i o t th s : ok s -> os s !! i = Some o -> at_ o = Starting t -> threads s !! t = Some th ->
  ok (set_os i (go_to Elsewhere o) (set_thread t (set_started true th) s)).
Proof.
  intros Hok Hi Ha Ht. pose proof (lookup_lt_Some _ _ _ Hi) as Hl. pose proof Hok as [H1 H2 H3 H4 H5 H6 H7 H8 H9].
  destruct (H3 i o t Hi Ha) as (x & Hx & Hc & Hk & Hs). assert (x = th) as -> by congruence. clear Hx.
  assert (HT : forall (P Q : Thread -> Prop), (forall x, P x -> Q x) -> (P th -> Q (set_started true th)) -> forall t',
    (exists x, threads s !! t' = Some x /\ P x) -> exists x, <[t := set_started true th]> (threads s) !! t' = Some x /\ Q x).
  { intros P Q HPQ Hth t' (x & Hx & HP). destruct (decide (t' = t)) as [->|Hn].
    - rewrite lookup_insert_eq. exists (set_started true th). split; [done|]. apply Hth. congruence.
    - exists x. rewrite lookup_insert_ne by done. auto. }
  assert (HO : forall k x, <[i := go_to Elsewhere o]> (os s) !! k = Some x -> (k = i /\ x = go_to Elsewhere o) \/ (k <> i /\ os s !! k = Some x)).
  { intros k x Hx. os_case Hx; [by left|by right]. }
  assert (HS1 : forall t', t' <> t -> starts t' s -> starts t' (set_os i (go_to Elsewhere o) (set_thread t (set_started true th) s))).
  { intros t' Hn (k & x & Hx & Hat). exists k, x. split; [|done]. cbn. rewrite list_lookup_insert_ne; [done|]. intros ->. congruence. }
  assert (HS2 : forall t', starts t' (set_os i (go_to Elsewhere o) (set_thread t (set_started true th) s)) -> starts t' s).
  { intros t' (k & x & Hx & Hat). cbn in Hx. apply HO in Hx as [[-> ->]|[_ Hx]]; [done|]. by exists k, x. }
  assert (HIN : forall k x, <[i := go_to Elsewhere o]> (os s) !! k = Some x -> exists x', os s !! k = Some x' /\ body_ x' = body_ x /\ current x' = current x).
  { intros k x [[-> ->]|[_ Hx]]%HO; [by exists o|by exists x]. }
  split; cbn [threads os set_os set_thread set_threads].
  - intros k x t' Hx Hin. destruct (HIN k x Hx) as (x' & Hx' & Eb & _). unfold inside in Hin. rewrite <- Eb in Hin.
    destruct (decide (t' = t)) as [->|Hn].
    + rewrite lookup_insert_eq. exists (set_started true th). destruct (H1 k x' t Hx' Hin) as (y & Hy & Hyt & _). split_and!; [done|cbn; congruence|done|by left].
    + rewrite lookup_insert_ne by done. destruct (H1 k x' t' Hx' Hin) as (y & Hy & Hyt & Hyk & Hys). exists y. split_and!; try done. destruct Hys; [by left|right; auto].
  - intros t' x Hx Hkx Hst. assert (E : exists y, os s !! thread_ x = Some y /\ (body_ y = Ended \/ inside t' y) /\ (creator x < thread_ x)%nat).
    { destruct (decide (t' = t)) as [->|Hn]; [rewrite lookup_insert_eq in Hx; injection Hx as <-; apply (H2 t th Ht Hk); right; by exists i, o|].
      rewrite lookup_insert_ne in Hx by done. apply (H2 t' x Hx Hkx). destruct Hst; [by left|right; auto]. }
    destruct E as (y & Hy & Hb & Hlt). destruct (decide (thread_ x = i)) as [E|Hn].
    + rewrite E in *. assert (y = o) as -> by congruence. exists (go_to Elsewhere o). by rewrite list_lookup_insert_eq.
    + exists y. by rewrite list_lookup_insert_ne.
  - intros k x t' Hx Hat. apply HO in Hx as [[-> ->]|[Hn Hx]]; [done|]. destruct (H3 k x t' Hx Hat) as (y & Hy & Hyc & Hyr).
    destruct (decide (t' = t)) as [->|Hn']; [congruence|]. exists y. by rewrite lookup_insert_ne.
  - intros k x t' d Hx Hat. apply HO in Hx as [[-> ->]|[Hn Hx]]; [done|]. destruct (H4 k x t' d Hx Hat) as (y & Hy & Hyc & Hyr).
    destruct (decide (t' = t)) as [->|Hn']; [congruence|]. exists y. by rewrite lookup_insert_ne.
  - intros k x Hx Hb. by apply HO in Hx as [[-> ->]|[_ Hx]]; [|apply (H5 k x)].
  - intros k x t' Hx Hb Hcu. destruct (HIN k x Hx) as (x' & Hx' & Eb & Ec). rewrite <- Eb, <- Ec in *.
    eapply HT; [| |exact (H6 k x' t' Hx' Hb Hcu)]; done.
  - intros k x t' Hx Hb. destruct (HIN k x Hx) as (x' & Hx' & Eb & Ec). rewrite <- Eb, <- Ec in *. by apply (H7 k x').
  - intros k x t' Hx Hb. destruct (HIN k x Hx) as (x' & Hx' & Eb & Ec). rewrite <- Eb, <- Ec in *. by apply (H8 k x' t').
  - intros t' x Hx. destruct (decide (t' = t)) as [->|Hn]; [rewrite lookup_insert_eq in Hx; injection Hx as <-; exact (H9 t th Ht)|].
    rewrite lookup_insert_ne in Hx by done. by apply (H9 t').
Qed.
(** After a join. *)
Lemma ok_unstart t th o s : ok s -> threads s !! t = Some th -> kind_ th = Plain -> os s !! thread_ th = Some o -> body_ o = Ended ->
  ~ starts t s -> (forall k x d, os s !! k = Some x -> at_ x <> Joining t d) -> ok (set_thread t (set_started false th) s).
Proof.
  intros [H1 H2 H3 H4 H5 H6 H7 H8 H9] Ht Hk Ho Hb Hns Hnj.
  assert (Hni : forall k x, os s !! k = Some x -> ~ inside t x).
  { intros k x Hx Hin. destruct (H1 k x t Hx Hin) as (y & Hy & Hyt & _). assert (y = th) as -> by congruence. assert (x = o) as -> by congruence.
    destruct Hin; congruence. }
  assert (HT : forall (P : Thread -> Prop) t', t' <> t -> (exists x, threads s !! t' = Some x /\ P x) -> exists x, <[t := set_started false th]> (threads s) !! t' = Some x /\ P x).
  { intros P t' Hn (x & Hx & HP). exists x. by rewrite lookup_insert_ne. }
  split; cbn; try done.
  - intros k x t' Hx Hin. apply HT; [|by apply (H1 k x)]. intros ->. by destruct (Hni k x Hx).
  - intros t' x Hx Hkx Hst. destruct (decide (t' = t)) as [->|Hn].
    + rewrite lookup_insert_eq in Hx. injection Hx as <-. destruct Hst; [done|]. by destruct Hns.
    + rewrite lookup_insert_ne in Hx by done. by apply H2.
  - intros k x t' Hx Hat. apply HT; [|by apply (H3 k x)]. intros ->. destruct Hns. by exists k, x.
  - intros k x t' d Hx Hat. apply HT; [|by apply (H4 k x t' d)]. intros ->. by destruct (Hnj k x d Hx).
  - intros k x t' Hx Hbx Hcu. destruct (H6 k x t' Hx Hbx Hcu) as (y & Hy & Hyk). destruct (decide (t' = t)) as [->|Hn]; [|apply HT; [done|by exists y]].
    assert (y = th) as -> by congruence. rewrite Hk in Hyk. destruct (Hni k x Hx). by right.
  - intros t' x Hx. destruct (decide (t' = t)) as [->|Hn]; [rewrite lookup_insert_eq in Hx; injection Hx as <-; exact (H9 t th Ht)|].
    rewrite lookup_insert_ne in Hx by done. by apply (H9 t').
Qed.
(** An object that was not started, or was joined, is known to no thread. *)
Lemma plain_unknown s i o t th : ok s -> os s !! i = Some o -> at_ o = Elsewhere -> threads s !! t = Some th -> creator th = i -> kind_ th = Plain ->
  started_ th = false -> unknown t s.
Proof.
  intros Hok Hi Ha Ht Hc Hk Hs k x Hx. destruct (not_started_inside s i o t th Hok Hi Ha Ht Hc Hs) as [Hns Hni]. split_and!.
  - by apply (Hni k).
  - intros Hat. apply Hns. by exists k, x.
  - intros d Hat. destruct (ok_joining s Hok k x t d Hx Hat) as (y & Hy & _ & _ & ? & _). congruence.
  - intros Hb Hcu. destruct (ok_current s Hok k x t Hx Hb Hcu) as (y & Hy & Hyk). assert (y = th) as -> by congruence. rewrite Hk in Hyk.
    apply (Hni k x Hx). by right.
Qed.

(** ** Every step *)
Definition fine (r : outcome System) : Prop := exists s, r = Done s /\ ok s.
Lemma mine_spec i t k s : mine i t k s = true -> exists th, threads s !! t = Some th /\ creator th = i /\ kind_ th = k.
Proof. unfold mine. destruct (threads s !! t) as [th|]; [|done]. intros [? ?]%bool_decide_eq_true. by exists th. Qed.
Lemma is_fresh t s : bool_decide (threads s !! t = None) = true -> threads s !! t = None.
Proof. by intros ?%bool_decide_eq_true. Qed.
Lemma fine_Done s : ok s -> fine (Done s).
Proof. by exists s. Qed.
Lemma Stop_fine i t o th d s : ok s -> os s !! i = Some o -> free o = true -> threads s !! t = Some th -> creator th = i -> kind_ th = Plain ->
  ok (Stop i t o th d s).
Proof.
  intros Hok Hi Hf Ht Hc Hk. unfold Stop. cbv zeta. pose proof (ok_quit t th s Hok Ht) as Hq.
  assert (Ht' : threads (set_thread t (Quit th) s) !! t = Some (Quit th)) by (cbn; apply lookup_insert_eq).
  destruct (started_ th) eqn:Es; [by apply (ok_join i o t (Quit th))|]. destruct d; [|done].
  apply ok_delete; [done|]. destruct (free_place o Hf) as [Ha _]. by apply (plain_unknown _ i o t (Quit th)).
Qed.
Lemma set_current_some i o t th s : ok s -> os s !! i = Some o -> free o = true -> current o = None ->
  threads s !! t = Some th -> creator th = i -> kind_ th <> Plain -> ok (set_os i (SetCurrentThread (Some t) o) s).
Proof.
  intros Hok Hi Hf Hcu Ht Hc Hk. destruct (free_place o Hf) as [_ [Hb|[t' Hb]]]; [|by rewrite (ok_running s Hok i o t' Hi Hb) in Hcu].
  apply ok_set_current; [done..|]. split_and!; cbn; rewrite Hb; try done. intros t' _ [= <-]. exists th. split; [done|]. by destruct (kind_ th).
Qed.
Lemma set_current_none i o t th s : ok s -> os s !! i = Some o -> free o = true -> current o = Some t ->
  threads s !! t = Some th -> kind_ th <> Plain -> ok (set_os i (SetCurrentThread None o) s).
Proof.
  intros Hok Hi Hf Hcu Ht Hk. destruct (free_place o Hf) as [_ [Hb|[t' Hb]]].
  - apply ok_set_current; [done..|]. by split_and!; cbn; rewrite Hb.
  - exfalso. pose proof (ok_running s Hok i o t' Hi Hb) as Hr. assert (t' = t) as -> by congruence.
    destruct (ok_inside s Hok i o t Hi) as (y & Hy & _ & Hyk & _); [by right|]. congruence.
Qed.
(** An object no thread was started for is known at most as the current thread of the thread that made it. *)
Lemma local_unknown t th s : ok s -> threads s !! t = Some th -> kind_ th <> Plain ->
  (forall o, os s !! creator th = Some o -> body_ o <> Ended -> current o <> Some t) -> unknown t s.
Proof.
  intros Hok Ht Hk Hc j o Hj. split_and!.
  - intros Hin. destruct (ok_inside s Hok j o t Hj Hin) as (y & Hy & _ & Hyk & _). congruence.
  - intros Hat. destruct (ok_starting s Hok j o t Hj Hat) as (y & Hy & _ & Hyk & _). congruence.
  - intros d Hat. destruct (ok_joining s Hok j o t d Hj Hat) as (y & Hy & _ & Hyk & _). congruence.
  - intros Hb Hcu. destruct (ok_current s Hok j o t Hj Hb Hcu) as (y & Hy & Hyk). assert (y = th) as -> by congruence.
    destruct (kind_ th); [done|..]; subst j; exact (Hc o Hj Hb Hcu).
Qed.
Lemma do_call_fine_life i c o s : ok s -> os s !! i = Some o -> free o = true -> legal (Call i c) s = true -> fine (do_call i c o s).
Proof.
  intros Hok Hi Hf Hl. pose proof (lookup_lt_Some _ _ _ Hi) as Hlt.
  destruct c as [t|t r|t|t|t|t|t| |t|t]; cbn [legal] in Hl; cbn [do_call]; unfold with_thread; try done;
    try (apply mine_spec in Hl as (th & Ht & Hc & Hk); rewrite ?Ht; apply fine_Done); try apply is_fresh in Hl.
  - by apply fine_Done, ok_new.
  - destruct (started_ th) eqn:Es; [|by apply (ok_start i)]. unfold Start. rewrite Es. by destruct (negb (owned_ th)).
  - by apply ok_quit.
  - by apply Stop_fine.
  - by apply Stop_fine.
  - apply fine_Done. unfold WrapCurrentThread. destruct (current o) eqn:Ec; [done|]. eapply set_current_some; [|done|done|done|cbn; apply lookup_insert_eq|done|done].
    by apply ok_new.
  - unfold UnwrapCurrentThread. destruct (current o) as [t|] eqn:Ec; [|by apply fine_Done].
    destruct (ok_current s Hok i o t Hi) as (th & Ht & Hk); [apply (free_not_early o Hf)|done|]. rewrite Ht. apply fine_Done.
    destruct (ok_owned s Hok t th Ht) as [-> _]. case_bool_decide as Ek; [done|]. destruct (kind_ th) eqn:Ekk; try done.
    apply ok_delete; [apply (set_current_none i o t th); [done..|congruence]|].
    apply (local_unknown t th); [apply (set_current_none i o t th); [done..|congruence]|done|congruence|].
    intros o'. rewrite Hk. cbn. rewrite list_lookup_insert_eq by done. by intros [= <-].
  - apply fine_Done. unfold AutoThread_new. cbv zeta. destruct (current o) eqn:Ec; [by apply ok_new|].
    eapply set_current_some; [|done|done|done|cbn; apply lookup_insert_eq|done|done]. by apply ok_new.
  - unfold delete_AutoThread, is_current. case_bool_decide as Ec.
    + apply ok_delete; [apply (set_current_none i o t th); [done..|congruence]|].
      apply (local_unknown t th); [apply (set_current_none i o t th); [done..|congruence]|done|congruence|].
      intros o'. rewrite Hc. cbn. rewrite list_lookup_insert_eq by done. by intros [= <-].
    + apply ok_delete; [done|]. apply (local_unknown t th); [done..|congruence|]. intros o'. rewrite Hc, Hi. by intros [= <-].
Qed.
Lemma resume_fine i o s r : ok s -> os s !! i = Some o -> resume i o s = Some r -> fine r.
Proof.
  intros Hok Hi E. unfold resume in E. destruct (at_ o) as [|t|t d] eqn:Ea; [done| |].
  - destruct (ok_starting s Hok i o t Hi Ea) as (th & Ht & _). rewrite Ht in E. injection E as <-. by apply fine_Done, ok_store_started.
  - destruct (ok_joining s Hok i o t d Hi Ea) as (th & Ht & Hc & Hk & Hs & _). rewrite Ht in E.
    destruct (os s !! thread_ th) as [[b p c]|] eqn:Eo; [|done]. destruct b; try done. injection E as <-.
    pose proof (lookup_lt_Some _ _ _ Hi) as Hl. set (s1 := set_os i (go_to Elsewhere o) s).
    assert (Hok1 : ok s1).
    { apply (ok_set_os i o); try done; cbn; [intros t'; rewrite Ea; by split|exact (ok_current_ok i o s Hok Hi)]. }
    assert (Hne : i <> thread_ th).
    { intros Ei. assert (o = mkOS Ended p c) as -> by congruence. rewrite (ok_elsewhere s Hok i _ Hi) in Ea by (by left). done. }
    assert (Hi1 : os s1 !! i = Some (go_to Elsewhere o)) by (cbn; by apply list_lookup_insert_eq).
    assert (Hu : ok (set_thread t (set_started false th) s1)).
    { apply (ok_unstart t th (mkOS Ended p c)); try done.
      - cbn. by rewrite list_lookup_insert_ne.
      - intros (k & x & Hx & Hat). destruct (ok_starting s1 Hok1 k x t Hx Hat) as (y & Hy & _ & _ & ?). assert (y = th) as -> by (cbn in Hy; congruence). congruence.
      - intros k x d' Hx Hat. destruct (ok_joining s1 Hok1 k x t d' Hx Hat) as (y & Hy & Hyc & _). assert (y = th) as -> by (cbn in Hy; congruence).
        assert (k = i) as -> by congruence. rewrite Hi1 in Hx. by injection Hx as <-. }
    apply fine_Done. destruct d; [|exact Hu]. apply ok_delete; [exact Hu|].
    apply (plain_unknown _ i (go_to Elsewhere o) t (set_started false th)); [exact Hu|exact Hi1|done|cbn; apply lookup_insert_eq|done..].
Qed.
Lemma PreRun_fine j o s r : ok s -> os s !! j = Some o -> PreRun j o s = Some r -> fine r.
Proof.
  intros Hok Hj E. unfold PreRun in E. destruct (at_ o) eqn:Ea; [|done..]. destruct (body_ o) as [|t|t|] eqn:Eb; try done.
  - destruct (ok_inside s Hok j o t Hj) as (th & Ht & Hth & Hk & Hst); [by left|]. rewrite Ht in E. injection E as <-. apply fine_Done.
    apply (ok_set_os j o); try done; cbn.
    + by intros t' d' Hat; cbn in Hat; rewrite Ea in Hat.
    + intros t' [[=]|[= <-]]. by left.
    + intros t' [?|[?|?]]; [congruence| |congruence]. right. right. cbn. congruence.
    + split_and!; cbn; [|congruence|done]. intros t' _ [= <-]. exists th. by rewrite Hk.
  - destruct (ok_inside s Hok j o t Hj) as (th & Ht & Hth & Hk & Hst); [by right|]. rewrite Ht in E.
    destruct (fStop_ th || runnable_ th); [|done]. injection E as <-. rewrite (proj2 (ok_owned s Hok t th Ht)). apply fine_Done.
    apply (ok_set_os j o); try done; cbn.
    + by intros t' d' Hat; cbn in Hat; rewrite Ea in Hat.
    + by intros t' [?|?].
    + intros t' _. by left.
Qed.
Lemma System_new_fine n : ok (System_new n).
Proof.
  assert (H : forall i o, os (System_new n) !! i = Some o -> o = mkOS Foreign Elsewhere None) by (intros i o [-> _]%lookup_replicate; done).
  split; cbn [threads System_new].
  - by intros j o t ->%H [?|?].
  - intros t th Ht. by rewrite lookup_empty in Ht.
  - by intros i o t ->%H.
  - by intros i o t d ->%H.
  - by intros i o ->%H.
  - by intros i o t ->%H.
  - by intros i o t ->%H.
  - by intros i o t ->%H.
  - intros t th Ht. by rewrite lookup_empty in Ht.
Qed.
Lemma step_fine a s r : ok s -> legal a s = true -> step a s = Some r -> fine r.
Proof.
  intros Hok Hl E. destruct a as [i c|i|j]; cbn [step] in E.
  - destruct (os s !! i) as [o|] eqn:Ei; [|done]. cbn [mbind option_bind] in E. destruct (free o) eqn:Ef; [|done]. injection E as <-. by apply do_call_fine_life.
  - destruct (os s !! i) as [o|] eqn:Ei; [|done]. by apply (resume_fine i o s).
  - destruct (os s !! j) as [o|] eqn:Ei; [|done]. by apply (PreRun_fine j o s).
Qed.
Lemma reachable_fine n s : reachable n s -> ok s.
Proof.
  induction 1 as [|s a s' _ IH Hl E]; [apply System_new_fine|]. by destruct (step_fine a s _ IH Hl E) as (s1 & [= ->] & ?).
Qed.
(** A thread that waits for another one was there before it, so the waiting ends. *)
Lemma waiting_goes_on s : ok s -> forall n i o, os s !! i = Some o -> (length (os s) - i <= n)%nat -> at_ o <> Elsewhere ->
  exists j, step (Resume j) s <> None \/ step (Body j) s <> None.
Proof.
  intros Hok. induction n as [|n IH]; intros i o Hi Hn Ha; [apply lookup_lt_Some in Hi; lia|].
  destruct (at_ o) as [|t|t d] eqn:Ea; [done| |].
  - exists i. left. cbn. rewrite Hi. cbn. unfold resume. by rewrite Ea.
  - destruct (ok_joining s Hok i o t d Hi Ea) as (th & Ht & Hc & Hk & Hs & Hq).
    destruct (ok_started s Hok t th Ht Hk) as (x & Hx & Hb & Hlt); [by left|].
    destruct (decide (at_ x = Elsewhere)) as [Hax|Hax]; [|apply (IH (thread_ th) x Hx); [lia|done]].
    destruct Hb as [Hb|Hb].
    + exists i. left. cbn. rewrite Hi. cbn. unfold resume. rewrite Ea, Ht, Hx. destruct x as [b p c]. cbn in Hb. by subst b.
    + exists (thread_ th). right. cbn. rewrite Hx. cbn. unfold PreRun. rewrite Hax. destruct Hb as [->| ->]; rewrite Ht; [done|]. by rewrite Hq.
Qed.

(** C40. Threads that are made, started, stopped and destroyed in any interleaving, each object by the thread that made
    it: nothing that is gone is used, a thread runs only inside its living object and finds it as the current
    one, what [Current] returns lives, and no [Start], [Stop] or destructor waits for ever. *)
Theorem threads_live_inside_objects n s : reachable n s ->
  (forall a r, legal a s = true -> step a s = Some r -> r <> Undefined) /\
  (forall j o t, os s !! j = Some o -> inside t o -> exists th, threads s !! t = Some th /\ thread_ th = j) /\
  (forall j o t, os s !! j = Some o -> body_ o <> Ended -> current o = Some t -> is_Some (threads s !! t)) /\
  (forall j o t, os s !! j = Some o -> body_ o = Running t -> current o = Some t) /\
  (forall i o, os s !! i = Some o -> at_ o <> Elsewhere -> exists j, step (Resume j) s <> None \/ step (Body j) s <> None).
Proof.
  intros Hr. pose proof (reachable_fine n s Hr) as Hok. split_and!.
  - intros a r Hl E. by destruct (step_fine a s r Hok Hl E) as (s' & -> & _).
  - intros j o t Hj Hin. destruct (ok_inside s Hok j o t Hj Hin) as (th & ? & ? & _). by exists th.
  - intros j o t Hj Hb Hc. destruct (ok_current s Hok j o t Hj Hb Hc) as (th & ? & _). by exists th.
  - intros j o t. apply (ok_running s Hok).
  - intros i o Hi Ha. by apply (waiting_goes_on s Hok (length (os s)) i o Hi); [lia|].
Qed.

(** ** Examples *)
Fixpoint exec (l : list action) (s : System) : option (outcome System) :=
  match l with [] => Some (Done s) | a :: l => match step a s with Some (Done s) => exec l s | r => r end end.
Fixpoint all_legal (l : list action) (s : System) : bool :=
  match l with [] => true | a :: l => legal a s && match step a s with Some (Done s) => all_legal l s | _ => false end end.
Lemma exec_reachable_life n l : forall s s', reachable n s -> all_legal l s = true -> exec l s = Some (Done s') -> reachable n s'.
Proof.
  induction l as [|a l IH]; intros s s' Hr Hl E; cbn in Hl, E; [by injection E as <-|]. apply andb_prop in Hl as [Ha Hl].
  destruct (step a s) as [[s1| |]|] eqn:Es; try done. eapply IH; [|done..]. by eapply reach_step.
Qed.
(** The main thread wraps itself, starts a thread and destroys it. *)
Definition start_and_stop : list action :=
  [Call 0 (CallWrap 7); Call 0 (CallNew 1); Call 0 (CallStart 1 false); Body 1; Resume 0; Call 0 (CallDelete 1)].
Lemma threads_live_inside_objects_witness :
  exists s, exec start_and_stop (System_new 1) = Some (Done s) /\ step (Resume 0) s = None /\
    (exists j, step (Resume j) s <> None \/ step (Body j) s <> None).
Proof.
  destruct (exec start_and_stop (System_new 1)) as [[s| |]|] eqn:E; try (vm_compute in E; discriminate E).
  exists s. assert (Hr : reachable 1 s).
  { apply (exec_reachable_life 1 start_and_stop (System_new 1)); [constructor|vm_compute; reflexivity|exact E]. }
  vm_compute in E. injection E as <-. split; [reflexivity|]. split; [vm_compute; reflexivity|].
  destruct (threads_live_inside_objects 1 _ Hr) as (_ & _ & _ & _ & H). eapply (H 0%nat); [reflexivity|discriminate].
Defined.
(** A thread that deletes its object when it is complete may do so before [Start] stores to the object. *)
Example released_before_started :
  exec [Call 0 (CallNew 1); Call 0 (CallRelease 1); Call 0 (CallStart 1 true); Body 1; Body 1; Resume 0] (System_new 1) = Some Undefined.
Proof. vm_compute. reflexivity. Qed.
(** A thread that is started again after [Stop] ends at once: nobody restarts its queue. *)
Example started_again_ends :
  match exec [Call 0 (CallNew 1); Call 0 (CallStart 1 false); Resume 0; Call 0 (CallStop 1); Body 1; Body 1; Resume 0;
      Call 0 (CallStart 1 false); Resume 0; Body 2; Body 2] (System_new 1) with
  | Some (Done s) => body_ <$> os s !! 2%nat = Some Ended | _ => False end.
Proof. vm_compute. reflexivity. Qed.
