(* ===== verification/Json.v ===== *)
(** * json/jsoncpp.cpp: the JSON values the SDK exchanges with a device

    The part of [Json::Value] that the SDK calls: construction, type tests,
    member access and conversions.  An object is a [std::map]: its members in the
    order of their keys.  A double is [m * 2 ^ e].  [None] is a thrown
    [std::runtime_error].  JsonText.v models the text of a value. *)
From Stdlib Require Import String.
From S2P Require Import Prelude Text.

#[local] Unset Elimination Schemes.
Inductive Value :=
  | nullValue
  | intValue (int_ : Z)
  | uintValue (uint_ : Z)
  | realValue (m e : Z)
  | stringValue (string_ : list Z)
  | booleanValue (bool_ : bool)
  | arrayValue (map_ : list Value)
  | objectValue (map_ : list (string * Value)).

(** The C library's [%.16g] and [%lf]: the text of a finite double, and the double
    a text starts with, if it starts with one.  A number beyond the doubles is read
    as an infinity, for which [2 ^ 1024], with its sign, stands. *)
Class DoubleText := {
  print_g16 : Z -> Z -> list Z;
  scan_lf : list Z -> option (Z * Z) }.

Definition minInt : Z := - 2 ^ 31.
Definition maxInt : Z := 2 ^ 31 - 1.
Definition maxUInt : Z := 2 ^ 32 - 1.

(** ** Numbers *)

(** [m * 2 ^ e], rounded toward zero, and whether it is an integer. *)
Definition real_trunc (m e : Z) : Z := if 0 <=? e then m * 2 ^ e else Z.quot m (2 ^ (- e)).
Definition IsIntegral (m e : Z) : bool := if 0 <=? e then true else Z.rem m (2 ^ (- e)) =? 0.
(** [lo <= m * 2 ^ e <= hi] for integers [lo] and [hi]. *)
Definition InRange (m e lo hi : Z) : bool :=
  if 0 <=? e then (lo <=? m * 2 ^ e) && (m * 2 ^ e <=? hi)
  else (lo * 2 ^ (- e) <=? m) && (m <=? hi * 2 ^ (- e)).

(** ** Type tests *)
Definition isNull (v : Value) : bool := match v with nullValue => true | _ => false end.
Definition isObject (v : Value) : bool := match v with objectValue _ => true | _ => false end.
Definition isString (v : Value) : bool := match v with stringValue _ => true | _ => false end.
Definition isInt (v : Value) : bool :=
  match v with
  | intValue i => (minInt <=? i) && (i <=? maxInt)
  | uintValue u => u <=? maxInt
  | realValue m e => InRange m e minInt maxInt && IsIntegral m e
  | _ => false
  end.
Definition isUInt (v : Value) : bool :=
  match v with
  | intValue i => (0 <=? i) && (i <=? maxUInt)
  | uintValue u => u <=? maxUInt
  | realValue m e => InRange m e 0 maxUInt && IsIntegral m e
  | _ => false
  end.

(** ** Conversions *)

Definition isfinite (m e : Z) : bool :=
  if 0 <=? e then Z.abs m * 2 ^ e <? 2 ^ 1024 else Z.abs m <? 2 ^ (1024 - e).
Definition fixNumericLocale (l : list Z) : list Z := map (fun c => if c =? 44 then 46 else c) l.
Definition valueToString_double `{DoubleText} (m e : Z) : list Z :=
  if isfinite m e then fixNumericLocale (print_g16 m e)
  else if m <? 0 then bytes "-1e+9999" else bytes "1e+9999".

Definition asCString (v : Value) : option (list Z) :=
  match v with stringValue s => Some (c_str s) | _ => None end.
Definition asString `{DoubleText} (v : Value) : option (list Z) :=
  match v with
  | nullValue => Some []
  | stringValue s => Some (c_str s)
  | booleanValue b => Some (bytes (if b then "true" else "false"))
  | intValue i => Some (print_d i)
  | uintValue u => Some (print_d u)
  | realValue m e => Some (valueToString_double m e)
  | _ => None
  end.
Definition asInt (v : Value) : option Z :=
  match v with
  | intValue i => if isInt v then Some i else None
  | uintValue u => if isInt v then Some u else None
  | realValue m e => if InRange m e minInt maxInt then Some (real_trunc m e) else None
  | nullValue => Some 0
  | booleanValue b => Some (if b then 1 else 0)
  | _ => None
  end.
Definition asUInt (v : Value) : option Z :=
  match v with
  | intValue i => if isUInt v then Some i else None
  | uintValue u => if isUInt v then Some u else None
  | realValue m e => if InRange m e 0 maxUInt then Some (real_trunc m e) else None
  | nullValue => Some 0
  | booleanValue b => Some (if b then 1 else 0)
  | _ => None
  end.

(** The number of values in an array or object, a [UInt]. *)
Definition size (v : Value) : Z :=
  match v with
  | arrayValue l => u32 (Z.of_nat (length l))
  | objectValue l => u32 (Z.of_nat (length l))
  | _ => 0
  end.

(** ** Members *)
Fixpoint map_find (key : string) (l : list (string * Value)) : option Value :=
  match l with
  | [] => None
  | (k, v) :: l => if (k =? key)%string then Some v else map_find key l
  end.

(** [map::insert] of a new key at its place, or assignment to an old one. *)
Fixpoint map_set (key : string) (v : Value) (l : list (string * Value)) : list (string * Value) :=
  match l with
  | [] => [(key, v)]
  | (k, w) :: l' =>
    if (k =? key)%string then (key, v) :: l'
    else if (key <? k)%string then (key, v) :: l
    else (k, w) :: map_set key v l'
  end.

(** The constant [operator[]]. *)
Definition index_const (v : Value) (key : string) : option Value :=
  match v with
  | nullValue => Some nullValue
  | objectValue l => Some (default nullValue (map_find key l))
  | _ => None
  end.

(** [resolveReference], which the other [operator[]] calls: a null value becomes
    an object and a missing member is created; the value after, and the member. *)
Definition resolveReference (v : Value) (key : string) : option (Value * Value) :=
  let resolve l :=
    match map_find key l with
    | Some m => (objectValue l, m)
    | None => (objectValue (map_set key nullValue l), nullValue)
    end in
  match v with
  | nullValue => Some (resolve [])
  | objectValue l => Some (resolve l)
  | _ => None
  end.

(** [v[key] = m]. *)
Definition set_member (v : Value) (key : string) (m : Value) : option Value :=
  '(v, _) ← resolveReference v key;
  match v with objectValue l => Some (objectValue (map_set key m l)) | _ => None end.

(** The assignments [v[k1] = m1; v[k2] = m2; ...]. *)
Fixpoint set_members (v : Value) (ms : list (string * Value)) : option Value :=
  match ms with
  | [] => Some v
  | (k, m) :: ms => v ← set_member v k m; set_members v ms
  end.

(** Reading the member a path of [operator[]] leads to. *)
Fixpoint index_path (v : Value) (path : list string) : option Value :=
  match path with
  | [] => Some v
  | key :: path => '(_, m) ← resolveReference v key; index_path m path
  end.

(** ** Laws *)
Lemma map_find_set key v l k :
  map_find k (map_set key v l) = if (key =? k)%string then Some v else map_find k l.
Proof.
  induction l as [|[k' w] l IH]; simpl; [done|].
  destruct (String.eqb_spec k' key) as [->|Hne]; simpl.
  { by destruct (String.eqb_spec key k). }
  destruct (key <? k')%string; simpl; [done|]. rewrite IH.
  destruct (String.eqb_spec k' k), (String.eqb_spec key k); congruence.
Qed.

Definition container (v : Value) : Prop := v = nullValue \/ exists l, v = objectValue l.

Lemma set_member_container v key m :
  container v -> exists v', set_member v key m = Some v' /\ container v' /\
    forall k, index_const v' k = if (key =? k)%string then Some m else index_const v k.
Proof.
  intros [->|[l ->]]; unfold set_member, resolveReference; cbn [mbind option_bind].
  - eexists. split; [done|]. split; [right; eauto|]. intros k. cbn.
    rewrite String.eqb_refl. simpl. by destruct (key =? k)%string.
  - destruct (map_find key l) as [w|] eqn:E; cbn [mbind option_bind].
    all: eexists; split; [done|]; split; [right; eauto|]; intros k; simpl;
      rewrite !map_find_set; by destruct (key =? k)%string.
Qed.

(** After the assignments a member has the last value given to it. *)
Fixpoint last_member (k : string) (ms : list (string * Value)) : option Value :=
  match ms with
  | [] => None
  | (key, m) :: ms =>
    match last_member k ms with
    | Some m => Some m
    | None => if (key =? k)%string then Some m else None
    end
  end.

Lemma set_members_container v ms :
  container v -> exists v', set_members v ms = Some v' /\ container v' /\
    forall k, index_const v' k =
      match last_member k ms with Some m => Some m | None => index_const v k end.
Proof.
  revert v. induction ms as [|[key m] ms IH]; intros v Hv; [by exists v|].
  destruct (set_member_container v key m Hv) as (v1 & E1 & Hv1 & H1).
  destruct (IH v1 Hv1) as (v2 & E2 & Hv2 & H2).
  exists v2. cbn [set_members]. rewrite E1. split; [done|]. split; [done|].
  intros k. rewrite H2, H1. cbn [last_member].
  destruct (last_member k ms); [done|]. by destruct (key =? k)%string.
Qed.

(** The two [operator[]]s read the same member. *)
Lemma resolveReference_member v key :
  snd <$> resolveReference v key = index_const v key.
Proof. destruct v; try done. simpl. by destruct (map_find key map_). Qed.

Lemma index_path_cons v key path m :
  index_const v key = Some m -> index_path v (key :: path) = index_path m path.
Proof.
  rewrite <- resolveReference_member. cbn [index_path].
  destruct (resolveReference v key) as [[v' m']|]; [|done]. by intros [= ->].
Qed.

Lemma asInt_isInt v : isInt v = true -> exists z, asInt v = Some z.
Proof.
  destruct v; try discriminate; unfold asInt.
  - intros ->. eauto.
  - intros ->. eauto.
  - intros [-> _]%andb_prop. eauto.
Qed.
