(* ===== verification/JsonText.v ===== *)
(** * json/jsoncpp.cpp: the text of JSON values

    [FastWriter], which writes the requests, and [Reader], which parses what a
    device sends, with the features the SDK uses (comments allowed).  The reader's
    position is the text it has not read; a read behind the end gives NUL, as
    the text is terminated.  A failed [parse] is [Failed] here, and its caller uses no part of
    the root; errors, features, comments and offsets are in JsonReader.v, which proves that both agree. *)
From Stdlib Require Import Ascii String.
From S2P Require Import Prelude Text Json.

(** ** FastWriter *)
Section writer.
Context {DT : DoubleText}.

Definition isControlCharacter (ch : Z) : bool := (0 <? ch) && (ch <=? 0x1F).

Definition uintToString (value : Z) : list Z := print_nat value.
Definition valueToString_int (value : Z) : list Z :=
  if value <? 0 then 45 :: uintToString (- value) else uintToString value.
Definition valueToString_bool (value : bool) : list Z := bytes (if value then "true" else "false").

(** The digit of [std::hex << std::uppercase]. *)
Definition hex_digit (d : Z) : Z := if d <? 10 then 48 + d else 55 + d.
(** What the loop of [valueToQuotedString] appends for a character. *)
Definition escape (c : Z) : list Z :=
  if c =? 34 then [92; 34]
  else if c =? 92 then [92; 92]
  else if c =? 8 then [92; 98]
  else if c =? 12 then [92; 102]
  else if c =? 10 then [92; 110]
  else if c =? 13 then [92; 114]
  else if c =? 9 then [92; 116]
  else if isControlCharacter c then [92; 117; 48; 48; hex_digit (c / 16); hex_digit (c mod 16)]
  else [c].
Definition special (c : Z) : bool :=
  existsb (Z.eqb c) [34; 92; 8; 12; 10; 13; 9] || isControlCharacter c.
Definition valueToQuotedString (value : list Z) : list Z :=
  let s := c_str value in
  if existsb special s then 34 :: flat_map escape s ++ [34] else 34 :: s ++ [34].

Fixpoint writeValue (value : Value) : list Z :=
  match value with
  | nullValue => bytes "null"
  | intValue i => valueToString_int i
  | uintValue u => uintToString u
  | realValue m e => valueToString_double m e
  | stringValue s => valueToQuotedString s
  | booleanValue b => valueToString_bool b
  | arrayValue l =>
    [91] ++ concat (imap (fun i t => (if (i =? 0)%nat then [] else [44]) ++ t) (map writeValue l)) ++ [93]
  | objectValue l =>
    [123] ++ concat (imap (fun i t => (if (i =? 0)%nat then [] else [44]) ++ t)
      (map (fun kv => let '(name, v) := kv in
        valueToQuotedString (bytes name) ++ [58] ++ writeValue v) l)) ++ [125]
  end.
Definition FastWriter_write (root : Value) : list Z := writeValue root ++ [10].
End writer.

(** ** Reader: tokens *)
Inductive TokenType :=
  | tokenEndOfStream | tokenObjectBegin | tokenObjectEnd | tokenArrayBegin | tokenArrayEnd
  | tokenString | tokenNumber | tokenTrue | tokenFalse | tokenNull
  | tokenArraySeparator | tokenMemberSeparator | tokenComment | tokenError.
#[global] Instance TokenType_eq_dec : EqDecision TokenType.
Proof. solve_decision. Defined.

(** A token and the text from its [start_] to its [end_]. *)
Record Token := mkToken { type_ : TokenType; text : list Z }.

Definition getNextChar (l : list Z) : Z * list Z :=
  match l with [] => (0, []) | c :: l => (c, l) end.

Fixpoint skipSpaces (l : list Z) : list Z :=
  match l with
  | c :: l' => if (c =? 32) || (c =? 9) || (c =? 13) || (c =? 10) then skipSpaces l' else l
  | [] => []
  end.

(** [match], which leaves the position when the pattern is not there. *)
Definition match_pattern (pattern l : list Z) : bool * list Z :=
  if bool_decide (take (length pattern) l = pattern) then (true, drop (length pattern) l)
  else (false, l).

(** The text from the slash that closes a C comment. *)
Fixpoint skip_c_comment (l : list Z) : list Z :=
  match l with
  | [] => []
  | c :: l' => if (c =? 42) && (fst (getNextChar l') =? 47) then l' else skip_c_comment l'
  end.
Definition readCStyleComment (l : list Z) : bool * list Z :=
  let '(c, l) := getNextChar (skip_c_comment l) in (c =? 47, l).
Fixpoint readCppStyleComment (l : list Z) : list Z :=
  match l with
  | [] => []
  | c :: l => if (c =? 13) || (c =? 10) then l else readCppStyleComment l
  end.
Definition readComment (l : list Z) : bool * list Z :=
  let '(c, l) := getNextChar l in
  if c =? 42 then readCStyleComment l
  else if c =? 47 then (true, readCppStyleComment l)
  else (false, l).

Definition in_number (c : Z) : bool :=
  ((48 <=? c) && (c <=? 57)) || existsb (Z.eqb c) [46; 101; 69; 43; 45].
Fixpoint readNumber (l : list Z) : list Z :=
  match l with
  | c :: l' => if in_number c then readNumber l' else l
  | [] => []
  end.
(** [c] is the last character read. *)
Fixpoint readString (c : Z) (l : list Z) : bool * list Z :=
  match l with
  | [] => (c =? 34, [])
  | c :: l =>
    if c =? 92 then match l with [] => (false, []) | _ :: l => readString c l end
    else if c =? 34 then (true, l)
    else readString c l
  end.

Definition readToken (l : list Z) : Token * list Z :=
  let l := skipSpaces l in
  let '(c, l1) := getNextChar l in
  let '(type, (ok, l2)) :=
    if c =? 123 then (tokenObjectBegin, (true, l1))
    else if c =? 125 then (tokenObjectEnd, (true, l1))
    else if c =? 91 then (tokenArrayBegin, (true, l1))
    else if c =? 93 then (tokenArrayEnd, (true, l1))
    else if c =? 34 then (tokenString, readString 0 l1)
    else if c =? 47 then (tokenComment, readComment l1)
    else if is_digit c || (c =? 45) then (tokenNumber, (true, readNumber l1))
    else if c =? 116 then (tokenTrue, match_pattern (bytes "rue") l1)
    else if c =? 102 then (tokenFalse, match_pattern (bytes "alse") l1)
    else if c =? 110 then (tokenNull, match_pattern (bytes "ull") l1)
    else if c =? 44 then (tokenArraySeparator, (true, l1))
    else if c =? 58 then (tokenMemberSeparator, (true, l1))
    else if c =? 0 then (tokenEndOfStream, (true, l1))
    else (tokenError, (false, l1)) in
  (mkToken (if (ok : bool) then type else tokenError) (take (length l - length l2) l), l2).

Definition is_comment (t : Token) : bool := bool_decide (type_ t = tokenComment).

(** [skipCommentTokens], and the loops that read on after a comment.  Every token
    but the last consumes text, so the length of the text is fuel enough
    ([skipCommentTokens_no_comment]). *)
Fixpoint skip_comments (fuel : nat) (l : list Z) : Token * list Z :=
  let '(token, l) := readToken l in
  if is_comment token then
    match fuel with O => (token, l) | S fuel => skip_comments fuel l end
  else (token, l).
Definition skipCommentTokens (l : list Z) : Token * list Z := skip_comments (length l) l.

(** ** Reader: strings *)

(** [codePointToUTF8]. *)
Definition codePointToUTF8 (cp : Z) : list Z :=
  let continued sh := Z.lor 0x80 (Z.land 0x3f (Z.shiftr cp sh)) in
  if cp <=? 0x7f then [u8 cp]
  else if cp <=? 0x7FF then [Z.lor 0xC0 (Z.land 0x1f (Z.shiftr cp 6)); continued 0]
  else if cp <=? 0xFFFF then [Z.lor 0xE0 (Z.land 0xf (Z.shiftr cp 12)); continued 6; continued 0]
  else if cp <=? 0x10FFFF then
    [Z.lor 0xF0 (Z.land 0x7 (Z.shiftr cp 18)); continued 12; continued 6; continued 0]
  else [].

Definition hex_value (c : Z) : option Z :=
  if (48 <=? c) && (c <=? 57) then Some (c - 48)
  else if (97 <=? c) && (c <=? 102) then Some (c - 97 + 10)
  else if (65 <=? c) && (c <=? 70) then Some (c - 65 + 10)
  else None.
Definition decodeUnicodeEscapeSequence (h1 h2 h3 h4 : Z) : option Z :=
  a ← hex_value h1; b ← hex_value h2; c ← hex_value h3; d ← hex_value h4;
  Some (((a * 16 + b) * 16 + c) * 16 + d).

(** [current++] past an escape sequence of one character. *)
Definition simple_escape (escape : Z) : option Z :=
  if escape =? 34 then Some 34
  else if escape =? 47 then Some 47
  else if escape =? 92 then Some 92
  else if escape =? 98 then Some 8
  else if escape =? 102 then Some 12
  else if escape =? 110 then Some 10
  else if escape =? 114 then Some 13
  else if escape =? 116 then Some 9
  else None.

(** The loop of [decodeString], on the text between the quotes; [None] for an
    error.  The escape [u] is [decodeUnicodeCodePoint]. *)
Fixpoint decode_chars (l : list Z) : option (list Z) :=
  match l with
  | [] => Some []
  | c :: l =>
    if c =? 34 then Some []
    else if c =? 92 then
      match l with
      | [] => None
      | escape :: l =>
        if escape =? 117 then
          match l with
          | h1 :: h2 :: h3 :: h4 :: l =>
            unicode ← decodeUnicodeEscapeSequence h1 h2 h3 h4;
            if (0xD800 <=? unicode) && (unicode <=? 0xDBFF) then
              match l with
              | b :: u :: h5 :: h6 :: h7 :: h8 :: l =>
                if (b =? 92) && (u =? 117) then
                  surrogatePair ← decodeUnicodeEscapeSequence h5 h6 h7 h8;
                  let unicode := 0x10000 + Z.shiftl (Z.land unicode 0x3FF) 10
                                 + Z.land surrogatePair 0x3FF in
                  app (codePointToUTF8 unicode) <$> decode_chars l
                else None
              | _ => None
              end
            else app (codePointToUTF8 unicode) <$> decode_chars l
          | _ => None
          end
        else
          c ← simple_escape escape;
          cons c <$> decode_chars l
      end
    else cons c <$> decode_chars l
  end.
Definition decodeString (token : Token) : option (list Z) :=
  decode_chars (take (length (text token) - 2) (drop 1 (text token))).

(** The key an object files a name under: [operator[]] takes a C string. *)
Definition key_of (name : list Z) : string :=
  string_of_list_ascii (map (fun c => ascii_of_N (Z.to_N c)) (c_str name)).

(** ** Reader: numbers and values *)
Section reader.
Context {DT : DoubleText}.

Definition decodeDouble (token : Token) : option Value :=
  '(m, e) ← scan_lf (text token); Some (realValue m e).

(** The loop over the digits: the number, or [None] when it has to be read as a
    double; [Some None] when there is a character that is not a digit. *)
Fixpoint decode_digits (maxIntegerValue value : Z) (l : list Z) : option (option Z) :=
  match l with
  | [] => Some (Some value)
  | c :: l =>
    if negb (is_digit c) then Some None
    else
      let digit := c - 48 in
      let threshold := maxIntegerValue / 10 in
      if (threshold <=? value)
         && ((threshold <? value) || negb (bool_decide (l = [])) || (maxIntegerValue mod 10 <? digit))
      then None
      else decode_digits maxIntegerValue (value * 10 + digit) l
  end.
Definition decodeNumber (token : Token) : option Value :=
  let l := text token in
  let isDouble := existsb (fun c => existsb (Z.eqb c) [46; 101; 69; 43]) l
                  || existsb (Z.eqb 45) (tail l) in
  if isDouble then decodeDouble token
  else
    let isNegative := bool_decide (head l = Some 45) in
    let maxIntegerValue := if isNegative then 2 ^ 63 else 2 ^ 64 - 1 in
    match decode_digits maxIntegerValue 0 (if isNegative then tail l else l) with
    | None => decodeDouble token
    | Some None => None
    | Some (Some value) =>
      Some (if isNegative then intValue (- value)
            else if value <=? maxInt then intValue value else uintValue value)
    end.

(** The outcome of reading: no fuel left, an error, or a value and the rest. *)
Inductive parsed := OutOfFuel | Failed | Parsed (v : Value) (rest : list Z).
Definition of_decoded (v : option Value) (rest : list Z) : parsed :=
  match v with Some v => Parsed v rest | None => Failed end.

(** [readValue], the loop of [readObject] with its [name] and the members so far,
    and the loop of [readArray] with the elements so far. *)
Fixpoint readValue (fuel : nat) (l : list Z) : parsed :=
  match fuel with
  | O => OutOfFuel
  | S fuel =>
    let '(token, l) := skipCommentTokens l in
    match type_ token with
    | tokenObjectBegin => readObject fuel [] [] l
    | tokenArrayBegin =>
      let l := skipSpaces l in
      if fst (getNextChar l) =? 93 then Parsed (arrayValue []) (readToken l).2
      else readArray fuel [] l
    | tokenNumber => of_decoded (decodeNumber token) l
    | tokenString => of_decoded (stringValue <$> decodeString token) l
    | tokenTrue => Parsed (booleanValue true) l
    | tokenFalse => Parsed (booleanValue false) l
    | tokenNull => Parsed nullValue l
    | _ => Failed
    end
  end
with readObject (fuel : nat) (name : list Z) (members : list (string * Value)) (l : list Z) : parsed :=
  match fuel with
  | O => OutOfFuel
  | S fuel =>
    let '(tokenName, l) := skipCommentTokens l in
    match type_ tokenName with
    | tokenObjectEnd =>
      if bool_decide (name = []) then Parsed (objectValue members) l else Failed
    | tokenString =>
      match decodeString tokenName with
      | None => Failed
      | Some name =>
        let '(colon, l) := readToken l in
        if bool_decide (type_ colon = tokenMemberSeparator) then
          match readValue fuel l with
          | Parsed value l =>
            let members := map_set (key_of name) value members in
            let '(comma, l') := readToken l in
            if bool_decide (type_ comma = tokenObjectEnd \/ type_ comma = tokenArraySeparator
                            \/ type_ comma = tokenComment) then
              let '(comma, l') := if is_comment comma then skipCommentTokens l' else (comma, l') in
              if bool_decide (type_ comma = tokenObjectEnd) then Parsed (objectValue members) l'
              else readObject fuel name members l'
            else Failed
          | r => r
          end
        else Failed
      end
    | _ => Failed
    end
  end
with readArray (fuel : nat) (elements : list Value) (l : list Z) : parsed :=
  match fuel with
  | O => OutOfFuel
  | S fuel =>
    match readValue fuel l with
    | Parsed value l =>
      let '(token, l) := skipCommentTokens l in
      match type_ token with
      | tokenArraySeparator => readArray fuel (elements ++ [value]) l
      | tokenArrayEnd => Parsed (arrayValue (elements ++ [value])) l
      | _ => Failed
      end
    | r => r
    end
  end.

(** [parse]: twice the length of the text is fuel enough ([Reader_terminates]). *)
Definition parse_fuel (document : list Z) : nat := S (2 * length document).
Definition Reader_parse (document : list Z) : option Value :=
  match readValue (parse_fuel document) document with Parsed v _ => Some v | _ => None end.
End reader.

(** ** The reader moves forward *)
Lemma skipSpaces_le l : (length (skipSpaces l) <= length l)%nat.
Proof. induction l as [|c l IH]; simpl; [done|]. destruct (_ || _); simpl; lia. Qed.
Lemma skip_c_comment_le l : (length (skip_c_comment l) <= length l)%nat.
Proof. induction l as [|c l IH]; simpl; [done|]. destruct (_ && _); simpl; lia. Qed.
Lemma readCppStyleComment_le l : (length (readCppStyleComment l) <= length l)%nat.
Proof. induction l as [|c l IH]; simpl; [done|]. destruct (_ || _); simpl; lia. Qed.
Lemma readNumber_le l : (length (readNumber l) <= length l)%nat.
Proof. induction l as [|c l IH]; simpl; [done|]. destruct (in_number c); simpl; lia. Qed.
Lemma getNextChar_le l : (length (getNextChar l).2 <= length l)%nat.
Proof. destruct l; simpl; lia. Qed.
Lemma match_pattern_le p l : (length (match_pattern p l).2 <= length l)%nat.
Proof. unfold match_pattern. case_bool_decide; simpl; [rewrite length_drop|]; lia. Qed.
Lemma readString_le n : forall c l, (length l <= n)%nat -> (length (readString c l).2 <= length l)%nat.
Proof.
  induction n as [|n IH]; intros c [|d l] Hn; simpl in *; try lia.
  destruct (d =? 92).
  - destruct l as [|x l]; simpl in *; [lia|]. specialize (IH d l). lia.
  - destruct (d =? 34); simpl; [lia|]. specialize (IH d l). lia.
Qed.
Lemma readComment_le l : (length (readComment l).2 <= length l)%nat.
Proof.
  unfold readComment. pose proof (getNextChar_le l) as H. destruct (getNextChar l) as [c l'].
  cbn [snd] in H. destruct (c =? 42).
  - unfold readCStyleComment. pose proof (getNextChar_le (skip_c_comment l')).
    pose proof (skip_c_comment_le l'). destruct (getNextChar _). simpl in *. lia.
  - pose proof (readCppStyleComment_le l'). destruct (c =? 47); simpl; lia.
Qed.

(** Every token but the end of the text consumes some. *)
Lemma readToken_shrinks l :
  (length (readToken l).2 <= length l)%nat /\
  (type_ (readToken l).1 <> tokenEndOfStream -> type_ (readToken l).1 <> tokenError ->
   (length (readToken l).2 < length l)%nat).
Proof.
  unfold readToken. pose proof (skipSpaces_le l) as Hs. destruct (skipSpaces l) as [|c l1] eqn:E.
  { cbn. split; [lia|done]. }
  cbn [getNextChar length] in *. pose proof (readComment_le l1). pose proof (readNumber_le l1).
  pose proof (readString_le _ 0 l1 (le_n _)).
  repeat (case_if;
    [first [cbn [snd fst]; split; lia
           |match goal with |- context [match_pattern ?p ?x] =>
              pose proof (match_pattern_le p x); destruct (match_pattern p x) end
           |match goal with |- context [readString 0 ?x] => destruct (readString 0 x) end
           |match goal with |- context [readComment ?x] => destruct (readComment x) end];
     cbn [snd fst] in *; split; lia|]).
  cbn [snd fst]. split; lia.
Qed.

Lemma skip_comments_spec fuel l :
  (length l <= fuel)%nat ->
  let '(t, r) := skip_comments fuel l in
  (length r <= length l)%nat /\ type_ t <> tokenComment /\
  (type_ t <> tokenEndOfStream -> type_ t <> tokenError -> (length r < length l)%nat).
Proof.
  revert l. induction fuel as [|fuel IH]; intros l Hf; cbn [skip_comments];
    pose proof (readToken_shrinks l) as [H1 H2]; destruct (readToken l) as [t r];
    cbn [fst snd] in *; unfold is_comment; case_bool_decide as E;
    rewrite ?E in *; try specialize (H2 ltac:(done) ltac:(done)).
  - lia.
  - split_and!; auto.
  - specialize (IH r ltac:(lia)). destruct (skip_comments fuel r) as [t' r'].
    destruct IH as (? & ? & H3). split_and!; auto; [lia|]. intros H4 H5. specialize (H3 H4 H5). lia.
  - split_and!; auto.
Qed.
Lemma skipCommentTokens_no_comment l :
  let '(t, r) := skipCommentTokens l in
  (length r <= length l)%nat /\ type_ t <> tokenComment /\
  (type_ t <> tokenEndOfStream -> type_ t <> tokenError -> (length r < length l)%nat).
Proof. apply skip_comments_spec. lia. Qed.

Section termination.
Context {DT : DoubleText}.

(** The outcome of reading from [l] is decided, and a value leaves less text. *)
Definition forward (r : parsed) (l : list Z) : Prop :=
  match r with
  | OutOfFuel => False
  | Failed => True
  | Parsed _ rest => (length rest < length l)%nat
  end.
Lemma forward_trans r l l' : forward r l' -> (length l' <= length l)%nat -> forward r l.
Proof. destruct r; simpl; auto. lia. Qed.
Lemma forward_decoded v r l : (length r < length l)%nat -> forward (of_decoded v r) l.
Proof. by destruct v. Qed.

Lemma reader_forward fuel :
  (forall l, (2 * length l < fuel)%nat -> forward (readValue fuel l) l) /\
  (forall name ms l, (2 * length l < fuel)%nat -> forward (readObject fuel name ms l) l) /\
  (forall es l, (2 * length l + 1 < fuel)%nat -> forward (readArray fuel es l) l).
Proof.
  induction fuel as [|fuel (IHv & IHo & IHa)]; [split_and!; intros; lia|].
  split_and!; intros; cbn [readValue readObject readArray];
    pose proof (skipCommentTokens_no_comment l) as Ht.
  - destruct (skipCommentTokens l) as [t r]. destruct Ht as (Hle & Hnc & Hlt).
    destruct (type_ t); try done; try specialize (Hlt ltac:(done) ltac:(done));
      try (simpl; lia); try by apply forward_decoded.
    + eapply forward_trans; [apply IHo|]; lia.
    + pose proof (skipSpaces_le r). pose proof (readToken_shrinks (skipSpaces r)) as [? _].
      case_if; [simpl; lia|]. eapply forward_trans; [apply IHa|]; lia.
  - destruct (skipCommentTokens l) as [t r]. destruct Ht as (Hle & Hnc & Hlt).
    destruct (type_ t); try done; specialize (Hlt ltac:(done) ltac:(done)).
    + case_bool_decide; simpl; [lia|done].
    + destruct (decodeString t) as [name'|]; [|done].
      pose proof (readToken_shrinks r) as [Hc _]. destruct (readToken r) as [colon r1].
      cbn [fst snd] in Hc. case_bool_decide; [|done].
      specialize (IHv r1 ltac:(lia)). destruct (readValue fuel r1) as [| |v r2]; try done.
      simpl in IHv. pose proof (readToken_shrinks r2) as [Hm _].
      destruct (readToken r2) as [comma r3]. cbn [fst snd] in Hm. case_bool_decide; [|done].
      pose proof (skipCommentTokens_no_comment r3) as Ht3.
      destruct (is_comment comma).
      * destruct (skipCommentTokens r3) as [c3 r4]. destruct Ht3 as (? & _).
        case_bool_decide; [simpl; lia|]. eapply forward_trans; [apply IHo|]; lia.
      * case_bool_decide; [simpl; lia|]. eapply forward_trans; [apply IHo|]; lia.
  - specialize (IHv l ltac:(lia)). destruct (readValue fuel l) as [| |v r]; try done.
    simpl in IHv. pose proof (skipCommentTokens_no_comment r) as Ht2.
    destruct (skipCommentTokens r) as [t r2]. destruct Ht2 as (Hle & Hnc & Hlt).
    destruct (type_ t); try done; try (simpl; lia).
    specialize (Hlt ltac:(done) ltac:(done)). eapply forward_trans; [apply IHa|]; lia.
Qed.

(** The reader ends on every text: the fuel [parse] is given is never used up. *)
Theorem Reader_terminates document :
  readValue (parse_fuel document) document <> OutOfFuel.
Proof.
  pose proof (proj1 (reader_forward (parse_fuel document)) document) as H.
  unfold parse_fuel in *. specialize (H ltac:(lia)). by destruct (readValue _ document).
Qed.
End termination.

(** ** What was written is read back *)

(** [isDouble] of [decodeNumber], and a text that is one token of a number. *)
Definition isDouble_text (l : list Z) : bool :=
  existsb (fun c => existsb (Z.eqb c) [46; 101; 69; 43]) l || existsb (Z.eqb 45) (tail l).
Definition number_text (l : list Z) : bool :=
  match l with c :: l => (is_digit c || (c =? 45)) && forallb in_number l | [] => false end.

(** What the C library has to do for a real number to be read back: to write a
    number, which it scans as the same real if the text is not that of an integer;
    if it is, of the integer the real is. *)
Definition real_reads_back `{DoubleText} (m e : Z) : bool :=
  let t := valueToString_double m e in
  number_text t &&
  (if isDouble_text t then bool_decide (scan_lf t = Some (m, e))
   else bool_decide (t = print_d (real_trunc m e)) && IsIntegral m e
        && (- 2 ^ 63 <=? real_trunc m e) && (real_trunc m e <? 2 ^ 64)).

(** The values that are read back: 64-bit integers, bytes, the reals above, and
    members in the order of their keys. *)
Definition is_byteb (c : Z) : bool := (0 <=? c) && (c <? 256).
Fixpoint sorted_keys (ks : list string) : bool :=
  match ks with
  | [] => true
  | k :: ks => forallb (fun k' => k <? k')%string ks && sorted_keys ks
  end.
Fixpoint writable `{DoubleText} (v : Value) : bool :=
  match v with
  | nullValue | booleanValue _ => true
  | intValue i => (- 2 ^ 63 <=? i) && (i <? 2 ^ 63)
  | uintValue u => (0 <=? u) && (u <? 2 ^ 64)
  | realValue m e => real_reads_back m e
  | stringValue s => forallb is_byteb s
  | arrayValue l => forallb writable l
  | objectValue l =>
    forallb (fun kv => let '(k, v) := kv in bool_decide (no_nul (bytes k)) && writable v) l
    && sorted_keys (map fst l)
  end.

(** The value that is read: an integer is signed when an int holds it, a real
    whose text is that of an integer is that integer, and a string ends at its
    first NUL. *)
Definition canon_integer (n : Z) : Value := if n <=? maxInt then intValue n else uintValue n.
Fixpoint canon `{DoubleText} (v : Value) : Value :=
  match v with
  | intValue n | uintValue n => canon_integer n
  | realValue m e => if isDouble_text (valueToString_double m e) then v else canon_integer (real_trunc m e)
  | stringValue s => stringValue (c_str s)
  | arrayValue l => arrayValue (map canon l)
  | objectValue l => objectValue (map (fun kv => let '(k, v) := kv in (k, canon v)) l)
  | v => v
  end.

Lemma Value_nested_ind (P : Value -> Prop) :
  P nullValue -> (forall i, P (intValue i)) -> (forall u, P (uintValue u)) ->
  (forall m e, P (realValue m e)) -> (forall s, P (stringValue s)) -> (forall b, P (booleanValue b)) ->
  (forall l, Forall P l -> P (arrayValue l)) ->
  (forall l, Forall (fun kv => P kv.2) l -> P (objectValue l)) ->
  forall v, P v.
Proof.
  intros Hn Hi Hu Hr Hs Hb Ha Ho. fix IH 1.
  intros [|i|u|m e|s|b|l|l];
    [exact Hn|exact (Hi i)|exact (Hu u)|exact (Hr m e)|exact (Hs s)|exact (Hb b)|apply Ha|apply Ho].
  - induction l as [|v l IHl]; constructor; [apply IH|exact IHl].
  - induction l as [|[k v] l IHl]; constructor; [apply IH|exact IHl].
Qed.

(** *** Strings *)
Definition plain_char (c : Z) : bool := negb (c =? 34) && negb (c =? 92).

Lemma hex_digit_value d : 0 <= d < 16 -> hex_value (hex_digit d) = Some d /\ plain_char (hex_digit d) = true.
Proof.
  intros. assert (d = 0 \/ d = 1 \/ d = 2 \/ d = 3 \/ d = 4 \/ d = 5 \/ d = 6 \/ d = 7 \/ d = 8
    \/ d = 9 \/ d = 10 \/ d = 11 \/ d = 12 \/ d = 13 \/ d = 14 \/ d = 15) as Hd by lia.
  destruct_or! Hd; subst d; split; reflexivity.
Qed.

(** An escape is a character, a backslash and a character, or a hexadecimal one. *)
Lemma escape_cases c :
  c <> 0 -> is_byteb c = true ->
  (escape c = [c] /\ plain_char c = true) \/
  (exists x, escape c = [92; x] /\ (x =? 117) = false /\ simple_escape x = Some c) \/
  (escape c = [92; 117; 48; 48; hex_digit (c / 16); hex_digit (c mod 16)] /\ 0 < c < 32).
Proof.
  intros Hc Hb. unfold escape. unfold is_byteb in Hb.
  do 7 (case_if; [right; left; propify; subst c; by eexists|]).
  destruct (isControlCharacter c) eqn:E; unfold isControlCharacter in E.
  - right; right. split; [done|lia].
  - left. split; [done|]. unfold plain_char. destruct (Z.eqb_spec c 34), (Z.eqb_spec c 92); done.
Qed.

Lemma readString_plain c0 c l : plain_char c = true -> readString c0 (c :: l) = readString c l.
Proof.
  unfold plain_char. cbn [readString]. destruct (Z.eqb_spec c 34), (Z.eqb_spec c 92); try done.
Qed.

Lemma readString_escape s c0 rest :
  no_nul s -> forallb is_byteb s = true ->
  readString c0 (flat_map escape s ++ 34 :: rest) = (true, rest).
Proof.
  intros Hs. revert c0. induction Hs as [|c s Hc _ IH]; intros c0 Hb; [done|].
  cbn [forallb flat_map] in *. apply andb_prop in Hb as [Hb Hbs]. rewrite <- app_assoc.
  destruct (escape_cases c Hc Hb) as [[-> Hp]|[(x & -> & _ & _)|[-> Hr]]]; cbn [app].
  - rewrite readString_plain by done. auto.
  - cbn [readString]. change (92 =? 92) with true. cbv iota. auto.
  - destruct (hex_digit_value (c / 16)) as [_ H1]; [split; [apply Z.div_pos; lia|apply Z.div_lt_upper_bound; lia]|].
    destruct (hex_digit_value (c mod 16)) as [_ H2]; [apply Z.mod_pos_bound; lia|].
    change (readString c0 (92 :: 117 :: ?l)) with (readString 92 l).
    rewrite !readString_plain by done. auto.
Qed.

Lemma decode_escape s :
  no_nul s -> forallb is_byteb s = true -> decode_chars (flat_map escape s) = Some s.
Proof.
  induction 1 as [|c s Hc _ IH]; intros Hb; [done|].
  cbn [forallb flat_map] in *. apply andb_prop in Hb as [Hb Hbs]. specialize (IH Hbs).
  destruct (escape_cases c Hc Hb) as [[-> Hp]|[(x & -> & Hx & He)|[-> Hr]]]; cbn [app decode_chars].
  - unfold plain_char in Hp. destruct (Z.eqb_spec c 34), (Z.eqb_spec c 92); try done. by rewrite IH.
  - change (92 =? 34) with false. change (92 =? 92) with true. cbv iota. by rewrite Hx, He, IH.
  - change (92 =? 34) with false. change (92 =? 92) with true. change (117 =? 117) with true. cbv iota.
    destruct (hex_digit_value (c / 16)) as [H1 _]; [split; [apply Z.div_pos; lia|apply Z.div_lt_upper_bound; lia]|].
    destruct (hex_digit_value (c mod 16)) as [H2 _]; [apply Z.mod_pos_bound; lia|].
    unfold decodeUnicodeEscapeSequence. rewrite H1, H2. change (hex_value 48) with (Some 0).
    cbn [mbind option_bind]. pose proof (Z.div_mod c 16 ltac:(lia)).
    replace (((0 * 16 + 0) * 16 + c / 16) * 16 + c mod 16) with c by lia.
    destruct (Z.leb_spec 0xD800 c); [lia|]. cbn [andb]. rewrite IH. unfold codePointToUTF8.
    destruct (Z.leb_spec c 0x7f); [|lia]. unfold u8, wrap.
    by rewrite (Z.mod_small c (2 ^ 8)) by lia.
Qed.

Lemma quoted_escape s : valueToQuotedString s = 34 :: flat_map escape (c_str s) ++ [34].
Proof.
  unfold valueToQuotedString. destruct (existsb special (c_str s)) eqn:E; [done|]. do 2 f_equal.
  induction (c_str s) as [|c l IH]; [done|]. cbn [existsb flat_map] in *.
  apply orb_false_elim in E as [Hc E]. rewrite <- IH by done.
  unfold special in Hc. cbn [existsb] in Hc. unfold escape.
  apply orb_false_elim in Hc as [Hc ->]. rewrite !orb_false_iff in Hc.
  by destruct Hc as (-> & -> & -> & -> & -> & -> & -> & _).
Qed.

Lemma bytes_c_str s : forallb is_byteb s = true -> forallb is_byteb (c_str s) = true.
Proof.
  induction s as [|c s IH]; [done|]. cbn [forallb c_str]. intros [? ?]%andb_prop.
  destruct (c =? 0); [done|]. cbn [forallb]. apply andb_true_intro. auto.
Qed.

(** *** Tokens *)
Lemma take_app_cut {A} (l m : list A) : take (length (l ++ m) - length m) (l ++ m) = l.
Proof. rewrite length_app. replace (_ - _)%nat with (length l) by lia. apply take_app_length. Qed.

Lemma readToken_quote l :
  readToken (34 :: l) = let '(ok, l2) := readString 0 l in
    (mkToken (if (ok : bool) then tokenString else tokenError)
       (take (length (34 :: l) - length l2) (34 :: l)), l2).
Proof. reflexivity. Qed.

(** The token of a quoted string, and its text. *)
Lemma readToken_string s rest :
  forallb is_byteb s = true ->
  exists t, readToken (valueToQuotedString s ++ rest) = (t, rest) /\
    type_ t = tokenString /\ decodeString t = Some (c_str s).
Proof.
  intros Hb. rewrite quoted_escape. apply bytes_c_str in Hb. pose proof (c_str_no_nul s) as Hn.
  set (e := flat_map escape (c_str s)).
  exists (mkToken tokenString (34 :: e ++ [34])). split.
  - cbn [app]. rewrite <- app_assoc. cbn [app]. rewrite readToken_quote.
    unfold e. rewrite readString_escape by done. fold e. do 2 f_equal.
    replace (34 :: e ++ 34 :: rest) with ((34 :: e ++ [34]) ++ rest)
      by (cbn; by rewrite <- app_assoc).
    apply take_app_cut.
  - split; [done|]. unfold decodeString. cbn [text]. change (drop 1 (34 :: e ++ [34])) with (e ++ [34]).
    cbn [length]. rewrite length_app. cbn [length].
    replace (S (length e + 1) - 2)%nat with (length e) by lia. rewrite take_app_length.
    by apply decode_escape.
Qed.

(** The token of one punctuation character. *)
Definition punctuation (c : Z) : option TokenType :=
  if c =? 123 then Some tokenObjectBegin else if c =? 125 then Some tokenObjectEnd
  else if c =? 91 then Some tokenArrayBegin else if c =? 93 then Some tokenArrayEnd
  else if c =? 44 then Some tokenArraySeparator else if c =? 58 then Some tokenMemberSeparator
  else None.
Lemma readToken_punctuation c ty l :
  punctuation c = Some ty -> readToken (c :: l) = (mkToken ty [c], l).
Proof.
  intros H. assert (E : readToken (c :: l) = (mkToken ty (take (length (c :: l) - length l) (c :: l)), l)).
  { revert H. unfold punctuation.
    repeat match goal with |- context [c =? ?k] =>
      destruct (Z.eqb_spec c k) as [->|]; [intros [= <-]; reflexivity|] end.
    done. }
  rewrite E. do 2 f_equal. apply (take_app_cut [c]).
Qed.

(** A token that is no comment is not skipped. *)
Lemma skipCommentTokens_token l t r :
  readToken l = (t, r) -> type_ t <> tokenComment -> skipCommentTokens l = (t, r).
Proof.
  intros E Ht. unfold skipCommentTokens. destruct (length l); cbn [skip_comments]; rewrite E;
    unfold is_comment; by rewrite bool_decide_eq_false_2.
Qed.

(** *** Numbers *)
Definition is_digits (l : list Z) : Prop := Forall (fun c => is_digit c = true) l.
(** Text that does not go on with a number. *)
Definition ends_number (l : list Z) : Prop :=
  match l with c :: _ => in_number c = false | [] => True end.

Lemma digits_is_digits fuel n : 0 <= n -> is_digits (digits fuel n).
Proof.
  revert n. induction fuel as [|fuel IH]; intros n Hn; cbn [digits]; [constructor|].
  destruct (Z.ltb_spec n 10).
  - constructor; [unfold is_digit; lia|constructor].
  - apply Forall_app. split; [apply IH, Z.div_pos; lia|].
    pose proof (Z.mod_pos_bound n 10 ltac:(lia)). constructor; [unfold is_digit; lia|constructor].
Qed.
Lemma print_nat_is_digits n : 0 <= n -> is_digits (print_nat n).
Proof. apply digits_is_digits. Qed.
Lemma print_nat_cons n : 0 <= n -> exists c l, print_nat n = c :: l /\ is_digit c = true /\ is_digits l.
Proof.
  intros Hn. pose proof (print_nat_is_digits n Hn) as H.
  destruct (print_nat n) as [|c l] eqn:E.
  - exfalso. unfold print_nat in E. cbn [digits] in E.
    destruct (n <? 10); [done|]. by destruct (digits _ (n / 10)).
  - apply Forall_cons_1 in H as [? ?]. by exists c, l.
Qed.

Lemma readNumber_all l rest : forallb in_number l = true -> ends_number rest -> readNumber (l ++ rest) = rest.
Proof.
  induction l as [|c l IH]; cbn [app readNumber forallb]; intros Hl Hr.
  - destruct rest as [|c rest]; cbn in *; [done|]. by rewrite Hr.
  - apply andb_prop in Hl as [-> Hl]. auto.
Qed.
Lemma digits_in_number l : is_digits l -> forallb in_number l = true.
Proof.
  induction 1 as [|c l Hc _ IH]; [done|]. cbn [forallb]. rewrite IH, andb_true_r.
  unfold in_number. unfold is_digit in Hc. by rewrite Hc.
Qed.

Lemma readToken_number c l rest :
  is_digit c = true \/ c = 45 -> forallb in_number l = true -> ends_number rest ->
  readToken (c :: l ++ rest) = (mkToken tokenNumber (c :: l), rest).
Proof.
  intros Hc Hl Hr.
  assert (E : readToken (c :: l ++ rest) =
    (mkToken tokenNumber (take (length (c :: l ++ rest) - length (readNumber (l ++ rest))) (c :: l ++ rest)),
     readNumber (l ++ rest))).
  { destruct Hc as [Hc| ->]; [|reflexivity]. unfold is_digit in Hc.
    assert (c = 48 \/ c = 49 \/ c = 50 \/ c = 51 \/ c = 52 \/ c = 53 \/ c = 54 \/ c = 55
      \/ c = 56 \/ c = 57) as Hd by lia.
    destruct_or! Hd; subst c; reflexivity. }
  rewrite E, readNumber_all by done. do 2 f_equal. apply (take_app_cut (c :: l)).
Qed.

Lemma scan_digits_ge l : forall acc, is_digits l -> 0 <= acc -> acc <= fst (scan_digits acc l).
Proof.
  induction l as [|c l IH]; intros acc Hl Ha; [simpl; lia|].
  apply Forall_cons_1 in Hl as [Hc Hl]. cbn [scan_digits]. rewrite Hc. unfold is_digit in Hc.
  specialize (IH (10 * acc + (c - 48)) Hl ltac:(lia)). lia.
Qed.

(** The guard against overflow lets every number up to the limit through. *)
Lemma decode_digits_scan max l : forall acc,
  10 <= max -> is_digits l -> 0 <= acc -> fst (scan_digits acc l) <= max ->
  decode_digits max acc l = Some (Some (fst (scan_digits acc l))).
Proof.
  induction l as [|c l IH]; intros acc Hten Hl Ha Hmax; [done|].
  apply Forall_cons_1 in Hl as [Hc Hl]. cbn [decode_digits scan_digits] in *. rewrite Hc in *.
  cbn [negb]. unfold is_digit in Hc. replace (acc * 10 + (c - 48)) with (10 * acc + (c - 48)) by lia.
  rewrite IH by (done || lia).
  pose proof (Z.div_mod max 10 ltac:(lia)). pose proof (Z.mod_pos_bound max 10 ltac:(lia)).
  pose proof (scan_digits_ge l (10 * acc + (c - 48)) Hl ltac:(lia)).
  destruct (Z.leb_spec (max / 10) acc); [|done]. cbn [andb].
  destruct (Z.ltb_spec (max / 10) acc); [lia|]. cbn [orb].
  case_bool_decide as Hn; cbn [negb orb].
  - subst l. cbn in Hmax. destruct (Z.ltb_spec (max mod 10) (c - 48)); [lia|done].
  - destruct l as [|d l]; [done|]. apply Forall_cons_1 in Hl as [Hd Hl].
    cbn [scan_digits] in Hmax. rewrite Hd in Hmax. unfold is_digit in Hd.
    pose proof (scan_digits_ge l (10 * (10 * acc + (c - 48)) + (d - 48)) Hl ltac:(lia)). lia.
Qed.

Lemma scan_digits_print n : 0 <= n -> fst (scan_digits 0 (print_nat n)) = n.
Proof.
  intros Hn.
  destruct (scan_digits_digits (S (Z.to_nat (Z.log2 n))) n 0 [] Hn (Nat.lt_succ_diag_r _)) as (k & _ & E).
  unfold print_nat. rewrite app_nil_r in E. rewrite E. cbn. lia.
Qed.

Lemma digits_no_double l : is_digits l ->
  existsb (fun c => existsb (Z.eqb c) [46; 101; 69; 43]) l = false /\ existsb (Z.eqb 45) l = false.
Proof.
  induction 1 as [|c l Hc _ [IH1 IH2]]; [done|]. unfold is_digit in Hc. cbn [existsb] in *.
  rewrite IH1, IH2. lia.
Qed.

Section numbers.
Context {DT : DoubleText}.

Lemma decodeNumber_nat n :
  0 <= n < 2 ^ 64 ->
  decodeNumber (mkToken tokenNumber (print_nat n)) =
    Some (canon_integer n).
Proof.
  intros Hn. pose proof (print_nat_is_digits n ltac:(lia)) as Hd. pose proof (scan_digits_print n ltac:(lia)) as Hs.
  unfold decodeNumber. cbn [text]. destruct (digits_no_double _ Hd) as [-> _]. cbn [orb].
  destruct (print_nat_cons n ltac:(lia)) as (c & l & E & Hc & Hl). rewrite E in *.
  cbn [tail]. destruct (digits_no_double _ Hl) as [_ ->]. unfold is_digit in Hc.
  rewrite bool_decide_eq_false_2 by (cbn; intros [= ->]; lia).
  rewrite decode_digits_scan by (done || lia). by rewrite Hs.
Qed.
Lemma decodeNumber_neg n :
  0 < n <= 2 ^ 63 ->
  decodeNumber (mkToken tokenNumber (45 :: print_nat n)) = Some (intValue (- n)).
Proof.
  intros Hn. pose proof (print_nat_is_digits n ltac:(lia)) as Hd. pose proof (scan_digits_print n ltac:(lia)) as Hs.
  unfold decodeNumber. cbn [text tail]. destruct (digits_no_double _ Hd) as [H1 ->].
  match goal with |- context [existsb ?P (45 :: ?l)] =>
    change (existsb P (45 :: l)) with (existsb P l) end.
  rewrite H1. cbn [orb].
  rewrite bool_decide_eq_true_2 by done. rewrite decode_digits_scan by (done || lia). by rewrite Hs.
Qed.
End numbers.

(** *** Keys *)
Lemma bytes_are_bytes s : forallb is_byteb (bytes s) = true.
Proof.
  apply forallb_forall. intros x Hx. unfold bytes in Hx. apply in_map_iff in Hx as (c & <- & _).
  pose proof (N_ascii_bounded c). unfold is_byteb. lia.
Qed.
Lemma key_of_bytes k : no_nul (bytes k) -> key_of (bytes k) = k.
Proof.
  intros H. unfold key_of. rewrite c_str_id by done. unfold bytes. rewrite map_map.
  rewrite (map_ext _ id).
  - rewrite map_id. apply string_of_list_ascii_of_string.
  - intros c. rewrite N2Z.id. apply ascii_N_embedding.
Qed.

Lemma ltb_not_eqb k k' : (k <? k')%string = true -> (k =? k')%string = false.
Proof.
  destruct (String.eqb_spec k k') as [->|]; [|done]. unfold String.ltb.
  assert (Hk := String.compare_antisym k' k'). by destruct (k' ?= k')%string.
Qed.
Lemma ltb_asym k k' : (k <? k')%string = true -> (k' <? k)%string = false.
Proof. unfold String.ltb. rewrite (String.compare_antisym k k'). by destruct (k' ?= k)%string. Qed.

(** A member behind all others is appended. *)
Lemma map_set_last k v l :
  forallb (fun kv => fst kv <? k)%string l = true -> map_set k v l = l ++ [(k, v)].
Proof.
  induction l as [|[k' w] l IH]; [done|]. cbn [forallb map_set fst app]. intros [H1 H2]%andb_prop.
  by rewrite (ltb_not_eqb _ _ H1), (ltb_asym _ _ H1), IH.
Qed.

(** *** Lists *)
Lemma concat_commas (ts : list (list Z)) t :
  concat (imap (fun i t => (if (i =? 0)%nat then [] else [44]) ++ t) (t :: ts)) =
  t ++ flat_map (cons 44) ts.
Proof.
  rewrite imap_cons. cbn [Nat.eqb app concat]. f_equal.
  rewrite (imap_ext _ (fun _ t => 44 :: t)); [|done].
  induction ts as [|x ts IH]; [done|]. rewrite imap_cons. cbn [concat flat_map app].
  do 2 f_equal. by rewrite <- IH.
Qed.

Section roundtrip.
Context {DT : DoubleText}.

(** What is read from the text of [v] with anything but a number behind it. *)
Definition reads_back (v : Value) : Prop :=
  writable v = true -> forall rest fuel, ends_number rest ->
  (2 * length (writeValue v ++ rest) < fuel)%nat ->
  readValue fuel (writeValue v ++ rest) = Parsed (canon v) rest.

(** The text of a value starts it at once, and is not the end of an array. *)
Lemma writeValue_head v :
  writable v = true -> exists c l, writeValue v = c :: l /\
    forall m, skipSpaces (c :: m) = c :: m /\ (c =? 93) = false.
Proof.
  assert (Hnum : forall c l t, is_digit c = true \/ c = 45 -> t = c :: l ->
    exists c l, t = c :: l /\ forall m, skipSpaces (c :: m) = c :: m /\ (c =? 93) = false).
  { intros c l t Hc ->. exists c, l. split; [done|]. intros m. cbn [skipSpaces].
    destruct Hc as [Hc| ->]; [|done]. unfold is_digit in Hc.
    destruct (Z.eqb_spec c 32), (Z.eqb_spec c 9), (Z.eqb_spec c 13), (Z.eqb_spec c 10),
      (Z.eqb_spec c 93); try lia. done. }
  destruct v as [|i|u|m e|s|b|l|l]; cbn [writable writeValue]; intros Hw; try done;
    try (by eexists _, _).
  - unfold valueToString_int, uintToString. destruct (Z.ltb_spec i 0); [by eapply Hnum; [right|]|].
    destruct (print_nat_cons i ltac:(lia)) as (c & l & -> & Hc & _). by eapply Hnum; [left|].
  - unfold uintToString. destruct (print_nat_cons u ltac:(lia)) as (c & l & -> & Hc & _).
    by eapply Hnum; [left|].
  - unfold real_reads_back in Hw. apply andb_prop in Hw as [Hw _].
    destruct (valueToString_double m e) as [|c l]; [done|]. cbn [number_text] in Hw.
    apply andb_prop in Hw as [Hc _]. apply (Hnum c l); [|done].
    apply orb_prop in Hc as [Hc|Hc]; [by left|right; by apply Z.eqb_eq].
  - rewrite quoted_escape. by eexists _, _.
  - destruct b; by eexists _, _.
Qed.

Lemma readValue_token fuel l t r :
  readToken l = (t, r) -> type_ t <> tokenComment ->
  readValue (S fuel) l = match type_ t with
    | tokenObjectBegin => readObject fuel [] [] r
    | tokenArrayBegin =>
      let l := skipSpaces r in
      if fst (getNextChar l) =? 93 then Parsed (arrayValue []) (readToken l).2
      else readArray fuel [] l
    | tokenNumber => of_decoded (decodeNumber t) r
    | tokenString => of_decoded (stringValue <$> decodeString t) r
    | tokenTrue => Parsed (booleanValue true) r
    | tokenFalse => Parsed (booleanValue false) r
    | tokenNull => Parsed nullValue r
    | _ => Failed
    end.
Proof. intros E Ht. cbn [readValue]. by rewrite (skipCommentTokens_token _ _ _ E Ht). Qed.

Lemma reads_back_number v n t :
  t = print_nat n -> 0 <= n < 2 ^ 64 -> v = canon_integer n ->
  forall rest fuel, ends_number rest -> readValue (S fuel) (t ++ rest) = Parsed v rest.
Proof.
  intros -> Hn -> rest fuel Hr.
  destruct (print_nat_cons n ltac:(lia)) as (c & l & E & Hc & Hl).
  pose proof (decodeNumber_nat n Hn) as Hd. rewrite E in *. cbn [app].
  rewrite (readValue_token _ _ _ _ (readToken_number c l rest (or_introl Hc) (digits_in_number l Hl) Hr)) by done.
  cbn [type_]. by rewrite Hd.
Qed.

(** A real is read as the C library scans its text, or as the integer it is. *)
Lemma reads_back_real m e : real_reads_back m e = true ->
  forall rest fuel, ends_number rest ->
  readValue (S fuel) (valueToString_double m e ++ rest) = Parsed (canon (realValue m e)) rest.
Proof.
  unfold real_reads_back. cbn [canon]. set (t := valueToString_double m e). intros [Ht Hd]%andb_prop rest fuel Hr.
  destruct t as [|c l] eqn:Et; [done|]. cbn [number_text] in Ht. apply andb_prop in Ht as [Hc Hl].
  assert (Hc' : is_digit c = true \/ c = 45).
  { apply orb_prop in Hc as [Hc|Hc]; [by left|right; by apply Z.eqb_eq]. }
  cbn [app]. rewrite (readValue_token _ _ _ _ (readToken_number c l rest Hc' Hl Hr)) by done. cbn [type_].
  destruct (isDouble_text (c :: l)) eqn:Ed.
  - apply bool_decide_eq_true in Hd. unfold decodeNumber. cbn [text]. unfold isDouble_text in Ed. rewrite Ed.
    unfold decodeDouble. cbn [text]. by rewrite Hd.
  - rewrite !andb_true_iff in Hd. destruct Hd as [[[Hp%bool_decide_eq_true _] H1] H2].
    apply Z.leb_le in H1. apply Z.ltb_lt in H2. rewrite Hp. unfold print_d.
    destruct (Z.ltb_spec (real_trunc m e) 0).
    + rewrite decodeNumber_neg by lia. cbn [of_decoded]. rewrite Z.opp_involutive. unfold canon_integer, maxInt.
      by destruct (Z.leb_spec (real_trunc m e) (2 ^ 31 - 1)); [|lia].
    + by rewrite decodeNumber_nat by lia.
Qed.

Lemma reads_back_leaf v :
  match v with arrayValue _ | objectValue _ => False | _ => True end -> reads_back v.
Proof.
  intros Hv Hw rest [|fuel] Hr Hf; [lia|]. clear Hf.
  destruct v as [|i|u|m e|s|b|l|l]; try done; cbn [writeValue canon writable] in *.
  - unfold valueToString_int, uintToString. destruct (Z.ltb_spec i 0).
    + cbn [app]. rewrite (readValue_token _ _ _ _ (readToken_number 45 (print_nat (- i)) rest
        (or_intror eq_refl) (digits_in_number _ (print_nat_is_digits (- i) ltac:(lia))) Hr)) by done.
      cbn [type_]. rewrite decodeNumber_neg by lia. cbn [of_decoded].
      unfold canon_integer, maxInt. destruct (Z.leb_spec i (2 ^ 31 - 1)); [|lia]. by rewrite Z.opp_involutive.
    + apply (reads_back_number _ i); [done|lia|done|done].
  - unfold uintToString. apply (reads_back_number _ u); [done|lia|done|done].
  - by apply (reads_back_real m e).
  - destruct (readToken_string s rest Hw) as (t & Et & Ht & Hd).
    rewrite (readValue_token _ _ _ _ Et) by congruence. rewrite Ht, Hd. reflexivity.
  - destruct b; reflexivity.
Qed.

(** The loop over the elements of an array. *)
Lemma readArray_list l : forall v es rest fuel,
  reads_back v -> Forall reads_back l -> writable v = true -> forallb writable l = true ->
  let t := writeValue v ++ flat_map (cons 44) (map writeValue l) ++ 93 :: rest in
  (2 * length t + 1 < fuel)%nat ->
  readArray fuel es t = Parsed (arrayValue (es ++ canon v :: map canon l)) rest.
Proof.
  induction l as [|w l IH]; intros v es rest fuel Hv Hl Hwv Hwl t Hf;
    (destruct fuel as [|fuel]; [lia|]); cbn [readArray]; subst t.
  - cbn [map flat_map app] in *. rewrite (Hv Hwv) by (done || lia).
    rewrite (skipCommentTokens_token (93 :: rest) (mkToken tokenArrayEnd [93]) rest)
      by (done || by apply readToken_punctuation). done.
  - apply Forall_cons_1 in Hl as [Hw Hl]. cbn [map flat_map forallb] in *.
    apply andb_prop in Hwl as [Hww Hwl]. cbn [app] in *. rewrite <- app_assoc in *.
    rewrite (Hv Hwv) by (done || lia).
    rewrite (skipCommentTokens_token (44 :: _) (mkToken tokenArraySeparator [44])
      (writeValue w ++ flat_map (cons 44) (map writeValue l) ++ 93 :: rest))
      by (done || by apply readToken_punctuation).
    cbn [type_]. rewrite IH; [|done..|].
    + by rewrite <- app_assoc.
    + rewrite length_app in Hf. cbn [length] in Hf. lia.
Qed.

(** The loop over the members of an object. *)
Definition member_text (kv : string * Value) : list Z :=
  let '(name, v) := kv in valueToQuotedString (bytes name) ++ [58] ++ writeValue v.
Definition member_ok (kv : string * Value) : bool :=
  let '(k, v) := kv in bool_decide (no_nul (bytes k)) && writable v.
Definition canon_member (kv : string * Value) : string * Value := let '(k, v) := kv in (k, canon v).

(** The keys of [ms] are in front of the keys [ks]. *)
Definition keys_before (ms : list (string * Value)) (ks : list string) : Prop :=
  forall kv k, In kv ms -> In k ks -> (fst kv <? k)%string = true.

Lemma readObject_list l : forall k v name ms rest fuel,
  reads_back v -> Forall (fun kv => reads_back kv.2) l ->
  member_ok (k, v) = true -> forallb member_ok l = true ->
  sorted_keys (k :: map fst l) = true -> keys_before ms (k :: map fst l) ->
  let t := member_text (k, v) ++ flat_map (cons 44) (map member_text l) ++ 125 :: rest in
  (2 * length t < fuel)%nat ->
  readObject fuel name ms t = Parsed (objectValue (ms ++ (k, canon v) :: map canon_member l)) rest.
Proof.
  induction l as [|[k2 w] l IH]; intros k v name ms rest fuel Hv Hl Hkv Hok Hs Hms t Hf;
    (destruct fuel as [|fuel]; [lia|]); cbn [readObject]; subst t.
  all: pose proof Hkv as [Hnul%bool_decide_eq_true Hw]%andb_prop.
  all: unfold member_text at 1; unfold member_text at 1 in Hf; rewrite <- !app_assoc in *.
  all: match goal with |- context [valueToQuotedString _ ++ [58] ++ ?x] => set (t := x) in * end.
  all: destruct (readToken_string (bytes k) ([58] ++ t) (bytes_are_bytes k)) as (tok & Et & Hty & Hd).
  all: rewrite (skipCommentTokens_token _ _ _ Et) by congruence.
  all: rewrite Hty, Hd; cbn [app]; rewrite (readToken_punctuation 58 tokenMemberSeparator) by done.
  all: rewrite bool_decide_eq_true_2 by done.
  all: assert (Hlen : (2 * length t < fuel)%nat) by (rewrite !length_app in Hf; cbn [length] in Hf; lia).
  all: assert (Hset : map_set (key_of (c_str (bytes k))) (canon v) ms = ms ++ [(k, canon v)]).
  1, 3: rewrite c_str_id, key_of_bytes by done; apply map_set_last, forallb_forall; intros kv Hin;
    apply Hms; [done|by left].
  all: subst t; cbn [map flat_map app] in *.
  - rewrite (Hv Hw) by (done || lia). rewrite Hset.
    rewrite (readToken_punctuation 125 tokenObjectEnd) by done. reflexivity.
  - rewrite (Hv Hw) by (done || lia). rewrite Hset.
    rewrite (readToken_punctuation 44 tokenArraySeparator) by done.
    rewrite bool_decide_eq_true_2 by (cbn; auto).
    change (is_comment (mkToken tokenArraySeparator [44])) with false. cbv iota.
    rewrite <- app_assoc. apply Forall_cons_1 in Hl as [Hw2 Hl]. cbn [forallb] in Hok.
    apply andb_prop in Hok as [Hok2 Hok]. cbn [sorted_keys fst] in Hs.
    apply andb_prop in Hs as [Hlt Hs]. rewrite forallb_forall in Hlt.
    rewrite bool_decide_eq_false_2 by done.
    rewrite IH; [by rewrite <- app_assoc|done|done|done|done|done|..].
    + intros kv k3 [Hin|[<-|[]]]%in_app_iff Hk3; [apply Hms; [done|by right]|by apply Hlt].
    + rewrite length_app in Hlen. cbn [length] in Hlen. rewrite length_app in Hlen |- *.
      rewrite !length_app in *. cbn [length] in *. lia.
Qed.

Lemma writeValue_array l :
  writeValue (arrayValue l) = 91 :: match l with
    | [] => [93]
    | v :: l => writeValue v ++ flat_map (cons 44) (map writeValue l) ++ [93] end.
Proof.
  destruct l as [|v l]; [done|]. cbn [writeValue map]. rewrite concat_commas. by rewrite <- app_assoc.
Qed.
Lemma writeValue_object l :
  writeValue (objectValue l) = 123 :: match l with
    | [] => [125]
    | kv :: l => member_text kv ++ flat_map (cons 44) (map member_text l) ++ [125] end.
Proof.
  destruct l as [|kv l]; [done|]. cbn [writeValue map]. rewrite concat_commas.
  by rewrite <- app_assoc.
Qed.

Lemma writable_reads_back v : reads_back v.
Proof.
  induction v as [|i|u|m e|s|b|l IH|l IH] using Value_nested_ind; try by apply reads_back_leaf.
  - intros Hw rest [|fuel] Hr Hf; [lia|]. rewrite writeValue_array in *. cbn [app] in *.
    rewrite (readValue_token _ _ _ _ (readToken_punctuation 91 tokenArrayBegin _ eq_refl)) by done.
    cbn [type_]. destruct l as [|v l]; [reflexivity|].
    apply Forall_cons_1 in IH as [Hv IH]. cbn [writable forallb] in Hw. apply andb_prop in Hw as [Hwv Hwl].
    rewrite <- !app_assoc in *. cbn [app] in *.
    destruct (writeValue_head v Hwv) as (c & m & E & Hc).
    assert (skipSpaces (writeValue v ++ flat_map (cons 44) (map writeValue l) ++ 93 :: rest) =
      writeValue v ++ flat_map (cons 44) (map writeValue l) ++ 93 :: rest) as ->
      by (rewrite E; apply Hc).
    cbv zeta. assert ((fst (getNextChar (writeValue v ++ flat_map (cons 44) (map writeValue l) ++ 93 :: rest))
      =? 93) = false) as -> by (rewrite E; apply (Hc [])).
    rewrite readArray_list; [reflexivity|done|done|done|done|]. cbn [length] in Hf. lia.
  - intros Hw rest [|fuel] Hr Hf; [lia|]. rewrite writeValue_object in *. cbn [app] in *.
    rewrite (readValue_token _ _ _ _ (readToken_punctuation 123 tokenObjectBegin _ eq_refl)) by done.
    cbn [type_]. destruct l as [|[k v] l].
    { destruct fuel as [|fuel]; [simpl in Hf; lia|]. cbn [app readObject].
      by rewrite (skipCommentTokens_token _ _ _ (readToken_punctuation 125 tokenObjectEnd _ eq_refl)). }
    apply Forall_cons_1 in IH as [Hv IH]. cbn [writable] in Hw. apply andb_prop in Hw as [Hok Hs].
    cbn [forallb] in Hok. apply andb_prop in Hok as [Hkv Hok].
    rewrite <- !app_assoc in *. cbn [app] in *.
    rewrite readObject_list; [reflexivity|done|done|done|done|done| |].
    + by intros kv k' [].
    + cbn [length] in Hf. lia.
Qed.

Lemma ends_number_newline : ends_number [10].
Proof. reflexivity. Qed.

Lemma parse_write v : writable v = true -> Reader_parse (FastWriter_write v) = Some (canon v).
Proof.
  intros Hw. unfold Reader_parse, FastWriter_write, parse_fuel.
  by rewrite (writable_reads_back v Hw [10]) by (apply ends_number_newline || lia).
Qed.
End roundtrip.

(** *** What the caller of [parse] can tell *)
(** The value a path of constant [operator[]]s leads to: members of objects, and
    elements of arrays, of which one out of range is the null value. *)
Inductive step := Member (key : string) | Element (index : nat).
Definition const_step (v : Value) (st : step) : option Value :=
  match st with
  | Member key => index_const v key
  | Element i =>
    match v with
    | nullValue => Some nullValue
    | arrayValue l => Some (default nullValue (l !! i))
    | _ => None
    end
  end.
Fixpoint const_path (v : Value) (path : list step) : option Value :=
  match path with [] => Some v | st :: path => m ← const_step v st; const_path m path end.

Section answers.
Context {DT : DoubleText}.

Lemma map_find_canon key l : map_find key (map canon_member l) = canon <$> map_find key l.
Proof. induction l as [|[k v] l IH]; cbn; [done|]. by destruct (k =? key)%string. Qed.
Lemma canon_integer_step n st : const_step (canon_integer n) st = None.
Proof. unfold canon_integer. by destruct (n <=? maxInt), st. Qed.
Lemma const_step_canon v st : const_step (canon v) st = canon <$> const_step v st.
Proof.
  destruct v as [|i|u|m e|s|b|l|l]; cbn [canon]; rewrite ?canon_integer_step; try by destruct st.
  - destruct (isDouble_text _); rewrite ?canon_integer_step; by destruct st.
  - destruct st as [key|i]; [done|]. cbn [const_step]. rewrite list_lookup_fmap. by destruct (l !! i).
  - destruct st as [key|i]; [|done]. cbn [const_step index_const].
    change (map _ l) with (map canon_member l). rewrite map_find_canon. by destruct (map_find key l).
Qed.
Lemma const_path_canon path : forall v, const_path (canon v) path = canon <$> const_path v path.
Proof.
  induction path as [|st path IH]; intros v; [done|]. cbn [const_path]. rewrite const_step_canon.
  destruct (const_step v st); [apply IH|done].
Qed.
Lemma writable_step v st m : writable v = true -> const_step v st = Some m -> writable m = true.
Proof.
  intros Hv E. destruct v as [| | | | | |l|l], st as [key|i]; try discriminate E;
    cbn [const_step index_const] in E; injection E as <-; try done; cbn [writable] in Hv.
  - destruct (l !! i) as [w|] eqn:E; [|done]. cbn [default]. rewrite forallb_forall in Hv.
    apply Hv. by eapply list_elem_of_In, list_elem_of_lookup_2.
  - apply andb_prop in Hv as [Hv _]. induction l as [|[k v] l IHl]; [done|]. cbn [map_find forallb] in *.
    apply andb_prop in Hv as [[_ Hk]%andb_prop Hv]. destruct (k =? key)%string; [done|auto].
Qed.
Lemma writable_path path : forall v m, writable v = true -> const_path v path = Some m -> writable m = true.
Proof.
  induction path as [|st path IH]; intros v m Hv; [by intros [= <-]|]. cbn [const_path].
  destruct (const_step v st) as [w|] eqn:E; [|done]. apply IH. by eapply writable_step.
Qed.

(** A value that was written and parsed answers the type tests and conversions
    of the SDK as the original does, and so does what it contains. *)
Definition same_answers (m m' : Value) : Prop :=
  isNull m' = isNull m /\ isObject m' = isObject m /\ isString m' = isString m /\
  isInt m' = isInt m /\ isUInt m' = isUInt m /\ asInt m' = asInt m /\ asUInt m' = asUInt m /\
  asCString m' = asCString m /\ asString m' = asString m /\ size m' = size m.

(** A number that is the integer [n], whatever its type. *)
Definition integer_answers (n : Z) (v : Value) : Prop :=
  isNull v = false /\ isObject v = false /\ isString v = false /\
  isInt v = (minInt <=? n) && (n <=? maxInt) /\ isUInt v = (0 <=? n) && (n <=? maxUInt) /\
  asInt v = (if (minInt <=? n) && (n <=? maxInt) then Some n else None) /\
  asUInt v = (if (0 <=? n) && (n <=? maxUInt) then Some n else None) /\
  asCString v = None /\ asString v = Some (print_d n) /\ size v = 0.
Lemma integer_same n v v' : integer_answers n v -> integer_answers n v' -> same_answers v v'.
Proof. unfold integer_answers, same_answers. intuition congruence. Qed.
Lemma int_answers i : integer_answers i (intValue i).
Proof. by unfold integer_answers. Qed.
Lemma uint_answers u : 0 <= u -> integer_answers u (uintValue u).
Proof.
  intros Hu. unfold integer_answers, asInt, asUInt, isInt, isUInt, minInt. rewrite (proj2 (Z.leb_le 0 u) Hu).
  by rewrite (proj2 (Z.leb_le (- 2 ^ 31) u)) by lia.
Qed.
Lemma canon_integer_answers n : integer_answers n (canon_integer n).
Proof.
  unfold canon_integer, maxInt. destruct (Z.leb_spec n (2 ^ 31 - 1)); [apply int_answers|apply uint_answers; lia].
Qed.
Lemma InRange_integral m e lo hi : IsIntegral m e = true ->
  InRange m e lo hi = (lo <=? real_trunc m e) && (real_trunc m e <=? hi).
Proof.
  unfold IsIntegral, InRange, real_trunc. destruct (Z.leb_spec 0 e); [done|]. intros Hr%Z.eqb_eq.
  pose proof (Z.quot_rem' m (2 ^ (- e))) as Hq. rewrite Hr, Z.add_0_r in Hq.
  assert (0 < 2 ^ (- e)) by (apply Z.pow_pos_nonneg; lia).
  set (d := 2 ^ (- e)) in *. set (q := Z.quot m d) in *. f_equal; apply eq_true_iff_eq; rewrite !Z.leb_le; nia.
Qed.
Lemma real_answers m e : valueToString_double m e = print_d (real_trunc m e) -> IsIntegral m e = true ->
  integer_answers (real_trunc m e) (realValue m e).
Proof.
  intros Ht Hi. unfold integer_answers, asInt, asUInt, isInt, isUInt, asString.
  by rewrite !InRange_integral, Hi, !andb_true_r, Ht by done.
Qed.

Lemma canon_same_answers m : writable m = true -> same_answers m (canon m).
Proof.
  destruct m as [|i|u|m e|s|b|l|l]; cbn [canon writable]; intros Hw; try done.
  - eapply integer_same; [apply int_answers|apply canon_integer_answers].
  - eapply integer_same; [apply uint_answers; lia|apply canon_integer_answers].
  - unfold real_reads_back in Hw. apply andb_prop in Hw as [_ Hw].
    destruct (isDouble_text _); [done|]. rewrite !andb_true_iff in Hw.
    destruct Hw as [[[Hp%bool_decide_eq_true Hi] _] _].
    eapply integer_same; [by apply real_answers|apply canon_integer_answers].
  - unfold same_answers. cbn. by rewrite !(c_str_id (c_str s)) by apply c_str_no_nul.
  - unfold same_answers. cbn. by rewrite length_map.
  - unfold same_answers. cbn. by rewrite length_map.
Qed.
End answers.

(** C5. What [FastWriter] writes, [Reader] parses, and every member and element of
    the result, on any path, answers the SDK's tests and conversions as the
    original one.  The values are of 64-bit integers, strings of bytes and those
    reals of which the C library reads what it printed. *)
Theorem json_roundtrip `{DoubleText} v :
  writable v = true ->
  exists v', Reader_parse (FastWriter_write v) = Some v' /\
    forall path, match const_path v path with
      | Some m => exists m', const_path v' path = Some m' /\ same_answers m m'
      | None => const_path v' path = None
      end.
Proof.
  intros Hw. exists (canon v). split; [by apply parse_write|]. intros path. rewrite const_path_canon.
  destruct (const_path v path) as [m|] eqn:Hm; [|done]. exists (canon m). split; [done|].
  apply canon_same_answers. by eapply writable_path.
Qed.

(** ** A concrete run *)

(** A C library that prints doubles as integers and reads none. *)
Definition demo_double : DoubleText :=
  {| print_g16 := fun m e => print_d (real_trunc m e); scan_lf := fun _ => None |}.
Definition demo_value : Value :=
  objectValue [("cmd", stringValue (bytes "ivs_result")); ("id", uintValue 7);
    ("list", arrayValue [nullValue; intValue (-5); stringValue [34; 9; 3; 92; 228]; objectValue []])]%string.

(** A C library that knows the text of two and a half, and a value with that
    real, and with a real that is an integer, in an array. *)
Definition half_double : DoubleText :=
  {| print_g16 := fun m e => if bool_decide ((m, e) = (5, -1)) then bytes "2.5" else print_d (real_trunc m e);
     scan_lf := fun l => if bool_decide (l = bytes "2.5") then Some (5, -1) else None |}.
Definition demo_reals : Value :=
  objectValue [("demo", demo_value); ("reals", arrayValue [realValue 5 (-1); realValue (-3) 2])]%string.
Lemma json_roundtrip_witness :
  let JT := half_double in
  (exists m, const_path demo_reals [Member "reals"; Element 1] = Some m /\ asInt m = Some (-12)) /\
  exists v', Reader_parse (FastWriter_write demo_reals) = Some v' /\
    forall path, match const_path demo_reals path with
      | Some m => exists m', const_path v' path = Some m' /\ same_answers m m'
      | None => const_path v' path = None
      end.
Proof.
  split; [by eexists|]. apply (json_roundtrip (H := half_double)). vm_compute. reflexivity.
Defined.
