(* ===== verification/JsonStyled.v ===== *)
(** * json/jsoncpp.cpp: the styled writers

    [StyledWriter] and [StyledStreamWriter], which lay a value out on several lines,
    and the reader on such text: white space between tokens makes no difference to
    it.  Values carry no comments here; JsonComments.v has those. *)
From Stdlib Require Import Ascii String.
From S2P Require Import Prelude Text Json JsonText.

(** ** Text with white space between its tokens *)
(** Linear arithmetic on the lengths of texts. *)
Ltac lengths := repeat (progress (cbn [app length] in *; rewrite ?length_app in *)); lia.

Section layout.
Context {DT : DoubleText}.

Definition blank (c : Z) : bool := (c =? 32) || (c =? 9) || (c =? 13) || (c =? 10).
Definition spaces (l : list Z) : Prop := Forall (fun c => blank c = true) l.
Definition leaf (v : Value) : bool :=
  match v with arrayValue (_ :: _) | objectValue (_ :: _) => false | _ => true end.
(** The elements of an array and the members of an object up to the bracket. *)
Inductive layout : Value -> list Z -> Prop :=
  | layout_leaf v : leaf v = true -> layout v (writeValue v)
  | layout_array v l sp t : spaces sp -> elements_text v l t -> layout (arrayValue (v :: l)) (91 :: sp ++ t)
  | layout_object kv l sp t : spaces sp -> members_text kv l t -> layout (objectValue (kv :: l)) (123 :: sp ++ t)
with elements_text : Value -> list Value -> list Z -> Prop :=
  | elements_last v t sp : layout v t -> spaces sp -> elements_text v [] (t ++ sp ++ [93])
  | elements_more v w l t sp sp' t' : layout v t -> spaces sp -> spaces sp' -> elements_text w l t' ->
      elements_text v (w :: l) (t ++ sp ++ 44 :: sp' ++ t')
with members_text : string * Value -> list (string * Value) -> list Z -> Prop :=
  | members_last k v t sp1 sp2 sp3 : layout v t -> spaces sp1 -> spaces sp2 -> spaces sp3 ->
      members_text (k, v) [] (valueToQuotedString (bytes k) ++ sp1 ++ 58 :: sp2 ++ t ++ sp3 ++ [125])
  | members_more k v kv l t sp1 sp2 sp3 sp' t' : layout v t -> spaces sp1 -> spaces sp2 -> spaces sp3 -> spaces sp' ->
      members_text kv l t' ->
      members_text (k, v) (kv :: l) (valueToQuotedString (bytes k) ++ sp1 ++ 58 :: sp2 ++ t ++ sp3 ++ 44 :: sp' ++ t').
Scheme layout_mut := Induction for layout Sort Prop
with elements_mut := Induction for elements_text Sort Prop
with members_mut := Induction for members_text Sort Prop.
Combined Scheme layout_mutind from layout_mut, elements_mut, members_mut.

(** *** The reader skips it *)
Lemma skipSpaces_app sp l : spaces sp -> skipSpaces (sp ++ l) = skipSpaces l.
Proof. induction 1 as [|c sp Hc _ IH]; [done|]. cbn [app skipSpaces]. unfold blank in Hc. by rewrite Hc. Qed.
Lemma readToken_spaces sp l : spaces sp -> readToken (sp ++ l) = readToken l.
Proof. intros H. unfold readToken. by rewrite skipSpaces_app. Qed.
Lemma skip_comments_fuel f1 : forall f2 l, (length l <= f1)%nat -> (length l <= f2)%nat -> skip_comments f1 l = skip_comments f2 l.
Proof.
  assert (H0 : forall f l, (length l <= 0)%nat -> skip_comments f l = readToken l).
  { intros f l Hl. destruct l; [|cbn in Hl; lia]. by destruct f. }
  induction f1 as [|f1 IH]; intros f2 l H1 H2; [by rewrite !H0|]. destruct f2 as [|f2]; [by rewrite !H0|].
  cbn [skip_comments]. pose proof (readToken_shrinks l) as [_ H]. destruct (readToken l) as [t r]. cbn [fst snd] in H.
  unfold is_comment. case_bool_decide as E; [|done]. rewrite E in H. specialize (H ltac:(done) ltac:(done)). apply IH; lia.
Qed.
Lemma skipCommentTokens_spaces sp l : spaces sp -> skipCommentTokens (sp ++ l) = skipCommentTokens l.
Proof.
  intros Hs. unfold skipCommentTokens. rewrite (skip_comments_fuel (length l) (length (sp ++ l)) l) by (rewrite ?length_app; lia).
  destruct (length (sp ++ l)); cbn [skip_comments]; by rewrite readToken_spaces.
Qed.
Lemma readValue_spaces fuel sp l : spaces sp -> readValue fuel (sp ++ l) = readValue fuel l.
Proof. intros Hs. destruct fuel; [done|]. cbn [readValue]. by rewrite skipCommentTokens_spaces. Qed.
Lemma readArray_spaces fuel es sp l : spaces sp -> readArray fuel es (sp ++ l) = readArray fuel es l.
Proof. intros Hs. destruct fuel; [done|]. cbn [readArray]. by rewrite readValue_spaces. Qed.
Lemma readObject_spaces fuel name ms sp l : spaces sp -> readObject fuel name ms (sp ++ l) = readObject fuel name ms l.
Proof. intros Hs. destruct fuel; [done|]. cbn [readObject]. by rewrite skipCommentTokens_spaces. Qed.
Lemma ends_number_blank c l : blank c = true -> ends_number (c :: l).
Proof.
  unfold blank. cbn [ends_number]. intros Hc. destruct (Z.eqb_spec c 32) as [->|]; [done|].
  destruct (Z.eqb_spec c 9) as [->|]; [done|]. destruct (Z.eqb_spec c 13) as [->|]; [done|]. by destruct (Z.eqb_spec c 10) as [->|].
Qed.
Lemma ends_number_spaces sp c l : spaces sp -> in_number c = false -> ends_number (sp ++ c :: l).
Proof. intros Hs Hc. destruct Hs; [exact Hc|by apply ends_number_blank]. Qed.

(** A text starts its value at once. *)
Definition starts (t : list Z) : Prop := exists c l, t = c :: l /\ forall m, skipSpaces (c :: m) = c :: m /\ (c =? 93) = false.
Lemma layout_starts v t : layout v t -> writable v = true -> starts t.
Proof.
  destruct 1 as [v _|v l sp t _ _|kv l sp t _ _]; intros Hw; [by apply writeValue_head|by eexists _, _..].
Qed.
Lemma elements_start v l t : elements_text v l t -> writable v = true -> starts t.
Proof.
  destruct 1 as [v t sp H _|v w l t sp sp' t' H _ _ _]; intros Hw; destruct (layout_starts v t H Hw) as (c & m & -> & Hc); by eexists _, _.
Qed.
Lemma starts_skip t rest : starts t -> skipSpaces (t ++ rest) = t ++ rest /\ (fst (getNextChar (t ++ rest)) =? 93) = false.
Proof. intros (c & l & -> & H). destruct (H (l ++ rest)) as [H1 H2]. split; [exact H1|exact H2]. Qed.
Lemma skipCommentTokens_punctuation sp c ty l : spaces sp -> punctuation c = Some ty -> ty <> tokenComment ->
  skipCommentTokens (sp ++ c :: l) = (mkToken ty [c], l).
Proof.
  intros Hs Hc Hty. rewrite skipCommentTokens_spaces by done. apply skipCommentTokens_token; [by apply readToken_punctuation|done].
Qed.
Lemma readToken_after sp c ty l : spaces sp -> punctuation c = Some ty -> readToken (sp ++ c :: l) = (mkToken ty [c], l).
Proof. intros Hs Hc. rewrite readToken_spaces by done. by apply readToken_punctuation. Qed.

Definition reads (v : Value) (t : list Z) : Prop := writable v = true -> forall rest fuel, ends_number rest ->
  (2 * length (t ++ rest) < fuel)%nat -> readValue fuel (t ++ rest) = Parsed (canon v) rest.
Definition reads_elements (v : Value) (l : list Value) (t : list Z) : Prop := writable v = true -> forallb writable l = true ->
  forall es rest fuel, (2 * length (t ++ rest) + 1 < fuel)%nat ->
  readArray fuel es (t ++ rest) = Parsed (arrayValue (es ++ canon v :: map canon l)) rest.
Definition reads_members (kv : string * Value) (l : list (string * Value)) (t : list Z) : Prop :=
  member_ok kv = true -> forallb member_ok l = true -> sorted_keys (map fst (kv :: l)) = true ->
  forall name ms rest fuel, keys_before ms (map fst (kv :: l)) -> (2 * length (t ++ rest) < fuel)%nat ->
  readObject fuel name ms (t ++ rest) = Parsed (objectValue (ms ++ canon_member kv :: map canon_member l)) rest.

Lemma reads_array v l sp t : spaces sp -> elements_text v l t -> reads_elements v l t -> reads (arrayValue (v :: l)) (91 :: sp ++ t).
Proof.
  intros Hs Ht IH Hw rest [|fuel] Hr Hf; [lia|]. cbn [app]. rewrite <- app_assoc.
  cbn [writable forallb] in Hw. apply andb_prop in Hw as [Hwv Hwl].
  rewrite (readValue_token _ _ _ _ (readToken_punctuation 91 tokenArrayBegin _ eq_refl)) by done. cbn [type_]. cbv zeta.
  rewrite skipSpaces_app by done. destruct (starts_skip t rest (elements_start v l t Ht Hwv)) as [-> ->].
  rewrite IH; [done|done|done|]. lengths.
Qed.
Lemma reads_elements_last v t sp : reads v t -> spaces sp -> reads_elements v [] (t ++ sp ++ [93]).
Proof.
  intros IH Hs Hw _ es rest [|fuel] Hf; [lia|]. rewrite <- !app_assoc in *. cbn [app readArray] in *.
  rewrite IH by (done || (by apply ends_number_spaces) || lia).
  by rewrite (skipCommentTokens_punctuation sp 93 tokenArrayEnd rest).
Qed.
Lemma reads_elements_more v w l t sp sp' t' : reads v t -> spaces sp -> spaces sp' -> reads_elements w l t' ->
  reads_elements v (w :: l) (t ++ sp ++ 44 :: sp' ++ t').
Proof.
  intros IHv Hs Hs' IH Hw Hwl es rest [|fuel] Hf; [lia|]. cbn [forallb] in Hwl. apply andb_prop in Hwl as [Hww Hwl].
  rewrite <- !app_assoc in *. cbn [app readArray] in *. rewrite <- !app_assoc in *.
  rewrite IHv by (done || (by apply ends_number_spaces) || lia).
  rewrite (skipCommentTokens_punctuation sp 44 tokenArraySeparator) by done. cbn [type_].
  rewrite readArray_spaces, IH by (done || lengths).
  by rewrite <- app_assoc.
Qed.
Lemma reads_object kv l sp t : spaces sp -> reads_members kv l t -> reads (objectValue (kv :: l)) (123 :: sp ++ t).
Proof.
  intros Hs IH Hw rest [|fuel] Hr Hf; [lia|]. cbn [app]. rewrite <- app_assoc.
  cbn [writable] in Hw. apply andb_prop in Hw as [Hok Hsort]. cbn [forallb] in Hok. apply andb_prop in Hok as [Hkv Hok].
  rewrite (readValue_token _ _ _ _ (readToken_punctuation 123 tokenObjectBegin _ eq_refl)) by done. cbn [type_].
  rewrite readObject_spaces, IH; [done|exact Hkv|exact Hok|exact Hsort|by intros kv' k' []| |done].
  lengths.
Qed.
(** One turn of the loop over the members, up to what follows the value. *)
Lemma readObject_member k v t sp1 sp2 after name ms fuel : reads v t -> spaces sp1 -> spaces sp2 -> ends_number after ->
  member_ok (k, v) = true -> keys_before ms [k] -> (2 * length (t ++ after) < fuel)%nat ->
  readObject (S fuel) name ms (valueToQuotedString (bytes k) ++ sp1 ++ 58 :: sp2 ++ t ++ after) =
    let members := ms ++ [(k, canon v)] in
    let '(comma, l') := readToken after in
    if bool_decide (type_ comma = tokenObjectEnd \/ type_ comma = tokenArraySeparator \/ type_ comma = tokenComment) then
      let '(comma, l') := if is_comment comma then skipCommentTokens l' else (comma, l') in
      if bool_decide (type_ comma = tokenObjectEnd) then Parsed (objectValue members) l'
      else readObject fuel (c_str (bytes k)) members l'
    else Failed.
Proof.
  intros IH H1 H2 Ha [Hnul%bool_decide_eq_true Hw]%andb_prop Hms Hf. cbn [readObject].
  destruct (readToken_string (bytes k) (sp1 ++ 58 :: sp2 ++ t ++ after) (bytes_are_bytes k)) as (tok & Et & Hty & Hd).
  rewrite (skipCommentTokens_token _ _ _ Et) by congruence. rewrite Hty, Hd.
  rewrite (readToken_after sp1 58 tokenMemberSeparator) by done. rewrite bool_decide_eq_true_2 by done.
  rewrite readValue_spaces, IH by done.
  replace (map_set (key_of (c_str (bytes k))) (canon v) ms) with (ms ++ [(k, canon v)]); [done|symmetry].
  rewrite c_str_id, key_of_bytes by done. apply map_set_last, forallb_forall. intros kv Hin. apply Hms; [done|by left].
Qed.
Lemma reads_members_last k v t sp1 sp2 sp3 : reads v t -> spaces sp1 -> spaces sp2 -> spaces sp3 ->
  reads_members (k, v) [] (valueToQuotedString (bytes k) ++ sp1 ++ 58 :: sp2 ++ t ++ sp3 ++ [125]).
Proof.
  intros IH H1 H2 H3 Hok _ _ name ms rest [|fuel] Hms Hf; [lia|]. rewrite <- !app_assoc in *. cbn [app] in *. rewrite <- !app_assoc in *.
  rewrite (readObject_member k v t sp1 sp2); [|done|done|done|by apply ends_number_spaces|done|done|].
  - cbn [app]. by rewrite (readToken_after sp3 125 tokenObjectEnd).
  - lengths.
Qed.
Lemma reads_members_more k v kv l t sp1 sp2 sp3 sp' t' : reads v t -> spaces sp1 -> spaces sp2 -> spaces sp3 -> spaces sp' ->
  reads_members kv l t' ->
  reads_members (k, v) (kv :: l) (valueToQuotedString (bytes k) ++ sp1 ++ 58 :: sp2 ++ t ++ sp3 ++ 44 :: sp' ++ t').
Proof.
  intros IHv H1 H2 H3 H' IH Hok Hoks Hsort name ms rest [|fuel] Hms Hf; [lia|].
  cbn [forallb] in Hoks. apply andb_prop in Hoks as [Hok2 Hoks].
  cbn [map fst sorted_keys] in Hsort. apply andb_prop in Hsort as [Hlt Hsort]. rewrite forallb_forall in Hlt.
  rewrite <- !app_assoc in *. cbn [app] in *. rewrite <- !app_assoc in *. cbn [app] in *. rewrite <- !app_assoc in *.
  rewrite (readObject_member k v t sp1 sp2); [|done|done|done|by apply ends_number_spaces|done| |].
  - rewrite (readToken_after sp3 44 tokenArraySeparator) by done. cbv zeta.
    rewrite bool_decide_eq_true_2 by (cbn; auto). change (is_comment (mkToken tokenArraySeparator [44])) with false. cbv iota.
    rewrite bool_decide_eq_false_2 by done. rewrite readObject_spaces, IH; [by rewrite <- app_assoc|done|done|done| | |done].
    + intros kv' k3 [Hin|[<-|[]]]%in_app_iff Hk3; [apply Hms; [done|by right]|by apply Hlt].
    + lengths.
  - intros kv' k' Hin [<-|[]]. apply Hms; [done|by left].
  - lengths.
Qed.
Lemma layout_reads :
  (forall v t, layout v t -> reads v t) /\ (forall v l t, elements_text v l t -> reads_elements v l t) /\
  (forall kv l t, members_text kv l t -> reads_members kv l t).
Proof.
  apply (layout_mutind (fun v t _ => reads v t) (fun v l t _ => reads_elements v l t) (fun kv l t _ => reads_members kv l t)).
  - intros v _ Hw rest fuel Hr Hf. by apply writable_reads_back.
  - intros v l sp t Hs Ht IH. by apply reads_array.
  - intros kv l sp t Hs Ht IH. by apply reads_object.
  - intros v t sp Ht IH Hs. by apply reads_elements_last.
  - intros v w l t sp sp' t' Ht IHv Hs Hs' Ht' IH. by apply reads_elements_more.
  - intros k v t sp1 sp2 sp3 Ht IH H1 H2 H3. by apply reads_members_last.
  - intros k v kv l t sp1 sp2 sp3 sp' t' Ht IHv H1 H2 H3 H' Ht' IH. by apply reads_members_more.
Qed.
Lemma ends_number_only_spaces sp : spaces sp -> ends_number sp.
Proof. destruct 1; [done|by apply ends_number_blank]. Qed.
Lemma parse_layout v sp t sp' : layout v t -> writable v = true -> spaces sp -> spaces sp' ->
  Reader_parse (sp ++ t ++ sp') = Some (canon v).
Proof.
  intros Ht Hw Hs Hs'. unfold Reader_parse, parse_fuel. rewrite readValue_spaces by done.
  rewrite (proj1 layout_reads v t Ht Hw sp'); [done|by apply ends_number_only_spaces|]. rewrite (length_app sp). lia.
Qed.
End layout.

(** ** The writers

    They are the same but for [writeIndent], the text of one level of indentation,
    and that one writes to a string and the other to a stream.  Sizes do not
    come near 2^31. *)
Record Styled := mkStyled {
  document_ : list Z; childValues_ : list (list Z); indentString_ : list Z; addChildValues_ : bool }.
Class Style := { writeIndent : Styled -> Styled; indentation_ : list Z }.
Definition rightMargin_ : nat := 74.
Definition put (t : list Z) (w : Styled) : Styled :=
  mkStyled (document_ w ++ t) (childValues_ w) (indentString_ w) (addChildValues_ w).
Definition set_children (c : list (list Z)) (b : bool) (w : Styled) : Styled := mkStyled (document_ w) c (indentString_ w) b.
Definition set_indent (i : list Z) (w : Styled) : Styled := mkStyled (document_ w) (childValues_ w) i (addChildValues_ w).

Section styled.
Context {DT : DoubleText} {ST : Style}.
Definition pushValue (value : list Z) (w : Styled) : Styled :=
  if addChildValues_ w then set_children (childValues_ w ++ [value]) true w else put value w.
Definition writeWithIndent (value : list Z) (w : Styled) : Styled := put value (writeIndent w).
Definition indent (w : Styled) : Styled := set_indent (indentString_ w ++ indentation_) w.
Definition unindent (w : Styled) : Styled :=
  set_indent (take (length (indentString_ w) - length indentation_) (indentString_ w)) w.

(** What the loops do with the values inside. *)
Section inside.
Context (writeValue : Value -> Styled -> Styled).
Fixpoint multi_line (hasChildValue : bool) (index : nat) (l : list Value) (w : Styled) : Styled :=
  match l with
  | [] => w
  | v :: l =>
    let w := if hasChildValue then writeWithIndent (nth index (childValues_ w) []) w else writeValue v (writeIndent w) in
    match l with [] => w | _ => multi_line hasChildValue (S index) l (put [44] w) end
  end.
Fixpoint single_line (size index : nat) (w : Styled) : Styled :=
  match size with
  | O => w
  | S size =>
    let w := if (0 <? index)%nat then put [44; 32] w else w in
    single_line size (S index) (put (nth index (childValues_ w) []) w)
  end.
Fixpoint measure (index : nat) (l : list Value) (lineLength : nat) (w : Styled) : nat * Styled :=
  match l with
  | [] => (lineLength, w)
  | v :: l => let w := writeValue v w in measure (S index) l (lineLength + length (nth index (childValues_ w) [])) w
  end.
Definition isMultineArray (l : list Value) (w : Styled) : bool * Styled :=
  let isMultiLine := (rightMargin_ <=? length l * 3)%nat || existsb (fun v => negb (leaf v)) l in
  let w := set_children [] (addChildValues_ w) w in
  if isMultiLine then (true, w)
  else
    let '(lineLength, w) := measure 0 l (4 + (length l - 1) * 2) (set_children (childValues_ w) true w) in
    ((rightMargin_ <=? lineLength)%nat, set_children (childValues_ w) false w).
Definition writeArrayValue (l : list Value) (w : Styled) : Styled :=
  match l with
  | [] => pushValue [91; 93] w
  | _ =>
    let '(isArrayMultiLine, w) := isMultineArray l w in
    if isArrayMultiLine then
      let w := indent (writeWithIndent [91] w) in
      let hasChildValue := match childValues_ w with [] => false | _ => true end in
      writeWithIndent [93] (unindent (multi_line hasChildValue 0 l w))
    else put [32; 93] (single_line (length l) 0 (put [91; 32] w))
  end.
Fixpoint write_members (l : list (string * Value)) (w : Styled) : Styled :=
  match l with
  | [] => w
  | (name, v) :: l =>
    let w := writeValue v (put [32; 58; 32] (writeWithIndent (valueToQuotedString (bytes name)) w)) in
    match l with [] => w | _ => write_members l (put [44] w) end
  end.
Definition writeObjectValue (l : list (string * Value)) (w : Styled) : Styled :=
  match l with
  | [] => pushValue [123; 125] w
  | _ => writeWithIndent [125] (unindent (write_members l (indent (writeWithIndent [123] w))))
  end.
End inside.
Fixpoint writeStyled (value : Value) (w : Styled) : Styled :=
  match value with
  | nullValue => pushValue (bytes "null") w
  | intValue i => pushValue (valueToString_int i) w
  | uintValue u => pushValue (uintToString u) w
  | realValue m e => pushValue (valueToString_double m e) w
  | stringValue s => pushValue (valueToQuotedString s) w
  | booleanValue b => pushValue (valueToString_bool b) w
  | arrayValue l => writeArrayValue writeStyled l w
  | objectValue l => writeObjectValue writeStyled l w
  end.
Definition write (root : Value) : list Z := document_ (put [10] (writeStyled root (mkStyled [] [] [] false))).
End styled.

(** [StyledWriter]: no line is begun after a space. *)
Definition StyledWriter_writeIndent (w : Styled) : Styled :=
  match rev (document_ w) with
  | last :: _ =>
    if last =? 32 then w
    else if negb (last =? 10) then put (indentString_ w) (put [10] w) else put (indentString_ w) w
  | [] => put (indentString_ w) w
  end.
Definition StyledWriter : Style := {| writeIndent := StyledWriter_writeIndent; indentation_ := replicate 3 32 |}.
Definition StyledWriter_write `{DoubleText} (root : Value) : list Z := write (ST := StyledWriter) root.
(** [StyledStreamWriter], of which [indentation] is an argument; a tab in [operator<<]. *)
Definition StyledStreamWriter_writeIndent (w : Styled) : Styled := put (10 :: indentString_ w) w.
Definition StyledStreamWriter (indentation : list Z) : Style :=
  {| writeIndent := StyledStreamWriter_writeIndent; indentation_ := indentation |}.
Definition StyledStreamWriter_write `{DoubleText} (indentation : list Z) (root : Value) : list Z :=
  write (ST := StyledStreamWriter indentation) root.

(** ** What is written reads back *)
(** A style whose indentation is white space. *)
Class BlankStyle (ST : Style) : Prop := {
  indentation_blank : spaces indentation_;
  writeIndent_blank w : spaces (indentString_ w) -> exists sp, spaces sp /\ writeIndent w = put sp w }.
#[export] Instance StyledWriter_blank : BlankStyle StyledWriter.
Proof.
  split; [by repeat constructor|]. intros w Hw. cbn [writeIndent StyledWriter]. unfold StyledWriter_writeIndent.
  destruct (rev (document_ w)) as [|c l]; [by eexists|].
  destruct (c =? 32); [exists []; split; [constructor|destruct w; unfold put; cbn; by rewrite app_nil_r]|].
  destruct (negb (c =? 10)); [|by eexists]. exists (10 :: indentString_ w). split; [by constructor|].
  unfold put. cbn. by rewrite <- app_assoc.
Qed.
#[export] Instance StyledStreamWriter_blank indentation (Hi : spaces indentation) : BlankStyle (StyledStreamWriter indentation).
Proof. split; [done|]. intros w Hw. exists (10 :: indentString_ w). split; [by constructor|done]. Qed.

Section styled_spec.
Context {DT : DoubleText} {ST : Style} {BS : BlankStyle ST}.
Lemma spaces_app l m : spaces l -> spaces m -> spaces (l ++ m).
Proof. apply Forall_app_2. Qed.
(** The writer as the loops keep it: a blank indentation, and values go to the document. *)
Definition ready (w : Styled) : Prop := spaces (indentString_ w) /\ addChildValues_ w = false.
(** From [w] to [w'] the text [t] was written. *)
Definition wrote (w w' : Styled) (t : list Z) : Prop :=
  document_ w' = document_ w ++ t /\ indentString_ w' = indentString_ w /\ addChildValues_ w' = addChildValues_ w.
Lemma wrote_put t w : wrote w (put t w) t.
Proof. done. Qed.
Lemma wrote_children c w : wrote w (set_children c (addChildValues_ w) w) [].
Proof. split_and!; [|done..]. cbn. by rewrite app_nil_r. Qed.
Lemma wrote_trans w w1 w2 t1 t2 : wrote w w1 t1 -> wrote w1 w2 t2 -> wrote w w2 (t1 ++ t2).
Proof. intros (D1 & I1 & A1) (D2 & I2 & A2). split_and!; [by rewrite D2, D1, app_assoc|congruence|congruence]. Qed.
Lemma ready_wrote w w' t : ready w -> wrote w w' t -> ready w'.
Proof. intros [H1 H2] (_ & HI & HA). split; congruence. Qed.
Lemma writeIndent_wrote w : ready w -> exists sp, spaces sp /\ wrote w (writeIndent w) sp /\ childValues_ (writeIndent w) = childValues_ w.
Proof. intros [Hi _]. destruct (writeIndent_blank w Hi) as (sp & Hs & ->). by exists sp. Qed.
Lemma writeWithIndent_wrote t w : ready w ->
  exists sp, spaces sp /\ wrote w (writeWithIndent t w) (sp ++ t) /\ childValues_ (writeWithIndent t w) = childValues_ w.
Proof.
  intros Hw. destruct (writeIndent_wrote w Hw) as (sp & Hs & Hwr & Hc). exists sp. split_and!; [done| |done].
  exact (wrote_trans _ _ _ _ _ Hwr (wrote_put t _)).
Qed.
Lemma ready_indent w : ready w -> ready (indent w).
Proof. intros [Hi Ha]. split; [|done]. apply spaces_app; [done|apply indentation_blank]. Qed.
Lemma wrote_unindent w w' t : wrote (indent w) w' t -> wrote w (unindent w') t.
Proof.
  intros (HD & HI & HA). split_and!; [done| |done]. cbn. rewrite HI. cbn. rewrite length_app, Nat.add_sub. apply take_app_length.
Qed.

(** *** Leaves *)
Lemma writeStyled_leaf v w : leaf v = true -> writeStyled v w = pushValue (writeValue v) w.
Proof. by destruct v as [| | | | | |[|]|[|]]. Qed.
Lemma measure_leaves l : forall index n w, forallb leaf l = true -> addChildValues_ w = true ->
  snd (measure writeStyled index l n w) = set_children (childValues_ w ++ map writeValue l) true w.
Proof.
  induction l as [|v l IH]; intros index n w Hl Ha; cbn [measure map].
  - rewrite app_nil_r. destruct w; cbn in *. by subst.
  - cbn [forallb] in Hl. apply andb_prop in Hl as [Hv Hl]. rewrite writeStyled_leaf by done. unfold pushValue. rewrite Ha. cbv zeta.
    rewrite IH by done. cbn. by rewrite <- app_assoc.
Qed.
(** When the elements are not laid out one by one, they are leaves and their texts are kept. *)
Lemma isMultineArray_children l w : addChildValues_ w = false ->
  let '(b, w') := isMultineArray writeStyled l w in
  wrote w w' [] /\ (b = true /\ childValues_ w' = [] \/ forallb leaf l = true /\ childValues_ w' = map writeValue l).
Proof.
  intros Ha. unfold isMultineArray. destruct (_ || _) eqn:E; cbv zeta.
  - split; [apply wrote_children|]. by left.
  - apply orb_false_elim in E as [_ E].
    assert (Hl : forallb leaf l = true).
    { apply forallb_forall. intros v Hv. destruct (leaf v) eqn:Ev; [done|].
      rewrite <- E. apply existsb_exists. exists v. by rewrite Ev. }
    pose proof (measure_leaves l 0 (4 + (length l - 1) * 2)%nat (set_children [] true w) Hl eq_refl) as Hm.
    change (childValues_ (set_children [] (addChildValues_ w) w)) with (@nil (list Z)).
    change (set_children [] true (set_children [] (addChildValues_ w) w)) with (set_children [] true w).
    destruct (measure _ _ _ _ _) as [n w']. cbn [snd] in Hm. subst w'. split; [|right; done].
    split_and!; cbn; by rewrite ?app_nil_r.
Qed.

(** *** Texts up to the bracket *)
Definition closable (v : Value) (l : list Value) (t : list Z) : Prop := forall sp, spaces sp -> elements_text v l (t ++ sp ++ [93]).
Definition closable_members (kv : string * Value) (l : list (string * Value)) (t : list Z) : Prop :=
  forall sp, spaces sp -> members_text kv l (t ++ sp ++ [125]).
Lemma closable_last v t : layout v t -> closable v [] t.
Proof. intros Ht sp Hs. by apply elements_last. Qed.
Lemma closable_more v w l t sp t' : layout v t -> spaces sp -> closable w l t' -> closable v (w :: l) (t ++ 44 :: sp ++ t').
Proof.
  intros Ht Hs Ht' sp' Hs'. rewrite <- app_assoc. cbn [app]. rewrite <- app_assoc.
  exact (elements_more v w l t [] sp _ Ht (List.Forall_nil _) Hs (Ht' sp' Hs')).
Qed.
Lemma closable_member v k sp t : layout v t -> spaces sp ->
  closable_members (k, v) [] (valueToQuotedString (bytes k) ++ [32; 58; 32] ++ sp ++ t).
Proof.
  intros Ht Hs sp3 H3. rewrite <- !app_assoc.
  exact (members_last k v t [32] (32 :: sp) sp3 Ht ltac:(by repeat constructor) ltac:(by constructor) H3).
Qed.
Lemma closable_member_more v k kv l sp t sp' t' : layout v t -> spaces sp -> spaces sp' -> closable_members kv l t' ->
  closable_members (k, v) (kv :: l) (valueToQuotedString (bytes k) ++ [32; 58; 32] ++ sp ++ t ++ 44 :: sp' ++ t').
Proof.
  intros Ht Hs Hs' Ht' sp3 H3. repeat (progress (rewrite <- ?app_assoc; cbn [app])).
  exact (members_more k v kv l t [32] (32 :: sp) [] sp' _ Ht ltac:(by repeat constructor) ltac:(by constructor) (List.Forall_nil _) Hs' (Ht' sp3 H3)).
Qed.
Lemma drop_children index (cs : list (list Z)) x xs : drop index cs = x :: xs -> nth index cs [] = x /\ drop (S index) cs = xs.
Proof.
  revert index. induction cs as [|c cs IH]; intros [|index] H; cbn in H; try discriminate H; [|by apply IH].
  injection H as -> ->. done.
Qed.

(** *** The loops *)
(** What writing a value does. *)
Definition writes (v : Value) : Prop :=
  forall w, ready w -> exists sp t, spaces sp /\ layout v t /\ wrote w (writeStyled v w) (sp ++ t).
(** Where [multi_line] has its texts from. *)
Definition source (b : bool) (l : list Value) (index : nat) (w : Styled) : Prop :=
  if b then forallb leaf l = true /\ drop index (childValues_ w) = map writeValue l else Forall writes l.
Lemma element_wrote b v l index w : ready w -> source b (v :: l) index w ->
  let w1 := if b then writeWithIndent (nth index (childValues_ w) []) w else writeStyled v (writeIndent w) in
  exists sp t, spaces sp /\ layout v t /\ wrote w w1 (sp ++ t) /\ source b l (S index) w1.
Proof.
  intros Hw Hsrc. destruct b; cbn [source] in Hsrc; cbv zeta iota.
  - destruct Hsrc as [[Hv Hl]%andb_prop Hd]. destruct (drop_children _ _ _ _ Hd) as [-> Hd'].
    destruct (writeWithIndent_wrote (writeValue v) w Hw) as (sp & Hs & Hwr & Hc). exists sp, (writeValue v).
    split_and!; [done|by apply layout_leaf|done|]. split; [done|by rewrite Hc].
  - destruct (writeIndent_wrote w Hw) as (sp & Hs & Hwr & _).
    destruct (Forall_inv Hsrc _ (ready_wrote _ _ _ Hw Hwr)) as (sp' & t & Hs' & Ht & Hwr').
    exists (sp ++ sp'), t. split_and!; [by apply spaces_app|done| |exact (Forall_inv_tail Hsrc)].
    rewrite <- app_assoc. exact (wrote_trans _ _ _ _ _ Hwr Hwr').
Qed.
Lemma multi_line_wrote b l : forall v index w, ready w -> source b (v :: l) index w ->
  exists sp t, spaces sp /\ closable v l t /\ wrote w (multi_line writeStyled b index (v :: l) w) (sp ++ t).
Proof.
  induction l as [|v' l IH]; intros v index w Hw Hsrc; cbn [multi_line];
    destruct (element_wrote b v _ index w Hw Hsrc) as (sp & t & Hs & Ht & Hwr & Hsrc'); cbv zeta in *;
    match type of Hwr with wrote w ?w' _ => set (w1 := w') in * end; exists sp.
  - exists t. split_and!; [done|by apply closable_last|done].
  - destruct (IH v' (S index) (put [44] w1)) as (sp' & t' & Hs' & Ht' & Hwr').
    { exact (ready_wrote _ _ _ (ready_wrote _ _ _ Hw Hwr) (wrote_put [44] w1)). }
    { by destruct b. }
    exists (t ++ 44 :: sp' ++ t'). split_and!; [done|by apply closable_more|].
    rewrite app_assoc. exact (wrote_trans _ _ _ _ _ Hwr (wrote_trans _ _ _ _ _ (wrote_put [44] w1) Hwr')).
Qed.
Lemma single_line_wrote l : forall v index w, forallb leaf (v :: l) = true -> drop index (childValues_ w) = map writeValue (v :: l) ->
  exists t, closable v l t /\
    wrote w (single_line (length (v :: l)) index w) ((if (0 <? index)%nat then [44; 32] else []) ++ t).
Proof.
  induction l as [|v' l IH]; intros v index w [Hv Hl]%andb_prop Hd; destruct (drop_children _ _ _ _ Hd) as [Hn Hd'];
    cbn [length single_line]; set (w1 := if (0 <? index)%nat then put [44; 32] w else w);
    assert (Hw1 : wrote w w1 (if (0 <? index)%nat then [44; 32] else []) /\ childValues_ w1 = childValues_ w)
      by (subst w1; destruct (0 <? index)%nat; [done|split; [split_and!; [by rewrite app_nil_r|done|done]|done]]);
    destruct Hw1 as [Hw1 Hc]; cbv zeta; rewrite Hc, Hn.
  - exists (writeValue v). split; [by apply closable_last, layout_leaf|].
    exact (wrote_trans _ _ _ _ _ Hw1 (wrote_put _ _)).
  - destruct (IH v' (S index) (put (writeValue v) w1) Hl) as (t' & Ht' & Hwr'); [cbn [put childValues_]; by rewrite Hc|].
    exists (writeValue v ++ 44 :: [32] ++ t'). split; [apply closable_more; [by apply layout_leaf|by repeat constructor|done]|].
    exact (wrote_trans _ _ _ _ _ Hw1 (wrote_trans _ _ _ _ _ (wrote_put _ _) Hwr')).
Qed.
Lemma write_members_wrote l : forall k v w, ready w -> Forall (fun kv => writes kv.2) ((k, v) :: l) ->
  exists sp t, spaces sp /\ closable_members (k, v) l t /\ wrote w (write_members writeStyled ((k, v) :: l) w) (sp ++ t).
Proof.
  induction l as [|[k' v'] l IH]; intros k v w Hw Hall; cbn [write_members];
    destruct (writeWithIndent_wrote (valueToQuotedString (bytes k)) w Hw) as (sp & Hs & Hwr & _);
    pose proof (wrote_trans _ _ _ _ _ Hwr (wrote_put [32; 58; 32] _)) as Hwr1;
    destruct (Forall_inv Hall _ (ready_wrote _ _ _ Hw Hwr1)) as (sp1 & t & Hs1 & Ht & Hwr2);
    pose proof (wrote_trans _ _ _ _ _ Hwr1 Hwr2) as Hwr3; cbn [snd] in *; cbv zeta; exists sp.
  - exists (valueToQuotedString (bytes k) ++ [32; 58; 32] ++ sp1 ++ t). split_and!; [done|by apply closable_member|].
    by rewrite <- !app_assoc in Hwr3.
  - set (w1 := writeStyled v _) in *.
    destruct (IH k' v' (put [44] w1)) as (sp' & t' & Hs' & Ht' & Hwr');
      [exact (ready_wrote _ _ _ (ready_wrote _ _ _ Hw Hwr3) (wrote_put [44] w1))|exact (Forall_inv_tail Hall)|].
    exists (valueToQuotedString (bytes k) ++ [32; 58; 32] ++ sp1 ++ t ++ 44 :: sp' ++ t').
    split_and!; [done|by apply closable_member_more|].
    pose proof (wrote_trans _ _ _ _ _ Hwr3 (wrote_trans _ _ _ _ _ (wrote_put [44] w1) Hwr')) as H.
    by rewrite <- !app_assoc in H.
Qed.

(** *** Every value *)
Lemma writes_leaf v : leaf v = true -> writes v.
Proof.
  intros Hv w [_ Ha]. exists [], (writeValue v). split_and!; [constructor|by apply layout_leaf|].
  rewrite writeStyled_leaf by done. unfold pushValue. rewrite Ha. apply wrote_put.
Qed.
(** A bracket, what is inside one level further in, and the other bracket. *)
Lemma writeWithIndent_brackets o c w w' t1 : ready w -> wrote (indent (writeWithIndent o w)) w' t1 ->
  exists sp sp', spaces sp /\ spaces sp' /\ wrote w (writeWithIndent c (unindent w')) (sp ++ o ++ t1 ++ sp' ++ c).
Proof.
  intros Hw Hin. destruct (writeWithIndent_wrote o w Hw) as (sp & Hs & Ho & _).
  pose proof (wrote_trans _ _ _ _ _ Ho (wrote_unindent _ _ _ Hin)) as H1.
  destruct (writeWithIndent_wrote c (unindent w') (ready_wrote _ _ _ Hw H1)) as (sp' & Hs' & Hc & _).
  exists sp, sp'. split_and!; [done..|]. pose proof (wrote_trans _ _ _ _ _ H1 Hc) as H. by rewrite <- !app_assoc in H.
Qed.
Lemma writes_array v l : Forall writes (v :: l) -> writes (arrayValue (v :: l)).
Proof.
  intros Hall w Hw. cbn [writeStyled writeArrayValue]. pose proof (isMultineArray_children (v :: l) w (proj2 Hw)) as Hm.
  destruct (isMultineArray writeStyled (v :: l) w) as [b w1]. destruct Hm as [Hw1 Hm].
  pose proof (ready_wrote _ _ _ Hw Hw1) as Hr1. destruct b; cbv iota.
  - destruct (writeWithIndent_wrote [91] w1 Hr1) as (sp0 & Hs0 & Ho & Hc).
    set (w2 := indent (writeWithIndent [91] w1)) in *. set (b := match childValues_ w2 with [] => false | _ => true end).
    assert (Hsrc : source b (v :: l) 0 w2).
    { assert (Hc2 : childValues_ w2 = childValues_ w1) by exact Hc. subst b. unfold source. rewrite Hc2.
      destruct Hm as [[_ ->]|[Hl ->]]; [exact Hall|by split]. }
    destruct (multi_line_wrote b l v 0 w2) as (sp & t & Hs & Ht & Hin);
      [apply ready_indent, (ready_wrote _ _ _ Hr1 Ho)|done|].
    destruct (writeWithIndent_brackets [91] [93] w1 _ _ Hr1 Hin) as (sp1 & sp2 & H1 & H2 & Hwr).
    exists sp1, (91 :: sp ++ t ++ sp2 ++ [93]). split_and!; [done|apply layout_array; [done|by apply Ht]|].
    pose proof (wrote_trans _ _ _ _ _ Hw1 Hwr) as H. by rewrite <- !app_assoc in H.
  - destruct Hm as [[? _]|[Hl Hcs]]; [done|].
    destruct (single_line_wrote l v 0 (put [91; 32] w1) Hl) as (t & Ht & Hin); [by rewrite drop_0|].
    exists [], (91 :: [32] ++ t ++ [32] ++ [93]). split_and!; [constructor|apply layout_array; [by repeat constructor|apply Ht; by repeat constructor]|].
    pose proof (wrote_trans _ _ _ _ _ Hw1 (wrote_trans _ _ _ _ _ (wrote_put _ _)
      (wrote_trans _ _ _ _ _ Hin (wrote_put [32; 93] _)))) as H. exact H.
Qed.
Lemma writes_object k v l : Forall (fun kv => writes kv.2) ((k, v) :: l) -> writes (objectValue ((k, v) :: l)).
Proof.
  intros Hall w Hw. cbn [writeStyled writeObjectValue].
  destruct (writeWithIndent_wrote [123] w Hw) as (sp0 & Hs0 & Ho & _).
  destruct (write_members_wrote l k v (indent (writeWithIndent [123] w))) as (sp & t & Hs & Ht & Hin);
    [apply ready_indent, (ready_wrote _ _ _ Hw Ho)|done|].
  destruct (writeWithIndent_brackets [123] [125] w _ _ Hw Hin) as (sp1 & sp2 & H1 & H2 & Hwr).
  exists sp1, (123 :: sp ++ t ++ sp2 ++ [125]). split_and!; [done|apply layout_object; [done|by apply Ht]|].
  by rewrite <- !app_assoc in Hwr.
Qed.
Lemma every_value_writes v : writes v.
Proof.
  induction v as [|i|u|m e|s|b|l IH|l IH] using Value_nested_ind; try by apply writes_leaf.
  - destruct l as [|v l]; [by apply writes_leaf|by apply writes_array].
  - destruct l as [|[k v] l]; [by apply writes_leaf|by apply writes_object].
Qed.
Lemma write_layout v : exists sp t, spaces sp /\ layout v t /\ write v = sp ++ t ++ [10].
Proof.
  destruct (every_value_writes v (mkStyled [] [] [] false)) as (sp & t & Hs & Ht & HD & _ & _); [split; [constructor|done]|].
  exists sp, t. split; [done|split; [done|]]. unfold write. cbn [put document_]. rewrite HD. cbn [document_ app]. symmetry. apply app_assoc.
Qed.
Lemma parse_styled v : writable v = true -> Reader_parse (write v) = Some (canon v).
Proof.
  intros Hw. destruct (write_layout v) as (sp & t & Hs & Ht & ->).
  apply parse_layout; try done. by repeat constructor.
Qed.
End styled_spec.

(** What the styled writers write, with an indentation of white space, Reader
    parses as what [FastWriter] writes of the same value. *)
Theorem styled_round_trip `{DoubleText} indentation v : writable v = true -> spaces indentation ->
  Reader_parse (StyledWriter_write v) = Reader_parse (FastWriter_write v) /\
  Reader_parse (StyledStreamWriter_write indentation v) = Reader_parse (FastWriter_write v) /\
  Reader_parse (FastWriter_write v) <> None.
Proof.
  intros Hw Hi. rewrite parse_write by done. pose proof (StyledStreamWriter_blank indentation Hi).
  unfold StyledWriter_write, StyledStreamWriter_write. by rewrite !parse_styled.
Qed.
Lemma styled_round_trip_witness : let JT := demo_double in
  Reader_parse (StyledWriter_write demo_value) = Reader_parse (FastWriter_write demo_value) /\
  Reader_parse (StyledStreamWriter_write [9] demo_value) = Reader_parse (FastWriter_write demo_value) /\
  Reader_parse (FastWriter_write demo_value) <> None.
Proof. apply (styled_round_trip (H := demo_double)); [vm_compute; reflexivity|by repeat constructor]. Defined.

(** An array of short values stays on a line, and a nested one does not. *)
Example styled_text : let JT := demo_double in
  StyledWriter_write (objectValue [("a", arrayValue [intValue 1; intValue 2]); ("b", arrayValue [arrayValue [nullValue]])])%string =
  bytes "{" ++ [10] ++ [32; 32; 32; 34; 97; 34] ++ bytes " : [ 1, 2 ]," ++ [10] ++ [32; 32; 32; 34; 98; 34] ++ bytes " : [" ++ [10] ++
  bytes "      [ null ]" ++ [10] ++ bytes "   ]" ++ [10] ++ bytes "}" ++ [10].
Proof. vm_compute. reflexivity. Qed.
