(* ===== verification/JsonOrder.v ===== *)
(** * json/jsoncpp.cpp: the comparisons of JSON values

    [operator<] and its like, through the comparisons of [std::map] and [std::pair],
    against a three-way comparison by recursion on the values.  The elements of an
    array have the indices from 0 on, a string value has a text, and no double is
    a NaN (Reader makes none). *)
From Stdlib Require Import Ascii String.
From S2P Require Import Prelude Text Json JsonText.

(** ** The operators of the code *)
(** The keys of [map_]: indices in an array, names in an object. *)
Inductive CZString := Index (index_ : nat) | Name (cstr_ : list Z).
Fixpoint strcmp (a b : list Z) : Z :=
  match a, b with
  | [], [] => 0
  | [], _ => -1
  | _, [] => 1
  | x :: a, y :: b => if x <? y then -1 else if y <? x then 1 else strcmp a b
  end.
(** A map has keys of one kind. *)
Definition czstring_lt (a b : CZString) : bool :=
  match a, b with Name s, Name t => strcmp s t <? 0 | Index i, Index j => (i <? j)%nat | _, _ => false end.
Definition czstring_eq (a b : CZString) : bool :=
  match a, b with Name s, Name t => strcmp s t =? 0 | Index i, Index j => (i =? j)%nat | _, _ => false end.
Definition type_of (v : Value) : Z :=
  match v with
  | nullValue => 0 | intValue _ => 1 | uintValue _ => 2 | realValue _ _ => 3 | stringValue _ => 4 | booleanValue _ => 5
  | arrayValue _ => 6 | objectValue _ => 7 end.
Definition members (v : Value) : list (CZString * Value) :=
  match v with
  | arrayValue l => imap (fun i v => (Index i, v)) l
  | objectValue l => map (fun kv => (Name (c_str (bytes kv.1)), kv.2)) l
  | _ => []
  end.
(** [m * 2 ^ e] and [m' * 2 ^ e']. *)
Definition real_compare (m e m' e' : Z) : comparison :=
  let k := Z.min e e' in (m * 2 ^ (e - k) ?= m' * 2 ^ (e' - k)).

(** [operator<] of [std::pair], [std::lexicographical_compare] and [std::equal]. *)
Section library.
Context {K V : Type} (key_lt key_eq : K -> K -> bool) (lt eq : V -> V -> bool).
Definition pair_lt (a b : K * V) : bool := key_lt a.1 b.1 || (negb (key_lt b.1 a.1) && lt a.2 b.2).
Definition pair_eq (a b : K * V) : bool := key_eq a.1 b.1 && eq a.2 b.2.
End library.
Fixpoint lexicographical_compare {A} (lt : A -> A -> bool) (l m : list A) : bool :=
  match l, m with
  | _, [] => false
  | [], _ => true
  | x :: l, y :: m => if lt x y then true else if lt y x then false else lexicographical_compare lt l m
  end.
Fixpoint equal {A} (eq : A -> A -> bool) (l m : list A) : bool :=
  match l, m with
  | [], [] => true
  | x :: l, y :: m => eq x y && equal eq l m
  | _, _ => false
  end.

Definition is_Lt (c : comparison) : bool := match c with Lt => true | _ => false end.
Definition is_Eq (c : comparison) : bool := match c with Eq => true | _ => false end.
(** The fuel bounds the nesting. *)
Fixpoint lt_fuel (fuel : nat) (v w : Value) : bool :=
  match fuel with
  | O => false
  | S fuel =>
    match v, w with
    | nullValue, nullValue => false
    | intValue i, intValue j => i <? j
    | uintValue i, uintValue j => i <? j
    | realValue m e, realValue m' e' => is_Lt (real_compare m e m' e')
    | booleanValue b, booleanValue c => negb b && c
    | stringValue s, stringValue t => strcmp (c_str s) (c_str t) <? 0
    | arrayValue _, arrayValue _ | objectValue _, objectValue _ =>
      if negb (length (members v) =? length (members w))%nat then (length (members v) <? length (members w))%nat
      else lexicographical_compare (pair_lt czstring_lt (lt_fuel fuel)) (members v) (members w)
    | _, _ => type_of v <? type_of w
    end
  end.
Fixpoint eq_fuel (fuel : nat) (v w : Value) : bool :=
  match fuel with
  | O => false
  | S fuel =>
    match v, w with
    | nullValue, nullValue => true
    | intValue i, intValue j => i =? j
    | uintValue i, uintValue j => i =? j
    | realValue m e, realValue m' e' => is_Eq (real_compare m e m' e')
    | booleanValue b, booleanValue c => Bool.eqb b c
    | stringValue s, stringValue t => strcmp (c_str s) (c_str t) =? 0
    | arrayValue _, arrayValue _ | objectValue _, objectValue _ =>
      (length (members v) =? length (members w))%nat &&
      equal (pair_eq czstring_eq (eq_fuel fuel)) (members v) (members w)
    | _, _ => false
    end
  end.
Fixpoint depth (v : Value) : nat :=
  match v with
  | arrayValue l => S (max_list_with depth l)
  | objectValue l => S (max_list_with (fun kv => let '(_, v) := kv in depth v) l)
  | _ => O
  end.
Definition nesting (v w : Value) : nat := S (depth v + depth w).
Definition operator_lt (v w : Value) : bool := lt_fuel (nesting v w) v w.
Definition operator_eq (v w : Value) : bool := eq_fuel (nesting v w) v w.
Definition operator_gt (v w : Value) : bool := operator_lt w v.
Definition operator_le (v w : Value) : bool := negb (operator_lt w v).
Definition operator_ge (v w : Value) : bool := negb (operator_lt v w).
Definition operator_ne (v w : Value) : bool := negb (operator_eq v w).
Definition compare (v w : Value) : Z := if operator_lt v w then -1 else if operator_gt v w then 1 else 0.

(** ** A three-way comparison *)
Definition and_then_compare (c d : comparison) : comparison := match c with Eq => d | _ => c end.
Fixpoint lex {A} (cmp : A -> A -> comparison) (l m : list A) : comparison :=
  match l, m with
  | [], [] => Eq
  | [], _ => Lt
  | _, [] => Gt
  | x :: l, y :: m => and_then_compare (cmp x y) (lex cmp l m)
  end.
Definition compare_lists {A} (cmp : A -> A -> comparison) (l m : list A) : comparison :=
  and_then_compare (Nat.compare (length l) (length m)) (lex cmp l m).
Definition compare_text (s t : list Z) : comparison := lex Z.compare (c_str s) (c_str t).
Definition compare_bool (b c : bool) : comparison := Z.compare (Z.b2z b) (Z.b2z c).
Fixpoint value_compare (v w : Value) : comparison :=
  match v, w with
  | nullValue, nullValue => Eq
  | intValue i, intValue j | uintValue i, uintValue j => i ?= j
  | realValue m e, realValue m' e' => real_compare m e m' e'
  | booleanValue b, booleanValue c => compare_bool b c
  | stringValue s, stringValue t => compare_text s t
  | arrayValue l, arrayValue m => compare_lists value_compare l m
  | objectValue l, objectValue m =>
    compare_lists (fun a b => let '(k, v) := a in let '(k', v') := b in
      and_then_compare (compare_text (bytes k) (bytes k')) (value_compare v v')) l m
  | _, _ => type_of v ?= type_of w
  end.

(** ** It is an order *)
(** What transitivity says of the comparisons of three things. *)
Definition agree (c1 c2 c3 : comparison) : Prop :=
  (c1 = Eq -> c3 = c2) /\ (c2 = Eq -> c3 = c1) /\ (c1 = c2 -> c3 = c1).
Lemma agree_then a1 a2 a3 b1 b2 b3 : agree a1 a2 a3 -> agree b1 b2 b3 ->
  agree (and_then_compare a1 b1) (and_then_compare a2 b2) (and_then_compare a3 b3).
Proof.
  unfold agree. intros (H1 & H2 & H3) (G1 & G2 & G3).
  destruct a1, a2; cbn; try (specialize (H1 eq_refl)); try (specialize (H2 eq_refl)); try (specialize (H3 eq_refl)); subst; cbn;
    try (split_and!; (done || congruence)); by split_and!.
Qed.
Lemma agree_Z x y z : agree (x ?= y) (y ?= z) (x ?= z).
Proof. unfold agree. destruct (Z.compare_spec x y), (Z.compare_spec y z), (Z.compare_spec x z); split_and!; (done || lia). Qed.
Lemma agree_nat x y z : agree (Nat.compare x y) (Nat.compare y z) (Nat.compare x z).
Proof. unfold agree. destruct (Nat.compare_spec x y), (Nat.compare_spec y z), (Nat.compare_spec x z); split_and!; (done || lia). Qed.
Section lists.
Context {A : Type} (cmp : A -> A -> comparison).
Lemma lex_agree l : Forall (fun x => forall y z, agree (cmp x y) (cmp y z) (cmp x z)) l ->
  forall m n, agree (lex cmp l m) (lex cmp m n) (lex cmp l n).
Proof. induction 1 as [|x l Hx _ IH]; intros [|y m] [|z n]; cbn; try (by split_and!). by apply agree_then. Qed.
Lemma lex_antisym l : Forall (fun x => forall y, cmp y x = CompOpp (cmp x y)) l -> forall m, lex cmp m l = CompOpp (lex cmp l m).
Proof. induction 1 as [|x l Hx _ IH]; intros [|y m]; cbn; try done. rewrite Hx, IH. by destruct (cmp x y). Qed.
Lemma compare_lists_agree l : Forall (fun x => forall y z, agree (cmp x y) (cmp y z) (cmp x z)) l ->
  forall m n, agree (compare_lists cmp l m) (compare_lists cmp m n) (compare_lists cmp l n).
Proof. intros H m n. apply agree_then; [apply agree_nat|by apply lex_agree]. Qed.
Lemma compare_lists_antisym l : Forall (fun x => forall y, cmp y x = CompOpp (cmp x y)) l ->
  forall m, compare_lists cmp m l = CompOpp (compare_lists cmp l m).
Proof.
  intros H m. unfold compare_lists. rewrite (lex_antisym l H m), Nat.compare_antisym. by destruct (Nat.compare _ _).
Qed.
End lists.
Lemma compare_text_agree s t u : agree (compare_text s t) (compare_text t u) (compare_text s u).
Proof. apply lex_agree, List.Forall_forall. intros x _ y z. apply agree_Z. Qed.
Lemma compare_text_antisym s t : compare_text t s = CompOpp (compare_text s t).
Proof. apply lex_antisym, List.Forall_forall. intros x _ y. apply Z.compare_antisym. Qed.
(** Doubles are compared at any scale that makes them integers. *)
Lemma real_compare_scale k m e m' e' : k <= e -> k <= e' -> real_compare m e m' e' = (m * 2 ^ (e - k) ?= m' * 2 ^ (e' - k)).
Proof.
  intros He He'. unfold real_compare. set (q := Z.min e e').
  replace (e - k) with (e - q + (q - k)) by lia. replace (e' - k) with (e' - q + (q - k)) by lia.
  rewrite !Z.pow_add_r, !Z.mul_assoc by lia. apply Zmult_compare_compat_r. pose proof (Z.pow_pos_nonneg 2 (q - k)). lia.
Qed.
Lemma real_compare_agree m e m' e' m'' e'' : agree (real_compare m e m' e') (real_compare m' e' m'' e'') (real_compare m e m'' e'').
Proof. rewrite !(real_compare_scale (Z.min e (Z.min e' e''))) by lia. apply agree_Z. Qed.
Lemma real_compare_antisym m e m' e' : real_compare m' e' m e = CompOpp (real_compare m e m' e').
Proof. rewrite !(real_compare_scale (Z.min e e')) by lia. apply Z.compare_antisym. Qed.
Lemma agree_types (c1 c2 c3 : comparison) : c1 <> Eq -> c3 = c1 -> c1 = c2 -> agree c1 c2 c3.
Proof. intros ? -> ->. by split_and!. Qed.
Lemma value_compare_antisym v : forall w, value_compare w v = CompOpp (value_compare v w).
Proof.
  induction v as [|i|u|m e|s|b|l IH|l IH] using Value_nested_ind; intros [|i'|u'|m' e'|s'|b'|l'|l']; try done; cbn [value_compare].
  - apply Z.compare_antisym.
  - apply Z.compare_antisym.
  - apply real_compare_antisym.
  - apply compare_text_antisym.
  - apply Z.compare_antisym.
  - by apply compare_lists_antisym.
  - apply compare_lists_antisym. apply (List.Forall_impl _) with (2 := IH). intros [k v] Hv [k' v']. cbn in Hv.
    rewrite Hv, compare_text_antisym. by destruct (compare_text _ _).
Qed.
Lemma value_compare_agree v : forall w x, agree (value_compare v w) (value_compare w x) (value_compare v x).
Proof.
  induction v as [|i|u|m e|s|b|l IH|l IH] using Value_nested_ind;
    intros [|i'|u'|m' e'|s'|b'|l'|l'] [|i''|u''|m'' e''|s''|b''|l''|l'']; cbn [value_compare]; try (by cbn; split_and!);
    try (by (cbn; split_and!; congruence)).
  - apply agree_Z.
  - apply agree_Z.
  - apply real_compare_agree.
  - apply compare_text_agree.
  - apply agree_Z.
  - by apply compare_lists_agree.
  - apply compare_lists_agree. apply (List.Forall_impl _) with (2 := IH). intros [k v] Hv [k' v'] [k'' v''].
    apply agree_then; [apply compare_text_agree|apply Hv].
Qed.
Lemma value_compare_refl v : value_compare v v = Eq.
Proof. pose proof (value_compare_antisym v v). by destruct (value_compare v v). Qed.

(** ** The operators compute it *)
Lemma strcmp_compare s : forall t, strcmp s t = match lex Z.compare s t with Lt => -1 | Eq => 0 | Gt => 1 end.
Proof.
  induction s as [|x s IH]; intros [|y t]; cbn [strcmp lex]; try done.
  destruct (Z.compare_spec x y) as [->|H|H]; cbn [and_then_compare].
  - by rewrite Z.ltb_irrefl, IH.
  - by rewrite (proj2 (Z.ltb_lt _ _)).
  - by rewrite (proj2 (Z.ltb_ge _ _)), (proj2 (Z.ltb_lt _ _)) by lia.
Qed.
(** [lt] and [eq] compute [cmp] on these two. *)
Definition computes {A} (cmp : A -> A -> comparison) (lt eq : A -> A -> bool) (x y : A) : Prop :=
  lt x y = is_Lt (cmp x y) /\ lt y x = is_Lt (CompOpp (cmp x y)) /\ eq x y = is_Eq (cmp x y).
Lemma lists_compute {A} cmp (lt eq : A -> A -> bool) l : forall m,
  (forall x y, x ∈ l -> y ∈ m -> computes cmp lt eq x y) ->
  lexicographical_compare lt l m = is_Lt (lex cmp l m) /\ equal eq l m = is_Eq (lex cmp l m).
Proof.
  induction l as [|x l IH]; intros [|y m] H; cbn [lexicographical_compare equal lex]; try done.
  destruct (H x y) as (H1 & H2 & H3); [by left|by left|]. rewrite H1, H2, H3.
  destruct (IH m) as [IH1 IH2]; [intros; apply H; by right|]. rewrite IH1, IH2. by destruct (cmp x y).
Qed.
Lemma text_computes s t : computes compare_text (fun s t => strcmp (c_str s) (c_str t) <? 0) (fun s t => strcmp (c_str s) (c_str t) =? 0) s t.
Proof.
  unfold computes. rewrite <- compare_text_antisym, !strcmp_compare. fold (compare_text s t) (compare_text t s).
  by destruct (compare_text s t), (compare_text t s).
Qed.
Definition compare_member (a b : CZString * Value) : comparison :=
  and_then_compare
    (match a.1, b.1 with Index i, Index j => Nat.compare i j | Name s, Name t => lex Z.compare s t | _, _ => Eq end)
    (value_compare a.2 b.2).
Lemma lex_array l : forall m f, length l = length m ->
  lex compare_member (imap (fun i v => (Index (f + i)%nat, v)) l) (imap (fun i v => (Index (f + i)%nat, v)) m) = lex value_compare l m.
Proof.
  induction l as [|x l IH]; intros [|y m] f [=]; [done|]. cbn [imap lex]. unfold compare_member at 1. cbn [fst snd].
  rewrite Nat.compare_refl. cbn [and_then_compare]. f_equal. rewrite <- (IH m (S f)) by done.
  by f_equal; apply imap_ext; intros i z _; cbn; rewrite Nat.add_succ_r.
Qed.
Lemma lex_object l : forall m,
  lex compare_member (map (fun kv => (Name (c_str (bytes kv.1)), kv.2)) l) (map (fun kv => (Name (c_str (bytes kv.1)), kv.2)) m) =
  lex (fun a b => let '(k, v) := a in let '(k', v') := b in
    and_then_compare (compare_text (bytes k) (bytes k')) (value_compare v v')) l m.
Proof. induction l as [|[k v] l IH]; intros [|[k' v'] m]; try done. cbn [map lex]. by rewrite IH. Qed.
Lemma compare_arrays l m : compare_lists compare_member (members (arrayValue l)) (members (arrayValue m)) = compare_lists value_compare l m.
Proof.
  unfold compare_lists. cbn [members]. rewrite !length_imap. destruct (Nat.compare_spec (length l) (length m)) as [E| |]; [|done..].
  exact (lex_array l m 0 E).
Qed.
Lemma compare_objects l m : compare_lists compare_member (members (objectValue l)) (members (objectValue m)) =
  value_compare (objectValue l) (objectValue m).
Proof. unfold compare_lists. cbn [members]. rewrite !length_map, lex_object. done. Qed.
Definition one_kind (a b : CZString) : Prop := match a, b with Index _, Index _ | Name _, Name _ => True | _, _ => False end.
Lemma pair_computes lt eq a b : one_kind a.1 b.1 -> computes value_compare lt eq a.2 b.2 ->
  computes compare_member (pair_lt czstring_lt lt) (pair_eq czstring_eq eq) a b.
Proof.
  destruct a as [[i|s] v], b as [[j|t] w]; try done; intros _ (H1 & H2 & H3); cbn [snd] in *;
    unfold computes, pair_lt, pair_eq, compare_member; cbn [fst snd czstring_lt czstring_eq]; rewrite H1, H2, H3.
  - destruct (Nat.compare_spec i j) as [->|H|H]; [rewrite Nat.ltb_irrefl, Nat.eqb_refl; by destruct (value_compare v w)| |].
    all: rewrite (proj2 (Nat.ltb_lt _ _) H), (proj2 (Nat.ltb_ge _ _)), (proj2 (Nat.eqb_neq _ _)) by lia; by destruct (value_compare v w).
  - rewrite !strcmp_compare. rewrite (lex_antisym Z.compare s) by (apply List.Forall_forall; intros x _ y; apply Z.compare_antisym).
    by destruct (lex Z.compare s t), (value_compare v w).
Qed.
Lemma depth_le {A} (f : A -> nat) l x : x ∈ l -> (f x <= max_list_with f l)%nat.
Proof. induction 1; cbn; lia. Qed.
Lemma array_member_depth l a : a ∈ members (arrayValue l) -> (depth a.2 < depth (arrayValue l))%nat /\ exists i, a.1 = Index i.
Proof.
  intros (i & x & -> & Hx)%elem_of_lookup_imap. cbn [members snd fst depth]. split; [|by exists i].
  apply Nat.lt_succ_r, (depth_le depth). by eapply list_elem_of_lookup_2.
Qed.
Lemma object_member_depth l a : a ∈ members (objectValue l) -> (depth a.2 < depth (objectValue l))%nat /\ exists s, a.1 = Name s.
Proof.
  cbn [members]. intros ([k v] & -> & Hx)%list_elem_of_fmap. cbn [fst snd depth]. split; [|by eexists].
  apply Nat.lt_succ_r. exact (depth_le (fun kv => let '(_, v) := kv in depth v) l (k, v) Hx).
Qed.
Lemma sizes_compute (l' e : bool) (n m : nat) (c : comparison) :
  (n = m -> l' = is_Lt c /\ e = is_Eq c) ->
  (if negb (n =? m)%nat then (n <? m)%nat else l') = is_Lt (and_then_compare (Nat.compare n m) c) /\
  ((n =? m)%nat && e) = is_Eq (and_then_compare (Nat.compare n m) c).
Proof.
  destruct (Nat.compare_spec n m) as [E|H|H]; intros He.
  - rewrite (proj2 (Nat.eqb_eq _ _) E). by destruct (He E) as [-> ->].
  - by rewrite (proj2 (Nat.eqb_neq _ _)), (proj2 (Nat.ltb_lt _ _)) by lia.
  - by rewrite (proj2 (Nat.eqb_neq _ _)), (proj2 (Nat.ltb_ge _ _)) by lia.
Qed.
Lemma containers_compute fuel v w : (forall a b, a ∈ members v -> b ∈ members w ->
    one_kind a.1 b.1 /\ computes value_compare (lt_fuel fuel) (eq_fuel fuel) a.2 b.2) ->
  let cmp := compare_lists compare_member (members v) (members w) in
  (if negb (length (members v) =? length (members w))%nat then (length (members v) <? length (members w))%nat
   else lexicographical_compare (pair_lt czstring_lt (lt_fuel fuel)) (members v) (members w)) =
    is_Lt cmp /\
  ((length (members v) =? length (members w))%nat && equal (pair_eq czstring_eq (eq_fuel fuel)) (members v) (members w)) = is_Eq cmp.
Proof.
  intros H. apply sizes_compute. intros Hl. apply lists_compute.
  intros a b Ha Hb. destruct (H a b Ha Hb). by apply pair_computes.
Qed.
(** Only half of [computes], so that it is shown for both orders at once. *)
Definition half (fuel : nat) (v w : Value) : Prop :=
  lt_fuel fuel v w = is_Lt (value_compare v w) /\ eq_fuel fuel v w = is_Eq (value_compare v w).
Lemma half_computes fuel v w : half fuel v w -> half fuel w v -> computes value_compare (lt_fuel fuel) (eq_fuel fuel) v w.
Proof. intros [H1 H2] [H3 _]. split; [done|split; [|done]]. by rewrite H3, (value_compare_antisym v w). Qed.
Lemma fuel_half fuel : forall v w, (depth v < fuel)%nat -> (depth w < fuel)%nat -> half fuel v w.
Proof.
  induction fuel as [|fuel IH]; intros v w Hv Hw; [lia|].
  assert (Hin : forall a b, (depth a < depth v)%nat -> (depth b < depth w)%nat -> computes value_compare (lt_fuel fuel) (eq_fuel fuel) a b)
    by (intros a b Ha Hb; apply half_computes; apply IH; lia).
  destruct v as [|i|u|m e|s|b|l|l], w as [|i'|u'|m' e'|s'|b'|l'|l']; try by split.
  - unfold half. cbn. split; [done|]. by destruct (Z.compare_spec i i') as [->|H|H]; [rewrite Z.eqb_refl|rewrite (proj2 (Z.eqb_neq _ _)) by lia..].
  - unfold half. cbn. split; [done|]. by destruct (Z.compare_spec u u') as [->|H|H]; [rewrite Z.eqb_refl|rewrite (proj2 (Z.eqb_neq _ _)) by lia..].
  - destruct (text_computes s s') as (H1 & _ & H3). by split.
  - by destruct b, b'.
  - unfold half. cbn [value_compare]. rewrite <- compare_arrays. apply containers_compute.
    intros a b (Ha & i & ->)%array_member_depth (Hb & j & ->)%array_member_depth. split; [done|by apply Hin].
  - unfold half. rewrite <- compare_objects. apply containers_compute.
    intros a b (Ha & i & ->)%object_member_depth (Hb & j & ->)%object_member_depth. split; [done|by apply Hin].
Qed.
Lemma operator_lt_compare v w : operator_lt v w = is_Lt (value_compare v w).
Proof. apply fuel_half; unfold nesting; lia. Qed.
Lemma operator_eq_compare v w : operator_eq v w = is_Eq (value_compare v w).
Proof. apply fuel_half; unfold nesting; lia. Qed.

Definition equivalent (v w : Value) : Prop := operator_eq v w = true.
Lemma equivalent_compare v w : equivalent v w <-> value_compare v w = Eq.
Proof. unfold equivalent. rewrite operator_eq_compare. by destruct (value_compare v w). Qed.
Lemma less_compare v w : operator_lt v w = true <-> value_compare v w = Lt.
Proof. rewrite operator_lt_compare. by destruct (value_compare v w). Qed.
(** [operator<] is a strict order of the values, whatever their types and nesting,
    [operator==] the equivalence under which neither of two is smaller, and [compare] and
    the other operators say the same. *)
Theorem values_are_ordered :
  StrictOrder (fun v w => operator_lt v w = true) /\ Equivalence equivalent /\
  Proper (equivalent ==> equivalent ==> eq) operator_lt /\
  (forall v w,
    (compare v w = -1 <-> operator_lt v w = true) /\ (compare v w = 0 <-> operator_eq v w = true) /\
    (compare v w = 1 <-> operator_gt v w = true) /\ compare w v = - compare v w /\
    operator_le v w = (compare v w <=? 0) /\ operator_ge v w = (0 <=? compare v w) /\ operator_ne v w = negb (operator_eq v w)).
Proof.
  split; [split|split; [split|split]].
  - intros v H%less_compare. by rewrite value_compare_refl in H.
  - intros v w x Hv%less_compare Hw%less_compare. apply less_compare. destruct (value_compare_agree v w x) as (_ & _ & ->); congruence.
  - intros v. apply equivalent_compare, value_compare_refl.
  - intros v w H%equivalent_compare. apply equivalent_compare. by rewrite (value_compare_antisym v w), H.
  - intros v w x Hv%equivalent_compare Hw%equivalent_compare. apply equivalent_compare.
    destruct (value_compare_agree v w x) as (-> & _ & _); congruence.
  - intros v v' Hv%equivalent_compare w w' Hw%equivalent_compare. rewrite !operator_lt_compare.
    destruct (value_compare_agree v v' w) as (-> & _ & _), (value_compare_agree v' w w') as (_ & -> & _); done.
  - intros v w. unfold compare, operator_le, operator_ge, operator_ne, operator_gt. rewrite !operator_lt_compare, operator_eq_compare.
    rewrite (value_compare_antisym v w). by destruct (value_compare v w).
Qed.

(** The type comes before the number and the size before the elements. *)
Example order_by_type_and_size :
  operator_lt (intValue 2) (uintValue 1) = true /\ operator_eq (intValue 1) (uintValue 1) = false /\
  operator_lt (arrayValue [intValue 9]) (arrayValue [intValue 1; intValue 1]) = true /\
  operator_lt (objectValue [("a"%string, intValue 1)]) (objectValue [("a"%string, intValue 2)]) = true /\
  operator_eq (realValue 2 0) (realValue 1 1) = true.
Proof. vm_compute. done. Qed.
