(* ===== verification/JsonPath.v ===== *)
(** * json/jsoncpp.cpp: arrays and objects as maps, and paths

    In the code an array and an object have the same [std::map], from indices or from names to
    values, so an array may have holes; Json.v, which serves the SDK's own calls, has the arrays without
    holes that Reader makes.  Here are the operations that may leave holes or tell a missing element from a null
    one, and [Path], which walks through both.  Scalars are those of Json.v.  An operation
    that throws is [None]; a reference that is returned is given as the function that is applied to it. *)
From S2P Require Import Prelude Text Json JsonOrder.

#[local] Unset Elimination Schemes.
Inductive Node :=
  | Scalar (value : Value)
  | Array (map_ : list (CZString * Node))
  | Object (map_ : list (CZString * Node)).
#[local] Set Elimination Schemes.
Definition null : Node := Scalar nullValue.
Definition is_null (n : Node) : bool := match n with Scalar nullValue => true | _ => false end.
Definition isArray (n : Node) : bool := match n with Array _ => true | _ => false end.
Definition isObject (n : Node) : bool := match n with Object _ => true | _ => false end.

(** ** The map *)
Fixpoint find (k : CZString) (l : list (CZString * Node)) : option Node :=
  match l with [] => None | (k', n) :: l => if czstring_eq k' k then Some n else find k l end.
(** [lower_bound], and insertion there or assignment. *)
Fixpoint insert_at (k : CZString) (n : Node) (l : list (CZString * Node)) : list (CZString * Node) :=
  match l with
  | [] => [(k, n)]
  | (k', n') :: l' => if czstring_lt k' k then (k', n') :: insert_at k n l' else if czstring_eq k' k then (k, n) :: l' else (k, n) :: l
  end.
Fixpoint erase_key (k : CZString) (l : list (CZString * Node)) : list (CZString * Node) :=
  match l with [] => [] | (k', n) :: l => if czstring_eq k' k then l else (k', n) :: erase_key k l end.

(** ** Elements and members *)
Definition size (n : Node) : Z :=
  match n with
  | Scalar _ => 0
  | Array l => match list.last l with Some (Index i, _) => u32 (Z.of_nat i + 1) | _ => 0 end
  | Object l => u32 (Z.of_nat (length l))
  end.
Definition empty (n : Node) : bool := if is_null n || isArray n || isObject n then size n =? 0 else false.
(** [operator[]] that may change the value: the element is made if it is missing, and [f] is what is done to it. *)
Definition modify_key (k : CZString) (f : Node -> option Node) (l : list (CZString * Node)) : option (list (CZString * Node)) :=
  n ← f (default null (find k l)); Some (insert_at k n l).
Definition index_array (i : nat) (f : Node -> option Node) (n : Node) : option Node :=
  match n with
  | Scalar nullValue => Array <$> modify_key (Index i) f []
  | Array l => Array <$> modify_key (Index i) f l
  | _ => None
  end.
Definition resolveReference (key : list Z) (f : Node -> option Node) (n : Node) : option Node :=
  match n with
  | Scalar nullValue => Object <$> modify_key (Name (c_str key)) f []
  | Object l => Object <$> modify_key (Name (c_str key)) f l
  | _ => None
  end.
(** The constant [operator[]]; the element [None] is [Value::null] itself. *)
Definition element (i : nat) (n : Node) : option (option Node) :=
  match n with Scalar nullValue => Some None | Array l => Some (find (Index i) l) | _ => None end.
Definition member (key : list Z) (n : Node) : option (option Node) :=
  match n with Scalar nullValue => Some None | Object l => Some (find (Name (c_str key)) l) | _ => None end.
Definition get_index (i : nat) (defaultValue : Node) (n : Node) : option Node := default defaultValue <$> element i n.
Definition get_member (key : list Z) (defaultValue : Node) (n : Node) : option Node := default defaultValue <$> member key n.
Definition isValidIndex (i : nat) (n : Node) : bool := Z.of_nat i <? size n.
Definition isMember (key : list Z) (n : Node) : option bool :=
  (fun n => match n with Some _ => true | None => false end) <$> member key n.
Definition append (v : Node) (n : Node) : option Node := index_array (Z.to_nat (size n)) (fun _ => Some v) n.
Definition clear (n : Node) : option Node :=
  match n with Scalar nullValue => Some n | Array _ => Some (Array []) | Object _ => Some (Object []) | _ => None end.
Definition erase_indices (newSize oldSize : nat) (l : list (CZString * Node)) : list (CZString * Node) :=
  foldl (fun l i => erase_key (Index i) l) l (seq newSize (oldSize - newSize)).
Definition resize (newSize : nat) (n : Node) : option Node :=
  match n with
  | Scalar nullValue | Array _ =>
    let n := match n with Array _ => n | _ => Array [] end in
    let oldSize := Z.to_nat (size n) in
    if (newSize =? 0)%nat then clear n
    else if (oldSize <? newSize)%nat then index_array (newSize - 1) Some n
    else match n with Array l => Some (Array (erase_indices newSize oldSize l)) | _ => None end
  | _ => None
  end.
(** The value after, and what is returned. *)
Definition removeMember (key : list Z) (n : Node) : option (Node * Node) :=
  match n with
  | Scalar nullValue => Some (n, null)
  | Object l =>
    match find (Name (c_str key)) l with
    | None => Some (n, null)
    | Some old => Some (Object (erase_key (Name (c_str key)) l), old)
    end
  | _ => None
  end.
Definition getMemberNames (n : Node) : option (list (list Z)) :=
  match n with
  | Scalar nullValue => Some []
  | Object l => Some (map (fun kn => match kn.1 with Name s => s | Index _ => [] end) l)
  | _ => None
  end.

(** ** Paths *)
Inductive PathArgument := kindNone | kindIndex (index_ : nat) | kindKey (key_ : list Z).
(** The digits of an index. *)
Fixpoint scan_index (index : Z) (l : list Z) : Z * list Z :=
  match l with
  | [] => (index, [])
  | c :: l' => if is_digit c then scan_index (u32 (u32 (index * 10) + u32 (c - 48))) l' else (index, l)
  end.
(** [strchr("[.", c)] finds the NUL that ends its text, too. *)
Definition ends_name (c : Z) : bool := (c =? 91) || (c =? 46) || (c =? 0).
Fixpoint scan_name (l : list Z) : list Z * list Z :=
  match l with
  | [] => ([], [])
  | c :: l' => if ends_name c then ([], l) else let '(name, rest) := scan_name l' in (c :: name, rest)
  end.
Definition same_kind (a : PathArgument) (index : bool) : bool :=
  match a with kindIndex _ => index | kindKey _ => negb index | kindNone => false end.
(** [itInArg] is not moved. *)
Definition addPathInArg (inArgs : list PathArgument) (index : bool) : list PathArgument :=
  match inArgs with [] => [] | a :: _ => if same_kind a index then [a] else [] end.
(** What is behind an index: [invalidPath] does nothing, and one character is skipped in any case. *)
Definition skip_bracket (l : list Z) : list Z := match l with [] => [] | _ :: l => l end.
Fixpoint makePath_loop (fuel : nat) (inArgs : list PathArgument) (l : list Z) : option (list PathArgument) :=
  match fuel with
  | O => None
  | S fuel =>
    match l with
    | [] => Some []
    | c :: l' =>
      if c =? 91 then
        if bool_decide (head l' = Some 37) then app (addPathInArg inArgs true) <$> makePath_loop fuel inArgs (skip_bracket l')
        else let '(i, rest) := scan_index 0 l' in cons (kindIndex (Z.to_nat i)) <$> makePath_loop fuel inArgs (skip_bracket rest)
      else if c =? 37 then app (addPathInArg inArgs false) <$> makePath_loop fuel inArgs l'
      else if c =? 46 then makePath_loop fuel inArgs l'
      else let '(name, rest) := scan_name l in cons (kindKey (c_str name)) <$> makePath_loop fuel inArgs rest
    end
  end.
(** Each turn takes a character, but for a NUL. *)
Definition Path (path : list Z) (inArgs : list PathArgument) : option (list PathArgument) := makePath_loop (S (length path)) inArgs path.

Fixpoint resolve (args : list PathArgument) (node : Node) : option Node :=
  match args with
  | [] => Some node
  | kindNone :: args => resolve args node
  | kindIndex i :: args => n ← element i node; resolve args (default null n)
  | kindKey key :: args => n ← member key node; resolve args (default null n)
  end.
Fixpoint resolve_or (defaultValue : Node) (args : list PathArgument) (node : Node) : option Node :=
  match args with
  | [] => Some node
  | kindNone :: args => resolve_or defaultValue args node
  | kindIndex i :: args =>
    if negb (isArray node) || negb (isValidIndex i node) then Some defaultValue
    else n ← element i node; resolve_or defaultValue args (default null n)
  | kindKey key :: args =>
    if negb (isObject node) then Some defaultValue
    else n ← member key node; match n with None => Some defaultValue | Some n => resolve_or defaultValue args n end
  end.
Fixpoint make (args : list PathArgument) (f : Node -> option Node) (node : Node) : option Node :=
  match args with
  | [] => f node
  | kindNone :: args => make args f node
  | kindIndex i :: args => index_array i (make args f) node
  | kindKey key :: args => resolveReference key (make args f) node
  end.

(** ** Laws of the map *)
Lemma strcmp_eq s : forall t, (strcmp s t =? 0) = bool_decide (s = t).
Proof.
  induction s as [|x s IH]; intros [|y t]; cbn [strcmp]; try (symmetry; by case_bool_decide).
  destruct (Z.ltb_spec x y), (Z.ltb_spec y x); try lia; cbn [Z.eqb Z.compare]; try (symmetry; rewrite bool_decide_eq_false; intros [=]; lia).
  rewrite IH. assert (x = y) as -> by lia. case_bool_decide as E1; case_bool_decide as E2; congruence.
Qed.
Lemma czstring_eq_spec k k' : czstring_eq k k' = true <-> k = k'.
Proof.
  destruct k as [i|s], k' as [j|t]; cbn; try done; [rewrite Nat.eqb_eq|rewrite strcmp_eq, bool_decide_eq_true]; (split; [congruence|by intros [=]]).
Qed.
Lemma czstring_lt_irrefl k : czstring_lt k k = false.
Proof.
  destruct k as [i|s]; cbn; [apply Nat.ltb_irrefl|]. assert (Hs : (strcmp s s =? 0) = true) by (rewrite strcmp_eq; by apply bool_decide_eq_true).
  propify. rewrite Hs. done.
Qed.
Lemma find_insert_at k n l k' : find k' (insert_at k n l) = if czstring_eq k k' then Some n else find k' l.
Proof.
  induction l as [|[x m] l IH]; cbn [insert_at find]; [done|]. destruct (czstring_lt x k) eqn:El; cbn [find].
  - rewrite IH. destruct (czstring_eq x k') eqn:E1; [|done]. apply czstring_eq_spec in E1 as ->.
    destruct (czstring_eq k k') eqn:E2; [|done]. apply czstring_eq_spec in E2 as ->. by rewrite czstring_lt_irrefl in El.
  - destruct (czstring_eq x k) eqn:E1; cbn [find]; [|done]. apply czstring_eq_spec in E1 as ->. by destruct (czstring_eq k k').
Qed.
Lemma czstring_eq_refl k : czstring_eq k k = true.
Proof. by apply czstring_eq_spec. Qed.
Lemma find_erase_key k l k' : czstring_eq k k' = false -> find k' (erase_key k l) = find k' l.
Proof.
  intros Hk. induction l as [|[x m] l IH]; cbn [erase_key find]; [done|]. destruct (czstring_eq x k) eqn:E1; cbn [find]; [|by rewrite IH].
  apply czstring_eq_spec in E1 as ->. by rewrite Hk.
Qed.

(** ** Paths *)
(** A path leads to the node that [resolve] reads, and what is done to it is what [resolve] reads then. *)
Lemma modify_key_Some k f l l' : modify_key k f l = Some l' -> exists n, f (default null (find k l)) = Some n /\
  forall k', find k' l' = if czstring_eq k k' then Some n else find k' l.
Proof.
  unfold modify_key. destruct (f _) as [n|] eqn:E; [|done]. cbn. intros [= <-]. exists n. split; [done|]. intros k'. apply find_insert_at.
Qed.
Lemma index_array_Some i f n n' : index_array i f n = Some n' -> exists e m, element i n = Some e /\ f (default null e) = Some m /\
  forall j, element j n' = if (i =? j)%nat then Some (Some m) else element j n.
Proof.
  intros E. destruct n as [[]|l|l]; try discriminate E; cbn [index_array element] in *.
  - destruct (modify_key _ _ _) as [l'|] eqn:Em; [|done]. cbn in E. injection E as <-. destruct (modify_key_Some _ _ _ _ Em) as (m & Hm & Hf).
    exists None, m. split; [done|]. split; [done|]. intros j. cbn [element]. rewrite Hf. cbn. by destruct (i =? j)%nat.
  - destruct (modify_key _ _ _) as [l'|] eqn:Em; [|done]. cbn in E. injection E as <-. destruct (modify_key_Some _ _ _ _ Em) as (m & Hm & Hf).
    exists (find (Index i) l), m. split; [done|]. split; [done|]. intros j. cbn [element]. rewrite Hf. cbn. by destruct (i =? j)%nat.
Qed.
Lemma resolveReference_Some key f n n' : resolveReference key f n = Some n' -> exists e m, member key n = Some e /\ f (default null e) = Some m /\
  forall key', member key' n' = if bool_decide (c_str key = c_str key') then Some (Some m) else member key' n.
Proof.
  assert (HE : forall key', czstring_eq (Name (c_str key)) (Name (c_str key')) = bool_decide (c_str key = c_str key')) by (intros; cbn; apply strcmp_eq).
  intros E. destruct n as [[]|l|l]; try discriminate E; cbn [resolveReference member] in *.
  - destruct (modify_key _ _ _) as [l'|] eqn:Em; [|done]. cbn in E. injection E as <-. destruct (modify_key_Some _ _ _ _ Em) as (m & Hm & Hf).
    exists None, m. split; [done|]. split; [done|]. intros k. cbn [member]. rewrite Hf, HE. by case_bool_decide.
  - destruct (modify_key _ _ _) as [l'|] eqn:Em; [|done]. cbn in E. injection E as <-. destruct (modify_key_Some _ _ _ _ Em) as (m & Hm & Hf).
    exists (find (Name (c_str key)) l), m. split; [done|]. split; [done|]. intros k. cbn [member]. rewrite Hf, HE. by case_bool_decide.
Qed.
Lemma make_resolve args f : forall node node', make args f node = Some node' ->
  exists n m, resolve args node = Some n /\ f n = Some m /\ resolve args node' = Some m.
Proof.
  induction args as [|[|i|key] args IH]; intros node node' E; cbn [make resolve] in *; [by exists node, node'|by apply IH| |].
  - apply index_array_Some in E as (e & m & He & Hm & Hj). destruct (IH _ _ Hm) as (n & m' & Hn & Hf & Hr). exists n, m'.
    rewrite He, Hj, Nat.eqb_refl. by cbn.
  - apply resolveReference_Some in E as (e & m & He & Hm & Hj). destruct (IH _ _ Hm) as (n & m' & Hn & Hf & Hr). exists n, m'.
    rewrite He, Hj, bool_decide_eq_true_2 by done. by cbn.
Qed.
(** Two paths that part at some index or at some name. *)
Inductive apart : list PathArgument -> list PathArgument -> Prop :=
  | apart_index i j p q : i <> j -> apart (kindIndex i :: p) (kindIndex j :: q)
  | apart_key s t p q : c_str s <> c_str t -> apart (kindKey s :: p) (kindKey t :: q)
  | apart_later a p q : apart p q -> apart (a :: p) (a :: q).
Lemma make_apart p q f : apart p q -> forall node node', make p f node = Some node' -> resolve q node' = resolve q node.
Proof.
  induction 1 as [i j p q Hij|s t p q Hst|[|i|key] p q _ IH]; intros node node' E; cbn [make resolve] in *; [| |by apply IH|..].
  - apply index_array_Some in E as (e & m & He & Hm & Hj). rewrite Hj. by apply Nat.eqb_neq in Hij as ->.
  - apply resolveReference_Some in E as (e & m & He & Hm & Hj). by rewrite Hj, bool_decide_eq_false_2.
  - apply index_array_Some in E as (e & m & He & Hm & Hj). rewrite He, Hj, Nat.eqb_refl. cbn. by apply IH.
  - apply resolveReference_Some in E as (e & m & He & Hm & Hj). rewrite He, Hj, bool_decide_eq_true_2 by done. cbn. by apply IH.
Qed.

(** *** The text of a path *)
Definition print_argument (a : PathArgument) : list Z :=
  match a with kindNone => [] | kindIndex i => 91 :: print_nat (Z.of_nat i) ++ [93] | kindKey s => 46 :: s end.
Definition print_path (args : list PathArgument) : list Z := concat (map print_argument args).
(** What the syntax has room for. *)
Definition is_plain (s : list Z) : Prop := Forall (fun c => ends_name c = false) s /\ match s with c :: _ => c <> 37 | [] => False end.
Definition printable (a : PathArgument) : Prop :=
  match a with kindNone => False | kindIndex i => Z.of_nat i < 2 ^ 32 | kindKey s => is_plain s end.
Lemma scan_index_digits l : forall a, scan_index (u32 a) l = (u32 (scan_digits a l).1, (scan_digits a l).2).
Proof.
  induction l as [|c l IH]; intros a; cbn [scan_index scan_digits]; [done|]. destruct (is_digit c); [|done].
  rewrite <- IH. f_equal. unfold u32, wrap. rewrite <- Zplus_mod, Zplus_mod, Zmult_mod_idemp_l, <- Zplus_mod. f_equal. lia.
Qed.
Lemma scan_index_print i rest : 0 <= i < 2 ^ 32 -> stops rest -> scan_index 0 (print_nat i ++ rest) = (i, rest).
Proof.
  intros Hi Hr. change 0 with (u32 0) at 1. rewrite scan_index_digits. unfold print_nat.
  destruct (scan_digits_digits (S (Z.to_nat (Z.log2 i))) i 0 rest) as (k & _ & ->); [lia|lia|]. rewrite scan_digits_stop by done. cbn [fst snd].
  by rewrite u32_id.
Qed.
Definition stops_name (l : list Z) : Prop := match l with c :: _ => ends_name c = true | [] => True end.
Lemma scan_name_app s rest : Forall (fun c => ends_name c = false) s -> stops_name rest -> scan_name (s ++ rest) = (s, rest).
Proof.
  intros Hs Hr. induction Hs as [|c s Hc _ IH]; cbn [scan_name app].
  - destruct rest as [|c rest]; [done|]. cbn in *. by rewrite Hr.
  - by rewrite Hc, IH.
Qed.
Lemma plain_no_nul s : is_plain s -> no_nul s.
Proof. intros [Hs _]. eapply Forall_impl; [|exact Hs]. cbn. unfold ends_name. intros c Hc. propify. done. Qed.
Lemma print_path_stops args : Forall printable args -> stops_name (print_path args).
Proof. intros [|[|i|s] args' Ha _]; done. Qed.
Lemma makePath_print args : Forall printable args -> forall fuel inArgs, (length (print_path args) < fuel)%nat ->
  makePath_loop fuel inArgs (print_path args) = Some args.
Proof.
  induction 1 as [|a args Ha Hargs IH]; intros fuel inArgs Hf; [destruct fuel; [lia|done]|].
  change (print_path (a :: args)) with (print_argument a ++ print_path args) in *. rewrite length_app in Hf. pose proof (print_path_stops args Hargs) as Hst.
  destruct a as [|i|s]; [done| |].
  - cbn [print_argument] in *. rewrite <- app_comm_cons, <- app_assoc. cbn [app length] in *. rewrite length_app in Hf. cbn [length] in Hf.
    destruct fuel as [|fuel]; [lia|]. cbn [makePath_loop Z.eqb Pos.eqb].
    assert (Hh : head (print_nat (Z.of_nat i) ++ 93 :: print_path args) <> Some 37).
    { unfold print_nat. destruct (digits_head (S (Z.to_nat (Z.log2 (Z.of_nat i)))) (Z.of_nat i)) as (c & l & -> & Hc); [lia|lia|].
      cbn. intros [= ->]. done. }
    rewrite bool_decide_eq_false_2 by done. rewrite scan_index_print; [|cbn in Ha; lia|done]. cbn [skip_bracket]. rewrite Nat2Z.id, IH by lia. done.
  - destruct Ha as [Hs Hc]. cbn [print_argument app length] in *. destruct fuel as [|fuel]; [lia|]. cbn [makePath_loop Z.eqb Pos.eqb].
    destruct s as [|c s]; [done|]. cbn [app length] in *. destruct fuel as [|fuel]; [lia|]. cbn [makePath_loop].
    pose proof (Forall_inv Hs) as Hcc. unfold ends_name in Hcc. propify. destruct (Z.eqb_spec c 91); [done|]. destruct (Z.eqb_spec c 37); [done|].
    destruct (Z.eqb_spec c 46); [done|]. rewrite app_comm_cons, scan_name_app by done. rewrite IH by lia. rewrite c_str_id; [done|]. by apply plain_no_nul.
Qed.
Lemma scan_name_length l : forall name rest, scan_name l = (name, rest) -> (length rest <= length l)%nat.
Proof.
  induction l as [|c l IH]; intros name rest; cbn [scan_name]; [by intros [= <- <-]|]. destruct (ends_name c); [by intros [= <- <-]|].
  destruct (scan_name l) as [name' rest'] eqn:E. intros [= <- <-]. cbn. specialize (IH _ _ eq_refl). lia.
Qed.
Lemma scan_index_length l : forall i j rest, scan_index i l = (j, rest) -> (length rest <= length l)%nat.
Proof.
  induction l as [|c l IH]; intros i j rest; cbn [scan_index]; [by intros [= <- <-]|]. destruct (is_digit c); [|by intros [= <- <-]].
  intros E%IH. cbn. lia.
Qed.
Lemma suffix_no_nul_name l : forall name rest, scan_name l = (name, rest) -> no_nul l -> no_nul rest.
Proof.
  induction l as [|c l IH]; intros name rest; cbn [scan_name]; [by intros [= <- <-]|]. destruct (ends_name c); [by intros [= <- <-]|].
  destruct (scan_name l) as [name' rest'] eqn:E. intros [= <- <-] Hn. exact (IH _ _ eq_refl (Forall_inv_tail Hn)).
Qed.
Lemma suffix_no_nul_index l : forall i j rest, scan_index i l = (j, rest) -> no_nul l -> no_nul rest.
Proof.
  induction l as [|c l IH]; intros i j rest; cbn [scan_index]; [by intros [= <- <-]|]. destruct (is_digit c); [|by intros [= <- <-]].
  intros E Hn. exact (IH _ _ _ E (Forall_inv_tail Hn)).
Qed.
Lemma skip_bracket_facts l : (length (skip_bracket l) <= length l)%nat /\ (no_nul l -> no_nul (skip_bracket l)).
Proof. destruct l as [|c l]; cbn; [done|]. split; [lia|]. intros Hn. exact (Forall_inv_tail Hn). Qed.
Lemma makePath_ends inArgs fuel : forall l, no_nul l -> (length l < fuel)%nat -> is_Some (makePath_loop fuel inArgs l).
Proof.
  induction fuel as [|fuel IH]; intros l Hn Hf; [lia|]. destruct l as [|c l]; cbn [makePath_loop]; [by eexists|]. cbn [length] in Hf.
  pose proof (Forall_inv Hn) as Hc. pose proof (Forall_inv_tail Hn) as Hl. cbn in Hc.
  destruct (Z.eqb_spec c 91) as [->|H91]; [case_bool_decide|destruct (Z.eqb_spec c 37); [|destruct (Z.eqb_spec c 46)]].
  - apply fmap_is_Some, IH; destruct (skip_bracket_facts l) as [H1 H2]; [auto|lia].
  - destruct (scan_index 0 l) as [i rest] eqn:E. pose proof (scan_index_length l _ _ _ E). pose proof (suffix_no_nul_index l _ _ _ E Hl) as Hr.
    apply fmap_is_Some, IH; destruct (skip_bracket_facts rest) as [H1 H2]; [auto|lia].
  - apply fmap_is_Some, IH; [done|lia].
  - apply IH; [done|lia].
  - cbn [scan_name]. assert (He : ends_name c = false) by (unfold ends_name; apply orb_false_iff; split; [apply orb_false_iff; split|]; by apply Z.eqb_neq).
    rewrite He. destruct (scan_name l) as [name rest] eqn:E. pose proof (scan_name_length l _ _ E). apply fmap_is_Some, IH; [|lia].
    by apply (suffix_no_nul_name l name).
Qed.

(** A path whose text has no NUL is parsed in a number of turns within its length; the text of names and indices
    is parsed back to them; what is stored through a path [resolve] finds under it, and finds nothing else
    changed under any path that parts from it. *)
Theorem paths_lead_back text inArgs args v root root' :
  (no_nul text -> is_Some (Path text inArgs)) /\
  (Forall printable args -> Path (print_path args) inArgs = Some args) /\
  (make args (fun _ => Some v) root = Some root' ->
    resolve args root' = Some v /\ forall other, apart args other -> resolve other root' = resolve other root).
Proof.
  split_and!.
  - intros Hn. apply makePath_ends; [done|lia].
  - intros Ha. apply makePath_print; [done|lia].
  - intros E. destruct (make_resolve _ _ _ _ E) as (n & m & _ & [= <-] & Hr). split; [done|]. intros other Ho. by apply (make_apart args other (fun _ => Some v)).
Qed.

(** ** Arrays without holes *)
Definition of_list_from (b : nat) (vs : list Node) : list (CZString * Node) := imap (fun i v => (Index (b + i), v)) vs.
Definition of_list (vs : list Node) : Node := Array (of_list_from 0 vs).
Lemma of_list_cons b v vs : of_list_from b (v :: vs) = (Index b, v) :: of_list_from (S b) vs.
Proof. unfold of_list_from. cbn [imap]. rewrite Nat.add_0_r. f_equal. apply imap_ext. intros i x _. cbn. do 2 f_equal. lia. Qed.
Lemma find_of_list i vs : forall b, find (Index i) (of_list_from b vs) = if (i <? b)%nat then None else vs !! (i - b)%nat.
Proof.
  induction vs as [|v vs IH]; intros b; [by destruct (i <? b)%nat|]. rewrite of_list_cons. cbn [find czstring_eq]. rewrite IH.
  destruct (Nat.eqb_spec b i) as [->|Hb]; [by rewrite Nat.ltb_irrefl, Nat.sub_diag|]. destruct (Nat.ltb_spec i b), (Nat.ltb_spec i (S b)); try lia; [done|].
  by replace (i - b)%nat with (S (i - S b)) by lia.
Qed.
Lemma insert_behind i v vs : forall b, (b + length vs <= i)%nat -> insert_at (Index i) v (of_list_from b vs) = of_list_from b vs ++ [(Index i, v)].
Proof.
  induction vs as [|x vs IH]; intros b Hi; [done|]. cbn [length] in Hi. rewrite of_list_cons. cbn [insert_at czstring_lt].
  destruct (Nat.ltb_spec b i); [|lia]. by rewrite IH by lia.
Qed.
Lemma insert_of_list i v vs : forall b, (b <= i <= b + length vs)%nat ->
  insert_at (Index i) v (of_list_from b vs) = of_list_from b (take (i - b) vs ++ v :: drop (S (i - b)) vs).
Proof.
  induction vs as [|x vs IH]; intros b Hi; cbn [length] in Hi.
  - assert (i = b) as -> by lia. rewrite Nat.sub_diag. cbn. unfold of_list_from. cbn. by rewrite Nat.add_0_r.
  - rewrite of_list_cons. cbn [insert_at czstring_lt czstring_eq]. destruct (Nat.ltb_spec b i) as [Hb|Hb].
    + rewrite IH by lia. replace (i - b)%nat with (S (i - S b)) by lia. cbn [take drop app]. by rewrite of_list_cons.
    + assert (i = b) as -> by lia. rewrite Nat.eqb_refl, Nat.sub_diag. cbn [take drop app]. by rewrite of_list_cons.
Qed.
Lemma size_of_list vs : size (of_list vs) = u32 (Z.of_nat (length vs)).
Proof.
  unfold size, of_list. destruct (list.last (of_list_from 0 vs)) as [[k n]|] eqn:E.
  - rewrite last_lookup in E. unfold of_list_from in E. rewrite length_imap, list_lookup_imap in E.
    destruct vs as [|v vs] using rev_ind; [done|]. rewrite length_app in *. cbn [length] in *.
    replace (pred (length vs + 1)) with (length vs) in E by lia. rewrite list_lookup_middle in E by done. cbn in E. injection E as <- _. f_equal. lia.
  - rewrite last_None in E. unfold of_list_from in E. by destruct vs.
Qed.
Lemma erase_key_app i l m : find (Index i) l = None -> erase_key (Index i) (l ++ m) = l ++ erase_key (Index i) m.
Proof. induction l as [|[k n] l IH]; cbn; [done|]. destruct (czstring_eq k (Index i)); [done|]. intros H. by rewrite IH. Qed.
Lemma erase_tail vs : forall n l, (forall i, (n <= i)%nat -> find (Index i) l = None) ->
  foldl (fun l i => erase_key (Index i) l) (l ++ of_list_from n vs) (seq n (length vs)) = l.
Proof.
  induction vs as [|v vs IH]; intros n l Hl; [by rewrite app_nil_r|]. cbn [length seq foldl].
  rewrite erase_key_app, of_list_cons by (by apply Hl). cbn [erase_key]. rewrite czstring_eq_refl. apply IH. intros i Hi. apply Hl. lia.
Qed.
Lemma of_list_split n vs : (n <= length vs)%nat -> of_list_from 0 vs = of_list_from 0 (take n vs) ++ of_list_from n (drop n vs).
Proof.
  intros Hn. rewrite <- (take_drop n vs) at 1. unfold of_list_from. rewrite imap_app. f_equal. apply imap_ext. intros i x _. cbn.
  rewrite length_take_le by done. done.
Qed.
Lemma erase_indices_list n vs : (n <= length vs)%nat -> erase_indices n (length vs) (of_list_from 0 vs) = of_list_from 0 (take n vs).
Proof.
  intros Hn. unfold erase_indices. rewrite (of_list_split n vs Hn), <- (length_drop vs n). apply erase_tail.
  intros i Hi. rewrite find_of_list. cbn [Nat.ltb Nat.leb]. rewrite Nat.sub_0_r. apply lookup_ge_None. rewrite length_take. lia.
Qed.
(** Without holes an array is a list: elements, size, storing, appending and shortening are those of the
    list; a longer size is reached, with nothing but nulls behind what was there. *)
Theorem arrays_are_lists vs v i n : Z.of_nat (length vs) < 2 ^ 32 - 1 ->
  size (of_list vs) = Z.of_nat (length vs) /\
  element i (of_list vs) = Some (vs !! i) /\
  append v (of_list vs) = Some (of_list (vs ++ [v])) /\
  ((i < length vs)%nat -> index_array i (fun _ => Some v) (of_list vs) = Some (of_list (<[i := v]> vs))) /\
  ((n <= length vs)%nat -> resize n (of_list vs) = Some (of_list (take n vs))) /\
  ((length vs < n)%nat -> Z.of_nat n < 2 ^ 32 -> exists a, resize n (of_list vs) = Some a /\ size a = Z.of_nat n /\
    forall j, default null <$> element j a = Some (default null (vs !! j))).
Proof.
  intros Hlen. assert (Hsize : size (of_list vs) = Z.of_nat (length vs)) by (rewrite size_of_list; apply u32_id; unfold in_width; lia).
  assert (Hel : forall j, find (Index j) (of_list_from 0 vs) = vs !! j) by (intros j; rewrite find_of_list; cbn [Nat.ltb Nat.leb]; by rewrite Nat.sub_0_r).
  assert (HR : resize n (of_list vs) = if (n =? 0)%nat then Some (of_list []) else if (length vs <? n)%nat
      then index_array (n - 1) Some (of_list vs) else Some (Array (erase_indices n (length vs) (of_list_from 0 vs)))).
  { rewrite <- (Nat2Z.id (length vs)), <- Hsize. by destruct n. }
  split_and!; [done|cbn; by rewrite Hel| | | |]; try (intros Hn; rewrite HR).
  - unfold append. rewrite Hsize, Nat2Z.id. cbn. rewrite insert_of_list by lia. rewrite Nat.sub_0_r, take_ge, drop_ge by lia. done.
  - intros Hi. cbn. rewrite insert_of_list, Nat.sub_0_r by lia. unfold of_list. do 3 f_equal. by rewrite insert_take_drop.
  - destruct (Nat.eqb_spec n 0) as [->|Hn0]; [by rewrite take_0|]. destruct (Nat.ltb_spec (length vs) n); [lia|]. by rewrite erase_indices_list.
  - intros Hn32. destruct (Nat.eqb_spec n 0); [lia|]. destruct (Nat.ltb_spec (length vs) n); [|lia]. cbn.
    set (l' := insert_at _ _ _). assert (Hl : l' = of_list_from 0 vs ++ [(Index (n - 1), null)]).
    { subst l'. rewrite Hel, lookup_ge_None_2 by lia. cbn [default]. apply insert_behind. lia. }
    exists (Array l'). split; [done|]. rewrite Hl. split.
    + cbn [size]. rewrite last_snoc. rewrite u32_id by (unfold in_width; lia). lia.
    + intros j. cbn. rewrite <- Hl. subst l'. rewrite find_insert_at, !Hel. cbn. destruct (Nat.eqb_spec (n - 1) j) as [<-|]; [|done].
      rewrite lookup_ge_None_2 by lia. done.
Qed.

(** ** Examples *)
Lemma paths_lead_back_witness :
  let args := [kindKey [97]; kindIndex 2; kindKey [98; 93]] in
  exists root', make args (fun _ => Some (Scalar (intValue 7))) null = Some root' /\
    Path (print_path args) [] = Some args /\ resolve args root' = Some (Scalar (intValue 7)) /\
    resolve [kindKey [99]] root' = Some null.
Proof.
  intros args. eexists. split; [vm_compute; reflexivity|]. set (root' := Object _).
  destruct (paths_lead_back (print_path args) [] args (Scalar (intValue 7)) null root') as (_ & H2 & H3).
  split; [apply H2; repeat constructor; discriminate|]. destruct H3 as [H3 H4]; [vm_compute; reflexivity|].
  split; [exact H3|]. rewrite H4; [reflexivity|]. apply apart_key. discriminate.
Defined.
Lemma arrays_are_lists_witness :
  let vs := [Scalar (intValue 1); null; Scalar (intValue 3)] in
  size (of_list vs) = 3 /\ resize 1 (of_list vs) = Some (of_list [Scalar (intValue 1)]).
Proof.
  intros vs. destruct (arrays_are_lists vs null 0 1) as (H1 & _ & _ & _ & H5 & _); [reflexivity|]. split; [exact H1|apply H5]. cbn. lia.
Defined.
(** Growing makes the last element only; shrinking then erases it and leaves nothing to count. *)
Example resize_leaves_less : (n ← resize 5 null; n ← resize 3 n; Some (size n)) = Some 0.
Proof. reflexivity. Qed.
(** An array of the greatest index has size 0. *)
Example size_wraps : forall l, size (Array (l ++ [(Index (Z.to_nat (2 ^ 32 - 1)), null)])) = 0.
Proof. intros l. unfold size. rewrite last_snoc, Z2Nat.id by lia. reflexivity. Qed.
(** The argument of [%] is the first one each time, and a [%] in brackets leaves its bracket as a name. *)
Example second_argument_ignored : Path [46; 37; 46; 37] [kindKey [97]; kindKey [98]] = Some [kindKey [97]; kindKey [97]].
Proof. reflexivity. Qed.
Example bracket_becomes_name : Path [91; 37; 93] [kindIndex 5] = Some [kindIndex 5; kindKey [93]].
Proof. reflexivity. Qed.
(** At a NUL the parser stands still and makes names without end. *)
Example nul_never_ends : forall fuel, makePath_loop fuel [] [0] = None.
Proof. induction fuel as [|fuel IH]; [done|]. cbn [makePath_loop Z.eqb scan_name ends_name orb]. by rewrite IH. Qed.
