(* ===== verification/JsonIterator.v ===== *)
(** * json/jsoncpp.cpp: iterators over values

    An iterator of a [std::map] stays where it is while other entries come and go, so it is the key of its entry here, or the
    end.  The iterators of a value that is no array or object are default-constructed, which only [isNull_] tells.  Moving past
    an end, following an iterator whose entry is gone and comparing a default-constructed one with another are undefined. *)
From S2P Require Import Prelude Text Json JsonOrder JsonPath.

#[global] Instance CZString_eq_dec : EqDecision CZString.
Proof. solve_decision. Defined.
Inductive ValueIterator := Singular | At (key_ : CZString) | AtEnd.
#[global] Instance ValueIterator_eq_dec : EqDecision ValueIterator.
Proof. solve_decision. Defined.
Definition isNull_ (it : ValueIterator) : bool := match it with Singular => true | _ => false end.
Definition container (n : Node) : option (list (CZString * Node)) := match n with Array l | Object l => Some l | Scalar _ => None end.

Definition first (l : list (CZString * Node)) : ValueIterator := match l with [] => AtEnd | (k, _) :: _ => At k end.
Definition begin_ (n : Node) : ValueIterator := match container n with Some l => first l | None => Singular end.
Definition end_ (n : Node) : ValueIterator := match container n with Some _ => AtEnd | None => Singular end.
Fixpoint after (k : CZString) (l : list (CZString * Node)) : option ValueIterator :=
  match l with [] => None | (k', _) :: l => if decide (k' = k) then Some (first l) else after k l end.
Definition increment (n : Node) (it : ValueIterator) : outcome ValueIterator :=
  match container n, it with Some l, At k => lift_undefined (after k l) | _, _ => Undefined end.
(** Backwards the entries come in the other order, and their end is nowhere. *)
Definition decrement (n : Node) (it : ValueIterator) : outcome ValueIterator :=
  match container n with
  | Some l =>
    match (match it with At k => after k (rev l) | AtEnd => Some (first (rev l)) | Singular => None end) with
    | Some (At k) => Done (At k) | _ => Undefined end
  | None => Undefined
  end.
Definition entry (n : Node) (it : ValueIterator) : outcome (CZString * Node) :=
  match container n, it with Some l, At k => v ← lift_undefined (find k l); Done (k, v) | _, _ => Undefined end.
Definition deref (n : Node) (it : ValueIterator) : outcome Node := '(_, v) ← entry n it; Done v.
Definition isEqual (it other : ValueIterator) : outcome bool :=
  if isNull_ it then Done (isNull_ other) else if isNull_ other then Undefined else Done (bool_decide (it = other)).
Fixpoint distance_loop (fuel : nat) (n : Node) (it other : ValueIterator) : outcome nat :=
  match fuel with
  | O => Undefined
  | S fuel => if decide (it = other) then Done 0%nat else it ← increment n it; d ← distance_loop fuel n it other; Done (S d)
  end.
(** [other - it] in the order of the entries, although it is [operator-]; no walk is longer than the entries. *)
Definition computeDistance (n : Node) (it other : ValueIterator) : outcome nat :=
  if isNull_ it && isNull_ other then Done 0%nat else if isNull_ it || isNull_ other then Undefined
  else distance_loop (match container n with Some l => S (length l) | None => 0%nat end) n it other.
Definition key (n : Node) (it : ValueIterator) : outcome Value :=
  '(k, _) ← entry n it; Done (match k with Name s => stringValue s | Index i => uintValue (u32 (Z.of_nat i)) end).
Definition index (n : Node) (it : ValueIterator) : outcome Z :=
  '(k, _) ← entry n it; Done (match k with Name _ => 2 ^ 32 - 1 | Index i => u32 (Z.of_nat i) end).
Definition memberName (n : Node) (it : ValueIterator) : outcome (list Z) :=
  '(k, _) ← entry n it; Done (match k with Name s => s | Index _ => [] end).
(** [for (it = begin(); it != end(); ++it)], with what the body sees. *)
Fixpoint loop (fuel : nat) (n : Node) (it : ValueIterator) : outcome (list (CZString * Node)) :=
  match fuel with
  | O => Undefined
  | S fuel =>
    stop ← isEqual it (end_ n);
    if (stop : bool) then Done [] else e ← entry n it; it ← increment n it; rest ← loop fuel n it; Done (e :: rest)
  end.

(** ** Walks *)
Definition keys (l : list (CZString * Node)) : list CZString := map fst l.
Lemma after_app k v l1 l2 : NoDup (keys (l1 ++ (k, v) :: l2)) -> after k (l1 ++ (k, v) :: l2) = Some (first l2).
Proof.
  induction l1 as [|[k' v'] l1 IH]; cbn; intros Hn; [by rewrite decide_True|]. apply list.NoDup_cons in Hn as [Hk Hn]. rewrite decide_False; [by apply IH|].
  intros ->. apply Hk. unfold keys. rewrite map_app. apply elem_of_app. right. apply list_elem_of_here.
Qed.
Lemma find_app k v l1 l2 : NoDup (keys (l1 ++ (k, v) :: l2)) -> find k (l1 ++ (k, v) :: l2) = Some v.
Proof.
  induction l1 as [|[k' v'] l1 IH]; cbn; intros Hn; [by rewrite czstring_eq_refl|]. apply list.NoDup_cons in Hn as [Hk Hn].
  destruct (czstring_eq k' k) eqn:E; [|by apply IH]. apply czstring_eq_spec in E as ->. exfalso. apply Hk. unfold keys. rewrite map_app. apply elem_of_app. right. apply list_elem_of_here.
Qed.
Lemma first_not_end l it : first l = it -> it <> Singular.
Proof. by destruct l as [|[]]; intros <-. Qed.
Lemma loop_rest n l2 : forall l1 fuel, container n = Some (l1 ++ l2) -> NoDup (keys (l1 ++ l2)) -> (length l2 < fuel)%nat -> loop fuel n (first l2) = Done l2.
Proof.
  induction l2 as [|[k v] l2 IH]; intros l1 [|fuel] Hc Hn Hf; try (cbn in Hf; lia); cbn [loop]; unfold end_; rewrite Hc; [done|]. cbn [first].
  unfold isEqual, entry, increment. cbn [isNull_]. rewrite bool_decide_false by done. run. rewrite Hc, find_app, after_app by done. run.
  cbn in Hf. rewrite (IH (l1 ++ [(k, v)])); [done|by rewrite <- app_assoc|by rewrite <- app_assoc|lia].
Qed.
Lemma distance_rest n l2 : forall l1 fuel, container n = Some (l1 ++ l2) -> NoDup (keys (l1 ++ l2)) -> (length l2 < fuel)%nat ->
  distance_loop fuel n (first l2) AtEnd = Done (length l2).
Proof.
  induction l2 as [|[k v] l2 IH]; intros l1 [|fuel] Hc Hn Hf; try (cbn in Hf; lia); [done|]. cbn [distance_loop first]. rewrite decide_False by done.
  unfold increment. rewrite Hc, after_app by done. run. cbn in Hf. by rewrite (IH (l1 ++ [(k, v)])); [..|rewrite <- app_assoc|rewrite <- app_assoc|lia].
Qed.
(** Whatever has changed before, a loop sees every entry that is there once and in order; forward and backward undo each other within the entries; and the
    difference of two iterators has the wrong sign. *)
Theorem loops_see_all n l : container n = Some l -> NoDup (keys l) ->
  loop (S (length l)) n (begin_ n) = Done l /\ computeDistance n (begin_ n) (end_ n) = Done (length l) /\
  (l <> [] -> computeDistance n (end_ n) (begin_ n) = Undefined) /\
  (forall k it, k ∈ keys l -> increment n (At k) = Done it -> decrement n it = Done (At k)).
Proof.
  intros Hc Hn. unfold begin_, computeDistance, end_. rewrite Hc. assert (Hs : isNull_ (first l) = false) by by destruct l as [|[]]. rewrite Hs. cbn [isNull_ andb orb]. split_and!.
  - apply (loop_rest n l []); [done|done|lia].
  - apply (distance_rest n l []); [done|done|lia].
  - intros Hl. destruct l as [|[k v] l]; [done|]. cbn [distance_loop length first]. rewrite decide_False by done. unfold increment. by rewrite Hc.
  - intros k it Hk Hi. apply list_elem_of_fmap in Hk as ([k' v] & -> & Hk). apply list_elem_of_split in Hk as (l1 & l2 & ->). unfold increment, decrement in *. rewrite Hc in *.
    cbn [fst] in *. rewrite after_app in Hi by done. injection Hi as <-.
    assert (Hr : NoDup (keys (rev (l1 ++ (k', v) :: l2)))) by (unfold keys; by rewrite <- (Permutation_rev (l1 ++ (k', v) :: l2))).
    destruct l2 as [|[k2 v2] l2]; rewrite rev_app_distr in *; [done|]. cbn [rev first] in *. rewrite <- !app_assoc in *. cbn [app] in *. by rewrite after_app.
Qed.

(** ** Examples *)
Definition demo_object (names : list (list Z)) : Node := Object (map (fun s => (Name s, Scalar nullValue)) names).
(** An iterator goes on from its entry when others have come, and nowhere when its own has gone. *)
Example iterator_stays : increment (demo_object [[97]; [98]; [99]]) (At (Name [97])) = Done (At (Name [98])) /\
  increment (demo_object [[98]; [99]]) (At (Name [97])) = Undefined /\ isEqual (At (Name [97])) (end_ (Scalar nullValue)) = Undefined.
Proof. by vm_compute. Qed.
