(* ===== verification/JsonMemory.v ===== *)
(** * json/jsoncpp.cpp: the memory of strings

    A value owns its string unless that is static, its comments, and the keys of its members unless these are static; the
    copies a key is made of while it goes into a map come and go.  A string that was allocated has a number; freeing or reading what is not
    allocated is undefined.  Texts never change, so they are kept with the pointers to them.  Numbers are immaterial here. *)
From S2P Require Import Prelude Text JsonOrder.

(** ** Allocation *)
Record Heap := mkHeap { live : list nat; next : nat }.
Inductive cstr := Malloc (p : nat) (s : list Z) | Outside (s : list Z).
Fixpoint remove_one (p : nat) (l : list nat) : list nat := match l with [] => [] | q :: l => if decide (q = p) then l else q :: remove_one p l end.
Definition free (p : nat) (h : Heap) : outcome Heap := if decide (p ∈ live h) then Done (mkHeap (remove_one p (live h)) (next h)) else Undefined.
Definition text_of (c : cstr) (h : Heap) : outcome (list Z) :=
  match c with Malloc p s => if decide (p ∈ live h) then Done s else Undefined | Outside s => Done s end.
Definition duplicateStringValue (c : cstr) (h : Heap) : outcome (cstr * Heap) :=
  s ← text_of c h; Done (Malloc (next h) (c_str s), mkHeap (next h :: live h) (S (next h))).
Definition releaseStringValue (c : cstr) (h : Heap) : outcome Heap := match c with Malloc p _ => free p h | Outside _ => Undefined end.

(** ** Keys *)
Inductive DuplicationPolicy := noDuplication | duplicate | duplicateOnCopy.
Inductive CZString := Index (index_ : nat) | Cstr (cstr_ : cstr) (policy : DuplicationPolicy).
Definition CZString_copy (k : CZString) (h : Heap) : outcome (CZString * Heap) :=
  match k with
  | Index _ | Cstr _ noDuplication => Done (k, h)
  | Cstr c _ => '(d, h) ← duplicateStringValue c h; Done (Cstr d duplicate, h)
  end.
Definition CZString_delete (k : CZString) (h : Heap) : outcome Heap :=
  match k with Cstr c duplicate => releaseStringValue c h | _ => Done h end.
(** [strcmp] with a null pointer is undefined; an index is never compared with a name. *)
Definition key_compare (k k' : CZString) (h : Heap) : outcome Z :=
  match k, k' with
  | Index i, Index j => Done (Z.of_nat i - Z.of_nat j)
  | Cstr c _, Cstr d _ => s ← text_of c h; t ← text_of d h; Done (strcmp s t)
  | _, _ => Undefined
  end.

(** ** Values *)
(** [comments_]: empty, or a slot for each placement. *)
Abbreviation Comments := (list (option cstr)).
#[local] Unset Elimination Schemes.
Inductive Value :=
  | Scalar (comments_ : Comments) (null : bool)
  | String (comments_ : Comments) (string_ : cstr) (allocated_ : bool)
  | Map (comments_ : Comments) (array : bool) (map_ : list (CZString * Value)).
#[local] Set Elimination Schemes.
Definition comments_ (v : Value) : Comments := match v with Scalar c _ | String c _ _ | Map c _ _ => c end.
Definition with_comments (c : Comments) (v : Value) : Value := match v with Scalar _ n => Scalar c n | String _ s a => String c s a | Map _ a l => Map c a l end.
Definition Value_string (c : cstr) (h : Heap) : outcome (Value * Heap) := '(d, h) ← duplicateStringValue c h; Done (String [] d true, h).
Definition Value_static (s : list Z) : Value := String [] (Outside s) false.

Fixpoint copy_comments (c : Comments) (h : Heap) : outcome (Comments * Heap) :=
  match c with
  | [] => Done ([], h)
  | None :: c => '(c, h) ← copy_comments c h; Done (None :: c, h)
  | Some t :: c => '(t, h) ← duplicateStringValue t h; '(c, h) ← copy_comments c h; Done (Some t :: c, h)
  end.
Fixpoint delete_comments (c : Comments) (h : Heap) : outcome Heap :=
  match c with [] => Done h | None :: c => delete_comments c h | Some t :: c => h ← releaseStringValue t h; delete_comments c h end.
(** The map is copied and destroyed entry by entry. *)
Section entries.
Context (copy : Value -> Heap -> outcome (Value * Heap)) (delete : Value -> Heap -> outcome Heap).
Fixpoint copy_map (l : list (CZString * Value)) (h : Heap) : outcome (list (CZString * Value) * Heap) :=
  match l with
  | [] => Done ([], h)
  | (k, v) :: l => '(k, h) ← CZString_copy k h; '(v, h) ← copy v h; '(l, h) ← copy_map l h; Done ((k, v) :: l, h)
  end.
Fixpoint delete_map (l : list (CZString * Value)) (h : Heap) : outcome Heap :=
  match l with [] => Done h | (k, v) :: l => h ← delete v h; h ← CZString_delete k h; delete_map l h end.
End entries.
Fixpoint Value_copy (v : Value) (h : Heap) : outcome (Value * Heap) :=
  match v with
  | Scalar c n => '(c, h) ← copy_comments c h; Done (Scalar c n, h)
  | String c s _ => '(s, h) ← duplicateStringValue s h; '(c, h) ← copy_comments c h; Done (String c s true, h)
  | Map c a l => '(l, h) ← copy_map Value_copy l h; '(c, h) ← copy_comments c h; Done (Map c a l, h)
  end.
Fixpoint Value_delete (v : Value) (h : Heap) : outcome Heap :=
  match v with
  | Scalar c _ => delete_comments c h
  | String c s a => h ← (if a then releaseStringValue s h else Done h); delete_comments c h
  | Map c _ l => h ← delete_map Value_delete l h; delete_comments c h
  end.
(** The comments stay where they are. *)
Definition swap (v w : Value) : Value * Value := (with_comments (comments_ v) w, with_comments (comments_ w) v).
Definition comment_allowed (text : list Z) : bool := match c_str text with [] => true | x :: _ => x =? 47 end.
(** What an operation returns, or [None] when it throws, and the value after it. *)
Abbreviation result A := (outcome (option A * (Value * Heap))).
Inductive CommentPlacement := commentBefore | commentAfterOnSameLine | commentAfter.
Definition slot (placement : CommentPlacement) : nat := match placement with commentBefore => 0 | commentAfterOnSameLine => 1 | commentAfter => 2 end.
(** The old comment is freed before the new one is looked at. *)
Definition setComment (placement : CommentPlacement) (text : list Z) (v : Value) (h : Heap) : result unit :=
  let c := match comments_ v with [] => replicate 3 None | c => c end in
  h ← (match c !! slot placement with Some (Some t) => releaseStringValue t h | _ => Done h end);
  if comment_allowed text
  then '(t, h) ← duplicateStringValue (Outside text) h; Done (Some tt, (with_comments (<[slot placement := Some t]> c) v, h))
  else Done (None, (with_comments c v, h)).

(** ** Members *)
Inductive place := AtIndex (i : nat) | AtName (s : list Z) (isStatic : bool).
Definition is_array (k : place) : bool := match k with AtIndex _ => true | AtName _ _ => false end.
Definition actualKey (k : place) : CZString :=
  match k with AtIndex i => Index i | AtName s isStatic => Cstr (Outside (c_str s)) (if isStatic then noDuplication else duplicateOnCopy) end.
(** And whether the entry there has the key. *)
Fixpoint lower_bound (k : CZString) (l : list (CZString * Value)) (h : Heap) : outcome (nat * bool) :=
  match l with
  | [] => Done (0%nat, false)
  | (k', _) :: l => c ← key_compare k' k h; if c <? 0 then '(i, found) ← lower_bound k l h; Done (S i, found) else Done (0%nat, c =? 0)
  end.
(** [operator[]]: the entry of the key is made if it is missing, from a pair that is copied into the map. *)
Definition find_entry (k : place) (c : Comments) (l : list (CZString * Value)) (h : Heap) : result nat :=
  '(i, found) ← lower_bound (actualKey k) l h;
  if found : bool then Done (Some i, (Map c (is_array k) l, h))
  else
    '(k1, h) ← CZString_copy (actualKey k) h; '(k2, h) ← CZString_copy k1 h; h ← CZString_delete k1 h; h ← CZString_delete (actualKey k) h;
    Done (Some i, (Map c (is_array k) (take i l ++ (k2, Scalar [] true) :: drop i l), h)).
Definition resolveReference (k : place) (v : Value) (h : Heap) : result nat :=
  match v with
  | Scalar c true => find_entry k c [] h
  | Map c array l => if bool_decide (array = is_array k) then find_entry k c l h else Done (None, (v, h))
  | _ => Done (None, (v, h))
  end.
Fixpoint at_path {A} (p : list place) (f : Value -> Heap -> result A) (v : Value) (h : Heap) : result A :=
  match p with
  | [] => f v h
  | k :: p =>
    '(i, (v, h)) ← resolveReference k v h;
    match (i : option nat), v with
    | Some i, Map c array l =>
      '(key, w) ← lift_undefined (l !! i); '(a, (w, h)) ← at_path p f w h; Done (a, (Map c array (<[i := (key, w)]> l), h))
    | _, _ => Done (None, (v, h))
    end
  end.
Definition removeMember (name : list Z) (v : Value) (h : Heap) : result Value :=
  match v with
  | Scalar _ true => Done (Some (Scalar [] true), (v, h))
  | Map c false l =>
    '(i, found) ← lower_bound (actualKey (AtName name true)) l h;
    if found : bool then
      '(key, w) ← lift_undefined (l !! i); '(old, h) ← Value_copy w h; h ← Value_delete w h; h ← CZString_delete key h;
      Done (Some old, (Map c false (take i l ++ drop (S i) l), h))
    else Done (Some (Scalar [] true), (v, h))
  | _ => Done (None, (v, h))
  end.
Definition clear (v : Value) (h : Heap) : result unit :=
  match v with
  | Scalar _ true => Done (Some tt, (v, h))
  | Map c array l => h ← delete_map Value_delete l h; Done (Some tt, (Map c array [], h))
  | _ => Done (None, (v, h))
  end.

(** ** Programs *)
(** The variables so far, [None] when destroyed; an expression such as [y["a"]] is a variable and a path.  The right side of an assignment is looked up first. *)
Record Store := mkStore { vars : list (option Value); heap : Heap }.
Definition Store_new : Store := mkStore [] (mkHeap [] 0).
Definition on_var {A} (x : nat) (f : Value -> Heap -> result A) (s : Store) : outcome (option A * Store) :=
  match vars s !! x with
  | Some (Some v) => '(a, (v, h)) ← f v (heap s); Done (a, mkStore (<[x := Some v]> (vars s)) h)
  | _ => Done (None, s)
  end.
Definition touch (v : Value) (h : Heap) : result unit := Done (Some tt, (v, h)).
Definition copy_of (v : Value) (h : Heap) : result Value := '(w, h) ← Value_copy v h; Done (Some w, (v, h)).
Definition swap_in (temp v : Value) (h : Heap) : result Value := let (v, temp) := swap v temp in Done (Some temp, (v, h)).
Definition new_var (v : Value) (h : Heap) (s : Store) : Store := mkStore (vars s ++ [Some v]) h.
Inductive call :=
  | NewScalar (null : bool) | NewString (s : list Z) | NewStatic (s : list Z) | NewMap (array : bool) | NewCopy (y : nat) (q : list place)
  | Assign (x : nat) (p : list place) (y : nat) (q : list place) | Remove (x : nat) (p : list place) (name : list Z) | Clear (x : nat) (p : list place)
  | Comment (x : nat) (p : list place) (placement : CommentPlacement) (text : list Z) | Delete (x : nat).
(** A call that throws leaves the store as it is then. *)
Definition do_call (c : call) (s : Store) : outcome Store :=
  match c with
  | NewScalar null => Done (new_var (Scalar [] null) (heap s) s)
  | NewString t => '(v, h) ← Value_string (Outside t) (heap s); Done (new_var v h s)
  | NewStatic t => Done (new_var (Value_static t) (heap s) s)
  | NewMap array => Done (new_var (Map [] array []) (heap s) s)
  | NewCopy y q => '(v, s) ← on_var y (at_path q copy_of) s; Done (match v with Some v => new_var v (heap s) s | None => s end)
  | Assign x p y q =>
    '(_, s) ← on_var y (at_path q touch) s; '(_, s) ← on_var x (at_path p touch) s;
    '(temp, s) ← on_var y (at_path q copy_of) s;
    match temp with
    | None => Done s
    | Some temp =>
      '(old, s) ← on_var x (at_path p (swap_in temp)) s;
      h ← Value_delete (match old with Some old => old | None => temp end) (heap s); Done (mkStore (vars s) h)
    end
  | Remove x p name => '(v, s) ← on_var x (at_path p (removeMember name)) s; Done (match v with Some v => new_var v (heap s) s | None => s end)
  | Clear x p => '(_, s) ← on_var x (at_path p clear) s; Done s
  | Comment x p placement text => '(_, s) ← on_var x (at_path p (setComment placement text)) s; Done s
  | Delete x =>
    match vars s !! x with
    | Some (Some v) => h ← Value_delete v (heap s); Done (mkStore (<[x := None]> (vars s)) h)
    | _ => Done s
    end
  end.
Fixpoint do_calls (l : list call) (s : Store) : outcome Store :=
  match l with [] => Done s | c :: l => s ← do_call c s; do_calls l s end.

(** ** Who owns what *)
Section value_induction.
Context (P : Value -> Prop) (HSc : forall c n, P (Scalar c n)) (HSt : forall c s a, P (String c s a)) (HM : forall c a l, Forall (fun kv => P kv.2) l -> P (Map c a l)).
Fixpoint Value_nested_ind (v : Value) : P v :=
  match v with
  | Scalar c n => HSc c n
  | String c s a => HSt c s a
  | Map c a l => HM c a l ((fix go l := match l return Forall (fun kv => P kv.2) l with [] => Forall_nil _ | kv :: l => Forall_cons _ kv l (Value_nested_ind kv.2) (go l) end) l)
  end.
End value_induction.
Definition one (q p : nat) : nat := if decide (q = p) then 1 else 0.
Definition cnt (p : nat) (l : list nat) : nat := sum_list (map (fun q => one q p) l).
#[local] Arguments one : simpl never.
#[local] Arguments cnt : simpl never.
(** How many strings [p] a thing owns. *)
Definition own_cstr (c : cstr) (p : nat) : nat := match c with Malloc q _ => one q p | Outside _ => 0 end.
Definition own_key (k : CZString) (p : nat) : nat := match k with Cstr c duplicate => own_cstr c p | _ => 0 end.
Fixpoint own_comments (c : Comments) (p : nat) : nat := match c with [] => 0 | None :: c => own_comments c p | Some t :: c => own_cstr t p + own_comments c p end.
Definition own_map (own : Value -> nat -> nat) (l : list (CZString * Value)) (p : nat) : nat := sum_list (map (fun kv => own_key kv.1 p + own kv.2 p)%nat l).
#[local] Arguments own_map : simpl never.
Fixpoint own (v : Value) (p : nat) : nat :=
  match v with
  | Scalar c _ => own_comments c p
  | String c s a => (if a then own_cstr s p else 0) + own_comments c p
  | Map c _ l => own_map own l p + own_comments c p
  end.
(** What was allocated is marked so. *)
Definition is_malloc (c : cstr) : bool := match c with Malloc _ _ => true | Outside _ => false end.
Definition key_ok (array : bool) (k : CZString) : bool :=
  match k with Index _ => array | Cstr c duplicate => negb array && is_malloc c | Cstr c noDuplication => negb array && negb (is_malloc c) | Cstr _ _ => false end.
Definition comments_ok (c : Comments) : bool := forallb (fun t => match t with Some t => is_malloc t | None => true end) c && ((length c =? 0)%nat || (length c =? 3)%nat).
Fixpoint value_ok (v : Value) : bool :=
  comments_ok (comments_ v) &&
  match v with Scalar _ _ => true | String _ s a => Bool.eqb (is_malloc s) a | Map _ a l => forallb (fun kv => key_ok a kv.1 && value_ok kv.2) l end.

Lemma cnt_cons p q l : cnt p (q :: l) = (one q p + cnt p l)%nat.
Proof. done. Qed.
Lemma cnt_elem p l : p ∈ l <-> cnt p l <> 0%nat.
Proof.
  induction l as [|q l IH]; [by split; [intros ?%not_elem_of_nil|]|]. rewrite elem_of_cons, cnt_cons, IH. unfold one. destruct (decide (q = p)); [subst; split; [lia|by left]|]. split; [intros [->|?]; done || lia|].
  intros H. right. lia.
Qed.
Lemma cnt_remove p q l : q ∈ l -> (one q p + cnt p (remove_one q l) = cnt p l)%nat.
Proof.
  induction l as [|r l IH]; intros Hq; [by apply not_elem_of_nil in Hq|]. cbn [remove_one]. destruct (decide (r = q)) as [->|Hr]; [done|].
  rewrite !cnt_cons. rewrite <- (IH ltac:(by apply elem_of_cons in Hq as [->|?])). lia.
Qed.
(** The allocated strings are those of [f], once each, and fresh ones will be new. *)
Record owned_by (f : nat -> nat) (h : Heap) : Prop := {
  owned_cnt : forall p, cnt p (live h) = f p;
  owned_once : forall p, (f p <= 1)%nat;
  owned_old : forall p, (next h <= p)%nat -> f p = 0%nat }.
Lemma owned_ext f g h : (forall p, f p = g p) -> owned_by f h -> owned_by g h.
Proof. intros E [H1 H2 H3]. split; intros; rewrite <- E; auto. Qed.
Lemma free_ok q f h : owned_by (fun p => one q p + f p)%nat h -> exists h', free q h = Done h' /\ owned_by f h'.
Proof.
  intros [H1 H2 H3]. unfold free. assert (Hq : q ∈ live h) by (apply cnt_elem; rewrite H1; unfold one; rewrite decide_True by done; lia). rewrite decide_True by done.
  eexists. split; [done|]. split; cbn.
  - intros p. pose proof (cnt_remove p q _ Hq) as Hc. rewrite H1 in Hc. lia.
  - intros p. specialize (H2 p). lia.
  - intros p Hp. specialize (H3 p Hp). lia.
Qed.

(** ** Copies and deletions *)
Definition copies {A} (own_a : A -> nat -> nat) (ok : A -> A -> Prop) (copy : A -> Heap -> outcome (A * Heap)) (a : A) : Prop :=
  forall f h, owned_by f h -> (forall p, own_a a p <= f p)%nat ->
  exists b h', copy a h = Done (b, h') /\ ok a b /\ owned_by (fun p => own_a b p + f p)%nat h'.
Definition deletes {A} (own_a : A -> nat -> nat) (delete : A -> Heap -> outcome Heap) (a : A) : Prop :=
  forall f h, owned_by (fun p => own_a a p + f p)%nat h -> exists h', delete a h = Done h' /\ owned_by f h'.
Lemma readable c f h : owned_by f h -> (forall p, own_cstr c p <= f p)%nat -> exists s, text_of c h = Done s.
Proof.
  intros [H1 _ _] Hf. destruct c as [q s|s]; cbn; [|by eexists]. rewrite decide_True; [by eexists|]. apply cnt_elem. rewrite H1. specialize (Hf q). cbn in Hf. unfold one in Hf. rewrite decide_True in Hf by done. lia.
Qed.
Lemma duplicate_ok c : copies own_cstr (fun _ d => is_malloc d = true) duplicateStringValue c.
Proof.
  intros f h Hh Hc. destruct (readable c f h Hh Hc) as [s E]. unfold duplicateStringValue. rewrite E. run. eexists _, _. split; [done|]. split; [done|].
  destruct Hh as [H1 H2 H3]. split; cbn [live next own_cstr].
  - intros p. by rewrite cnt_cons, H1.
  - intros p. unfold one. destruct (decide (next h = p)) as [<-|]; [rewrite H3 by lia; lia|apply H2].
  - intros p Hp. rewrite H3 by lia. unfold one. rewrite decide_False by lia. done.
Qed.
Lemma release_string_ok c : is_malloc c = true -> deletes own_cstr releaseStringValue c.
Proof. destruct c as [q s|]; [|done]. intros _ f h Hh. by apply free_ok. Qed.
Lemma key_copy_ok array k : key_ok array k = true -> copies own_key (fun _ k' => key_ok array k' = true) CZString_copy k.
Proof.
  intros Hk f h Hh Hf. destruct k as [i|c [| |]]; cbn in *; try done; [eexists _, _; split; [done|]; by split|eexists _, _; split; [done|]; by split|].
  apply andb_prop in Hk as [Ha Hc]. destruct (duplicate_ok c f h Hh Hf) as (d & h' & E & Hd & Hh'). rewrite E. run. eexists _, _. split; [done|]. cbn. by rewrite Ha, Hd.
Qed.
Lemma key_delete_ok array k : key_ok array k = true -> deletes own_key CZString_delete k.
Proof.
  intros Hk f h Hh. destruct k as [i|c [| |]]; cbn in *; try done; try by eexists. apply andb_prop in Hk as [_ Hc]. by apply release_string_ok.
Qed.
Lemma copy_comments_ok c : copies own_comments (fun c d => length d = length c /\ forallb (fun t => match t with Some t => is_malloc t | None => true end) d = true) copy_comments c.
Proof.
  induction c as [|[t|] c IH]; intros f h Hh Hf; cbn [copy_comments own_comments] in *.
  - eexists [], h. by split.
  - destruct (duplicate_ok t f h Hh) as (d & h1 & E & Hd & Hh1); [intros p; specialize (Hf p); lia|]. rewrite E. run.
    destruct (IH _ _ Hh1) as (c' & h2 & E2 & [Hl Hm] & Hh2); [intros p; specialize (Hf p); lia|]. rewrite E2. run. eexists _, _. split; [done|]. cbn. rewrite Hl, Hm, Hd. split; [done|].
    eapply owned_ext; [|exact Hh2]. intros p. cbn. lia.
  - destruct (IH _ _ Hh Hf) as (c' & h2 & E2 & [Hl Hm] & Hh2). rewrite E2. run. eexists _, _. split; [done|]. cbn. by rewrite Hl, Hm.
Qed.
Lemma delete_comments_ok c : comments_ok c = true -> deletes own_comments delete_comments c.
Proof.
  intros [Hc _]%andb_prop. induction c as [|[t|] c IH]; intros f h Hh; cbn [delete_comments own_comments forallb] in *; [by eexists| |by apply IH].
  apply andb_prop in Hc as [Ht Hc]. destruct (release_string_ok t Ht (fun p => own_comments c p + f p)%nat h) as (h1 & E & Hh1); [eapply owned_ext; [|exact Hh]; intros p; cbn; lia|].
  rewrite E. run. by apply IH.
Qed.
Lemma own_map_cons own kv l p : own_map own (kv :: l) p = (own_key kv.1 p + own kv.2 p + own_map own l p)%nat.
Proof. done. Qed.
Lemma own_map_app own l m p : own_map own (l ++ m) p = (own_map own l p + own_map own m p)%nat.
Proof. induction l as [|kv l IH]; [done|]. cbn [app]. rewrite !own_map_cons, IH. lia. Qed.
Lemma Value_copy_ok v : value_ok v = true -> copies own (fun _ w => value_ok w = true) Value_copy v.
Proof.
  assert (Hcm : forall c f h, comments_ok c = true -> owned_by f h -> (forall p, own_comments c p <= f p)%nat ->
    exists d h', copy_comments c h = Done (d, h') /\ comments_ok d = true /\ owned_by (fun p => own_comments d p + f p)%nat h').
  { intros c f h [_ Hl]%andb_prop Hh Hf. destruct (copy_comments_ok c f h Hh Hf) as (d & h' & E & [Hd Hm] & Hh'). exists d, h'. split; [done|]. split; [|done]. unfold comments_ok. by rewrite Hm, Hd. }
  induction v as [c n|c s a|c a l IH] using Value_nested_ind; intros [Hc Hv]%andb_prop f h Hh Hf; cbn [Value_copy comments_ own] in *.
  - destruct (Hcm c f h Hc Hh Hf) as (d & h' & E & Hd & Hh'). rewrite E. run. eexists _, _. split; [done|]. cbn. by rewrite Hd.
  - assert (Hs : forall p, (own_cstr s p <= f p)%nat) by (intros p; specialize (Hf p); destruct a; [lia|]; destruct s; [done|cbn; lia]).
    destruct (duplicate_ok s f h Hh Hs) as (t & h1 & E & Ht & Hh1). rewrite E. run.
    destruct (Hcm c _ h1 Hc Hh1) as (d & h2 & E2 & Hd & Hh2); [intros p; specialize (Hf p); lia|]. rewrite E2. run. eexists _, _. split; [done|]. cbn. rewrite Hd, Ht. split; [done|].
    eapply owned_ext; [|exact Hh2]. intros p. cbn. lia.
  - assert (Hl : forall f h, owned_by f h -> (forall p, own_map own l p <= f p)%nat -> exists m h', copy_map Value_copy l h = Done (m, h') /\
      forallb (fun kv => key_ok a kv.1 && value_ok kv.2) m = true /\ owned_by (fun p => own_map own m p + f p)%nat h').
    { clear Hc Hf Hh f h. induction IH as [|[k v] l Hkv _ IH]; intros f h Hh Hf; [by eexists [], h|]. cbn [forallb fst snd copy_map] in *. apply andb_prop in Hv as [[Hk Hv]%andb_prop Hl].
      destruct (key_copy_ok a k Hk f h Hh) as (k' & h1 & E1 & Hk' & Hh1); [intros p; specialize (Hf p); rewrite own_map_cons in Hf; cbn in Hf; lia|]. rewrite E1. run.
      destruct (Hkv Hv _ h1 Hh1) as (v' & h2 & E2 & Hv' & Hh2); [intros p; specialize (Hf p); rewrite own_map_cons in Hf; cbn in Hf; lia|]. rewrite E2. run.
      destruct (IH Hl _ h2 Hh2) as (m & h3 & E3 & Hm & Hh3); [intros p; specialize (Hf p); rewrite own_map_cons in Hf; lia|]. rewrite E3. run. eexists _, _. split; [done|]. cbn. rewrite Hk', Hv', Hm. split; [done|].
      eapply owned_ext; [|exact Hh3]. intros p. rewrite own_map_cons. cbn. lia. }
    destruct (Hl f h Hh) as (m & h1 & E1 & Hm & Hh1); [intros p; specialize (Hf p); lia|]. rewrite E1. run.
    destruct (Hcm c _ h1 Hc Hh1) as (d & h2 & E2 & Hd & Hh2); [intros p; specialize (Hf p); lia|]. rewrite E2. run. eexists _, _. split; [done|]. cbn. rewrite Hd, Hm. split; [done|].
    eapply owned_ext; [|exact Hh2]. intros p. cbn. lia.
Qed.
Lemma delete_map_ok a l : Forall (fun kv => value_ok kv.2 = true -> deletes own Value_delete kv.2) l -> forallb (fun kv => key_ok a kv.1 && value_ok kv.2) l = true ->
  deletes (own_map own) (delete_map Value_delete) l.
Proof.
  induction 1 as [|[k v] l Hkv _ IH]; intros Hv f h Hh; [by eexists|]. cbn [forallb fst snd delete_map] in *. apply andb_prop in Hv as [[Hk Hv]%andb_prop Hl].
  destruct (Hkv Hv (fun p => own_key k p + own_map own l p + f p)%nat h) as (h1 & E1 & Hh1); [eapply owned_ext; [|exact Hh]; intros p; cbn; rewrite own_map_cons; cbn; lia|]. rewrite E1. run.
  destruct (key_delete_ok a k Hk (fun p => own_map own l p + f p)%nat h1) as (h2 & E2 & Hh2); [eapply owned_ext; [|exact Hh1]; intros p; cbn; lia|]. rewrite E2. run. by apply IH.
Qed.
Lemma Value_delete_ok v : value_ok v = true -> deletes own Value_delete v.
Proof.
  induction v as [c n|c s a|c a l IH] using Value_nested_ind; intros [Hc Hv]%andb_prop f h Hh; cbn [Value_delete comments_ own] in *.
  - by apply delete_comments_ok.
  - apply eqb_prop in Hv as <-. destruct (is_malloc s) eqn:Es; [|by apply delete_comments_ok].
    destruct (release_string_ok s Es (fun p => own_comments c p + f p)%nat h) as (h1 & E1 & Hh1); [eapply owned_ext; [|exact Hh]; intros p; cbn; lia|]. rewrite E1. run. by apply delete_comments_ok.
  - destruct (delete_map_ok a l IH Hv (fun p => own_comments c p + f p)%nat h) as (h1 & E1 & Hh1); [eapply owned_ext; [|exact Hh]; intros p; cbn; lia|]. rewrite E1. run. by apply delete_comments_ok.
Qed.
Lemma all_delete_ok l : Forall (fun kv : CZString * Value => value_ok kv.2 = true -> deletes own Value_delete kv.2) l.
Proof. apply Forall_true. intros kv. apply Value_delete_ok. Qed.

(** ** Operations on values *)
(** [inp]: what the operation is given besides; [out]: what its result owns. *)
Definition runs {A} (inp : nat -> nat) (op : Value -> Heap -> result A) (out : option A -> nat -> nat) (ok : A -> Prop) : Prop :=
  forall v h rest, value_ok v = true -> owned_by (fun p => inp p + own v p + rest p)%nat h ->
  exists a v' h', op v h = Done (a, (v', h')) /\ value_ok v' = true /\ owned_by (fun p => out a p + own v' p + rest p)%nat h' /\ (forall a', a = Some a' -> ok a').
Definition entries_ok (array : bool) (l : list (CZString * Value)) : bool := forallb (fun kv => key_ok array kv.1 && value_ok kv.2) l.
Lemma entries_ok_app b l m : entries_ok b (l ++ m) = entries_ok b l && entries_ok b m.
Proof. apply forallb_app. Qed.
(** A key that is looked for, and owns nothing. *)
Definition plain_key (array : bool) (k : CZString) : Prop := match k with Index _ => array = true | Cstr c _ => array = false /\ is_malloc c = false end.
Lemma actualKey_plain k : plain_key (is_array k) (actualKey k).
Proof. by destruct k. Qed.
Lemma key_compare_ok b k' k f h : key_ok b k' = true -> plain_key b k -> owned_by f h -> (forall p, own_key k' p <= f p)%nat -> exists c, key_compare k' k h = Done c.
Proof.
  intros Hk' Hk Hh Hf. destruct k' as [i|c pol], k as [j|d pol']; cbn in *; [by eexists|by destruct Hk; subst|destruct pol; cbn in *; subst; done|].
  destruct Hk as [-> Hd]. destruct (readable c f h Hh) as [s Es]; [intros p; specialize (Hf p); destruct pol; cbn in *; try done; destruct c; done || cbn; lia|].
  rewrite Es. run. destruct d; [done|]. cbn. by eexists.
Qed.
Lemma lower_bound_ok b k l f h : plain_key b k -> entries_ok b l = true -> owned_by f h -> (forall p, own_map own l p <= f p)%nat ->
  exists i found, lower_bound k l h = Done (i, found) /\ (i <= length l)%nat /\ (found = true -> (i < length l)%nat).
Proof.
  intros Hk Hl Hh. induction l as [|[k' v] l IH]; intros Hf; cbn [lower_bound]; [exists 0%nat, false; by split_and!|]. cbn in Hl. apply andb_prop in Hl as [[Hk' Hv]%andb_prop Hl].
  assert (Hf' : forall p, (own_key k' p + own v p + own_map own l p <= f p)%nat) by (intros p; apply (Hf p)).
  destruct (key_compare_ok b k' k f h Hk' Hk Hh) as [c E]; [intros p; specialize (Hf' p); lia|]. rewrite E. run. destruct (c <? 0).
  - destruct IH as (i & found & E' & Hi & Hfound); [done|intros p; specialize (Hf' p); lia|]. rewrite E'. run. eexists _, _. split; [done|]. cbn. split; [lia|]. intros F. specialize (Hfound F). lia.
  - eexists _, _. split; [done|]. cbn. split; lia.
Qed.
Definition nothing (p : nat) : nat := 0%nat.
Lemma own_map_split i l p : (own_map own (take i l) p + own_map own (drop i l) p = own_map own l p)%nat.
Proof. by rewrite <- own_map_app, take_drop. Qed.
Lemma entries_ok_split b i l : entries_ok b l = entries_ok b (take i l) && entries_ok b (drop i l).
Proof. by rewrite <- entries_ok_app, take_drop. Qed.
Lemma find_entry_ok k c l h rest : value_ok (Map c (is_array k) l) = true -> owned_by (fun p => own (Map c (is_array k) l) p + rest p)%nat h ->
  exists i m h', find_entry k c l h = Done (Some i, (Map c (is_array k) m, h')) /\ value_ok (Map c (is_array k) m) = true /\ (i < length m)%nat /\
  owned_by (fun p => own (Map c (is_array k) m) p + rest p)%nat h'.
Proof.
  intros Hv Hh. pose proof Hv as [Hc Hl]%andb_prop. cbn [comments_] in Hc. change (entries_ok (is_array k) l = true) in Hl. unfold find_entry.
  destruct (lower_bound_ok (is_array k) (actualKey k) l _ h (actualKey_plain k) Hl Hh) as (i & found & E & Hi & Hfound); [intros p; cbn [own]; lia|]. rewrite E. run.
  destruct found; [exists i, l, h; by split_and!; auto|].
  assert (Hnew : exists k2 h', (('(k1, h) ← CZString_copy (actualKey k) h; '(k2, h) ← CZString_copy k1 h; h ← CZString_delete k1 h; h ← CZString_delete (actualKey k) h; Done (k2, h)) : outcome (CZString * Heap)) = Done (k2, h') /\
    key_ok (is_array k) k2 = true /\ owned_by (fun p => own_key k2 p + (own (Map c (is_array k) l) p + rest p))%nat h').
  { destruct k as [j|s [|]]; cbn [actualKey CZString_copy CZString_delete is_array]; run; [eexists _, _; split; [done|]; by split|eexists _, _; split; [done|]; by split|].
    destruct (duplicate_ok (Outside (c_str s)) _ h Hh) as (d & h1 & E1 & Hd & Hh1); [intros p; cbn; lia|]. rewrite E1. run. cbn [CZString_copy].
    destruct (duplicate_ok d _ h1 Hh1) as (e & h2 & E2 & He & Hh2); [intros p; cbn; lia|]. rewrite E2. run. cbn [CZString_delete].
    destruct (release_string_ok d Hd (fun p => own_cstr e p + (own (Map c false l) p + rest p))%nat h2) as (h3 & E3 & Hh3); [eapply owned_ext; [|exact Hh2]; intros p; cbn; lia|]. rewrite E3. run.
    eexists _, _. split; [done|]. cbn. by rewrite He. }
  destruct Hnew as (k2 & h' & E2 & Hk2 & Hh'). revert E2. run.
  destruct (CZString_copy (actualKey k) h) as [[k1 h1]| |]; run; try done. destruct (CZString_copy k1 h1) as [[k2' h2]| |]; run; try done.
  destruct (CZString_delete k1 h2) as [h3| |]; run; try done. destruct (CZString_delete (actualKey k) h3) as [h4| |]; run; try done. intros [= -> ->].
  eexists _, _, _. split; [done|]. rewrite (entries_ok_split _ i) in Hl. apply andb_prop in Hl as [Hl1 Hl2]. split_and!.
  - change (comments_ok c && entries_ok (is_array k) (take i l ++ (k2, Scalar [] true) :: drop i l) = true). rewrite entries_ok_app, Hl1, Hc.
    change (key_ok (is_array k) k2 && true && entries_ok (is_array k) (drop i l) = true). by rewrite Hk2, Hl2.
  - rewrite length_app, length_take. cbn. lia.
  - eapply owned_ext; [|exact Hh']. intros p. cbn [own]. rewrite own_map_app, own_map_cons. pose proof (own_map_split i l p). cbn. lia.
Qed.
Lemma resolveReference_ok k v h rest : value_ok v = true -> owned_by (fun p => own v p + rest p)%nat h ->
  exists i v' h', resolveReference k v h = Done (i, (v', h')) /\ value_ok v' = true /\ owned_by (fun p => own v' p + rest p)%nat h' /\
  (forall j, i = Some j -> exists c l, v' = Map c (is_array k) l /\ (j < length l)%nat).
Proof.
  intros Hv Hh. assert (Hno : exists i v' h', Done (None, (v, h)) = Done (i, (v', h')) /\ value_ok v' = true /\ owned_by (fun p => own v' p + rest p)%nat h' /\
    (forall j : nat, i = Some j -> exists c l, v' = Map c (is_array k) l /\ (j < length l)%nat)) by by eexists None, v, h.
  assert (Hyes : forall c l, value_ok (Map c (is_array k) l) = true -> owned_by (fun p => own (Map c (is_array k) l) p + rest p)%nat h ->
    exists i v' h', find_entry k c l h = Done (i, (v', h')) /\ value_ok v' = true /\ owned_by (fun p => own v' p + rest p)%nat h' /\
    (forall j, i = Some j -> exists c l, v' = Map c (is_array k) l /\ (j < length l)%nat)).
  { intros c l Hv' Hh'. destruct (find_entry_ok k c l h rest Hv' Hh') as (i & m & h' & E & Hm & Hi & Ho). exists (Some i), (Map c (is_array k) m), h'. split_and!; try done. intros j [= <-]. eauto. }
  destruct v as [c [|]|c s a|c a l]; cbn [resolveReference]; try done; [by apply Hyes|]. case_bool_decide as Ha; [subst; by apply Hyes|done].
Qed.
Lemma entry_split (l : list (CZString * Value)) i kv : l !! i = Some kv -> l = take i l ++ kv :: drop (S i) l.
Proof. intros H. symmetry. by apply take_drop_middle. Qed.
Lemma at_path_runs {A} inp (op : Value -> Heap -> result A) out ok : runs inp op out ok -> (forall p, out None p = inp p) -> forall path, runs inp (at_path path op) out ok.
Proof.
  intros Hop Hout. induction path as [|k path IH]; intros v h rest Hv Hh; [by apply Hop|]. cbn [at_path].
  destruct (resolveReference_ok k v h (fun p => inp p + rest p)%nat Hv) as (i & v1 & h1 & E & Hv1 & Hh1 & Hi); [eapply owned_ext; [|exact Hh]; intros p; cbn; lia|]. rewrite E. run.
  assert (Hno : exists (a : option A) v' h', Done (None, (v1, h1)) = Done (a, (v', h')) /\ value_ok v' = true /\ owned_by (fun p => out a p + own v' p + rest p)%nat h' /\ (forall a', a = Some a' -> ok a')).
  { exists None, v1, h1. split; [done|]. split; [done|]. split; [|done]. eapply owned_ext; [|exact Hh1]. intros p. cbn. rewrite Hout. lia. }
  destruct i as [i|]; [|done]. destruct (Hi i eq_refl) as (c & l & -> & Hl). destruct (lookup_lt_is_Some_2 _ _ Hl) as [[key w] El]. rewrite El. run.
  pose proof Hv1 as [Hc He]%andb_prop. change (entries_ok (is_array k) l = true) in He. pose proof (entry_split l i _ El) as Es. rewrite Es, entries_ok_app in He. cbn in He. apply andb_prop in He as [He1 [[Hk Hw]%andb_prop He2]%andb_prop].
  destruct (IH w h1 (fun p => own_comments c p + own_map own (take i l) p + own_key key p + own_map own (drop (S i) l) p + rest p)%nat Hw) as (a & w' & h2 & E2 & Hw' & Hh2 & Ha).
  { eapply owned_ext; [|exact Hh1]. intros p. cbn [own]. rewrite Es at 1. rewrite own_map_app, own_map_cons. cbn. lia. }
  rewrite E2. run. eexists a, _, h2. split; [done|]. rewrite insert_take_drop by done. split_and!; [|eapply owned_ext; [|exact Hh2]|done].
  - change (comments_ok c && entries_ok (is_array k) (take i l ++ (key, w') :: drop (S i) l) = true). rewrite entries_ok_app. cbn in Hc. unfold entries_ok in *. cbn [forallb fst snd]. by rewrite Hc, He1, Hk, Hw', He2.
  - intros p. cbn [own]. rewrite own_map_app, own_map_cons. cbn. lia.
Qed.

Lemma touch_runs path : runs nothing (at_path path touch) (fun _ => nothing) (fun _ => True).
Proof. apply at_path_runs; [|done]. intros v h rest Hv Hh. by eexists _, v, h. Qed.
Definition own_option (a : option Value) : nat -> nat := match a with Some v => own v | None => nothing end.
Lemma copy_runs path : runs nothing (at_path path copy_of) own_option (fun w => value_ok w = true).
Proof.
  apply at_path_runs; [|done]. intros v h rest Hv Hh. unfold copy_of. destruct (Value_copy_ok v Hv _ h Hh) as (w & h' & E & Hw & Hh'); [intros p; cbn; lia|]. rewrite E. run.
  eexists _, v, h'. split; [done|]. split; [done|]. split; [eapply owned_ext; [|exact Hh']; intros p; cbn; unfold nothing; lia|]. by intros a' [= <-].
Qed.
Lemma value_ok_comments c v : comments_ok c = true -> value_ok v = true -> value_ok (with_comments c v) = true.
Proof. intros Hc. destruct v; intros [_ H]%andb_prop; cbn; by rewrite Hc. Qed.
Lemma value_comments_ok v : value_ok v = true -> comments_ok (comments_ v) = true.
Proof. by destruct v; intros [H _]%andb_prop. Qed.
Lemma own_with_comments c v p : (own (with_comments c v) p + own_comments (comments_ v) p = own v p + own_comments c p)%nat.
Proof. destruct v; cbn; lia. Qed.
Lemma swap_runs temp path : value_ok temp = true ->
  runs (own temp) (at_path path (swap_in temp)) (fun a => match a with Some v => own v | None => own temp end) (fun w => value_ok w = true).
Proof.
  intros Ht. apply at_path_runs; [|done]. intros v h rest Hv Hh. unfold swap_in, swap. eexists _, _, h. split; [done|]. split; [apply value_ok_comments; [by apply value_comments_ok|done]|]. split.
  - eapply owned_ext; [|exact Hh]. intros p. cbn. pose proof (own_with_comments (comments_ v) temp p). pose proof (own_with_comments (comments_ temp) v p). lia.
  - intros a' [= <-]. apply value_ok_comments; [by apply value_comments_ok|done].
Qed.
Lemma clear_runs path : runs nothing (at_path path clear) (fun _ => nothing) (fun _ => True).
Proof.
  apply at_path_runs; [|done]. intros v h rest Hv Hh. destruct v as [c [|]|c s a|c a l]; cbn [clear]; try by eexists _, _, h.
  pose proof Hv as [Hc Hl]%andb_prop. destruct (delete_map_ok a l (all_delete_ok l) Hl (fun p => own_comments c p + rest p)%nat h) as (h1 & E & Hh1).
  { eapply owned_ext; [|exact Hh]. intros p. cbn. unfold nothing. lia. }
  rewrite E. run. eexists _, _, h1. split; [done|]. split; [cbn; cbn in Hc; by rewrite Hc|]. by split.
Qed.
Lemma remove_runs name path : runs nothing (at_path path (removeMember name)) own_option (fun w => value_ok w = true).
Proof.
  apply at_path_runs; [|done]. intros v h rest Hv Hh.
  assert (Hno : forall a, (a = None \/ a = Some (Scalar [] true)) -> exists b v' h', Done (a, (v, h)) = Done (b, (v', h')) /\ value_ok v' = true /\
    owned_by (fun p => own_option b p + own v' p + rest p)%nat h' /\ (forall a', b = Some a' -> value_ok a' = true)).
  { intros a Ha. exists a, v, h. split; [done|]. split; [done|]. split; [by destruct Ha as [-> | ->]|]. intros a' ->. destruct Ha as [|[= ->]]; done. }
  destruct v as [c [|]|c s a|c [|] l]; cbn [removeMember]; try (apply Hno; auto; fail).
  pose proof Hv as [Hc Hl]%andb_prop. change (entries_ok false l = true) in Hl.
  destruct (lower_bound_ok false (actualKey (AtName name true)) l _ h (actualKey_plain (AtName name true)) Hl Hh) as (i & found & E & Hi & Hfound); [intros p; cbn; lia|]. rewrite E. run.
  destruct found; [|apply Hno; auto]. destruct (lookup_lt_is_Some_2 _ _ (Hfound eq_refl)) as [[key w] El]. rewrite El. run.
  pose proof (entry_split l i _ El) as Es. rewrite Es, entries_ok_app in Hl. cbn in Hl. apply andb_prop in Hl as [He1 [[Hk Hw]%andb_prop He2]%andb_prop].
  assert (Ho : forall p, own (Map c false l) p = (own_comments c p + own_map own (take i l) p + own_key key p + own w p + own_map own (drop (S i) l) p)%nat).
  { intros p. cbn [own]. rewrite Es at 1. rewrite own_map_app, own_map_cons. cbn. lia. }
  destruct (Value_copy_ok w Hw _ h Hh) as (old & h1 & E1 & Hold & Hh1); [intros p; specialize (Ho p); cbn in *; lia|]. rewrite E1. run.
  destruct (Value_delete_ok w Hw (fun p => own old p + own_comments c p + own_map own (take i l) p + own_key key p + own_map own (drop (S i) l) p + rest p)%nat h1) as (h2 & E2 & Hh2).
  { eapply owned_ext; [|exact Hh1]. intros p. specialize (Ho p). cbn [nothing] in *. unfold nothing. lia. }
  rewrite E2. run. destruct (key_delete_ok false key Hk (fun p => own old p + own_comments c p + own_map own (take i l) p + own_map own (drop (S i) l) p + rest p)%nat h2) as (h3 & E3 & Hh3).
  { eapply owned_ext; [|exact Hh2]. intros p. cbn. lia. }
  rewrite E3. run. eexists _, _, h3. split; [done|]. split.
  - change (comments_ok c && entries_ok false (take i l ++ drop (S i) l) = true). rewrite entries_ok_app. cbn in Hc. unfold entries_ok in *. by rewrite Hc, He1, He2.
  - split; [|by intros a' [= <-]]. eapply owned_ext; [|exact Hh3]. intros p. cbn [own own_option]. rewrite own_map_app. lia.
Qed.
Lemma own_comments_insert t c : forall i p, (i < length c)%nat ->
  (own_comments (<[i := Some t]> c) p + (match c !! i with Some (Some u) => own_cstr u p | _ => 0 end) = own_cstr t p + own_comments c p)%nat.
Proof.
  induction c as [|u c IH]; intros [|i] p Hi; cbn in Hi; try lia; [destruct u; cbn; lia|]. specialize (IH i p ltac:(lia)). change (<[S i := Some t]> (u :: c)) with (u :: <[i := Some t]> c). change ((u :: c) !! S i) with (c !! i). destruct u; cbn [own_comments] in *; lia.
Qed.
Lemma comments_ok_insert i t c : is_malloc t = true -> comments_ok c = true -> comments_ok (<[i := Some t]> c) = true.
Proof.
  unfold comments_ok. intros Ht [Hc Hl]%andb_prop. rewrite length_insert, Hl, andb_true_r. clear Hl. revert i. induction c as [|u c IH]; intros [|i]; try done; cbn in *; apply andb_prop in Hc as [Hu Hc].
  - by rewrite Ht, Hc.
  - rewrite Hu. by apply IH.
Qed.
Lemma comment_runs placement text path : comment_allowed text = true -> runs nothing (at_path path (setComment placement text)) (fun _ => nothing) (fun _ => True).
Proof.
  intros Ht. apply at_path_runs; [|done]. intros v h rest Hv Hh. unfold setComment.
  set (c := match comments_ v with [] => replicate 3 None | c => c end).
  assert (Hc : comments_ok c = true /\ length c = 3%nat /\ forall p, own_comments c p = own_comments (comments_ v) p).
  { pose proof (value_comments_ok v Hv) as Hc. unfold c. destruct (comments_ v) as [|u d] eqn:E; [done|]. split; [done|]. split; [|done].
    apply andb_prop in Hc as [_ Hl]. apply orb_prop in Hl as [Hl|Hl]; apply Nat.eqb_eq in Hl; done. }
  destruct Hc as (Hc & Hlen & Hown). assert (Hs : (slot placement < length c)%nat) by (rewrite Hlen; destruct placement; cbn; lia).
  set (old := fun p => match c !! slot placement with Some (Some u) => own_cstr u p | _ => 0%nat end).
  assert (Hold : forall p, (old p <= own_comments c p)%nat) by (intros p; pose proof (own_comments_insert (Outside []) c (slot placement) p Hs); unfold old; cbn in *; lia).
  assert (Hov : forall p, (own_comments c p <= own v p)%nat) by (intros p; rewrite Hown; destruct v; cbn; lia).
  assert (Hfree : exists h1, (match c !! slot placement with Some (Some t) => releaseStringValue t h | _ => Done h end) = Done h1 /\
    owned_by (fun p => own v p - old p + rest p)%nat h1).
  { destruct (c !! slot placement) as [[u|]|] eqn:Eu; [|eexists; split; [done|]; eapply owned_ext; [|exact Hh]; intros p; unfold old, nothing; lia..].
    assert (Hu : is_malloc u = true). { apply andb_prop in Hc as [Hc _]. pose proof (proj1 (forallb_forall _ _) Hc (Some u)) as Hi. apply Hi. apply list_elem_of_In. by eapply list_elem_of_lookup_2. }
    apply (release_string_ok u Hu). eapply owned_ext; [|exact Hh]. intros p. specialize (Hold p). specialize (Hov p). unfold old, nothing in *. lia. }
  destruct Hfree as (h1 & E1 & Hh1). rewrite E1. run. rewrite Ht. destruct (duplicate_ok (Outside text) _ h1 Hh1) as (d & h2 & E2 & Hd & Hh2); [intros p; cbn; lia|]. rewrite E2. run.
  eexists _, _, h2. split; [done|]. split; [apply value_ok_comments; [by apply comments_ok_insert|done]|]. split; [|done].
  eapply owned_ext; [|exact Hh2]. intros p. cbn. pose proof (own_with_comments (<[slot placement := Some d]> c) v p) as Hw. pose proof (own_comments_insert d c (slot placement) p Hs) as Hi.
  fold (old p) in Hi. specialize (Hown p). specialize (Hold p). specialize (Hov p). unfold nothing. lia.
Qed.

(** ** Stores *)
Definition own_vars (l : list (option Value)) (p : nat) : nat := sum_list (map (fun v => own_option v p) l).
#[local] Arguments own_vars : simpl never.
Definition vars_ok (l : list (option Value)) : Prop := Forall (fun v => match v with Some v => value_ok v = true | None => True end) l.
(** [extra]: what a value outside the store owns. *)
Definition good (extra : nat -> nat) (s : Store) : Prop := vars_ok (vars s) /\ owned_by (fun p => extra p + own_vars (vars s) p)%nat (heap s).
Lemma own_vars_cons v l p : own_vars (v :: l) p = (own_option v p + own_vars l p)%nat.
Proof. done. Qed.
Lemma own_vars_app l m p : own_vars (l ++ m) p = (own_vars l p + own_vars m p)%nat.
Proof. induction l as [|v l IH]; [done|]. cbn [app]. rewrite !own_vars_cons, IH. lia. Qed.
Lemma own_vars_insert l x v w p : l !! x = Some v -> (own_vars (<[x := w]> l) p + own_option v p = own_vars l p + own_option w p)%nat.
Proof.
  revert x. induction l as [|u l IH]; intros [|x] Hx; try done; [injection Hx as ->; change (<[0%nat := w]> (v :: l)) with (w :: l); rewrite !own_vars_cons; lia|].
  specialize (IH x Hx). change (<[S x := w]> (u :: l)) with (u :: <[x := w]> l). rewrite !own_vars_cons. lia.
Qed.
Lemma on_var_ok {A} inp (f : Value -> Heap -> result A) out ok x extra s : runs inp f out ok -> (forall p, out None p = inp p) -> good (fun p => inp p + extra p)%nat s ->
  exists a s', on_var x f s = Done (a, s') /\ good (fun p => out a p + extra p)%nat s' /\ (forall a', a = Some a' -> ok a').
Proof.
  intros Hf Hout [Hv Hh]. unfold on_var. assert (Hno : exists (a : option A) s', Done (None, s) = Done (a, s') /\ good (fun p => out a p + extra p)%nat s' /\ (forall a', a = Some a' -> ok a')).
  { exists None, s. split; [done|]. split; [|done]. split; [done|]. eapply owned_ext; [|exact Hh]. intros p. cbn. by rewrite Hout. }
  destruct (vars s !! x) as [[v|]|] eqn:Ex; [|done..]. pose proof (Forall_lookup_1 _ _ _ _ Hv Ex) as Hvx. cbn in Hvx.
  destruct (Hf v (heap s) (fun p => extra p + (own_vars (vars s) p - own v p))%nat Hvx) as (a & v' & h' & E & Hv' & Hh' & Ha).
  { eapply owned_ext; [|exact Hh]. intros p. cbn. pose proof (own_vars_insert _ _ _ None p Ex) as Ho. cbn in Ho. unfold nothing in Ho. lia. }
  rewrite E. run. eexists a, _. split; [done|]. split; [|done]. split; cbn [vars heap]; [by apply Forall_insert|]. eapply owned_ext; [|exact Hh']. intros p. cbn.
  pose proof (own_vars_insert _ _ _ None p Ex) as Ho. pose proof (own_vars_insert _ _ _ (Some v') p Ex) as Ho'. cbn in Ho, Ho'. unfold nothing in Ho. lia.
Qed.
Lemma new_var_ok v s : value_ok v = true -> good (own v) s -> good nothing (new_var v (heap s) s).
Proof.
  intros Hv [Hs Hh]. split; cbn; [apply Forall_app; split; [done|by constructor]|]. eapply owned_ext; [|exact Hh]. intros p. cbn. rewrite own_vars_app. unfold own_vars, nothing. cbn. lia.
Qed.
Definition allowed (c : call) : bool := match c with Comment _ _ _ text => comment_allowed text | _ => true end.
Lemma good_ext f g s : (forall p, f p = g p) -> good f s -> good g s.
Proof. intros E [Hv Hh]. split; [done|]. eapply owned_ext; [|exact Hh]. intros p. cbn. by rewrite E. Qed.
(** An operation that neither takes nor gives a value, and one that gives one. *)
Lemma on_var_plain (f : Value -> Heap -> result unit) x s : runs nothing f (fun _ => nothing) (fun _ => True) -> good nothing s ->
  exists a s', on_var x f s = Done (a, s') /\ good nothing s'.
Proof. intros Hf Hs. destruct (on_var_ok _ f _ _ x nothing s Hf) as (a & s' & E & Hs' & _); [done|done|]. by exists a, s'. Qed.
Lemma on_var_gives (f : Value -> Heap -> result Value) x s : runs nothing f own_option (fun w => value_ok w = true) -> good nothing s ->
  exists a s', on_var x f s = Done (a, s') /\ good (own_option a) s' /\ match a with Some v => value_ok v = true | None => True end.
Proof.
  intros Hf Hs. destruct (on_var_ok _ f _ _ x nothing s Hf) as (a & s' & E & Hs' & Ha); [done|done|]. exists a, s'. split; [done|]. split; [eapply good_ext; [|exact Hs']; intros p; unfold nothing; lia|].
  destruct a; [by apply Ha|done].
Qed.
Lemma given_var a s : good (own_option a) s -> match a with Some v => value_ok v = true | None => True end -> good nothing (match a with Some v => new_var v (heap s) s | None => s end).
Proof. intros Hs Ha. destruct a; [by apply new_var_ok|done]. Qed.
Lemma delete_extra v s : value_ok v = true -> good (own v) s -> exists h, Value_delete v (heap s) = Done h /\ good nothing (mkStore (vars s) h).
Proof. intros Hv [Hs Hh]. destruct (Value_delete_ok v Hv (fun p => own_vars (vars s) p) (heap s) Hh) as (h & E & Hh'). exists h. by split_and!. Qed.
Lemma do_call_owned c s : allowed c = true -> good nothing s -> exists s', do_call c s = Done s' /\ good nothing s'.
Proof.
  intros Ha Hs. destruct c as [n|t|t|a|y q|x p y q|x p name|x p|x p pl text|x]; cbn [do_call].
  - eexists. split; [done|]. by apply new_var_ok.
  - unfold Value_string. destruct Hs as [Hv Hh]. destruct (duplicate_ok (Outside t) _ (heap s) Hh) as (d & h & E & Hd & Hh'); [intros p; cbn; lia|]. rewrite E. run. eexists. split; [done|].
    apply (new_var_ok _ (mkStore (vars s) h)); [cbn; by rewrite Hd|]. split; [done|]. eapply owned_ext; [|exact Hh']. intros p. unfold nothing. cbn. lia.
  - eexists. split; [done|]. by apply new_var_ok.
  - eexists. split; [done|]. by apply new_var_ok.
  - destruct (on_var_gives _ y s (copy_runs q) Hs) as (v & s1 & E & Hs1 & Hv). rewrite E. run. eexists. split; [done|]. by apply given_var.
  - destruct (on_var_plain _ y s (touch_runs q) Hs) as (a1 & s1 & E1 & Hs1). rewrite E1. run. destruct (on_var_plain _ x s1 (touch_runs p) Hs1) as (a2 & s2 & E2 & Hs2). rewrite E2. run.
    destruct (on_var_gives _ y s2 (copy_runs q) Hs2) as (temp & s3 & E3 & Hs3 & Ht). rewrite E3. run. destruct temp as [temp|]; [|by eexists]. cbn [own_option] in Hs3.
    destruct (on_var_ok _ _ _ _ x nothing s3 (swap_runs temp p Ht)) as (old & s4 & E4 & Hs4 & Ho); [done|eapply good_ext; [|exact Hs3]; intros r; unfold nothing; lia|]. rewrite E4. run.
    assert (Hold : value_ok (match old with Some old => old | None => temp end) = true) by (destruct old; [by apply Ho|done]).
    destruct (delete_extra _ s4 Hold) as (h & E5 & Hs5); [eapply good_ext; [|exact Hs4]; intros r; unfold nothing; destruct old; lia|]. rewrite E5. run. by eexists.
  - destruct (on_var_gives _ x s (remove_runs name p) Hs) as (v & s1 & E & Hs1 & Hv). rewrite E. run. eexists. split; [done|]. by apply given_var.
  - destruct (on_var_plain _ x s (clear_runs p) Hs) as (a1 & s1 & E1 & Hs1). rewrite E1. run. by eexists.
  - destruct (on_var_plain _ x s (comment_runs pl text p Ha) Hs) as (a1 & s1 & E1 & Hs1). rewrite E1. run. by eexists.
  - destruct (vars s !! x) as [[v|]|] eqn:Ex; [|by eexists..]. destruct Hs as [Hv Hh]. pose proof (Forall_lookup_1 _ _ _ _ Hv Ex) as Hvx. cbn in Hvx.
    destruct (Value_delete_ok v Hvx (own_vars (<[x := None]> (vars s))) (heap s)) as (h & E & Hh').
    { eapply owned_ext; [|exact Hh]. intros p. pose proof (own_vars_insert _ _ _ None p Ex) as Ho. cbn in Ho. unfold nothing in *. lia. }
    rewrite E. run. eexists. split; [done|]. split; [by apply Forall_insert|done].
Qed.
Lemma do_calls_owned l : forall s, forallb allowed l = true -> good nothing s -> exists s', do_calls l s = Done s' /\ good nothing s'.
Proof.
  induction l as [|c l IH]; intros s Hl Hs; [by eexists|]. cbn in Hl. apply andb_prop in Hl as [Hc Hl]. destruct (do_call_owned c s Hc Hs) as (s1 & E & Hs1). cbn [do_calls]. rewrite E. run. by apply IH.
Qed.
Lemma NoDup_cnt l : (forall p, cnt p l <= 1)%nat -> NoDup l.
Proof.
  induction l as [|q l IH]; intros H; constructor.
  - intros Hq. apply cnt_elem in Hq. specialize (H q). rewrite cnt_cons in H. unfold one in H. rewrite decide_True in H by done. lia.
  - apply IH. intros p. specialize (H p). rewrite cnt_cons in H. lia.
Qed.
(** C32. Whatever values a program makes, copies, assigns to each other or into themselves, looks into, empties and destroys, if every comment text it sets is empty or starts with a
    slash, so that none is refused ([refused_comment_frees] is what a refused one does): no string is read or freed that is not allocated;
    each allocated string has exactly one place that owns it in all variables together, and when all variables are gone none is left. *)
Theorem strings_have_one_owner l : forallb allowed l = true -> exists s, do_calls l Store_new = Done s /\ NoDup (live (heap s)) /\
  (forall p, cnt p (live (heap s)) = own_vars (vars s) p) /\ (Forall (fun v => v = None) (vars s) -> live (heap s) = []).
Proof.
  intros Hl. destruct (do_calls_owned l Store_new Hl) as (s & E & _ & [H1 H2 _]); [split; [exact (Forall_nil_2 _)|by split; intros p; cbn; change (own_vars [] p) with 0%nat; unfold nothing; cbn; try done; lia]|]. exists s. split_and!; [done| |done|].
  - apply NoDup_cnt. intros p. rewrite H1. apply H2.
  - intros Hn. destruct (live (heap s)) as [|p m] eqn:El; [done|]. specialize (H1 p). rewrite cnt_cons in H1. unfold one in H1. rewrite decide_True in H1 by done.
    assert (own_vars (vars s) p = 0%nat); [|unfold nothing in H1; lia]. clear -Hn. induction Hn as [|v l -> _ IH]; [done|]. by rewrite own_vars_cons, IH.
Qed.

(** ** Examples *)
(** [root["a"]["x"] = "t"; root["b"] = root; old = root.removeMember("a"); root = root["b"]]. *)
Definition demo_calls : list call := [NewScalar true; NewString [116]; Assign 0 [AtName [97] false; AtName [120] true] 1 []; Comment 0 [AtName [97] false] commentBefore [47; 47];
  Assign 0 [AtName [98] false] 0 []; Remove 0 [] [97]; Assign 0 [] 0 [AtName [98] false]].
Lemma strings_have_one_owner_witness : exists s, do_calls demo_calls Store_new = Done s /\ length (live (heap s)) = 7%nat /\ NoDup (live (heap s)).
Proof.
  destruct (strings_have_one_owner demo_calls) as (s & E & Hn & _); [reflexivity|]. exists s. split; [exact E|]. split; [|exact Hn]. vm_compute in E. injection E as <-. reflexivity.
Defined.
(** A comment that is refused frees the one before it, which is freed again with the value. *)
Example refused_comment_frees : do_calls [NewScalar true; Comment 0 [] commentBefore [47; 47]; Comment 0 [] commentBefore [97]; Delete 0] Store_new = Undefined.
Proof. vm_compute. reflexivity. Qed.
