(* ===== verification/JsonConvert.v ===== *)
(** * json/jsoncpp.cpp: the numeric and truth conversions of JSON values

    The conversions Json.v leaves out: to 64-bit integers, doubles and truth values, the
    tests that go with them, and [isConvertibleTo].  A double is [m * 2 ^ e]; converting an
    integer rounds it to 53 bits, ties to even.  A conversion that throws is [Threw]; converting a
    double to an integer type that does not hold it is [Undefined]. *)
From S2P Require Import Prelude Text Json JsonOrder.

Definition minInt64 : Z := - 2 ^ 63.
Definition maxInt64 : Z := 2 ^ 63 - 1.
Definition maxUInt64 : Z := 2 ^ 64 - 1.

(** [static_cast<double>]: the significand and the exponent. *)
Definition to_double (z : Z) : Z * Z :=
  let e := Z.max 0 (Z.log2 (Z.abs z) - 52) in
  let q := Z.shiftr z e in
  let r := z - q * 2 ^ e in
  let half := 2 ^ (e - 1) in
  if e =? 0 then (z, 0)
  else if (half <? r) || ((half =? r) && Z.odd q) then (q + 1, e) else (q, e).
Definition real_eq (m e m' e' : Z) : bool := is_Eq (real_compare m e m' e').
(** [d <= z] for a double and an integer that is converted, as [InRange] compares; and [d < z]. *)
Definition real_le_int (m e z : Z) : bool := let '(m', e') := to_double z in negb (is_Lt (real_compare m' e' m e)).
Definition int_le_real (z m e : Z) : bool := let '(m', e') := to_double z in negb (is_Lt (real_compare m e m' e')).
Definition real_lt_int (m e z : Z) : bool := let '(m', e') := to_double z in is_Lt (real_compare m e m' e').
Definition InRange_double (m e lo hi : Z) : bool := int_le_real lo m e && real_le_int m e hi.

(** ** Tests *)
Definition isBool (v : Value) : bool := match v with booleanValue _ => true | _ => false end.
Definition isInt64 (v : Value) : bool :=
  match v with
  | intValue _ => true
  | uintValue u => u <=? maxInt64
  | realValue m e => int_le_real minInt64 m e && real_lt_int m e maxInt64 && IsIntegral m e
  | _ => false
  end.
(** [maxUInt64AsDouble] is [2 ^ 64]. *)
Definition isUInt64 (v : Value) : bool :=
  match v with
  | intValue i => 0 <=? i
  | uintValue _ => true
  | realValue m e => int_le_real 0 m e && real_lt_int m e (2 ^ 64) && IsIntegral m e
  | _ => false
  end.
Definition isIntegral (v : Value) : bool := isInt64 v || isUInt64 v.
Definition isDouble (v : Value) : bool := match v with realValue _ _ => true | _ => isIntegral v end.
Definition isNumeric (v : Value) : bool := isIntegral v || isDouble v.

(** ** Conversions *)
(** A double that an integer type of the range takes, its fraction dropped. *)
Definition cast_int (m e lo hi : Z) : outcome Z :=
  let z := real_trunc m e in if (lo <=? z) && (z <=? hi) then Done z else Undefined.
Definition asInt64 (v : Value) : outcome Z :=
  match v with
  | intValue i => Done i
  | uintValue u => if isInt64 v then Done u else Threw
  | realValue m e => if InRange_double m e minInt64 maxInt64 then cast_int m e minInt64 maxInt64 else Threw
  | nullValue => Done 0
  | booleanValue b => Done (if b then 1 else 0)
  | _ => Threw
  end.
Definition asUInt64 (v : Value) : outcome Z :=
  match v with
  | intValue i => if isUInt64 v then Done i else Threw
  | uintValue u => Done u
  | realValue m e => if InRange_double m e 0 maxUInt64 then cast_int m e 0 maxUInt64 else Threw
  | nullValue => Done 0
  | booleanValue b => Done (if b then 1 else 0)
  | _ => Threw
  end.
Definition asLargestInt (v : Value) : outcome Z := asInt64 v.
Definition asLargestUInt (v : Value) : outcome Z := asUInt64 v.
Definition asDouble (v : Value) : outcome (Z * Z) :=
  match v with
  | intValue i => Done (to_double i)
  | uintValue u => Done (to_double u)
  | realValue m e => Done (m, e)
  | nullValue => Done (0, 0)
  | booleanValue b => Done (if b then 1 else 0, 0)
  | _ => Threw
  end.
Definition asBool (v : Value) : outcome bool :=
  match v with
  | booleanValue b => Done b
  | nullValue => Done false
  | intValue i => Done (negb (i =? 0))
  | uintValue u => Done (negb (u =? 0))
  | realValue m _ => Done (negb (m =? 0))
  | _ => Threw
  end.
(** The type of [other] is that of a value. *)
Inductive ValueType := null_type | int_type | uint_type | real_type | string_type | boolean_type | array_type | object_type.
Definition is_zero (v : Value) : bool := match asDouble v with Done (m, e) => real_eq m e 0 0 | _ => false end.
Definition isConvertibleTo `{DoubleText} (v : Value) (other : ValueType) : bool :=
  match other with
  | null_type =>
    (isNumeric v && is_zero v) ||
    match v with
    | booleanValue b => negb b
    | stringValue s => bool_decide (asString v = Some [])
    | arrayValue l => bool_decide (l = [])
    | objectValue l => bool_decide (l = [])
    | nullValue => true
    | _ => false
    end
  | int_type => isInt v || match v with realValue m e => InRange m e minInt maxInt | booleanValue _ | nullValue => true | _ => false end
  | uint_type => isUInt v || match v with realValue m e => InRange m e 0 maxUInt | booleanValue _ | nullValue => true | _ => false end
  | real_type | boolean_type => isNumeric v || match v with booleanValue _ | nullValue => true | _ => false end
  | string_type => isNumeric v || match v with booleanValue _ | stringValue _ | nullValue => true | _ => false end
  | array_type => match v with arrayValue _ | nullValue => true | _ => false end
  | object_type => match v with objectValue _ | nullValue => true | _ => false end
  end.

(** ** Bounds of what is cast *)
Lemma real_compare_int m e M E : 0 <= e -> 0 <= E -> real_compare m e M E = (m * 2 ^ e ?= M * 2 ^ E).
Proof.
  intros He HE. rewrite (real_compare_scale 0) by done. by rewrite !Z.sub_0_r.
Qed.
Lemma real_compare_fraction m e M E : e < 0 -> 0 <= E -> real_compare m e M E = (m ?= M * 2 ^ E * 2 ^ (- e)).
Proof.
  intros He HE. rewrite (real_compare_scale e) by lia. rewrite Z.sub_diag, Z.pow_0_r, Z.mul_1_r. f_equal.
  rewrite <- Z.mul_assoc, <- Z.pow_add_r by lia. do 2 f_equal. 
Qed.
Lemma quot_bounds m d N : 0 < d -> (0 < N -> m < N * d -> Z.quot m d < N) /\ (N <= 0 -> N * d <= m -> N <= Z.quot m d).
Proof.
  intros Hd. destruct (Z_lt_le_dec m 0) as [Hm|Hm].
  - assert (Hq : Z.quot m d = - ((- m) / d)) by (rewrite <- (Z.opp_involutive m) at 1; rewrite Z.quot_opp_l by lia; by rewrite Z.quot_div_nonneg by lia).
    rewrite Hq. assert (0 <= (- m) / d) by (apply Z.div_pos; lia). split; [lia|]. intros HN Hle.
    assert ((- m) / d <= - N) by (apply Z.div_le_upper_bound; lia). lia.
  - rewrite Z.quot_div_nonneg by lia. assert (0 <= m / d) by (apply Z.div_pos; lia). split; [|lia].
    intros HN Hlt. apply Z.div_lt_upper_bound; lia.
Qed.
Lemma trunc_lt m e M E : 0 <= E -> 0 < M -> real_compare m e M E = Lt -> real_trunc m e < M * 2 ^ E.
Proof.
  intros HE HM Hc. unfold real_trunc. destruct (Z.leb_spec 0 e) as [He|He].
  - rewrite real_compare_int in Hc by done. by apply Z.compare_lt_iff.
  - rewrite real_compare_fraction in Hc by done. apply quot_bounds; [apply Z.pow_pos_nonneg; lia| |by apply Z.compare_lt_iff].
    apply Z.mul_pos_pos; [done|]. apply Z.pow_pos_nonneg; lia.
Qed.
Lemma trunc_ge m e M E : 0 <= E -> M <= 0 -> real_compare m e M E <> Lt -> M * 2 ^ E <= real_trunc m e.
Proof.
  intros HE HM Hc. unfold real_trunc. destruct (Z.leb_spec 0 e) as [He|He].
  - rewrite real_compare_int in Hc by done. by apply Z.compare_ge_iff.
  - rewrite real_compare_fraction in Hc by done. apply quot_bounds; [apply Z.pow_pos_nonneg; lia| |by apply Z.compare_ge_iff].
    apply Z.mul_nonpos_nonneg; [done|]. apply Z.pow_nonneg. lia.
Qed.
Lemma is_Lt_spec c : is_Lt c = true <-> c = Lt.
Proof. by destruct c. Qed.
Lemma is_Lt_false c : negb (is_Lt c) = true <-> c <> Lt.
Proof. by destruct c. Qed.
Lemma real_lt_le m e M E M' E' : real_compare m e M E = Lt -> real_compare M E M' E' <> Gt -> negb (is_Lt (real_compare M' E' m e)) = true.
Proof.
  intros H1 H2. apply is_Lt_false. rewrite real_compare_antisym. pose proof (real_compare_agree m e M E M' E') as H. unfold agree in H.
  destruct H as (_ & Ha & Hb). rewrite H1 in Ha, Hb. destruct (real_compare M E M' E'); [by rewrite Ha|by rewrite Hb|done].
Qed.

Section conversions.
Context `{DoubleText}.
Lemma in_range_cast m e M E M' lo hi : InRange_double m e lo hi = true -> is_Lt (real_compare m e M' E) = true -> 0 <= E -> M <= 0 -> 0 < M' ->
  to_double lo = (M, E) -> M * 2 ^ E = lo -> M' * 2 ^ E = hi + 1 -> exists z, cast_int m e lo hi = Done z.
Proof.
  unfold InRange_double, int_le_real. intros [H1 _]%andb_prop H2 HE HM HM' Elo Hlo Hhi. rewrite Elo in H1. apply is_Lt_false in H1. apply is_Lt_spec in H2.
  pose proof (trunc_ge m e M E HE HM H1). pose proof (trunc_lt m e M' E HE HM' H2). unfold cast_int.
  exists (real_trunc m e). destruct (Z.leb_spec lo (real_trunc m e)), (Z.leb_spec (real_trunc m e) hi); cbn; lia || done.
Qed.
Lemma isInt64_asInt64 v : isInt64 v = true -> exists z, asInt64 v = Done z.
Proof.
  destruct v as [|i|u|m e|s|b|l|l]; cbn [isInt64 asInt64]; intros Hv; try discriminate Hv; [by eexists|rewrite Hv; by eexists|].
  apply andb_prop in Hv as [[H1 H2]%andb_prop _]. unfold real_lt_int in H2. change (to_double maxInt64) with (2 ^ 53, 10) in H2.
  assert (HR : InRange_double m e minInt64 maxInt64 = true).
  { unfold InRange_double, real_le_int. rewrite H1. change (to_double maxInt64) with (2 ^ 53, 10). apply is_Lt_spec in H2.
    by apply (real_lt_le m e (2 ^ 53) 10). }
  rewrite HR. apply (in_range_cast m e (- 2 ^ 52) 11 (2 ^ 52)); try reflexivity; [done| |lia..].
  apply is_Lt_spec. apply is_Lt_spec in H2. pose proof (real_compare_agree m e (2 ^ 53) 10 (2 ^ 52) 11) as Ha. destruct Ha as (_ & Ha & _).
  rewrite Ha by reflexivity. done.
Qed.
Lemma isUInt64_asUInt64 v : isUInt64 v = true -> exists z, asUInt64 v = Done z.
Proof.
  destruct v as [|i|u|m e|s|b|l|l]; cbn [isUInt64 asUInt64]; intros Hv; try discriminate Hv; [rewrite Hv; by eexists|by eexists|].
  apply andb_prop in Hv as [[H1 H2]%andb_prop _]. unfold real_lt_int in H2. change (to_double (2 ^ 64)) with (2 ^ 52, 12) in H2.
  assert (HR : InRange_double m e 0 maxUInt64 = true).
  { unfold InRange_double, real_le_int. rewrite H1. change (to_double maxUInt64) with (2 ^ 53, 11). apply is_Lt_spec in H2.
    by apply (real_lt_le m e (2 ^ 52) 12). }
  rewrite HR. apply (in_range_cast m e 0 0 (2 ^ 64)); try reflexivity; [done| |lia..].
  apply is_Lt_spec. apply is_Lt_spec in H2. pose proof (real_compare_agree m e (2 ^ 52) 12 (2 ^ 64) 0) as Ha. destruct Ha as (_ & Ha & _).
  rewrite Ha by reflexivity. done.
Qed.
Lemma numeric_number v : isNumeric v = match v with intValue _ | uintValue _ | realValue _ _ => true | _ => false end.
Proof. unfold isNumeric, isDouble, isIntegral. destruct v; cbn; try done; by rewrite ?orb_true_r. Qed.

(** [isConvertibleTo] answers yes exactly when the conversion does not throw, for the types that have one, and
    a value that passes the test for a 64-bit type is converted without undefined behaviour. *)
Theorem conversions_match_tests v :
  (isConvertibleTo v int_type = true <-> asInt v <> None) /\
  (isConvertibleTo v uint_type = true <-> asUInt v <> None) /\
  (isConvertibleTo v real_type = true <-> asDouble v <> Threw) /\
  (isConvertibleTo v boolean_type = true <-> asBool v <> Threw) /\
  (isConvertibleTo v string_type = true <-> asString v <> None) /\
  (isInt64 v = true -> exists z, asInt64 v = Done z) /\
  (isUInt64 v = true -> exists z, asUInt64 v = Done z).
Proof.
  split_and!; [| | | | |apply isInt64_asInt64|apply isUInt64_asUInt64]; unfold isConvertibleTo; rewrite ?numeric_number.
  - destruct v as [|i|u|m e|s|b|l|l]; cbn [asInt]; rewrite ?orb_false_r; try done.
    + destruct (isInt _); done.
    + destruct (isInt _); done.
    + cbn [isInt]. destruct (InRange m e minInt maxInt); [by rewrite orb_true_r|done].
  - destruct v as [|i|u|m e|s|b|l|l]; cbn [asUInt]; rewrite ?orb_false_r; try done.
    + destruct (isUInt _); done.
    + destruct (isUInt _); done.
    + cbn [isUInt]. destruct (InRange m e 0 maxUInt); [by rewrite orb_true_r|done].
  - by destruct v.
  - by destruct v.
  - by destruct v.
Qed.
End conversions.

(** ** Examples *)
(** [2 ^ 63] passes the range check of [asInt64], whose bound is rounded up to it. *)
Example asInt64_overflows : asInt64 (realValue 1 63) = Undefined /\ isInt64 (realValue 1 63) = false.
Proof. split; reflexivity. Qed.
Example asUInt64_overflows : asUInt64 (realValue 1 64) = Undefined /\ isUInt64 (realValue 1 64) = false.
Proof. split; reflexivity. Qed.
