(* ===== verification/JsonReader.v ===== *)
(** * json/jsoncpp.cpp: the reader with its features, errors, comments and offsets

    JsonText.v models what [Reader] makes of a document with the features the SDK uses; this file models the whole reader:
    the other features, the errors and the recovery from them, and the comments and
    offsets that values get.  Tokens and the text of strings and numbers are
    those of JsonText.v; a position is an offset into the document, which is shorter than 2^31.  A pointer to a value is the path that
    leads to it from the root, and a path to nothing is a dangling pointer. *)
From Stdlib Require Import Ascii String OrderedTypeEx.
From S2P Require Import Prelude Text Json JsonText.

(** ** Values with their comments and offsets *)
Record Features := mkFeatures { allowComments_ : bool; strictRoot_ : bool; allowDroppedNullPlaceholders_ : bool; allowNumericKeys_ : bool }.
Definition Features_all : Features := mkFeatures true false false false.
Definition Features_strictMode : Features := mkFeatures false true false false.
Inductive CommentPlacement := commentBefore | commentAfterOnSameLine | commentAfter.
(** What [comments_], [start_] and [limit_] of a value hold. *)
Record Info := mkInfo { before_ : option (list Z); same_line_ : option (list Z); after_ : option (list Z); offset_start : Z; offset_limit : Z }.
Definition Info_new : Info := mkInfo None None None 0 0.
#[local] Unset Elimination Schemes.
Inductive Node := Scalar (i : Info) (v : Value) | Elements (i : Info) (l : list Node) | Members (i : Info) (l : list (string * Node)).
#[local] Set Elimination Schemes.
Definition info (n : Node) : Info := match n with Scalar i _ | Elements i _ | Members i _ => i end.
Definition with_info (i : Info) (n : Node) : Node := match n with Scalar _ v => Scalar i v | Elements _ l => Elements i l | Members _ l => Members i l end.
Definition null : Node := Scalar Info_new nullValue.
(** The value itself. *)
Fixpoint plain (n : Node) : Value :=
  match n with
  | Scalar _ v => v
  | Elements _ l => arrayValue (map plain l)
  | Members _ l => objectValue (map (fun kv => (kv.1, plain kv.2)) l)
  end.
(** [n = Value(...)]: [swap] leaves the comments where they are. *)
Definition assign (value : Info -> Node) (n : Node) : Node :=
  value (mkInfo (before_ (info n)) (same_line_ (info n)) (after_ (info n)) 0 0).
Definition setOffsetStart (start : Z) (n : Node) : Node :=
  let i := info n in with_info (mkInfo (before_ i) (same_line_ i) (after_ i) (u64 start) (offset_limit i)) n.
Definition setOffsetLimit (limit : Z) (n : Node) : Node :=
  let i := info n in with_info (mkInfo (before_ i) (same_line_ i) (after_ i) (offset_start i) (u64 limit)) n.
Definition setOffsets (start limit : nat) (n : Node) : Node := setOffsetLimit (Z.of_nat limit) (setOffsetStart (Z.of_nat start) n).
Definition put_comment (comment : list Z) (placement : CommentPlacement) (n : Node) : Node :=
  let i := info n in
  let c := Some (c_str comment) in
  with_info (match placement with
    | commentBefore => mkInfo c (same_line_ i) (after_ i) (offset_start i) (offset_limit i)
    | commentAfterOnSameLine => mkInfo (before_ i) c (after_ i) (offset_start i) (offset_limit i)
    | commentAfter => mkInfo (before_ i) (same_line_ i) c (offset_start i) (offset_limit i) end) n.
Definition getComment (placement : CommentPlacement) (n : Node) : list Z :=
  default [] (match placement with commentBefore => before_ (info n) | commentAfterOnSameLine => same_line_ (info n) | commentAfter => after_ (info n) end).

(** Members, in the order of their keys. *)
Fixpoint find_member {A} (key : string) (l : list (string * A)) : option A :=
  match l with [] => None | (k, v) :: l => if (k =? key)%string then Some v else find_member key l end.
(** Another value where there is one. *)
Fixpoint replace_member {A} (key : string) (v : A) (l : list (string * A)) : list (string * A) :=
  match l with [] => [] | (k, w) :: l => if (k =? key)%string then (k, v) :: l else (k, w) :: replace_member key v l end.
(** [map::insert]. *)
Fixpoint set_member (key : string) (v : Node) (l : list (string * Node)) : list (string * Node) :=
  match l with
  | [] => [(key, v)]
  | (k, w) :: l' =>
    if (k =? key)%string then (key, v) :: l' else if (key <? k)%string then (key, v) :: l else (k, w) :: set_member key v l'
  end.
(** Paths. *)
Inductive place := At (i : nat) | Named (key : string).
Fixpoint node_at (p : list place) (n : Node) : option Node :=
  match p with
  | [] => Some n
  | At i :: p => match n with Elements _ l => x ← l !! i; node_at p x | _ => None end
  | Named k :: p => match n with Members _ l => x ← find_member k l; node_at p x | _ => None end
  end.
Fixpoint modify (p : list place) (f : Node -> option Node) (n : Node) : option Node :=
  match p with
  | [] => f n
  | At i :: p => match n with Elements a l => x ← l !! i; y ← modify p f x; Some (Elements a (<[i := y]> l)) | _ => None end
  | Named k :: p => match n with Members a l => x ← find_member k l; y ← modify p f x; Some (Members a (replace_member k y l)) | _ => None end
  end.
(** [operator[]] of an array and of an object, which creates what is not there; the reader asks for at most the index after the last. *)
Definition touch_index (i : nat) (n : Node) : option Node :=
  match n with Elements a l => Some (if (i <? length l)%nat then n else Elements a (l ++ [null])) | _ => None end.
Definition touch_member (key : string) (n : Node) : option Node :=
  match n with Members a l => Some (match find_member key l with Some _ => n | None => Members a (set_member key null l) end) | _ => None end.

(** ** The reader *)
Record Token := mkToken { type_ : TokenType; start_ : nat; end_ : nat }.
Record ErrorInfo := mkError { token_ : Token; message_ : list Z; extra_ : option nat }.
Record Reader := mkReader { current_ : nat; root_ : Node; errors_ : list ErrorInfo; lastValueEnd_ : option nat; lastValue_ : option (list place);
  commentsBefore_ : list Z }.
Definition set_current (c : nat) (s : Reader) : Reader := mkReader c (root_ s) (errors_ s) (lastValueEnd_ s) (lastValue_ s) (commentsBefore_ s).
Definition set_root (r : Node) (s : Reader) : Reader := mkReader (current_ s) r (errors_ s) (lastValueEnd_ s) (lastValue_ s) (commentsBefore_ s).
Definition set_errors (e : list ErrorInfo) (s : Reader) : Reader := mkReader (current_ s) (root_ s) e (lastValueEnd_ s) (lastValue_ s) (commentsBefore_ s).
Definition set_last (e : nat) (p : list place) (s : Reader) : Reader := mkReader (current_ s) (root_ s) (errors_ s) (Some e) (Some p) (commentsBefore_ s).
Definition set_commentsBefore (c : list Z) (s : Reader) : Reader := mkReader (current_ s) (root_ s) (errors_ s) (lastValueEnd_ s) (lastValue_ s) c.

(** The reader's operations: [None] while they still run, and otherwise their outcome. *)
Definition M (A : Type) : Type := Reader -> option (outcome (A * Reader)).
#[global] Instance M_ret : MRet M := fun A a s => Some (Done (a, s)).
#[global] Instance M_bind : MBind M := fun A B f m s =>
  match m s with None => None | Some Threw => Some Threw | Some Undefined => Some Undefined | Some (Done (a, s')) => f a s' end.
Definition gets {A} (f : Reader -> A) : M A := fun s => Some (Done (f s, s)).
Definition update (f : Reader -> Reader) : M unit := fun s => Some (Done (tt, f s)).
Definition at_node (p : list place) (f : Node -> option Node) : M unit := fun s =>
  Some (match modify p f (root_ s) with Some r => Done (tt, set_root r s) | None => Undefined end).
Definition throw : M unit := fun s => Some Threw.
Definition setComment (p : list place) (comment : list Z) (placement : CommentPlacement) : M unit :=
  match comment with
  | [] => at_node p (fun n => Some (put_comment comment placement n))
  | c :: _ => if (c =? 0) || (c =? 47) then at_node p (fun n => Some (put_comment comment placement n)) else throw
  end.

Section reader.
Context {DT : DoubleText}.
Variable document_ : list Z.
Variable features_ : Features.
Variable collectComments_ : bool.
Definition rest (s : Reader) : list Z := drop (current_ s) document_.
Definition offset_of (l : list Z) : nat := length document_ - length l.
Definition slice (a b : nat) : list Z := take (b - a) (drop a document_).
Definition text_token (t : Token) : JsonText.Token := JsonText.mkToken (type_ t) (slice (start_ t) (end_ t)).

Definition addError (message : list Z) (token : Token) (extra : option nat) : M bool :=
  _ ← update (fun s => set_errors (errors_ s ++ [mkError token message extra]) s); mret false.
Definition containsNewLine (a b : nat) : bool := existsb (fun c => (c =? 10) || (c =? 13)) (slice a b).
Definition addComment (a b : nat) (placement : CommentPlacement) : M unit :=
  match placement with
  | commentAfterOnSameLine =>
    last ← gets lastValue_;
    match last with Some p => setComment p (slice a b) placement | None => fun _ => Some Undefined end
  | _ => update (fun s => set_commentsBefore (match commentsBefore_ s with [] => [] | c => c ++ [10] end ++ slice a b) s)
  end.
(** [c] is the character after the slash. *)
Definition placement_of (s : Reader) (commentBegin current : nat) (c : Z) : CommentPlacement :=
  match lastValueEnd_ s with
  | Some e => if negb (containsNewLine e commentBegin) && (negb (c =? 42) || negb (containsNewLine commentBegin current))
    then commentAfterOnSameLine else commentBefore
  | None => commentBefore
  end.
Definition readToken : M Token :=
  l ← gets rest;
  let '(t, l') := JsonText.readToken l in
  let token := mkToken (JsonText.type_ t) (offset_of (skipSpaces l)) (offset_of l') in
  _ ← update (set_current (end_ token));
  _ ← (if is_comment t && collectComments_ then
         placement ← gets (fun s => placement_of s (start_ token) (end_ token) (default 0 (document_ !! S (start_ token))));
         addComment (start_ token) (end_ token) placement
       else mret tt);
  mret token.
Definition is_type (ty : TokenType) (t : Token) : bool := bool_decide (type_ t = ty).
(** The loops that read on while the token is a comment. *)
Fixpoint skip_comment_tokens (fuel : nat) (token : Token) : M Token :=
  if is_type tokenComment token then
    match fuel with O => fun _ => None | S fuel => token ← readToken; skip_comment_tokens fuel token end
  else mret token.
Definition fuel_of (s : Reader) : nat := S (length (rest s)).
Definition readToken_after_comments : M Token :=
  token ← readToken; fuel ← gets fuel_of; skip_comment_tokens fuel token.
Definition skipCommentTokens : M Token := if allowComments_ features_ then readToken_after_comments else readToken.
Fixpoint recover (fuel : nat) (errorCount : nat) (skipUntilToken : TokenType) : M bool :=
  match fuel with
  | O => fun _ => None
  | S fuel =>
    skip ← readToken;
    if is_type skipUntilToken skip || is_type tokenEndOfStream skip
    then (_ ← update (fun s => set_errors (take errorCount (errors_ s)) s); mret false)
    else recover fuel errorCount skipUntilToken
  end.
Definition recoverFromError (skipUntilToken : TokenType) : M bool :=
  errorCount ← gets (fun s => length (errors_ s)); fuel ← gets fuel_of; recover fuel errorCount skipUntilToken.
Definition addErrorAndRecover (message : string) (token : Token) (skipUntilToken : TokenType) : M bool :=
  _ ← addError (bytes message) token None; recoverFromError skipUntilToken.

(** ** Strings and numbers *)
(** An error: its message and the text that is left at its [extra_]. *)
Definition string_error : Type := list Z * list Z.
Definition four_expected : list Z := bytes "Bad unicode escape sequence in string: four digits expected.".
Definition digit_expected : list Z := bytes "Bad unicode escape sequence in string: hexadecimal digit expected.".
Definition six_expected : list Z := bytes "additional six characters expected to parse unicode surrogate pair.".
Definition second_half_expected : list Z := bytes "expecting another \u token to begin the second half of a unicode surrogate pair".
Fixpoint unicode_digits (n : nat) (unicode : Z) (l : list Z) : string_error + Z * list Z :=
  match n with
  | O => inr (unicode, l)
  | S n =>
    match l with
    | [] => inl (four_expected, l)
    | c :: l => match hex_value c with Some d => unicode_digits n (unicode * 16 + d) l | None => inl (digit_expected, l) end
    end
  end.
Definition decodeUnicodeEscapeSequence (l : list Z) : string_error + Z * list Z :=
  if (length l <? 4)%nat then inl (four_expected, l) else unicode_digits 4 0 l.
Definition decodeUnicodeCodePoint (l : list Z) : string_error + Z * list Z :=
  match decodeUnicodeEscapeSequence l with
  | inl e => inl e
  | inr (unicode, l) =>
    if (0xD800 <=? unicode) && (unicode <=? 0xDBFF) then
      if (length l <? 6)%nat then inl (six_expected, l)
      else match l with
        | b :: l =>
          if b =? 92 then
            match l with
            | u :: l =>
              if u =? 117 then
                match decodeUnicodeEscapeSequence l with
                | inl e => inl e
                | inr (surrogatePair, l) => inr (0x10000 + Z.shiftl (Z.land unicode 0x3FF) 10 + Z.land surrogatePair 0x3FF, l)
                end
              else inl (second_half_expected, l)
            | [] => inl (six_expected, l)
            end
          else inl (second_half_expected, l)
        | [] => inl (six_expected, l)
        end
    else inr (unicode, l)
  end.
(** The loop of [decodeString]; every turn takes a character, so the length of the text is fuel enough ([decode_loop_spec]). *)
Fixpoint decode_loop (fuel : nat) (decoded l : list Z) : string_error + list Z :=
  match fuel with
  | O => inr decoded
  | S fuel =>
    match l with
    | [] => inr decoded
    | c :: l =>
      if c =? 34 then inr decoded
      else if c =? 92 then
        match l with
        | [] => inl (bytes "Empty escape sequence in string", l)
        | escape :: l =>
          if escape =? 117 then
            match decodeUnicodeCodePoint l with
            | inl e => inl e
            | inr (unicode, l) => decode_loop fuel (decoded ++ codePointToUTF8 unicode) l
            end
          else match simple_escape escape with
            | Some c => decode_loop fuel (decoded ++ [c]) l
            | None => inl (bytes "Bad escape sequence in string", l)
            end
        end
      else decode_loop fuel (decoded ++ [c]) l
    end
  end.
Definition decodeString (token : Token) : ErrorInfo + list Z :=
  let l := slice (S (start_ token)) (end_ token - 1) in
  match decode_loop (S (length l)) [] l with
  | inl (message, more) => inl (mkError token message (Some (end_ token - 1 - length more)))
  | inr decoded => inr decoded
  end%nat.
Definition decodeNumber (token : Token) : ErrorInfo + Value :=
  match JsonText.decodeNumber (text_token token) with
  | Some v => inr v
  | None => inl (mkError token (bytes "'" ++ slice (start_ token) (end_ token) ++ bytes "' is not a number.") None)
  end.
Definition add_info (e : ErrorInfo) : M bool := addError (message_ e) (token_ e) (extra_ e).
(** [currentValue() = decoded], with the offsets of the token. *)
Definition store (q : list place) (token : Token) (v : Value) : M bool :=
  _ ← at_node q (fun n => Some (setOffsets (start_ token) (end_ token) (assign (fun i => Scalar i v) n))); mret true.

(** ** Values *)
Definition drop_newlines (l : list Z) : list Z := (fix go l := match l with c :: l' => if (c =? 10) || (c =? 13) then go l' else l | [] => [] end) l.
(** Without the line breaks at its end. *)
Definition strip_newlines (l : list Z) : list Z := rev (drop_newlines (rev l)).
Definition attach_commentsBefore (q : list place) : M unit :=
  comments ← gets commentsBefore_;
  match comments with
  | [] => mret tt
  | _ => if collectComments_ then _ ← setComment q (strip_newlines comments) commentBefore; update (set_commentsBefore []) else mret tt
  end.
Definition note_last (q : list place) : M unit := if collectComments_ then update (fun s => set_last (current_ s) q s) else mret tt.
Definition finish (q : list place) (successful : bool) : M bool := _ ← note_last q; mret successful.
Definition limit_here (q : list place) (successful : bool) : M bool :=
  c ← gets current_; _ ← at_node q (fun n => Some (setOffsetLimit (Z.of_nat c) n)); finish q successful.
Definition syntax_error (q : list place) (token : Token) : M bool :=
  _ ← at_node q (fun n => Some (setOffsets (start_ token) (end_ token) n));
  addError (bytes "Syntax error: value, object or array expected.") token None.
(** The name of a member: [None] where the loop is left. *)
Definition member_name (tokenName : Token) : option (ErrorInfo + option (list Z)) :=
  match type_ tokenName with
  | tokenString => Some (match decodeString tokenName with inl e => inl e | inr name => inr (Some name) end)
  | tokenNumber =>
    if allowNumericKeys_ features_ then Some (match decodeNumber tokenName with inl e => inl e | inr v => inr (asString v) end) else None
  | _ => None
  end.
Fixpoint readValue (fuel : nat) (q : list place) : M bool :=
  match fuel with
  | O => fun _ => None
  | S fuel =>
    token ← skipCommentTokens;
    _ ← attach_commentsBefore q;
    match type_ token with
    | tokenObjectBegin =>
      _ ← at_node q (fun n => Some (setOffsetStart (Z.of_nat (start_ token)) (assign (fun i => Members i []) n)));
      ok ← readObject fuel q []; limit_here q ok
    | tokenArrayBegin =>
      _ ← at_node q (fun n => Some (setOffsetStart (Z.of_nat (start_ token)) (assign (fun i => Elements i []) n)));
      _ ← update (fun s => set_current (offset_of (skipSpaces (rest s))) s);
      c ← gets (fun s => fst (getNextChar (rest s)));
      ok ← (if c =? 93 then (_ ← readToken; mret true) else readArray fuel q 0);
      limit_here q ok
    | tokenNumber => ok ← (match decodeNumber token with inr v => store q token v | inl e => add_info e end); finish q ok
    | tokenString => ok ← (match decodeString token with inr v => store q token (stringValue v) | inl e => add_info e end); finish q ok
    | tokenTrue => ok ← store q token (booleanValue true); finish q ok
    | tokenFalse => ok ← store q token (booleanValue false); finish q ok
    | tokenNull => ok ← store q token nullValue; finish q ok
    | tokenArraySeparator =>
      if allowDroppedNullPlaceholders_ features_ then
        _ ← update (fun s => set_current (current_ s - 1) s);
        c ← gets current_;
        _ ← at_node q (fun n => Some (setOffsetLimit (Z.of_nat c) (setOffsetStart (Z.of_nat c - 1) (assign (fun i => Scalar i nullValue) n))));
        finish q true
      else syntax_error q token
    | _ => syntax_error q token
    end
  end
with readObject (fuel : nat) (q : list place) (name : list Z) : M bool :=
  match fuel with
  | O => fun _ => None
  | S fuel =>
    tokenName ← readToken_after_comments;
    if is_type tokenObjectEnd tokenName && bool_decide (name = []) then mret true
    else match member_name tokenName with
      | None => addErrorAndRecover "Missing '}' or object member name" tokenName tokenObjectEnd
      | Some (inl e) => _ ← add_info e; recoverFromError tokenObjectEnd
      | Some (inr None) => fun _ => Some Threw
      | Some (inr (Some name)) =>
        colon ← readToken;
        if negb (is_type tokenMemberSeparator colon) then addErrorAndRecover "Missing ':' after object member name" colon tokenObjectEnd
        else
          _ ← at_node q (touch_member (key_of name));
          ok ← readValue fuel (q ++ [Named (key_of name)]);
          if negb (ok : bool) then recoverFromError tokenObjectEnd
          else
            comma ← readToken;
            if negb (is_type tokenObjectEnd comma || is_type tokenArraySeparator comma || is_type tokenComment comma)
            then addErrorAndRecover "Missing ',' or '}' in object declaration" comma tokenObjectEnd
            else
              more ← gets fuel_of;
              comma ← skip_comment_tokens more comma;
              if is_type tokenObjectEnd comma then mret true else readObject fuel q name
      end
  end
with readArray (fuel : nat) (q : list place) (index : nat) : M bool :=
  match fuel with
  | O => fun _ => None
  | S fuel =>
    _ ← at_node q (touch_index index);
    ok ← readValue fuel (q ++ [At index]);
    if negb (ok : bool) then recoverFromError tokenArrayEnd
    else
      token ← readToken_after_comments;
      if is_type tokenArrayEnd token then mret true
      else if is_type tokenArraySeparator token then readArray fuel q (S index)
      else addErrorAndRecover "Missing ',' or ']' in array declaration" token tokenArrayEnd
  end.
(** [parse] from the assignment of [collectComments_] on. *)
Definition parse_collecting (root : Node) : option (outcome (bool * Reader)) :=
  (successful ← readValue (S (2 * length document_)) [];
   token ← skipCommentTokens;
   comments ← gets commentsBefore_;
   _ ← (match comments with [] => mret tt | _ => if collectComments_ then setComment [] comments commentAfter else mret tt end);
   root ← gets root_;
   if strictRoot_ features_ && negb (match plain root with arrayValue _ | objectValue _ => true | _ => false end)
   then addError (bytes "A valid JSON document must be either an array or an object value.") (mkToken tokenError 0 (length document_)) None
   else mret successful)
  (mkReader 0 root [] None None []).

(** ** What the errors say *)
(** The loop of [getLocationLineAndColumn]: the line breaks before [location] and where the last line begins. *)
Fixpoint line_loop (fuel current lastLineStart line location : nat) : nat * nat :=
  match fuel with
  | O => (line, lastLineStart)
  | S fuel =>
    if (location <=? current)%nat then (line, lastLineStart)
    else match document_ !! current with
      | None => (line, lastLineStart)
      | Some c =>
        let current := S current in
        if c =? 13 then
          let current := if bool_decide (document_ !! current = Some 10) then S current else current in
          line_loop fuel current current (S line) location
        else if c =? 10 then line_loop fuel current current (S line) location
        else line_loop fuel current lastLineStart line location
      end
  end.
Definition getLocationLineAndColumn (location : nat) : Z * Z :=
  let '(line, lastLineStart) := line_loop (S (length document_)) 0 0 0 location in
  (Z.of_nat line + 1, Z.of_nat location - Z.of_nat lastLineStart + 1).
Definition location_text (location : nat) : list Z :=
  let '(line, column) := getLocationLineAndColumn location in
  bytes "Line " ++ print_d line ++ bytes ", Column " ++ print_d column.
Definition getFormattedErrorMessages (errors : list ErrorInfo) : list Z :=
  concat (map (fun error =>
    bytes "* " ++ location_text (start_ (token_ error)) ++ [10] ++
    bytes "  " ++ message_ error ++ [10] ++
    match extra_ error with Some extra => bytes "See " ++ location_text extra ++ bytes " for detail." ++ [10] | None => [] end) errors).
Definition getStructuredErrors (errors : list ErrorInfo) : list (nat * nat * list Z) :=
  map (fun error => (start_ (token_ error), end_ (token_ error), message_ error)) errors.
End reader.
Definition parse `{DoubleText} (features : Features) (collectComments : bool) (document : list Z) (root : Node) : option (outcome (bool * Reader)) :=
  parse_collecting document features (allowComments_ features && collectComments) root.

(** ** Paths and values *)
Definition alive (p : list place) (n : Node) : Prop := is_Some (node_at p n).
Inductive kind := OfScalar | OfArray | OfObject.
Definition kind_of (n : Node) : kind := match n with Scalar _ _ => OfScalar | Elements _ _ => OfArray | Members _ _ => OfObject end.
Definition kind_at (p : list place) (n : Node) : option kind := kind_of <$> node_at p n.
Lemma alive_kind p n : alive p n <-> is_Some (kind_at p n).
Proof. symmetry. apply fmap_is_Some. Qed.
Definition plain_member (kv : string * Node) : string * Value := (kv.1, plain kv.2).
Lemma find_set_member k key v l : find_member k (set_member key v l) = if (key =? k)%string then Some v else find_member k l.
Proof.
  induction l as [|[k' w] l IH]; cbn; [done|]. destruct (String.eqb_spec k' key) as [->|Hne]; cbn; [by destruct (key =? k)%string|].
  destruct (key <? k')%string; cbn; [done|]. rewrite IH. destruct (String.eqb_spec k' k), (String.eqb_spec key k); congruence.
Qed.
Lemma find_map_find k l : find_member k l = map_find k l.
Proof. induction l as [|[k' w] l IH]; cbn; [done|]. by destruct (k' =? k)%string. Qed.
Lemma find_plain k l : find_member k (map plain_member l) = plain <$> find_member k l.
Proof. induction l as [|[k' w] l IH]; cbn; [done|]. by destruct (k' =? k)%string. Qed.
Lemma set_plain k v l : map plain_member (set_member k v l) = map_set k (plain v) (map plain_member l).
Proof. induction l as [|[k' w] l IH]; cbn; [done|]. destruct (k' =? k)%string; [done|]. destruct (k <? k')%string; [done|]. cbn. by rewrite IH. Qed.
Lemma replace_plain k v l : map plain_member (replace_member k v l) = replace_member k (plain v) (map plain_member l).
Proof. induction l as [|[k' w] l IH]; cbn; [done|]. destruct (k' =? k)%string; [done|]. cbn. by rewrite IH. Qed.
Section replace.
Context {A : Type}.
Implicit Types (l : list (string * A)).
Lemma find_replace key k v w l : find_member key l = Some w -> find_member k (replace_member key v l) = if (key =? k)%string then Some v else find_member k l.
Proof.
  induction l as [|[k' x] l IH]; cbn; [done|]. destruct (String.eqb_spec k' key) as [->|Hne]; cbn; [by destruct (key =? k)%string|].
  intros E. rewrite (IH E). destruct (String.eqb_spec k' k), (String.eqb_spec key k); congruence.
Qed.
Lemma replace_replace k v w l : replace_member k v (replace_member k w l) = replace_member k v l.
Proof. induction l as [|[k' x] l IH]; cbn; [done|]. destruct (k' =? k)%string eqn:E; cbn; rewrite E; [done|]. by rewrite IH. Qed.
Lemma replace_id k w l : find_member k l = Some w -> replace_member k w l = l.
Proof. induction l as [|[k' x] l IH]; cbn; [done|]. destruct (k' =? k)%string; [by intros [= ->]|]. intros H. by rewrite IH. Qed.
End replace.
(** Of members that are in order, one that is there is set where it is. *)
Lemma ltb_trans a b c : (a <? b)%string = true -> (b <? c)%string = true -> (a <? c)%string = true.
Proof.
  assert (H : forall x y, (x <? y)%string = true <-> OrderedTypeEx.String_as_OT.lt x y).
  { intros x y. rewrite <- OrderedTypeEx.String_as_OT.cmp_lt. unfold String.ltb, OrderedTypeEx.String_as_OT.cmp. by destruct (x ?= y)%string. }
  rewrite !H. apply OrderedTypeEx.String_as_OT.lt_trans.
Qed.
Definition in_order (l : list (string * Value)) : Prop := sorted_keys (map fst l) = true.
Lemma in_order_cons k v l : in_order ((k, v) :: l) <-> Forall (fun kv => (k <? kv.1)%string = true) l /\ in_order l.
Proof.
  unfold in_order. cbn. rewrite andb_true_iff, forallb_forall, List.Forall_forall. split; intros [H1 H2]; (split; [|done]).
  - intros kv Hin. apply H1. by apply in_map.
  - intros k' (kv & <- & Hin)%in_map_iff. by apply H1.
Qed.
Lemma map_set_order k v l : in_order l -> in_order (map_set k v l).
Proof.
  induction l as [|[k' w] l IH]; intros Hl; [done|]. cbn. pose proof Hl as [H1 H2]%in_order_cons. destruct (String.eqb_spec k' k) as [->|Hne].
  - by apply in_order_cons.
  - destruct (k <? k')%string eqn:E; [apply in_order_cons; split; [|done]; constructor; [done|]; eapply Forall_impl; [|exact H1]; intros [k2 x] Hx; by eapply ltb_trans|].
    apply in_order_cons. split; [|by apply IH]. clear -H1 Hne E. induction l as [|[k2 x] l IH]; cbn.
    + constructor; [|done]. cbn. unfold String.ltb in *. rewrite (String.compare_antisym k' k). destruct (k ?= k')%string eqn:Ec; try done. by apply String.compare_eq_iff in Ec.
    + apply Forall_cons_1 in H1 as [Hk H1]. destruct (k2 =? k)%string eqn:E2; [apply String.eqb_eq in E2; subst; by constructor|].
      destruct (k <? k2)%string; constructor; try done; [|by constructor|by apply IH]. cbn. unfold String.ltb in *. rewrite (String.compare_antisym k' k).
      destruct (k ?= k')%string eqn:Ec; try done. by apply String.compare_eq_iff in Ec.
Qed.
Lemma replace_is_set k v w l : in_order l -> find_member k l = Some w -> replace_member k v l = map_set k v l.
Proof.
  induction l as [|[k' x] l IH]; intros Hl; [done|]. cbn. apply in_order_cons in Hl as [H1 H2]. destruct (String.eqb_spec k' k) as [->|Hne]; [done|].
  intros Hf. rewrite (IH H2 Hf). destruct (k <? k')%string eqn:E; [|done]. exfalso. clear IH H2 Hne. induction l as [|[k2 y] l IH]; [done|].
  apply Forall_cons_1 in H1 as [Hk H1]. cbn in Hf. destruct (String.eqb_spec k2 k) as [->|Hne]; [|by apply IH]. cbn in Hk. by rewrite (ltb_asym _ _ Hk) in E.
Qed.
Lemma replace_of_set k v w l : map_find k l = None -> replace_member k v (map_set k w l) = map_set k v l.
Proof.
  induction l as [|[k' x] l IH]; cbn; [by rewrite String.eqb_refl|]. destruct (k' =? k)%string eqn:E; [done|]. intros Hn.
  destruct (k <? k')%string; cbn; [by rewrite String.eqb_refl|]. by rewrite E, (IH Hn).
Qed.
(** Paths into a plain value. *)
Fixpoint get (p : list place) (v : Value) : option Value :=
  match p with
  | [] => Some v
  | At i :: p => match v with arrayValue l => x ← l !! i; get p x | _ => None end
  | Named k :: p => match v with objectValue l => x ← find_member k l; get p x | _ => None end
  end.
Fixpoint put (p : list place) (w v : Value) : option Value :=
  match p with
  | [] => Some w
  | At i :: p => match v with arrayValue l => x ← l !! i; y ← put p w x; Some (arrayValue (<[i := y]> l)) | _ => None end
  | Named k :: p => match v with objectValue l => x ← find_member k l; y ← put p w x; Some (objectValue (replace_member k y l)) | _ => None end
  end.
Lemma map_plain_lookup (l : list Node) i : map plain l !! i = plain <$> l !! i.
Proof. apply list_lookup_fmap. Qed.
Lemma map_plain_insert i x l : map plain (<[i := x]> l) = <[i := plain x]> (map plain l).
Proof. apply list_fmap_insert. Qed.
Lemma node_at_app p r n : node_at (p ++ r) n = x ← node_at p n; node_at r x.
Proof.
  revert n. induction p as [|[i|k] p IH]; intros n; cbn; [done| |]; destruct n as [a v|a l|a l]; try done.
  - destruct (l !! i); cbn; [apply IH|done].
  - destruct (find_member k l); cbn; [apply IH|done].
Qed.
Lemma get_put p w : forall v v', put p w v = Some v' -> get p v' = Some w.
Proof.
  induction p as [|[i|k] p IH]; intros v v' H; cbn in *; [done| |]; destruct v as [| | | | | |l|l]; try done.
  - destruct (l !! i) as [x|] eqn:E; [|done]. cbn in H. destruct (put p w x) as [y|] eqn:Ep; [|done]. injection H as <-.
    rewrite list_lookup_insert_eq by (by eapply lookup_lt_Some). cbn. by apply (IH x).
  - destruct (find_member k l) as [x|] eqn:E; [|done]. cbn in H. destruct (put p w x) as [y|] eqn:Ep; [|done]. injection H as <-.
    rewrite (find_replace _ _ _ x), String.eqb_refl by done. cbn. by apply (IH x).
Qed.
Lemma put_put_value p w w' : forall v v', put p w v = Some v' -> put p w' v' = put p w' v.
Proof.
  induction p as [|[i|k] p IH]; intros v v' H; cbn in *; [done| |]; destruct v as [| | | | | |l|l]; try done.
  - destruct (l !! i) as [x|] eqn:E; [|done]. cbn in H. destruct (put p w x) as [y|] eqn:Ep; [|done]. injection H as <-.
    rewrite list_lookup_insert_eq by (by eapply lookup_lt_Some). cbn. rewrite (IH x y Ep). destruct (put p w' x); [|done]. cbn. by rewrite list_insert_insert_eq.
  - destruct (find_member k l) as [x|] eqn:E; [|done]. cbn in H. destruct (put p w x) as [y|] eqn:Ep; [|done]. injection H as <-.
    rewrite (find_replace _ _ _ x), String.eqb_refl by done. cbn. rewrite (IH x y Ep). destruct (put p w' x); [|done]. cbn. by rewrite replace_replace.
Qed.
Lemma put_app p r w : forall v, put (p ++ r) w v = x ← get p v; y ← put r w x; put p y v.
Proof.
  induction p as [|[i|k] p IH]; intros v; cbn; [by destruct (put r w v)| |]; destruct v as [| | | | | |l|l]; try done.
  - destruct (l !! i) as [x|]; [|done]. cbn. rewrite IH. destruct (get p x) as [y|]; [|done]. cbn. destruct (put r w y) as [z|]; [|done]. cbn. done.
  - destruct (find_member k l) as [x|]; [|done]. cbn. rewrite IH. destruct (get p x) as [y|]; [|done]. cbn. destruct (put r w y) as [z|]; [|done]. cbn. done.
Qed.
Lemma put_get p x : forall v v', get p v = Some x -> put p x v = Some v' -> v' = v.
Proof.
  induction p as [|[i|k] p IH]; intros v v' Hg H; cbn in *; [congruence| |]; destruct v as [| | | | | |l|l]; try done.
  - destruct (l !! i) as [z|] eqn:E; [|done]. cbn in *. destruct (put p x z) as [z'|] eqn:Ez; [|done]. injection H as <-.
    rewrite (IH z z' Hg Ez). by rewrite list_insert_id.
  - destruct (find_member k l) as [z|] eqn:E; [|done]. cbn in *. destruct (put p x z) as [z'|] eqn:Ez; [|done]. injection H as <-.
    rewrite (IH z z' Hg Ez). by rewrite replace_id.
Qed.
Lemma put_same p x : forall v, get p v = Some x -> put p x v = Some v.
Proof.
  induction p as [|[i|k] p IH]; intros v Hg; cbn in *; [done| |]; destruct v as [| | | | | |l|l]; try done.
  - destruct (l !! i) as [z|] eqn:E; [|done]. cbn in *. rewrite (IH z Hg). cbn. by rewrite list_insert_id.
  - destruct (find_member k l) as [z|] eqn:E; [|done]. cbn in *. rewrite (IH z Hg). cbn. by rewrite replace_id.
Qed.
Lemma plain_Members a l : plain (Members a l) = objectValue (map plain_member l).
Proof. done. Qed.
Lemma get_plain p : forall n x, node_at p n = Some x -> get p (plain n) = Some (plain x).
Proof.
  induction p as [|[i|k] p IH]; intros n x H; cbn in *; [by injection H as <-| |]; destruct n as [a v|a l|a l]; try done.
  - cbn. destruct (l !! i) as [y|] eqn:E; [|done]. rewrite map_plain_lookup, E. cbn. by apply IH.
  - destruct (find_member k l) as [y|] eqn:E; [|done]. rewrite plain_Members. cbn [get]. rewrite find_plain, E. cbn. by apply IH.
Qed.
Lemma modify_spec p f : forall n x y, node_at p n = Some x -> f x = Some y ->
  exists n', modify p f n = Some n' /\ put p (plain y) (plain n) = Some (plain n') /\
    (forall r, node_at (p ++ r) n' = node_at r y) /\
    (forall p0, alive p0 n -> (forall r, p0 = p ++ r -> alive r x -> alive r y) -> alive p0 n') /\
    (forall p0 c, kind_at p0 n = Some c -> (forall r, p0 = p ++ r -> kind_at r x = Some c -> kind_at r y = Some c) -> kind_at p0 n' = Some c).
Proof.
  induction p as [|[i|k] p IH]; intros n x y H Hf; cbn in *.
  - injection H as ->. exists y. split_and!; try done; [intros p0 Hp0 Hr; by apply Hr|intros p0 c Hp0 Hr; by apply Hr].
  - destruct n as [a v|a l|a l]; try done. destruct (l !! i) as [z|] eqn:E; [|done]. cbn in H.
    destruct (IH z x y H Hf) as (z' & Em & Ep & Ea & El & Ek). cbn. rewrite Em. cbn. exists (Elements a (<[i:=z']> l)). split; [done|]. split.
    { rewrite map_plain_lookup, E. cbn. rewrite Ep. cbn. by rewrite map_plain_insert. }
    split; [intros r; cbn; rewrite list_lookup_insert_eq by (by eapply lookup_lt_Some); apply Ea|].
    split.
    + intros [|[j|k] p0] Hp0 Hr; [by eexists| |by destruct Hp0]. unfold alive in *. cbn in *. destruct (decide (j = i)) as [->|Hj]; [|by rewrite list_lookup_insert_ne].
      rewrite list_lookup_insert_eq by (by eapply lookup_lt_Some). rewrite E in Hp0. cbn in *. apply El; [done|]. intros r ->. by apply Hr.
    + intros [|[j|k] p0] c Hp0 Hr; [done| |done]. unfold kind_at in *. cbn in *. destruct (decide (j = i)) as [->|Hj]; [|by rewrite list_lookup_insert_ne].
      rewrite list_lookup_insert_eq by (by eapply lookup_lt_Some). rewrite E in Hp0. cbn in *. apply Ek; [done|]. intros r ->. by apply Hr.
  - destruct n as [a v|a l|a l]; try done. destruct (find_member k l) as [z|] eqn:E; [|done]. cbn in H.
    destruct (IH z x y H Hf) as (z' & Em & Ep & Ea & El & Ek). cbn. rewrite Em. cbn. exists (Members a (replace_member k z' l)). split; [done|]. split.
    { rewrite !plain_Members. cbn [put]. rewrite find_plain, E. cbn. rewrite Ep. cbn. by rewrite replace_plain. }
    split; [intros r; cbn; rewrite (find_replace _ _ _ z), String.eqb_refl by done; apply Ea|].
    split.
    + intros [|[j|k'] p0] Hp0 Hr; [by eexists|by destruct Hp0|]. unfold alive in *. cbn in *. rewrite (find_replace _ _ _ z) by done. destruct (String.eqb_spec k k') as [<-|Hj]; [|done].
      rewrite E in Hp0. cbn in *. apply El; [done|]. intros r ->. by apply Hr.
    + intros [|[j|k'] p0] c Hp0 Hr; [done|done|]. unfold kind_at in *. cbn in *. rewrite (find_replace _ _ _ z) by done. destruct (String.eqb_spec k k') as [<-|Hj]; [|done].
      rewrite E in Hp0. cbn in *. apply Ek; [done|]. intros r ->. by apply Hr.
Qed.

(** ** Tokens are parts of the document *)
Lemma suffix_cons_l {A} (c : A) l m : l `suffix_of` m -> l `suffix_of` c :: m.
Proof. apply suffix_cons_r. Qed.
Lemma skipSpaces_suffix l : skipSpaces l `suffix_of` l.
Proof. induction l as [|c l IH]; cbn; [done|]. destruct (_ || _); [by apply suffix_cons_r|done]. Qed.
Lemma skip_c_comment_suffix l : skip_c_comment l `suffix_of` l.
Proof. induction l as [|c l IH]; cbn; [done|]. destruct (_ && _); by apply suffix_cons_r. Qed.
Lemma readCppStyleComment_suffix l : readCppStyleComment l `suffix_of` l.
Proof. induction l as [|c l IH]; cbn; [done|]. destruct (_ || _); by apply suffix_cons_r. Qed.
Lemma readNumber_suffix l : readNumber l `suffix_of` l.
Proof. induction l as [|c l IH]; cbn; [done|]. destruct (in_number c); [by apply suffix_cons_r|done]. Qed.
Lemma getNextChar_suffix l : (getNextChar l).2 `suffix_of` l.
Proof. destruct l; [done|by apply suffix_cons_r]. Qed.
Lemma match_pattern_suffix p l : (match_pattern p l).2 `suffix_of` l.
Proof. unfold match_pattern. case_bool_decide; cbn; [|done]. apply suffix_drop. Qed.
Lemma readString_suffix n : forall c l, (length l <= n)%nat -> (readString c l).2 `suffix_of` l.
Proof.
  induction n as [|n IH]; intros c [|d l] Hn; cbn in *; try done; try lia.
  destruct (d =? 92); [|destruct (d =? 34); apply suffix_cons_r; [done|apply IH; lia]].
  destruct l as [|x l]; cbn in *; [apply suffix_nil|]. do 2 apply suffix_cons_r. apply IH. lia.
Qed.
Lemma readComment_suffix l : (readComment l).2 `suffix_of` l.
Proof.
  unfold readComment. pose proof (getNextChar_suffix l) as H. destruct (getNextChar l) as [c l']. cbn [snd] in H. destruct (c =? 42).
  - unfold readCStyleComment. pose proof (getNextChar_suffix (skip_c_comment l')) as H2. destruct (getNextChar _). cbn [snd] in *.
    etrans; [exact H2|]. etrans; [apply skip_c_comment_suffix|done].
  - destruct (c =? 47); cbn [snd]; [etrans; [apply readCppStyleComment_suffix|done]|done].
Qed.
Ltac token_part :=
  cbn [fst snd JsonText.type_ text] in *;
  split; [by apply suffix_cons_r|split; [done|split; [done|first [done|intros _; lia]]]].
(** What [readToken] reads begins behind the spaces, and a comment with a slash. *)
Lemma readToken_parts l : let '(t, l') := JsonText.readToken l in
  l' `suffix_of` skipSpaces l /\ text t = take (length (skipSpaces l) - length l') (skipSpaces l) /\
  match skipSpaces l with [] => JsonText.type_ t = tokenEndOfStream | c :: m => l' `suffix_of` m /\ (JsonText.type_ t = tokenComment -> c = 47) end.
Proof.
  unfold JsonText.readToken. destruct (skipSpaces l) as [|c l1] eqn:E; [by cbn|]. cbn [getNextChar].
  pose proof (readString_suffix _ 0 l1 (le_n _)). pose proof (readComment_suffix l1). pose proof (readNumber_suffix l1).
  repeat (case_if; [first
    [solve [token_part]
    |match goal with |- context [match_pattern ?p ?x] => pose proof (match_pattern_suffix p x); destruct (match_pattern p x) as [[] ?] end; solve [token_part]
    |match goal with |- context [readString 0 ?x] => destruct (readString 0 x) as [[] ?] end; solve [token_part]
    |match goal with |- context [readComment ?x] => destruct (readComment x) as [[] ?] end; solve [token_part]]|]).
  token_part.
Qed.

Section laws.
Context {DT : DoubleText}.
Variable document_ : list Z.
Abbreviation rem := (rest document_).
Abbreviation off := (offset_of document_).
Abbreviation cut := (slice document_).
Abbreviation tok := (text_token document_).
Lemma rest_suffix l k : (k <= length document_)%nat -> l `suffix_of` drop k document_ -> l = drop (off l) document_ /\ (k <= off l <= length document_)%nat.
Proof.
  intros Hk [m Hm]. unfold offset_of. assert (Hl : (length document_ - k = length m + length l)%nat) by (by rewrite <- length_app, <- Hm, length_drop).
  split; [|lia]. replace (length document_ - length l)%nat with (k + length m)%nat by lia. by rewrite <- drop_drop, Hm, drop_app_length.
Qed.

(** ** Runs *)
Definition wp {A} (m : M A) (Q : A -> Reader -> Prop) (s : Reader) : Prop := exists a s', m s = Some (Done (a, s')) /\ Q a s'.
Lemma wp_ret {A} (a : A) Q s : Q a s -> wp (mret a) Q s.
Proof. intros H. by exists a, s. Qed.
Lemma wp_bind {A B} (m : M A) (f : A -> M B) P Q s : wp m P s -> (forall a s', P a s' -> wp (f a) Q s') -> wp (m ≫= f) Q s.
Proof.
  intros (a & s1 & E & HP) H. destruct (H a s1 HP) as (b & s2 & E2 & HQ). exists b, s2. split; [|done]. unfold mbind, M_bind. by rewrite E.
Qed.
Lemma wp_mono {A} (m : M A) (P Q : A -> Reader -> Prop) s : wp m P s -> (forall a s', P a s' -> Q a s') -> wp m Q s.
Proof. intros (a & s1 & E & HP) H. exists a, s1. auto. Qed.
Lemma wp_gets {A B} (f : Reader -> A) (k : A -> M B) Q s : wp (k (f s)) Q s -> wp (gets f ≫= k) Q s.
Proof. done. Qed.
Lemma wp_update {B} (f : Reader -> Reader) (k : unit -> M B) Q s : wp (k tt) Q (f s) -> wp (update f ≫= k) Q s.
Proof. done. Qed.
Lemma wp_at_node q f x y (Q : unit -> Reader -> Prop) s : node_at q (root_ s) = Some x -> f x = Some y ->
  (forall n', put q (plain y) (plain (root_ s)) = Some (plain n') -> (forall r, node_at (q ++ r) n' = node_at r y) ->
    (forall p, alive p (root_ s) -> (forall r, p = q ++ r -> alive r x -> alive r y) -> alive p n') ->
    (forall p c, kind_at p (root_ s) = Some c -> (forall r, p = q ++ r -> kind_at r x = Some c -> kind_at r y = Some c) -> kind_at p n' = Some c) ->
    Q tt (set_root n' s)) ->
  wp (at_node q f) Q s.
Proof. intros Hx Hf H. destruct (modify_spec q f (root_ s) x y Hx Hf) as (n' & E & H1 & H2 & H3 & H4). exists tt, (set_root n' s). unfold at_node. rewrite E. auto. Qed.

Variable collectComments_ : bool.
Definition token_ok (t : Token) : Prop := (start_ t <= end_ t)%nat /\ (end_ t <= length document_)%nat.
Definition error_ok (e : ErrorInfo) : Prop :=
  token_ok (token_ e) /\ match extra_ e with Some x => (x <= length document_)%nat | None => True end.
(** The last value is there, and what waits to become a comment begins like one. *)
Record ok (s : Reader) : Prop := {
  ok_current : (current_ s <= length document_)%nat;
  ok_last_end : is_Some (lastValueEnd_ s) -> is_Some (lastValue_ s);
  ok_last : forall p, lastValue_ s = Some p -> alive p (root_ s);
  ok_comments : commentsBefore_ s = [] \/ exists m, commentsBefore_ s = 47 :: m;
  ok_errors : Forall error_ok (errors_ s);
  ok_none : collectComments_ = false -> lastValue_ s = None }.
(** Steps that only read on, and attach comments or offsets. *)
Record quiet (s s' : Reader) : Prop := {
  quiet_ok : ok s';
  quiet_current : (current_ s <= current_ s')%nat;
  quiet_errors : errors_ s' = errors_ s;
  quiet_kind : forall p c, kind_at p (root_ s) = Some c -> kind_at p (root_ s') = Some c;
  quiet_plain : plain (root_ s') = plain (root_ s);
  quiet_last : lastValue_ s' = lastValue_ s }.
Lemma quiet_alive s s' : quiet s s' -> forall p, alive p (root_ s) -> alive p (root_ s').
Proof. intros Hq p. rewrite !alive_kind. intros [c Hc]. eexists. by apply (quiet_kind _ _ Hq). Qed.
Lemma quiet_refl s : ok s -> quiet s s.
Proof. by split. Qed.
Lemma quiet_trans s1 s2 s3 : quiet s1 s2 -> quiet s2 s3 -> quiet s1 s3.
Proof.
  intros [_ B1 C1 D1 E1 F1] [A2 B2 C2 D2 E2 F2].
  split; [done|lia|by rewrite C2|auto|by rewrite E2|by rewrite F2].
Qed.
Lemma plain_with_info i n : plain (with_info i n) = plain n.
Proof. by destruct n. Qed.
Lemma kind_with_info i p n : kind_at p (with_info i n) = kind_at p n.
Proof. by destruct n, p as [|[]]. Qed.
Lemma at_node_quiet q (f : Node -> Node) s : ok s -> alive q (root_ s) -> (forall n, plain (f n) = plain n) -> (forall n p, kind_at p (f n) = kind_at p n) ->
  wp (at_node q (fun n => Some (f n))) (fun _ s' => quiet s s' /\ current_ s' = current_ s) s.
Proof.
  intros Hok [x Hx] Hp Ha. eapply wp_at_node; [exact Hx|done|]. intros n' Hput _ _ Hal.
  assert (Hkeep : forall p c, kind_at p (root_ s) = Some c -> kind_at p n' = Some c) by (intros p c Hpa; apply Hal; [done|]; intros r _; by rewrite Ha).
  assert (Hkeep' : forall p, alive p (root_ s) -> alive p n') by (intros p; rewrite !alive_kind; intros [c Hc]; eexists; by apply Hkeep).
  assert (Hpl : plain n' = plain (root_ s)) by (rewrite Hp in Hput; eapply put_get; [by apply get_plain|exact Hput]).
  destruct Hok as [K1 K2 K3 K4 K5 K6]. split; [|done]. split; cbn; try done. split; cbn; auto.
Qed.
Lemma plain_put_comment c pl n : plain (put_comment c pl n) = plain n.
Proof. apply plain_with_info. Qed.
Lemma setComment_ok q c pl s : ok s -> alive q (root_ s) -> c = [] \/ (exists m, c = 47 :: m) ->
  wp (setComment q c pl) (fun _ s' => quiet s s' /\ current_ s' = current_ s) s.
Proof.
  intros Hok Hq Hc. assert (H : wp (at_node q (fun n => Some (put_comment c pl n))) (fun _ s' => quiet s s' /\ current_ s' = current_ s) s).
  { apply at_node_quiet; [done|done|apply plain_put_comment|]. intros n p. apply kind_with_info. }
  unfold setComment. destruct Hc as [->|[m ->]]; exact H.
Qed.
Definition token_at (s : Reader) (t : Token) (s' : Reader) : Prop :=
  token_ok t /\ end_ t = current_ s' /\ (current_ s <= start_ t)%nat.
Lemma readToken_ok s : ok s ->
  wp (readToken document_ collectComments_) (fun t s' => quiet s s' /\ token_at s t s' /\ JsonText.readToken (rem s) = (tok t, rem s')) s.
Proof.
  intros Hok. unfold readToken. apply wp_gets. pose proof (readToken_parts (rem s)) as Hp. destruct (JsonText.readToken (rem s)) as [t l'] eqn:E.
  destruct Hp as (Hl' & Ht & Hc). pose proof (ok_current s Hok) as Hcur.
  destruct (rest_suffix (skipSpaces (rem s)) (current_ s) Hcur (skipSpaces_suffix _)) as [Ea Ha]. set (a := off (skipSpaces (rem s))) in *.
  rewrite Ea in Hl'. destruct (rest_suffix l' a ltac:(lia) Hl') as [Eb Hb]. set (b := off l') in *.
  assert (Htext : text t = cut a b).
  { rewrite Ht, Ea, Eb. unfold slice. f_equal. rewrite !length_drop. lia. }
  apply wp_update. cbn [end_]. set (s1 := set_current b s).
  assert (Hq : quiet s s1) by (destruct Hok; repeat split; cbn; auto; lia).
  assert (Hpost : forall s', quiet s1 s' -> current_ s' = b -> quiet s s' /\ token_at s (mkToken (JsonText.type_ t) a b) s' /\
    (t, l') = (tok (mkToken (JsonText.type_ t) a b), rem s')).
  { intros s' Hs' Hb'. split; [by eapply quiet_trans|]. split; [split; [split; cbn; lia|split; [by symmetry|cbn; lia]]|].
    unfold text_token, rest. cbn [type_ start_ end_]. rewrite Hb', <- Eb, <- Htext. by destruct t. }
  destruct (is_comment t && collectComments_) eqn:Ec; [|by apply (wp_bind _ _ (fun _ s' => s' = s1)); [apply wp_ret|intros _ s' ->; apply wp_ret, Hpost; [apply quiet_refl, Hq|]]].
  apply andb_prop in Ec as [Ec%bool_decide_eq_true _]. destruct (skipSpaces (rem s)) as [|c m] eqn:Em; [by rewrite Ec in Hc|]. destruct Hc as [Hm Hc]. specialize (Hc Ec) as ->. rename Ea into Em'. symmetry in Em'.
  assert (Hcomment : exists m', cut a b = 47 :: m').
  { unfold slice. rewrite Em'. destruct (b - a)%nat eqn:Eba; [|by eexists]. exfalso. assert (Hab : b = a) by lia. rewrite Hab in Eb. rewrite Eb in Hm.
    rewrite Em' in Hm. apply suffix_length in Hm. cbn in Hm. lia. }
  eapply (wp_bind _ _ (fun _ s' => quiet s1 s' /\ current_ s' = b)); [|intros _ s' [Hs' Hb']; by apply wp_ret, Hpost].
  apply wp_gets. cbn [start_ end_]. destruct Hcomment as [m' Hm'].
  assert (Hbefore : wp (update (fun s => set_commentsBefore (match commentsBefore_ s with [] => [] | c => c ++ [10] end ++ cut a b) s))
    (fun _ s' => quiet s1 s' /\ current_ s' = b) s1).
  { eexists _, _. split; [done|]. destruct Hq as [[K1 K2 K3 K4 K5 K6] _ _ _ _ _]. split; [|done]. split; cbn; try done. split; cbn; try done. right. rewrite Hm'.
    cbn in K4. destruct K4 as [-> |[m0 ->]]; by eexists. }
  unfold addComment. destruct (placement_of _ s1 a b _) eqn:Epl; [exact Hbefore| |exact Hbefore].
  apply wp_gets. destruct (ok_last_end s1) as [p Hp]; [apply Hq| |].
  { unfold placement_of in Epl. destruct (lastValueEnd_ s1); [by eexists|done]. }
  rewrite Hp. rewrite Hm'. apply setComment_ok; [apply Hq|by apply (ok_last s1); [apply Hq|]|by right; eexists].
Qed.
Lemma length_rem s : length (rem s) = (length document_ - current_ s)%nat.
Proof. apply length_drop. Qed.
(** A token that is not the end leaves less text. *)
Lemma token_shrinks s t s' : ok s' -> JsonText.readToken (rem s) = (tok t, rem s') -> type_ t <> tokenEndOfStream -> (current_ s < current_ s')%nat.
Proof.
  intros Hok E H1. pose proof (readToken_parts (rem s)) as H. rewrite E in H. destruct H as (_ & _ & H). pose proof (suffix_length _ _ (skipSpaces_suffix (rem s))) as Hl.
  destruct (skipSpaces (rem s)) as [|c m]; [done|]. destruct H as [H _]. apply suffix_length in H. cbn in Hl. rewrite !length_rem in *.
  pose proof (ok_current s' Hok). lia.
Qed.
Lemma is_type_iff ty t : is_type ty t = true <-> type_ t = ty.
Proof. apply bool_decide_eq_true. Qed.
Lemma is_type_tok ty t : is_type ty t = bool_decide (JsonText.type_ (tok t) = ty).
Proof. done. Qed.
Lemma skip_ok n : forall fuel s t s1, ok s1 -> JsonText.readToken (rem s) = (tok t, rem s1) -> token_at s t s1 ->
  (type_ t = tokenComment -> (length (rem s1) < fuel)%nat) -> (length (rem s) <= n)%nat ->
  wp (skip_comment_tokens document_ collectComments_ fuel t)
    (fun t' s' => quiet s1 s' /\ token_at s t' s' /\ JsonText.skip_comments n (rem s) = (tok t', rem s')) s1.
Proof.
  induction n as [|n IH]; intros fuel s t s1 Hok E Ht Hf Hn; cbn [JsonText.skip_comments]; rewrite E;
    change (is_comment (tok t)) with (is_type tokenComment t); destruct (is_type tokenComment t) eqn:Ec.
  2, 4: destruct fuel; cbn [skip_comment_tokens]; rewrite Ec; apply wp_ret; by split; [apply quiet_refl|].
  all: apply is_type_iff in Ec; specialize (Hf Ec); pose proof (token_shrinks s t s1 Hok E) as Hs; rewrite Ec in Hs; specialize (Hs ltac:(done));
    rewrite !length_rem in *; pose proof (ok_current s1 Hok).
  { lia. }
  destruct fuel as [|fuel]; [lia|]. cbn [skip_comment_tokens]. unfold is_type. rewrite Ec. cbn [bool_decide]. rewrite bool_decide_eq_true_2 by done.
  eapply wp_bind; [by apply readToken_ok|]. intros t2 s2 (Hq & Ht2 & E2). cbv beta. pose proof (quiet_ok _ _ Hq) as Hok2. pose proof (quiet_current _ _ Hq). pose proof (ok_current s2 Hok2).
  eapply wp_mono; [apply (IH fuel s1 t2 s2 Hok2 E2 Ht2); rewrite length_rem; [|lia]|].
  - intros Et. pose proof (token_shrinks s1 t2 s2 Hok2 E2) as Hs2. rewrite Et in Hs2. specialize (Hs2 ltac:(done)). lia.
  - intros t' s' (Hq' & Ht' & E'). split; [by eapply quiet_trans|]. split; [|done]. destruct Ht' as (? & ? & ?). split_and!; try done. lia.
Qed.
Lemma readToken_after_comments_ok s : ok s ->
  wp (readToken_after_comments document_ collectComments_)
    (fun t s' => quiet s s' /\ token_at s t s' /\ JsonText.skipCommentTokens (rem s) = (tok t, rem s')) s.
Proof.
  intros Hok. unfold readToken_after_comments. eapply wp_bind; [by apply readToken_ok|]. intros t s1 (Hq & Ht & E). cbv beta. apply wp_gets.
  eapply wp_mono; [apply (skip_ok (length (rem s)) (fuel_of document_ s1) s t s1); [apply Hq|done|done|unfold fuel_of; intros _; lia|done]|].
  intros t' s' (Hq' & Ht' & E'). split; [by eapply quiet_trans|done].
Qed.
(** Recovery reads on and forgets no error. *)
Lemma recover_ok fuel ty s : ok s -> (length (rem s) < fuel)%nat ->
  wp (recover document_ collectComments_ fuel (length (errors_ s)) ty) (fun b s' => b = false /\ quiet s s') s.
Proof.
  revert s. induction fuel as [|fuel IH]; intros s Hok Hf; [lia|]. cbn [recover]. eapply wp_bind; [by apply readToken_ok|].
  intros t s1 (Hq & Ht & E). cbv beta. pose proof (quiet_ok _ _ Hq) as Hok1. pose proof (ok_current s1 Hok1). rewrite <- (quiet_errors _ _ Hq).
  destruct (is_type ty t || is_type tokenEndOfStream t) eqn:Ec.
  - apply wp_update, wp_ret. split; [done|]. rewrite firstn_all. destruct s1. by destruct Hq; split.
  - apply orb_false_iff in Ec as [_ Ec]. assert (Ht' : type_ t <> tokenEndOfStream) by (intros Et; apply is_type_iff in Et; congruence).
    pose proof (token_shrinks s t s1 Hok1 E Ht'). rewrite !length_rem in *. eapply wp_mono; [apply IH; [done|rewrite length_rem; lia]|].
    intros b s' [-> Hq']. split; [done|]. by eapply quiet_trans.
Qed.
(** Steps that add errors. *)
Record failed (s s' : Reader) : Prop := {
  failed_ok : ok s';
  failed_current : (current_ s <= current_ s')%nat;
  failed_alive : forall p, alive p (root_ s) -> alive p (root_ s');
  failed_errors : exists e, e <> [] /\ errors_ s' = errors_ s ++ e }.
Lemma failed_quiet s s1 s2 : failed s s1 -> quiet s1 s2 -> failed s s2.
Proof. intros [A B C (e & De & D)] Hq. pose proof (quiet_alive _ _ Hq). destruct Hq as [A2 B2 C2 _ _ _]. split; [done|lia|auto|]. exists e. by rewrite C2. Qed.
Lemma quiet_failed s s1 s2 : quiet s s1 -> failed s1 s2 -> failed s s2.
Proof. intros Hq [A2 B2 C2 D2]. pose proof (quiet_alive _ _ Hq). destruct Hq as [A B C _ _ _]. split; [done|lia|auto|]. by rewrite <- C. Qed.
Lemma addError_ok m t x s : ok s -> error_ok (mkError t m x) -> wp (addError m t x) (fun b s' => b = false /\ failed s s') s.
Proof.
  intros [A B C D F G] He. apply wp_update, wp_ret. split; [done|]. split; cbn; [|lia|done|by exists [mkError t m x]].
  split; cbn; try done. apply Forall_app. split; [done|by constructor].
Qed.
Lemma recoverFromError_ok ty s : ok s -> wp (recoverFromError document_ collectComments_ ty) (fun b s' => b = false /\ quiet s s') s.
Proof. intros Hok. unfold recoverFromError. apply wp_gets, wp_gets, recover_ok; [done|unfold fuel_of; lia]. Qed.
Lemma recovers_ok ty s s1 : failed s s1 -> wp (recoverFromError document_ collectComments_ ty) (fun b s' => b = false /\ failed s s') s1.
Proof. intros Hf. eapply wp_mono; [apply recoverFromError_ok, Hf|]. intros b s' [-> Hq]. split; [done|]. by eapply failed_quiet. Qed.
Lemma addErrorAndRecover_ok m t ty s : ok s -> token_ok t -> wp (addErrorAndRecover document_ collectComments_ m t ty) (fun b s' => b = false /\ failed s s') s.
Proof.
  intros Hok Ht. unfold addErrorAndRecover. eapply wp_bind; [apply addError_ok; [done|by split]|]. intros b s1 [_ Hf]. by apply recovers_ok.
Qed.

(** ** Strings and numbers are read as in JsonText.v *)
Lemma unicode_digits_step n u c l : unicode_digits (S n) u (c :: l) =
  match hex_value c with Some d => unicode_digits n (u * 16 + d) l | None => inl (digit_expected, l) end.
Proof. done. Qed.
Lemma escape_sequence_spec l : decodeUnicodeEscapeSequence l =
  match l with
  | h1 :: h2 :: h3 :: h4 :: l' =>
    match JsonText.decodeUnicodeEscapeSequence h1 h2 h3 h4 with Some u => inr (u, l') | None => decodeUnicodeEscapeSequence l end
  | _ => inl (four_expected, l)
  end.
Proof.
  destruct l as [|h1 [|h2 [|h3 [|h4 l]]]]; try done. unfold decodeUnicodeEscapeSequence, JsonText.decodeUnicodeEscapeSequence. cbn [length Nat.ltb Nat.leb].
  rewrite !unicode_digits_step. destruct (hex_value h1) as [a|]; cbn [mbind option_bind]; [|done]. rewrite !unicode_digits_step. destruct (hex_value h2) as [b|]; cbn [mbind option_bind]; [|done].
  rewrite !unicode_digits_step. destruct (hex_value h3) as [c|]; cbn [mbind option_bind]; [|done]. rewrite !unicode_digits_step. destruct (hex_value h4) as [d|]; cbn [mbind option_bind]; [|done].
  done.
Qed.
Lemma escape_sequence_fails h1 h2 h3 h4 l : JsonText.decodeUnicodeEscapeSequence h1 h2 h3 h4 = None ->
  exists e, decodeUnicodeEscapeSequence (h1 :: h2 :: h3 :: h4 :: l) = inl e.
Proof.
  unfold decodeUnicodeEscapeSequence, JsonText.decodeUnicodeEscapeSequence. cbn [length Nat.ltb Nat.leb].
  rewrite !unicode_digits_step. destruct (hex_value h1) as [a|]; cbn [mbind option_bind]; [|by eexists]. rewrite !unicode_digits_step. destruct (hex_value h2) as [b|]; cbn [mbind option_bind]; [|by eexists].
  rewrite !unicode_digits_step. destruct (hex_value h3) as [c|]; cbn [mbind option_bind]; [|by eexists]. rewrite !unicode_digits_step. destruct (hex_value h4) as [d|]; cbn [mbind option_bind]; [done|by eexists].
Qed.
(** What the escape [u] stands for in [decode_chars]. *)
Lemma code_point_spec l :
  match decodeUnicodeCodePoint l with
  | inl _ => decode_chars (92 :: 117 :: l) = None
  | inr (u, l') => decode_chars (92 :: 117 :: l) = app (codePointToUTF8 u) <$> decode_chars l' /\ (length l' < length l)%nat
  end.
Proof.
  unfold decodeUnicodeCodePoint. rewrite escape_sequence_spec.
  destruct l as [|h1 [|h2 [|h3 [|h4 l]]]]; try done. destruct (JsonText.decodeUnicodeEscapeSequence h1 h2 h3 h4) as [u|] eqn:E1.
  2: { destruct (escape_sequence_fails h1 h2 h3 h4 l E1) as [e ->]. cbn. by rewrite E1. }
  destruct ((0xD800 <=? u) && (u <=? 0xDBFF)) eqn:Es.
  - destruct l as [|b [|v [|h5 [|h6 [|h7 [|h8 l]]]]]]; try (cbn -[decodeUnicodeEscapeSequence]; by rewrite E1; cbn -[decodeUnicodeEscapeSequence]; rewrite Es).
    cbn [length Nat.ltb Nat.leb]. cbn -[decodeUnicodeEscapeSequence codePointToUTF8 Z.shiftl Z.land]. rewrite E1. cbn -[decodeUnicodeEscapeSequence codePointToUTF8 Z.shiftl Z.land]. rewrite Es.
    destruct (b =? 92); cbn [andb]; [|done]. destruct (v =? 117); [|done]. rewrite escape_sequence_spec.
    destruct (JsonText.decodeUnicodeEscapeSequence h5 h6 h7 h8) as [w|] eqn:E2; cbn [mbind option_bind].
    + split; [done|]. lia.
    + destruct (escape_sequence_fails h5 h6 h7 h8 l E2) as [e ->]. done.
  - cbn -[codePointToUTF8]. rewrite E1. cbn -[codePointToUTF8]. rewrite Es. split; [done|]. lia.
Qed.
Lemma decode_loop_spec fuel : forall decoded l, (length l < fuel)%nat ->
  match decode_loop fuel decoded l with inl _ => decode_chars l = None | inr r => exists m, decode_chars l = Some m /\ r = decoded ++ m end.
Proof.
  induction fuel as [|fuel IH]; intros decoded l Hf; [lia|]. destruct l as [|c l]; [exists []; by rewrite app_nil_r|]. cbn [decode_loop].
  destruct (c =? 34) eqn:E1; [exists []; cbn; rewrite E1, app_nil_r; done|]. destruct (c =? 92) eqn:E2.
  - apply Z.eqb_eq in E2. subst c. destruct l as [|x l]; [done|]. destruct (x =? 117) eqn:Ex.
    + apply Z.eqb_eq in Ex. subst x. pose proof (code_point_spec l) as Hc. destruct (decodeUnicodeCodePoint l) as [e|[u l']]; [done|]. destruct Hc as [Hc Hl].
      cbn [length] in Hf. specialize (IH (decoded ++ codePointToUTF8 u) l' ltac:(lia)). rewrite Hc. destruct (decode_loop fuel _ l'); [by rewrite IH|].
      destruct IH as (m & -> & ->). eexists. split; [done|]. by rewrite app_assoc.
    + cbn [decode_chars]. rewrite Ex. cbn. destruct (simple_escape x) as [d|]; cbn; [|done]. cbn [length] in Hf. specialize (IH (decoded ++ [d]) l ltac:(lia)).
      destruct (decode_loop fuel _ l); [by rewrite IH|]. destruct IH as (m & -> & ->). eexists. split; [done|]. by rewrite <- app_assoc.
  - cbn [length] in Hf. specialize (IH (decoded ++ [c]) l ltac:(lia)). cbn [decode_chars]. rewrite E1, E2. destruct (decode_loop fuel _ l); [by rewrite IH|].
    destruct IH as (m & -> & ->). eexists. split; [done|]. by rewrite <- app_assoc.
Qed.
Lemma decodeString_ok t : token_ok t ->
  match decodeString document_ t with
  | inl e => error_ok e /\ JsonText.decodeString (tok t) = None
  | inr l => JsonText.decodeString (tok t) = Some l
  end.
Proof.
  intros [Ht1 Ht2]. unfold decodeString, JsonText.decodeString.
  assert (E : take (length (text (tok t)) - 2) (drop 1 (text (tok t))) = cut (S (start_ t)) (end_ t - 1)).
  { unfold text_token, slice. cbn [text]. rewrite length_take, length_drop, skipn_firstn_comm, drop_drop, take_take. f_equal; [lia|]. f_equal. lia. }
  rewrite E. pose proof (decode_loop_spec (S (length (cut (S (start_ t)) (end_ t - 1)))) [] (cut (S (start_ t)) (end_ t - 1)) ltac:(lia)) as H.
  destruct (decode_loop _ _ _) as [[m more]|l]; [|by destruct H as (m & -> & ->)]. split; [|done]. split; cbn; [done|]. lia.
Qed.
Lemma decodeNumber_ok t : token_ok t ->
  match decodeNumber document_ t with
  | inl e => error_ok e /\ JsonText.decodeNumber (tok t) = None
  | inr v => JsonText.decodeNumber (tok t) = Some v
  end.
Proof. intros Ht. unfold decodeNumber. by destruct (JsonText.decodeNumber (tok t)). Qed.

(** ** Reading a value *)
Definition below (q p : list place) : Prop := exists r, r <> [] /\ p = q ++ r.
(** What is left of [s] when the value at [q] was read: everything but what was below it. *)
Record after (q : list place) (b : bool) (s s' : Reader) : Prop := {
  after_ok : ok s';
  after_current : (current_ s <= current_ s')%nat;
  after_alive : forall p, alive p (root_ s) -> ~ below q p -> alive p (root_ s');
  after_errors : if b then errors_ s' = errors_ s else exists e, e <> [] /\ errors_ s' = errors_ s ++ e }.
Lemma quiet_after q b s s1 s2 : quiet s s1 -> after q b s1 s2 -> after q b s s2.
Proof. intros Hq [A2 B2 C2 D2]. pose proof (quiet_alive _ _ Hq). destruct Hq as [A B C _ _ _]. split; [done|lia|auto|]. by rewrite <- C. Qed.
Lemma after_quiet q b s s1 s2 : after q b s s1 -> quiet s1 s2 -> after q b s s2.
Proof. intros [A B C D] Hq. pose proof (quiet_alive _ _ Hq). destruct Hq as [A2 B2 C2 _ _ _]. split; [done|lia|auto|]. by rewrite C2. Qed.
Lemma after_trans q b s s1 s2 : after q true s s1 -> after q b s1 s2 -> after q b s s2.
Proof. intros [A B C D] [A2 B2 C2 D2]. split; [done|lia|auto|]. by rewrite <- D. Qed.
Lemma after_failed q s s1 s2 : after q true s s1 -> failed s1 s2 -> after q false s s2.
Proof. intros [A B C D] [A2 B2 C2 D2]. split; [done|lia|auto|]. by rewrite <- D. Qed.
Lemma failed_after q s s1 : failed s s1 -> after q false s s1.
Proof. intros [A B C D]. split; auto. Qed.
Lemma quiet_after_true q s s1 : quiet s s1 -> after q true s s1.
Proof. intros Hq. pose proof (quiet_alive _ _ Hq). destruct Hq as [A B C _ _ _]. split; auto. Qed.
Lemma after_child q x b s s1 : after (q ++ [x]) b s s1 -> after q b s s1.
Proof.
  intros [A B C D]. split; [done|done| |done]. intros p Hp Hn. apply C; [done|]. intros (r & Hr & ->). apply Hn. exists (x :: r). by rewrite <- app_assoc.
Qed.
Lemma not_below_self q : ~ below q q.
Proof. intros (r & Hr & E). apply Hr. apply (f_equal length) in E. rewrite length_app in E. destruct r; [done|cbn in E; lia]. Qed.
Definition last_outside (q : list place) (s : Reader) : Prop := forall r, lastValue_ s = Some (q ++ r) -> r = [].
Lemma assign_ok q f s : ok s -> alive q (root_ s) -> last_outside q s ->
  wp (at_node q (fun n => Some (f n))) (fun _ s' => after q true s s' /\ current_ s' = current_ s /\ lastValue_ s' = lastValue_ s /\
    exists x, node_at q (root_ s') = Some (f x) /\ put q (plain (f x)) (plain (root_ s)) = Some (plain (root_ s'))) s.
Proof.
  intros [K1 K2 K3 K4 K5 K6] [x Hx] Hlast. eapply wp_at_node; [exact Hx|done|]. intros n' Hput Hn Hal _.
  assert (Hkeep : forall p, alive p (root_ s) -> ~ below q p -> alive p n').
  { intros p Hp Hb. apply Hal; [done|]. intros [|y r] -> _; [by eexists|]. exfalso. apply Hb. by exists (y :: r). }
  split; [|split; [done|split; [done|]]].
  - split; cbn; try done. split; cbn; try done. intros p Hp. apply Hkeep; [by apply K3|]. intros (r & Hr & ->). by apply Hr, Hlast.
  - exists x. cbn. split; [|done]. specialize (Hn []). by rewrite app_nil_r in Hn.
Qed.
Lemma finish_ok q b s0 s : after q b s0 s -> alive q (root_ s) ->
  wp (finish collectComments_ q b) (fun b' s' => b' = b /\ after q b s0 s' /\ current_ s' = current_ s /\ root_ s' = root_ s /\
    lastValue_ s' = if collectComments_ then Some q else lastValue_ s) s.
Proof.
  intros Ha Hq. unfold finish, note_last. destruct collectComments_ eqn:Ec; [apply wp_update, wp_ret|apply (wp_bind _ _ (fun _ s' => s' = s)); [by apply wp_ret|intros _ s' ->; by apply wp_ret]].
  split; [done|]. split; [|done]. destruct Ha as [[K1 K2 K3 K4 K5 K6] B C D]. split; cbn; try done. split; cbn; try done; [by intros p [= <-]|by rewrite Ec].
Qed.
Lemma limit_here_ok q b s0 s : after q b s0 s -> alive q (root_ s) ->
  wp (limit_here collectComments_ q b) (fun b' s' => b' = b /\ after q b s0 s' /\ current_ s' = current_ s /\ plain (root_ s') = plain (root_ s) /\
    lastValue_ s' = if collectComments_ then Some q else lastValue_ s) s.
Proof.
  intros Ha Hq. unfold limit_here. apply wp_gets. eapply wp_bind; [apply at_node_quiet; [apply Ha|done|intros n; apply plain_with_info|]|].
  { intros n p. apply kind_with_info. }
  intros _ s1 [Hq1 Hc1]. cbv beta. eapply wp_mono; [apply (finish_ok q b s0 s1); [by eapply after_quiet|by apply (quiet_alive _ _ Hq1)]|].
  intros b' s' (-> & Ha' & Hc & Hr & Hl). split; [done|]. split; [done|]. split; [congruence|]. rewrite Hr, (quiet_plain _ _ Hq1). split; [done|].
  by rewrite Hl, (quiet_last _ _ Hq1).
Qed.
Lemma strip_head m : strip_newlines (47 :: m) = [] \/ exists m', strip_newlines (47 :: m) = 47 :: m'.
Proof.
  right. unfold strip_newlines. cbn [rev]. induction (rev m) as [|c l IH]; [by exists []|]. cbn [app drop_newlines].
  destruct ((c =? 10) || (c =? 13)); [exact IH|]. cbn [rev]. rewrite rev_app_distr. by eexists.
Qed.
Lemma attach_ok q s : ok s -> alive q (root_ s) -> wp (attach_commentsBefore collectComments_ q) (fun _ s' => quiet s s' /\ current_ s' = current_ s) s.
Proof.
  intros Hok Hq. unfold attach_commentsBefore. apply wp_gets. destruct (commentsBefore_ s) as [|c l] eqn:E; [apply wp_ret; by split; [apply quiet_refl|]|].
  destruct collectComments_; [|apply wp_ret; by split; [apply quiet_refl|]]. destruct (ok_comments s Hok) as [E'|[m E']]; [congruence|]. rewrite E' in E.
  injection E as <- <-. eapply wp_bind; [apply setComment_ok; [done|done|apply strip_head]|]. intros _ s1 [Hq1 Hc1]. cbv beta.
  eexists _, _. split; [done|]. split; [|done]. eapply quiet_trans; [exact Hq1|]. destruct (quiet_ok _ _ Hq1) as [K1 K2 K3 K4 K5 K6]. split; cbn; try done. split; cbn; try done. by left.
Qed.

Variable features_ : Features.
Lemma rem_current s s' : current_ s' = current_ s -> rem s' = rem s.
Proof. unfold rest. by intros ->. Qed.
Lemma skipCommentTokens_ok s : ok s ->
  wp (skipCommentTokens document_ features_ collectComments_) (fun t s' => quiet s s' /\ token_at s t s' /\
    (features_ = Features_all -> JsonText.skipCommentTokens (rem s) = (tok t, rem s')) /\
    (type_ t <> tokenEndOfStream -> type_ t <> tokenError -> (current_ s < current_ s')%nat)) s.
Proof.
  intros Hok. unfold skipCommentTokens. destruct (allowComments_ features_) eqn:E.
  - eapply wp_mono; [by apply readToken_after_comments_ok|]. intros t s' (Hq & Ht & Et). split_and!; try done. intros H1 H2.
    pose proof (skipCommentTokens_no_comment (rem s)) as H. rewrite Et in H. destruct H as (_ & _ & H). specialize (H H1 H2). rewrite !length_rem in H.
    pose proof (ok_current s' (quiet_ok _ _ Hq)). lia.
  - eapply wp_mono; [by apply readToken_ok|]. intros t s' (Hq & Ht & Et). split_and!; try done; [by intros ->|]. intros H1 _.
    by apply (token_shrinks s t s'); [apply Hq|..].
Qed.
(** The outcome of JsonText.v at the path [q]. *)
Definition sim (r : parsed) (q : list place) (b : bool) (s s' : Reader) : Prop :=
  match r with
  | Parsed v l => b = true /\ rem s' = l /\ put q v (plain (root_ s)) = Some (plain (root_ s'))
  | Failed => b = false
  | OutOfFuel => True
  end.
Definition last_after (q : list place) (b : bool) (s s' : Reader) : Prop :=
  b = true -> lastValue_ s' = if collectComments_ then Some q else lastValue_ s.
Lemma store_ok q t v s0 s : quiet s0 s -> alive q (root_ s0) -> last_outside q s0 ->
  wp (b ← store q t v; finish collectComments_ q b) (fun b s' => after q b s0 s' /\ last_after q b s0 s' /\ sim (Parsed v (rem s)) q b s0 s') s.
Proof.
  intros Hq Ha Hl. unfold store. set (f := fun n => setOffsets (start_ t) (end_ t) (assign (fun i => Scalar i v) n)).
  assert (H := assign_ok q f s (quiet_ok _ _ Hq) (quiet_alive _ _ Hq _ Ha)). eapply (wp_bind _ _ (fun b s1 => b = true /\ _)).
  { eapply wp_bind; [apply H; intros r; rewrite (quiet_last _ _ Hq); apply Hl|]. intros u s1 H1. apply wp_ret. split; [done|exact H1]. }
  intros b s1 (-> & Ha1 & Hc1 & Hl1 & x & Hx & Hput). subst f. cbv beta in Hx, Hput. eapply wp_mono; [apply (finish_ok q true s0 s1); [by eapply quiet_after|by eexists]|].
  intros b s' (-> & Ha' & Hc & Hr & Hl'). split; [done|]. split; [intros _; by rewrite Hl', Hl1, (quiet_last _ _ Hq)|]. split; [done|]. split; [apply rem_current; congruence|].
  rewrite Hr, <- (quiet_plain _ _ Hq). unfold setOffsets, setOffsetLimit, setOffsetStart in Hput. by rewrite !plain_with_info in Hput.
Qed.
Lemma fails_ok q e s0 s : quiet s0 s -> alive q (root_ s0) -> error_ok e ->
  wp (b ← add_info e; finish collectComments_ q b) (fun b s' => after q b s0 s' /\ b = false) s.
Proof.
  intros Hq Ha He. eapply wp_bind; [apply addError_ok; [apply Hq|by destruct e]|]. intros b s1 [-> Hf]. assert (Hf' : failed s0 s1) by (by eapply quiet_failed).
  eapply wp_mono; [apply (finish_ok q false s0 s1); [by apply failed_after|by apply (failed_alive _ _ Hf')]|]. by intros b s' (-> & Ha' & _).
Qed.
Lemma syntax_error_ok q t s0 s : quiet s0 s -> alive q (root_ s0) -> token_ok t ->
  wp (syntax_error q t) (fun b s' => after q b s0 s' /\ b = false) s.
Proof.
  intros Hq Ha Ht. unfold syntax_error. eapply wp_bind; [apply at_node_quiet; [apply Hq|by apply (quiet_alive _ _ Hq)|..]|].
  { intros n. unfold setOffsets, setOffsetLimit, setOffsetStart. by rewrite !plain_with_info. }
  { intros n p. unfold setOffsets, setOffsetLimit, setOffsetStart. by rewrite !kind_with_info. }
  intros _ s1 [Hq1 _]. cbv beta. eapply wp_mono; [apply addError_ok; [apply Hq1|by split]|]. intros b s' [-> Hf]. split; [|done].
  apply failed_after. eapply quiet_failed; [|exact Hf]. by eapply quiet_trans.
Qed.
Definition value_ok (fuel : nat) : Prop := forall q s, ok s -> alive q (root_ s) -> last_outside q s -> (2 * length (rem s) < fuel)%nat ->
  wp (readValue document_ features_ collectComments_ fuel q) (fun b s' => after q b s s' /\ last_after q b s s' /\
    (features_ = Features_all -> sim (JsonText.readValue fuel (rem s)) q b s s')) s.
(** Inside an array or object at [q]. *)
Definition last_inside (q : list place) (s : Reader) : Prop := forall r, lastValue_ s = Some (q ++ r) -> (length r <= 1)%nat.
Definition object_ok (fuel : nat) : Prop := forall q name s a l, ok s -> node_at q (root_ s) = Some (Members a l) -> last_inside q s ->
  (2 * length (rem s) < fuel)%nat ->
  wp (readObject document_ features_ collectComments_ fuel q name) (fun b s' => after q b s s' /\
    (features_ = Features_all -> in_order (map plain_member l) -> sim (JsonText.readObject fuel name (map plain_member l) (rem s)) q b s s')) s.
Definition array_ok (fuel : nat) : Prop := forall q index s a l, ok s -> node_at q (root_ s) = Some (Elements a l) -> last_inside q s ->
  (index <= length l)%nat -> (2 * length (rem s) + 1 < fuel)%nat ->
  wp (readArray document_ features_ collectComments_ fuel q index) (fun b s' => after q b s s' /\
    (features_ = Features_all -> length l = index -> sim (JsonText.readArray fuel (map plain l) (rem s)) q b s s')) s.
Lemma sim_from w r q b s s1 s' : put q w (plain (root_ s)) = Some (plain (root_ s1)) -> sim r q b s1 s' -> sim r q b s s'.
Proof. intros Hw. destruct r as [| |v l]; try done. intros (H1 & H2 & H3). split; [done|]. split; [done|]. by rewrite <- (put_put_value q w v _ _ Hw). Qed.
Lemma last_inside_after q x s s2 : last_inside q s -> last_after (q ++ [x]) true s s2 -> last_inside q s2.
Proof.
  intros Hi Ha r Hr. rewrite (Ha eq_refl) in Hr. destruct collectComments_; [|by apply Hi]. injection Hr as Hr. apply app_inv_head in Hr. by subst r.
Qed.
Lemma last_inside_outside q x s : last_inside q s -> last_outside (q ++ [x]) s.
Proof. intros Hi r Hr. rewrite <- app_assoc in Hr. apply Hi in Hr. destruct r; [done|cbn in Hr; lia]. Qed.
(** What comes after a failed element or member. *)
Lemma child_fails q x ty s s1 s2 : after q true s s1 -> after (q ++ [x]) false s1 s2 ->
  wp (recoverFromError document_ collectComments_ ty) (fun b s' => after q b s s' /\ b = false) s2.
Proof.
  intros Ha Hc. eapply wp_mono; [apply recoverFromError_ok, Hc|]. intros b s' [-> Hq]. split; [|done].
  eapply after_trans; [exact Ha|]. eapply after_quiet; [by eapply after_child|done].
Qed.
Lemma complain_ok q m t ty s s1 : after q true s s1 -> token_ok t ->
  wp (addErrorAndRecover document_ collectComments_ m t ty) (fun b s' => after q b s s' /\ b = false) s1.
Proof.
  intros Ha Ht. eapply wp_mono; [apply addErrorAndRecover_ok; [apply Ha|done]|]. intros b s' [-> Hf]. split; [|done]. by eapply after_failed.
Qed.
Lemma touch_index_ok q index s a l : ok s -> node_at q (root_ s) = Some (Elements a l) -> (index <= length l)%nat ->
  wp (at_node q (touch_index index)) (fun _ s1 => after q true s s1 /\ current_ s1 = current_ s /\ lastValue_ s1 = lastValue_ s /\
    alive (q ++ [At index]) (root_ s1) /\ (length l = index -> put q (arrayValue (map plain l ++ [nullValue])) (plain (root_ s)) = Some (plain (root_ s1)))) s.
Proof.
  intros [K1 K2 K3 K4 K5 K6] Hx Hi. set (y := if (index <? length l)%nat then Elements a l else Elements a (l ++ [null])).
  eapply (wp_at_node _ _ _ y); [exact Hx|done|]. intros n' Hput Hn Hal _.
  assert (Hk : forall p, alive p (root_ s) -> alive p n').
  { intros p Hp. apply Hal; [done|]. intros r -> Hr. subst y. destruct (index <? length l)%nat; [done|]. destruct r as [|[j|k] r]; [by eexists| |by destruct Hr].
    unfold alive in *. cbn in *. destruct (l !! j) as [z|] eqn:Ez; [|by destruct Hr]. by rewrite (lookup_app_l_Some _ _ _ _ Ez). }
  split; [split; cbn; auto; split; cbn; auto|]. split; [done|]. split; [done|]. split.
  - unfold alive. cbn. rewrite Hn. subst y. destruct (Nat.ltb_spec index (length l)) as [Hlt|Hge]; cbn.
    + destruct (lookup_lt_is_Some_2 l index Hlt) as [z Hz]. rewrite Hz. by eexists.
    + rewrite lookup_app_r by lia. replace (index - length l)%nat with 0%nat by lia. by eexists.
  - intros <-. subst y. rewrite Nat.ltb_irrefl in Hput. cbn in Hput. by rewrite map_app in Hput.
Qed.
Lemma array_step fuel : value_ok fuel -> array_ok fuel -> array_ok (S fuel).
Proof.
  intros IHv IHa q index s a l Hok Hx Hl Hi Hf. cbn [readArray]. eapply wp_bind; [by apply (touch_index_ok q index s a l)|].
  intros _ s1 (Ha1 & Hc1 & Hl1 & Hal1 & Hput1). cbv beta. pose proof (rem_current s s1 Hc1) as Hr1.
  assert (Hin1 : last_inside q s1) by (intros r; rewrite Hl1; apply Hl).
  eapply wp_bind; [apply IHv; [apply Ha1|done|by apply last_inside_outside|rewrite Hr1; lia]|]. intros b s2 (Ha2 & Hl2 & Hs2). rewrite Hr1 in Hs2. cbn [JsonText.readArray].
  destruct b; cbn [negb].
  2: { eapply wp_mono; [by eapply child_fails|]. intros b s' [Ha' ->]. split; [done|]. intros HF _. specialize (Hs2 HF).
    destruct (JsonText.readValue fuel (rem s)); cbn in *; [done|done|]. by destruct Hs2. }
  assert (Ha2' : after q true s s2) by (eapply after_trans; [exact Ha1|by eapply after_child]).
  eapply wp_bind; [apply readToken_after_comments_ok, Ha2|]. intros t s3 (Hq3 & Ht3 & E3). cbv beta.
  assert (Ha3 : after q true s s3) by (by eapply after_quiet).
  assert (Hv : features_ = Features_all -> length l = index -> forall v r, JsonText.readValue fuel (rem s) = Parsed v r ->
    r = rem s2 /\ put q (arrayValue (map plain l ++ [v])) (plain (root_ s)) = Some (plain (root_ s3))).
  { intros HF El v r Ev. specialize (Hs2 HF). rewrite Ev in Hs2. destruct Hs2 as (_ & <- & Hp). split; [done|]. specialize (Hput1 El).
    rewrite put_app, (get_put _ _ _ _ Hput1) in Hp. cbn in Hp. rewrite <- El, lookup_app_r, length_map, Nat.sub_diag in Hp by (rewrite length_map; lia). cbn in Hp.
    rewrite insert_app_r_alt, length_map, Nat.sub_diag in Hp by (rewrite length_map; lia). cbn in Hp.
    rewrite (put_put_value q _ _ _ _ Hput1) in Hp. by rewrite (quiet_plain _ _ Hq3). }
  assert (Hno : features_ = Features_all -> length l = index -> match JsonText.readValue fuel (rem s) with Failed => False | _ => True end).
  { intros HF _. specialize (Hs2 HF). by destruct (JsonText.readValue fuel (rem s)). }
  destruct (is_type tokenArrayEnd t) eqn:Ee; [|destruct (is_type tokenArraySeparator t) eqn:Es].
  - apply is_type_iff in Ee. apply wp_ret. split; [done|]. intros HF El. specialize (Hv HF El). specialize (Hno HF El).
    destruct (JsonText.readValue fuel (rem s)) as [| |v r]; try done. destruct (Hv v r eq_refl) as [-> Hp]. rewrite E3. cbn [JsonText.type_ text_token]. by rewrite Ee.
  - apply is_type_iff in Es.
    assert (Hlt : (length (rem s3) < length (rem s2))%nat).
    { pose proof (skipCommentTokens_no_comment (rem s2)) as H. rewrite E3 in H. destruct H as (_ & _ & H). apply H; cbn; by rewrite Es. }
    assert (Hal3 : alive (q ++ [At index]) (root_ s3)) by (apply (quiet_alive _ _ Hq3), (after_alive _ _ _ _ Ha2); [done|apply not_below_self]).
    destruct Hal3 as [z Hz]. rewrite node_at_app in Hz. destruct (node_at q (root_ s3)) as [[a3 v3|a3 l3|a3 l3]|] eqn:Hq; try done. cbn in Hz.
    destruct (l3 !! index) as [z'|] eqn:Ez; [|done]. apply lookup_lt_Some in Ez.
    pose proof (after_current _ _ _ _ Ha2) as Hcu. rewrite !length_rem in *.
    eapply wp_mono; [apply (IHa q (S index) s3 a3 l3); [apply Ha3|done| |lia|rewrite length_rem; lia]|].
    { eapply (last_inside_after q (At index) s1); [done|]. intros _. by rewrite (quiet_last _ _ Hq3), Hl2. }
    intros b s' [Ha' Hs']. split; [by eapply after_trans|]. intros HF El. specialize (Hv HF El). specialize (Hno HF El).
    destruct (JsonText.readValue fuel (rem s)) as [| |v r]; try done. destruct (Hv v r eq_refl) as [-> Hp]. rewrite E3. cbn [JsonText.type_ text_token]. rewrite Es.
    apply (sim_from _ _ _ _ _ _ _ Hp). pose proof (get_plain q _ _ Hq) as Hg. rewrite (get_put _ _ _ _ Hp) in Hg. injection Hg as Hg. rewrite Hg.
    apply Hs'; [done|]. apply (f_equal length) in Hg. rewrite length_app, !length_map in Hg. cbn in Hg. lia.
  - eapply wp_mono; [by apply complain_ok; [|apply Ht3]|]. intros b s' [Ha' ->]. split; [done|]. intros HF El. specialize (Hv HF El). specialize (Hno HF El).
    destruct (JsonText.readValue fuel (rem s)) as [| |v r]; try done. destruct (Hv v r eq_refl) as [-> Hp]. rewrite E3. cbn [JsonText.type_ text_token].
    unfold is_type in Ee, Es. by destruct (type_ t).
Qed.
Lemma touch_member_ok q k s a l : ok s -> node_at q (root_ s) = Some (Members a l) ->
  wp (at_node q (touch_member k)) (fun _ s1 => after q true s s1 /\ current_ s1 = current_ s /\ lastValue_ s1 = lastValue_ s /\
    alive (q ++ [Named k]) (root_ s1) /\ exists ms, put q (objectValue ms) (plain (root_ s)) = Some (plain (root_ s1)) /\
      (in_order (map plain_member l) -> forall v, replace_member k v ms = map_set k v (map plain_member l))) s.
Proof.
  intros [K1 K2 K3 K4 K5 K6] Hx. set (l' := match find_member k l with Some _ => l | None => set_member k null l end).
  assert (Hf : touch_member k (Members a l) = Some (Members a l')) by (cbn; subst l'; by destruct (find_member k l)).
  eapply wp_at_node; [exact Hx|exact Hf|]. intros n' Hput Hn Hal _.
  assert (Hk : forall p, alive p (root_ s) -> alive p n').
  { intros p Hp. apply Hal; [done|]. intros r -> Hr. subst l'. destruct (find_member k l) eqn:Ef; [done|]. destruct r as [|[j|k'] r]; [by eexists|by destruct Hr|].
    unfold alive in *. cbn in *. rewrite find_set_member. destruct (String.eqb_spec k k') as [<-|]; [rewrite Ef in Hr; by destruct Hr|done]. }
  split; [split; cbn; auto; split; cbn; auto|]. split; [done|]. split; [done|]. split.
  - unfold alive. cbn. rewrite Hn. subst l'. cbn. destruct (find_member k l) as [z|] eqn:Ef; [rewrite Ef|rewrite find_set_member, String.eqb_refl]; by eexists.
  - exists (map plain_member l'). split; [done|]. intros Hs v. subst l'. destruct (find_member k l) as [z|] eqn:Ef.
    + apply (replace_is_set k v (plain z)); [done|]. by rewrite find_plain, Ef.
    + rewrite set_plain. apply replace_of_set. by rewrite <- find_map_find, find_plain, Ef.
Qed.
(** The comments behind a value. *)
Lemma skip_from_ok s t s1 : ok s1 -> token_at s t s1 ->
  wp (more ← gets (fuel_of document_); skip_comment_tokens document_ collectComments_ more t)
    (fun t' s' => quiet s1 s' /\ token_at s t' s' /\
      (if is_comment (tok t) then JsonText.skipCommentTokens (rem s1) else (tok t, rem s1)) = (tok t', rem s')) s1.
Proof.
  intros Hok Ht. apply wp_gets. unfold fuel_of. cbn [skip_comment_tokens]. change (is_comment (tok t)) with (is_type tokenComment t).
  destruct (is_type tokenComment t); [|apply wp_ret; by split; [apply quiet_refl|]].
  eapply wp_bind; [by apply readToken_ok|]. intros t2 s2 (Hq & Ht2 & E2). cbv beta. pose proof (quiet_ok _ _ Hq) as Hok2. pose proof (ok_current s2 Hok2).
  eapply wp_mono; [apply (skip_ok (length (rem s1)) _ s1 t2 s2 Hok2 E2 Ht2); [|done]|].
  - intros Et. pose proof (token_shrinks s1 t2 s2 Hok2 E2) as Hs. rewrite Et in Hs. specialize (Hs ltac:(done)). rewrite !length_rem. lia.
  - intros t' s' (Hq' & Ht' & E'). split; [by eapply quiet_trans|]. split; [|done]. destruct Ht' as (? & ? & ?), Ht as (? & ? & ?). split_and!; try done. 
    destruct Ht2 as (? & ? & ?). unfold token_ok in *. lia.
Qed.
Lemma object_at q s v : get q (plain (root_ s)) = Some (objectValue v) -> kind_at q (root_ s) = Some OfObject ->
  exists a l, node_at q (root_ s) = Some (Members a l) /\ map plain_member l = v.
Proof.
  unfold kind_at. intros Hg Hk. destruct (node_at q (root_ s)) as [[a x|a l|a l]|] eqn:E; try done. exists a, l. split; [done|].
  rewrite (get_plain _ _ _ E), plain_Members in Hg. by injection Hg.
Qed.
Lemma quiet_members q s s' a l : quiet s s' -> node_at q (root_ s) = Some (Members a l) ->
  exists a' l', node_at q (root_ s') = Some (Members a' l') /\ map plain_member l' = map plain_member l.
Proof.
  intros Hq E. apply object_at; [rewrite (quiet_plain _ _ Hq); by apply get_plain in E|]. apply (quiet_kind _ _ Hq). unfold kind_at. by rewrite E.
Qed.
Lemma kind_above q k n : alive (q ++ [Named k]) n -> kind_at q n = Some OfObject.
Proof. unfold alive, kind_at. rewrite node_at_app. destruct (node_at q n) as [[a x|a l|a l]|]; cbn; intros [? ?]; done. Qed.
(** [readObject] behind a value and from the colon on, here and in JsonText.v. *)
Definition comma_body (fuel : nat) (q : list place) (name : list Z) : M bool :=
  comma ← readToken document_ collectComments_;
  if negb (is_type tokenObjectEnd comma || is_type tokenArraySeparator comma || is_type tokenComment comma)
  then addErrorAndRecover document_ collectComments_ "Missing ',' or '}' in object declaration" comma tokenObjectEnd
  else
    more ← gets (fuel_of document_);
    comma ← skip_comment_tokens document_ collectComments_ more comma;
    if is_type tokenObjectEnd comma then mret true else readObject document_ features_ collectComments_ fuel q name.
Definition json_comma (fuel : nat) (name : list Z) (members : list (string * Value)) (l : list Z) : parsed :=
  let '(comma, l') := JsonText.readToken l in
  if bool_decide (JsonText.type_ comma = tokenObjectEnd \/ JsonText.type_ comma = tokenArraySeparator \/ JsonText.type_ comma = tokenComment) then
    let '(comma, l') := if is_comment comma then JsonText.skipCommentTokens l' else (comma, l') in
    if bool_decide (JsonText.type_ comma = tokenObjectEnd) then Parsed (objectValue members) l'
    else JsonText.readObject fuel name members l'
  else Failed.
Definition member_body (fuel : nat) (q : list place) (name : list Z) : M bool :=
  colon ← readToken document_ collectComments_;
  if negb (is_type tokenMemberSeparator colon) then addErrorAndRecover document_ collectComments_ "Missing ':' after object member name" colon tokenObjectEnd
  else
    _ ← at_node q (touch_member (key_of name));
    ok ← readValue document_ features_ collectComments_ fuel (q ++ [Named (key_of name)]);
    if negb (ok : bool) then recoverFromError document_ collectComments_ tokenObjectEnd else comma_body fuel q name.
Definition json_member (fuel : nat) (name : list Z) (members : list (string * Value)) (l : list Z) : parsed :=
  let '(colon, l) := JsonText.readToken l in
  if bool_decide (JsonText.type_ colon = tokenMemberSeparator) then
    match JsonText.readValue fuel l with
    | Parsed value l => json_comma fuel name (map_set (key_of name) value members) l
    | r => r
    end
  else Failed.
Lemma comma_body_ok fuel q name s s1 : object_ok fuel -> after q true s s1 -> kind_at q (root_ s1) = Some OfObject -> last_inside q s1 ->
  (2 * length (rem s1) < fuel)%nat ->
  wp (comma_body fuel q name) (fun b s' => after q b s s' /\ (features_ = Features_all -> forall ms, in_order ms ->
    put q (objectValue ms) (plain (root_ s)) = Some (plain (root_ s1)) -> sim (json_comma fuel name ms (rem s1)) q b s s')) s1.
Proof.
  intros IHo Ha1 Hk Hin Hf. unfold comma_body. eapply wp_bind; [apply readToken_ok, Ha1|]. intros comma s2 (Hq2 & Ht2 & E2). cbv beta.
  assert (Ha2 : after q true s s2) by (by eapply after_quiet). unfold json_comma. rewrite E2. change (JsonText.type_ (tok comma)) with (type_ comma).
  assert (Hd : bool_decide (type_ comma = tokenObjectEnd \/ type_ comma = tokenArraySeparator \/ type_ comma = tokenComment) =
    is_type tokenObjectEnd comma || is_type tokenArraySeparator comma || is_type tokenComment comma).
  { unfold is_type. by destruct (type_ comma). }
  rewrite Hd. clear Hd. destruct (is_type tokenObjectEnd comma || is_type tokenArraySeparator comma || is_type tokenComment comma); cbn [negb].
  2: { eapply wp_mono; [by apply complain_ok; [|apply Ht2]|]. intros b s' [Ha ->]. by split. }
  pose proof (skip_from_ok s1 comma s2 (quiet_ok _ _ Hq2) Ht2) as Hsk.
  apply wp_gets. eapply wp_bind; [exact Hsk|]. clear Hsk. intros t s3 (Hq3 & Ht3 & E3). rewrite E3. change (JsonText.type_ (tok t)) with (type_ t).
  assert (Ha3 : after q true s s3) by (by eapply after_quiet).
  assert (Hpl : plain (root_ s3) = plain (root_ s1)) by (by rewrite (quiet_plain _ _ Hq3), (quiet_plain _ _ Hq2)).
  unfold is_type. destruct (bool_decide (type_ t = tokenObjectEnd)).
  { apply wp_ret. split; [done|]. intros _ ms _ Hp. split; [done|]. split; [done|]. by rewrite Hpl. }
  apply (quiet_kind _ _ Hq2), (quiet_kind _ _ Hq3) in Hk. unfold kind_at in Hk.
  destruct (node_at q (root_ s3)) as [[a x|a l|a l]|] eqn:Hx; try done.
  pose proof (quiet_current _ _ Hq2). pose proof (quiet_current _ _ Hq3).
  eapply wp_mono; [apply (IHo q name s3 a l); [apply Ha3|done| |]|].
  - intros r. rewrite (quiet_last _ _ Hq3), (quiet_last _ _ Hq2). apply Hin.
  - rewrite !length_rem in *. lia.
  - intros b s' [Ha' Hs']. split; [by eapply after_trans|]. intros HF ms Ho Hp. rewrite <- Hpl in Hp. apply (sim_from _ _ _ _ _ _ _ Hp).
    pose proof (get_plain q _ _ Hx) as Hg. rewrite (get_put _ _ _ _ Hp), plain_Members in Hg. injection Hg as ->. by apply Hs'.
Qed.
Lemma member_body_ok fuel q name s s1 a l : value_ok fuel -> object_ok fuel -> quiet s s1 -> node_at q (root_ s1) = Some (Members a l) -> last_inside q s1 ->
  (2 * length (rem s1) < fuel)%nat ->
  wp (member_body fuel q name) (fun b s' => after q b s s' /\
    (features_ = Features_all -> in_order (map plain_member l) -> sim (json_member fuel name (map plain_member l) (rem s1)) q b s s')) s1.
Proof.
  intros IHv IHo Hq1 Hx Hl Hf. unfold member_body. eapply wp_bind; [apply readToken_ok, Hq1|]. intros colon s2 (Hq2 & Ht2 & E2). cbv beta.
  assert (Hq02 : quiet s s2) by (by eapply quiet_trans). unfold json_member. rewrite E2. change (JsonText.type_ (tok colon)) with (type_ colon). unfold is_type at 1.
  destruct (bool_decide (type_ colon = tokenMemberSeparator)); cbn [negb].
  2: { eapply wp_mono; [apply complain_ok; [by apply quiet_after_true|apply Ht2]|]. intros b s' [Ha ->]. by split. }
  destruct (quiet_members q s1 s2 a l Hq2 Hx) as (a2 & l2 & Hx2 & <-). pose proof (quiet_current _ _ Hq2) as Hcu2. rewrite length_rem in Hf.
  eapply wp_bind; [apply (touch_member_ok q (key_of name) s2 a2 l2); [apply Hq2|done]|].
  intros _ s3 (Ha3 & Hc3 & Hl3 & Hal3 & ms & Hput3 & Hms). cbv beta. pose proof (rem_current s2 s3 Hc3) as Hr3.
  assert (Hin3 : last_inside q s3) by (intros r; rewrite Hl3, (quiet_last _ _ Hq2); apply Hl).
  assert (Ha03 : after q true s s3) by (by eapply quiet_after).
  eapply wp_bind; [apply IHv; [apply Ha3|done|by apply last_inside_outside|rewrite Hr3, length_rem; lia]|]. intros b s4 (Ha4 & Hl4 & Hs4). rewrite Hr3 in Hs4.
  destruct b; cbn [negb].
  2: { eapply wp_mono; [by eapply child_fails|]. intros b s' [Ha' ->]. split; [done|]. intros HF _. specialize (Hs4 HF).
    destruct (JsonText.readValue fuel (rem s2)); cbn in *; [done|done|]. by destruct Hs4. }
  pose proof (after_current _ _ _ _ Ha4). rewrite <- Hc3 in Hcu2.
  eapply wp_mono; [apply (comma_body_ok fuel q name s s4); [done|eapply after_trans; [exact Ha03|by eapply after_child]| |by eapply (last_inside_after q (Named (key_of name)) s3)|rewrite length_rem; lia]|].
  { apply (kind_above q (key_of name)), (after_alive _ _ _ _ Ha4); [done|apply not_below_self]. }
  intros b s' [Ha' Hs']. split; [done|]. intros HF Ho. specialize (Hs4 HF). destruct (JsonText.readValue fuel (rem s2)) as [| |v r]; try done.
  destruct Hs4 as (_ & <- & Hp). apply Hs'; [done|by apply map_set_order|].
  rewrite put_app, (get_put _ _ _ _ Hput3) in Hp. cbn in Hp. destruct (find_member (key_of name) ms); [|done]. cbn in Hp. rewrite (Hms Ho) in Hp.
  by rewrite (put_put_value q _ _ _ _ Hput3), (quiet_plain _ _ Hq02) in Hp.
Qed.
Lemma decoded_is_number t v : JsonText.decodeNumber t = Some v -> exists name, asString v = Some name.
Proof.
  unfold JsonText.decodeNumber, decodeDouble. intros E.
  assert (Hd : forall w, ('(m, e) ← scan_lf (text t); Some (realValue m e)) = Some w -> exists name, asString w = Some name).
  { intros w. destruct (scan_lf (text t)) as [[m e]|]; [|done]. cbn. intros [= <-]. by eexists. }
  destruct (_ || _); [by apply Hd|]. destruct (decode_digits _ _ _) as [[n|]|]; [|done|by apply Hd]. injection E as <-.
  destruct (bool_decide _); [by eexists|]. destruct (n <=? maxInt); by eexists.
Qed.
Lemma readObject_S fuel q name : readObject document_ features_ collectComments_ (S fuel) q name =
  (tokenName ← readToken_after_comments document_ collectComments_;
   if is_type tokenObjectEnd tokenName && bool_decide (name = []) then mret true
   else match member_name document_ features_ tokenName with
    | None => addErrorAndRecover document_ collectComments_ "Missing '}' or object member name" tokenName tokenObjectEnd
    | Some (inl e) => _ ← add_info e; recoverFromError document_ collectComments_ tokenObjectEnd
    | Some (inr None) => fun _ => Some Threw
    | Some (inr (Some name)) => member_body fuel q name
    end).
Proof. reflexivity. Qed.
(** What [member_name] finds, and what JsonText.v does with it. *)
Lemma member_name_ok t : token_ok t ->
  match member_name document_ features_ t with
  | None => type_ t <> tokenString
  | Some (inl e) => error_ok e /\ (type_ t = tokenString -> JsonText.decodeString (tok t) = None)
  | Some (inr None) => False
  | Some (inr (Some name)) => (type_ t = tokenString \/ type_ t = tokenNumber) /\ (type_ t = tokenString -> JsonText.decodeString (tok t) = Some name) /\
      (type_ t = tokenNumber -> features_ <> Features_all)
  end.
Proof.
  intros Ht. unfold member_name. destruct (type_ t); try done.
  - pose proof (decodeString_ok t Ht) as H. destruct (decodeString document_ t); [split; [apply H|intros _; apply H]|]. split_and!; try done. by left.
  - destruct (allowNumericKeys_ features_) eqn:E; [|done]. pose proof (decodeNumber_ok t Ht) as H. destruct (decodeNumber document_ t) as [e|v]; [by split; [apply H|]|].
    destruct (decoded_is_number _ _ H) as [name ->]. split; [by right|]. split; [done|]. intros _ ->. discriminate E.
Qed.
Lemma object_step fuel : value_ok fuel -> object_ok fuel -> object_ok (S fuel).
Proof.
  intros IHv IHo q name s a l Hok Hx Hl Hf. rewrite readObject_S. eapply wp_bind; [by apply readToken_after_comments_ok|].
  intros t s1 (Hq1 & Ht1 & E1). cbv beta. cbn [JsonText.readObject]. rewrite E1. change (JsonText.type_ (tok t)) with (type_ t).
  destruct (quiet_members q s s1 a l Hq1 Hx) as (a1 & l1 & Hx1 & El).
  assert (Hin1 : last_inside q s1) by (intros r; rewrite (quiet_last _ _ Hq1); apply Hl).
  assert (Hend : wp (addErrorAndRecover document_ collectComments_ "Missing '}' or object member name" t tokenObjectEnd) (fun b s' => after q b s s' /\ b = false) s1).
  { apply complain_ok; [by apply quiet_after_true|apply Ht1]. }
  destruct (is_type tokenObjectEnd t && bool_decide (name = [])) eqn:Ee.
  { apply andb_prop in Ee as [Ee%is_type_iff En]. apply wp_ret. split; [by apply quiet_after_true|]. intros _ _. rewrite Ee, En. split; [done|]. split; [done|].
    apply get_plain in Hx1. rewrite plain_Members, El in Hx1. rewrite <- (quiet_plain _ _ Hq1). by apply put_same. }
  pose proof (member_name_ok t (proj1 Ht1)) as Hn. destruct (member_name document_ features_ t) as [[e|[name'|]]|]; [|..|done|].
  - destruct Hn as [He Hn]. eapply wp_bind; [apply addError_ok; [apply Hq1|by destruct e]|]. intros b s2 [-> Hfa].
    eapply wp_mono; [by apply recovers_ok; eapply quiet_failed|]. intros b s' [-> Hfa']. split; [by apply failed_after|]. intros _ _.
    unfold is_type in Ee. destruct (type_ t) eqn:Ety; try done; [|by rewrite Hn]. by rewrite bool_decide_eq_true_2 in Ee by done; cbn in Ee; rewrite Ee.
  - destruct Hn as (Hty & Hn & Hf'). eapply wp_mono; [apply (member_body_ok fuel q name' s s1 a1 l1); auto|].
    { pose proof (skipCommentTokens_no_comment (rem s)) as H. rewrite E1 in H. destruct H as (_ & _ & H).
      assert (length (rem s1) < length (rem s))%nat by (apply H; cbn; intros E; rewrite E in Hty; by destruct Hty). lia. }
    intros b s' [Ha Hs]. split; [done|]. intros HF Ho. rewrite El in Hs. destruct Hty as [Hty|Hty]; [|by apply Hf' in HF]. rewrite Hty, (Hn Hty). by apply Hs.
  - eapply wp_mono; [exact Hend|]. intros b s' [Ha ->]. split; [done|]. intros _ _. unfold is_type in Ee. destruct (type_ t) eqn:Ety; try done.
    by rewrite bool_decide_eq_true_2 in Ee by done; cbn in Ee; rewrite Ee.
Qed.
(** The end of an array or object. *)
Lemma ends_ok r q b s0 s : ok s0 -> after q b s0 s -> alive q (root_ s0) -> (features_ = Features_all -> sim r q b s0 s) ->
  wp (limit_here collectComments_ q b) (fun b s' => after q b s0 s' /\ last_after q b s0 s' /\ (features_ = Features_all -> sim r q b s0 s')) s.
Proof.
  intros Hok Ha Hq Hs. assert (Hq' : alive q (root_ s)) by (by apply (after_alive _ _ _ _ Ha); [|apply not_below_self]).
  eapply wp_mono; [by apply limit_here_ok|]. intros b' s' (-> & Ha' & Hc & Hp & Hl'). split; [done|]. split.
  - intros _. destruct collectComments_ eqn:Ec; [done|]. by rewrite (ok_none s0 Hok Ec), (ok_none s' (after_ok _ _ _ _ Ha') Ec).
  - intros HF. specialize (Hs HF). destruct r as [| |v l]; try done. destruct Hs as (H1 & H2 & H3). split; [done|]. split; [by rewrite (rem_current s s' Hc)|]. by rewrite Hp.
Qed.
(** The tokens that open an object, open an array, and stand behind a dropped null. *)
Lemma reads_object_ok fuel q t s0 s : object_ok fuel -> ok s0 -> quiet s0 s -> alive q (root_ s0) -> last_outside q s0 -> (2 * length (rem s) < fuel)%nat ->
  wp (_ ← at_node q (fun n => Some (setOffsetStart (Z.of_nat (start_ t)) (assign (fun i => Members i []) n)));
      ok ← readObject document_ features_ collectComments_ fuel q []; limit_here collectComments_ q ok)
    (fun b s' => after q b s0 s' /\ last_after q b s0 s' /\ (features_ = Features_all -> sim (JsonText.readObject fuel [] [] (rem s)) q b s0 s')) s.
Proof.
  intros IHo Hok Hq Ha Hl Hf. assert (Hl2 : last_outside q s) by (intros r; rewrite (quiet_last _ _ Hq); apply Hl).
  eapply wp_bind; [by apply assign_ok; [apply Hq|apply (quiet_alive _ _ Hq)|]|].
  intros _ s3 (Ha3 & Hc3 & Hl3 & x & Hx3 & Hp3). cbv beta. cbn [assign setOffsetStart with_info plain map] in Hx3, Hp3.
  pose proof (rem_current s s3 Hc3) as Hr3. eapply wp_bind; [eapply (IHo q [] s3 _ []); [apply Ha3|exact Hx3| |by rewrite Hr3]|].
  { intros r. rewrite Hl3. intros Hr. apply Hl2 in Hr. subst r. cbn. lia. }
  intros b s4 [Ha4 Hs4]. apply ends_ok; [done|by eapply quiet_after; [|eapply after_trans]|done|].
  intros HF. specialize (Hs4 HF eq_refl). rewrite Hr3 in Hs4. rewrite (quiet_plain _ _ Hq) in Hp3. by apply (sim_from _ _ _ _ _ _ _ Hp3).
Qed.
Lemma reads_array_ok fuel q t s0 s : array_ok fuel -> ok s0 -> quiet s0 s -> alive q (root_ s0) -> last_outside q s0 -> (2 * length (rem s) + 1 < fuel)%nat ->
  wp (_ ← at_node q (fun n => Some (setOffsetStart (Z.of_nat (start_ t)) (assign (fun i => Elements i []) n)));
      _ ← update (fun s => set_current (off (skipSpaces (rem s))) s);
      c ← gets (fun s => fst (getNextChar (rem s)));
      ok ← (if c =? 93 then (_ ← readToken document_ collectComments_; mret true) else readArray document_ features_ collectComments_ fuel q 0);
      limit_here collectComments_ q ok)
    (fun b s' => after q b s0 s' /\ last_after q b s0 s' /\ (features_ = Features_all -> sim (let l := skipSpaces (rem s) in
      if fst (getNextChar l) =? 93 then Parsed (arrayValue []) (JsonText.readToken l).2 else JsonText.readArray fuel [] l) q b s0 s')) s.
Proof.
  intros IHa Hok Hq Ha Hl Hf. assert (Hl2 : last_outside q s) by (intros r; rewrite (quiet_last _ _ Hq); apply Hl).
  eapply wp_bind; [by apply assign_ok; [apply Hq|apply (quiet_alive _ _ Hq)|]|].
  intros _ s3 (Ha3 & Hc3 & Hl3 & x & Hx3 & Hp3). cbv beta. cbn [assign setOffsetStart with_info plain map] in Hx3, Hp3.
  pose proof (rem_current s s3 Hc3) as Hr3. apply wp_update. set (s4 := set_current (off (skipSpaces (rem s3))) s3).
  destruct (rest_suffix (skipSpaces (rem s3)) (current_ s3) (ok_current s3 (after_ok _ _ _ _ Ha3)) (skipSpaces_suffix _)) as [E4 H4].
  assert (Hr4 : rem s4 = skipSpaces (rem s)) by (rewrite <- Hr3; by symmetry).
  assert (Hq4 : quiet s3 s4) by (destruct (after_ok _ _ _ _ Ha3); repeat split; cbn; auto; lia).
  assert (Ha4 : after q true s0 s4) by (by eapply quiet_after; [|eapply after_quiet]).
  rewrite (quiet_plain _ _ Hq), <- (quiet_plain _ _ Hq4) in Hp3. apply wp_gets. rewrite Hr4. cbv zeta. destruct (fst _ =? 93).
  - eapply wp_bind; [eapply (wp_bind _ _ _ (fun b s5 => b = true /\ quiet s4 s5 /\ rem s5 = (JsonText.readToken (skipSpaces (rem s))).2)); [apply readToken_ok, Hq4|]|].
    { intros t5 s5 (Hq5 & _ & E5). rewrite Hr4 in E5. apply wp_ret. by rewrite E5. }
    intros b s5 (-> & Hq5 & Hr5). apply ends_ok; [done|by eapply after_quiet|done|]. intros _. split; [done|]. split; [done|]. by rewrite (quiet_plain _ _ Hq5).
  - pose proof (suffix_length _ _ (skipSpaces_suffix (rem s))). eapply wp_bind; [eapply (IHa q 0%nat s4 _ []); [apply Hq4|exact Hx3| |done|rewrite Hr4; lia]|].
    { intros r. rewrite (quiet_last _ _ Hq4), Hl3. intros Hr. apply Hl2 in Hr. subst r. cbn. lia. }
    intros b s5 [Ha5 Hs5]. apply ends_ok; [done|by eapply after_trans|done|]. intros HF. specialize (Hs5 HF eq_refl). rewrite Hr4 in Hs5.
    by apply (sim_from _ _ _ _ _ _ _ Hp3).
Qed.
Lemma dropped_ok q s0 s : ok s0 -> quiet s0 s -> alive q (root_ s0) -> last_outside q s0 -> (current_ s0 < current_ s)%nat ->
  wp (_ ← update (fun s => set_current (current_ s - 1) s);
      c ← gets current_;
      _ ← at_node q (fun n => Some (setOffsetLimit (Z.of_nat c) (setOffsetStart (Z.of_nat c - 1) (assign (fun i => Scalar i nullValue) n))));
      finish collectComments_ q true) (fun b s' => after q b s0 s' /\ last_after q b s0 s') s.
Proof.
  intros Hok Hq Ha Hl Hlt. apply wp_update. set (s1 := set_current (current_ s - 1) s).
  assert (Hq1 : quiet s0 s1).
  { destruct Hq as [[K1 K2 K3 K4 K5 K6] B C D E F]. split; cbn; try done; [|lia]. split; cbn; try done. lia. }
  apply wp_gets. eapply wp_bind; [apply assign_ok; [apply Hq1|by apply (quiet_alive _ _ Hq1)|intros r; rewrite (quiet_last _ _ Hq1); apply Hl]|].
  intros _ s3 (Ha3 & _). cbv beta. assert (Ha3' : after q true s0 s3) by (by eapply quiet_after).
  eapply wp_mono; [apply (finish_ok q true s0 s3); [done|apply (after_alive _ _ _ _ Ha3'); [done|apply not_below_self]]|].
  intros b s' (-> & Ha' & _ & _ & Hl'). split; [done|]. intros _. destruct collectComments_ eqn:Ec; [done|].
  by rewrite (ok_none s0 Hok Ec), (ok_none s' (after_ok _ _ _ _ Ha') Ec).
Qed.
Lemma value_step fuel : object_ok fuel -> array_ok fuel -> value_ok (S fuel).
Proof.
  intros IHo IHa q s Hok Hq Hl Hf. cbn [readValue]. eapply wp_bind; [by apply skipCommentTokens_ok|]. intros t s1 (Hq1 & Ht1 & E1 & Hlt). cbv beta.
  eapply wp_bind; [apply attach_ok; [apply Hq1|by apply (quiet_alive _ _ Hq1)]|]. intros _ s2 [Hq2 Hc2]. cbv beta.
  assert (Hq02 : quiet s s2) by (by eapply quiet_trans). pose proof (rem_current s1 s2 Hc2) as Hr2.
  pose proof (quiet_alive _ _ Hq02 q Hq) as Hal2. assert (Hl2 : last_outside q s2) by (intros r; rewrite (quiet_last _ _ Hq02); apply Hl).
  cbn [JsonText.readValue].
  assert (Hsyn : wp (syntax_error q t) (fun b s' => after q b s s' /\ b = false) s2) by (by apply syntax_error_ok; [| |apply Ht1]).
  assert (Herr : forall e, error_ok e -> wp (b ← add_info e; finish collectComments_ q b) (fun b s' => after q b s s' /\ b = false) s2) by (intros e; by apply fails_ok).
  pose proof (fun v => store_ok q t v s s2 Hq02 Hq Hl) as Hst.
  destruct (type_ t) eqn:Ety.
  all: try (eapply wp_mono; [exact Hsyn|]; intros b s' [Ha ->]; split; [done|]; split; [done|]; intros HF; rewrite (E1 HF); cbn [JsonText.type_ text_token]; by rewrite Ety).
  all: try (eapply wp_mono; [apply Hst|]; intros b s' (Ha & Hla & Hs); split; [done|]; split; [done|]; intros HF; rewrite (E1 HF); cbn [JsonText.type_ text_token]; rewrite Ety; by rewrite <- Hr2).
  - specialize (Hlt ltac:(done) ltac:(done)). pose proof (ok_current s1 (quiet_ok _ _ Hq1)) as Hle1.
    eapply wp_mono; [apply (reads_object_ok fuel q t s s2); try done; rewrite Hr2, !length_rem in *; lia|].
    intros b s' (Ha & Hla & Hs). split; [done|]. split; [done|]. intros HF. rewrite (E1 HF). cbn [JsonText.type_ text_token]. rewrite Ety, <- Hr2. by apply Hs.
  - specialize (Hlt ltac:(done) ltac:(done)). pose proof (ok_current s1 (quiet_ok _ _ Hq1)) as Hle1.
    eapply wp_mono; [apply (reads_array_ok fuel q t s s2); try done; rewrite Hr2, !length_rem in *; lia|].
    intros b s' (Ha & Hla & Hs). split; [done|]. split; [done|]. intros HF. rewrite (E1 HF). cbn [JsonText.type_ text_token]. rewrite Ety, <- Hr2. by apply Hs.
  - pose proof (decodeString_ok t (proj1 Ht1)) as Hd. destruct (decodeString document_ t) as [e|l].
    + destruct Hd as [He Hd]. eapply wp_mono; [by apply Herr|]. intros b s' [Ha ->]. split; [done|]. split; [done|]. intros HF. rewrite (E1 HF). cbn [JsonText.type_ text_token]. by rewrite Ety, Hd.
    + eapply wp_mono; [apply Hst|]. intros b s' (Ha & Hla & Hs). split; [done|]. split; [done|]. intros HF. rewrite (E1 HF). cbn [JsonText.type_ text_token]. by rewrite Ety, Hd, <- Hr2.
  - pose proof (decodeNumber_ok t (proj1 Ht1)) as Hd. destruct (decodeNumber document_ t) as [e|l].
    + destruct Hd as [He Hd]. eapply wp_mono; [by apply Herr|]. intros b s' [Ha ->]. split; [done|]. split; [done|]. intros HF. rewrite (E1 HF). cbn [JsonText.type_ text_token]. by rewrite Ety, Hd.
    + eapply wp_mono; [apply Hst|]. intros b s' (Ha & Hla & Hs). split; [done|]. split; [done|]. intros HF. rewrite (E1 HF). cbn [JsonText.type_ text_token]. by rewrite Ety, Hd, <- Hr2.
  - destruct (allowDroppedNullPlaceholders_ features_) eqn:Ed.
    + eapply wp_mono; [apply (dropped_ok q s s2); try done; rewrite Hc2; by apply Hlt|]. intros b s' [Ha Hla]. split; [done|]. split; [done|]. intros ->. discriminate Ed.
    + eapply wp_mono; [exact Hsyn|]. intros b s' [Ha ->]. split; [done|]. split; [done|]. intros HF. rewrite (E1 HF). cbn [JsonText.type_ text_token]. by rewrite Ety.
Qed.
Lemma reader_ok fuel : value_ok fuel /\ object_ok fuel /\ array_ok fuel.
Proof.
  induction fuel as [|fuel (IHv & IHo & IHa)]; [split_and!; intros ? **; lia|]. split_and!; [by apply value_step|by apply object_step|by apply array_step].
Qed.
Lemma parse_ok root : wp (fun _ => parse_collecting document_ features_ collectComments_ root)
  (fun b s => (b = true <-> errors_ s = []) /\ Forall error_ok (errors_ s) /\
    (features_ = Features_all -> Reader_parse document_ = if b then Some (plain (root_ s)) else None)) (mkReader 0 root [] None None []).
Proof.
  set (s0 := mkReader 0 root [] None None []). assert (Hok : ok s0) by (split; cbn; first [lia|done|by left|by intros [? ?]]).
  assert (Hq : alive [] (root_ s0)) by (by eexists). unfold parse_collecting. fold s0.
  eapply wp_bind; [apply (proj1 (reader_ok _)); [done|done|done|unfold rest; cbn; rewrite drop_0; lia]|]. intros b s1 (Ha1 & _ & Hs1).
  eapply wp_bind; [apply skipCommentTokens_ok, Ha1|]. intros t s2 (Hq2 & _). cbv beta. apply wp_gets. pose proof (quiet_ok _ _ Hq2) as Hok2.
  eapply (wp_bind _ _ (fun _ s3 => quiet s2 s3)).
  { destruct (commentsBefore_ s2) as [|c l] eqn:E; [by apply wp_ret, quiet_refl|]. destruct collectComments_; [|by apply wp_ret, quiet_refl].
    eapply wp_mono; [apply setComment_ok; [done|by eexists|]|by intros ? ? [? _]]. destruct (ok_comments s2 Hok2) as [E'|E']; [congruence|]. right. by rewrite E in E'. }
  intros _ s3 Hq3. cbv beta. assert (Ha3 : after [] b s0 s3) by (eapply after_quiet; [|exact Hq3]; by eapply after_quiet).
  assert (He : b = true <-> errors_ s3 = []).
  { pose proof (after_errors _ _ _ _ Ha3) as H. cbn in H. destruct b; [by rewrite H|]. destruct H as (e & Hne & ->). by split. }
  apply wp_gets. destruct (strictRoot_ features_ && _) eqn:Ec.
  - eapply wp_mono; [apply addError_ok; [apply Ha3|by split; [split; cbn; lia|]]|]. intros b' s' [-> Hf]. split_and!; [|apply Hf|intros HF; by rewrite HF in Ec].
    destruct (failed_errors _ _ Hf) as (e & Hne & ->). split; [done|]. by intros [_ ?]%app_eq_nil.
  - apply wp_ret. split; [done|]. split; [apply Ha3|]. intros HF. specialize (Hs1 HF). rewrite (drop_0 document_ : rem s0 = document_) in Hs1. unfold Reader_parse, parse_fuel.
    pose proof (proj1 (reader_forward (S (2 * length document_))) document_ ltac:(lia)) as Hfw.
    destruct (JsonText.readValue _ document_) as [| |v l]; [done|by rewrite Hs1|]. destruct Hs1 as (-> & _ & Hp). cbn [put] in Hp.
    rewrite (quiet_plain _ _ Hq3), (quiet_plain _ _ Hq2). congruence.
Qed.
End laws.

(** ** The theorem *)
(** C31. Whatever the features, the document and the value that is parsed into: the reader ends, never follows a pointer to a value that is gone,
    and returns false if and only if it reports errors, all at places in the document; with the features of the SDK it returns the
    value that JsonText.v says. *)
Theorem reader_reports_errors `{DoubleText} features collect document root : exists b s,
  parse features collect document root = Some (Done (b, s)) /\ (b = true <-> errors_ s = []) /\ Forall (error_ok document) (errors_ s) /\
  (features = Features_all -> Reader_parse document = if b then Some (plain (root_ s)) else None).
Proof.
  destruct (parse_ok document (allowComments_ features && collect) features root) as (b & s & E & Hr). by exists b, s.
Qed.

(** ** Examples *)
#[local] Instance no_doubles : DoubleText := {| print_g16 _ _ := []; scan_lf _ := None |}.
Definition read_with (features : Features) (document : list Z) : option (bool * Node * list (nat * nat)) :=
  match parse features true document null with
  | Some (Done (b, s)) => Some (b, root_ s, map (fun e => (start_ (token_ e), end_ (token_ e))) (errors_ s)) | _ => None end.
(** Of two comments behind a value the first is lost. *)
Example comment_overwritten :
  (fun r => getComment commentAfterOnSameLine r.1.2) <$> read_with Features_all (bytes "1 /*a*/ /*b*/") = Some (bytes "/*b*/").
Proof. vm_compute. reflexivity. Qed.
(** The strict mode, in which comments are forbidden, reads them inside objects and arrays. *)
Example strict_reads_comments :
  (fun r => (r.1.1, plain r.1.2)) <$> read_with Features_strictMode (bytes "[1 /*a*/, {/*b*/}]") = Some (true, arrayValue [intValue 1; objectValue []]).
Proof. vm_compute. reflexivity. Qed.
(** A dropped null gets the place of the character before it, which wraps around at the start of the document. *)
Example dropped_null_offsets :
  (fun r => (offset_start (info r.1.2), offset_limit (info r.1.2))) <$> read_with (mkFeatures true false true false) (bytes ",") = Some (2 ^ 64 - 1, 0).
Proof. vm_compute. reflexivity. Qed.
(** An error between the two characters of a line break has column 0. *)
Example column_zero : getLocationLineAndColumn [91; 34; 92; 13; 10; 34; 93] 4 = (2, 0) /\
  match parse Features_all true [91; 34; 92; 13; 10; 34; 93] null with Some (Done (b, s)) => map extra_ (errors_ s) = [Some 4%nat] | _ => False end.
Proof. vm_compute. done. Qed.
(** A failed parse leaves what it had read in the root. *)
Example failed_root : (fun r => (r.1.1, plain r.1.2, r.2)) <$> read_with Features_all (bytes "[1, x]") =
  Some (false, arrayValue [intValue 1; nullValue], [(4%nat, 5%nat)]).
Proof. vm_compute. reflexivity. Qed.
