(* ===== verification/JsonComments.v ===== *)
(** * json/jsoncpp.cpp: comments in the styled writers

    The writers of JsonStyled.v on values with comments, those that JsonReader.v collects or a program sets.  The two differ
    in how they begin a line and in what they do before a comment. *)
From Stdlib Require Import Ascii String.
From S2P Require Import Prelude Text Json JsonReader JsonText JsonStyled.

(** Behind the last character is a NUL. *)
Fixpoint normalizeEOL (text : list Z) : list Z :=
  match text with
  | [] => []
  | c :: rest => if c =? 13 then 10 :: (match rest with d :: rest' => if d =? 10 then normalizeEOL rest' else normalizeEOL rest | [] => [] end) else c :: normalizeEOL rest
  end.
Definition hasComment (placement : CommentPlacement) (n : Node) : bool :=
  match (match placement with commentBefore => before_ | commentAfterOnSameLine => same_line_ | commentAfter => after_ end) (info n) with Some _ => true | None => false end.
Definition comment_text (placement : CommentPlacement) (n : Node) : list Z := normalizeEOL (getComment placement n).
(** [size() > 0] of an array or an object. *)
Definition node_leaf (n : Node) : bool := match n with Scalar _ v => leaf v | Elements _ (_ :: _) | Members _ (_ :: _) => false | _ => true end.
Class CommentStyle := { comment_style :: Style; writeCommentBeforeValue : Node -> Styled -> Styled }.

Section commented.
Context {DT : DoubleText} {CS : CommentStyle}.
Definition writeCommentAfterValueOnSameLine (root : Node) (w : Styled) : Styled :=
  let w := if hasComment commentAfterOnSameLine root then put (32 :: comment_text commentAfterOnSameLine root) w else w in
  if hasComment commentAfter root then put [10] (put (comment_text commentAfter root) (put [10] w)) else w.
(** The loops; a comma comes before the comment behind a value. *)
Section inside.
Context (writeValue : Node -> Styled -> Styled).
Fixpoint node_multi_line (hasChildValue : bool) (index : nat) (l : list Node) (w : Styled) : Styled :=
  match l with
  | [] => w
  | v :: l =>
    let w := writeCommentBeforeValue v w in
    let w := if hasChildValue then writeWithIndent (nth index (childValues_ w) []) w else writeValue v (writeIndent w) in
    match l with
    | [] => writeCommentAfterValueOnSameLine v w
    | _ => node_multi_line hasChildValue (S index) l (writeCommentAfterValueOnSameLine v (put [44] w))
    end
  end.
Fixpoint node_measure (index : nat) (l : list Node) (lineLength : nat) (w : Styled) : nat * Styled :=
  match l with
  | [] => (lineLength, w)
  | v :: l => let w := writeValue v w in node_measure (S index) l (lineLength + length (nth index (childValues_ w) [])) w
  end.
Definition node_isMultineArray (l : list Node) (w : Styled) : bool * Styled :=
  let isMultiLine := (rightMargin_ <=? length l * 3)%nat || existsb (fun v => negb (node_leaf v)) l in
  let w := set_children [] (addChildValues_ w) w in
  if isMultiLine then (true, w)
  else
    let '(lineLength, w) := node_measure 0 l (4 + (length l - 1) * 2) (set_children (childValues_ w) true w) in
    ((rightMargin_ <=? lineLength)%nat, set_children (childValues_ w) false w).
Definition node_writeArrayValue (l : list Node) (w : Styled) : Styled :=
  match l with
  | [] => pushValue [91; 93] w
  | _ =>
    let '(isArrayMultiLine, w) := node_isMultineArray l w in
    if isArrayMultiLine then
      let w := indent (writeWithIndent [91] w) in
      let hasChildValue := match childValues_ w with [] => false | _ => true end in
      writeWithIndent [93] (unindent (node_multi_line hasChildValue 0 l w))
    else put [32; 93] (single_line (length l) 0 (put [91; 32] w))
  end.
Fixpoint node_write_members (l : list (string * Node)) (w : Styled) : Styled :=
  match l with
  | [] => w
  | (name, v) :: l =>
    let w := writeWithIndent (valueToQuotedString (bytes name)) (writeCommentBeforeValue v w) in
    let w := writeValue v (put [32; 58; 32] w) in
    match l with [] => writeCommentAfterValueOnSameLine v w | _ => node_write_members l (writeCommentAfterValueOnSameLine v (put [44] w)) end
  end.
Definition node_writeObjectValue (l : list (string * Node)) (w : Styled) : Styled :=
  match l with
  | [] => pushValue [123; 125] w
  | _ => writeWithIndent [125] (unindent (node_write_members l (indent (writeWithIndent [123] w))))
  end.
End inside.
Fixpoint node_writeValue (value : Node) (w : Styled) : Styled :=
  match value with
  | Scalar _ v => writeStyled v w
  | Elements _ l => node_writeArrayValue node_writeValue l w
  | Members _ l => node_writeObjectValue node_writeValue l w
  end.
Definition node_write (root : Node) : list Z :=
  document_ (put [10] (writeCommentAfterValueOnSameLine root (node_writeValue root (writeCommentBeforeValue root (mkStyled [] [] [] false))))).
End commented.

(** [StyledWriter]: a line of the comment that begins with a slash is indented. *)
Section styled_before.
Context {ST : Style}.
Fixpoint put_comment_lines (comment : list Z) (w : Styled) : Styled :=
  match comment with
  | [] => w
  | c :: rest =>
    let w := put [c] w in
    put_comment_lines rest (if (c =? 10) && (match rest with d :: _ => d =? 47 | [] => false end) then writeIndent w else w)
  end.
End styled_before.
Definition StyledWriter_comments : CommentStyle := {| comment_style := StyledWriter;
  writeCommentBeforeValue := fun root w =>
    if hasComment commentBefore root then put [10] (put_comment_lines (ST := StyledWriter) (comment_text commentBefore root) (StyledWriter_writeIndent (put [10] w))) else w |}.
Definition StyledStreamWriter_comments (indentation : list Z) : CommentStyle := {| comment_style := StyledStreamWriter indentation;
  writeCommentBeforeValue := fun root w => if hasComment commentBefore root then put [10] (put (comment_text commentBefore root) w) else w |}.

(** ** Without comments *)
Definition no_comment (n : Node) : bool := negb (hasComment commentBefore n) && negb (hasComment commentAfterOnSameLine n) && negb (hasComment commentAfter n).
Fixpoint bare (n : Node) : bool :=
  no_comment n && match n with Scalar _ _ => true | Elements _ l => forallb bare l | Members _ l => forallb (fun kv => bare kv.2) l end.
Section node_induction.
Context (P : Node -> Prop) (HS : forall i v, P (Scalar i v)) (HE : forall i l, Forall P l -> P (Elements i l)) (HM : forall i l, Forall (fun kv => P kv.2) l -> P (Members i l)).
Fixpoint Node_nested_ind (n : Node) : P n :=
  match n with
  | Scalar i v => HS i v
  | Elements i l => HE i l ((fix go l := match l return Forall P l with [] => Forall_nil P | n :: l => Forall_cons P n l (Node_nested_ind n) (go l) end) l)
  | Members i l => HM i l ((fix go l := match l return Forall (fun kv => P kv.2) l with
      [] => Forall_nil _ | kv :: l => Forall_cons _ kv l (Node_nested_ind kv.2) (go l) end) l)
  end.
End node_induction.
Section bare_values.
Context {DT : DoubleText} {CS : CommentStyle}.
(** A style that does nothing without a comment. *)
Context (Hquiet : forall n w, hasComment commentBefore n = false -> writeCommentBeforeValue n w = w).
Definition same (n : Node) : Prop := bare n = true -> forall w, node_writeValue n w = writeStyled (plain n) w.
Lemma bare_around n : bare n = true -> (forall w, writeCommentBeforeValue n w = w) /\ (forall w, writeCommentAfterValueOnSameLine n w = w).
Proof.
  intros H. assert (Hn : no_comment n = true) by (destruct n; by apply andb_prop in H as [H _]). unfold no_comment in Hn. apply andb_prop in Hn as [[H1 H2]%andb_prop H3].
  apply negb_true_iff in H1, H2, H3. split; [intros w; by apply Hquiet|]. intros w. unfold writeCommentAfterValueOnSameLine. by rewrite H2, H3.
Qed.
Lemma bare_leaf n : node_leaf n = leaf (plain n).
Proof. by destruct n as [i v|i [|]|i [|]]. Qed.
Lemma multi_line_bare b l : forall i w, Forall same l -> forallb bare l = true -> node_multi_line node_writeValue b i l w = multi_line writeStyled b i (map plain l) w.
Proof.
  induction l as [|n l IH]; intros i w Hs Hb; [done|]. apply Forall_cons_1 in Hs as [Hn Hs]. cbn in Hb. apply andb_prop in Hb as [Hbn Hb].
  destruct (bare_around n Hbn) as [E1 E2]. cbn [node_multi_line multi_line map]. rewrite E1, !E2, (Hn Hbn). destruct l as [|m l]; [done|]. by apply IH.
Qed.
Lemma measure_bare l : forall i k w, Forall same l -> forallb bare l = true -> node_measure node_writeValue i l k w = measure writeStyled i (map plain l) k w.
Proof.
  induction l as [|n l IH]; intros i k w Hs Hb; [done|]. apply Forall_cons_1 in Hs as [Hn Hs]. cbn in Hb. apply andb_prop in Hb as [Hbn Hb].
  cbn [node_measure measure map]. rewrite (Hn Hbn). by apply IH.
Qed.
Lemma write_members_bare l : forall w, Forall (fun kv => same kv.2) l -> forallb (fun kv => bare kv.2) l = true ->
  node_write_members node_writeValue l w = write_members writeStyled (map (fun kv => (kv.1, plain kv.2)) l) w.
Proof.
  induction l as [|[k n] l IH]; intros w Hs Hb; [done|]. apply Forall_cons_1 in Hs as [Hn Hs]. cbn in Hb. apply andb_prop in Hb as [Hbn Hb]. cbn [fst snd] in *.
  destruct (bare_around n Hbn) as [E1 E2]. cbn [node_write_members write_members map fst snd]. rewrite E1, !E2, (Hn Hbn). destruct l as [|m l]; [done|]. by apply IH.
Qed.
Lemma all_same n : same n.
Proof.
  induction n as [i v|i l IH|i l IH] using Node_nested_ind; intros Hb w; [done| |]; apply andb_prop in Hb as [_ Hb]; cbn [node_writeValue plain writeStyled].
  - unfold node_writeArrayValue, writeArrayValue, node_isMultineArray, isMultineArray. rewrite length_map.
    replace (existsb (fun v => negb (leaf v)) (map plain l)) with (existsb (fun v => negb (node_leaf v)) l) by (clear; induction l as [|n l IH]; [done|]; cbn; by rewrite IH, bare_leaf).
    rewrite measure_bare by done. destruct l as [|n l]; [done|]. set (ns := n :: l) in *. cbn [map]. change (plain n :: map plain l) with (map plain ns).
    destruct (_ || _); [by rewrite multi_line_bare|]. destruct (measure _ _ _ _ _) as [k w1]. destruct (rightMargin_ <=? k)%nat; [by rewrite multi_line_bare|done].
  - unfold node_writeObjectValue, writeObjectValue. rewrite write_members_bare by done. by destruct l.
Qed.
Lemma bare_write n : bare n = true -> node_write n = write (plain n).
Proof. intros Hb. unfold node_write, write. destruct (bare_around n Hb) as [E1 E2]. by rewrite E1, E2, (all_same n Hb). Qed.
End bare_values.
(** Values without comments are written as JsonStyled.v says. *)
Theorem written_without_comments `{DoubleText} indentation n : bare n = true ->
  node_write (CS := StyledWriter_comments) n = StyledWriter_write (plain n) /\
  node_write (CS := StyledStreamWriter_comments indentation) n = StyledStreamWriter_write indentation (plain n).
Proof.
  intros Hb. split; [apply (bare_write (CS := StyledWriter_comments))|apply (bare_write (CS := StyledStreamWriter_comments indentation))]; try done;
    intros m w Hm; cbn; by rewrite Hm.
Qed.

(** ** Examples *)
#[local] Instance no_doubles : DoubleText := {| print_g16 _ _ := []; scan_lf _ := None |}.
Definition with_comment (c : string) (placement : CommentPlacement) (n : Node) : Node := put_comment (bytes c) placement n.
Definition number (z : Z) : Node := Scalar Info_new (intValue z).
Definition commented : Node := Members Info_new [("a", with_comment "// one" commentAfterOnSameLine (number 1)); ("b", with_comment "/* two */" commentBefore (number 2))]%string.
(** The values and comments of the members when the text is read again. *)
Definition members_read (t : list Z) : option (list (Value * list Z * list Z)) :=
  match parse Features_all true t null with
  | Some (Done (true, s)) =>
    match root_ s with Members _ l => Some (map (fun kv => (plain kv.2, getComment commentBefore kv.2, getComment commentAfterOnSameLine kv.2)) l) | _ => None end
  | _ => None
  end.
(** [StyledWriter] keeps the comments apart; the other puts the second one into the line of the first. *)
Example comments_read_back :
  members_read (node_write (CS := StyledWriter_comments) commented) = Some [(intValue 1, [], bytes "// one" ++ [10]); (intValue 2, bytes "/* two */", [])] /\
  members_read (node_write (CS := StyledStreamWriter_comments [9]) commented) = Some [(intValue 1, [], bytes "// one/* two */" ++ [10]); (intValue 2, [], [])].
Proof. vm_compute. done. Qed.
(** A comment inside an array that fits into a line is lost. *)
Example short_arrays_lose_comments :
  node_write (CS := StyledWriter_comments) (Elements Info_new [with_comment "// one" commentBefore (number 1)]) = bytes "[ 1 ]" ++ [10].
Proof. vm_compute. reflexivity. Qed.
(** Line ends of any system become those of Unix. *)
Example line_ends : normalizeEOL [97; 13; 10; 98; 13; 99; 10; 13] = [97; 10; 98; 10; 99; 10; 10].
Proof. reflexivity. Qed.
