(* ===== verification/Base64.v ===== *)
(** * base/base64.{h,cpp}: Base64 with selectable strictness

    The encoder takes three bytes a turn.  The decoder takes a quantum of four
    characters a turn ([GetNextQuantum]); [dpos] is kept as the number of
    characters consumed, and the characters of a quantum read so far are the list
    [qbuf], whose length is [byte_len]. *)
From Stdlib Require Import String.
From S2P Require Import Prelude Text.

Definition DO_PARSE_STRICT : Z := 1.
Definition DO_PARSE_WHITE : Z := 2.
Definition DO_PARSE_ANY : Z := 3.
Definition DO_PARSE_MASK : Z := 3.
Definition DO_PAD_YES : Z := 4.
Definition DO_PAD_ANY : Z := 8.
Definition DO_PAD_NO : Z := 12.
Definition DO_PAD_MASK : Z := 12.
Definition DO_TERM_BUFFER : Z := 16.
Definition DO_TERM_CHAR : Z := 32.
Definition DO_TERM_ANY : Z := 48.
Definition DO_TERM_MASK : Z := 48.
Definition DO_STRICT : Z := Z.lor (Z.lor DO_PARSE_STRICT DO_PAD_YES) DO_TERM_BUFFER.
Definition DO_LAX : Z := Z.lor (Z.lor DO_PARSE_ANY DO_PAD_ANY) DO_TERM_CHAR.

Definition kPad : Z := 61.
Definition pd : Z := 0xFD.
Definition sp : Z := 0xFE.
Definition il : Z := 0xFF.

Definition Base64Table : list Z :=
  Eval vm_compute in bytes "ABCDEFGHIJKLMNOPQRSTUVWXYZabcdefghijklmnopqrstuvwxyz0123456789+/".

Definition DecodeTable : list Z :=
  Eval vm_compute in
  replicate 9 il ++ [sp; sp; sp; sp; sp] ++ replicate 18 il ++ [sp] ++ replicate 10 il
  ++ [62; il; il; il; 63; 52; 53; 54; 55; 56; 57; 58; 59; 60; 61; il; il; il; pd; il; il; il]
  ++ [0; 1; 2; 3; 4; 5; 6; 7; 8; 9; 10; 11; 12; 13; 14; 15; 16; 17; 18; 19; 20; 21; 22; 23; 24; 25]
  ++ replicate 6 il
  ++ [26; 27; 28; 29; 30; 31; 32; 33; 34; 35; 36; 37; 38; 39; 40; 41; 42; 43; 44; 45; 46; 47; 48;
      49; 50; 51]
  ++ replicate 133 il.

Definition enc (c : Z) : Z := Base64Table !!! Z.to_nat c.
Definition dec (ch : Z) : Z := DecodeTable !!! Z.to_nat ch.

Definition IsBase64Char (ch : Z) : bool :=
  ((65 <=? ch) && (ch <=? 90)) || ((97 <=? ch) && (ch <=? 122)) || ((48 <=? ch) && (ch <=? 57))
  || (ch =? 43) || (ch =? 47).

(** [*next_ch], or [None] when it returns false. *)
Definition GetNextBase64Char (ch : Z) : option Z :=
  '(p, _) ← list_find (fun c => c = ch) Base64Table;
  Some (default (enc 0) (Base64Table !! S p)).

Definition IsBase64Encoded (str : list Z) : bool := forallb IsBase64Char str.

Local Open Scope word_scope.

Fixpoint EncodeFromArray (byte_data : list Z) : list Z :=
  match byte_data with
  | [] => []
  | [a] => [enc ((a >> 2) & 0x3f); enc ((a << 4) & 0x3f); kPad; kPad]
  | [a; b] =>
    [enc ((a >> 2) & 0x3f); enc (((a << 4) & 0x3f) || ((b >> 4) & 0x0f));
     enc ((b << 2) & 0x3f); kPad]
  | a :: b :: c :: rest =>
    [enc ((a >> 2) & 0x3f); enc (((a << 4) & 0x3f) || ((b >> 4) & 0x0f));
     enc (((b << 2) & 0x3f) || ((c >> 6) & 0x03)); enc (c & 0x3f)] ++ EncodeFromArray rest
  end.

Close Scope word_scope.

(** The loop of [GetNextQuantum] from the characters [l] at [dpos]: [qbuf],
    [*dpos], [pad_len] and [pad_start] after it. *)
Fixpoint GetNextQuantum_loop (parse_flags : Z) (illegal_pads : bool) (l : list Z) (dpos : nat)
    (qbuf : list Z) (pad_len pad_start : nat) : list Z * nat * nat * nat :=
  let stop := (qbuf, dpos, pad_len, pad_start) in
  match l with
  | [] => stop
  | ch :: l =>
    if (4 <=? length qbuf)%nat then stop
    else
      let go := GetNextQuantum_loop parse_flags illegal_pads l (S dpos) in
      let q := dec ch in
      if (q =? il) || (illegal_pads && (q =? pd)) then
        if negb (parse_flags =? DO_PARSE_ANY) then stop else go qbuf pad_len pad_start
      else if q =? sp then
        if parse_flags =? DO_PARSE_STRICT then stop else go qbuf pad_len pad_start
      else if q =? pd then
        if (length qbuf <? 2)%nat then
          if negb (parse_flags =? DO_PARSE_ANY) then stop else go qbuf pad_len pad_start
        else if (4 <=? length qbuf + pad_len)%nat then
          if negb (parse_flags =? DO_PARSE_ANY) then stop else go qbuf pad_len pad_start
        else go qbuf (S pad_len) (if (S pad_len =? 1)%nat then dpos else pad_start)
      else
        if (0 <? pad_len)%nat then
          if negb (parse_flags =? DO_PARSE_ANY) then stop else go (qbuf ++ [q]) 0%nat pad_start
        else go (qbuf ++ [q]) pad_len pad_start
  end.

(** The number of characters in the quantum, [qbuf], [*dpos] and [*padded]. *)
Definition GetNextQuantum (parse_flags : Z) (illegal_pads : bool) (data : list Z) (dpos : nat)
    : nat * list Z * nat * bool :=
  let '(qbuf, dpos, pad_len, pad_start) :=
    GetNextQuantum_loop parse_flags illegal_pads (drop dpos data) dpos [] 0 0 in
  let byte_len := length qbuf in
  let qbuf := qbuf ++ replicate (4 - byte_len) 0 in
  if (4 =? byte_len + pad_len)%nat then (byte_len, qbuf, dpos, true)
  else (byte_len, qbuf, if (0 <? pad_len)%nat then pad_start else dpos, false).

Local Open Scope word_scope.

(** The bytes of a quantum, and [c] after it. *)
Definition quantum_bytes (qlen : nat) (qbuf : list Z) : list Z * Z :=
  let c0 := u8 ((qbuf !!! 0%nat << 2) || ((qbuf !!! 1%nat >> 4) & 0x3)) in
  let c1 := u8 (((qbuf !!! 1%nat << 4) & 0xf0) || ((qbuf !!! 2%nat >> 2) & 0xf)) in
  let c2 := u8 (((qbuf !!! 2%nat << 6) & 0xc0) || qbuf !!! 3%nat) in
  if (2 <=? qlen)%nat then
    if (3 <=? qlen)%nat then
      if (4 <=? qlen)%nat then ([c0; c1; c2], 0) else ([c0; c1], c2)
    else ([c0], c1)
  else ([], c0).

Close Scope word_scope.

(** The loop of [DecodeFromArrayTemplate]: the result, [dpos] and [success].  A
    turn that does not end the loop consumes characters, so one turn per
    character and one more are enough. *)
Fixpoint Decode_loop (fuel : nat) (flags : Z) (data : list Z) (dpos : nat) (result : list Z)
    (success : bool) : option (list Z * nat * bool) :=
  match fuel with
  | O => None
  | S fuel =>
    if negb (dpos <? length data)%nat then Some (result, dpos, success)
    else
      let parse_flags := Z.land flags DO_PARSE_MASK in
      let pad_flags := Z.land flags DO_PAD_MASK in
      let term_flags := Z.land flags DO_TERM_MASK in
      let '(qlen, qbuf, dpos, padded) :=
        GetNextQuantum parse_flags (DO_PAD_NO =? pad_flags) data dpos in
      let '(out, c) := quantum_bytes qlen qbuf in
      let result := result ++ out in
      if (qlen <? 4)%nat then
        let success := if negb (DO_TERM_ANY =? term_flags) && negb (0 =? c) then false else success in
        let success := if (DO_PAD_YES =? pad_flags) && negb padded then false else success in
        Some (result, dpos, success)
      else Decode_loop fuel flags data dpos result success
  end.

(** The value, [*result] and [*data_used]. *)
Definition DecodeFromArray (data : list Z) (flags : Z) : option (bool * list Z * nat) :=
  '(result, dpos, success) ← Decode_loop (S (length data)) flags data 0 [] true;
  let success := if (DO_TERM_BUFFER =? Z.land flags DO_TERM_MASK)
                    && negb (dpos =? length data)%nat then false else success in
  Some (success, result, dpos).

Example encode_ex : EncodeFromArray (bytes "vzenith") = bytes "dnplbml0aA==".
Proof. reflexivity. Qed.
Example decode_ex : DecodeFromArray (bytes "dnplbml0aA==") DO_STRICT = Some (true, bytes "vzenith", 12%nat).
Proof. reflexivity. Qed.
Example decode_lax_ex : DecodeFromArray (bytes "dn pl!bm l0aA") DO_LAX = Some (true, bytes "vzenith", 13%nat).
Proof. reflexivity. Qed.

(** ** The alphabet *)
Definition sextet (c : Z) : Prop := 0 <= c < 64.

Lemma table_ok : forallb (fun c => (dec (enc c) =? c) && IsBase64Char (enc c) && (enc c <? 256))
  (seqZ 0 64) = true.
Proof. vm_compute. reflexivity. Qed.

Lemma dec_enc c : sextet c -> dec (enc c) = c.
Proof.
  intros H. pose proof (seqZ_forallb _ _ _ c table_ok H) as Hc. cbv beta in Hc. lia.
Qed.
Lemma IsBase64Char_enc c : sextet c -> IsBase64Char (enc c) = true.
Proof.
  intros H. pose proof (seqZ_forallb _ _ _ c table_ok H) as Hc. cbv beta in Hc.
  by destruct (IsBase64Char (enc c)); [|lia].
Qed.

(** A byte is a character of the alphabet, the padding, or neither. *)
Lemma decode_ok : forallb (fun ch => ((dec ch <? 64) && (0 <=? dec ch) && (enc (dec ch) =? ch))
  || ((ch =? kPad) && (dec ch =? pd)) || (dec ch =? sp) || (dec ch =? il)) (seqZ 0 256) = true.
Proof. vm_compute. reflexivity. Qed.
Lemma dec_class ch : is_byte ch ->
  (exists s, sextet s /\ ch = enc s) \/ ch = kPad \/ dec ch = sp \/ dec ch = il.
Proof.
  intros H. pose proof (seqZ_forallb _ _ _ ch decode_ok H) as Hc. cbv beta in Hc.
  unfold kPad in *. destruct (Z.eqb_spec (enc (dec ch)) ch); [|lia].
  destruct (Z.ltb_spec (dec ch) 64); [|lia]. destruct (Z.leb_spec 0 (dec ch)); [|lia].
  left. exists (dec ch). unfold sextet. split; [lia|done].
Qed.

(** ** The arithmetic of a quantum *)
Lemma land_63 x : Z.land x 0x3f = x mod 64.
Proof. by apply (land_ones_mod x 0x3f 6). Qed.
Lemma land_15 x : Z.land x 0x0f = x mod 16.
Proof. by apply (land_ones_mod x 0x0f 4). Qed.
Lemma land_3 x : Z.land x 0x3 = x mod 4.
Proof. by apply (land_ones_mod x 0x3 2). Qed.
Lemma land_shl x k m : 0 <= k -> Z.land (Z.shiftl x k) (Z.shiftl m k) = Z.land x m * 2 ^ k.
Proof. intros. rewrite <- Z.shiftl_land. by apply Z.shiftl_mul_pow2. Qed.

Definition s0 (a : Z) : Z := a / 4.
Definition s1 (a b : Z) : Z := a mod 4 * 16 + b / 16.
Definition s2 (b c : Z) : Z := b mod 16 * 4 + c / 64.
Definition s3 (c : Z) : Z := c mod 64.

Ltac bits_to_arith :=
  rewrite ?land_63, ?land_15, ?land_3, ?Z.shiftr_div_pow2, ?Z.shiftl_mul_pow2 by lia.

Lemma enc0_spec a : is_byte a -> Z.land (Z.shiftr a 2) 0x3f = s0 a.
Proof. intros. bits_to_arith. unfold s0. change (2 ^ 2) with 4. word_lia. Qed.
Lemma enc1_spec a b : is_byte a -> is_byte b ->
  Z.lor (Z.land (Z.shiftl a 4) 0x3f) (Z.land (Z.shiftr b 4) 0x0f) = s1 a b.
Proof.
  intros. bits_to_arith. change (2 ^ 4) with 16. unfold s1.
  replace (a * 16 mod 64) with (a mod 4 * 2 ^ 4) by (change (2 ^ 4) with 16; word_lia).
  rewrite lor_add_disjoint by (change (2 ^ 4) with 16; word_lia).
  change (2 ^ 4) with 16. word_lia.
Qed.
Lemma enc1_last a : is_byte a -> Z.land (Z.shiftl a 4) 0x3f = s1 a 0.
Proof. intros. bits_to_arith. unfold s1. change (2 ^ 4) with 16. word_lia. Qed.
Lemma enc2_spec b c : is_byte b -> is_byte c ->
  Z.lor (Z.land (Z.shiftl b 2) 0x3f) (Z.land (Z.shiftr c 6) 0x03) = s2 b c.
Proof.
  intros. bits_to_arith. change (2 ^ 2) with 4. change (2 ^ 6) with 64. unfold s2.
  replace (b * 4 mod 64) with (b mod 16 * 2 ^ 2) by (change (2 ^ 2) with 4; word_lia).
  rewrite lor_add_disjoint by (change (2 ^ 2) with 4; word_lia).
  change (2 ^ 2) with 4. word_lia.
Qed.
Lemma enc2_last b : is_byte b -> Z.land (Z.shiftl b 2) 0x3f = s2 b 0.
Proof. intros. bits_to_arith. unfold s2. change (2 ^ 2) with 4. word_lia. Qed.

(** The bytes a quantum stands for. *)
Definition b0 (q0 q1 : Z) : Z := q0 * 4 + q1 / 16.
Definition b1 (q1 q2 : Z) : Z := q1 mod 16 * 16 + q2 / 4.
Definition b2 (q2 q3 : Z) : Z := q2 mod 4 * 64 + q3.

Lemma quantum_bytes_spec n q0 q1 q2 q3 :
  sextet q0 -> sextet q1 -> sextet q2 -> sextet q3 ->
  quantum_bytes n [q0; q1; q2; q3] =
  if (2 <=? n)%nat then
    if (3 <=? n)%nat then
      if (4 <=? n)%nat then ([b0 q0 q1; b1 q1 q2; b2 q2 q3], 0) else ([b0 q0 q1; b1 q1 q2], b2 q2 q3)
    else ([b0 q0 q1], b1 q1 q2)
  else ([], b0 q0 q1).
Proof.
  unfold sextet. intros H0 H1 H2 H3. unfold quantum_bytes.
  cbn [lookup_total list_lookup_total].
  change 0xf0 with (Z.shiftl 0xf 4). change 0xc0 with (Z.shiftl 0x3 6).
  assert (E0 : u8 (Z.lor (Z.shiftl q0 2) (Z.land (Z.shiftr q1 4) 0x3)) = b0 q0 q1).
  { bits_to_arith. change (2 ^ 4) with 16. rewrite lor_add_disjoint by (change (2 ^ 2) with 4; word_lia).
    unfold b0. change (2 ^ 2) with 4. word_lia. }
  assert (E1 : u8 (Z.lor (Z.land (Z.shiftl q1 4) (Z.shiftl 0xf 4)) (Z.land (Z.shiftr q2 2) 0xf)) = b1 q1 q2).
  { rewrite land_shl by lia. bits_to_arith. change (2 ^ 2) with 4.
    rewrite lor_add_disjoint by (change (2 ^ 4) with 16; word_lia).
    unfold b1. change (2 ^ 4) with 16. word_lia. }
  assert (E2 : u8 (Z.lor (Z.land (Z.shiftl q2 6) (Z.shiftl 0x3 6)) q3) = b2 q2 q3).
  { rewrite land_shl by lia. bits_to_arith. rewrite lor_add_disjoint by (change (2 ^ 6) with 64; lia).
    unfold b2. change (2 ^ 6) with 64. word_lia. }
  by rewrite E0, E1, E2.
Qed.

(** ** Quanta *)
Lemma loop_char pf ip s l dpos q pp :
  sextet s -> (length q < 4)%nat ->
  GetNextQuantum_loop pf ip (enc s :: l) dpos q 0 pp =
  GetNextQuantum_loop pf ip l (S dpos) (q ++ [s]) 0 pp.
Proof.
  intros Hs Hq. cbn [GetNextQuantum_loop]. rewrite dec_enc by done. unfold sextet in Hs.
  destruct (Nat.leb_spec 4 (length q)); [lia|]. unfold il, sp, pd.
  destruct (Z.eqb_spec s 0xFF), (Z.eqb_spec s 0xFD), (Z.eqb_spec s 0xFE); try lia.
  by rewrite andb_false_r.
Qed.

Lemma loop_full pf ip l dpos q pl pp :
  length q = 4%nat -> GetNextQuantum_loop pf ip l dpos q pl pp = (q, dpos, pl, pp).
Proof. intros Hq. destruct l; [done|]. cbn [GetNextQuantum_loop]. by rewrite Hq. Qed.

Lemma loop_pad pf l dpos q pl pp :
  (2 <= length q < 4)%nat -> (length q + pl < 4)%nat ->
  GetNextQuantum_loop pf false (kPad :: l) dpos q pl pp =
  GetNextQuantum_loop pf false l (S dpos) q (S pl) (if (S pl =? 1)%nat then dpos else pp).
Proof.
  intros Hq Hp. cbn [GetNextQuantum_loop]. change (dec kPad) with pd.
  change (pd =? il) with false. change (pd =? sp) with false. change (pd =? pd) with true.
  destruct (Nat.leb_spec 4 (length q)); [lia|]. cbn [orb andb].
  destruct (Nat.ltb_spec (length q) 2); [lia|].
  destruct (Nat.leb_spec 4 (length q + pl)); [lia|]. done.
Qed.

(** Four characters of the alphabet. *)
Lemma quantum_4 pf ip data dpos q0 q1 q2 q3 rest :
  sextet q0 -> sextet q1 -> sextet q2 -> sextet q3 ->
  drop dpos data = enc q0 :: enc q1 :: enc q2 :: enc q3 :: rest ->
  GetNextQuantum pf ip data dpos = (4%nat, [q0; q1; q2; q3], (dpos + 4)%nat, true).
Proof.
  intros H0 H1 H2 H3 Hd. unfold GetNextQuantum. rewrite Hd.
  rewrite !loop_char by (done || (simpl; lia)). rewrite loop_full by done. cbn.
  repeat f_equal; lia.
Qed.

(** Two or three characters and the padding, at the end. *)
Lemma quantum_2 pf data dpos q0 q1 :
  sextet q0 -> sextet q1 -> drop dpos data = [enc q0; enc q1; kPad; kPad] ->
  GetNextQuantum pf false data dpos = (2%nat, [q0; q1; 0; 0], (dpos + 4)%nat, true).
Proof.
  intros H0 H1 Hd. unfold GetNextQuantum. rewrite Hd.
  rewrite !loop_char by (done || (simpl; lia)). rewrite !loop_pad by (simpl; lia). cbn.
  repeat f_equal; lia.
Qed.
Lemma quantum_3 pf data dpos q0 q1 q2 :
  sextet q0 -> sextet q1 -> sextet q2 -> drop dpos data = [enc q0; enc q1; enc q2; kPad] ->
  GetNextQuantum pf false data dpos = (3%nat, [q0; q1; q2; 0], (dpos + 4)%nat, true).
Proof.
  intros H0 H1 H2 Hd. unfold GetNextQuantum. rewrite Hd.
  rewrite !loop_char by (done || (simpl; lia)). rewrite !loop_pad by (simpl; lia). cbn.
  repeat f_equal; lia.
Qed.

(** ** The encoder, three bytes at a time *)
Lemma Encode_1 a : is_byte a -> EncodeFromArray [a] = [enc (s0 a); enc (s1 a 0); kPad; kPad].
Proof. intros. cbn [EncodeFromArray]. by rewrite enc0_spec, enc1_last by done. Qed.
Lemma Encode_2 a b : is_byte a -> is_byte b ->
  EncodeFromArray [a; b] = [enc (s0 a); enc (s1 a b); enc (s2 b 0); kPad].
Proof. intros. cbn [EncodeFromArray]. by rewrite enc0_spec, enc1_spec, enc2_last by done. Qed.
Lemma Encode_3 a b c l : is_byte a -> is_byte b -> is_byte c ->
  EncodeFromArray (a :: b :: c :: l) =
  [enc (s0 a); enc (s1 a b); enc (s2 b c); enc (s3 c)] ++ EncodeFromArray l.
Proof.
  intros. cbn [EncodeFromArray]. rewrite enc0_spec, enc1_spec, enc2_spec by done.
  by rewrite land_63.
Qed.

Lemma sextets a b c : is_byte a -> is_byte b -> is_byte c ->
  sextet (s0 a) /\ sextet (s1 a b) /\ sextet (s2 b c) /\ sextet (s3 c).
Proof. intros. unfold sextet, s0, s1, s2, s3. split_and!; word_lia. Qed.
Lemma bytes_of_sextets a b c : is_byte a -> is_byte b -> is_byte c ->
  b0 (s0 a) (s1 a b) = a /\ b1 (s1 a b) (s2 b c) = b /\ b2 (s2 b c) (s3 c) = c.
Proof. intros. unfold b0, b1, b2, s0, s1, s2, s3. split_and!; word_lia. Qed.
Lemma sextets_of_bytes q0 q1 q2 q3 : sextet q0 -> sextet q1 -> sextet q2 -> sextet q3 ->
  is_byte (b0 q0 q1) /\ is_byte (b1 q1 q2) /\ is_byte (b2 q2 q3) /\
  s0 (b0 q0 q1) = q0 /\ s1 (b0 q0 q1) (b1 q1 q2) = q1 /\
  s2 (b1 q1 q2) (b2 q2 q3) = q2 /\ s3 (b2 q2 q3) = q3.
Proof. unfold sextet, b0, b1, b2, s0, s1, s2, s3. intros. split_and!; word_lia. Qed.

(** Induction three elements at a time. *)
Lemma list_ind3 {A} (P : list A -> Prop) :
  P [] -> (forall a, P [a]) -> (forall a b, P [a; b]) ->
  (forall a b c l, P l -> P (a :: b :: c :: l)) -> forall l, P l.
Proof.
  intros H0 H1 H2 H3 l. induction l as [l IH] using (induction_ltof1 _ length).
  destruct l as [|a [|b [|c l]]]; auto. apply H3, IH. unfold ltof. simpl. lia.
Qed.

Lemma length_EncodeFromArray d :
  length (EncodeFromArray d) = ((length d + 2) / 3 * 4)%nat.
Proof.
  induction d as [| | |a b c l IH] using list_ind3; [done..|].
  cbn [EncodeFromArray app length]. rewrite IH.
  replace (S (S (S (length l))) + 2)%nat with (length l + 2 + 1 * 3)%nat by lia.
  rewrite Nat.div_add by lia. lia.
Qed.

Lemma length_Encode_ge d : (length d <= length (EncodeFromArray d))%nat.
Proof.
  rewrite length_EncodeFromArray. pose proof (Nat.div_mod (length d + 2) 3 ltac:(lia)).
  pose proof (Nat.mod_upper_bound (length d + 2) 3 ltac:(lia)). lia.
Qed.

Lemma Decode_loop_turn fuel flags data dpos r success :
  (dpos < length data)%nat ->
  Decode_loop (S fuel) flags data dpos r success =
  let '(qlen, qbuf, dpos, padded) :=
    GetNextQuantum (Z.land flags DO_PARSE_MASK) (DO_PAD_NO =? Z.land flags DO_PAD_MASK) data dpos in
  let '(out, c) := quantum_bytes qlen qbuf in
  if (qlen <? 4)%nat then
    let success := if negb (DO_TERM_ANY =? Z.land flags DO_TERM_MASK) && negb (0 =? c)
                   then false else success in
    let success := if (DO_PAD_YES =? Z.land flags DO_PAD_MASK) && negb padded then false else success in
    Some (r ++ out, dpos, success)
  else Decode_loop fuel flags data dpos (r ++ out) success.
Proof. intros. cbn [Decode_loop]. by destruct (Nat.ltb_spec dpos (length data)); [|lia]. Qed.

Lemma Decode_loop_encode flags : Z.land flags DO_PAD_MASK <> DO_PAD_NO ->
  forall d fuel data dpos r, is_bytes d -> (length d < fuel)%nat ->
  (dpos <= length data)%nat -> drop dpos data = EncodeFromArray d ->
  Decode_loop fuel flags data dpos r true = Some (r ++ d, length data, true).
Proof.
  intros Hpad. assert (Hip : (DO_PAD_NO =? Z.land flags DO_PAD_MASK) = false) by lia.
  intros d. induction d as [|a|a b|a b c d IH] using list_ind3; intros fuel data dpos r Hd Hf Hle Hdrop;
    (destruct fuel as [|fuel]; [simpl in Hf; lia|]);
    assert (Hl : (length data = dpos + length (EncodeFromArray _))%nat)
      by (rewrite <- Hdrop, length_drop; lia).
  - cbn in Hl. cbn [Decode_loop]. rewrite Hl, Nat.add_0_r, Nat.ltb_irrefl. cbn.
    by rewrite app_nil_r.
  - apply Forall_cons_1 in Hd as [Ha _]. rewrite Encode_1 in Hdrop by done. cbn in Hl.
    destruct (sextets a 0 0) as (H0 & H1 & _); [done..|].
    destruct (bytes_of_sextets a 0 0) as (E0 & E1 & _); [done..|].
    rewrite Decode_loop_turn, Hip by lia. rewrite (quantum_2 _ _ _ (s0 a) (s1 a 0)) by done.
    rewrite quantum_bytes_spec by done. cbn. rewrite E0. change (b1 (s1 a 0) (s2 0 0)) with (b1 (s1 a 0) 0) in E1.
    rewrite E1. cbn. rewrite !andb_false_r, Hl. done.
  - apply Forall_cons_1 in Hd as [Ha Hd]. apply Forall_cons_1 in Hd as [Hb _].
    rewrite Encode_2 in Hdrop by done. cbn in Hl.
    destruct (sextets a b 0) as (H0 & H1 & H2 & _); [done..|].
    destruct (bytes_of_sextets a b 0) as (E0 & E1 & E2); [done..|].
    rewrite Decode_loop_turn, Hip by lia. rewrite (quantum_3 _ _ _ (s0 a) (s1 a b) (s2 b 0)) by done.
    rewrite quantum_bytes_spec by done. cbn. rewrite E0, E1. change (s3 0) with 0 in E2.
    rewrite E2. cbn. rewrite !andb_false_r, Hl. done.
  - apply Forall_cons_1 in Hd as [Ha Hd]. apply Forall_cons_1 in Hd as [Hb Hd].
    apply Forall_cons_1 in Hd as [Hc Hd]. rewrite Encode_3 in Hdrop by done. cbn in Hl.
    destruct (sextets a b c) as (H0 & H1 & H2 & H3); [done..|].
    destruct (bytes_of_sextets a b c) as (E0 & E1 & E2); [done..|].
    rewrite Decode_loop_turn by lia.
    rewrite (quantum_4 _ _ _ _ (s0 a) (s1 a b) (s2 b c) (s3 c) _ H0 H1 H2 H3 Hdrop).
    rewrite quantum_bytes_spec by done. cbn [Nat.leb Nat.ltb]. rewrite E0, E1, E2.
    rewrite IH; [by rewrite <- app_assoc|done|cbn in Hf; lia|lia|].
    rewrite <- drop_drop, Hdrop. done.
Qed.

(** ** Termination and bounds of the decoder *)
Lemma loop_bounds pf ip l : forall dpos q pl pp,
  (length q + pl <= 4)%nat -> (0 < pl -> pp <= dpos)%nat ->
  let '(q', dpos', pl', pp') := GetNextQuantum_loop pf ip l dpos q pl pp in
  (length q' + pl' <= 4)%nat /\ (dpos <= dpos' <= dpos + length l)%nat /\
  (length q' + dpos <= length q + dpos')%nat /\ (0 < pl' -> pp' <= dpos')%nat.
Proof.
  induction l as [|ch l IH]; intros dpos q pl pp Hq Hpp; cbn [GetNextQuantum_loop length].
  { split_and!; auto; lia. }
  assert (Hstop : (length q + pl <= 4)%nat /\ (dpos <= dpos <= dpos + S (length l))%nat /\
    (length q + dpos <= length q + dpos)%nat /\ (0 < pl -> pp <= dpos)%nat) by (split_and!; auto; lia).
  assert (Hgo : forall q1 pl1 pp1, (length q1 + pl1 <= 4)%nat -> (length q1 <= S (length q))%nat ->
    (0 < pl1 -> pp1 <= dpos)%nat ->
    let '(q', dpos', pl', pp') := GetNextQuantum_loop pf ip l (S dpos) q1 pl1 pp1 in
    (length q' + pl' <= 4)%nat /\ (dpos <= dpos' <= dpos + S (length l))%nat /\
    (length q' + dpos <= length q + dpos')%nat /\ (0 < pl' -> pp' <= dpos')%nat).
  { intros q1 pl1 pp1 H1 H2 H3. specialize (IH (S dpos) q1 pl1 pp1 H1 ltac:(lia)).
    destruct (GetNextQuantum_loop _ _ _ _ _ _ _) as [[[q' dpos'] pl'] pp'].
    destruct IH as (? & ? & ? & ?). split_and!; auto; lia. }
  assert (length (q ++ [dec ch]) = S (length q)) by (rewrite length_app; simpl; lia).
  destruct (Nat.leb_spec 4 (length q)); [done|].
  repeat (case_if; [try done; try (by apply Hgo; lia)|]); try done; try (apply Hgo; lia).
  all: repeat (case_if; try done; try (apply Hgo; propify; lia)).
  all: apply Hgo; [propify; lia|lia|]; intros ?; first [lia|apply Hpp; propify; lia].
Qed.

Lemma GetNextQuantum_bounds pf ip data dpos qlen qbuf dpos' padded :
  (dpos <= length data)%nat ->
  GetNextQuantum pf ip data dpos = (qlen, qbuf, dpos', padded) ->
  (qlen <= 4)%nat /\ (dpos' <= length data)%nat /\ (qlen = 4 -> dpos + 4 <= dpos')%nat.
Proof.
  intros Hd. unfold GetNextQuantum.
  pose proof (loop_bounds pf ip (drop dpos data) dpos [] 0 0 ltac:(simpl; lia) ltac:(lia)) as Hb.
  destruct (GetNextQuantum_loop _ _ _ _ _ _ _) as [[[q d'] pl] pp]. rewrite length_drop in Hb.
  destruct Hb as (H1 & H2 & H3 & H4). cbn in H3.
  destruct (Nat.eqb_spec 4 (length q + pl)); intros [= <- <- <- <-].
  - split_and!; lia.
  - destruct (Nat.ltb_spec 0 pl); split_and!; lia.
Qed.

Lemma quantum_bytes_bounds qlen qbuf :
  is_bytes (quantum_bytes qlen qbuf).1 /\ (length (quantum_bytes qlen qbuf).1 <= 3)%nat /\
  (length (quantum_bytes qlen qbuf).1 <= pred qlen)%nat.
Proof.
  unfold quantum_bytes. destruct (Nat.leb_spec 2 qlen), (Nat.leb_spec 3 qlen), (Nat.leb_spec 4 qlen);
    cbn [fst length]; split_and!; try lia; repeat constructor; apply u8_range.
Qed.

(** Each turn but the last consumes four characters and produces three bytes. *)
Lemma Decode_loop_total flags data : forall fuel dpos r success,
  (dpos <= length data)%nat -> (length data - dpos < fuel)%nat -> is_bytes r ->
  exists r' dpos' success', Decode_loop fuel flags data dpos r success = Some (r', dpos', success') /\
    (dpos' <= length data)%nat /\ is_bytes r' /\
    (4 * length r' <= 4 * length r + 3 * (length data - dpos) + 8)%nat.
Proof.
  induction fuel as [|fuel IH]; intros dpos r success Hd Hf Hr; [lia|].
  destruct (Nat.ltb_spec dpos (length data)) as [Hlt|Hge].
  2: { cbn [Decode_loop]. destruct (Nat.ltb_spec dpos (length data)); [lia|].
       do 3 eexists. split; [done|]. split_and!; auto; lia. }
  rewrite Decode_loop_turn by done.
  destruct (GetNextQuantum _ _ _ _) as [[[qlen qbuf] dpos1] padded] eqn:Eq.
  apply GetNextQuantum_bounds in Eq as (Hq & Hd1 & Hadv); [|lia].
  destruct (quantum_bytes_bounds qlen qbuf) as (Hb & H3 & Hpred).
  destruct (quantum_bytes qlen qbuf) as [out c]. cbn [fst] in *.
  assert (is_bytes (r ++ out)) by (by apply is_bytes_app).
  destruct (Nat.ltb_spec qlen 4) as [Hq4|Hq4].
  - do 3 eexists. split; [done|]. rewrite length_app. split_and!; auto; lia.
  - specialize (Hadv ltac:(lia)).
    destruct (IH dpos1 (r ++ out) success) as (r' & d' & s' & E & H6 & H7 & H8); [lia|lia|done|].
    exists r', d', s'. rewrite length_app in *. split; [done|]. split_and!; auto; lia.
Qed.

(** ** Strict decoding *)
Lemma loop_stop ip ch l dpos q pl pp :
  dec ch = sp \/ dec ch = il ->
  GetNextQuantum_loop DO_PARSE_STRICT ip (ch :: l) dpos q pl pp = (q, dpos, pl, pp).
Proof.
  intros H. cbn [GetNextQuantum_loop]. destruct (4 <=? length q)%nat; [done|].
  destruct H as [-> | ->]; [by destruct ip|done].
Qed.
Lemma loop_stop_pad l dpos q pl pp :
  (length q < 2 \/ 4 <= length q + pl)%nat ->
  GetNextQuantum_loop DO_PARSE_STRICT false (kPad :: l) dpos q pl pp = (q, dpos, pl, pp).
Proof.
  intros H. cbn [GetNextQuantum_loop]. change (dec kPad) with pd.
  change (pd =? il) with false. change (pd =? sp) with false. change (pd =? pd) with true.
  destruct (4 <=? length q)%nat; [done|]. cbn [orb andb].
  destruct (Nat.ltb_spec (length q) 2); [done|].
  by destruct (Nat.leb_spec 4 (length q + pl)); [|lia].
Qed.
Lemma loop_stop_char s l dpos q pl pp :
  sextet s -> (0 < pl)%nat ->
  GetNextQuantum_loop DO_PARSE_STRICT false (enc s :: l) dpos q pl pp = (q, dpos, pl, pp).
Proof.
  intros Hs Hp. cbn [GetNextQuantum_loop]. rewrite dec_enc by done. unfold sextet in Hs.
  destruct (4 <=? length q)%nat; [done|]. unfold il, sp, pd.
  destruct (Z.eqb_spec s 0xFF), (Z.eqb_spec s 0xFD), (Z.eqb_spec s 0xFE); try lia. cbn [orb andb].
  by destruct (Nat.ltb_spec 0 pl); [|lia].
Qed.

Lemma loop_complete l dpos q pl pp :
  is_bytes l -> (0 < pl)%nat -> (length q + pl = 4)%nat ->
  GetNextQuantum_loop DO_PARSE_STRICT false l dpos q pl pp = (q, dpos, pl, pp).
Proof.
  intros Hl Hp Hq. destruct l as [|x l]; [done|]. apply Forall_cons_1 in Hl as [Hx _].
  destruct (dec_class x Hx) as [(s & Hs & ->)|[->|Hd]].
  - by apply loop_stop_char.
  - apply loop_stop_pad. lia.
  - by apply loop_stop.
Qed.

(** A complete quantum, as the strict decoder accepts it. *)
Inductive strict_quantum (l : list Z) : nat -> list Z -> list Z -> Prop :=
  | sq_4 q0 q1 q2 q3 rest : sextet q0 -> sextet q1 -> sextet q2 -> sextet q3 ->
      l = enc q0 :: enc q1 :: enc q2 :: enc q3 :: rest -> strict_quantum l 4 [q0; q1; q2; q3] rest
  | sq_3 q0 q1 q2 rest : sextet q0 -> sextet q1 -> sextet q2 ->
      l = enc q0 :: enc q1 :: enc q2 :: kPad :: rest -> strict_quantum l 3 [q0; q1; q2; 0] rest
  | sq_2 q0 q1 rest : sextet q0 -> sextet q1 ->
      l = enc q0 :: enc q1 :: kPad :: kPad :: rest -> strict_quantum l 2 [q0; q1; 0; 0] rest.

(** The next character of a strict quantum. *)
Ltac next_char l Hl :=
  let x := fresh "x" in let Hx := fresh "Hx" in
  destruct l as [|x l]; [|apply Forall_cons_1 in Hl as [Hx Hl];
    destruct (dec_class x Hx) as [(?s & ? & ->)|[->|?]]].
Ltac strict_loop :=
  repeat first
    [ rewrite loop_char by (done || (simpl; lia))
    | rewrite loop_pad by (simpl; lia)
    | rewrite loop_full by done
    | rewrite loop_stop by done
    | rewrite loop_stop_pad by (simpl; lia)
    | rewrite loop_stop_char by (done || lia) ].
Ltac no_quantum := strict_loop; cbn; intros [= <- <- <- <-]; left; split; (lia || done).

Lemma GetNextQuantum_strict data dpos qlen qbuf dpos' padded :
  is_bytes (drop dpos data) ->
  GetNextQuantum DO_PARSE_STRICT false data dpos = (qlen, qbuf, dpos', padded) ->
  ((qlen < 4)%nat /\ padded = false) \/
  exists rest, strict_quantum (drop dpos data) qlen qbuf rest /\ dpos' = (dpos + 4)%nat.
Proof.
  unfold GetNextQuantum. generalize (drop dpos data). intros l Hl.
  next_char l Hl; try no_quantum. next_char l Hl; try no_quantum.
  next_char l Hl; try no_quantum.
  - next_char l Hl; try no_quantum.
    + strict_loop. cbn. intros [= <- <- <- <-]. right. eexists. split; [by eapply sq_4|lia].
    + strict_loop. rewrite loop_complete by (done || (simpl; lia)). cbn.
      intros [= <- <- <- <-]. right. eexists. split; [by eapply sq_3|lia].
  - next_char l Hl; try no_quantum.
    strict_loop. rewrite loop_complete by (done || (simpl; lia)). cbn.
    intros [= <- <- <- <-]. right. eexists. split; [by eapply sq_2|lia].
Qed.

Lemma Decode_loop_strict data : is_bytes data -> forall fuel dpos r r' dpos',
  (dpos <= length data)%nat -> (length data - dpos < fuel)%nat ->
  Decode_loop fuel DO_STRICT data dpos r true = Some (r', dpos', true) ->
  dpos' = length data ->
  exists d, r' = r ++ d /\ is_bytes d /\ drop dpos data = EncodeFromArray d.
Proof.
  intros Hdata. induction fuel as [|fuel IH]; intros dpos r r' dpos' Hle Hf; [lia|].
  destruct (Nat.ltb_spec dpos (length data)) as [Hlt|Hge].
  2: { cbn [Decode_loop]. destruct (Nat.ltb_spec dpos (length data)); [lia|].
       intros [= <- <-] _. exists []. rewrite app_nil_r, drop_ge by lia. split_and!; [done|constructor|done]. }
  rewrite Decode_loop_turn by done. change (Z.land DO_STRICT DO_PARSE_MASK) with DO_PARSE_STRICT.
  change (DO_PAD_NO =? Z.land DO_STRICT DO_PAD_MASK) with false.
  change (DO_TERM_ANY =? Z.land DO_STRICT DO_TERM_MASK) with false.
  change (DO_PAD_YES =? Z.land DO_STRICT DO_PAD_MASK) with true. cbn [negb andb].
  destruct (GetNextQuantum _ _ _ _) as [[[qlen qbuf] dpos1] padded] eqn:Eq.
  apply GetNextQuantum_strict in Eq as [[Hq ->]|(rest & Hsq & ->)]; [| |by apply Forall_drop].
  { destruct (quantum_bytes qlen qbuf) as [out c]. apply Nat.ltb_lt in Hq as ->. discriminate. }
  assert (Hrest : drop (dpos + 4) data = rest).
  { rewrite <- drop_drop. by destruct Hsq as [?????????->|???????->|?????->]. }
  assert (sextet 0) by (unfold sextet; lia).
  destruct Hsq as [q0 q1 q2 q3 rest' H0 H1 H2 H3 E|q0 q1 q2 rest' H0 H1 H2 E|q0 q1 rest' H0 H1 E];
    rewrite quantum_bytes_spec by done; cbn [Nat.leb Nat.ltb].
  - intros Hd Hend.
    destruct (sextets_of_bytes q0 q1 q2 q3) as (? & ? & ? & E0 & E1 & E2 & E3); [done..|].
    assert (dpos + 4 <= length data)%nat.
    { pose proof (f_equal length E) as HE. rewrite length_drop in HE. simpl in HE. lia. }
    destruct (IH (dpos + 4)%nat _ _ _ ltac:(lia) ltac:(lia) Hd Hend) as (d & -> & Hbd & Hdr).
    exists (b0 q0 q1 :: b1 q1 q2 :: b2 q2 q3 :: d). rewrite <- app_assoc. split; [done|].
    split; [by repeat (apply Forall_cons_2; [done|]); first [done|constructor]|].
    rewrite Encode_3, E0, E1, E2, E3 by done. cbn [app]. rewrite <- Hdr, Hrest. done.
  - destruct (Z.eqb_spec 0 (b2 q2 0)) as [Hc|], padded; try discriminate. intros [= <- <-] Hend.
    destruct (sextets_of_bytes q0 q1 q2 0) as (? & ? & _ & E0 & E1 & E2 & _); [done..|].
    exists [b0 q0 q1; b1 q1 q2]. split; [done|]. split; [by repeat (apply Forall_cons_2; [done|]); first [done|constructor]|].
    rewrite Encode_2, E0, E1 by done. rewrite <- Hc in E2. rewrite E2, E.
    rewrite drop_ge in Hrest by lia. by subst rest'.
  - destruct (Z.eqb_spec 0 (b1 q1 0)) as [Hc|], padded; try discriminate. intros [= <- <-] Hend.
    destruct (sextets_of_bytes q0 q1 0 0) as (? & _ & _ & E0 & E1 & _ & _); [done..|].
    exists [b0 q0 q1]. split; [done|]. split; [by repeat (apply Forall_cons_2; [done|]); first [done|constructor]|].
    rewrite Encode_1, E0 by done. rewrite <- Hc in E1. rewrite E1, E.
    rewrite drop_ge in Hrest by lia. by subst rest'.
Qed.

Lemma decode_encode d flags :
  is_bytes d -> Z.land flags DO_PAD_MASK <> DO_PAD_NO ->
  DecodeFromArray (EncodeFromArray d) flags = Some (true, d, length (EncodeFromArray d)).
Proof.
  intros Hd Hf. unfold DecodeFromArray.
  rewrite (Decode_loop_encode flags Hf d)
    by (done || lia || (pose proof (length_Encode_ge d); lia)).
  cbn [mbind option_bind]. by rewrite Nat.eqb_refl, andb_false_r.
Qed.

Lemma enc_not_nul c : sextet c -> enc c <> 0.
Proof.
  intros H. apply IsBase64Char_enc in H. intros E. rewrite E in H. discriminate.
Qed.
(** Encoded text is a C string. *)
Lemma Encode_no_nul d : is_bytes d -> no_nul (EncodeFromArray d).
Proof.
  induction d as [|a|a b|a b c l IH] using list_ind3; intros Hd.
  - constructor.
  - apply Forall_cons_1 in Hd as [Ha _]. destruct (sextets a 0 0) as (H0 & H1 & _); [done..|].
    rewrite Encode_1 by done. repeat (apply Forall_cons_2; [first [by apply enc_not_nul|done]|]). constructor.
  - apply Forall_cons_1 in Hd as [Ha Hd]. apply Forall_cons_1 in Hd as [Hb _].
    destruct (sextets a b 0) as (H0 & H1 & H2 & _); [done..|].
    rewrite Encode_2 by done. repeat (apply Forall_cons_2; [first [by apply enc_not_nul|done]|]). constructor.
  - apply Forall_cons_1 in Hd as [Ha Hd]. apply Forall_cons_1 in Hd as [Hb Hd].
    apply Forall_cons_1 in Hd as [Hc Hd]. destruct (sextets a b c) as (H0 & H1 & H2 & H3); [done..|].
    rewrite Encode_3 by done. apply Forall_app. split; [|by apply IH].
    repeat (apply Forall_cons_2; [by apply enc_not_nul|]). constructor.
Qed.

(** ** What the component promises *)

(** C35. Decoding, with any flags that allow padding, gives back what was encoded and
    uses all the text. *)
Theorem base64_roundtrip d flags :
  is_bytes d -> Z.land flags DO_PAD_MASK <> DO_PAD_NO ->
  DecodeFromArray (EncodeFromArray d) flags = Some (true, d, length (EncodeFromArray d)).
Proof. apply decode_encode. Qed.

(** The strict decoder accepts exactly the texts the encoder produces: it has
    no second spelling of any data. *)
Theorem strict_decode_canonical text d used :
  is_bytes text ->
  DecodeFromArray text DO_STRICT = Some (true, d, used) <->
  is_bytes d /\ text = EncodeFromArray d /\ used = length text.
Proof.
  intros Ht. split.
  - destruct (Decode_loop_total DO_STRICT text (S (length text)) 0 [] true)
      as (r & p & ok & E & _); [lia|lia|constructor|].
    unfold DecodeFromArray. rewrite E. cbn [mbind option_bind].
    change (DO_TERM_BUFFER =? Z.land DO_STRICT DO_TERM_MASK) with true. cbn [andb].
    destruct (Nat.eqb_spec p (length text)) as [->|]; cbn [negb]; [|discriminate].
    intros [= -> -> <-].
    destruct (Decode_loop_strict text Ht (S (length text)) 0%nat [] _ _ ltac:(lia) ltac:(lia) E eq_refl) as (d' & -> & Hd & Hr).
    by split_and!.
  - intros (Hd & -> & ->). unfold DecodeFromArray.
    rewrite (Decode_loop_encode DO_STRICT ltac:(done) d)
      by (done || lia || (pose proof (length_Encode_ge d); lia)).
    cbn [mbind option_bind]. by rewrite Nat.eqb_refl, andb_false_r.
Qed.

(** Whatever the text and the flags, the decoder ends, stays inside the text and
    produces bytes, at most three for every four characters and two more. *)
Theorem decode_total text flags :
  exists ok d used, DecodeFromArray text flags = Some (ok, d, used) /\
    (used <= length text)%nat /\ is_bytes d /\ (4 * length d <= 3 * length text + 8)%nat.
Proof.
  destruct (Decode_loop_total flags text (S (length text)) 0 [] true) as (r & p & ok & E & H1 & H2 & H3);
    [lia|lia|constructor|].
  unfold DecodeFromArray. rewrite E. cbn. do 3 eexists. split; [done|]. split_and!; auto.
  rewrite Nat.sub_0_r in H3. cbn in H3. lia.
Qed.

(** ** Concrete runs *)
Lemma base64_roundtrip_witness :
  EncodeFromArray [86; 90; 0; 255] = [86; 108; 111; 65; 47; 119; 61; 61] /\
  DecodeFromArray (EncodeFromArray [86; 90; 0; 255]) DO_STRICT =
    Some (true, [86; 90; 0; 255], length (EncodeFromArray [86; 90; 0; 255])).
Proof.
  split; [vm_compute; reflexivity|].
  apply base64_roundtrip; [apply (bool_decide_unpack _); vm_compute; exact I|vm_compute; congruence].
Defined.
Lemma strict_decode_canonical_witness :
  let text := [86; 108; 111; 65] in
  DecodeFromArray text DO_STRICT = Some (true, [86; 90; 0], 4%nat) <->
  is_bytes [86; 90; 0] /\ text = EncodeFromArray [86; 90; 0] /\ 4%nat = length text.
Proof. apply strict_decode_canonical. apply (bool_decide_unpack _). vm_compute. exact I. Defined.
