(* ===== verification/Sha1.v ===== *)
(** * base/sha1.cpp and base/helpmethods.cpp: SHA-1, HMAC and small helpers

    The hash as the code computes it (words of the host in a block of sixteen that is
    overwritten as the rounds go, data that arrives in pieces, the bit count in two
    words) against the definition of FIPS 180; [HmacSha1] against that of
    RFC 2104.  [sizeof(size_t)] is 4 or 8; lengths are [nat]. *)
From Stdlib Require Import String.
From S2P Require Import Prelude Text ByteOrder Base64.

(** ** The hash of the standard *)
Module Fips.
Definition ROTL (n x : Z) : Z := u32 (Z.lor (Z.shiftl x n) (Z.shiftr x (32 - n))).
Definition Ch (x y z : Z) : Z := Z.lxor (Z.land x y) (Z.land (Z.lnot x) z).
Definition Parity (x y z : Z) : Z := Z.lxor (Z.lxor x y) z.
Definition Maj (x y z : Z) : Z := Z.lxor (Z.lxor (Z.land x y) (Z.land x z)) (Z.land y z).
Definition f (t : nat) : Z -> Z -> Z -> Z :=
  if (t <? 20)%nat then Ch else if (t <? 40)%nat then Parity else if (t <? 60)%nat then Maj else Parity.
Definition K (t : nat) : Z :=
  if (t <? 20)%nat then 0x5A827999 else if (t <? 40)%nat then 0x6ED9EBA1
  else if (t <? 60)%nat then 0x8F1BBCDC else 0xCA62C1D6.
Definition H0 : list Z := [0x67452301; 0xEFCDAB89; 0x98BADCFE; 0x10325476; 0xC3D2E1F0].
(** The words of the schedule after those in [W]. *)
Definition next_word (W : list Z) (t : nat) : Z :=
  ROTL 1 (Z.lxor (Z.lxor (Z.lxor (W !!! (t - 3)) (W !!! (t - 8))) (W !!! (t - 14))) (W !!! (t - 16)))%nat.
Fixpoint extend (n : nat) (W : list Z) : list Z :=
  match n with O => W | S n => extend n (W ++ [next_word W (length W)]) end.
Definition schedule (M : list Z) : list Z := extend 64 M.
Definition step (W : list Z) (r : Z * Z * Z * Z * Z) (t : nat) : Z * Z * Z * Z * Z :=
  let '(a, b, c, d, e) := r in
  (u32 (ROTL 5 a + f t b c d + e + K t + W !!! t), a, ROTL 30 b, c, d).
Fixpoint words (n : nat) (m : list Z) : list Z :=
  match n with O => [] | S n => be_val (take 4 m) :: words n (drop 4 m) end.
Definition compress (H : list Z) (block : list Z) : list Z :=
  let '(a, b, c, d, e) :=
    foldl (step (schedule (words 16 block))) (H !!! 0, H !!! 1, H !!! 2, H !!! 3, H !!! 4)%nat (seq 0 80) in
  [u32 (H !!! 0%nat + a); u32 (H !!! 1%nat + b); u32 (H !!! 2%nat + c); u32 (H !!! 3%nat + d); u32 (H !!! 4%nat + e)].
Fixpoint hash (n : nat) (H : list Z) (m : list Z) : list Z :=
  match n with O => H | S n => hash n (compress H (take 64 m)) (drop 64 m) end.
Definition padding (l : nat) : list Z :=
  [0x80] ++ replicate ((119 - l mod 64) mod 64)%nat 0 ++ be_bytes 8 (8 * Z.of_nat l).
Definition sha1 (m : list Z) : list Z :=
  let p := m ++ padding (length m) in be_words 4 (hash (length p / 64)%nat H0 p).
End Fips.
Import Fips (H0, hash, sha1).

(** ** The rounds of the code *)
Section transform.
Context {HO : Host}.

Definition rol (value bits : Z) : Z := Z.lor (u32 (Z.shiftl value bits)) (Z.shiftr value (32 - bits)).
(** [block->l], the words of the machine in the 64 bytes. *)
Fixpoint load (n : nat) (c : list Z) : list Z :=
  match n with O => [] | S n => host_value (take 4 c) :: load n (drop 4 c) end.
Definition blk0 (i : nat) (l : list Z) : Z * list Z :=
  if host_big then (l !!! i, l)
  else
    let x := Z.lor (Z.land (rol (l !!! i) 24) 0xFF00FF00) (Z.land (rol (l !!! i) 8) 0x00FF00FF) in
    (x, <[i := x]> l).
Definition at15 (l : list Z) (i : nat) : Z := l !!! Nat.land i 15.
Definition blk (i : nat) (l : list Z) : Z * list Z :=
  let x := rol (Z.lxor (Z.lxor (Z.lxor (at15 l (i + 13)) (at15 l (i + 8))) (at15 l (i + 2))) (at15 l i)) 1 in
  (x, <[Nat.land i 15 := x]> l).
(** A round works on five of the variables [a] to [e], which are the cells of an array
    here. *)
Definition round_state : Type := list Z * list Z.
Definition R (word : nat -> list Z -> Z * list Z) (mix : Z -> Z -> Z -> Z) (k : Z)
    (v w x y z i : nat) (s : round_state) : round_state :=
  let '(r, l) := s in
  let '(b, l) := word i l in
  let r := <[z := u32 (r !!! z + (mix (r !!! w) (r !!! x) (r !!! y) + b + k + rol (r !!! v) 5))]> r in
  (<[w := rol (r !!! w) 30]> r, l).
Definition choose (w x y : Z) : Z := Z.lxor (Z.land w (Z.lxor x y)) y.
Definition parity (w x y : Z) : Z := Z.lxor (Z.lxor w x) y.
Definition majority (w x y : Z) : Z := Z.lor (Z.land (Z.lor w x) y) (Z.land w x).
Definition R0 := R blk0 choose 0x5A827999.
Definition R1 := R blk choose 0x5A827999.
Definition R2 := R blk parity 0x6ED9EBA1.
Definition R3 := R blk majority 0x8F1BBCDC.
Definition R4 := R blk parity 0xCA62C1D6.
Local Abbreviation a := 0%nat.
Local Abbreviation b := 1%nat.
Local Abbreviation c := 2%nat.
Local Abbreviation d := 3%nat.
Local Abbreviation e := 4%nat.
Definition rounds : list (round_state -> round_state) := [
  R0 a b c d e 0; R0 e a b c d 1; R0 d e a b c 2; R0 c d e a b 3; R0 b c d e a 4;
  R0 a b c d e 5; R0 e a b c d 6; R0 d e a b c 7; R0 c d e a b 8; R0 b c d e a 9;
  R0 a b c d e 10; R0 e a b c d 11; R0 d e a b c 12; R0 c d e a b 13; R0 b c d e a 14;
  R0 a b c d e 15; R1 e a b c d 16; R1 d e a b c 17; R1 c d e a b 18; R1 b c d e a 19;
  R2 a b c d e 20; R2 e a b c d 21; R2 d e a b c 22; R2 c d e a b 23; R2 b c d e a 24;
  R2 a b c d e 25; R2 e a b c d 26; R2 d e a b c 27; R2 c d e a b 28; R2 b c d e a 29;
  R2 a b c d e 30; R2 e a b c d 31; R2 d e a b c 32; R2 c d e a b 33; R2 b c d e a 34;
  R2 a b c d e 35; R2 e a b c d 36; R2 d e a b c 37; R2 c d e a b 38; R2 b c d e a 39;
  R3 a b c d e 40; R3 e a b c d 41; R3 d e a b c 42; R3 c d e a b 43; R3 b c d e a 44;
  R3 a b c d e 45; R3 e a b c d 46; R3 d e a b c 47; R3 c d e a b 48; R3 b c d e a 49;
  R3 a b c d e 50; R3 e a b c d 51; R3 d e a b c 52; R3 c d e a b 53; R3 b c d e a 54;
  R3 a b c d e 55; R3 e a b c d 56; R3 d e a b c 57; R3 c d e a b 58; R3 b c d e a 59;
  R4 a b c d e 60; R4 e a b c d 61; R4 d e a b c 62; R4 c d e a b 63; R4 b c d e a 64;
  R4 a b c d e 65; R4 e a b c d 66; R4 d e a b c 67; R4 c d e a b 68; R4 b c d e a 69;
  R4 a b c d e 70; R4 e a b c d 71; R4 d e a b c 72; R4 c d e a b 73; R4 b c d e a 74;
  R4 a b c d e 75; R4 e a b c d 76; R4 d e a b c 77; R4 c d e a b 78; R4 b c d e a 79].
Definition SHA1Transform (state buffer : list Z) : list Z :=
  let '(r, _) := foldl (fun s f => f s) (state, load 16 buffer) rounds in
  zip_with (fun h x => u32 (h + x)) state r.
End transform.

(** ** Data in pieces *)
Record SHA1_CTX := mkCtx { state : list Z; count : Z * Z; buffer : list Z }.

Section context.
Context {HO : Host}.
(** What the buffer holds before is not looked at. *)
Definition SHA1Init (context : SHA1_CTX) : SHA1_CTX :=
  mkCtx [0x67452301; 0xEFCDAB89; 0x98BADCFE; 0x10325476; 0xC3D2E1F0] (0, 0) (buffer context).
(** [for (; i + 63 < input_len; i += 64)]; at most [input_len] turns. *)
Fixpoint update_loop (fuel : nat) (i : nat) (data : list Z) (state : list Z) : nat * list Z :=
  match fuel with
  | O => (i, state)
  | S fuel =>
    if (i + 63 <? length data)%nat
    then update_loop fuel (i + 64) data (SHA1Transform state (slice i 64 data)) else (i, state)
  end.
Definition SHA1Update (context : SHA1_CTX) (data : list Z) : SHA1_CTX :=
  let input_len := length data in
  let index := Z.to_nat (Z.land (Z.shiftr (count context).1 3) 63) in
  let low := u32 (Z.shiftl (Z.of_nat input_len) 3) in
  let count0 := u32 ((count context).1 + low) in
  let count1 := if count0 <? low then u32 ((count context).2 + 1) else (count context).2 in
  let count1 := u32 (count1 + u32 (Z.shiftr (Z.of_nat input_len) 29)) in
  if (63 <? index + input_len)%nat then
    let i := (64 - index)%nat in
    let buf := write_at index (take i data) (buffer context) in
    let '(i, st) := update_loop input_len i data (SHA1Transform (state context) buf) in
    mkCtx st (count0, count1) (write_at 0 (drop i data) buf)
  else mkCtx (state context) (count0, count1) (write_at index data (buffer context)).
(** [while ((context->count[0] & 504) != 448)]: at most 64 turns. *)
Fixpoint pad_loop (fuel : nat) (context : SHA1_CTX) : option SHA1_CTX :=
  match fuel with
  | O => None
  | S fuel =>
    if negb (Z.land (count context).1 504 =? 448) then pad_loop fuel (SHA1Update context [0]) else Some context
  end.
Definition SHA1_DIGEST_SIZE : nat := 20.
Definition finalcount_of (count : Z * Z) : list Z :=
  map (fun i : nat => u8 (Z.land (Z.shiftr (if (4 <=? i)%nat then count.1 else count.2) ((3 - Z.land (Z.of_nat i) 3) * 8)) 255)) (seq 0 8).
Definition digest_of (state : list Z) : list Z :=
  map (fun i : nat => u8 (Z.land (Z.shiftr (state !!! Nat.div i 4) ((3 - Z.land (Z.of_nat i) 3) * 8)) 255)) (seq 0 SHA1_DIGEST_SIZE).
(** The digest, and the context that was wiped.  [None] is a loop that does not end. *)
Definition SHA1Final (context : SHA1_CTX) : option (SHA1_CTX * list Z) :=
  let finalcount := finalcount_of (count context) in
  let context := SHA1Update context [0x80] in
  context ← pad_loop 64 context;
  let context := SHA1Update context finalcount in
  let digest := digest_of (state context) in
  let buf := replicate 64 0 in
  Some (mkCtx (SHA1Transform (replicate 5 0) buf) (0, 0) buf, digest).
End context.

Section test_vectors.
#[local] Existing Instance little_endian.
Definition of_text := Text.bytes.
Definition digest_text (chunks : list (list Z)) : option (list Z) :=
  snd <$> SHA1Final (foldl SHA1Update (SHA1Init (mkCtx [] (5, 6) (replicate 64 77))) chunks).
Example sha1_abc : digest_text [of_text "abc"%string] = Some (be_words 4 [0xA9993E36; 0x4706816A; 0xBA3E2571; 0x7850C26C; 0x9CD0D89D]).
Proof. by vm_compute. Qed.
Example sha1_two_blocks :
  digest_text [of_text "abcdbcdecdefdefgefghfghighij"%string; of_text "hijkijkljklmklmnlmnomnopnopq"%string]
  = Some (be_words 4 [0x84983E44; 0x1C3BD26E; 0xBAAE4AA1; 0xF95129E5; 0xE54670F1]).
Proof. by vm_compute. Qed.
End test_vectors.

(** ** Words and rotations *)
Section words.
Context {HO : Host}.

Lemma testbit_byte b n : is_byte b -> 8 <= n -> Z.testbit b n = false.
Proof.
  intros Hb Hn. rewrite <- (Z.mod_small b (2 ^ 8)) by exact Hb. apply Z.mod_pow2_bits_high. lia.
Qed.
Lemma cons_lor b x : is_byte b -> b + 256 * x = Z.lor (Z.shiftl x 8) b.
Proof. intros Hb. rewrite lor_disjoint by (exact Hb || lia). lia. Qed.
Lemma cons_testbit b x n : is_byte b -> 0 <= n ->
  Z.testbit (b + 256 * x) n = if n <? 8 then Z.testbit b n else Z.testbit x (n - 8).
Proof.
  intros Hb Hn. rewrite cons_lor by done. rewrite Z.lor_spec, Z.shiftl_spec by done.
  destruct (Z.ltb_spec n 8); [by rewrite Z.testbit_neg_r by lia|by rewrite (testbit_byte b n), orb_false_r by (done || lia)].
Qed.
Lemma land_byte b c : is_byte b -> is_byte (Z.land b c).
Proof.
  intros Hb. assert (0 <= Z.land b c) by (apply Z.land_nonneg; left; apply Hb). split; [done|].
  rewrite <- (Z.mod_small b (2 ^ 8)), <- Z.land_ones, <- Z.land_assoc, (Z.land_comm (Z.ones 8)), Z.land_assoc, Z.land_ones by (exact Hb || lia).
  by apply Z.mod_pos_bound.
Qed.
Lemma lor_byte b c : is_byte b -> is_byte c -> is_byte (Z.lor b c).
Proof.
  intros Hb Hc. split; [apply Z.lor_nonneg; split; [apply Hb|apply Hc]|].
  apply Z.log2_lt_cancel. rewrite Z.log2_pow2, Z.log2_lor by (apply Hb || apply Hc || lia).
  assert (forall z, is_byte z -> Z.log2 z < 8) as H; [|apply Z.max_lub_lt; auto].
  intros z Hz. destruct (decide (z = 0)) as [->|]; [done|]. destruct Hz. apply Z.log2_lt_pow2; lia.
Qed.
Lemma land_cons b c x y : is_byte b -> is_byte c -> Z.land (b + 256 * x) (c + 256 * y) = Z.land b c + 256 * Z.land x y.
Proof.
  intros Hb Hc. apply Z.bits_inj'. intros n Hn. rewrite Z.land_spec, !cons_testbit by auto using land_byte.
  destruct (n <? 8); by rewrite Z.land_spec.
Qed.
Lemma lor_cons b c x y : is_byte b -> is_byte c -> Z.lor (b + 256 * x) (c + 256 * y) = Z.lor b c + 256 * Z.lor x y.
Proof.
  intros Hb Hc. apply Z.bits_inj'. intros n Hn. rewrite Z.lor_spec, !cons_testbit by auto using lor_byte.
  destruct (n <? 8); by rewrite Z.lor_spec.
Qed.
(** Turning the bytes of a word around with two rotations and two masks. *)
Lemma byte_swap l : is_bytes l -> length l = 4%nat ->
  Z.lor (Z.land (rol (le_val l) 24) 0xFF00FF00) (Z.land (rol (le_val l) 8) 0x00FF00FF) = be_val l.
Proof.
  destruct l as [|b0 [|b1 [|b2 [|b3 [|]]]]]; try done. intros H _.
  repeat (apply Forall_cons_1 in H as [? H]). unfold be_val. cbn [reverse rev_append app le_val].
  assert (E1 : rol (b0 + 256 * (b1 + 256 * (b2 + 256 * (b3 + 256 * 0)))) 24 = b1 + 256 * (b2 + 256 * (b3 + 256 * (b0 + 256 * 0)))).
  { unfold rol. rewrite Z.shiftl_mul_pow2, Z.shiftr_div_pow2 by lia. replace (32 - 24) with 8 by lia.
    replace (u32 _) with (b0 * 2 ^ 24) by word_lia. rewrite lor_add_disjoint; word_lia. }
  assert (E2 : rol (b0 + 256 * (b1 + 256 * (b2 + 256 * (b3 + 256 * 0)))) 8 = b3 + 256 * (b0 + 256 * (b1 + 256 * (b2 + 256 * 0)))).
  { unfold rol. rewrite Z.shiftl_mul_pow2, Z.shiftr_div_pow2 by lia. replace (32 - 8) with 24 by lia.
    replace (u32 _) with ((b0 + 256 * (b1 + 256 * b2)) * 2 ^ 8) by word_lia. rewrite lor_add_disjoint; word_lia. }
  rewrite E1, E2. change 0xFF00FF00 with (0 + 256 * (255 + 256 * (0 + 256 * (255 + 256 * 0)))).
  change 0x00FF00FF with (255 + 256 * (0 + 256 * (255 + 256 * (0 + 256 * 0)))).
  assert (is_byte 0) by done. assert (is_byte 255) by done.
  rewrite !land_cons by done. rewrite !lor_cons by auto using land_byte.
  assert (M : forall b, is_byte b -> Z.land b 255 = b) by (intros b Hb; change 255 with (Z.ones 8); rewrite Z.land_ones by lia; by apply Z.mod_small).
  rewrite !M, !Z.land_0_r, !Z.lor_0_l, !Z.lor_0_r by done. reflexivity.
Qed.
Lemma load_words n : forall c, load n c = map host_value (map (fun i => slice (4 * i) 4 c) (seq 0 n)).
Proof.
  induction n as [|n IH]; intros c; [done|]. cbn [load seq map]. f_equal. rewrite IH, <- seq_shift, !map_map.
  apply map_ext. intros i. unfold slice. rewrite drop_drop. do 3 f_equal. lia.
Qed.
Lemma words_slices n : forall c, Fips.words n c = map be_val (map (fun i => slice (4 * i) 4 c) (seq 0 n)).
Proof.
  induction n as [|n IH]; intros c; [done|]. cbn [Fips.words seq map]. f_equal. rewrite IH, <- seq_shift, !map_map.
  apply map_ext. intros i. unfold slice. rewrite drop_drop. do 3 f_equal. lia.
Qed.
Lemma length_load n c : length (load n c) = n.
Proof. by rewrite load_words, !length_map, length_seq. Qed.
Lemma length_words n c : length (Fips.words n c) = n.
Proof. by rewrite words_slices, !length_map, length_seq. Qed.
Lemma load_lookup c i : (i < 16)%nat -> load 16 c !!! i = host_value (slice (4 * i) 4 c).
Proof.
  intros Hi. rewrite load_words. apply list_lookup_total_correct. rewrite !list_lookup_fmap, lookup_seq_lt by done. done.
Qed.
Lemma words_lookup c i : (i < 16)%nat -> Fips.words 16 c !!! i = be_val (slice (4 * i) 4 c).
Proof.
  intros Hi. rewrite words_slices. apply list_lookup_total_correct. rewrite !list_lookup_fmap, lookup_seq_lt by done. done.
Qed.
(** The word the code takes from the memory is that of the standard. *)
Lemma blk0_word c i l : is_bytes c -> length c = 64%nat -> (i < 16)%nat -> l !!! i = load 16 c !!! i -> length l = 16%nat ->
  blk0 i l = (Fips.words 16 c !!! i, <[i := Fips.words 16 c !!! i]> l).
Proof.
  intros Hc Hl Hi El Hn. unfold blk0. rewrite El, load_lookup, words_lookup by done.
  assert (Hs : length (slice (4 * i) 4 c) = 4%nat) by (apply length_slice; lia).
  assert (Hb : is_bytes (slice (4 * i) 4 c)) by (unfold slice; auto with vz).
  assert (Ei : l !! i = Some (host_value (slice (4 * i) 4 c))).
  { rewrite <- load_lookup, <- El by done. apply list_lookup_lookup_total_lt. lia. }
  clear El. unfold host_value in *. destruct host_big; [by rewrite list_insert_id|by rewrite byte_swap].
Qed.
End words.

(** ** The rounds compute the function of the standard *)
Section rounds.
Context {HO : Host}.

Lemma rol_ROTL n x : 0 <= n <= 32 -> in_width 32 x -> rol x n = Fips.ROTL n x.
Proof.
  intros Hn Hx. unfold Fips.ROTL, rol, u32, wrap. rewrite <- !Z.land_ones, Z.land_lor_distr_l by lia. f_equal.
  rewrite Z.land_ones, Z.shiftr_div_pow2 by lia. unfold in_width in Hx. rewrite Z.mod_small; [done|].
  split; [apply Z.div_pos; lia|]. apply Z.le_lt_trans with x; [apply Z.div_le_upper_bound; nia|lia].
Qed.
Lemma ROTL_width n x : in_width 32 (Fips.ROTL n x).
Proof. apply u32_range. Qed.
Lemma choose_Ch x y z : choose x y z = Fips.Ch x y z.
Proof.
  apply Z.bits_inj'. intros n Hn. unfold choose, Fips.Ch. rewrite !Z.lxor_spec, !Z.land_spec, Z.lxor_spec, Z.lnot_spec by done.
  by destruct (Z.testbit x n), (Z.testbit y n), (Z.testbit z n).
Qed.
Lemma majority_Maj x y z : majority x y z = Fips.Maj x y z.
Proof.
  apply Z.bits_inj'. intros n Hn. unfold majority, Fips.Maj.
  rewrite !Z.lxor_spec, !Z.lor_spec, !Z.land_spec, Z.lor_spec by done.
  by destruct (Z.testbit x n), (Z.testbit y n), (Z.testbit z n).
Qed.
Lemma lxor_width x y : in_width 32 x -> in_width 32 y -> in_width 32 (Z.lxor x y).
Proof.
  intros Hx Hy. unfold in_width. rewrite <- (Z.mod_small x (2 ^ 32)), <- (Z.mod_small y (2 ^ 32)), <- !Z.land_ones by (done || lia).
  replace (Z.lxor _ _) with (Z.land (Z.lxor x y) (Z.ones 32)); [rewrite Z.land_ones by lia; by apply Z.mod_pos_bound|].
  apply Z.bits_inj'. intros n Hn. rewrite !Z.lxor_spec, !Z.land_spec, !Z.lxor_spec.
  by destruct (Z.testbit x n), (Z.testbit y n), (Z.testbit (Z.ones 32) n).
Qed.

Lemma extend_spec n : forall W, (16 <= length W)%nat -> let E := Fips.extend n W in
  length E = (length W + n)%nat /\ (forall t, (t < length W)%nat -> E !!! t = W !!! t) /\
  (forall t, (length W <= t < length W + n)%nat -> E !!! t = Fips.next_word E t).
Proof.
  induction n as [|n IH]; intros W HW; cbn [Fips.extend].
  { split; [lia|]. split; [done|]. intros t Ht. lia. }
  destruct (IH (W ++ [Fips.next_word W (length W)])) as (H1 & H2 & H3); [rewrite length_app; lia|].
  rewrite length_app in H1, H2, H3. cbn [length] in H1, H2, H3.
  assert (H4 : forall t, (t < length W)%nat -> Fips.extend n (W ++ [Fips.next_word W (length W)]) !!! t = W !!! t).
  { intros t Ht. rewrite H2 by lia. by rewrite lookup_total_app_l. }
  split; [lia|]. split; [exact H4|]. intros t Ht.
  destruct (decide (t = length W)) as [->|]; [|apply H3; lia].
  rewrite H2, list_lookup_total_middle by (done || lia). unfold Fips.next_word. by rewrite !H4 by lia.
Qed.
Lemma words_width c t : is_bytes c -> length c = 64%nat -> (t < 16)%nat -> in_width 32 (Fips.words 16 c !!! t).
Proof.
  intros Hc Hl Ht. rewrite words_lookup by done.
  assert (Hs : length (slice (4 * t) 4 c) = 4%nat) by (apply length_slice; lia).
  pose proof (be_val_bound (slice (4 * t) 4 c)) as Hb. rewrite Hs in Hb. apply Hb. unfold slice. auto with vz.
Qed.
Lemma schedule_word c : is_bytes c -> length c = 64%nat -> let W := Fips.schedule (Fips.words 16 c) in
  (forall t, (t < 16)%nat -> W !!! t = Fips.words 16 c !!! t) /\
  (forall t, (16 <= t < 80)%nat -> W !!! t = Fips.next_word W t) /\
  (forall t, (t < 80)%nat -> in_width 32 (W !!! t)).
Proof.
  intros Hc Hl W. destruct (extend_spec 64 (Fips.words 16 c)) as (_ & H1 & H2); [by rewrite length_words|].
  rewrite length_words in H1, H2. split; [exact H1|]. split; [exact H2|]. intros t Ht.
  destruct (decide (t < 16)%nat) as [H|H]; [unfold W, Fips.schedule; rewrite H1 by done; by apply words_width|].
  unfold W, Fips.schedule. rewrite H2 by lia. apply ROTL_width.
Qed.

(** The names a round works on: they go round backwards. *)
Definition name (j i : nat) : nat := ((4 * i + j) mod 5)%nat.
Definition round (i : nat) : round_state -> round_state :=
  (if (i <? 16)%nat then R0 else if (i <? 20)%nat then R1 else if (i <? 40)%nat then R2 else if (i <? 60)%nat then R3 else R4)
    (name 0 i) (name 1 i) (name 2 i) (name 3 i) (name 4 i) i.
Lemma rounds_eq : rounds = map round (seq 0 80).
Proof. reflexivity. Qed.

Definition variables (i : nat) (r : list Z) : Z * Z * Z * Z * Z :=
  (r !!! name 0 i, r !!! name 1 i, r !!! name 2 i, r !!! name 3 i, r !!! name 4 i).
Definition regs_ok (r : list Z) : Prop := length r = 5%nat /\ Forall (in_width 32) r.
Lemma name_S j i : name j (S i) = ((4 * (i mod 5) + 4 + j) mod 5)%nat.
Proof.
  unfold name. pose proof (Nat.div_mod_eq i 5). rewrite <- (Nat.Div0.mod_add (4 * (i mod 5) + 4 + j) (4 * (i / 5))). f_equal. lia.
Qed.
Lemma name_mod j i : name j i = ((4 * (i mod 5) + j) mod 5)%nat.
Proof.
  unfold name. pose proof (Nat.div_mod_eq i 5). rewrite <- (Nat.Div0.mod_add (4 * (i mod 5) + j) (4 * (i / 5))). f_equal. lia.
Qed.
Lemma sum_order p q b k t : p + (q + b + k + t) = t + q + p + k + b.
Proof. lia. Qed.
Lemma R_step word mix k i r l b l' : regs_ok r -> word i l = (b, l') ->
  let '(r', l'') := R word mix k (name 0 i) (name 1 i) (name 2 i) (name 3 i) (name 4 i) i (r, l) in
  let '(v, w, x, y, z) := variables i r in
  variables (S i) r' = (u32 (Fips.ROTL 5 v + mix w x y + z + k + b), v, Fips.ROTL 30 w, x, y) /\ regs_ok r' /\ l'' = l'.
Proof.
  intros [Hl Hr] Hb. unfold R. rewrite Hb. unfold variables. rewrite !name_S, !name_mod.
  destruct r as [|r0 [|r1 [|r2 [|r3 [|r4 [|]]]]]]; try done.
  repeat match goal with H : Forall _ (_ :: _) |- _ => apply Forall_cons_1 in H as [? H] end.
  assert (Hm : (i mod 5 < 5)%nat) by (by apply Nat.mod_upper_bound). revert Hm. generalize (i mod 5)%nat. intros m Hm.
  destruct m as [|[|[|[|[|m]]]]]; [cbn -[u32 Z.add rol Fips.ROTL in_width]..|lia].
  all: split; [rewrite !rol_ROTL by (done || lia); by rewrite sum_order|].
  all: split; [split; [done|]|done].
  all: rewrite !rol_ROTL by (done || lia); repeat apply Forall_cons_2; auto using u32_range, ROTL_width, Forall_nil.
Qed.

(** After [i] rounds the block holds the last sixteen words of the schedule. *)
Definition block_ok (c : list Z) (i : nat) (l : list Z) : Prop :=
  length l = 16%nat /\
  (forall t, (t < i <= t + 16)%nat -> l !!! (t mod 16)%nat = Fips.schedule (Fips.words 16 c) !!! t) /\
  (forall t, (i <= t < 16)%nat -> l !!! t = load 16 c !!! t).
Lemma block_insert c i l : (i < 80)%nat -> block_ok c i l ->
  block_ok c (S i) (<[(i mod 16)%nat := Fips.schedule (Fips.words 16 c) !!! i]> l).
Proof.
  unfold block_ok. generalize (Fips.schedule (Fips.words 16 c)). intros W Hi (Hl & H1 & H2).
  split; [by rewrite length_insert|]. split.
  - intros t Ht. destruct (decide (t = i)) as [->|Hne].
    + apply list_lookup_total_insert_eq. rewrite Hl. by apply Nat.mod_upper_bound.
    + rewrite list_lookup_total_insert_ne; [apply H1; lia|]. intros E.
      pose proof (Nat.div_mod_eq i 16). pose proof (Nat.div_mod_eq t 16). lia.
  - intros t Ht. rewrite Nat.mod_small by lia. rewrite list_lookup_total_insert_ne by lia. apply H2. lia.
Qed.
Lemma nat_land_15 i : Nat.land i 15 = (i mod 16)%nat.
Proof. exact (Nat.land_ones i 4). Qed.
Lemma mod_16 i k : (16 <= i)%nat -> (k <= 16)%nat -> ((i + (16 - k)) mod 16 = (i - k) mod 16)%nat.
Proof.
  intros Hi Hk. replace (i + (16 - k))%nat with (i - k + 1 * 16)%nat by lia. apply Nat.Div0.mod_add.
Qed.
(** The word of round [i]. *)
Lemma block_word c i l : is_bytes c -> length c = 64%nat -> (i < 80)%nat -> block_ok c i l ->
  let w := Fips.schedule (Fips.words 16 c) !!! i in
  (if (i <? 16)%nat then blk0 i l else blk i l) = (w, <[(i mod 16)%nat := w]> l).
Proof.
  intros Hc Hlc Hi (Hl & H1 & H2). destruct (schedule_word c Hc Hlc) as (S1 & S2 & S3).
  destruct (Nat.ltb_spec i 16) as [H|H].
  - rewrite Nat.mod_small by done. rewrite S1 by done. apply blk0_word; try done. apply H2. lia.
  - unfold blk, at15. rewrite !nat_land_15.
    assert (E3 : ((i + 13) mod 16 = (i - 3) mod 16)%nat) by (apply (mod_16 i 3); lia).
    assert (E8 : ((i + 8) mod 16 = (i - 8) mod 16)%nat) by (apply (mod_16 i 8); lia).
    assert (E14 : ((i + 2) mod 16 = (i - 14) mod 16)%nat) by (apply (mod_16 i 14); lia).
    assert (E16 : ((i + 0) mod 16 = (i - 16) mod 16)%nat) by (apply (mod_16 i 16); lia). rewrite Nat.add_0_r in E16.
    rewrite E3, E8, E14, (H1 (i - 3)%nat), (H1 (i - 8)%nat), (H1 (i - 14)%nat) by lia.
    assert (E0 : l !!! (i mod 16)%nat = Fips.schedule (Fips.words 16 c) !!! (i - 16)%nat) by (rewrite E16; apply H1; lia).
    rewrite E0, rol_ROTL; [rewrite (S2 i) by lia; unfold Fips.next_word; reflexivity|lia|].
    apply lxor_width; [apply lxor_width; [apply lxor_width|]|]; apply S3; lia.
Qed.
Lemma round_step c i s : is_bytes c -> length c = 64%nat -> (i < 80)%nat -> regs_ok s.1 -> block_ok c i s.2 ->
  regs_ok (round i s).1 /\ block_ok c (S i) (round i s).2 /\
  variables (S i) (round i s).1 = Fips.step (Fips.schedule (Fips.words 16 c)) (variables i s.1) i.
Proof.
  intros Hc Hlc Hi Hr Hb. destruct s as [r l]. cbn [fst snd] in *.
  pose proof (block_word c i l Hc Hlc Hi Hb) as Hw. cbv zeta in Hw.
  set (w := Fips.schedule _ !!! i) in *. set (mix := Fips.f i).
  assert (E : exists word m, word i l = (w, <[(i mod 16)%nat := w]> l) /\ (forall x y z, m x y z = mix x y z) /\
    round i = R word m (Fips.K i) (name 0 i) (name 1 i) (name 2 i) (name 3 i) (name 4 i) i).
  { unfold round, mix, Fips.f, Fips.K.
    destruct (Nat.ltb_spec i 16); [|destruct (Nat.ltb_spec i 20); [|destruct (Nat.ltb_spec i 40); [|destruct (Nat.ltb_spec i 60)]]].
    - rewrite (proj2 (Nat.ltb_lt i 20)) by lia. exists blk0, choose. split_and!; [done|exact choose_Ch|done].
    - exists blk, choose. split_and!; [done|exact choose_Ch|done].
    - exists blk, parity. split_and!; done.
    - exists blk, majority. split_and!; [done|exact majority_Maj|done].
    - exists blk, parity. split_and!; done. }
  destruct E as (word & m & Ew & Em & ->). pose proof (R_step word m (Fips.K i) i r l w _ Hr Ew) as H.
  destruct (R _ _ _ _ _ _ _ _ _ _) as [r' l']. unfold variables at 1 in H. destruct H as (Hv & Hr' & ->). cbn [fst snd].
  split; [done|]. split; [by apply block_insert|]. rewrite Hv, Em. reflexivity.
Qed.
Lemma rounds_run c r : is_bytes c -> length c = 64%nat -> regs_ok r -> forall n, (n <= 80)%nat ->
  let s := foldl (fun s f => f s) (r, load 16 c) (map round (seq 0 n)) in
  regs_ok s.1 /\ block_ok c n s.2 /\
  variables n s.1 = foldl (Fips.step (Fips.schedule (Fips.words 16 c))) (variables 0 r) (seq 0 n).
Proof.
  intros Hc Hl Hr. induction n as [|n IH]; intros Hn.
  { split; [done|]. split; [|done]. split; [apply length_load|]. split; [intros t Ht; lia|done]. }
  rewrite seq_S, map_app, !foldl_app. destruct IH as (H1 & H2 & H3); [lia|]. cbn [map foldl Nat.add].
  rewrite <- H3. by apply round_step.
Qed.
Lemma SHA1Transform_compress H c : regs_ok H -> is_bytes c -> length c = 64%nat ->
  SHA1Transform H c = Fips.compress H c /\ regs_ok (SHA1Transform H c).
Proof.
  intros HH Hc Hl. destruct (rounds_run c H Hc Hl HH 80) as (H1 & _ & H3); [lia|].
  unfold SHA1Transform, Fips.compress. rewrite rounds_eq. destruct (foldl _ _ (map round _)) as [r l]. cbn [fst] in *.
  change (H !!! 0%nat, H !!! 1%nat, H !!! 2%nat, H !!! 3%nat, H !!! 4%nat) with (variables 0 H). rewrite <- H3.
  clear H3 Hc Hl. destruct HH as [HH _], H1 as [H1 _]. destruct H as [|h0 [|h1 [|h2 [|h3 [|h4 [|]]]]]]; try discriminate HH.
  destruct r as [|r0 [|r1 [|r2 [|r3 [|r4 [|]]]]]]; try discriminate H1.
  split; [reflexivity|]. split; [done|]. cbn [zip_with]. repeat apply Forall_cons_2; auto using u32_range, Forall_nil.
Qed.
End rounds.

(** ** Data that arrives in pieces *)
#[local] Opaque SHA1Transform Fips.compress.
Section streaming.
Context {HO : Host}.

Lemma hash_add n1 : forall n2 H m, hash (n1 + n2) H m = hash n2 (hash n1 H m) (drop (64 * n1) m).
Proof.
  induction n1 as [|n1 IH]; intros n2 H m; [done|]. cbn [Nat.add hash]. rewrite IH, drop_drop. do 2 f_equal. lia.
Qed.
Lemma hash_prefix n : forall H m d, (64 * n <= length m)%nat -> hash n H (m ++ d) = hash n H m.
Proof.
  induction n as [|n IH]; intros H m d Hn; [done|]. cbn [hash].
  rewrite take_app_le, drop_app_le by lia. apply IH. rewrite length_drop. lia.
Qed.
Lemma hash_ok n : forall H m, regs_ok H -> is_bytes m -> (64 * n <= length m)%nat -> regs_ok (hash n H m).
Proof.
  induction n as [|n IH]; intros H m HH Hm Hn; [done|]. cbn [hash]. apply IH; [|by apply is_bytes_drop|rewrite length_drop; lia].
  destruct (SHA1Transform_compress H (take 64 m)) as [<- ?]; [done|by apply is_bytes_take|rewrite length_take; lia|done].
Qed.
Lemma H0_ok : regs_ok H0.
Proof. split; [done|]. repeat apply Forall_cons_2; try apply Forall_nil; by split. Qed.
Lemma update_loop_spec fuel : forall i data st, is_bytes data -> regs_ok st -> (i <= length data)%nat -> ((length data - i) / 64 <= fuel)%nat ->
  let k := ((length data - i) / 64)%nat in
  update_loop fuel i data st = ((i + 64 * k)%nat, hash k st (drop i data)).
Proof.
  induction fuel as [|fuel IH]; intros i data st Hd Hs Hi Hf k.
  { assert (k = 0)%nat as -> by (by apply Nat.le_0_r in Hf). cbn. by rewrite Nat.add_0_r. }
  cbn [update_loop]. destruct (Nat.ltb_spec (i + 63) (length data)) as [H|H].
  - assert (Hk : k = S ((length data - (i + 64)) / 64)).
    { unfold k. replace (length data - i)%nat with (length data - (i + 64) + 1 * 64)%nat by lia. rewrite Nat.div_add by lia. lia. }
    destruct (SHA1Transform_compress st (slice i 64 data)) as [E Hs']; [done|unfold slice; auto with vz|apply length_slice; lia|].
    fold k in Hf. rewrite Hk. cbn [hash]. rewrite (IH (i + 64)%nat data) by (exact Hd || exact Hs' || lia).
    rewrite E, drop_drop. unfold slice. f_equal. lia.
  - assert (k = 0)%nat as -> by (apply Nat.div_small; lia). cbn. by rewrite Nat.add_0_r.
Qed.

(** The context after [m]. *)
Record ctx_ok (context : SHA1_CTX) (m : list Z) : Prop := {
  ctx_state : state context = hash (length m / 64) H0 m;
  ctx_count : count context = (u32 (8 * Z.of_nat (length m)), u32 (8 * Z.of_nat (length m) / 2 ^ 32));
  ctx_buffer : length (buffer context) = 64%nat;
  ctx_rest : take (length m mod 64) (buffer context) = drop (64 * (length m / 64)) m }.
Lemma index_of_count context m : ctx_ok context m ->
  Z.to_nat (Z.land (Z.shiftr (count context).1 3) 63) = (length m mod 64)%nat.
Proof.
  intros [_ -> _ _]. cbn [fst]. rewrite Z.shiftr_div_pow2 by lia. change 63 with (Z.ones 6). rewrite Z.land_ones by lia.
  change (2 ^ 6) with 64. change (2 ^ 3) with 8. apply Nat2Z.inj. rewrite Nat2Z.inj_mod, Z2Nat.id by (apply Z.mod_pos_bound; lia).
  generalize (Z.of_nat (length m)). intros z. word_lia.
Qed.
Lemma count_step x y : 0 <= x -> 0 <= y ->
  let low := u32 (Z.shiftl y 3) in
  let c0 := u32 (u32 (8 * x) + low) in
  let c1 := if c0 <? low then u32 (u32 (8 * x / 2 ^ 32) + 1) else u32 (8 * x / 2 ^ 32) in
  c0 = u32 (8 * (x + y)) /\ u32 (c1 + u32 (Z.shiftr y 29)) = u32 (8 * (x + y) / 2 ^ 32).
Proof.
  intros Hx Hy low c0 c1. assert (El : low = u32 (8 * y)) by (unfold low; rewrite Z.shiftl_mul_pow2 by lia; f_equal; lia).
  assert (Ec : c0 = u32 (8 * (x + y))) by (unfold c0; rewrite El; word_lia). split; [done|].
  rewrite Z.shiftr_div_pow2 by lia.
  assert (E : 8 * (x + y) / 2 ^ 32 = 8 * x / 2 ^ 32 + y / 2 ^ 29 + (if c0 <? low then 1 else 0)).
  { rewrite Ec, El. destruct (Z.ltb_spec (u32 (8 * (x + y))) (u32 (8 * y))); change (2 ^ 29) with 536870912; word_lia. }
  rewrite E. subst c1. destruct (c0 <? low); generalize (8 * x / 2 ^ 32) (y / 2 ^ 29); intros; word_lia.
Qed.
Lemma SHA1Update_ok context m data : ctx_ok context m -> is_bytes m -> is_bytes data -> ctx_ok (SHA1Update context data) (m ++ data).
Proof.
  intros Hc Hm Hd. unfold SHA1Update. rewrite (index_of_count _ _ Hc). destruct Hc as [Hs Hn Hb Hr].
  set (r := (length m mod 64)%nat) in *. set (q := (length m / 64)%nat) in *.
  assert (Hq : (length m = 64 * q + r)%nat) by (apply Nat.div_mod_eq). assert (Hr64 : (r < 64)%nat) by (apply Nat.mod_upper_bound; lia).
  rewrite Hn. cbn [fst snd].
  destruct (count_step (Z.of_nat (length m)) (Z.of_nat (length data))) as [E0 E1]; [lia..|]. cbv zeta in E0, E1.
  rewrite E0 in E1 |- *. rewrite E1. rewrite <- Nat2Z.inj_add, <- length_app. clear E0 E1 Hn.
  assert (Hreg : regs_ok (hash q H0 m)) by (apply hash_ok; [apply H0_ok|done|lia]).
  destruct (Nat.ltb_spec 63 (r + length data)) as [H|H].
  - set (i := (64 - r)%nat). set (buf := write_at r (take i data) (buffer context)).
    assert (Ebuf : buf = drop (64 * q) m ++ take i data).
    { unfold buf, write_at. rewrite length_take, Nat.min_l by lia. rewrite (drop_ge (buffer context)) by lia. by rewrite app_nil_r, Hr. }
    assert (Etake : take 64 (drop (64 * q) (m ++ data)) = buf).
    { rewrite Ebuf, drop_app_le, take_app_ge by (rewrite ?length_drop; lia). f_equal.
      - rewrite length_drop. f_equal. lia. }
    assert (Lbuf : length buf = 64%nat) by (rewrite Ebuf, length_app, length_drop, length_take; lia).
    destruct (SHA1Transform_compress (state context) buf) as [E Hreg']; [by rewrite Hs|rewrite <- Etake; by apply is_bytes_take, is_bytes_drop, is_bytes_app|done|].
    rewrite update_loop_spec; [|done|done|lia|apply Nat.Div0.div_le_upper_bound; lia].
    set (k := ((length data - i) / 64)%nat).
    assert (Hk : (length data = i + 64 * k + (length data - i) mod 64)%nat) by (pose proof (Nat.div_mod_eq (length data - i) 64); unfold k; lia).
    assert (Hk64 : ((length data - i) mod 64 < 64)%nat) by (apply Nat.mod_upper_bound; lia).
    assert (Hdiv : (length (m ++ data) / 64 = q + (1 + k))%nat).
    { rewrite length_app. symmetry. apply (Nat.div_unique _ 64 _ ((length data - i) mod 64)); lia. }
    assert (Hmod : (length (m ++ data) mod 64 = (length data - i) mod 64)%nat).
    { rewrite length_app. symmetry. apply (Nat.mod_unique _ 64 (q + (1 + k))); lia. }
    constructor; cbn [state count buffer].
    + rewrite Hdiv, !hash_add, E, Hs, hash_prefix by lia. cbn [hash]. rewrite Etake. f_equal.
      rewrite drop_drop, drop_app_ge by lia. f_equal. lia.
    + done.
    + by rewrite length_write_at; rewrite ?length_drop, Lbuf; [|lia].
    + rewrite Hmod, Hdiv. unfold write_at. rewrite take_0, app_nil_l, take_app_length' by (rewrite length_drop; lia).
      rewrite drop_app_ge by lia. f_equal. lia.
  - assert (Hdiv : (length (m ++ data) / 64 = q)%nat) by (rewrite length_app; symmetry; apply (Nat.div_unique _ 64 _ (r + length data)); lia).
    assert (Hmod : (length (m ++ data) mod 64 = r + length data)%nat) by (rewrite length_app; symmetry; apply (Nat.mod_unique _ 64 q); lia).
    constructor; cbn [state count buffer].
    + rewrite Hdiv, hash_prefix by lia. done.
    + done.
    + rewrite length_write_at; lia.
    + rewrite Hmod, Hdiv. unfold write_at. rewrite Hr, drop_app_le by lia. rewrite app_assoc.
      apply take_app_length'. rewrite length_app, length_drop. lia.
Qed.

Lemma update_all_ok chunks : forall context m, ctx_ok context m -> is_bytes m -> Forall is_bytes chunks ->
  ctx_ok (foldl SHA1Update context chunks) (m ++ concat chunks).
Proof.
  induction chunks as [|d chunks IH]; intros context m Hc Hm Hd; [by rewrite app_nil_r|].
  apply Forall_cons_1 in Hd as [Hd Hds]. cbn [foldl concat]. rewrite app_assoc.
  apply IH; [by apply SHA1Update_ok|by apply is_bytes_app|done].
Qed.
Lemma SHA1Init_ok context : length (buffer context) = 64%nat -> ctx_ok (SHA1Init context) [].
Proof. intros H. by constructor. Qed.
(** The test of the loop that pads: 56 bytes are in the buffer. *)
Lemma padded_test context m : ctx_ok context m -> (Z.land (count context).1 504 =? 448) = (length m mod 64 =? 56)%nat.
Proof.
  intros Hc. assert (E : Z.land (count context).1 504 = 8 * Z.of_nat (length m mod 64)).
  { rewrite <- (index_of_count context m Hc). rewrite Z2Nat.id by (apply Z.land_nonneg; right; lia).
    rewrite (Z.mul_comm 8). change 504 with (Z.shiftl 63 3). change 8 with (2 ^ 3). rewrite <- Z.shiftl_mul_pow2 by lia.
    apply Z.bits_inj'. intros n Hn. rewrite Z.land_spec. destruct (Z.ltb_spec n 3).
    - rewrite !Z.shiftl_spec_low by done. apply andb_false_r.
    - rewrite !Z.shiftl_spec, Z.land_spec, Z.shiftr_spec by lia. do 2 f_equal. lia. }
  rewrite E. destruct (Nat.eqb_spec (length m mod 64) 56) as [->|]; [done|]. apply Z.eqb_neq. lia.
Qed.
Lemma pad_loop_ok fuel : forall context m, ctx_ok context m -> is_bytes m -> ((120 - length m mod 64) mod 64 < fuel)%nat ->
  exists context', pad_loop fuel context = Some context' /\ ctx_ok context' (m ++ replicate ((120 - length m mod 64) mod 64) 0).
Proof.
  induction fuel as [|fuel IH]; intros context m Hc Hm Hf; [lia|]. cbn [pad_loop]. rewrite (padded_test _ _ Hc).
  assert (Hr : (length m mod 64 < 64)%nat) by (by apply Nat.mod_upper_bound). set (r := (length m mod 64)%nat) in *.
  destruct (Nat.eqb_spec r 56) as [->|Hne]; cbn [negb].
  { exists context. split; [done|]. cbn. by rewrite app_nil_r. }
  assert (E : (length (m ++ [0%Z]) mod 64 = S r mod 64)%nat).
  { rewrite length_app. cbn [length]. rewrite Nat.add_1_r. unfold r. by rewrite <- Nat.Div0.add_mod_idemp_r with (a := 1%nat). }
  assert (Hk : ((120 - r) mod 64 = S ((120 - S r mod 64) mod 64))%nat).
  { destruct (decide (r = 63)%nat) as [->|]; [done|]. rewrite (Nat.mod_small (S r)) by lia.
    destruct (decide (r < 56)%nat).
    - replace (120 - r)%nat with (56 - r + 1 * 64)%nat by lia. replace (120 - S r)%nat with (55 - r + 1 * 64)%nat by lia.
      rewrite !Nat.Div0.mod_add, !Nat.mod_small by lia. lia.
    - rewrite !Nat.mod_small by lia. lia. }
  destruct (IH (SHA1Update context [0]) (m ++ [0])) as (context' & E1 & Hc').
  - apply SHA1Update_ok; [done|done|by repeat constructor].
  - apply is_bytes_app. split; [done|by repeat constructor].
  - rewrite E. lia.
  - exists context'. split; [done|]. rewrite Hk. cbn [replicate]. rewrite E, <- app_assoc in Hc'. exact Hc'.
Qed.
Lemma byte_at z k : 0 <= k -> u8 (Z.land (Z.shiftr z k) 255) = u8 (z / 2 ^ k).
Proof. intros Hk. change 255 with (Z.ones 8). rewrite Z.land_ones, Z.shiftr_div_pow2 by lia. unfold u8, wrap. by rewrite Z.mod_mod. Qed.
Lemma be_bytes_4 z : be_bytes 4 z = [u8 (z / 2 ^ 24); u8 (z / 2 ^ 16); u8 (z / 2 ^ 8); u8 (z / 2 ^ 0)].
Proof.
  unfold be_bytes. cbn [le_bytes reverse rev_append]. change (reverse [?a; ?b; ?c; ?d]) with [d; c; b; a]. rewrite !Z.shiftr_shiftr, !Z.shiftr_div_pow2 by lia.
  by rewrite Z.div_1_r.
Qed.
Lemma be_bytes_8 z : be_bytes 8 z = be_bytes 4 (z / 2 ^ 32) ++ be_bytes 4 z.
Proof.
  rewrite !be_bytes_4, !Z.div_div by lia. unfold be_bytes. cbn [le_bytes]. rewrite !Z.shiftr_shiftr, !Z.shiftr_div_pow2 by lia.
  cbn [reverse rev_append app]. by rewrite Z.div_1_r.
Qed.
Lemma word_bytes z : map (fun i : nat => u8 (Z.land (Z.shiftr z ((3 - Z.land (Z.of_nat i) 3) * 8)) 255)) (seq 0 4) = be_bytes 4 z.
Proof.
  rewrite be_bytes_4. cbn [map seq]. change ((3 - Z.land (Z.of_nat 0) 3) * 8) with 24. change ((3 - Z.land (Z.of_nat 1) 3) * 8) with 16.
  change ((3 - Z.land (Z.of_nat 2) 3) * 8) with 8. change ((3 - Z.land (Z.of_nat 3) 3) * 8) with 0. by rewrite !byte_at by lia.
Qed.
Lemma finalcount_bytes z : 0 <= z -> finalcount_of (u32 z, u32 (z / 2 ^ 32)) = be_bytes 8 z.
Proof.
  intros Hz. assert (E : forall y, be_bytes 4 (u32 y) = be_bytes 4 y) by (intros y; exact (be_bytes_mod 4 y)).
  rewrite be_bytes_8, <- (E z), <- (E (z / 2 ^ 32)), <- !word_bytes. reflexivity.
Qed.
Lemma digest_bytes st : regs_ok st -> digest_of st = be_words 4 st.
Proof.
  intros [Hl _]. destruct st as [|h0 [|h1 [|h2 [|h3 [|h4 [|]]]]]]; try discriminate Hl.
  unfold be_words. cbn [map concat]. rewrite <- !word_bytes, app_nil_r. reflexivity.
Qed.
End streaming.

(** ** The digest *)
Section digest.
Context {HO : Host}.
Lemma SHA1Final_ok context m : ctx_ok context m -> is_bytes m ->
  exists context', SHA1Final context = Some (context', sha1 m).
Proof.
  intros Hc Hm. unfold SHA1Final.
  assert (Hc1 : ctx_ok (SHA1Update context [0x80]) (m ++ [0x80])) by (apply SHA1Update_ok; [done|done|by repeat constructor]).
  assert (Hm1 : is_bytes (m ++ [0x80])) by (apply is_bytes_app; split; [done|by repeat constructor]).
  assert (Hr : (length (m ++ [0x80%Z]) mod 64 < 64)%nat) by (by apply Nat.mod_upper_bound).
  assert (E : ((120 - length (m ++ [0x80%Z]) mod 64) mod 64 = (119 - length m mod 64) mod 64)%nat).
  { assert (Hl : (length m mod 64 < 64)%nat) by (by apply Nat.mod_upper_bound).
    rewrite length_app. cbn [length]. rewrite <- Nat.Div0.add_mod_idemp_l.
    destruct (decide (length m mod 64 = 63)%nat) as [->|]; [done|]. rewrite (Nat.mod_small (length m mod 64 + 1)) by lia. f_equal. lia. }
  destruct (pad_loop_ok 64 _ _ Hc1 Hm1) as (context2 & -> & Hc2); [by apply Nat.mod_upper_bound|]. rewrite E in Hc2.
  cbn [mbind option_bind]. eexists. f_equal. f_equal.
  set (z := replicate _ 0) in Hc2. assert (Hz : is_bytes z) by by apply Forall_replicate.
  assert (Hf : finalcount_of (count context) = be_bytes 8 (8 * Z.of_nat (length m))).
  { rewrite (ctx_count _ _ Hc). apply finalcount_bytes. lia. }
  rewrite Hf. set (lb := be_bytes 8 _).
  assert (Hm2 : is_bytes ((m ++ [0x80]) ++ z)) by by apply is_bytes_app.
  pose proof (SHA1Update_ok context2 _ lb Hc2 Hm2 (be_bytes_is_bytes 8 _)) as Hc3.
  assert (Ep : ((m ++ [0x80]) ++ z) ++ lb = m ++ Fips.padding (length m)) by (unfold Fips.padding; by rewrite <- !app_assoc).
  rewrite Ep in Hc3. rewrite digest_bytes, (ctx_state _ _ Hc3); [done|].
  rewrite (ctx_state _ _ Hc3). apply hash_ok; [apply H0_ok|rewrite <- Ep; apply is_bytes_app; split; [done|apply be_bytes_is_bytes]|].
  rewrite Nat.mul_comm. by apply Nat.Div0.div_mul_le || (pose proof (Nat.div_mod_eq (length (m ++ Fips.padding (length m))) 64); lia).
Qed.
Lemma length_sha1 m : is_bytes m -> length (sha1 m) = 20%nat /\ is_bytes (sha1 m).
Proof.
  intros Hm. assert (Hp : is_bytes (m ++ Fips.padding (length m))).
  { apply is_bytes_app. split; [done|]. apply is_bytes_app. split; [by repeat constructor|]. apply is_bytes_app.
    split; [by apply Forall_replicate|apply be_bytes_is_bytes]. }
  destruct (hash_ok (length (m ++ Fips.padding (length m)) / 64) H0 _ H0_ok Hp) as [Hl _].
  { pose proof (Nat.div_mod_eq (length (m ++ Fips.padding (length m))) 64). lia. }
  unfold sha1. rewrite length_be_words, Hl. split; [done|apply be_words_is_bytes].
Qed.

(** C33. However the data is cut into pieces, and whatever the context and its buffer
    held before, the digest is SHA-1 of FIPS 180 of all the data, on hosts of either
    byte order. *)
Theorem sha1_of_pieces context chunks : length (buffer context) = 64%nat -> Forall is_bytes chunks ->
  exists context', SHA1Final (foldl SHA1Update (SHA1Init context) chunks) = Some (context', sha1 (concat chunks)).
Proof.
  intros Hb Hc. apply SHA1Final_ok.
  - apply (update_all_ok chunks _ []); [by apply SHA1Init_ok|constructor|done].
  - induction Hc; [constructor|]. by apply is_bytes_app.
Qed.
End digest.

(** ** HMAC *)
Section hmac.
Context {HO : Host}.
(** [memxor]: [n] bytes. *)
Definition memxor (dest src : list Z) (n : nat) : list Z := zip_with Z.lxor (take n dest) (take n src) ++ drop n dest.
Definition IPAD : Z := 0x36.
Definition OPAD : Z := 0x5C.
(** One digest of two pieces; [context] is the local variable, uninitialised. *)
Definition hash_two (context : SHA1_CTX) (block data : list Z) : option (list Z) :=
  snd <$> SHA1Final (SHA1Update (SHA1Update (SHA1Init context) block) data).
Definition hash_with_key (inner outer : SHA1_CTX) (key_buf : list Z) (key_size : nat) (data : list Z) : option (list Z) :=
  innerhash ← hash_two inner (memxor (replicate 64 IPAD) key_buf key_size) data;
  hash_two outer (memxor (replicate 64 OPAD) key_buf key_size) innerhash.
Definition HmacSha1 (keyhash inner outer : SHA1_CTX) (key data : list Z) : option (list Z) :=
  let key_buf := replicate 64 0 in
  '(key_buf, key_size) ←
    (if (64 <? length key)%nat then
       '(_, optkeybuf) ← SHA1Final (SHA1Update (SHA1Init keyhash) key);
       Some (write_at 0 optkeybuf key_buf, 20%nat)
     else Some (write_at 0 key key_buf, length key));
  hash_with_key inner outer key_buf key_size data.
Definition HmacSha1ToBase64 (keyhash inner outer : SHA1_CTX) (key data : list Z) : option (list Z) :=
  EncodeFromArray <$> HmacSha1 keyhash inner outer key data.

(** RFC 2104. *)
Definition rfc2104_with (K data : list Z) : list Z :=
  let K := K ++ replicate (64 - length K) 0 in
  sha1 (map (Z.lxor 0x5C) K ++ sha1 (map (Z.lxor 0x36) K ++ data)).
Definition rfc2104 (key data : list Z) : list Z :=
  rfc2104_with (if (64 <? length key)%nat then sha1 key else key) data.

Lemma lxor_byte b c : is_byte b -> is_byte c -> is_byte (Z.lxor b c).
Proof.
  intros Hb Hc. unfold is_byte, in_width. replace (Z.lxor b c) with (Z.land (Z.lxor b c) (Z.ones 8)).
  { rewrite Z.land_ones by lia. by apply Z.mod_pos_bound. }
  apply Z.bits_inj'. intros n Hn. rewrite Z.land_spec, Z.lxor_spec. destruct (Z.ltb_spec n 8).
  - by rewrite Z.ones_spec_low, andb_true_r by lia.
  - by rewrite (testbit_byte b), (testbit_byte c), Z.ones_spec_high by (done || lia).
Qed.
Lemma memxor_pad p K : is_byte p -> is_bytes K -> (length K <= 64)%nat ->
  memxor (replicate 64 p) (write_at 0 K (replicate 64 0)) (length K) = map (Z.lxor p) (K ++ replicate (64 - length K) 0).
Proof.
  intros Hp HK Hl. unfold memxor, write_at.
  rewrite take_0, app_nil_l, take_app_length, take_replicate, drop_replicate, Nat.min_l, map_app by lia. f_equal.
  - clear. induction K as [|k K IH]; [done|]. cbn. by f_equal.
  - rewrite <- (Z.lxor_0_r p) at 1. symmetry. apply fmap_replicate.
Qed.
Lemma hash_two_ok context block data : length (buffer context) = 64%nat -> is_bytes block -> is_bytes data ->
  hash_two context block data = Some (sha1 (block ++ data)).
Proof.
  intros Hb H1 H2. unfold hash_two.
  destruct (SHA1Final_ok (SHA1Update (SHA1Update (SHA1Init context) block) data) (block ++ data)) as [c ->]; [|by apply is_bytes_app|done].
  apply SHA1Update_ok; [|done|done]. by apply (SHA1Update_ok _ [] block); [apply SHA1Init_ok|constructor|].
Qed.
Lemma hash_with_key_ok inner outer K data : length (buffer inner) = 64%nat -> length (buffer outer) = 64%nat ->
  is_bytes K -> (length K <= 64)%nat -> is_bytes data ->
  hash_with_key inner outer (write_at 0 K (replicate 64 0)) (length K) data = Some (rfc2104_with K data).
Proof.
  intros Hi Ho HK Hl Hd. unfold hash_with_key. rewrite !memxor_pad by done.
  assert (Hx : forall p, is_byte p -> is_bytes (map (Z.lxor p) (K ++ replicate (64 - length K) 0))).
  { intros p Hp. apply List.Forall_map, Forall_app. split; [|by apply Forall_replicate, lxor_byte].
    eapply List.Forall_impl; [|exact HK]. intros b. by apply lxor_byte. }
  rewrite hash_two_ok by (exact Hi || exact Hd || by apply Hx). cbn [mbind option_bind].
  apply hash_two_ok; [done|by apply Hx|]. apply length_sha1, is_bytes_app. split; [by apply Hx|done].
Qed.
(** [HmacSha1] is the keyed hash of RFC 2104 over SHA-1, for keys and data of any
    length; its text in Base64 has 28 characters. *)
Theorem hmac_is_rfc2104 keyhash inner outer key data :
  Forall (fun c => length (buffer c) = 64%nat) [keyhash; inner; outer] -> is_bytes key -> is_bytes data ->
  HmacSha1 keyhash inner outer key data = Some (rfc2104 key data) /\
  HmacSha1ToBase64 keyhash inner outer key data = Some (EncodeFromArray (rfc2104 key data)).
Proof.
  intros Hb Hk Hd. repeat (apply Forall_cons_1 in Hb as [? Hb]).
  assert (E : HmacSha1 keyhash inner outer key data = Some (rfc2104 key data)); [|unfold HmacSha1ToBase64; by rewrite E].
  unfold HmacSha1, rfc2104. destruct (Nat.ltb_spec 64 (length key)).
  - destruct (SHA1Final_ok (SHA1Update (SHA1Init keyhash) key) key) as [c ->];
      [apply (SHA1Update_ok _ [] key); [by apply SHA1Init_ok|constructor|done]|done|].
    cbn [mbind option_bind]. destruct (length_sha1 key Hk) as [Hl Hs].
    assert (Hl' : (length (sha1 key) <= 64)%nat) by (rewrite Hl; lia).
    pose proof (hash_with_key_ok inner outer (sha1 key) data H1 H2 Hs Hl' Hd) as E. rewrite Hl in E. exact E.
  - by apply hash_with_key_ok.
Qed.
End hmac.

Section demo.
#[local] Existing Instance little_endian.
Definition fresh_context : SHA1_CTX := mkCtx (replicate 5 77) (5, 6) (replicate 64 88).
Lemma sha1_of_pieces_witness :
  length (buffer fresh_context) = 64%nat /\ Forall is_bytes [[97]; [98; 99]] /\
  exists context', SHA1Final (foldl SHA1Update (SHA1Init fresh_context) [[97]; [98; 99]]) = Some (context', sha1 [97; 98; 99]).
Proof.
  assert (H : Forall is_bytes [[97]; [98; 99]]) by (repeat constructor; done).
  split; [done|]. split; [exact H|]. exact (sha1_of_pieces fresh_context [[97]; [98; 99]] eq_refl H).
Defined.
(** The second vector of RFC 2202. *)
Definition demo_key : list Z := Text.bytes "Jefe"%string.
Definition demo_data : list Z := Text.bytes "what do ya want for nothing?"%string.
Lemma hmac_is_rfc2104_witness :
  HmacSha1 fresh_context fresh_context fresh_context demo_key demo_data
  = Some (be_words 4 [0xeffcdf6a; 0xe5eb2fa2; 0xd27416d5; 0xf184df9c; 0x259a7c79]) /\
  HmacSha1 fresh_context fresh_context fresh_context demo_key demo_data = Some (rfc2104 demo_key demo_data).
Proof.
  assert (Hb : Forall (fun c => length (buffer c) = 64%nat) [fresh_context; fresh_context; fresh_context]) by (repeat constructor).
  assert (Hk : is_bytes demo_key) by (apply (bool_decide_unpack _); by vm_compute).
  assert (Hd : is_bytes demo_data) by (apply (bool_decide_unpack _); by vm_compute).
  destruct (hmac_is_rfc2104 fresh_context fresh_context fresh_context demo_key demo_data Hb Hk Hd) as [E _].
  split; [vm_compute; reflexivity|exact E].
Defined.
End demo.
