(* ===== verification/HelpMethods.v ===== *)
(** * base/helpmethods.cpp: texts for requests

    Time stamps, nonces, numbers and URLs as text; [HmacSha1] is in Sha1.v.  The
    clock, the broken-down time of the C library and [rand] are arguments. *)
From Stdlib Require Import String.
From S2P Require Import Prelude Text StringEncode TimeUtils.

(** [%04d]. *)
Definition print_04d (n : Z) : list Z :=
  let s := print_d n in
  if n <? 0 then 45 :: replicate (4 - length s) 48 ++ tail s else replicate (4 - length s) 48 ++ s.
Record tm := mkTm { tm_year : Z; tm_mon : Z; tm_mday : Z; tm_hour : Z; tm_min : Z; tm_sec : Z }.
Definition MAX_UTC_TIME_STR_SIZE : nat := 32.
(** [sprintf] into [temp_buf]: a longer text is written past its end. *)
Definition GetCurrentUTCTime (tt_tm : tm) : outcome (list Z) :=
  let text :=
    print_04d (tm_year tt_tm + 1900) ++ [45] ++ print_02d (tm_mon tt_tm + 1) ++ [45] ++ print_02d (tm_mday tt_tm) ++ [84]
    ++ print_02d (tm_hour tt_tm) ++ [58] ++ print_02d (tm_min tt_tm) ++ [58] ++ print_02d (tm_sec tt_tm) ++ [90] in
  if (length text <? MAX_UTC_TIME_STR_SIZE)%nat then Done text else Undefined.

(** [while (n)]: at most one turn for each of the 20 digits of a uint64. *)
Fixpoint Uint64ToString_loop (fuel : nat) (n : Z) (str : list Z) : option (list Z) :=
  if n =? 0 then Some str
  else match fuel with
       | O => None
       | S fuel => Uint64ToString_loop fuel (n / 10) (str ++ [n mod 10 + 48])
       end.
Definition Uint64ToString (n : Z) (str : list Z) : option (list Z) :=
  if n =? 0 then Some (str ++ [48]) else Uint64ToString_loop 20 n str.
(** [rands] are the numbers [rand] gives after the seed was set. *)
Definition GetRandNumString (rands : list Z) : list Z := map (fun r => Z.rem r 10 + 48) rands.
Definition GetSignatureNonce (time : Z) (rands : list Z) : option (list Z) :=
  signature ← Uint64ToString (u64 time) [];
  Some (signature ++ GetRandNumString (take 4 rands)).
Definition GetUnixTimeStamp (nanos : Z) : Z := u32 (nanos / 1000).

Definition HEX : list Z := Text.bytes "0123456789ABCDEF"%string.
Definition TO_HEX (x : Z) : Z := if x <? 16 then HEX !!! Z.to_nat x else 33.
Definition IsAlNum (c : Z) : bool :=
  ((65 <=? c) && (c <=? 90)) || ((97 <=? c) && (c <=? 122)) || ((48 <=? c) && (c <=? 57))
  || (c =? 45) || (c =? 95) || (c =? 46) || (c =? 126).
Definition url_byte (ch : Z) : list Z :=
  if IsAlNum ch then [ch]
  else if 128 <=? ch then [37; TO_HEX (Z.land (Z.shiftr ch 4) 0xF); TO_HEX (Z.land ch 0xF)]
  else [37; TO_HEX (Z.land (Z.shiftr ch 4) 0xF); TO_HEX (Z.land ch 0xF)].
(** A negative [char] is no letter or digit, so bytes can be compared unsigned. *)
Definition URLEncode (str : list Z) : list Z := flat_map url_byte str.

Inductive HttpMethod := HTTP_GET | HTTP_POST.
Definition HttpMethodToStr (hm : HttpMethod) : string :=
  match hm with HTTP_GET => "GET" | HTTP_POST => "POST" end.

(** ** URLs *)
Lemma url_byte_spec c : is_byte c ->
  (IsAlNum c = true /\ url_byte c = [c] /\ c <> 37 /\ c <> 43) \/
  (exists c1 c2, url_byte c = [37; c1; c2] /\ pair_value c1 c2 = Some c).
Proof.
  intros Hc.
  assert (H : forallb (fun c => if IsAlNum c then bool_decide (url_byte c = [c] /\ c <> 37 /\ c <> 43)
    else match url_byte c with [p; c1; c2] => bool_decide (p = 37 /\ pair_value c1 c2 = Some c) | _ => false end) (seqZ 0 256) = true)
    by (vm_compute; reflexivity).
  pose proof (seqZ_forallb _ _ _ c H ltac:(exact Hc)) as Hb. cbv beta in Hb. destruct (IsAlNum c).
  - left. split; [done|]. by apply bool_decide_eq_true_1 in Hb.
  - right. destruct (url_byte c) as [|p [|c1 [|c2 [|]]]]; try discriminate Hb. apply bool_decide_eq_true_1 in Hb as [-> E]. eauto.
Qed.
Lemma url_decode_URLEncode s : forall room, is_bytes s -> (length s < room)%nat -> url_decode_loop room (URLEncode s) = s.
Proof.
  induction s as [|c s IH]; intros room Hs Hr; [done|]. apply Forall_cons_1 in Hs as [Hc Hs]. cbn [length] in Hr.
  change (URLEncode (c :: s)) with (url_byte c ++ URLEncode s).
  destruct (url_byte_spec c Hc) as [(_ & -> & H1 & H2)|(c1 & c2 & -> & Hp)]; cbn [app url_decode_loop].
  - rewrite (proj2 (Nat.leb_gt _ _)), (proj2 (Z.eqb_neq _ _) H2), (proj2 (Z.eqb_neq _ _) H1) by lia.
    destruct (URLEncode s) as [|a [|b l]] eqn:E; f_equal; rewrite <- (IH (room - 1)%nat Hs), ?E by lia; done.
  - rewrite (proj2 (Nat.leb_gt _ _)) by lia. cbn [Z.eqb Pos.eqb]. rewrite Hp. f_equal. apply IH; [done|lia].
Qed.
Lemma length_URLEncode s : (length s <= length (URLEncode s))%nat.
Proof.
  induction s as [|c s IH]; [done|]. change (URLEncode (c :: s)) with (url_byte c ++ URLEncode s). rewrite length_app.
  unfold url_byte. destruct (IsAlNum c), (128 <=? c); cbn; lia.
Qed.
Lemma url_byte_safe c : is_byte c -> Forall (fun c => IsAlNum c = true \/ c = 37) (url_byte c).
Proof.
  intros Hc. assert (H : forallb (fun c => forallb (fun d => IsAlNum d || (d =? 37)) (url_byte c)) (seqZ 0 256) = true) by (vm_compute; reflexivity).
  pose proof (seqZ_forallb _ _ _ c H ltac:(exact Hc)) as Hb. cbv beta in Hb. apply List.Forall_forall. intros d Hd.
  rewrite forallb_forall in Hb. apply Hb in Hd. apply orb_prop in Hd as [?|?%Z.eqb_eq]; auto.
Qed.
(** What [URLEncode] writes has only letters, digits, the four marks and the percent
    sign in it, and [s_url_decode] of base/stringencode.cpp turns it back. *)
Theorem URLEncode_decodes s : is_bytes s ->
  s_url_decode (URLEncode s) = Done s /\ Forall (fun c => IsAlNum c = true \/ c = 37) (URLEncode s).
Proof.
  intros Hs. split.
  - unfold s_url_decode, s_transform. cbn [apply_to size_needed]. unfold url_decode, url_decode_size. pose proof (length_URLEncode s) as Hl.
    rewrite url_decode_URLEncode by (done || lia). unfold terminate.
    by rewrite (proj2 (Nat.eqb_neq _ _)), (proj2 (Nat.ltb_lt _ _)) by lia.
  - induction Hs as [|c s Hc _ IH]; [constructor|]. apply Forall_app. split; [by apply url_byte_safe|exact IH].
Qed.
Lemma URLEncode_decodes_witness :
  URLEncode [97; 43; 32; 255] = Text.bytes "a%2B%20%FF"%string /\ s_url_decode (URLEncode [97; 43; 32; 255]) = Done [97; 43; 32; 255].
Proof.
  assert (H : is_bytes [97; 43; 32; 255]) by (repeat constructor; done).
  split; [by vm_compute|]. exact (proj1 (URLEncode_decodes [97; 43; 32; 255] H)).
Defined.

(** ** Numbers *)
Lemma Uint64ToString_loop_spec fuel : forall n str F, 0 < n < 10 ^ Z.of_nat fuel -> (Z.to_nat (Z.log2 n) < F)%nat ->
  Uint64ToString_loop fuel n str = Some (str ++ reverse (digits F n)).
Proof.
  induction fuel as [|fuel IH]; intros n str F Hn HF; [change (10 ^ Z.of_nat 0) with 1 in Hn; lia|].
  destruct F as [|F]; [lia|]. cbn [Uint64ToString_loop digits]. rewrite (proj2 (Z.eqb_neq _ _)) by lia.
  destruct (Z.ltb_spec n 10) as [H|H].
  - rewrite Z.div_small, Z.mod_small by lia. rewrite Z.add_comm. by destruct fuel.
  - rewrite Nat2Z.inj_succ, Z.pow_succ_r in Hn by lia. assert (Hd : 0 < n / 10) by (apply Z.div_str_pos; lia).
    rewrite (IH (n / 10) _ F).
    + rewrite reverse_app, reverse_singleton, <- app_assoc. by rewrite (Z.add_comm (n mod 10)).
    + split; [done|]. apply Z.div_lt_upper_bound; lia.
    + assert (Hl : Z.log2 (n / 10) < Z.log2 n); [|pose proof (Z.log2_nonneg (n / 10)); lia].
      apply Z.le_lt_trans with (Z.log2 (n / 2)).
      * apply Z.log2_le_mono, Z.div_le_compat_l; lia.
      * change (n / 2) with (n / 2 ^ 1). rewrite <- Z.shiftr_div_pow2, Z.log2_shiftr by lia.
        assert (1 <= Z.log2 n) by (apply Z.log2_le_pow2; lia). lia.
Qed.
(** [Uint64ToString] appends the digits of every uint64, without any left out, but in
    reverse: the last digit comes first. *)
Theorem Uint64ToString_reversed n str : in_width 64 n -> Uint64ToString n str = Some (str ++ reverse (print_nat n)).
Proof.
  intros Hn. unfold Uint64ToString. destruct (Z.eqb_spec n 0) as [->|Hz]; [done|].
  apply Uint64ToString_loop_spec; [|lia]. unfold in_width in Hn. split; [lia|]. apply Z.lt_trans with (2 ^ 64); [lia|done].
Qed.
Lemma Uint64ToString_reversed_witness : Uint64ToString 1700000123 (Text.bytes "t="%string) = Some (Text.bytes "t=3210000071"%string).
Proof. rewrite Uint64ToString_reversed by done. by vm_compute. Defined.

(** ** Times *)
Definition tm_valid (t : tm) : Prop :=
  70 <= tm_year t < 1100 /\ 0 <= tm_mon t < 12 /\ 1 <= tm_mday t <= 31 /\ 0 <= tm_hour t < 24 /\ 0 <= tm_min t < 60 /\ 0 <= tm_sec t <= 60.
Lemma length_print_02d n : 0 <= n < 100 -> length (print_02d n) = 2%nat.
Proof.
  intros Hn. assert (H : forallb (fun n => Nat.eqb (length (print_02d n)) 2) (seqZ 0 100) = true) by by vm_compute.
  by apply Nat.eqb_eq, (seqZ_forallb _ _ _ n H).
Qed.
Lemma length_print_04d n : 1970 <= n < 3000 -> length (print_04d n) = 4%nat.
Proof.
  intros Hn. assert (H : forallb (fun n => Nat.eqb (length (print_04d n)) 4) (seqZ 1970 1030) = true) by by vm_compute.
  by apply Nat.eqb_eq, (seqZ_forallb _ _ _ n H).
Qed.
(** The text of a valid time has 20 characters and fits. *)
Lemma GetCurrentUTCTime_fits t : tm_valid t -> exists text, GetCurrentUTCTime t = Done text /\ length text = 20%nat.
Proof.
  intros (Hy & Hmo & Hd & Hh & Hmi & Hs). unfold GetCurrentUTCTime.
  match goal with |- context [(length ?text <? _)%nat] => set (tx := text) end.
  assert (Hl : length tx = 20%nat).
  { unfold tx. rewrite !length_app, length_print_04d, !length_print_02d by lia. done. }
  exists tx. rewrite Hl. done.
Qed.
Example utc_time : GetCurrentUTCTime (mkTm 123 0 9 7 5 3) = Done (Text.bytes "2023-01-09T07:05:03Z"%string).
Proof. by vm_compute. Qed.
(** [GetUnixTimeStamp] is not the Unix time: it counts microseconds since the machine
    was started, modulo 2^32. *)
Example unix_time_stamp : GetUnixTimeStamp 5000000000 = 5000000.
Proof. by vm_compute. Qed.
