(* ===== verification/Logging.v ===== *)
(** * base/logging.cpp: log messages, their targets and the dump of data

    The class with its static members is a record; [output] is what was written, in
    order.  A message is made by its prefix, what the caller streams into it, and its
    end, where it goes to the debug output and to the streams of its severity; when
    that was slow a warning about it follows.  The text of an error, the
    thread and the time are arguments.  Macros are those of a build with [LOGGING]. *)
From Stdlib Require Import String.
From S2P Require Import Prelude Text Strings.
From S2P Require StringEncode.

Definition LS_SENSITIVE : Z := 0.
Definition LS_VERBOSE : Z := 1.
Definition LS_INFO : Z := 2.
Definition LS_WARNING : Z := 3.
Definition LS_ERROR : Z := 4.
Definition NO_LOGGING : Z := LS_ERROR + 1.
Definition WARN_SLOW_LOGS_DELAY : Z := 50.
Definition UINT_MAX : Z := 2 ^ 32 - 1.
Definition newline : list Z := [10].

(** ** Labels of constants *)
Fixpoint FindLabel (value : Z) (entries : list (Z * list Z)) : option (list Z) :=
  match entries with
  | [] => None
  | (v, label) :: entries => if value =? v then Some label else FindLabel value entries
  end.
(** [%08x], and [std::setw] with [std::setfill('0')]. *)
Definition padded (width : nat) (l : list Z) : list Z := replicate (width - length l) 48 ++ l.
Definition print_08x (n : Z) : list Z := padded 8 (print_x (u32 n)).
Definition ErrorName (err : Z) (err_table : option (list (Z * list Z))) : list Z :=
  if err =? 0 then bytes "No error"
  else match t ← err_table; FindLabel err t with Some value => value | None => bytes "0x" ++ print_08x err end.

(** ** The targets *)
Inductive written := ToDebug (str : list Z) | ToStream (stream : nat) (str : list Z) | DeletedStream (stream : nat).
Record Log := mkLog {
  min_sev_ : Z; dbg_sev_ : Z; ctx_sev_ : Z; streams_ : list (nat * Z); thread_ : bool; timestamp_ : bool;
  is_diagnostic_mode_ : bool; output : list written }.
Definition set_levels (m d : Z) (w : Log) : Log :=
  mkLog m d (ctx_sev_ w) (streams_ w) (thread_ w) (timestamp_ w) (is_diagnostic_mode_ w) (output w).
Definition set_streams (l : list (nat * Z)) (w : Log) : Log :=
  mkLog (min_sev_ w) (dbg_sev_ w) (ctx_sev_ w) l (thread_ w) (timestamp_ w) (is_diagnostic_mode_ w) (output w).
Definition set_options (c : Z) (th ts di : bool) (w : Log) : Log :=
  mkLog (min_sev_ w) (dbg_sev_ w) c (streams_ w) th ts di (output w).
Definition write (l : list written) (w : Log) : Log :=
  mkLog (min_sev_ w) (dbg_sev_ w) (ctx_sev_ w) (streams_ w) (thread_ w) (timestamp_ w) (is_diagnostic_mode_ w) (output w ++ l).
Definition Log_new (LOG_DEFAULT : Z) : Log := mkLog LOG_DEFAULT LOG_DEFAULT LS_WARNING [] false false false [].

Definition LogContext (min_sev : Z) (w : Log) : Log := set_options min_sev (thread_ w) (timestamp_ w) (is_diagnostic_mode_ w) w.
Definition LogThreads (on : bool) (w : Log) : Log := set_options (ctx_sev_ w) on (timestamp_ w) (is_diagnostic_mode_ w) w.
Definition LogTimestamps (on : bool) (w : Log) : Log := set_options (ctx_sev_ w) (thread_ w) on (is_diagnostic_mode_ w) w.
Definition SetDiagnosticMode (f : bool) (w : Log) : Log := set_options (ctx_sev_ w) (thread_ w) (timestamp_ w) f w.
Definition Loggable (sev : Z) (w : Log) : bool := min_sev_ w <=? sev.
(** The loop keeps what it found at the last stream. *)
Definition UpdateMinLogSeverity (w : Log) : Log :=
  set_levels (foldl (fun _ s => Z.min (dbg_sev_ w) s.2) (dbg_sev_ w) (streams_ w)) (dbg_sev_ w) w.
Definition LogToDebug (min_sev : Z) (w : Log) : Log := UpdateMinLogSeverity (set_levels (min_sev_ w) min_sev w).
Definition AddLogToStream (stream : nat) (min_sev : Z) (w : Log) : Log :=
  UpdateMinLogSeverity (set_streams (streams_ w ++ [(stream, min_sev)]) w).
Definition LogToStream (stream : option nat) (min_sev : Z) (w : Log) : Log :=
  let w := set_streams [] (write (map (fun s => DeletedStream s.1) (streams_ w)) w) in
  match stream with Some s => AddLogToStream s min_sev w | None => w end.
Definition GetLogToStream (stream : option nat) (w : Log) : Z :=
  foldl (fun sev s => if match stream with None => true | Some x => bool_decide (x = s.1) end then Z.min sev s.2 else sev)
    NO_LOGGING (streams_ w).
Fixpoint erase_stream (stream : nat) (l : list (nat * Z)) : list (nat * Z) :=
  match l with [] => [] | s :: l => if decide (stream = s.1) then l else s :: erase_stream stream l end.
Definition RemoveLogToStream (stream : nat) (w : Log) : Log :=
  UpdateMinLogSeverity (set_streams (erase_stream stream (streams_ w)) w).

Definition ParseLogSeverity (value : list Z) : Z :=
  if decide (value = bytes "LS_SENSITIVE") then LS_SENSITIVE
  else if decide (value = bytes "LS_VERBOSE") then LS_VERBOSE
  else if decide (value = bytes "LS_INFO") then LS_INFO
  else if decide (value = bytes "LS_WARNING") then LS_WARNING
  else if decide (value = bytes "LS_ERROR") then LS_ERROR
  else if is_digit (default 0 (head value)) then match scan_d value with Some (n, _) => n | None => 0 end
  else NO_LOGGING.

(** *** Configuration from a text *)
Record Levels := mkLevels { current_level : Z; debug_level : Z; file_level : Z }.
Definition level_token (token : list Z) : option Z :=
  if decide (token = bytes "sensitive") then Some LS_SENSITIVE
  else if decide (token = bytes "verbose") then Some LS_VERBOSE
  else if decide (token = bytes "info") then Some LS_INFO
  else if decide (token = bytes "warning") then Some LS_WARNING
  else if decide (token = bytes "error") then Some LS_ERROR
  else if decide (token = bytes "none") then Some NO_LOGGING
  else None.
Definition configure_token (x : Levels * Log) (token : list Z) : Levels * Log :=
  let '(v, w) := x in
  match token with
  | [] => x
  | _ =>
    if decide (token = bytes "tstamp") then (v, LogTimestamps true w)
    else if decide (token = bytes "thread") then (v, LogThreads true w)
    else match level_token token with
         | Some l => (mkLevels l (debug_level v) (file_level v), w)
         | None =>
           if decide (token = bytes "file") then (mkLevels (current_level v) (debug_level v) (current_level v), w)
           else if decide (token = bytes "debug") then (mkLevels (current_level v) (current_level v) (file_level v), w)
           else x
         end
  end.
(** [open_file]: the stream on the file, if it was opened without buffering. *)
Definition ConfigureLogging (params : list Z) (open_file : option nat) (w : Log) : Log :=
  let '(v, w) := foldl configure_token (mkLevels LS_VERBOSE (dbg_sev_ w) (GetLogToStream None w), w)
    (StringEncode.tokenize params 32) in
  let stream := if negb (NO_LOGGING =? file_level v) then open_file else None in
  LogToStream stream (file_level v) (LogToDebug (debug_level v) w).

(** ** Messages

    [os_error]: the text of the system for an error, [None] where it is not asked;
    [thread_id] is printed on Windows. *)
Inductive LogErrorContext := ERRCTX_NONE | ERRCTX_ERRNO | ERRCTX_HRESULT.
Section message.
Context (win32 : bool) (os_error : LogErrorContext -> Z -> option (list Z)) (logging_cpp : list Z) (slow_line : Z).
(** What a message sees: the time since the first and the thread. *)
Record Now := mkNow { elapsed : Z; thread_id : Z }.

Definition Describe (sev : Z) : list Z :=
  bytes (if sev =? LS_SENSITIVE then "S" else if sev =? LS_VERBOSE then "V" else if sev =? LS_INFO then "I"
         else if sev =? LS_WARNING then "W" else if sev =? LS_ERROR then "E" else "U").
Fixpoint strrchr (l : list Z) (c : Z) : option nat :=
  match l with
  | [] => None
  | x :: l => match strrchr l c with Some i => Some (S i) | None => if x =? c then Some 0%nat else None end
  end.
Definition DescribeFile (file : list Z) : list Z :=
  match strrchr file 47, strrchr file 92 with
  | None, None => file
  | Some i, None | None, Some i => drop (S i) file
  | Some i, Some j => drop (S (Nat.max i j)) file
  end.
Fixpoint strip_right (l : list Z) : list Z :=
  match l with
  | [] => []
  | c :: l => match strip_right l with [] => if is_space c then [] else [c] | l => c :: l end
  end.
Definition print_stream (file : list Z) (line sev : Z) (now : Now) (w : Log) : list Z :=
  (if timestamp_ w then
     Describe sev ++ bytes "[" ++ padded 3 (print_d (elapsed now / 1000)) ++ bytes ":" ++ padded 3 (print_d (elapsed now mod 1000)) ++ bytes "] "
   else []) ++
  (if thread_ w && win32 then bytes "[" ++ print_x (thread_id now) ++ bytes "] " else []) ++
  (if ctx_sev_ w <=? sev then bytes "(" ++ DescribeFile file ++ bytes ":" ++ print_d line ++ bytes "): " else []).
Definition extra (err_ctx : LogErrorContext) (err : Z) : list Z :=
  match err_ctx with
  | ERRCTX_NONE => []
  | ERRCTX_ERRNO => bytes "[0x" ++ print_08x err ++ bytes "]" ++ bytes " " ++ default [] (os_error err_ctx err)
  | ERRCTX_HRESULT =>
    bytes "[0x" ++ print_08x err ++ bytes "]" ++
    match os_error err_ctx err with Some text => if win32 then bytes " " ++ strip_right text else [] | None => [] end
  end.
(** The targets a message of severity [sev] goes to. *)
Definition targets (sev : Z) (str : list Z) (w : Log) : list written :=
  (if dbg_sev_ w <=? sev then [ToDebug str] else []) ++
  map (fun s => ToStream s.1 str) (List.filter (fun s => s.2 <=? sev) (streams_ w)).
(** [~LogMessage], for the text that ends with the message; [delays]: how long writing takes, and
    what the warning about it sees, for each message in turn. *)
Fixpoint end_message (delays : list (Z * Now)) (warn_slow_logs_delay_ sev : Z) (str : list Z) (w : Log) : Log :=
  let w := write (targets sev str w) w in
  match delays with
  | [] => w
  | (delay, now) :: delays =>
    if warn_slow_logs_delay_ <=? delay then
      end_message delays UINT_MAX LS_WARNING
        (print_stream logging_cpp slow_line LS_WARNING now w ++ bytes "Slow log: took " ++ print_d delay ++
         bytes "ms to write " ++ print_d (Z.of_nat (length str)) ++ bytes " bytes." ++ newline) w
    else w
  end.
Definition LogMessage (file : list Z) (line sev : Z) (err_ctx : LogErrorContext) (err : Z) (body : list Z) (now : Now)
    (delays : list (Z * Now)) (w : Log) : Log :=
  let e := extra err_ctx err in
  end_message delays WARN_SLOW_LOGS_DELAY sev
    (print_stream file line sev now w ++ body ++ (match e with [] => [] | _ => bytes " : " ++ e end) ++ newline) w.
(** The macros [LOG], [LOG_V] and [LOG_E]. *)
Definition LOG_E (file : list Z) (line sev : Z) (err_ctx : LogErrorContext) (err : Z) (body : list Z) (now : Now)
    (delays : list (Z * Now)) (w : Log) : Log :=
  if Loggable sev w then LogMessage file line sev err_ctx err body now delays w else w.
Definition LOG_V (file : list Z) (line sev : Z) (body : list Z) (now : Now) (delays : list (Z * Now)) (w : Log) : Log :=
  LOG_E file line sev ERRCTX_NONE 0 body now delays w.
End message.

(** ** The dump of data *)
(** [isprint] in the C locale. *)
Definition isprint (c : Z) : bool := (32 <=? c) && (c <? 127).
(** [unprintable_count_]. *)
Record LogMultilineState := mkMultiline { unprintable_out : nat; unprintable_in : nat }.
Definition unprintable_count (s : LogMultilineState) (input : bool) : nat := if input then unprintable_in s else unprintable_out s.
Definition set_unprintable (s : LogMultilineState) (input : bool) (n : nat) : LogMultilineState :=
  if input then mkMultiline (unprintable_out s) n else mkMultiline n (unprintable_in s).
(** What a line of the log says: so many unprintable bytes, or this line of the data, which
    takes [n] bytes with its line feed. *)
Inductive report := Unprintable (n : nat) | Line (line : list Z) (n : nat).
(** [std::string::find] finds something. *)
Fixpoint contains (pat l : list Z) : bool :=
  bool_decide (pat `prefix_of` l) || match l with [] => false | _ :: l => contains pat l end.
Definition is_private (substr : list Z) : bool := contains (bytes "Email") substr || contains (bytes "Passwd") substr.
Definition say_unprintable (n : nat) : list Z := bytes "## " ++ print_d (Z.of_nat n) ++ bytes " consecutive unprintable ##".
Definition say (r : report) : list Z :=
  match r with
  | Unprintable n => say_unprintable n
  | Line line _ =>
    let substr := strip_right line in
    if is_private substr then bytes "## omitted for privacy ##" else substr
  end.
(** Whether the bytes are white space, and whether none is unprintable; the loop stops at the first that is. *)
Fixpoint classify (is_entirely_whitespace : bool) (l : list Z) : bool * bool :=
  match l with
  | [] => (is_entirely_whitespace, true)
  | c :: l =>
    if is_space c then classify is_entirely_whitespace l
    else if negb (isprint c) then (false, false) else classify false l
  end.
Definition kMinPrintableLine : nat := 4.
Definition is_printable (consecutive_unprintable : nat) (line : list Z) : bool :=
  if (0 <? consecutive_unprintable)%nat && (length line <? kMinPrintableLine)%nat then false
  else
    let '(is_entirely_whitespace, printable) := classify true line in
    printable && negb ((0 <? consecutive_unprintable)%nat && is_entirely_whitespace).
(** The loop over the lines, with the reports so far; [None] is a loop that has not ended. *)
Fixpoint text_loop (fuel : nat) (udata : list Z) (consecutive_unprintable : nat) : option (list report * nat) :=
  match udata with
  | [] => Some ([], consecutive_unprintable)
  | _ =>
    match fuel with
    | O => None
    | S fuel =>
      let '(line, size, udata) :=
        match strchrn udata (length udata) 10 with
        | None => (udata, length udata, [])
        | Some i => (take i udata, S i, drop (S i) udata)
        end in
      if is_printable consecutive_unprintable line then
        '(reports, n) ← text_loop fuel udata 0;
        Some ((if (0 <? consecutive_unprintable)%nat then [Unprintable consecutive_unprintable] else []) ++ Line line size :: reports, n)
      else text_loop fuel udata (consecutive_unprintable + size)
    end
  end.
(** The lines of the hex dump: both buffers as they are overwritten. *)
Definition LINE_SIZE : nat := 24.
Definition hex_digit (n : Z) : Z := StringEncode.hex_char n.
Fixpoint hex_fill (i : nat) (udata : list Z) (asc_line hex_line : list Z) : list Z * list Z :=
  match udata with
  | [] => (asc_line, hex_line)
  | ch :: udata =>
    hex_fill (S i) udata (<[i := if isprint ch then ch else 46]> asc_line)
      (<[(i * 2 + i / 4 + 1)%nat := hex_digit (Z.land ch 15)]> (<[(i * 2 + i / 4)%nat := hex_digit (Z.shiftr ch 4)]> hex_line))
  end.
Definition hex_text (udata : list Z) : list Z :=
  let '(asc_line, hex_line) := hex_fill 0 udata (replicate (LINE_SIZE + 1) 32) (replicate (LINE_SIZE * 9 / 4 + 2) 32) in
  let asc_line := <[LINE_SIZE := 0]> asc_line in
  let hex_line := <[(LINE_SIZE * 9 / 4 + 1)%nat := 0]> hex_line in
  c_str asc_line ++ bytes " " ++ c_str hex_line ++ bytes " ".
Fixpoint hex_loop (fuel : nat) (udata : list Z) : option (list (list Z)) :=
  match udata with
  | [] => Some []
  | _ =>
    match fuel with
    | O => None
    | S fuel => lines ← hex_loop fuel (drop LINE_SIZE udata); Some (hex_text (take LINE_SIZE udata) :: lines)
    end
  end.

(** The bodies of the messages, and the state after; no data is a flush of the count. *)
Definition multiline_bodies (label : list Z) (input : bool) (data : option (list Z)) (hex_mode : bool)
    (state : option LogMultilineState) : option (list (list Z) * option LogMultilineState) :=
  let prefix := label ++ bytes (if input then " << " else " >> ") in
  let count := match state with Some s => unprintable_count s input | None => 0%nat end in
  match data with
  | None =>
    if (0 <? count)%nat then Some ([prefix ++ say_unprintable count], (fun s => set_unprintable s input 0) <$> state)
    else Some ([], state)
  | Some udata =>
    if hex_mode then lines ← hex_loop (length udata) udata; Some (map (app prefix) lines, state)
    else
      '(reports, n) ← text_loop (length udata) udata count;
      Some (map (fun r => prefix ++ say r) reports, (fun s => set_unprintable s input n) <$> state)
  end.
Definition LogMultiline (log : list Z -> Log -> Log) (level : Z) (label : list Z) (input : bool) (data : option (list Z))
    (hex_mode : bool) (state : option LogMultilineState) (w : Log) : option (Log * option LogMultilineState) :=
  if negb (min_sev_ w <=? level) then Some (w, state)
  else '(bodies, state) ← multiline_bodies label input data hex_mode state; Some (foldl (fun w b => log b w) w bodies, state).

(** ** Messages reach their targets *)
(** What a program does with the log; a second stream is not added. *)
Inductive call :=
  | CallContext (min_sev : Z) | CallThreads (on : bool) | CallTimestamps (on : bool) | CallToDebug (min_sev : Z)
  | CallToStream (stream : option nat) (min_sev : Z) | CallAdd (stream : nat) (min_sev : Z) | CallRemove (stream : nat)
  | CallConfigure (params : list Z) (open_file : option nat)
  | CallLog (file : list Z) (line sev : Z) (c : LogErrorContext) (err : Z) (body : list Z) (now : Now) (delays : list (Z * Now)).
Section targets.
Context (win32 : bool) (os_error : LogErrorContext -> Z -> option (list Z)) (logging_cpp : list Z) (slow_line : Z).
Abbreviation LOG_E := (LOG_E win32 os_error logging_cpp slow_line).
Abbreviation LOG_V := (LOG_V win32 os_error logging_cpp slow_line).
Definition do_call (c : call) (w : Log) : Log :=
  match c with
  | CallContext s => LogContext s w
  | CallThreads on => LogThreads on w
  | CallTimestamps on => LogTimestamps on w
  | CallToDebug s => LogToDebug s w
  | CallToStream x s => LogToStream x s w
  | CallAdd x s => match streams_ w with [] => AddLogToStream x s w | _ => w end
  | CallRemove x => RemoveLogToStream x w
  | CallConfigure p f => ConfigureLogging p f w
  | CallLog file line sev c err body now delays => LOG_E file line sev c err body now delays w
  end.
(** No target asks for more than [min_sev_] lets pass. *)
Record sound (w : Log) : Prop := {
  one_stream : (length (streams_ w) <= 1)%nat; sound_debug : min_sev_ w <= dbg_sev_ w;
  sound_streams : forall s, In s (streams_ w) -> min_sev_ w <= s.2 }.
Lemma update_sound w : (length (streams_ w) <= 1)%nat -> sound (UpdateMinLogSeverity w).
Proof.
  intros Hl. unfold UpdateMinLogSeverity. destruct (streams_ w) as [|s [|? ?]] eqn:E; cbn in Hl; [| |lia];
    split; cbn; rewrite ?E; cbn; try lia; try done. intros t [<-|[]]. lia.
Qed.
Lemma write_sound l w : sound w -> sound (write l w).
Proof. by intros []. Qed.
Lemma options_sound c th ts di w : sound w -> sound (set_options c th ts di w).
Proof. by intros []. Qed.
Lemma end_message_sound delays : forall d sev str w, sound w -> sound (end_message win32 logging_cpp slow_line delays d sev str w).
Proof.
  induction delays as [|[delay now] delays IH]; intros d sev str w Hw; cbn [end_message]; [by apply write_sound|].
  destruct (d <=? delay); [apply IH|]; by apply write_sound.
Qed.
Lemma configure_token_sound x token : sound x.2 -> sound (configure_token x token).2.
Proof.
  destruct x as [v w]. intros Hw. unfold configure_token. destruct token; [done|].
  repeat case_decide; try done; try (by apply options_sound); destruct (level_token _); repeat case_decide; done.
Qed.
Lemma configure_tokens_sound l : forall x, sound x.2 -> sound (foldl configure_token x l).2.
Proof. induction l as [|t l IH]; intros x Hx; [done|]. by apply IH, configure_token_sound. Qed.
Lemma to_stream_sound x s w : sound w -> sound (LogToStream x s w).
Proof.
  intros []. unfold LogToStream. destruct x as [x|]; [apply update_sound; cbn; lia|]. split; [cbn; lia|done|done].
Qed.
Lemma erase_stream_length x l : (length (erase_stream x l) <= length l)%nat.
Proof. induction l as [|s l IH]; cbn; [done|]. case_decide; cbn; lia. Qed.
Lemma do_call_sound c w : sound w -> sound (do_call c w).
Proof.
  intros Hw. pose proof Hw as [H1 H2 H3]. destruct c; cbn [do_call]; try (by apply options_sound); try (by apply to_stream_sound).
  - by apply update_sound.
  - destruct (streams_ w) eqn:E; [|done]. apply update_sound. cbn. rewrite E. cbn. lia.
  - apply update_sound. cbn. pose proof (erase_stream_length stream (streams_ w)). lia.
  - unfold ConfigureLogging. pose proof (configure_tokens_sound (StringEncode.tokenize params 32)
      (mkLevels LS_VERBOSE (dbg_sev_ w) (GetLogToStream None w), w) Hw) as H.
    destruct (foldl _ _ _) as [v w1]. apply to_stream_sound, update_sound. cbn. apply H.
  - unfold Logging.LOG_E. destruct (Loggable sev w); [|done]. by apply end_message_sound.
Qed.
Lemma calls_sound l : forall w, sound w -> sound (foldl (fun w c => do_call c w) w l).
Proof. induction l as [|c l IH]; intros w Hw; [done|]. by apply IH, do_call_sound. Qed.
Lemma new_sound d : sound (Log_new d).
Proof. split; cbn; [lia|lia|done]. Qed.
Lemma not_loggable sev str w : sound w -> Loggable sev w = false -> targets sev str w = [].
Proof.
  intros [_ H2 H3] Hl%Z.leb_gt. unfold targets. rewrite (proj2 (Z.leb_gt _ _)) by lia. cbn.
  destruct (List.filter _ _) as [|s l] eqn:E; [done|]. assert (Hs : In s (List.filter (fun s => s.2 <=? sev) (streams_ w))) by (rewrite E; by left).
  apply List.filter_In in Hs as [Hs Hle%Z.leb_le]. specialize (H3 s Hs). lia.
Qed.
Lemma end_message_output delays d sev str w : exists rest, output (end_message win32 logging_cpp slow_line delays d sev str w) =
  output w ++ targets sev str w ++ rest /\ (match delays with (delay, _) :: _ => delay < d | [] => True end -> rest = []).
Proof.
  revert d sev str w. induction delays as [|[delay now] delays IH]; intros d sev str w; cbn [end_message].
  - exists []. split; [|done]. by rewrite app_nil_r.
  - destruct (Z.leb_spec d delay) as [Hd|Hd]; [|exists []; split; [by rewrite app_nil_r|done]].
    match goal with |- context [end_message _ _ _ delays ?d ?s ?t ?w1] => destruct (IH d s t w1) as (rest & E & _) end.
    rewrite E. eexists. split; [cbn [output write]; by rewrite <- app_assoc|lia].
Qed.
(** The text of a message. *)
Definition text_of (file : list Z) (line sev : Z) (c : LogErrorContext) (err : Z) (body : list Z) (now : Now) (w : Log) : list Z :=
  print_stream win32 file line sev now w ++ body ++
  match extra win32 os_error c err with [] => [] | e => bytes " : " ++ e end ++ newline.

(** Whatever was configured before, with one stream at a time: a message goes, once and
    in order, to the debug output if that asks for its severity and to the stream if that does,
    and a message that the macro leaves out would have gone nowhere; only a warning that writing was
    slow follows. *)
Theorem messages_reach_targets LOG_DEFAULT calls file line sev c err body now delays :
  let w := foldl (fun w c => do_call c w) (Log_new LOG_DEFAULT) calls in
  let str := text_of file line sev c err body now w in
  exists rest, output (LOG_E file line sev c err body now delays w) = output w ++ targets sev str w ++ rest /\
    (match delays with (delay, _) :: _ => delay < WARN_SLOW_LOGS_DELAY | [] => True end -> rest = []).
Proof.
  intros w str. unfold Logging.LOG_E. destruct (Loggable sev w) eqn:El.
  - unfold LogMessage. destruct (end_message_output delays WARN_SLOW_LOGS_DELAY sev str w) as (rest & E & Hr). exists rest.
    split; [|done]. rewrite <- E. unfold str, text_of. by destruct (extra _ _ _ _).
  - rewrite not_loggable; [|apply calls_sound, new_sound|done]. exists []. split; [by rewrite app_nil_r|done].
Qed.
End targets.

(** With two streams the level of the first is forgotten: what it asks for is left out. *)
Example first_stream_is_forgotten :
  let w := AddLogToStream 2 LS_ERROR (AddLogToStream 1 LS_VERBOSE (Log_new NO_LOGGING)) in
  targets LS_INFO [88] w = [ToStream 1 [88]] /\
  output (LOG_V true (fun _ _ => None) [] 0 [] 0 LS_INFO [88] (mkNow 0 0) [] w) = [].
Proof. vm_compute. done. Qed.
(** Taking the streams away leaves the level where it was. *)
Example level_stays_low :
  min_sev_ (LogToStream None 0 (AddLogToStream 1 LS_VERBOSE (Log_new NO_LOGGING))) = LS_VERBOSE.
Proof. reflexivity. Qed.

(** ** The dump says what the data are *)
Definition report_size (r : report) : nat := match r with Unprintable n | Line _ n => n end.
Definition readable (l : list Z) : Prop := Forall (fun c => is_space c = true \/ isprint c = true) l.
Lemma classify_readable l : forall b, (classify b l).2 = true -> readable l.
Proof.
  induction l as [|c l IH]; intros b H; [constructor|]. cbn [classify] in H. destruct (is_space c) eqn:E.
  - constructor; [by left|by eapply IH].
  - destruct (isprint c) eqn:Ep; [|done]. constructor; [by right|exact (IH false H)].
Qed.
Lemma is_printable_readable n l : is_printable n l = true -> readable l.
Proof.
  unfold is_printable. destruct (_ && _); [done|]. intros H. apply (classify_readable l true).
  destruct (classify true l). by apply andb_prop in H as [? _].
Qed.
Lemma strchrn_Some l c : forall i n, strchrn l n c = Some i -> l !! i = Some c /\ ~ In c (take i l).
Proof.
  induction l as [|x l IH]; intros i [|n] H; try discriminate H. cbn [strchrn] in H. destruct (Z.eqb_spec x c) as [->|Hne].
  - injection H as <-. by split; [|intros []].
  - destruct (strchrn l n c) as [j|] eqn:E; [|done]. injection H as <-. destruct (IH j n E) as [H1 H2]. split; [done|].
    intros [?|?]; [done|contradiction].
Qed.
Lemma strchrn_None l c : forall n, (length l <= n)%nat -> strchrn l n c = None -> ~ In c l.
Proof.
  induction l as [|x l IH]; intros [|n] Hn H; cbn in Hn; try lia; try (by intros []). cbn [strchrn] in H.
  destruct (Z.eqb_spec x c); [done|]. destruct (strchrn l n c) eqn:E; [done|]. intros [?|?]; [done|]. apply (IH n); [lia|done|done].
Qed.
(** The lines that are reported are lines of the data, each from its place; other bytes are passed over. *)
Inductive lines_of : list Z -> list report -> Prop :=
  | lines_end : lines_of [] []
  | lines_last line : ~ In 10 line -> lines_of line [Line line (length line)]
  | lines_more line rest rs : ~ In 10 line -> lines_of rest rs -> lines_of (line ++ 10 :: rest) (Line line (S (length line)) :: rs)
  | lines_count l n rs : lines_of l rs -> lines_of l (Unprintable n :: rs)
  | lines_skip l l' rs : lines_of l' rs -> lines_of (l ++ l') rs.
Definition report_ok (r : report) : Prop := match r with Unprintable n => (0 < n)%nat | Line line _ => readable line end.
Lemma text_loop_total fuel : forall udata count, (length udata <= fuel)%nat ->
  exists reports n, text_loop fuel udata count = Some (reports, n) /\
    (count + length udata = sum_list_with report_size reports + n)%nat /\ Forall report_ok reports /\ lines_of udata reports.
Proof.
  induction fuel as [|fuel IH]; intros [|c udata] count Hf; cbn [length] in Hf; try lia;
    try (exists [], count; split_and!; [done|cbn; lia|constructor|constructor]).
  cbn [text_loop]. set (l := c :: udata). assert (El : length l = S (length udata)) by done. clearbody l.
  assert (Hcut : exists line size rest, (match strchrn l (length l) 10 with
      | None => (l, length l, []) | Some i => (take i l, S i, drop (S i) l) end) = (line, size, rest) /\ ~ In 10 line /\
      (l = line /\ rest = [] /\ size = length line \/ l = line ++ 10 :: rest /\ size = S (length line))).
  { destruct (strchrn l (length l) 10) as [i|] eqn:E; eexists _, _, _; (split; [done|]).
    - destruct (strchrn_Some _ _ _ _ E) as [Hi Hn]. split; [done|right]. pose proof (lookup_lt_Some _ _ _ Hi).
      rewrite length_take_le by lia. split; [|done]. by rewrite <- (take_drop_middle l i 10 Hi) at 1.
    - split; [by eapply strchrn_None|by left]. }
  destruct Hcut as (line & size & rest & -> & Hn & Hl).
  assert (Hsize : (length rest + size = length l /\ 0 < size)%nat).
  { destruct Hl as [(-> & -> & ->)|[-> ->]]; [cbn; lia|]. rewrite length_app. cbn. lia. }
  destruct (is_printable count line) eqn:Ep.
  - destruct (IH rest 0%nat) as (reports & n & H & Hsum & Hok & Hlines); [lia|]. rewrite H. cbn [mbind option_bind].
    assert (Hline : lines_of l (Line line size :: reports)).
    { destruct Hl as [(-> & -> & ->)|[-> ->]]; [|by apply lines_more]. destruct fuel; injection H as <- <-; by apply lines_last. }
    eexists _, _. split; [done|]. destruct (Nat.ltb_spec 0 count) as [Hc|Hc]; cbn [app sum_list_with report_size].
    + split_and!; [lia|repeat constructor; [done|by apply (is_printable_readable count)|done]|by apply lines_count].
    + split_and!; [lia|constructor; [by apply (is_printable_readable count)|done]|done].
  - destruct (IH rest (count + size)%nat) as (reports & n & -> & Hsum & Hok & Hlines); [lia|].
    eexists _, _. split; [done|]. split_and!; [lia|done|]. destruct Hl as [(-> & -> & ->)|[-> ->]].
    + rewrite <- (app_nil_r line). by apply lines_skip.
    + change (10 :: rest) with ([10] ++ rest). rewrite app_assoc. by apply lines_skip.
Qed.
(** Nothing private is said of a line. *)
Lemma line_says_nothing_private line n : is_private (say (Line line n)) = false.
Proof. cbn [say]. destruct (is_private (strip_right line)) eqn:E; [reflexivity|exact E]. Qed.

(** The dump of any data as text ends and accounts for every byte: the bytes that were
    not printable before and those of the data are those of the lines it prints, those it reports as
    unprintable, and those it keeps for the next call; the lines are lines of
    the data, in order, without an unprintable byte; and no line that it logs holds a word that marks
    private data. *)
Theorem dump_accounts_for_all data count :
  exists reports n, text_loop (length data) data count = Some (reports, n) /\
    (count + length data = sum_list_with report_size reports + n)%nat /\ Forall report_ok reports /\ lines_of data reports /\
    forall line size, Line line size ∈ reports -> is_private (say (Line line size)) = false.
Proof.
  destruct (text_loop_total (length data) data count (le_n _)) as (reports & n & H1 & H2 & H3 & H4).
  exists reports, n. split_and!; [done..|]. intros line size _. apply line_says_nothing_private.
Qed.
(** The writes of the hex dump stay inside its buffers. *)
Lemma hex_fill_in_bounds i : (i < LINE_SIZE)%nat -> (i * 2 + i / 4 + 1 < LINE_SIZE * 9 / 4 + 1)%nat /\ (i < LINE_SIZE + 1)%nat.
Proof.
  unfold LINE_SIZE. intros Hi. split; [|lia]. change (24 * 9 / 4 + 1)%nat with 55%nat.
  pose proof (Nat.Div0.div_le_mono i 23 4 ltac:(lia)). change (23 / 4)%nat with 5%nat in *. lia.
Qed.

(** A word in two calls is not seen. *)
Example private_word_in_two_parts :
  multiline_bodies [] false (Some (bytes "Pass")) false None = Some ([bytes " >> Pass"], None) /\
  multiline_bodies [] false (Some (bytes "Passwd=x" ++ [10] ++ bytes "ok")) false None =
    Some ([bytes " >> ## omitted for privacy ##"; bytes " >> ok"], None) /\
  multiline_bodies [] false (Some (bytes "Passwd")) true None =
    Some ([bytes " >> Passwd                   50617373 7764                                           "], None).
Proof. vm_compute. done. Qed.
(** After unprintable bytes a line needs four bytes to be printed. *)
Example short_line_after_unprintable :
  text_loop 9 ([1; 10] ++ bytes "abc" ++ [10] ++ bytes "abc") 0 = Some ([], 9%nat) /\
  text_loop 9 ([1; 10] ++ bytes "abcd" ++ [10] ++ bytes "ab") 0 = Some ([Unprintable 2; Line (bytes "abcd") 5; Line (bytes "ab") 2], 0%nat).
Proof. vm_compute. done. Qed.

(** ** Long messages on Android *)
Definition kMaxLogLineSize : nat := 1024 - 60.
Fixpoint android_loop (fuel line max_lines : nat) (str : list Z) : option (list (list Z)) :=
  match str with
  | [] => Some []
  | _ =>
    match fuel with
    | O => None
    | S fuel =>
      parts ← android_loop fuel (S line) max_lines (drop kMaxLogLineSize str);
      Some ((bytes "[" ++ print_d (Z.of_nat (line + 1)) ++ bytes "/" ++ print_d (Z.of_nat max_lines) ++ bytes "] " ++
             take kMaxLogLineSize str) :: parts)
    end
  end.
Definition android_lines (str : list Z) : option (list (list Z)) :=
  let max_lines := (length str / kMaxLogLineSize + 1)%nat in
  if (max_lines =? 1)%nat then Some [str] else android_loop (length str) 0 max_lines str.
Lemma android_loop_ends fuel : forall line m str, (length str <= fuel)%nat ->
  exists parts, android_loop fuel line m str = Some parts /\ (kMaxLogLineSize * length parts < length str + kMaxLogLineSize)%nat /\
    (length str <= kMaxLogLineSize * length parts)%nat.
Proof.
  induction fuel as [|fuel IH]; intros line m [|c str] Hf; cbn [length] in Hf; try lia;
    try (exists []; split; [done|unfold kMaxLogLineSize; cbn [length]; lia]).
  cbn [android_loop]. destruct (IH (S line) m (drop kMaxLogLineSize (c :: str))) as (parts & -> & H1 & H2).
  - rewrite length_drop. unfold kMaxLogLineSize. cbn [length]. lia.
  - eexists. split; [done|]. rewrite length_drop in H1, H2. unfold kMaxLogLineSize in *. cbn [length] in *. lia.
Qed.
(** A message as long as a line is announced as two and is one. *)
Example last_part_is_missing : forall c, exists part, android_lines (replicate 964 c) = Some [part] /\ take 6 part = bytes "[1/2] ".
Proof. intros c. eexists. split; [vm_compute; reflexivity|reflexivity]. Qed.
