(* ===== verification/CommandAnalysis.v ===== *)
(** * vzsdk/commandanalysis.{h,cpp}: the commands and replies of the protocol

    The [Generat*] functions fill a JSON value with a command; the [Parse*]
    functions copy the members of a reply into a C struct.  A parser may throw (a
    member of the wrong type) or overrun a fixed array ([strcpy]), which is
    undefined; both are outcomes here, not excluded.  The members of a struct that [sscanf] stores an
    int into although they are shorts are laid out in memory as the compiler lays
    them out, so that what the extra bytes hit is visible. *)
From Stdlib Require Import String.
From S2P Require Import JsonText JsonStyled.
From S2P Require Import Prelude Text ByteOrder Json Base64.

(** ** Commands *)
Abbreviation str s := (stringValue (bytes s)).

(** The only command that is made as text. *)
Definition GeneratCommonCmd `{DoubleText} (command : list Z) : option (list Z) :=
  StyledWriter_write <$> set_members nullValue [("cmd", stringValue command)]%string.
Definition GeneratSerialStartCmd (serial_port : Z) (json_value : Value) : option (bool * Value) :=
  if (serial_port =? 0) || (serial_port =? 1) then
    let data := bytes (if serial_port =? 0 then "rs485-1" else "rs485-2") in
    json ← set_members json_value
      [("cmd", str "ttransmission"); ("subcmd", str "init"); ("data", stringValue data);
       ("datalen", intValue (Z.of_nat (length data)))]%string;
    Some (true, json)
  else Some (false, json_value).

Definition GeneratSerialStopCmd (json_value : Value) : option Value :=
  set_members json_value [("cmd", str "ttransmission"); ("subcmd", str "uninit")]%string.

Definition GeneratSerialSendCmd (serial_port : Z) (data : list Z) (json_value : Value)
    : option (bool * Value) :=
  if (serial_port =? 0) || (serial_port =? 1) then
    let comm := if serial_port =? 0 then str "rs485-1" else str "rs485-2" in
    json ← set_members json_value
      [("cmd", str "ttransmission"); ("subcmd", str "send"); ("comm", comm);
       ("data", stringValue (EncodeFromArray data));
       ("datalen", intValue (Z.of_nat (length data)))]%string;
    Some (true, json)
  else Some (false, json_value).

Definition GeneratSetOfflineCheckCmd (interval : Z) (json_value : Value) : option Value :=
  set_members json_value [("cmd", str "offline"); ("interval", uintValue interval)]%string.
Definition GeneratCancelOfflineCheckCmd (json_value : Value) : option Value :=
  set_members json_value [("cmd", str "offline"); ("subcmd", str "cancel")]%string.
Definition GeneratOfflineCheckCmd (interval : Z) (json_value : Value) : option Value :=
  set_members json_value [("cmd", str "offline"); ("interval", uintValue interval)]%string.
Definition GeneratGetImageByIdCmd (id : Z) (json_value : Value) : option Value :=
  set_members json_value [("cmd", str "get_image"); ("id", intValue id)]%string.
Definition GeneratGetRecordByIdCmd (id : Z) (needImg : bool) (json_value : Value) : option Value :=
  set_members json_value
    [("cmd", str "get_record"); ("id", intValue id); ("format", str "json");
     ("image", booleanValue needImg)]%string.
Definition GeneraGetMaxRecordID (json_value : Value) : option Value :=
  set_members json_value [("cmd", str "get_max_rec_id")]%string.
Definition GeneratGetDeviceSN (_session_id : Z) (json_value : Value) : option Value :=
  set_members json_value [("cmd", str "getsn")]%string.

(** [IvsFormat]: FORMAT_BIN is 0, FORMAT_JSON is 1. *)
Definition IvsFormatToString (ivs_format : Z) : list Z :=
  if ivs_format =? 0 then bytes "bin" else bytes "json".
Definition GeneratIVSResult (enable_result : bool) (format : Z) (enable_img : bool) (img_type : Z)
    (req_json : Value) : option Value :=
  set_members req_json
    [("cmd", str "ivsresult"); ("enable", booleanValue enable_result);
     ("format", stringValue (IvsFormatToString format)); ("image", booleanValue enable_img);
     ("image_type", intValue img_type)]%string.
Definition GeneratForceTrigger (json_value : Value) : option Value :=
  set_members json_value [("cmd", str "trigger")]%string.
Definition GeneratGetGPIOValueCmd (gpio : Z) (json_value : Value) : option Value :=
  set_members json_value [("cmd", str "get_gpio_value"); ("gpio", intValue gpio)]%string.
Definition GeneratSetGPIOAutoCmd (gpio duration : Z) (json_value : Value) : option Value :=
  set_members json_value
    [("cmd", str "ioctl"); ("io", intValue gpio); ("value", intValue 2);
     ("delay", intValue duration)]%string.
Definition GeneratSetIOOutputCmd (gpio nOutput : Z) (json_value : Value) : option (bool * Value) :=
  if (nOutput =? 0) || (nOutput =? 1) then
    json ← set_members json_value
      [("cmd", str "ioctl"); ("io", intValue gpio); ("value", intValue nOutput)]%string;
    Some (true, json)
  else Some (false, json_value).
Definition GeneratDeleteWlistVehicleCmd (plate_code : list Z) (json_value : Value) : option Value :=
  set_members json_value
    [("cmd", str "white_list_operator"); ("operator_type", str "delete");
     ("plate", stringValue plate_code)]%string.
Definition GeneratQueryWlistVehicleCmd (plate_code : list Z) (json_value : Value) : option Value :=
  set_members json_value
    [("cmd", str "white_list_operator"); ("operator_type", str "select");
     ("sub_type", str "plate"); ("plate", stringValue plate_code)]%string.

(** ** The white list *)
Definition VZ_LPR_WLIST_LP_MAX_LEN : nat := 32.
Definition VZ_LPR_WLIST_VEHICLE_CODE_LEN : nat := 32.
Definition VZ_LPR_WLIST_VEHICLE_COMMENT_LEN : nat := 64.

(** A [VZ_TM] is its six shorts, as 16-bit words, in memory order: year, month,
    day, hour, minute, second. *)
Record VZ_LPR_WLIST_VEHICLE := mkVehicle {
  uVehicleID : Z;
  strPlateID : list Z;
  uCustomerID : Z;
  bEnable : Z;
  bEnableTMEnable : Z;
  bEnableTMOverdule : Z;
  struTMEnable : list Z;
  struTMOverdule : list Z;
  bUsingTimeSeg : Z;
  bAlarm : Z;
  iColor : Z;
  iPlateType : Z;
  strCode : list Z;
  strComment : list Z }.

(** A short promoted to int. *)
Definition i16 (z : Z) : Z := wrap 16 (z + 2 ^ 15) - 2 ^ 15.

(** [sprintf(buf, "%d-%02d-%02d %02d:%02d:%02d", ...)]. *)
Definition print_time (tm : list Z) : list Z :=
  let f i := i16 (tm !!! i) in
  print_d (f 0%nat) ++ bytes "-" ++ print_02d (f 1%nat) ++ bytes "-" ++ print_02d (f 2%nat)
  ++ bytes " " ++ print_02d (f 3%nat) ++ bytes ":" ++ print_02d (f 4%nat) ++ bytes ":"
  ++ print_02d (f 5%nat).

Definition GeneratImportWlistVehicleCmd (item : VZ_LPR_WLIST_VEHICLE) (json_value : Value)
    : option Value :=
  json_value ← set_members json_value
    [("cmd", str "white_list_operator"); ("operator_type", str "update_or_add")]%string;
  record ← set_members nullValue
    [("index", uintValue (uVehicleID item));
     ("plate", stringValue (c_str (strPlateID item)));
     ("customer_id", uintValue (uCustomerID item));
     ("enable", uintValue (bEnable item));
     ("enable_time", stringValue (print_time (struTMEnable item)));
     ("overdue_time", stringValue (print_time (struTMOverdule item)));
     ("time_seg_enable", uintValue (bUsingTimeSeg item));
     ("need_alarm", uintValue (bAlarm item));
     ("vehicle_code", stringValue (c_str (strCode item)));
     ("vehicle_comment", stringValue (c_str (strComment item)))]%string;
  set_members json_value [("dldb_rec", record)]%string.

(** ** Replies *)

(** [if (v[...].isInt()) x = v[...].asInt();], [x] being of the type [conv]
    converts to. *)
Definition int_at (v : Value) (path : list string) (conv : Z -> Z) (x : Z) : outcome Z :=
  m ← lift (index_path v path);
  if isInt m then z ← lift (asInt m); Done (conv z) else Done x.
(** [if (v[key].isString()) copy(x, v[key].asCString());] *)
Definition string_at {A} (v : Value) (key : string) (copy : A -> list Z -> outcome A) (x : A)
    : outcome A :=
  m ← lift (index_path v [key]);
  if isString m then s ← lift (asCString m); copy x s else Done x.
(** [if (!v[key].isNull()) x = v[key].as...();] *)
Definition unless_null {A} (v : Value) (key : string) (conv : Value -> option A) (x : A) : outcome A :=
  m ← lift (index_path v [key]);
  if negb (isNull m) then lift (conv m) else Done x.

Record TTRANSMISSION_RESPONSE := mkTTransmission {
  tt_subcmd : option (list Z); tt_response : option (list Z);
  tt_datalen : Z; tt_comm : Z; tt_data : option (list Z) }.
Definition ParseTTransmissionResponse (root : Value) (value : TTRANSMISSION_RESPONSE)
    : outcome TTRANSMISSION_RESPONSE :=
  subcmd ← unless_null root "subcmd" (fun m => Some <$> asCString m) (tt_subcmd value);
  response ← unless_null root "response" (fun m => Some <$> asCString m) (tt_response value);
  datalen ← unless_null root "datalen" asUInt (tt_datalen value);
  comm ← unless_null root "comm" asUInt (tt_comm value);
  data ← unless_null root "data" (fun m => Some <$> asCString m) (tt_data value);
  Done (mkTTransmission subcmd response datalen comm data).

Record OFFLINE_RESPONSE := mkOffline { of_subcmd : option (list Z); of_response : option (list Z) }.
Definition ParseOfflineResponse (root : Value) (value : OFFLINE_RESPONSE) : outcome OFFLINE_RESPONSE :=
  subcmd ← unless_null root "subcmd" (fun m => Some <$> asCString m) (of_subcmd value);
  response ← unless_null root "response" (fun m => Some <$> asCString m) (of_response value);
  Done (mkOffline subcmd response).

Record RECORD_RESPONSE := mkRecord { rr_id : Z; rr_size : Z }.
Definition ParseRecordResponse (root : Value) (value : RECORD_RESPONSE) : outcome RECORD_RESPONSE :=
  id ← unless_null root "id" asUInt (rr_id value);
  size ← unless_null root "size" asUInt (rr_size value);
  Done (mkRecord id size).

Record GPIO_RESPONSE := mkGPIO { gp_gpio : Z; gp_val : Z }.
Definition ParseGPIOResponse (root : Value) (value : GPIO_RESPONSE) : outcome GPIO_RESPONSE :=
  gpio ← unless_null root "gpio" asUInt (gp_gpio value);
  val ← unless_null root "value" asUInt (gp_val value);
  Done (mkGPIO gpio val).

Definition ParseMaxRecResponse (root : Value) (max_id : Z) : outcome Z :=
  unless_null root "max_id" asUInt max_id.
Definition ParseTimestampResponse (root : Value) (timestamp : Z) : outcome Z :=
  unless_null root "timestamp" asUInt timestamp.

Record WHITE_LIST_OPERATOR_RESPONSE := mkWhiteListOperator {
  wo_operator_type : option (list Z); wo_state : option (list Z); wo_record_count : Z }.
Definition ParseWhiteListOperatorResponse (root : Value) (value : WHITE_LIST_OPERATOR_RESPONSE)
    : outcome WHITE_LIST_OPERATOR_RESPONSE :=
  operator_type ← unless_null root "operator_type" (fun m => Some <$> asCString m) (wo_operator_type value);
  state ← unless_null root "state" (fun m => Some <$> asCString m) (wo_state value);
  count ← unless_null root "dldb_rec" (fun m => Some (size m)) (wo_record_count value);
  Done (mkWhiteListOperator operator_type state count).

(** ** A white list record *)
Section wlist.
Context {HO : Host}.

(** The two [VZ_TM]s and [bUsingTimeSeg], which follow each other in memory, as
    16-bit words; [sscanf] stores a 32-bit int at a word. *)
Definition int_words (z : Z) : list Z :=
  let lo := u16 z in let hi := u16 (z / 2 ^ 16) in
  if host_big then [hi; lo] else [lo; hi].
Definition words_int (ws : list Z) : Z :=
  if host_big then ws !!! 0%nat * 2 ^ 16 + ws !!! 1%nat
  else ws !!! 1%nat * 2 ^ 16 + ws !!! 0%nat.
Definition tm_memory (v : VZ_LPR_WLIST_VEHICLE) : list Z :=
  struTMEnable v ++ struTMOverdule v ++ int_words (bUsingTimeSeg v).

Fixpoint store_ints (i : nat) (vals : list Z) (mem : list Z) : list Z :=
  match vals with
  | [] => mem
  | z :: vals => store_ints (S i) vals (write_at i (int_words z) mem)
  end.

Definition time_format : list scan_item :=
  [ScanInt; ScanChar 45; ScanInt; ScanChar 45; ScanInt; ScanSpace; ScanInt; ScanChar 58; ScanInt;
   ScanChar 58; ScanInt].

(** [sscanf(s, "%d-%d-%d %d:%d:%d", &tm.nYear, ...)], [tm] being at word [i]. *)
Definition scan_time (i : nat) (v : VZ_LPR_WLIST_VEHICLE) (s : list Z) : VZ_LPR_WLIST_VEHICLE :=
  let mem := store_ints i (sscanf s time_format) (tm_memory v) in
  mkVehicle (uVehicleID v) (strPlateID v) (uCustomerID v) (bEnable v) (bEnableTMEnable v)
    (bEnableTMOverdule v) (take 6 mem) (slice 6 6 mem) (words_int (drop 12 mem)) (bAlarm v) (iColor v) (iPlateType v)
    (strCode v) (strComment v).
Definition set_bEnableTMEnable (v : VZ_LPR_WLIST_VEHICLE) (b : Z) : VZ_LPR_WLIST_VEHICLE :=
  mkVehicle (uVehicleID v) (strPlateID v) (uCustomerID v) (bEnable v) b
    (bEnableTMOverdule v) (struTMEnable v) (struTMOverdule v) (bUsingTimeSeg v) (bAlarm v) (iColor v) (iPlateType v)
    (strCode v) (strComment v).
Definition set_bEnableTMOverdule (v : VZ_LPR_WLIST_VEHICLE) (b : Z) : VZ_LPR_WLIST_VEHICLE :=
  mkVehicle (uVehicleID v) (strPlateID v) (uCustomerID v) (bEnable v) (bEnableTMEnable v)
    b (struTMEnable v) (struTMOverdule v) (bUsingTimeSeg v) (bAlarm v) (iColor v) (iPlateType v)
    (strCode v) (strComment v).

Definition ParseWhiteListRecordResponse (item : Value) (w : VZ_LPR_WLIST_VEHICLE)
    : outcome VZ_LPR_WLIST_VEHICLE :=
  let copy n dest s := Done (strncpy dest s n) in
  index ← int_at item ["index"%string] u32 (uVehicleID w);
  plate ← string_at item "plate" (copy (VZ_LPR_WLIST_LP_MAX_LEN - 1)%nat) (strPlateID w);
  customer ← int_at item ["ustomer_id"%string] u32 (uCustomerID w);
  enable ← int_at item ["enable"%string] u32 (bEnable w);
  let w := mkVehicle index plate customer enable (bEnableTMEnable w) (bEnableTMOverdule w)
    (struTMEnable w) (struTMOverdule w) (bUsingTimeSeg w) (bAlarm w) (iColor w) (iPlateType w)
    (strCode w) (strComment w) in
  w ← string_at item "enable_time"
    (fun w s => Done (set_bEnableTMEnable (scan_time 0 w s) 1)) w;
  w ← string_at item "overdue_time"
    (fun w s => Done (set_bEnableTMOverdule (scan_time 6 w s) 1)) w;
  time_seg ← int_at item ["time_seg_enable"%string] u32 (bUsingTimeSeg w);
  alarm ← int_at item ["need_alarm"%string] u32 (bAlarm w);
  code ← string_at item "vehicle_code" (copy (VZ_LPR_WLIST_VEHICLE_CODE_LEN - 1)%nat) (strCode w);
  comment ← string_at item "vehicle_comment"
    (copy (VZ_LPR_WLIST_VEHICLE_COMMENT_LEN - 1)%nat) (strComment w);
  Done (mkVehicle (uVehicleID w) (strPlateID w) (uCustomerID w) (bEnable w) (bEnableTMEnable w)
    (bEnableTMOverdule w) (struTMEnable w) (struTMOverdule w) time_seg alarm
    (iColor w) (iPlateType w) code comment).
End wlist.

(** ** A plate *)
Record TH_RECT := mkRect { rc_left : Z; rc_top : Z; rc_right : Z; rc_bottom : Z }.
Record VzBDTime := mkBDTime {
  bdt_sec : Z; bdt_min : Z; bdt_hour : Z; bdt_mday : Z; bdt_mon : Z; bdt_year : Z }.
Record TH_PlateResult := mkPlate {
  license : list Z; color : list Z;
  nColor : Z; nType : Z; nConfidence : Z; nBright : Z; nDirection : Z;
  rcLocation : TH_RECT; nTime : Z; uTVSec : Z; uTVUSec : Z; uBitsTrigType : Z;
  nCarBright : Z; nCarColor : Z; uId : Z; struBDTime : VzBDTime }.
Definition TH_LP_LEN : nat := 16.
Definition COLOR_LEN : nat := 8.

(** The time string is scanned into six ints that start as 0. *)
Definition scan_bdtime (s : list Z) : VzBDTime :=
  let v := sscanf s time_format in
  let f i := nth i v 0 in
  mkBDTime (u8 (f 5%nat)) (u8 (f 4%nat)) (u8 (f 3%nat)) (u8 (f 2%nat)) (u8 (f 1%nat)) (u32 (f 0%nat)).

(** The result, [fullImgSize] and [clipImgSize]. *)
Definition ParsePlateResultResponse (root : Value) (r : TH_PlateResult) (fullImgSize clipImgSize : Z)
    : outcome (TH_PlateResult * Z * Z) :=
  plate ← lift (index_path root ["PlateResult"%string]);
  let int key conv x := int_at plate [key] conv x in
  let rect key x := int_at plate ["location"%string; "RECT"%string; key] id x in
  let timeval key x := int_at plate ["timeStamp"%string; "Timeval"%string; key] u32 x in
  let copy dest s := lift_undefined (strcpy dest s) in
  license ← string_at plate "license" copy (license r);
  color ← string_at plate "colorValue" copy (color r);
  nColor ← int "colorType"%string id (nColor r);
  nType ← int "type"%string id (nType r);
  nConfidence ← int "confidence"%string id (nConfidence r);
  nBright ← int "bright"%string id (nBright r);
  nDirection ← int "direction"%string id (nDirection r);
  left ← rect "left"%string (rc_left (rcLocation r));
  top ← rect "top"%string (rc_top (rcLocation r));
  right ← rect "right"%string (rc_right (rcLocation r));
  bottom ← rect "bottom"%string (rc_bottom (rcLocation r));
  nTime ← int "timeUsed"%string id (nTime r);
  nCarBright ← int "carBright"%string u8 (nCarBright r);
  nCarColor ← int "carColor"%string u8 (nCarColor r);
  sec ← timeval "sec"%string (uTVSec r);
  usec ← timeval "usec"%string (uTVUSec r);
  trig ← int "triggerType"%string u32 (uBitsTrigType r);
  uId ← int_at root ["id"%string] u32 (uId r);
  bdtime ← string_at root "timeString" (fun _ s => Done (scan_bdtime s)) (struBDTime r);
  full ← int_at root ["fullImgSize"%string] id fullImgSize;
  clip ← int_at root ["clipImgSize"%string] id clipImgSize;
  Done (mkPlate license color nColor nType nConfidence nBright nDirection
    (mkRect left top right bottom) nTime sec usec trig nCarBright nCarColor uId bdtime, full, clip).

(** ** Times are scanned back *)
Definition time_ok (tm : list Z) : Prop := length tm = 6%nat /\ Forall (fun w => 0 <= w < 2 ^ 15) tm.

Lemma i16_id w : 0 <= w < 2 ^ 15 -> i16 w = w.
Proof. unfold i16, wrap. intros. rewrite Z.mod_small; lia. Qed.

Lemma time_ok_elems tm : time_ok tm -> exists y mo d h mi s, tm = [y; mo; d; h; mi; s] /\
  0 <= y < 2 ^ 15 /\ 0 <= mo < 2 ^ 15 /\ 0 <= d < 2 ^ 15 /\ 0 <= h < 2 ^ 15 /\ 0 <= mi < 2 ^ 15 /\
  0 <= s < 2 ^ 15.
Proof.
  intros [Hl H]. do 6 (destruct tm as [|? tm]; [done|]; apply Forall_cons_1 in H as [? H]).
  destruct tm; [|done]. by do 6 eexists.
Qed.

Lemma sscanf_d n s fmt : 0 <= n < 2 ^ 15 -> stops s ->
  sscanf (print_d n ++ s) (ScanInt :: fmt) = n :: sscanf s fmt.
Proof. intros. cbn [sscanf]. by rewrite scan_print_d by (done || lia). Qed.
Lemma sscanf_02d n s fmt : 0 <= n < 2 ^ 15 -> stops s ->
  sscanf (print_02d n ++ s) (ScanInt :: fmt) = n :: sscanf s fmt.
Proof. intros. cbn [sscanf]. by rewrite scan_print_02d by (done || lia). Qed.
Lemma sscanf_char c s fmt : sscanf (c :: s) (ScanChar c :: fmt) = sscanf s fmt.
Proof. cbn. by rewrite Z.eqb_refl. Qed.
Lemma print_02d_skip n s : 0 <= n < 2 ^ 15 -> skip_spaces (print_02d n ++ s) = print_02d n ++ s.
Proof.
  intros Hn. assert (exists c l, print_02d n = c :: l /\ is_digit c = true) as (c & l & -> & Hc).
  { unfold print_02d, print_d. destruct (Z.ltb_spec n 0); [lia|].
    destruct (_ <? _)%nat; [by do 2 eexists|]. apply digits_head; lia. }
  cbn. assert (is_space c = false) as ->; [|done]. unfold is_digit, is_space in *. lia.
Qed.

Lemma sscanf_space n s fmt : 0 <= n < 2 ^ 15 ->
  sscanf (32 :: print_02d n ++ s) (ScanSpace :: fmt) = sscanf (print_02d n ++ s) fmt.
Proof. intros. cbn [sscanf skip_spaces]. change (is_space 32) with true. cbn iota. by rewrite print_02d_skip. Qed.

Lemma scan_print_time tm : time_ok tm -> sscanf (print_time tm) time_format = tm.
Proof.
  intros (y & mo & d & h & mi & s & -> & ? & ? & ? & ? & ? & ?)%time_ok_elems.
  unfold print_time, time_format. cbn [lookup_total list_lookup_total].
  rewrite !i16_id by done.
  change (bytes "-") with [45]. change (bytes " ") with [32]. change (bytes ":") with [58].
  rewrite <- (app_nil_r (print_02d s)).
  repeat first [ rewrite sscanf_d by done | rewrite sscanf_02d by done
    | progress cbn [app] | rewrite sscanf_char | rewrite sscanf_space by done ].
  done.
Qed.

Lemma print_time_c_str tm : c_str (print_time tm) = print_time tm.
Proof.
  apply c_str_id. unfold print_time.
  repeat (apply Forall_app; split); try (apply print_d_no_nul || apply print_02d_no_nul);
    by constructor.
Qed.

(** ** The white list round trip *)
Section wlist_roundtrip.
Context {HO : Host}.

(** A vehicle the client can send: texts that fit their arrays with a NUL to
    spare, times in range, and numbers an int can hold. *)
Record vehicle_ok (v : VZ_LPR_WLIST_VEHICLE) : Prop := {
  vo_plate : (length (c_str (strPlateID v)) < VZ_LPR_WLIST_LP_MAX_LEN - 1)%nat;
  vo_code : (length (c_str (strCode v)) < VZ_LPR_WLIST_VEHICLE_CODE_LEN - 1)%nat;
  vo_comment : (length (c_str (strComment v)) < VZ_LPR_WLIST_VEHICLE_COMMENT_LEN - 1)%nat;
  vo_enable_time : time_ok (struTMEnable v);
  vo_overdue_time : time_ok (struTMOverdule v);
  vo_ints : Forall (fun z => 0 <= z < 2 ^ 31)
    [uVehicleID v; bEnable v; bUsingTimeSeg v; bAlarm v] }.

Lemma int_words_small z : host_big = false -> 0 <= z < 2 ^ 15 -> int_words z = [z; 0].
Proof. unfold int_words. intros -> Hz. do 2 f_equal; [|f_equal]; word_lia. Qed.

(** On a little-endian host the stores leave the six values, and a 0 after. *)
Lemma store_time mem i tm pre old next post :
  host_big = false -> time_ok tm -> length old = 6%nat -> length pre = i ->
  mem = pre ++ old ++ next :: post ->
  store_ints i tm mem = pre ++ tm ++ 0 :: post.
Proof.
  intros Hle (y & mo & d & h & mi & s & -> & ? & ? & ? & ? & ? & ?)%time_ok_elems Ho Hp ->.
  do 6 (destruct old as [|? old]; [done|]). destruct old; [|done].
  cbn [store_ints]. rewrite !int_words_small by done.
  assert (Hstore : forall p z b c l, write_at (length p) [z; 0] (p ++ b :: c :: l) = (p ++ [z]) ++ 0 :: l).
  { clear. intros p z b c l. unfold write_at. rewrite take_app_length, drop_app_ge by lia.
    cbn [length]. replace (length p + 2 - length p)%nat with 2%nat by lia.
    cbn [drop app]. by rewrite <- app_assoc. }
  subst i. cbn [app].
  assert (Hnext : forall p z, S (length p) = length (p ++ [z : Z])).
  { clear. intros. rewrite length_app. simpl. lia. }
  rewrite Hstore, (Hnext pre y), Hstore, (Hnext _ mo), Hstore, (Hnext _ d), Hstore, (Hnext _ h), Hstore,
    (Hnext _ mi), Hstore.
  by rewrite <- !app_assoc.
Qed.

Lemma int_at_member v key m conv x :
  index_const v key = Some m -> int_at v [key] conv x =
  if isInt m then z ← lift (asInt m); Done (conv z) else Done x.
Proof. intros H. unfold int_at. by rewrite (index_path_cons _ _ _ _ H). Qed.
Lemma string_at_member {A} v key m (copy : A -> list Z -> outcome A) x :
  index_const v key = Some m -> string_at v key copy x =
  if isString m then s ← lift (asCString m); copy x s else Done x.
Proof. intros H. unfold string_at. by rewrite (index_path_cons _ _ _ _ H). Qed.

Lemma int_at_uint v key z x :
  index_const v key = Some (uintValue z) -> 0 <= z < 2 ^ 31 -> int_at v [key] u32 x = Done z.
Proof.
  intros H Hz. rewrite (int_at_member _ _ _ _ _ H). cbn [isInt asInt].
  assert ((z <=? maxInt) = true) as -> by (unfold maxInt; lia).
  cbn. by rewrite u32_id by (unfold in_width; lia).
Qed.
Lemma string_at_string {A} v key s (copy : A -> list Z -> outcome A) x :
  index_const v key = Some (stringValue s) -> c_str s = s -> string_at v key copy x = copy x s.
Proof. intros H Hs. rewrite (string_at_member _ _ _ _ _ H). cbn. by rewrite Hs. Qed.

Lemma scan_time_enable v tm : host_big = false -> time_ok tm ->
  length (struTMEnable v) = 6%nat -> length (struTMOverdule v) = 6%nat ->
  scan_time 0 v (print_time tm) =
  mkVehicle (uVehicleID v) (strPlateID v) (uCustomerID v) (bEnable v) (bEnableTMEnable v)
    (bEnableTMOverdule v) tm (0 :: drop 1 (struTMOverdule v)) (words_int (int_words (bUsingTimeSeg v)))
    (bAlarm v) (iColor v) (iPlateType v) (strCode v) (strComment v).
Proof.
  intros Hle Htm H1 H2. unfold scan_time. rewrite scan_print_time by done.
  destruct (struTMOverdule v) as [|w0 o] eqn:Eo; [done|].
  rewrite (store_time _ 0 tm [] (struTMEnable v) w0 (o ++ int_words (bUsingTimeSeg v)));
    [|done|done|done|done|unfold tm_memory; by rewrite Eo].
  destruct (time_ok_elems tm Htm) as (y & mo & d & h & mi & s & -> & _).
  do 5 (destruct o as [|? o]; [done|]). by destruct o.
Qed.

Lemma scan_time_overdue v tm : host_big = false -> time_ok tm ->
  length (struTMEnable v) = 6%nat -> length (struTMOverdule v) = 6%nat ->
  exists seg, scan_time 6 v (print_time tm) =
  mkVehicle (uVehicleID v) (strPlateID v) (uCustomerID v) (bEnable v) (bEnableTMEnable v)
    (bEnableTMOverdule v) (struTMEnable v) tm seg (bAlarm v) (iColor v) (iPlateType v) (strCode v) (strComment v) /\
    seg = u16 (bUsingTimeSeg v / 2 ^ 16) * 2 ^ 16.
Proof.
  intros Hle Htm H1 H2. unfold scan_time. rewrite scan_print_time by done.
  rewrite (store_time _ 6 tm (struTMEnable v) (struTMOverdule v) (u16 (bUsingTimeSeg v))
    [u16 (bUsingTimeSeg v / 2 ^ 16)]);
    [|done|done|done|done|unfold tm_memory, int_words; by rewrite Hle].
  destruct (time_ok_elems tm Htm) as (y & mo & d & h & mi & s & -> & _).
  remember (struTMEnable v) as e eqn:Ee.
  do 6 (destruct e as [|? e]; [done|]). destruct e; [|done].
  eexists. split; [reflexivity|]. unfold words_int. rewrite Hle. cbn -[Z.mul Z.pow]. lia.
Qed.

(** The record of the command, member by member. *)
Lemma import_record item :
  exists cmd rec, GeneratImportWlistVehicleCmd item nullValue = Some cmd /\
    index_const cmd "dldb_rec" = Some rec /\
    index_const rec "index" = Some (uintValue (uVehicleID item)) /\
    index_const rec "plate" = Some (stringValue (c_str (strPlateID item))) /\
    index_const rec "ustomer_id" = Some nullValue /\
    index_const rec "enable" = Some (uintValue (bEnable item)) /\
    index_const rec "enable_time" = Some (stringValue (print_time (struTMEnable item))) /\
    index_const rec "overdue_time" = Some (stringValue (print_time (struTMOverdule item))) /\
    index_const rec "time_seg_enable" = Some (uintValue (bUsingTimeSeg item)) /\
    index_const rec "need_alarm" = Some (uintValue (bAlarm item)) /\
    index_const rec "vehicle_code" = Some (stringValue (c_str (strCode item))) /\
    index_const rec "vehicle_comment" = Some (stringValue (c_str (strComment item))).
Proof.
  unfold GeneratImportWlistVehicleCmd.
  destruct (set_members_container nullValue [("cmd", str "white_list_operator");
    ("operator_type", str "update_or_add")]%string) as (v1 & -> & Hc1 & _); [by left|].
  cbn [mbind option_bind].
  match goal with |- context [set_members nullValue ?ms] =>
    destruct (set_members_container nullValue ms) as (rec & -> & _ & Hr); [by left|] end.
  cbn [mbind option_bind].
  destruct (set_members_container v1 [("dldb_rec", rec)]%string Hc1) as (cmd & -> & _ & Hcmd).
  exists cmd, rec. rewrite Hcmd, !Hr. by split_and!.
Qed.

(** What the client gets when a vehicle [item] comes back and is parsed over [w0]. *)
Record vehicle_received (w0 item w : VZ_LPR_WLIST_VEHICLE) : Prop := {
  rv_id : uVehicleID w = uVehicleID item;
  rv_plate : c_str (strPlateID w) = c_str (strPlateID item);
  rv_enable : bEnable w = bEnable item;
  rv_enable_time : struTMEnable w = struTMEnable item;
  rv_has_enable_time : bEnableTMEnable w = 1;
  rv_overdue_time : struTMOverdule w = struTMOverdule item;
  rv_has_overdue_time : bEnableTMOverdule w = 1;
  rv_time_seg : bUsingTimeSeg w = bUsingTimeSeg item;
  rv_alarm : bAlarm w = bAlarm item;
  rv_code : c_str (strCode w) = c_str (strCode item);
  rv_comment : c_str (strComment w) = c_str (strComment item);
  rv_customer : uCustomerID w = uCustomerID w0;
  rv_color : iColor w = iColor w0;
  rv_plate_type : iPlateType w = iPlateType w0 }.

Lemma import_received item w0 :
  host_big = false -> vehicle_ok item ->
  length (struTMEnable w0) = 6%nat -> length (struTMOverdule w0) = 6%nat ->
  exists cmd rec w, GeneratImportWlistVehicleCmd item nullValue = Some cmd /\
    index_const cmd "dldb_rec" = Some rec /\
    ParseWhiteListRecordResponse rec w0 = Done w /\ vehicle_received w0 item w.
Proof.
  intros Hle [Hp Hc Hm Ht1 Ht2 Hints] H1 H2.
  destruct (import_record item) as (cmd & rec & E & Hrec & M1 & M2 & M3 & M4 & M5 & M6 & M7 & M8 & M9 & M10).
  apply Forall_cons_1 in Hints as [I1 Hints]. apply Forall_cons_1 in Hints as [I2 Hints].
  apply Forall_cons_1 in Hints as [I3 Hints]. apply Forall_cons_1 in Hints as [I4 _].
  exists cmd, rec. unfold ParseWhiteListRecordResponse.
  rewrite (int_at_uint _ _ _ _ M1) by done. run.
  rewrite (string_at_string _ _ _ _ _ M2) by (apply c_str_id, c_str_no_nul). run.
  rewrite (int_at_member _ _ _ _ _ M3). cbn [isInt]. run.
  rewrite (int_at_uint _ _ _ _ M4) by done. run.
  rewrite (string_at_string _ _ _ _ _ M5) by apply print_time_c_str. run.
  rewrite (string_at_string _ _ _ _ _ M6) by apply print_time_c_str. run.
  rewrite scan_time_enable by done.
  match goal with |- context [scan_time 6 ?v _] =>
    destruct (scan_time_overdue v (struTMOverdule item)) as (seg & -> & _);
      [done|done|apply Ht1|cbn; rewrite length_drop; lia|] end.
  rewrite (int_at_uint _ _ _ _ M7) by done. run. rewrite (int_at_uint _ _ _ _ M8) by done. run.
  rewrite (string_at_string _ _ _ _ _ M9) by (apply c_str_id, c_str_no_nul). run.
  rewrite (string_at_string _ _ _ _ _ M10) by (apply c_str_id, c_str_no_nul). run.
  eexists. split; [done|]. split; [done|]. split; [reflexivity|].
  split; cbn [uVehicleID strPlateID bEnable struTMEnable bEnableTMEnable struTMOverdule bEnableTMOverdule
    bUsingTimeSeg bAlarm strCode strComment uCustomerID iColor iPlateType set_bEnableTMOverdule set_bEnableTMEnable]; try done.
  all: rewrite c_str_strncpy, (c_str_id (c_str _)) by (apply c_str_no_nul ||
    (rewrite (c_str_id (c_str _)) by apply c_str_no_nul; done)); done.
Qed.

(** C30. Importing a vehicle and parsing the record that was sent gives back its id,
    texts, times and flags, except these: the customer is written as
    ["customer_id"] and read as ["ustomer_id"], and color and plate type are not
    sent, so the receiver's values stay; the flags that say there are times are
    not sent either, and come back as 1 whatever they were. *)
Theorem wlist_roundtrip item w0 :
  host_big = false -> vehicle_ok item ->
  length (struTMEnable w0) = 6%nat -> length (struTMOverdule w0) = 6%nat ->
  exists cmd rec w, GeneratImportWlistVehicleCmd item nullValue = Some cmd /\
    index_const cmd "dldb_rec" = Some rec /\
    ParseWhiteListRecordResponse rec w0 = Done w /\
    uVehicleID w = uVehicleID item /\ c_str (strPlateID w) = c_str (strPlateID item) /\
    bEnable w = bEnable item /\ struTMEnable w = struTMEnable item /\ bEnableTMEnable w = 1 /\
    struTMOverdule w = struTMOverdule item /\ bEnableTMOverdule w = 1 /\
    bUsingTimeSeg w = bUsingTimeSeg item /\ bAlarm w = bAlarm item /\
    c_str (strCode w) = c_str (strCode item) /\ c_str (strComment w) = c_str (strComment item) /\
    uCustomerID w = uCustomerID w0 /\ iColor w = iColor w0 /\ iPlateType w = iPlateType w0.
Proof.
  intros Hle Hok H1 H2. destruct (import_received item w0 Hle Hok H1 H2) as (cmd & rec & w & E & Hr & Hp & []).
  exists cmd, rec, w. by split_and!.
Qed.

(** [sscanf] is given the addresses of shorts for [%d]: storing the last one
    clears the low half of the next field.  A record with an overdue time and no
    time segment switches the segment flag off. *)
Theorem overdue_time_clobbers rec tm w0 :
  host_big = false -> time_ok tm ->
  length (struTMEnable w0) = 6%nat -> length (struTMOverdule w0) = 6%nat ->
  rec = objectValue [("overdue_time"%string, stringValue (print_time tm))] ->
  0 <= bUsingTimeSeg w0 < 2 ^ 16 ->
  exists w, ParseWhiteListRecordResponse rec w0 = Done w /\ struTMOverdule w = tm /\
    bUsingTimeSeg w = 0.
Proof.
  intros Hle Htm H1 H2 -> Hseg. unfold ParseWhiteListRecordResponse.
  unfold string_at, int_at. cbn [index_path resolveReference map_find String.eqb Ascii.eqb Bool.eqb
    mbind option_bind outcome_mbind outcome_bind lift isInt isString asCString].
  rewrite print_time_c_str. cbn [lift outcome_bind mbind outcome_mbind].
  match goal with |- context [scan_time 6 ?v _] =>
    destruct (scan_time_overdue v tm) as (seg & -> & Hs); [done|done|done|done|] end.
  eexists. split; [reflexivity|]. cbn [struTMOverdule bUsingTimeSeg set_bEnableTMOverdule].
  split; [done|]. rewrite Hs. cbn [bUsingTimeSeg]. rewrite Z.div_small by lia. done.
Qed.
End wlist_roundtrip.

(** ** Plates *)
Definition as_int (m : Value) : Z := default 0 (asInt m).

Lemma int_at_done v path m conv x :
  index_path v path = Some m ->
  int_at v path conv x = Done (if isInt m then conv (as_int m) else x).
Proof.
  intros H. unfold int_at, as_int. rewrite H. run. destruct (isInt m) eqn:E; [|done].
  destruct (asInt_isInt m E) as (z & ->). done.
Qed.

Lemma container_member v key : container v -> exists m, index_path v [key] = Some m /\
  index_const v key = Some m.
Proof.
  intros [->|[l ->]]; [by eexists|]. cbn. by destruct (map_find key l) eqn:E; eexists.
Qed.

Definition nested (v : Value) (outer : string) : Prop :=
  forall m, index_const v outer = Some m -> container m.
(** A reply whose objects are objects, or missing. *)
Record plate_shape (root plate : Value) : Prop := {
  ps_root : container root;
  ps_plate : index_const root "PlateResult" = Some plate;
  ps_container : container plate;
  ps_location : forall l, index_const plate "location" = Some l -> container l /\ nested l "RECT";
  ps_time : forall l, index_const plate "timeStamp" = Some l -> container l /\ nested l "Timeval" }.

(** Text that fits an array of [n] bytes. *)
Definition text_fits (v : Value) (key : string) (n : nat) : Prop :=
  forall s, index_const v key = Some (stringValue s) -> (length (c_str s) < n)%nat.

Lemma strcpy_at v key dest :
  container v -> text_fits v key (length dest) ->
  exists t, string_at v key (fun d s => lift_undefined (strcpy d s)) dest = Done t /\
    length t = length dest /\
    forall s, index_const v key = Some (stringValue s) -> c_str t = c_str s.
Proof.
  intros Hv Hfit. destruct (container_member v key Hv) as (m & Hp & Hm).
  rewrite (string_at_member _ _ _ _ _ Hm). unfold text_fits in Hfit. rewrite Hm in *.
  destruct m as [| | | |s| | |]; cbn [isString]; try (eexists; split; [done|]; split; [done|]; discriminate).
  specialize (Hfit s eq_refl). cbn [asCString]. run. unfold strcpy.
  rewrite (c_str_id (c_str s)) by apply c_str_no_nul. rewrite length_app. cbn [length].
  destruct (Nat.leb_spec (length (c_str s) + 1) (length dest)); [|lia]. cbn [lift_undefined].
  eexists. split; [done|]. split.
  - rewrite !length_app, length_drop. cbn [length]. lia.
  - intros s' [= <-]. rewrite <- app_assoc, c_str_app by apply c_str_no_nul. cbn. apply app_nil_r.
Qed.

Lemma nested_path plate a b key :
  container plate -> (forall l, index_const plate a = Some l -> container l /\ nested l b) ->
  exists m, index_path plate [a; b; key] = Some m.
Proof.
  intros Hc Hl. destruct (container_member plate a Hc) as (l & _ & Ha).
  destruct (Hl l Ha) as [Hcl Hnl]. rewrite (index_path_cons _ _ _ _ Ha).
  destruct (container_member l b Hcl) as (l2 & _ & Hb).
  rewrite (index_path_cons _ _ _ _ Hb).
  destruct (container_member l2 key (Hnl _ Hb)) as (m & Hm & _). by exists m.
Qed.

(** Reads one int member, whose path leads somewhere. *)
Ltac plate_int tac :=
  match goal with |- context [int_at ?v ?path ?conv ?x] =>
    let m := fresh "m" in let Hm := fresh "Hm" in
    assert (exists m, index_path v path = Some m) as [m Hm] by tac;
    rewrite (int_at_done v path m conv x Hm); run
  end.

(** A well-shaped reply whose texts fit is parsed without a throw or undefined behaviour:
    the texts and numbers it has are copied, and what it lacks is left alone. *)
Theorem plate_result root plate r full clip :
  plate_shape root plate -> length (license r) = TH_LP_LEN -> length (color r) = COLOR_LEN ->
  text_fits plate "license" TH_LP_LEN -> text_fits plate "colorValue" COLOR_LEN ->
  exists r' full' clip', ParsePlateResultResponse root r full clip = Done (r', full', clip') /\
    length (license r') = TH_LP_LEN /\
    (forall s, index_const plate "license" = Some (stringValue s) -> c_str (license r') = c_str s) /\
    (forall m, index_const root "id" = Some m ->
      uId r' = if isInt m then u32 (as_int m) else uId r) /\
    (forall m, index_const plate "triggerType" = Some m ->
      uBitsTrigType r' = if isInt m then u32 (as_int m) else uBitsTrigType r) /\
    (forall m, index_const root "fullImgSize" = Some m -> full' = if isInt m then as_int m else full) /\
    (forall m, index_const root "clipImgSize" = Some m -> clip' = if isInt m then as_int m else clip).
Proof.
  intros [Hroot Hplate Hc Hloc Htime] Hl1 Hl2 Hf1 Hf2. unfold ParsePlateResultResponse.
  rewrite (index_path_cons _ _ _ _ Hplate). run. cbn [index_path]. run.
  rewrite <- Hl1 in Hf1. rewrite <- Hl2 in Hf2.
  destruct (strcpy_at plate "license" (license r) Hc Hf1) as (lic & -> & HL & HS). run.
  destruct (strcpy_at plate "colorValue" (color r) Hc Hf2) as (col & -> & _ & _). run.
  assert (Hp : forall key, exists m, index_path plate [key] = Some m).
  { intros key. destruct (container_member plate key Hc) as (m & ? & _). by exists m. }
  assert (Hr : forall key, exists m, index_path root [key] = Some m).
  { intros key. destruct (container_member root key Hroot) as (m & ? & _). by exists m. }
  repeat plate_int ltac:(first [apply Hp | apply Hr | by apply nested_path]).
  destruct (container_member root "timeString" Hroot) as (ts & _ & Hts).
  assert (exists t, string_at root "timeString" (fun _ s => Done (scan_bdtime s)) (struBDTime r) = Done t)
    as [t ->].
  { rewrite (string_at_member _ _ _ _ _ Hts). destruct ts; cbn [isString asCString]; run; eauto. }
  run. repeat plate_int ltac:(first [apply Hp | apply Hr]).
  do 3 eexists. split; [reflexivity|]. cbn [license uId uBitsTrigType].
  split; [congruence|]. split; [done|].
  assert (Hone : forall v key m m', index_path v [key] = Some m -> index_const v key = Some m' -> m = m').
  { intros v key m' m'' H1 H2. rewrite (index_path_cons _ _ _ _ H2) in H1. by injection H1 as ->. }
  split_and!; intros m' Hm'; unfold id;
    match type of Hm' with index_const ?v ?k = _ =>
      match goal with H : index_path v [k] = Some _ |- _ => by rewrite (Hone _ _ _ _ H Hm') end end.
Qed.

(** A plate of sixteen bytes or more, which is the device's to choose, is copied
    past the end of [license]. *)
Theorem plate_license_overruns root plate s r full clip :
  index_const root "PlateResult" = Some plate ->
  index_const plate "license" = Some (stringValue s) ->
  length (license r) = TH_LP_LEN -> (TH_LP_LEN <= length (c_str s))%nat ->
  ParsePlateResultResponse root r full clip = Undefined.
Proof.
  intros Hp Hl Hr Hs. unfold ParsePlateResultResponse.
  rewrite (index_path_cons _ _ _ _ Hp). run. cbn [index_path]. run.
  rewrite (string_at_member _ _ _ _ _ Hl). cbn [isString asCString]. run. unfold strcpy.
  rewrite (c_str_id (c_str s)) by apply c_str_no_nul.
  rewrite length_app, Hr. cbn [length].
  by destruct (Nat.leb_spec (length (c_str s) + 1) TH_LP_LEN); [lia|].
Qed.

(** ** Concrete runs *)
Definition demo_text (s : string) (n : nat) : list Z := bytes s ++ replicate n 0.
Definition demo_vehicle : VZ_LPR_WLIST_VEHICLE :=
  mkVehicle 12 (demo_text "AB1234" 26) 99 1 0 0 [2016; 2; 29; 23; 59; 7] [2030; 12; 31; 0; 0; 0] 1 0 3 4
    (demo_text "code" 28) (demo_text "a comment" 55).
Definition empty_vehicle : VZ_LPR_WLIST_VEHICLE :=
  mkVehicle 0 (replicate 32 0) 5 0 0 0 (replicate 6 0) (replicate 6 0) 1 0 6 7 (replicate 32 0) (replicate 64 0).

Lemma demo_vehicle_ok : vehicle_ok demo_vehicle.
Proof.
  constructor; try (apply Nat.ltb_lt; vm_compute; reflexivity);
    try (split; [reflexivity|]); repeat constructor; vm_compute; intuition congruence.
Qed.

Lemma wlist_roundtrip_witness :
  let item := demo_vehicle in let w0 := empty_vehicle in
  exists cmd rec w, GeneratImportWlistVehicleCmd item nullValue = Some cmd /\
    index_const cmd "dldb_rec" = Some rec /\
    ParseWhiteListRecordResponse (HO := little_endian) rec w0 = Done w /\
    uVehicleID w = uVehicleID item /\ c_str (strPlateID w) = c_str (strPlateID item) /\
    bEnable w = bEnable item /\ struTMEnable w = struTMEnable item /\ bEnableTMEnable w = 1 /\
    struTMOverdule w = struTMOverdule item /\ bEnableTMOverdule w = 1 /\
    bUsingTimeSeg w = bUsingTimeSeg item /\ bAlarm w = bAlarm item /\
    c_str (strCode w) = c_str (strCode item) /\ c_str (strComment w) = c_str (strComment item) /\
    uCustomerID w = uCustomerID w0 /\ iColor w = iColor w0 /\ iPlateType w = iPlateType w0.
Proof.
  intros item w0. apply (wlist_roundtrip (HO := little_endian)); try reflexivity. exact demo_vehicle_ok.
Defined.

Lemma overdue_time_clobbers_witness :
  let tm := [2030; 12; 31; 0; 0; 0] in
  exists w, ParseWhiteListRecordResponse (HO := little_endian)
      (objectValue [("overdue_time"%string, stringValue (print_time tm))]) empty_vehicle = Done w /\
    struTMOverdule w = tm /\ bUsingTimeSeg w = 0.
Proof.
  intros tm. apply (overdue_time_clobbers (HO := little_endian)); try reflexivity.
  - split; [reflexivity|]. repeat constructor; vm_compute; intuition congruence.
  - vm_compute. intuition congruence.
Defined.

(** A plate as a device sends it. *)
Definition demo_plate : Value :=
  objectValue [("confidence", intValue 98); ("license", str "AB1234"); ("triggerType", intValue 1)]%string.
Definition demo_root : Value :=
  objectValue [("PlateResult", demo_plate); ("clipImgSize", intValue 2); ("cmd", str "ivs_result");
    ("fullImgSize", intValue 3); ("id", intValue 41)]%string.
Definition empty_plate : TH_PlateResult :=
  mkPlate (replicate 16 0) (replicate 8 0) 0 0 0 0 0 (mkRect 0 0 0 0) 0 0 0 0 0 0 0 (mkBDTime 0 0 0 0 0 0).

Lemma plate_result_witness :
  exists r' full' clip', ParsePlateResultResponse demo_root empty_plate 0 0 = Done (r', full', clip') /\
    length (license r') = TH_LP_LEN /\
    (forall s, index_const demo_plate "license" = Some (stringValue s) -> c_str (license r') = c_str s) /\
    (forall m, index_const demo_root "id" = Some m ->
      uId r' = if isInt m then u32 (as_int m) else uId empty_plate) /\
    (forall m, index_const demo_plate "triggerType" = Some m ->
      uBitsTrigType r' = if isInt m then u32 (as_int m) else uBitsTrigType empty_plate) /\
    (forall m, index_const demo_root "fullImgSize" = Some m -> full' = if isInt m then as_int m else 0) /\
    (forall m, index_const demo_root "clipImgSize" = Some m -> clip' = if isInt m then as_int m else 0).
Proof.
  apply plate_result.
  - constructor.
    + right. by eexists.
    + reflexivity.
    + right. by eexists.
    + intros l [= <-]. split; [by left|]. intros m [= <-]. by left.
    + intros l [= <-]. split; [by left|]. intros m [= <-]. by left.
  - reflexivity.
  - reflexivity.
  - intros s [= <-]. apply Nat.ltb_lt. vm_compute. reflexivity.
  - intros s H. discriminate H.
Defined.

Lemma plate_license_overruns_witness :
  let plate := objectValue [("license", str "AB1234AB1234AB1234")]%string in
  ParsePlateResultResponse (objectValue [("PlateResult", plate)]%string) empty_plate 0 0 = Undefined.
Proof.
  intros plate. apply (plate_license_overruns _ plate (bytes "AB1234AB1234AB1234")); try reflexivity.
  apply Nat.leb_le. vm_compute. reflexivity.
Defined.
