(* ===== verification/InternalMessage.v ===== *)
(** * vzsdk/internalmessage.{h,cpp}: the data of the SDK's internal messages

    A [Stanza] is the data of a message between the layers; its subclasses add a
    body.  [static_cast] to a subclass is a match on the body, and undefined when
    the body is another one.  [Address] is the socket address of a device. *)
From Stdlib Require Import String.
From S2P Require Import Prelude Json.

Definition REQ_DISCONNECT_SERVER : Z := 0.
Definition REQ_CONNECT_SERVER : Z := 1.
Definition REQ_SEND_REQUESTION : Z := 2.
Definition REQ_ADD_PUSH_TASK : Z := 3.
Definition REQ_REMOVE_TASK_EVENT : Z := 4.
Definition REQ_REMOVE_SESSION_EVENT : Z := 5.
Definition REQ_RES_BREAK : Z := 0xFF.
Definition RES_DISCONNECTED_EVENT_FAILURE : Z := 0x100.
Definition RES_DISCONNECTED_EVENT_SUCCEED : Z := 0x101.
Definition RES_SESSION_NOT_FOUND : Z := 0x102.
Definition RES_PUSH_SUCCEED : Z := 0x103.
Definition RES_CONNECTED_EVENT : Z := 0x104.
Definition RES_STANZA_EVENT : Z := 0x105.
Definition RES_RECONNECT_EVENT : Z := 0x106.
Definition RES_RESUME_TASK_EVENT : Z := 0x107.
Definition NULL_SESSION_ID : Z := 0.

Section stanza.
Context {Address : Type}.

Inductive body :=
  | NoBody
  | ConnectBody (address_ : Address)
  | RequestBody (req_json_ : Value) (is_push_ : bool)
  | ResponseBody (res_json_ : Value) (res_data_ : list Z).

Record Stanza := mkStanza { stanza_type_ : Z; session_id_ : Z; body_ : body }.

Definition set_stanza_type (s : Stanza) (t : Z) : Stanza := mkStanza t (session_id_ s) (body_ s).
Definition set_session_id (s : Stanza) (id : Z) : Stanza := mkStanza (stanza_type_ s) (u32 id) (body_ s).

Definition ReqConnectData (address : Address) : Stanza :=
  mkStanza REQ_CONNECT_SERVER NULL_SESSION_ID (ConnectBody address).
Definition ReqDisconnectData (session_id : Z) : Stanza :=
  mkStanza REQ_DISCONNECT_SERVER (u32 session_id) NoBody.
Definition RequestData (session_id : Z) (req_json : Value) (is_push : bool) : Stanza :=
  mkStanza REQ_SEND_REQUESTION (u32 session_id) (RequestBody req_json is_push).
Definition ResponseData (session_id : Z) (res_json : Value) (res_data : list Z) : Stanza :=
  mkStanza RES_STANZA_EVENT (u32 session_id) (ResponseBody res_json res_data).

(** [static_cast<ReqConnectData *>(s)->address()] and the like. *)
Definition connect_address (s : Stanza) : outcome Address :=
  match body_ s with ConnectBody a => Done a | _ => Undefined end.
Definition request (s : Stanza) : outcome (Value * bool) :=
  match body_ s with RequestBody j p => Done (j, p) | _ => Undefined end.
Definition response (s : Stanza) : outcome (Value * list Z) :=
  match body_ s with ResponseBody j d => Done (j, d) | _ => Undefined end.
End stanza.
Arguments body : clear implicits.
Arguments Stanza : clear implicits.

(** [type <= nullValue || type > objectValue || isNull()], negated: the types of
    a value are numbered from [nullValue], 0, to [objectValue], 7. *)
Definition type (v : Value) : Z :=
  match v with
  | nullValue => 0 | intValue _ => 1 | uintValue _ => 2 | realValue _ _ => 3
  | stringValue _ => 4 | booleanValue _ => 5 | arrayValue _ => 6 | objectValue _ => 7
  end.
Definition isLegJson (res_json : Value) : bool :=
  negb ((type res_json <=? 0) || (7 <? type res_json) || isNull res_json).
Definition res_json (res_json : Value) : Value :=
  if isLegJson res_json then res_json else nullValue.
Definition res_obj_json (res_json : Value) : Value :=
  if isObject res_json then res_json else nullValue.
Definition isEmpty (res_data : list Z) : bool := (length res_data =? 0)%nat.

(** [response->res_json()[JSON_REQ_CMD].asString()] *)
Definition response_cmd `{DoubleText} (j : Value) : outcome (list Z) :=
  m ← lift (index_const (res_json j) "cmd"); lift (asString m).

Lemma res_json_id j : res_json j = j.
Proof. by destruct j. Qed.
