(* ===== verification/SessionManager.v ===== *)
(** * vzsdk/sessionmanager.{h,cpp}: the sessions and the asynchronous thread

    [SessionManager] owns the sessions, handles the requests the queue layer
    posts to the asynchronous thread, and turns the signals of its sessions into
    messages for the queue layer.  What it does outside itself is the list of
    [effect]s.  A session is in [async_sessions_] exactly while its signals are
    bound ([BindSessionSignal] and [UnbindSessionSignal] are called where the map
    changes), so only the events of the sessions in the map are dispatched.  How a
    socket answers [Connect] and [Send] is an argument. *)
From S2P Require Import Prelude Text StdMap ByteOrder ByteBuffer TimeUtils Json JsonText InternalMessage.
From S2P Require Session.
Import Session (Session, event, ConnState, CS_CLOSED, CS_CONNECTED).

Section manager.
Context {Address : Type} {HO : Host} {HP : Heap} {JT : DoubleText}.
Implicit Types stanza : Stanza Address.

Inductive effect :=
  | QueuePost (id : Z) (stanza : Stanza Address)
  | AsyncPostDelayed (cmsDelay id : Z) (stanza : Stanza Address)
  | ConnectTo (session_id : Z) (address : Address)
  | SocketEvent (session_id : Z) (e : event)
  | LogParseError.

Record SessionManager := mkManager {
  async_sessions_ : list (Z * Session);
  unequal_session_id_ : Z }.

Definition SessionManager_new : SessionManager := mkManager [] 1.
Definition set_sessions (sm : SessionManager) (m : list (Z * Session)) : SessionManager :=
  mkManager m (unequal_session_id_ sm).

Definition FindSession (sm : SessionManager) (session_id : Z) : option Session :=
  find session_id (async_sessions_ sm).

Definition AddSession (sm : SessionManager) (session : Session) : bool * SessionManager :=
  match find (Session.session_id_ session) (async_sessions_ sm) with
  | Some _ => (false, sm)
  | None => (true, set_sessions sm
      (insert (Session.session_id_ session) session (async_sessions_ sm)))
  end.

Definition RemoveSession (sm : SessionManager) (session_id : Z) : bool * SessionManager :=
  match find session_id (async_sessions_ sm) with
  | None => (false, sm)
  | Some _ => (true, set_sessions sm (erase session_id (async_sessions_ sm)))
  end.

(** A session in the map is shared: a call on it updates it there. *)
Definition put_session (sm : SessionManager) (session : Session) : SessionManager :=
  set_sessions sm (update (Session.session_id_ session) (fun _ => session) (async_sessions_ sm)).

(** ** The signals of a session *)
Fixpoint FindEndString (data : list Z) : nat :=
  match data with
  | [] => 0
  | c :: data => if c =? 0 then 0 else S (FindEndString data)
  end.
Definition OnSessionPacketEvent (session_id : Z) (data : list Z) : list effect :=
  match Reader_parse (take (FindEndString data) data) with
  | None => [LogParseError]
  | Some json_res => [QueuePost 0 (ResponseData session_id json_res data)]
  end.
Definition OnSessionConnectedEvent (session_id connect_id : Z) : list effect :=
  [QueuePost connect_id (mkStanza RES_CONNECTED_EVENT session_id NoBody)].
Definition OnSessionCloseEvent (session_id connect_id : Z) : list effect :=
  [QueuePost connect_id (mkStanza REQ_REMOVE_SESSION_EVENT session_id NoBody);
   QueuePost connect_id (mkStanza RES_DISCONNECTED_EVENT_FAILURE session_id NoBody)].

Definition dispatch (session_id : Z) (e : event) : list effect :=
  match e with
  | Session.SessionPacketEvent data _ => OnSessionPacketEvent session_id data
  | Session.SessionConnectedEvent connect_id => OnSessionConnectedEvent session_id connect_id
  | Session.SessionCloseEvent _ connect_id => OnSessionCloseEvent session_id connect_id
  | e => [SocketEvent session_id e]
  end.

(** Something happens to a session: its handler runs and its signals are
    dispatched.  A session that is not in the map has no listeners. *)
Definition session_event (sm : SessionManager) (session_id : Z)
    (handler : Session -> Session * list event) : SessionManager * list effect :=
  match FindSession sm session_id with
  | None => (sm, [])
  | Some s =>
    let '(s, evs) := handler s in
    (put_session sm s, flat_map (dispatch session_id) evs)
  end.

(** ** Requests *)

(** [Start] on a session that was just created.  [after] is the state its socket
    is in when [Connect] returns. *)
Definition start_new (sm : SessionManager) (added : bool) (session : Session) (connect_id : Z)
    (address : Address) (after : ConnState) : SessionManager * list effect :=
  let '(_, session, _) := Session.Start session connect_id after in
  ((if added then put_session sm session else sm),
   [ConnectTo (Session.session_id_ session) address]).

Definition OnConnectMessage (sm : SessionManager) (message_id : Z) stanza (after : ConnState)
    : outcome (SessionManager * list effect) :=
  address ← connect_address stanza;
  let '(session, unequal) := Session.Session_new (unequal_session_id_ sm) 0 in
  let sm := mkManager (async_sessions_ sm) unequal in
  let '(added, sm) := AddSession sm session in
  Done (start_new sm added session message_id address after).

Definition OnDisconnectMessage (sm : SessionManager) (message_id : Z) stanza
    : SessionManager * list effect :=
  match FindSession sm (session_id_ stanza) with
  | Some session =>
    let '(session, evs) := Session.Stop session in
    let sm := put_session sm session in
    let '(_, sm) := RemoveSession sm (session_id_ stanza) in
    (sm, map (SocketEvent (Session.session_id_ session)) evs
         ++ [QueuePost message_id
              (mkStanza RES_DISCONNECTED_EVENT_SUCCEED (Session.session_id_ session) NoBody)])
  | None =>
    (sm, [QueuePost message_id
           (mkStanza RES_DISCONNECTED_EVENT_FAILURE (session_id_ stanza) NoBody)])
  end.

(** [send_size] is what the socket's [Send] returns. *)
Definition OnRequestMessage (sm : SessionManager) (message_id : Z) stanza (send_size : Z)
    : outcome (SessionManager * list effect) :=
  '(req_json, is_push) ← request stanza;
  match FindSession sm (session_id_ stanza) with
  | Some session =>
    let req_str := FastWriter_write req_json in
    let '(session, evs) := Session.AsyncWrite session (Some req_str)
      (u32 (Z.of_nat (length req_str))) Session.PACKET_TYPE_JSON send_size in
    Done (put_session sm session,
      flat_map (dispatch (session_id_ stanza)) evs
      ++ if (is_push : bool)
         then [QueuePost message_id (mkStanza RES_PUSH_SUCCEED (session_id_ stanza) NoBody)]
         else [])
  | None =>
    Done (sm, [QueuePost message_id (mkStanza RES_SESSION_NOT_FOUND (session_id_ stanza) NoBody)])
  end.

Definition OnReconnectMessage (sm : SessionManager) (message_id : Z) stanza (after : ConnState)
    : outcome (SessionManager * list effect) :=
  let session_ptr := FindSession sm (session_id_ stanza) in
  let again := [AsyncPostDelayed 2000 message_id stanza] in
  let closed := match session_ptr with
    | Some s => bool_decide (Session.GetState s = CS_CLOSED)
    | None => true
    end in
  if negb closed then Done (sm, again)
  else
    let '(session, unequal) := Session.Session_new (unequal_session_id_ sm) (i32 (session_id_ stanza)) in
    let sm := mkManager (async_sessions_ sm) unequal in
    let '(added, sm) := AddSession sm session in
    address ← connect_address stanza;
    let '(sm, evs) := start_new sm added session (session_id_ stanza) address after in
    Done (sm, again ++ evs).

Definition OnRemoveSessionMessage (sm : SessionManager) stanza : SessionManager * list effect :=
  ((RemoveSession sm (session_id_ stanza)).2, []).

(** The asynchronous thread delivers a message; [None] is a null data pointer. *)
Definition OnMessage (sm : SessionManager) (message_id : Z) (pdata : option (Stanza Address))
    (after : ConnState) (send_size : Z) : outcome (SessionManager * list effect) :=
  stanza ← lift_undefined pdata;
  let t := stanza_type_ stanza in
  if t =? RES_RECONNECT_EVENT then OnReconnectMessage sm message_id stanza after
  else if t =? REQ_CONNECT_SERVER then OnConnectMessage sm message_id stanza after
  else if t =? REQ_DISCONNECT_SERVER then Done (OnDisconnectMessage sm message_id stanza)
  else if t =? REQ_SEND_REQUESTION then OnRequestMessage sm message_id stanza send_size
  else if t =? REQ_REMOVE_SESSION_EVENT then Done (OnRemoveSessionMessage sm stanza)
  else Done (sm, []).

(** [Stop]: the connected sessions are stopped, and all are dropped. *)
Definition stop_session (e : Z * Session) : list effect :=
  let '(id, s) := e in
  if bool_decide (Session.GetState s = CS_CONNECTED)
  then map (SocketEvent id) (Session.Stop s).2 else [].
Definition Stop (sm : SessionManager) : SessionManager * list effect :=
  (set_sessions sm [], flat_map stop_session (async_sessions_ sm)).

(** ** The invariant of the manager *)

(** Sessions are filed under their own ids, which were all issued. *)
Record manager_ok (sm : SessionManager) : Prop := {
  mo_sorted : sorted (async_sessions_ sm);
  mo_issued : 1 <= unequal_session_id_ sm < 2 ^ 32;
  mo_keyed : forall id s, FindSession sm id = Some s ->
    Session.session_id_ s = id /\ 1 < id <= unequal_session_id_ sm }.

Lemma manager_new_ok : manager_ok SessionManager_new.
Proof. split; [constructor|simpl; lia|]. by intros id s. Qed.

Lemma find_put sm s id : manager_ok sm ->
  FindSession (put_session sm s) id =
  if Session.session_id_ s =? id
  then (fun _ => s) <$> FindSession sm (Session.session_id_ s) else FindSession sm id.
Proof. intros _. apply find_update. Qed.

Lemma put_session_ok sm s : manager_ok sm -> manager_ok (put_session sm s).
Proof.
  intros Hok. destruct (Hok) as [Hs Hi Hk]. split; [by apply sorted_update|done|].
  intros id s' Hf. rewrite find_put in Hf by done.
  destruct (Z.eqb_spec (Session.session_id_ s) id) as [Hid|]; [|by apply Hk].
  destruct (FindSession sm (Session.session_id_ s)) as [s0|] eqn:E; [|done].
  simpl in Hf. injection Hf as <-. apply Hk in E as [_ ?]. split; [done|]. cbn. lia.
Qed.

Lemma AddSession_spec sm s added sm' : manager_ok sm ->
  1 < Session.session_id_ s <= unequal_session_id_ sm -> AddSession sm s = (added, sm') ->
  manager_ok sm' /\ unequal_session_id_ sm' = unequal_session_id_ sm /\
  (added = true <-> FindSession sm (Session.session_id_ s) = None) /\
  forall id, FindSession sm' id =
    if added && (Session.session_id_ s =? id) then Some s else FindSession sm id.
Proof.
  intros Hok Hid. unfold AddSession.
  change (find (Session.session_id_ s) (async_sessions_ sm)) with (FindSession sm (Session.session_id_ s)).
  destruct (FindSession sm (Session.session_id_ s)) as [s0|] eqn:E; intros [= <- <-].
  - split_and!; done.
  - destruct Hok as [Hs Hi Hk].
    assert (Hfind : forall id, FindSession (set_sessions sm (insert (Session.session_id_ s) s (async_sessions_ sm))) id =
      if Session.session_id_ s =? id then Some s else FindSession sm id).
    { intros id. unfold FindSession in *. cbn [async_sessions_ set_sessions].
      rewrite find_insert by done. by rewrite E. }
    split_and!; try done. split; [by apply sorted_insert|done|].
    intros id s' Hf. rewrite Hfind in Hf. destruct (Z.eqb_spec (Session.session_id_ s) id); [|by apply Hk].
    injection Hf as <-. cbn. split; [done|lia].
Qed.

Lemma RemoveSession_spec sm id removed sm' : manager_ok sm ->
  RemoveSession sm id = (removed, sm') ->
  manager_ok sm' /\ unequal_session_id_ sm' = unequal_session_id_ sm /\
  (removed = true <-> FindSession sm id <> None) /\
  forall id', FindSession sm' id' = if id =? id' then None else FindSession sm id'.
Proof.
  intros Hok. destruct (Hok) as [Hs Hi Hk]. unfold RemoveSession.
  change (find id (async_sessions_ sm)) with (FindSession sm id).
  destruct (FindSession sm id) as [s|] eqn:E; intros [= <- <-].
  - assert (Hfind : forall id', FindSession (set_sessions sm (erase id (async_sessions_ sm))) id' =
      if id =? id' then None else FindSession sm id').
    { intros id'. unfold FindSession. cbn [async_sessions_ set_sessions]. by apply find_erase. }
    split_and!; try done. split; [by apply sorted_erase|done|].
    intros id' s' Hf. rewrite Hfind in Hf. destruct (Z.eqb_spec id id'); [done|by apply Hk].
  - split_and!; try done. intros id'. by destruct (Z.eqb_spec id id') as [<-|].
Qed.

(** A session is created with a fresh id, or with the id asked for. *)
Lemma Session_new_id unequal id s unequal' :
  Session.Session_new unequal id = (s, unequal') ->
  Session.session_id_ s = (if id =? 0 then u32 (unequal + 1) else u32 id) /\
  unequal' = (if id =? 0 then u32 (unequal + 1) else unequal) /\
  Session.async_socket_ s = None.
Proof. unfold Session.Session_new. destruct (id =? 0); intros [= <- <-]; done. Qed.

Lemma start_new_spec sm added s c addr after : manager_ok sm ->
  (added = true -> FindSession sm (Session.session_id_ s) = Some s) ->
  Session.async_socket_ s = None ->
  let '(sm', evs) := start_new sm added s c addr after in
  manager_ok sm' /\ unequal_session_id_ sm' = unequal_session_id_ sm /\
  evs = [ConnectTo (Session.session_id_ s) addr] /\
  forall id, FindSession sm' id =
    if added && (Session.session_id_ s =? id)
    then Some (Session.Start s c after).1.2 else FindSession sm id.
Proof.
  intros Hok Hadd Hnew. unfold start_new, Session.Start.
  cbn [Session.set_connect_id Session.async_socket_]. rewrite Hnew. cbn [fst snd].
  destruct added; cbn [andb]; [|done]. specialize (Hadd eq_refl).
  split_and!; auto using put_session_ok. intros id. rewrite find_put by done.
  cbn [Session.session_id_ Session.set_socket Session.InitSocket Session.set_connect_id].
  by rewrite Hadd.
Qed.

Lemma TryToWriteData_events s n s' evs : Session.TryToWriteData s n = (s', evs) ->
  Session.session_id_ s' = Session.session_id_ s /\
  forall e, In e evs -> exists d, e = Session.SocketSend d.
Proof.
  unfold Session.TryToWriteData. destruct (Session.async_socket_ s); [|by intros [= <- <-]].
  destruct (_ || _)%bool; [by intros [= <- <-]|].
  destruct (_ =? _); intros [= <- <-]; (split; [done|]); intros e [<-|[]]; by eexists.
Qed.
(** Writing only sends, and keeps the session's id. *)
Lemma AsyncWrite_events s d n t k s' evs : Session.AsyncWrite s d n t k = (s', evs) ->
  Session.session_id_ s' = Session.session_id_ s /\
  forall e, In e evs -> exists d, e = Session.SocketSend d.
Proof. unfold Session.AsyncWrite. intros [Hid He]%TryToWriteData_events. done. Qed.

(** ** The steps of the manager *)

(** A handler of [Session] does not change the session's id. *)
Definition keeps_id (handler : Session -> Session * list event) : Prop :=
  forall s, Session.session_id_ (handler s).1 = Session.session_id_ s.

(** One step: a message is delivered, something happens to a session, or all is
    stopped.  A reconnect message carries the id of a session that was issued. *)
Inductive step (sm : SessionManager) : SessionManager -> list effect -> Prop :=
  | step_message id stanza after send_size sm' evs :
      (stanza_type_ stanza = RES_RECONNECT_EVENT ->
       1 < session_id_ stanza <= unequal_session_id_ sm /\ session_id_ stanza < 2 ^ 31) ->
      unequal_session_id_ sm < 2 ^ 32 - 1 ->
      OnMessage sm id (Some stanza) after send_size = Done (sm', evs) -> step sm sm' evs
  | step_session id handler sm' evs :
      keeps_id handler -> session_event sm id handler = (sm', evs) -> step sm sm' evs
  | step_stop sm' evs : Stop sm = (sm', evs) -> step sm sm' evs.

Inductive reachable : SessionManager -> Prop :=
  | reach_new : reachable SessionManager_new
  | reach_step sm sm' evs : reachable sm -> step sm sm' evs -> reachable sm'.

Lemma OnConnect_spec sm mid addr t sid after : manager_ok sm -> unequal_session_id_ sm < 2 ^ 32 - 1 ->
  exists sm' s, OnConnectMessage sm mid (mkStanza t sid (ConnectBody addr)) after =
    Done (sm', [ConnectTo (unequal_session_id_ sm + 1) addr]) /\ manager_ok sm' /\
    unequal_session_id_ sm' = unequal_session_id_ sm + 1 /\
    (forall id, FindSession sm' id =
      if unequal_session_id_ sm + 1 =? id then Some s else FindSession sm id) /\
    FindSession sm (unequal_session_id_ sm + 1) = None /\
    s = (Session.Start (Session.Session_new (unequal_session_id_ sm) 0).1 mid after).1.2.
Proof.
  intros Hok Hlt. destruct (Hok) as [Hs Hi Hk].
  assert (Hu : u32 (unequal_session_id_ sm + 1) = unequal_session_id_ sm + 1) by word_lia.
  assert (Hnone : FindSession sm (unequal_session_id_ sm + 1) = None).
  { destruct (FindSession sm (unequal_session_id_ sm + 1)) eqn:E; [|done]. apply Hk in E. lia. }
  unfold OnConnectMessage. cbn [connect_address body_]. run.
  destruct (Session.Session_new (unequal_session_id_ sm) 0) as [s0 un] eqn:E.
  apply Session_new_id in E as (Hid & Hun & Hsock). change (0 =? 0) with true in Hid, Hun.
  cbv iota in Hid, Hun. rewrite Hu in Hid, Hun. subst un.
  set (sm1 := mkManager (async_sessions_ sm) (unequal_session_id_ sm + 1)).
  assert (Hok1 : manager_ok sm1).
  { split; [done|cbn; lia|]. intros id s Hf. destruct (Hk id s Hf) as [? ?]. split; [done|cbn; lia]. }
  destruct (AddSession sm1 s0) as [added sm2] eqn:Ea.
  apply AddSession_spec in Ea as (Hok2 & Hun2 & Hadd & Hf2); [|done|rewrite Hid; cbn; lia].
  assert (added = true) as ->.
  { apply Hadd. rewrite Hid. exact Hnone. }
  pose proof (start_new_spec sm2 true s0 mid addr after Hok2) as Hst.
  destruct (start_new sm2 true s0 mid addr after) as [sm3 evs].
  destruct Hst as (Hok3 & Hun3 & -> & Hf3); [intros _; by rewrite Hf2, Z.eqb_refl|done|].
  exists sm3. eexists. rewrite Hid. split; [done|]. split; [done|].
  split; [by rewrite Hun3, Hun2|]. split; [|by split].
  intros id. rewrite Hf3, Hf2, Hid. cbn [andb]. by destruct (_ =? id).
Qed.

Lemma OnReconnect_ok sm mid stanza after sm' evs : manager_ok sm ->
  1 < session_id_ stanza <= unequal_session_id_ sm /\ session_id_ stanza < 2 ^ 31 ->
  OnReconnectMessage sm mid stanza after = Done (sm', evs) -> manager_ok sm'.
Proof.
  intros Hok [Hid Hlt]. unfold OnReconnectMessage.
  destruct (negb _); [by intros [= <- _]|].
  rewrite i32_id by lia.
  destruct (Session.Session_new (unequal_session_id_ sm) (session_id_ stanza)) as [s0 un] eqn:E.
  apply Session_new_id in E as (Hs0 & Hun & Hsock).
  destruct (Z.eqb_spec (session_id_ stanza) 0); [lia|].
  destruct (Hok) as [Hs Hi Hk]. rewrite u32_id in Hs0 by (unfold in_width; lia). subst un.
  assert (Hok1 : manager_ok (mkManager (async_sessions_ sm) (unequal_session_id_ sm))) by (by destruct sm).
  destruct (AddSession _ s0) as [added sm2] eqn:Ea.
  apply AddSession_spec in Ea as (Hok2 & Hun2 & Hadd & Hf2); [|done|rewrite Hs0; cbn; lia].
  destruct (connect_address stanza) as [addr| |]; run; try discriminate.
  pose proof (start_new_spec sm2 added s0 (session_id_ stanza) addr after Hok2) as Hst.
  destruct (start_new sm2 added s0 _ addr after) as [sm3 evs3].
  destruct Hst as (Hok3 & _); [|done|by intros [= <- _]].
  intros ->. by rewrite Hf2, Z.eqb_refl.
Qed.

Lemma OnDisconnect_ok sm mid stanza : manager_ok sm ->
  manager_ok (OnDisconnectMessage sm mid stanza).1 /\
  unequal_session_id_ (OnDisconnectMessage sm mid stanza).1 = unequal_session_id_ sm /\
  forall id, FindSession (OnDisconnectMessage sm mid stanza).1 id =
    if session_id_ stanza =? id then None else FindSession sm id.
Proof.
  intros Hok. unfold OnDisconnectMessage.
  destruct (FindSession sm (session_id_ stanza)) as [s|] eqn:E.
  - destruct (Session.Stop s) as [s' evs] eqn:Es.
    assert (Hid : Session.session_id_ s' = session_id_ stanza).
    { destruct Hok as [_ _ Hk]. apply Hk in E as [<- _].
      unfold Session.Stop, Session.UinitSocket in Es.
      destruct s as [[[[] b]|] ? ? ? ? ?]; cbn in Es; injection Es as <- <-; done. }
    destruct (RemoveSession _ _) as [rem sm2] eqn:Er.
    apply RemoveSession_spec in Er as (Hok2 & Hu & _ & Hf); [|by apply put_session_ok]. cbn [fst].
    split; [done|]. split; [done|]. intros id. rewrite Hf, find_put, Hid by done. by destruct (_ =? id).
  - split; [done|]. split; [done|]. cbn [fst]. intros id. by destruct (Z.eqb_spec (session_id_ stanza) id) as [<-|].
Qed.

Lemma OnRequest_ok sm mid stanza n sm' evs : manager_ok sm ->
  OnRequestMessage sm mid stanza n = Done (sm', evs) -> manager_ok sm'.
Proof.
  intros Hok. unfold OnRequestMessage. destruct (request stanza) as [[j p]| |]; run; try discriminate.
  destruct (FindSession sm (session_id_ stanza)) as [s|]; [|by intros [= <- _]].
  destruct (Session.AsyncWrite _ _ _ _ _) as [s' sevs]. intros [= <- _]. by apply put_session_ok.
Qed.
Lemma session_event_ok sm id handler sm' evs : manager_ok sm -> 
  session_event sm id handler = (sm', evs) -> manager_ok sm'.
Proof.
  intros Hok. unfold session_event. destruct (FindSession sm id); [|by intros [= <- _]].
  destruct (handler _) as [s' sevs]. intros [= <- _]. by apply put_session_ok.
Qed.

Lemma step_ok sm sm' evs : manager_ok sm -> step sm sm' evs -> manager_ok sm'.
Proof.
  intros Hok [mid stanza after n sm1 evs1 Hrec Hlt Hm|id h sm1 evs1 _ He|sm1 evs1 Hst].
  - unfold OnMessage in Hm. revert Hm. run.
    destruct (Z.eqb_spec (stanza_type_ stanza) RES_RECONNECT_EVENT) as [Ht|_].
    { intros Hm. by eapply OnReconnect_ok; [..|exact Hm]; auto. }
    destruct (_ =? REQ_CONNECT_SERVER).
    { destruct stanza as [t sid b]. intros Hm. destruct b as [|addr| |];
        try (unfold OnConnectMessage in Hm; cbn in Hm; discriminate).
      destruct (OnConnect_spec sm mid addr t sid after Hok Hlt) as (sm2 & s & E & Hok2 & _).
      rewrite E in Hm. by injection Hm as <- _. }
    destruct (_ =? REQ_DISCONNECT_SERVER).
    { intros [= Hm]. pose proof (OnDisconnect_ok sm mid stanza Hok) as [H _]. by rewrite Hm in H. }
    destruct (_ =? REQ_SEND_REQUESTION); [by apply OnRequest_ok|].
    destruct (_ =? REQ_REMOVE_SESSION_EVENT); [|by intros [= <- _]].
    unfold OnRemoveSessionMessage. destruct (RemoveSession sm _) as [r sm2] eqn:Er.
    intros [= <- _]. by apply RemoveSession_spec in Er as (? & _).
  - by eapply session_event_ok.
  - injection Hst as <- _. destruct Hok. split; [constructor|done|]. by intros id s.
Qed.
Lemma reachable_ok sm : reachable sm -> manager_ok sm.
Proof. induction 1; eauto using manager_new_ok, step_ok. Qed.

Lemma OnRequest_frame sm mid sid s j push n :
  manager_ok sm -> FindSession sm sid = Some s -> Session.writer_ok s -> in_width 32 sid ->
  is_bytes (FastWriter_write j) -> Z.of_nat (length (FastWriter_write j)) < 2 ^ 32 ->
  let out := contents (Session.write_buffer_ s)
    ++ Session.frame 0 (FastWriter_write j, Session.PACKET_TYPE_JSON) in
  Session.can_take n out ->
  exists sm' rest, OnRequestMessage sm mid (RequestData sid j push) n = Done (sm',
      (if Session.connected s then [SocketEvent sid (Session.SocketSend out)] else [])
      ++ if push then [QueuePost mid (mkStanza RES_PUSH_SUCCEED sid NoBody)] else []) /\
    FindSession sm' sid = Some (Session.set_write_buffer s rest) /\
    Session.writer_ok (Session.set_write_buffer s rest) /\
    out = (if Session.connected s then Session.took n out else []) ++ contents rest /\
    forall id, id <> sid -> FindSession sm' id = FindSession sm id.
Proof.
  intros Hr Hfind Hw Hsid Hb Hl out Hn. unfold OnRequestMessage, RequestData.
  cbn [request body_ session_id_]. run. rewrite u32_id by done. rewrite Hfind.
  rewrite u32_id by (unfold in_width; lia).
  destruct (Session.AsyncWrite s _ _ _ n) as [s' sevs] eqn:Ew.
  destruct (Session.AsyncWrite_exact s (FastWriter_write j) Session.PACKET_TYPE_JSON n s' sevs Hw)
    as (-> & Es & Hw' & Hc); [|done|done|].
  { split_and!; [done|unfold is_byte, in_width, Session.PACKET_TYPE_JSON; cbn; lia|done]. }
  assert (Hid : Session.session_id_ s' = sid).
  { destruct (Hr) as [_ _ Hk]. apply Hk in Hfind as [<- _]. by rewrite Es. }
  exists (put_session sm s'), (Session.write_buffer_ s'). rewrite <- Es.
  split; [by destruct (Session.connected s)|].
  rewrite find_put, Hid, Z.eqb_refl, Hfind by exact Hr. split_and!; try done.
  intros id Hne. rewrite find_put, Hid by exact Hr. by destruct (Z.eqb_spec sid id); [congruence|].
Qed.

(** ** What the manager promises *)

(** C19. In every state the manager can reach, sessions are filed under their own,
    issued ids; so a connect request always gets a session of its own, which
    will report to the task that asked, and disturbs no other session. *)
Theorem connect_gets_fresh_session sm mid addr after :
  reachable sm -> unequal_session_id_ sm < 2 ^ 32 - 1 ->
  exists sm' s id, OnConnectMessage sm mid (ReqConnectData addr) after =
      Done (sm', [ConnectTo id addr]) /\
    FindSession sm id = None /\ FindSession sm' id = Some s /\
    Session.session_id_ s = id /\ Session.connect_id_ s = mid /\ Session.GetState s = after /\
    (forall id', id' <> id -> FindSession sm' id' = FindSession sm id') /\
    (forall id' s', FindSession sm' id' = Some s' -> Session.session_id_ s' = id').
Proof.
  intros Hr Hlt.
  destruct (OnConnect_spec sm mid addr REQ_CONNECT_SERVER NULL_SESSION_ID after (reachable_ok sm Hr) Hlt)
    as (sm' & s & E & Hok & Hun & Hf & Hnone & ->).
  do 3 eexists. split; [exact E|]. split; [done|]. rewrite Hf, Z.eqb_refl. split; [done|].
  split_and!; try done.
  - cbn. destruct (reachable_ok sm Hr) as [_ ? _]. word_lia.
  - intros id' Hne. rewrite Hf. by destruct (Z.eqb_spec (unequal_session_id_ sm + 1) id'); [congruence|].
  - intros id' s' Hs'. destruct Hok as [_ _ Hk]. by apply Hk in Hs' as [? _].
Qed.

(** C20. A request for a live session is framed behind what was queued: a connected
    session hands its socket exactly that, and keeps exactly what the socket did
    not take; one that is not connected only queues.  A push request is
    acknowledged to its task, nothing else is done, and no other session changes. *)
Theorem request_is_framed sm mid sid s j push n :
  reachable sm -> FindSession sm sid = Some s -> Session.writer_ok s -> in_width 32 sid ->
  is_bytes (FastWriter_write j) -> Z.of_nat (length (FastWriter_write j)) < 2 ^ 32 ->
  let out := contents (Session.write_buffer_ s)
    ++ Session.frame 0 (FastWriter_write j, Session.PACKET_TYPE_JSON) in
  Session.can_take n out ->
  exists sm' rest, OnRequestMessage sm mid (RequestData sid j push) n = Done (sm',
      (if Session.connected s then [SocketEvent sid (Session.SocketSend out)] else [])
      ++ if push then [QueuePost mid (mkStanza RES_PUSH_SUCCEED sid NoBody)] else []) /\
    FindSession sm' sid = Some (Session.set_write_buffer s rest) /\
    Session.writer_ok (Session.set_write_buffer s rest) /\
    out = (if Session.connected s then Session.took n out else []) ++ contents rest /\
    forall id, id <> sid -> FindSession sm' id = FindSession sm id.
Proof. intros Hr. apply OnRequest_frame, reachable_ok, Hr. Qed.

(** After a disconnect request has removed a session, the reconnect message that
    its connection left in the queue starts a session with the same id again,
    and posts itself again: the device is reconnected although the caller asked
    to disconnect, for ever. *)
Theorem disconnect_is_undone sm mid sid s addr after rid :
  reachable sm -> FindSession sm sid = Some s -> sid < 2 ^ 31 ->
  let sm1 := (OnDisconnectMessage sm mid (ReqDisconnectData sid)).1 in
  FindSession sm1 sid = None /\
  exists sm2 s2, OnMessage sm1 rid (Some (mkStanza RES_RECONNECT_EVENT sid (ConnectBody addr))) after 0
    = Done (sm2, [AsyncPostDelayed 2000 rid (mkStanza RES_RECONNECT_EVENT sid (ConnectBody addr));
                  ConnectTo sid addr]) /\
    FindSession sm2 sid = Some s2 /\ Session.GetState s2 = after.
Proof.
  intros Hr Hfind Hlt sm1. pose proof (reachable_ok sm Hr) as Hok.
  destruct (Hok) as [_ Hun Hk]. destruct (Hk _ _ Hfind) as [Hid Hsid].
  destruct (OnDisconnect_ok sm mid (ReqDisconnectData sid) Hok) as (Hok1 & Hu1 & Hf1).
  fold sm1 in Hok1, Hf1, Hu1.
  assert (Hnone : FindSession sm1 sid = None).
  { rewrite Hf1. cbn [session_id_ ReqDisconnectData].
    by rewrite u32_id, Z.eqb_refl by (unfold in_width; lia). }
  split; [done|]. unfold OnMessage. run. unfold OnReconnectMessage. cbn [stanza_type_ session_id_].
  change (RES_RECONNECT_EVENT =? RES_RECONNECT_EVENT) with true. cbv iota.
  rewrite Hnone, i32_id by lia. cbn [negb].
  destruct (Session.Session_new (unequal_session_id_ sm1) sid) as [s0 un] eqn:E.
  apply Session_new_id in E as (Hs0 & Hun0 & Hsock).
  destruct (Z.eqb_spec sid 0); [lia|]. rewrite u32_id in Hs0 by (unfold in_width; lia). subst un.
  assert (Hok1' : manager_ok (mkManager (async_sessions_ sm1) (unequal_session_id_ sm1))) by (by destruct sm1).
  destruct (AddSession _ s0) as [added sm2] eqn:Ea.
  apply AddSession_spec in Ea as (Hok2 & Hun2 & Hadd & Hf2); [|done|rewrite Hs0; cbn; lia].
  assert (added = true) as ->.
  { apply Hadd. rewrite Hs0. exact Hnone. }
  cbn [connect_address body_]. run.
  pose proof (start_new_spec sm2 true s0 sid addr after Hok2) as Hst.
  destruct (start_new sm2 true s0 sid addr after) as [sm3 evs3].
  destruct Hst as (Hok3 & _ & -> & Hf3); [intros _; by rewrite Hf2, Z.eqb_refl|done|].
  exists sm3. eexists. rewrite Hs0. split; [done|]. rewrite Hf3, Hs0, Z.eqb_refl. split; [done|].
  unfold Session.Start. cbn [Session.set_connect_id Session.async_socket_]. by rewrite Hsock.
Qed.
End manager.
Arguments effect : clear implicits.

(** ** Concrete runs: addresses are numbers *)
Section demo.
Local Existing Instances little_endian zero_heap demo_double.

(** The manager after one connect request; the session is 2. *)
Definition demo_manager : SessionManager :=
  match OnConnectMessage SessionManager_new 7 (ReqConnectData 5) Session.CS_CONNECTED with
  | Done (sm, _) => sm
  | _ => SessionManager_new
  end.
Lemma demo_reachable : reachable (Address := Z) demo_manager.
Proof.
  eapply reach_step; [apply reach_new|].
  apply (step_message _ 7 (ReqConnectData 5) Session.CS_CONNECTED 0 _ [ConnectTo 2 5]).
  - discriminate.
  - reflexivity.
  - vm_compute. reflexivity.
Qed.
Definition demo_open : Session.Session :=
  default (Session.Session_new 0 1).1 (FindSession demo_manager 2).
Lemma demo_open_find : FindSession demo_manager 2 = Some demo_open.
Proof. vm_compute. reflexivity. Qed.
Lemma demo_open_writer : Session.writer_ok demo_open.
Proof.
  assert (E : Session.write_buffer_ demo_open = ByteBuffer_new) by (vm_compute; reflexivity).
  unfold Session.writer_ok. rewrite E. split; [apply Construct_None_wf|reflexivity].
Qed.

Lemma connect_gets_fresh_session_witness :
  exists sm' s id, OnConnectMessage demo_manager 8 (ReqConnectData 6) Session.CS_CONNECTING =
      Done (sm', [ConnectTo id 6]) /\
    FindSession demo_manager id = None /\ FindSession sm' id = Some s /\
    Session.session_id_ s = id /\ Session.connect_id_ s = 8 /\ Session.GetState s = Session.CS_CONNECTING /\
    (forall id', id' <> id -> FindSession sm' id' = FindSession demo_manager id') /\
    (forall id' s', FindSession sm' id' = Some s' -> Session.session_id_ s' = id').
Proof.
  apply connect_gets_fresh_session; [apply demo_reachable|]. vm_compute. reflexivity.
Defined.

Lemma demo_text_ok :
  is_bytes (FastWriter_write demo_value) /\ Z.of_nat (length (FastWriter_write demo_value)) < 2 ^ 32.
Proof. split; [apply (bool_decide_unpack _)|]; vm_compute; [exact I|reflexivity]. Qed.

(** A push request of a connected session, of which the socket takes eleven bytes. *)
Lemma request_is_framed_witness :
  let out := contents (Session.write_buffer_ demo_open)
    ++ Session.frame 0 (FastWriter_write demo_value, Session.PACKET_TYPE_JSON) in
  Session.connected demo_open = true /\
  exists sm' rest, OnRequestMessage (Address := Z) demo_manager 9 (RequestData 2 demo_value true) 11 = Done (sm',
      (if Session.connected demo_open then [SocketEvent 2 (Session.SocketSend out)] else [])
      ++ if true then [QueuePost 9 (mkStanza RES_PUSH_SUCCEED 2 NoBody)] else []) /\
    FindSession sm' 2 = Some (Session.set_write_buffer demo_open rest) /\
    Session.writer_ok (Session.set_write_buffer demo_open rest) /\
    out = (if Session.connected demo_open then Session.took 11 out else []) ++ contents rest /\
    forall id, id <> 2 -> FindSession sm' id = FindSession demo_manager id.
Proof.
  split; [vm_compute; reflexivity|].
  apply (request_is_framed demo_manager 9 2 demo_open demo_value true 11).
  - apply demo_reachable.
  - apply demo_open_find.
  - apply demo_open_writer.
  - split; reflexivity || (vm_compute; congruence).
  - apply demo_text_ok.
  - apply demo_text_ok.
  - vm_compute. right. intuition congruence.
Defined.

Lemma disconnect_is_undone_witness :
  let reconnect := mkStanza RES_RECONNECT_EVENT 2 (ConnectBody 5) in
  let sm1 := (OnDisconnectMessage demo_manager 9 (ReqDisconnectData (Address := Z) 2)).1 in
  FindSession sm1 2 = None /\
  exists sm2 s2, OnMessage sm1 7 (Some reconnect) Session.CS_CONNECTING 0
    = Done (sm2, [AsyncPostDelayed 2000 7 reconnect; ConnectTo 2 5]) /\
    FindSession sm2 2 = Some s2 /\ Session.GetState s2 = Session.CS_CONNECTING.
Proof.
  apply (disconnect_is_undone demo_manager 9 2 demo_open 5 Session.CS_CONNECTING 7).
  - apply demo_reachable.
  - apply demo_open_find.
  - reflexivity.
Defined.
End demo.
