(* ===== verification/Task.v ===== *)
(** * vzsdk/task.{h,cpp}: a request and the thread that waits for its answer

    A [Task] is identified by its [task_id_].  [HandleMessage] decides whether a
    message is the task's answer and, if so, posts it to the thread that waits.
    [WaitTaskDone] is that thread's loop over [MessageQueue::Get].  Threads and
    handlers are numbers; the handler of the messages a task posts is the task. *)
From Stdlib Require Import String.
From S2P Require Import Prelude Text TimeUtils MessageQueue Json InternalMessage.

Section task.
Context {Address : Type} {JT : DoubleText}.

(** The subclasses, with the members [HandleMessage] reads. *)
Inductive Kind :=
  | ConnectTask
  | ReConnectTask
  | DisconnectTask (session_id : Z)
  | ReqTask (session_id : Z) (req_cmd_ : list Z)
  | ReqPushTask (session_id : Z)
  | ReqRecordTask (session_id : Z) (req_cmd_ : list Z).

Record Task := mkTask {
  kind : Kind;
  timeout_ : Z;
  task_thread_ : option Z;
  task_id_ : Z;
  message_data_ : option (Stanza Address) }.

Definition message_type (t : Task) : Z :=
  match kind t with
  | ConnectTask => REQ_CONNECT_SERVER
  | ReConnectTask => RES_RECONNECT_EVENT
  | DisconnectTask _ => REQ_DISCONNECT_SERVER
  | ReqTask _ _ | ReqPushTask _ | ReqRecordTask _ _ => REQ_SEND_REQUESTION
  end.

(** ** Constructors

    [unequal] is the static [unequal_task_id_]; [current] is the calling thread,
    which is wrapped when it has none. *)
Definition Task_new (unequal : Z) (k : Kind) (timeout : Z) (task_thread : option Z) (current : Z)
    (data : option (Stanza Address)) : Task * Z :=
  let unequal := i32 (unequal + 1) in
  (mkTask k timeout (Some (default current task_thread)) (u32 unequal) data, unequal).

Definition ConnectTask_new (unequal timeout current : Z) (address : Address) : Task * Z :=
  Task_new unequal ConnectTask timeout None current (Some (ReqConnectData address)).
(** The other constructor does not call [set_message_data]. *)
Definition ConnectTask_copy (unequal timeout current : Z) (req_connect_data : Stanza Address)
    : Task * Z :=
  Task_new unequal ConnectTask timeout None current None.
Definition ReConnectTask_new (unequal timeout current : Z) (req_connect_data : Stanza Address)
    : Task * Z :=
  Task_new unequal ReConnectTask timeout None current (Some req_connect_data).
Definition DisconnectTask_new (unequal timeout current session_id : Z) : Task * Z :=
  Task_new unequal (DisconnectTask (u32 session_id)) timeout None current
    (Some (ReqDisconnectData session_id)).
Definition ReqTask_new (unequal timeout current session_id : Z) (req_json : Value)
    (task_thread : option Z) : outcome (Task * Z) :=
  m ← lift (index_const req_json "cmd");
  cmd ← lift (asString m);
  Done (Task_new unequal (ReqTask (u32 session_id) cmd) timeout task_thread current
    (Some (RequestData session_id req_json false))).
Definition ReqPushTask_new (unequal timeout current session_id : Z) (req_json : Value) : Task * Z :=
  Task_new unequal (ReqPushTask (u32 session_id)) timeout None current
    (Some (RequestData session_id req_json true)).
Definition ReqRecordTask_new (unequal timeout current session_id : Z) (req_json : Value)
    : outcome (Task * Z) :=
  m ← lift (index_const req_json "cmd");
  cmd ← lift (asString m);
  Done (Task_new unequal (ReqRecordTask (u32 session_id) cmd) timeout None current
    (Some (RequestData session_id req_json false))).

(** ** Answers *)

(** [HandleResponse] of the two kinds that look at the command of an answer. *)
Definition ReqTask_HandleResponse (req_cmd : list Z) (stanza : Stanza Address) : outcome bool :=
  '(j, _) ← response stanza;
  res_cmd ← response_cmd j;
  Done (bool_decide (res_cmd = req_cmd)).
Definition ReqRecordTask_HandleResponse (req_cmd : list Z) (stanza : Stanza Address) : outcome bool :=
  '(j, _) ← response stanza;
  res_cmd ← response_cmd j;
  Done (bool_decide (res_cmd = bytes "ivs_result") && bool_decide (req_cmd = bytes "get_record")).

(** Whether a message is the task's answer.  [ReqTask] and [ReqRecordTask] share
    [ReqTask::HandleMessage] but for [HandleResponse]. *)
Definition req_accepts (task_id session_id message_id : Z) (stanza : Stanza Address)
    (handle_response : outcome bool) : outcome bool :=
  if (message_id =? 0) && (session_id_ stanza =? session_id)
     && (stanza_type_ stanza =? RES_STANZA_EVENT) then handle_response
  else Done ((message_id =? task_id) && (session_id_ stanza =? session_id)).
Definition accepts (t : Task) (message_id : Z) (stanza : Stanza Address) : outcome bool :=
  match kind t with
  | ConnectTask | ReConnectTask => Done (message_id =? task_id_ t)
  | DisconnectTask sid =>
    Done ((message_id =? task_id_ t)
      && ((stanza_type_ stanza =? RES_DISCONNECTED_EVENT_SUCCEED)
          || (stanza_type_ stanza =? RES_DISCONNECTED_EVENT_FAILURE))
      && (session_id_ stanza =? sid))
  | ReqTask sid cmd =>
    req_accepts (task_id_ t) sid message_id stanza (ReqTask_HandleResponse cmd stanza)
  | ReqRecordTask sid cmd =>
    req_accepts (task_id_ t) sid message_id stanza (ReqRecordTask_HandleResponse cmd stanza)
  | ReqPushTask sid => Done ((message_id =? task_id_ t) && (session_id_ stanza =? sid))
  end.

(** A post to a waiting thread: the thread and the message. *)
Definition thread_post : Type := Z * Z * Stanza Address.

Definition HandleMessage (t : Task) (message_id : Z) (stanza : Stanza Address)
    : outcome (bool * list thread_post) :=
  match task_thread_ t with
  | None => Done (false, [])
  | Some thread =>
    b ← accepts t message_id stanza;
    Done (if (b : bool) then (true, [(thread, task_id_ t, stanza)]) else (false, []))
  end.

(** ** Waiting *)
Abbreviation Message := (@Message Z (Stanza Address)).
Abbreviation Queue := (@MessageQueue Z (Stanza Address)).

(** The loop of [WaitTaskDone] on the queue of the waiting thread.  Each element
    of [gets] is a turn: what happens while [Get] waits, and the time when the
    turn ends.  [None] when the task still waits after the last. *)
Fixpoint WaitTaskDone_loop (task_id msEnd now : Z) (cmsNext : Z) (msg : Message) (q : Queue)
    (gets : list (list (@wait Z (Stanza Address)) * Z)) : option (Message * Queue) :=
  match gets with
  | [] => None
  | (waits, now') :: gets =>
    '(_, msg, q) ← Get now q msg cmsNext waits;
    if bool_decide (is_Some (phandler msg)) && (message_id msg =? task_id) then Some (msg, q)
    else
      let cmsNext := TimeUntil now' msEnd in
      if cmsNext <? 0 then Some (msg, q)
      else WaitTaskDone_loop task_id msEnd now' cmsNext msg q gets
  end.
Definition WaitTaskDone (t : Task) (now : Z) (q : Queue)
    (gets : list (list (@wait Z (Stanza Address)) * Z)) : option (Message * Queue) :=
  WaitTaskDone_loop (task_id_ t) (TimeAfter now (timeout_ t)) now (i32 (timeout_ t))
    Message_null q gets.

(** The test the callers of [SyncProcessTask] make: an answer came. *)
Definition answered (msg : Message) : bool := bool_decide (phandler msg <> None).

(** ** What waiting promises *)
Definition is_answer (task_id : Z) (m : Message) : bool :=
  bool_decide (is_Some (phandler m)) && (message_id m =? task_id).

(** A [Get] on a queue of ordinary posted messages takes the first. *)
Definition plain (q : Queue) (l : list Message) : Prop :=
  fPeekKeep_ q = false /\ dmsgq_ q = [] /\ msgq_ q = l /\
  Forall (fun m => message_id m <> MQID_DISPOSE) l.

Lemma Get_plain now q m l pmsg cms waits : plain q (m :: l) ->
  exists q', Get now q pmsg cms waits = Some (true, m, q') /\ plain q' l /\ fStop_ q' = fStop_ q.
Proof.
  intros (Hp & Hd & Hl & Hok). apply Forall_cons_1 in Hok as [Hm Hok]. unfold Get. rewrite Hp.
  destruct waits; cbn [Get_loop]; rewrite Hd, Hl; cbn [promote pull];
    (destruct (Z.eqb_spec MQID_DISPOSE (message_id m)); [congruence|]);
    eexists; by split.
Qed.

(** A wait during which nothing comes. *)
Definition idle (t : Z) : @wait Z (Stanza Address) := fun _ => (true, t, fun q => q).

(** [Get] on an empty queue that waits out its time leaves the message alone. *)
Lemma Get_waits now q pmsg cms (t : Z) : plain q [] -> fStop_ q = false ->
  cms <> kForever -> cms <= TimeDiff t now ->
  Get now q pmsg cms [idle t] = Some (false, pmsg, set_queues q [] []).
Proof.
  intros (Hp & Hd & Hl & _) Hs Hc Ht. unfold Get. rewrite Hp. cbn [Get_loop].
  rewrite Hd, Hl. cbn [promote pull idle]. cbn [fStop_ set_queues]. rewrite Hs. cbn [negb].
  destruct (Z.eqb_spec cms kForever); [done|]. by destruct (Z.leb_spec cms (TimeDiff t now)); [|lia].
Qed.

Lemma last_cons {A} (x : A) l d d' : List.last (x :: l) d = List.last (x :: l) d'.
Proof. revert x. induction l as [|y l IH]; intros x; [done|]. exact (IH y). Qed.

Lemma loop_skips stale : forall (q : Queue) l task_id msEnd now cms msg gets,
  plain q (stale ++ l) -> Forall (fun m => is_answer task_id m = false) stale ->
  length gets = length stale -> Forall (fun g => 0 <= TimeUntil g.2 msEnd) gets ->
  exists q' now', plain q' l /\ fStop_ q' = fStop_ q /\ (stale = [] -> now' = now) /\
    forall more, WaitTaskDone_loop task_id msEnd now cms msg q (gets ++ more) =
      WaitTaskDone_loop task_id msEnd now'
        (match stale with [] => cms | _ => TimeUntil now' msEnd end) (List.last stale msg) q' more.
Proof.
  induction stale as [|m stale IH]; intros q l task_id msEnd now cms msg gets Hq Hst Hlen Hg.
  { destruct gets; [|done]. by exists q, now. }
  destruct gets as [|[waits t] gets]; [done|].
  apply Forall_cons_1 in Hst as [Hm Hst]. apply Forall_cons_1 in Hg as [Ht Hg]. cbn [snd] in Ht.
  destruct (Get_plain now q m (stale ++ l) msg cms waits Hq) as (q1 & E & Hq1 & Hstop).
  destruct (IH q1 l task_id msEnd t (TimeUntil t msEnd) m gets Hq1 Hst) as
    (q' & now' & Hq' & Hst' & Hnil & Hrun); [simpl in Hlen; lia|done|].
  exists q', now'. split_and!; [done|congruence|done|].
  intros more. cbn [app WaitTaskDone_loop]. rewrite E. cbn [mbind option_bind].
  unfold is_answer in Hm. rewrite Hm.
  destruct (Z.ltb_spec (TimeUntil t msEnd) 0); [lia|]. rewrite Hrun.
  destruct stale as [|m2 stale]; [by rewrite (Hnil eq_refl)|]. by rewrite (last_cons m2 stale m msg).
Qed.

(** C22. An answer in the thread's queue is returned, whatever other messages are in
    front of it, if the deadline has not passed when those have been taken. *)
Theorem WaitTaskDone_answer (t : Task) now q stale answer rest gets gets' :
  plain q (stale ++ answer :: rest) ->
  Forall (fun m => is_answer (task_id_ t) m = false) stale -> is_answer (task_id_ t) answer = true ->
  length gets = length stale ->
  Forall (fun g => 0 <= TimeUntil g.2 (TimeAfter now (timeout_ t))) gets -> gets' <> [] ->
  exists q', WaitTaskDone t now q (gets ++ gets') = Some (answer, q') /\
    answered answer = true /\ plain q' rest.
Proof.
  intros Hq Hst Ha Hlen Hg Hne. unfold WaitTaskDone.
  destruct (loop_skips stale q (answer :: rest) (task_id_ t) (TimeAfter now (timeout_ t)) now
    (i32 (timeout_ t)) Message_null gets Hq Hst Hlen Hg) as (q1 & now1 & Hq1 & _ & _ & Hrun).
  rewrite Hrun. destruct gets' as [|[waits t'] gets']; [done|]. cbn [WaitTaskDone_loop].
  destruct (Get_plain now1 q1 answer rest (List.last stale Message_null)
    (match stale with [] => i32 (timeout_ t) | _ => TimeUntil now1 (TimeAfter now (timeout_ t)) end)
    waits Hq1) as (q2 & -> & Hq2 & _).
  cbn [mbind option_bind]. unfold is_answer in Ha. rewrite Ha. exists q2. split_and!; try done.
  unfold answered. apply andb_prop in Ha as [Ha _]. apply bool_decide_eq_true in Ha.
  apply bool_decide_eq_true. by destruct Ha as [h ->].
Qed.

(** A late answer to an earlier task, still in the thread's queue, is taken by the
    next task that waits there.  The loop rightly goes on, but [msg] keeps the
    late answer; when the time runs out it is returned, and callers, who only
    look whether [phandler] is set, take it for theirs. *)
Theorem stale_answer_returned (t : Task) now q late t1 t2 :
  plain q [late] -> fStop_ q = false -> phandler late <> None -> message_id late <> task_id_ t ->
  let msEnd := TimeAfter now (timeout_ t) in
  0 <= TimeUntil t1 msEnd <= TimeDiff t2 t1 -> TimeUntil t2 msEnd < 0 ->
  exists q', WaitTaskDone t now q [([], t1); ([idle t2], t2)] = Some (late, q') /\
    answered late = true.
Proof.
  intros Hq Hstop Hh Hid msEnd H1 H2. unfold WaitTaskDone. fold msEnd. cbn [WaitTaskDone_loop].
  destruct (Get_plain now q late [] Message_null (i32 (timeout_ t)) [] Hq) as (q1 & -> & Hq1 & Hs1).
  cbn [mbind option_bind].
  assert (Hna : bool_decide (is_Some (phandler late)) && (message_id late =? task_id_ t) = false).
  { destruct (Z.eqb_spec (message_id late) (task_id_ t)); [done|]. apply andb_false_r. }
  rewrite Hna. destruct (Z.ltb_spec (TimeUntil t1 msEnd) 0); [lia|].
  rewrite Get_waits; [|done|congruence|unfold kForever; lia|lia]. cbn [mbind option_bind].
  rewrite Hna. destruct (Z.ltb_spec (TimeUntil t2 msEnd) 0); [|lia].
  eexists. split; [done|]. by apply bool_decide_eq_true.
Qed.
End task.
Arguments Task : clear implicits.
Arguments thread_post : clear implicits.

(** ** Concrete runs: addresses are numbers *)
Definition demo_task : Task Z :=
  mkTask (ReqTask 2 (bytes "get_gpio_value")) 3000 (Some 1) 17 (Some (RequestData 2 nullValue false)).
Definition demo_answer : @Message Z (Stanza Z) :=
  mkMessage (Some 17) 17 (Some (ResponseData 2 (objectValue []) [])) 0.
Definition demo_late : @Message Z (Stanza Z) :=
  mkMessage (Some 9) 9 (Some (ResponseData 2 (objectValue []) [])) 0.
Definition queue_of (l : list (@Message Z (Stanza Z))) : @MessageQueue Z (Stanza Z) :=
  mkQueue false false Message_null true l [] 0.

Lemma WaitTaskDone_answer_witness :
  exists q', WaitTaskDone demo_task 100 (queue_of [demo_late; demo_answer; demo_late])
      ([([], 2000)] ++ [([], 2001)]) = Some (demo_answer, q') /\
    answered demo_answer = true /\ plain q' [demo_late].
Proof.
  apply (WaitTaskDone_answer demo_task 100 _ [demo_late] demo_answer [demo_late] [([], 2000)] [([], 2001)]).
  - repeat split; repeat constructor; vm_compute; congruence.
  - repeat constructor.
  - reflexivity.
  - reflexivity.
  - repeat constructor; vm_compute; intuition congruence.
  - discriminate.
Defined.

Lemma stale_answer_returned_witness :
  exists q', WaitTaskDone demo_task 100 (queue_of [demo_late]) [([], 200); ([idle 3200], 3200)]
      = Some (demo_late, q') /\ answered demo_late = true.
Proof.
  apply (stale_answer_returned demo_task 100).
  - repeat split; repeat constructor; vm_compute; congruence.
  - reflexivity.
  - discriminate.
  - discriminate.
  - vm_compute. intuition congruence.
  - vm_compute. reflexivity.
Defined.
