(* ===== verification/QueueLayer.v ===== *)
(** * vzsdk/queuelayer.{h,cpp}: routing between the tasks and the sessions

    [QueueLayer] runs on the queue thread.  Requests of tasks are registered in
    [tasks_] and passed to the session manager; responses are offered to the tasks
    in the order of their ids, then to the push task.  The push task is reached
    only through the interface [PushTask], which PushManager.v implements. *)
From Stdlib Require Import String.
From S2P Require Import Prelude Text StdMap ByteOrder ByteBuffer Json JsonText InternalMessage Task.
From S2P Require Session SessionManager.

(** What the layer asks of the push task: [HandleMessage]. *)
Class PushTask (Address P : Type) := push_HandleMessage :
  P -> Z -> Stanza Address -> outcome (bool * list (thread_post Address)).

Section layer.
Context {Address P : Type} {HO : Host} {HP : Heap} {JT : DoubleText} `{PushTask Address P}.
Abbreviation SessionManager := (@SessionManager.SessionManager).

(** The data of a message to the layer: a stanza, [ReqTaskStanza] of a task or of
    the push task, or [RemoveTaskStanza]. *)
Inductive Data :=
  | StanzaData (s : Stanza Address)
  | ReqTaskStanza (t : Task Address)
  | AddPushTask (p : P)
  | RemoveTaskStanza (task_id : Z).

Definition data_type (d : Data) : Z :=
  match d with
  | StanzaData s => stanza_type_ s
  | ReqTaskStanza t => message_type t
  | AddPushTask _ => REQ_ADD_PUSH_TASK
  | RemoveTaskStanza _ => REQ_REMOVE_TASK_EVENT
  end.

Inductive effect :=
  | AsyncPost (id : Z) (pdata : option (Stanza Address))
  | ManagerPost (id : Z) (stanza : Stanza Address)
  | ThreadPost (p : thread_post Address).

Record QueueLayer := mkLayer {
  session_manager_ : SessionManager;
  tasks_ : list (Z * Task Address);
  push_task_ : option P }.

Definition set_tasks (q : QueueLayer) (m : list (Z * Task Address)) : QueueLayer :=
  mkLayer (session_manager_ q) m (push_task_ q).
Definition set_manager (q : QueueLayer) (sm : SessionManager) : QueueLayer :=
  mkLayer sm (tasks_ q) (push_task_ q).
Definition set_push_task (q : QueueLayer) (p : P) : QueueLayer :=
  mkLayer (session_manager_ q) (tasks_ q) (Some p).

Definition AddTask (q : QueueLayer) (t : Task Address) : bool * QueueLayer :=
  match find (task_id_ t) (tasks_ q) with
  | Some _ => (false, q)
  | None => (true, set_tasks q (insert (task_id_ t) t (tasks_ q)))
  end.
Definition RemoveTask (q : QueueLayer) (task_id : Z) : bool * QueueLayer :=
  match find task_id (tasks_ q) with
  | None => (false, q)
  | Some _ => (true, set_tasks q (erase task_id (tasks_ q)))
  end.
Definition FindTask (q : QueueLayer) (task_id : Z) : option (Task Address) :=
  find task_id (tasks_ q).

(** ** Requests *)
Definition OnTranslateToAsyncLayer (q : QueueLayer) (d : Data) : outcome (QueueLayer * list effect) :=
  match d with
  | ReqTaskStanza t =>
    let '(_, q) := AddTask q t in
    Done (q, [AsyncPost (task_id_ t) (message_data_ t)])
  | _ => Undefined
  end.
Definition OnRemoveTaskMessage (q : QueueLayer) (d : Data) : outcome (QueueLayer * list effect) :=
  match d with
  | RemoveTaskStanza id => Done ((RemoveTask q id).2, [])
  | _ => Undefined
  end.
Definition OnAddPushTaskMessage (q : QueueLayer) (d : Data) : outcome (QueueLayer * list effect) :=
  match d with
  | AddPushTask p => Done (set_push_task q p, [])
  | _ => Undefined
  end.
Definition RemoveSession (q : QueueLayer) (d : Data) : outcome (QueueLayer * list effect) :=
  match d with
  | StanzaData s =>
    Done (set_manager q (SessionManager.RemoveSession (session_manager_ q) (session_id_ s)).2, [])
  | _ => Undefined
  end.

Definition OnReqMessage (q : QueueLayer) (message_id : Z) (d : Data)
    : outcome (QueueLayer * list effect) :=
  let t := data_type d in
  if (t =? REQ_CONNECT_SERVER) || (t =? REQ_SEND_REQUESTION) || (t =? REQ_DISCONNECT_SERVER)
  then OnTranslateToAsyncLayer q d
  else if t =? REQ_REMOVE_TASK_EVENT then OnRemoveTaskMessage q d
  else if t =? REQ_ADD_PUSH_TASK then OnAddPushTaskMessage q d
  else if t =? REQ_REMOVE_SESSION_EVENT then RemoveSession q d
  else Done (q, []).

(** ** Responses *)

(** The loop of [OntranslateToSyncLayer]: whether a task took the message. *)
Fixpoint offer (tasks : list (Z * Task Address)) (message_id : Z) (s : Stanza Address)
    : outcome (bool * list effect) :=
  match tasks with
  | [] => Done (false, [])
  | (_, t) :: tasks =>
    '(taken, posts) ← HandleMessage t message_id s;
    if (taken : bool) then Done (true, map ThreadPost posts)
    else '(taken, evs) ← offer tasks message_id s; Done (taken, map ThreadPost posts ++ evs)
  end.
Definition OntranslateToSyncLayer (q : QueueLayer) (message_id : Z) (d : Data)
    : outcome (QueueLayer * list effect) :=
  match d with
  | StanzaData s =>
    '(taken, evs) ← offer (tasks_ q) message_id s;
    if (taken : bool) then Done (q, evs)
    else match push_task_ q with
      | Some p =>
        '(_, posts) ← push_HandleMessage p message_id s;
        Done (q, evs ++ map ThreadPost posts)
      | None => Done (q, evs)
      end
  | _ => Undefined
  end.

Definition ReConnect (q : QueueLayer) (d : Data) : outcome (QueueLayer * list effect) :=
  match d with
  | StanzaData s =>
    Done (q, [ManagerPost RES_RECONNECT_EVENT (set_stanza_type s RES_RECONNECT_EVENT)])
  | _ => Undefined
  end.

Definition OnResMessage (q : QueueLayer) (message_id : Z) (d : Data)
    : outcome (QueueLayer * list effect) :=
  let t := data_type d in
  if (t =? RES_DISCONNECTED_EVENT_SUCCEED) || (t =? RES_DISCONNECTED_EVENT_FAILURE)
     || (t =? RES_CONNECTED_EVENT) || (t =? RES_STANZA_EVENT) || (t =? RES_PUSH_SUCCEED)
     || (t =? RES_RESUME_TASK_EVENT)
  then OntranslateToSyncLayer q message_id d
  else if t =? RES_RECONNECT_EVENT then ReConnect q d
  else Done (q, []).

Definition OnMessage (q : QueueLayer) (message_id : Z) (d : Data)
    : outcome (QueueLayer * list effect) :=
  if REQ_RES_BREAK <? data_type d then OnResMessage q message_id d
  else if data_type d <? REQ_RES_BREAK then OnReqMessage q message_id d
  else Done (q, []).

(** [Post] of a task and [AsyncRemoveTask]: the message to the queue thread. *)
Definition Post_task (t : Task Address) : Z * Data := (task_id_ t, ReqTaskStanza t).
Definition AsyncRemoveTask (t : Task Address) : Z * Data := (task_id_ t, RemoveTaskStanza (task_id_ t)).

Definition Stop (q : QueueLayer) : QueueLayer * list (SessionManager.effect Address) :=
  let q := set_tasks q [] in
  let '(sm, evs) := SessionManager.Stop (session_manager_ q) in
  (set_manager q sm, evs).

(** ** Invariant and routing *)
Record layer_ok (q : QueueLayer) : Prop := {
  lo_sorted : sorted (tasks_ q);
  lo_keyed : forall id t, FindTask q id = Some t -> task_id_ t = id }.

Lemma AddTask_ok q t : layer_ok q -> layer_ok (AddTask q t).2 /\
  forall id, FindTask (AddTask q t).2 id =
    if task_id_ t =? id then Some (default t (FindTask q id)) else FindTask q id.
Proof.
  intros [Hs Hk]. unfold AddTask.
  change (find (task_id_ t) (tasks_ q)) with (FindTask q (task_id_ t)).
  destruct (FindTask q (task_id_ t)) as [t0|] eqn:E; cbn [snd].
  - split; [by split|]. intros id. destruct (Z.eqb_spec (task_id_ t) id) as [<-|]; [by rewrite E|done].
  - assert (Hf : forall id, FindTask (set_tasks q (insert (task_id_ t) t (tasks_ q))) id =
      if task_id_ t =? id then Some t else FindTask q id).
    { intros id. unfold FindTask in *. cbn [tasks_ set_tasks].
      rewrite find_insert by done. by rewrite E. }
    split.
    + split; [by apply sorted_insert|]. intros id t1 H1. rewrite Hf in H1.
      destruct (Z.eqb_spec (task_id_ t) id); [congruence|by apply Hk].
    + intros id. rewrite Hf. destruct (Z.eqb_spec (task_id_ t) id) as [<-|]; [by rewrite E|done].
Qed.
Lemma RemoveTask_ok q id : layer_ok q -> layer_ok (RemoveTask q id).2 /\
  forall id', FindTask (RemoveTask q id).2 id' = if id =? id' then None else FindTask q id'.
Proof.
  intros [Hs Hk]. unfold RemoveTask.
  change (find id (tasks_ q)) with (FindTask q id).
  destruct (FindTask q id) as [t0|] eqn:E; cbn [snd].
  - assert (Hf : forall id', FindTask (set_tasks q (erase id (tasks_ q))) id' =
      if id =? id' then None else FindTask q id').
    { intros id'. unfold FindTask. cbn [tasks_ set_tasks]. by apply find_erase. }
    split; [|done]. split; [by apply sorted_erase|]. intros id' t1 H1. rewrite Hf in H1.
    destruct (id =? id'); [done|by apply Hk].
  - split; [by split|]. intros id'. by destruct (Z.eqb_spec id id') as [<-|].
Qed.

Lemma HandleMessage_spec (t : Task Address) mid s b : accepts t mid s = Done b ->
  HandleMessage t mid s =
  Done (match task_thread_ t with
        | Some th => if (b : bool) then (true, [(th, task_id_ t, s)]) else (false, [])
        | None => (false, [])
        end).
Proof. intros E. unfold HandleMessage. destruct (task_thread_ t); [|done]. by rewrite E. Qed.

(** The task that gets a response: the first, in the order of ids, that accepts
    it and has a thread. *)
Definition takes (mid : Z) (s : Stanza Address) (t : Task Address) : bool :=
  match task_thread_ t, accepts t mid s with Some _, Done b => b | _, _ => false end.
Definition first_taker (mid : Z) (s : Stanza Address) (tasks : list (Z * Task Address))
    : option (Task Address) :=
  List.find (takes mid s) (map snd tasks).

Definition answer_post (t : Task Address) (s : Stanza Address) : list effect :=
  match task_thread_ t with Some th => [ThreadPost (th, task_id_ t, s)] | None => [] end.

Lemma offer_spec tasks mid s :
  Forall (fun e => exists b, accepts e.2 mid s = Done b) tasks ->
  offer tasks mid s = Done (match first_taker mid s tasks with
    | Some t => (true, answer_post t s) | None => (false, []) end).
Proof.
  unfold first_taker. induction 1 as [|[id t] tasks [b Hb] _ IH]; [done|]. cbn [offer map snd List.find].
  cbn [snd] in Hb. rewrite (HandleMessage_spec t mid s b Hb). unfold takes at 1. rewrite Hb. run.
  destruct (task_thread_ t) as [th|] eqn:Eth.
  - destruct b; [unfold answer_post; by rewrite Eth|]. rewrite IH. by destruct (List.find _ _).
  - rewrite IH. by destruct (List.find _ _).
Qed.

Lemma find_sorted_first (f : Task Address -> bool) (m : list (Z * Task Address)) t : sorted m ->
  (forall id t, find id m = Some t -> task_id_ t = id) -> List.find f (map snd m) = Some t ->
  find (task_id_ t) m = Some t /\
  forall id t', find id m = Some t' -> f t' = true -> task_id_ t <= id.
Proof.
  induction 1 as [|[k t0] m Hs IH Hm]; intros Hk; [done|]. cbn [map snd List.find].
  assert (Hk0 : task_id_ t0 = k) by (apply Hk; simpl; by rewrite Z.eqb_refl).
  destruct (f t0) eqn:E.
  - intros [= <-]. simpl. rewrite Hk0, Z.eqb_refl. split; [done|]. intros id t'.
    destruct (Z.eqb_spec k id) as [->|]; [lia|]. intros Hf%find_In _.
    rewrite List.Forall_forall in Hm. specialize (Hm _ Hf). simpl in Hm. lia.
  - intros Hf. destruct IH as [H1 H2]; [|done|].
    { intros id t1 Hf1. apply Hk. simpl. destruct (Z.eqb_spec k id) as [<-|]; [|done].
      apply find_In in Hf1. rewrite List.Forall_forall in Hm. specialize (Hm _ Hf1). simpl in Hm. lia. }
    split.
    + simpl. destruct (Z.eqb_spec k (task_id_ t)) as [Heq|]; [|done].
      apply find_In in H1. rewrite List.Forall_forall in Hm. specialize (Hm _ H1). simpl in Hm. lia.
    + intros id t' Hf' Ht'. simpl in Hf'. destruct (Z.eqb_spec k id); [|by eapply H2].
      congruence.
Qed.

Definition routed (t : Z) : Prop :=
  t = RES_DISCONNECTED_EVENT_SUCCEED \/ t = RES_DISCONNECTED_EVENT_FAILURE \/
  t = RES_CONNECTED_EVENT \/ t = RES_STANZA_EVENT \/ t = RES_PUSH_SUCCEED \/
  t = RES_RESUME_TASK_EVENT.
Lemma OnMessage_routed q mid s : routed (stanza_type_ s) ->
  OnMessage q mid (StanzaData s) = OntranslateToSyncLayer q mid (StanzaData s).
Proof.
  unfold OnMessage, OnResMessage. cbn [data_type].
  intros [-> | [-> | [-> | [-> | [-> | ->]]]]]; reflexivity.
Qed.

Lemma OnMessage_unrouted q mid s :
  REQ_RES_BREAK < stanza_type_ s -> ~ routed (stanza_type_ s) ->
  OnMessage q mid (StanzaData s) =
    Done (q, if stanza_type_ s =? RES_RECONNECT_EVENT
             then [ManagerPost RES_RECONNECT_EVENT (set_stanza_type s RES_RECONNECT_EVENT)] else []).
Proof.
  unfold routed, OnMessage, OnResMessage. cbn [data_type]. intros Hb Hr.
  destruct (Z.ltb_spec REQ_RES_BREAK (stanza_type_ s)); [|lia].
  repeat match goal with
  | |- context [?t =? ?k] => lazymatch k with RES_RECONNECT_EVENT => fail | _ => idtac end;
      destruct (Z.eqb_spec t k); [tauto|]
  end.
  cbn [orb]. by destruct (_ =? RES_RECONNECT_EVENT).
Qed.

(** C4. Where a response goes.  Those of connections, requests and tasks go to
    exactly one place: to the waiting task of lowest id that accepts it, as one
    message to that task's thread, or, when no task does, to the push task if
    there is one; a reconnect goes back to the session manager as one message;
    all others are dropped.  None changes anything in the layer.  A task has to
    be well-defined on a response that reaches it. *)
Theorem response_routing q mid s :
  layer_ok q -> REQ_RES_BREAK < stanza_type_ s ->
  (routed (stanza_type_ s) -> Forall (fun e => exists b, accepts e.2 mid s = Done b) (tasks_ q) ->
    match first_taker mid s (tasks_ q) with
    | Some t => OnMessage q mid (StanzaData s) = Done (q, answer_post t s) /\
        length (answer_post t s) = 1%nat /\ FindTask q (task_id_ t) = Some t /\
        forall id t', FindTask q id = Some t' -> takes mid s t' = true -> task_id_ t <= id
    | None =>
        (forall id t', FindTask q id = Some t' -> takes mid s t' = false) /\
        OnMessage q mid (StanzaData s) =
          match push_task_ q with
          | Some p => '(_, posts) ← push_HandleMessage p mid s; Done (q, map ThreadPost posts)
          | None => Done (q, [])
          end
    end) /\
  (~ routed (stanza_type_ s) -> OnMessage q mid (StanzaData s) =
    Done (q, if stanza_type_ s =? RES_RECONNECT_EVENT
             then [ManagerPost RES_RECONNECT_EVENT (set_stanza_type s RES_RECONNECT_EVENT)] else [])).
Proof.
  intros [Hs Hk] Hb. split; [|by apply OnMessage_unrouted]. intros Hr Hacc.
  rewrite OnMessage_routed by done. unfold OntranslateToSyncLayer.
  rewrite offer_spec by done. run. destruct (first_taker mid s (tasks_ q)) as [t|] eqn:E.
  - split; [done|]. split.
    { unfold first_taker in E. apply List.find_some in E as [_ E]. unfold takes in E.
      unfold answer_post. by destruct (task_thread_ t). }
    by apply (find_sorted_first (takes mid s)).
  - split.
    + intros id t' Hf%find_In. unfold first_taker in E.
      eapply List.find_none in E; [exact E|]. apply in_map_iff. by exists (id, t').
    + by destruct (push_task_ q).
Qed.

Lemma OnMessage_keeps q t mid d q' evs :
  layer_ok q -> OnMessage q mid d = Done (q', evs) -> d <> RemoveTaskStanza (task_id_ t) ->
  FindTask q (task_id_ t) = Some t -> layer_ok q' /\ FindTask q' (task_id_ t) = Some t.
Proof.
  intros Hok Hm Hd Ht. unfold OnMessage, OnReqMessage, OnResMessage in Hm.
  repeat match type of Hm with (if ?b then _ else _) = _ => destruct b end;
    try (by injection Hm as <- _).
  - destruct d as [s| | |]; try discriminate. cbn [OntranslateToSyncLayer] in Hm. revert Hm.
    destruct (offer _ _ _) as [[[] evs1]| |]; run; try discriminate; [by intros [= <- _]|].
    destruct (push_task_ q); [|by intros [= <- _]].
    destruct (push_HandleMessage _ _ _) as [[b posts]| |]; run; try discriminate. by intros [= <- _].
  - destruct d; try discriminate. by injection Hm as <- _.
  - destruct d as [|t1| |]; try discriminate. cbn [OnTranslateToAsyncLayer] in Hm.
    destruct (AddTask_ok q t1 Hok) as [Hok1 Hf]. destruct (AddTask q t1) as [b q1].
    injection Hm as <- _. cbn [snd] in *. split; [done|]. rewrite Hf.
    destruct (Z.eqb_spec (task_id_ t1) (task_id_ t)); [by rewrite Ht|done].
  - destruct d as [| | |id]; try discriminate. injection Hm as <- _.
    destruct (RemoveTask_ok q id Hok) as [Hok1 Hf]. split; [done|]. rewrite Hf.
    by destruct (Z.eqb_spec id (task_id_ t)) as [->|].
  - destruct d; try discriminate. injection Hm as <- _. by destruct Hok.
  - destruct d; try discriminate. injection Hm as <- _. by destruct Hok.
Qed.

Lemma OnMessage_post q t : layer_ok q -> kind t <> ReConnectTask -> FindTask q (task_id_ t) = None ->
  let q' := set_tasks q (insert (task_id_ t) t (tasks_ q)) in
  OnMessage q (Post_task t).1 (Post_task t).2 = Done (q', [AsyncPost (task_id_ t) (message_data_ t)]) /\
  layer_ok q' /\ FindTask q' (task_id_ t) = Some t.
Proof.
  intros Hok Hkind Hnone q'.
  assert (Hm : OnMessage q (task_id_ t) (ReqTaskStanza t) = OnTranslateToAsyncLayer q (ReqTaskStanza t)).
  { unfold OnMessage, OnReqMessage. cbn [data_type]. unfold message_type. by destruct (kind t). }
  destruct (AddTask_ok q t Hok) as [Hok1 Hf]. specialize (Hf (task_id_ t)).
  rewrite Z.eqb_refl, Hnone in Hf. cbn [Post_task fst snd]. rewrite Hm.
  unfold OnTranslateToAsyncLayer, AddTask in *. unfold FindTask in Hnone.
  rewrite Hnone in Hok1, Hf |- *. by split_and!.
Qed.

(** C21. A task is known from the moment its request reaches the layer until its
    removal does, and in between every message leaves it there. *)
Theorem task_lifecycle q t mid d q' evs :
  layer_ok q ->
  (OnMessage q (Post_task t).1 (Post_task t).2 = Done (q', evs) ->
    kind t <> ReConnectTask -> FindTask q (task_id_ t) = None ->
    layer_ok q' /\ FindTask q' (task_id_ t) = Some t /\
    evs = [AsyncPost (task_id_ t) (message_data_ t)]) /\
  (OnMessage q (AsyncRemoveTask t).1 (AsyncRemoveTask t).2 = Done (q', evs) ->
    layer_ok q' /\ FindTask q' (task_id_ t) = None /\ evs = []) /\
  (OnMessage q mid d = Done (q', evs) -> d <> RemoveTaskStanza (task_id_ t) ->
    FindTask q (task_id_ t) = Some t -> layer_ok q' /\ FindTask q' (task_id_ t) = Some t).
Proof.
  intros Hok. split_and!.
  - intros Hm Hkind Hnone. destruct (OnMessage_post q t Hok Hkind Hnone) as (E & Hok1 & Hf).
    rewrite E in Hm. by injection Hm as <- <-.
  - destruct (RemoveTask_ok q (task_id_ t) Hok) as [Hok1 Hf]. intros [= <- <-].
    rewrite Hf, Z.eqb_refl. done.
  - intros Hm Hd Ht. by eapply OnMessage_keeps.
Qed.
End layer.
Arguments Data : clear implicits.
Arguments effect : clear implicits.
Arguments QueueLayer : clear implicits.

(** ** Concrete runs: addresses are numbers, and the push task takes nothing *)
Section demo.
Local Existing Instances little_endian zero_heap demo_double.
Definition no_push : PushTask Z unit := fun _ _ _ => Done (false, []).
Local Existing Instance no_push.

Definition gpio_task (id : Z) : Task Z :=
  mkTask (ReqTask 2 (bytes "get_gpio_value")) 3000 (Some 1) id (Some (RequestData 2 nullValue false)).
Definition demo_layer : QueueLayer Z unit :=
  mkLayer SessionManager.SessionManager_new [(5, gpio_task 5); (8, gpio_task 8)] (Some tt).
Definition gpio_reply : Stanza Z :=
  ResponseData 2 (objectValue [("cmd"%string, stringValue (bytes "get_gpio_value"))]) [].

Lemma demo_layer_ok : layer_ok demo_layer.
Proof.
  constructor.
  - repeat constructor; cbn; lia.
  - intros id t. unfold FindTask. cbn [find tasks_ demo_layer].
    destruct (Z.eqb_spec 5 id) as [<-|]; [by intros [= <-]|].
    destruct (Z.eqb_spec 8 id) as [<-|]; [by intros [= <-]|done].
Qed.

(** A reply that two tasks wait for, a reconnect, and a session that was not found. *)
Lemma response_routing_witness :
  let reconnect := mkStanza RES_RECONNECT_EVENT 2 (ConnectBody 5) in
  (first_taker 0 gpio_reply (tasks_ demo_layer) = Some (gpio_task 5) /\
   OnMessage demo_layer 0 (StanzaData gpio_reply) = Done (demo_layer, answer_post (gpio_task 5) gpio_reply) /\
   length (answer_post (gpio_task 5) gpio_reply) = 1%nat /\
   FindTask demo_layer 5 = Some (gpio_task 5) /\
   forall id t', FindTask demo_layer id = Some t' -> takes 0 gpio_reply t' = true -> 5 <= id) /\
  OnMessage demo_layer 5 (StanzaData reconnect) =
    Done (demo_layer, [ManagerPost RES_RECONNECT_EVENT reconnect]) /\
  OnMessage demo_layer 5 (StanzaData (mkStanza RES_SESSION_NOT_FOUND 2 NoBody)) = Done (demo_layer, []).
Proof.
  split; [|split].
  - split; [vm_compute; reflexivity|].
    apply (response_routing demo_layer 0 gpio_reply).
    + apply demo_layer_ok.
    + reflexivity.
    + right; right; right; left. reflexivity.
    + repeat constructor; eexists; vm_compute; reflexivity.
  - apply (response_routing demo_layer 5 (mkStanza RES_RECONNECT_EVENT 2 (ConnectBody 5))).
    + apply demo_layer_ok.
    + reflexivity.
    + unfold routed. cbn. intuition discriminate.
  - apply (response_routing demo_layer 5 (mkStanza RES_SESSION_NOT_FOUND 2 NoBody)).
    + apply demo_layer_ok.
    + reflexivity.
    + unfold routed. cbn. intuition discriminate.
Defined.

(** Task 6 is posted, other messages pass, and it is removed. *)
Definition layer_with (id : Z) : QueueLayer Z unit := (AddTask demo_layer (gpio_task id)).2.
Lemma layer_with_ok id : layer_ok (layer_with id).
Proof. apply AddTask_ok, demo_layer_ok. Qed.
Lemma task_lifecycle_witness :
  (layer_ok (layer_with 6) /\ FindTask (layer_with 6) 6 = Some (gpio_task 6) /\
   [AsyncPost 6 (Some (RequestData 2 nullValue false))] = [AsyncPost 6 (message_data_ (gpio_task 6))]) /\
  (layer_ok demo_layer /\ FindTask demo_layer 6 = None /\ @nil (effect Z) = []) /\
  (layer_ok (layer_with 6) /\ FindTask (layer_with 6) 6 = Some (gpio_task 6)).
Proof.
  split; [|split].
  - apply (task_lifecycle demo_layer (gpio_task 6) 0 (StanzaData gpio_reply) (layer_with 6)
      [AsyncPost 6 (Some (RequestData 2 nullValue false))]);
      [apply demo_layer_ok|vm_compute; reflexivity|discriminate|reflexivity].
  - apply (task_lifecycle (layer_with 6) (gpio_task 6) 0 (StanzaData gpio_reply) demo_layer []);
      [apply layer_with_ok|vm_compute; reflexivity].
  - apply (task_lifecycle (layer_with 6) (gpio_task 6) 0 (StanzaData gpio_reply) (layer_with 6)
      (answer_post (gpio_task 5) gpio_reply));
      [apply layer_with_ok|vm_compute; reflexivity|discriminate|reflexivity].
Defined.
End demo.
