(* ===== verification/Sdk.v ===== *)
(** * The queue thread and the asynchronous thread together

    [System] puts QueueLayer.v and SessionManager.v behind the mailboxes of their
    threads: [queue_box] of the queue thread, [async_box] of the asynchronous
    thread, in the order of their [Post]s (MessageQueue.v shows that a queue of
    ordinary messages is first in, first out), [threads], what was posted to the
    threads that wait, and [wire], what the sockets of the sessions took.  Each
    step function is one turn of one thread. *)
From Stdlib Require Import String.
From S2P Require Import Prelude Text StdMap ByteOrder ByteBuffer Json JsonText InternalMessage Task QueueLayer.
From S2P Require Session SessionManager.
Import Session (Session, event, ConnState).

Section system.
Context {Address P : Type} {HO : Host} {HP : Heap} {JT : DoubleText} {PT : PushTask Address P}.

(** A message to the queue thread: for the layer, or for the session manager. *)
Inductive queue_msg :=
  | LayerMsg (id : Z) (d : Data Address P)
  | ManagerMsg (id : Z) (s : Stanza Address).

Record System := mkSystem {
  layer : QueueLayer Address P;
  queue_box : list queue_msg;
  async_box : list (Z * option (Stanza Address));
  delayed : list (Z * Z * Stanza Address);
  threads : list (thread_post Address);
  wire : list (Z * list Z) }.

Definition manager (y : System) : SessionManager.SessionManager := session_manager_ (layer y).
Definition set_layer (y : System) (q : QueueLayer Address P) : System :=
  mkSystem q (queue_box y) (async_box y) (delayed y) (threads y) (wire y).
Definition set_sm (y : System) (sm : SessionManager.SessionManager) : System :=
  set_layer y (set_manager (layer y) sm).
Definition post_queue (y : System) (m : queue_msg) : System :=
  mkSystem (layer y) (queue_box y ++ [m]) (async_box y) (delayed y) (threads y) (wire y).

Definition layer_effect (y : System) (e : effect Address) : System :=
  match e with
  | AsyncPost id d => mkSystem (layer y) (queue_box y) (async_box y ++ [(id, d)]) (delayed y) (threads y) (wire y)
  | ManagerPost id s => post_queue y (ManagerMsg id s)
  | ThreadPost p => mkSystem (layer y) (queue_box y) (async_box y) (delayed y) (threads y ++ [p]) (wire y)
  end.
(** [n] is what the socket's [Send] returns. *)
Definition manager_effect (n : Z) (y : System) (e : SessionManager.effect Address) : System :=
  match e with
  | SessionManager.QueuePost id s => post_queue y (LayerMsg id (StanzaData s))
  | SessionManager.AsyncPostDelayed cms id s =>
    mkSystem (layer y) (queue_box y) (async_box y) (delayed y ++ [(cms, id, s)]) (threads y) (wire y)
  | SessionManager.SocketEvent id (Session.SocketSend data) =>
    mkSystem (layer y) (queue_box y) (async_box y) (delayed y) (threads y)
      (wire y ++ [(id, Session.took n data)])
  | _ => y
  end.

(** [QueueLayer::Post] of a task, by any thread. *)
Definition PostTask (y : System) (t : Task Address) : System :=
  let '(id, d) := Post_task t in post_queue y (LayerMsg id d).

(** The queue thread takes its next message. *)
Definition queue_step (y : System) (after : ConnState) (n : Z) : outcome System :=
  match queue_box y with
  | [] => Done y
  | m :: box =>
    let y := mkSystem (layer y) box (async_box y) (delayed y) (threads y) (wire y) in
    match m with
    | LayerMsg id d =>
      '(q, evs) ← OnMessage (layer y) id d; Done (foldl layer_effect (set_layer y q) evs)
    | ManagerMsg id s =>
      '(sm, evs) ← SessionManager.OnMessage (manager y) id (Some s) after n;
      Done (foldl (manager_effect n) (set_sm y sm) evs)
    end
  end.
(** The asynchronous thread takes its next message. *)
Definition async_step (y : System) (after : ConnState) (n : Z) : outcome System :=
  match async_box y with
  | [] => Done y
  | (id, d) :: box =>
    let y := mkSystem (layer y) (queue_box y) box (delayed y) (threads y) (wire y) in
    '(sm, evs) ← SessionManager.OnMessage (manager y) id d after n;
    Done (foldl (manager_effect n) (set_sm y sm) evs)
  end.
(** The asynchronous thread handles a socket event of a session. *)
Definition network (y : System) (sid n : Z) (handler : Session -> Session * list event) : System :=
  let '(sm, evs) := SessionManager.session_event (manager y) sid handler in
  foldl (manager_effect n) (set_sm y sm) evs.

(** [OnReadEvent], whose loop always ends ([OnReadEvent_ok]). *)
Definition on_read (now : Z) (recvs : list (list Z)) (s : Session) : Session * list event :=
  default (s, []) (Session.OnReadEvent now s recvs).

Lemma AsyncWrite_keeps s d n t k :
  Session.read_buffer_ (Session.AsyncWrite s d n t k).1 = Session.read_buffer_ s.
Proof.
  unfold Session.AsyncWrite, Session.TryToWriteData.
  repeat (case_match; try done).
Qed.

(** What a session that is open for a request looks like. *)
Record session_ready (s : Session) : Prop := {
  sr_ok : Session.session_ok s;
  sr_writer : Session.writer_ok s;
  sr_empty : contents (Session.read_buffer_ s) = [];
  sr_connected : Session.connected s = true }.

(** Of tasks that refuse a response and one that accepts it, the one gets it. *)
Lemma only_taker mid (r : Stanza Address) t m :
  sorted m -> find (task_id_ t) m = None -> takes mid r t = true -> accepts t mid r = Done true ->
  Forall (fun e => accepts e.2 mid r = Done false) m ->
  offer (insert (task_id_ t) t m) mid r = Done (true, answer_post t r).
Proof.
  intros Hs Hnone Ht Hacc Hm.
  assert (Hin : forall e, In e (insert (task_id_ t) t m) -> e.2 = t \/ accepts e.2 mid r = Done false).
  { intros e [->|He]%In_insert; [by left|]. right. rewrite List.Forall_forall in Hm. auto. }
  rewrite offer_spec.
  2: { apply List.Forall_forall. intros e [->|He]%Hin; eauto. }
  destruct (first_taker mid r _) as [t'|] eqn:E; unfold first_taker in E.
  - apply List.find_some in E as [Hx Htk]. apply in_map_iff in Hx as (e & <- & He).
    destruct (Hin e He) as [->|Hf]; [done|]. unfold takes in Htk. rewrite Hf in Htk.
    by destruct (task_thread_ e.2).
  - exfalso. assert (Hl : In t (map snd (insert (task_id_ t) t m))).
    { apply in_map_iff. exists (task_id_ t, t). split; [done|]. apply find_In.
      rewrite find_insert, Z.eqb_refl, Hnone by done. done. }
    eapply List.find_none in E; [|exact Hl]. congruence.
Qed.

(** The request is handed to the socket as one frame behind what was queued, and
    nothing is posted. *)
Lemma request_written (sm : SessionManager.SessionManager) sid s tid req n after :
  SessionManager.manager_ok sm -> SessionManager.FindSession sm sid = Some s -> session_ready s ->
  in_width 32 sid -> is_bytes (FastWriter_write req) -> Z.of_nat (length (FastWriter_write req)) < 2 ^ 32 ->
  let out := contents (Session.write_buffer_ s)
    ++ Session.frame 0 (FastWriter_write req, Session.PACKET_TYPE_JSON) in
  Session.can_take n out ->
  exists sm2 s2,
    SessionManager.OnMessage (Address := Address) sm tid (Some (RequestData sid req false)) after n
      = Done (sm2, [SessionManager.SocketEvent sid (Session.SocketSend out)]) /\
    SessionManager.manager_ok sm2 /\ SessionManager.FindSession sm2 sid = Some s2 /\
    Session.session_ok s2 /\ contents (Session.read_buffer_ s2) = [] /\
    out = Session.took n out ++ contents (Session.write_buffer_ s2).
Proof.
  intros Hok Hf [Hs Hw He Hconn] Hsid Hb Hl out Hn.
  destruct (SessionManager.OnRequest_frame (Address := Address) sm tid sid s req false n Hok Hf Hw Hsid Hb Hl Hn)
    as (sm2 & rest & E & Hf2 & Hw2 & Hc & _). fold out in E, Hc. rewrite Hconn in E, Hc.
  assert (Hm : SessionManager.OnMessage (Address := Address) sm tid (Some (RequestData sid req false)) after n
      = Done (sm2, [SessionManager.SocketEvent sid (Session.SocketSend out)])) by exact E.
  exists sm2, (Session.set_write_buffer s rest). split_and!; try done.
  - by eapply SessionManager.OnRequest_ok.
  - destruct Hs as [H1 H2 H3]. split; [done|done|]. by destruct Hw2.
Qed.

(** The device's answer, in any pieces, becomes one message for the layer. *)
Lemma network_reply (y : System) sid n s reply j now recvs :
  SessionManager.manager_ok (manager y) -> SessionManager.FindSession (manager y) sid = Some s ->
  Session.session_ok s -> contents (Session.read_buffer_ s) = [] ->
  Session.packet_ok (reply, Session.PACKET_TYPE_JSON) ->
  Forall is_bytes recvs -> concat recvs = Session.frame 0 (reply, Session.PACKET_TYPE_JSON) ->
  Reader_parse (take (SessionManager.FindEndString reply) reply) = Some j ->
  exists sm', network y sid n (on_read now recvs) =
    post_queue (set_sm y sm') (LayerMsg 0 (StanzaData (ResponseData sid j reply))).
Proof.
  intros Hok Hf Hs Hempty Hp Hr Hc Hj. unfold network, SessionManager.session_event. rewrite Hf.
  destruct (Session.OnReadEvent_ok now s recvs [(reply, Session.PACKET_TYPE_JSON)] [] Hs Hr)
    as (s' & E & _).
  { rewrite Hempty, Hc. cbn [app]. rewrite <- (app_nil_r (Session.frame _ _)).
    eapply Session.deframes_step; [by apply Session.head_frame_frame|]. by constructor. }
  unfold on_read. rewrite E. cbn [default flat_map app]. eexists.
  unfold Session.packet_events. cbn [snd fst]. cbn -[SessionManager.put_session].
  unfold SessionManager.OnSessionPacketEvent. rewrite Hj. done.
Qed.

(** C1. The messages of the two threads carry a request out and its answer back.
    With both threads idle, no half-read packet in the session and no other task that
    accepts the answer: after posting a request task for a connected session, one turn of each
    thread, the device's answer in any pieces and another turn of the queue
    thread, the answer is, under the task's id, in the queue of the thread that
    waits, and nothing else was posted anywhere; the socket was offered once, what
    was queued and the request as one frame behind it, and what it did not take
    of that is still queued. *)
Theorem request_response y t th sid cmd req n s reply j now recvs after :
  queue_box y = [] -> async_box y = [] -> layer_ok (layer y) ->
  SessionManager.reachable (Address := Address) (manager y) -> SessionManager.FindSession (manager y) sid = Some s ->
  session_ready s -> in_width 32 sid ->
  t = mkTask (ReqTask sid cmd) (timeout_ t) (Some th) (task_id_ t) (Some (RequestData sid req false)) ->
  FindTask (layer y) (task_id_ t) = None ->
  is_bytes (FastWriter_write req) -> Z.of_nat (length (FastWriter_write req)) < 2 ^ 32 ->
  let out := contents (Session.write_buffer_ s)
    ++ Session.frame 0 (FastWriter_write req, Session.PACKET_TYPE_JSON) in
  Session.can_take n out ->
  Session.packet_ok (reply, Session.PACKET_TYPE_JSON) ->
  Forall is_bytes recvs -> concat recvs = Session.frame 0 (reply, Session.PACKET_TYPE_JSON) ->
  Reader_parse (take (SessionManager.FindEndString reply) reply) = Some j -> response_cmd j = Done cmd ->
  Forall (fun e => accepts e.2 0 (ResponseData sid j reply) = Done false) (tasks_ (layer y)) ->
  exists y1 y2 y4,
    queue_step (PostTask y t) after n = Done y1 /\ async_step y1 after n = Done y2 /\
    queue_step (network y2 sid n (on_read now recvs)) after n = Done y4 /\
    threads y4 = threads y ++ [(th, task_id_ t, ResponseData sid j reply)] /\
    queue_box y4 = [] /\ async_box y4 = [] /\ delayed y4 = delayed y /\
    wire y4 = wire y ++ [(sid, Session.took n out)] /\
    exists s2, SessionManager.FindSession (manager y2) sid = Some s2 /\
      out = Session.took n out ++ contents (Session.write_buffer_ s2).
Proof.
  intros Hq Ha Hlok Hreach Hf Hready Hsid Et Hnone Hb Hl out Hn Hp Hr Hc Hj Hcmd Hothers.
  pose proof (SessionManager.reachable_ok _ Hreach) as Hmok.
  destruct y as [ly qb ab dl ths wr]. cbn [queue_box async_box layer threads wire delayed] in *. subst qb ab.
  (* the queue thread registers the task *)
  destruct (OnMessage_post ly t Hlok ltac:(by rewrite Et) Hnone) as (E1 & _ & _).
  set (q1 := set_tasks ly _) in *.
  assert (Ed : message_data_ t = Some (RequestData sid req false)) by by rewrite Et.
  exists (mkSystem q1 [] [(task_id_ t, message_data_ t)] dl ths wr).
  (* the asynchronous thread writes the request *)
  destruct (request_written (session_manager_ ly) sid s (task_id_ t) req n after Hmok Hf Hready Hsid Hb Hl Hn)
    as (sm2 & s2 & E2 & Hmok2 & Hf2 & Hsok2 & Hse2 & Hframe). fold out in E2, Hframe.
  set (y2 := mkSystem (set_manager q1 sm2) [] [] dl ths (wr ++ [(sid, Session.took n out)])).
  (* the answer arrives *)
  destruct (network_reply y2 sid n s2 reply j now recvs Hmok2 Hf2 Hsok2 Hse2 Hp Hr Hc Hj) as (sm3 & E3).
  exists y2. eexists. split; [|split; [|split]].
  - unfold queue_step, PostTask. cbn [Post_task post_queue queue_box app layer].
    cbn [Post_task fst snd] in E1. rewrite E1. by run.
  - unfold async_step, manager. cbn [async_box layer]. rewrite Ed.
    change (session_manager_ q1) with (session_manager_ ly). rewrite E2. by run.
  - rewrite E3. unfold queue_step. cbn [queue_box post_queue set_sm set_layer y2 app layer].
    rewrite OnMessage_routed by (unfold routed; auto). cbn [OntranslateToSyncLayer].
    change (tasks_ _) with (insert (task_id_ t) t (tasks_ ly)).
    assert (Hacc : accepts t 0 (ResponseData sid j reply) = Done true).
    { rewrite Et. cbn [accepts kind task_id_]. unfold req_accepts, ResponseData.
      cbn [session_id_ stanza_type_]. rewrite u32_id, Z.eqb_refl by done. cbn [andb Z.eqb].
      unfold ReqTask_HandleResponse. cbn [response body_]. run. rewrite Hcmd. run.
      change (RES_STANZA_EVENT =? RES_STANZA_EVENT) with true. rewrite Z.eqb_refl. cbn [andb]. by rewrite (bool_decide_eq_true_2 _ eq_refl). }
    rewrite only_taker; [|by destruct Hlok|done|by unfold takes; rewrite Hacc, Et|done|done].
    run. reflexivity.
  - cbn [foldl threads queue_box async_box wire delayed]. unfold answer_post.
    assert (Eth : task_thread_ t = Some th) by by rewrite Et.
    rewrite Eth. cbn [foldl layer_effect threads queue_box async_box wire delayed].
    split_and!; try done. exists s2. by split.
Qed.
End system.

(** ** A concrete run: addresses are numbers, and the push task takes nothing *)
Section demo.
Local Existing Instances little_endian zero_heap demo_double no_push.

Definition demo_system : System (Address := Z) (P := unit) :=
  mkSystem (mkLayer SessionManager.demo_manager [] (Some tt)) [] [] [] [] [].
Definition gpio_request : Value :=
  objectValue [("cmd", stringValue (bytes "get_gpio_value")); ("gpio", intValue 1)]%string.
Definition demo_task : Task Z :=
  mkTask (ReqTask 2 (bytes "get_gpio_value")) 3000 (Some 1) 17 (Some (RequestData 2 gpio_request false)).
(** The device's answer, terminated, in three pieces. *)
Definition gpio_answer : Value :=
  objectValue [("cmd", stringValue (bytes "get_gpio_value")); ("value", intValue 1)]%string.
Definition gpio_text : list Z := FastWriter_write gpio_answer ++ [0].
Definition gpio_frame : list Z := Session.frame 0 (gpio_text, Session.PACKET_TYPE_JSON).
Definition gpio_reads : list (list Z) :=
  [take 5 gpio_frame; take 20 (drop 5 gpio_frame); drop 25 gpio_frame].

Lemma demo_ready : session_ready SessionManager.demo_open.
Proof.
  assert (E : Session.read_buffer_ SessionManager.demo_open = ByteBuffer_new) by (vm_compute; reflexivity).
  pose proof SessionManager.demo_open_writer as Hw. constructor.
  - constructor; rewrite ?E; [apply Construct_None_wf|vm_compute; reflexivity|apply Hw].
  - exact Hw.
  - rewrite E. vm_compute. reflexivity.
  - vm_compute. reflexivity.
Qed.
Lemma gpio_bytes : is_bytes (FastWriter_write gpio_request) /\ is_bytes gpio_text /\
  Forall is_bytes gpio_reads.
Proof. split_and!; apply (bool_decide_unpack _); vm_compute; exact I. Qed.

Lemma request_response_witness :
  let out := contents (Session.write_buffer_ SessionManager.demo_open)
    ++ Session.frame 0 (FastWriter_write gpio_request, Session.PACKET_TYPE_JSON) in
  exists y1 y2 y4,
    queue_step (PostTask demo_system demo_task) Session.CS_CONNECTED 4 = Done y1 /\
    async_step y1 Session.CS_CONNECTED 4 = Done y2 /\
    queue_step (network y2 2 4 (on_read 500 gpio_reads)) Session.CS_CONNECTED 4 = Done y4 /\
    threads y4 = [] ++ [(1, 17, ResponseData 2 gpio_answer gpio_text)] /\
    queue_box y4 = [] /\ async_box y4 = [] /\ delayed y4 = [] /\
    wire y4 = [] ++ [(2, Session.took 4 out)] /\
    exists s2, SessionManager.FindSession (manager y2) 2 = Some s2 /\
      out = Session.took 4 out ++ contents (Session.write_buffer_ s2).
Proof.
  apply (request_response demo_system demo_task 1 2 (bytes "get_gpio_value") gpio_request 4
    SessionManager.demo_open gpio_text gpio_answer 500 gpio_reads Session.CS_CONNECTED).
  - reflexivity.
  - reflexivity.
  - constructor; [constructor|done].
  - apply SessionManager.demo_reachable.
  - apply SessionManager.demo_open_find.
  - apply demo_ready.
  - split; [lia|reflexivity].
  - reflexivity.
  - reflexivity.
  - apply gpio_bytes.
  - vm_compute. reflexivity.
  - vm_compute. right. intuition congruence.
  - split; [apply gpio_bytes|]. split; vm_compute; intuition congruence.
  - apply gpio_bytes.
  - vm_compute. reflexivity.
  - vm_compute. reflexivity.
  - vm_compute. reflexivity.
  - constructor.
Defined.
End demo.
