(* ===== verification/PushHandle.v ===== *)
(** * vzsdk/vzsdkpushhandle.{h,cpp}: what is done with what devices push

    Each kind of [PushHandle] is a record and a [HandleMessageData] that says
    whether the message was the handle's, the handle after, and the [effect]s: the
    callbacks into the client and the signals.  [plate0] is what the uninitialised
    local [TH_PlateResult] happens to hold.  An image passed to a callback is the
    offset of the pointer in [res_data] and the size claimed for it. *)
From Stdlib Require Import String.
From S2P Require Import Prelude Text Json JsonText Base64 CommandAnalysis InternalMessage.

Definition VZ_LPRC_NO_ERR : Z := 0.
Definition VZ_LPRC_ONLINE : Z := 3.
Definition VZ_LPRC_OFFLINE : Z := 4.

Inductive VZ_LPRC_RESULT_TYPE :=
  | VZ_LPRC_RESULT_REALTIME | VZ_LPRC_RESULT_STABLE | VZ_LPRC_RESULT_FORCE_TRIGGER
  | VZ_LPRC_RESULT_IO_TRIGGER | VZ_LPRC_RESULT_VLOOP_TRIGGER | VZ_LPRC_RESULT_MULTI_TRIGGER.
Definition GetResultTypeFromTrigBits (uBitsTrigType : Z) : VZ_LPRC_RESULT_TYPE :=
  if uBitsTrigType =? 1 then VZ_LPRC_RESULT_STABLE
  else if uBitsTrigType =? 2 then VZ_LPRC_RESULT_IO_TRIGGER
  else if uBitsTrigType =? 4 then VZ_LPRC_RESULT_FORCE_TRIGGER
  else if uBitsTrigType =? 8 then VZ_LPRC_RESULT_VLOOP_TRIGGER
  else VZ_LPRC_RESULT_MULTI_TRIGGER.

(** An image: where its pointer points in the data, and its size. *)
Definition image : Type := option Z * Z.

Inductive effect :=
  | PlateCallback (callback session_id : Z) (plate : TH_PlateResult) (type : VZ_LPRC_RESULT_TYPE)
      (full clip : image)
  | SerialCallback (callback comm : Z) (buffer : list Z)
  | ConnCallback (callback session_id notify : Z)
  | ChangeConnStatus (notify : Z)
  | AddRecordID (record_id : Z)
  | GetResumeInfo
  | PostResume (cmsDelay session_id : Z).

Section handles.
Context {Address : Type} {JT : DoubleText}.
Implicit Types response : Stanza Address.

(** ** Plates *)
Record IvsPushHandle := mkIvs {
  ivs_key : list Z;
  result_callback_ : option Z;
  recongnition_ : bool;
  ivs_session_id : Z }.

(** The check the first two handles begin with: the command of the response, or
    [None] when it has none.  It reads the members of a [ResponseData], which the
    object must be. *)
Definition response_object (s : Stanza Address) : outcome (option (list Z)) :=
  '(j, _) ← response s;
  let res_json := res_obj_json j in
  if isNull res_json || negb (isObject res_json) then Done None
  else
    m ← lift (index_const res_json "cmd");
    if isNull m then Done None
    else cmd ← lift (asString m); Done (Some cmd).

Definition ivs_images (data : list Z) (full clip : Z) : image * image :=
  let len := Z.of_nat (length (c_str data)) in
  ((if 0 <? full then Some (len + 1) else None, full),
   (if 0 <? clip then Some (len + full + 1) else None, clip)).

Definition Ivs_HandleMessageData (h : IvsPushHandle) (plate0 : TH_PlateResult) (s : Stanza Address)
    : outcome (bool * list effect) :=
  cmd ← response_object s;
  match cmd with
  | None => Done (false, [])
  | Some res_cmd =>
    if negb ((session_id_ s =? u32 (ivs_session_id h)) && (stanza_type_ s =? RES_STANZA_EVENT)
             && bool_decide (res_cmd = ivs_key h)) then Done (false, [])
    else
      '(j, data) ← response s;
      '(plate, full, clip) ← ParsePlateResultResponse (res_json j) plate0 0 0;
      let '(pImage, pClipImage) := ivs_images data full clip in
      Done (true,
        (if recongnition_ h then [AddRecordID (i32 (uId plate))] else [])
        ++ match result_callback_ h with
           | Some f => [PlateCallback f (ivs_session_id h) plate
                          (GetResultTypeFromTrigBits (uBitsTrigType plate)) pImage pClipImage]
           | None => []
           end)
  end.

Definition SetPlateCallBack (h : IvsPushHandle) (f : option Z) : IvsPushHandle :=
  mkIvs (ivs_key h) f (recongnition_ h) (ivs_session_id h).
Definition Ivs_SetSessionID (h : IvsPushHandle) (session_id : Z) : IvsPushHandle :=
  mkIvs (ivs_key h) (result_callback_ h) (recongnition_ h) session_id.
Definition SetRecongnition (h : IvsPushHandle) (r : bool) : IvsPushHandle :=
  mkIvs (ivs_key h) (result_callback_ h) r (ivs_session_id h).

(** ** Serial data *)
Record SerialPushHandle := mkSerial { serial_key : list Z; func_ : option Z }.
Definition SetSerialRecvCallBack (h : SerialPushHandle) (f : option Z) : SerialPushHandle :=
  mkSerial (serial_key h) f.

Definition Serial_HandleMessageData (h : SerialPushHandle) (s : Stanza Address)
    : outcome (bool * list effect) :=
  cmd ← response_object s;
  match cmd with
  | None => Done (false, [])
  | Some res_cmd =>
    if negb ((stanza_type_ s =? RES_STANZA_EVENT) && bool_decide (res_cmd = serial_key h))
    then Done (false, [])
    else
      '(j, _) ← response s;
      value ← ParseTTransmissionResponse (res_json j) (mkTTransmission None None 0 0 None);
      subcmd ← lift_undefined (tt_subcmd value);
      if bool_decide (subcmd = bytes "send") then
        pdata ← lift_undefined (tt_data value);
        '(_, decode_result, _) ← lift_undefined (DecodeFromArray pdata DO_LAX);
        Done (true, match func_ h with
          | Some f => [SerialCallback f (i32 (tt_comm value)) decode_result]
          | None => []
          end)
      else Done (true, [])
  end.

(** ** Connection changes *)
Record ChangeConnPushHandle := mkChangeConn {
  change_key : list Z; change_session_id : Z; conn_callback_ : option Z }.
Definition SetConnCallBack (h : ChangeConnPushHandle) (f : option Z) : ChangeConnPushHandle :=
  mkChangeConn (change_key h) (change_session_id h) f.
Definition Change_SetSessionID (h : ChangeConnPushHandle) (id : Z) : ChangeConnPushHandle :=
  mkChangeConn (change_key h) id (conn_callback_ h).

Definition Change_HandleMessageData (h : ChangeConnPushHandle) (s : Stanza Address)
    : bool * list effect :=
  if session_id_ s =? u32 (change_session_id h) then
    let notify :=
      if stanza_type_ s =? RES_CONNECTED_EVENT then VZ_LPRC_ONLINE
      else if stanza_type_ s =? RES_DISCONNECTED_EVENT_FAILURE then VZ_LPRC_OFFLINE
      else VZ_LPRC_NO_ERR in
    if negb (notify =? VZ_LPRC_NO_ERR) then
      (false, ChangeConnStatus notify ::
        match conn_callback_ h with
        | Some f => [ConnCallback f (change_session_id h) notify]
        | None => []
        end)
    else (false, [])
  else (false, []).

(** ** Resuming records after a disconnection *)
Record ResumePushHandle := mkResume {
  resume_key : list Z;
  resume_session_id : Z;
  recv_record_id_set_ : list Z;
  max_record_id_ : Z;
  cur_max_record_id_ : Z;
  enable_getrecord_ : bool;
  plate_func_ : option Z;
  has_queue_layer : bool }.
(** The constructor leaves [max_record_id_] and [session_id_] as they are. *)
Definition ResumePushHandle_new (cmd_key : list Z) (garbage_session garbage_max : Z) : ResumePushHandle :=
  mkResume cmd_key garbage_session [] garbage_max 0 true None false.

Definition set_enable (h : ResumePushHandle) (b : bool) : ResumePushHandle :=
  mkResume (resume_key h) (resume_session_id h) (recv_record_id_set_ h) (max_record_id_ h)
    (cur_max_record_id_ h) b (plate_func_ h) (has_queue_layer h).
Definition set_received (h : ResumePushHandle) (l : list Z) (max : Z) : ResumePushHandle :=
  mkResume (resume_key h) (resume_session_id h) l max
    (cur_max_record_id_ h) (enable_getrecord_ h) (plate_func_ h) (has_queue_layer h).
(** [recv_record_id_set_.insert]. *)
Definition Resume_AddRecordID (h : ResumePushHandle) (id : Z) : ResumePushHandle :=
  if existsb (Z.eqb id) (recv_record_id_set_ h) then h
  else set_received h (id :: recv_record_id_set_ h) (max_record_id_ h).
Definition Resume_SetSessionID (h : ResumePushHandle) (id : Z) : ResumePushHandle :=
  mkResume (resume_key h) (u32 id) (recv_record_id_set_ h) (max_record_id_ h)
    (cur_max_record_id_ h) (enable_getrecord_ h) (plate_func_ h) (has_queue_layer h).
Definition SetStartMaxRecordID (h : ResumePushHandle) (max : Z) : ResumePushHandle :=
  set_received h (recv_record_id_set_ h) max.
Definition SetCurMaxRecordID (h : ResumePushHandle) (cur : Z) : ResumePushHandle :=
  mkResume (resume_key h) (resume_session_id h) (recv_record_id_set_ h) (max_record_id_ h)
    cur (enable_getrecord_ h) (plate_func_ h) (has_queue_layer h).
Definition Resume_SetCallBack (h : ResumePushHandle) (f : option Z) : ResumePushHandle :=
  mkResume (resume_key h) (resume_session_id h) (recv_record_id_set_ h) (max_record_id_ h)
    (cur_max_record_id_ h) (enable_getrecord_ h) f (has_queue_layer h).
Definition SetQueueLayer (h : ResumePushHandle) (b : bool) : ResumePushHandle :=
  mkResume (resume_key h) (resume_session_id h) (recv_record_id_set_ h) (max_record_id_ h)
    (cur_max_record_id_ h) (enable_getrecord_ h) (plate_func_ h) b.
Definition DisConnecting (h : ResumePushHandle) : ResumePushHandle := set_enable h false.
Definition SlotChangeConnStatus (h : ResumePushHandle) (status : Z) : ResumePushHandle :=
  if status =? VZ_LPRC_ONLINE then set_enable h true
  else if status =? VZ_LPRC_OFFLINE then set_enable h false
  else h.

Definition PostResumeReq (h : ResumePushHandle) : list effect :=
  if has_queue_layer h then [PostResume 10000 (resume_session_id h)] else [].

(** [++] of an int. *)
Definition int_incr (id : Z) : outcome Z := if id <? maxInt then Done (id + 1) else Undefined.

(** The loop over the record ids.  A record that was not received is fetched
    through the pointer [recognition_], which neither the constructor nor anything
    else sets. *)
Fixpoint resume_loop (fuel : nat) (h : ResumePushHandle) (id : Z) : outcome ResumePushHandle :=
  match fuel with
  | O => Done h
  | S fuel =>
    if negb (id <=? cur_max_record_id_ h) then Done h
    else if existsb (Z.eqb id) (recv_record_id_set_ h) then
      let received := List.filter (fun x => negb (x =? id)) (recv_record_id_set_ h) in
      next ← int_incr id;
      resume_loop fuel (set_received h received id) next
    else Undefined
  end.

(** [slot] is what the slots of [SignalGetResumeInfo] do to the handle. *)
Definition Resume_HandleResponse (h : ResumePushHandle) (slot : ResumePushHandle -> ResumePushHandle)
    (s : Stanza Address) : outcome (bool * ResumePushHandle * list effect) :=
  if negb (RES_RESUME_TASK_EVENT =? stanza_type_ s) || negb (session_id_ s =? resume_session_id h)
  then Done (false, h, [])
  else
    let h := slot h in
    if bool_decide (plate_func_ h = None) || negb (enable_getrecord_ h)
    then Done (true, h, GetResumeInfo :: PostResumeReq h)
    else
      h ← (if 0 <? cur_max_record_id_ h
           then id ← int_incr (max_record_id_ h);
                resume_loop (S (Z.to_nat (cur_max_record_id_ h - max_record_id_ h))) h id
           else Done h);
      Done (true, h, GetResumeInfo :: PostResumeReq h).
Definition Resume_HandleMessageData (h : ResumePushHandle) (slot : ResumePushHandle -> ResumePushHandle)
    (s : Stanza Address) : outcome (bool * ResumePushHandle * list effect) :=
  let h := if (stanza_type_ s =? RES_DISCONNECTED_EVENT_SUCCEED)
              || (stanza_type_ s =? RES_DISCONNECTED_EVENT_FAILURE) then set_enable h false else h in
  if (session_id_ s =? resume_session_id h) && (stanza_type_ s =? RES_RESUME_TASK_EVENT)
  then Resume_HandleResponse h slot s
  else Done (false, h, []).
End handles.

(** ** What the handles promise *)
Section promises.
Context {Address : Type} {JT : DoubleText}.

(** The bytes an image passed to a callback refers to; [None] when they are not
    all inside the data. *)
Definition image_bytes (data : list Z) (i : image) : option (list Z) :=
  match i with
  | (None, _) => Some []
  | (Some p, size) =>
    if (0 <=? p) && (0 <=? size) && (p + size <=? Z.of_nat (length data))
    then Some (slice (Z.to_nat p) (Z.to_nat size) data) else None
  end.

(** The handle's own plate, computed. *)
Lemma Ivs_plate (h : IvsPushHandle) plate0 sid j data full clip f plate :
  recongnition_ h = false -> result_callback_ h = Some f -> sid = u32 (ivs_session_id h) ->
  index_const j "cmd" = Some (stringValue (ivs_key h)) -> isObject j = true -> no_nul (ivs_key h) ->
  ParsePlateResultResponse j plate0 0 0 = Done (plate, full, clip) ->
  Ivs_HandleMessageData (Address := Address) h plate0 (ResponseData sid j data) =
    Done (true, [PlateCallback f (ivs_session_id h) plate
      (GetResultTypeFromTrigBits (uBitsTrigType plate))
      (ivs_images data full clip).1 (ivs_images data full clip).2]).
Proof.
  intros Hrec Hcb Hsid Hcmd Hobj Hkey Hplate. destruct j as [| | | | | | |ms]; try discriminate.
  unfold Ivs_HandleMessageData, response_object, ResponseData. cbn [response body_]. run.
  cbn [res_obj_json isObject isNull negb orb]. rewrite Hcmd. run. cbn [isNull asString].
  run. rewrite (c_str_id (ivs_key h)) by done. run. cbn [session_id_ stanza_type_].
  rewrite Hsid. unfold u32 at 1. rewrite wrap_idem. fold (u32 (ivs_session_id h)).
  rewrite Z.eqb_refl, (bool_decide_eq_true_2 _ eq_refl).
  change (RES_STANZA_EVENT =? RES_STANZA_EVENT) with true. cbn [andb negb].
  rewrite res_json_id, Hplate. run. unfold ivs_images. by rewrite Hrec, Hcb.
Qed.

(** A pushed plate whose packet is laid out as the protocol says, the JSON text,
    a NUL and the images one after the other, is handed to the client with
    exactly those images. *)
Theorem plate_push_images (h : IvsPushHandle) plate0 sid j json full clip f plate :
  recongnition_ h = false -> result_callback_ h = Some f -> sid = u32 (ivs_session_id h) ->
  index_const j "cmd" = Some (stringValue (ivs_key h)) -> isObject j = true -> no_nul (ivs_key h) ->
  no_nul json ->
  ParsePlateResultResponse j plate0 0 0 =
    Done (plate, Z.of_nat (length full), Z.of_nat (length clip)) ->
  let data := json ++ [0] ++ full ++ clip in
  exists pf pc, Ivs_HandleMessageData (Address := Address) h plate0 (ResponseData sid j data) =
    Done (true, [PlateCallback f (ivs_session_id h) plate
      (GetResultTypeFromTrigBits (uBitsTrigType plate)) pf pc]) /\
    image_bytes data pf = Some full /\ image_bytes data pc = Some clip /\
    pf.2 = Z.of_nat (length full) /\ pc.2 = Z.of_nat (length clip).
Proof.
  intros Hrec Hcb Hsid Hcmd Hobj Hkey Hjson Hplate data.
  do 2 eexists. split; [by apply Ivs_plate|].
  assert (Hlen : length (c_str data) = length json).
    { unfold data. rewrite c_str_app by done. cbn. by rewrite app_nil_r. }
    unfold ivs_images. rewrite Hlen. cbn [fst snd].
    assert (Hd : Z.of_nat (length data) = Z.of_nat (length json) + 1 + Z.of_nat (length full)
      + Z.of_nat (length clip)).
    { unfold data. rewrite !length_app. cbn [length]. lia. }
    assert (Hslice : forall pre xs post, data = pre ++ xs ++ post ->
      slice (length pre) (length xs) data = xs).
    { intros pre xs post ->. unfold slice. rewrite drop_app_length. by rewrite take_app_length. }
    split_and!; try done.
    + destruct (Z.ltb_spec 0 (Z.of_nat (length full))); [|destruct full; [done|cbn in *; lia]].
      cbn [image_bytes]. rewrite Hd. case_if; [|propify; lia]. f_equal.
      replace (Z.to_nat (Z.of_nat (length json) + 1)) with (length (json ++ [0]))
        by (rewrite length_app; cbn; lia).
      rewrite Nat2Z.id. apply (Hslice _ _ clip). unfold data. by rewrite <- app_assoc.
    + destruct (Z.ltb_spec 0 (Z.of_nat (length clip))); [|destruct clip; [done|cbn in *; lia]].
      cbn [image_bytes]. rewrite Hd. case_if; [|propify; lia]. f_equal.
      replace (Z.to_nat (Z.of_nat (length json) + Z.of_nat (length full) + 1))
        with (length (json ++ [0] ++ full)) by (rewrite !length_app; cbn; lia).
      rewrite Nat2Z.id. apply (Hslice _ _ []). unfold data. rewrite app_nil_r, <- !app_assoc. done.
Qed.

(** The image sizes come from the device and are not checked: when the JSON
    claims more than the packet holds, the client is handed a pointer to memory
    past the end of the data. *)
Theorem image_size_unchecked (h : IvsPushHandle) plate0 sid j data full clip f plate :
  recongnition_ h = false -> result_callback_ h = Some f -> sid = u32 (ivs_session_id h) ->
  index_const j "cmd" = Some (stringValue (ivs_key h)) -> isObject j = true -> no_nul (ivs_key h) ->
  ParsePlateResultResponse j plate0 0 0 = Done (plate, full, clip) ->
  0 < full -> Z.of_nat (length data) < full ->
  exists pf pc, Ivs_HandleMessageData (Address := Address) h plate0 (ResponseData sid j data) =
    Done (true, [PlateCallback f (ivs_session_id h) plate
      (GetResultTypeFromTrigBits (uBitsTrigType plate)) pf pc]) /\ image_bytes data pf = None.
Proof.
  intros Hrec Hcb Hsid Hcmd Hobj Hkey Hplate Hpos Hbig.
  do 2 eexists. split; [by apply Ivs_plate|].
  unfold ivs_images. cbn [fst]. destruct (Z.ltb_spec 0 full); [|lia]. cbn [image_bytes].
  case_if; [propify; lia|done].
Qed.

Lemma unless_null_member {A} v key m (conv : Value -> option A) x :
  index_const v key = Some m -> unless_null v key conv x =
  if negb (isNull m) then lift (conv m) else Done x.
Proof. intros H. unfold unless_null. by rewrite (index_path_cons _ _ _ _ H). Qed.

(** Serial data the device sends as [GeneratSerialSendCmd] would, Base64 text
    under ["data"], is handed to the client byte for byte. *)
Theorem serial_roundtrip (h : SerialPushHandle) f port d ms cmd sid data :
  func_ h = Some f -> no_nul (serial_key h) -> is_bytes d -> Z.of_nat (length d) < 2 ^ 31 ->
  0 <= port < 2 ^ 31 ->
  GeneratSerialSendCmd 0 d nullValue = Some (true, cmd) ->
  index_const cmd "data" = index_const (objectValue ms) "data" ->
  index_const cmd "datalen" = index_const (objectValue ms) "datalen" ->
  index_const (objectValue ms) "cmd" = Some (stringValue (serial_key h)) ->
  index_const (objectValue ms) "subcmd" = Some (str "send") ->
  index_const (objectValue ms) "response" = Some nullValue ->
  index_const (objectValue ms) "comm" = Some (intValue port) ->
  Serial_HandleMessageData (Address := Address) h (ResponseData sid (objectValue ms) data) =
    Done (true, [SerialCallback f port d]).
Proof.
  intros Hf Hkey Hd Hlen Hport Hgen Hdata Hdl Hcmd Hsub Hresp Hcomm.
  unfold GeneratSerialSendCmd in Hgen. change ((0 =? 0) || (0 =? 1)) with true in Hgen. cbv iota zeta in Hgen.
  match type of Hgen with context [set_members nullValue ?l] =>
    destruct (set_members_container nullValue l) as (v & Ev & _ & Hm); [by left|] end.
  rewrite Ev in Hgen. injection Hgen as <-. rewrite Hm in Hdata, Hdl. symmetry in Hdata, Hdl.
  change (index_const (objectValue ms) "data" = Some (stringValue (EncodeFromArray d))) in Hdata.
  change (index_const (objectValue ms) "datalen" = Some (intValue (Z.of_nat (length d)))) in Hdl.
  unfold Serial_HandleMessageData, response_object, ResponseData. cbn [response body_]. run.
  cbn [res_obj_json isObject isNull negb orb]. rewrite Hcmd. run. cbn [isNull asString].
  run. rewrite (c_str_id (serial_key h)) by done. run. cbn [stanza_type_].
  change (RES_STANZA_EVENT =? RES_STANZA_EVENT) with true.
  rewrite (bool_decide_eq_true_2 _ eq_refl). cbn [andb negb]. rewrite res_json_id.
  unfold ParseTTransmissionResponse.
  rewrite (unless_null_member _ _ _ _ _ Hsub). cbn [isNull negb asCString]. run.
  rewrite (unless_null_member _ _ _ _ _ Hresp). cbn [isNull negb]. run.
  rewrite (unless_null_member _ _ _ _ _ Hdl). cbn [isNull negb asUInt isUInt].
  assert ((0 <=? Z.of_nat (length d)) && (Z.of_nat (length d) <=? maxUInt) = true) as ->
    by (unfold maxUInt; lia). run.
  rewrite (unless_null_member _ _ _ _ _ Hcomm). cbn [isNull negb asUInt isUInt].
  assert ((0 <=? port) && (port <=? maxUInt) = true) as -> by (unfold maxUInt; lia). run.
  rewrite (unless_null_member _ _ _ _ _ Hdata). cbn [isNull negb asCString]. run.
  rewrite (c_str_id (EncodeFromArray d)) by by apply Encode_no_nul. cbn [fmap option_fmap option_map]. run.
  cbn [tt_subcmd tt_data tt_comm]. run.
  rewrite bool_decide_eq_true_2 by done.
  rewrite decode_encode by done. run. by rewrite Hf, i32_id by lia.
Qed.

Definition received (h : ResumePushHandle) (id : Z) : bool := existsb (Z.eqb id) (recv_record_id_set_ h).
(** The records behind the mark up to the device's last, those of them that were
    not received, and the handle that has forgotten them. *)
Definition between (h : ResumePushHandle) : list Z :=
  seqZ (max_record_id_ h + 1) (cur_max_record_id_ h - max_record_id_ h).
Definition missing (h : ResumePushHandle) : list Z := List.filter (fun id => negb (received h id)) (between h).
Definition caught_up (h : ResumePushHandle) : ResumePushHandle :=
  set_received h
    (List.filter (fun x => negb ((max_record_id_ h <? x) && (x <=? cur_max_record_id_ h))) (recv_record_id_set_ h))
    (Z.max (max_record_id_ h) (cur_max_record_id_ h)).

Lemma received_other i id l : id <> i ->
  existsb (Z.eqb id) (List.filter (fun x => negb (x =? i)) l) = existsb (Z.eqb id) l.
Proof.
  intros Hne. induction l as [|x l IH]; [done|]. cbn.
  destruct (Z.eqb_spec x i) as [->|]; cbn; rewrite IH; [|done].
  by destruct (Z.eqb_spec id i).
Qed.
Lemma filter_everything (f : Z -> bool) l : (forall x, In x l -> f x = true) -> List.filter f l = l.
Proof.
  induction l as [|x l IH]; intros H; [done|]. cbn. rewrite H by by left.
  f_equal. apply IH. intros y Hy. apply H. by right.
Qed.
Lemma filter_conjunction (f g h : Z -> bool) l : (forall x, h x = g x && f x) ->
  List.filter f (List.filter g l) = List.filter h l.
Proof.
  intros H. induction l as [|x l IH]; [done|]. cbn [List.filter]. rewrite H.
  destruct (g x); cbn [andb List.filter]; [|done]. destruct (f x); by rewrite IH.
Qed.

(** The handle after the first of the records, which was received. *)
Definition pass (h : ResumePushHandle) : ResumePushHandle :=
  set_received h (List.filter (fun x => negb (x =? max_record_id_ h + 1)) (recv_record_id_set_ h))
    (max_record_id_ h + 1).
Lemma pass_missing h : max_record_id_ h < cur_max_record_id_ h -> received h (max_record_id_ h + 1) = true ->
  missing (pass h) = missing h.
Proof.
  intros Hlt Hr. unfold missing, between. rewrite (seqZ_cons (max_record_id_ h + 1)) by lia.
  cbn [List.filter]. rewrite Hr. cbn [negb pass set_received max_record_id_ cur_max_record_id_].
  replace (Z.pred (cur_max_record_id_ h - max_record_id_ h))
    with (cur_max_record_id_ h - (max_record_id_ h + 1)) by lia.
  apply List.filter_ext_in. intros id Hid%list_elem_of_In%elem_of_seqZ. f_equal.
  apply received_other. lia.
Qed.
Lemma pass_caught_up h : max_record_id_ h < cur_max_record_id_ h -> caught_up (pass h) = caught_up h.
Proof.
  intros Hlt. unfold caught_up, pass, set_received. cbn [resume_key resume_session_id recv_record_id_set_
    max_record_id_ cur_max_record_id_ enable_getrecord_ plate_func_ has_queue_layer].
  f_equal; [|lia]. apply filter_conjunction. intros x.
  destruct (Z.eqb_spec x (max_record_id_ h + 1)), (Z.ltb_spec (max_record_id_ h) x),
    (Z.leb_spec x (cur_max_record_id_ h)), (Z.ltb_spec (max_record_id_ h + 1) x); try done; lia.
Qed.

Lemma resume_loop_spec fuel : forall h,
  cur_max_record_id_ h < maxInt ->
  (Z.to_nat (cur_max_record_id_ h - max_record_id_ h) < fuel)%nat ->
  resume_loop fuel h (max_record_id_ h + 1) =
    match missing h with [] => Done (caught_up h) | _ => Undefined end.
Proof.
  induction fuel as [|fuel IH]; intros h Hcur Hfuel; [lia|]. cbn [resume_loop].
  destruct (Z.leb_spec (max_record_id_ h + 1) (cur_max_record_id_ h)) as [Hlt|Hge]; cbn [negb].
  2: { unfold missing, between. rewrite seqZ_nil by lia. cbn [List.filter]. unfold caught_up.
       rewrite filter_everything, Z.max_l by (lia || intros x _;
         destruct (Z.ltb_spec (max_record_id_ h) x), (Z.leb_spec x (cur_max_record_id_ h)); done || lia).
       by destruct h. }
  change (existsb (Z.eqb (max_record_id_ h + 1)) (recv_record_id_set_ h)) with (received h (max_record_id_ h + 1)).
  destruct (received h (max_record_id_ h + 1)) eqn:E.
  - unfold int_incr. destruct (Z.ltb_spec (max_record_id_ h + 1) maxInt); [run|lia].
    rewrite <- (pass_missing h), <- (pass_caught_up h) by (done || lia).
    rewrite <- (IH (pass h)) by (cbn; lia). reflexivity.
  - unfold missing, between. rewrite seqZ_cons by lia. cbn [List.filter]. by rewrite E.
Qed.

(** C29. A resume tick asks for the missing records through a pointer that nothing
    sets: with a callback and fetching enabled it is undefined as soon as one of the
    records behind the mark was not received.  When all were received it forgets
    them and moves the mark to the last, and in this and all other cases it asks for
    the device's last record before and posts the next tick after. *)
Theorem resume_tick_defined (h : ResumePushHandle) slot (s : Stanza Address) :
  stanza_type_ s = RES_RESUME_TASK_EVENT -> session_id_ s = resume_session_id h ->
  let h0 := slot h in
  max_record_id_ h0 < maxInt -> cur_max_record_id_ h0 < maxInt ->
  Resume_HandleMessageData h slot s =
    if bool_decide (plate_func_ h0 = None) || negb (enable_getrecord_ h0) || (cur_max_record_id_ h0 <=? 0)
    then Done (true, h0, GetResumeInfo :: PostResumeReq h0)
    else match missing h0 with
      | [] => Done (true, caught_up h0, GetResumeInfo :: PostResumeReq h0)
      | _ => Undefined
      end.
Proof.
  intros Ht Hid h0 Hmax Hcur. unfold Resume_HandleMessageData.
  rewrite Ht. change ((RES_RESUME_TASK_EVENT =? RES_DISCONNECTED_EVENT_SUCCEED)
    || (RES_RESUME_TASK_EVENT =? RES_DISCONNECTED_EVENT_FAILURE)) with false. cbv iota zeta.
  rewrite Hid, !Z.eqb_refl. cbn [andb]. unfold Resume_HandleResponse.
  rewrite Ht, Hid, !Z.eqb_refl. cbn [negb orb]. fold h0.
  destruct (bool_decide _ || negb (enable_getrecord_ h0)); [done|]. cbn [orb].
  destruct (Z.ltb_spec 0 (cur_max_record_id_ h0)), (Z.leb_spec (cur_max_record_id_ h0) 0); try lia; [|done].
  unfold int_incr. destruct (Z.ltb_spec (max_record_id_ h0) maxInt); [run|lia].
  rewrite resume_loop_spec by lia. by destruct (missing h0).
Qed.
End promises.

(** ** Concrete runs: addresses are numbers *)
Section demo.
Local Existing Instance demo_double.

Definition demo_ivs : IvsPushHandle := mkIvs (bytes "ivs_result") (Some 1) false 2.
(** The plate [demo_root] describes, with its three and two bytes of images. *)
Definition parsed_plate : TH_PlateResult :=
  match ParsePlateResultResponse demo_root empty_plate 0 0 with Done (p, _, _) => p | _ => empty_plate end.
Lemma plate_push_images_witness :
  let data := bytes "{json}" ++ [0] ++ [11; 0; 13] ++ [21; 22] in
  exists pf pc, Ivs_HandleMessageData (Address := Z) demo_ivs empty_plate (ResponseData 2 demo_root data) =
    Done (true, [PlateCallback 1 2 parsed_plate (GetResultTypeFromTrigBits (uBitsTrigType parsed_plate)) pf pc]) /\
    image_bytes data pf = Some [11; 0; 13] /\ image_bytes data pc = Some [21; 22] /\
    pf.2 = Z.of_nat (length [11; 0; 13]) /\ pc.2 = Z.of_nat (length [21; 22]).
Proof.
  apply (plate_push_images demo_ivs empty_plate 2 demo_root (bytes "{json}") [11; 0; 13] [21; 22] 1 parsed_plate);
    try reflexivity.
  - repeat constructor; discriminate.
  - repeat constructor; discriminate.
Defined.

Lemma image_size_unchecked_witness :
  let data := bytes "{}" in
  exists pf pc, Ivs_HandleMessageData (Address := Z) demo_ivs empty_plate (ResponseData 2 demo_root data) =
    Done (true, [PlateCallback 1 2 parsed_plate (GetResultTypeFromTrigBits (uBitsTrigType parsed_plate)) pf pc]) /\
    image_bytes data pf = None.
Proof.
  apply (image_size_unchecked demo_ivs empty_plate 2 demo_root (bytes "{}") 3 2 1 parsed_plate);
    try reflexivity.
  repeat constructor; discriminate.
Defined.

(** What [GeneratSerialSendCmd] makes of three bytes, under the push's command. *)
Definition demo_serial : SerialPushHandle := mkSerial (bytes "ttransmission") (Some 4).
Definition serial_members : list (string * Value) :=
  [("cmd", stringValue (bytes "ttransmission")); ("comm", intValue 1);
   ("data", stringValue (Base64.EncodeFromArray [0; 255; 7])); ("datalen", intValue 3);
   ("response", nullValue); ("subcmd", stringValue (bytes "send"))]%string.
Lemma serial_roundtrip_witness :
  Serial_HandleMessageData (Address := Z) demo_serial (ResponseData 2 (objectValue serial_members) []) =
    Done (true, [SerialCallback 4 1 [0; 255; 7]]).
Proof.
  eapply (serial_roundtrip demo_serial 4 1 [0; 255; 7]); try reflexivity.
  - repeat constructor; discriminate.
  - apply (bool_decide_unpack _). vm_compute. exact I.
  - lia.
Defined.

(** Records 11 to 14 are new and were received, and record 13 was not. *)
Definition demo_resume (received : list Z) : ResumePushHandle :=
  mkResume (bytes "resume") 2 received 10 14 true (Some 6) true.
Definition resume_tick : Stanza Z := mkStanza RES_RESUME_TASK_EVENT 2 NoBody.
Lemma resume_tick_defined_witness :
  Resume_HandleMessageData (demo_resume [14; 12; 3; 11; 13]) id resume_tick =
    Done (true, mkResume (bytes "resume") 2 [3] 14 14 true (Some 6) true, [GetResumeInfo; PostResume 10000 2]) /\
  Resume_HandleMessageData (demo_resume [14; 12; 3; 11]) id resume_tick = Undefined.
Proof.
  split; by rewrite (resume_tick_defined _ id resume_tick).
Defined.
End demo.
