(* ===== verification/PushManager.v ===== *)
(** * vzsdk/vzsdkpushmanager.{h,cpp}: pushed messages and who wants them

    [PushManagerTask] is the push task of the queue layer: on the queue thread it
    filters what no task took and posts it to its own thread, and there offers it
    to its handles in the order they were added.  Handles are shared pointers: a
    handle here is a number and its state, and the number is its identity.  It
    implements the interface [PushTask] of QueueLayer.v. *)
From Stdlib Require Import String.
From S2P Require Import Prelude Text Json JsonText CommandAnalysis InternalMessage Task QueueLayer PushHandle.

Section manager.
Context {Address : Type} {JT : DoubleText}.

Inductive Handle :=
  | Ivs (h : IvsPushHandle)
  | Serial (h : SerialPushHandle)
  | ChangeConn (h : ChangeConnPushHandle)
  | Resume (h : ResumePushHandle).
Definition cmd_key (h : Handle) : list Z :=
  match h with
  | Ivs h => ivs_key h | Serial h => serial_key h
  | ChangeConn h => change_key h | Resume h => resume_key h
  end.

Record PushManagerTask := mkPush {
  push_thread : option Z;
  push_task_id : Z;
  is_register_ : bool;
  push_handle_keys_ : list (list Z);
  push_handles_ : list (Z * Handle) }.
Definition set_handles (p : PushManagerTask) (keys : list (list Z)) (hs : list (Z * Handle))
    : PushManagerTask :=
  mkPush (push_thread p) (push_task_id p) (is_register_ p) keys hs.

(** Whether a key is in the set. *)
Definition has_key (p : PushManagerTask) (key : list Z) : bool :=
  existsb (fun k => bool_decide (k = key)) (push_handle_keys_ p).

Definition AddPushHandle (p : PushManagerTask) (id : Z) (h : Handle) : PushManagerTask :=
  set_handles p
    (if has_key p (cmd_key h) then push_handle_keys_ p else cmd_key h :: push_handle_keys_ p)
    (push_handles_ p ++ [(id, h)]).

(** [erase] of the first handle that is the same pointer. *)
Fixpoint erase_handle (id : Z) (hs : list (Z * Handle)) : list (Z * Handle) :=
  match hs with
  | [] => []
  | (id', h) :: hs => if id' =? id then hs else (id', h) :: erase_handle id hs
  end.
Definition RemovePushHandle (p : PushManagerTask) (id : Z) (h : Handle) : PushManagerTask :=
  set_handles p
    (List.filter (fun k => negb (bool_decide (k = cmd_key h))) (push_handle_keys_ p))
    (erase_handle id (push_handles_ p)).

(** ** On the queue thread *)
Definition HandleResponse (p : PushManagerTask) (s : Stanza Address)
    : outcome (bool * list (thread_post Address)) :=
  match push_thread p with
  | None => Done (false, [])
  | Some th =>
    '(j, _) ← response s;
    res_cmd ← response_cmd j;
    if has_key p res_cmd then Done (true, [(th, push_task_id p, s)]) else Done (false, [])
  end.
Definition HandleChangeConn (p : PushManagerTask) (s : Stanza Address)
    : bool * list (thread_post Address) :=
  match push_thread p with
  | None => (false, [])
  | Some th =>
    if has_key p (bytes "change_conn_status") then (true, [(th, push_task_id p, s)]) else (false, [])
  end.
Definition HandleMessage (p : PushManagerTask) (message_id : Z) (s : Stanza Address)
    : outcome (bool * list (thread_post Address)) :=
  let t := stanza_type_ s in
  if (message_id =? 0) && (t =? RES_STANZA_EVENT) then HandleResponse p s
  else if (t =? RES_DISCONNECTED_EVENT_FAILURE) || (t =? RES_CONNECTED_EVENT) then
    let '(_, posts) := HandleChangeConn p s in Done (false, posts)
  else if t =? RES_RESUME_TASK_EVENT then
    match push_thread p with
    | None => Done (false, [])
    | Some th => Done (true, [(th, push_task_id p, s)])
    end
  else Done (false, []).

#[global] Instance PushManager_PushTask : PushTask Address PushManagerTask := HandleMessage.

(** ** On the push thread *)

(** [plate0] and [slot] are as in PushHandle.v. *)
Variables (plate0 : TH_PlateResult) (slot : ResumePushHandle -> ResumePushHandle).

Definition HandleMessageData (h : Handle) (s : Stanza Address)
    : outcome (bool * Handle * list PushHandle.effect) :=
  match h with
  | Ivs h => '(b, evs) ← Ivs_HandleMessageData h plate0 s; Done (b, Ivs h, evs)
  | Serial h => '(b, evs) ← Serial_HandleMessageData h s; Done (b, Serial h, evs)
  | ChangeConn h => let '(b, evs) := Change_HandleMessageData h s in Done (b, ChangeConn h, evs)
  | Resume h => '(b, h, evs) ← Resume_HandleMessageData h slot s; Done (b, Resume h, evs)
  end.

Fixpoint ProcessPushEvent_loop (hs : list (Z * Handle)) (s : Stanza Address)
    : outcome (list (Z * Handle) * list PushHandle.effect) :=
  match hs with
  | [] => Done ([], [])
  | (id, h) :: hs =>
    '(b, h, evs) ← HandleMessageData h s;
    if (b : bool) then Done ((id, h) :: hs, evs)
    else '(hs, evs') ← ProcessPushEvent_loop hs s; Done ((id, h) :: hs, evs ++ evs')
  end.
Definition ProcessPushEvent (p : PushManagerTask) (pdata : option (Stanza Address))
    : outcome (PushManagerTask * list PushHandle.effect) :=
  match pdata with
  | None => Done (p, [])
  | Some s =>
    '(hs, evs) ← ProcessPushEvent_loop (push_handles_ p) s;
    Done (set_handles p (push_handle_keys_ p) hs, evs)
  end.

(** ** What the push task promises *)
Lemma has_key_spec p key : has_key p key = true <-> In key (push_handle_keys_ p).
Proof.
  unfold has_key. rewrite existsb_exists. split.
  - intros (k & Hk & E%bool_decide_eq_true). by subst.
  - intros Hk. exists key. split; [done|]. by apply bool_decide_eq_true.
Qed.

(** While handles are only added, a push whose command some handle has is passed
    to the push thread, and no other is. *)
Definition keys_cover (p : PushManagerTask) : Prop :=
  forall key, has_key p key = true <-> exists id h, In (id, h) (push_handles_ p) /\ cmd_key h = key.

Lemma AddPushHandle_covers p id h : keys_cover p -> keys_cover (AddPushHandle p id h).
Proof.
  intros Hc key. unfold AddPushHandle. rewrite has_key_spec. cbn [push_handle_keys_ push_handles_ set_handles].
  assert (Hin : In key (if has_key p (cmd_key h) then push_handle_keys_ p
    else cmd_key h :: push_handle_keys_ p) <-> cmd_key h = key \/ In key (push_handle_keys_ p)).
  { destruct (has_key p (cmd_key h)) eqn:E; [|done]. rewrite has_key_spec in E.
    split; [by right|]. by intros [<-|]. }
  rewrite Hin, <- has_key_spec, (Hc key). setoid_rewrite in_app_iff. cbn. split.
  - intros [<-|(i & g & ? & ?)]; [exists id, h; auto|exists i, g; auto].
  - intros (i & g & [Hi|[[= <- <-]|[]]] & <-); [right; eauto|by left].
Qed.

Definition add_all (p : PushManagerTask) (hs : list (Z * Handle)) : PushManagerTask :=
  foldl (fun p ih => AddPushHandle p ih.1 ih.2) p hs.

(** A push is passed to the push thread exactly when its command is the key of a
    handle that was added. *)
Theorem push_filter p hs th s j data cmd :
  push_handles_ p = [] -> push_handle_keys_ p = [] -> push_thread p = Some th ->
  stanza_type_ s = RES_STANZA_EVENT -> body_ s = ResponseBody j data -> response_cmd j = Done cmd ->
  let p' := add_all p hs in
  push_handles_ p' = hs /\
  push_HandleMessage p' 0 s =
    if existsb (fun ih => bool_decide (cmd_key ih.2 = cmd)) hs
    then Done (true, [(th, push_task_id p, s)]) else Done (false, []).
Proof.
  intros Hh Hk Hth Ht Hb Hcmd p'.
  assert (Hall : forall hs p, keys_cover p -> push_handles_ (add_all p hs) = push_handles_ p ++ hs /\
    keys_cover (add_all p hs) /\ push_thread (add_all p hs) = push_thread p /\
    push_task_id (add_all p hs) = push_task_id p).
  { clear. intros hs. induction hs as [|[i h] hs IH]; intros p Hc.
    { cbn. by rewrite app_nil_r. }
    change (add_all p ((i, h) :: hs)) with (add_all (AddPushHandle p i h) hs).
    destruct (IH (AddPushHandle p i h) (AddPushHandle_covers p i h Hc)) as (-> & ? & ? & ?).
    split_and!; [|done..]. cbn. by rewrite <- app_assoc. }
  destruct (Hall hs p) as (H1 & H2 & H3 & H4).
  { intros key. rewrite has_key_spec, Hk, Hh. cbn. split; [done|]. by intros (? & ? & [] & _). }
  fold p' in H1, H2, H3, H4. rewrite Hh in H1. split; [done|].
  unfold push_HandleMessage, PushManager_PushTask, HandleMessage. rewrite Ht.
  change ((0 =? 0) && (RES_STANZA_EVENT =? RES_STANZA_EVENT)) with true. cbv iota.
  unfold HandleResponse. rewrite H3, Hth. unfold response. rewrite Hb. run. rewrite Hcmd. run.
  rewrite H4. destruct (has_key p' cmd) eqn:E1, (existsb _ hs) eqn:E2; try done.
  - apply H2 in E1 as (i & h & Hin & Hkey). rewrite H1 in Hin.
    assert (existsb (fun ih => bool_decide (cmd_key ih.2 = cmd)) hs = true); [|congruence].
    apply existsb_exists. exists (i, h). split; [done|]. by apply bool_decide_eq_true.
  - apply existsb_exists in E2 as ([i h] & Hin & Hkey%bool_decide_eq_true).
    assert (has_key p' cmd = true); [|congruence]. apply H2. exists i, h. by rewrite H1.
Qed.

(** A pushed message runs the handles in order up to the first that takes it;
    the handles after it do not see it. *)
Theorem push_stops_at_taker p s before id h h' evs hs bs bevs :
  push_handles_ p = before ++ (id, h) :: hs ->
  Forall2 (fun ih r => HandleMessageData ih.2 s = Done (false, r.1, r.2)) before (zip bs bevs) ->
  length bs = length before -> length bevs = length before ->
  HandleMessageData h s = Done (true, h', evs) ->
  ProcessPushEvent p (Some s) =
    Done (set_handles p (push_handle_keys_ p) (zip (map fst before) bs ++ (id, h') :: hs),
      concat bevs ++ evs).
Proof.
  intros Hp Hb Hl1 Hl2 Hh. unfold ProcessPushEvent. rewrite Hp.
  assert (E : ProcessPushEvent_loop (before ++ (id, h) :: hs) s =
    Done (zip (map fst before) bs ++ (id, h') :: hs, concat bevs ++ evs)); [|by rewrite E].
  clear Hp. revert bs bevs Hb Hl1 Hl2. induction before as [|[i g] before IH]; intros bs bevs Hb Hl1 Hl2.
  - destruct bs, bevs; try done. cbn [app ProcessPushEvent_loop]. by rewrite Hh.
  - destruct bs as [|b bs], bevs as [|e bevs]; try done. cbn [zip zip_with] in Hb.
    apply Forall2_cons_1 in Hb as [H1 Hb]. cbn [fst snd] in H1.
    cbn [app ProcessPushEvent_loop]. rewrite H1. run.
    rewrite (IH bs bevs) by (done || (cbn in Hl1, Hl2; lia)). run. cbn. by rewrite <- app_assoc.
Qed.

(** Connection changes and resume ticks are posted to the push thread as plain
    [Stanza]s, and every handle is asked, as if they were [ResponseData].  With a
    plate handle among the first, which reads the response before it looks at
    its type, every connection change is undefined behaviour. *)
Theorem connection_change_is_undefined p th s id h hs :
  push_thread p = Some th -> has_key p (bytes "change_conn_status") = true ->
  stanza_type_ s = RES_CONNECTED_EVENT -> body_ s = NoBody ->
  push_handles_ p = (id, Ivs h) :: hs ->
  exists posts, push_HandleMessage p 0 s = Done (false, posts) /\
    posts = [(th, push_task_id p, s)] /\ ProcessPushEvent p (Some s) = Undefined.
Proof.
  intros Hth Hk Ht Hb Hh. unfold push_HandleMessage, PushManager_PushTask, HandleMessage. rewrite Ht.
  cbn. unfold HandleChangeConn. rewrite Hth, Hk. eexists. split; [done|]. split; [done|].
  unfold ProcessPushEvent. rewrite Hh. cbn [ProcessPushEvent_loop HandleMessageData].
  unfold Ivs_HandleMessageData, response_object, response. by rewrite Hb.
Qed.

(** A device that pushes a JSON text that is not an object makes the queue thread
    throw: [operator[]] is called on it before its type is known. *)
Theorem non_object_push_throws p th s j data :
  push_thread p = Some th -> stanza_type_ s = RES_STANZA_EVENT -> body_ s = ResponseBody j data ->
  isObject j = false -> isNull j = false -> push_HandleMessage p 0 s = Threw.
Proof.
  intros Hth Ht Hb Ho Hn. unfold push_HandleMessage, PushManager_PushTask, HandleMessage. rewrite Ht.
  cbn. unfold HandleResponse. rewrite Hth. unfold response. rewrite Hb. run.
  unfold response_cmd. rewrite res_json_id. by destruct j.
Qed.

(** Handles that share a key: removing one stops the pushes of the other. *)
Theorem remove_silences_twin p th id1 id2 h1 h2 s j data :
  push_thread p = Some th -> cmd_key h1 = cmd_key h2 ->
  stanza_type_ s = RES_STANZA_EVENT -> body_ s = ResponseBody j data ->
  response_cmd j = Done (cmd_key h2) -> id1 <> id2 ->
  let p' := RemovePushHandle (AddPushHandle (AddPushHandle p id1 h1) id2 h2) id1 h1 in
  (forall h, ~ In (id1, h) (push_handles_ p)) ->
  In (id2, h2) (push_handles_ p') /\ push_HandleMessage p' 0 s = Done (false, []).
Proof.
  intros Hth Hkey Ht Hb Hcmd Hne p' Hfresh. split.
  - subst p'. cbn. rewrite <- app_assoc. cbn.
    assert (forall hs, (forall h, ~ In (id1, h) hs) ->
      erase_handle id1 (hs ++ [(id1, h1); (id2, h2)]) = hs ++ [(id2, h2)]) as ->; [| |done].
    + clear. induction hs as [|[i g] hs IH]; intros Hf; cbn; [by rewrite Z.eqb_refl|].
      destruct (Z.eqb_spec i id1) as [->|]; [destruct (Hf g); by left|].
      rewrite IH; [done|]. intros h Hin. apply (Hf h). by right.
    + apply in_app_iff. right. by left.
  - unfold push_HandleMessage, PushManager_PushTask, HandleMessage. rewrite Ht. cbn.
    unfold HandleResponse. cbn [push_thread p' RemovePushHandle AddPushHandle set_handles].
    rewrite Hth. unfold response. rewrite Hb. run. rewrite Hcmd. run.
    assert (has_key p' (cmd_key h2) = false) as ->; [|done].
    apply not_true_is_false. rewrite has_key_spec. subst p'. cbn. intros Hin%List.filter_In.
    destruct Hin as [_ Hf]. rewrite Hkey in Hf. by rewrite bool_decide_eq_true_2 in Hf.
Qed.
End manager.

(** ** Concrete runs: addresses are numbers *)
Section demo.
Local Existing Instance demo_double.

Definition demo_push : PushManagerTask := mkPush (Some 3) 20 true [] [].
Definition plate_handle : Handle := Ivs (mkIvs (bytes "ivs_result") (Some 1) false 2).
Definition serial_handle : Handle := Serial (mkSerial (bytes "ttransmission") None).
Definition conn_handle : Handle := ChangeConn (mkChangeConn (bytes "change_conn_status") 2 (Some 5)).
Definition plate_push : Stanza Z := ResponseData 2 demo_root [].

Lemma push_filter_witness :
  let p' := add_all demo_push [(1, plate_handle); (2, serial_handle)] in
  push_handles_ p' = [(1, plate_handle); (2, serial_handle)] /\
  push_HandleMessage p' 0 plate_push = Done (true, [(3, 20, plate_push)]).
Proof.
  apply (push_filter demo_push [(1, plate_handle); (2, serial_handle)] 3 plate_push demo_root []
    (bytes "ivs_result")); reflexivity.
Defined.

Definition with_handles (hs : list (Z * Handle)) : PushManagerTask := add_all demo_push hs.
Lemma push_stops_at_taker_witness :
  exists evs, HandleMessageData (Address := Z) empty_plate id plate_handle plate_push
      = Done (true, plate_handle, evs) /\
    ProcessPushEvent empty_plate id
      (with_handles [(1, serial_handle); (2, plate_handle); (3, plate_handle)]) (Some plate_push) =
    Done (set_handles (with_handles [(1, serial_handle); (2, plate_handle); (3, plate_handle)])
      (push_handle_keys_ (with_handles [(1, serial_handle); (2, plate_handle); (3, plate_handle)]))
      (zip (map fst [(1, serial_handle)]) [serial_handle] ++ (2, plate_handle) :: [(3, plate_handle)]),
      concat [[]] ++ evs).
Proof.
  eexists. split; [reflexivity|].
  apply (push_stops_at_taker empty_plate id _ plate_push [(1, serial_handle)] 2 plate_handle
    plate_handle _ [(3, plate_handle)] [serial_handle] [[]]); try reflexivity.
  repeat constructor.
Defined.

Definition connected : Stanza Z := mkStanza RES_CONNECTED_EVENT 2 NoBody.
Lemma connection_change_is_undefined_witness :
  let p := with_handles [(1, plate_handle); (2, conn_handle)] in
  exists posts, push_HandleMessage p 0 connected = Done (false, posts) /\
    posts = [(3, 20, connected)] /\
    ProcessPushEvent empty_plate id p (Some connected) = Undefined.
Proof.
  intros p. eapply (connection_change_is_undefined empty_plate id p 3 connected 1 _
    [(2, conn_handle)]); reflexivity.
Defined.

Lemma non_object_push_throws_witness :
  push_HandleMessage (with_handles [(1, plate_handle)]) 0
    (ResponseData (Address := Z) 2 (arrayValue []) []) = Threw.
Proof. eapply non_object_push_throws; reflexivity. Defined.

Lemma remove_silences_twin_witness :
  let p' := RemovePushHandle (AddPushHandle (AddPushHandle demo_push 1 plate_handle) 2 plate_handle)
    1 plate_handle in
  In (2, plate_handle) (push_handles_ p') /\ push_HandleMessage p' 0 plate_push = Done (false, []).
Proof.
  eapply (remove_silences_twin demo_push 3 1 2 plate_handle plate_handle plate_push); try reflexivity.
  - discriminate.
  - intros h [].
Defined.
End demo.
