(* ===== verification/Client.v ===== *)
(** * The state of the client process, and its calls

    What the threads of a client program share: the static counter of [Task], the
    services and push handles (shared pointers: a pointer is a number, the object
    is in a map), the session manager that [GetConnState] asks, the device
    manager and the globals of vzsdk/vzlprtcpsdk.cpp.  A call is a state-passing
    function with an outcome; what it hands to other threads is logged in order.
    [Waiting] is what a thread that waits for a task finds: the message that
    [Task::WaitTaskDone] of Task.v returns, and the state the other threads leave. *)
From Stdlib Require Import String.
From S2P Require Import Prelude Text StdMap Json Session InternalMessage Task CommandAnalysis PushHandle PushManager SessionManager.

(** ** Constants of vzsdk/vzsdkdefines.h *)
Definition DEFAULT_RESULT_TIMEOUT : Z := 0.
Definition DEFAULT_TIMEOUT : Z := 5000.
Definition REQ_SUCCEED : Z := 0.
Definition SESSION_ID_INVALUE : Z := -1.
Definition SESSION_NOT_FOUND : Z := -2.
Definition UNKOWN_ERROR : Z := -3.
Definition REQ_FAILED : Z := -4.
Definition FORMAT_JSON : Z := 1.
Definition FULL_AND_SMALL_IMG : Z := 2.

(** A message of a waiting thread. *)
Abbreviation Message Address := (@MessageQueue.Message Z (Stanza Address)).

Section client.
Context {Address : Type}.

(** ** Services

    The members of [VzsdkService] and of the devices it owns.  A callback is a
    number, which stands for the function and the user data given with it. *)
Record Service := mkService {
  req_connect_data_ptr_ : option (Stanza Address);
  change_conn_pushhandle : option Z;
  ivs_handle_ : Z;
  enable_image_ : bool;
  resume_handle_ : Z;
  resume_enable_image_ : bool;
  resume_plate_func : option Z;
  wlist_func_ : option Z;
  service_conn_callback_ : option Z }.
Definition set_connect_data (s : Service) (d : option (Stanza Address)) : Service :=
  mkService d (change_conn_pushhandle s) (ivs_handle_ s) (enable_image_ s) (resume_handle_ s)
    (resume_enable_image_ s) (resume_plate_func s) (wlist_func_ s) (service_conn_callback_ s).
Definition set_change_conn (s : Service) (h : option Z) : Service :=
  mkService (req_connect_data_ptr_ s) h (ivs_handle_ s) (enable_image_ s) (resume_handle_ s)
    (resume_enable_image_ s) (resume_plate_func s) (wlist_func_ s) (service_conn_callback_ s).
Definition set_enable_image (s : Service) (b : bool) : Service :=
  mkService (req_connect_data_ptr_ s) (change_conn_pushhandle s) (ivs_handle_ s) b (resume_handle_ s)
    (resume_enable_image_ s) (resume_plate_func s) (wlist_func_ s) (service_conn_callback_ s).
Definition set_resume_info (s : Service) (f : option Z) (b : bool) : Service :=
  mkService (req_connect_data_ptr_ s) (change_conn_pushhandle s) (ivs_handle_ s) (enable_image_ s)
    (resume_handle_ s) b f (wlist_func_ s) (service_conn_callback_ s).
Definition set_wlist_func (s : Service) (f : option Z) : Service :=
  mkService (req_connect_data_ptr_ s) (change_conn_pushhandle s) (ivs_handle_ s) (enable_image_ s)
    (resume_handle_ s) (resume_enable_image_ s) (resume_plate_func s) f (service_conn_callback_ s).
Definition set_conn_callback (s : Service) (f : option Z) : Service :=
  mkService (req_connect_data_ptr_ s) (change_conn_pushhandle s) (ivs_handle_ s) (enable_image_ s)
    (resume_handle_ s) (resume_enable_image_ s) (resume_plate_func s) (wlist_func_ s) f.

(** [VzTcpDeviceManage]: the pointers of the services by session id. *)
Record VzTcpDeviceManage := mkManage {
  vzsdk_service_map_ : list (Z * Z);
  manage_conn_callback_ : option Z }.

(** What a call hands to the other threads and to the client. *)
Inductive action :=
  | PostedTask (t : Task Address)
  | RemovedTask (task_id : Z)
  | PostedStanza (message_id : Z) (s : Stanza Address)
  | PostedDelayed (cmsDelay message_id : Z) (s : Stanza Address)
  | AddedPushHandle (handle : Z)
  | RemovedPushHandle (handle : Z)
  | WlistCallback (callback session_id : Z) (wlist : VZ_LPR_WLIST_VEHICLE).

Record World := mkWorld {
  unequal_task_id_ : Z;
  next_ : Z;
  handles_ : list (Z * Handle);
  services_ : list (Z * Service);
  manager_ : @SessionManager.SessionManager;
  vztcp_device_manage : option VzTcpDeviceManage;
  g_LastError : Z;
  device_ip_ : option (list Z);
  log_ : list action }.

(** ** Calls *)
Definition sdk (A : Type) : Type := World -> outcome (A * World).
#[global] Instance sdk_bind : MBind sdk := fun A B f m w =>
  match m w with Done (a, w) => f a w | Threw => Threw | Undefined => Undefined end.
#[global] Instance sdk_ret : MRet sdk := fun A a w => Done (a, w).
Definition of_outcome {A} (m : outcome A) : sdk A := fun w => a ← m; Done (a, w).
Definition gets {A} (f : World -> A) : sdk A := fun w => Done (f w, w).
Definition modify (f : World -> World) : sdk unit := fun w => Done (tt, f w).

Definition set_unequal (u : Z) (w : World) : World :=
  mkWorld u (next_ w) (handles_ w) (services_ w) (manager_ w) (vztcp_device_manage w)
    (g_LastError w) (device_ip_ w) (log_ w).
Definition set_handles (n : Z) (l : list (Z * Handle)) (w : World) : World :=
  mkWorld (unequal_task_id_ w) n l (services_ w) (manager_ w) (vztcp_device_manage w)
    (g_LastError w) (device_ip_ w) (log_ w).
Definition set_services (n : Z) (l : list (Z * Service)) (w : World) : World :=
  mkWorld (unequal_task_id_ w) n (handles_ w) l (manager_ w) (vztcp_device_manage w)
    (g_LastError w) (device_ip_ w) (log_ w).
Definition set_manage (m : option VzTcpDeviceManage) (w : World) : World :=
  mkWorld (unequal_task_id_ w) (next_ w) (handles_ w) (services_ w) (manager_ w) m
    (g_LastError w) (device_ip_ w) (log_ w).
Definition set_error (e : Z) (w : World) : World :=
  mkWorld (unequal_task_id_ w) (next_ w) (handles_ w) (services_ w) (manager_ w)
    (vztcp_device_manage w) e (device_ip_ w) (log_ w).
Definition set_device_ip (ip : option (list Z)) (w : World) : World :=
  mkWorld (unequal_task_id_ w) (next_ w) (handles_ w) (services_ w) (manager_ w)
    (vztcp_device_manage w) (g_LastError w) ip (log_ w).
Definition logs (l : list action) (w : World) : World :=
  mkWorld (unequal_task_id_ w) (next_ w) (handles_ w) (services_ w) (manager_ w)
    (vztcp_device_manage w) (g_LastError w) (device_ip_ w) (log_ w ++ l).
Definition emit (a : action) : sdk unit := modify (logs [a]).

(** Objects behind pointers: a dangling or null one is undefined. *)
Definition the_service (p : Z) : sdk Service :=
  fun w => s ← lift_undefined (find p (services_ w)); Done (s, w).
Definition modify_service (p : Z) (f : Service -> Service) : sdk unit :=
  modify (fun w => set_services (next_ w) (update p f (services_ w)) w).
Definition new_service (s : Service) : sdk Z :=
  fun w => Done (next_ w, set_services (next_ w + 1) (insert (next_ w) s (services_ w)) w).
Definition new_handle (h : Handle) : sdk Z :=
  fun w => Done (next_ w, set_handles (next_ w + 1) (insert (next_ w) h (handles_ w)) w).
Definition modify_handle (p : Z) (f : Handle -> Handle) : sdk unit :=
  modify (fun w => set_handles (next_ w) (update p f (handles_ w)) w).

(** ** Tasks

    [current] is the calling thread. *)
Class Waiting := wait_task : Task Address -> World -> Message Address * World.

(** A task made by a constructor of Task.v. *)
Definition new_task (make : Z -> Task Address * Z) : sdk (Task Address) :=
  fun w => let '(t, u) := make (unequal_task_id_ w) in Done (t, set_unequal u w).
Definition new_task_outcome (make : Z -> outcome (Task Address * Z)) : sdk (Task Address) :=
  fun w => '(t, u) ← make (unequal_task_id_ w); Done (t, set_unequal u w).

Definition PostTask (t : Task Address) : sdk unit := emit (PostedTask t).
Definition SyncProcessTask `{Waiting} (t : Task Address) : sdk (Message Address) :=
  _ ← PostTask t;
  msg ← (fun w => Done (wait_task t w));
  _ ← emit (RemovedTask (task_id_ t));
  mret msg.

(** [static_cast<ResponseData *>(msg->pdata.get())] and its members: undefined when
    the data is another kind of [Stanza]. *)
Definition the_response (msg : Message Address) : outcome (option (Value * list Z)) :=
  match MessageQueue.pdata msg with
  | None => Done None
  | Some s => '(j, d) ← response s; Done (Some (res_json j, d))
  end.

(** ** Reasoning about calls

    [triple P m Q]: from a state in [P] the call [m], if it returns, returns a
    result and a state in [Q].  [keeps P m]: [m] keeps [P]. *)
Definition triple {A} (P : World -> Prop) (m : sdk A) (Q : A -> World -> Prop) : Prop :=
  forall w a w', P w -> m w = Done (a, w') -> Q a w'.
#[warnings="-inconsistent-scopes"]
Abbreviation keeps P m := (triple P m (fun _ => P)).

Lemma triple_bind {A B} P (m : sdk A) (Q : A -> World -> Prop) (f : A -> sdk B) R :
  triple P m Q -> (forall a, triple (Q a) (f a) R) -> triple P (a ← m; f a) R.
Proof.
  intros Hm Hf w b w' HP. unfold mbind, sdk_bind. destruct (m w) as [[a w1]| |] eqn:E; [|done..].
  intros H. eapply Hf; [|exact H]. by eapply Hm.
Qed.
Lemma triple_ret {A} P (a : A) : triple P (mret a) (fun _ => P).
Proof. intros w b w' HP. unfold mret, sdk_ret. by intros [= _ <-]. Qed.
Lemma triple_ret_is {A} P (a : A) (Q : A -> World -> Prop) :
  (forall w, P w -> Q a w) -> triple P (mret a) Q.
Proof. intros HQ w b w' HP. unfold mret, sdk_ret. intros [= <- <-]. auto. Qed.
Lemma triple_of_outcome {A} P (m : outcome A) : triple P (of_outcome m) (fun _ => P).
Proof. intros w b w' HP. unfold of_outcome. destruct m; cbn; [by intros [= _ <-]|done..]. Qed.
Lemma triple_gets {A} P (f : World -> A) : triple P (gets f) (fun a w => P w /\ a = f w).
Proof. intros w b w' HP. unfold gets. by intros [= <- <-]. Qed.
Lemma triple_modify P (f : World -> World) (Q : unit -> World -> Prop) :
  (forall w, P w -> Q tt (f w)) -> triple P (modify f) Q.
Proof. intros Hf w [] w' HP. unfold modify. intros [= <-]. auto. Qed.
Lemma triple_weaken {A} P P' (m : sdk A) (Q Q' : A -> World -> Prop) :
  triple P m Q -> (forall w, P' w -> P w) -> (forall a w, Q a w -> Q' a w) -> triple P' m Q'.
Proof. intros Hm HP HQ w a w' H E. eapply HQ, Hm; eauto. Qed.
Lemma keeps_from {A} P P' (m : sdk A) :
  triple P m (fun _ => P) -> (forall w, P' w -> P w) -> triple P' m (fun _ => P).
Proof. intros Hm HP. eapply triple_weaken; [exact Hm|done|done]. Qed.
Lemma keeps_gets {A} P (f : World -> A) : keeps P (gets f).
Proof. eapply triple_weaken; [apply triple_gets|done|]. by intros a w []. Qed.
Lemma triple_the_service P p :
  triple P (the_service p) (fun s w => P w /\ find p (services_ w) = Some s).
Proof.
  intros w s w' HP. unfold the_service. destruct (find p (services_ w)) as [s'|] eqn:E; [|done].
  cbn. by intros [= <- <-].
Qed.
Lemma keeps_the_service P p : keeps P (the_service p).
Proof. eapply triple_weaken; [apply triple_the_service|done|]. by intros a w []. Qed.

Lemma keeps_bind {A B} P (m : sdk A) (f : A -> sdk B) :
  keeps P m -> (forall a, keeps P (f a)) -> keeps P (a ← m; f a).
Proof. apply triple_bind. Qed.

(** The session id of a service, as [VzConnectDev::GetSessionID] reads it. *)
Definition service_session (s : Service) : Z :=
  match req_connect_data_ptr_ s with Some d => i32 (session_id_ d) | None => SESSION_ID_INVALUE end.

(** What the registry of services sees of the state is the same, but for numbers
    that were given away. *)
Record same_registry (w w' : World) : Prop := {
  sr_keys : map fst (services_ w') = map fst (services_ w);
  sr_session p : service_session <$> find p (services_ w') = service_session <$> find p (services_ w);
  sr_next : next_ w <= next_ w';
  sr_manage : vztcp_device_manage w' = vztcp_device_manage w }.
Definition stable (P : World -> Prop) : Prop := forall w w', same_registry w w' -> P w -> P w'.

Lemma keeps_same P (f : World -> World) :
  stable P -> (forall w, same_registry w (f w)) -> keeps P (modify f).
Proof. intros HP Hf. apply triple_modify. intros w Hw. eapply HP; eauto. Qed.

Lemma same_registry_service p f w :
  (forall s, service_session (f s) = service_session s) ->
  same_registry w (set_services (next_ w) (update p f (services_ w)) w).
Proof.
  intros Hf. constructor; cbn; [| |lia|done].
  - unfold update. rewrite map_map. apply map_ext. intros e. by destruct (e.1 =? p).
  - intros q. rewrite find_update. destruct (Z.eqb_spec p q) as [<-|]; [|done].
    destruct (find p (services_ w)); cbn; by rewrite ?Hf.
Qed.
Lemma keeps_emit P a : stable P -> keeps P (emit a).
Proof. intros HP. apply keeps_same; [done|]. intros w. constructor; cbn; done || lia. Qed.
Lemma keeps_modify_service P p f :
  stable P -> (forall s, service_session (f s) = service_session s) -> keeps P (modify_service p f).
Proof. intros HP Hf. apply keeps_same; [done|]. intros w. by apply same_registry_service. Qed.
Lemma keeps_modify_handle P h f : stable P -> keeps P (modify_handle h f).
Proof. intros HP. apply keeps_same; [done|]. intros w. constructor; cbn; done || lia. Qed.
Lemma keeps_new_handle P h : stable P -> keeps P (new_handle h).
Proof.
  intros HP w p w' Hw. unfold new_handle. intros [= _ <-]. eapply HP; [|exact Hw].
  constructor; cbn; done || lia.
Qed.
Lemma keeps_new_task_outcome P make : stable P -> keeps P (new_task_outcome make).
Proof.
  intros HP w t w' Hw. unfold new_task_outcome. destruct (make _) as [[t' u]| |]; [|done..].
  cbn. intros [= _ <-]. eapply HP; [|exact Hw]. constructor; cbn; done || lia.
Qed.
Lemma keeps_new_task P make : stable P -> keeps P (new_task make).
Proof.
  intros HP w t w' Hw. unfold new_task. destruct (make _) as [t' u].
  intros [= _ <-]. eapply HP; [|exact Hw]. constructor; cbn; done || lia.
Qed.

(** The threads that run while a task is waited for leave the registry alone: only
    the exported functions change it. *)
Class QuietWaiting `{Waiting} : Prop := wait_quiet t w : same_registry w (wait_task t w).2.

Lemma keeps_SyncProcessTask `{QuietWaiting} P t : stable P -> keeps P (SyncProcessTask t).
Proof.
  intros HP. unfold SyncProcessTask, PostTask.
  apply keeps_bind; [by apply keeps_emit|intros _]. apply keeps_bind.
  - intros w m w' Hw [= E]. eapply HP; [|exact Hw]. pose proof (wait_quiet t w) as Hq. by rewrite E in Hq.
  - intros m. apply keeps_bind; [by apply keeps_emit|intros _]. apply triple_ret.
Qed.
End client.
Arguments Service : clear implicits.
Arguments World : clear implicits.
Arguments action : clear implicits.
Arguments Waiting : clear implicits.
Arguments sdk : clear implicits.
Arguments QuietWaiting : clear implicits.
Arguments QuietWaiting Address {_}.

#[warnings="-inconsistent-scopes"]
Abbreviation keeps P m := (triple P m (fun _ => P)).

(** What does not concern a condition that [same_registry] preserves. *)
Create HintDb sdk.
#[export] Hint Resolve triple_ret triple_of_outcome keeps_gets keeps_the_service keeps_emit
  keeps_modify_handle keeps_new_handle keeps_new_task keeps_new_task_outcome keeps_SyncProcessTask : sdk.

(** Goes through the statements of a call. *)
Ltac keeps_tac :=
  repeat match goal with
    | |- triple _ (mbind _ _) _ => apply keeps_bind; [|intros ?]
    | |- triple _ (let '(_, _) := ?x in _) _ => destruct x
    | |- triple _ (if ?b then _ else _) _ => destruct b
    | |- triple _ (match ?x with _ => _ end) _ => destruct x
    | |- triple _ (modify_service _ _) _ => apply keeps_modify_service; [solve [eauto with sdk]|by intros []]
    end; eauto with sdk.

(** Runs a call on a state. *)
Ltac go := unfold mbind, mret, sdk_bind, sdk_ret, of_outcome, gets, emit, modify; cbn beta iota.
