(* ===== verification/Devices.v ===== *)
(** * vzsdk/vzmodulebase.cpp and the devices: requests and what is made of the answers

    [VZModuleBase] sends a request and waits; the devices ([VzIODev], [VzSerialDev],
    [VzWlistDev], [VzMaintenDev], [VzRecognition]) build the commands and read the
    answers.  [p] is the service a device belongs to and [current] the calling
    thread.  The result of a method comes with what it writes through its reference
    and pointer arguments; [strcmp] of a null pointer and a copy past the end of an
    array are undefined. *)
From Stdlib Require Import String.
From S2P Require Import Prelude Text StdMap ByteOrder ByteBuffer Json Session InternalMessage Task CommandAnalysis PushHandle PushManager SessionManager Client JsonText.

(** [memcpy(dest, src + off, n)], [dest] and [src] being whole arrays. *)
Definition memcpy (dest src : list Z) (off n : Z) : outcome (list Z) :=
  if (0 <=? off) && (0 <=? n) && (n <=? Z.of_nat (length dest))
     && (off + n <=? Z.of_nat (length src))
  then Done (write_at 0 (slice (Z.to_nat off) (Z.to_nat n) src) dest)
  else Undefined.

(** [strcmp(s, text) == 0]. *)
Definition strcmp_eq (s : option (list Z)) (text : string) : outcome bool :=
  s ← lift_undefined s; Done (bool_decide (s = bytes text)).
(** [a && b], [b] being evaluated only when [a] holds. *)
Definition and_also (a b : outcome bool) : outcome bool :=
  x ← a; if (x : bool) then b else Done false.

(** [v[i]] for a non-negative index. *)
Definition index_array (v : Value) (i : nat) : option Value :=
  match v with
  | nullValue => Some nullValue
  | arrayValue l => Some (default nullValue (l !! i))
  | _ => None
  end.

Section devices.
Context {Address : Type} {HO : Host} {HP : Heap} {JT : DoubleText} {W : Waiting Address}.
Variables (p current : Z).
Abbreviation sdk := (sdk Address).

(** ** VzConnectDev: who is connected *)
Definition GetSessionID : sdk Z :=
  s ← the_service p;
  mret (match req_connect_data_ptr_ s with
        | Some d => i32 (session_id_ d)
        | None => SESSION_ID_INVALUE
        end).
Definition GetConnState : sdk ConnState :=
  session_id ← GetSessionID;
  gets (fun w => match FindSession (manager_ w) (u32 session_id) with
                 | Some session => GetState session
                 | None => CS_CLOSED
                 end).

(** ** VZModuleBase *)
Definition GetIsConn : sdk bool :=
  conn_state ← GetConnState; mret (bool_decide (conn_state = CS_CONNECTED)).

(** [None] is the null [Message::Ptr]. *)
Definition SyncProcessReqTask (req_json : Value) : sdk (option (Message Address)) :=
  session_id ← GetSessionID;
  if session_id =? 0 then mret None
  else
    req_task ← new_task_outcome (fun u => ReqTask_new u DEFAULT_TIMEOUT current session_id req_json None);
    msg ← SyncProcessTask req_task;
    mret (Some msg).

Definition PostReqTask (req_json : Value) : sdk bool :=
  session_id ← GetSessionID;
  if session_id =? 0 then mret false
  else
    conn ← GetIsConn;
    if negb conn then mret false
    else
      req_push_task ← new_task (fun u => ReqPushTask_new u DEFAULT_TIMEOUT current session_id req_json);
      msg ← SyncProcessTask req_push_task;
      mret (answered msg).

(** [SyncProcessReqTask] and the test and cast that follow every call of it:
    [None] when no answer came, [Some None] when its data is null. *)
Definition ask (req_json : Value) : sdk (option (option (Value * list Z))) :=
  msg ← SyncProcessReqTask req_json;
  match msg with
  | Some msg => if answered msg then r ← of_outcome (the_response msg); mret (Some r) else mret None
  | None => mret None
  end.
(** The rest of most methods: [REQ_FAILED] unless there is an answer to read. *)
Definition ask_then (req_json : Value) (read : Value -> outcome bool) : sdk Z :=
  r ← ask req_json;
  match r with
  | Some (Some (res_value, _)) =>
    ok ← of_outcome (read res_value); mret (if (ok : bool) then REQ_SUCCEED else REQ_FAILED)
  | _ => mret REQ_FAILED
  end.
(** [if (!PostReqTask(req_json)) return -1; return REQ_SUCCEED;] *)
Definition post_only (req_json : Value) : sdk Z :=
  ok ← PostReqTask req_json; mret (if (ok : bool) then REQ_SUCCEED else -1).
Definition command (v : option Value) : sdk Value := of_outcome (lift v).

(** ** VzIODev *)
Definition SetIOOutputAuto (chn_id duration : Z) : sdk Z :=
  req_json ← command (GeneratSetGPIOAutoCmd chn_id duration nullValue);
  post_only req_json.
Definition SetIOOutput (chn_id nOutput : Z) : sdk Z :=
  '(ok, req_json) ← of_outcome (lift (GeneratSetIOOutputCmd chn_id nOutput nullValue));
  if negb ok then mret (-1) else post_only req_json.
(** [value] is the int behind the pointer. *)
Definition GetGPIOValue (gpioIn value : Z) : sdk (Z * Z) :=
  req_json ← command (GeneratGetGPIOValueCmd gpioIn nullValue);
  r ← ask req_json;
  match r with
  | Some (Some (res_value, _)) =>
    gpio ← of_outcome (ParseGPIOResponse res_value (mkGPIO 0 0));
    mret (REQ_SUCCEED, i32 (gp_val gpio))
  | _ => mret (REQ_FAILED, value)
  end.
Definition SetOfflineCheck : sdk Z :=
  req_json ← command (GeneratOfflineCheckCmd 2 nullValue);
  ask_then req_json (fun res_value =>
    offline ← ParseOfflineResponse res_value (mkOffline None None);
    strcmp_eq (of_response offline) "ok").
Definition CancelOfflineCheck : sdk Z :=
  req_json ← command (GeneratSetOfflineCheckCmd 2 nullValue);
  post_only req_json.

(** ** VzSerialDev *)
Definition serial_ok (subcmd : string) (res_value : Value) : outcome bool :=
  value ← ParseTTransmissionResponse res_value (mkTTransmission None None 0 0 None);
  and_also (strcmp_eq (tt_subcmd value) subcmd) (strcmp_eq (tt_response value) "ok").
Definition SerialStart (serial_port : Z) : sdk Z :=
  '(ok, req_json) ← of_outcome (lift (GeneratSerialStartCmd serial_port nullValue));
  if negb ok then mret REQ_FAILED else ask_then req_json (serial_ok "init").
Definition SerialSend (serial_port : Z) (data : list Z) : sdk Z :=
  '(ok, req_json) ← of_outcome (lift (GeneratSerialSendCmd serial_port data nullValue));
  if negb ok then mret REQ_FAILED else post_only req_json.
Definition SerialStop : sdk Z :=
  req_json ← command (GeneratSerialStopCmd nullValue);
  ask_then req_json (serial_ok "uninit").
Definition AddPushHandle (h : Z) : sdk unit := emit (AddedPushHandle h).
Definition VzSerialDev_SetSerialRecvCallBack (func : option Z) : sdk unit :=
  h ← new_handle (Serial (mkSerial (bytes "ttransmission") func));
  AddPushHandle h.

(** ** VzWlistDev *)
Definition wlist_ok (operator_type : string) (res_value : Value) : outcome bool :=
  value ← ParseWhiteListOperatorResponse res_value (mkWhiteListOperator None None 0);
  and_also (strcmp_eq (wo_operator_type value) operator_type) (strcmp_eq (wo_state value) "succeed").
Definition ImportWlistVehicle (wlist : VZ_LPR_WLIST_VEHICLE) : sdk Z :=
  req_json ← command (GeneratImportWlistVehicleCmd wlist nullValue);
  ask_then req_json (wlist_ok "update_or_add").
Definition DeleteWlistVehicle (plate_code : list Z) : sdk Z :=
  req_json ← command (GeneratDeleteWlistVehicleCmd plate_code nullValue);
  ask_then req_json (wlist_ok "delete").

(** [VZ_LPR_WLIST_VEHICLE wlist = { 0 };] *)
Definition zero_vehicle : VZ_LPR_WLIST_VEHICLE :=
  mkVehicle 0 (repeat 0 VZ_LPR_WLIST_LP_MAX_LEN) 0 0 0 0 (repeat 0 6%nat) (repeat 0 6%nat) 0 0
    0 0 (repeat 0 VZ_LPR_WLIST_VEHICLE_CODE_LEN) (repeat 0 VZ_LPR_WLIST_VEHICLE_COMMENT_LEN).
(** The loop over the records: [n] are left, [i] is the next. *)
Fixpoint query_loop (func session_id : Z) (res_value : Value) (i n : nat) : sdk unit :=
  match n with
  | O => mret tt
  | S n =>
    wlist ← of_outcome (dldb_rec ← lift (index_path res_value ["dldb_rec"%string]);
                        item ← lift (index_array dldb_rec i);
                        ParseWhiteListRecordResponse item zero_vehicle);
    _ ← emit (WlistCallback func session_id wlist);
    query_loop func session_id res_value (S i) n
  end.
Definition QueryWlistVehicle (plate_code : list Z) : sdk Z :=
  req_json ← command (GeneratQueryWlistVehicleCmd plate_code nullValue);
  r ← ask req_json;
  match r with
  | Some (Some (res_value, _)) =>
    value ← of_outcome (ParseWhiteListOperatorResponse res_value (mkWhiteListOperator None None 0));
    ok ← of_outcome (strcmp_eq (wo_operator_type value) "select");
    if (ok : bool) then
      s ← the_service p;
      match wlist_func_ s with
      | Some func =>
        session_id ← GetSessionID;
        _ ← query_loop func session_id res_value 0 (Z.to_nat (i32 (wo_record_count value)));
        mret REQ_SUCCEED
      | None => mret REQ_SUCCEED
      end
    else mret REQ_FAILED
  | _ => mret REQ_FAILED
  end.
Definition SetWlistRecvCallBack (func : option Z) : sdk unit :=
  modify_service p (fun s => set_wlist_func s func).

(** ** VzMaintenDev *)
Definition GetDeviceSN (sn : list Z) : sdk (Z * list Z) :=
  session_id ← GetSessionID;
  req_json ← command (GeneratGetDeviceSN session_id nullValue);
  r ← ask req_json;
  match r with
  | Some response =>
    '(res_value, _) ← of_outcome (lift_undefined response);
    sn ← of_outcome (m ← lift (index_path res_value ["value"%string]); lift (asString m));
    mret (REQ_SUCCEED, sn)
  | None => mret (REQ_FAILED, sn)
  end.

(** ** Runs of a request *)
Implicit Types (w : World Address).

Lemma GetSessionID_run w s :
  find p (services_ w) = Some s -> GetSessionID w = Done (service_session s, w).
Proof. intros E. unfold GetSessionID, the_service. go. rewrite E. by cbn. Qed.
Lemma SyncProcessTask_run t w msg w1 :
  wait_task t (logs [PostedTask t] w) = (msg, w1) ->
  SyncProcessTask t w = Done (msg, logs [RemovedTask (task_id_ t)] w1).
Proof. intros E. unfold SyncProcessTask, Client.PostTask. go. cbn. by rewrite E. Qed.

(** The task a request is sent with, and the state when it is posted. *)
Definition req_task w (sid : Z) (cmd : list Z) (j : Value) : Task Address :=
  mkTask (ReqTask (u32 sid) cmd) DEFAULT_TIMEOUT (Some current)
    (u32 (i32 (unequal_task_id_ w + 1))) (Some (RequestData sid j false)).
Definition push_task w (sid : Z) (j : Value) : Task Address :=
  mkTask (ReqPushTask (u32 sid)) DEFAULT_TIMEOUT (Some current)
    (u32 (i32 (unequal_task_id_ w + 1))) (Some (RequestData sid j true)).
Definition posted w (t : Task Address) : World Address :=
  logs [PostedTask t] (set_unequal (i32 (unequal_task_id_ w + 1)) w).

(** What comes of a message: [None] for no answer. *)
Definition answer_of (msg : Message Address) : outcome (option (option (Value * list Z))) :=
  if answered msg then r ← the_response msg; Done (Some r) else Done None.

Lemma ask_run w s j cmd msg w1 t :
  find p (services_ w) = Some s -> service_session s <> 0 ->
  index_const j "cmd" = Some (str cmd) -> c_str (bytes cmd) = bytes cmd ->
  t = req_task w (service_session s) (bytes cmd) j ->
  wait_task t (posted w t) = (msg, w1) ->
  ask j w = r ← answer_of msg; Done (r, logs [RemovedTask (task_id_ t)] w1).
Proof.
  intros E Hs Hc Hn Et Hw. unfold ask, SyncProcessReqTask, mbind at 1 2 3, sdk_bind at 1 2 3.
  rewrite (GetSessionID_run w s E). destruct (Z.eqb_spec (service_session s) 0); [done|].
  unfold new_task_outcome, ReqTask_new, mbind at 1, sdk_bind at 1. rewrite Hc. run. cbn [asString]. rewrite Hn. run.
  unfold Task_new. cbn [default]. fold (req_task w (service_session s) (bytes cmd) j). rewrite <- Et.
  unfold mbind at 1, sdk_bind at 1. fold (posted w t).
  rewrite (SyncProcessTask_run t _ msg w1) by exact Hw. unfold mret, sdk_ret, answer_of.
  destruct (answered msg); [|done]. unfold of_outcome. go.
  destruct (the_response msg); by run.
Qed.
Lemma ask_no_session w s j :
  find p (services_ w) = Some s -> service_session s = 0 -> ask j w = Done (None, w).
Proof.
  intros E Hs. unfold ask, SyncProcessReqTask. go. rewrite (GetSessionID_run w s E), Hs. by cbn.
Qed.

(** ** Requests that wait for an answer and check it *)
Inductive SyncCall :=
  | SyncOfflineCheck | SyncSerialStart (serial_port : Z) | SyncSerialStop
  | SyncImport (wlist : VZ_LPR_WLIST_VEHICLE) | SyncDelete (plate_code : list Z).
Definition run_sync (c : SyncCall) : sdk Z :=
  match c with
  | SyncOfflineCheck => SetOfflineCheck
  | SyncSerialStart port => SerialStart port
  | SyncSerialStop => SerialStop
  | SyncImport v => ImportWlistVehicle v
  | SyncDelete plate => DeleteWlistVehicle plate
  end.
Definition sync_command (c : SyncCall) : option Value :=
  match c with
  | SyncOfflineCheck => GeneratOfflineCheckCmd 2 nullValue
  | SyncSerialStart port =>
    '(ok, j) ← GeneratSerialStartCmd port nullValue; if (ok : bool) then Some j else None
  | SyncSerialStop => GeneratSerialStopCmd nullValue
  | SyncImport v => GeneratImportWlistVehicleCmd v nullValue
  | SyncDelete plate => GeneratDeleteWlistVehicleCmd plate nullValue
  end.
Definition sync_name (c : SyncCall) : string :=
  match c with
  | SyncOfflineCheck => "offline"
  | SyncSerialStart _ | SyncSerialStop => "ttransmission"
  | SyncImport _ | SyncDelete _ => "white_list_operator"
  end.
(** What a reply has to say for the call to succeed, in the order it is looked at. *)
Definition expected (c : SyncCall) : list (string * string) :=
  match c with
  | SyncOfflineCheck => [("response", "ok")]
  | SyncSerialStart _ => [("subcmd", "init"); ("response", "ok")]
  | SyncSerialStop => [("subcmd", "uninit"); ("response", "ok")]
  | SyncImport _ => [("operator_type", "update_or_add"); ("state", "succeed")]
  | SyncDelete _ => [("operator_type", "delete"); ("state", "succeed")]
  end%string.
(** A member that is missing is undefined, one that differs ends the comparison. *)
Fixpoint check_fields (j : Value) (l : list (string * string)) : outcome bool :=
  match l with
  | [] => Done true
  | (key, text) :: l =>
    match index_const j key with
    | Some (stringValue s) =>
      if bool_decide (c_str s = bytes text) then check_fields j l else Done false
    | _ => Undefined
    end
  end.
(** An object whose texts are texts and whose numbers are numbers, where present. *)
Definition text_member (j : Value) (key : string) : Prop :=
  index_const j key = Some nullValue \/ exists s, index_const j key = Some (stringValue s).
Definition number_member (j : Value) (key : string) : Prop :=
  exists m z, index_const j key = Some m /\ asUInt m = Some z.
Record reply_shape (j : Value) : Prop := {
  rs_container : container j;
  rs_texts : Forall (text_member j) ["subcmd"; "response"; "data"; "operator_type"; "state"]%string;
  rs_numbers : Forall (number_member j) ["datalen"; "comm"]%string }.

Definition text_of (j : Value) (key : string) : option (list Z) :=
  match index_const j key with Some (stringValue s) => Some (c_str s) | _ => None end.
Lemma unless_null_text j key :
  container j -> text_member j key ->
  unless_null j key (fun m => Some <$> asCString m) None = Done (text_of j key).
Proof.
  intros Hc Ht. unfold unless_null, text_of.
  destruct (container_member j key Hc) as (m & -> & Hm). rewrite Hm. run.
  destruct Ht as [Ht|[x Ht]]; rewrite Hm in Ht; injection Ht as ->; by cbn.
Qed.
Lemma unless_null_number j key x :
  container j -> number_member j key -> exists z, unless_null j key asUInt x = Done z.
Proof.
  intros Hc (m & z & Hm & Hz). unfold unless_null.
  destruct (container_member j key Hc) as (m' & -> & Hm'). rewrite Hm in Hm'. injection Hm' as <-. run.
  destruct (negb (isNull m)); [rewrite Hz|]; by eexists.
Qed.

Lemma two_fields j k1 t1 k2 t2 :
  and_also (strcmp_eq (text_of j k1) t1) (strcmp_eq (text_of j k2) t2) = check_fields j [(k1, t1); (k2, t2)].
Proof.
  unfold and_also, strcmp_eq, text_of. cbn [check_fields].
  destruct (index_const j k1) as [[| | | |s1| | |]|]; try done. run.
  destruct (bool_decide _); [|done].
  destruct (index_const j k2) as [[| | | |s2| | |]|]; try done. run. by destruct (bool_decide _).
Qed.

Ltac member H := eapply (proj1 (List.Forall_forall _ _) H); simpl; tauto.

Lemma serial_reads j subcmd : reply_shape j ->
  serial_ok subcmd j = check_fields j [("subcmd", subcmd); ("response", "ok")]%string.
Proof.
  intros [Hc Ht Hn].
  unfold serial_ok, ParseTTransmissionResponse. cbn [tt_subcmd tt_response tt_datalen tt_comm tt_data].
  rewrite !(unless_null_text _ _ Hc) by member Ht. run.
  destruct (unless_null_number j "datalen" 0 Hc ltac:(member Hn)) as [z1 ->].
  destruct (unless_null_number j "comm" 0 Hc ltac:(member Hn)) as [z2 ->]. run. cbn [tt_subcmd tt_response]. apply two_fields.
Qed.
Lemma wlist_parsed j : reply_shape j ->
  exists n, ParseWhiteListOperatorResponse j (mkWhiteListOperator None None 0) =
    Done (mkWhiteListOperator (text_of j "operator_type") (text_of j "state") n) /\
    forall l, index_const j "dldb_rec" = Some (arrayValue l) -> n = u32 (Z.of_nat (length l)).
Proof.
  intros [Hc Ht _].   unfold ParseWhiteListOperatorResponse. cbn [wo_operator_type wo_state wo_record_count].
  rewrite !(unless_null_text _ _ Hc) by member Ht. unfold unless_null.
  destruct (container_member j "dldb_rec" Hc) as (m & -> & ->). run.
  destruct m; cbn; eexists; (split; [done|]); intros l [=]; by subst.
Qed.
Lemma wlist_reads j operator : reply_shape j ->
  wlist_ok operator j = check_fields j [("operator_type", operator); ("state", "succeed")]%string.
Proof.
  intros Hj. unfold wlist_ok. destruct (wlist_parsed j Hj) as (n & -> & _). run. apply two_fields.
Qed.
Lemma offline_reads j : reply_shape j ->
  (offline ← ParseOfflineResponse j (mkOffline None None); strcmp_eq (of_response offline) "ok")
  = check_fields j [("response", "ok")]%string.
Proof.
  intros [Hc Ht _].   unfold ParseOfflineResponse. cbn [of_subcmd of_response].
  rewrite !(unless_null_text _ _ Hc) by member Ht. run. cbn [of_response].
  unfold strcmp_eq, text_of. cbn [check_fields].
  destruct (index_const j "response") as [[| | | |s1| | |]|]; try done. run. by destruct (bool_decide _).
Qed.

Lemma ask_then_run w s j cmd read msg w1 t :
  find p (services_ w) = Some s -> service_session s <> 0 ->
  index_const j "cmd" = Some (str cmd) -> c_str (bytes cmd) = bytes cmd ->
  t = req_task w (service_session s) (bytes cmd) j ->
  wait_task t (posted w t) = (msg, w1) ->
  ask_then j read w =
    r ← answer_of msg;
    match r with
    | Some (Some (v, _)) =>
      ok ← read v; Done (if (ok : bool) then REQ_SUCCEED else REQ_FAILED, logs [RemovedTask (task_id_ t)] w1)
    | _ => Done (REQ_FAILED, logs [RemovedTask (task_id_ t)] w1)
    end.
Proof.
  intros. unfold ask_then. go. rewrite (ask_run w s j cmd msg w1 t) by done. destruct (answer_of msg) as [r| |]; run; [|done..].
  destruct r as [[[v d]|]|]; try done. by destruct (read v).
Qed.

Lemma sync_command_name c j : sync_command c = Some j -> index_const j "cmd" = Some (str (sync_name c)).
Proof.
  destruct c; cbn [sync_command sync_name]; try (by intros [= <-]).
  unfold GeneratSerialStartCmd. destruct (_ || _); [|done]. by intros [= <-].
Qed.
Lemma sync_name_c_str c : c_str (bytes (sync_name c)) = bytes (sync_name c).
Proof. by destruct c. Qed.

(** The outcome of a call, from what waiting came to. *)
Definition sync_outcome (c : SyncCall) (msg : Message Address) : outcome Z :=
  r ← answer_of msg;
  match r with
  | Some (Some (j, _)) =>
    ok ← check_fields j (expected c); Done (if (ok : bool) then REQ_SUCCEED else REQ_FAILED)
  | _ => Done REQ_FAILED
  end.

(** C16. A call posts one task with exactly its command, and removes it.  It succeeds
    when the reply says all that is expected; it fails when no answer comes in time
    or the reply says otherwise; it is undefined when the reply lacks what is
    compared. *)
Theorem sync_call_result c w s j msg w1 t :
  find p (services_ w) = Some s -> service_session s <> 0 -> sync_command c = Some j ->
  t = req_task w (service_session s) (bytes (sync_name c)) j ->
  wait_task t (posted w t) = (msg, w1) ->
  (forall v d, answer_of msg = Done (Some (Some (v, d))) -> reply_shape v) ->
  run_sync c w = r ← sync_outcome c msg; Done (r, logs [RemovedTask (task_id_ t)] w1).
Proof.
  intros E Hs Hj Et Hw Hshape.
  assert (Hrun : forall read, (forall v, reply_shape v -> read v = check_fields v (expected c)) ->
    ask_then j read w = r ← sync_outcome c msg; Done (r, logs [RemovedTask (task_id_ t)] w1)).
  { intros read Hread. pose proof (sync_command_name c j Hj) as Hname.
    rewrite (ask_then_run w s j (sync_name c) read msg w1 t) by (done || apply sync_name_c_str).
    unfold sync_outcome. destruct (answer_of msg) as [[[[v d]|]|]| |]; run; try done.
    rewrite Hread by by eapply Hshape. by destruct (check_fields v (expected c)). }
  destruct c; cbn [run_sync sync_command expected] in *;
    unfold SetOfflineCheck, SerialStart, SerialStop, ImportWlistVehicle, DeleteWlistVehicle, command; go;
    rewrite ?Hj; run.
  - apply Hrun, offline_reads.
  - destruct (GeneratSerialStartCmd serial_port nullValue) as [[[] j']|]; try done.
    injection Hj as ->. cbn [negb]. apply Hrun. intros. by apply serial_reads.
  - apply Hrun. intros. by apply serial_reads.
  - apply Hrun. intros. by apply wlist_reads.
  - apply Hrun. intros. by apply wlist_reads.
Qed.

(** Without a session nothing is sent. *)
Lemma sync_call_no_session c w s :
  find p (services_ w) = Some s -> service_session s = 0 -> sync_command c <> None ->
  run_sync c w = Done (REQ_FAILED, w).
Proof.
  intros E Hs Hj. destruct (sync_command c) as [j|] eqn:Ej; [|done].
  assert (Hrun : forall read, ask_then j read w = Done (REQ_FAILED, w)).
  { intros read. unfold ask_then. go. by rewrite (ask_no_session w s j E Hs). }
  destruct c; cbn [run_sync sync_command] in *;
    unfold SetOfflineCheck, SerialStart, SerialStop, ImportWlistVehicle, DeleteWlistVehicle, command; go;
    rewrite ?Ej; run; try apply Hrun.
  destruct (GeneratSerialStartCmd serial_port nullValue) as [[[] j']|]; try done.
  injection Ej as ->. cbn [negb]. apply Hrun.
Qed.

(** ** Requests that are only acknowledged *)
Lemma GetIsConn_run w s :
  find p (services_ w) = Some s ->
  GetIsConn w = Done (bool_decide (match FindSession (manager_ w) (u32 (service_session s)) with
    | Some session => GetState session | None => CS_CLOSED end = CS_CONNECTED), w).
Proof. intros E. unfold GetIsConn, GetConnState. go. by rewrite (GetSessionID_run w s E). Qed.

Definition connected w (s : Service Address) : Prop :=
  exists session, FindSession (manager_ w) (u32 (service_session s)) = Some session /\
    GetState session = CS_CONNECTED.
Lemma PostReqTask_run w s j msg w1 t :
  find p (services_ w) = Some s -> service_session s <> 0 -> connected w s ->
  t = push_task w (service_session s) j -> wait_task t (posted w t) = (msg, w1) ->
  PostReqTask j w = Done (answered msg, logs [RemovedTask (task_id_ t)] w1).
Proof.
  intros E Hs (session & Hf & Hst) Et Hw. unfold PostReqTask, mbind at 1, sdk_bind at 1.
  rewrite (GetSessionID_run w s E). destruct (Z.eqb_spec (service_session s) 0); [done|].
  unfold mbind at 1, sdk_bind at 1. rewrite (GetIsConn_run w s E), Hf, Hst. cbn [negb].
  rewrite bool_decide_true by done. cbn [negb].
  unfold new_task, ReqPushTask_new, Task_new, mbind at 1, sdk_bind at 1. cbn [default].
  fold (push_task w (service_session s) j). rewrite <- Et. unfold mbind at 1, sdk_bind at 1. fold (posted w t).
  by rewrite (SyncProcessTask_run t _ msg w1).
Qed.

(** [CancelOfflineCheck] posts the very command with which [SetOfflineCheck] starts
    the check: nothing is cancelled. *)
Theorem cancel_starts_offline_check w s j msg w1 t :
  find p (services_ w) = Some s -> service_session s <> 0 -> connected w s ->
  sync_command SyncOfflineCheck = Some j ->
  t = push_task w (service_session s) j -> wait_task t (posted w t) = (msg, w1) ->
  CancelOfflineCheck w =
    Done (if answered msg then REQ_SUCCEED else -1, logs [RemovedTask (task_id_ t)] w1).
Proof.
  intros E Hs Hc Hj Et Hw. unfold CancelOfflineCheck, post_only, command. go.
  change (GeneratSetOfflineCheckCmd 2 nullValue) with (sync_command SyncOfflineCheck). rewrite Hj. run.
  by rewrite (PostReqTask_run w s j msg w1 t).
Qed.

(** ** The white list query *)

(** The record of a vehicle, as the import command writes it. *)
Definition record_of (item : VZ_LPR_WLIST_VEHICLE) : Value :=
  default nullValue (cmd ← GeneratImportWlistVehicleCmd item nullValue; index_const cmd "dldb_rec").
Lemma record_parsed item :
  host_big = false -> vehicle_ok item ->
  exists v, ParseWhiteListRecordResponse (record_of item) zero_vehicle = Done v /\
    vehicle_received zero_vehicle item v.
Proof.
  intros Hle Hok. destruct (import_received item zero_vehicle Hle Hok) as (cmd & rec & v & E & Hr & Hp & Hv);
    [done|done|]. exists v. unfold record_of. rewrite E. cbn [mbind option_bind]. by rewrite Hr.
Qed.

Lemma query_loop_run func sid j items : forall i w,
  host_big = false -> Forall vehicle_ok items -> container j ->
  forall done, index_const j "dldb_rec" = Some (arrayValue (done ++ map record_of items)) ->
  i = length done ->
  exists vs, query_loop func sid j i (length items) w =
      Done (tt, logs (map (WlistCallback func sid) vs) w) /\
    Forall2 (vehicle_received zero_vehicle) items vs.
Proof.
  induction items as [|item items IH]; intros i w Hle Hok Hc before Hd ->.
  { exists []. split; [|constructor]. cbn. unfold logs. rewrite app_nil_r. by destruct w. }
  apply Forall_cons_1 in Hok as [Hitem Hok]. destruct (record_parsed item Hle Hitem) as (v & Hv & Hr).
  destruct (IH (S (length before)) (logs [WlistCallback func sid v] w) Hle Hok Hc (before ++ [record_of item]))
    as (vs & Hrun & Hvs).
  { rewrite Hd. cbn. by rewrite <- app_assoc. }
  { rewrite length_app. simpl. lia. }
  exists (v :: vs). split; [|by constructor]. cbn [length query_loop]. go.
  destruct (container_member j "dldb_rec" Hc) as (m & -> & Hm). rewrite Hd in Hm. injection Hm as <-. run.
  cbn [index_array]. rewrite lookup_app_r, Nat.sub_diag by done. cbn [map lookup list_lookup default]. run.
  unfold id. rewrite Hv. run. unfold modify. cbn beta iota. rewrite Hrun. unfold logs. cbn. by rewrite <- app_assoc.
Qed.

(** C15. On a little-endian host the client's callback is given the vehicles the device
    lists, one call each and in their order, before the call returns.  Ids, texts, times and
    the other flags arrive as the device has them ([vehicle_received]); customer, color and
    plate type arrive as 0, and the two flags of the times as 1, whatever they were. *)
Theorem query_delivers_list plate w s f j reply data msg w1 t items :
  host_big = false -> Forall vehicle_ok items -> Z.of_nat (length items) < 2 ^ 31 ->
  find p (services_ w) = Some s -> service_session s <> 0 -> wlist_func_ s = Some f ->
  GeneratQueryWlistVehicleCmd plate nullValue = Some j ->
  t = req_task w (service_session s) (bytes "white_list_operator") j ->
  wait_task t (posted w t) = (msg, w1) -> find p (services_ w1) = Some s ->
  answer_of msg = Done (Some (Some (reply, data))) -> reply_shape reply ->
  index_const reply "operator_type" = Some (str "select") ->
  index_const reply "dldb_rec" = Some (arrayValue (map record_of items)) ->
  exists vs, QueryWlistVehicle plate w =
      Done (REQ_SUCCEED, logs (map (WlistCallback f (service_session s)) vs)
                           (logs [RemovedTask (task_id_ t)] w1)) /\
    Forall2 (vehicle_received zero_vehicle) items vs.
Proof.
  intros Hle Hok Hlen E Hs Hf Hj Et Hw E1 Ha Hshape Hop Hd.
  destruct (wlist_parsed reply Hshape) as (n & Hp & Hn). specialize (Hn _ Hd).
  set (w2 := logs [RemovedTask (task_id_ t)] w1).
  destruct (query_loop_run f (service_session s) reply items 0 w2 Hle Hok (rs_container _ Hshape) [] Hd eq_refl)
    as (vs & Hrun & Hvs). exists vs. split; [|done].
  unfold QueryWlistVehicle, command. go. rewrite Hj. run.
  rewrite (ask_run w s j "white_list_operator" msg w1 t);
    [|done|done|by injection Hj as <-|done|done|done].
  rewrite Ha. run. rewrite Hp. run. unfold text_of at 1. cbn [wo_operator_type]. unfold text_of.
  rewrite Hop. cbn [strcmp_eq]. unfold strcmp_eq. run. rewrite bool_decide_true by done. run.
  unfold the_service. fold w2. change (services_ w2) with (services_ w1). rewrite E1. run. rewrite Hf.
  rewrite (GetSessionID_run w2 s) by done. cbn [wo_record_count]. rewrite Hn.
  assert (Hsize : Z.to_nat (i32 (u32 (Z.of_nat (length (map record_of items))))) = length items).
  { rewrite length_map, u32_id, i32_id; [lia|lia|unfold in_width; lia]. }
  rewrite Hsize. by rewrite Hrun.
Qed.
End devices.

(** ** Concrete runs: service 1, whose session 2 is connected *)
Section demo.
Local Existing Instances little_endian zero_heap demo_double.

Definition device_service : Service Z :=
  mkService (Some (mkStanza RES_RECONNECT_EVENT 2 NoBody)) None 10 false 11 false None (Some 5) None.
Definition device_world : World Z := mkWorld 1 12 [] [(1, device_service)] demo_manager None 0 None [].
Definition device_answer (j : Value) (t : Task Z) : Message Z :=
  MessageQueue.mkMessage (Some (task_id_ t)) (task_id_ t) (Some (ResponseData 2 j [])) 0.
Definition answers (j : Value) : Waiting Z := fun t w => (device_answer j t, w).

Ltac each_member :=
  apply List.Forall_forall; let k := fresh in let Hk := fresh in intros k Hk;
  repeat (destruct Hk as [<-|Hk]; [|]); [..|destruct Hk].

Definition serial_reply : Value :=
  objectValue [("response", str "ok"); ("subcmd", str "init")]%string.
Lemma serial_reply_shape : reply_shape serial_reply.
Proof.
  constructor; [right; by eexists| |].
  - each_member; solve [left; reflexivity|right; eexists; reflexivity].
  - each_member; exists nullValue, 0; by split.
Qed.
Definition serial_task : Task Z :=
  req_task 9 device_world 2 (bytes "ttransmission") (default nullValue (sync_command (SyncSerialStart 1))).
Lemma sync_call_result_witness :
  run_sync (W := answers serial_reply) 1 9 (SyncSerialStart 1) device_world =
    r ← sync_outcome (SyncSerialStart 1) (device_answer serial_reply serial_task);
    Done (r, logs [RemovedTask (task_id_ serial_task)] (posted device_world serial_task)).
Proof.
  apply (sync_call_result (W := answers serial_reply) 1 9 (SyncSerialStart 1) device_world device_service
    (default nullValue (sync_command (SyncSerialStart 1)))).
  - reflexivity.
  - vm_compute. discriminate.
  - reflexivity.
  - reflexivity.
  - reflexivity.
  - intros v d [= <- _]. exact serial_reply_shape.
Defined.
Lemma serial_call_succeeds :
  sync_outcome (SyncSerialStart 1) (device_answer serial_reply serial_task) = Done REQ_SUCCEED.
Proof. vm_compute. reflexivity. Qed.

Definition cancel_task : Task Z :=
  push_task 9 device_world 2 (default nullValue (sync_command SyncOfflineCheck)).
Lemma cancel_starts_offline_check_witness :
  CancelOfflineCheck (W := answers nullValue) 1 9 device_world =
    Done (REQ_SUCCEED, logs [RemovedTask (task_id_ cancel_task)] (posted device_world cancel_task)).
Proof.
  apply (cancel_starts_offline_check (W := answers nullValue) 1 9 device_world device_service
    (default nullValue (sync_command SyncOfflineCheck)) (device_answer nullValue cancel_task)).
  - reflexivity.
  - vm_compute. discriminate.
  - exists demo_open. split; [exact demo_open_find|vm_compute; reflexivity].
  - reflexivity.
  - reflexivity.
  - reflexivity.
Defined.

Definition list_reply : Value :=
  objectValue [("dldb_rec", arrayValue (map record_of [demo_vehicle; demo_vehicle]));
               ("operator_type", str "select")]%string.
Lemma list_reply_shape : reply_shape list_reply.
Proof.
  constructor; [right; by eexists| |].
  - each_member; solve [left; reflexivity|right; eexists; reflexivity].
  - each_member; exists nullValue, 0; by split.
Qed.
Definition query_command : Value := default nullValue (GeneratQueryWlistVehicleCmd (bytes "A") nullValue).
Definition query_task : Task Z := req_task 9 device_world 2 (bytes "white_list_operator") query_command.
Lemma query_delivers_list_witness :
  exists vs, QueryWlistVehicle (W := answers list_reply) 1 9 (bytes "A") device_world =
      Done (REQ_SUCCEED, logs (map (WlistCallback 5 2) vs)
        (logs [RemovedTask (task_id_ query_task)] (posted device_world query_task))) /\
    Forall2 (vehicle_received zero_vehicle) [demo_vehicle; demo_vehicle] vs.
Proof.
  apply (query_delivers_list (W := answers list_reply) 1 9 (bytes "A") device_world device_service 5
    query_command list_reply [] (device_answer list_reply query_task)).
  - reflexivity.
  - apply Forall_cons; [exact demo_vehicle_ok|]. apply Forall_cons; [exact demo_vehicle_ok|constructor].
  - reflexivity.
  - reflexivity.
  - vm_compute. discriminate.
  - reflexivity.
  - reflexivity.
  - reflexivity.
  - reflexivity.
  - reflexivity.
  - reflexivity.
  - exact list_reply_shape.
  - reflexivity.
  - reflexivity.
Defined.
End demo.
