(* ===== verification/Recognition.v ===== *)
(** * vzsdk/vzrecognition.cpp and vzsdk/vzconnectdev.cpp: records, images and the connection

    [VzRecognition] fetches records and images, receives plates and resumes missed
    records; [VzConnectDev] connects and disconnects.  The two are joined by
    signals, which are calls of the slots here.  The C struct a reply is parsed
    into starts as whatever it happens to hold: the [garbage] arguments. *)
From Stdlib Require Import String.
From S2P Require Import Prelude Text StdMap ByteOrder ByteBuffer Json Session InternalMessage Task CommandAnalysis PushHandle PushManager SessionManager Client Devices JsonText.

Section recognition.
Context {Address : Type} {HO : Host} {HP : Heap} {JT : DoubleText} {W : Waiting Address}.
Variables (p current : Z).
Abbreviation sdk := (sdk Address).
Abbreviation GetSessionID := (@GetSessionID Address p).

(** ** Records and images *)

(** What [GetRecord] writes through its reference and pointer arguments. *)
Record record_out := mkOut {
  plate_result : TH_PlateResult;
  full_size : Z; fullimage : option (list Z);
  clip_size : Z; clipimage : option (list Z) }.
Definition copy_image (dest : option (list Z)) (res_data : list Z) (off n : Z)
    : outcome (option (list Z)) :=
  match dest with
  | Some dest => r ← memcpy dest (res_data ++ [0]) off n; Done (Some r)
  | None => Done None
  end.
Definition GetRecord (record_id : Z) (need_image : bool) (o : record_out) : sdk (Z * record_out) :=
  session_id ← GetSessionID;
  req_json ← command (GeneratGetRecordByIdCmd record_id need_image nullValue);
  if session_id =? 0 then mret (SESSION_ID_INVALUE, o)
  else
    req_task ← new_task_outcome (fun u => ReqRecordTask_new u DEFAULT_TIMEOUT current session_id req_json);
    msg ← SyncProcessTask req_task;
    if negb (answered msg) then mret (REQ_FAILED, o)
    else of_outcome (
      response ← the_response msg;
      '(value, res_data) ← lift_undefined response;
      '(plate, full, clip) ← ParsePlateResultResponse value (plate_result o) (full_size o) (clip_size o);
      let len := Z.of_nat (length (c_str res_data)) in
      fullimage ← copy_image (fullimage o) res_data (len + 1) full;
      clipimage ← copy_image (clipimage o) res_data (len + full + 1) clip;
      Done (REQ_SUCCEED, mkOut plate full fullimage clip clipimage)).

Definition GetImage (garbage : RECORD_RESPONSE) (image_id : Z) (image_data : list Z) (image_size : Z)
    : sdk (Z * list Z * Z) :=
  req_json ← command (GeneratGetImageByIdCmd image_id nullValue);
  r ← ask p current req_json;
  match r with
  | None => mret (REQ_FAILED, image_data, image_size)
  | Some response => of_outcome (
      '(result, res_data) ← lift_undefined response;
      responese ← ParseRecordResponse result garbage;
      if negb (rr_id responese =? u32 image_id) then Done (REQ_FAILED, image_data, image_size)
      else
        let len := Z.of_nat (length (c_str res_data)) in
        image_data ← memcpy image_data (res_data ++ [0]) (len + 1) (rr_size responese);
        Done (REQ_SUCCEED, image_data, i32 (rr_size responese)))
  end.

Definition ForceTrigger : sdk Z :=
  req_json ← command (GeneratForceTrigger nullValue);
  post_only p current req_json.

Definition GetMaxRecordID (garbage : Z) : sdk Z :=
  req_json ← command (GeneraGetMaxRecordID nullValue);
  r ← ask p current req_json;
  match r with
  | None => mret REQ_FAILED
  | Some response => of_outcome (
      '(result, _) ← lift_undefined response;
      max_id ← ParseMaxRecResponse result garbage;
      Done (i32 max_id))
  end.

(** ** Plates *)
Definition on_ivs (f : IvsPushHandle -> IvsPushHandle) (h : Handle) : Handle :=
  match h with Ivs h => Ivs (f h) | h => h end.
Definition on_resume (f : ResumePushHandle -> ResumePushHandle) (h : Handle) : Handle :=
  match h with Resume h => Resume (f h) | h => h end.
Definition on_change (f : ChangeConnPushHandle -> ChangeConnPushHandle) (h : Handle) : Handle :=
  match h with ChangeConn h => ChangeConn (f h) | h => h end.

Definition ReciveIvsResult (session_id handle : Z) (enable_result : bool) (format : Z)
    (enable_img : bool) (img_type : Z) (sync_task : bool) : sdk Z :=
  if session_id =? 0 then mret SESSION_ID_INVALUE
  else
    req_json ← command (GeneratIVSResult enable_result format enable_img img_type nullValue);
    _ ← AddPushHandle handle;
    req_task ← new_task (fun u => ReqPushTask_new u DEFAULT_TIMEOUT current (i32 session_id) req_json);
    if sync_task then
      msg ← SyncProcessTask req_task;
      mret (if answered msg then REQ_SUCCEED else DEFAULT_RESULT_TIMEOUT)
    else _ ← PostTask req_task; mret REQ_SUCCEED.

Definition SetReciveIvsResultCallback (func : option Z) (enable_image : Z) : sdk Z :=
  _ ← modify_service p (fun s => set_enable_image s (negb (enable_image =? 0)));
  s ← the_service p;
  session_id ← GetSessionID;
  _ ← modify_handle (ivs_handle_ s) (on_ivs (fun h => Ivs_SetSessionID (SetPlateCallBack h func) session_id));
  _ ← AddPushHandle (ivs_handle_ s);
  session_id ← GetSessionID;
  _ ← ReciveIvsResult (u32 session_id) (ivs_handle_ s) true FORMAT_JSON (enable_image_ s)
        FULL_AND_SMALL_IMG true;
  mret REQ_SUCCEED.

Definition SlotRecvChangeConnStatus (status : Z) : sdk unit :=
  if status =? VZ_LPRC_ONLINE then
    session_id ← GetSessionID;
    s ← the_service p;
    _ ← ReciveIvsResult (u32 session_id) (ivs_handle_ s) true FORMAT_JSON (enable_image_ s)
          FULL_AND_SMALL_IMG false;
    mret tt
  else mret tt.

(** ** Resuming missed records *)
Definition ResumeRecord (garbage : Z) : sdk Z :=
  s ← the_service p;
  max_rec_id ← GetMaxRecordID garbage;
  _ ← AddPushHandle (resume_handle_ s);
  _ ← modify_handle (resume_handle_ s) (on_resume (fun h => SetStartMaxRecordID h max_rec_id));
  session_id ← GetSessionID;
  _ ← modify_handle (resume_handle_ s)
        (on_resume (fun h => SetQueueLayer (Resume_SetSessionID h session_id) true));
  _ ← emit (PostedDelayed 5000 (u32 session_id)
              (mkStanza RES_RESUME_TASK_EVENT (u32 session_id) NoBody));
  mret REQ_SUCCEED.
Definition SetResumRecordCallback (garbage : Z) (func : option Z) (enable_image : bool) : sdk unit :=
  _ ← modify_service p (fun s => set_resume_info s func enable_image);
  _ ← ResumeRecord garbage;
  mret tt.
(** The user data and the flag the caller asks for are not returned. *)
Definition GetResumRecodCallback : sdk (option Z) :=
  s ← the_service p;
  _ ← modify_service p (fun s => set_resume_info s (resume_plate_func s) (enable_image_ s));
  mret (resume_plate_func s).
Definition addRecordID (record_id : Z) : sdk unit :=
  s ← the_service p;
  modify_handle (resume_handle_ s) (on_resume (fun h => Resume_AddRecordID h record_id)).
Definition SlotDisConnecting : sdk unit :=
  s ← the_service p; modify_handle (resume_handle_ s) (on_resume DisConnecting).
Definition SlotRecvGetResumeInfo (garbage : Z) : sdk unit :=
  s ← the_service p;
  _ ← modify_handle (resume_handle_ s) (on_resume (fun h => Resume_SetCallBack h (resume_plate_func s)));
  cur_max_id ← GetMaxRecordID garbage;
  modify_handle (resume_handle_ s) (on_resume (fun h => SetCurMaxRecordID h cur_max_id)).

(** ** VzConnectDev *)
Definition ReConnectServer : sdk Z :=
  s ← the_service p;
  match req_connect_data_ptr_ s with
  | None => mret SESSION_ID_INVALUE
  | Some d =>
    let d := set_stanza_type d RES_RECONNECT_EVENT in
    _ ← modify_service p (fun s => set_connect_data s (Some d));
    _ ← emit (PostedStanza RES_RECONNECT_EVENT d);
    mret REQ_SUCCEED
  end.

(** [VzsdkService::GetCommonNotifyCallBack] takes its arguments by value: what its
    caller has stays as it was. *)
Definition VzsdkService_GetCommonNotifyCallBack (func : option Z) : sdk (option Z) :=
  s ← the_service p; mret func.

(** [garbage]: the constructor of [ChangeConnPushHandle] sets neither member. *)
Definition ChangeConn (garbage : option Z) : sdk unit :=
  session_id ← GetSessionID;
  func ← VzsdkService_GetCommonNotifyCallBack None;
  h ← new_handle (PushManager.ChangeConn (SetConnCallBack
        (Change_SetSessionID (mkChangeConn (bytes "change_conn_status") 0 garbage) session_id) func));
  _ ← modify_service p (fun s => set_change_conn s (Some h));
  AddPushHandle h.

Definition set_data_session (id : Z) : sdk unit :=
  modify_service p (fun s => set_connect_data s
    ((fun d => set_session_id d id) <$> req_connect_data_ptr_ s)).
Definition ConnectServer (address : Address) : sdk Z :=
  connect_task ← new_task (fun u => ConnectTask_new u DEFAULT_TIMEOUT current address);
  msg ← SyncProcessTask connect_task;
  _ ← modify_service p (fun s => set_connect_data s (message_data_ connect_task));
  if negb (answered msg) then mret DEFAULT_RESULT_TIMEOUT
  else
    match MessageQueue.pdata msg with
    | None => mret SESSION_ID_INVALUE
    | Some stanze =>
      let new_session_id := i32 (session_id_ stanze) in
      _ ← set_data_session new_session_id;
      state ← GetConnState p;
      if bool_decide (state = CS_CONNECTED) then
        _ ← ReConnectServer;
        _ ← ChangeConn None;
        mret new_session_id
      else
        _ ← set_data_session SESSION_ID_INVALUE;
        mret SESSION_ID_INVALUE
    end.

(** [connected] is whether a [VzRecognition] is still connected to the signal. *)
Definition DisconnectServer (connected : bool) : sdk Z :=
  s ← the_service p;
  d ← of_outcome (lift_undefined (req_connect_data_ptr_ s));
  let session_id := i32 (session_id_ d) in
  if session_id =? SESSION_ID_INVALUE then mret SESSION_ID_INVALUE
  else
    _ ← (if connected then SlotDisConnecting else mret tt);
    disconnect_task ← new_task (fun u => DisconnectTask_new u DEFAULT_TIMEOUT current session_id);
    msg ← SyncProcessTask disconnect_task;
    if negb (answered msg) then mret DEFAULT_RESULT_TIMEOUT
    else
      stanza ← of_outcome (lift_undefined (MessageQueue.pdata msg));
      mret (if stanza_type_ stanza =? RES_DISCONNECTED_EVENT_SUCCEED then REQ_SUCCEED
            else if stanza_type_ stanza =? RES_DISCONNECTED_EVENT_FAILURE then SESSION_NOT_FOUND
            else UNKOWN_ERROR).

Definition VzConnectDev_SetCommonNotifyCallBack (func : option Z) : sdk unit :=
  s ← the_service p;
  h ← of_outcome (lift_undefined (change_conn_pushhandle s));
  modify_handle h (on_change (fun h => SetConnCallBack h func)).
Definition SlotChangeConnStatus (statue : Z) : sdk unit := SlotRecvChangeConnStatus statue.
End recognition.

(** ** Images *)
Section images.
Context {Address : Type} {HO : Host} {HP : Heap} {JT : DoubleText} {W : Waiting Address}.
Variables (p current : Z).
Implicit Types (w : World Address).

Lemma memcpy_part dest pre part post off n :
  off = Z.of_nat (length pre) -> n = Z.of_nat (length part) -> (length part <= length dest)%nat ->
  memcpy dest (pre ++ part ++ post) off n = Done (part ++ drop (length part) dest).
Proof.
  intros -> -> Hl. unfold memcpy. rewrite !length_app, !Nat2Z.id.
  destruct (Z.leb_spec 0 (Z.of_nat (length pre))); [|lia].
  destruct (Z.leb_spec 0 (Z.of_nat (length part))); [|lia].
  destruct (Z.leb_spec (Z.of_nat (length part)) (Z.of_nat (length dest))); [|lia].
  destruct (Z.leb_spec (Z.of_nat (length pre) + Z.of_nat (length part))
    (Z.of_nat (length pre + (length part + length post)))); [|lia].
  cbn [andb]. unfold slice, write_at. rewrite drop_app_length, take_app_length. by cbn.
Qed.
Lemma memcpy_overrun dest src off n : Z.of_nat (length dest) < n -> memcpy dest src off n = Undefined.
Proof.
  intros H. unfold memcpy. destruct (Z.leb_spec n (Z.of_nat (length dest))); [lia|].
  by rewrite andb_false_r.
Qed.

(** The task of [GetRecord]. *)
Definition record_task w (sid : Z) (j : Value) : Task Address :=
  mkTask (ReqRecordTask (u32 sid) (bytes "get_record")) DEFAULT_TIMEOUT (Some current)
    (u32 (i32 (unequal_task_id_ w + 1))) (Some (RequestData sid j false)).

Lemma GetRecord_run w s id b o j msg w1 t reply data :
  find p (services_ w) = Some s -> service_session s <> 0 ->
  GeneratGetRecordByIdCmd id b nullValue = Some j ->
  t = record_task w (service_session s) j -> wait_task t (posted w t) = (msg, w1) ->
  answer_of msg = Done (Some (Some (reply, data))) ->
  GetRecord p current id b o w =
    r ← ('(plate, full, clip) ← ParsePlateResultResponse reply (plate_result o) (full_size o) (clip_size o);
         let len := Z.of_nat (length (c_str data)) in
         fullimage ← copy_image (fullimage o) data (len + 1) full;
         clipimage ← copy_image (clipimage o) data (len + full + 1) clip;
         Done (REQ_SUCCEED, mkOut plate full fullimage clip clipimage));
    Done (r, logs [RemovedTask (task_id_ t)] w1).
Proof.
  intros E Hs Hj Et Hw Ha. unfold GetRecord, command, mbind at 1, sdk_bind at 1.
  rewrite (GetSessionID_run p w s E). unfold mbind at 1, sdk_bind at 1, of_outcome at 1. rewrite Hj. run.
  destruct (Z.eqb_spec (service_session s) 0); [done|].
  unfold mbind at 1, sdk_bind at 1, new_task_outcome, ReqRecordTask_new.
  assert (Hc : index_const j "cmd" = Some (str "get_record")) by by injection Hj as <-.
  rewrite Hc. run. unfold asString, Task_new. change (c_str (bytes "get_record")) with (bytes "get_record"). run.
  cbn [default]. fold (record_task w (service_session s) j). rewrite <- Et.
  unfold mbind at 1, sdk_bind at 1. fold (posted w t).
  rewrite (SyncProcessTask_run t _ msg w1) by exact Hw.
  unfold answer_of in Ha. destruct (answered msg); [|done]. cbn [negb].
  destruct (the_response msg) as [r| |]; run; [|done..]. cbn in Ha. injection Ha as ->.
  unfold of_outcome. by run.
Qed.

(** C17. A reply whose data is a text, a NUL and the images: the two images arrive in
    the client's arrays, whole and nothing else, if the arrays are large enough;
    a full image that is larger than its array is written past the end. *)
Theorem record_images w s id b o j msg w1 t reply text full clip plate fb cb :
  find p (services_ w) = Some s -> service_session s <> 0 ->
  GeneratGetRecordByIdCmd id b nullValue = Some j ->
  t = record_task w (service_session s) j -> wait_task t (posted w t) = (msg, w1) ->
  answer_of msg = Done (Some (Some (reply, text ++ 0 :: full ++ clip))) -> no_nul text ->
  ParsePlateResultResponse reply (plate_result o) (full_size o) (clip_size o) =
    Done (plate, Z.of_nat (length full), Z.of_nat (length clip)) ->
  fullimage o = Some fb -> clipimage o = Some cb ->
  ((length full <= length fb)%nat -> (length clip <= length cb)%nat ->
   GetRecord p current id b o w =
     Done ((REQ_SUCCEED, mkOut plate (Z.of_nat (length full)) (Some (full ++ drop (length full) fb))
                           (Z.of_nat (length clip)) (Some (clip ++ drop (length clip) cb))),
           logs [RemovedTask (task_id_ t)] w1)) /\
  ((length fb < length full)%nat -> GetRecord p current id b o w = Undefined).
Proof.
  intros E Hs Hj Et Hw Ha Hn Hp Hf Hc.
  rewrite (GetRecord_run w s id b o j msg w1 t reply _ E Hs Hj Et Hw Ha), Hp. run. rewrite Hf, Hc.
  rewrite (c_str_app text (0 :: full ++ clip)) by done. cbn [c_str]. rewrite Z.eqb_refl, app_nil_r.
  unfold copy_image. split; [intros H1 H2|intros H1].
  - replace ((text ++ 0 :: full ++ clip) ++ [0]) with ((text ++ [0]) ++ full ++ (clip ++ [0]))
      by (rewrite <- !app_assoc; cbn; by rewrite <- !app_assoc).
    rewrite (memcpy_part fb (text ++ [0]) full) by (rewrite ?length_app; cbn; lia). run.
    rewrite (app_assoc (text ++ [0])).
    rewrite (memcpy_part cb _ clip) by (rewrite ?length_app; cbn; lia). by run.
  - by rewrite (memcpy_overrun fb) by lia.
Qed.
End images.


(** ** A connection that is not there *)
Section lost.
Context {Address : Type} {HO : Host} {HP : Heap} {JT : DoubleText} {W : Waiting Address}.
Variables (p current : Z).
Implicit Types (w : World Address).

(** When the device does not say what its largest record is, [ResumeRecord] takes
    the error code [REQ_FAILED] for a record id: the records after -4 are the ones
    it will fetch.  The call still reports success. *)
Theorem resume_from_error_code w s j w1 msg t garbage h :
  find p (services_ w) = Some s -> service_session s <> 0 ->
  GeneraGetMaxRecordID nullValue = Some j ->
  t = req_task current w (service_session s) (bytes "get_max_rec_id") j ->
  wait_task t (posted w t) = (msg, w1) -> answered msg = false ->
  find p (services_ w1) = Some s -> find (resume_handle_ s) (handles_ w1) = Some (Resume h) ->
  exists w' h', ResumeRecord p current garbage w = Done (REQ_SUCCEED, w') /\
    find (resume_handle_ s) (handles_ w') = Some (Resume h') /\ max_record_id_ h' = -4 /\
    resume_session_id h' = u32 (service_session s).
Proof.
  intros E Hs Hj Et Hw Ha E1 Hh. unfold ResumeRecord, GetMaxRecordID, command, the_service. go. rewrite E. run.
  rewrite Hj. run. rewrite (ask_run p current w s j "get_max_rec_id" msg w1 t);
    [|done|done|by injection Hj as <-|done|done|done].
  unfold answer_of. rewrite Ha. run. unfold AddPushHandle, modify_handle. go.
  rewrite (GetSessionID_run p _ s) by exact E1. do 2 eexists. split; [reflexivity|]. cbn [handles_ logs set_handles].
  rewrite !find_update, Z.eqb_refl. change (handles_ (logs _ _)) with (handles_ w1). cbn [handles_ logs].
  rewrite Hh. cbn. by repeat split.
Qed.

(** Whatever callback the client has set, a new connection starts without one:
    [GetCommonNotifyCallBack] assigns to copies of the caller's variables. *)
Theorem connection_has_no_callback w s garbage :
  find p (services_ w) = Some s -> sorted (handles_ w) -> find (next_ w) (handles_ w) = None ->
  exists w' s' id h, ChangeConn p garbage w = Done (tt, w') /\ find p (services_ w') = Some s' /\
    change_conn_pushhandle s' = Some id /\ find id (handles_ w') = Some (PushManager.ChangeConn h) /\
    conn_callback_ h = None /\ service_conn_callback_ s' = service_conn_callback_ s.
Proof.
  intros E Hso Hn. unfold ChangeConn, VzsdkService_GetCommonNotifyCallBack, AddPushHandle, modify_service, new_handle.
  go. rewrite (GetSessionID_run p w s E). unfold the_service. go. rewrite E. cbn -[update].
  do 4 eexists. split; [reflexivity|]. cbn -[update]. rewrite find_update, Z.eqb_refl, E.
  split; [reflexivity|]. split; [reflexivity|]. rewrite find_insert, Z.eqb_refl, Hn by done. by repeat split.
Qed.
End lost.

(** ** Concrete runs *)
Section demo.
Local Existing Instances little_endian zero_heap demo_double.

Definition image_text : list Z := [123; 125].
Definition record_reply : Value :=
  objectValue [("PlateResult", objectValue []); ("clipImgSize", uintValue 2); ("fullImgSize", uintValue 3)]%string.
Definition record_waiting : Waiting Z := fun t w =>
  (MessageQueue.mkMessage (Some (task_id_ t)) (task_id_ t)
     (Some (ResponseData 2 record_reply (image_text ++ 0 :: [1; 0; 3] ++ [4; 5]))) 0, w).
Definition no_answer : Waiting Z := fun t w => (MessageQueue.Message_null, w).
Definition record_command : Value := default nullValue (GeneratGetRecordByIdCmd 7 true nullValue).
Definition record_in : record_out := mkOut empty_plate 0 (Some [9; 9; 9; 9]) 0 (Some [8; 8]).

Lemma record_images_witness :
  GetRecord (W := record_waiting) 1 9 7 true record_in device_world =
    Done ((REQ_SUCCEED, mkOut empty_plate 3 (Some [1; 0; 3; 9]) 2 (Some [4; 5])),
          logs [RemovedTask 2] (posted device_world (record_task 9 device_world 2 record_command))).
Proof.
  apply (record_images (W := record_waiting) 1 9 device_world device_service 7 true record_in record_command
    (record_waiting (record_task 9 device_world 2 record_command) device_world).1
    (posted device_world (record_task 9 device_world 2 record_command))
    (record_task 9 device_world 2 record_command) record_reply image_text [1; 0; 3] [4; 5] empty_plate
    [9; 9; 9; 9] [8; 8]); try reflexivity.
  - vm_compute. discriminate.
  - repeat constructor; discriminate.
  - cbn. lia.
Defined.

Definition resume_world : World Z :=
  mkWorld 1 12 [(11, Resume (ResumePushHandle_new (bytes "resume_rec") 0 0))] [(1, device_service)]
    demo_manager None 0 None [].
Lemma resume_from_error_code_witness :
  exists w' h', ResumeRecord (W := no_answer) 1 9 77 resume_world = Done (REQ_SUCCEED, w') /\
    find 11 (handles_ w') = Some (Resume h') /\ max_record_id_ h' = -4 /\ resume_session_id h' = 2.
Proof.
  apply (resume_from_error_code (W := no_answer) 1 9 resume_world device_service
    (default nullValue (GeneraGetMaxRecordID nullValue))
    (posted resume_world (req_task 9 resume_world 2 (bytes "get_max_rec_id")
       (default nullValue (GeneraGetMaxRecordID nullValue))))
    MessageQueue.Message_null
    (req_task 9 resume_world 2 (bytes "get_max_rec_id") (default nullValue (GeneraGetMaxRecordID nullValue)))
    77 (ResumePushHandle_new (bytes "resume_rec") 0 0)); try reflexivity.
  vm_compute. discriminate.
Defined.

Lemma connection_has_no_callback_witness :
  exists w' s' id h, ChangeConn 1 None device_world = Done (tt, w') /\ find 1 (services_ w') = Some s' /\
    change_conn_pushhandle s' = Some id /\ find id (handles_ w') = Some (PushManager.ChangeConn h) /\
    conn_callback_ h = None /\ service_conn_callback_ s' = None.
Proof.
  apply (connection_has_no_callback 1 device_world device_service None); [reflexivity|constructor|reflexivity].
Defined.
End demo.
