(* ===== verification/DeviceManage.v ===== *)
(** * vzsdk/vzsdkservice.cpp, vztcpdevicemanage.cpp and vzlprtcpsdk.cpp: services and the exported functions

    A service is the devices of one connection; the manager keeps the services by
    session id; the exported [VzLPRTcp_*] functions look a service up by its
    handle, which is the session id, and call a device.  The class [AddressText] stands for the address classes; [garbage] and the like are members that no constructor sets.  A
    pointer argument that may be null is an [option]. *)
From Stdlib Require Import String.
From S2P Require Import Stream StreamAdapters FileOpening.
From S2P Require Import Prelude Text StdMap ByteOrder ByteBuffer Json Session InternalMessage Task CommandAnalysis PushHandle PushManager SessionManager Client Devices Recognition.

Definition VZ_LPRC_LASTERROR_NOT_SETUP : Z := 1.
Definition VZ_LPRC_LASTERROR_CREATE_FAILED : Z := 2.
Definition VZ_LPRC_LASTERROR_INVALID_HANDLE : Z := 4.
Definition VZ_LPRC_LASTERROR_INVALID_IP : Z := 5.
Definition VZ_LPRC_LASTERROR_INVALID_PSTATUS : Z := 7.
Definition VZ_LPRC_LASTERROR_GETDEVICE_ERROR : Z := 37.
Definition VZ_LPRC_LASTERROR_INVALID_PARAM : Z := 38.
Definition _vzsdk_success : Z := 0.
Definition _vzsdk_failed : Z := -1.

(** The address classes as their client sees them: the constructor from an IP and a port, and the text of
    the IP.  DeviceAddress.v has the instance. *)
Class AddressText (Address : Type) := {
  SocketAddress : list Z -> Z -> outcome Address;
  ipaddr : Address -> outcome (list Z) }.

(** What members that no constructor sets happen to hold. *)
Class Indeterminate := {
  garbage : Z; garbage_callback : option Z; garbage_record : RECORD_RESPONSE }.

Section manage.
Context {Address : Type} {HO : Host} {HP : Heap} {JT : DoubleText} {W : Waiting Address}.
Context {AT : AddressText Address} {IN : Indeterminate}.
Variables (current : Z).
Abbreviation sdk := (sdk Address).

(** ** VzsdkService *)

(** The constructor and [Start], which makes the devices. *)
Definition initModule : sdk Z :=
  ivs ← new_handle (Ivs (mkIvs (bytes "ivs_result") None false SESSION_ID_INVALUE));
  resume ← new_handle (Resume (ResumePushHandle_new (bytes "resume_rec") garbage garbage));
  new_service (mkService None None ivs false resume false garbage_callback None None).
Definition VzsdkService_Stop (p : Z) : sdk unit := _ ← DisconnectServer p current true; mret tt.
Definition VzsdkService_SetCommonNotifyCallBack (p : Z) (func : option Z) : sdk unit :=
  modify_service p (fun s => set_conn_callback s func).
Definition VzsdkService_RemovePushHandle (h : Z) : sdk unit := emit (RemovedPushHandle h).
(** The destructors of the service and of its [VzConnectDev]; the [VzRecognition]
    is destroyed in between. *)
Definition delete_service (p : Z) : sdk unit :=
  _ ← VzsdkService_Stop p;
  _ ← DisconnectServer p current false;
  modify (fun w => set_services (next_ w) (erase p (services_ w)) w).
Definition GetIP (p : Z) : sdk (list Z) :=
  s ← the_service p;
  of_outcome (d ← lift_undefined (req_connect_data_ptr_ s); a ← connect_address d; ipaddr a).

(** ** VzTcpDeviceManage *)
Definition the_manage : sdk VzTcpDeviceManage :=
  fun w => m ← lift_undefined (vztcp_device_manage w); Done (m, w).
Definition set_service_map (f : list (Z * Z) -> list (Z * Z)) : sdk unit :=
  m ← the_manage;
  modify (set_manage (Some (mkManage (f (vzsdk_service_map_ m)) (manage_conn_callback_ m)))).

Definition ExistService (session_id : Z) : sdk bool :=
  m ← the_manage; mret (bool_decide (is_Some (find session_id (vzsdk_service_map_ m)))).
Definition GetService (session_id : Z) : sdk (option Z) :=
  m ← the_manage; mret (find session_id (vzsdk_service_map_ m)).
Fixpoint GetService_ip_loop (ip : list Z) (l : list (Z * Z)) : sdk (option Z) :=
  match l with
  | [] => mret None
  | (_, p) :: l =>
    ip' ← GetIP p;
    if bool_decide (ip = ip') then mret (Some p) else GetService_ip_loop ip l
  end.
Definition GetService_ip (ip : list Z) : sdk (option Z) :=
  m ← the_manage; GetService_ip_loop ip (vzsdk_service_map_ m).

(** [erase] destroys the service when no other pointer to it is left. *)
Definition RemoveService (session_id : Z) : sdk bool :=
  p ← GetService session_id;
  match p with
  | None => mret false
  | Some p => _ ← set_service_map (erase session_id); _ ← delete_service p; mret true
  end.

Definition CreateNewService (ip : list Z) (port : Z) : sdk Z :=
  p ← initModule;
  _ ← the_manage;
  remote_address ← of_outcome (SocketAddress ip (u16 port));
  session_id ← ConnectServer p current remote_address;
  m ← the_manage;
  if negb (session_id =? SESSION_ID_INVALUE) then
    _ ← VzsdkService_SetCommonNotifyCallBack p (manage_conn_callback_ m);
    exist ← ExistService session_id;
    _ ← (if (exist : bool) then delete_service p
         else set_service_map (insert session_id p));
    mret session_id
  else
    _ ← VzsdkService_Stop p;
    _ ← delete_service p;
    mret session_id.

Definition CloseService (session_id : Z) : sdk bool :=
  p ← GetService session_id;
  match p with
  | None => mret false
  | Some p => _ ← VzsdkService_Stop p; _ ← RemoveService session_id; mret true
  end.

Fixpoint notify_all (func : option Z) (l : list (Z * Z)) : sdk unit :=
  match l with
  | [] => mret tt
  | (_, p) :: l =>
    _ ← VzsdkService_SetCommonNotifyCallBack p func;
    _ ← VzConnectDev_SetCommonNotifyCallBack p func;
    notify_all func l
  end.
Definition SetCommonNotifyCallBack (func : option Z) : sdk unit :=
  m ← the_manage;
  _ ← modify (set_manage (Some (mkManage (vzsdk_service_map_ m) func)));
  notify_all func (vzsdk_service_map_ m).

(** [vzsdk_service_map_.clear()]. *)
Fixpoint delete_all (l : list (Z * Z)) : sdk unit :=
  match l with
  | [] => mret tt
  | (_, p) :: l => _ ← delete_service p; delete_all l
  end.
Definition VzTcpDeviceManage_Stop : sdk unit :=
  m ← the_manage;
  _ ← delete_all (vzsdk_service_map_ m);
  set_service_map (fun _ => []).

(** ** The exported functions *)
Definition SetLastError (ret eLastErrorType : Z) : sdk unit :=
  if ret =? _vzsdk_success then mret tt else modify (set_error eLastErrorType).
Definition CheckManage : sdk bool :=
  setup ← gets (fun w => bool_decide (is_Some (vztcp_device_manage w)));
  let ret := if (setup : bool) then _vzsdk_success else _vzsdk_failed in
  _ ← SetLastError ret VZ_LPRC_LASTERROR_NOT_SETUP;
  mret (ret =? _vzsdk_success).
Definition CheckDevice (handle : Z) : sdk bool :=
  exist_manage ← CheckManage;
  if (exist_manage : bool) then
    serveres ← GetService handle;
    match serveres with
    | Some _ => mret true
    | None => _ ← SetLastError _vzsdk_failed VZ_LPRC_LASTERROR_INVALID_HANDLE; mret exist_manage
    end
  else mret exist_manage.

Definition VzLPRTcp_Setup : sdk Z :=
  _ ← modify (set_manage (Some (mkManage [] None))); mret _vzsdk_success.
Definition VzLPRTcp_Cleanup : sdk unit :=
  setup ← gets vztcp_device_manage;
  match setup with
  | None => mret tt
  | Some _ =>
    _ ← VzTcpDeviceManage_Stop;
    _ ← VzTcpDeviceManage_Stop;
    modify (set_manage None)
  end.

Definition VzLPRTcp_Open (ip : list Z) (port : Z) : sdk Z :=
  ret ← CreateNewService ip port;
  _ ← SetLastError ret VZ_LPRC_LASTERROR_CREATE_FAILED;
  mret (if 0 <? ret then ret else 0).
Definition VzLPRTcp_Close (handle : Z) : sdk Z :=
  ok ← CheckDevice handle;
  if negb ok then mret _vzsdk_failed
  else closed ← CloseService handle; mret (if (closed : bool) then _vzsdk_success else _vzsdk_failed).
Definition VzLPRTcp_CloseByIP (ip : list Z) : sdk Z :=
  serveres ← GetService_ip ip;
  ret ← match serveres with
        | Some p =>
          session_id ← GetSessionID p;
          if negb (session_id =? NULL_SESSION_ID) then VzLPRTcp_Close session_id else mret _vzsdk_failed
        | None => mret _vzsdk_failed
        end;
  _ ← SetLastError ret VZ_LPRC_LASTERROR_INVALID_IP;
  mret ret.

(** Most functions: [fail] when the manager or the device is not there. *)
Definition with_device {A} (handle : Z) (fail : A) (call : Z -> sdk A) : sdk A :=
  ok ← CheckDevice handle;
  if negb ok then mret fail
  else serveres ← GetService handle;
       match serveres with Some p => call p | None => mret fail end.

(** What [pSN] points to; the copy does not end it with a NUL. *)
Definition VzLPRTcp_GetDeviceSN (handle : Z) (pSN : option (list Z)) : sdk (Z * option (list Z)) :=
  ok ← CheckDevice handle;
  if negb ok then mret (_vzsdk_failed, pSN)
  else
    match pSN with
    | None => _ ← SetLastError _vzsdk_failed VZ_LPRC_LASTERROR_INVALID_PARAM; mret (_vzsdk_failed, pSN)
    | Some sn =>
      serveres ← GetService handle;
      '(ret, sn) ← match serveres with
        | Some p =>
          '(ret, device_sn) ← GetDeviceSN p current [];
          if ret =? _vzsdk_success then
            sn ← of_outcome (memcpy sn device_sn 0 (Z.of_nat (length device_sn))); mret (ret, sn)
          else mret (ret, sn)
        | None => mret (_vzsdk_failed, sn)
        end;
      _ ← SetLastError ret VZ_LPRC_LASTERROR_GETDEVICE_ERROR;
      mret (ret, Some sn)
    end.
Definition VzLPRTcp_IsConnected (handle : Z) (pStatus : option Z) : sdk (Z * option Z) :=
  ok ← CheckDevice handle;
  if negb ok then mret (_vzsdk_failed, pStatus)
  else
    match pStatus with
    | None => _ ← SetLastError _vzsdk_failed VZ_LPRC_LASTERROR_INVALID_PARAM; mret (_vzsdk_failed, pStatus)
    | Some status =>
      serveres ← GetService handle;
      '(ret, status) ← match serveres with
        | Some p => conn_state ← GetConnState p;
            mret (_vzsdk_success, if bool_decide (conn_state = CS_CONNECTED) then 1 else 0)
        | None => mret (_vzsdk_failed, status)
        end;
      _ ← SetLastError ret VZ_LPRC_LASTERROR_INVALID_PSTATUS;
      mret (ret, Some status)
    end.
Definition VzLPRTcp_SetPlateInfoCallBack (handle : Z) (func : option Z) (bEnableImage : Z) : sdk Z :=
  with_device handle _vzsdk_failed (fun p => SetReciveIvsResultCallback p current func bEnableImage).
(** With the file that was written, [fopen] and [CFile] being the C library. *)
Definition VzLPRTcp_ImageSaveToJpeg {F : Type} `{CFile F} (fopen : list Z -> list Z -> option F) (pImgBuf : option (list Z))
    (nImgSize : Z) (pSavePathName : option (list Z)) : sdk (Z * option F) :=
  match pImgBuf, pSavePathName with
  | Some buf, Some path =>
    if (nImgSize <=? 0) || (length (c_str path) =? 0)%nat then
      _ ← SetLastError _vzsdk_failed VZ_LPRC_LASTERROR_INVALID_PARAM; mret (_vzsdk_failed, None)
    else if Z.of_nat (length buf) <? nImgSize then of_outcome Undefined
    else
      let '(_write_ret, file) := WriteFile fopen (c_str path) (take (Z.to_nat nImgSize) buf) in
      mret (if _write_ret : bool then _vzsdk_success else _vzsdk_failed, file)
  | _, _ => _ ← SetLastError _vzsdk_failed VZ_LPRC_LASTERROR_INVALID_PARAM; mret (_vzsdk_failed, None)
  end.
Definition VzLPRTcp_ForceTrigger (handle : Z) : sdk Z :=
  with_device handle _vzsdk_failed (fun p => ForceTrigger p current).
Definition VzLPRTcp_GetLastError : sdk Z := gets g_LastError.
Definition VzLPRTcp_LoadRecordById (handle id : Z) (pResult : TH_PlateResult) : sdk (Z * TH_PlateResult) :=
  ok ← CheckDevice handle;
  if negb ok then mret (_vzsdk_failed, pResult)
  else
    serveres ← GetService handle;
    match serveres with
    | Some p =>
      '(ret, o) ← GetRecord p current id false (mkOut pResult garbage None garbage None);
      mret (ret, plate_result o)
    | None => _ ← SetLastError _vzsdk_failed VZ_LPRC_LASTERROR_INVALID_HANDLE; mret (_vzsdk_failed, pResult)
    end.
(** The static local is initialised by the first call that reaches it. *)
Definition VzLPRTcp_GetIP (handle : Z) : sdk (option (list Z)) :=
  with_device handle None (fun p =>
    ip ← gets device_ip_;
    match ip with
    | Some ip => mret (Some (c_str ip))
    | None => ip ← GetIP p; _ ← modify (set_device_ip (Some ip)); mret (Some (c_str ip))
    end).
Definition VzLPRTcp_SetCommonNotifyCallBack (func : option Z) : sdk Z :=
  ok ← CheckManage;
  if negb ok then mret _vzsdk_failed else _ ← SetCommonNotifyCallBack func; mret _vzsdk_failed.
Definition VzLPRTcp_LoadImageById (handle id : Z) (pdata : option (list Z)) (size : option Z)
    : sdk (Z * option (list Z) * option Z) :=
  ok ← CheckDevice handle;
  if negb ok then mret (_vzsdk_failed, pdata, size)
  else
    match pdata, size with
    | Some data, Some n =>
      serveres ← GetService handle;
      match serveres with
      | Some p =>
        '(ret, data, n) ← GetImage p current garbage_record id data n;
        mret (ret, Some data, Some n)
      | None => mret (_vzsdk_failed, pdata, size)
      end
    | _, _ => _ ← SetLastError _vzsdk_failed VZ_LPRC_LASTERROR_INVALID_PARAM;
              mret (_vzsdk_failed, pdata, size)
    end.
Definition VzLPRTcp_SerialStart (handle nSerialPort : Z) (func : option Z) : sdk Z :=
  with_device handle _vzsdk_failed (fun p =>
    ret ← SerialStart p current (u32 nSerialPort);
    _ ← VzSerialDev_SetSerialRecvCallBack func;
    mret ret).
Definition VzLPRTcp_SerialSend (handle nSerialPort : Z) (pData : list Z) : sdk Z :=
  with_device handle _vzsdk_failed (fun p => SerialSend p current (u32 nSerialPort) pData).
Definition VzLPRTcp_SerialStop (handle : Z) : sdk Z :=
  with_device handle _vzsdk_failed (fun p => SerialStop p current).
Definition VzLPRTcp_SetIOOutputAuto (handle uChnId nDuration : Z) : sdk Z :=
  with_device handle _vzsdk_failed (fun p => SetIOOutputAuto p current uChnId nDuration).
Definition VzLPRTcp_SetIOOutput (handle uChnId nOutput : Z) : sdk Z :=
  with_device handle _vzsdk_failed (fun p => SetIOOutput p current uChnId nOutput).
Definition VzLPRTcp_GetGPIOValue (handle gpioIn value : Z) : sdk (Z * Z) :=
  with_device handle (_vzsdk_failed, value) (fun p => GetGPIOValue p current gpioIn value).
Definition VzLPRTcp_SetOfflineCheck (handle : Z) : sdk Z :=
  with_device handle _vzsdk_failed (fun p => SetOfflineCheck p current).
Definition VzLPRTcp_CancelOfflineCheck (handle : Z) : sdk Z :=
  with_device handle _vzsdk_failed (fun p => CancelOfflineCheck p current).
Definition VzLPRTcp_ImportWlistVehicle (handle : Z) (pWlist : VZ_LPR_WLIST_VEHICLE) : sdk Z :=
  with_device handle _vzsdk_failed (fun p => ImportWlistVehicle p current pWlist).
Definition VzLPRTcp_DeleteWlistVehicle (handle : Z) (plateCode : list Z) : sdk Z :=
  with_device handle _vzsdk_failed (fun p => DeleteWlistVehicle p current plateCode).
Definition VzLPRTcp_QueryWlistVehicle (handle : Z) (plateCode : list Z) : sdk Z :=
  with_device handle _vzsdk_failed (fun p => QueryWlistVehicle p current plateCode).
Definition VzLPRTcp_SetWlistInfoCallBack (handle : Z) (func : option Z) : sdk Z :=
  with_device handle _vzsdk_failed (fun p => _ ← SetWlistRecvCallBack p func; mret _vzsdk_success).
(** The function ends without a [return] when the device check passes. *)
Definition VzLPRTcp_SetOfflinePlateInfoCallBack (handle : Z) (func : option Z) (bEnableImage : Z) : sdk Z :=
  ok ← CheckDevice handle;
  if negb ok then mret _vzsdk_failed
  else
    serveres ← GetService handle;
    _ ← match serveres with
        | Some p => SetResumRecordCallback p current garbage func (negb (bEnableImage =? 0))
        | None => mret tt
        end;
    of_outcome Undefined.
End manage.
