(* ===== verification/Registry.v ===== *)
(** * The registry of services: invariant of every exported call

    The service map of the manager has every service under its own session id,
    and its pointers lead to live services.  Every exported function keeps it so,
    whatever devices answer; what the functions return for a handle that is not
    open, and opening and closing, are stated here too. *)
From Stdlib Require Import String Sorted.
From S2P Require Import Prelude Text StdMap ByteOrder ByteBuffer MessageQueue Json Session InternalMessage Task CommandAnalysis PushHandle PushManager SessionManager Client Devices Recognition DeviceManage JsonText.

Section registry.
Context {Address : Type} {HO : Host} {HP : Heap} {JT : DoubleText} {W : Waiting Address}.
Context {AT : AddressText Address} {IN : Indeterminate}.
Variables (current : Z).
Abbreviation sdk := (sdk Address).
Abbreviation World := (World Address).
Implicit Types (w : World) (P : World -> Prop).

(** ** The devices leave the registry alone *)
Section devices_keep.
Context {QW : QuietWaiting Address}.
Variables (P : World -> Prop).
Hypothesis HS : stable P.
Lemma GetSessionID_keeps p : keeps P (GetSessionID p).
Proof. unfold GetSessionID. keeps_tac. Qed.
Hint Resolve GetSessionID_keeps : sdk.
Lemma GetConnState_keeps p : keeps P (GetConnState p).
Proof. unfold GetConnState. keeps_tac. Qed.
Hint Resolve GetConnState_keeps : sdk.
Lemma PostReqTask_keeps p j : keeps P (PostReqTask p current j).
Proof. unfold PostReqTask, GetIsConn. keeps_tac. Qed.
Lemma ask_keeps p j : keeps P (ask p current j).
Proof. unfold ask, SyncProcessReqTask. keeps_tac. Qed.
Hint Resolve PostReqTask_keeps ask_keeps : sdk.
Lemma post_only_keeps p j : keeps P (post_only p current j).
Proof. unfold post_only. keeps_tac. Qed.
Lemma ask_then_keeps p j read : keeps P (ask_then p current j read).
Proof. unfold ask_then. keeps_tac. Qed.
Lemma command_keeps v : keeps P (command v).
Proof. unfold command. keeps_tac. Qed.
Hint Resolve post_only_keeps ask_then_keeps command_keeps : sdk.
Lemma query_loop_keeps f sid v n i : keeps P (query_loop f sid v i n).
Proof. revert i. induction n as [|n IH]; intros i; cbn [query_loop]; keeps_tac. Qed.
Hint Resolve query_loop_keeps : sdk.

Lemma SetIOOutputAuto_keeps p c d : keeps P (SetIOOutputAuto p current c d).
Proof. unfold SetIOOutputAuto. keeps_tac. Qed.
Lemma SetIOOutput_keeps p c o : keeps P (SetIOOutput p current c o).
Proof. unfold SetIOOutput. keeps_tac. Qed.
Lemma GetGPIOValue_keeps p g v : keeps P (GetGPIOValue p current g v).
Proof. unfold GetGPIOValue. keeps_tac. Qed.
Lemma SetOfflineCheck_keeps p : keeps P (SetOfflineCheck p current).
Proof. unfold SetOfflineCheck. keeps_tac. Qed.
Lemma CancelOfflineCheck_keeps p : keeps P (CancelOfflineCheck p current).
Proof. unfold CancelOfflineCheck. keeps_tac. Qed.
Lemma SerialStart_keeps p n : keeps P (SerialStart p current n).
Proof. unfold SerialStart. keeps_tac. Qed.
Lemma SerialSend_keeps p n d : keeps P (SerialSend p current n d).
Proof. unfold SerialSend. keeps_tac. Qed.
Lemma SerialStop_keeps p : keeps P (SerialStop p current).
Proof. unfold SerialStop. keeps_tac. Qed.
Lemma SetSerialRecvCallBack_keeps f : keeps P (VzSerialDev_SetSerialRecvCallBack f).
Proof. unfold VzSerialDev_SetSerialRecvCallBack, AddPushHandle. keeps_tac. Qed.
Lemma ImportWlistVehicle_keeps p v : keeps P (ImportWlistVehicle p current v).
Proof. unfold ImportWlistVehicle. keeps_tac. Qed.
Lemma DeleteWlistVehicle_keeps p c : keeps P (DeleteWlistVehicle p current c).
Proof. unfold DeleteWlistVehicle. keeps_tac. Qed.
Lemma QueryWlistVehicle_keeps p c : keeps P (QueryWlistVehicle p current c).
Proof. unfold QueryWlistVehicle. keeps_tac. Qed.
Lemma SetWlistRecvCallBack_keeps p f : keeps P (SetWlistRecvCallBack p f).
Proof. unfold SetWlistRecvCallBack. keeps_tac. Qed.
Lemma GetDeviceSN_keeps p sn : keeps P (GetDeviceSN p current sn).
Proof. unfold GetDeviceSN. keeps_tac. Qed.
Lemma GetRecord_keeps p id b o : keeps P (GetRecord p current id b o).
Proof. unfold GetRecord. keeps_tac. Qed.
Lemma GetImage_keeps p g id d n : keeps P (GetImage p current g id d n).
Proof. unfold GetImage. keeps_tac. Qed.
Lemma ForceTrigger_keeps p : keeps P (ForceTrigger p current).
Proof. unfold ForceTrigger. keeps_tac. Qed.
Lemma GetMaxRecordID_keeps p g : keeps P (GetMaxRecordID p current g).
Proof. unfold GetMaxRecordID. keeps_tac. Qed.
Lemma ReciveIvsResult_keeps sid h b f e i s : keeps P (ReciveIvsResult current sid h b f e i s).
Proof. unfold ReciveIvsResult, AddPushHandle, PostTask. keeps_tac. Qed.
Hint Resolve GetMaxRecordID_keeps ReciveIvsResult_keeps : sdk.
Lemma SetReciveIvsResultCallback_keeps p f e : keeps P (SetReciveIvsResultCallback p current f e).
Proof. unfold SetReciveIvsResultCallback, AddPushHandle. keeps_tac. Qed.
Lemma SetResumRecordCallback_keeps p g f e : keeps P (SetResumRecordCallback p current g f e).
Proof. unfold SetResumRecordCallback, ResumeRecord, AddPushHandle. keeps_tac. Qed.
Lemma ReConnectServer_keeps p : keeps P (ReConnectServer p).
Proof.
  unfold ReConnectServer. intros w a w' Hw. unfold mbind, sdk_bind at 1, the_service.
  destruct (find p (services_ w)) as [s|] eqn:E; [|done]. cbn -[update].
  destruct (req_connect_data_ptr_ s) as [d|] eqn:Ed; [|by intros [= _ <-]].
  cbn -[update]. intros [= _ <-]. eapply HS; [|exact Hw]. constructor; cbn; [| |lia|done].
  - unfold update. rewrite map_map. apply map_ext. intros e. by destruct (e.1 =? p).
  - intros q. rewrite find_update. destruct (Z.eqb_spec p q) as [<-|]; [|done].
    rewrite E. cbn. unfold service_session. by rewrite Ed.
Qed.
Lemma ChangeConn_keeps p g : keeps P (ChangeConn p g).
Proof. unfold ChangeConn, AddPushHandle, VzsdkService_GetCommonNotifyCallBack. keeps_tac. Qed.
Lemma SlotDisConnecting_keeps p : keeps P (SlotDisConnecting p).
Proof. unfold SlotDisConnecting. keeps_tac. Qed.
Hint Resolve SlotDisConnecting_keeps : sdk.
Lemma DisconnectServer_keeps p b : keeps P (DisconnectServer p current b).
Proof. unfold DisconnectServer. keeps_tac. Qed.
Lemma notify_keeps p f : keeps P (VzConnectDev_SetCommonNotifyCallBack p f).
Proof. unfold VzConnectDev_SetCommonNotifyCallBack. keeps_tac. Qed.
Lemma GetIP_keeps p : keeps P (GetIP p).
Proof. unfold GetIP. keeps_tac. Qed.
End devices_keep.
Hint Resolve GetSessionID_keeps GetConnState_keeps SetIOOutputAuto_keeps SetIOOutput_keeps GetGPIOValue_keeps
  SetOfflineCheck_keeps CancelOfflineCheck_keeps SerialStart_keeps SerialSend_keeps SerialStop_keeps
  SetSerialRecvCallBack_keeps ImportWlistVehicle_keeps DeleteWlistVehicle_keeps QueryWlistVehicle_keeps
  SetWlistRecvCallBack_keeps GetDeviceSN_keeps GetRecord_keeps GetImage_keeps ForceTrigger_keeps
  SetReciveIvsResultCallback_keeps SetResumRecordCallback_keeps ReConnectServer_keeps ChangeConn_keeps
  DisconnectServer_keeps notify_keeps GetIP_keeps : sdk.

(** ** The invariant *)
Definition session_of w (p : Z) : option Z := service_session <$> find p (services_ w).

(** Every entry of the map has the session id of the live service it points to. *)
Definition entry_ok w (e : Z * Z) : Prop := session_of w e.2 = Some e.1 /\ e.1 <> SESSION_ID_INVALUE.
Record registry_ok w : Prop := {
  ro_sorted : sorted (services_ w);
  ro_next : Forall (fun e => e.1 < next_ w) (services_ w);
  ro_map m : vztcp_device_manage w = Some m ->
    sorted (vzsdk_service_map_ m) /\ Forall (entry_ok w) (vzsdk_service_map_ m) }.
(** A service that exists and is not in the map. *)
Definition unregistered (p : Z) w : Prop :=
  is_Some (session_of w p) /\
  forall m, vztcp_device_manage w = Some m -> Forall (fun e => e.2 <> p) (vzsdk_service_map_ m).
Definition fresh (p : Z) w : Prop := registry_ok w /\ unregistered p w.

Lemma sorted_keys {A} (l : list (Z * A)) : sorted l <-> StronglySorted Z.lt (map fst l).
Proof.
  unfold sorted. induction l as [|[k a] l IH]; simpl; [by split; constructor|].
  split; intros H; apply StronglySorted_inv in H as [Hs Hf]; constructor; try by apply IH.
  - rewrite Forall_map. exact Hf.
  - rewrite Forall_map in Hf. exact Hf.
Qed.

Lemma registry_ok_stable : stable registry_ok.
Proof.
  intros w w' [Hk Hs Hn Hm] [H1 H2 H3]. constructor.
  - apply sorted_keys. rewrite Hk. by apply sorted_keys.
  - assert (Hf : Forall (fun k => k < next_ w) (map fst (services_ w'))).
    { rewrite Hk. by rewrite Forall_map. }
    rewrite Forall_map in Hf. eapply List.Forall_impl; [|exact Hf]. intros e. simpl. lia.
  - intros m Em. rewrite Hm in Em. destruct (H3 m Em) as [Hso Hen]. split; [done|].
    eapply List.Forall_impl; [|exact Hen]. intros e [He ?]. split; [|done].
    unfold session_of in *. by rewrite Hs.
Qed.
Lemma unregistered_stable p : stable (unregistered p).
Proof.
  intros w w' [Hk Hs Hn Hm] [H1 H2]. split.
  - unfold session_of in *. by rewrite Hs.
  - intros m. rewrite Hm. auto.
Qed.
Lemma fresh_stable p : stable (fresh p).
Proof. intros w w' Hw [? ?]. split; [by eapply registry_ok_stable|by eapply unregistered_stable]. Qed.
Hint Resolve registry_ok_stable unregistered_stable fresh_stable : sdk.

(** What a fresh service's connection data becomes is its own business. *)
Lemma fresh_modify p f w : fresh p w -> fresh p (set_services (next_ w) (update p f (services_ w)) w).
Proof.
  intros [[H1 H2 H3] [Hs Hu]]. split; [constructor|split]; cbn.
  - by apply sorted_update.
  - unfold update. rewrite Forall_map. eapply List.Forall_impl; [|exact H2].
    intros e He. by destruct (e.1 =? p).
  - intros m Em. destruct (H3 m Em) as [Hso Hen]. split; [done|]. specialize (Hu m Em).
    rewrite Forall_forall in *. intros e He. specialize (Hen e He) as [Ho ?]. split; [|done].
    unfold session_of in *. cbn. rewrite find_update.
    destruct (Z.eqb_spec p e.2) as [->|]; [by destruct (Hu e He)|done].
  - unfold session_of in *. cbn. rewrite find_update, Z.eqb_refl. by destruct (find p (services_ w)).
  - done.
Qed.
Lemma fresh_modify_service p f : keeps (fresh p) (modify_service p f).
Proof. apply triple_modify. intros w. apply fresh_modify. Qed.
Hint Resolve fresh_modify_service : sdk.

Lemma GetSessionID_is p P :
  triple P (GetSessionID p) (fun sid w => P w /\ session_of w p = Some sid).
Proof.
  intros w sid w' Hw. unfold GetSessionID, mbind, sdk_bind, the_service.
  destruct (find p (services_ w)) as [s|] eqn:E; [|done]. cbn. intros [= <- <-].
  split; [done|]. unfold session_of. by rewrite E.
Qed.

(** [new VzsdkService] and [Start] make a service nobody has registered. *)
Lemma initModule_fresh : triple registry_ok (initModule (Address := Address)) fresh.
Proof.
  unfold initModule. eapply triple_bind; [apply keeps_new_handle; auto with sdk|intros i].
  eapply triple_bind; [apply keeps_new_handle; auto with sdk|intros r].
  intros w p w' [H1 H2 H3] [= <- <-].
  assert (Hnew : find (next_ w) (services_ w) = None).
  { destruct (find (next_ w) (services_ w)) eqn:E; [|done]. apply find_In in E.
    rewrite List.Forall_forall in H2. apply H2 in E. simpl in E. lia. }
  assert (Hso : forall q, q <> next_ w ->
    session_of (set_services (next_ w + 1) (insert (next_ w) (mkService None None i false r false
      garbage_callback None None) (services_ w)) w) q = session_of w q).
  { intros q Hq. unfold session_of. cbn. rewrite find_insert by done.
    destruct (Z.eqb_spec (next_ w) q); [congruence|done]. }
  assert (Hlive : forall e, entry_ok w e -> e.2 <> next_ w).
  { intros e [He _] Eq. unfold session_of in He. rewrite Eq, Hnew in He. done. }
  split; [constructor|split].
  - cbn. by apply sorted_insert.
  - cbn. apply List.Forall_forall. intros e [->|He]%In_insert; cbn; [lia|].
    rewrite List.Forall_forall in H2. apply H2 in He. lia.
  - cbn. intros m Em. destruct (H3 m Em) as [Hs Hen]. split; [done|].
    eapply List.Forall_impl; [|exact Hen]. intros e He. split; [|apply He].
    rewrite Hso by auto. apply He.
  - unfold session_of. cbn. rewrite find_insert, Z.eqb_refl by done. by eexists.
  - cbn. intros m Em. destruct (H3 m Em) as [_ Hen]. eapply List.Forall_impl; [|exact Hen]. auto.
Qed.

(** [ConnectServer] returns the session id its service then has. *)
Section connect.
Context {QW : QuietWaiting Address}.

Definition connected_as (p ret : Z) w : Prop :=
  fresh p w /\ (ret <> SESSION_ID_INVALUE -> session_of w p = Some ret).
Lemma connected_as_stable p ret : stable (connected_as p ret).
Proof.
  intros w w' Hw [Hf Hs]. split; [by eapply fresh_stable|]. intros Hr. destruct Hw as [_ Hss _ _].
  unfold session_of in *. rewrite Hss. auto.
Qed.
Hint Resolve connected_as_stable : sdk.

Lemma i32_u32_i32 z : i32 (u32 (i32 z)) = i32 z.
Proof. word_lia. Qed.

Lemma set_connect_data_is p d : triple (fresh p)
  (modify_service (Address := Address) p (fun s => set_connect_data s (Some d)))
  (fun _ w => fresh p w /\ session_of w p = Some (i32 (session_id_ d)) /\
     exists s, find p (services_ w) = Some s /\ req_connect_data_ptr_ s = Some d).
Proof.
  apply triple_modify. intros w Hw. split; [by apply fresh_modify|].
  destruct Hw as [_ [[x Hx] _]]. unfold session_of in *. cbn. rewrite find_update, Z.eqb_refl.
  destruct (find p (services_ w)) as [s|] eqn:E; [|done]. cbn. split; [done|]. by eexists.
Qed.
Lemma set_data_session_is p d z :
  triple (fun w => fresh p w /\ exists s, find p (services_ w) = Some s /\ req_connect_data_ptr_ s = Some d)
    (set_data_session p z)
    (fun _ w => fresh p w /\ session_of w p = Some (i32 (u32 z))).
Proof.
  apply triple_modify. intros w [Hw (s & E & Ed)]. split; [by apply fresh_modify|].
  unfold session_of. cbn. by rewrite find_update, Z.eqb_refl, E; cbn; rewrite Ed.
Qed.

Lemma ConnectServer_fresh p a :
  triple (fresh p) (ConnectServer p current a) (fun ret => connected_as p ret).
Proof.
  unfold ConnectServer. eapply triple_bind.
  { instantiate (1 := fun t w => fresh p w /\ message_data_ t = Some (ReqConnectData a)).
    intros w t w' Hw [= <- <-]. split; [|done]. eapply fresh_stable; [|exact Hw].
    constructor; cbn; done || lia. }
  intros t. eapply triple_bind.
  { instantiate (1 := fun _ w => fresh p w /\ message_data_ t = Some (ReqConnectData a)).
    apply keeps_SyncProcessTask. intros w w' Hw [Hf ?]. split; [|done]. by eapply fresh_stable. }
  intros msg. eapply triple_bind.
  { instantiate (1 := fun _ w => fresh p w /\ session_of w p = Some 0 /\
      exists s, find p (services_ w) = Some s /\ req_connect_data_ptr_ s = Some (ReqConnectData a)).
    intros w u w' [Hw Ht] E. rewrite Ht in E. by eapply (set_connect_data_is p (ReqConnectData a)). }
  intros ?. destruct (negb (answered msg)).
  { apply triple_ret_is. intros w (Hw & Hs & _). split; [done|]. done. }
  destruct (MessageQueue.pdata msg) as [stanze|].
  2: { apply triple_ret_is. intros w (Hw & Hs & _). by split. }
  eapply triple_bind.
  { eapply triple_weaken; [apply (set_data_session_is p (ReqConnectData a))| |].
    - intros w (Hw & _ & Hd). split; [exact Hw|exact Hd].
    - intros u w H. exact H. }
  intros ?. cbn beta. rewrite i32_u32_i32. set (ret := i32 (session_id_ stanze)).
  eapply (triple_bind _ _ (fun _ => connected_as p ret)).
  { eapply triple_weaken; [apply (GetConnState_keeps (connected_as p ret)); auto with sdk| |done].
    intros w [Hw Hs]. split; [done|]. by intros. }
  intros st. destruct (bool_decide _).
  - eapply triple_bind; [apply (ReConnectServer_keeps (connected_as p ret)); auto with sdk|intros ?].
    eapply triple_bind; [apply (ChangeConn_keeps (connected_as p ret)); auto with sdk|intros ?].
    apply triple_ret_is. done.
  - eapply triple_bind.
    { instantiate (1 := fun _ => fresh p).
      eapply triple_weaken; [apply fresh_modify_service| |done]. by intros w []. }
    intros ?. apply triple_ret_is. intros w Hw. by split.
Qed.

(** ** The manager *)

(** What stays true while the map is being emptied. *)
Definition base_ok w : Prop :=
  sorted (services_ w) /\ Forall (fun e => e.1 < next_ w) (services_ w).
Lemma base_ok_stable : stable base_ok.
Proof.
  intros w w' [Hk _ Hn _] [H1 H2]. split.
  - apply sorted_keys. rewrite Hk. by apply sorted_keys.
  - rewrite <- (Forall_map fst (fun k => k < next_ w')). rewrite Hk, Forall_map.
    eapply List.Forall_impl; [|exact H2]. simpl. lia.
Qed.
Hint Resolve base_ok_stable : sdk.
Lemma Forall_erase {A} (P : Z * A -> Prop) k l : Forall P l -> Forall P (erase k l).
Proof.
  rewrite !List.Forall_forall. intros H e He%In_erase. auto.
Qed.

Lemma delete_base p : keeps base_ok (delete_service current p).
Proof.
  unfold delete_service, VzsdkService_Stop. keeps_tac. apply triple_modify.
  intros w [H1 H2]. split; cbn; auto using sorted_erase, Forall_erase.
Qed.
Lemma delete_fresh p : triple (fresh p) (delete_service current p) (fun _ => registry_ok).
Proof.
  unfold delete_service, VzsdkService_Stop. eapply triple_bind; [by keeps_tac|intros ?].
  eapply triple_bind; [by keeps_tac|intros ?]. apply triple_modify.
  intros w [[H1 H2 H3] [_ Hu]]. constructor; cbn; auto using sorted_erase, Forall_erase.
  intros m Em. destruct (H3 m Em) as [Hs Hen]. split; [done|]. specialize (Hu m Em).
  rewrite List.Forall_forall in *. intros e He. destruct (Hen e He) as [Ho ?]. split; [|done].
  unfold session_of in *. cbn. rewrite find_erase by done.
  destruct (Z.eqb_spec p e.2) as [->|]; [by destruct (Hu e He)|done].
Qed.
Hint Resolve delete_base delete_fresh : sdk.

Lemma triple_the_manage P :
  triple P (the_manage (Address := Address)) (fun m w => P w /\ vztcp_device_manage w = Some m).
Proof.
  intros w m w' Hw. unfold the_manage. destruct (vztcp_device_manage w) eqn:E; [|done].
  cbn. by intros [= <- <-].
Qed.
Lemma triple_set_service_map P f Q :
  (forall w m, P w -> vztcp_device_manage w = Some m ->
    Q tt (set_manage (Some (mkManage (f (vzsdk_service_map_ m)) (manage_conn_callback_ m))) w)) ->
  triple P (set_service_map f) Q.
Proof.
  intros H. unfold set_service_map. eapply triple_bind; [apply triple_the_manage|intros m].
  apply triple_modify. intros w [? ?]. eauto.
Qed.
Lemma triple_GetService P k :
  triple P (GetService (Address := Address) k)
    (fun r w => P w /\ exists m, vztcp_device_manage w = Some m /\ r = find k (vzsdk_service_map_ m)).
Proof.
  unfold GetService. eapply triple_bind; [apply triple_the_manage|intros m].
  apply triple_ret_is. intros w [? ?]. eauto.
Qed.
Lemma GetService_keeps P k : keeps P (GetService (Address := Address) k).
Proof. eapply triple_weaken; [apply triple_GetService|done|]. by intros a w []. Qed.
Hint Resolve GetService_keeps : sdk.

(** A service taken out of the map is registered nowhere else. *)
Lemma erase_unregisters k p w m :
  registry_ok w -> vztcp_device_manage w = Some m -> find k (vzsdk_service_map_ m) = Some p ->
  fresh p (set_manage (Some (mkManage (erase k (vzsdk_service_map_ m)) (manage_conn_callback_ m))) w).
Proof.
  intros [H1 H2 H3] Em Hf. destruct (H3 m Em) as [Hs Hen]. apply find_In in Hf as Hin.
  rewrite List.Forall_forall in Hen. destruct (Hen _ Hin) as [Ho _]. cbn in Ho.
  split; [constructor|split]; cbn; try done.
  - intros m' [= <-]. cbn. split; [by apply sorted_erase|]. apply List.Forall_forall.
    intros e He%In_erase. exact (Hen e He).
  - intros m' [= <-]. cbn. apply List.Forall_forall. intros [k' q] He Eq. cbn in Eq. subst q.
    destruct (Hen (k', p) (In_erase _ _ _ He)) as [Ho' _]. cbn in Ho'. rewrite Ho in Ho'.
    injection Ho' as <-.
    assert (Hk : find k (erase k (vzsdk_service_map_ m)) = None).
    { rewrite find_erase by done. by rewrite Z.eqb_refl. }
    revert Hk He. generalize (erase k (vzsdk_service_map_ m)). clear. intros l.
    induction l as [|[k' a] l IH]; cbn; [done|]. destruct (Z.eqb_spec k' k); [done|].
    intros Hk [[= -> _]|]; auto.
Qed.

Lemma RemoveService_ok k : keeps registry_ok (RemoveService current k).
Proof.
  unfold RemoveService. eapply triple_bind; [apply triple_GetService|intros r].
  destruct r as [p|]; [|apply triple_ret_is; by intros w []].
  eapply triple_bind.
  { apply triple_set_service_map with (Q := fun _ => fresh p).
    intros w m [Hw (m' & Em' & Hf)] Em. rewrite Em in Em'. injection Em' as <-.
    by apply (erase_unregisters k p w m). }
  intros ?. eapply triple_bind; [apply delete_fresh|intros ?]. apply triple_ret.
Qed.
Hint Resolve RemoveService_ok : sdk.
Lemma CloseService_ok k : keeps registry_ok (CloseService current k).
Proof. unfold CloseService, VzsdkService_Stop. keeps_tac. Qed.

(** Registering a connected service under its session id. *)
Lemma register_ok p sid w m :
  connected_as p sid w -> sid <> SESSION_ID_INVALUE -> vztcp_device_manage w = Some m ->
  registry_ok (set_manage (Some (mkManage (insert sid p (vzsdk_service_map_ m)) (manage_conn_callback_ m))) w).
Proof.
  intros [[[H1 H2 H3] _] Hs] Hne Em. constructor; cbn; try done.
  intros m' [= <-]. cbn. destruct (H3 m Em) as [Hso Hen]. split; [by apply sorted_insert|].
  apply List.Forall_forall. intros e [->|He]%In_insert; [by split; auto|].
  rewrite List.Forall_forall in Hen. exact (Hen e He).
Qed.

Lemma CreateNewService_ok ip port : keeps registry_ok (CreateNewService current ip port).
Proof.
  unfold CreateNewService. eapply triple_bind; [apply initModule_fresh|intros p].
  eapply triple_bind.
  { eapply (keeps_from (fresh p)); [|done]. intros w m w' Hw H. by eapply triple_the_manage. }
  intros ?.
  eapply triple_bind; [apply triple_of_outcome|intros remote_address].
  eapply triple_bind; [apply ConnectServer_fresh|intros sid].
  eapply triple_bind; [apply triple_the_manage|intros m].
  destruct (Z.eqb_spec sid SESSION_ID_INVALUE) as [->|Hne]; cbn [negb].
  - eapply triple_bind.
    { apply (keeps_from (fresh p)); [unfold VzsdkService_Stop; by keeps_tac|]. by intros w [[] _]. }
    intros ?. eapply triple_bind; [apply delete_fresh|intros ?]. apply triple_ret.
  - eapply triple_bind.
    { apply (keeps_from (connected_as p sid)); [unfold VzsdkService_SetCommonNotifyCallBack; keeps_tac|].
      by intros w []. }
    intros ?. eapply triple_bind.
    { instantiate (1 := fun _ => connected_as p sid). unfold ExistService.
      eapply triple_bind; [apply triple_the_manage|intros m']. apply triple_ret_is. by intros w []. }
    intros exist. eapply triple_bind; [|intros ?; apply triple_ret].
    destruct exist.
    + eapply triple_weaken; [apply delete_fresh| |done]. by intros w [].
    + apply triple_set_service_map. intros w m' Hw Em. by apply (register_ok p sid w m').
Qed.

Lemma SetCommonNotifyCallBack_ok f : keeps registry_ok (SetCommonNotifyCallBack (Address := Address) f).
Proof.
  unfold SetCommonNotifyCallBack. eapply triple_bind; [apply triple_the_manage|intros m].
  eapply triple_bind with (Q := fun _ => registry_ok).
  - apply triple_modify. intros w [[H1 H2 H3] Em]. constructor; cbn; try done.
    intros m' [= <-]. exact (H3 m Em).
  - intros ?. induction (vzsdk_service_map_ m) as [|[k p] l IH]; cbn [notify_all];
      unfold VzsdkService_SetCommonNotifyCallBack; keeps_tac.
Qed.
Lemma delete_all_base l m :
  keeps (fun w => base_ok w /\ vztcp_device_manage w = m) (delete_all current l).
Proof.
  induction l as [|[k p] l IH]; cbn [delete_all]; [apply triple_ret|]. apply keeps_bind; [|done].
  unfold delete_service, VzsdkService_Stop.
  assert (Hst : stable (fun w => base_ok w /\ vztcp_device_manage w = m)).
  { intros w w' Hw [? <-]. split; [by eapply base_ok_stable|by destruct Hw]. }
  keeps_tac. apply triple_modify. intros w [[H1 H2] Em]. split; [|done].
  split; cbn; auto using sorted_erase, Forall_erase.
Qed.
Lemma Stop_ok : keeps registry_ok (VzTcpDeviceManage_Stop (Address := Address) current).
Proof.
  unfold VzTcpDeviceManage_Stop. eapply triple_bind; [apply triple_the_manage|intros m].
  eapply triple_bind.
  { eapply triple_weaken; [apply (delete_all_base _ (Some m))| |intros ? ? H; exact H].
    intros w [[H1 H2 _] Em]. by repeat split. }
  intros ?. apply triple_set_service_map. intros w m' [[H1 H2] Em] _. constructor; cbn; try done.
  intros m'' [= <-]. split; [constructor|constructor].
Qed.
End connect.

(** ** Every exported function *)
Inductive Call :=
  | Setup | Cleanup
  | Open (ip : list Z) (port : Z) | Close (handle : Z) | CloseByIP (ip : list Z)
  | CallGetDeviceSN (handle : Z) (pSN : option (list Z)) | IsConnected (handle : Z) (pStatus : option Z)
  | SetPlateInfoCallBack (handle : Z) (func : option Z) (bEnableImage : Z)
  | CallForceTrigger (handle : Z)
  | LoadRecordById (handle id : Z) (pResult : TH_PlateResult)
  | CallGetIP (handle : Z)
  | CallSetCommonNotifyCallBack (func : option Z)
  | LoadImageById (handle id : Z) (pdata : option (list Z)) (size : option Z)
  | CallSerialStart (handle nSerialPort : Z) (func : option Z)
  | CallSerialSend (handle nSerialPort : Z) (pData : list Z) | CallSerialStop (handle : Z)
  | CallSetIOOutputAuto (handle uChnId nDuration : Z) | CallSetIOOutput (handle uChnId nOutput : Z)
  | CallGetGPIOValue (handle gpioIn value : Z)
  | CallSetOfflineCheck (handle : Z) | CallCancelOfflineCheck (handle : Z)
  | CallImportWlistVehicle (handle : Z) (pWlist : VZ_LPR_WLIST_VEHICLE)
  | CallDeleteWlistVehicle (handle : Z) (plateCode : list Z)
  | CallQueryWlistVehicle (handle : Z) (plateCode : list Z)
  | SetWlistInfoCallBack (handle : Z) (func : option Z)
  | SetOfflinePlateInfoCallBack (handle : Z) (func : option Z) (bEnableImage : Z).

(** The int a call returns; null and non-null for [GetIP].  What it writes through
    its pointer arguments is dropped here. *)
Definition run_call (c : Call) : sdk Z :=
  match c with
  | Setup => VzLPRTcp_Setup
  | Cleanup => _ ← VzLPRTcp_Cleanup current; mret 0
  | Open ip port => VzLPRTcp_Open current ip port
  | Close h => VzLPRTcp_Close current h
  | CloseByIP ip => VzLPRTcp_CloseByIP current ip
  | CallGetDeviceSN h sn => r ← VzLPRTcp_GetDeviceSN current h sn; mret r.1
  | IsConnected h st => r ← VzLPRTcp_IsConnected h st; mret r.1
  | SetPlateInfoCallBack h f b => VzLPRTcp_SetPlateInfoCallBack current h f b
  | CallForceTrigger h => VzLPRTcp_ForceTrigger current h
  | LoadRecordById h id r => r ← VzLPRTcp_LoadRecordById current h id r; mret r.1
  | CallGetIP h => r ← VzLPRTcp_GetIP h; mret (match r with Some _ => 0 | None => -1 end)
  | CallSetCommonNotifyCallBack f => VzLPRTcp_SetCommonNotifyCallBack f
  | LoadImageById h id d n => r ← VzLPRTcp_LoadImageById current h id d n; mret r.1.1
  | CallSerialStart h n f => VzLPRTcp_SerialStart current h n f
  | CallSerialSend h n d => VzLPRTcp_SerialSend current h n d
  | CallSerialStop h => VzLPRTcp_SerialStop current h
  | CallSetIOOutputAuto h c d => VzLPRTcp_SetIOOutputAuto current h c d
  | CallSetIOOutput h c o => VzLPRTcp_SetIOOutput current h c o
  | CallGetGPIOValue h g v => r ← VzLPRTcp_GetGPIOValue current h g v; mret r.1
  | CallSetOfflineCheck h => VzLPRTcp_SetOfflineCheck current h
  | CallCancelOfflineCheck h => VzLPRTcp_CancelOfflineCheck current h
  | CallImportWlistVehicle h v => VzLPRTcp_ImportWlistVehicle current h v
  | CallDeleteWlistVehicle h c => VzLPRTcp_DeleteWlistVehicle current h c
  | CallQueryWlistVehicle h c => VzLPRTcp_QueryWlistVehicle current h c
  | SetWlistInfoCallBack h f => VzLPRTcp_SetWlistInfoCallBack h f
  | SetOfflinePlateInfoCallBack h f b => VzLPRTcp_SetOfflinePlateInfoCallBack current h f b
  end.
Fixpoint run_calls (cs : list Call) : sdk (list Z) :=
  match cs with
  | [] => mret []
  | c :: cs => r ← run_call c; rs ← run_calls cs; mret (r :: rs)
  end.

Section invariant.
Context {QW : QuietWaiting Address}.
Lemma set_error_ok P e : stable P -> keeps P (modify (Address := Address) (set_error e)).
Proof. intros HS. apply keeps_same; [done|]. intros w. constructor; cbn; done || lia. Qed.
Lemma set_ip_ok P ip : stable P -> keeps P (modify (Address := Address) (set_device_ip ip)).
Proof. intros HS. apply keeps_same; [done|]. intros w. constructor; cbn; done || lia. Qed.
Hint Resolve set_error_ok set_ip_ok GetService_keeps CloseService_ok CreateNewService_ok
  SetCommonNotifyCallBack_ok Stop_ok : sdk.
Lemma SetLastError_keeps P r e : stable P -> keeps P (SetLastError (Address := Address) r e).
Proof. intros HS. unfold SetLastError. keeps_tac. Qed.
Hint Resolve SetLastError_keeps : sdk.
Lemma CheckDevice_keeps P h : stable P -> keeps P (CheckDevice (Address := Address) h).
Proof. intros HS. unfold CheckDevice, CheckManage. keeps_tac. Qed.
Hint Resolve CheckDevice_keeps : sdk.
Lemma with_device_keeps {A} P h (fail : A) (call : Z -> sdk A) :
  stable P -> (forall p, keeps P (call p)) -> keeps P (with_device h fail call).
Proof. intros HS Hc. unfold with_device. keeps_tac. Qed.

Lemma GetService_ip_keeps ip l : keeps registry_ok (GetService_ip_loop ip l).
Proof. induction l as [|[k p] l IH]; cbn [GetService_ip_loop]; keeps_tac. Qed.
Hint Resolve GetService_ip_keeps : sdk.
Lemma the_manage_keeps P : keeps P (the_manage (Address := Address)).
Proof. apply keeps_from with (P := P); [|done]. intros w m w' Hw H. by eapply triple_the_manage. Qed.
Hint Resolve the_manage_keeps : sdk.

Lemma set_manage_ok m :
  (forall w, registry_ok w -> registry_ok (set_manage m w)) -> keeps registry_ok (modify (set_manage m)).
Proof. intros H. by apply triple_modify. Qed.

Lemma Close_ok h : keeps registry_ok (VzLPRTcp_Close current h).
Proof. unfold VzLPRTcp_Close. keeps_tac. Qed.
Hint Resolve Close_ok : sdk.

Lemma run_call_ok c : keeps registry_ok (run_call c).
Proof.
  destruct c; cbn [run_call];
    unfold VzLPRTcp_Setup, VzLPRTcp_Cleanup, VzLPRTcp_Open, VzLPRTcp_Close, VzLPRTcp_CloseByIP, GetService_ip,
      VzLPRTcp_GetDeviceSN, VzLPRTcp_IsConnected, VzLPRTcp_LoadRecordById, VzLPRTcp_LoadImageById,
      VzLPRTcp_SetCommonNotifyCallBack, CheckManage, VzLPRTcp_SetOfflinePlateInfoCallBack;
    try (apply keeps_bind; [|intros; apply triple_ret]);
    try (apply with_device_keeps; [by auto with sdk|intros p]; keeps_tac);
    keeps_tac.
  all: apply set_manage_ok; intros w [H1 H2 H3]; constructor; cbn; try done.
  intros m [= <-]. split; constructor.
Qed.
Lemma run_calls_ok cs : keeps registry_ok (run_calls cs).
Proof. induction cs as [|c cs IH]; cbn [run_calls]; [apply triple_ret|]. pose proof (run_call_ok c). keeps_tac. Qed.

(** C13. Whatever is called in whatever order, and whatever the devices answer, a handle
    of the service map leads to a live service whose session id is the handle. *)
Theorem handles_are_session_ids cs w rets w' m handle p :
  registry_ok w -> run_calls cs w = Done (rets, w') ->
  vztcp_device_manage w' = Some m -> find handle (vzsdk_service_map_ m) = Some p ->
  GetService handle w' = Done (Some p, w') /\ GetSessionID p w' = Done (handle, w') /\
  handle <> SESSION_ID_INVALUE.
Proof.
  intros Hw Hrun Em Hf. destruct (run_calls_ok cs w rets w' Hw Hrun) as [_ _ H3].
  destruct (H3 m Em) as [_ Hen]. rewrite List.Forall_forall in Hen.
  destruct (Hen _ (find_In _ _ _ Hf)) as [Ho Hne]. cbn in Ho, Hne. split_and!; [| |done].
  - unfold GetService, the_manage, mbind, sdk_bind. rewrite Em. cbn. by rewrite Hf.
  - unfold GetSessionID, mbind, sdk_bind, the_service, session_of in *.
    destruct (find p (services_ w')) as [s|]; [|done]. cbn in *. injection Ho as Ho.
    unfold service_session in Ho. unfold mret, sdk_ret. by rewrite Ho.
Qed.
End invariant.

(** ** Handles that are not open *)
Definition handle_of (c : Call) : option Z :=
  match c with
  | Setup | Cleanup | Open _ _ | CloseByIP _ | CallSetCommonNotifyCallBack _ => None
  | Close h | CallGetDeviceSN h _ | IsConnected h _ | SetPlateInfoCallBack h _ _ | CallForceTrigger h
  | LoadRecordById h _ _ | CallGetIP h | LoadImageById h _ _ _ | CallSerialStart h _ _
  | CallSerialSend h _ _ | CallSerialStop h | CallSetIOOutputAuto h _ _ | CallSetIOOutput h _ _
  | CallGetGPIOValue h _ _ | CallSetOfflineCheck h | CallCancelOfflineCheck h
  | CallImportWlistVehicle h _ | CallDeleteWlistVehicle h _ | CallQueryWlistVehicle h _
  | SetWlistInfoCallBack h _ | SetOfflinePlateInfoCallBack h _ _ => Some h
  end.
(** The error left for [GetLastError]. *)
Definition error_of (c : Call) : Z :=
  match c with
  | CallGetDeviceSN _ (Some _) => VZ_LPRC_LASTERROR_GETDEVICE_ERROR
  | IsConnected _ (Some _) => VZ_LPRC_LASTERROR_INVALID_PSTATUS
  | CallGetDeviceSN _ None | IsConnected _ None
  | LoadImageById _ _ None _ | LoadImageById _ _ _ None => VZ_LPRC_LASTERROR_INVALID_PARAM
  | _ => VZ_LPRC_LASTERROR_INVALID_HANDLE
  end.
Definition falls_off (c : Call) : bool :=
  match c with SetOfflinePlateInfoCallBack _ _ _ => true | _ => false end.

Lemma CheckDevice_unknown h w m :
  vztcp_device_manage w = Some m -> find h (vzsdk_service_map_ m) = None ->
  CheckDevice h w = Done (true, set_error VZ_LPRC_LASTERROR_INVALID_HANDLE w).
Proof.
  intros Em Hf. unfold CheckDevice, CheckManage, SetLastError, GetService, the_manage. go.
  rewrite Em. cbn. rewrite Em. cbn. by rewrite Hf.
Qed.
Lemma GetService_unknown h w m :
  vztcp_device_manage w = Some m -> find h (vzsdk_service_map_ m) = None ->
  GetService h w = Done (None, w).
Proof. intros Em Hf. unfold GetService, the_manage. go. rewrite Em. cbn. by rewrite Hf. Qed.
Lemma with_device_unknown {A} h (fail : A) call w m :
  vztcp_device_manage w = Some m -> find h (vzsdk_service_map_ m) = None ->
  with_device h fail call w = Done (fail, set_error VZ_LPRC_LASTERROR_INVALID_HANDLE w).
Proof.
  intros Em Hf. unfold with_device, mbind at 1, sdk_bind at 1. rewrite (CheckDevice_unknown h w m) by done.
  cbn [negb]. unfold mbind, sdk_bind. by rewrite (GetService_unknown h _ m) by done.
Qed.

(** C18. Once the manager is set up, a call with a handle that is not open returns -1
    ([GetIP] null, which [run_call] tells as -1), sends nothing and changes nothing
    but the last error; [SetOfflinePlateInfoCallBack] alone is undefined: it does
    not return a value there. *)
Theorem unknown_handle c h w m :
  handle_of c = Some h -> vztcp_device_manage w = Some m -> find h (vzsdk_service_map_ m) = None ->
  run_call c w = if falls_off c then Undefined else Done (-1, set_error (error_of c) w).
Proof.
  intros Hh Em Hf. pose proof (CheckDevice_unknown h w m Em Hf) as Hc.
  pose proof (GetService_unknown h (set_error VZ_LPRC_LASTERROR_INVALID_HANDLE w) m Em Hf) as Hg.
  destruct c; try discriminate; injection Hh as ->; cbn [run_call falls_off error_of];
    try (by apply (with_device_unknown h (A := Z) _ _ w m));
    try (unfold VzLPRTcp_GetIP, VzLPRTcp_GetGPIOValue, mbind at 1, sdk_bind at 1;
         by rewrite (with_device_unknown h _ _ w m Em Hf));
    unfold VzLPRTcp_Close, CloseService, VzLPRTcp_GetDeviceSN, VzLPRTcp_IsConnected, VzLPRTcp_LoadRecordById,
      VzLPRTcp_LoadImageById, VzLPRTcp_SetOfflinePlateInfoCallBack, SetLastError; go; rewrite Hc; cbn [negb];
    repeat match goal with |- context [match ?x with Some _ => _ | None => _ end _] => destruct x end;
    rewrite ?Hg; done.
Qed.

(** Before [Setup] every call with a handle returns -1 and leaves NOT_SETUP, but
    [Open] and [CloseByIP] use the null manager. *)
Theorem not_setup w :
  vztcp_device_manage w = None ->
  (forall c h, handle_of c = Some h ->
    run_call c w = Done (-1, set_error VZ_LPRC_LASTERROR_NOT_SETUP w)) /\
  (forall ip port, run_call (Open ip port) w = Undefined) /\
  (forall ip, run_call (CloseByIP ip) w = Undefined).
Proof.
  intros Em.
  assert (Hc : forall h, CheckDevice h w = Done (false, set_error VZ_LPRC_LASTERROR_NOT_SETUP w)).
  { intros h. unfold CheckDevice, CheckManage, SetLastError. go. by rewrite Em. }
  split; [|split].
  - intros c h Hh. destruct c; try discriminate; cbn [run_call];
      unfold VzLPRTcp_Close, VzLPRTcp_GetDeviceSN, VzLPRTcp_IsConnected, VzLPRTcp_LoadRecordById,
        VzLPRTcp_LoadImageById, VzLPRTcp_SetOfflinePlateInfoCallBack, VzLPRTcp_SetPlateInfoCallBack,
        VzLPRTcp_ForceTrigger, VzLPRTcp_GetIP, VzLPRTcp_SerialStart, VzLPRTcp_SerialSend, VzLPRTcp_SerialStop,
        VzLPRTcp_SetIOOutputAuto, VzLPRTcp_SetIOOutput, VzLPRTcp_GetGPIOValue, VzLPRTcp_SetOfflineCheck,
        VzLPRTcp_CancelOfflineCheck, VzLPRTcp_ImportWlistVehicle, VzLPRTcp_DeleteWlistVehicle,
        VzLPRTcp_QueryWlistVehicle, VzLPRTcp_SetWlistInfoCallBack, with_device;
      go; by rewrite Hc.
  - intros ip port. cbn [run_call]. unfold VzLPRTcp_Open, CreateNewService, initModule, new_handle, new_service, the_manage. go. cbn. by rewrite Em.
  - intros ip. cbn [run_call]. unfold VzLPRTcp_CloseByIP, GetService_ip, the_manage. go. by rewrite Em.
Qed.

(** ** Closing a device *)
Section closing.
Context {QW : QuietWaiting Address}.
(** Every message a task posts to its thread has data. *)
Hypothesis wait_data : forall t w, answered (wait_task t w).1 = true -> is_Some (MessageQueue.pdata (wait_task t w).1).

Lemma same_registry_trans w1 w2 w3 : same_registry w1 w2 -> same_registry w2 w3 -> same_registry w1 w3.
Proof.
  intros [A1 A2 A3 A4] [B1 B2 B3 B4]. constructor; [congruence| |lia|congruence].
  intros p. by rewrite B2.
Qed.
Lemma same_registry_session w w' p : same_registry w w' -> session_of w' p = session_of w p.
Proof. intros [_ H _ _]. apply H. Qed.

(** Disconnecting a service that has connection data posts one disconnect task,
    waits for it, and returns. *)
Lemma DisconnectServer_run p b w k :
  session_of w p = Some k -> k <> SESSION_ID_INVALUE ->
  exists r w1 t, log_ w1 = log_ w /\ kind t = DisconnectTask (u32 k) /\
    DisconnectServer p current b w =
      Done (r, logs [RemovedTask (task_id_ t)] (wait_task t (logs [PostedTask t] w1)).2).
Proof.
  intros Hs Hk. unfold session_of in Hs. destruct (find p (services_ w)) as [s|] eqn:E; [|done].
  cbn in Hs. injection Hs as Hs. unfold service_session in Hs.
  destruct (req_connect_data_ptr_ s) as [d|] eqn:Ed; [|congruence].
  unfold DisconnectServer. unfold mbind at 1, sdk_bind at 1, the_service at 1. rewrite E. cbn -[DisconnectTask_new].
  rewrite Ed. go. cbn -[DisconnectTask_new]. rewrite Hs.
  destruct (Z.eqb_spec k SESSION_ID_INVALUE); [done|].
  assert (Hslot : exists w1, (if b then SlotDisConnecting p else mret tt) w = Done (tt, w1) /\ log_ w1 = log_ w).
  { destruct b; [|by eexists]. unfold SlotDisConnecting, the_service, modify_handle. go. rewrite E. cbn. by eexists. }
  destruct Hslot as (w1 & Hslot & Hlog). unfold mret, sdk_ret in Hslot. rewrite Hslot. unfold new_task.
  destruct (DisconnectTask_new (unequal_task_id_ w1) DEFAULT_TIMEOUT current k) as [t u] eqn:Et.
  unfold SyncProcessTask, PostTask. go.
  pose proof (wait_data t (logs [PostedTask t] (set_unequal u w1))) as Hd.
  assert (Hkind : kind t = DisconnectTask (u32 k)) by by injection Et as <- _.
  enough (exists r, _ = Done (r, logs [RemovedTask (task_id_ t)]
    (wait_task t (logs [PostedTask t] (set_unequal u w1))).2)) as [r Hr] by by exists r, (set_unequal u w1), t.
  destruct (wait_task t _) as [msg w2]. cbn in Hd |- *. destruct (answered msg); cbn; [|by eexists].
  destruct (Hd eq_refl) as [st ->]. cbn. by eexists.
Qed.
Lemma DisconnectServer_returns p b w k :
  session_of w p = Some k -> k <> SESSION_ID_INVALUE ->
  exists r w', DisconnectServer p current b w = Done (r, w') /\ same_registry w w'.
Proof.
  intros Hs Hk. destruct (DisconnectServer_run p b w k Hs Hk) as (r & w1 & t & _ & _ & Hrun).
  do 2 eexists. split; [exact Hrun|].
  refine (DisconnectServer_keeps (fun w' => same_registry w w') _ p b w r _ _ Hrun).
  - intros w2 w3 H23 H2. by eapply same_registry_trans.
  - constructor; done || lia.
Qed.

Lemma delete_returns p w k :
  session_of w p = Some k -> k <> SESSION_ID_INVALUE ->
  exists w', delete_service current p w = Done (tt, w') /\
    vztcp_device_manage w' = vztcp_device_manage w.
Proof.
  intros Hs Hk. unfold delete_service, VzsdkService_Stop.
  destruct (DisconnectServer_returns p true w k Hs Hk) as (r1 & w1 & E1 & H1).
  destruct (DisconnectServer_returns p false w1 k) as (r2 & w2 & E2 & H2); [|done|].
  { by rewrite (same_registry_session _ _ _ H1). }
  eexists. go. rewrite E1. cbn. rewrite E2. cbn. split; [done|]. cbn.
  destruct H1, H2. congruence.
Qed.

Lemma Close_run handle w m p r1 w1 w3 :
  vztcp_device_manage w = Some m -> find handle (vzsdk_service_map_ m) = Some p ->
  DisconnectServer p current true w = Done (r1, w1) -> vztcp_device_manage w1 = Some m ->
  delete_service current p
    (set_manage (Some (mkManage (erase handle (vzsdk_service_map_ m)) (manage_conn_callback_ m))) w1) = Done (tt, w3) ->
  run_call (Close handle) w = Done (0, w3).
Proof.
  intros Em Hf E1 Em1 E3. cbn [run_call].
  unfold VzLPRTcp_Close, CheckDevice, CheckManage, SetLastError, CloseService, VzsdkService_Stop, RemoveService,
    GetService, set_service_map, the_manage. go.
  rewrite Em. cbn -[erase]. rewrite Em. cbn -[erase]. rewrite Hf. cbn -[erase]. rewrite Em. cbn -[erase].
  rewrite Hf. cbn -[erase]. rewrite E1. cbn -[erase]. rewrite Em1. cbn -[erase]. rewrite Hf. cbn -[erase].
  rewrite Em1. cbn -[erase]. by rewrite E3.
Qed.

(** C14. Closing an open handle succeeds, whatever the device answers: the handle and
    nothing else is gone from the map, and the registry is as it should be. *)
Theorem close_removes_handle handle w m :
  registry_ok w -> vztcp_device_manage w = Some m -> is_Some (find handle (vzsdk_service_map_ m)) ->
  exists w' m', run_call (Close handle) w = Done (0, w') /\ registry_ok w' /\
    vztcp_device_manage w' = Some m' /\
    forall k, find k (vzsdk_service_map_ m') =
      if handle =? k then None else find k (vzsdk_service_map_ m).
Proof.
  intros Hw Em [p Hf]. pose proof (ro_map w Hw m Em) as [Hso Hen].
  rewrite List.Forall_forall in Hen. destruct (Hen _ (find_In _ _ _ Hf)) as [Ho Hne]. cbn in Ho, Hne.
  destruct (DisconnectServer_returns p true w handle Ho Hne) as (r1 & w1 & E1 & H1).
  assert (Em1 : vztcp_device_manage w1 = Some m) by (destruct H1; congruence).
  set (w2 := set_manage (Some (mkManage (erase handle (vzsdk_service_map_ m)) (manage_conn_callback_ m))) w1).
  destruct (delete_returns p w2 handle) as (w3 & E3 & Em3); [|done|].
  { change (session_of w2 p) with (session_of w1 p). by rewrite (same_registry_session _ _ _ H1). }
  pose proof (Close_run handle w m p r1 w1 w3 Em Hf E1 Em1 E3) as Hrun.
  exists w3. eexists. split; [done|]. split; [by eapply (run_call_ok (Close handle))|].
  split; [by rewrite Em3|]. intros k. cbn. by rewrite find_erase.
Qed.

(** Closing posts the disconnect request three times: from [Stop], from the
    destructor of the service, and from that of its connection. *)
Definition is_disconnect (k : Z) (a : action Address) : bool :=
  match a with PostedTask t => match kind t with DisconnectTask sid => sid =? u32 k | _ => false end | _ => false end.
Definition disconnects (k : Z) w : nat := length (List.filter (is_disconnect k) (log_ w)).

Lemma DisconnectServer_posts p b w k :
  (forall t w, (wait_task t w).2 = w) -> session_of w p = Some k -> k <> SESSION_ID_INVALUE ->
  exists r w', DisconnectServer p current b w = Done (r, w') /\ same_registry w w' /\
    disconnects k w' = S (disconnects k w).
Proof.
  intros Hw Hs Hk. destruct (DisconnectServer_run p b w k Hs Hk) as (r & w1 & t & Hl & Ht & Hrun).
  destruct (DisconnectServer_returns p b w k Hs Hk) as (r' & w' & Hrun' & Hsame).
  exists r', w'. split; [done|]. split; [done|]. rewrite Hrun in Hrun'. injection Hrun' as _ <-.
  rewrite Hw. unfold disconnects. cbn. rewrite !List.filter_app, Hl. cbn. rewrite Ht, Z.eqb_refl, !length_app.
  simpl. lia.
Qed.

Theorem close_disconnects_three_times handle w m :
  (forall t w, (wait_task t w).2 = w) -> registry_ok w ->
  vztcp_device_manage w = Some m -> is_Some (find handle (vzsdk_service_map_ m)) ->
  exists w', run_call (Close handle) w = Done (0, w') /\
    disconnects handle w' = (disconnects handle w + 3)%nat.
Proof.
  intros Hwait Hw Em [p Hf]. pose proof (ro_map w Hw m Em) as [_ Hen].
  rewrite List.Forall_forall in Hen. destruct (Hen _ (find_In _ _ _ Hf)) as [Ho Hne]. cbn in Ho, Hne.
  destruct (DisconnectServer_posts p true w handle Hwait Ho Hne) as (r1 & w1 & E1 & H1 & D1).
  assert (Em1 : vztcp_device_manage w1 = Some m) by (destruct H1; congruence).
  set (w2 := set_manage (Some (mkManage (erase handle (vzsdk_service_map_ m)) (manage_conn_callback_ m))) w1).
  assert (Ho2 : session_of w2 p = Some handle).
  { change (session_of w2 p) with (session_of w1 p). by rewrite (same_registry_session _ _ _ H1). }
  destruct (DisconnectServer_posts p true w2 handle Hwait Ho2 Hne) as (r3 & w3 & E3 & H3 & D3).
  rewrite <- (same_registry_session _ _ p H3) in Ho2.
  destruct (DisconnectServer_posts p false w3 handle Hwait Ho2 Hne) as (r4 & w4 & E4 & _ & D4).
  eexists. split.
  - eapply (Close_run handle w m p r1 w1); [done..|]. fold w2. unfold delete_service, VzsdkService_Stop. go.
    rewrite E3, E4. reflexivity.
  - change (disconnects handle w4 = (disconnects handle w + 3)%nat).
    change (disconnects handle w2) with (disconnects handle w1) in D3. lia.
Qed.
End closing.
End registry.

(** ** What opening and closing do besides *)
Section opening.
Context {Address : Type} {HO : Host} {HP : Heap} {JT : DoubleText} {W : Waiting Address}.
Context {AT : AddressText Address} {IN : Indeterminate} {QW : QuietWaiting Address}.
Variables (current : Z).
Abbreviation sdk := (sdk Address).
Abbreviation World := (World Address).
Implicit Types (w : World).

(** [Open] returns the session id of the new device and leaves CREATE_FAILED as the
    last error: it passes the id to [SetLastError], which takes it for an error. *)
Theorem open_success_sets_error ip port w handle w' :
  VzLPRTcp_Open current ip port w = Done (handle, w') -> handle <> 0 ->
  g_LastError w' = VZ_LPRC_LASTERROR_CREATE_FAILED.
Proof.
  unfold VzLPRTcp_Open. go. destruct (CreateNewService current ip port w) as [[ret w1]| |]; [|done..].
  unfold SetLastError. go. destruct (Z.eqb_spec ret _vzsdk_success) as [->|]; intros [= <- <-] Hne; [|done].
  by destruct Hne.
Qed.

(** The first IP that is asked for is the answer for every device from then on. *)
Theorem GetIP_of_the_first_device handle w m p ip :
  device_ip_ w = Some ip -> vztcp_device_manage w = Some m -> find handle (vzsdk_service_map_ m) = Some p ->
  VzLPRTcp_GetIP handle w = Done (Some (c_str ip), w).
Proof.
  intros Hip Em Hf. unfold VzLPRTcp_GetIP, with_device, CheckDevice, CheckManage, SetLastError, GetService,
    the_manage. go. rewrite Em. cbn. rewrite Em. cbn. rewrite Hf. cbn. by rewrite Em; cbn; rewrite Hf; cbn; rewrite Hip.
Qed.

(** A service without a connection handle makes [notify_all] use a null pointer. *)
Definition no_change_conn w (p : Z) : Prop :=
  exists s, find p (services_ w) = Some s /\ change_conn_pushhandle s = None.
Lemma notify_step f k p l w :
  notify_all f ((k, p) :: l) w =
    match find p (services_ w) with
    | None => Undefined
    | Some s =>
      match change_conn_pushhandle s with
      | None => Undefined
      | Some h => notify_all f l (set_handles (next_ w) (update h (on_change (fun h => SetConnCallBack h f)) (handles_ w))
          (set_services (next_ w) (update p (fun s => set_conn_callback s f) (services_ w)) w))
      end
    end.
Proof.
  cbn [notify_all]. unfold VzsdkService_SetCommonNotifyCallBack, VzConnectDev_SetCommonNotifyCallBack, modify_service,
    modify_handle, the_service. go. cbn -[update]. rewrite find_update, Z.eqb_refl.
  destruct (find p (services_ w)) as [s|]; [|done]. cbn. by destruct (change_conn_pushhandle s).
Qed.
Lemma notify_all_undefined f l : forall w k p,
  In (k, p) l -> no_change_conn w p -> notify_all f l w = Undefined.
Proof.
  induction l as [|[k' q] l IH]; intros w k p Hin Hp; [done|]. rewrite notify_step.
  destruct Hin as [[= -> ->]|Hin].
  - destruct Hp as (s & -> & ->). done.
  - destruct (find q (services_ w)) as [s|] eqn:E; [|done].
    destruct (change_conn_pushhandle s) as [h|] eqn:Eh; [|done]. eapply IH; [exact Hin|].
    destruct Hp as (s' & Es' & Hn). unfold no_change_conn. cbn -[update]. rewrite find_update.
    destruct (Z.eqb_spec q p) as [->|]; [congruence|]. by eexists.
Qed.

(** The service a new [Open] makes. *)
Definition new_at w : World :=
  set_services (next_ w + 1 + 1 + 1)
    (insert (next_ w + 1 + 1)
       (mkService None None (next_ w) false (next_ w + 1) false garbage_callback None None) (services_ w))
    (set_handles (next_ w + 1 + 1)
       (insert (next_ w + 1) (Resume (ResumePushHandle_new (bytes "resume_rec") garbage garbage))
          (insert (next_ w) (Ivs (mkIvs (bytes "ivs_result") None false SESSION_ID_INVALUE)) (handles_ w))) w).

Lemma no_change_update w n p f q :
  (forall s, change_conn_pushhandle (f s) = change_conn_pushhandle s) ->
  no_change_conn w q -> no_change_conn (set_services n (update p f (services_ w)) w) q.
Proof.
  intros Hf (s & E & Hs). unfold no_change_conn. cbn -[update]. rewrite find_update, E.
  destruct (Z.eqb_spec p q) as [->|]; [rewrite E|]; eexists; split; try reflexivity; [by rewrite Hf|done].
Qed.

(** Waits in which nothing happens. *)
Definition nothing_happens : Prop :=
  forall (t : Task Address) w, answered (wait_task t w).1 = false /\ (wait_task t w).2 = w.
Lemma ConnectServer_timeout p a w :
  nothing_happens -> exists w', ConnectServer p current a w = Done (0, w') /\
    vztcp_device_manage w' = vztcp_device_manage w /\ g_LastError w' = g_LastError w /\
    forall q, no_change_conn w q -> no_change_conn w' q.
Proof.
  intros Hno. unfold ConnectServer, new_task, ConnectTask_new, Task_new, SyncProcessTask, Client.PostTask. go.
  match goal with |- context [wait_task ?t ?x] =>
    destruct (Hno t x) as [H1 H2]; destruct (wait_task t x) as [msg w2] end.
  cbn in H1, H2. subst w2. rewrite H1. unfold modify_service. go. eexists. split; [reflexivity|].
  split; [done|]. split; [done|]. intros q Hq. by apply no_change_update.
Qed.

Lemma initModule_new w : registry_ok w ->
  initModule (Address := Address) w = Done (next_ w + 1 + 1, new_at w) /\ no_change_conn (new_at w) (next_ w + 1 + 1).
Proof.
  intros Hw. split; [done|]. unfold no_change_conn, new_at. cbn. rewrite find_insert, Z.eqb_refl by apply Hw.
  destruct (find (next_ w + 1 + 1) (services_ w)) eqn:E; [|by eexists]. apply find_In in E.
  pose proof (ro_next w Hw) as Hn. rewrite List.Forall_forall in Hn. apply Hn in E. simpl in E. lia.
Qed.

(** A device that does not answer in time: [ConnectServer] returns
    [DEFAULT_RESULT_TIMEOUT], 0, which is not [SESSION_ID_INVALUE].  The service that
    never connected is kept under handle 0, [Open] reports no error, and the next
    [SetCommonNotifyCallBack] goes through a null pointer. *)
Theorem open_timeout_is_kept ip port w m f remote_address :
  nothing_happens -> registry_ok w -> SocketAddress ip (u16 port) = Done remote_address ->
  vztcp_device_manage w = Some m -> find 0 (vzsdk_service_map_ m) = None ->
  exists w' m' p, run_call current (Open ip port) w = Done (0, w') /\ g_LastError w' = g_LastError w /\
    vztcp_device_manage w' = Some m' /\ find 0 (vzsdk_service_map_ m') = Some p /\
    run_call current (CallSetCommonNotifyCallBack f) w' = Undefined.
Proof.
  intros Hno Hw Ha Em Hf. pose proof (ro_map w Hw m Em) as [Hso _].
  destruct (initModule_new w Hw) as [Hi Hn1].
  set (p := next_ w + 1 + 1) in *. set (wn := new_at w) in *.
  destruct (ConnectServer_timeout p remote_address wn Hno) as (w2 & E2 & Hm2 & He2 & Hn2).
  change (vztcp_device_manage wn) with (vztcp_device_manage w) in Hm2. rewrite Em in Hm2.
  set (m' := mkManage (insert 0 p (vzsdk_service_map_ m)) (manage_conn_callback_ m)).
  assert (Hin : find 0 (insert 0 p (vzsdk_service_map_ m)) = Some p) by (rewrite find_insert by done; by rewrite Hf).
  assert (Hrun : exists w', run_call current (Open ip port) w = Done (0, w') /\ g_LastError w' = g_LastError w /\
    vztcp_device_manage w' = Some m' /\ no_change_conn w' p).
  { cbn [run_call]. unfold VzLPRTcp_Open, CreateNewService, the_manage. go. rewrite Hi.
    change (vztcp_device_manage wn) with (vztcp_device_manage w). rewrite Em. run. rewrite Ha. run. rewrite E2, Hm2. cbn -[update].
    unfold ExistService, the_manage, set_service_map, the_manage. go. cbn -[update]. rewrite Hm2. cbn -[update].
    change DEFAULT_RESULT_TIMEOUT with 0. rewrite Hf. cbn -[update insert]. rewrite Hm2. cbn -[update insert].
    eexists. split; [reflexivity|]. split; [exact He2|]. split; [reflexivity|].
    by apply (no_change_update w2), Hn2. }
  destruct Hrun as (w' & E & He & Em' & Hn). exists w', m', p. split_and!; try done.
  cbn [run_call]. unfold VzLPRTcp_SetCommonNotifyCallBack, CheckManage, SetLastError, SetCommonNotifyCallBack,
    the_manage. go. rewrite Em'. cbn -[notify_all]. rewrite Em'. cbn -[notify_all].
  by rewrite (notify_all_undefined f _ _ 0 p); [|apply find_In|].
Qed.

End opening.

(** ** Concrete runs: one device, which answers at once *)
Section demo.
Local Existing Instances little_endian zero_heap demo_double.

Definition demo_address : AddressText Z := {| SocketAddress := fun _ port => Done port; ipaddr := fun a => Done [a] |}.
Definition demo_garbage : Indeterminate :=
  {| garbage := 77; garbage_callback := None; garbage_record := mkRecord 77 77 |}.
(** What the device, whose session is 2, answers. *)
Definition demo_reply (t : Task Z) : Message Z :=
  let answer s := mkMessage (Some (task_id_ t)) (task_id_ t) (Some s) 0 in
  match kind t with
  | ConnectTask | ReConnectTask => answer (mkStanza RES_CONNECTED_EVENT 2 NoBody)
  | DisconnectTask _ => answer (mkStanza RES_DISCONNECTED_EVENT_SUCCEED 2 NoBody)
  | ReqPushTask _ => answer (mkStanza RES_PUSH_SUCCEED 2 NoBody)
  | ReqTask _ _ | ReqRecordTask _ _ => answer (ResponseData 2 (objectValue [("value"%string, uintValue 1)]) [])
  end.
Definition demo_waiting : Waiting Z := fun t w => (demo_reply t, w).
Local Existing Instances demo_address demo_garbage demo_waiting.
Instance demo_quiet : QuietWaiting Z.
Proof. intros t w. constructor; done || lia. Qed.
Lemma demo_waiting_data (t : Task Z) (w : World Z) :
  answered (wait_task t w).1 = true -> is_Some (MessageQueue.pdata (wait_task t w).1).
Proof. intros _. cbn. unfold demo_reply. by destruct (kind t); eexists. Qed.

Definition demo_start : World Z := mkWorld 1 1 [] [] demo_manager None 0 None [].
Definition world_after (cs : list (Call)) : World Z :=
  match run_calls 9 cs demo_start with Done (_, w) => w | _ => demo_start end.
Definition demo_world : World Z := world_after [Setup; Open [49] 80].
Lemma demo_start_ok : registry_ok demo_start.
Proof. constructor; [constructor|constructor|discriminate]. Qed.
Lemma demo_world_ok : registry_ok demo_world.
Proof.
  apply (run_calls_ok 9 [Setup; Open [49] 80] demo_start [0; 2] demo_world demo_start_ok).
  vm_compute. reflexivity.
Qed.
Definition demo_manage : VzTcpDeviceManage := default (mkManage [] None) (vztcp_device_manage demo_world).

Lemma handles_are_session_ids_witness :
  GetService 2 demo_world = Done (Some 3, demo_world) /\
  GetSessionID 3 demo_world = Done (2, demo_world) /\ 2 <> SESSION_ID_INVALUE.
Proof.
  apply (handles_are_session_ids 9 [Setup; Open [49] 80] demo_start [0; 2] demo_world demo_manage).
  - exact demo_start_ok.
  - vm_compute. reflexivity.
  - vm_compute. reflexivity.
  - vm_compute. reflexivity.
Defined.

Lemma unknown_handle_witness :
  run_call 9 (CallSerialStop 5) demo_world = Done (-1, set_error VZ_LPRC_LASTERROR_INVALID_HANDLE demo_world).
Proof.
  apply (unknown_handle 9 (CallSerialStop 5) 5 demo_world demo_manage).
  - reflexivity.
  - vm_compute. reflexivity.
  - vm_compute. reflexivity.
Defined.

Lemma not_setup_witness :
  (forall c h, handle_of c = Some h ->
    run_call 9 c demo_start = Done (-1, set_error VZ_LPRC_LASTERROR_NOT_SETUP demo_start)) /\
  (forall ip port, run_call 9 (Open ip port) demo_start = Undefined) /\
  (forall ip, run_call 9 (CloseByIP ip) demo_start = Undefined).
Proof. apply not_setup. reflexivity. Defined.

Lemma close_removes_handle_witness :
  exists w' m', run_call 9 (Close 2) demo_world = Done (0, w') /\ registry_ok w' /\
    vztcp_device_manage w' = Some m' /\
    forall k, find k (vzsdk_service_map_ m') =
      if 2 =? k then None else find k (vzsdk_service_map_ demo_manage).
Proof.
  apply (close_removes_handle 9 demo_waiting_data 2 demo_world demo_manage).
  - exact demo_world_ok.
  - vm_compute. reflexivity.
  - vm_compute. by eexists.
Defined.

Lemma close_disconnects_three_times_witness :
  exists w', run_call 9 (Close 2) demo_world = Done (0, w') /\ disconnects 2 w' = (disconnects 2 demo_world + 3)%nat.
Proof.
  apply (close_disconnects_three_times 9 demo_waiting_data 2 demo_world demo_manage).
  - reflexivity.
  - exact demo_world_ok.
  - vm_compute. reflexivity.
  - vm_compute. by eexists.
Defined.

Lemma open_success_sets_error_witness :
  g_LastError demo_world = VZ_LPRC_LASTERROR_CREATE_FAILED.
Proof.
  apply (open_success_sets_error 9 [49] 80 (world_after [Setup]) 2 demo_world).
  - vm_compute. reflexivity.
  - discriminate.
Defined.

Lemma GetIP_of_the_first_device_witness :
  VzLPRTcp_GetIP 2 (set_device_ip (Some [50]) demo_world) = Done (Some [50], set_device_ip (Some [50]) demo_world).
Proof.
  apply (GetIP_of_the_first_device 2 (set_device_ip (Some [50]) demo_world) demo_manage 3 [50]).
  - reflexivity.
  - vm_compute. reflexivity.
  - vm_compute. reflexivity.
Defined.

Lemma open_timeout_is_kept_witness :
  let W := no_answer in
  exists w' m' p, run_call 9 (Open [49] 80) (world_after [Setup]) = Done (0, w') /\
    g_LastError w' = g_LastError (world_after [Setup]) /\
    vztcp_device_manage w' = Some m' /\ find 0 (vzsdk_service_map_ m') = Some p /\
    run_call 9 (CallSetCommonNotifyCallBack (Some 4)) w' = Undefined.
Proof.
  intros W. apply (open_timeout_is_kept 9 [49] 80 (world_after [Setup]) (mkManage [] None) (Some 4) 80).
  - intros t w. by split.
  - constructor; [constructor|constructor|]. intros m [= <-]. split; constructor.
  - reflexivity.
  - reflexivity.
  - reflexivity.
Defined.
End demo.
