(* ===== verification/DeviceAddress.v ===== *)
(** * The addresses of devices: base/socketaddress.h under vzsdk/vzconnectdev.cpp

    The instance of the interface [AddressText], whose theorems about addresses hold for the addresses
    clients open and are told, and runs of the exported functions on it. *)
From Stdlib Require Import Ascii String.
From S2P Require Import Prelude Text ByteOrder InetText IpAddress SocketAddr.
From S2P Require Import StdMap ByteBuffer MessageQueue Json JsonText Session InternalMessage Task CommandAnalysis PushHandle PushManager SessionManager Client Devices Recognition DeviceManage Registry.

Section device_address.
Context {HO : Host}.
#[global] Instance device_address : AddressText SocketAddr.SocketAddress :=
  { DeviceManage.SocketAddress := SocketAddress_name; ipaddr a := ToString (ip_ a) }.

(** The text of an IP that is opened is the text that is told, and the port is the one given. *)
Theorem opened_ip_is_told ip port : ip_wf ip -> ip_readable ip ->
  exists text a, ToString ip = Done text /\ DeviceManage.SocketAddress text (u16 port) = Done a /\ ipaddr a = Done text /\ port_ a = u16 port.
Proof.
  intros Hw Hr. destruct (ip_text_readable ip Hw Hr) as (text & Et & _ & Ei). exists text. eexists. split_and!; [done| | |].
  - change (DeviceManage.SocketAddress text (u16 port)) with (SocketAddress_name text (u16 port)). unfold SocketAddress_name. by rewrite (SetIP_name_readable _ _ _ Ei).
  - done.
  - cbn. unfold u16, wrap. by rewrite Z.mod_mod by done.
Qed.
(** Another name is resolved when the session connects, but that address does not come back: the text told stays empty. *)
Theorem opened_name_is_not_told name ip port : IPFromString name = Done (false, ip) ->
  exists a, DeviceManage.SocketAddress name port = Done a /\ hostname_ a = name /\ ipaddr a = Done [].
Proof.
  intros E. change (DeviceManage.SocketAddress name port) with (SocketAddress_name name port). unfold SocketAddress_name, SetIP_name. rewrite E. run.
  eexists. by split_and!.
Qed.
End device_address.

Section runs.
#[local] Existing Instances little_endian zero_heap demo_double demo_garbage.
(** What a device answers whose session is 2. *)
Definition device_reply (t : Task SocketAddr.SocketAddress) : Message SocketAddr.SocketAddress :=
  let answer s := mkMessage (Some (task_id_ t)) (task_id_ t) (Some s) 0 in
  match kind t with
  | ConnectTask | ReConnectTask => answer (mkStanza RES_CONNECTED_EVENT 2 NoBody)
  | DisconnectTask _ => answer (mkStanza RES_DISCONNECTED_EVENT_SUCCEED 2 NoBody)
  | ReqPushTask _ => answer (mkStanza RES_PUSH_SUCCEED 2 NoBody)
  | ReqTask _ _ | ReqRecordTask _ _ => answer (ResponseData 2 (objectValue [("value"%string, uintValue 1)]) [])
  end.
#[local] Instance device_waiting : Waiting SocketAddr.SocketAddress := fun t w => (device_reply t, w).
Definition fresh_world : World SocketAddr.SocketAddress := mkWorld 1 1 [] [] demo_manager None 0 None [].
Definition told (ip : list Z) : outcome (option (list Z)) :=
  '(handle, w) ← VzLPRTcp_Setup (Address := SocketAddr.SocketAddress) fresh_world; '(handle, w) ← VzLPRTcp_Open 9 ip 8131 w; '(ip, _) ← VzLPRTcp_GetIP handle w; Done ip.
(** An address and a name are opened, and told. *)
Example told_ip : told (bytes "192.168.1.100") = Done (Some (bytes "192.168.1.100")).
Proof. by vm_compute. Qed.
Example told_name : told (bytes "camera.local") = Done (Some []).
Proof. by vm_compute. Qed.
(** A text with too many colons makes the parser of IPv6 addresses write behind its array. *)
Example told_colons : told (bytes "::1:2:3:4:5:6:7:8:9") = Undefined.
Proof. by vm_compute. Qed.
End runs.
